(* ===== verification/_CoqProject ===== *)
-Q . S2P
Prelude.v
PyDict.v
EvictorBase.v
LRUEvictor.v
PDP.v
PDPEvictor.v
ShadowPolicyCache.v
PolicyScheduler.v
SortedDict.v
LRUMLEvictor.v
LRUMLCorrect.v
BlockCommon.v
NaiveBlock.v
NaiveProgress.v
BlockInterfaces.v
CpuGpuAllocator.v
CpuGpuCorrect.v
CpuGpuSwap.v
BlockTable.v
BlockTableCorrect.v
PrefixCaching.v
PrefixInvariant.v
PrefixOperations.v
PrefixSequences.v
EvictorMethods.v
PrefixCorrect.v
ComputedBlocks.v
BlockManager.v
BlockManagerCorrect.v
BlockManagerProtocol.v
V0Sequence.v
V0Budget.v
BlockSpaceManager.v
V0Scheduler.v
V0SchedulerCorrect.v
V0ManagerErrors.v
V0SchedulerProtocol.v
V0Worker.v
FreeQueue.v
NgramProposer.v
RejectionSampler.v
Detokenizer.v
DetokenizerCorrect.v
V1Request.v
BlockHashing.v
V1BlockPool.v
V1PoolCorrect.v
KVCacheManager.v
KVManagerCorrect.v
KVManagerChain.v
KVManagerProtocol.v
EncoderCache.v
KVCacheConfig.v
V1Scheduler.v
EngineCore.v
V1SchedulerInv.v
V1SchedulerSchedule.v
V1SchedulerUpdate.v
EngineCoreCorrect.v
Params.v
V1FrontEnd.v
OutputProcessorCorrect.v
V1FrontEndCorrect.v
Arrays.v
WorkerBlockTable.v
InputBatch.v
InputBatchCorrect.v
ModelRunner.v
ModelRunnerCorrect.v
ModelRunnerInputs.v
WorkerStep.v
WorkerSampling.v
WorkerReorder.v
WorkerPrepare.v
