(* ===== verification/Prelude.v ===== *)
(** * The block-management core of this vLLM fork

    The development models the part of the repository that decides which KV-cache
    block holds which tokens: the eviction policies of the fork, the block
    allocators, block tables, block manager and scheduler of the v0 engine, and
    the block pool, KV-cache manager, scheduler, engine core, front end and worker
    of the v1 engine.
    This file is its prelude; the end of this comment says what it holds.

    ** The parts and how they interact

    _Eviction policies_, [src/vllm/vllm/core/evictor.py].  A free block that still
    holds a cached prefix is handed to an evictor, which names a victim when a
    block is needed.
    - [EvictorBase]: configuration string, hints, reuse probability, survival
      statistics, and the interface [Evictor] with its laws ([EvictorLaws]).
    - [LRUEvictor], [PDPEvictor] (with the arithmetic of [PDP]), [LRUMLEvictor]
      (over the interface of a third-party sorted container, [SortedDict]; its
      proofs in [LRUMLCorrect]): one policy each, with its state as a record [t]
      and one definition per method.
    - [ShadowPolicyCache], [PolicyScheduler]: the metadata-only caches that replay
      the warm-up and the choice of the policy from their hit rates.
      [LRUMLEvictor] owns an [EvictionPolicyScheduler].
    - [EvictorMethods]: the policies as instances of the interface.

    _Block allocators of v0_, [src/vllm/vllm/core/block/].
    - [BlockCommon] ([common.py]): reference counts, copy-on-write records, the
      pool of block objects, block lists, the hit metric.
    - [NaiveBlock] ([naive_block.py]) and [PrefixCaching]
      ([prefix_caching_block.py]): the two allocators.  [PrefixCaching] is generic
      in the policy, through [Evictor] and [EvictorHooks]; [PrefixInvariant],
      [PrefixOperations], [PrefixSequences] prove that its operations keep its
      invariant, [PrefixCorrect] states what clients can rely on.
    - [ComputedBlocks] (end of [prefix_caching_block.py]): the trackers of
      computed blocks and of last accesses.

    _Block tables and block manager of v0_, [src/vllm/vllm/core/].
    - [BlockInterfaces] ([block/interfaces.py]): the interface
      [DeviceAwareBlockAllocator] of an allocator for both devices, and its laws
      [DeviceAwareLaws], against which tables and manager are verified.
    - [CpuGpuAllocator] ([block/cpu_gpu_block_allocator.py]): the allocator over
      two naive ones.  [NaiveProgress] shows when the naive allocator's calls
      return, [CpuGpuCorrect] that the laws hold, [CpuGpuSwap] what swapping does.
    - [BlockTable] ([block/block_table.py]; proofs in [BlockTableCorrect]) and
      [BlockManager] ([block_manager.py]; proofs in [BlockManagerCorrect], and in
      [BlockManagerProtocol] for the manager as the scheduler uses it), generic in
      the allocator.

    _Scheduler and sequences of v0_, [src/vllm/vllm/].
    - [V0Sequence] ([sequence.py]): sequence data, sequences and groups;
      [V0Worker] ([worker/worker.py]): the copies that the workers keep of them.
    - [V0Budget] and [V0Scheduler] ([core/scheduler.py]): the budgets, and the
      whole scheduler, generic in the block manager through the interface
      [BlockSpaceManager] ([core/interfaces.py]), whose instances are the manager
      above and the placeholder.  Proofs in [V0SchedulerCorrect] and
      [V0SchedulerProtocol]; [V0ManagerErrors] shows that the calls of the manager
      end, for any allocator whose calls do.

    _v1_, [src/vllm/vllm/v1/].
    - [FreeQueue], [BlockHashing], [KVCacheConfig] ([core/kv_cache_utils.py],
      [kv_cache_interface.py]), [V1Request] ([request.py]).
    - [V1BlockPool] ([core/block_pool.py]; proofs in [V1PoolCorrect]),
      [KVCacheManager] ([core/kv_cache_manager.py]; proofs in
      [KVManagerCorrect], [KVManagerChain], [KVManagerProtocol]),
      [EncoderCache] ([core/encoder_cache_manager.py]).
    - [V1Scheduler] ([core/scheduler.py]) puts them together; [EngineCore]
      ([engine/core.py]) runs it.  [V1SchedulerInv], [V1SchedulerSchedule],
      [V1SchedulerUpdate], [EngineCoreCorrect] hold their proofs.
    - [NgramProposer] ([spec_decode/ngram_proposer.py]): the tokens speculated from
      the request's own text.
    - [Params] ([vllm/sampling_params.py]), [Detokenizer] ([engine/detokenizer.py],
      [vllm/transformers_utils/detokenizer_utils.py] and the search for stop
      strings; proofs in [DetokenizerCorrect]) and [V1FrontEnd]
      ([engine/parallel_sampling.py], [engine/output_processor.py],
      [engine/processor.py], [engine/llm_engine.py], [engine/async_llm.py]): what
      happens to a request before it reaches the engine core and to its outputs
      after they leave it.  Proofs in [OutputProcessorCorrect] and
      [V1FrontEndCorrect].
    - The worker: [Arrays] (what is used of NumPy and torch),
      [WorkerBlockTable] ([worker/block_table.py]), [InputBatch]
      ([worker/gpu_input_batch.py]; proofs in [InputBatchCorrect]), [ModelRunner]
      ([worker/gpu_model_runner.py] and the reordering hooks of
      [attention/backends/flash_attn.py] and [attention/backends/mla/common.py]) and [RejectionSampler]
      ([sample/rejection_sampler.py]).  The worker keeps the requests of the
      scheduler's messages in the slots of a batch, and makes flat arrays of them
      for the model.  [ModelRunnerCorrect]: what a message makes of the batch;
      [ModelRunnerInputs]: what the arrays are; [WorkerStep]: both together, for
      any order of the slots; [WorkerSampling]: the sampling parameters by slot;
      [WorkerReorder]: the order that the MLA backend wants; [WorkerPrepare]: a
      whole step, [_update_states] and [_prepare_inputs].

    ** Conventions

    A class is a module; its fields are a record [t], [with_f] assigns the field
    [f], and a method that changes state is a computation of [M t A]: it returns
    or raises, and the state it leaves survives the exception, as in Python.
    Objects that several places refer to and mutate (blocks, requests) live in a
    store and are referred to by key.  A dictionary is a [gmap] where the code
    only looks keys up, and a [pydict] ([PyDict]) where it observes insertion
    order; a set is a [gset].  Python's integers are unbounded and are [Z];
    floats are exact rationals, so rounding is not modelled.  Clocks, [hash],
    numpy's [exp], the model executor, the sorted container and the multi-modal
    registry are parameters.

    A [while] loop and a recursion over objects take a bound and answer
    [OutOfFuel] beyond it; Python's own bound on recursion is [RecursionError],
    for the chain of predecessors of a block in [BlockCommon].  The bounds are taken from the state, and the theorems
    show that they are enough: an eviction loop removes an entry per round, so
    the number of entries bounds it; the chain of predecessors of a block visits
    each object once; the waiting loop of the scheduler makes at most one round
    per waiting request and per set-aside one, and each preemption of the running
    loop shortens the running queue.  A loop of the v0 scheduler takes a group off
    its queue in every round.

    ** What is shown

    - Engine core and scheduler ([EngineCoreCorrect]): for text requests without
      speculation no call raises, the queues, the request store and the block
      tables stay consistent, a step stays within the token and sequence budgets,
      and a step with work to do makes progress.  Two ways in which the code does
      not do what it should: a request that is preempted while its batch is in
      flight, and then aborted, stops the engine for good (a law of any such
      state, [EngineCore]), and an execution overcommits the encoder cache.
    - Front end of v1 ([V1FrontEndCorrect], [OutputProcessorCorrect],
      [DetokenizerCorrect], [NgramProposer]): the output processor and the core
      know the same requests, if each limits its tokens; the text streamed for a request is never taken
      back; a request with several samples is answered once; the search for stop
      strings in the new text, and the speculation's string search, find what a
      search of everything would.  A request without a token limit wedges the
      engine, aborting a request with several samples aborts nothing, and merging
      streamed outputs loses the finish reason.
    - Worker of v1 ([WorkerStep], [WorkerPrepare], [WorkerSampling],
      [WorkerReorder], [RejectionSampler]): the batch refines a map from slots to
      requests; a message that is true of the requests is heard, and the tokens,
      positions and cache slots that the model gets are those the message asks
      for, with either attention backend; each request is sampled with its own
      parameters; the reordering for MLA puts decodes first and loses no request;
      greedy verification of drafts gives the tokens of greedy decoding.  The
      hypotheses of the first say what the code relies on (a message of the
      scheduler, indices within 32 bits, accepted drafts before the computed
      tokens).  What the worker does not do as it should: the logit bias of a
      request that is moved stays in its old slot for the next request, and
      accepted drafts are forgotten (both laws of any batch and any request);
      executions show drafts that are not stored, and drafts in the order of the
      wrong collection.
    - KV-cache manager ([KVManagerCorrect], [KVManagerProtocol]): reference counts
      count table entries and the free queue holds the rest, under every call and
      every error; the incremental hashes are the ones computed from scratch;
      [allocate_slots] refuses exactly when blocks are short; a freed prefix is
      found again.  [FreeQueue] refines the linked list to a list.
    - Prefix-caching and naive allocators ([PrefixCorrect], [ComputedBlocks],
      [NaiveBlock]): ids are accounted for, an allocation is fresh, two full blocks
      share an id exactly when they hold the same prefix, appending never writes
      to a shared block, and the longest cached prefix is found.
    - Block manager of v0 ([BlockManagerProtocol], [CpuGpuSwap]): with prefix
      caching and the sliding window off and nothing swapped, a sequence's table always holds the sequence's tokens, what the
      manager admits it can do, swapping out and in restores the blocks, and a
      sequence cannot be freed, because the code asks for a hint that it has not.
    - Scheduler of v0 ([V0SchedulerProtocol], [V0Worker]), with and without
      asynchronous output processing, whose callback is arbitrary: a step ends,
      whatever the state; it loses and duplicates no group, where those that the
      asynchronous processing stops or finishes are accounted for; without prompts
      it keeps the order of the groups and preempts the last ones; and with every message the
      workers' copies of the sequences become those of the engine.  Preemption by
      priority with swapping leaves a group in the waiting queue at which the
      scheduler stops with an assertion.
    - Policies: each evictor returns the victim its policy prescribes and always
      returns one when it holds a block; its queues stay bounded; the scheduler
      decides once, by the rates the shadow caches measured.

    ** What is not modelled

    The rest of the repository has no state of this kind or is not Python: the
    CUDA and C++ kernels ([csrc]), the models and layers ([model_executor],
    [attention]), executors and distributed transport, the HTTP and CLI
    front ends, tokenizers and multi-modal processors, LoRA weights, structured
    output back ends, and the configuration classes.  Of the v1 front end the
    sockets and processes, log probabilities, metrics and multi-modal inputs are
    left out; the tokenizer is a parameter.  Of the v1 worker running the model,
    the sampler, multi-modal inputs, M-RoPE, LoRA activation and log probabilities
    are left out; of the v0 workers all but their copies of the sequences.  Of the
    v0 engine what is above the scheduler is not modelled; its output callback is
    a parameter of the scheduler's model.  The CPU/GPU allocator is modelled
    over naive allocators only: the prefix-caching allocator has its own
    model and theorems, without [swap_in], and is not composed with the block
    manager.  The learned predictor
    ([benchmarks], [learn_conversation]) is the source of the hints, which here
    are arbitrary.  Log lines and the printing of statistics are left out
    everywhere.

    ** The prelude: Python's runtime as the models use it

    What every component file shares: exceptions and the state-and-exception
    monad [M] in which the methods are written, exact rationals for Python's
    floats, the lexicographic order of Python's tuples of numbers, [min] with
    a key, and lemmas on lists.  The only code of the repository here is [cdiv]
    ([src/vllm/vllm/utils.py]). *)
From stdpp Require Export base tactics option list numbers strings gmap sets.
From Stdlib Require Export QArith Lqa Qminmax.
From Stdlib Require Export Sorting.Sorted.

#[global] Open Scope Z_scope.

(** ** Exceptions and results

    [OutOfFuel] is no Python exception: a [while] loop modelled with a bound
    answers it when the bound is exceeded, and termination theorems show that
    it is not. *)

Inductive exn : Type :=
  | AssertionError
  | ValueError
  | KeyError
  | IndexError
  | AttributeError
  | TypeError
  | ZeroDivisionError
  | RuntimeError
  | NotImplementedError
  | UnboundLocalError
  | NoFreeBlocksError
  | RecursionError
  | OutOfFuel.

#[global] Instance exn_eq_dec : EqDecision exn.
Proof. solve_decision. Defined.

Inductive result (A : Type) : Type :=
  | Ok (a : A)
  | Err (e : exn).
Arguments Ok {A} a.
Arguments Err {A} e.

#[global] Instance result_eq_dec {A} `{!EqDecision A} : EqDecision (result A).
Proof. solve_decision. Defined.

#[global] Instance result_ret : MRet result := fun A a => Ok a.
#[global] Instance result_bind : MBind result := fun A B f r =>
  match r with Ok a => f a | Err e => Err e end.
#[global] Instance result_fmap : FMap result := fun A B f r =>
  match r with Ok a => Ok (f a) | Err e => Err e end.

Definition is_ok {A} (r : result A) : bool :=
  match r with Ok _ => true | Err _ => false end.

(** [d[k]]: a missing key raises. *)
Definition from_option_exn {A} (e : exn) (o : option A) : result A :=
  match o with Some a => Ok a | None => Err e end.

Lemma result_bind_ok {A B} (f : A -> result B) (r : result A) b :
  r ≫= f = Ok b <-> exists a, r = Ok a /\ f a = Ok b.
Proof.
  destruct r as [a|e]; cbn; split.
  - eauto.
  - intros (? & [= ->] & ?); done.
  - done.
  - intros (? & ? & ?); done.
Qed.

(** ** The method monad: a state that survives a raised exception *)

Definition M (S A : Type) : Type := S -> result A * S.

#[global] Instance M_ret S : MRet (M S) := fun A a s => (Ok a, s).
#[global] Instance M_bind S : MBind (M S) := fun A B f m s =>
  match m s with
  | (Ok a, s') => f a s'
  | (Err e, s') => (Err e, s')
  end.
#[global] Instance M_fmap S : FMap (M S) := fun A B f m s =>
  match m s with
  | (Ok a, s') => (Ok (f a), s')
  | (Err e, s') => (Err e, s')
  end.

Section Monad.
Context {S : Type}.

Definition raise {A} (e : exn) : M S A := fun s => (Err e, s).
Definition get : M S S := fun s => (Ok s, s).
Definition gets {A} (f : S -> A) : M S A := fun s => (Ok (f s), s).
Definition modify (f : S -> S) : M S unit := fun s => (Ok tt, f s).
Definition lift {A} (r : result A) : M S A := fun s => (r, s).
Definition assert_ (b : bool) : M S unit :=
  if b then mret tt else raise AssertionError.

(** [for x in l: body(x)] *)
Fixpoint for_each {A} (l : list A) (body : A -> M S unit) : M S unit :=
  match l with
  | [] => mret tt
  | x :: l' => body x ;; for_each l' body
  end.

(** A list comprehension over an effectful body. *)
Fixpoint map_each {A B} (l : list A) (body : A -> M S B) : M S (list B) :=
  match l with
  | [] => mret []
  | x :: l' => y ← body x; ys ← map_each l' body; mret (y :: ys)
  end.

(** [m] succeeds from [s] with value [a] in state [s']. *)
Definition returns {A} (m : M S A) (s : S) (a : A) (s' : S) : Prop :=
  m s = (Ok a, s').

(** [m] keeps [I] whether it returns or raises. *)
Definition preserves {A} (I : S -> Prop) (m : M S A) : Prop :=
  forall s, I s -> I (m s).2.

Lemma bind_ok {A B} (m : M S A) (f : A -> M S B) s b s' :
  (m ≫= f) s = (Ok b, s') <->
  exists a s1, m s = (Ok a, s1) /\ f a s1 = (Ok b, s').
Proof.
  unfold mbind, M_bind. destruct (m s) as [[a|e] s1]; split.
  - eauto.
  - intros (? & ? & [= -> ->] & ?); done.
  - done.
  - intros (? & ? & ? & ?); done.
Qed.

Lemma bind_run {A B} (m : M S A) (f : A -> M S B) s :
  (m ≫= f) s = match m s with
               | (Ok a, s') => f a s'
               | (Err e, s') => (Err e, s')
               end.
Proof. done. Qed.

Lemma bind_step {A B} (m : M S A) (f : A -> M S B) s a s' :
  m s = (Ok a, s') -> (m ≫= f) s = f a s'.
Proof. intros H. by rewrite bind_run, H. Qed.

Lemma preserves_ret {A} (I : S -> Prop) (a : A) : preserves I (mret a).
Proof. by intros s. Qed.
Lemma preserves_raise {A} (I : S -> Prop) e : preserves I (@raise A e).
Proof. by intros s. Qed.
Lemma preserves_gets {A} (I : S -> Prop) (f : S -> A) : preserves I (gets f).
Proof. by intros s. Qed.
Lemma preserves_get (I : S -> Prop) : preserves I get.
Proof. by intros s. Qed.
Lemma preserves_modify (I : S -> Prop) (f : S -> S) :
  (forall s, I s -> I (f s)) -> preserves I (modify f).
Proof. intros Hf s Hs. by apply Hf. Qed.
Lemma preserves_lift {A} (I : S -> Prop) (r : result A) : preserves I (lift r).
Proof. by intros s. Qed.
Lemma preserves_assert (I : S -> Prop) b : preserves I (assert_ b).
Proof. by destruct b; intros s. Qed.

Lemma preserves_bind {A B} (I : S -> Prop) (m : M S A) (f : A -> M S B) :
  preserves I m -> (forall a, preserves I (f a)) -> preserves I (m ≫= f).
Proof.
  intros Hm Hf s Hs. unfold mbind, M_bind. specialize (Hm s Hs).
  destruct (m s) as [[a|e] s1]; cbn in *; [by apply Hf | done].
Qed.

Lemma preserves_map_each {A B} (I : S -> Prop) (l : list A) (body : A -> M S B) :
  (forall x, preserves I (body x)) -> preserves I (map_each l body).
Proof.
  intros Hb. induction l as [|x l IH]; cbn; [apply preserves_ret|].
  apply preserves_bind; [done|]. intros a. apply preserves_bind; [done|]. intros; apply preserves_ret.
Qed.

Lemma preserves_for_each {A} (I : S -> Prop) (l : list A) body :
  (forall x, preserves I (body x)) -> preserves I (for_each l body).
Proof.
  intros Hb. induction l as [|x l IH]; cbn; [apply preserves_ret|].
  by apply preserves_bind.
Qed.
(** Total correctness of a call: it returns, and what it returns and leaves
    satisfies [Q]. *)
Definition meets {A} (m : M S A) (s : S) (Q : A -> S -> Prop) : Prop :=
  match m s with
  | (Ok a, s') => Q a s'
  | (Err _, _) => False
  end.

Lemma meets_run {A} (m : M S A) s Q :
  meets m s Q <-> exists a s', m s = (Ok a, s') /\ Q a s'.
Proof.
  unfold meets. destruct (m s) as [[a|e] s']; split; try done.
  - eauto.
  - by intros (? & ? & [= <- <-] & ?).
  - by intros (? & ? & ? & _).
Qed.

Lemma meets_ret {A} (a : A) s (Q : A -> S -> Prop) : Q a s -> meets (mret a) s Q.
Proof. done. Qed.

Lemma meets_bind {A B} (m : M S A) (f : A -> M S B) s (R : A -> S -> Prop) (Q : B -> S -> Prop) :
  meets m s R -> (forall a s', R a s' -> meets (f a) s' Q) -> meets (m ≫= f) s Q.
Proof.
  unfold meets at 1 3. rewrite bind_run. destruct (m s) as [[a|e] s']; [|done]. intros HR Hf. by apply Hf.
Qed.

Lemma meets_weaken {A} (m : M S A) s (Q Q' : A -> S -> Prop) :
  meets m s Q -> (forall a s', Q a s' -> Q' a s') -> meets m s Q'.
Proof. unfold meets. destruct (m s) as [[a|e] s']; eauto. Qed.

Lemma meets_step {A B} (m : M S A) (f : A -> M S B) s a s' (Q : B -> S -> Prop) :
  m s = (Ok a, s') -> meets (f a) s' Q -> meets (m ≫= f) s Q.
Proof. intros Hm Hf. unfold meets. by rewrite (bind_step m f s a s' Hm). Qed.

Lemma meets_get {B} (f : S -> M S B) s (Q : B -> S -> Prop) :
  meets (f s) s Q -> meets (get ≫= f) s Q.
Proof. done. Qed.

Lemma meets_assert {B} (b : bool) (f : unit -> M S B) s (Q : B -> S -> Prop) :
  b = true -> meets (f tt) s Q -> meets (assert_ b ≫= f) s Q.
Proof. by intros ->. Qed.

(** A call that may raise one of the exceptions [E], and what holds when it
    returns. *)
Definition ends {A} (E : exn -> Prop) (m : M S A) (s : S) (Q : A -> S -> Prop) : Prop :=
  match m s with
  | (Ok a, s') => Q a s'
  | (Err e, _) => E e
  end.

Lemma ends_ret {A} E (a : A) s (Q : A -> S -> Prop) : Q a s -> ends E (mret a) s Q.
Proof. done. Qed.

Lemma ends_raise {A} (E : exn -> Prop) e s (Q : A -> S -> Prop) : E e -> ends E (raise e) s Q.
Proof. done. Qed.

Lemma ends_bind {A B} E (m : M S A) (f : A -> M S B) s (R : A -> S -> Prop) (Q : B -> S -> Prop) :
  ends E m s R -> (forall a s', R a s' -> ends E (f a) s' Q) -> ends E (m ≫= f) s Q.
Proof.
  unfold ends at 1 3. rewrite bind_run. destruct (m s) as [[a|e] s']; [|done]. intros HR Hf. by apply Hf.
Qed.

Lemma ends_weaken {A} E (m : M S A) s (Q Q' : A -> S -> Prop) :
  ends E m s Q -> (forall a s', Q a s' -> Q' a s') -> ends E m s Q'.
Proof. unfold ends. destruct (m s) as [[a|e] s']; eauto. Qed.

Lemma ends_step {A B} E (m : M S A) (f : A -> M S B) s a s' (Q : B -> S -> Prop) :
  m s = (Ok a, s') -> ends E (f a) s' Q -> ends E (m ≫= f) s Q.
Proof. intros Hm Hf. unfold ends. by rewrite (bind_step m f s a s' Hm). Qed.

Lemma ends_get {B} E (f : S -> M S B) s (Q : B -> S -> Prop) :
  ends E (f s) s Q -> ends E (get ≫= f) s Q.
Proof. done. Qed.

Lemma ends_modify {B} E (g : S -> S) (f : unit -> M S B) s (Q : B -> S -> Prop) :
  ends E (f tt) (g s) Q -> ends E (modify g ≫= f) s Q.
Proof. done. Qed.

Lemma ends_lift {A B} (E : exn -> Prop) (r : result A) (f : A -> M S B) s (Q : B -> S -> Prop) :
  (forall e, r = Err e -> E e) -> (forall a, r = Ok a -> ends E (f a) s Q) ->
  ends E (lift r ≫= f) s Q.
Proof. intros He Hf. unfold ends. rewrite bind_run. unfold lift. destruct r; [by apply Hf|by apply He]. Qed.

Lemma ends_assert {B} (E : exn -> Prop) (b : bool) (f : unit -> M S B) s (Q : B -> S -> Prop) :
  E AssertionError -> (b = true -> ends E (f tt) s Q) -> ends E (assert_ b ≫= f) s Q.
Proof. intros He Hf. destruct b; [by apply Hf|done]. Qed.

Lemma ends_ok {A} E (m : M S A) s Q a s' : ends E m s Q -> m s = (Ok a, s') -> Q a s'.
Proof. unfold ends. intros H Hm. by rewrite Hm in H. Qed.

Lemma meets_lift {A B} (r : result A) a (f : A -> M S B) s (Q : B -> S -> Prop) :
  r = Ok a -> meets (f a) s Q -> meets (lift r ≫= f) s Q.
Proof. by intros ->. Qed.
End Monad.

Create HintDb pres.
#[export] Hint Resolve preserves_ret preserves_raise preserves_gets
  preserves_lift preserves_assert preserves_bind preserves_for_each preserves_map_each
  preserves_get preserves_modify : pres.

(** Take a successful run apart, one bind at a time. *)
Ltac inv_ok :=
  repeat match goal with
  | H : (_ ≫= _) _ = (Ok _, _) |- _ =>
      apply bind_ok in H as (? & ? & ? & ?)
  | H : (Ok _, _) = (Ok _, _) |- _ => injection H as ? ?; subst
  | H : (Err _, _) = (Ok _, _) |- _ => discriminate H
  | H : mret _ _ = (Ok _, _) |- _ => injection H as ? ?; subst
  | H : raise _ _ = (Ok _, _) |- _ => discriminate H
  | H : gets _ _ = (Ok _, _) |- _ => injection H as ? ?; subst
  | H : get _ = (Ok _, _) |- _ => injection H as ? ?; subst
  | H : modify _ _ = (Ok _, _) |- _ => injection H as ? ?; subst
  | H : lift (Ok _) _ = (Ok _, _) |- _ => injection H as ? ?; subst
  | H : lift (Err _) _ = (Ok _, _) |- _ => discriminate H
  | H : assert_ ?b _ = (Ok _, _) |- _ =>
      destruct b eqn:?; cbn in H
  end.

(** Case analysis on a decision of the goal, leaving the hypotheses alone. *)
Ltac goal_decide :=
  match goal with
  | |- context [bool_decide ?P] => destruct (bool_decide_reflect P)
  end.

(** ** Numbers

    A Python float is modelled by the exact rational it stands for, a Python
    [int] by [Z]; where Python mixes them the integer is injected.  NaN and the
    infinities do not occur in the modelled code. *)

Definition Qltb (x y : Q) : bool := negb (Qle_bool y x).

Lemma Qltb_lt x y : Qltb x y = true <-> (x < y)%Q.
Proof.
  unfold Qltb. rewrite negb_true_iff, <- not_true_iff_false, Qle_bool_iff.
  split; [apply Qnot_le_lt | apply Qlt_not_le].
Qed.
Lemma Qltb_ge x y : Qltb x y = false <-> (y <= x)%Q.
Proof. unfold Qltb. by rewrite negb_false_iff, Qle_bool_iff. Qed.
Lemma Qeqb_eq x y : Qeq_bool x y = true <-> (x == y)%Q.
Proof. apply Qeq_bool_iff. Qed.
Lemma Qeqb_neq x y : Qeq_bool x y = false <-> ~ (x == y)%Q.
Proof. rewrite <- Qeqb_eq. by destruct (Qeq_bool x y). Qed.

(** [cdiv] of [vllm/utils.py]: ceiling division, [-(a // -b)]. *)
Definition cdiv (a b : Z) : Z := - (a / - b).

Lemma cdiv_spec a b : 0 < b -> b * (cdiv a b - 1) < a <= b * cdiv a b.
Proof.
  intros Hb. unfold cdiv.
  pose proof (Z.div_mod a (- b) ltac:(lia)).
  pose proof (Z.mod_neg_bound a (- b) ltac:(lia)). nia.
Qed.
Lemma cdiv_nonneg a b : 0 < b -> 0 <= a -> 0 <= cdiv a b.
Proof. intros Hb Ha. pose proof (cdiv_spec a b Hb). nia. Qed.
Lemma cdiv_le_iff a b n : 0 < b -> cdiv a b <= n <-> a <= b * n.
Proof. intros Hb. pose proof (cdiv_spec a b Hb). nia. Qed.

(** ** Tuples of numbers and their lexicographic order *)

Abbreviation key := (list Q).

Fixpoint key_ltb (a b : key) : bool :=
  match a, b with
  | _, [] => false
  | [], _ :: _ => true
  | x :: a', y :: b' => if Qeq_bool x y then key_ltb a' b' else Qltb x y
  end.

(** [a <= b] for tuples, which are totally ordered. *)
Definition key_leb (a b : key) : bool := negb (key_ltb b a).

Fixpoint key_eqb (a b : key) : bool :=
  match a, b with
  | [], [] => true
  | x :: a', y :: b' => Qeq_bool x y && key_eqb a' b'
  | _, _ => false
  end.

Ltac key_cases :=
  repeat match goal with
  | H : context [if ?b then _ else _] |- _ => destruct b eqn:?
  | |- context [if ?b then _ else _] => destruct b eqn:?
  end;
  rewrite ?Qeqb_eq, ?Qeqb_neq, ?Qltb_lt, ?Qltb_ge in *.

Lemma key_ltb_irrefl a : key_ltb a a = false.
Proof. induction a as [|x a IH]; cbn; [done|]. key_cases; [done|lra]. Qed.

Lemma key_ltb_trans a b c :
  key_ltb a b = true -> key_ltb b c = true -> key_ltb a c = true.
Proof.
  revert b c. induction a as [|x a IH]; intros [|y b] [|z c]; cbn; try done.
  intros H1 H2. key_cases; try lra; eauto.
Qed.

Lemma key_leb_trans a b c :
  key_leb a b = true -> key_leb b c = true -> key_leb a c = true.
Proof.
  unfold key_leb. rewrite !negb_true_iff.
  revert b c. induction a as [|x a IH]; intros [|y b] [|z c]; cbn; try done.
  intros H1 H2. key_cases; try lra; eauto.
Qed.

Lemma key_leb_refl a : key_leb a a = true.
Proof. unfold key_leb. by rewrite key_ltb_irrefl. Qed.

Lemma key_ltb_leb a b : key_ltb a b = true -> key_leb a b = true.
Proof.
  unfold key_leb. intros H. destruct (key_ltb b a) eqn:E; [|done].
  pose proof (key_ltb_trans a b a H E) as Ha. by rewrite key_ltb_irrefl in Ha.
Qed.

Lemma key_leb_total a b : key_leb a b = true \/ key_leb b a = true.
Proof.
  destruct (key_ltb a b) eqn:E; [left; by apply key_ltb_leb|].
  right. unfold key_leb. by rewrite E.
Qed.

Lemma key_eqb_refl a : key_eqb a a = true.
Proof. induction a; cbn; [done|]. by rewrite IHa, (proj2 (Qeqb_eq _ _)). Qed.

Lemma key_eqb_leb a b : key_eqb a b = true -> key_leb a b = true.
Proof.
  unfold key_leb. rewrite negb_true_iff. revert b.
  induction a as [|x a IH]; intros [|y b]; cbn; try done.
  rewrite andb_true_iff. intros [? ?]. key_cases; [eauto|lra].
Qed.

Lemma key_leb_antisym a b :
  key_leb a b = true -> key_leb b a = true -> key_eqb a b = true.
Proof.
  unfold key_leb. rewrite !negb_true_iff. revert b.
  induction a as [|x a IH]; intros [|y b]; cbn; try done.
  intros. rewrite andb_true_iff. key_cases; try lra. eauto.
Qed.

Lemma key_eqb_sym a b : key_eqb a b = key_eqb b a.
Proof.
  revert b. induction a as [|x a IH]; intros [|y b]; cbn; try done.
  rewrite IH. f_equal. destruct (Qeq_bool x y) eqn:E.
  - symmetry. rewrite Qeqb_eq in *. lra.
  - symmetry. rewrite Qeqb_neq in *. lra.
Qed.

Lemma key_ltb_lt_neq a b : key_ltb a b = true -> key_eqb a b = false.
Proof.
  intros H. destruct (key_eqb a b) eqn:E; [|done].
  rewrite key_eqb_sym in E. apply key_eqb_leb in E. unfold key_leb in E.
  by rewrite H in E.
Qed.

Lemma key_leb_cons x y a b :
  key_leb (x :: a) (y :: b) = true <-> (x < y)%Q \/ (x == y)%Q /\ key_leb a b = true.
Proof.
  unfold key_leb. rewrite !negb_true_iff. cbn. destruct (Qeq_bool y x) eqn:E.
  - apply Qeqb_eq in E. split; [intros; right; split; [lra|done]|].
    intros [?|[_ ?]]; [lra|done].
  - apply Qeqb_neq in E. rewrite Qltb_ge. split.
    + intros Hle. left. apply Qle_lteq in Hle as [?|?]; lra.
    + intros [?|[? _]]; lra.
Qed.

Lemma key_leb_cons_Z (x y : Z) a b :
  key_leb (inject_Z x :: a) (inject_Z y :: b) = true <-> x < y \/ x = y /\ key_leb a b = true.
Proof. by rewrite key_leb_cons, <- Zlt_Qlt, inject_Z_injective. Qed.

(** Dropping the last components of two tuples keeps their order. *)
Lemma key_leb_app a b x y :
  length a = length b -> key_leb (a ++ x) (b ++ y) = true -> key_leb a b = true.
Proof.
  unfold key_leb. rewrite !negb_true_iff. revert b.
  induction a as [|p a IH]; intros [|q b]; cbn; try done.
  intros [= Hlen] H. key_cases; eauto.
Qed.

Create HintDb keys.
#[export] Hint Resolve key_leb_refl key_leb_trans key_ltb_leb key_ltb_trans
  key_eqb_refl : keys.

(** ** [min], [max], [sorted] with a key *)

(** The scan behind [min] and [max]: keep the first best element. *)
Definition fold_best {A} (better : A -> A -> bool) (x : A) (l : list A) : A :=
  foldl (fun m y => if better y m then y else m) x l.

Lemma fold_best_spec {A} (better : A -> A -> bool) :
  (forall a b, better a b = true -> better b a = false) ->
  (forall a b c, better b a = false -> better c b = false -> better c a = false) ->
  forall l x, fold_best better x l ∈ x :: l /\
    forall y, y ∈ x :: l -> better y (fold_best better x l) = false.
Proof.
  intros Hasym Htrans. unfold fold_best.
  induction l as [|z l IH]; intros x; cbn.
  { split; [apply list_elem_of_here|]. intros y ->%list_elem_of_singleton.
    destruct (better x x) eqn:E; [by rewrite (Hasym _ _ E) in E|done]. }
  destruct (better z x) eqn:E.
  - destruct (IH z) as [Hin Hle]. split; [by right|].
    intros y [->|Hy]%elem_of_cons; [|by apply Hle].
    eapply Htrans; [apply Hle, list_elem_of_here|]. by apply Hasym.
  - destruct (IH x) as [Hin Hle]. split.
    { apply elem_of_cons in Hin as [->|Hin]; [apply list_elem_of_here|by do 2 right]. }
    intros y [->|[->|Hy]%elem_of_cons]%elem_of_cons.
    + apply Hle, list_elem_of_here.
    + eapply Htrans; [apply Hle, list_elem_of_here|done].
    + apply Hle. by right.
Qed.

Section MinMax.
Context {A : Type} (f : A -> key).

(** The first element with the least key. *)
Definition py_min (l : list A) : option A :=
  match l with
  | [] => None
  | x :: l' => Some (fold_best (fun y m => key_ltb (f y) (f m)) x l')
  end.

(** The first element with the greatest key. *)
Definition py_max (l : list A) : option A :=
  match l with
  | [] => None
  | x :: l' => Some (fold_best (fun y m => key_ltb (f m) (f y)) x l')
  end.

Lemma key_ltb_asym a b : key_ltb a b = true -> key_ltb b a = false.
Proof. intros H%key_ltb_leb. unfold key_leb in H. by rewrite negb_true_iff in H. Qed.

Lemma py_min_spec l m :
  py_min l = Some m ->
  m ∈ l /\ forall y, y ∈ l -> key_leb (f m) (f y) = true.
Proof.
  destruct l as [|x l]; cbn; [done|]. intros [= <-].
  unfold key_leb. setoid_rewrite negb_true_iff. apply (fold_best_spec (fun y m => key_ltb (f y) (f m))).
  - intros a b. apply key_ltb_asym.
  - intros a b c H1 H2. pose proof (key_leb_trans (f a) (f b) (f c)) as H.
    unfold key_leb in H. rewrite !negb_true_iff in H. by apply H.
Qed.

Lemma py_max_spec l m :
  py_max l = Some m ->
  m ∈ l /\ forall y, y ∈ l -> key_leb (f y) (f m) = true.
Proof.
  destruct l as [|x l]; cbn; [done|]. intros [= <-].
  unfold key_leb. setoid_rewrite negb_true_iff. apply (fold_best_spec (fun y m => key_ltb (f m) (f y))).
  - intros a b. apply key_ltb_asym.
  - intros a b c H1 H2. pose proof (key_leb_trans (f c) (f b) (f a)) as H.
    unfold key_leb in H. rewrite !negb_true_iff in H. by apply H.
Qed.

Lemma py_min_None l : py_min l = None <-> l = [].
Proof. by destruct l. Qed.
Lemma py_min_is_Some l : l <> [] -> is_Some (py_min l).
Proof. destruct l; [done|]. by eexists. Qed.

Fixpoint insert_by (x : A) (l : list A) : list A :=
  match l with
  | [] => [x]
  | y :: l' =>
      if key_ltb (f y) (f x) then y :: insert_by x l' else x :: y :: l'
  end.

(** Python's [sorted], which is stable. *)
Definition py_sorted (l : list A) : list A := foldr insert_by [] l.

Definition ordered (l : list A) : Prop :=
  StronglySorted (fun x y => key_leb (f x) (f y) = true) l.

Lemma insert_by_perm x l : insert_by x l ≡ₚ x :: l.
Proof.
  induction l as [|y l IH]; cbn; [done|].
  destruct (key_ltb _ _); [|done]. rewrite IH. apply Permutation_swap.
Qed.

Lemma insert_by_ordered x l : ordered l -> ordered (insert_by x l).
Proof.
  unfold ordered. induction 1 as [|y l Hl IH Hy]; cbn.
  { repeat constructor. }
  destruct (key_ltb (f y) (f x)) eqn:E.
  - constructor; [done|]. rewrite insert_by_perm. constructor; [by apply key_ltb_leb|done].
  - assert (Hxy : key_leb (f x) (f y) = true) by (unfold key_leb; by rewrite E).
    constructor; [by constructor|]. constructor; [done|].
    eapply Forall_impl; [done|]. cbn. eauto using key_leb_trans.
Qed.

Lemma py_sorted_perm l : py_sorted l ≡ₚ l.
Proof. induction l as [|x l IH]; cbn; [done|]. by rewrite insert_by_perm, IH. Qed.

Lemma py_sorted_ordered l : ordered (py_sorted l).
Proof.
  induction l as [|x l IH]; cbn; [constructor | by apply insert_by_ordered].
Qed.

Lemma ordered_cons_inv x l :
  ordered (x :: l) -> ordered l /\ forall y, y ∈ l -> key_leb (f x) (f y) = true.
Proof.
  intros [? Hx]%StronglySorted_inv. split; [done|].
  intros y Hy. by rewrite Forall_forall in Hx; apply Hx.
Qed.
End MinMax.

(** ** Lists *)

Lemma filter_id {A} (P : A -> Prop) `{!forall x, Decision (P x)} (l : list A) :
  (forall x, x ∈ l -> P x) -> filter P l = l.
Proof.
  induction l as [|x l IH]; [done|]. intros HP.
  rewrite filter_cons, decide_True by (apply HP; left).
  f_equal. apply IH. intros y Hy. apply HP. by right.
Qed.

Lemma length_filter_ne {A} `{!EqDecision A} (l : list A) k :
  NoDup l -> k ∈ l -> length l = S (length (filter (fun j => j <> k) l)).
Proof.
  induction 1 as [|i l Hi Hnd IH]; intros Hin; [by apply not_elem_of_nil in Hin|].
  rewrite filter_cons. destruct (decide (i = k)) as [->|Hne].
  - rewrite decide_False by (by intros []). rewrite filter_id; [done|]. by intros j Hj ->.
  - rewrite decide_True by done. apply elem_of_cons in Hin as [?|Hin]; [done|].
    cbn. by rewrite (IH Hin).
Qed.

Lemma filter_ne_split {A} `{!EqDecision A} (l1 l2 : list A) k :
  NoDup (l1 ++ k :: l2) -> filter (fun j => j <> k) (l1 ++ k :: l2) = l1 ++ l2.
Proof.
  intros (_ & Hdis & [Hk _]%NoDup_cons)%NoDup_app.
  rewrite filter_app, filter_cons, decide_False by (by intros []).
  rewrite !filter_id; [done|..].
  - by intros j Hj ->.
  - intros j Hj ->. apply (Hdis k Hj). left.
Qed.

(** *** Slices and ranges *)

Lemma seqZ_sorted m n : StronglySorted Z.lt (seqZ m n).
Proof.
  destruct (Z.le_gt_cases n 0) as [Hn|Hn]; [rewrite seqZ_nil by done; constructor|].
  revert m. rewrite <- (Z2Nat.id n) by lia. generalize (Z.to_nat n). clear.
  induction n as [|n IH]; intros m; [rewrite seqZ_nil by done; constructor|].
  rewrite seqZ_cons by lia. replace (Z.pred (Z.of_nat (S n))) with (Z.of_nat n) by lia.
  constructor; [apply IH|]. apply Forall_forall. intros x Hx%elem_of_seqZ. lia.
Qed.

(** A slice bound: negative ones count from the end, all are clamped. *)
Definition slice_bound {A} (l : list A) (i : Z) : nat :=
  let n := Z.of_nat (length l) in
  Z.to_nat (if i <? 0 then Z.max 0 (i + n) else Z.min i n).

(** [l[a:b]] *)
Definition py_slice {A} (l : list A) (a b : Z) : list A :=
  take (slice_bound l b - slice_bound l a) (drop (slice_bound l a) l).

Lemma elem_of_py_slice {A} (l : list A) a b x : x ∈ py_slice l a b -> x ∈ l.
Proof.
  unfold py_slice. intros H. eapply elem_of_sublist; [exact H|].
  etransitivity; [apply sublist_take|apply sublist_drop].
Qed.

(** [l[i]] *)
Definition py_index {A} (l : list A) (i : Z) : result A :=
  from_option_exn IndexError
    (if i <? 0
     then if i + Z.of_nat (length l) <? 0 then None else l !! Z.to_nat (i + Z.of_nat (length l))
     else l !! Z.to_nat i).

(** [list(range(start, stop, step))] *)
Definition py_range (start stop step : Z) : result (list Z) :=
  if step =? 0 then Err ValueError
  else Ok (map (fun i => start + i * step) (seqZ 0 (Z.max 0 (cdiv (stop - start) step)))).

Lemma py_slice_nat {A} (l : list A) a b :
  0 <= a -> py_slice l a b = (if b <? 0 then py_slice l a b
                              else take (Z.to_nat b - Z.to_nat a) (drop (Z.to_nat a) l)).
Proof.
  intros Ha. destruct (Z.ltb_spec b 0); [done|]. unfold py_slice, slice_bound.
  destruct (Z.ltb_spec a 0); [lia|]. destruct (Z.ltb_spec b 0); [lia|].
  destruct (decide (Z.to_nat a <= length l)%nat).
  - rewrite (Z.min_l a) by lia.
    destruct (decide (Z.to_nat b <= length l)%nat).
    + by rewrite (Z.min_l b) by lia.
    + rewrite !take_ge; [done|..]; rewrite length_drop; lia.
  - rewrite !drop_ge by lia. by rewrite !take_nil.
Qed.

(** [l[a:b]] for bounds that are not negative. *)
Lemma py_slice_take {A} (l : list A) a b :
  0 <= a -> 0 <= b ->
  py_slice l a b = take (Z.to_nat b - Z.to_nat a) (drop (Z.to_nat a) l).
Proof. intros. rewrite py_slice_nat by done. destruct (Z.ltb_spec b 0); [lia|done]. Qed.

Lemma length_py_slice {A} (l : list A) a b :
  0 <= a -> a <= b -> b <= Z.of_nat (length l) ->
  length (py_slice l a b) = Z.to_nat (b - a).
Proof.
  intros. rewrite py_slice_take, length_take, length_drop by lia. lia.
Qed.

(** ** [heapq]

    The heap as the sorted list of its entries: what the code relies on is that
    [heappop] yields a least entry and that nothing else is lost or added. *)

Section Heapq.
Context {A : Type} (f : A -> key).

Definition heappush (x : A) (h : list A) : list A := insert_by f x h.
Definition heapify (l : list A) : list A := py_sorted f l.

Lemma heappush_elem x h y : y ∈ heappush x h <-> y = x \/ y ∈ h.
Proof. unfold heappush. by rewrite insert_by_perm, elem_of_cons. Qed.
Lemma heapify_elem l y : y ∈ heapify l <-> y ∈ l.
Proof. unfold heapify. by rewrite py_sorted_perm. Qed.
Lemma length_heappush x h : length (heappush x h) = S (length h).
Proof. unfold heappush. by rewrite insert_by_perm. Qed.
Lemma length_heapify l : length (heapify l) = length l.
Proof. unfold heapify. by rewrite py_sorted_perm. Qed.
End Heapq.
