(* ===== verification/PyDict.v ===== *)
(** * Python's [dict]

    A dictionary that remembers insertion order, which several methods
    observe: the first value of an iterator, the tie-breaking of [min], the
    order in which blocks are re-scored.  Assigning to a present key keeps its
    position, a new key goes to the end.  Dictionaries that the code only looks
    up are modelled with stdpp's [gmap]. *)
From S2P Require Import Prelude.

Record pydict (K V : Type) : Type := PyDict { items : list (K * V) }.
Arguments PyDict {K V} items.
Arguments items {K V} _.

Section PyDict.
Context {K : Type} `{!EqDecision K} {V : Type}.
Implicit Types (d : pydict K V) (k j : K) (v w : V).

Fixpoint assoc (l : list (K * V)) k : option V :=
  match l with
  | [] => None
  | (j, v) :: l' => if decide (j = k) then Some v else assoc l' k
  end.

Fixpoint assoc_set (l : list (K * V)) k v : list (K * V) :=
  match l with
  | [] => [(k, v)]
  | (j, w) :: l' =>
      if decide (j = k) then (j, v) :: l' else (j, w) :: assoc_set l' k v
  end.

Fixpoint assoc_del (l : list (K * V)) k : list (K * V) :=
  match l with
  | [] => []
  | (j, w) :: l' =>
      if decide (j = k) then assoc_del l' k else (j, w) :: assoc_del l' k
  end.

#[global] Instance pydict_empty : Empty (pydict K V) := PyDict [].
#[global] Instance pydict_lookup : Lookup K V (pydict K V) :=
  fun k d => assoc (items d) k.
#[global] Instance pydict_insert : Insert K V (pydict K V) :=
  fun k v d => PyDict (assoc_set (items d) k v).
#[global] Instance pydict_delete : Delete K (pydict K V) :=
  fun k d => PyDict (assoc_del (items d) k).

Definition keys d : list K := (items d).*1.
Definition values d : list V := (items d).*2.
(** [len(d)] *)
Definition dlen d : Z := Z.of_nat (length (items d)).
(** [k in d] *)
Definition has d k : bool := bool_decide (is_Some (d !! k)).
(** [for k, v in d.items(): v <- f k v], assigning to present keys only. *)
Definition dmap (f : K -> V -> V) d : pydict K V :=
  PyDict (map (fun '(k, v) => (k, f k v)) (items d)).

Definition wf_dict d : Prop := NoDup (keys d).

(** ** Lookup after each operation *)

Lemma dict_lookup_empty k : (∅ : pydict K V) !! k = None.
Proof. done. Qed.

Lemma dict_lookup_insert d k v j :
  <[k:=v]> d !! j = if decide (k = j) then Some v else d !! j.
Proof.
  destruct d as [l]. unfold lookup, pydict_lookup, insert, pydict_insert; cbn.
  induction l as [|[i w] l IH]; cbn.
  - repeat case_decide; congruence.
  - destruct (decide (i = k)) as [->|]; cbn; [by case_decide|].
    rewrite IH. repeat case_decide; congruence.
Qed.

Lemma dict_lookup_insert_eq d k v : <[k:=v]> d !! k = Some v.
Proof. rewrite dict_lookup_insert. by rewrite decide_True. Qed.
Lemma dict_lookup_insert_ne d k v j : k <> j -> <[k:=v]> d !! j = d !! j.
Proof. intros. rewrite dict_lookup_insert. by rewrite decide_False. Qed.

Lemma dict_lookup_delete d k j :
  delete k d !! j = if decide (k = j) then None else d !! j.
Proof.
  destruct d as [l]. unfold lookup, pydict_lookup, delete, pydict_delete; cbn.
  induction l as [|[i w] l IH]; cbn.
  - by case_decide.
  - destruct (decide (i = k)) as [->|]; cbn; rewrite IH; repeat case_decide; congruence.
Qed.

Lemma dict_lookup_delete_eq d k : delete k d !! k = None.
Proof. rewrite dict_lookup_delete. by rewrite decide_True. Qed.
Lemma dict_lookup_delete_ne d k j : k <> j -> delete k d !! j = d !! j.
Proof. intros. rewrite dict_lookup_delete. by rewrite decide_False. Qed.

Lemma dict_lookup_dmap f d k : dmap f d !! k = f k <$> d !! k.
Proof.
  destruct d as [l]. unfold lookup, pydict_lookup, dmap; cbn.
  induction l as [|[i w] l IH]; cbn; [done|].
  case_decide; [by subst|done].
Qed.

Lemma has_true d k : has d k = true <-> is_Some (d !! k).
Proof. apply bool_decide_eq_true. Qed.
Lemma has_false d k : has d k = false <-> d !! k = None.
Proof. unfold has. rewrite bool_decide_eq_false. symmetry. apply eq_None_not_Some. Qed.

(** ** Keys and items *)

Lemma elem_of_keys d k : k ∈ keys d <-> is_Some (d !! k).
Proof.
  destruct d as [l]. unfold keys, lookup, pydict_lookup; cbn.
  induction l as [|[i w] l IH]; cbn.
  - split; [by intros ?%elem_of_nil | by intros [? ?]].
  - rewrite elem_of_cons, IH. case_decide; subst;
      [|split; [by intros [?|?] | by right]].
    split; [by eexists|by left].
Qed.

Lemma elem_of_items d k v : wf_dict d -> (k, v) ∈ items d <-> d !! k = Some v.
Proof.
  destruct d as [l]. unfold wf_dict, keys, lookup, pydict_lookup; cbn.
  induction l as [|[i w] l IH]; cbn; intros Hwf.
  - split; [by intros ?%elem_of_nil|done].
  - apply NoDup_cons in Hwf as [Hi Hwf].
    rewrite elem_of_cons, IH by done. case_decide as Hk; subst.
    + split; [|by intros [= ->]; left].
      intros [[= ->]|Ha]; [done|]. exfalso. apply Hi.
      apply (IH Hwf) in Ha. apply list_elem_of_fmap. by exists (k, v).
    + split; [|by right]. intros [[= -> ->]|]; done.
Qed.

Lemma keys_insert d k v :
  keys (<[k:=v]> d) = if decide (k ∈ keys d) then keys d else keys d ++ [k].
Proof.
  destruct d as [l]. unfold keys, insert, pydict_insert; cbn.
  induction l as [|[i w] l IH]; cbn.
  - rewrite decide_False; [done|apply not_elem_of_nil].
  - destruct (decide (i = k)) as [->|Hne]; cbn.
    + rewrite decide_True; [done|apply list_elem_of_here].
    + rewrite IH. destruct (decide (k ∈ l.*1)) as [Hin|Hin].
      * rewrite decide_True; [done|by right].
      * rewrite decide_False; [done|]. by intros [?|?]%elem_of_cons.
Qed.

Lemma keys_delete d k : keys (delete k d) = filter (fun j => j <> k) (keys d).
Proof.
  destruct d as [l]. unfold keys, delete, pydict_delete. cbn [items].
  induction l as [|[i w] l IH]; [done|].
  rewrite fmap_cons, filter_cons. cbn [assoc_del fst].
  destruct (decide (i = k)) as [->|Hne].
  - rewrite decide_False; [done|]. by intros [].
  - rewrite fmap_cons, decide_True by done. by rewrite IH.
Qed.

Lemma keys_dmap f d : keys (dmap f d) = keys d.
Proof.
  destruct d as [l]. unfold keys, dmap; cbn.
  induction l as [|[i w] l IH]; cbn; [done|]. by rewrite IH.
Qed.

Lemma wf_empty : wf_dict ∅.
Proof. constructor. Qed.
Lemma wf_insert d k v : wf_dict d -> wf_dict (<[k:=v]> d).
Proof.
  unfold wf_dict. rewrite keys_insert. case_decide; [done|].
  intros Hd. apply NoDup_app. split; [done|]. split; [|apply NoDup_singleton].
  by intros j ? ->%list_elem_of_singleton.
Qed.
Lemma wf_delete d k : wf_dict d -> wf_dict (delete k d).
Proof. unfold wf_dict. rewrite keys_delete. apply NoDup_filter. Qed.
Lemma wf_dmap f d : wf_dict d -> wf_dict (dmap f d).
Proof. unfold wf_dict. by rewrite keys_dmap. Qed.

(** ** Length *)

Lemma dlen_nonneg d : 0 <= dlen d.
Proof. unfold dlen. lia. Qed.
Lemma dlen_keys d : dlen d = Z.of_nat (length (keys d)).
Proof. unfold dlen, keys. by rewrite length_fmap. Qed.
Lemma dlen_insert d k v :
  dlen (<[k:=v]> d) = if decide (is_Some (d !! k)) then dlen d else dlen d + 1.
Proof.
  rewrite !dlen_keys, keys_insert.
  destruct (decide (is_Some (d !! k))) as [H|H]; rewrite <- elem_of_keys in H.
  - by rewrite decide_True.
  - rewrite decide_False by done. rewrite length_app. cbn. lia.
Qed.
Lemma dlen_insert_le d k v : dlen (<[k:=v]> d) <= dlen d + 1.
Proof. rewrite dlen_insert. case_decide; lia. Qed.
Lemma dlen_delete d k :
  wf_dict d -> is_Some (d !! k) -> dlen (delete k d) = dlen d - 1.
Proof.
  rewrite !dlen_keys, keys_delete, <- elem_of_keys. unfold wf_dict.
  intros Hnd Hin. pose proof (length_filter_ne _ _ Hnd Hin). lia.
Qed.
Lemma dlen_delete_le d k : dlen (delete k d) <= dlen d.
Proof.
  rewrite !dlen_keys, keys_delete.
  pose proof (length_filter (fun j => j <> k) (keys d)). lia.
Qed.
Lemma dlen_dmap f d : dlen (dmap f d) = dlen d.
Proof. by rewrite !dlen_keys, keys_dmap. Qed.
Lemma dlen_zero d : dlen d = 0 <-> items d = [].
Proof. unfold dlen. destruct (items d); cbn; split; [done|done|lia|done]. Qed.

(** A dictionary with one key. *)
Lemma dict_lookup_single k v : PyDict [(k, v)] !! k = Some v.
Proof. unfold lookup, pydict_lookup; cbn. by rewrite decide_True. Qed.
Lemma dict_insert_single k v w : <[k:=w]> (PyDict [(k, v)]) = PyDict [(k, w)].
Proof. unfold insert, pydict_insert; cbn. by rewrite decide_True. Qed.

Lemma items_dmap f d : items (dmap f d) = map (fun '(k, v) => (k, f k v)) (items d).
Proof. done. Qed.
End PyDict.

Arguments dmap {K V} f d.

(** The dictionary with [f] applied to every value. *)
Definition dfmap {K V W} (f : V -> W) (d : pydict K V) : pydict K W :=
  PyDict (map (fun '(k, v) => (k, f v)) (items d)).

Lemma dict_lookup_dfmap `{!EqDecision K} {V W} (f : V -> W) (d : pydict K V) k :
  dfmap f d !! k = f <$> d !! k.
Proof.
  destruct d as [l]. unfold lookup, pydict_lookup, dfmap; cbn.
  induction l as [|[i w] l IH]; cbn; [done|]. by case_decide.
Qed.
Lemma keys_dfmap {K V W} (f : V -> W) (d : pydict K V) : keys (dfmap f d) = keys d.
Proof.
  destruct d as [l]. unfold keys, dfmap; cbn.
  induction l as [|[i w] l IH]; cbn; [done|]. by rewrite IH.
Qed.
Lemma dlen_dfmap {K V W} (f : V -> W) (d : pydict K V) : dlen (dfmap f d) = dlen d.
Proof. unfold dlen, dfmap. cbn. by rewrite length_map. Qed.

#[export] Hint Resolve wf_empty wf_insert wf_delete wf_dmap : core.
Create Rewrite HintDb pydict.
#[export] Hint Rewrite @dict_lookup_insert @dict_lookup_delete @dict_lookup_dmap
  using typeclasses eauto : pydict.

(** Decide which key a dictionary operation touched. *)
Ltac dict_simp :=
  repeat (autorewrite with pydict in *; repeat case_decide; simplify_eq/=).
