(* ===== verification/EvictorBase.v ===== *)
(** * What the evictors share ([vllm/core/evictor.py])

    The configuration string, the reuse probability of a conversation, the
    survival-time statistics, the metadata kept per cached block, and the
    interface [Evictor] through which an allocator sees a policy. *)
From Stdlib Require Import Ascii.
From S2P Require Import Prelude.
From S2P Require Import PyDict.

(** ** Configuration: [parse_evictor_config] *)

Section Config.
Local Open Scope string_scope.

(** [s.split(c)], never empty. *)
Fixpoint split_on (c : ascii) (s : string) : list string :=
  match s with
  | EmptyString => [""]
  | String a s' =>
      if Ascii.eqb a c then "" :: split_on c s'
      else match split_on c s' with
           | w :: ws => String a w :: ws
           | [] => [String a ""]
           end
  end.

(** [s.split(c, 1)] when it has two parts. *)
Fixpoint split_once (c : ascii) (s : string) : option (string * string) :=
  match s with
  | EmptyString => None
  | String a s' =>
      if Ascii.eqb a c then Some ("", s')
      else match split_once c s' with
           | Some (x, y) => Some (String a x, y)
           | None => None
           end
  end.

(** The dict comprehension: empty pairs are skipped, a pair without ["="]
    cannot be unpacked, a repeated key keeps its last value. *)
Fixpoint parse_pairs (ps : list string) (acc : gmap string string)
    : result (gmap string string) :=
  match ps with
  | [] => Ok acc
  | p :: ps' =>
      if bool_decide (p = "") then parse_pairs ps' acc
      else match split_once "=" p with
           | Some (k, v) => parse_pairs ps' (<[k:=v]> acc)
           | None => Err ValueError
           end
  end.

Definition parse_evictor_config (config : string)
    : result (gmap string string) :=
  if bool_decide (config = "") then Ok ∅
  else parse_pairs (split_on "," config) ∅.

(** The string a launcher passes for a list of settings. *)
Fixpoint join_config (kvs : list (string * string)) : string :=
  match kvs with
  | [] => ""
  | [(k, v)] => k +:+ "=" +:+ v
  | (k, v) :: kvs' => k +:+ "=" +:+ v +:+ "," +:+ join_config kvs'
  end.

(** ** Numbers in the configuration *)

Definition digit (a : ascii) : option Z :=
  let n := Z.of_nat (nat_of_ascii a) in
  if bool_decide (48 <= n <= 57) then Some (n - 48) else None.

(** The leading decimal digits: value, how many, and what follows. *)
Fixpoint digits (acc : Z) (s : string) : Z * nat * string :=
  match s with
  | EmptyString => (acc, 0%nat, "")
  | String a s' =>
      match digit a with
      | Some d => let '(v, n, r) := digits (10 * acc + d) s' in (v, S n, r)
      | None => (acc, 0%nat, s)
      end
  end.

Definition sign (s : string) : Z * string :=
  match s with
  | String "-" s' => (-1, s')
  | String "+" s' => (1, s')
  | _ => (1, s)
  end.

(** [int(s)] for a signed decimal literal without separators. *)
Definition py_int (s : string) : result Z :=
  let '(sg, s1) := sign s in
  match digits 0 s1 with
  | (v, S _, "") => Ok (sg * v)
  | _ => Err ValueError
  end.

(** [float(s)] for a signed decimal literal with an optional fraction. *)
Definition py_float (s : string) : result Q :=
  let '(sg, s1) := sign s in
  let '(v, n, r) := digits 0 s1 in
  match r with
  | "" => if Nat.eqb n 0 then Err ValueError else Ok (inject_Z (sg * v))
  | String "." r' =>
      let '(v', n', r'') := digits v r' in
      if bool_decide (r'' = "") && negb (Nat.eqb (n + n') 0)
      then Ok (inject_Z (sg * v') / inject_Z (10 ^ Z.of_nat n'))%Q
      else Err ValueError
  | _ => Err ValueError
  end.

(** [int(config.get(key, default))] and its [float] counterpart. *)
Definition cfg_int (cfg : gmap string string) (k : string) (dflt : Z) : result Z :=
  match cfg !! k with Some s => py_int s | None => Ok dflt end.
Definition cfg_float (cfg : gmap string string) (k : string) (dflt : Q) : result Q :=
  match cfg !! k with Some s => py_float s | None => Ok dflt end.

#[local] Arguments Ascii.eqb : simpl never.
#[local] Arguments String.append : simpl nomatch.

(** *** Parsing undoes joining *)

Definition no_char (c : ascii) (s : string) : Prop :=
  Forall (fun a => a <> c) (String.list_ascii_of_string s).

Lemma no_char_cons c a s : no_char c (String a s) <-> a <> c /\ no_char c s.
Proof. unfold no_char; cbn. by rewrite list.Forall_cons. Qed.

Lemma split_once_app c k v :
  no_char c k -> split_once c (k +:+ String c v) = Some (k, v).
Proof.
  induction k as [|a k IH]; cbn.
  - by rewrite Ascii.eqb_refl.
  - intros [Ha Hk]%no_char_cons. rewrite (proj2 (Ascii.eqb_neq a c) Ha).
    by rewrite IH.
Qed.

Lemma split_on_none c s : no_char c s -> split_on c s = [s].
Proof.
  induction s as [|a s IH]; cbn; [done|]. intros [Ha Hs]%no_char_cons.
  by rewrite (proj2 (Ascii.eqb_neq a c) Ha), IH.
Qed.

Lemma split_on_app c s r :
  no_char c s -> split_on c (s +:+ String c r) = s :: split_on c r.
Proof.
  induction s as [|a s IH]; cbn.
  - by rewrite Ascii.eqb_refl.
  - intros [Ha Hs]%no_char_cons. by rewrite (proj2 (Ascii.eqb_neq a c) Ha), IH.
Qed.

Lemma no_char_app c s r : no_char c s -> no_char c r -> no_char c (s +:+ r).
Proof.
  induction s as [|a s IH]; cbn; [done|].
  intros [Ha Hs]%no_char_cons Hr. apply no_char_cons. auto.
Qed.

Lemma append_assoc (a b c : string) : (a +:+ b) +:+ c = a +:+ (b +:+ c).
Proof. induction a as [|x a IH]; cbn; [done|]. by rewrite IH. Qed.

Definition clean_pair (kv : string * string) : Prop :=
  no_char "=" kv.1 /\ no_char "," kv.1 /\ no_char "," kv.2.

Lemma pair_no_comma k v :
  clean_pair (k, v) -> no_char "," (k +:+ "=" +:+ v).
Proof.
  intros (_ & Hk & Hv). apply no_char_app; [done|].
  cbn. by apply no_char_cons.
Qed.

Lemma pair_not_empty k v : k +:+ "=" +:+ v <> "".
Proof. by destruct k. Qed.

Lemma parse_pairs_join kvs acc :
  Forall clean_pair kvs -> kvs <> [] ->
  parse_pairs (split_on "," (join_config kvs)) acc
  = Ok (foldl (fun m kv => <[kv.1:=kv.2]> m) acc kvs).
Proof.
  intros Hc. revert acc. induction Hc as [|[k v] kvs Hkv Hc IH]; [done|].
  intros acc _. pose proof (pair_no_comma k v Hkv) as Hnc.
  destruct kvs as [|kv' kvs'].
  - cbn [join_config]. rewrite split_on_none by done. cbn [parse_pairs].
    rewrite bool_decide_eq_false_2 by apply pair_not_empty.
    cbn. rewrite split_once_app by apply Hkv. done.
  - assert (join_config ((k, v) :: kv' :: kvs')
            = (k +:+ "=" +:+ v) +:+ String "," (join_config (kv' :: kvs')))
      as -> by by rewrite !append_assoc.
    rewrite split_on_app by done. cbn [parse_pairs].
    rewrite bool_decide_eq_false_2 by apply pair_not_empty.
    change ("=" +:+ v) with (String "=" v). rewrite split_once_app by apply Hkv.
    by rewrite IH.
Qed.
End Config.

(** ** The hint a request carries

    A dictionary; a field is [None] when the key is absent.  The predictor's
    inputs (checkpoint, conversation text) are read by the predictor only. *)
Record cache_hint : Type := CacheHint {
  ch_id : option Z;
  ch_turns : option Z;
  ch_seq_id : option Z;
  ch_use_lru : option Z;
  ch_use_rrip : option Z;
  ch_use_fifo : option Z;
  ch_scheduler_policy : option string;
  ch_next_timestamp : option Q;
  ch_prob_has_next : option Q;
  ch_exp_scale : option Q
}.

Definition empty_hint : cache_hint :=
  CacheHint None None None None None None None None None None.

(** [if hint.get(key):] for a numeric and for a string value. *)
Definition truthy_int (o : option Z) : bool :=
  match o with Some z => negb (z =? 0) | None => false end.
Definition truthy_str (o : option string) : bool :=
  match o with Some s => negb (bool_decide (s = EmptyString)) | None => false end.

Definition set_scheduler_policy (h : cache_hint) (p : string) : cache_hint :=
  CacheHint (ch_id h) (ch_turns h) (ch_seq_id h) (ch_use_lru h) (ch_use_rrip h)
    (ch_use_fifo h) (Some p) (ch_next_timestamp h) (ch_prob_has_next h)
    (ch_exp_scale h).

(** ** [probability_of_future_arrival] *)

Section Probability.
(** numpy's exponential. *)
Variable np_exp : Q -> Q.

Definition probability_of_future_arrival
    (prob_has_next exp_scale elapsed_time : Q) : Q :=
  if Qeq_bool prob_has_next 0 || Qeq_bool exp_scale 0 then 0
  else
    let prob_not_accessed_till_now := np_exp (- elapsed_time / exp_scale) in
    (prob_has_next * prob_not_accessed_till_now)
    / (prob_has_next * prob_not_accessed_till_now + (1 - prob_has_next)).

Hypothesis np_exp_pos : forall x, (0 < np_exp x)%Q.

Lemma arrival_denominator_pos p e :
  (0 < p <= 1)%Q -> (0 < e)%Q -> (0 < p * e + (1 - p))%Q.
Proof. intros ? ?. nra. Qed.

Lemma proper_prob p : (0 <= p <= 1)%Q -> ~ (p == 0)%Q -> (0 < p <= 1)%Q.
Proof.
  intros Hp Hp0. split; [|lra]. apply Qnot_le_lt. intros Hle. apply Hp0. lra.
Qed.

Lemma arrival_bounds p s t :
  (0 <= p <= 1)%Q -> (0 <= probability_of_future_arrival p s t <= 1)%Q.
Proof.
  intros Hp. unfold probability_of_future_arrival.
  destruct (Qeq_bool p 0 || Qeq_bool s 0) eqn:E; [split; discriminate|].
  apply orb_false_iff in E as [Hp0%Qeqb_neq _]. cbv zeta.
  pose proof (np_exp_pos (- t / s)) as He. set (e := np_exp _) in *.
  pose proof (proper_prob p Hp Hp0) as Hp'.
  pose proof (arrival_denominator_pos p e Hp' He) as Hd. split.
  - apply Qle_shift_div_l; nra.
  - apply Qle_shift_div_r; nra.
Qed.

Hypothesis np_exp_mono : forall x y, (x <= y)%Q -> (np_exp x <= np_exp y)%Q.

(** A conversation silent for longer is judged no likelier to return. *)
Lemma arrival_antitone p s t1 t2 :
  (0 <= p <= 1)%Q -> (0 < s)%Q -> (t1 <= t2)%Q ->
  (probability_of_future_arrival p s t2 <= probability_of_future_arrival p s t1)%Q.
Proof.
  intros Hp Hs Ht. unfold probability_of_future_arrival.
  destruct (Qeq_bool p 0 || Qeq_bool s 0) eqn:E; [apply Qle_refl|].
  apply orb_false_iff in E as [Hp0%Qeqb_neq _]. cbv zeta.
  assert (Hx : (- t2 / s <= - t1 / s)%Q).
  { unfold Qdiv. apply Qmult_le_compat_r; [lra|]. apply Qlt_le_weak, Qinv_lt_0_compat, Hs. }
  apply np_exp_mono in Hx.
  pose proof (np_exp_pos (- t1 / s)) as H1. pose proof (np_exp_pos (- t2 / s)) as H2.
  set (e1 := np_exp (- t1 / s)) in *. set (e2 := np_exp (- t2 / s)) in *.
  pose proof (proper_prob p Hp Hp0) as Hp'.
  pose proof (arrival_denominator_pos p e1 Hp' H1) as Hd1.
  pose proof (arrival_denominator_pos p e2 Hp' H2) as Hd2.
  apply Qle_shift_div_r; [done|]. unfold Qdiv.
  rewrite <- Qmult_assoc, (Qmult_comm (/ _)), Qmult_assoc.
  apply Qle_shift_div_l; [done|].
  assert (0 <= p * (1 - p) * (e1 - e2))%Q
    by (apply Qmult_le_0_compat; [apply Qmult_le_0_compat|]; lra).
  lra.
Qed.
End Probability.

(** ** [CacheStat] *)

Module CacheStat.
Record t : Type := CacheStat {
  stat : gmap string (list Q);
  average : gmap string Q;
  last_log_time : Q;
  log_interval : Q
}.

Definition init : t := CacheStat ∅ ∅ 0 10000.

Definition data (s : t) (k : string) : list Q := default [] (stat s !! k).

Definition get_average (s : t) (k : string) : Q := default 1%Q (average s !! k).

Definition append (k : string) (value : Q) (s : t) : t :=
  let avg := default 0%Q (average s !! k) in
  let n := inject_Z (Z.of_nat (length (data s k))) in
  CacheStat (<[k := data s k ++ [value]]> (stat s))
            (<[k := ((avg * n + value) / (n + 1))%Q]> (average s))
            (last_log_time s) (log_interval s).

(** [summary]: prints at most once per interval; the result says whether
    any series has data. *)
Definition summary (current_time : Q) (s : t) : Z * t :=
  if Qltb (current_time - last_log_time s) (log_interval s) then (0, s)
  else (if bool_decide (Exists (fun kv => kv.2 <> []) (map_to_list (stat s)))
        then 1 else 0,
        CacheStat (stat s) (average s) current_time (log_interval s)).

Definition qsum (l : list Q) : Q := foldr Qplus 0%Q l.

(** The running average is the mean of the recorded series. *)
Definition consistent (s : t) : Prop :=
  forall k, match average s !! k with
            | Some a => data s k <> [] /\
                (a * inject_Z (Z.of_nat (length (data s k))) == qsum (data s k))%Q
            | None => data s k = []
            end.

Lemma qsum_app l v : (qsum (l ++ [v]) == qsum l + v)%Q.
Proof.
  unfold qsum. induction l as [|x l IH]; cbn [foldr app]; [lra|]. rewrite IH. lra.
Qed.

Lemma consistent_init : consistent init.
Proof. intros k. by unfold data; cbn; rewrite lookup_empty. Qed.

Lemma consistent_append k v s : consistent s -> consistent (append k v s).
Proof.
  intros Hs j. specialize (Hs j). unfold append, data in *; cbn.
  destruct (decide (k = j)) as [->|Hne]; [|by rewrite !lookup_insert_ne].
  rewrite !lookup_insert_eq. cbn. split; [by destruct (default [] _)|].
  rewrite qsum_app, length_app. cbn [length].
  rewrite Nat2Z.inj_add, inject_Z_plus. cbn [Z.of_nat]. change (inject_Z 1) with 1%Q.
  set (l := default [] (stat s !! j)) in *.
  assert (Hpos : (0 <= inject_Z (Z.of_nat (length l)))%Q).
  { change 0%Q with (inject_Z 0). rewrite <- Zle_Qle. lia. }
  set (n := inject_Z _) in *.
  assert (Hsum : (default 0%Q (average s !! j) * n == qsum l)%Q).
  { destruct (average s !! j) as [a|]; cbn; [by apply Hs|]. rewrite Hs. cbn. lra. }
  rewrite <- Hsum. field. lra.
Qed.
End CacheStat.

(** ** [BlockMetaData] *)

Record BlockMetaData : Type := MkBlockMetaData {
  content_hash : Z;
  num_hashed_tokens : Z;
  last_accessed : Q;
  block_cache_hint : option cache_hint;
  score : Q
}.

(** ** The policy interface

    What [Evictor] promises an allocator: it holds a dictionary from block ids
    to the hashes they were added under; [evict] takes one of them out.  Clock
    readings come from a stream, so a policy's operations need no argument for
    the time of day. *)
Class Evictor (E : Type) : Type := {
  ev_table : E -> pydict Z Z;
  ev_evict : M E (Z * Z);
  ev_add : Z -> Z -> Z -> Q -> option cache_hint -> M E unit;
  ev_update : Z -> Q -> option cache_hint -> M E unit;
  ev_remove : Z -> M E unit
}.

(** [block_id in evictor] and [evictor.num_blocks]. *)
Definition ev_contains {E} `{!Evictor E} (e : E) (block_id : Z) : bool :=
  has (ev_table e) block_id.
Definition ev_num_blocks {E} `{!Evictor E} (e : E) : Z := dlen (ev_table e).

(** The hash a held block was added under. *)
Definition ev_blocks {E} `{!Evictor E} (e : E) : Z -> option Z :=
  fun b => ev_table e !! b.

Class EvictorLaws (E : Type) `{!Evictor E} (ev_wf : E -> Prop) : Prop := {
  law_table : forall e, ev_wf e -> wf_dict (ev_table e);
  law_evict_ok : forall e b h e',
    ev_wf e -> ev_evict e = (Ok (b, h), e') ->
    ev_wf e' /\ is_Some (ev_blocks e b) /\
    ev_blocks e' b = None /\ forall j, j <> b -> ev_blocks e' j = ev_blocks e j;
  law_evict_err : forall e x e',
    ev_wf e -> ev_evict e = (Err x, e') ->
    ev_wf e' /\ forall j, ev_blocks e' j = ev_blocks e j;
  law_add : forall e b h n t c e',
    ev_wf e -> ev_add b h n t c e = (Ok tt, e') ->
    ev_wf e' /\ ev_blocks e' b = Some h /\
    forall j, j <> b -> ev_blocks e' j = ev_blocks e j;
  law_update : forall e b t c e',
    ev_wf e -> ev_update b t c e = (Ok tt, e') ->
    ev_wf e' /\ is_Some (ev_blocks e b) /\ forall j, ev_blocks e' j = ev_blocks e j;
  law_remove : forall e b e',
    ev_wf e -> ev_remove b e = (Ok tt, e') ->
    ev_wf e' /\ is_Some (ev_blocks e b) /\
    ev_blocks e' b = None /\ forall j, j <> b -> ev_blocks e' j = ev_blocks e j;
  law_remove_present : forall e b,
    ev_wf e -> is_Some (ev_blocks e b) -> is_ok (ev_remove b e).1 = true
}.

Section EvictorInterface.
Context {E : Type} `{!Evictor E} {ev_wf : E -> Prop} `{!EvictorLaws E ev_wf}.

Lemma ev_contains_blocks e b : ev_contains e b = true <-> is_Some (ev_blocks e b).
Proof. apply has_true. Qed.
End EvictorInterface.
