(* ===== verification/LRUEvictor.v ===== *)
(** * [LRUEvictor] ([vllm/core/evictor.py])

    Least recently used, with a lazily cleaned priority queue: removing or
    touching a block leaves its old queue entry behind, [evict] skips entries
    whose timestamp no longer matches, [_cleanup] rebuilds an oversized queue. *)
From S2P Require Import Prelude.
From S2P Require Import PyDict.
From S2P Require Import EvictorBase.

Definition CLEANUP_THRESHOLD : Z := 50.

(** A queue entry [(last_accessed, -num_hashed_tokens, block_id, content_hash)]. *)
Record entry : Type := Entry {
  e_last_accessed : Q;
  e_neg_tokens : Z;
  e_block_id : Z;
  e_content_hash : Z
}.

Definition entry_key (e : entry) : key :=
  [e_last_accessed e; inject_Z (e_neg_tokens e); inject_Z (e_block_id e);
   inject_Z (e_content_hash e)].

Record t : Type := LRUEvictor {
  free_table : pydict Z BlockMetaData;
  priority_queue : list entry;
  stat : CacheStat.t;
  ticks : nat
}.

Definition init : t := LRUEvictor ∅ [] CacheStat.init 0.

Definition contains (block_id : Z) (s : t) : bool := has (free_table s) block_id.
Definition num_blocks (s : t) : Z := dlen (free_table s).

(** The entry [add] and [_cleanup] queue for a block. *)
Definition block_entry (block_id : Z) (m : BlockMetaData) : entry :=
  Entry (last_accessed m) (- num_hashed_tokens m) block_id (content_hash m).

Section Methods.
(** The successive readings of [time.time()]. *)
Variable clk : nat -> Q.

(** The [while self.priority_queue] loop of [evict]. *)
Fixpoint pop_live (tbl : pydict Z BlockMetaData) (q : list entry)
    : option (entry * BlockMetaData) * list entry :=
  match q with
  | [] => (None, [])
  | e :: q' =>
      match tbl !! e_block_id e with
      | Some m =>
          if Qeq_bool (last_accessed m) (e_last_accessed e) then (Some (e, m), q')
          else pop_live tbl q'
      | None => pop_live tbl q'
      end
  end.

Definition evict : M t (Z * Z) := fun s =>
  if dlen (free_table s) =? 0 then (Err ValueError, s)
  else
    match pop_live (free_table s) (priority_queue s) with
    | (Some (e, m), q) =>
        let survival_time := (clk (ticks s) - last_accessed m)%Q in
        (Ok (e_block_id e, e_content_hash e),
         LRUEvictor (delete (e_block_id e) (free_table s)) q
           (CacheStat.append "survival_times" survival_time (stat s))
           (S (ticks s)))
    | (None, q) =>
        (Err ValueError, LRUEvictor (free_table s) q (stat s) (ticks s))
    end.

Definition cleanup (s : t) : t :=
  LRUEvictor (free_table s)
    (heapify entry_key (map (fun '(b, m) => block_entry b m) (items (free_table s))))
    (stat s) (ticks s).

Definition cleanup_if_necessary (s : t) : t :=
  if CLEANUP_THRESHOLD * dlen (free_table s) <? Z.of_nat (length (priority_queue s))
  then cleanup s else s.

Definition add (block_id content_hash num_hashed_tokens : Z) (last_accessed : Q)
    (cache_hint : option cache_hint) : M t unit := fun s =>
  let m := MkBlockMetaData content_hash num_hashed_tokens last_accessed cache_hint 0 in
  (Ok tt,
   cleanup_if_necessary
     (LRUEvictor (<[block_id := m]> (free_table s))
        (heappush entry_key (block_entry block_id m) (priority_queue s))
        (stat s) (ticks s))).

(** A FIFO request does not refresh the timestamp. *)
Definition update (block_id : Z) (now : Q) (cache_hint : option cache_hint)
    : M t unit := fun s =>
  match cache_hint with
  | None => (Err TypeError, s)
  | Some h =>
      match free_table s !! block_id with
      | None => (Err KeyError, s)
      | Some m =>
          let refresh := match ch_use_fifo h with None => true | Some z => z =? 0 end in
          let m' := MkBlockMetaData (EvictorBase.content_hash m)
                      (EvictorBase.num_hashed_tokens m)
                      (if refresh then now else EvictorBase.last_accessed m)
                      cache_hint (score m) in
          (Ok tt, LRUEvictor (<[block_id := m']> (free_table s)) (priority_queue s)
                    (stat s) (ticks s))
      end
  end.

Definition remove (block_id : Z) : M t unit := fun s =>
  if has (free_table s) block_id
  then (Ok tt, LRUEvictor (delete block_id (free_table s)) (priority_queue s)
                 (stat s) (ticks s))
  else (Err ValueError, s).
End Methods.

(** ** The queue against the table *)

(** Every free block has its entry in the queue. *)
Definition covered (s : t) : Prop :=
  forall b m, free_table s !! b = Some m -> block_entry b m ∈ priority_queue s.

(** An entry that looks live describes the block as it is now. *)
Definition exact (s : t) : Prop :=
  forall e m, e ∈ priority_queue s -> free_table s !! e_block_id e = Some m ->
    (last_accessed m == e_last_accessed e)%Q ->
    e_neg_tokens e = - num_hashed_tokens m /\ e_content_hash e = content_hash m.

Record queue_wf (s : t) : Prop := {
  qwf_dict : wf_dict (free_table s);
  qwf_ordered : ordered entry_key (priority_queue s);
  qwf_covered : covered s;
  qwf_exact : exact s
}.

(** No queued entry could be mistaken for the one about to be added. *)
Definition fresh (b : Z) (la : Q) (s : t) : Prop :=
  forall e, e ∈ priority_queue s -> e_block_id e = b -> ~ (la == e_last_accessed e)%Q.

(** Eviction order: oldest first, then most tokens, then smallest id. *)
Definition rank (b : Z) (m : BlockMetaData) : key :=
  [last_accessed m; inject_Z (- num_hashed_tokens m); inject_Z b].

Lemma pop_live_spec tbl q r q' :
  pop_live tbl q = (r, q') ->
  exists dead,
    (forall d m, d ∈ dead -> tbl !! e_block_id d = Some m ->
       ~ (last_accessed m == e_last_accessed d)%Q) /\
    match r with
    | Some (e, m) => q = dead ++ e :: q' /\ tbl !! e_block_id e = Some m /\
        (last_accessed m == e_last_accessed e)%Q
    | None => q = dead /\ q' = []
    end.
Proof.
  assert (Hcons : forall (e : entry) dead (P : entry -> BlockMetaData -> Prop),
    (forall m, tbl !! e_block_id e = Some m -> P e m) ->
    (forall d m, d ∈ dead -> tbl !! e_block_id d = Some m -> P d m) ->
    forall d m, d ∈ e :: dead -> tbl !! e_block_id d = Some m -> P d m).
  { intros e dead P He Hd d m [->|?]%elem_of_cons; eauto. }
  revert r q'. induction q as [|e q IH]; cbn; intros r q'.
  { intros [= <- <-]. exists []. by split; [intros ? ? ?%elem_of_nil|]. }
  destruct (tbl !! e_block_id e) as [m|] eqn:Hm.
  - destruct (Qeq_bool _ _) eqn:E.
    + intros [= <- <-]. exists []. apply Qeqb_eq in E.
      split; [by intros ? ? ?%elem_of_nil|done].
    + apply Qeqb_neq in E. intros (dead & Hd & Hr)%IH. exists (e :: dead). split.
      * apply Hcons; [|done]. intros m0 Hm0. by rewrite Hm in Hm0; simplify_eq.
      * destruct r as [[? ?]|]; [|by destruct Hr as [-> ->]].
        by destruct Hr as (-> & ? & ?).
  - intros (dead & Hd & Hr)%IH. exists (e :: dead). split.
    + apply Hcons; [|done]. intros m0 Hm0. by rewrite Hm in Hm0.
    + destruct r as [[? ?]|]; [|by destruct Hr as [-> ->]].
      by destruct Hr as (-> & ? & ?).
Qed.

Lemma covered_pop s e m q dead :
  covered s -> priority_queue s = dead ++ e :: q ->
  (forall d m, d ∈ dead -> free_table s !! e_block_id d = Some m ->
     ~ (last_accessed m == e_last_accessed d)%Q) ->
  forall b m', b <> e_block_id e -> free_table s !! b = Some m' ->
  free_table s !! e_block_id e = Some m -> block_entry b m' ∈ q.
Proof.
  intros Hc Hq Hd b m' Hne Hb He.
  pose proof (Hc b m' Hb) as Hin. rewrite Hq in Hin.
  apply elem_of_app in Hin as [Hin|[Hin|Hin]%elem_of_cons]; [|by subst e|done].
  exfalso. by apply (Hd _ m' Hin Hb).
Qed.

Lemma ordered_suffix {A} (f : A -> key) l1 l2 : ordered f (l1 ++ l2) -> ordered f l2.
Proof.
  induction l1 as [|x l1 IH]; cbn; [done|]. intros [? _]%StronglySorted_inv. auto.
Qed.

Lemma queue_wf_init : queue_wf init.
Proof.
  split; cbn; [done|constructor|by intros ?|].
  by intros e m ?%elem_of_nil.
Qed.

Lemma queue_wf_cleanup s : wf_dict (free_table s) -> queue_wf (cleanup s).
Proof.
  intros Hwf. split; cbn; [done|apply py_sorted_ordered| |].
  - intros b m Hb. cbn in *. rewrite heapify_elem.
    apply list_elem_of_fmap. exists (b, m). split; [done|]. by apply elem_of_items.
  - intros e m. cbn. rewrite heapify_elem.
    intros ([b m'] & -> & Hin)%list_elem_of_fmap. cbn.
    apply elem_of_items in Hin; [|done]. rewrite Hin. by intros [= ->].
Qed.

Lemma queue_wf_cleanup_if s : queue_wf s -> queue_wf (cleanup_if_necessary s).
Proof.
  intros Hs. unfold cleanup_if_necessary. destruct (_ <? _); [|done].
  apply queue_wf_cleanup, Hs.
Qed.

Lemma queue_wf_add b h n la c s s' :
  queue_wf s -> fresh b la s -> add b h n la c s = (Ok tt, s') -> queue_wf s'.
Proof.
  intros [Hd Ho Hc He] Hf [= <-]. apply queue_wf_cleanup_if.
  split; cbn; [by apply wf_insert|by apply insert_by_ordered| |].
  - intros b' m'. cbn. rewrite dict_lookup_insert, heappush_elem.
    case_decide; [intros [= <-]; subst; by left|]. intros ?. right. by apply Hc.
  - intros e m. cbn. rewrite dict_lookup_insert, heappush_elem.
    intros [->|Hin] Hm Hla; [cbn in *; rewrite decide_True in Hm by done; by simplify_eq/=|].
    case_decide; [|by eapply He]. simplify_eq/=. by destruct (Hf e Hin eq_refl).
Qed.

Lemma queue_wf_remove b s s' :
  queue_wf s -> remove b s = (Ok tt, s') -> queue_wf s'.
Proof.
  intros [Hd Ho Hc He]. unfold remove. destruct (has _ _); [|done]. intros [= <-].
  split; cbn; [by apply wf_delete|done| |].
  - intros b' m'. cbn. rewrite dict_lookup_delete. case_decide; [done|]. apply Hc.
  - intros e m. cbn. rewrite dict_lookup_delete. case_decide; [done|]. apply He.
Qed.

Lemma evict_step clk s r s' :
  evict clk s = (r, s') ->
  match r with
  | Ok (b, h) => exists e m q, b = e_block_id e /\ h = e_content_hash e /\
      pop_live (free_table s) (priority_queue s) = (Some (e, m), q) /\
      free_table s' = delete b (free_table s) /\ priority_queue s' = q
  | Err _ => free_table s' = free_table s
  end.
Proof.
  unfold evict. destruct (_ =? _); [by intros [= <- <-]|].
  destruct (pop_live _ _) as [[[e m]|] q] eqn:Hp; intros [= <- <-]; cbn; [|done].
  by exists e, m, q.
Qed.

Lemma queue_wf_evict clk s b h s' :
  queue_wf s -> evict clk s = (Ok (b, h), s') -> queue_wf s'.
Proof.
  intros [Hd Ho Hc He] (e & m & q & -> & -> & Hp & Ht & Hq)%evict_step.
  apply pop_live_spec in Hp as (dead & Hdead & Hpq & Hm & Hla).
  split; rewrite ?Ht, ?Hq.
  - by apply wf_delete.
  - rewrite Hpq in Ho. apply ordered_suffix in Ho. by apply ordered_cons_inv in Ho as [? _].
  - intros b' m'. rewrite Ht, Hq, dict_lookup_delete. case_decide; [done|]. intros Hb.
    by eapply covered_pop.
  - intros e' m'. rewrite Ht, Hq, dict_lookup_delete. case_decide; [done|].
    intros Hin. apply He. rewrite Hpq, elem_of_app, elem_of_cons. auto.
Qed.

(** ** Reachable states *)

(** The calls that keep the queue faithful to the table: [update] is not among
    them (see [evict_after_update_raises]). *)
Inductive step (clk : nat -> Q) : t -> t -> Prop :=
  | step_add b h n la c s s' :
      fresh b la s -> add b h n la c s = (Ok tt, s') -> step clk s s'
  | step_remove b s s' : remove b s = (Ok tt, s') -> step clk s s'
  | step_evict b h s s' : evict clk s = (Ok (b, h), s') -> step clk s s'.

Lemma queue_wf_step clk s s' : step clk s s' -> queue_wf s -> queue_wf s'.
Proof.
  destruct 1; intros Hs;
    eauto using queue_wf_add, queue_wf_remove, queue_wf_evict.
Qed.

Lemma queue_wf_reachable clk s : rtc (step clk) init s -> queue_wf s.
Proof.
  intros Hr. assert (H : queue_wf init) by apply queue_wf_init.
  revert H. induction Hr; eauto using queue_wf_step.
Qed.

Lemma evict_oldest clk s :
  queue_wf s -> 0 < num_blocks s ->
  exists b m s',
    evict clk s = (Ok (b, content_hash m), s') /\
    free_table s !! b = Some m /\
    free_table s' = delete b (free_table s) /\
    forall b' m', free_table s !! b' = Some m' -> key_leb (rank b m) (rank b' m') = true.
Proof.
  intros [Hd Ho Hc He] Hn. unfold num_blocks in Hn.
  destruct (pop_live (free_table s) (priority_queue s)) as [r q] eqn:Hp.
  pose proof (pop_live_spec _ _ _ _ Hp) as (dead & Hdead & Hr).
  destruct r as [[e m]|].
  - destruct Hr as (Hpq & Hm & Hla).
    destruct (He e m) as [Htok Hh]; [|done..|].
    { rewrite Hpq, elem_of_app. right. left. }
    exists (e_block_id e), m. eexists. split; [|split; [exact Hm|split]].
    + unfold evict. rewrite (proj2 (Z.eqb_neq _ _)) by lia. by rewrite Hp, Hh.
    + done.
    + intros b' m' Hb'. destruct (decide (b' = e_block_id e)) as [->|Hne].
      { assert (m' = m) as -> by congruence. apply key_leb_refl. }
      pose proof (covered_pop s e m q dead Hc Hpq Hdead b' m' Hne Hb' Hm) as Hin.
      rewrite Hpq in Ho. apply ordered_suffix, ordered_cons_inv in Ho as [_ Ho].
      specialize (Ho _ Hin).
      apply (key_leb_app (take 3 (entry_key e)) (rank b' m') [_] [_]) in Ho; [|done].
      eapply key_leb_trans; [|exact Ho]. apply key_eqb_leb. cbn.
      rewrite Htok. rewrite !andb_true_iff, !Qeqb_eq. by repeat split.
  - exfalso. destruct Hr as [Hpq _].
    destruct (items (free_table s)) as [|[b m] l] eqn:Hi.
    { apply dlen_zero in Hi. lia. }
    assert (Hb : free_table s !! b = Some m).
    { apply elem_of_items; [done|]. rewrite Hi. left. }
    pose proof (Hc b m Hb) as Hin. rewrite Hpq in Hin.
    by apply (Hdead _ m Hin Hb).
Qed.

(** In every state reached by adding, removing and evicting blocks, and
    whatever the clock says, [evict] on a non-empty evictor succeeds: it removes
    the block with the oldest [last_accessed], breaking ties by the largest
    [num_hashed_tokens] and then the smallest id, and returns it with the hash
    it was added under. *)
Theorem evict_least_recently_used (clk : nat -> Q) (s : t)
    (Hreach : rtc (step clk) init s) (Hn : 0 < num_blocks s) :
  exists b m s',
    evict clk s = (Ok (b, content_hash m), s') /\
    free_table s !! b = Some m /\
    free_table s' = delete b (free_table s) /\
    forall b' m', free_table s !! b' = Some m' ->
      key_leb (rank b m) (rank b' m') = true.
Proof. apply evict_oldest; [by eapply queue_wf_reachable|done]. Qed.

(** Two blocks of the same age, freed with one and two blocks of tokens. *)
Definition two_blocks : t :=
  (add 8 20 32 5 None (add 7 10 16 5 None init).2).2.

Lemma evict_least_recently_used_witness :
  rtc (step (fun _ => 9%Q)) init two_blocks /\
  exists m s', evict (fun _ => 9%Q) two_blocks = (Ok (8, content_hash m), s').
Proof.
  assert (Hr : rtc (step (fun _ => 9%Q)) init two_blocks).
  { eapply rtc_l; [apply (step_add _ 7 10 16 5 None); [|reflexivity]|].
    { intros e H; inversion H. }
    eapply rtc_l; [apply (step_add _ 8 20 32 5 None); [|reflexivity]|apply rtc_refl].
    intros e H Hb. cbn in H. apply list_elem_of_singleton in H. subst e. discriminate Hb. }
  split; [exact Hr|].
  destruct (evict_least_recently_used _ _ Hr eq_refl) as (b & m & s' & He & _).
  exists m, s'. rewrite He. vm_compute in He. injection He as Hb _ _. by rewrite <- Hb.
Defined.

(** ** The queue stays proportional to the table *)

Lemma cleanup_bound s :
  0 < dlen (free_table s) ->
  Z.of_nat (length (priority_queue (cleanup_if_necessary s)))
  <= CLEANUP_THRESHOLD * dlen (free_table (cleanup_if_necessary s)).
Proof.
  intros Hn. unfold cleanup_if_necessary, CLEANUP_THRESHOLD.
  destruct (Z.ltb_spec (50 * dlen (free_table s)) (Z.of_nat (length (priority_queue s)))); [|done].
  unfold cleanup; cbn. rewrite length_heapify, length_map.
  fold (dlen (free_table s)). lia.
Qed.

(** After an [add] the priority queue has at most [CLEANUP_THRESHOLD]
    entries per free block, whatever was queued before, so the entries left
    behind by [remove] and [update] cannot accumulate. *)
Theorem add_bounds_queue (b h n : Z) (la : Q) (c : option cache_hint) (s s' : t)
    (Hadd : add b h n la c s = (Ok tt, s')) :
  Z.of_nat (length (priority_queue s')) <= CLEANUP_THRESHOLD * num_blocks s'.
Proof.
  injection Hadd as <-. unfold num_blocks. apply cleanup_bound. cbn.
  rewrite dlen_insert. pose proof (dlen_nonneg (free_table s)).
  destruct (decide (is_Some (free_table s !! b))) as [[m Hm]|]; [|lia].
  destruct (decide (dlen (free_table s) = 0)) as [Hz%dlen_zero|]; [|lia].
  unfold lookup, pydict_lookup in Hm. by rewrite Hz in Hm.
Qed.

Lemma add_bounds_queue_witness :
  Z.of_nat (length (priority_queue two_blocks)) <= CLEANUP_THRESHOLD * num_blocks two_blocks.
Proof. apply (add_bounds_queue 8 20 32 5 None (add 7 10 16 5 None init).2). reflexivity. Defined.

(** ** [update] leaves the block without a live entry *)

(** [update] moves the timestamp of a free block but queues no entry for
    it: once the only free block has been touched at a later time, [evict]
    raises [ValueError] although [num_blocks] is still 1. *)
Theorem evict_after_update_raises
    (clk : nat -> Q) (b h n : Z) (t0 t1 : Q) (c : option cache_hint)
    (Hlater : (t0 < t1)%Q) :
  exists s1 s2 s3,
    add b h n t0 c init = (Ok tt, s1) /\
    update b t1 (Some empty_hint) s1 = (Ok tt, s2) /\
    num_blocks s2 = 1 /\
    evict clk s2 = (Err ValueError, s3) /\ num_blocks s3 = 1.
Proof.
  assert (Hneq : Qeq_bool t1 t0 = false) by (apply Qeqb_neq; lra).
  set (m0 := MkBlockMetaData h n t0 c 0).
  set (m1 := MkBlockMetaData h n t1 (Some empty_hint) 0).
  exists (LRUEvictor (PyDict [(b, m0)]) [block_entry b m0] CacheStat.init 0),
    (LRUEvictor (PyDict [(b, m1)]) [block_entry b m0] CacheStat.init 0).
  exists (LRUEvictor (PyDict [(b, m1)]) [] CacheStat.init 0).
  split; [done|]. unfold update, evict. cbn [free_table priority_queue].
  rewrite dict_lookup_single, dict_insert_single.
  split; [done|]. split; [done|]. split; [|done].
  cbn [dlen items length pop_live e_block_id block_entry].
  rewrite dict_lookup_single. cbn. by rewrite Hneq.
Qed.

Lemma evict_after_update_raises_witness :
  exists s1 s2 s3,
    add 3 30 16 1 None init = (Ok tt, s1) /\
    update 3 2 (Some empty_hint) s1 = (Ok tt, s2) /\
    num_blocks s2 = 1 /\
    evict (fun _ => 9%Q) s2 = (Err ValueError, s3) /\ num_blocks s3 = 1.
Proof. apply (evict_after_update_raises (fun _ => 9%Q) 3 30 16 1 2 None). reflexivity. Defined.

(** ** The policy interface *)

#[global] Instance lru_evictor (clk : nat -> Q) : Evictor t := {
  ev_table s := dfmap content_hash (free_table s);
  ev_evict := evict clk;
  ev_add := add;
  ev_update := update;
  ev_remove := remove
}.

Definition lru_wf (s : t) : Prop := wf_dict (free_table s).

Lemma cleanup_if_table s : free_table (cleanup_if_necessary s) = free_table s.
Proof. unfold cleanup_if_necessary. by destruct (_ <? _). Qed.

#[global] Instance lru_evictor_laws (clk : nat -> Q) :
  @EvictorLaws t (lru_evictor clk) lru_wf.
Proof.
  split; unfold ev_blocks, lru_wf; cbn.
  { intros s. unfold wf_dict. by rewrite keys_dfmap. }
  all: try setoid_rewrite dict_lookup_dfmap.
  - intros s b h s' Hwf (e & m & q & -> & -> & Hp & Ht & Hq)%evict_step.
    apply pop_live_spec in Hp as (dead & _ & _ & Hm & _).
    rewrite Ht, Hm. split; [by apply wf_delete|]. split; [by eexists|].
    split; [by rewrite dict_lookup_delete_eq|].
    intros j Hj. by rewrite dict_lookup_delete_ne by done.
  - intros s x s' Hwf Ht%evict_step. by rewrite Ht.
  - intros s b h n tm c s' Hwf [= <-]. rewrite cleanup_if_table; cbn.
    split; [by apply wf_insert|]. rewrite dict_lookup_insert_eq. split; [done|].
    intros j Hj. by rewrite dict_lookup_insert_ne by done.
  - intros s b now c s' Hwf. unfold update. destruct c as [hint|]; [|done].
    destruct (free_table s !! b) as [m|] eqn:Hm; [|done]. intros [= <-]. cbn.
    split; [by apply wf_insert|]. split; [by eexists|].
    intros j. rewrite dict_lookup_insert. case_decide; [subst; by rewrite Hm|done].
  - intros s b s' Hwf. unfold remove. destruct (has _ _) eqn:Hb; [|done].
    apply has_true in Hb. intros [= <-]. cbn. split; [by apply wf_delete|].
    split; [by apply fmap_is_Some|]. split; [by rewrite dict_lookup_delete_eq|].
    intros j Hj. by rewrite dict_lookup_delete_ne by done.
  - intros s b Hwf Hb%fmap_is_Some. unfold remove. by rewrite (proj2 (has_true _ _) Hb).
Qed.
