(* ===== verification/PDP.v ===== *)
(** * Protecting distances ([vllm/core/evictor.py])

    The arithmetic of the protecting-distance policy, which the source writes
    out three times ([PDPEvictor], [ShadowPolicyCache], [LRUMLEvictor]): the
    bucketing of reuse distances and the search for the protecting distance
    with the best hit rate per occupied slot. *)
From S2P Require Import Prelude.

(** [range(start, stop, step)] for a non-zero step. *)
Definition py_range (start stop step : Z) : list Z :=
  let n := if 0 <? step then cdiv (stop - start) step else cdiv (start - stop) (- step) in
  map (fun i => start + i * step) (seqZ 0 n).

Lemma py_range_sorted a b k : 0 < k -> StronglySorted Z.lt (py_range a b k).
Proof.
  intros Hk. unfold py_range. generalize (seqZ_sorted 0 (if 0 <? k then cdiv (b - a) k else cdiv (a - b) (- k))).
  induction 1 as [|i l Hl IH Hi]; cbn; constructor; [done|].
  apply Forall_forall. intros y (j & -> & Hj)%list_elem_of_fmap.
  rewrite Forall_forall in Hi. specialize (Hi j Hj). nia.
Qed.

Lemma elem_of_py_range a b k d :
  0 < k -> d ∈ py_range a b k <-> exists i, 0 <= i /\ d = a + i * k /\ d < b.
Proof.
  intros Hk. unfold py_range. rewrite (proj2 (Z.ltb_lt 0 k)) by done.
  pose proof (cdiv_spec (b - a) k Hk). split.
  - intros (i & -> & Hi%elem_of_seqZ)%list_elem_of_fmap. exists i. nia.
  - intros (i & Hi & -> & Hb). apply list_elem_of_fmap. exists i. split; [done|].
    apply elem_of_seqZ. nia.
Qed.

(** [_bucket_distance] / [_pdp_bucket_distance]. *)
Definition bucket_distance (max_distance bucket_size distance : Z) : Z :=
  let distance := Z.max 1 (Z.min distance max_distance) in
  if bucket_size =? 1 then distance
  else Z.min max_distance
         (((distance + bucket_size - 1) / bucket_size) * bucket_size).

Lemma bucket_distance_bounds m k d :
  1 <= m -> 1 <= k -> 1 <= bucket_distance m k d <= m.
Proof.
  intros Hm Hk. unfold bucket_distance. cbv zeta.
  destruct (k =? 1) eqn:E; [lia|].
  set (d' := Z.max 1 (Z.min d m)).
  assert (1 <= (d' + k - 1) / k) by (apply Z.div_le_lower_bound; lia). nia.
Qed.

(** Below the cap, a distance is rounded up to a multiple of the bucket. *)
Lemma bucket_distance_round m k d :
  1 <= k -> 1 <= d -> cdiv d k * k <= m -> bucket_distance m k d = cdiv d k * k.
Proof.
  intros Hk Hd Hcap. pose proof (cdiv_spec d k ltac:(lia)) as Hc.
  unfold bucket_distance. cbv zeta.
  rewrite Z.min_l by nia. rewrite Z.max_r by lia.
  destruct (Z.eqb_spec k 1) as [->|].
  { nia. }
  replace ((d + k - 1) / k) with (cdiv d k); [lia|].
  apply (Z.div_unique_pos _ _ _ (d + k - 1 - k * cdiv d k)); nia.
Qed.

(** ** Counting reuse distances *)

Definition total_count (counts : gmap Z Z) : Z :=
  foldr (fun p acc => p.2 + acc) 0 (map_to_list counts).

Lemma total_count_perm (l l' : list (Z * Z)) :
  l ≡ₚ l' -> foldr (fun p acc => p.2 + acc) 0 l = foldr (fun p acc => p.2 + acc) 0 l'.
Proof. induction 1; cbn; lia. Qed.

(** [counts[d] += 1] on a [defaultdict(int)]. *)
Definition count_incr (d : Z) (counts : gmap Z Z) : gmap Z Z :=
  <[d := default 0 (counts !! d) + 1]> counts.

Lemma total_count_incr d counts :
  total_count (count_incr d counts) = total_count counts + 1.
Proof.
  unfold total_count, count_incr. destruct (counts !! d) as [n|] eqn:Hd; cbn.
  - rewrite <- insert_delete_eq.
    rewrite (total_count_perm _ _ (map_to_list_insert _ _ (n + 1) (lookup_delete_eq counts d))).
    rewrite (total_count_perm (map_to_list counts) ((d, n) :: map_to_list (delete d counts))).
    { cbn. lia. }
    symmetry. by apply map_to_list_delete.
  - rewrite (total_count_perm _ _ (map_to_list_insert _ _ 1 Hd)). cbn. lia.
Qed.

Lemma count_incr_forall (P : Z -> Prop) d counts :
  map_Forall (fun d n => P d /\ 0 <= n) counts -> P d ->
  map_Forall (fun d n => P d /\ 0 <= n) (count_incr d counts).
Proof.
  intros Hc Hd. unfold count_incr. apply map_Forall_insert_2; [|done].
  split; [done|]. destruct (counts !! d) as [n|] eqn:E; cbn; [|lia].
  destruct (Hc d n E). lia.
Qed.

(** ** The search *)

Section Recompute.
(** [eviction_distance] and the number of observed accesses. *)
Variables (eviction_distance total : Z).

(** The inner [while]: take the pairs up to [distance] off the front. *)
Fixpoint absorb (distance : Z) (ds : list (Z * Z)) (hits cost : Z)
    : list (Z * Z) * Z * Z :=
  match ds with
  | [] => ([], hits, cost)
  | (reuse_distance, count) :: ds' =>
      if reuse_distance <=? distance
      then absorb distance ds' (hits + count) (cost + reuse_distance * count)
      else (ds, hits, cost)
  end.

(** Hits per slot-time if blocks are protected for [distance]. *)
Definition pd_score (hits cost distance : Z) : Q :=
  let misses := Z.max 0 (total - hits) in
  let denominator := cost + misses * (distance + eviction_distance) in
  if 0 <? denominator then (inject_Z hits / inject_Z denominator)%Q else 0%Q.

(** The [for distance in range(...)] loop. *)
Fixpoint search (candidates : list Z) (ds : list (Z * Z)) (hits cost : Z)
    (best_score : Q) (best_distance : Z) : Z :=
  match candidates with
  | [] => best_distance
  | distance :: rest =>
      let '(ds', hits', cost') := absorb distance ds hits cost in
      let sc := pd_score hits' cost' distance in
      if Qltb best_score sc then search rest ds' hits' cost' sc distance
      else search rest ds' hits' cost' best_score best_distance
  end.

Definition pair_key (p : Z * Z) : key := [inject_Z p.1; inject_Z p.2].

(** [_recompute_protecting_distance]: the new protecting distance. *)
Definition recompute (max_distance bucket_size : Z) (counts : gmap Z Z)
    (protecting_distance : Z) : Z :=
  if bool_decide (counts = ∅) || (total =? 0) then protecting_distance
  else search (py_range 1 (max_distance + 1) bucket_size)
         (py_sorted pair_key (map_to_list counts)) 0 0 (-1) protecting_distance.

(** *** What it computes *)

(** Observed reuses within [d], and the slot-time they occupied. *)
Definition hits_upto (ds : list (Z * Z)) (d : Z) : Z :=
  foldr (fun p acc => if p.1 <=? d then p.2 + acc else acc) 0 ds.
Definition cost_upto (ds : list (Z * Z)) (d : Z) : Z :=
  foldr (fun p acc => if p.1 <=? d then p.1 * p.2 + acc else acc) 0 ds.

Definition efficiency (counts : gmap Z Z) (d : Z) : Q :=
  pd_score (hits_upto (map_to_list counts) d) (cost_upto (map_to_list counts) d) d.

Lemma hits_upto_cons p ds d :
  hits_upto (p :: ds) d = if p.1 <=? d then p.2 + hits_upto ds d else hits_upto ds d.
Proof. done. Qed.
Lemma cost_upto_cons p ds d :
  cost_upto (p :: ds) d
  = if p.1 <=? d then p.1 * p.2 + cost_upto ds d else cost_upto ds d.
Proof. done. Qed.
#[local] Arguments hits_upto : simpl never.
#[local] Arguments cost_upto : simpl never.

Lemma hits_upto_perm l l' d : l ≡ₚ l' -> hits_upto l d = hits_upto l' d.
Proof.
  induction 1; rewrite ?hits_upto_cons; [done|by rewrite IHPermutation| |congruence].
  repeat case_match; lia.
Qed.
Lemma cost_upto_perm l l' d : l ≡ₚ l' -> cost_upto l d = cost_upto l' d.
Proof.
  induction 1; rewrite ?cost_upto_cons; [done|by rewrite IHPermutation| |congruence].
  repeat case_match; lia.
Qed.

Lemma above_upto ds d :
  (forall p, p ∈ ds -> d < p.1) -> hits_upto ds d = 0 /\ cost_upto ds d = 0.
Proof.
  induction ds as [|p ds IH]; [done|]. intros H.
  rewrite hits_upto_cons, cost_upto_cons.
  destruct IH as [-> ->]; [by intros; apply H; right|].
  pose proof (H p ltac:(left)). destruct (Z.leb_spec p.1 d); [lia|done].
Qed.

Lemma absorb_spec d ds h c ds' h' c' :
  ordered pair_key ds -> absorb d ds h c = (ds', h', c') ->
  ordered pair_key ds' /\ (forall p, p ∈ ds' -> d < p.1) /\
  forall d', d <= d' -> h' + hits_upto ds' d' = h + hits_upto ds d' /\
                       c' + cost_upto ds' d' = c + cost_upto ds d'.
Proof.
  revert h c. induction ds as [|[rd n] ds IH]; cbn; intros h c Ho.
  { intros [= <- <- <-]. split; [done|]. split; [by intros ? ?%elem_of_nil|done]. }
  pose proof (ordered_cons_inv _ _ _ Ho) as [Ho' Hhd].
  destruct (Z.leb_spec rd d) as [Hle|Hgt].
  - intros (? & ? & Hs)%IH; [|done]. split; [done|]. split; [done|].
    intros d' Hd. destruct (Hs d' Hd) as [Hh Hc].
    rewrite hits_upto_cons, cost_upto_cons. cbn [fst snd].
    destruct (Z.leb_spec rd d'); lia.
  - intros [= <- <- <-]. split; [done|]. split; [|done].
    intros p [->|Hp]%elem_of_cons; [done|]. specialize (Hhd p Hp).
    apply key_leb_cons_Z in Hhd. cbn in Hhd. lia.
Qed.

Lemma pd_score_nonneg h c d : 0 <= h -> (0 <= pd_score h c d)%Q.
Proof.
  intros Hh. unfold pd_score. cbv zeta.
  destruct (Z.ltb_spec 0 (c + Z.max 0 (total - h) * (d + eviction_distance)))
    as [Hd|_]; [|apply Qle_refl].
  apply Qle_shift_div_l.
  - change 0%Q with (inject_Z 0). by rewrite <- Zlt_Qlt.
  - rewrite Qmult_0_l. change 0%Q with (inject_Z 0). by rewrite <- Zle_Qle.
Qed.

Section Search.
(** The whole sorted list of observations. *)
Variable all : list (Z * Z).
Let E d := pd_score (hits_upto all d) (cost_upto all d) d.

Lemma search_spec cands : forall ds h c bs bd last,
  StronglySorted Z.lt cands -> (forall d, d ∈ cands -> last <= d) ->
  ordered pair_key ds ->
  (forall d, last <= d -> h + hits_upto ds d = hits_upto all d /\
                          c + cost_upto ds d = cost_upto all d) ->
  let r := search cands ds h c bs bd in
  (r = bd /\ forall d, d ∈ cands -> (E d <= bs)%Q) \/
  (r ∈ cands /\ (bs < E r)%Q /\
   forall d, d ∈ cands -> (E d <= E r)%Q /\ (d < r -> (E d < E r)%Q)).
Proof.
  induction cands as [|x cands IH]; cbn; intros ds h c bs bd last Hs Hlast Ho Hinv.
  { left. split; [done|]. by intros ? ?%elem_of_nil. }
  apply StronglySorted_inv in Hs as [Hs Hx]. rewrite Forall_forall in Hx.
  destruct (absorb x ds h c) as [[ds' h'] c'] eqn:Ha.
  apply absorb_spec in Ha as (Ho' & Habove & Hsum); [|done].
  pose proof (Hlast x ltac:(left)) as Hlx.
  assert (Hinv' : forall d, x <= d -> h' + hits_upto ds' d = hits_upto all d /\
                                      c' + cost_upto ds' d = cost_upto all d).
  { intros d Hd. destruct (Hsum d Hd), (Hinv d); lia. }
  assert (Hnext : forall d, d ∈ cands -> x <= d).
  { intros d Hd. specialize (Hx d Hd). lia. }
  destruct (above_upto ds' x Habove) as [Hh0 Hc0].
  destruct (Hinv' x ltac:(lia)) as [Hh Hc]. rewrite Hh0 in Hh. rewrite Hc0 in Hc.
  assert (h' = hits_upto all x) as -> by lia. assert (c' = cost_upto all x) as -> by lia.
  fold (E x). destruct (Qltb bs (E x)) eqn:Hb.
  - apply Qltb_lt in Hb. right.
    destruct (IH ds' _ _ (E x) x x Hs Hnext Ho' Hinv') as [[-> Hle]|(Hin & Hlt & Hle)].
    + split; [left|]. split; [done|]. intros d [->|Hd]%elem_of_cons.
      * split; [apply Qle_refl|lia].
      * split; [by apply Hle|]. specialize (Hx d Hd). lia.
    + split; [by right|]. split; [lra|]. intros d [->|Hd]%elem_of_cons; [|by apply Hle].
      split; [lra|done].
  - apply Qltb_ge in Hb.
    destruct (IH ds' _ _ bs bd x Hs Hnext Ho' Hinv') as [[-> Hle]|(Hin & Hlt & Hle)].
    + left. split; [done|]. intros d [->|Hd]%elem_of_cons; [done|by apply Hle].
    + right. split; [by right|]. split; [done|].
      intros d [->|Hd]%elem_of_cons; [|by apply Hle]. split; [lra|intros; lra].
Qed.
End Search.

Lemma hits_upto_nonneg ds d : Forall (fun p => 0 <= p.2) ds -> 0 <= hits_upto ds d.
Proof.
  induction 1 as [|p ds Hp Hds IH]; [done|]. rewrite hits_upto_cons. case_match; lia.
Qed.

Lemma efficiency_sorted counts d :
  pd_score (hits_upto (py_sorted pair_key (map_to_list counts)) d)
    (cost_upto (py_sorted pair_key (map_to_list counts)) d) d = efficiency counts d.
Proof.
  unfold efficiency. rewrite (hits_upto_perm _ (map_to_list counts)), (cost_upto_perm _ (map_to_list counts)); [done|apply py_sorted_perm..].
Qed.

Lemma recompute_argmax m k counts pd :
  1 <= m -> 1 <= k -> counts <> ∅ -> total <> 0 ->
  map_Forall (fun _ n => 0 <= n) counts ->
  let r := recompute m k counts pd in
  r ∈ py_range 1 (m + 1) k /\
  forall d, d ∈ py_range 1 (m + 1) k ->
    (efficiency counts d <= efficiency counts r)%Q /\
    (d < r -> (efficiency counts d < efficiency counts r)%Q).
Proof.
  intros Hm Hk Hc Ht Hn. unfold recompute. cbv zeta.
  rewrite bool_decide_eq_false_2 by done. rewrite (proj2 (Z.eqb_neq total 0)) by done.
  cbn [orb]. set (ds := py_sorted pair_key (map_to_list counts)).
  destruct (search_spec ds (py_range 1 (m + 1) k) ds 0 0 (-1) pd 1)
    as [[_ Hle]|(Hin & Hlt & Hle)].
  - apply py_range_sorted; lia.
  - intros d (i & ? & ? & ?)%elem_of_py_range; nia.
  - apply py_sorted_ordered.
  - done.
  - exfalso. assert (H1 : 1 ∈ py_range 1 (m + 1) k).
    { apply elem_of_py_range; [lia|]. exists 0. lia. }
    specialize (Hle 1 H1). unfold ds in Hle. rewrite efficiency_sorted in Hle.
    assert (0 <= efficiency counts 1)%Q; [|lra].
    apply pd_score_nonneg, hits_upto_nonneg, Forall_forall.
    intros [d n] Hd%elem_of_map_to_list. apply (Hn d n Hd).
  - split; [done|]. intros d Hd. specialize (Hle d Hd).
    unfold ds in Hle. by rewrite !efficiency_sorted in Hle.
Qed.
End Recompute.
