(* ===== verification/PDPEvictor.v ===== *)
(** * [PDPEvictor] ([vllm/core/evictor.py])

    The protecting-distance policy: a block is protected until its request
    epoch runs out, and the distance it is protected for is learnt from the
    reuse distances that prefix lookups report. *)
From S2P Require Import Prelude.
From S2P Require Import PyDict.
From S2P Require Import EvictorBase.
From S2P Require Import PDP.

(** [PDPBlockMetaData] *)
Record PDPBlock : Type := PDPBlockMetaData {
  base : BlockMetaData;
  first_access_epoch : Z;
  last_access_epoch : Z;
  protected_until_epoch : Z;
  reused : bool
}.

Record t : Type := PDPEvictor {
  free_table : pydict Z PDPBlock;
  content_hash_to_block_id : gmap Z Z;
  last_seen_epoch : gmap Z Z;
  reuse_distance_counts : gmap Z Z;
  protecting_distance : Z;
  max_distance : Z;
  recompute_interval : Z;
  bucket_size : Z;
  eviction_distance : Z;
  capacity : Z;
  request_epoch : Z;
  total_observed_accesses : Z;
  stat : CacheStat.t;
  ticks : nat
}.

Definition DEFAULT_INITIAL_PD : Z := 32.
Definition DEFAULT_MAX_DISTANCE : Z := 256.
Definition DEFAULT_RECOMPUTE_INTERVAL : Z := 512.
Definition DEFAULT_BUCKET_SIZE : Z := 1.
Definition DEFAULT_EVICTION_DISTANCE : Z := 1.

Definition init (config : string) : result t :=
  cfg ← parse_evictor_config config;
  pd ← cfg_int cfg "pdp_initial_pd" DEFAULT_INITIAL_PD;
  md ← cfg_int cfg "pdp_max_distance" DEFAULT_MAX_DISTANCE;
  ri ← cfg_int cfg "pdp_recompute_interval" DEFAULT_RECOMPUTE_INTERVAL;
  bs ← cfg_int cfg "pdp_bucket_size" DEFAULT_BUCKET_SIZE;
  ed ← cfg_int cfg "pdp_eviction_distance" DEFAULT_EVICTION_DISTANCE;
  Ok (PDPEvictor ∅ ∅ ∅ ∅ (Z.max 0 pd) (Z.max 1 md) (Z.max 1 ri) (Z.max 1 bs)
        (Z.max 1 ed) 0 0 0 CacheStat.init 0).

(** *** Field updates *)

Definition with_table (s : t) (tbl : pydict Z PDPBlock) (hashes : gmap Z Z) : t :=
  PDPEvictor tbl hashes (last_seen_epoch s) (reuse_distance_counts s)
    (protecting_distance s) (max_distance s) (recompute_interval s) (bucket_size s)
    (eviction_distance s) (capacity s) (request_epoch s) (total_observed_accesses s)
    (stat s) (ticks s).

Definition with_observed (s : t) (seen counts : gmap Z Z) (epoch total : Z) : t :=
  PDPEvictor (free_table s) (content_hash_to_block_id s) seen counts
    (protecting_distance s) (max_distance s) (recompute_interval s) (bucket_size s)
    (eviction_distance s) (capacity s) epoch total (stat s) (ticks s).

Definition with_protecting_distance (s : t) (pd : Z) : t :=
  PDPEvictor (free_table s) (content_hash_to_block_id s) (last_seen_epoch s)
    (reuse_distance_counts s) pd (max_distance s) (recompute_interval s) (bucket_size s)
    (eviction_distance s) (capacity s) (request_epoch s) (total_observed_accesses s)
    (stat s) (ticks s).

Definition with_stat (s : t) (st : CacheStat.t) (tk : nat) : t :=
  PDPEvictor (free_table s) (content_hash_to_block_id s) (last_seen_epoch s)
    (reuse_distance_counts s) (protecting_distance s) (max_distance s)
    (recompute_interval s) (bucket_size s) (eviction_distance s) (capacity s)
    (request_epoch s) (total_observed_accesses s) st tk.

(** *** Methods *)

Definition contains (block_id : Z) (s : t) : bool := has (free_table s) block_id.
Definition num_blocks (s : t) : Z := dlen (free_table s).

Definition set_capacity (cap : Z) (s : t) : t :=
  PDPEvictor (free_table s) (content_hash_to_block_id s) (last_seen_epoch s)
    (reuse_distance_counts s) (protecting_distance s) (max_distance s)
    (recompute_interval s) (bucket_size s) (eviction_distance s) cap
    (request_epoch s) (total_observed_accesses s) (stat s) (ticks s).

Definition should_predict_cache_hint (s : t) : bool := false.
Definition should_observe_cache_accesses (s : t) : bool := true.

Definition protect_block (block_id : Z) (r : bool) (s : t) : t :=
  match free_table s !! block_id with
  | None => s
  | Some b =>
      let b' := PDPBlockMetaData (base b) (first_access_epoch b) (request_epoch s)
                  (request_epoch s + protecting_distance s) (reused b || r) in
      with_table s (<[block_id := b']> (free_table s)) (content_hash_to_block_id s)
  end.

Definition forget_hash_mapping (hash block_id : Z) (s : t) : t :=
  if bool_decide (content_hash_to_block_id s !! hash = Some block_id)
  then with_table s (free_table s) (delete hash (content_hash_to_block_id s))
  else s.

Definition recompute_protecting_distance (s : t) : t :=
  with_protecting_distance s
    (recompute (eviction_distance s) (total_observed_accesses s) (max_distance s)
       (bucket_size s) (reuse_distance_counts s) (protecting_distance s)).

(** One distinct hash of a request: the body of the loop in
    [observe_cache_accesses]. *)
Definition observe_one (hash : Z) (real_hit : bool) (s : t) : t :=
  let previous_epoch := last_seen_epoch s !! hash in
  let counts :=
    match previous_epoch with
    | Some e =>
        let d := bucket_distance (max_distance s) (bucket_size s) (request_epoch s - e) in
        count_incr d (reuse_distance_counts s)
    | None => reuse_distance_counts s
    end in
  let s1 := with_observed s (<[hash := request_epoch s]> (last_seen_epoch s)) counts
              (request_epoch s) (total_observed_accesses s) in
  match content_hash_to_block_id s1 !! hash with
  | Some block_id =>
      protect_block block_id (real_hit || bool_decide (is_Some previous_epoch)) s1
  | None => s1
  end.

Definition count_access (s : t) : t :=
  with_observed s (last_seen_epoch s) (reuse_distance_counts s) (request_epoch s)
    (total_observed_accesses s + 1).

(** [bool(real_hits[index]) if real_hits else False] *)
Definition real_hit_at (real_hits : option (list bool)) (index : nat) : result bool :=
  match real_hits with
  | None | Some [] => Ok false
  | Some l => from_option_exn IndexError (l !! index)
  end.

Fixpoint observe_loop (hashes : list Z) (index : nat) (real_hits : option (list bool))
    (seen : gset Z) : M t unit := fun s =>
  match hashes with
  | [] => (Ok tt, s)
  | h :: rest =>
      if bool_decide (h ∈ seen) then observe_loop rest (S index) real_hits seen s
      else
        let s1 := count_access s in
        match real_hit_at real_hits index with
        | Err e => (Err e, s1)
        | Ok hit => observe_loop rest (S index) real_hits ({[h]} ∪ seen) (observe_one h hit s1)
        end
  end.

Definition observe_cache_accesses (block_hashes : list Z)
    (real_hits : option (list bool)) : M t unit := fun s =>
  match block_hashes with
  | [] => (Ok tt, s)
  | _ =>
      let s1 := with_observed s (last_seen_epoch s) (reuse_distance_counts s)
                  (request_epoch s + 1) (total_observed_accesses s) in
      match observe_loop block_hashes 0 real_hits ∅ s1 with
      | (Ok _, s2) =>
          (Ok tt, if total_observed_accesses s2 mod recompute_interval s2 =? 0
                  then recompute_protecting_distance s2 else s2)
      | (Err e, s2) => (Err e, s2)
      end
  end.

Definition observe_cache_access (hash : Z) (real_hit : option bool) : M t unit :=
  observe_cache_accesses [hash] (match real_hit with Some b => Some [b] | None => None end).

Definition victim_key (epoch : Z) (p : Z * PDPBlock) : key :=
  let '(block_id, b) := p in
  let expired := protected_until_epoch b <=? epoch in
  let remaining := Z.max 0 (protected_until_epoch b - epoch) in
  if expired
  then [0; inject_Z (last_access_epoch b); last_accessed (base b); inject_Z block_id]%Q
  else [1; inject_Z (if reused b then 1 else 0); inject_Z (- remaining);
        inject_Z (- last_access_epoch b); - last_accessed (base b); inject_Z block_id]%Q.

Section Clock.
Variable clk : nat -> Q.

Definition evict : M t (Z * Z) := fun s =>
  match py_min (victim_key (request_epoch s)) (items (free_table s)) with
  | None => (Err ValueError, s)
  | Some (block_id, b) =>
      let survival_time := (clk (ticks s) - last_accessed (base b))%Q in
      let s1 := with_stat s (CacheStat.append "survival_times" survival_time (stat s))
                  (S (ticks s)) in
      let hash := content_hash (base b) in
      let s2 := with_table s1 (delete block_id (free_table s1))
                  (content_hash_to_block_id s1) in
      (Ok (block_id, hash), forget_hash_mapping hash block_id s2)
  end.
End Clock.

Definition add (block_id hash tokens : Z) (la : Q) (c : option cache_hint)
    : M t unit := fun s =>
  let s1 := match free_table s !! block_id with
            | Some prev => forget_hash_mapping (content_hash (base prev)) block_id s
            | None => s
            end in
  let epoch := default (request_epoch s1) (last_seen_epoch s1 !! hash) in
  let b := PDPBlockMetaData (MkBlockMetaData hash tokens la c 0) epoch epoch
             (request_epoch s1 + protecting_distance s1)
             (bool_decide (is_Some (last_seen_epoch s1 !! hash))) in
  (Ok tt, with_table s1 (<[block_id := b]> (free_table s1))
            (<[hash := block_id]> (content_hash_to_block_id s1))).

Definition update (block_id : Z) (la : Q) (c : option cache_hint) : M t unit := fun s =>
  match free_table s !! block_id with
  | None => (Err ValueError, s)
  | Some b =>
      let m := base b in
      let b' := PDPBlockMetaData
                  (MkBlockMetaData (content_hash m) (num_hashed_tokens m) la c (score m))
                  (first_access_epoch b) (last_access_epoch b) (protected_until_epoch b)
                  (reused b) in
      (Ok tt, protect_block block_id true
                (with_table s (<[block_id := b']> (free_table s))
                   (content_hash_to_block_id s)))
  end.

Definition remove (block_id : Z) : M t unit := fun s =>
  match free_table s !! block_id with
  | None => (Err ValueError, s)
  | Some b =>
      (Ok tt, forget_hash_mapping (content_hash (base b)) block_id
                (with_table s (delete block_id (free_table s))
                   (content_hash_to_block_id s)))
  end.

(** ** The evictor's invariant *)

(** The hash index only points at free blocks carrying that hash. *)
Definition index_ok (s : t) : Prop :=
  forall h b, content_hash_to_block_id s !! h = Some b ->
    exists blk, free_table s !! b = Some blk /\ content_hash (base blk) = h.

(** Nothing has been seen in the future. *)
Definition epochs_ok (s : t) : Prop :=
  (forall h e, last_seen_epoch s !! h = Some e -> e <= request_epoch s) /\
  (forall b blk, free_table s !! b = Some blk -> last_access_epoch blk <= request_epoch s).

Record pdp_wf (s : t) : Prop := {
  pwf_dict : wf_dict (free_table s);
  pwf_index : index_ok s;
  pwf_epochs : epochs_ok s;
  pwf_params : 1 <= max_distance s /\ 1 <= recompute_interval s /\
               1 <= bucket_size s /\ 1 <= eviction_distance s;
  pwf_counts : map_Forall (fun d n => 1 <= d <= max_distance s /\ 0 <= n)
                 (reuse_distance_counts s);
  pwf_total : total_count (reuse_distance_counts s) <= total_observed_accesses s
}.

Lemma forget_fields h b s :
  free_table (forget_hash_mapping h b s) = free_table s /\
  last_seen_epoch (forget_hash_mapping h b s) = last_seen_epoch s /\
  reuse_distance_counts (forget_hash_mapping h b s) = reuse_distance_counts s /\
  request_epoch (forget_hash_mapping h b s) = request_epoch s /\
  total_observed_accesses (forget_hash_mapping h b s) = total_observed_accesses s /\
  max_distance (forget_hash_mapping h b s) = max_distance s /\
  recompute_interval (forget_hash_mapping h b s) = recompute_interval s /\
  bucket_size (forget_hash_mapping h b s) = bucket_size s /\
  eviction_distance (forget_hash_mapping h b s) = eviction_distance s /\
  protecting_distance (forget_hash_mapping h b s) = protecting_distance s.
Proof. unfold forget_hash_mapping. by case_bool_decide. Qed.

Lemma forget_index h b s j c :
  content_hash_to_block_id (forget_hash_mapping h b s) !! j = Some c ->
  content_hash_to_block_id s !! j = Some c /\ ~ (j = h /\ c = b).
Proof.
  unfold forget_hash_mapping. case_bool_decide as Hh; cbn.
  - intros [Hne Hj]%lookup_delete_Some. split; [done|]. by intros [-> _].
  - intros Hj. split; [done|]. intros [-> ->]. by apply Hh.
Qed.

(** A state whose table and index changed consistently stays well formed. *)
Lemma pdp_wf_retable s s' :
  pdp_wf s -> wf_dict (free_table s') -> index_ok s' ->
  (forall b blk, free_table s' !! b = Some blk -> last_access_epoch blk <= request_epoch s) ->
  last_seen_epoch s' = last_seen_epoch s /\
  reuse_distance_counts s' = reuse_distance_counts s /\
  request_epoch s' = request_epoch s /\
  total_observed_accesses s' = total_observed_accesses s /\
  max_distance s' = max_distance s /\ recompute_interval s' = recompute_interval s /\
  bucket_size s' = bucket_size s /\ eviction_distance s' = eviction_distance s ->
  pdp_wf s'.
Proof.
  intros [Hd Hi [He1 He2] Hp Hc Ht] Hd' Hi' He' (E1 & E2 & E3 & E4 & E5 & E6 & E7 & E8).
  split; unfold epochs_ok; rewrite ?E1, ?E2, ?E3, ?E4, ?E5, ?E6, ?E7, ?E8; done.
Qed.

Lemma pdp_wf_protect b r s : pdp_wf s -> pdp_wf (protect_block b r s).
Proof.
  intros Hs. unfold protect_block. destruct (free_table s !! b) as [blk|] eqn:Hb; [|done].
  apply (pdp_wf_retable s); [done|..]; cbn; [by apply wf_insert, Hs| | |done].
  - intros h c Hh. destruct (pwf_index s Hs h c Hh) as (blk' & Hc & Hhash). cbn.
    rewrite dict_lookup_insert. case_decide; [subst|by exists blk'].
    eexists. split; [done|]. cbn. congruence.
  - intros c blk'. rewrite dict_lookup_insert. case_decide; [intros [= <-]; cbn; lia|].
    apply (pwf_epochs s Hs).
Qed.

Lemma pdp_wf_drop b blk s s1 :
  pdp_wf s -> free_table s !! b = Some blk ->
  s1 = with_table s (delete b (free_table s)) (content_hash_to_block_id s) ->
  pdp_wf (forget_hash_mapping (content_hash (base blk)) b s1).
Proof.
  intros Hs Hb ->. set (s1 := with_table _ _ _).
  destruct (forget_fields (content_hash (base blk)) b s1)
    as (Ft & Fl & Fc & Fr & Fo & Fm & Fi & Fb & Fe & _).
  apply (pdp_wf_retable s); [done|rewrite Ft; by apply wf_delete, Hs| |rewrite Ft; cbn|by repeat split].
  - intros h c Hh. apply forget_index in Hh as [Hh Hne].
    destruct (pwf_index s Hs h c Hh) as (blk' & Hc & Hhash).
    rewrite Ft. cbn. rewrite dict_lookup_delete. case_decide; [|by exists blk'].
    subst c. exfalso. apply Hne. split; [congruence|done].
  - intros c blk'. rewrite dict_lookup_delete. case_decide; [done|]. apply (pwf_epochs s Hs).
Qed.

Lemma pdp_wf_with_stat s st tk : pdp_wf s -> pdp_wf (with_stat s st tk).
Proof. intros [? ? ? ? ? ?]. by split. Qed.

Lemma pdp_wf_evict clk s : pdp_wf s -> pdp_wf (evict clk s).2.
Proof.
  intros Hs. unfold evict. destruct (py_min _ _) as [[b blk]|] eqn:Hm; [|done].
  apply py_min_spec in Hm as [Hin _]. apply elem_of_items in Hin; [|apply Hs].
  cbn. eapply (pdp_wf_drop b blk (with_stat s _ _)); [by apply pdp_wf_with_stat|done|done].
Qed.

Lemma pdp_wf_remove b s : pdp_wf s -> pdp_wf (remove b s).2.
Proof.
  intros Hs. unfold remove. destruct (free_table s !! b) as [blk|] eqn:Hb; [|done].
  cbn. by eapply pdp_wf_drop.
Qed.

Lemma pdp_wf_add b h n la c s : pdp_wf s -> pdp_wf (add b h n la c s).2.
Proof.
  intros Hs. unfold add. cbn.
  set (s1 := match free_table s !! b with Some _ => _ | None => s end).
  assert (Hsame : free_table s1 = free_table s /\ last_seen_epoch s1 = last_seen_epoch s /\
    reuse_distance_counts s1 = reuse_distance_counts s /\
    request_epoch s1 = request_epoch s /\
    total_observed_accesses s1 = total_observed_accesses s /\
    max_distance s1 = max_distance s /\ recompute_interval s1 = recompute_interval s /\
    bucket_size s1 = bucket_size s /\ eviction_distance s1 = eviction_distance s /\
    protecting_distance s1 = protecting_distance s).
  { unfold s1. destruct (free_table s !! b); [apply forget_fields|by repeat split]. }
  assert (Hold : forall h' c', content_hash_to_block_id s1 !! h' = Some c' ->
    content_hash_to_block_id s !! h' = Some c' /\
    (c' = b -> forall blk, free_table s !! b = Some blk -> content_hash (base blk) <> h')).
  { intros h' c'. unfold s1. destruct (free_table s !! b) as [blk|] eqn:Hb; [|done].
    intros [Hh' Hn]%forget_index. split; [done|]. intros -> ? [= <-] <-. by apply Hn. }
  clearbody s1. destruct Hsame as (Ft & Fl & Fc & Fr & Fo & Fm & Fi & Fb & Fe & Fp).
  apply (pdp_wf_retable s); [done|..]; cbn; rewrite ?Ft, ?Fl, ?Fc, ?Fr; [by apply wf_insert, Hs| | |done].
  - intros h' c' Hh'. cbn in *. rewrite dict_lookup_insert.
    apply lookup_insert_Some in Hh' as [[-> ->]|[Hne [Hh' Hnb]%Hold]].
    { rewrite decide_True by done. by eexists. }
    destruct (pwf_index s Hs h' c' Hh') as (blk' & Hc' & Hhash).
    case_decide; [|by exists blk']. subst c'. by destruct (Hnb eq_refl blk' Hc').
  - intros c' blk'. rewrite dict_lookup_insert. case_decide; [|apply (pwf_epochs s Hs)].
    intros [= <-]. cbn. destruct (last_seen_epoch s !! h) as [e|] eqn:He; cbn; [|lia].
    by apply (pwf_epochs s Hs) in He.
Qed.

Lemma pdp_wf_update b la c s : pdp_wf s -> pdp_wf (update b la c s).2.
Proof.
  intros Hs. unfold update. destruct (free_table s !! b) as [blk|] eqn:Hb; [|done].
  apply pdp_wf_protect.
  apply (pdp_wf_retable s); [done|..]; cbn; [by apply wf_insert, Hs| | |done].
  - intros h j Hh. destruct (pwf_index s Hs h j Hh) as (blk' & Hj & Hhash). cbn.
    rewrite dict_lookup_insert. case_decide; [subst|by exists blk'].
    eexists. split; [done|]. cbn. congruence.
  - intros j blk'. rewrite dict_lookup_insert. case_decide; [|apply (pwf_epochs s Hs)].
    intros [= <-]. cbn. by apply (pwf_epochs s Hs) in Hb.
Qed.

Lemma pdp_wf_count_access s : pdp_wf s -> pdp_wf (count_access s).
Proof. intros [? ? ? ? ? ?]. split; cbn; try done. lia. Qed.

Lemma pdp_wf_observe_one h hit s : pdp_wf s -> pdp_wf (observe_one h hit (count_access s)).
Proof.
  intros [Hd Hi [He1 He2] Hp Hc Ht]. unfold observe_one; cbn.
  set (s1 := with_observed _ _ _ _ _).
  assert (Hs1 : pdp_wf s1).
  { split; [done|done| |done| |]; unfold epochs_ok; cbn.
    - split; [|done]. intros h' e [[-> <-]|[_ He]]%lookup_insert_Some; [lia|by eapply He1].
    - destruct (last_seen_epoch s !! h) as [e|] eqn:He; [|done].
      apply (count_incr_forall (fun d => 1 <= d <= max_distance s)); [done|].
      apply bucket_distance_bounds; lia.
    - destruct (last_seen_epoch s !! h) as [e|] eqn:He; [|lia].
      rewrite total_count_incr. lia. }
  clearbody s1. destruct (content_hash_to_block_id s !! h); [|done].
  by apply pdp_wf_protect.
Qed.

Lemma pdp_wf_observe_loop hs rh : forall i seen s,
  pdp_wf s -> pdp_wf (observe_loop hs i rh seen s).2.
Proof.
  induction hs as [|h hs IH]; intros i seen s Hs; cbn; [done|].
  case_bool_decide; [by apply IH|].
  destruct (real_hit_at rh i) as [hit|e]; cbn; [|by apply pdp_wf_count_access].
  by apply IH, pdp_wf_observe_one.
Qed.

Lemma pdp_wf_pd s pd : pdp_wf s -> pdp_wf (with_protecting_distance s pd).
Proof. intros [? ? ? ? ? ?]. by split. Qed.

Lemma pdp_wf_observe hs rh s : pdp_wf s -> pdp_wf (observe_cache_accesses hs rh s).2.
Proof.
  intros Hs. unfold observe_cache_accesses. destruct hs as [|h hs]; [done|].
  set (s1 := with_observed _ _ _ _ _).
  assert (Hs1 : pdp_wf s1).
  { destruct Hs as [Hd Hi [He1 He2] Hp Hc Ht].
    split; [done|done| |done|done|done]. split; cbn.
    - intros j e He. specialize (He1 j e He). lia.
    - intros j blk Hb. specialize (He2 j blk Hb). lia. }
  clearbody s1. pose proof (pdp_wf_observe_loop (h :: hs) rh 0 ∅ s1 Hs1) as H2.
  destruct (observe_loop _ _ _ _ _) as [[[]|e] s2]; cbn in *; [|done].
  destruct (_ =? _); [|done]. by apply pdp_wf_pd.
Qed.

Lemma pdp_wf_init config s : init config = Ok s -> pdp_wf s.
Proof.
  unfold init. intros H.
  repeat (apply result_bind_ok in H as (? & _ & H)). injection H as <-.
  split; cbn; [done| | |lia|done|done].
  - intros h b Hh. cbn in Hh. by rewrite lookup_empty in Hh.
  - split; [|done]. intros h e He. cbn in He. by rewrite lookup_empty in He.
Qed.

(** ** Runs *)

Inductive op : Type :=
  | OpAdd (b h n : Z) (la : Q) (c : option cache_hint)
  | OpUpdate (b : Z) (la : Q) (c : option cache_hint)
  | OpRemove (b : Z)
  | OpEvict
  | OpObserve (hashes : list Z) (real_hits : option (list bool))
  | OpSetCapacity (cap : Z).

(** The state after a call, whether it returned or raised. *)
Definition run_op (clk : nat -> Q) (s : t) (o : op) : t :=
  match o with
  | OpAdd b h n la c => (add b h n la c s).2
  | OpUpdate b la c => (update b la c s).2
  | OpRemove b => (remove b s).2
  | OpEvict => (evict clk s).2
  | OpObserve hs rh => (observe_cache_accesses hs rh s).2
  | OpSetCapacity c => set_capacity c s
  end.

Definition run (clk : nat -> Q) (s : t) (ops : list op) : t := foldl (run_op clk) s ops.

Lemma pdp_wf_run clk ops : forall s, pdp_wf s -> pdp_wf (run clk s ops).
Proof.
  induction ops as [|o ops IH]; intros s Hs; [done|]. apply IH.
  destruct o; cbn [run_op]; auto using pdp_wf_add, pdp_wf_update, pdp_wf_remove,
    pdp_wf_evict, pdp_wf_observe.
  destruct Hs. by split.
Qed.

(** Whatever sequence of calls an evictor built from a configuration string
    receives, and whether they return or raise: the hash index only points at
    free blocks that carry the hash, every bucketed reuse distance lies between
    1 and [max_distance], no epoch is in the future, and the reuses counted
    never outnumber the accesses observed. *)
Theorem pdp_invariant (clk : nat -> Q) (config : string) (s0 : t) (ops : list op)
    (Hinit : init config = Ok s0) :
  let s := run clk s0 ops in
  index_ok s /\ epochs_ok s /\
  map_Forall (fun d n => 1 <= d <= max_distance s /\ 0 <= n) (reuse_distance_counts s) /\
  total_count (reuse_distance_counts s) <= total_observed_accesses s.
Proof.
  intros s. destruct (pdp_wf_run clk ops s0 (pdp_wf_init _ _ Hinit)). done.
Qed.

Definition sample_ops : list op :=
  [OpObserve [10; 20] (Some [false; false]); OpAdd 1 10 16 5 None;
   OpAdd 2 20 32 6 None; OpObserve [10; 20; 10] (Some [true; true; true]);
   OpEvict; OpAdd 3 30 16 7 None].

Lemma pdp_invariant_witness :
  exists s0, init "pdp_max_distance=8,pdp_recompute_interval=2" = Ok s0 /\
    total_count (reuse_distance_counts (run (fun _ => 9%Q) s0 sample_ops)) = 2 /\
    total_count (reuse_distance_counts (run (fun _ => 9%Q) s0 sample_ops))
    <= total_observed_accesses (run (fun _ => 9%Q) s0 sample_ops).
Proof.
  eexists. split; [vm_compute; reflexivity|]. split; [vm_compute; reflexivity|].
  eapply (pdp_invariant (fun _ => 9%Q) "pdp_max_distance=8,pdp_recompute_interval=2" _ sample_ops).
  vm_compute. reflexivity.
Defined.

(** ** Learning the protecting distance *)

(** C36. When an evictor in a reachable state with recorded reuses recomputes its
    protecting distance, the new one is a candidate of the search range with
    the greatest hit rate per unit of occupancy, and the smallest of those:
    the scan over the sorted histogram with running sums computes the same
    score as summing the whole histogram for every candidate. *)
Theorem recompute_optimal (clk : nat -> Q) (config : string) (s0 : t) (ops : list op)
    (Hinit : init config = Ok s0)
    (Hc : reuse_distance_counts (run clk s0 ops) <> ∅)
    (Ht : total_observed_accesses (run clk s0 ops) <> 0) :
  let s := run clk s0 ops in
  let score := efficiency (eviction_distance s) (total_observed_accesses s)
                 (reuse_distance_counts s) in
  let pd := protecting_distance (recompute_protecting_distance s) in
  pd ∈ py_range 1 (max_distance s + 1) (bucket_size s) /\
  forall d, d ∈ py_range 1 (max_distance s + 1) (bucket_size s) ->
    (score d <= score pd)%Q /\ (d < pd -> (score d < score pd)%Q).
Proof.
  cbv zeta. pose proof (pdp_wf_run clk ops s0 (pdp_wf_init _ _ Hinit)) as Hs.
  set (s := run clk s0 ops) in *. destruct (pwf_params s Hs) as (? & ? & ? & ?).
  apply recompute_argmax; [done..|].
  intros d n Hd. by apply (pwf_counts s Hs d n Hd).
Qed.

Lemma recompute_optimal_witness :
  exists s0, init "pdp_max_distance=8" = Ok s0 /\
    protecting_distance (run (fun _ => 9%Q) s0 sample_ops) = 32 /\
    protecting_distance (recompute_protecting_distance (run (fun _ => 9%Q) s0 sample_ops))
      ∈ py_range 1 9 1.
Proof.
  eexists. split; [vm_compute; reflexivity|]. split; [vm_compute; reflexivity|].
  match goal with |- protecting_distance (recompute_protecting_distance (run _ ?s0 _)) ∈ _ =>
    destruct (recompute_optimal (fun _ => 9%Q) "pdp_max_distance=8" s0 sample_ops)
      as [Hin _] end; [vm_compute; reflexivity|vm_compute; discriminate|vm_compute; discriminate|].
  exact Hin.
Defined.

(** ** Choosing a victim *)

Definition expired (s : t) (b : PDPBlock) : bool := protected_until_epoch b <=? request_epoch s.

(** [c] is a victim that no other free block precedes. *)
Definition is_victim (s : t) (b : Z) (blk : PDPBlock) : Prop :=
  forall b' blk', free_table s !! b' = Some blk' ->
    key_leb (victim_key (request_epoch s) (b, blk)) (victim_key (request_epoch s) (b', blk')) = true.

Lemma evict_minimal clk s :
  wf_dict (free_table s) -> 0 < num_blocks s ->
  exists b blk s', evict clk s = (Ok (b, content_hash (base blk)), s') /\
    free_table s !! b = Some blk /\ free_table s' = delete b (free_table s) /\
    content_hash_to_block_id s' !! content_hash (base blk) <> Some b /\
    is_victim s b blk.
Proof.
  intros Hd Hn. unfold num_blocks in Hn.
  assert (Hne : items (free_table s) <> []).
  { intros Hz. apply dlen_zero in Hz. lia. }
  destruct (py_min_is_Some (victim_key (request_epoch s)) _ Hne) as [[b blk] Hm].
  pose proof (py_min_spec _ _ _ Hm) as [Hin Hmin].
  exists b, blk. eexists. split; [unfold evict; by rewrite Hm|].
  split; [by apply elem_of_items|].
  set (s2 := with_table _ _ _). destruct (forget_fields (content_hash (base blk)) b s2) as [-> _].
  split; [done|]. split.
  - intros Hf. apply forget_index in Hf as [_ Hf]. by apply Hf.
  - intros b' blk' Hb'. apply Hmin. by apply elem_of_items.
Qed.

Lemma victim_expired s b blk b' blk' :
  is_victim s b blk -> free_table s !! b' = Some blk' -> expired s blk' = true ->
  expired s blk = true /\
  (last_access_epoch blk < last_access_epoch blk' \/
   last_access_epoch blk = last_access_epoch blk' /\
   (last_accessed (base blk) <= last_accessed (base blk'))%Q).
Proof.
  intros Hv Hb' He'. specialize (Hv b' blk' Hb'). unfold expired, victim_key in *.
  rewrite He' in Hv. destruct (protected_until_epoch blk <=? request_epoch s).
  - split; [done|]. apply key_leb_cons in Hv as [Hv|[_ Hv]]; [lra|].
    apply key_leb_cons_Z in Hv as [?|[? Hv]]; [by left|]. right. split; [done|].
    apply key_leb_cons in Hv as [?|[? _]]; lra.
  - exfalso. apply (key_leb_cons_Z 1 0) in Hv as [?|[? _]]; lia.
Qed.

Lemma victim_protected s b blk b' blk' :
  is_victim s b blk -> expired s blk = false -> free_table s !! b' = Some blk' ->
  expired s blk' = false /\
  (reused blk = true -> reused blk' = true) /\
  (reused blk = reused blk' -> protected_until_epoch blk' <= protected_until_epoch blk).
Proof.
  intros Hv He Hb'. specialize (Hv b' blk' Hb'). unfold expired, victim_key in *.
  rewrite He in Hv. destruct (Z.leb_spec (protected_until_epoch blk') (request_epoch s)) as [|Hgt].
  - exfalso. apply (key_leb_cons_Z 1 0) in Hv as [?|[? _]]; lia.
  - apply Z.leb_gt in He. split; [done|].
    apply key_leb_cons in Hv as [Hv|[_ Hv]]; [lra|].
    apply key_leb_cons_Z in Hv as [Hr|[Hr Hv]].
    { destruct (reused blk), (reused blk'); try lia; done. }
    split; [by destruct (reused blk), (reused blk')|]. intros _.
    apply key_leb_cons_Z in Hv as [?|[? _]]; lia.
Qed.

(** On a non-empty reachable evictor [evict] succeeds, removes its victim and
    its index entry, and the victim is chosen as the comments promise: an
    expired block if there is one, the one longest unaccessed; otherwise, with
    every block still protected, an inserted block before a reused one, and
    within the class one with the most protection left. *)
Theorem pdp_evict_victim (clk : nat -> Q) (config : string) (s0 : t) (ops : list op)
    (Hinit : init config = Ok s0) (Hn : 0 < num_blocks (run clk s0 ops)) :
  let s := run clk s0 ops in
  exists b blk s',
    evict clk s = (Ok (b, content_hash (base blk)), s') /\
    free_table s !! b = Some blk /\ free_table s' = delete b (free_table s) /\
    content_hash_to_block_id s' !! content_hash (base blk) <> Some b /\
    (forall b' blk', free_table s !! b' = Some blk' -> expired s blk' = true ->
       expired s blk = true /\ last_access_epoch blk <= last_access_epoch blk') /\
    (expired s blk = false ->
     forall b' blk', free_table s !! b' = Some blk' ->
       expired s blk' = false /\ (reused blk = true -> reused blk' = true) /\
       (reused blk = reused blk' ->
        protected_until_epoch blk' <= protected_until_epoch blk)).
Proof.
  cbv zeta. pose proof (pdp_wf_run clk ops s0 (pdp_wf_init _ _ Hinit)) as Hs.
  set (s := run clk s0 ops) in *.
  destruct (evict_minimal clk s (pwf_dict s Hs) Hn) as (b & blk & s' & He & Hb & Ht & Hi & Hv).
  exists b, blk, s'. do 4 (split; [done|]). split.
  - intros b' blk' Hb' He'. destruct (victim_expired s b blk b' blk' Hv Hb' He'); split; [done|lia].
  - intros Hexp b' blk' Hb'. by eapply victim_protected.
Qed.

Lemma pdp_evict_victim_witness :
  exists s0, init "pdp_max_distance=8" = Ok s0 /\
    exists blk s', evict (fun _ => 9%Q) (run (fun _ => 9%Q) s0 (take 4 sample_ops))
                   = (Ok (2, content_hash (base blk)), s').
Proof.
  eexists. split; [vm_compute; reflexivity|].
  match goal with |- exists _ _, evict _ (run _ ?s0 _) = _ =>
    destruct (pdp_evict_victim (fun _ => 9%Q) "pdp_max_distance=8" s0 (take 4 sample_ops))
      as (b & blk & s' & He & _) end; [vm_compute; reflexivity|vm_compute; reflexivity|].
  exists blk, s'. rewrite He. vm_compute in He. injection He as Hb _ _. by rewrite <- Hb.
Defined.

(** ** The policy interface *)

#[global] Instance pdp_evictor (clk : nat -> Q) : Evictor t := {
  ev_table s := dfmap (fun b => content_hash (base b)) (free_table s);
  ev_evict := evict clk;
  ev_add := add;
  ev_update := update;
  ev_remove := remove
}.

Lemma protect_hash b r s j :
  (fun x => content_hash (base x)) <$> free_table (protect_block b r s) !! j
  = (fun x => content_hash (base x)) <$> free_table s !! j.
Proof.
  unfold protect_block. destruct (free_table s !! b) as [blk|] eqn:Hb; [|done].
  cbn. rewrite dict_lookup_insert. case_decide; [subst; by rewrite Hb|done].
Qed.

#[global] Instance pdp_evictor_laws (clk : nat -> Q) :
  @EvictorLaws t (pdp_evictor clk) pdp_wf.
Proof.
  split; unfold ev_blocks; cbn.
  { intros s Hs. unfold wf_dict. rewrite keys_dfmap. apply Hs. }
  all: try setoid_rewrite dict_lookup_dfmap.
  - intros s b h s' Hs He. pose proof (pdp_wf_evict clk s Hs) as Hs'. rewrite He in Hs'.
    split; [done|]. revert He. unfold evict.
    destruct (py_min _ _) as [[j blk]|] eqn:Hm; [|done]. intros [= -> <- <-].
    apply py_min_spec in Hm as [Hin _]. apply elem_of_items in Hin; [|apply Hs].
    set (s2 := with_table _ _ _). destruct (forget_fields (content_hash (base blk)) b s2) as [-> _].
    cbn. rewrite Hin, dict_lookup_delete_eq. split; [by eexists|]. split; [done|].
    intros j Hj. by rewrite dict_lookup_delete_ne by done.
  - intros s x s' Hs. unfold evict. destruct (py_min _ _) as [[? ?]|]; [done|]. by intros [= _ <-].
  - intros s b h n la c s' Hs Ha. pose proof (pdp_wf_add b h n la c s Hs) as Hs'.
    rewrite Ha in Hs'. split; [done|]. revert Ha. unfold add. intros [= <-]. cbn.
    assert (Hsame : free_table (match free_table s !! b with
      | Some prev => forget_hash_mapping (content_hash (base prev)) b s | None => s end)
      = free_table s).
    { destruct (free_table s !! b); [apply forget_fields|done]. }
    rewrite Hsame. rewrite dict_lookup_insert_eq. split; [done|].
    intros j Hj. by rewrite dict_lookup_insert_ne by done.
  - intros s b la c s' Hs Hu. pose proof (pdp_wf_update b la c s Hs) as Hs'. rewrite Hu in Hs'.
    split; [done|]. revert Hu. unfold update.
    destruct (free_table s !! b) as [blk|] eqn:Hb; [|done]. intros [= <-].
    split; [by eexists|]. intros j. rewrite protect_hash. cbn.
    rewrite dict_lookup_insert. case_decide; [subst; by rewrite Hb|done].
  - intros s b s' Hs Hr. pose proof (pdp_wf_remove b s Hs) as Hs'. rewrite Hr in Hs'.
    split; [done|]. revert Hr. unfold remove.
    destruct (free_table s !! b) as [blk|] eqn:Hb; [|done]. intros [= <-].
    set (s1 := with_table _ _ _). destruct (forget_fields (content_hash (base blk)) b s1) as [-> _].
    cbn. rewrite dict_lookup_delete_eq. split; [by eexists|]. split; [done|].
    intros j Hj. by rewrite dict_lookup_delete_ne by done.
  - intros s b Hs [h Hb]. unfold remove. by destruct (free_table s !! b).
Qed.
