(* ===== verification/ShadowPolicyCache.v ===== *)
(** * [ShadowPolicyCache] ([vllm/core/evictor.py])

    A metadata-only cache that replays the prefix accesses of the warm-up under
    one policy, to estimate the hit rate the policy would have had. *)
From S2P Require Import Prelude.
From S2P Require Import PyDict.
From S2P Require Import EvictorBase.
From S2P Require Import PDP.
From S2P Require Import PDPEvictor.

Definition RRIP_MAX_RRPV : Z := 3.
Definition RRIP_INSERT_RRPV : Z := RRIP_MAX_RRPV - 1.
Definition RRIP_HIT_RRPV : Z := 0.

(** One entry; a key a policy does not set is kept at the default its readers
    pass to [get]. *)
Record entry : Type := Entry {
  first_accessed : Q;
  last_accessed : Q;
  rrpv : Z;
  e_score : Q;
  e_hint : option cache_hint;
  pdp_protected_until : Z;
  pdp_last_access_epoch : Z;
  pdp_reused : bool
}.

(** The attributes that exist for the policy ["pdp"] only. *)
Record pdp_state : Type := PdpState {
  pdp_epoch : Z;
  pdp_protecting_distance : Z;
  pdp_max_distance : Z;
  pdp_recompute_interval : Z;
  pdp_bucket_size : Z;
  pdp_eviction_distance : Z;
  pdp_last_seen_epoch : gmap Z Z;
  pdp_reuse_distance_counts : gmap Z Z;
  pdp_total_accesses : Z
}.

Record t : Type := ShadowPolicyCache {
  policy : string;
  capacity : Z;
  table : pydict Z entry;
  events : list (Q * Z);
  pdp : option pdp_state;
  ticks : nat
}.

Definition init_pdp (cfg : gmap string string) : result pdp_state :=
  pd ← cfg_int cfg "pdp_initial_pd" DEFAULT_INITIAL_PD;
  md ← cfg_int cfg "pdp_max_distance" DEFAULT_MAX_DISTANCE;
  ri ← cfg_int cfg "pdp_recompute_interval" DEFAULT_RECOMPUTE_INTERVAL;
  bs ← cfg_int cfg "pdp_bucket_size" DEFAULT_BUCKET_SIZE;
  ed ← cfg_int cfg "pdp_eviction_distance" DEFAULT_EVICTION_DISTANCE;
  Ok (PdpState 0 pd md ri bs ed ∅ ∅ 0).

Definition init (pol : string) (cap : Z) (config : option (gmap string string))
    : result t :=
  if bool_decide (pol = "pdp")
  then p ← init_pdp (default ∅ config); Ok (ShadowPolicyCache pol cap ∅ [] (Some p) 0)
  else Ok (ShadowPolicyCache pol cap ∅ [] None 0).

(** *** Field updates *)

Definition with_table (s : t) (tbl : pydict Z entry) : t :=
  ShadowPolicyCache (policy s) (capacity s) tbl (events s) (pdp s) (ticks s).
Definition with_capacity (s : t) (cap : Z) : t :=
  ShadowPolicyCache (policy s) cap (table s) (events s) (pdp s) (ticks s).
Definition with_events (s : t) (ev : list (Q * Z)) : t :=
  ShadowPolicyCache (policy s) (capacity s) (table s) ev (pdp s) (ticks s).
Definition with_pdp (s : t) (p : pdp_state) : t :=
  ShadowPolicyCache (policy s) (capacity s) (table s) (events s) (Some p) (ticks s).
Definition tick (s : t) : t :=
  ShadowPolicyCache (policy s) (capacity s) (table s) (events s) (pdp s) (S (ticks s)).

Definition with_rrpv (e : entry) (r : Z) : entry :=
  Entry (first_accessed e) (last_accessed e) r (e_score e) (e_hint e)
    (pdp_protected_until e) (pdp_last_access_epoch e) (pdp_reused e).

(** *** Hit rate *)

Definition num_events (s : t) : Z := Z.of_nat (length (events s)).
Definition hits (ev : list (Q * Z)) : Z := foldr (fun e acc => e.2 + acc) 0 ev.
Definition hit_rate (s : t) : Q :=
  match events s with
  | [] => 0%Q
  | _ => (inject_Z (hits (events s)) / inject_Z (num_events s))%Q
  end.

(** *** RRIP: the victim is the oldest entry among those predicted most distant;
    while there is none, every entry ages *)

Definition rrip_candidates (tbl : pydict Z entry) : list (Z * entry) :=
  filter (fun p => RRIP_MAX_RRPV <= rrpv p.2) (items tbl).

Definition age (tbl : pydict Z entry) : pydict Z entry :=
  dmap (fun _ e => with_rrpv e (Z.min RRIP_MAX_RRPV (rrpv e + 1))) tbl.

Definition lru_key (p : Z * entry) : key := [last_accessed p.2; inject_Z p.1].
Definition fifo_key (p : Z * entry) : key := [first_accessed p.2; inject_Z p.1].

Fixpoint rrip_victim (fuel : nat) (tbl : pydict Z entry)
    : option Z * pydict Z entry :=
  match fuel with
  | O => (None, tbl)
  | S fuel' =>
      match py_min lru_key (rrip_candidates tbl) with
      | Some (h, _) => (Some h, tbl)
      | None => rrip_victim fuel' (age tbl)
      end
  end.

(** *** PDP *)

Definition pdp_victim_key (epoch : Z) (p : Z * entry) : key :=
  let '(h, e) := p in
  if pdp_protected_until e <=? epoch
  then [0; inject_Z (pdp_last_access_epoch e); last_accessed e; inject_Z h]%Q
  else let remaining := pdp_protected_until e - epoch in
       [1; inject_Z (if pdp_reused e then 1 else 0); inject_Z (- remaining);
        inject_Z (- pdp_last_access_epoch e); inject_Z h]%Q.

(** Nothing clamps the configured values here, so both divisions can fail. *)
Definition pdp_bucket (p : pdp_state) (d : Z) : result Z :=
  if pdp_bucket_size p =? 0 then Err ZeroDivisionError
  else Ok (bucket_distance (pdp_max_distance p) (pdp_bucket_size p) d).

Definition pdp_recompute (p : pdp_state) : result pdp_state :=
  if bool_decide (pdp_reuse_distance_counts p = ∅) || (pdp_total_accesses p =? 0)
  then Ok p
  else if pdp_bucket_size p =? 0 then Err ValueError
  else Ok (PdpState (pdp_epoch p)
             (recompute (pdp_eviction_distance p) (pdp_total_accesses p)
                (pdp_max_distance p) (pdp_bucket_size p)
                (pdp_reuse_distance_counts p) (pdp_protecting_distance p))
             (pdp_max_distance p) (pdp_recompute_interval p) (pdp_bucket_size p)
             (pdp_eviction_distance p) (pdp_last_seen_epoch p)
             (pdp_reuse_distance_counts p) (pdp_total_accesses p)).

Definition pdp_with_counts (p : pdp_state) (epoch total : Z) (seen counts : gmap Z Z)
    : pdp_state :=
  PdpState epoch (pdp_protecting_distance p) (pdp_max_distance p)
    (pdp_recompute_interval p) (pdp_bucket_size p) (pdp_eviction_distance p)
    seen counts total.

(** The first part of [access] for the policy ["pdp"]; what was counted before
    an exception stays counted. *)
Definition pdp_access (h : Z) : M pdp_state unit := fun p =>
  let epoch := pdp_epoch p + 1 in
  let total := pdp_total_accesses p + 1 in
  let seen := pdp_last_seen_epoch p in
  let counts := pdp_reuse_distance_counts p in
  match (match seen !! h with
         | Some prev => d ← pdp_bucket p (epoch - prev); Ok (count_incr d counts)
         | None => Ok counts
         end) with
  | Err e => (Err e, pdp_with_counts p epoch total seen counts)
  | Ok counts' =>
      let p1 := pdp_with_counts p epoch total (<[h := epoch]> seen) counts' in
      if pdp_recompute_interval p =? 0 then (Err ZeroDivisionError, p1)
      else if total mod pdp_recompute_interval p =? 0
      then match pdp_recompute p1 with
           | Ok p2 => (Ok tt, p2)
           | Err e => (Err e, p1)
           end
      else (Ok tt, p1)
  end.

Section Clock.
Variable np_exp : Q -> Q.
Variable clk : nat -> Q.

Definition ml_score (e : entry) (h : option cache_hint) (now : Q) : Q :=
  match h with
  | Some c =>
      match ch_prob_has_next c with
      | Some p => probability_of_future_arrival np_exp p
                    (default 1%Q (ch_exp_scale c)) (now - last_accessed e)
      | None => last_accessed e
      end
  | None => last_accessed e
  end.

Definition ml_key (now : Q) (p : Z * entry) : key :=
  [ml_score p.2 (e_hint p.2) now; last_accessed p.2; inject_Z p.1].

(** The victim under the policy, and the table it leaves ([rrip] ages it). *)
Definition pick (s : t) : option Z * pydict Z entry :=
  let tbl := table s in
  if bool_decide (policy s = "fifo") then (fst <$> py_min fifo_key (items tbl), tbl)
  else if bool_decide (policy s = "rrip") then rrip_victim 4 tbl
  else if bool_decide (policy s = "pdp") then
    (fst <$> py_min (pdp_victim_key (default 0 (pdp_epoch <$> pdp s))) (items tbl), tbl)
  else if bool_decide (policy s = "ml") then
    (fst <$> py_min (ml_key (clk (ticks s))) (items tbl), tbl)
  else (fst <$> py_min lru_key (items tbl), tbl).

(** [_evict] *)
Definition evict : M t unit := fun s =>
  if bool_decide (items (table s) = []) then (Ok tt, s)
  else
    let s' := if bool_decide (policy s = "ml") then tick s else s in
    match pick s with
    | (Some h, tbl) => (Ok tt, with_table s' (delete h tbl))
    | (None, tbl) => (Err OutOfFuel, with_table s' tbl)
    end.

(** [while len(self.table) > n: self._evict()] *)
Fixpoint evict_while (fuel : nat) (n : Z) : M t unit := fun s =>
  if n <? dlen (table s) then
    match fuel with
    | O => (Err OutOfFuel, s)
    | S fuel' => (evict ;; evict_while fuel' n) s
    end
  else (Ok tt, s).

(** [set_capacity] *)
Definition set_capacity (cap : Z) : M t unit := fun s =>
  evict_while (length (items (table s))) cap (with_capacity s cap).

(** The entry of a hash that is in the table, after the access. *)
Definition hit_entry (s : t) (e : entry) (now : Q) (c : option cache_hint) : entry :=
  let e1 := Entry (first_accessed e) now (rrpv e) (e_score e) c
              (pdp_protected_until e) (pdp_last_access_epoch e) (pdp_reused e) in
  if bool_decide (policy s = "rrip") then with_rrpv e1 RRIP_HIT_RRPV
  else if bool_decide (policy s = "ml") then
    Entry (first_accessed e) now (rrpv e) (ml_score e1 c now) c
      (pdp_protected_until e) (pdp_last_access_epoch e) (pdp_reused e)
  else match pdp s with
       | Some p =>
           Entry (first_accessed e) now (rrpv e) (e_score e) c
             (pdp_epoch p + pdp_protecting_distance p) (pdp_epoch p) true
       | None => e1
       end.

(** The entry of a hash that was not. *)
Definition new_entry (s : t) (now : Q) (c : option cache_hint) : entry :=
  let e0 := Entry now now RRIP_INSERT_RRPV 0 c 0 0 false in
  match pdp s with
  | Some p => Entry now now RRIP_INSERT_RRPV 0 c
                (pdp_epoch p + pdp_protecting_distance p) (pdp_epoch p) false
  | None =>
      if bool_decide (policy s = "ml")
      then Entry now now RRIP_INSERT_RRPV (ml_score e0 c now) c 0 0 false
      else e0
  end.

(** [if self.policy == "pdp": ...] at the head of [access] *)
Definition note_access (h : Z) : M t unit := fun s =>
  match pdp s with
  | None => (Ok tt, s)
  | Some p => let '(r, p') := pdp_access h p in (r, with_pdp s p')
  end.

Definition access (h : Z) (now : Q) (c : option cache_hint) : M t unit := fun s =>
  let hit := has (table s) h in
  (note_access h ;;
   s1 ← get;
   match table s1 !! h with
   | Some e => modify (fun s => with_table s (<[h := hit_entry s e now c]> (table s)))
   | None =>
       if capacity s1 <=? 0 then mret tt
       else evict_while (length (items (table s1))) (capacity s1 - 1) ;;
            modify (fun s => with_table s (<[h := new_entry s now c]> (table s)))
   end) (with_events s (events s ++ [(now, if hit then 1 else 0)])).
End Clock.

(** ** RRIP finds its victim *)

Definition rrpv_ok (tbl : pydict Z entry) : Prop :=
  forall h e, tbl !! h = Some e -> 0 <= rrpv e <= RRIP_MAX_RRPV.

(** Every counter moved up by [n]. *)
Definition aged_by (n : Z) (tbl : pydict Z entry) : pydict Z entry :=
  dmap (fun _ e => with_rrpv e (rrpv e + n)) tbl.

(** The entry predicted most distant, the oldest among equals. *)
Definition rrip_worst (tbl : pydict Z entry) (h : Z) (e : entry) : Prop :=
  tbl !! h = Some e /\
  forall h' e', tbl !! h' = Some e' ->
    rrpv e' < rrpv e \/
    rrpv e' = rrpv e /\ key_leb (lru_key (h, e)) (lru_key (h', e')) = true.

Lemma dmap_ext {V} (f g : Z -> V -> V) (tbl : pydict Z V) :
  wf_dict tbl -> (forall h e, tbl !! h = Some e -> f h e = g h e) ->
  dmap f tbl = dmap g tbl.
Proof.
  intros Hwf Hfg. unfold dmap. f_equal. apply map_ext_in.
  intros [h e] Hin%list_elem_of_In. f_equal. apply Hfg. by apply elem_of_items.
Qed.

Lemma dmap_id {V} (f : Z -> V -> V) (tbl : pydict Z V) :
  wf_dict tbl -> (forall h e, tbl !! h = Some e -> f h e = e) -> dmap f tbl = tbl.
Proof.
  intros Hwf Hf. rewrite (dmap_ext f (fun _ e => e)) by done.
  destruct tbl as [l]. unfold dmap; cbn. f_equal.
  clear. induction l as [|[h e] l IH]; cbn; [done|]. by f_equal.
Qed.

Lemma aged_by_0 tbl : wf_dict tbl -> aged_by 0 tbl = tbl.
Proof.
  intros Hwf. apply dmap_id; [done|]. intros h [? ? r ? ? ? ? ?] _.
  unfold with_rrpv; cbn. by rewrite Z.add_0_r.
Qed.

Lemma aged_by_add n m tbl : aged_by n (aged_by m tbl) = aged_by (m + n) tbl.
Proof.
  unfold aged_by, dmap; cbn. rewrite map_map. f_equal. apply map_ext.
  intros [h e]. unfold with_rrpv; cbn. by rewrite Z.add_assoc.
Qed.

Lemma age_aged_by tbl :
  wf_dict tbl -> (forall h e, tbl !! h = Some e -> rrpv e < RRIP_MAX_RRPV) ->
  age tbl = aged_by 1 tbl.
Proof.
  intros Hwf Hlt. apply dmap_ext; [done|]. intros h e He. apply Hlt in He.
  f_equal. lia.
Qed.

Lemma elem_of_rrip_candidates tbl h e :
  wf_dict tbl -> (h, e) ∈ rrip_candidates tbl <-> tbl !! h = Some e /\ RRIP_MAX_RRPV <= rrpv e.
Proof.
  intros Hwf. unfold rrip_candidates. rewrite list_elem_of_filter, elem_of_items by done.
  cbn. tauto.
Qed.

Lemma lookup_aged_by n tbl h :
  aged_by n tbl !! h = (fun e => with_rrpv e (rrpv e + n)) <$> tbl !! h.
Proof. apply dict_lookup_dmap. Qed.

Lemma rrip_victim_step fuel tbl h e :
  wf_dict tbl -> rrpv_ok tbl -> rrip_worst tbl h e ->
  RRIP_MAX_RRPV - rrpv e < Z.of_nat fuel ->
  rrip_victim fuel tbl = (Some h, aged_by (RRIP_MAX_RRPV - rrpv e) tbl).
Proof.
  revert tbl e. induction fuel as [|fuel IH]; intros tbl e Hwf Hok [He Hw] Hf.
  { specialize (Hok h e He). lia. }
  pose proof (Hok h e He) as Hr. cbn [rrip_victim].
  destruct (py_min _ _) as [[h' e']|] eqn:Hmin.
  - apply py_min_spec in Hmin as [Hin Hle].
    apply elem_of_rrip_candidates in Hin as [He' Hr']; [|done].
    pose proof (Hok h' e' He') as Hr''.
    destruct (Hw h' e' He') as [Hlt|[Heq Hk]]; [lia|].
    replace (RRIP_MAX_RRPV - rrpv e) with 0 by lia. rewrite aged_by_0 by done.
    assert (Hh : key_leb (lru_key (h', e')) (lru_key (h, e)) = true).
    { apply Hle, elem_of_rrip_candidates; [done|]. split; [done|lia]. }
    unfold lru_key in *; cbn in *.
    rewrite !key_leb_cons in Hk, Hh. cbn in *.
    rewrite <- !Zlt_Qlt, !inject_Z_injective in *.
    destruct Hk as [?|[? [?|[-> _]]]], Hh as [?|[? [?|[? _]]]]; try lra; try lia; done.
  - apply py_min_None in Hmin.
    assert (Hlt : forall h' e', tbl !! h' = Some e' -> rrpv e' < RRIP_MAX_RRPV).
    { intros h' e' He'. apply Z.nle_gt. intros Hge.
      assert (Hin : (h', e') ∈ rrip_candidates tbl) by by apply elem_of_rrip_candidates.
      rewrite Hmin in Hin. by apply elem_of_nil in Hin. }
    rewrite age_aged_by by done. specialize (Hlt h e He) as Hle.
    rewrite (IH _ (with_rrpv e (rrpv e + 1))).
    + rewrite aged_by_add. repeat f_equal. cbn. lia.
    + by apply wf_dmap.
    + intros h' e'. rewrite lookup_aged_by. intros (e0 & He0 & ->)%fmap_Some.
      cbn. specialize (Hlt h' e0 He0). specialize (Hok h' e0 He0). lia.
    + split; [by rewrite lookup_aged_by, He|].
      intros h' e'. rewrite lookup_aged_by. intros (e0 & He0 & ->)%fmap_Some.
      destruct (Hw h' e0 He0) as [?|[? ?]]; [left|right]; cbn; [lia|]. split; [lia|done].
    + cbn. lia.
Qed.

Definition worst_key (p : Z * entry) : key :=
  [inject_Z (- rrpv p.2); last_accessed p.2; inject_Z p.1].

Lemma rrip_worst_exists tbl :
  wf_dict tbl -> items tbl <> [] -> exists h e, rrip_worst tbl h e.
Proof.
  intros Hwf Hne. destruct (py_min_is_Some worst_key (items tbl) Hne) as [[h e] Hm].
  apply py_min_spec in Hm as [Hin Hle]. exists h, e.
  split; [by apply elem_of_items|]. intros h' e' He'.
  apply elem_of_items in He'; [|done]. specialize (Hle _ He').
  unfold worst_key in Hle. apply key_leb_cons_Z in Hle as [?|[? ?]]; cbn in *;
    [left|right]; [lia|split; [lia|done]].
Qed.

(** RRIP's victim search terminates: on a non-empty table whose counters
    are in their two-bit range it needs at most four rounds, it selects the
    entry with the greatest counter (the least recently used among equals), and
    it leaves every counter raised by what the victim's lacked of the maximum. *)
Theorem rrip_victim_correct (tbl : pydict Z entry)
    (Hwf : wf_dict tbl) (Hok : rrpv_ok tbl) (Hne : items tbl <> []) :
  exists h e, rrip_worst tbl h e /\
    rrip_victim 4 tbl = (Some h, aged_by (RRIP_MAX_RRPV - rrpv e) tbl) /\
    rrpv_ok (aged_by (RRIP_MAX_RRPV - rrpv e) tbl).
Proof.
  destruct (rrip_worst_exists tbl Hwf Hne) as (h & e & Hw). exists h, e.
  pose proof (Hok h e (proj1 Hw)). split; [done|]. split.
  - apply rrip_victim_step; [done..|]. unfold RRIP_MAX_RRPV in *. lia.
  - intros h' e'. rewrite lookup_aged_by. intros (e0 & He0 & ->)%fmap_Some.
    specialize (Hok h' e0 He0). destruct (proj2 Hw h' e0 He0) as [?|[? _]]; cbn; lia.
Qed.

Definition sample_table : pydict Z entry :=
  PyDict [(5, Entry 1 4 1 0 None 0 0 false); (6, Entry 2 3 2 0 None 0 0 false);
          (7, Entry 3 2 2 0 None 0 0 false)].

Lemma sample_table_wf : wf_dict sample_table.
Proof. unfold wf_dict. apply (bool_decide_unpack _). by vm_compute. Qed.

Lemma rrip_victim_correct_witness :
  exists tbl', rrip_victim 4 sample_table = (Some 7, tbl') /\
    rrpv_ok tbl' /\ map (fun p => rrpv p.2) (items tbl') = [2; 3; 3].
Proof.
  destruct (rrip_victim_correct sample_table) as (h & e & Hw & Hv & Hok).
  - apply sample_table_wf.
  - intros h e He. apply elem_of_items in He; [|apply sample_table_wf].
    cbn in He. rewrite !elem_of_cons in He.
    destruct He as [[= -> ->]|[[= -> ->]|[[= -> ->]|He%elem_of_nil]]]; cbn; done || lia.
  - done.
  - eexists. split; [vm_compute; reflexivity|].
    assert (Heq : aged_by (RRIP_MAX_RRPV - rrpv e) sample_table = (rrip_victim 4 sample_table).2)
      by by rewrite Hv.
    split; [|vm_compute; reflexivity]. rewrite Heq in Hok. exact Hok.
Defined.

(** ** Eviction makes room *)

Record table_ok (s : t) : Prop := {
  tok_wf : wf_dict (table s);
  tok_rrpv : rrpv_ok (table s)
}.

(** [s'] differs from [s] by evictions only. *)
Record shrunk (s s' : t) : Prop := {
  shr_ok : table_ok s';
  shr_sub : forall h, is_Some (table s' !! h) -> is_Some (table s !! h);
  shr_policy : policy s' = policy s;
  shr_capacity : capacity s' = capacity s;
  shr_events : events s' = events s;
  shr_pdp : pdp s' = pdp s
}.

Lemma shrunk_refl s : table_ok s -> shrunk s s.
Proof. by split. Qed.
Lemma shrunk_trans s1 s2 s3 : shrunk s1 s2 -> shrunk s2 s3 -> shrunk s1 s3.
Proof. intros [? ? ? ? ? ?] [? ? ? ? ? ?]. split; [done|auto|congruence..]. Qed.

Lemma rrip_victim_ok tbl :
  wf_dict tbl -> rrpv_ok tbl -> items tbl <> [] ->
  exists h tbl', rrip_victim 4 tbl = (Some h, tbl') /\
    is_Some (tbl !! h) /\ keys tbl' = keys tbl /\ rrpv_ok tbl'.
Proof.
  intros Hwf Hok Hne.
  destruct (rrip_worst_exists tbl Hwf Hne) as (h & e & Hw).
  pose proof (Hok h e (proj1 Hw)) as Hr.
  do 2 eexists. split; [apply rrip_victim_step; [done..|]|]; [unfold RRIP_MAX_RRPV in *; lia|].
  split; [eexists; apply Hw|]. split; [apply keys_dmap|].
  intros h' e'. rewrite lookup_aged_by. intros (e0 & He0 & ->)%fmap_Some.
  specialize (Hok h' e0 He0). destruct (proj2 Hw h' e0 He0) as [?|[? _]]; cbn; lia.
Qed.

Lemma py_min_key (f : Z * entry -> key) tbl :
  wf_dict tbl -> items tbl <> [] ->
  exists h, fst <$> py_min f (items tbl) = Some h /\ is_Some (tbl !! h).
Proof.
  intros Hwf Hne. destruct (py_min_is_Some f _ Hne) as [[h e] Hm]. exists h.
  rewrite Hm. split; [done|]. apply py_min_spec in Hm as [Hin _].
  apply elem_of_items in Hin; [by eexists|done].
Qed.

Lemma pick_ok np_exp clk s :
  table_ok s -> items (table s) <> [] ->
  exists h tbl, pick np_exp clk s = (Some h, tbl) /\
    is_Some (table s !! h) /\ keys tbl = keys (table s) /\ rrpv_ok tbl.
Proof.
  intros [Hwf Hr] Hne. unfold pick. repeat case_bool_decide.
  2: by apply rrip_victim_ok.
  all: match goal with |- context [py_min ?f _] =>
         destruct (py_min_key f _ Hwf Hne) as (h & -> & ?) end; by exists h, (table s).
Qed.

Lemma is_Some_lookup_keys {V} (d d' : pydict Z V) h :
  keys d = keys d' -> is_Some (d !! h) <-> is_Some (d' !! h).
Proof. intros Hk. by rewrite <- !elem_of_keys, Hk. Qed.

Lemma shadow_evict_ok np_exp clk s :
  table_ok s -> items (table s) <> [] ->
  exists s', evict np_exp clk s = (Ok tt, s') /\ shrunk s s' /\
    dlen (table s') = dlen (table s) - 1.
Proof.
  intros Hs Hne. unfold evict. rewrite bool_decide_eq_false_2 by done.
  destruct (pick_ok np_exp clk s Hs Hne) as (h & tbl & -> & Hh & Hk & Hr).
  eexists. split; [done|].
  assert (Hwf : wf_dict tbl) by (unfold wf_dict; rewrite Hk; apply Hs).
  assert (Hh' : is_Some (tbl !! h)) by by apply (is_Some_lookup_keys tbl (table s) h Hk).
  split; [split; case_bool_decide; cbn; try done|].
  1-2: split; cbn; [by apply wf_delete|]; intros h' e';
    rewrite dict_lookup_delete; case_decide; [done|apply Hr].
  1-2: intros h'; rewrite dict_lookup_delete; case_decide; [by intros [? ?]|];
    by apply is_Some_lookup_keys.
  replace (dlen (table s)) with (dlen tbl) by by rewrite !dlen_keys, Hk.
  case_bool_decide; by apply dlen_delete.
Qed.

(** With fuel for every entry the loop [while len(self.table) > n] ends. *)
Lemma evict_while_ok np_exp clk fuel n s :
  table_ok s -> 0 <= n -> dlen (table s) - n <= Z.of_nat fuel ->
  exists s', evict_while np_exp clk fuel n s = (Ok tt, s') /\ shrunk s s' /\
    dlen (table s') = Z.min n (dlen (table s)).
Proof.
  intros Hs Hn. revert s Hs. induction fuel as [|fuel IH]; intros s Hs Hf; cbn [evict_while].
  - rewrite (proj2 (Z.ltb_ge _ _)) by lia. exists s. split; [done|].
    split; [by apply shrunk_refl|lia].
  - destruct (Z.ltb_spec n (dlen (table s))) as [Hlt|Hge].
    + destruct (shadow_evict_ok np_exp clk s Hs) as (s1 & He & Hsh & Hlen).
      { intros Hnil%dlen_zero. lia. }
      unfold mbind, M_bind. rewrite He.
      destruct (IH s1 (shr_ok _ _ Hsh)) as (s2 & -> & Hsh2 & Hlen2); [lia|].
      exists s2. split; [done|]. split; [by eapply shrunk_trans|lia].
    + exists s. split; [done|]. split; [by apply shrunk_refl|lia].
Qed.

(** ** The invariant of the cache *)

Record shadow_ok (s : t) : Prop := {
  sok_table : table_ok s;
  sok_capacity : dlen (table s) <= Z.max 0 (capacity s);
  sok_events : Forall (fun e => e.2 = 0 \/ e.2 = 1) (events s)
}.

Lemma set_capacity_ok np_exp clk cap s :
  shadow_ok s -> 0 <= cap ->
  exists s', set_capacity np_exp clk cap s = (Ok tt, s') /\ shadow_ok s' /\
    capacity s' = cap /\ events s' = events s /\
    (forall h, is_Some (table s' !! h) -> is_Some (table s !! h)).
Proof.
  intros [Ht Hc He] Hcap. unfold set_capacity.
  destruct (evict_while_ok np_exp clk (length (items (table s))) cap (with_capacity s cap))
    as (s' & -> & Hsh & Hlen); [by destruct Ht|done|cbn; unfold dlen; lia|].
  exists s'. split; [done|]. destruct Hsh as [H1 H2 H3 H4 H5 H6]. cbn in *.
  split; [split; [done|lia|by rewrite H5]|done].
Qed.

Lemma note_access_frame h s :
  let s' := (note_access h s).2 in
  table s' = table s /\ capacity s' = capacity s /\ events s' = events s /\
  policy s' = policy s.
Proof.
  unfold note_access. destruct (pdp s) as [p|]; [|done].
  by destruct (pdp_access h p) as [r p'].
Qed.

Lemma rrpv_ok_insert tbl h e :
  rrpv_ok tbl -> 0 <= rrpv e <= RRIP_MAX_RRPV -> rrpv_ok (<[h := e]> tbl).
Proof.
  intros Ht He h' e'. rewrite dict_lookup_insert. case_decide; [by intros [= <-]|apply Ht].
Qed.

Lemma hit_entry_rrpv np_exp s e now c :
  0 <= rrpv e <= RRIP_MAX_RRPV -> 0 <= rrpv (hit_entry np_exp s e now c) <= RRIP_MAX_RRPV.
Proof.
  intros He. unfold hit_entry. repeat case_bool_decide; try done.
  destruct (pdp s); done.
Qed.

Lemma new_entry_rrpv np_exp s now c :
  0 <= rrpv (new_entry np_exp s now c) <= RRIP_MAX_RRPV.
Proof. unfold new_entry. destruct (pdp s); [done|]. by case_bool_decide. Qed.

Lemma is_hit_bit b : (if b : bool then 1 else 0) = 0 \/ (if b : bool then 1 else 0) = 1.
Proof. destruct b; auto. Qed.

(** What [access] does once the accounting at its head has succeeded. *)
Lemma access_ok np_exp clk h now c s s1 :
  shadow_ok s ->
  note_access h (with_events s (events s ++ [(now, if has (table s) h then 1 else 0)]))
    = (Ok tt, s1) ->
  exists s', access np_exp clk h now c s = (Ok tt, s') /\ shadow_ok s' /\
    capacity s' = capacity s /\ events s' = events s1 /\
    (0 < capacity s -> is_Some (table s' !! h)) /\
    (forall h', h' <> h -> is_Some (table s' !! h') -> is_Some (table s !! h')).
Proof.
  intros [[Hwf Hr] Hc He] Hn. unfold access.
  pose proof (note_access_frame h (with_events s (events s ++ [(now, if has (table s) h then 1 else 0)]))) as Hf.
  rewrite Hn in Hf. cbn in Hf. destruct Hf as (Ht1 & Hc1 & He1 & Hp1).
  assert (Hev : Forall (fun e => e.2 = 0 \/ e.2 = 1) (events s1)).
  { rewrite He1. apply list.Forall_app. split; [done|]. constructor; [|done]. apply is_hit_bit. }
  unfold mbind, M_bind. rewrite Hn. cbn. rewrite Ht1, Hc1.
  destruct (table s !! h) as [e|] eqn:Hh; cbn.
  - eexists. split; [done|]. split; [|split; [done|split; [done|split]]]; cbn.
    + split; cbn; [|rewrite dlen_insert, Ht1, Hc1, Hh, decide_True; [done|by eexists]|done].
      split; cbn; rewrite Ht1; [by apply wf_insert|].
      apply rrpv_ok_insert, hit_entry_rrpv; [done|]. by eapply Hr.
    + intros _. rewrite dict_lookup_insert_eq. by eexists.
    + intros h' Hne. by rewrite dict_lookup_insert_ne, Ht1.
  - destruct (Z.leb_spec (capacity s) 0) as [Hcap|Hcap].
    + exists s1. rewrite Hc1, Ht1. split; [done|].
      split; [split; [by split; rewrite Ht1|by rewrite Ht1, Hc1|done]|].
      split; [done|]. split; [done|]. split; [lia|done].
    + destruct (evict_while_ok np_exp clk (length (items (table s))) (capacity s - 1) s1)
        as (s2 & -> & Hsh & Hlen).
      { by split; rewrite Ht1. } { lia. } { rewrite Ht1. unfold dlen. lia. }
      destruct Hsh as [[Hwf2 Hr2] Hsub H3 H4 H5 H6]. rewrite Ht1 in Hlen, Hsub.
      eexists. split; [done|]. split; [|split; [cbn; congruence|split; [done|split]]]; cbn.
      * split; cbn; [|pose proof (dlen_insert_le (table s2) h (new_entry np_exp s2 now c)); lia
                     |by rewrite H5].
        split; cbn; [by apply wf_insert|]. apply rrpv_ok_insert, new_entry_rrpv. done.
      * intros _. rewrite dict_lookup_insert_eq. by eexists.
      * intros h' Hne. rewrite dict_lookup_insert_ne by done. apply Hsub.
Qed.

Lemma access_err np_exp clk h now c s e s1 :
  note_access h (with_events s (events s ++ [(now, if has (table s) h then 1 else 0)]))
    = (Err e, s1) -> access np_exp clk h now c s = (Err e, s1).
Proof. intros Hn. unfold access, mbind, M_bind. by rewrite Hn. Qed.

Lemma access_shadow_ok np_exp clk h now c s :
  shadow_ok s -> shadow_ok (access np_exp clk h now c s).2.
Proof.
  intros Hs.
  destruct (note_access h (with_events s (events s ++ [(now, if has (table s) h then 1 else 0)])))
    as [[[]|e] s1] eqn:Hn.
  - destruct (access_ok np_exp clk h now c s s1 Hs Hn) as (s' & -> & ? & _). done.
  - rewrite (access_err _ _ _ _ _ _ _ _ Hn). cbn.
    pose proof (note_access_frame h (with_events s (events s ++ [(now, if has (table s) h then 1 else 0)]))) as Hf.
    rewrite Hn in Hf. cbn in Hf. destruct Hf as (Ht1 & Hc1 & He1 & _).
    destruct Hs as [[? ?] ? ?]. split; [by split; rewrite Ht1|by rewrite Ht1, Hc1|].
    rewrite He1. apply list.Forall_app. split; [done|]. constructor; [|done]. apply is_hit_bit.
Qed.

Lemma init_shadow_ok pol cap cfg s : init pol cap cfg = Ok s -> shadow_ok s.
Proof.
  unfold init. case_bool_decide; [destruct (init_pdp _); [|done]|]; cbn; intros [= <-];
    (split; [split; [done|by intros ? ?]|apply Z.le_max_l|constructor]).
Qed.

Lemma hits_bounds ev :
  Forall (fun e : Q * Z => e.2 = 0 \/ e.2 = 1) ev -> 0 <= hits ev <= Z.of_nat (length ev).
Proof.
  induction 1 as [|e ev He _ IH]; [done|].
  change (hits (e :: ev)) with (e.2 + hits ev). cbn [length]. lia.
Qed.

Lemma hit_rate_bounds s : shadow_ok s -> (0 <= hit_rate s <= 1)%Q.
Proof.
  intros [_ _ He]. apply hits_bounds in He. unfold hit_rate, num_events.
  destruct (events s) as [|e l] eqn:Hl; [split; discriminate|]. rewrite <- Hl in *.
  assert (Hpos : (0 < inject_Z (Z.of_nat (length (events s))))%Q).
  { change 0%Q with (inject_Z 0). rewrite <- Zlt_Qlt, Hl. cbn. lia. }
  change 0%Q with (inject_Z 0). change 1%Q with (inject_Z 1). split.
  - apply Qle_shift_div_l; [done|]. rewrite Qmult_0_l. change 0%Q with (inject_Z 0).
    rewrite <- Zle_Qle. lia.
  - apply Qle_shift_div_r; [done|]. rewrite <- inject_Z_mult, <- Zle_Qle. lia.
Qed.

(** One call of the warm-up: an access, or a change of capacity. *)
Inductive op : Type :=
  | OpAccess (h : Z) (now : Q) (c : option cache_hint)
  | OpSetCapacity (cap : N).

Definition run_op (np_exp : Q -> Q) (clk : nat -> Q) (s : t) (o : op) : t :=
  match o with
  | OpAccess h now c => (access np_exp clk h now c s).2
  | OpSetCapacity cap => (set_capacity np_exp clk (Z.of_N cap) s).2
  end.
Definition run np_exp clk (s : t) (ops : list op) : t := foldl (run_op np_exp clk) s ops.

Lemma run_shadow_ok np_exp clk ops : forall s, shadow_ok s -> shadow_ok (run np_exp clk s ops).
Proof.
  induction ops as [|o ops IH]; intros s Hs; [done|]. apply IH.
  destruct o as [h now c|cap]; cbn; [by apply access_shadow_ok|].
  by destruct (set_capacity_ok np_exp clk (Z.of_N cap) s Hs) as (s' & -> & ? & _); [lia|].
Qed.

(** Whatever its policy, configuration and history, a shadow cache holds at
    most [capacity] entries, keeps its RRIP counters in range, and reports a hit
    rate between 0 and 1. *)
Theorem shadow_invariant (np_exp : Q -> Q) (clk : nat -> Q) (pol : string) (cap : Z)
    (cfg : option (gmap string string)) (s0 : t) (ops : list op)
    (Hinit : init pol cap cfg = Ok s0) :
  let s := run np_exp clk s0 ops in
  dlen (table s) <= Z.max 0 (capacity s) /\ wf_dict (table s) /\ rrpv_ok (table s) /\
  (0 <= hit_rate s <= 1)%Q.
Proof.
  apply init_shadow_ok in Hinit. pose proof (run_shadow_ok np_exp clk ops s0 Hinit) as Hs.
  pose proof (hit_rate_bounds _ Hs). destruct Hs as [[? ?] ? ?]. done.
Qed.

Definition sample_ops : list op :=
  [OpAccess 1 1 None; OpAccess 2 2 None; OpAccess 1 3 None; OpAccess 3 4 None;
   OpAccess 2 5 None; OpSetCapacity 1].

Lemma shadow_invariant_witness :
  exists s0, init "rrip" 2 None = Ok s0 /\
    dlen (table (run (fun _ => 1%Q) (fun _ => 9%Q) s0 sample_ops)) <= 1 /\
    hits (events (run (fun _ => 1%Q) (fun _ => 9%Q) s0 sample_ops)) = 1.
Proof.
  eexists. split; [reflexivity|].
  split; [|vm_compute; reflexivity].
  destruct (shadow_invariant (fun _ => 1%Q) (fun _ => 9%Q) "rrip" 2 None _ sample_ops eq_refl)
    as [H _].
  eapply Z.le_trans; [exact H|]. by vm_compute.
Defined.

(** ** The [lru] cache implements the recency list

    The specification is the list of the distinct hashes accessed so far, the
    most recent first: a cache of capacity [n] should hold its first [n]. *)

Definition touch (h : Z) (L : list Z) : list Z := h :: filter (fun j => j <> h) L.
Definition recency (tr : list (Z * Q)) : list Z := foldl (fun L p => touch p.1 L) [] tr.

(** The hits of a cache of capacity [n] on a trace that starts with history [L]. *)
Fixpoint stack_hits (n : nat) (L : list Z) (tr : list (Z * Q)) : list Z :=
  match tr with
  | [] => []
  | (h, _) :: tr' =>
      (if bool_decide (h ∈ take n L) then 1 else 0) :: stack_hits n (touch h L) tr'
  end.

Lemma NoDup_touch h L : NoDup L -> NoDup (touch h L).
Proof.
  intros HL. apply NoDup_cons. split; [|by apply NoDup_filter].
  rewrite list_elem_of_filter. by intros [? _].
Qed.

Lemma take_filter_miss (h : Z) n L :
  h ∉ take n L -> take n (filter (fun j => j <> h) L) = take n L.
Proof.
  revert n. induction L as [|x L IH]; intros [|n] Hh; [done..|].
  cbn in Hh. rewrite not_elem_of_cons in Hh. destruct Hh as [Hx Hh].
  rewrite filter_cons, decide_True by congruence. cbn. by rewrite IH.
Qed.

Lemma take_filter_hit (h : Z) n L :
  NoDup L -> h ∈ take (S n) L ->
  take n (filter (fun j => j <> h) L) = filter (fun j => j <> h) (take (S n) L).
Proof.
  intros HL. revert n. induction HL as [|x L Hx HL IH]; intros n Hh.
  { by apply elem_of_nil in Hh. }
  change (take (S n) (x :: L)) with (x :: take n L) in *.
  rewrite !filter_cons. destruct (decide (x <> h)) as [Hne|Heq].
  - destruct n as [|n].
    { cbn in Hh. apply list_elem_of_singleton in Hh. congruence. }
    change (x :: take n (filter (fun j => j <> h) L) =
            x :: filter (fun j => j <> h) (take (S n) L)).
    f_equal. apply IH. apply elem_of_cons in Hh as [?|?]; [congruence|done].
  - apply dec_stable in Heq. subst h.
    assert (Hn : x ∉ take n L) by (intros ?; apply Hx; rewrite <- (take_drop n L); apply elem_of_app; by left).
    rewrite take_filter_miss by done. symmetry. apply filter_id. by intros ? ? ->.
Qed.

(** [h1] was accessed after [h2]. *)
Definition newer (tbl : pydict Z entry) (h1 h2 : Z) : Prop :=
  forall e1 e2, tbl !! h1 = Some e1 -> tbl !! h2 = Some e2 ->
    (last_accessed e2 < last_accessed e1)%Q.

(** The table holds the hashes [l], in the order of their last accesses, none
    of them after [now]. *)
Record holds (tbl : pydict Z entry) (l : list Z) (now : Q) : Prop := {
  hold_keys : forall h, is_Some (tbl !! h) <-> h ∈ l;
  hold_order : StronglySorted (newer tbl) l;
  hold_past : forall h e, tbl !! h = Some e -> (last_accessed e <= now)%Q
}.

Lemma sublist_sorted {A} (R : A -> A -> Prop) (l1 l2 : list A) :
  l1 `sublist_of` l2 -> StronglySorted R l2 -> StronglySorted R l1.
Proof.
  induction 1 as [|x l1 l2 Hs IH|x l1 l2 Hs IH]; intros Hl; [constructor| |];
    apply StronglySorted_inv in Hl as [Hl Hx]; [|by apply IH].
  constructor; [by apply IH|]. apply Forall_forall. intros y Hy.
  rewrite Forall_forall in Hx. apply Hx. by eapply elem_of_sublist.
Qed.

Lemma holds_length tbl l now :
  wf_dict tbl -> NoDup l -> holds tbl l now -> dlen tbl = Z.of_nat (length l).
Proof.
  intros Hwf Hnd Hh. rewrite dlen_keys. f_equal. apply Permutation_length.
  apply NoDup_Permutation; [done..|]. intros h. rewrite elem_of_keys. apply Hh.
Qed.

Lemma holds_touch tbl l l' h e now now' :
  holds tbl l now -> (now < now')%Q -> last_accessed e = now' ->
  l' `sublist_of` l -> h ∉ l' -> (forall x, x <> h -> is_Some (tbl !! x) <-> x ∈ l') ->
  holds (<[h := e]> tbl) (h :: l') now'.
Proof.
  intros [Hk Ho Hp] Hlt He Hs Hh Hk'.
  assert (Hold : forall x, x ∈ l' -> <[h := e]> tbl !! x = tbl !! x).
  { intros x Hx. apply dict_lookup_insert_ne. by intros ->. }
  split.
  - intros x. rewrite dict_lookup_insert, elem_of_cons.
    case_decide; [subst; split; [by left|by eexists]|].
    rewrite Hk' by done. split; [by right|]. by intros [->|?].
  - constructor.
    + apply (sublist_sorted _ l' l Hs) in Ho. revert Ho.
      assert (Hin : forall x, x ∈ l' -> x ∈ l') by done. revert Hin. clear Hk' Hs.
      generalize l' at 1 3 4. intros l0 Hin Ho. induction Ho as [|x l0 Ho IH Hx]; [constructor|].
      constructor; [apply IH; intros; apply Hin; by right|].
      apply Forall_forall. intros y Hy. rewrite Forall_forall in Hx.
      unfold newer. rewrite !Hold by (apply Hin; by (left || right)). by apply Hx.
    + apply Forall_forall. intros x Hx e1 e2. rewrite dict_lookup_insert_eq, Hold by done.
      intros [= <-] Hx'%Hp. rewrite He. lra.
  - intros x e'. rewrite dict_lookup_insert.
    case_decide; [intros [= <-]; rewrite He; lra|]. intros Hx%Hp. lra.
Qed.

Lemma holds_delete tbl l x now :
  NoDup (l ++ [x]) -> holds tbl (l ++ [x]) now -> holds (delete x tbl) l now.
Proof.
  intros (Hnd & Hx & _)%NoDup_app [Hk Ho Hp].
  assert (Hne : forall y, y ∈ l -> x <> y).
  { intros y Hy <-. apply (Hx x Hy), list_elem_of_singleton. done. }
  assert (Hle : forall y e, delete x tbl !! y = Some e -> tbl !! y = Some e).
  { intros y e. rewrite dict_lookup_delete. by case_decide. }
  split.
  - intros y. rewrite dict_lookup_delete. case_decide as Hy; [subst|].
    + split; [by intros [? ?]|]. intros Hy. by destruct (Hne y Hy).
    + rewrite Hk, elem_of_app, list_elem_of_singleton. split; [|by left].
      intros [H|H]; [done|by subst].
  - assert (Ho' : StronglySorted (newer tbl) l).
    { eapply sublist_sorted; [|done]. by apply sublist_inserts_r. }
    clear -Ho' Hle. induction Ho' as [|y l Ho IH Hy]; [constructor|].
    constructor; [done|]. eapply Forall_impl; [done|]. intros z Hz e1 e2 H1 H2. eauto.
  - intros y e H%Hle. eauto.
Qed.

Lemma sorted_snoc {A} (R : A -> A -> Prop) l x y :
  StronglySorted R (l ++ [x]) -> y ∈ l -> R y x.
Proof.
  induction l as [|z l IH]; cbn; [by intros _ ?%elem_of_nil|].
  intros [Hl Hz]%StronglySorted_inv [->|Hy]%elem_of_cons; [|by apply IH].
  rewrite Forall_forall in Hz. apply Hz, elem_of_app. right. by apply list_elem_of_singleton.
Qed.

(** The least recently used entry is the end of the list. *)
Lemma lru_victim_last tbl l x now :
  wf_dict tbl -> holds tbl (l ++ [x]) now -> fst <$> py_min lru_key (items tbl) = Some x.
Proof.
  intros Hwf [Hk Ho Hp].
  assert (Hx : is_Some (tbl !! x)).
  { apply Hk, elem_of_app. right. by apply list_elem_of_singleton. }
  destruct Hx as [ex Hx]. pose proof Hx as Hix. apply elem_of_items in Hix; [|done].
  destruct (py_min lru_key (items tbl)) as [[v e]|] eqn:Hm.
  - cbn. f_equal. apply py_min_spec in Hm as [Hin Hle].
    apply elem_of_items in Hin; [|done]. destruct (decide (v = x)) as [|Hne]; [done|].
    assert (Hv : v ∈ l ++ [x]) by (apply Hk; by eexists).
    apply elem_of_app in Hv as [Hv|Hv]; [|by apply list_elem_of_singleton in Hv].
    pose proof (sorted_snoc _ _ _ _ Ho Hv e ex Hin Hx) as Hlt.
    specialize (Hle _ Hix). unfold lru_key in Hle. rewrite key_leb_cons in Hle. cbn in Hle. lra.
  - apply py_min_None in Hm. rewrite Hm in Hix. by apply elem_of_nil in Hix.
Qed.

Lemma lru_evict np_exp clk s l x now :
  policy s = "lru"%string -> wf_dict (table s) -> holds (table s) (l ++ [x]) now ->
  evict np_exp clk s = (Ok tt, with_table s (delete x (table s))).
Proof.
  intros Hpol Hwf Hh. unfold evict, pick. rewrite Hpol.
  repeat (rewrite bool_decide_eq_false_2; [|done]).
  rewrite bool_decide_eq_false_2.
  - by rewrite (lru_victim_last _ _ _ _ Hwf Hh).
  - intros Hnil. pose proof (lru_victim_last _ _ _ _ Hwf Hh) as Hm. by rewrite Hnil in Hm.
Qed.

Record lru_inv (n : nat) (s : t) (L : list Z) (now : Q) : Prop := {
  li_policy : policy s = "lru"%string;
  li_pdp : pdp s = None;
  li_capacity : capacity s = Z.of_nat n;
  li_wf : wf_dict (table s);
  li_nodup : NoDup L;
  li_holds : holds (table s) (take n L) now
}.

Lemma NoDup_take {A} n (L : list A) : NoDup L -> NoDup (take n L).
Proof. intros H. rewrite <- (take_drop n L) in H. by apply NoDup_app in H as [? _]. Qed.

(** Room for one more: what remains is the front of the list. *)
Lemma lru_make_room np_exp clk n s L now :
  lru_inv (S n) s L now ->
  exists tbl, evict_while np_exp clk (length (items (table s))) (capacity s - 1) s
    = (Ok tt, with_table s tbl) /\ wf_dict tbl /\ holds tbl (take n L) now.
Proof.
  intros [Hpol Hpdp Hcap Hwf Hnd Hh]. rewrite Hcap.
  replace (Z.of_nat (S n) - 1) with (Z.of_nat n) by lia.
  pose proof (holds_length _ _ _ Hwf (NoDup_take _ _ Hnd) Hh) as Hlen.
  rewrite length_take in Hlen.
  assert (Hdone : forall fuel s', dlen (table s') <= Z.of_nat n ->
    evict_while np_exp clk fuel (Z.of_nat n) s' = (Ok tt, s')).
  { intros fuel s' Hle. destruct fuel; cbn [evict_while]; by rewrite (proj2 (Z.ltb_ge _ _)). }
  destruct (decide (length L <= n)%nat) as [Hle|Hgt].
  - exists (table s). rewrite Hdone by lia. split; [by destruct s|]. split; [done|].
    by rewrite take_ge in Hh |- * by lia.
  - destruct (lookup_lt_is_Some_2 L n) as [x Hx]; [lia|].
    rewrite (take_S_r _ _ _ Hx) in Hh.
    assert (Hne : length (items (table s)) = S n) by (unfold dlen in Hlen; lia).
    rewrite Hne. cbn [evict_while]. rewrite (proj2 (Z.ltb_lt _ _)) by lia.
    unfold mbind, M_bind. rewrite (lru_evict _ _ _ _ _ _ Hpol Hwf Hh).
    exists (delete x (table s)). rewrite Hdone.
    + split; [done|]. split; [by apply wf_delete|]. eapply holds_delete; [|done].
      rewrite <- (take_S_r _ _ _ Hx). by apply NoDup_take.
    + cbn. rewrite dlen_delete; [lia|done|]. apply Hh, elem_of_app. right.
      by apply list_elem_of_singleton.
Qed.

Lemma lru_access np_exp clk n h now c s L last :
  lru_inv n s L last -> (last < now)%Q ->
  exists s', access np_exp clk h now c s = (Ok tt, s') /\ lru_inv n s' (touch h L) now /\
    events s' = events s ++ [(now, if bool_decide (h ∈ take n L) then 1 else 0)].
Proof.
  intros Hi Hlt. pose proof Hi as [Hpol Hpdp Hcap Hwf Hnd Hh].
  assert (Hhit : has (table s) h = bool_decide (h ∈ take n L)).
  { unfold has. apply bool_decide_ext, Hh. }
  unfold access, note_access, mbind, M_bind. cbn. rewrite Hpdp, Hhit. cbn.
  destruct (table s !! h) as [e|] eqn:He.
  - assert (Hin : h ∈ take n L) by (apply Hh; by eexists).
    destruct n as [|n]; [by apply elem_of_nil in Hin|].
    eexists. split; [done|]. split; [|done].
    split; cbn; [done..|by apply wf_insert|by apply NoDup_touch|].
    rewrite take_filter_hit by done.
    eapply holds_touch; [exact Hh|done| |apply sublist_filter| |].
    + unfold hit_entry; cbn. rewrite Hpol, Hpdp.
      by rewrite !bool_decide_eq_false_2 by done.
    + rewrite list_elem_of_filter. by intros [? _].
    + intros x Hx. rewrite (hold_keys _ _ _ Hh), list_elem_of_filter. tauto.
  - assert (Hin : h ∉ take n L).
    { intros Hin%(hold_keys _ _ _ Hh). rewrite He in Hin. by destruct Hin. }
    destruct n as [|n].
    { rewrite (proj2 (Z.leb_le _ _)) by lia. eexists. split; [done|]. split; [|done].
      split; cbn; [done..|by apply NoDup_touch|]. destruct Hh as [H1 H2 H3].
      split; [done|constructor|]. intros x e' Hx. specialize (H3 x e' Hx). lra. }
    rewrite (proj2 (Z.leb_gt _ _)) by lia.
    destruct (lru_make_room np_exp clk n (with_events s (events s ++ [(now,
      if bool_decide (h ∈ take (S n) L) then 1 else 0)])) L last) as (tbl & Hew & Hwf' & Hh').
    { by split. }
    cbn in Hew. cbn. rewrite Hew.
    eexists. split; [done|]. split; [|done].
    split; cbn; [done..|by apply wf_insert|by apply NoDup_touch|].
    assert (Hin' : h ∉ take n L).
    { intros Hn. apply Hin. eapply elem_of_sublist; [exact Hn|].
      replace (take n L) with (take n (take (S n) L)) by (rewrite take_take; f_equal; lia).
      apply sublist_take. }
    rewrite take_filter_miss by done.
    eapply holds_touch; [exact Hh'|done| |done|done|].
    + unfold new_entry; cbn. by rewrite Hpdp, Hpol.
    + intros x _. apply Hh'.
Qed.

(** The warm-up of one cache: the accesses of a trace, each with its hint. *)
Definition replay np_exp clk (c : option cache_hint) (s : t) (tr : list (Z * Q)) : t :=
  foldl (fun s p => (access np_exp clk p.1 p.2 c s).2) s tr.

Lemma replay_events np_exp clk c n tr : forall s L last,
  lru_inv n s L last -> Forall (fun p => last < p.2)%Q tr ->
  StronglySorted (fun p q => p.2 < q.2)%Q tr ->
  map snd (events (replay np_exp clk c s tr)) = map snd (events s) ++ stack_hits n L tr.
Proof.
  induction tr as [|[h now] tr IH]; intros s L last Hi Hp Hs; cbn [replay foldl stack_hits].
  { by rewrite app_nil_r. }
  apply list.Forall_cons in Hp as [Hlt Hp]. apply StronglySorted_inv in Hs as [Hs Hs'].
  destruct (lru_access np_exp clk n h now c s L last Hi Hlt) as (s' & He & Hi' & Hev).
  cbn [fst snd]. rewrite He. cbn [snd]. fold (replay np_exp clk c s' tr).
  rewrite (IH s' _ now Hi' Hs' Hs), Hev, map_app, <- app_assoc. done.
Qed.

(** C29. The [lru] shadow cache implements the recency list: on any trace of
    accesses at increasing times, an access is counted as a hit exactly when the
    hash is among the [capacity] most recently accessed distinct hashes. *)
Theorem lru_refines_recency (np_exp : Q -> Q) (clk : nat -> Q) (c : option cache_hint)
    (n : nat) (tr : list (Z * Q)) (s0 : t)
    (Hinit : init "lru" (Z.of_nat n) None = Ok s0)
    (Htimes : StronglySorted (fun p q => p.2 < q.2)%Q tr) :
  map snd (events (replay np_exp clk c s0 tr)) = stack_hits n [] tr.
Proof.
  injection Hinit as <-. destruct tr as [|[h now] tr]; [done|].
  rewrite (replay_events np_exp clk c n _ _ [] (now - 1)); [done| | |done].
  - split; cbn; [done..|apply NoDup_nil_2|]. rewrite take_nil.
    split; [|constructor|by intros ? ?].
    intros j. split; [by intros [? ?]|by intros ?%elem_of_nil].
  - apply StronglySorted_inv in Htimes as [_ Hall].
    constructor; [cbn; lra|]. eapply Forall_impl; [done|]. cbn. intros p Hp. lra.
Qed.

Definition sample_trace : list (Z * Q) :=
  [(1, 1%Q); (2, 2%Q); (1, 3%Q); (3, 4%Q); (2, 5%Q); (3, 6%Q)].

Lemma lru_refines_recency_witness :
  exists s0, init "lru" 2 None = Ok s0 /\
    map snd (events (replay (fun _ => 1%Q) (fun _ => 9%Q) None s0 sample_trace))
    = [0; 0; 1; 0; 0; 1].
Proof.
  eexists. split; [reflexivity|].
  etransitivity; [|exact (eq_refl : stack_hits 2 [] sample_trace = _)].
  apply (lru_refines_recency (fun _ => 1%Q) (fun _ => 9%Q) None 2 sample_trace _ eq_refl).
  repeat constructor.
Defined.

(** A larger [lru] cache hits whenever a smaller one does. *)
Lemma stack_hits_mono n m tr L :
  (n <= m)%nat -> Forall2 Z.le (stack_hits n L tr) (stack_hits m L tr).
Proof.
  intros Hnm. revert L. induction tr as [|[h now] tr IH]; intros L; cbn; constructor; [|done].
  case_bool_decide as Hn; [|case_bool_decide; lia].
  rewrite bool_decide_eq_true_2; [done|]. eapply elem_of_sublist; [exact Hn|].
  replace (take n L) with (take n (take m L)) by (rewrite take_take; f_equal; lia).
  apply sublist_take.
Qed.
