(* ===== verification/PolicyScheduler.v ===== *)
(** * [EvictionPolicyScheduler] ([vllm/core/evictor.py])

    Replays a sample of the warm-up's accesses under every shadow policy, then
    chooses once and for all between the learned policy and the best shadow. *)
From Stdlib Require Import Ascii.
From S2P Require Import Prelude.
From S2P Require Import PyDict.
From S2P Require Import EvictorBase.
From S2P Require Import ShadowPolicyCache.

Module Scheduler.
Local Open Scope string_scope.

Definition POLICIES : list string := ["ml"; "lru"; "rrip"; "fifo"; "pdp"].
Definition SHADOW_POLICIES : list string := ["lru"; "rrip"; "fifo"; "pdp"].

Record t : Type := EvictionPolicyScheduler {
  enabled : bool;
  warmup_s : Q;
  min_events : Z;
  small_threshold : Q;
  large_threshold : Q;
  model_size_b : Q;
  current_policy : string;
  start_time : Q;
  finalized : bool;
  capacity : Z;
  observe_stride : Z;
  num_observed_accesses : Z;
  ml_events : list (Q * Z);
  shadow_policies : list string;
  shadow_caches : pydict string ShadowPolicyCache.t;
  ticks : nat
}.

(** *** Configuration *)

(** [str.lower] and [str.strip] on ASCII. *)
Definition lower_char (a : ascii) : ascii :=
  let n := nat_of_ascii a in
  if (65 <=? n)%nat && (n <=? 90)%nat then ascii_of_nat (n + 32) else a.
Fixpoint lower (s : string) : string :=
  match s with
  | EmptyString => EmptyString
  | String a s' => String (lower_char a) (lower s')
  end.

Definition is_space (a : ascii) : bool :=
  let n := nat_of_ascii a in
  ((9 <=? n)%nat && (n <=? 13)%nat) || ((28 <=? n)%nat && (n <=? 32)%nat).
Fixpoint lstrip (s : string) : string :=
  match s with
  | String a s' => if is_space a then lstrip s' else s
  | EmptyString => EmptyString
  end.
Fixpoint rstrip (s : string) : string :=
  match s with
  | EmptyString => EmptyString
  | String a s' =>
      match rstrip s' with
      | EmptyString => if is_space a then EmptyString else String a EmptyString
      | r => String a r
      end
  end.
Definition strip (s : string) : string := rstrip (lstrip s).

Definition as_bool (value : string) : bool :=
  bool_decide (lower value ∈ ["1"; "true"; "yes"; "on"]).

Definition parse_shadow_policies (value : option string) : result (list string) :=
  match value with
  | None | Some EmptyString => Ok SHADOW_POLICIES
  | Some v =>
      let policies := filter (fun p => p <> "") (map strip (split_on "|" v)) in
      if bool_decide (Forall (fun p => p ∈ POLICIES) policies) then
        let policies := filter (fun p => p <> "ml") policies in
        if bool_decide (policies = []) then Err ValueError else Ok policies
      else Err ValueError
  end.

(** The dict comprehension over [shadow_policies]. *)
Fixpoint make_caches (cap : Z) (cfg : gmap string string) (ps : list string)
    (acc : pydict string ShadowPolicyCache.t) : result (pydict string ShadowPolicyCache.t) :=
  match ps with
  | [] => Ok acc
  | p :: ps' =>
      c ← ShadowPolicyCache.init p cap (if bool_decide (p = "pdp") then Some cfg else None);
      make_caches cap cfg ps' (<[p := c]> acc)
  end.

Definition cfg_str (cfg : gmap string string) (k dflt : string) : string :=
  default dflt (cfg !! k).

(** [now] is the first reading of the clock. *)
Definition init (now : Q) (cfg : gmap string string) : result t :=
  let en := as_bool (cfg_str cfg "enable_scheduler" "0") in
  w ← cfg_float cfg "scheduler_warmup" 100;
  me ← cfg_int cfg "scheduler_min_events" 1000;
  st ← cfg_float cfg "scheduler_small_threshold" 0.10;
  lt ← cfg_float cfg "scheduler_large_threshold" 0.05;
  ms ← cfg_float cfg "model_size_b" 7;
  let cp := cfg_str cfg "scheduler_initial_policy" "ml" in
  cap ← cfg_int cfg "scheduler_capacity" 0;
  os ← cfg_int cfg "scheduler_observe_stride" 4;
  ps ← parse_shadow_policies (cfg !! "scheduler_shadow_policies");
  cs ← make_caches cap cfg ps ∅;
  Ok (EvictionPolicyScheduler en w me st lt ms cp now false cap (Z.max 1 os) 0 [] ps cs 1).

Local Open Scope Z_scope.
Local Open Scope list_scope.

(** *** Field updates *)

Definition with_caches (s : t) (cs : pydict string ShadowPolicyCache.t) : t :=
  EvictionPolicyScheduler (enabled s) (warmup_s s) (min_events s) (small_threshold s)
    (large_threshold s) (model_size_b s) (current_policy s) (start_time s) (finalized s)
    (capacity s) (observe_stride s) (num_observed_accesses s) (ml_events s)
    (shadow_policies s) cs (ticks s).
Definition with_capacity (s : t) (cap : Z) : t :=
  EvictionPolicyScheduler (enabled s) (warmup_s s) (min_events s) (small_threshold s)
    (large_threshold s) (model_size_b s) (current_policy s) (start_time s) (finalized s)
    cap (observe_stride s) (num_observed_accesses s) (ml_events s)
    (shadow_policies s) (shadow_caches s) (ticks s).
Definition with_observed (s : t) (n : Z) (ev : list (Q * Z)) : t :=
  EvictionPolicyScheduler (enabled s) (warmup_s s) (min_events s) (small_threshold s)
    (large_threshold s) (model_size_b s) (current_policy s) (start_time s) (finalized s)
    (capacity s) (observe_stride s) n ev
    (shadow_policies s) (shadow_caches s) (ticks s).
Definition with_decision (s : t) (p : string) : t :=
  EvictionPolicyScheduler (enabled s) (warmup_s s) (min_events s) (small_threshold s)
    (large_threshold s) (model_size_b s) p (start_time s) true
    (capacity s) (observe_stride s) (num_observed_accesses s) (ml_events s)
    (shadow_policies s) (shadow_caches s) (ticks s).
Definition tick (s : t) : t :=
  EvictionPolicyScheduler (enabled s) (warmup_s s) (min_events s) (small_threshold s)
    (large_threshold s) (model_size_b s) (current_policy s) (start_time s) (finalized s)
    (capacity s) (observe_stride s) (num_observed_accesses s) (ml_events s)
    (shadow_policies s) (shadow_caches s) (S (ticks s)).

(** [for cache in self.shadow_caches.values(): f(cache)] *)
Fixpoint each_cache (f : M ShadowPolicyCache.t unit) (l : list (string * ShadowPolicyCache.t))
    : result unit * list (string * ShadowPolicyCache.t) :=
  match l with
  | [] => (Ok tt, [])
  | (p, c) :: l' =>
      match f c with
      | (Ok _, c') => let '(r, l'') := each_cache f l' in (r, (p, c') :: l'')
      | (Err e, c') => (Err e, (p, c') :: l')
      end
  end.

Definition on_caches (f : M ShadowPolicyCache.t unit) : M t unit := fun s =>
  let '(r, l) := each_cache f (items (shadow_caches s)) in (r, with_caches s (PyDict l)).

Definition should_predict (s : t) : bool :=
  if enabled s then negb (finalized s) || bool_decide (current_policy s = "ml") else true.

Definition ml_hit_rate (s : t) : Q :=
  match ml_events s with
  | [] => 0%Q
  | _ => (inject_Z (hits (ml_events s)) / inject_Z (Z.of_nat (length (ml_events s))))%Q
  end.

(** [hit_rates[p]] for a shadow policy. *)
Definition shadow_rate (s : t) (p : string) : Q :=
  match shadow_caches s !! p with Some c => hit_rate c | None => 0%Q end.

Definition fewest_events (s : t) : Z :=
  foldr Z.min (Z.of_nat (length (ml_events s)))
    (map num_events (values (shadow_caches s))).

Definition threshold (s : t) : Q :=
  if Qle_bool (model_size_b s) 14 then small_threshold s else large_threshold s.

Definition finalize_policy : M t bool := fun s =>
  if fewest_events s =? 0 then (Ok true, with_decision s "ml")
  else
    match py_max (fun p => [shadow_rate s p]) (shadow_policies s) with
    | None => (Err ValueError, s)
    | Some best =>
        (Ok true,
         with_decision s
           (if Qle_bool (shadow_rate s best + threshold s) (ml_hit_rate s) then "ml" else best))
    end.

Section Clock.
Variable np_exp : Q -> Q.
Variable clk : nat -> Q.

Definition set_capacity (cap : Z) : M t unit := fun s =>
  on_caches (ShadowPolicyCache.set_capacity np_exp clk cap) (with_capacity s cap).

Definition observe (h : Z) (c : option cache_hint) (real_hit : option bool)
    : M t bool := fun s0 =>
  if negb (enabled s0) then (Ok false, s0)
  else
    let now := clk (ticks s0) in
    let s := tick s0 in
    if finalized s then (Ok false, s)
    else
      let n := num_observed_accesses s + 1 in
      if negb (n mod observe_stride s =? 0)
      then (Ok false, with_observed s n (ml_events s))
      else
        let ev := match real_hit with
                  | Some b => ml_events s ++ [(now, if b : bool then 1 else 0)]
                  | None => ml_events s
                  end in
        (on_caches (ShadowPolicyCache.access np_exp clk h now c) ;;
         (if Qle_bool (warmup_s s) (now - start_time s)
          then finalize_policy else mret false)) (with_observed s n ev).
End Clock.

(** ** The decision *)

(** What [_finalize_policy] decides from the hit rates it sees. *)
Inductive decides (s : t) : string -> Prop :=
  | decides_no_events : fewest_events s = 0 -> decides s "ml"
  | decides_ml best :
      fewest_events s <> 0 -> best ∈ shadow_policies s ->
      (forall p, p ∈ shadow_policies s -> (shadow_rate s p <= shadow_rate s best)%Q) ->
      (shadow_rate s best + threshold s <= ml_hit_rate s)%Q -> decides s "ml"
  | decides_shadow best :
      fewest_events s <> 0 -> best ∈ shadow_policies s ->
      (forall p, p ∈ shadow_policies s -> (shadow_rate s p <= shadow_rate s best)%Q) ->
      (ml_hit_rate s < shadow_rate s best + threshold s)%Q -> decides s best.

Lemma key_leb_single (x y : Q) : key_leb [x] [y] = true -> (x <= y)%Q.
Proof. rewrite key_leb_cons. intros [?|[? _]]; lra. Qed.

Lemma finalize_decides s :
  shadow_policies s <> [] ->
  exists p, finalize_policy s = (Ok true, with_decision s p) /\ decides s p.
Proof.
  intros Hne. unfold finalize_policy.
  destruct (Z.eqb_spec (fewest_events s) 0) as [Hz|Hz].
  { exists "ml". split; [done|by constructor]. }
  destruct (py_max _ _) as [best|] eqn:Hm.
  - apply py_max_spec in Hm as [Hin Hle].
    eexists. split; [done|].
    assert (Hmax : forall p, p ∈ shadow_policies s -> (shadow_rate s p <= shadow_rate s best)%Q).
    { intros p Hp. by apply key_leb_single, Hle. }
    destruct (Qle_bool _ _) eqn:E.
    + apply Qle_bool_iff in E. by eapply decides_ml.
    + apply decides_shadow; [done..|]. apply Qnot_le_lt. rewrite <- Qle_bool_iff.
      by rewrite E.
  - exfalso. by destruct (shadow_policies s).
Qed.

(** ** Configuration facts *)

Lemma parse_shadow_policies_ok v ps :
  parse_shadow_policies v = Ok ps ->
  ps <> [] /\ forall p, p ∈ ps -> p ∈ POLICIES /\ p <> "ml".
Proof.
  assert (Hdef : SHADOW_POLICIES <> [] /\ forall p, p ∈ SHADOW_POLICIES -> p ∈ POLICIES /\ p <> "ml").
  { split; [done|]. apply Forall_forall. apply (bool_decide_unpack _). by vm_compute. }
  unfold parse_shadow_policies. destruct v as [[|a v]|]; try by intros [= <-].
  case_bool_decide as Hall; [|done]. case_bool_decide as Hne; [done|]. intros [= <-].
  split; [done|]. intros p [Hml Hp]%list_elem_of_filter. split; [|done].
  rewrite Forall_forall in Hall. by apply Hall.
Qed.

Lemma make_caches_keys cap cfg ps : forall acc cs,
  make_caches cap cfg ps acc = Ok cs ->
  forall p, p ∈ keys cs <-> p ∈ keys acc \/ p ∈ ps.
Proof.
  induction ps as [|q ps IH]; intros acc cs; cbn [make_caches].
  { intros [= <-] p. rewrite elem_of_nil. tauto. }
  intros (c & _ & H)%result_bind_ok p. rewrite (IH _ _ H), elem_of_cons, keys_insert.
  case_decide as Hq; [|rewrite elem_of_app, list_elem_of_singleton; tauto].
  split; [tauto|]. intros [?|[->|?]]; auto.
Qed.

(** The facts about the configuration that no call changes. *)
Record config_ok (s : t) : Prop := {
  cok_nonempty : shadow_policies s <> [];
  cok_valid : forall p, p ∈ shadow_policies s -> p ∈ POLICIES /\ p <> "ml";
  cok_keys : forall p, p ∈ keys (shadow_caches s) <-> p ∈ shadow_policies s;
  cok_stride : 1 <= observe_stride s
}.

Lemma init_config_ok now cfg s : init now cfg = Ok s -> config_ok s.
Proof.
  unfold init. intros H.
  apply result_bind_ok in H as (w & _ & H). apply result_bind_ok in H as (me & _ & H).
  apply result_bind_ok in H as (st & _ & H). apply result_bind_ok in H as (lt & _ & H).
  apply result_bind_ok in H as (ms & _ & H). apply result_bind_ok in H as (cap & _ & H).
  apply result_bind_ok in H as (os & _ & H). apply result_bind_ok in H as (ps & Hps & H).
  apply result_bind_ok in H as (cs & Hcs & H). injection H as <-.
  apply parse_shadow_policies_ok in Hps as [Hne Hv].
  split; cbn; [done|done| |lia].
  intros p. rewrite (make_caches_keys _ _ _ _ _ Hcs). cbn. rewrite elem_of_nil. tauto.
Qed.

Lemma each_cache_keys f l : (each_cache f l).2.*1 = l.*1.
Proof.
  induction l as [|[p c] l IH]; cbn; [done|]. destruct (f c) as [[r|e] c']; [|done].
  destruct (each_cache f l) as [r' l'']. cbn in *. by rewrite IH.
Qed.

Lemma on_caches_frame f s :
  exists l, (on_caches f s).2 = with_caches s (PyDict l) /\ l.*1 = keys (shadow_caches s).
Proof.
  unfold on_caches. pose proof (each_cache_keys f (items (shadow_caches s))) as Hk.
  destruct (each_cache _ _) as [r l]. by exists l.
Qed.

Lemma config_ok_caches s l :
  config_ok s -> l.*1 = keys (shadow_caches s) -> config_ok (with_caches s (PyDict l)).
Proof.
  intros [H1 H2 H3 H4] Hl. split; [done..| |done]. intros p.
  change (p ∈ l.*1 <-> p ∈ shadow_policies s). by rewrite Hl.
Qed.

(** ** One call *)

(** What [observe] can do to a scheduler: nothing while disabled; read the
    clock when finalized; otherwise record, and perhaps decide. *)
Inductive observe_result (s : t) : result bool -> t -> Prop :=
  | obs_disabled : enabled s = false -> observe_result s (Ok false) s
  | obs_finalized : finalized s = true -> observe_result s (Ok false) (tick s)
  | obs_record r s1 :
      enabled s = true -> finalized s = false ->
      config_ok s1 -> current_policy s1 = current_policy s -> finalized s1 = false ->
      r <> Ok true -> observe_result s r s1
  | obs_decide s1 p :
      enabled s1 = true -> finalized s = false ->
      config_ok s1 -> current_policy s1 = current_policy s -> finalized s1 = false ->
      decides s1 p -> observe_result s (Ok true) (with_decision s1 p).

Lemma observe_cases np_exp clk h c rh s :
  config_ok s ->
  let '(r, s') := observe np_exp clk h c rh s in observe_result s r s'.
Proof.
  intros Hc. pose proof Hc as [H1 H2 H3 H4]. unfold observe.
  destruct (enabled s) eqn:Hen; cbn; [|by constructor].
  destruct (finalized s) eqn:Hf; cbn; [by constructor|].
  destruct (Z.eqb_spec ((num_observed_accesses s + 1) mod observe_stride s) 0); cbn;
    [|by apply obs_record].
  set (s0 := with_observed _ _ _).
  destruct (on_caches_frame (ShadowPolicyCache.access np_exp clk h (clk (ticks s)) c) s0)
    as (l & Hl & Hk).
  unfold mbind, M_bind. destruct (on_caches _ s0) as [[[]|x] s1]; cbn in Hl; subst s1.
  - assert (Hc1 : config_ok (with_caches s0 (PyDict l))) by by apply config_ok_caches.
    destruct (Qle_bool _ _); [|by apply obs_record].
    destruct (finalize_decides (with_caches s0 (PyDict l))) as (p & -> & Hd); [done|].
    by apply obs_decide.
  - by apply obs_record; [..|apply config_ok_caches| | |].
Qed.

Lemma config_ok_observe np_exp clk h c rh s :
  config_ok s -> config_ok (observe np_exp clk h c rh s).2.
Proof.
  intros Hc. pose proof (observe_cases np_exp clk h c rh s Hc) as H.
  destruct (observe _ _ _ _ _ _) as [r s']. cbn. destruct H as [| | |s1 p ? ? Hc1]; try done.
  - by destruct Hc.
  - by destruct Hc1.
Qed.

Inductive op : Type :=
  | OpObserve (h : Z) (c : option cache_hint) (real_hit : option bool)
  | OpSetCapacity (cap : N).

(** The calls of a run, each with the value [observe] returned. *)
Fixpoint run (np_exp : Q -> Q) (clk : nat -> Q) (s : t) (ops : list op)
    : list (result bool) * t :=
  match ops with
  | [] => ([], s)
  | OpObserve h c rh :: ops' =>
      let '(r, s1) := observe np_exp clk h c rh s in
      let '(rs, s2) := run np_exp clk s1 ops' in (r :: rs, s2)
  | OpSetCapacity cap :: ops' =>
      run np_exp clk (set_capacity np_exp clk (Z.of_N cap) s).2 ops'
  end.

Lemma set_capacity_frame np_exp clk cap s :
  exists l, (set_capacity np_exp clk cap s).2 = with_caches (with_capacity s cap) (PyDict l) /\
    l.*1 = keys (shadow_caches s).
Proof. apply (on_caches_frame _ (with_capacity s cap)). Qed.

Lemma config_ok_set_capacity np_exp clk cap s :
  config_ok s -> config_ok (set_capacity np_exp clk cap s).2.
Proof.
  intros [H1 H2 H3 H4]. destruct (set_capacity_frame np_exp clk cap s) as (l & -> & Hl).
  by apply config_ok_caches.
Qed.

Lemma config_ok_run np_exp clk ops : forall s, config_ok s -> config_ok (run np_exp clk s ops).2.
Proof.
  induction ops as [|[h c rh|cap] ops IH]; intros s Hs; cbn [run]; [done| |].
  - pose proof (config_ok_observe np_exp clk h c rh s Hs) as H1.
    destruct (observe _ _ _ _ _ _) as [r s1]. specialize (IH s1 H1).
    by destruct (run _ _ _ _).
  - by apply IH, config_ok_set_capacity.
Qed.

(** When [observe] reports that the scheduler has decided, whatever was
    observed and whatever the configuration, the new policy is the learned one
    exactly when there was an event-free series or the learned hit rate reaches
    the best shadow's plus the threshold of the model's size; otherwise it is a
    configured shadow policy whose hit rate no other shadow exceeds. *)
Theorem decision_correct (np_exp : Q -> Q) (clk : nat -> Q) (cfg : gmap string string)
    (s0 : t) (ops : list op) (h : Z) (c : option cache_hint) (rh : option bool) (s' : t)
    (Hinit : init (clk 0%nat) cfg = Ok s0)
    (Htrue : observe np_exp clk h c rh (run np_exp clk s0 ops).2 = (Ok true, s')) :
  exists s1 p, s' = with_decision s1 p /\ finalized s1 = false /\ decides s1 p /\
    p ∈ POLICIES /\ should_predict s' = bool_decide (p = "ml").
Proof.
  assert (Hc : config_ok (run np_exp clk s0 ops).2).
  { apply config_ok_run. by eapply init_config_ok. }
  pose proof (observe_cases np_exp clk h c rh _ Hc) as H. rewrite Htrue in H.
  remember (Ok true) as r eqn:Hr. destruct H as [| |r s1 ? ? ? ? ? Hne|s1 p Hen Hf Hc1 Hp Hf1 Hd];
    [done..|].
  exists s1, p. split; [done|]. split; [done|]. split; [done|]. split.
  - destruct Hd as [|best|best ? Hin]; [by left|by left|]. by apply (cok_valid s1 Hc1).
  - unfold should_predict; cbn. by rewrite Hen.
Qed.

Definition sample_config : gmap string string :=
  <["enable_scheduler" := "true"]> (<["scheduler_warmup" := "3"]>
  (<["scheduler_capacity" := "2"]> (<["scheduler_observe_stride" := "1"]>
  (<["scheduler_shadow_policies" := "lru| fifo"]> ∅)))).

Definition sample_ops : list op :=
  [OpObserve 1 None (Some false); OpObserve 2 None (Some false)].
Definition sample_clk (n : nat) : Q := inject_Z (Z.of_nat n).

Lemma decision_correct_witness :
  exists s0 s' s1, init (sample_clk 0) sample_config = Ok s0 /\
    observe (fun _ => 1%Q) sample_clk 1 None (Some false)
      (run (fun _ => 1%Q) sample_clk s0 sample_ops).2
      = (Ok true, s') /\
    s' = with_decision s1 "lru" /\ decides s1 "lru".
Proof.
  assert (H : exists s0 s', init (sample_clk 0) sample_config = Ok s0 /\
    observe (fun _ => 1%Q) sample_clk 1 None (Some false)
      (run (fun _ => 1%Q) sample_clk s0 sample_ops).2
      = (Ok true, s') /\ current_policy s' = "lru").
  { do 2 eexists. split; [vm_compute; reflexivity|]. split; vm_compute; reflexivity. }
  destruct H as (s0 & s' & Hi & Ho & Hcp).
  destruct (decision_correct _ _ _ _ _ _ _ _ _ Hi Ho) as (s1 & p & -> & _ & Hd & _).
  cbn in Hcp. subst p. exists s0, (with_decision s1 "lru"), s1.
  split; [exact Hi|]. split; [exact Ho|]. split; [reflexivity|exact Hd].
Defined.

(** ** The decision is final *)

Lemma observe_finalized np_exp clk h c rh s :
  finalized s = true ->
  observe np_exp clk h c rh s = (Ok false, if enabled s then tick s else s).
Proof. intros Hf. unfold observe. destruct (enabled s); cbn; [by rewrite Hf|done]. Qed.

Lemma run_finalized np_exp clk ops : forall s,
  finalized s = true ->
  let '(rs, s') := run np_exp clk s ops in
  Forall (eq (Ok false)) rs /\ finalized s' = true /\
  current_policy s' = current_policy s /\ should_predict s' = should_predict s.
Proof.
  induction ops as [|[h c rh|cap] ops IH]; intros s Hf; cbn [run].
  - done.
  - rewrite observe_finalized by done.
    specialize (IH (if enabled s then tick s else s)).
    destruct (run _ _ _ _) as [rs s']. destruct IH as (H1 & H2 & H3 & H4); [by destruct (enabled s)|].
    split; [by constructor|]. split; [done|]. rewrite H3, H4.
    unfold should_predict. by destruct (enabled s) eqn:E; cbn; rewrite ?E.
  - destruct (set_capacity_frame np_exp clk (Z.of_N cap) s) as (l & -> & _).
    specialize (IH (with_caches (with_capacity s (Z.of_N cap)) (PyDict l)) Hf).
    by destruct (run _ _ _ _).
Qed.

Definition decisions (rs : list (result bool)) : nat :=
  length (filter (fun r => r = Ok true) rs).

Lemma decisions_cons r rs :
  decisions (r :: rs) = ((if decide (r = Ok true) then 1 else 0) + decisions rs)%nat.
Proof. unfold decisions. rewrite filter_cons. by case_decide. Qed.

Lemma decisions_none rs : Forall (eq (Ok false)) rs -> decisions rs = 0%nat.
Proof. induction 1 as [|r rs <- _ IH]; [done|]. by rewrite decisions_cons, IH. Qed.

Lemma run_decisions np_exp clk ops : forall s,
  config_ok s -> finalized s = false ->
  let '(rs, s') := run np_exp clk s ops in
  decisions rs = if finalized s' then 1%nat else 0%nat.
Proof.
  induction ops as [|[h c rh|cap] ops IH]; intros s Hc Hf; cbn [run].
  - by rewrite Hf.
  - pose proof (observe_cases np_exp clk h c rh s Hc) as H.
    pose proof (config_ok_observe np_exp clk h c rh s Hc) as Hc'.
    destruct (observe _ _ _ _ _ _) as [r s1]. cbn in Hc'.
    destruct H as [He|Hf'|r s1 ? ? ? ? Hf1 Hne|s1 p ? ? ? ? ? Hd].
    + specialize (IH s Hc Hf). destruct (run _ _ _ _). by rewrite decisions_cons.
    + congruence.
    + specialize (IH s1 Hc' Hf1). destruct (run _ _ _ _).
      by rewrite decisions_cons, decide_False.
    + pose proof (run_finalized np_exp clk ops (with_decision s1 p) eq_refl) as Hr.
      destruct (run _ _ _ _) as [rs s']. destruct Hr as (Hrs & -> & _).
      by rewrite decisions_cons, decisions_none.
  - destruct (set_capacity_frame np_exp clk (Z.of_N cap) s) as (l & Hl & _).
    apply IH; [by apply config_ok_set_capacity|by rewrite Hl].
Qed.

(** The scheduler decides at most once: in any sequence of calls after its
    construction, the number of times [observe] answers [True] is 1 if it is
    finalized at the end and 0 otherwise, and once it is finalized no further
    call changes its policy or whether hints should be predicted. *)
Theorem decision_final (np_exp : Q -> Q) (clk : nat -> Q) (cfg : gmap string string)
    (s0 : t) (ops ops' : list op) (Hinit : init (clk 0%nat) cfg = Ok s0) :
  let '(rs, s1) := run np_exp clk s0 ops in
  let '(rs', s2) := run np_exp clk s1 ops' in
  decisions rs = (if finalized s1 then 1 else 0)%nat /\
  (finalized s1 = true ->
     Forall (eq (Ok false)) rs' /\ current_policy s2 = current_policy s1 /\
     should_predict s2 = should_predict s1).
Proof.
  pose proof (init_config_ok _ _ _ Hinit) as Hc.
  assert (Hf : finalized s0 = false).
  { unfold init in Hinit. by repeat (apply result_bind_ok in Hinit as (? & _ & Hinit));
      injection Hinit as <-. }
  pose proof (run_decisions np_exp clk ops s0 Hc Hf) as Hd.
  destruct (run np_exp clk s0 ops) as [rs s1].
  pose proof (fun Hf1 => run_finalized np_exp clk ops' s1 Hf1) as Hr.
  destruct (run np_exp clk s1 ops') as [rs' s2].
  split; [done|]. intros Hf1. by destruct (Hr Hf1) as (? & ? & ? & ?).
Qed.

Lemma decision_final_witness :
  exists s0, init (sample_clk 0) sample_config = Ok s0 /\
    (run (fun _ => 1%Q) sample_clk s0 (sample_ops ++ sample_ops)).1
      = [Ok false; Ok false; Ok true; Ok false] /\
    finalized (run (fun _ => 1%Q) sample_clk s0 (sample_ops ++ sample_ops)).2 = true.
Proof.
  assert (H : exists s0, init (sample_clk 0) sample_config = Ok s0 /\
    (run (fun _ => 1%Q) sample_clk s0 (sample_ops ++ sample_ops)).1
      = [Ok false; Ok false; Ok true; Ok false]).
  { eexists. split; [vm_compute; reflexivity|]. vm_compute; reflexivity. }
  destruct H as (s0 & Hi & Hr). exists s0. split; [done|]. split; [done|].
  pose proof (decision_final (fun _ => 1%Q) sample_clk _ s0 (sample_ops ++ sample_ops) [] Hi) as H.
  destruct (run _ _ _ _) as [rs s1]. cbn in Hr |- *. destruct H as [H _]. subst rs.
  by destruct (finalized s1).
Defined.

(** ** Sampling *)

Definition has_replayed (n : Z) (c : ShadowPolicyCache.t) : Prop :=
  shadow_ok c /\ num_events c = n.

(** Every shadow has replayed one access in [observe_stride]. *)
Record sampled (s : t) : Prop := {
  smp_caches : Forall (fun p =>
    has_replayed (num_observed_accesses s / observe_stride s) p.2) (items (shadow_caches s));
  smp_ml : Z.of_nat (length (ml_events s)) <= num_observed_accesses s / observe_stride s;
  smp_count : 0 <= num_observed_accesses s;
  smp_stride : 1 <= observe_stride s
}.

Lemma div_succ n k :
  1 <= k -> 0 <= n -> (n + 1) / k = n / k + (if (n + 1) mod k =? 0 then 1 else 0).
Proof.
  intros Hk Hn. pose proof (Z.div_mod n k ltac:(lia)). pose proof (Z.mod_pos_bound n k ltac:(lia)).
  pose proof (Z.div_mod (n + 1) k ltac:(lia)).
  pose proof (Z.mod_pos_bound (n + 1) k ltac:(lia)).
  destruct (Z.eqb_spec ((n + 1) mod k) 0); nia.
Qed.

Lemma each_cache_ok f l l' (P Q : ShadowPolicyCache.t -> Prop) :
  (forall c c', P c -> f c = (Ok tt, c') -> Q c') ->
  Forall (fun p => P p.2) l -> each_cache f l = (Ok tt, l') -> Forall (fun p => Q p.2) l'.
Proof.
  intros HPQ Hl. revert l'. induction Hl as [|[p c] l Hc Hl IH]; intros l'; cbn [each_cache].
  { intros [= <-]. constructor. }
  destruct (f c) as [[[]|e] c'] eqn:Hf; [|done].
  destruct (each_cache f l) as [[[]|e] l'']; [|done]. intros [= <-].
  constructor; [by eapply HPQ|]. by apply IH.
Qed.

Lemma access_num_events np_exp clk h now c s s' :
  shadow_ok s -> access np_exp clk h now c s = (Ok tt, s') ->
  shadow_ok s' /\ num_events s' = num_events s + 1.
Proof.
  intros Hs Ha.
  destruct (note_access h (with_events s (events s ++ [(now, if has (table s) h then 1 else 0)])))
    as [[[]|e] s1] eqn:Hn.
  - destruct (access_ok np_exp clk h now c s s1 Hs Hn) as (s2 & Ha2 & Hok & _ & Hev & _).
    rewrite Ha in Ha2. injection Ha2 as <-. split; [done|].
    pose proof (note_access_frame h (with_events s (events s ++ [(now, if has (table s) h then 1 else 0)]))) as Hf.
    rewrite Hn in Hf. cbn in Hf. destruct Hf as (_ & _ & He1 & _).
    unfold num_events. rewrite Hev, He1, length_app. cbn. lia.
  - rewrite (access_err _ _ _ _ _ _ _ _ Hn) in Ha. done.
Qed.

Lemma sampled_observe np_exp clk h c rh s b s' :
  sampled s -> enabled s = true -> finalized s = false ->
  observe np_exp clk h c rh s = (Ok b, s') ->
  sampled s' /\ num_observed_accesses s' = num_observed_accesses s + 1.
Proof.
  intros [Hc Hm Hn Hk] Hen Hf. unfold observe. rewrite Hen. cbn. rewrite Hf.
  pose proof (div_succ (num_observed_accesses s) (observe_stride s) Hk Hn) as Hd.
  destruct (_ =? 0) eqn:E; cbn.
  2: { intros [= <- <-]. split; [|done]. split; cbn; [|lia..]. by rewrite Hd, Z.add_0_r. }
  unfold on_caches, mbind, M_bind.
  destruct (each_cache _ _) as [[[]|e] l] eqn:He; [|done].
  set (s1 := with_caches _ _).
  assert (Hs1 : sampled s1).
  { split; cbn; [| |lia|done].
    - eapply (each_cache_ok _ _ _ (has_replayed (num_observed_accesses s / observe_stride s))
        (has_replayed ((num_observed_accesses s + 1) / observe_stride s)));
        [|exact Hc|exact He].
      intros c0 c' [Hok Hnum] Ha. destruct (access_num_events _ _ _ _ _ _ _ Hok Ha) as [? Hn'].
      split; [done|]. rewrite Hn'. lia.
    - rewrite Hd. destruct rh; [rewrite length_app; cbn|]; lia. }
  destruct (Qle_bool _ _); [|by intros [= <- <-]].
  assert (Hd1 : forall p, sampled (with_decision s1 p)) by (intros p; by destruct Hs1).
  unfold finalize_policy.
  destruct (fewest_events s1 =? 0); [|destruct (py_max _ _); [|done]]; intros [= <- <-]; done.
Qed.

Lemma sampled_set_capacity np_exp clk (cap : N) s s' :
  sampled s -> set_capacity np_exp clk (Z.of_N cap) s = (Ok tt, s') ->
  sampled s' /\ num_observed_accesses s' = num_observed_accesses s.
Proof.
  intros [Hc Hm Hn Hk]. unfold set_capacity, on_caches. cbn.
  destruct (each_cache _ _) as [r l] eqn:He. intros [= -> <-]. split; [|done].
  split; cbn; [|done..].
  eapply (each_cache_ok _ _ _ (has_replayed (num_observed_accesses s / observe_stride s))
    (has_replayed (num_observed_accesses s / observe_stride s))); [|exact Hc|exact He].
  intros c0 c' [Hok Hnum] Ha.
  destruct (set_capacity_ok np_exp clk (Z.of_N cap) c0 Hok) as (c1 & Hset & Hok1 & _ & Hev & _); [lia|].
  rewrite Ha in Hset. injection Hset as <-. split; [done|]. unfold num_events in *. by rewrite Hev.
Qed.

Lemma make_caches_sampled cap cfg ps : forall acc cs,
  make_caches cap cfg ps acc = Ok cs ->
  Forall (fun p => has_replayed 0 p.2) (items acc) ->
  Forall (fun p => has_replayed 0 p.2) (items cs).
Proof.
  induction ps as [|p ps IH]; intros acc cs; cbn [make_caches]; [by intros [= <-]|].
  intros (c & Hc & H)%result_bind_ok Hacc. apply (IH _ _ H). clear IH H.
  assert (Hok : has_replayed 0 c).
  { split; [by eapply init_shadow_ok|]. unfold ShadowPolicyCache.init in Hc.
    case_bool_decide; [|by injection Hc as <-].
    apply result_bind_ok in Hc as (p' & _ & Hc). by injection Hc as <-. }
  destruct acc as [l]. unfold insert, pydict_insert. cbn in *.
  induction Hacc as [|[q c'] l Hq Hl IH]; cbn; [by constructor|].
  destruct (decide (q = p)); by constructor.
Qed.

Lemma init_sampled now cfg s : init now cfg = Ok s -> sampled s /\ num_observed_accesses s = 0.
Proof.
  unfold init. intros H. do 8 (apply result_bind_ok in H as (? & _ & H)).
  apply result_bind_ok in H as (cs & Hcs & H). injection H as <-.
  split; [|done]. split; cbn; [| | |lia]; try (rewrite Z.div_0_l by lia); try lia.
  by eapply make_caches_sampled.
Qed.

(** The calls of a warm-up in which nothing was raised. *)
Inductive warmup (np_exp : Q -> Q) (clk : nat -> Q) : t -> Z -> t -> Prop :=
  | warmup_start s : warmup np_exp clk s 0 s
  | warmup_observe s n s1 h c rh b s2 :
      warmup np_exp clk s n s1 -> finalized s1 = false ->
      observe np_exp clk h c rh s1 = (Ok b, s2) -> warmup np_exp clk s (n + 1) s2
  | warmup_capacity s n s1 cap s2 :
      warmup np_exp clk s n s1 ->
      set_capacity np_exp clk (Z.of_N cap) s1 = (Ok tt, s2) -> warmup np_exp clk s n s2.

Lemma observe_enabled np_exp clk h c rh s : enabled (observe np_exp clk h c rh s).2 = enabled s.
Proof.
  unfold observe. destruct (enabled s) eqn:E; cbn; [|done]. destruct (finalized s); [done|].
  destruct (_ =? 0); cbn; [|done]. unfold on_caches, mbind, M_bind.
  destruct (each_cache _ _) as [[r|e] l]; [|done]. destruct (Qle_bool _ _); [|done].
  unfold finalize_policy. destruct (_ =? 0); [done|]. by destruct (py_max _ _).
Qed.

Lemma set_capacity_enabled np_exp clk cap s :
  enabled (set_capacity np_exp clk cap s).2 = enabled s.
Proof. destruct (set_capacity_frame np_exp clk cap s) as (l & -> & _). done. Qed.

Lemma warmup_sampled np_exp clk s n s' :
  warmup np_exp clk s n s' -> sampled s -> enabled s = true -> num_observed_accesses s = 0 ->
  sampled s' /\ enabled s' = true /\ num_observed_accesses s' = n.
Proof.
  induction 1 as [s|s n s1 h c rh b s2 Hw IH Hf Ho|s n s1 cap s2 Hw IH Hs]; intros Hs0 Hen H0; [done| |];
    destruct (IH Hs0 Hen H0) as (Hs1 & Hen1 & <-); clear IH.
  - destruct (sampled_observe _ _ _ _ _ _ _ _ Hs1 Hen1 Hf Ho) as [? ->].
    split; [done|]. split; [|done].
    pose proof (observe_enabled np_exp clk h c rh s1) as He. by rewrite Ho in He; rewrite <- Hen1.
  - destruct (sampled_set_capacity _ _ _ _ _ Hs1 Hs) as [? ->].
    split; [done|]. split; [|done].
    pose proof (set_capacity_enabled np_exp clk (Z.of_N cap) s1) as He.
    by rewrite Hs in He; rewrite <- Hen1.
Qed.

(** The shadows see the same sample of the warm-up: after [n] observed
    accesses every shadow cache has replayed exactly [n / observe_stride] of
    them, whatever capacity changes happened in between, and the learned policy
    has at most as many samples, so the rates that are compared average over
    the same accesses. *)
Theorem shadows_sample_alike (np_exp : Q -> Q) (clk : nat -> Q) (cfg : gmap string string)
    (s0 s : t) (n : Z)
    (Hinit : init (clk 0%nat) cfg = Ok s0) (Hen : enabled s0 = true)
    (Hrun : warmup np_exp clk s0 n s) :
  (forall p c, shadow_caches s !! p = Some c -> num_events c = n / observe_stride s) /\
  Z.of_nat (length (ml_events s)) <= n / observe_stride s.
Proof.
  destruct (init_sampled _ _ _ Hinit) as [Hs0 H0].
  destruct (warmup_sampled _ _ _ _ _ Hrun Hs0 Hen H0) as ([Hc Hm _ _] & _ & <-).
  split; [|done]. intros p c Hp. rewrite Forall_forall in Hc.
  refine (proj2 (Hc (p, c) _)). clear -Hp. destruct (shadow_caches s) as [l].
  unfold lookup, pydict_lookup in Hp. cbn in *.
  induction l as [|[q c'] l IH]; cbn in Hp; [done|].
  case_decide; [injection Hp as <-; subst; left|right; by apply IH].
Qed.

Lemma shadows_sample_alike_witness :
  exists s0 s, init (sample_clk 0) sample_config = Ok s0 /\
    warmup (fun _ => 1%Q) sample_clk s0 2 s /\
    forall p c, shadow_caches s !! p = Some c -> num_events c = 2.
Proof.
  assert (H : exists s0 s1 s2, init (sample_clk 0) sample_config = Ok s0 /\
    observe (fun _ => 1%Q) sample_clk 1 None (Some false) s0 = (Ok false, s1) /\
    observe (fun _ => 1%Q) sample_clk 2 None (Some true) s1 = (Ok false, s2) /\
    enabled s0 = true /\ finalized s0 = false /\ finalized s1 = false /\ observe_stride s2 = 1).
  { do 3 eexists. split; [vm_compute; reflexivity|]. split; [vm_compute; reflexivity|].
    split; [vm_compute; reflexivity|]. repeat split. }
  destruct H as (s0 & s1 & s2 & Hi & H1 & H2 & Hen & Hf0 & Hf1 & Hk).
  assert (Hw : warmup (fun _ => 1%Q) sample_clk s0 2 s2).
  { eapply (warmup_observe _ _ s0 1); [|exact Hf1|exact H2].
    eapply (warmup_observe _ _ s0 0); [constructor|exact Hf0|exact H1]. }
  exists s0, s2. split; [exact Hi|]. split; [exact Hw|]. intros p c Hp.
  rewrite (proj1 (shadows_sample_alike _ _ _ _ _ _ Hi Hen Hw) p c Hp), Hk. reflexivity.
Defined.
End Scheduler.
