(* ===== verification/SortedDict.v ===== *)
(** * [sortedcontainers.SortedDict]

    The container the learned evictor keeps its candidates in.  It is not code
    of the repository, so its behaviour is stated as an interface: a finite map
    whose keys are tuples of numbers, equal as Python compares them, with a
    least item.  A sorted association list shows that the interface can be
    met, and makes the clients executable. *)
From S2P Require Import Prelude.

Class SortedDict (D V : Type) : Type := {
  sd_empty : D;
  (** [d.get(k)], [d[k] = v], [del d[k]], [d.peekitem(0)], [len(d)] *)
  sd_get : key -> D -> option V;
  sd_set : key -> V -> D -> D;
  sd_del : key -> D -> D;
  sd_first : D -> option (key * V);
  sd_len : D -> nat
}.

(** Documented behaviour; [sd_ok] is what the constructor establishes. *)
Class SortedDictLaws (D V : Type) `{!SortedDict D V} (sd_ok : D -> Prop) : Prop := {
  sd_ok_empty : sd_ok sd_empty;
  sd_ok_set : forall k v d, sd_ok d -> sd_ok (sd_set k v d);
  sd_ok_del : forall k d, sd_ok d -> sd_ok (sd_del k d);
  sd_get_empty : forall k, sd_get k sd_empty = None;
  sd_get_eqb : forall k j d, key_eqb k j = true -> sd_get k d = sd_get j d;
  sd_get_set : forall k v d j,
    sd_get j (sd_set k v d) = if key_eqb k j then Some v else sd_get j d;
  sd_get_del : forall k d j, sd_ok d ->
    sd_get j (sd_del k d) = if key_eqb k j then None else sd_get j d;
  sd_first_none : forall d, sd_first d = None -> forall k, sd_get k d = None;
  sd_first_some : forall d k v, sd_ok d -> sd_first d = Some (k, v) ->
    sd_get k d = Some v /\
    forall j w, sd_get j d = Some w -> key_leb k j = true;
  sd_len_del_first : forall d k v, sd_first d = Some (k, v) ->
    sd_len d = S (sd_len (sd_del k d))
}.

(** ** A sorted association list *)

Section SortedAssoc.
Context {V : Type}.
Implicit Types (l : list (key * V)).

Fixpoint sa_get (k : key) l : option V :=
  match l with
  | [] => None
  | (j, v) :: l' => if key_eqb j k then Some v else sa_get k l'
  end.

(** Insertion in order, replacing an equal key. *)
Fixpoint sa_set (k : key) (v : V) l : list (key * V) :=
  match l with
  | [] => [(k, v)]
  | (j, w) :: l' =>
      if key_eqb j k then (j, v) :: l'
      else if key_ltb k j then (k, v) :: (j, w) :: l'
      else (j, w) :: sa_set k v l'
  end.

Fixpoint sa_del (k : key) l : list (key * V) :=
  match l with
  | [] => []
  | (j, w) :: l' => if key_eqb j k then l' else (j, w) :: sa_del k l'
  end.

(** Strictly increasing keys. *)
Definition sa_ok l : Prop := StronglySorted (fun p q => key_ltb p.1 q.1 = true) l.

Lemma key_eqb_trans a b c : key_eqb a b = true -> key_eqb b c = key_eqb a c.
Proof.
  intros H. destruct (key_eqb b c) eqn:E.
  - symmetry. apply key_leb_antisym.
    + eapply key_leb_trans; by apply key_eqb_leb.
    + eapply key_leb_trans; apply key_eqb_leb; rewrite key_eqb_sym; done.
  - destruct (key_eqb a c) eqn:E2; [|done].
    assert (key_eqb b c = true); [|congruence]. rewrite key_eqb_sym in H.
    apply key_leb_antisym.
    + eapply key_leb_trans; by apply key_eqb_leb.
    + rewrite key_eqb_sym in H. rewrite key_eqb_sym in E2.
      eapply key_leb_trans; by apply key_eqb_leb.
Qed.

Lemma key_ltb_eqb_l a b c : key_eqb a b = true -> key_ltb a c = true -> key_ltb b c = true.
Proof.
  intros He Hl. destruct (key_ltb b c) eqn:E; [done|].
  assert (Hcb : key_leb c b = true) by (unfold key_leb; by rewrite E).
  assert (Hca : key_leb c a = true).
  { eapply key_leb_trans; [exact Hcb|]. apply key_eqb_leb. by rewrite key_eqb_sym. }
  unfold key_leb in Hca. by rewrite Hl in Hca.
Qed.

Lemma key_ltb_eqb_r a b c : key_eqb a b = true -> key_ltb c a = true -> key_ltb c b = true.
Proof.
  intros He Hl. destruct (key_ltb c b) eqn:E; [done|].
  assert (Hbc : key_leb b c = true) by (unfold key_leb; by rewrite E).
  assert (Hac : key_leb a c = true).
  { eapply key_leb_trans; [|exact Hbc]. by apply key_eqb_leb. }
  unfold key_leb in Hac. by rewrite Hl in Hac.
Qed.

Lemma sa_get_eqb k j l : key_eqb k j = true -> sa_get k l = sa_get j l.
Proof.
  intros He. induction l as [|[i w] l IH]; cbn; [done|]. rewrite IH.
  rewrite key_eqb_sym in He.
  rewrite (key_eqb_sym i k), (key_eqb_sym i j).
  by rewrite (key_eqb_trans j k i He).
Qed.

Lemma sa_get_set k v l j : sa_get j (sa_set k v l) = if key_eqb k j then Some v else sa_get j l.
Proof.
  induction l as [|[i w] l IH]; cbn; [done|].
  destruct (key_eqb i k) eqn:E; cbn.
  - rewrite key_eqb_sym in E. rewrite (key_eqb_trans k i j E). by destruct (key_eqb k j).
  - destruct (key_ltb k i); cbn; [done|]. rewrite IH.
    destruct (key_eqb i j) eqn:E2; [|done].
    destruct (key_eqb k j) eqn:E3; [|done].
    rewrite key_eqb_sym, (key_eqb_trans i j k E2) in E3. congruence.
Qed.

Lemma sa_ok_set k v l : sa_ok l -> sa_ok (sa_set k v l).
Proof.
  unfold sa_ok. induction 1 as [|[j w] l Hl IH Hj]; cbn; [repeat constructor|].
  destruct (key_eqb j k) eqn:E; [by constructor|].
  destruct (key_ltb k j) eqn:E2.
  - constructor; [by constructor|]. constructor; [done|].
    eapply Forall_impl; [done|]. cbn. eauto using key_ltb_trans.
  - constructor; [done|].
    assert (Hjk : key_ltb j k = true).
    { destruct (key_ltb j k) eqn:E3; [done|].
      assert (key_eqb j k = true); [|congruence].
      apply key_leb_antisym; unfold key_leb; by rewrite ?E2, ?E3. }
    clear -Hj Hjk. induction Hj as [|[i x] l Hi Hl IH]; cbn; [by repeat constructor|].
    destruct (key_eqb i k); [by constructor|]. destruct (key_ltb k i); by repeat constructor.
Qed.

Lemma sa_ok_del k l : sa_ok l -> sa_ok (sa_del k l).
Proof.
  unfold sa_ok. induction 1 as [|[j w] l Hl IH Hj]; cbn; [constructor|].
  destruct (key_eqb j k); [done|]. constructor; [done|].
  clear -Hj. induction Hj as [|[i x] l Hi Hl IH]; cbn; [constructor|].
  destruct (key_eqb i k); [done|by constructor].
Qed.

Lemma sa_get_above k l :
  Forall (fun q => key_ltb k q.1 = true) l -> sa_get k l = None.
Proof.
  induction 1 as [|[j w] l Hj Hl IH]; cbn; [done|].
  by rewrite key_eqb_sym, (key_ltb_lt_neq k j).
Qed.

Lemma sa_get_del k l j :
  sa_ok l -> sa_get j (sa_del k l) = if key_eqb k j then None else sa_get j l.
Proof.
  unfold sa_ok. induction 1 as [|[i w] l Hl IH Hi]; cbn; [by destruct (key_eqb k j)|].
  destruct (key_eqb i k) eqn:E; cbn.
  - rewrite (key_eqb_trans i k j E).
    destruct (key_eqb i j) eqn:E2; [|done]. apply sa_get_above.
    eapply Forall_impl; [exact Hi|]. cbn. intros q. exact (key_ltb_eqb_l i j q.1 E2).
  - rewrite IH. destruct (key_eqb i j) eqn:E2; [|done].
    destruct (key_eqb k j) eqn:E3; [|done].
    rewrite key_eqb_sym, (key_eqb_trans i j k E2) in E3. congruence.
Qed.

#[global] Instance sorted_assoc : SortedDict (list (key * V)) V := {
  sd_empty := [];
  sd_get := sa_get;
  sd_set := sa_set;
  sd_del := sa_del;
  sd_first := head;
  sd_len := length
}.

#[global] Instance sorted_assoc_laws : SortedDictLaws (list (key * V)) V sa_ok.
Proof.
  split; cbn.
  - constructor.
  - intros. by apply sa_ok_set.
  - intros. by apply sa_ok_del.
  - done.
  - intros. by apply sa_get_eqb.
  - intros. apply sa_get_set.
  - intros. by apply sa_get_del.
  - by intros [|p l].
  - intros [|[j w] l] k v Hok [= -> ->]; cbn. rewrite key_eqb_refl. split; [done|].
    intros j w. destruct (key_eqb k j) eqn:E; [intros _; by apply key_eqb_leb|].
    apply StronglySorted_inv in Hok as [_ Hk]. intros Hj.
    clear E. revert Hj. induction Hk as [|[i x] l Hi Hl IH]; cbn; [done|].
    destruct (key_eqb i j) eqn:E; [|done]. intros _. apply key_ltb_leb.
    by eapply key_ltb_eqb_r.
  - intros [|[j w] l] k v [= -> ->]; cbn. by rewrite key_eqb_refl.
Qed.
End SortedAssoc.
