(* ===== verification/LRUMLEvictor.v ===== *)
(** * [LRUMLEvictor] ([vllm/core/evictor.py])

    The evictor of the learned policy: every free block is scored under the
    policy its hint (or the scheduler) names, the scores are kept in a sorted
    container, and entries the container still holds for blocks that have
    changed are skipped.  The container is a parameter ([SortedDict]). *)
From S2P Require Import Prelude.
From S2P Require Import PyDict.
From S2P Require Import PDP.
From S2P Require Import PDPEvictor.
From S2P Require Import ShadowPolicyCache.
From S2P Require Import PolicyScheduler.
From S2P Require Import SortedDict.
From S2P Require Import EvictorBase.

Module LRUML.

(** The attributes whose names start with [pdp_]. *)
Record pdp_state : Type := PdpState {
  request_epoch : Z;
  protecting_distance : Z;
  max_distance : Z;
  recompute_interval : Z;
  bucket_size : Z;
  eviction_distance : Z;
  last_seen_epoch : gmap Z Z;
  reuse_distance_counts : gmap Z Z;
  total_accesses : Z;
  protected_until_epoch : gmap Z Z;
  reused : gmap Z bool;
  last_access_epoch : gmap Z Z;
  content_hash_to_block_id : gmap Z Z
}.

Section Evictor.
Context {D : Type} `{!SortedDict D (Z * Z)}.

(** [to_delete_blocks] is a stack: the end of the Python list is the head. *)
Record t : Type := LRUMLEvictor {
  free_table : pydict Z BlockMetaData;
  sorted_dict : D;
  id_to_last_access : gmap Z Q;
  id_to_first_access : gmap Z Q;
  rrip_values : gmap Z Z;
  to_delete_blocks : list (Z * Z * Q);
  stat : CacheStat.t;
  last_refresh_time : Q;
  scheduler : Scheduler.t;
  pdp : pdp_state;
  ticks : nat
}.

Definition INSPECT_INTERVAL : Q := 5.

(** *** Field updates *)

Definition with_free (s : t) (tbl : pydict Z BlockMetaData) : t :=
  LRUMLEvictor tbl (sorted_dict s) (id_to_last_access s) (id_to_first_access s)
    (rrip_values s) (to_delete_blocks s) (stat s) (last_refresh_time s) (scheduler s)
    (pdp s) (ticks s).
Definition with_sorted (s : t) (d : D) : t :=
  LRUMLEvictor (free_table s) d (id_to_last_access s) (id_to_first_access s)
    (rrip_values s) (to_delete_blocks s) (stat s) (last_refresh_time s) (scheduler s)
    (pdp s) (ticks s).
Definition with_last (s : t) (m : gmap Z Q) : t :=
  LRUMLEvictor (free_table s) (sorted_dict s) m (id_to_first_access s)
    (rrip_values s) (to_delete_blocks s) (stat s) (last_refresh_time s) (scheduler s)
    (pdp s) (ticks s).
Definition with_first (s : t) (m : gmap Z Q) : t :=
  LRUMLEvictor (free_table s) (sorted_dict s) (id_to_last_access s) m
    (rrip_values s) (to_delete_blocks s) (stat s) (last_refresh_time s) (scheduler s)
    (pdp s) (ticks s).
Definition with_rrip (s : t) (m : gmap Z Z) : t :=
  LRUMLEvictor (free_table s) (sorted_dict s) (id_to_last_access s) (id_to_first_access s)
    m (to_delete_blocks s) (stat s) (last_refresh_time s) (scheduler s)
    (pdp s) (ticks s).
Definition with_stack (s : t) (l : list (Z * Z * Q)) : t :=
  LRUMLEvictor (free_table s) (sorted_dict s) (id_to_last_access s) (id_to_first_access s)
    (rrip_values s) l (stat s) (last_refresh_time s) (scheduler s)
    (pdp s) (ticks s).
Definition with_stat (s : t) (st : CacheStat.t) : t :=
  LRUMLEvictor (free_table s) (sorted_dict s) (id_to_last_access s) (id_to_first_access s)
    (rrip_values s) (to_delete_blocks s) st (last_refresh_time s) (scheduler s)
    (pdp s) (ticks s).
Definition with_refresh_time (s : t) (x : Q) : t :=
  LRUMLEvictor (free_table s) (sorted_dict s) (id_to_last_access s) (id_to_first_access s)
    (rrip_values s) (to_delete_blocks s) (stat s) x (scheduler s)
    (pdp s) (ticks s).
Definition with_scheduler (s : t) (x : Scheduler.t) : t :=
  LRUMLEvictor (free_table s) (sorted_dict s) (id_to_last_access s) (id_to_first_access s)
    (rrip_values s) (to_delete_blocks s) (stat s) (last_refresh_time s) x
    (pdp s) (ticks s).
Definition with_pdp (s : t) (x : pdp_state) : t :=
  LRUMLEvictor (free_table s) (sorted_dict s) (id_to_last_access s) (id_to_first_access s)
    (rrip_values s) (to_delete_blocks s) (stat s) (last_refresh_time s) (scheduler s)
    x (ticks s).
Definition tick (s : t) : t :=
  LRUMLEvictor (free_table s) (sorted_dict s) (id_to_last_access s) (id_to_first_access s)
    (rrip_values s) (to_delete_blocks s) (stat s) (last_refresh_time s) (scheduler s)
    (pdp s) (S (ticks s)).

Definition pdp_observed (p : pdp_state) (epoch total : Z) (seen counts : gmap Z Z)
    : pdp_state :=
  PdpState epoch (protecting_distance p) (max_distance p) (recompute_interval p)
    (bucket_size p) (eviction_distance p) seen counts total
    (protected_until_epoch p) (reused p) (last_access_epoch p) (content_hash_to_block_id p).
Definition pdp_with_pd (p : pdp_state) (pd : Z) : pdp_state :=
  PdpState (request_epoch p) pd (max_distance p) (recompute_interval p)
    (bucket_size p) (eviction_distance p) (last_seen_epoch p) (reuse_distance_counts p)
    (total_accesses p) (protected_until_epoch p) (reused p) (last_access_epoch p)
    (content_hash_to_block_id p).
(** The per-block tables. *)
Definition pdp_blocks (p : pdp_state) (until : gmap Z Z) (re : gmap Z bool)
    (last hashes : gmap Z Z) : pdp_state :=
  PdpState (request_epoch p) (protecting_distance p) (max_distance p)
    (recompute_interval p) (bucket_size p) (eviction_distance p) (last_seen_epoch p)
    (reuse_distance_counts p) (total_accesses p) until re last hashes.

Definition init (now sched_now : Q) (config : string) : result t :=
  cfg ← parse_evictor_config config;
  sch ← Scheduler.init sched_now cfg;
  pd ← cfg_int cfg "pdp_initial_pd" DEFAULT_INITIAL_PD;
  md ← cfg_int cfg "pdp_max_distance" DEFAULT_MAX_DISTANCE;
  ri ← cfg_int cfg "pdp_recompute_interval" DEFAULT_RECOMPUTE_INTERVAL;
  bs ← cfg_int cfg "pdp_bucket_size" DEFAULT_BUCKET_SIZE;
  ed ← cfg_int cfg "pdp_eviction_distance" DEFAULT_EVICTION_DISTANCE;
  Ok (LRUMLEvictor ∅ sd_empty ∅ ∅ ∅ [] CacheStat.init now sch
        (PdpState 0 pd md ri bs ed ∅ ∅ 0 ∅ ∅ ∅ ∅) 1).

Definition contains (block_id : Z) (s : t) : bool := has (free_table s) block_id.
Definition num_blocks (s : t) : Z := dlen (free_table s).

(** *** Policies *)

Definition get_policy (s : t) (c : option cache_hint) : string :=
  match c with
  | None => "lru"
  | Some h =>
      if truthy_int (ch_use_rrip h) then "rrip"
      else if truthy_int (ch_use_lru h) then "lru"
      else if truthy_int (ch_use_fifo h) then "fifo"
      else if truthy_str (ch_scheduler_policy h) then default ""%string (ch_scheduler_policy h)
      else if Scheduler.enabled (scheduler s) then Scheduler.current_policy (scheduler s)
      else match ch_next_timestamp h with Some _ => "belady" | None => "ml" end
  end.

Definition should_predict_cache_hint (s : t) : bool := Scheduler.should_predict (scheduler s).
Definition pdp_selected (s : t) : bool :=
  Scheduler.finalized (scheduler s)
  && bool_decide (Scheduler.current_policy (scheduler s) = "pdp"%string).
Definition should_observe_cache_accesses (s : t) : bool :=
  if Scheduler.enabled (scheduler s) && negb (Scheduler.finalized (scheduler s)) then true
  else pdp_selected s.
Definition should_record_post_warmup_metric (s : t) : bool :=
  Scheduler.enabled (scheduler s) && Scheduler.finalized (scheduler s).

(** With no hint at all the attribute lookup fails, if the scheduler is on. *)
Definition bind_scheduler_policy (s : t) (c : option cache_hint)
    : result (option cache_hint) :=
  if Scheduler.enabled (scheduler s) then
    match c with
    | None => Err AttributeError
    | Some h =>
        if truthy_int (ch_use_lru h) || truthy_int (ch_use_rrip h)
           || truthy_int (ch_use_fifo h) || truthy_str (ch_scheduler_policy h)
        then Ok (Some h)
        else Ok (Some (set_scheduler_policy h (Scheduler.current_policy (scheduler s))))
    end
  else Ok c.

(** *** PDP scores *)

Definition pdp_score (p : pdp_state) (b : Z) : Q :=
  let until := default 0 (protected_until_epoch p !! b) in
  if until <=? request_epoch p
  then inject_Z (- 3 * 10 ^ 15 + default 0 (last_access_epoch p !! b))
  else
    let remaining := Z.max 0 (until - request_epoch p) in
    if default false (reused p !! b) then inject_Z (- 10 ^ 15 - remaining)
    else inject_Z (- 2 * 10 ^ 15 - remaining).

Definition pdp_victim_key (p : pdp_state) (e : Z * BlockMetaData) : key :=
  let '(b, m) := e in
  let until := default 0 (protected_until_epoch p !! b) in
  let last := default 0 (last_access_epoch p !! b) in
  if until <=? request_epoch p
  then [0; inject_Z last; last_accessed m; inject_Z b]%Q
  else
    let remaining := Z.max 0 (until - request_epoch p) in
    [1; inject_Z (if default false (reused p !! b) then 1 else 0); inject_Z (- remaining);
     inject_Z (- last); inject_Z b]%Q.

Definition pdp_protect_block (b : Z) (r : bool) (s : t) : t :=
  if has (free_table s) b then
    let p := pdp s in
    with_pdp s (pdp_blocks p
      (<[b := request_epoch p + protecting_distance p]> (protected_until_epoch p))
      (if r then <[b := true]> (reused p) else reused p)
      (<[b := request_epoch p]> (last_access_epoch p)) (content_hash_to_block_id p))
  else s.

(** [if self.pdp_content_hash_to_block_id.get(h) == b: del ...] *)
Definition forget_hash (h b : Z) (hashes : gmap Z Z) : gmap Z Z :=
  if bool_decide (hashes !! h = Some b) then delete h hashes else hashes.

(** The bookkeeping of a block that leaves under [pdp]. *)
Definition pdp_forget (h b : Z) (p : pdp_state) : pdp_state :=
  pdp_blocks p (delete b (protected_until_epoch p)) (delete b (reused p))
    (delete b (last_access_epoch p)) (forget_hash h b (content_hash_to_block_id p)).

Definition pdp_recompute (p : pdp_state) : result pdp_state :=
  if bool_decide (reuse_distance_counts p = ∅) || (total_accesses p =? 0) then Ok p
  else if bucket_size p =? 0 then Err ValueError
  else Ok (pdp_with_pd p
             (recompute (eviction_distance p) (total_accesses p) (max_distance p)
                (bucket_size p) (reuse_distance_counts p) (protecting_distance p))).

Definition pdp_observe (h : Z) (real_hit : option bool) : M t unit := fun s =>
  let p := pdp s in
  let epoch := request_epoch p + 1 in
  let total := total_accesses p + 1 in
  let seen := last_seen_epoch p in
  let counts := reuse_distance_counts p in
  match (match seen !! h with
         | Some e =>
             if bucket_size p =? 0 then Err ZeroDivisionError
             else Ok (count_incr (bucket_distance (max_distance p) (bucket_size p) (epoch - e))
                        counts)
         | None => Ok counts
         end) with
  | Err x => (Err x, with_pdp s (pdp_observed p epoch total seen counts))
  | Ok counts' =>
      let s1 := with_pdp s (pdp_observed p epoch total (<[h := epoch]> seen) counts') in
      let s2 := match content_hash_to_block_id p !! h with
                | Some b => pdp_protect_block b (default false real_hit
                              || bool_decide (is_Some (seen !! h))) s1
                | None => s1
                end in
      if recompute_interval p =? 0 then (Err ZeroDivisionError, s2)
      else if total mod recompute_interval p =? 0 then
        match pdp_recompute (pdp s2) with
        | Ok p' => (Ok tt, with_pdp s2 p')
        | Err x => (Err x, s2)
        end
      else (Ok tt, s2)
  end.

Section Methods.
Variable np_exp : Q -> Q.
(** The clock as the evictor reads it, and as its scheduler does. *)
Variables (clk sched_clk : nat -> Q).

Definition now : M t Q := fun s => (Ok (clk (ticks s)), tick s).

(** *** Scores *)

Definition calc_score (b : Z) (la : Q) (c : option cache_hint) : M t Q :=
  s ← get;
  let policy := get_policy s c in
  if bool_decide (policy = "rrip"%string) then
    mret (inject_Z (- default RRIP_INSERT_RRPV (rrip_values s !! b)))
  else if bool_decide (policy = "lru"%string) then mret la
  else if bool_decide (policy = "fifo"%string) then
    lift (from_option_exn KeyError (id_to_first_access s !! b))
  else if bool_decide (policy = "pdp"%string) then mret (pdp_score (pdp s) b)
  else if bool_decide (policy = "belady"%string) then
    t0 ← lift (from_option_exn KeyError (c ≫= ch_next_timestamp));
    mret (- t0)%Q
  else match c ≫= ch_prob_has_next with
       | Some p =>
           e ← lift (from_option_exn KeyError (c ≫= ch_exp_scale));
           t0 ← now;
           mret (probability_of_future_arrival np_exp p e (t0 - la))
       | None => mret la
       end.

(** The key of a block in the sorted container. *)
Definition sd_key (sc la : Q) (b : Z) : key := [sc; la; inject_Z b].
Definition block_key (b : Z) (m : BlockMetaData) : key :=
  sd_key (score m) (last_accessed m) b.

Definition set_score (m : BlockMetaData) (sc : Q) : BlockMetaData :=
  MkBlockMetaData (content_hash m) (num_hashed_tokens m) (last_accessed m)
    (block_cache_hint m) sc.

(** The loop of [_rebuild_sorted_dict]; the scores it has set stay set when
    one cannot be computed. *)
Fixpoint rebuild_loop (bs : list Z) (acc : D) : M t D :=
  match bs with
  | [] => mret acc
  | b :: bs' =>
      s ← get;
      match free_table s !! b with
      | None => raise KeyError
      | Some m =>
          sc ← calc_score b (last_accessed m) (block_cache_hint m);
          modify (fun s => with_free s (<[b := set_score m sc]> (free_table s))) ;;
          rebuild_loop bs' (sd_set (sd_key sc (last_accessed m) b) (b, content_hash m) acc)
      end
  end.

Definition rebuild_sorted_dict : M t unit :=
  s ← get;
  d ← rebuild_loop (keys (free_table s)) sd_empty;
  modify (fun s => with_sorted s d).

(** *** RRIP ageing *)

Definition age_values (s : t) : gmap Z Z :=
  foldl (fun acc '(b, m) =>
           if bool_decide (get_policy s (block_cache_hint m) = "rrip"%string)
           then <[b := Z.min RRIP_MAX_RRPV (default RRIP_INSERT_RRPV (acc !! b) + 1)]> acc
           else acc)
    (rrip_values s) (items (free_table s)).

Definition age_rrip_blocks : M t unit :=
  modify (fun s => with_rrip s (age_values s)) ;;
  rebuild_sorted_dict.

(** *** The container's first live entry *)

Definition is_live (s : t) (k : key) (b : Z) : bool :=
  match free_table s !! b, k with
  | Some m, sc :: la :: _ => Qeq_bool (score m) sc && Qeq_bool (last_accessed m) la
  | _, _ => false
  end.

Fixpoint peek_loop (fuel : nat) : M t (option (Z * Z)) := fun s =>
  match sd_first (sorted_dict s) with
  | None => (Ok None, s)
  | Some (k, (b, h)) =>
      if is_live s k b then (Ok (Some (b, h)), s)
      else match fuel with
           | O => (Err OutOfFuel, s)
           | S fuel' => peek_loop fuel' (with_sorted s (sd_del k (sorted_dict s)))
           end
  end.

Definition peek_valid_candidate : M t (option (Z * Z)) := fun s =>
  peek_loop (sd_len (sorted_dict s)) s.

Definition remove_from_sorted_dict (b : Z) : M t unit := fun s =>
  match free_table s !! b with
  | None => (Err KeyError, s)
  | Some m =>
      match sd_get (block_key b m) (sorted_dict s) with
      | Some _ => (Ok tt, with_sorted s (sd_del (block_key b m) (sorted_dict s)))
      | None => (Err ValueError, s)
      end
  end.

(** *** [evict] *)

Definition record_survival (la : Q) : M t unit :=
  t0 ← now;
  modify (fun s => with_stat s (CacheStat.append "survival_times" (t0 - la) (stat s))).

Definition drop_block (b : Z) (s : t) : t :=
  with_first (with_free s (delete b (free_table s))) (delete b (id_to_first_access s)).

Definition evict_pdp : M t (Z * Z) :=
  s ← get;
  match py_min (pdp_victim_key (pdp s)) (items (free_table s)) with
  | None => raise ValueError
  | Some (b, m) =>
      record_survival (last_accessed m) ;;
      remove_from_sorted_dict b ;;
      modify (fun s => drop_block b (with_pdp s (pdp_forget (content_hash m) b (pdp s)))) ;;
      mret (b, content_hash m)
  end.

(** The [while True] that picks the victim: the blocks marked outdated first,
    then the container's first live entry, ageing while RRIP asks for it. *)
Fixpoint select_victim (fuel : nat) : M t (Z * Z) :=
  match fuel with
  | O => raise OutOfFuel
  | S fuel' =>
      s ← get;
      match to_delete_blocks s with
      | (b, h, la) :: rest =>
          modify (fun s => with_stack s rest) ;;
          match free_table s !! b with
          | Some m => if Qeq_bool (last_accessed m) la then mret (b, h)
                      else select_victim fuel'
          | None => select_victim fuel'
          end
      | [] =>
          o ← peek_valid_candidate;
          match o with
          | None => raise ValueError
          | Some (b, h) =>
              s1 ← get;
              if bool_decide (get_policy s1 (free_table s1 !! b ≫= block_cache_hint)
                              = "rrip"%string)
                 && (default RRIP_INSERT_RRPV (rrip_values s1 !! b) <? RRIP_MAX_RRPV)
              then age_rrip_blocks ;; select_victim fuel'
              else remove_from_sorted_dict b ;; mret (b, h)
          end
      end
  end.

Definition finish_evict (b h : Z) : M t (Z * Z) :=
  s ← get;
  match free_table s !! b with
  | None => raise ValueError
  | Some m =>
      record_survival (last_accessed m) ;;
      (if bool_decide (get_policy s (block_cache_hint m) = "rrip"%string)
       then modify (fun s => with_rrip s (delete b (rrip_values s))) else mret tt) ;;
      modify (drop_block b) ;;
      mret (b, h)
  end.

(** Enough for every marked block, the ageing rounds and the last look. *)
Definition evict_fuel (s : t) : nat := (length (to_delete_blocks s) + 4)%nat.

Definition evict : M t (Z * Z) :=
  s ← get;
  match items (free_table s) with
  | [] => raise ValueError
  | (_, m) :: _ =>
      if bool_decide (get_policy s (block_cache_hint m) = "pdp"%string) then evict_pdp
      else
        r ← select_victim (evict_fuel s);
        finish_evict r.1 r.2
  end.

(** *** [_refresh] marks the blocks whose conversation has moved on *)

Definition hint_id (c : option cache_hint) : result Z :=
  match c with
  | None => Err TypeError
  | Some h => from_option_exn KeyError (ch_id h)
  end.

Fixpoint survival_list (l : list (Z * BlockMetaData)) : result (list (Z * Z * Q)) :=
  match l with
  | [] => Ok []
  | (b, m) :: l' =>
      i ← hint_id (block_cache_hint m);
      r ← survival_list l';
      Ok ((b, i, last_accessed m) :: r)
  end.

Definition survival_key (x : Z * Z * Q) : key :=
  let '(_, i, la) := x in [la; inject_Z i].

Fixpoint mark_outdated (l : list (Z * Z * Q)) : M t unit :=
  match l with
  | [] => mret tt
  | (b, i, la) :: l' =>
      s ← get;
      match free_table s !! b with
      | None => raise KeyError
      | Some m =>
          if bool_decide (get_policy s (block_cache_hint m) ∈ ["rrip"; "pdp"]%string)
          then mark_outdated l'
          else
            t0 ← lift (from_option_exn KeyError (id_to_last_access s !! i));
            (if Qeq_bool t0 (last_accessed m) then mret tt
             else modify (fun s => with_stack s
                            ((b, content_hash m, last_accessed m) :: to_delete_blocks s))) ;;
            mark_outdated l'
      end
  end.

Definition refresh : M t unit :=
  rebuild_sorted_dict ;;
  t0 ← now;
  modify (fun s => with_refresh_time s t0) ;;
  s ← get;
  l ← lift (survival_list (items (free_table s)));
  mark_outdated (py_sorted survival_key l).

(** *** [add], [update], [remove] *)

Definition pdp_add (b h : Z) (s : t) : t :=
  let p := pdp s in
  let hashes := match free_table s !! b with
                | Some old => forget_hash (content_hash old) b (content_hash_to_block_id p)
                | None => content_hash_to_block_id p
                end in
  with_pdp s (pdp_blocks p
    (<[b := request_epoch p + protecting_distance p]> (protected_until_epoch p))
    (<[b := bool_decide (is_Some (last_seen_epoch p !! h))]> (reused p))
    (<[b := default (request_epoch p) (last_seen_epoch p !! h)]> (last_access_epoch p))
    (<[h := b]> hashes)).

(** The block's new entry in the table and in the container. *)
Definition index_block (b : Z) (m : BlockMetaData) (s : t) : t :=
  with_sorted (with_free s (<[b := m]> (free_table s)))
    (sd_set (block_key b m) (b, content_hash m) (sorted_dict s)).

Definition note_last_access (c : option cache_hint) (la : Q) : M t unit :=
  i ← lift (hint_id c);
  modify (fun s => with_last s (<[i := la]> (id_to_last_access s))).

Definition prepare_add (b h : Z) (la : Q) (c : option cache_hint) (s : t) : t :=
  let policy := get_policy s c in
  let s1 := if bool_decide (policy = "rrip"%string)
               && bool_decide (rrip_values s !! b = None)
            then with_rrip s (<[b := RRIP_INSERT_RRPV]> (rrip_values s)) else s in
  let s2 := if bool_decide (policy = "pdp"%string) then pdp_add b h s1 else s1 in
  if bool_decide (id_to_first_access s2 !! b = None)
  then with_first s2 (<[b := la]> (id_to_first_access s2)) else s2.

Definition add (b h tokens : Z) (la : Q) (c0 : option cache_hint) : M t unit :=
  s ← get;
  c ← lift (bind_scheduler_policy s c0);
  modify (prepare_add b h la c) ;;
  sc ← calc_score b la c;
  modify (index_block b (MkBlockMetaData h tokens la c sc)) ;;
  note_last_access c la ;;
  t0 ← now;
  s ← get;
  if Qltb INSPECT_INTERVAL (t0 - last_refresh_time s) then refresh else mret tt.

Definition update (b : Z) (la : Q) (c0 : option cache_hint) : M t unit :=
  s ← get;
  if has (free_table s) b then
    c ← lift (bind_scheduler_policy s c0);
    remove_from_sorted_dict b ;;
    modify (fun s =>
      let policy := get_policy s c in
      if bool_decide (policy = "rrip"%string)
      then with_rrip s (<[b := RRIP_HIT_RRPV]> (rrip_values s))
      else if bool_decide (policy = "pdp"%string) then pdp_protect_block b true s else s) ;;
    sc ← calc_score b la c;
    modify (fun s =>
      match free_table s !! b with
      | Some m => index_block b
                    (MkBlockMetaData (content_hash m) (num_hashed_tokens m) la c sc) s
      | None => s
      end) ;;
    note_last_access c la
  else raise ValueError.

Definition remove (b : Z) : M t unit :=
  s ← get;
  match free_table s !! b with
  | None => raise ValueError
  | Some m =>
      modify (fun s =>
        let policy := get_policy s (block_cache_hint m) in
        if bool_decide (policy = "rrip"%string)
        then with_rrip s (<[b := RRIP_HIT_RRPV]> (rrip_values s))
        else if bool_decide (policy = "pdp"%string)
        then with_pdp s (pdp_forget (content_hash m) b (pdp s)) else s) ;;
      remove_from_sorted_dict b ;;
      modify (fun s => with_free s (delete b (free_table s)))
  end.

(** *** Observation and the switch to the scheduler's choice *)

Definition set_capacity (cap : Z) : M t unit := fun s =>
  let '(r, sch) := Scheduler.set_capacity np_exp sched_clk cap (scheduler s) in
  (r, with_scheduler s sch).

(** The hint of a block once the policy is fixed. *)
Definition rebound_hint (h : cache_hint) (policy : string) : cache_hint :=
  CacheHint (ch_id h) (ch_turns h) (ch_seq_id h) None None None (Some policy)
    (ch_next_timestamp h) (ch_prob_has_next h) (ch_exp_scale h).

Definition rebind_block (policy : string) (b : Z) : M t unit := fun s =>
  match free_table s !! b with
  | None => (Err KeyError, s)
  | Some m =>
      match block_cache_hint m with
      | None => (Err TypeError, s)
      | Some h =>
          let m' := MkBlockMetaData (content_hash m) (num_hashed_tokens m) (last_accessed m)
                      (Some (rebound_hint h policy)) (score m) in
          let s1 := with_free s (<[b := m']> (free_table s)) in
          let p := pdp s1 in
          (Ok tt,
           if bool_decide (policy = "rrip"%string)
           then with_rrip s1 (<[b := RRIP_INSERT_RRPV]> (rrip_values s1))
           else if bool_decide (policy = "pdp"%string) then
             with_pdp s1 (pdp_blocks p
               (<[b := request_epoch p + protecting_distance p]> (protected_until_epoch p))
               (<[b := true]> (reused p)) (<[b := request_epoch p]> (last_access_epoch p))
               (<[content_hash m := b]> (content_hash_to_block_id p)))
           else s1)
      end
  end.

(** The protecting distance the [pdp] shadow has learnt. *)
Definition shadow_pd (s : t) : option Z :=
  c ← Scheduler.shadow_caches (scheduler s) !! "pdp"%string;
  ShadowPolicyCache.pdp_protecting_distance <$> ShadowPolicyCache.pdp c.

Definition seed_pdp (s : t) : t :=
  let p := pdp_with_pd (pdp s) (default (protecting_distance (pdp s)) (shadow_pd s)) in
  with_pdp s (pdp_blocks p (protected_until_epoch p) (reused p) (last_access_epoch p) ∅).

Definition rebind_scheduler_policy_for_existing_blocks : M t unit :=
  s ← get;
  if Scheduler.enabled (scheduler s) then
    let policy := Scheduler.current_policy (scheduler s) in
    modify (fun s => with_rrip s ∅) ;;
    (if bool_decide (policy = "pdp"%string) then modify seed_pdp else mret tt) ;;
    for_each (keys (free_table s)) (rebind_block policy) ;;
    modify (fun s => with_stack s []) ;;
    rebuild_sorted_dict
  else mret tt.

Definition observe_cache_access (h : Z) (c : option cache_hint) (real_hit : option bool)
    : M t unit := fun s =>
  if Scheduler.enabled (scheduler s) && negb (Scheduler.finalized (scheduler s)) then
    let '(r, sch) := Scheduler.observe np_exp sched_clk h c real_hit (scheduler s) in
    let s1 := with_scheduler s sch in
    match r with
    | Err x => (Err x, s1)
    | Ok true => rebind_scheduler_policy_for_existing_blocks s1
    | Ok false => (Ok tt, s1)
    end
  else if pdp_selected s then pdp_observe h real_hit s
  else (Ok tt, s).
End Methods.
End Evictor.
Arguments t D : clear implicits.
End LRUML.
