(* ===== verification/LRUMLCorrect.v ===== *)
(** * The learned evictor keeps its candidates indexed

    The invariant of [LRUMLEvictor]: whatever stale entries the sorted
    container holds, every free block has its current entry in it; with it,
    [evict] always finds a victim. *)
From S2P Require Import Prelude.
From S2P Require Import PyDict.
From S2P Require Import ShadowPolicyCache.
From S2P Require Import PolicyScheduler.
From S2P Require Import SortedDict.
From S2P Require Import EvictorBase.
From S2P Require Import LRUMLEvictor.
Import LRUML.

Section Correct.
Context {D : Type} `{!SortedDict D (Z * Z)} {sd_ok : D -> Prop}
  `{!SortedDictLaws D (Z * Z) sd_ok}.
Variables (np_exp : Q -> Q) (clk sched_clk : nat -> Q).
Implicit Types (s : t D).

(** A hint whose block can be scored. *)
Definition scorable s (c : option cache_hint) : Prop :=
  (get_policy s c = "belady"%string -> is_Some (c ≫= ch_next_timestamp)) /\
  (is_Some (c ≫= ch_prob_has_next) -> is_Some (c ≫= ch_exp_scale)).

(** What makes a hint scorable whatever the scheduler does. *)
Definition complete_hint (c : option cache_hint) : Prop :=
  match c with
  | None => True
  | Some h =>
      (is_Some (ch_prob_has_next h) -> is_Some (ch_exp_scale h)) /\
      (ch_scheduler_policy h = Some "belady"%string -> is_Some (ch_next_timestamp h))
  end.
Definition sched_ok (x : Scheduler.t) : Prop :=
  Scheduler.config_ok x /\ Scheduler.current_policy x <> "belady"%string.

Lemma complete_scorable s c : complete_hint c -> sched_ok (scheduler s) -> scorable s c.
Proof.
  destruct c as [h|]; [|by intros _ _; split; [|intros [? ?]]].
  intros [Hp Hb] [_ Hs]. split; [|done]. unfold get_policy. cbn.
  do 3 (destruct (truthy_int _); [done|]).
  destruct (truthy_str (ch_scheduler_policy h)) eqn:Ht.
  - destruct (ch_scheduler_policy h) as [p|]; [|done]. cbn. intros ->. by apply Hb.
  - destruct (Scheduler.enabled _); [by intros ?|]. by destruct (ch_next_timestamp h).
Qed.

(** The block has its current entry in the container. *)
Definition indexed (d : D) (b : Z) (m : BlockMetaData) : Prop :=
  sd_get (block_key b m) d = Some (b, content_hash m).

(** Entries are filed under the id they name. *)
Definition keyed (d : D) : Prop :=
  forall k v, sd_get k d = Some v ->
    exists sc la, key_eqb k (sd_key sc la v.1) = true.

(** The invariant, up to the blocks [P] excepts from being indexed. *)
Record ml_wf_except (P : Z -> Prop) s : Prop := {
  mw_dict : wf_dict (free_table s);
  mw_sd : sd_ok (sorted_dict s);
  mw_indexed : forall b m, ~ P b -> free_table s !! b = Some m -> indexed (sorted_dict s) b m;
  mw_keyed : keyed (sorted_dict s);
  mw_first : forall b, is_Some (free_table s !! b) -> is_Some (id_to_first_access s !! b);
  mw_rrip : forall b r, rrip_values s !! b = Some r -> 0 <= r <= RRIP_MAX_RRPV;
  mw_complete : forall b m, free_table s !! b = Some m -> complete_hint (block_cache_hint m);
  mw_sched : sched_ok (scheduler s)
}.
Definition ml_wf : t D -> Prop := ml_wf_except (fun _ => False).

Lemma wf_indexed s b m : ml_wf s -> free_table s !! b = Some m -> indexed (sorted_dict s) b m.
Proof. intros H. apply (mw_indexed _ _ H). by intros []. Qed.

Definition with_ticks s (n : nat) : t D :=
  LRUMLEvictor (free_table s) (sorted_dict s) (id_to_last_access s) (id_to_first_access s)
    (rrip_values s) (to_delete_blocks s) (stat s) (last_refresh_time s) (scheduler s)
    (pdp s) n.

Lemma with_ticks_id s : with_ticks s (ticks s) = s.
Proof. by destruct s. Qed.

Lemma sd_key_eqb sc la b sc' la' b' :
  key_eqb (sd_key sc la b) (sd_key sc' la' b') = true <->
  (sc == sc')%Q /\ (la == la')%Q /\ b = b'.
Proof.
  unfold sd_key. cbn. rewrite !andb_true_iff, !Qeqb_eq, inject_Z_injective. tauto.
Qed.

Lemma sd_key_ne sc la b sc' la' b' :
  b <> b' -> key_eqb (sd_key sc la b) (sd_key sc' la' b') = false.
Proof. intros Hne. apply not_true_iff_false. rewrite sd_key_eqb. by intros (_ & _ & ?). Qed.

(** *** Scoring *)

Lemma calc_score_ok b la c s :
  scorable s c -> is_Some (id_to_first_access s !! b) ->
  exists sc n, calc_score np_exp clk b la c s = (Ok sc, with_ticks s n).
Proof.
  intros [Hb Hp] [f Hf].
  assert (H0 : forall q : Q, exists sc n, (Ok q, s) = (Ok sc, with_ticks s n)).
  { intros q. exists q, (ticks s). by rewrite with_ticks_id. }
  unfold calc_score. rewrite (bind_step get _ s s s) by done. cbv zeta.
  repeat (case_bool_decide as Hpol; [try apply H0|clear Hpol]).
  - unfold lift. rewrite Hf. apply H0.
  - rewrite bind_run. unfold lift. destruct (Hb Hpol) as [x Hx]. rewrite Hx. apply H0.
  - destruct (c ≫= ch_prob_has_next) as [p|] eqn:E; [|apply H0].
    rewrite bind_run. unfold lift. destruct Hp as [e He]; [by eexists|]. rewrite He.
    cbn. by do 2 eexists.
Qed.

(** *** Rebuilding *)

(** Only scores (and the clock, and the container) differ. *)
Record rescored s s' : Prop := {
  rs_keys : keys (free_table s') = keys (free_table s);
  rs_block : forall b m', free_table s' !! b = Some m' ->
    exists m, free_table s !! b = Some m /\ m' = set_score m (score m');
  rs_last : id_to_last_access s' = id_to_last_access s;
  rs_first : id_to_first_access s' = id_to_first_access s;
  rs_rrip : rrip_values s' = rrip_values s;
  rs_stack : to_delete_blocks s' = to_delete_blocks s;
  rs_stat : stat s' = stat s;
  rs_sched : scheduler s' = scheduler s;
  rs_pdp : pdp s' = pdp s
}.

Lemma set_score_id m : m = set_score m (score m).
Proof. by destruct m. Qed.

Lemma rescored_refl s n : rescored s (with_ticks s n).
Proof. split; try done. intros b m Hm. exists m. split; [done|apply set_score_id]. Qed.

Lemma rescored_trans s1 s2 s3 : rescored s1 s2 -> rescored s2 s3 -> rescored s1 s3.
Proof.
  intros [? H ? ? ? ? ? ? ?] [? H' ? ? ? ? ? ? ?]. split; try congruence.
  intros b m3 Hm3. destruct (H' b m3 Hm3) as (m2 & Hm2 & ->).
  destruct (H b m2 Hm2) as (m1 & Hm1 & ->). by exists m1.
Qed.

Lemma get_policy_sched s s' c : scheduler s' = scheduler s -> get_policy s' c = get_policy s c.
Proof. intros H. unfold get_policy. by rewrite H. Qed.

Lemma scorable_sched s s' c : scheduler s' = scheduler s -> scorable s c -> scorable s' c.
Proof. intros H [H1 H2]. split; [|done]. by rewrite (get_policy_sched _ _ _ H). Qed.

Lemma rescored_one s b m sc :
  free_table s !! b = Some m ->
  rescored s (with_free s (<[b := set_score m sc]> (free_table s))).
Proof.
  intros Hb. split; try done; cbn.
  - rewrite keys_insert, decide_True; [done|]. apply elem_of_keys. by eexists.
  - intros j m'. rewrite dict_lookup_insert. case_decide.
    + intros [= <-]. subst. by exists m.
    + intros Hj. exists m'. split; [done|apply set_score_id].
Qed.

(** The keys that do not belong to a block being rebuilt are left alone. *)
Definition agree_off (bs : list Z) (d d' : D) : Prop :=
  forall sc la b, b ∉ bs -> sd_get (sd_key sc la b) d' = sd_get (sd_key sc la b) d.

Lemma keyed_set k sc la b h d :
  k = sd_key sc la b -> keyed d -> keyed (sd_set k (b, h) d).
Proof.
  intros -> Hd j v. rewrite sd_get_set. destruct (key_eqb _ j) eqn:E; [|apply Hd].
  intros [= <-]. exists sc, la. by rewrite key_eqb_sym.
Qed.

Lemma rebuild_loop_ok bs : forall acc s,
  wf_dict (free_table s) -> sd_ok acc -> keyed acc ->
  (forall b, b ∈ bs -> exists m, free_table s !! b = Some m /\
     scorable s (block_cache_hint m) /\ is_Some (id_to_first_access s !! b)) ->
  exists acc' s', rebuild_loop np_exp clk bs acc s = (Ok acc', s') /\ rescored s s' /\
    sorted_dict s' = sorted_dict s /\ sd_ok acc' /\ keyed acc' /\ agree_off bs acc acc' /\
    (forall b, b ∉ bs -> free_table s' !! b = free_table s !! b) /\
    forall b m, b ∈ bs -> free_table s' !! b = Some m -> indexed acc' b m.
Proof.
  induction bs as [|b bs IH]; intros acc s Hwf Hok Hkey Hbs; cbn [rebuild_loop].
  { exists acc, s. split; [done|]. split; [rewrite <- (with_ticks_id s) at 2; apply rescored_refl|].
    do 4 (split; [done|]). split; [done|]. by intros b m ?%elem_of_nil. }
  destruct (Hbs b) as (m & Hm & Hsc & Hf); [left|].
  destruct (calc_score_ok b (last_accessed m) (block_cache_hint m) s Hsc Hf) as (sc & n & Hcs).
  rewrite (bind_step get _ s s s), Hm, (bind_step _ _ _ _ _ Hcs) by done.
  rewrite (bind_step (modify _) _ _ tt _ eq_refl). cbn [free_table with_ticks].
  set (s1 := with_free (with_ticks s n) _).
  assert (Hr1 : rescored s s1).
  { eapply rescored_trans; [apply (rescored_refl s n)|exact (rescored_one (with_ticks s n) b m sc Hm)]. }
  destruct (IH (sd_set (sd_key sc (last_accessed m) b) (b, content_hash m) acc) s1)
    as (acc' & s' & Hrun & Hr & Hd & Hok' & Hkey' & Hag & Hoff & Hin); clear IH.
  - by apply wf_insert.
  - by apply sd_ok_set.
  - by eapply keyed_set.
  - intros j Hj. destruct (Hbs j) as (mj & Hmj & Hsj & Hfj); [by right|]. cbn.
    rewrite dict_lookup_insert. case_decide; [|by exists mj].
    subst j. rewrite Hm in Hmj. injection Hmj as <-. by eexists.
  - exists acc', s'. split; [exact Hrun|]. split; [by eapply rescored_trans|].
    split; [done|]. split; [done|]. split; [done|]. split; [|split].
    + intros sc' la' j Hj. rewrite not_elem_of_cons in Hj. destruct Hj as [Hne Hj].
      rewrite Hag by done. rewrite sd_get_set, sd_key_ne; [done|congruence].
    + intros j Hj. rewrite not_elem_of_cons in Hj. destruct Hj as [Hne Hj].
      rewrite Hoff by done. cbn. by rewrite dict_lookup_insert_ne.
    + intros j mj Hj Hmj. destruct (decide (j ∈ bs)) as [Hjs|Hjs]; [by apply Hin|].
      apply elem_of_cons in Hj as [->|?]; [|done].
      rewrite Hoff in Hmj by done. cbn in Hmj. rewrite dict_lookup_insert_eq in Hmj.
      injection Hmj as <-. unfold indexed, block_key. cbn. rewrite Hag by done.
      by rewrite sd_get_set, key_eqb_refl.
Qed.

Lemma rebuild_ok P s :
  ml_wf_except P s ->
  exists s', rebuild_sorted_dict np_exp clk s = (Ok tt, s') /\ rescored s s' /\ ml_wf s'.
Proof.
  intros [Hwf Hsd Hidx Hkey Hfirst Hrrip Hsc Hsch].
  unfold rebuild_sorted_dict. rewrite (bind_step get _ s s s) by done.
  destruct (rebuild_loop_ok (keys (free_table s)) sd_empty s)
    as (d & s1 & Hrun & Hr & Hd & Hok & Hkey' & _ & _ & Hin).
  - done.
  - apply sd_ok_empty.
  - intros k v. by rewrite sd_get_empty.
  - intros b Hb%elem_of_keys. destruct Hb as [m Hm]. exists m.
    split; [done|]. split; [|apply Hfirst; by eexists].
    apply complete_scorable; [by eapply Hsc|done].
  - rewrite (bind_step _ _ _ _ _ Hrun). eexists. split; [done|]. destruct Hr as [R1 R2 R3 R4 R5 R6 R7 R8 R9].
    assert (Hr : rescored s (with_sorted s1 d)) by by split.
    split; [done|]. split; cbn.
    + unfold wf_dict. by rewrite R1.
    + done.
    + intros b m _ Hm. apply Hin; [|done]. rewrite <- R1. apply elem_of_keys. by eexists.
    + done.
    + intros b Hb%elem_of_keys. rewrite R1 in Hb. rewrite R4.
      by apply Hfirst, elem_of_keys.
    + rewrite R5. done.
    + intros b m Hm. destruct (R2 b m Hm) as (m0 & Hm0 & ->). cbn.
      by eapply Hsc.
    + by rewrite R8.
Qed.

(** *** Looking for a live entry *)

Lemma wf_with_sorted P Q s d :
  ml_wf_except P s -> sd_ok d -> keyed d ->
  (forall b m, ~ Q b -> free_table s !! b = Some m -> indexed d b m) ->
  ml_wf_except Q (with_sorted s d).
Proof. intros [H1 H2 H3 H4 H5 H6 H7 H8] Hd Hk Hi. by split. Qed.

Lemma keyed_del k d : sd_ok d -> keyed d -> keyed (sd_del k d).
Proof.
  intros Hok Hd j v. rewrite sd_get_del by done. destruct (key_eqb k j); [done|apply Hd].
Qed.

Lemma key_eqb_sd_key k sc la b :
  key_eqb k (sd_key sc la b) = true ->
  exists sc' la' x, k = [sc'; la'; x] /\ (sc' == sc)%Q /\ (la' == la)%Q.
Proof.
  destruct k as [|x [|y [|z [|w k]]]]; cbn; rewrite ?andb_false_r; try done.
  rewrite !andb_true_iff, !Qeqb_eq. intros (? & ? & _). by exists x, y, z.
Qed.

Lemma is_live_spec s k v :
  keyed (sorted_dict s) -> sd_get k (sorted_dict s) = Some v ->
  is_live s k v.1 = true <->
  exists m, free_table s !! v.1 = Some m /\ key_eqb k (block_key v.1 m) = true.
Proof.
  intros Hkey Hk. destruct (Hkey k v Hk) as (sc & la & He).
  destruct (key_eqb_sd_key _ _ _ _ He) as (sc' & la' & x & -> & _ & _).
  unfold is_live, block_key, sd_key in *. cbn in He |- *.
  rewrite !andb_true_iff, !Qeqb_eq in He. destruct He as (_ & _ & Hx & _).
  destruct (free_table s !! v.1) as [m|].
  - rewrite andb_true_iff, !Qeqb_eq. split.
    + intros [? ?]. exists m. split; [done|].
      rewrite !andb_true_iff, !Qeqb_eq. by repeat split.
    + intros (m' & [= <-] & Hm). rewrite !andb_true_iff, !Qeqb_eq in Hm.
      destruct Hm as (? & ? & _). by split.
  - split; [done|]. by intros (m & ? & _).
Qed.

(** The block with the least entry. *)
Definition least s (b : Z) (m : BlockMetaData) : Prop :=
  free_table s !! b = Some m /\
  forall b' m', free_table s !! b' = Some m' ->
    key_leb (block_key b m) (block_key b' m') = true.

Lemma peek_loop_ok fuel s :
  ml_wf s -> (sd_len (sorted_dict s) <= fuel)%nat -> items (free_table s) <> [] ->
  exists b m d, peek_loop fuel s = (Ok (Some (b, content_hash m)), with_sorted s d) /\
    ml_wf (with_sorted s d) /\ least s b m.
Proof.
  revert s. induction fuel as [|fuel IH]; intros s Hs Hlen Hne; cbn [peek_loop];
    destruct (sd_first (sorted_dict s)) as [[k [b h]]|] eqn:Hfst.
  1: { pose proof (sd_len_del_first _ _ _ Hfst). lia. }
  2: pose proof Hs as [Hwf Hsd Hidx Hkey _ _ _ _];
     destruct (sd_first_some _ _ _ Hsd Hfst) as [Hk Hmin];
     destruct (is_live s k b) eqn:Hl.
  2: { apply (is_live_spec s k (b, h) Hkey Hk) in Hl as (m & Hm & He). cbn in Hm, He.
       pose proof (wf_indexed _ _ _ Hs Hm) as Hi.
       rewrite (sd_get_eqb _ _ _ He) in Hk. rewrite Hi in Hk. injection Hk as <-.
       assert (Hid : with_sorted s (sorted_dict s) = s) by by destruct s.
       exists b, m, (sorted_dict s). rewrite Hid. split; [done|]. split; [done|].
       split; [done|]. intros b' m' Hm'.
       eapply key_leb_trans; [|apply (Hmin _ _ (wf_indexed _ _ _ Hs Hm'))].
       apply key_eqb_leb. by rewrite key_eqb_sym. }
  2: { destruct (IH (with_sorted s (sd_del k (sorted_dict s)))) as (b' & m & d & Hp & Hw & Hle).
       - eapply (wf_with_sorted (fun _ => False)); [done|by apply sd_ok_del|by apply keyed_del|].
         intros b' m' _ Hm'. unfold indexed. rewrite sd_get_del by done.
         destruct (key_eqb k (block_key b' m')) eqn:He; [|by apply wf_indexed].
         pose proof (wf_indexed _ _ _ Hs Hm') as Hi.
         rewrite (sd_get_eqb _ _ _ He) in Hk. rewrite Hi in Hk. injection Hk as -> <-.
         assert (Hl' : is_live s k b = true); [|congruence].
         apply (is_live_spec s k (b, content_hash m') Hkey); [by rewrite (sd_get_eqb _ _ _ He), Hi|].
         by exists m'.
       - cbn. pose proof (sd_len_del_first _ _ _ Hfst). lia.
       - done.
       - exists b', m, d. by split. }
  all: exfalso; pose proof Hs as [Hwf Hsd Hidx _ _ _ _ _];
    destruct (items (free_table s)) as [|[b m] l] eqn:Hi; [done|];
    assert (Hb : free_table s !! b = Some m)
      by (apply elem_of_items; [done|]; rewrite Hi; left);
    pose proof (wf_indexed _ _ _ Hs Hb) as Hx; unfold indexed in Hx;
    by rewrite (sd_first_none _ Hfst) in Hx.
Qed.

Lemma remove_from_sorted_ok s b m :
  ml_wf s -> free_table s !! b = Some m ->
  exists d, remove_from_sorted_dict b s = (Ok tt, with_sorted s d) /\
    ml_wf_except (eq b) (with_sorted s d).
Proof.
  intros Hs Hb. pose proof Hs as [Hwf Hsd Hidx Hkey _ _ _ _].
  unfold remove_from_sorted_dict. rewrite Hb.
  pose proof (wf_indexed _ _ _ Hs Hb) as Hi. unfold indexed in Hi. rewrite Hi.
  eexists. split; [done|].
  eapply wf_with_sorted; [done|by apply sd_ok_del|by apply keyed_del|].
  intros b' m' Hne Hm'. unfold indexed. rewrite sd_get_del by done.
  unfold block_key. rewrite sd_key_ne by done. by apply wf_indexed.
Qed.

(** *** Ageing *)

Definition is_rrip s (m : BlockMetaData) : Prop :=
  get_policy s (block_cache_hint m) = "rrip"%string.

Lemma age_fold_lookup s (l : list (Z * BlockMetaData)) : forall (acc : gmap Z Z) b,
  NoDup l.*1 ->
  foldl (fun acc '(b, m) =>
           if bool_decide (get_policy s (block_cache_hint m) = "rrip"%string)
           then <[b := Z.min RRIP_MAX_RRPV (default RRIP_INSERT_RRPV (acc !! b) + 1)]> acc
           else acc) acc l !! b =
  match assoc l b with
  | Some m => if bool_decide (get_policy s (block_cache_hint m) = "rrip"%string)
              then Some (Z.min RRIP_MAX_RRPV (default RRIP_INSERT_RRPV (acc !! b) + 1))
              else acc !! b
  | None => acc !! b
  end.
Proof.
  induction l as [|[j m] l IH]; intros acc b; [done|].
  rewrite fmap_cons, NoDup_cons. intros [Hj Hnd]. cbn [foldl fst]. rewrite IH by done.
  cbn [assoc]. destruct (decide (j = b)) as [->|Hne].
  - assert (assoc l b = None) as ->.
    { destruct (assoc l b) as [m'|] eqn:E; [|done]. exfalso. apply Hj.
      apply (elem_of_keys (PyDict l)). by exists m'. }
    case_bool_decide; [by rewrite lookup_insert_eq|done].
  - destruct (bool_decide (get_policy s (block_cache_hint m) = _)); [|done].
    by rewrite !lookup_insert_ne by done.
Qed.

Lemma age_values_lookup s b :
  wf_dict (free_table s) ->
  age_values s !! b =
  match free_table s !! b with
  | Some m => if bool_decide (get_policy s (block_cache_hint m) = "rrip"%string)
              then Some (Z.min RRIP_MAX_RRPV (default RRIP_INSERT_RRPV (rrip_values s !! b) + 1))
              else rrip_values s !! b
  | None => rrip_values s !! b
  end.
Proof. intros Hwf. by apply age_fold_lookup. Qed.

(** Every RRIP block is at most [r] rounds from the maximum. *)
Definition within s (r : Z) : Prop :=
  forall b m, free_table s !! b = Some m -> is_rrip s m ->
    RRIP_MAX_RRPV - r <= default RRIP_INSERT_RRPV (rrip_values s !! b).

Lemma within_max s : ml_wf s -> within s RRIP_MAX_RRPV.
Proof.
  intros Hs b m _ _. destruct (rrip_values s !! b) as [r|] eqn:Hr; cbn; [|done].
  destruct (mw_rrip _ _ Hs b r Hr). lia.
Qed.

Lemma age_ok s r :
  ml_wf s -> within s r -> 1 <= r ->
  exists s', age_rrip_blocks np_exp clk s = (Ok tt, s') /\ ml_wf s' /\ within s' (r - 1) /\
    keys (free_table s') = keys (free_table s) /\ to_delete_blocks s' = to_delete_blocks s.
Proof.
  intros Hs Hin Hr1. pose proof Hs as [Hwf Hsd Hidx Hkey Hfirst Hrrip Hsc Hsch].
  unfold age_rrip_blocks. rewrite (bind_step (modify _) _ s tt _ eq_refl).
  set (s1 := with_rrip s (age_values s)).
  assert (Hs1 : ml_wf s1).
  { split; try done. intros b x. cbn. rewrite age_values_lookup by done.
    destruct (free_table s !! b) as [m|]; [|apply Hrrip].
    case_bool_decide; [|apply Hrrip]. intros [= <-].
    destruct (rrip_values s !! b) as [r0|] eqn:Hr0; cbn; [|done].
    destruct (Hrrip b r0 Hr0). unfold RRIP_MAX_RRPV in *. lia. }
  destruct (rebuild_ok _ s1 Hs1) as (s' & Hrun & [R1 R2 R3 R4 R5 R6 R7 R8 R9] & Hs').
  exists s'. split; [done|]. split; [done|]. split; [|by split].
  intros b m Hm Hr. destruct (R2 b m Hm) as (m0 & Hm0 & He). rewrite He in Hr.
  rewrite R5. cbn in *. rewrite age_values_lookup by done. rewrite Hm0.
  unfold is_rrip in Hr. cbn in Hr. rewrite (get_policy_sched _ _ _ R8) in Hr.
  rewrite bool_decide_eq_true_2 by done. cbn.
  specialize (Hin b m0 Hm0 Hr). lia.
Qed.

(** *** Choosing the victim *)

(** The victim was marked outdated, or has the least entry and is not an RRIP
    block that has rounds left. *)
Definition chosen s (b h : Z) : Prop :=
  (exists l1 la l2 m, to_delete_blocks s = l1 ++ (b, h, la) :: l2 /\
     free_table s !! b = Some m /\ (last_accessed m == la)%Q).

Lemma chosen_cons s b h x rest :
  to_delete_blocks s = x :: rest -> chosen (with_stack s rest) b h -> chosen s b h.
Proof.
  intros Hst (l1 & la & l2 & m & Hl & Hm). cbn in Hl. exists (x :: l1), la, l2, m.
  by rewrite Hst, Hl.
Qed.

Lemma wf_with_stack P s l : ml_wf_except P s -> ml_wf_except P (with_stack s l).
Proof. intros [? ? ? ? ? ? ? ?]. by split. Qed.

Lemma select_ok fuel : forall s r,
  ml_wf s -> items (free_table s) <> [] -> within s r -> 0 <= r ->
  Z.of_nat (length (to_delete_blocks s)) + r < Z.of_nat fuel ->
  exists b h s', select_victim np_exp clk fuel s = (Ok (b, h), s') /\
    ml_wf_except (eq b) s' /\ is_Some (free_table s' !! b) /\
    keys (free_table s') = keys (free_table s) /\
    (chosen s b h \/
     exists m, h = content_hash m /\ least s' b m /\ to_delete_blocks s' = [] /\
       (is_rrip s' m -> RRIP_MAX_RRPV <= default RRIP_INSERT_RRPV (rrip_values s' !! b))).
Proof.
  induction fuel as [|fuel IH]; intros s r Hs Hne Hin Hr Hf; [lia|].
  cbn [select_victim]. rewrite (bind_step get _ s s s eq_refl).
  destruct (to_delete_blocks s) as [|[[b h] la] rest] eqn:Hst.
  - (* the container *)
    destruct (peek_loop_ok (sd_len (sorted_dict s)) s Hs (le_n _) Hne)
      as (b & m & d & Hp & Hw & Hle).
    rewrite (bind_step peek_valid_candidate _ _ _ _ Hp).
    set (s1 := with_sorted s d) in *.
    rewrite (bind_step get _ s1 s1 s1 eq_refl).
    assert (Hb : free_table s1 !! b = Some m) by apply Hle. rewrite Hb. cbn [mbind option_bind].
    destruct (bool_decide _ && _) eqn:E.
    + apply andb_true_iff in E as [Hrr%bool_decide_eq_true Hlt%Z.ltb_lt].
      pose proof (Hin b m Hb Hrr) as Hge.
      change (rrip_values s1) with (rrip_values s) in Hlt.
      destruct (age_ok s1 r Hw Hin) as (s2 & Hrun & Hs2 & Hin2 & Hk2 & Hst2); [lia|].
      rewrite (bind_step _ _ _ _ _ Hrun).
      assert (Hne2 : items (free_table s2) <> []).
      { intros Hnil. apply Hne. rewrite <- dlen_zero in *.
        rewrite dlen_keys, Hk2 in Hnil. by rewrite dlen_keys. }
      destruct (IH s2 (r - 1) Hs2 Hne2 Hin2) as (b' & h' & s' & Hrun' & Hw' & Hb' & Hk' & Hc');
        [lia| |].
      { rewrite Hst2. cbn. rewrite Hst. cbn in Hf |- *. lia. }
      exists b', h', s'. split; [done|]. split; [done|]. split; [done|].
      split; [by rewrite Hk', Hk2|]. right. destruct Hc' as [Hc'|Hc']; [|done].
      destruct Hc' as (l1 & la & l2 & m' & Hl & _). rewrite Hst2 in Hl. cbn in Hl.
      rewrite Hst in Hl. by destruct l1.
    + destruct (remove_from_sorted_ok s1 b m Hw Hb) as (d' & Hrun & Hw').
      rewrite (bind_step _ _ _ _ _ Hrun).
      exists b, (content_hash m). eexists. split; [done|]. split; [done|].
      split; [cbn; by eexists|]. split; [done|]. right. exists m.
      split; [done|]. split; [exact Hle|]. split; [done|]. intros Hrr.
      apply andb_false_iff in E as [E|E%Z.ltb_ge]; [|done].
      apply bool_decide_eq_false in E. by destruct E.
  - rewrite (bind_step (modify _) _ s tt _ eq_refl).
    assert (Hrec : exists b0 h0 s', select_victim np_exp clk fuel (with_stack s rest)
              = (Ok (b0, h0), s') /\ ml_wf_except (eq b0) s' /\ is_Some (free_table s' !! b0) /\
              keys (free_table s') = keys (free_table s) /\
              (chosen s b0 h0 \/
               exists m, h0 = content_hash m /\ least s' b0 m /\ to_delete_blocks s' = [] /\
                 (is_rrip s' m -> RRIP_MAX_RRPV <= default RRIP_INSERT_RRPV (rrip_values s' !! b0)))).
    { destruct (IH (with_stack s rest) r) as (b' & h' & s' & H1 & H2 & H3 & H4 & H5);
        [by apply wf_with_stack|done|done|done|cbn in Hf |- *; lia|].
      exists b', h', s'. do 4 (split; [done|]). destruct H5 as [H5|H5]; [left|by right].
      by eapply chosen_cons. }
    destruct (free_table s !! b) as [m|] eqn:Hb; [|exact Hrec].
    destruct (Qeq_bool (last_accessed m) la) eqn:E; [|exact Hrec].
    apply Qeqb_eq in E. exists b, h, (with_stack s rest). split; [done|].
    split. { destruct Hs as [? ? Hi ? ? ? ? ?]. split; try done. intros b' m' _ Hm'.
      cbn in *. by apply Hi; [intros []|]. }
    split; [by eexists|]. split; [done|]. left. by exists [], la, rest, m.
Qed.

(** *** [evict] *)

Lemma wf_drop b s : ml_wf_except (eq b) s -> ml_wf (drop_block b s).
Proof.
  intros [H1 H2 H3 H4 H5 H6 H7 H8].
  assert (Hl : forall j m, delete b (free_table s) !! j = Some m ->
    b <> j /\ free_table s !! j = Some m).
  { intros j m. rewrite dict_lookup_delete. by case_decide. }
  split; cbn; [by apply wf_delete|done| |done| |done| |done].
  - intros j m _ [Hne Hj]%Hl. by apply H3.
  - intros j [m [Hne Hj]%Hl]. rewrite lookup_delete_ne by done. apply H5. by eexists.
  - intros j m [Hne Hj]%Hl. by eapply H7.
Qed.

Lemma wf_frame P s s' :
  free_table s' = free_table s -> sorted_dict s' = sorted_dict s ->
  id_to_first_access s' = id_to_first_access s ->
  (forall b r, rrip_values s' !! b = Some r -> 0 <= r <= RRIP_MAX_RRPV) ->
  scheduler s' = scheduler s -> ml_wf_except P s -> ml_wf_except P s'.
Proof.
  intros E1 E2 E3 Hr E5 [H1 H2 H3 H4 H5 H6 H7 H8].
  split; rewrite ?E1, ?E2, ?E3, ?E5; try done.
Qed.

Lemma wf_delete_rrip P s b : ml_wf_except P s -> ml_wf_except P (with_rrip s (delete b (rrip_values s))).
Proof.
  intros Hs. eapply wf_frame; [..|exact Hs]; try done. cbn.
  intros j r [_ Hj]%lookup_delete_Some.
  by eapply mw_rrip.
Qed.

Lemma wf_insert_rrip P s b r :
  0 <= r <= RRIP_MAX_RRPV -> ml_wf_except P s ->
  ml_wf_except P (with_rrip s (<[b := r]> (rrip_values s))).
Proof.
  intros Hr Hs. eapply wf_frame; [..|exact Hs]; try done. cbn.
  intros j r' [[_ <-]|[_ Hj]]%lookup_insert_Some; [done|]. by eapply mw_rrip.
Qed.

Lemma wf_survival P la s :
  ml_wf_except P s ->
  exists s', record_survival clk la s = (Ok tt, s') /\ ml_wf_except P s' /\
    free_table s' = free_table s /\ sorted_dict s' = sorted_dict s /\
    id_to_first_access s' = id_to_first_access s /\ rrip_values s' = rrip_values s.
Proof. intros Hs. eexists. split; [done|]. split; [|done]. by destruct Hs; split. Qed.

Lemma finish_ok b h s :
  ml_wf_except (eq b) s -> is_Some (free_table s !! b) ->
  exists s', finish_evict clk b h s = (Ok (b, h), s') /\ ml_wf s' /\
    free_table s' = delete b (free_table s).
Proof.
  intros Hs [m Hb]. unfold finish_evict. rewrite (bind_step get _ s s s eq_refl), Hb.
  destruct (wf_survival _ (last_accessed m) s Hs) as (s1 & Hrun & Hw & Ht & _).
  rewrite (bind_step _ _ _ _ _ Hrun). case_bool_decide.
  - rewrite (bind_step (modify _) _ _ tt _ eq_refl).
    rewrite (bind_step (modify _) _ _ tt _ eq_refl).
    eexists. split; [done|]. split; [by apply wf_drop, wf_delete_rrip|]. cbn. by rewrite Ht.
  - rewrite (bind_step (mret tt) _ _ tt _ eq_refl).
    rewrite (bind_step (modify _) _ _ tt _ eq_refl).
    eexists. split; [done|]. split; [by apply wf_drop|]. cbn. by rewrite Ht.
Qed.

Lemma evict_pdp_ok s :
  ml_wf s -> items (free_table s) <> [] ->
  exists b m s', evict_pdp clk s = (Ok (b, content_hash m), s') /\ ml_wf s' /\
    free_table s !! b = Some m /\ free_table s' = delete b (free_table s) /\
    forall b' m', free_table s !! b' = Some m' ->
      key_leb (pdp_victim_key (pdp s) (b, m)) (pdp_victim_key (pdp s) (b', m')) = true.
Proof.
  intros Hs Hne. unfold evict_pdp. rewrite (bind_step get _ s s s eq_refl).
  destruct (py_min_is_Some (pdp_victim_key (pdp s)) _ Hne) as [[b m] Hm]. rewrite Hm.
  apply py_min_spec in Hm as [Hin Hle].
  assert (Hb : free_table s !! b = Some m) by (apply elem_of_items; [apply Hs|done]).
  destruct (wf_survival _ (last_accessed m) s Hs) as (s1 & Hrun & Hw & Ht & _).
  rewrite (bind_step _ _ _ _ _ Hrun).
  destruct (remove_from_sorted_ok s1 b m Hw) as (d & Hrun2 & Hw2); [by rewrite Ht|].
  rewrite (bind_step _ _ _ _ _ Hrun2), (bind_step (modify _) _ _ tt _ eq_refl).
  exists b, m. eexists. split; [done|]. split; [|split; [done|split]].
  - apply wf_drop. by destruct Hw2; split.
  - cbn. by rewrite Ht.
  - intros b' m' Hb'. apply Hle, elem_of_items; [apply Hs|done].
Qed.

Lemma keys_delete_key (tbl tbl' : pydict Z BlockMetaData) b :
  keys tbl' = keys tbl -> keys (delete b tbl') = filter (fun j => j <> b) (keys tbl).
Proof. intros <-. apply keys_delete. Qed.

Lemma evict_ok s :
  ml_wf s -> items (free_table s) <> [] ->
  exists b h s', evict np_exp clk s = (Ok (b, h), s') /\ ml_wf s' /\
    is_Some (free_table s !! b) /\
    keys (free_table s') = filter (fun j => j <> b) (keys (free_table s)).
Proof.
  intros Hs Hne. unfold evict. rewrite (bind_step get _ s s s eq_refl).
  destruct (items (free_table s)) as [|[b0 m0] l] eqn:Hi; [done|]. rewrite <- Hi in Hne.
  case_bool_decide as Hpol.
  - destruct (evict_pdp_ok s Hs Hne) as (b & m & s' & Hrun & Hw & Hb & Ht & _).
    exists b, (content_hash m), s'. split; [done|]. split; [done|].
    split; [by eexists|]. rewrite Ht. apply keys_delete.
  - destruct (select_ok (evict_fuel s) s RRIP_MAX_RRPV Hs Hne (within_max s Hs))
      as (b & h & s1 & Hrun & Hw & Hb & Hk & _).
    { done. } { unfold evict_fuel, RRIP_MAX_RRPV. lia. }
    rewrite (bind_step _ _ _ _ _ Hrun). cbn [fst snd].
    destruct (finish_ok b h s1 Hw Hb) as (s2 & Hrun2 & Hw2 & Ht2).
    exists b, h, s2. split; [done|]. split; [done|].
    split; [by apply elem_of_keys; rewrite <- Hk; apply elem_of_keys|].
    rewrite Ht2. by apply keys_delete_key.
Qed.

Lemma evict_empty s : items (free_table s) = [] -> evict np_exp clk s = (Err ValueError, s).
Proof. intros H. unfold evict. rewrite (bind_step get _ s s s eq_refl). by rewrite H. Qed.

(** *** Every call preserves the invariant *)

Lemma wf_weaken (P : Z -> Prop) s : ml_wf s -> ml_wf_except P s.
Proof.
  intros Hs. pose proof Hs as [? ? ? ? ? ? ? ?]. split; try done.
  intros b m _. by apply wf_indexed.
Qed.

Lemma wf_ticks P s n : ml_wf_except P s -> ml_wf_except P (with_ticks s n).
Proof. by intros [? ? ? ? ? ? ? ?]. Qed.

Lemma wf_index b m s :
  ml_wf_except (eq b) s -> complete_hint (block_cache_hint m) ->
  is_Some (id_to_first_access s !! b) -> ml_wf (index_block b m s).
Proof.
  intros [H1 H2 H3 H4 H5 H6 H7 H8] Hc Hf.
  split; cbn; [by apply wf_insert|by apply sd_ok_set| |by eapply keyed_set| |done| |done].
  - intros j m' _. rewrite dict_lookup_insert. unfold indexed. cbn.
    rewrite sd_get_set. case_decide as Hj.
    + intros [= <-]. subst j. by rewrite key_eqb_refl.
    + intros Hm'. unfold block_key. rewrite sd_key_ne by done. by apply H3.
  - intros j. rewrite dict_lookup_insert. case_decide; [by subst|apply H5].
  - intros j m'. rewrite dict_lookup_insert. case_decide; [by intros [= <-]|apply H7].
Qed.

Lemma bind_policy_complete s c0 c :
  sched_ok (scheduler s) -> complete_hint c0 -> bind_scheduler_policy s c0 = Ok c ->
  complete_hint c.
Proof.
  intros [_ Hs] Hc. unfold bind_scheduler_policy. destruct (Scheduler.enabled _).
  - destruct c0 as [h|]; [|done]. destruct (_ || _); intros [= <-]; [done|].
    destruct Hc as [Hp _]. split; cbn; [done|]. by intros [= ?].
  - by intros [= <-].
Qed.

Lemma rrip_insert_bounds : 0 <= RRIP_INSERT_RRPV <= RRIP_MAX_RRPV.
Proof. done. Qed.
Lemma rrip_hit_bounds : 0 <= RRIP_HIT_RRPV <= RRIP_MAX_RRPV.
Proof. done. Qed.

Lemma prepare_add_ok b h la c s :
  ml_wf s -> ml_wf (prepare_add b h la c s) /\
  is_Some (id_to_first_access (prepare_add b h la c s) !! b) /\
  free_table (prepare_add b h la c s) = free_table s /\
  scheduler (prepare_add b h la c s) = scheduler s.
Proof.
  intros Hs. unfold prepare_add.
  set (s1 := if _ && _ then _ else _).
  assert (H1 : ml_wf s1 /\ free_table s1 = free_table s /\ scheduler s1 = scheduler s /\
               id_to_first_access s1 = id_to_first_access s).
  { unfold s1. destruct (_ && _); [|done]. split; [|done].
    apply wf_insert_rrip; [apply rrip_insert_bounds|done]. }
  clearbody s1. destruct H1 as (Hs1 & <- & <- & Hf1).
  set (s2 := if bool_decide _ then _ else s1).
  assert (H2 : ml_wf s2 /\ free_table s2 = free_table s1 /\ scheduler s2 = scheduler s1).
  { unfold s2. case_bool_decide; [|done]. split; [|done]. by destruct Hs1; split. }
  clearbody s2. destruct H2 as (Hs2 & Ht2 & Hsc2).
  case_bool_decide as Hn; cbn.
  - split; [|split; [by rewrite lookup_insert_eq|done]].
    destruct Hs2 as [? ? ? ? H5 ? ? ?]. split; try done. intros j Hj. cbn.
    destruct (decide (b = j)) as [->|]; [by rewrite lookup_insert_eq|].
    rewrite lookup_insert_ne by done. by apply H5.
  - split; [done|]. split; [|done]. by apply not_eq_None_Some.
Qed.

Lemma preserves_now P : preserves (ml_wf_except P) (now clk).
Proof. intros s Hs. by apply (wf_ticks P s (S (ticks s))). Qed.
Local Hint Resolve preserves_now : pres.

Lemma preserves_rebuild : preserves ml_wf (rebuild_sorted_dict np_exp clk).
Proof. intros s Hs. by destruct (rebuild_ok _ s Hs) as (s' & -> & _ & ?). Qed.

Lemma preserves_mark l : preserves ml_wf (mark_outdated l).
Proof.
  induction l as [|[[b i] la] l IH]; cbn; [auto with pres|].
  apply preserves_bind; [auto with pres|]. intros s.
  destruct (free_table s !! b) as [m|]; [|auto with pres].
  case_bool_decide; [done|]. apply preserves_bind; [auto with pres|]. intros t0.
  apply preserves_bind; [|done]. destruct (Qeq_bool _ _); [auto with pres|].
  apply preserves_modify. intros s' Hs'. by apply wf_with_stack.
Qed.

Lemma preserves_refresh : preserves ml_wf (refresh np_exp clk).
Proof.
  unfold refresh. apply preserves_bind; [apply preserves_rebuild|]. intros _.
  apply preserves_bind; [apply preserves_now|]. intros t0.
  apply preserves_bind.
  { apply preserves_modify. by intros s [? ? ? ? ? ? ? ?]. }
  intros _. apply preserves_bind; [auto with pres|]. intros s.
  apply preserves_bind; [auto with pres|]. intros l. apply preserves_mark.
Qed.

Lemma preserves_note c la : preserves ml_wf (note_last_access c la).
Proof.
  unfold note_last_access. apply preserves_bind; [auto with pres|]. intros i.
  apply preserves_modify. by intros s [? ? ? ? ? ? ? ?].
Qed.

Lemma add_wf b h n la c0 s :
  ml_wf s -> complete_hint c0 -> ml_wf (add np_exp clk b h n la c0 s).2.
Proof.
  intros Hs Hc0. unfold add. rewrite (bind_step get _ s s s eq_refl).
  destruct (bind_scheduler_policy s c0) as [c|e] eqn:Hbind; [|done].
  rewrite (bind_step (lift _) _ s c s eq_refl).
  rewrite (bind_step (modify _) _ _ tt _ eq_refl).
  assert (Hc : complete_hint c).
  { eapply bind_policy_complete; [apply (mw_sched _ _ Hs)|exact Hc0|exact Hbind]. }
  destruct (prepare_add_ok b h la c s Hs) as (Hs1 & Hf & Ht & Hsch).
  set (s1 := prepare_add b h la c s) in *.
  destruct (calc_score_ok b la c s1) as (sc & k & Hcs); [|done|].
  { apply complete_scorable; [done|]. rewrite Hsch. apply (mw_sched _ _ Hs). }
  rewrite (bind_step _ _ _ _ _ Hcs), (bind_step (modify _) _ _ tt _ eq_refl).
  refine (preserves_bind ml_wf _ _ (preserves_note c la) _ _ _).
  - intros _. apply preserves_bind; [apply preserves_now|]. intros t0.
    apply preserves_bind; [auto with pres|]. intros s2.
    destruct (Qltb _ _); [apply preserves_refresh|auto with pres].
  - apply wf_index; [by apply wf_ticks, wf_weaken|done|done].
Qed.

Lemma wf_with_pdp P s p : ml_wf_except P s -> ml_wf_except P (with_pdp s p).
Proof. by intros [? ? ? ? ? ? ? ?]. Qed.

Lemma update_wf b la c0 s :
  ml_wf s -> complete_hint c0 -> ml_wf (update np_exp clk b la c0 s).2.
Proof.
  intros Hs Hc0. unfold update. rewrite (bind_step get _ s s s eq_refl).
  destruct (has (free_table s) b) eqn:Hb; [|done].
  apply has_true in Hb as [m Hb].
  destruct (bind_scheduler_policy s c0) as [c|e] eqn:Hbind; [|done].
  rewrite (bind_step (lift _) _ s c s eq_refl).
  assert (Hc : complete_hint c).
  { eapply bind_policy_complete; [apply (mw_sched _ _ Hs)|exact Hc0|exact Hbind]. }
  destruct (remove_from_sorted_ok s b m Hs Hb) as (d & Hrun & Hs1).
  rewrite (bind_step _ _ _ _ _ Hrun), (bind_step (modify _) _ _ tt _ eq_refl).
  set (s1 := with_sorted s d) in *. cbv zeta.
  set (s2 := if bool_decide _ then _ else _).
  assert (H2 : ml_wf_except (eq b) s2 /\ free_table s2 = free_table s /\
               id_to_first_access s2 = id_to_first_access s /\ scheduler s2 = scheduler s).
  { unfold s2. case_bool_decide; [split; [|done]; by apply wf_insert_rrip|].
    case_bool_decide; [|done]. unfold pdp_protect_block. destruct (has _ _); [|done].
    split; [by apply wf_with_pdp|done]. }
  clearbody s2. destruct H2 as (Hs2 & Ht2 & Hf2 & Hsch2).
  assert (Hf : is_Some (id_to_first_access s2 !! b)).
  { rewrite Hf2. apply (mw_first _ _ Hs). by eexists. }
  destruct (calc_score_ok b la c s2) as (sc & k & Hcs); [|done|].
  { apply complete_scorable; [done|]. rewrite Hsch2. apply (mw_sched _ _ Hs). }
  rewrite (bind_step _ _ _ _ _ Hcs), (bind_step (modify _) _ _ tt _ eq_refl).
  apply preserves_note. cbn [free_table with_ticks]. rewrite Ht2, Hb.
  apply wf_index; [by apply wf_ticks|done|done].
Qed.

Lemma remove_ok b s :
  ml_wf s -> is_Some (free_table s !! b) ->
  exists s', remove b s = (Ok tt, s') /\ ml_wf s' /\
    free_table s' = delete b (free_table s).
Proof.
  intros Hs [m Hb]. unfold remove. rewrite (bind_step get _ s s s eq_refl), Hb.
  rewrite (bind_step (modify _) _ _ tt _ eq_refl). cbv zeta.
  set (s1 := if bool_decide _ then _ else _).
  assert (H1 : ml_wf s1 /\ free_table s1 = free_table s).
  { unfold s1. case_bool_decide; [split; [|done]; by apply wf_insert_rrip|].
    case_bool_decide; [|done]. split; [by apply wf_with_pdp|done]. }
  clearbody s1. destruct H1 as [Hs1 Ht1].
  destruct (remove_from_sorted_ok s1 b m Hs1) as (d & Hrun & Hs2); [by rewrite Ht1|].
  rewrite (bind_step _ _ _ _ _ Hrun). eexists. split; [done|]. split; [|cbn; by rewrite Ht1].
  apply wf_drop in Hs2. destruct Hs2 as [H1 H2 H3 H4 H5 H6 H7 H8]. split; try done.
  intros j Hj. specialize (H5 j Hj). cbn in *.
  destruct (decide (b = j)) as [->|]; [by rewrite lookup_delete_eq in H5; destruct H5|].
  by rewrite lookup_delete_ne in H5.
Qed.

Lemma remove_wf b s : ml_wf s -> ml_wf (remove b s).2.
Proof.
  intros Hs. destruct (free_table s !! b) as [m|] eqn:Hb.
  - by destruct (remove_ok b s Hs) as (s' & -> & ? & _); [by eexists|].
  - unfold remove. rewrite (bind_step get _ s s s eq_refl). by rewrite Hb.
Qed.

Lemma evict_wf s : ml_wf s -> ml_wf (evict np_exp clk s).2.
Proof.
  intros Hs. destruct (decide (items (free_table s) = [])) as [He|Hne].
  - by rewrite evict_empty.
  - by destruct (evict_ok s Hs Hne) as (b & h & s' & -> & ? & _).
Qed.

(** *** The scheduler behind it *)

Lemma wf_with_scheduler s x : ml_wf s -> sched_ok x -> ml_wf (with_scheduler s x).
Proof. intros [? ? ? ? ? ? ? ?] Hx. by split. Qed.

Lemma set_capacity_wf (cap : Z) s : ml_wf s -> ml_wf (set_capacity np_exp sched_clk cap s).2.
Proof.
  intros Hs. unfold set_capacity.
  destruct (Scheduler.set_capacity_frame np_exp sched_clk cap (scheduler s)) as (l & Hl & Hk).
  pose proof (Scheduler.config_ok_set_capacity np_exp sched_clk cap _ (proj1 (mw_sched _ _ Hs))) as Hc.
  destruct (Scheduler.set_capacity _ _ _ _) as [r sch]. cbn in *. subst sch.
  apply wf_with_scheduler; [done|]. split; [done|]. apply (mw_sched _ _ Hs).
Qed.

Lemma policy_not_belady p : p ∈ Scheduler.POLICIES -> p <> "belady"%string.
Proof.
  intros Hp ->. revert Hp. apply (proj1 (bool_decide_eq_false _)). by vm_compute.
Qed.

Lemma observe_sched h c rh x r x' :
  sched_ok x -> Scheduler.observe np_exp sched_clk h c rh x = (r, x') ->
  sched_ok x' /\ (r = Ok true -> Scheduler.enabled x' = true /\
                  Scheduler.current_policy x' ∈ Scheduler.POLICIES).
Proof.
  intros [Hc Hb] Ho.
  pose proof (Scheduler.config_ok_observe np_exp sched_clk h c rh x Hc) as Hc'.
  pose proof (Scheduler.observe_cases np_exp sched_clk h c rh x Hc) as H.
  rewrite Ho in Hc', H. cbn in Hc'.
  destruct H as [He|Hf|r x1 ? ? ? Hcp ? Hne|x1 p Hen ? Hc1 Hcp ? Hd].
  - by split.
  - by split.
  - split; [|done]. split; [done|]. by rewrite Hcp.
  - assert (Hp : p ∈ Scheduler.POLICIES).
    { destruct Hd as [|best|best ? Hin]; [by left|by left|].
      by apply (Scheduler.cok_valid x1 Hc1). }
    split; [split; [done|by apply policy_not_belady]|]. by split.
Qed.

Lemma rebind_block_wf p b : p <> "belady"%string -> preserves ml_wf (rebind_block p b).
Proof.
  intros Hp s Hs. unfold rebind_block. destruct (free_table s !! b) as [m|] eqn:Hb; [|done].
  destruct (block_cache_hint m) as [h|] eqn:Hh; [|done]. cbn.
  set (s1 := with_free _ _).
  assert (Hs1 : ml_wf s1).
  { pose proof Hs as [H1 H2 H3 H4 H5 H6 H7 H8].
    split; cbn; [by apply wf_insert|done| |done| |done| |done].
    - intros j m' _. rewrite dict_lookup_insert. case_decide.
      + intros [= <-]. subst j. by apply wf_indexed in Hb.
      + intros Hj. by apply wf_indexed.
    - intros j. rewrite dict_lookup_insert. case_decide; [|apply H5].
      intros _. subst. apply H5. by eexists.
    - intros j m'. rewrite dict_lookup_insert. case_decide; [|apply H7].
      intros [= <-]. cbn. specialize (H7 b m Hb). rewrite Hh in H7.
      split; [apply H7|]. by intros [= ?]. }
  case_bool_decide; [exact (wf_insert_rrip _ s1 b _ rrip_insert_bounds Hs1)|].
  case_bool_decide; [exact (wf_with_pdp _ s1 _ Hs1)|exact Hs1].
Qed.

Lemma rebind_wf :
  preserves (fun s => ml_wf s) (rebind_scheduler_policy_for_existing_blocks np_exp clk).
Proof.
  intros s Hs. unfold rebind_scheduler_policy_for_existing_blocks.
  rewrite (bind_step get _ s s s eq_refl). destruct (Scheduler.enabled _); [|done].
  refine (preserves_bind ml_wf _ _ _ _ s Hs); [apply preserves_modify|intros _].
  { intros s' Hs'. eapply wf_frame; [..|exact Hs']; done. }
  apply preserves_bind.
  { case_bool_decide; [|auto with pres]. apply preserves_modify.
    intros s' Hs'. by apply wf_with_pdp. }
  intros _. apply preserves_bind.
  { apply preserves_for_each. intros b. apply rebind_block_wf, (mw_sched _ _ Hs). }
  intros _. apply preserves_bind; [|intros _; apply preserves_rebuild].
  apply preserves_modify. intros s' Hs'. by apply wf_with_stack.
Qed.

Lemma pdp_observe_wf h rh : preserves ml_wf (pdp_observe h rh).
Proof.
  intros s Hs. unfold pdp_observe.
  destruct (match last_seen_epoch (pdp s) !! h with Some _ => _ | None => _ end) as [n|x];
    [|by apply wf_with_pdp].
  set (s1 := with_pdp s _). assert (Hs1 : ml_wf s1) by by apply wf_with_pdp. clearbody s1.
  set (s2 := match _ with Some _ => _ | None => s1 end).
  assert (Hs2 : ml_wf s2).
  { unfold s2. destruct (_ !! h); [|done]. unfold pdp_protect_block.
    destruct (has _ _); [by apply wf_with_pdp|done]. }
  clearbody s2. destruct (_ =? 0); [done|]. destruct (_ =? 0); [|done].
  destruct (pdp_recompute _); [by apply wf_with_pdp|done].
Qed.

Lemma observe_wf h c rh s :
  ml_wf s -> ml_wf (observe_cache_access np_exp clk sched_clk h c rh s).2.
Proof.
  intros Hs. unfold observe_cache_access. destruct (_ && _).
  - destruct (Scheduler.observe _ _ _ _ _ _) as [r sch] eqn:Ho.
    destruct (observe_sched h c rh _ _ _ (mw_sched _ _ Hs) Ho) as [Hsch _].
    assert (Hs1 : ml_wf (with_scheduler s sch)) by by apply wf_with_scheduler.
    destruct r as [[]|e]; [by apply rebind_wf|done|done].
  - destruct (pdp_selected s); [by apply pdp_observe_wf|done].
Qed.

(** *** The blocks after the switch *)

Definition governed (p : string) s (b : Z) : Prop :=
  forall m, free_table s !! b = Some m ->
    exists h, block_cache_hint m = Some (rebound_hint h p).

Lemma rebind_block_ok p b s s' :
  rebind_block p b s = (Ok tt, s') ->
  governed p s' b /\ keys (free_table s') = keys (free_table s) /\
  (forall j, j <> b -> free_table s' !! j = free_table s !! j) /\
  scheduler s' = scheduler s /\ to_delete_blocks s' = to_delete_blocks s.
Proof.
  unfold rebind_block. destruct (free_table s !! b) as [m|] eqn:Hb; [|done].
  destruct (block_cache_hint m) as [h|] eqn:Hh; [|done]. cbv zeta.
  set (s1 := with_free s _). intros [= <-].
  assert (H1 : governed p s1 b /\ keys (free_table s1) = keys (free_table s) /\
    (forall j, j <> b -> free_table s1 !! j = free_table s !! j)).
  { split; [|split].
    - intros m'. cbn. rewrite dict_lookup_insert_eq. intros [= <-]. by exists h.
    - cbn. rewrite keys_insert, decide_True; [done|]. apply elem_of_keys. by eexists.
    - intros j Hj. cbn. by rewrite dict_lookup_insert_ne by congruence. }
  destruct H1 as (H1 & H2 & H3).
  by case_bool_decide; [|case_bool_decide].
Qed.

Lemma rebind_blocks_ok p bs : forall s s',
  for_each bs (rebind_block p) s = (Ok tt, s') ->
  (forall b, b ∈ bs -> governed p s' b) /\ keys (free_table s') = keys (free_table s) /\
  (forall j, j ∉ bs -> free_table s' !! j = free_table s !! j) /\
  scheduler s' = scheduler s.
Proof.
  induction bs as [|b bs IH]; intros s s'; cbn [for_each].
  { intros [= <-]. split; [by intros b ?%elem_of_nil|done]. }
  intros ([] & s1 & H1 & H2)%bind_ok.
  apply rebind_block_ok in H1 as (G1 & K1 & O1 & S1 & _).
  apply IH in H2 as (G2 & K2 & O2 & S2).
  split; [|split; [congruence|split; [|congruence]]].
  - intros j Hj. destruct (decide (j ∈ bs)) as [Hin|Hin]; [by apply G2|].
    apply elem_of_cons in Hj as [->|?]; [|done]. intros m. rewrite O2 by done. apply G1.
  - intros j Hj. rewrite not_elem_of_cons in Hj. rewrite O2, O1 by tauto. done.
Qed.

Lemma governed_policy p s b m :
  governed p s b -> free_table s !! b = Some m -> p <> ""%string ->
  get_policy s (block_cache_hint m) = p.
Proof.
  intros Hg Hb Hp. destruct (Hg m Hb) as [h ->]. unfold get_policy, rebound_hint. cbn.
  by rewrite bool_decide_eq_false_2.
Qed.

Lemma rebind_ok s s' :
  ml_wf s -> Scheduler.enabled (scheduler s) = true ->
  Scheduler.current_policy (scheduler s) <> ""%string ->
  rebind_scheduler_policy_for_existing_blocks np_exp clk s = (Ok tt, s') ->
  scheduler s' = scheduler s /\ keys (free_table s') = keys (free_table s) /\
  to_delete_blocks s' = [] /\
  forall b m, free_table s' !! b = Some m ->
    get_policy s' (block_cache_hint m) = Scheduler.current_policy (scheduler s) /\
    indexed (sorted_dict s') b m.
Proof.
  intros Hs Hen Hp Hrun. pose proof (rebind_wf s Hs) as Hw. rewrite Hrun in Hw. cbn in Hw.
  unfold rebind_scheduler_policy_for_existing_blocks in Hrun.
  rewrite (bind_step get _ s s s eq_refl), Hen in Hrun.
  rewrite (bind_step (modify _) _ _ tt _ eq_refl) in Hrun. cbv zeta in Hrun.
  apply bind_ok in Hrun as ([] & s1 & H1 & Hrun).
  apply bind_ok in Hrun as ([] & s2 & H2 & Hrun).
  rewrite (bind_step (modify _) _ _ tt _ eq_refl) in Hrun.
  assert (E1 : free_table s1 = free_table s /\ scheduler s1 = scheduler s).
  { destruct (bool_decide _); injection H1 as <-; done. }
  destruct E1 as [Et Es].
  assert (Hs2 : ml_wf (with_stack s2 [])).
  { apply wf_with_stack. change s2 with (Ok tt, s2).2 at 1. rewrite <- H2.
    apply preserves_for_each; [intros b; apply rebind_block_wf, (mw_sched _ _ Hs)|].
    destruct (bool_decide _); injection H1 as <-; [apply wf_with_pdp|];
      (eapply wf_frame; [..|exact Hs]; done). }
  apply rebind_blocks_ok in H2 as (G & K & _ & S).
  destruct (rebuild_ok _ _ Hs2) as (s3 & Hreb & [R1 R2 _ _ _ R6 _ R8 _] & _).
  rewrite Hreb in Hrun. injection Hrun as <-. cbn in R1, R2, R6, R8.
  split; [congruence|]. split; [congruence|]. split; [done|].
  intros b m Hm. split; [|by apply wf_indexed].
  destruct (R2 b m Hm) as (m0 & Hm0 & He). rewrite (get_policy_sched s2) by done.
  rewrite He. cbn. apply (governed_policy _ s2 b); [|done|done].
  apply G. rewrite <- Et, <- K. apply elem_of_keys. by eexists.
Qed.
End Correct.

(** ** Runs *)

Inductive op : Type :=
  | OpAdd (b h n : Z) (la : Q) (c : option cache_hint)
  | OpUpdate (b : Z) (la : Q) (c : option cache_hint)
  | OpRemove (b : Z)
  | OpEvict
  | OpObserve (h : Z) (c : option cache_hint) (real_hit : option bool)
  | OpSetCapacity (cap : Z).

Definition op_ok (o : op) : Prop :=
  match o with
  | OpAdd _ _ _ _ c | OpUpdate _ _ c => complete_hint c
  | _ => True
  end.

Section Run.
Context {D : Type} `{!SortedDict D (Z * Z)} {sd_ok : D -> Prop}
  `{!SortedDictLaws D (Z * Z) sd_ok}.
Variables (np_exp : Q -> Q) (clk sched_clk : nat -> Q).

Definition run_op (s : t D) (o : op) : t D :=
  match o with
  | OpAdd b h n la c => (add np_exp clk b h n la c s).2
  | OpUpdate b la c => (update np_exp clk b la c s).2
  | OpRemove b => (remove b s).2
  | OpEvict => (evict np_exp clk s).2
  | OpObserve h c rh => (observe_cache_access np_exp clk sched_clk h c rh s).2
  | OpSetCapacity cap => (set_capacity np_exp sched_clk cap s).2
  end.
Definition run (s : t D) (ops : list op) : t D := foldl run_op s ops.

Lemma init_wf now0 sched_now config s :
  init now0 sched_now config = Ok s ->
  Scheduler.current_policy (scheduler s) <> "belady"%string -> ml_wf (sd_ok := sd_ok) s.
Proof.
  unfold init. intros H. apply result_bind_ok in H as (cfg & _ & H).
  apply result_bind_ok in H as (sch & Hsch & H).
  repeat (apply result_bind_ok in H as (? & _ & H)). injection H as <-. cbn. intros Hp.
  apply Scheduler.init_config_ok in Hsch.
  split; cbn; try done; [apply sd_ok_empty|by intros k v; rewrite sd_get_empty|by intros b [? ?]].
Qed.

Lemma run_wf ops : forall s, ml_wf (sd_ok := sd_ok) s ->
  Forall op_ok ops -> ml_wf (sd_ok := sd_ok) (run s ops).
Proof.
  induction ops as [|o ops IH]; intros s Hs Hops; [done|].
  apply list.Forall_cons in Hops as [Ho Hops]. apply IH; [|done].
  destruct o; cbn in *; auto using add_wf, update_wf, remove_wf, evict_wf, observe_wf, set_capacity_wf.
Qed.

(** C27. The learned evictor never loses track of its blocks: after any
    sequence of calls (with hints that carry what their policy needs),
    including the switch of policy, [evict] on a non-empty evictor returns a
    block it holds and removes exactly that one; its search, with stale
    entries, outdated marks and RRIP ageing, always ends. *)
Theorem evict_progress (now0 sched_now : Q) (config : string) (s0 : t D) (ops : list op)
    (Hinit : init now0 sched_now config = Ok s0)
    (Hpol : Scheduler.current_policy (scheduler s0) <> "belady"%string)
    (Hops : Forall op_ok ops)
    (Hne : 0 < num_blocks (run s0 ops)) :
  exists b h s', evict np_exp clk (run s0 ops) = (Ok (b, h), s') /\
    contains b (run s0 ops) = true /\
    keys (free_table s') = filter (fun j => j <> b) (keys (free_table (run s0 ops))).
Proof.
  pose proof (run_wf ops s0 (init_wf _ _ _ _ Hinit Hpol) Hops) as Hs.
  destruct (evict_ok np_exp clk (run s0 ops) Hs) as (b & h & s' & He & _ & Hb & Hk).
  { intros Hnil%dlen_zero. unfold num_blocks in Hne. lia. }
  exists b, h, s'. split; [done|]. split; [by apply has_true|done].
Qed.

(** C28. When no block is marked outdated and none is under [rrip] or [pdp],
    the victim is the block with the least (score, last access, id), and it is
    returned with its own content hash. *)
Theorem evict_least_score (now0 sched_now : Q) (config : string) (s0 : t D) (ops : list op)
    (Hinit : init now0 sched_now config = Ok s0)
    (Hpol : Scheduler.current_policy (scheduler s0) <> "belady"%string)
    (Hops : Forall op_ok ops)
    (Hne : 0 < num_blocks (run s0 ops))
    (Hmarked : to_delete_blocks (run s0 ops) = [])
    (Hscored : forall b m, free_table (run s0 ops) !! b = Some m ->
       get_policy (run s0 ops) (block_cache_hint m) ∉ ["rrip"; "pdp"]%string) :
  exists b m s', evict np_exp clk (run s0 ops) = (Ok (b, content_hash m), s') /\
    free_table (run s0 ops) !! b = Some m /\
    free_table s' = delete b (free_table (run s0 ops)) /\
    forall b' m', free_table (run s0 ops) !! b' = Some m' ->
      key_leb (block_key b m) (block_key b' m') = true.
Proof.
  pose proof (run_wf ops s0 (init_wf _ _ _ _ Hinit Hpol) Hops) as Hs.
  set (s := run s0 ops) in *. clearbody s.
  unfold evict. rewrite (bind_step get _ s s s eq_refl).
  destruct (items (free_table s)) as [|[b0 m0] l] eqn:Hi.
  { apply dlen_zero in Hi. unfold num_blocks in Hne. lia. }
  assert (Hne' : items (free_table s) <> []) by by rewrite Hi.
  rewrite bool_decide_eq_false_2.
  2: { intros Hp. apply (Hscored b0 m0); [apply elem_of_items; [apply Hs|rewrite Hi; left]|].
       rewrite Hp. right; left. }
  destruct (peek_loop_ok (sd_len (sorted_dict s)) s Hs (le_n _) Hne')
    as (b & m & d & Hp & Hw & [Hb Hle]).
  assert (Hsel : exists s1, select_victim np_exp clk (evict_fuel s) s = (Ok (b, content_hash m), s1)
            /\ ml_wf_except (sd_ok := sd_ok) (eq b) s1 /\ free_table s1 = free_table s).
  { unfold evict_fuel. rewrite Nat.add_succ_r. cbn [select_victim].
    rewrite (bind_step get _ s s s eq_refl), Hmarked.
    rewrite (bind_step peek_valid_candidate _ _ _ _ Hp).
    rewrite (bind_step get _ (with_sorted s d) _ _ eq_refl). cbn [free_table with_sorted].
    rewrite Hb. rewrite bool_decide_eq_false_2.
    2: { intros Hr. apply (Hscored b m Hb). change (get_policy (with_sorted s d)) with (get_policy s) in Hr.
         cbn [mbind option_bind] in Hr. rewrite Hr. left. }
    destruct (remove_from_sorted_ok np_exp (with_sorted s d) b m Hw Hb) as (d' & Hr & Hw').
    cbn [andb]. rewrite (bind_step _ _ _ _ _ Hr). by eexists. }
  destruct Hsel as (s1 & Hrun & Hw1 & Ht1). rewrite (bind_step _ _ _ _ _ Hrun). cbn [fst snd].
  destruct (finish_ok clk b (content_hash m) s1 Hw1) as (s' & He & _ & Ht); [rewrite Ht1; by eexists|].
  exists b, m, s'. split; [done|]. split; [done|]. split; [by rewrite Ht, Ht1|done].
Qed.

(** When the scheduler decides during [observe_cache_access], every free
    block is re-bound: whatever its hint said, it is governed by the chosen
    policy from then on, it is filed in the container under its new score, and
    no block stays marked outdated. *)
Theorem switch_rebinds_blocks (now0 sched_now : Q) (config : string) (s0 : t D)
    (ops : list op) (h : Z) (c : option cache_hint) (rh : option bool) (s' : t D)
    (Hinit : init now0 sched_now config = Ok s0)
    (Hpol : Scheduler.current_policy (scheduler s0) <> "belady"%string)
    (Hops : Forall op_ok ops)
    (Hbefore : Scheduler.finalized (scheduler (run s0 ops)) = false)
    (Hobs : observe_cache_access np_exp clk sched_clk h c rh (run s0 ops) = (Ok tt, s'))
    (Hafter : Scheduler.finalized (scheduler s') = true) :
  keys (free_table s') = keys (free_table (run s0 ops)) /\ to_delete_blocks s' = [] /\
  Scheduler.current_policy (scheduler s') ∈ Scheduler.POLICIES /\
  forall b m, free_table s' !! b = Some m ->
    get_policy s' (block_cache_hint m) = Scheduler.current_policy (scheduler s') /\
    sd_get (block_key b m) (sorted_dict s') = Some (b, content_hash m).
Proof.
  pose proof (run_wf ops s0 (init_wf _ _ _ _ Hinit Hpol) Hops) as Hs.
  set (s := run s0 ops) in *. clearbody s. unfold observe_cache_access in Hobs.
  rewrite Hbefore in Hobs. cbn in Hobs.
  destruct (Scheduler.enabled (scheduler s)) eqn:Hen; cbn in Hobs.
  2: { unfold pdp_selected in Hobs. rewrite Hbefore in Hobs. injection Hobs as <-. congruence. }
  destruct (Scheduler.observe _ _ _ _ _ _) as [r sch] eqn:Ho.
  pose proof (Scheduler.observe_cases np_exp sched_clk h c rh _ (proj1 (mw_sched _ _ Hs))) as Hcase.
  destruct (observe_sched np_exp sched_clk h c rh _ _ _ (mw_sched _ _ Hs) Ho) as [Hsch Htrue].
  rewrite Ho in Hcase. destruct r as [[]|x]; [|injection Hobs as <-|done].
  - destruct (Htrue eq_refl) as [Hen' Hin].
    destruct (rebind_ok np_exp clk (with_scheduler s sch) s') as (E1 & E2 & E3 & E4);
      [by apply wf_with_scheduler|done| |done|].
    { cbn. intros He. rewrite He in Hin. revert Hin.
      apply (proj1 (bool_decide_eq_false _)). by vm_compute. }
    rewrite E1. split; [done|]. split; [done|]. split; [done|]. intros b m Hm. by apply E4.
  - exfalso. cbn in Hafter. remember (Ok false) as r eqn:Hr.
    destruct Hcase; congruence || (cbn in *; congruence).
Qed.
End Run.

(** *** A run on the sorted association list *)

Abbreviation DD := (list (key * (Z * Z))).

Definition hint_of (i : Z) : option cache_hint :=
  Some (CacheHint (Some i) None None None None None None None None None).
Definition sample_config : string :=
  "enable_scheduler=1,scheduler_warmup=3,scheduler_observe_stride=1,scheduler_capacity=2"%string.
Definition sample_ops : list op :=
  [OpAdd 1 10 16 5 (hint_of 7); OpAdd 2 20 32 4 (hint_of 8); OpRemove 2;
   OpAdd 2 21 32 6 (hint_of 8); OpObserve 10 None (Some false); OpObserve 11 None (Some true);
   OpAdd 3 30 16 1 (hint_of 9); OpUpdate 3 7 (hint_of 9)].
Definition sample_clk (n : nat) : Q := inject_Z (Z.of_nat n).

Abbreviation sample_state s0 :=
  (run (D := DD) (fun _ => 1%Q) (fun _ => 8%Q) sample_clk s0 sample_ops).

Lemma sample_ops_ok : Forall op_ok sample_ops.
Proof.
  repeat first [apply List.Forall_nil | apply List.Forall_cons]; cbn; try done;
    (split; [by intros [? ?]|done]).
Qed.

Lemma evict_progress_witness :
  exists s0, init (D := DD) 8 0 sample_config = Ok s0 /\ num_blocks (sample_state s0) = 3 /\
  exists b h s', evict (fun _ => 1%Q) (fun _ => 8%Q) (sample_state s0) = (Ok (b, h), s') /\
    contains b (sample_state s0) = true.
Proof.
  assert (H : exists s0, init (D := DD) 8 0 sample_config = Ok s0 /\
    num_blocks (sample_state s0) = 3 /\
    Scheduler.current_policy (scheduler s0) = "ml"%string).
  { eexists. split; [vm_compute; reflexivity|]. split; vm_compute; reflexivity. }
  destruct H as (s0 & Hi & Hn & Hp). exists s0. split; [exact Hi|]. split; [exact Hn|].
  destruct (evict_progress (fun _ => 1%Q) (fun _ => 8%Q) sample_clk _ _ _ s0 sample_ops Hi)
    as (b & h & s' & He & Hb & _).
  - rewrite Hp. discriminate.
  - exact sample_ops_ok.
  - rewrite Hn. reflexivity.
  - exists b, h, s'. split; [exact He|exact Hb].
Defined.


Lemma evict_least_score_witness :
  exists s0 b m s', init (D := DD) 8 0 sample_config = Ok s0 /\
    num_blocks (sample_state s0) = 3 /\
    evict (fun _ => 1%Q) (fun _ => 8%Q) (sample_state s0) = (Ok (b, content_hash m), s') /\
    free_table (sample_state s0) !! b = Some m.
Proof.
  assert (H : exists s0, init (D := DD) 8 0 sample_config = Ok s0 /\
    num_blocks (sample_state s0) = 3 /\ to_delete_blocks (sample_state s0) = [] /\
    Scheduler.current_policy (scheduler s0) = "ml"%string /\
    bool_decide (Forall (fun p =>
        get_policy (sample_state s0) (block_cache_hint p.2) ∉ ["rrip"; "pdp"]%string)
      (items (free_table (sample_state s0)))) = true).
  { eexists. split; [vm_compute; reflexivity|]. repeat split; vm_compute; reflexivity. }
  destruct H as (s0 & Hi & Hn & Hd & Hp & Hml%bool_decide_eq_true).
  rewrite Forall_forall in Hml.
  destruct (evict_least_score (fun _ => 1%Q) (fun _ => 8%Q) sample_clk _ _ _ s0 sample_ops Hi)
    as (b & m & s' & He & Hb & Ht & _).
  - rewrite Hp. discriminate.
  - exact sample_ops_ok.
  - rewrite Hn. reflexivity.
  - exact Hd.
  - intros b m Hb. apply (Hml (b, m)). apply elem_of_items; [|exact Hb].
    apply (mw_dict (sd_ok := sa_ok) (fun _ => False)), run_wf; [|exact sample_ops_ok].
    eapply init_wf; [exact Hi|]. rewrite Hp. discriminate.
  - exists s0, b, m, s'. split; [exact Hi|]. split; [exact Hn|]. split; [exact He|exact Hb].
Defined.

Lemma switch_rebinds_blocks_witness :
  exists s0 s', init (D := DD) 8 0 sample_config = Ok s0 /\
    observe_cache_access (fun _ => 1%Q) (fun _ => 8%Q) sample_clk 12 None (Some false)
      (sample_state s0) = (Ok tt, s') /\
    keys (free_table s') = [1; 2; 3] /\
    forall b m, free_table s' !! b = Some m ->
      get_policy s' (block_cache_hint m) = Scheduler.current_policy (scheduler s').
Proof.
  assert (H : exists s0 s', init (D := DD) 8 0 sample_config = Ok s0 /\
    observe_cache_access (fun _ => 1%Q) (fun _ => 8%Q) sample_clk 12 None (Some false)
      (sample_state s0) = (Ok tt, s') /\
    Scheduler.finalized (scheduler (sample_state s0)) = false /\
    Scheduler.finalized (scheduler s') = true /\
    Scheduler.current_policy (scheduler s0) = "ml"%string /\
    keys (free_table s') = [1; 2; 3]).
  { do 2 eexists. split; [vm_compute; reflexivity|]. split; [vm_compute; reflexivity|].
    repeat split; vm_compute; reflexivity. }
  destruct H as (s0 & s' & Hi & Ho & Hb & Ha & Hp & Hk).
  destruct (switch_rebinds_blocks (fun _ => 1%Q) (fun _ => 8%Q) sample_clk _ _ _ s0 sample_ops
    12 None (Some false) s' Hi) as (_ & _ & _ & Hpol).
  - rewrite Hp. discriminate.
  - exact sample_ops_ok.
  - exact Hb.
  - exact Ho.
  - exact Ha.
  - exists s0, s'. split; [exact Hi|]. split; [exact Ho|]. split; [exact Hk|].
    intros b m Hm. exact (proj1 (Hpol b m Hm)).
Defined.
