(* ===== verification/BlockCommon.v ===== *)
(** * What the block allocators share ([vllm/core/block/common.py])

    Reference counts, copy-on-write records, the pool of reusable block
    objects, the list of a sequence's blocks, and the cache hit metric.

    Block objects are shared and mutated, so they live in a store: a block
    reference is the object's [pool_id], and the store maps it to the object's
    fields.  [B] is the type of these fields, which differs between the naive
    and the prefix-caching allocator. *)
From S2P Require Import Prelude.

(** ** [RefCounter] *)

Module RefCounter.

Abbreviation t := (gmap Z Z).

Definition init (all_block_indices : list Z) : t :=
  foldr (fun b m => <[b := 0]> m) ∅ all_block_indices.

Definition incr (block_id : Z) : M t Z := fun m =>
  match m !! block_id with
  | None => (Err AssertionError, m)
  | Some pre => if 0 <=? pre then (Ok (pre + 1), <[block_id := pre + 1]> m)
                else (Err AssertionError, m)
  end.

Definition decr (block_id : Z) : M t Z := fun m =>
  match m !! block_id with
  | None => (Err AssertionError, m)
  | Some c => if 0 <? c then (Ok (c - 1), <[block_id := c - 1]> m)
              else (Err AssertionError, m)
  end.

Definition get (block_id : Z) (m : t) : result Z :=
  from_option_exn AssertionError (m !! block_id).

(** [ReadOnlyRefCounter]: reads pass through, writes are refused. *)
Definition readonly_get (block_id : Z) (m : t) : result Z := get block_id m.
Definition readonly_incr (block_id : Z) : M t Z := raise ValueError.
Definition readonly_decr (block_id : Z) : M t Z := raise ValueError.

Lemma lookup_init l b : init l !! b = if decide (b ∈ l) then Some 0 else None.
Proof.
  induction l as [|c l IH]; cbn [init foldr].
  { rewrite decide_False by apply not_elem_of_nil. apply lookup_empty. }
  destruct (decide (c = b)) as [->|Hne].
  - rewrite decide_True by left. apply lookup_insert_eq.
  - etransitivity; [by apply lookup_insert_ne|]. etransitivity; [exact IH|].
    destruct (decide (b ∈ l)) as [Hin|Hin].
    + rewrite decide_True; [done|by right].
    + rewrite decide_False; [done|]. by intros [?|?]%elem_of_cons.
Qed.

Lemma incr_ok b m n m' :
  incr b m = (Ok n, m') <-> exists c, m !! b = Some c /\ 0 <= c /\ n = c + 1 /\ m' = <[b := n]> m.
Proof.
  unfold incr. destruct (m !! b) as [c|]; [|split; [done|by intros (? & ? & _)]].
  destruct (Z.leb_spec 0 c); split.
  - intros [= <- <-]. by exists c.
  - by intros (? & [= ->] & _ & -> & ->).
  - done.
  - intros (? & [= ->] & ? & _). lia.
Qed.

Lemma decr_ok b m n m' :
  decr b m = (Ok n, m') <-> exists c, m !! b = Some c /\ 0 < c /\ n = c - 1 /\ m' = <[b := n]> m.
Proof.
  unfold decr. destruct (m !! b) as [c|]; [|split; [done|by intros (? & ? & _)]].
  destruct (Z.ltb_spec 0 c); split.
  - intros [= <- <-]. by exists c.
  - by intros (? & [= ->] & _ & -> & ->).
  - done.
  - intros (? & [= ->] & ? & _). lia.
Qed.
End RefCounter.

(** ** [CopyOnWriteTracker]: the recorded (source, target) pairs *)

Module Cow.

Abbreviation t := (list (Z * Z)).

Definition is_appendable (refs : RefCounter.t) (block_id : option Z) : result bool :=
  match block_id with
  | None => Ok true
  | Some b => c ← RefCounter.get b refs; Ok (c <=? 1)
  end.

Definition record_cow (src trg : option Z) : M t unit := fun l =>
  match src, trg with
  | Some s, Some d => (Ok tt, l ++ [(s, d)])
  | _, _ => (Err AssertionError, l)
  end.

Definition clear_cows : M t (list (Z * Z)) := fun l => (Ok l, []).
End Cow.

(** ** [BlockPool] *)

Module BlockPool.
Section Pool.
Context {B : Type}.
(** The object [create_block] makes with no predecessor, tokens or block id. *)
Variable blank : B.

Record t : Type := BlockPool {
  free_ids : list Z;
  objs : gmap Z B;
  pool_size : Z
}.

Definition add_objs (from : Z) (n : Z) (m : gmap Z B) : gmap Z B :=
  foldr (fun i m => <[i := blank]> m) m (seqZ from n).

Definition init (size : Z) : result t :=
  if 0 <=? size then Ok (BlockPool (seqZ 0 size) (add_objs 0 size ∅) size)
  else Err AssertionError.

Definition increase_pool (p : t) : t :=
  let n := pool_size p in
  BlockPool (free_ids p ++ seqZ n (n * 2 - n)) (add_objs n (n * 2 - n) (objs p)) (n * 2).

(** [init_block]: [reinit] is the effect of [block.__init__] on the object,
    which may raise and then leaves it half initialised. *)
Definition init_block (reinit : B -> result unit * B) : M t Z := fun p =>
  let p1 := match free_ids p with [] => increase_pool p | _ => p end in
  match free_ids p1 with
  | [] => (Err AssertionError, p1)
  | i :: rest =>
      match objs p1 !! i with
      | None => (Err IndexError, BlockPool rest (objs p1) (pool_size p1))
      | Some o =>
          let '(r, o') := reinit o in
          let p2 := BlockPool rest (<[i := o']> (objs p1)) (pool_size p1) in
          match r with
          | Ok _ => (Ok i, p2)
          | Err e => (Err e, p2)
          end
      end
  end.

Definition free_block (i : Z) (p : t) : t := BlockPool (i :: free_ids p) (objs p) (pool_size p).

(** Writing one object's fields. *)
Definition set_obj (i : Z) (o : B) (p : t) : t :=
  BlockPool (free_ids p) (<[i := o]> (objs p)) (pool_size p).

(** *** The pool's own invariant *)

(** Every id below [pool_size] has an object, and the free ids are distinct. *)
Record pool_ok (p : t) : Prop := {
  po_size : 0 <= pool_size p;
  po_objs : forall i, is_Some (objs p !! i) <-> 0 <= i < pool_size p;
  po_free : NoDup (free_ids p);
  po_range : forall i, i ∈ free_ids p -> 0 <= i < pool_size p
}.

Lemma lookup_add_objs from n m i :
  add_objs from n m !! i = if decide (from <= i < from + n) then Some blank else m !! i.
Proof.
  unfold add_objs. destruct (decide (from <= i < from + n)) as [Hin|Hout].
  - apply elem_of_seqZ in Hin. induction (seqZ from n) as [|j l IH]; [by apply elem_of_nil in Hin|].
    cbn. destruct (decide (j = i)) as [->|]; [by rewrite lookup_insert_eq|].
    rewrite lookup_insert_ne by done. apply IH. by apply elem_of_cons in Hin as [?|?].
  - rewrite <- elem_of_seqZ in Hout. induction (seqZ from n) as [|j l IH]; [done|].
    cbn. rewrite not_elem_of_cons in Hout.
    rewrite lookup_insert_ne by (intros ->; tauto).
    apply IH. tauto.
Qed.

Lemma init_ok size p : init size = Ok p -> pool_ok p.
Proof.
  unfold init. destruct (Z.leb_spec 0 size); [|done]. intros [= <-].
  split; cbn; [done| |apply NoDup_seqZ|].
  - intros i. rewrite lookup_add_objs. case_decide as Hi; [split; [lia|by eexists]|].
    rewrite lookup_empty. split; [by intros [? ?]|lia].
  - intros i Hi%elem_of_seqZ. lia.
Qed.

Lemma increase_ok p : pool_ok p -> pool_ok (increase_pool p).
Proof.
  intros [H1 H2 H3 H4]. unfold increase_pool. split; cbn; [lia| | |].
  - intros i. rewrite lookup_add_objs. case_decide; [split; [lia|by eexists]|].
    rewrite H2. lia.
  - apply NoDup_app. split; [done|]. split; [|apply NoDup_seqZ].
    intros i Hi%H4 Hi'%elem_of_seqZ. lia.
  - intros i [Hi%H4|Hi%elem_of_seqZ]%elem_of_app; lia.
Qed.

(** What [init_block] does when the object's [__init__] succeeds: it hands out
    an object that was free, and changes no other object. *)
Lemma init_block_spec reinit p :
  pool_ok p -> 0 < pool_size p ->
  (forall o, exists o', reinit o = (Ok tt, o')) ->
  exists i p' o o',
    init_block reinit p = (Ok i, p') /\ pool_ok p' /\ reinit o = (Ok tt, o') /\
    objs p' !! i = Some o' /\
    (i ∈ free_ids p \/ free_ids p = [] /\ pool_size p <= i) /\
    ~ (i ∈ free_ids p') /\
    (forall j, j <> i -> is_Some (objs p !! j) -> objs p' !! j = objs p !! j) /\
    (forall j, j <> i -> objs p !! j = None -> is_Some (objs p' !! j) -> j ∈ free_ids p') /\
    (forall j, j ∈ free_ids p' -> j ∈ free_ids p \/ free_ids p = [] /\ pool_size p <= j) /\
    (forall j, j <> i -> j ∈ free_ids p -> j ∈ free_ids p') /\ 0 < pool_size p'.
Proof.
  intros Hok Hpos Hre. unfold init_block.
  set (p1 := match free_ids p with [] => increase_pool p | _ => p end).
  assert (H1 : pool_ok p1 /\ free_ids p1 <> [] /\ 0 < pool_size p1 /\
    (forall j, is_Some (objs p !! j) -> objs p1 !! j = objs p !! j) /\
    (forall j, objs p !! j = None -> is_Some (objs p1 !! j) -> j ∈ free_ids p1) /\
    (forall j, j ∈ free_ids p1 -> j ∈ free_ids p \/ free_ids p = [] /\ pool_size p <= j) /\
    (forall j, j ∈ free_ids p -> j ∈ free_ids p1)).
  { unfold p1. destruct (free_ids p) as [|f fs] eqn:Hf.
    - split; [by apply increase_ok|]. cbn. rewrite Hf. cbn.
      rewrite (seqZ_cons (pool_size p)) by lia.
      split; [done|]. split; [lia|]. split.
      { intros j Hj. rewrite lookup_add_objs, decide_False; [done|].
        apply (po_objs p Hok) in Hj. lia. }
      split.
      { intros j Hj. rewrite lookup_add_objs, Hj. case_decide; [|by intros [? ?]].
        intros _. change (pool_size p :: seqZ (Z.succ (pool_size p)) (Z.pred (pool_size p * 2 - pool_size p)))
          with ([pool_size p] ++ seqZ (Z.succ (pool_size p)) (Z.pred (pool_size p * 2 - pool_size p))).
        apply elem_of_app. rewrite list_elem_of_singleton, elem_of_seqZ. lia. }
      split; [|by intros j ?%elem_of_nil].
      intros j Hj. right. split; [done|].
      apply elem_of_cons in Hj as [->|Hj%elem_of_seqZ]; lia.
    - split; [done|]. rewrite Hf. split; [done|]. split; [lia|]. split; [done|].
      split; [intros j ->; by intros [? ?]|]. split; [by left|done]. }
  clearbody p1. destruct H1 as (Hok1 & Hne & Hpos1 & Hsame & Hnew & Hfree & Hkeep).
  destruct (free_ids p1) as [|i rest] eqn:Hf1; [done|].
  pose proof (po_free p1 Hok1) as Hnd. rewrite Hf1 in Hnd. apply NoDup_cons in Hnd as [Hi Hnd].
  destruct (proj2 (po_objs p1 Hok1 i)) as [o Ho].
  { apply (po_range p1 Hok1). rewrite Hf1. left. }
  rewrite Ho. destruct (Hre o) as [o' Ho']. rewrite Ho'.
  exists i. eexists. exists o, o'. split; [done|]. split.
  { split; cbn; [apply Hok1| |done|].
    - intros j. destruct (decide (i = j)) as [<-|Hij].
      + rewrite lookup_insert_eq. split; [|by eexists]. intros _. apply (po_objs p1 Hok1). by eexists.
      + rewrite lookup_insert_ne by done. apply Hok1.
    - intros j Hj. apply (po_range p1 Hok1). rewrite Hf1. by right. }
  split; [done|]. cbn. split; [by rewrite lookup_insert_eq|].
  split; [apply Hfree; left|]. split; [done|].
  split; [intros j Hj Hs; rewrite lookup_insert_ne by done; by apply Hsame|].
  split; [intros j Hj Hn Hs; rewrite lookup_insert_ne in Hs by done|].
  { apply (Hnew j Hn) in Hs. by apply elem_of_cons in Hs as [?|?]. }
  split; [intros j Hj; apply Hfree; by right|].
  split; [|done]. intros j Hj Hin%Hkeep. by apply elem_of_cons in Hin as [?|?].
Qed.
End Pool.
Arguments t : clear implicits.
End BlockPool.

(** ** [get_all_blocks_recursively]

    The predecessors of a block, first block first.  The recursion follows the
    objects' [prev_block] fields; [fuel] bounds its depth.  With more than the
    number of objects as the bound, a deeper recursion is one along a cycle,
    which Python ends with [RecursionError]. *)

Section Chain.
Context {B : Type}.
Variable prev_of : B -> option Z.
Variable objs : gmap Z B.

Fixpoint get_all_blocks_recursively (fuel : nat) (last_block : Z) : result (list Z) :=
  match fuel with
  | O => Err RecursionError
  | S fuel' =>
      match objs !! last_block with
      | None => Err AttributeError
      | Some o =>
          match prev_of o with
          | None => Ok [last_block]
          | Some p => l ← get_all_blocks_recursively fuel' p; Ok (l ++ [last_block])
          end
      end
  end.

(** [l] is a sequence of blocks, each the predecessor of the next. *)
Inductive chain : option Z -> list Z -> Prop :=
  | chain_nil : chain None []
  | chain_snoc p l i o :
      chain p l -> objs !! i = Some o -> prev_of o = p -> chain (Some i) (l ++ [i]).

Lemma chain_some i l : chain (Some i) l ->
  exists l' o, l = l' ++ [i] /\ objs !! i = Some o /\ chain (prev_of o) l'.
Proof.
  inversion 1 as [|p l' i' o Hc Ho Hp]; subst. exists l', o. done.
Qed.

Lemma chain_recursively fuel : forall i l,
  chain (Some i) l -> (length l <= fuel)%nat -> get_all_blocks_recursively fuel i = Ok l.
Proof.
  induction fuel as [|fuel IH]; intros i l Hc Hl;
    destruct (chain_some i l Hc) as (l' & o & -> & Ho & Hc'); rewrite length_app in Hl; cbn in Hl; [lia|].
  cbn. rewrite Ho. destruct (prev_of o) as [p|] eqn:Hp.
  - by rewrite (IH p l' Hc' ltac:(lia)).
  - by inversion Hc'; subst.
Qed.

Lemma recursively_chain fuel : forall i l,
  get_all_blocks_recursively fuel i = Ok l -> chain (Some i) l.
Proof.
  induction fuel as [|fuel IH]; intros i l; cbn; [done|].
  destruct (objs !! i) as [o|] eqn:Ho; [|done]. destruct (prev_of o) as [p|] eqn:Hp.
  - intros (l' & Hl & [= <-])%result_bind_ok. by eapply chain_snoc; [apply IH|..].
  - intros [= <-]. apply (chain_snoc None [] i o); [constructor|done|done].
Qed.
End Chain.

(** ** Counting the objects that hold a physical id *)

Section Owners.
Context {B : Type}.
Variable id_of : B -> option Z.
Implicit Types (m : gmap Z B) (o : B) (b i : Z).

Definition owners m b : Z := Z.of_nat (size (filter (fun p => id_of p.2 = Some b) m)).
Definition points o b : Z := if decide (id_of o = Some b) then 1 else 0.

Lemma owners_fresh m i o b :
  m !! i = None -> owners (<[i := o]> m) b = owners m b + points o b.
Proof.
  intros Hi. unfold owners, points. case_decide as Hb.
  - rewrite map_filter_insert_True by done.
    rewrite map_size_insert_None; [lia|]. apply map_lookup_filter_None. by left.
  - rewrite map_filter_insert_False by done. rewrite delete_id by done. lia.
Qed.

Lemma owners_delete m i o b :
  m !! i = Some o -> owners (delete i m) b = owners m b - points o b.
Proof.
  intros Hi. rewrite <- (insert_id m i o Hi) at 2. rewrite <- (insert_delete_eq m i o).
  rewrite owners_fresh by apply lookup_delete_eq. lia.
Qed.

Lemma owners_set m i o o' b :
  m !! i = Some o -> owners (<[i := o']> m) b = owners m b - points o b + points o' b.
Proof.
  intros Hi. rewrite <- (insert_delete_eq m i o'), owners_fresh by apply lookup_delete_eq.
  by rewrite (owners_delete m i o).
Qed.

Lemma points_bounds o b : 0 <= points o b <= 1.
Proof. unfold points. case_decide; lia. Qed.

Lemma points_none o b : id_of o = None -> points o b = 0.
Proof. intros H. unfold points. by rewrite H. Qed.
Lemma points_some o b b' : id_of o = Some b -> points o b' = if decide (b = b') then 1 else 0.
Proof.
  intros H. unfold points. rewrite H. repeat case_decide; congruence || done.
Qed.

Lemma owners_nonneg m b : 0 <= owners m b.
Proof. unfold owners. lia. Qed.

Lemma owners_pos m i o b : m !! i = Some o -> id_of o = Some b -> 0 < owners m b.
Proof.
  intros Hi Hb. pose proof (owners_delete m i o b Hi) as H.
  pose proof (owners_nonneg (delete i m) b). unfold points in H. rewrite decide_True in H by done. lia.
Qed.

(** Two objects with the same id count twice. *)
Lemma owners_two m i j o o' b :
  i <> j -> m !! i = Some o -> m !! j = Some o' -> id_of o = Some b -> id_of o' = Some b ->
  2 <= owners m b.
Proof.
  intros Hij Hi Hj Hb Hb'. pose proof (owners_delete m i o b Hi) as H.
  assert (Hj' : delete i m !! j = Some o') by by rewrite lookup_delete_ne.
  pose proof (owners_pos (delete i m) j o' b Hj' Hb'). unfold points in H.
  rewrite decide_True in H by done. lia.
Qed.

Lemma owners_ext m m' b :
  (forall i, (m !! i) ≫= id_of = Some b <-> (m' !! i) ≫= id_of = Some b) ->
  owners m b = owners m' b.
Proof.
  intros H. unfold owners. f_equal. rewrite <- !size_dom. f_equal. apply set_eq. intros i.
  rewrite !elem_of_dom. specialize (H i). split.
  - intros [o [Hi Hb]%map_lookup_filter_Some]. rewrite Hi in H. cbn in H, Hb.
    apply H in Hb. destruct (m' !! i) as [o'|] eqn:Hi'; [|done]. exists o'.
    by apply map_lookup_filter_Some.
  - intros [o [Hi Hb]%map_lookup_filter_Some]. rewrite Hi in H. cbn in H, Hb.
    apply H in Hb. destruct (m !! i) as [o'|] eqn:Hi'; [|done]. exists o'.
    by apply map_lookup_filter_Some.
Qed.
End Owners.
Arguments owners_fresh {B id_of} m i o b.
Arguments owners_delete {B id_of} m i o b.
Arguments owners_set {B id_of} m i o o' b.
Arguments points_bounds {B id_of} o b.
Arguments points_none {B id_of} o b.
Arguments points_some {B id_of} o b b'.
Arguments owners_nonneg {B id_of} m b.
Arguments owners_pos {B id_of} m i o b.
Arguments owners_two {B id_of} m i j o o' b.
Arguments owners_ext {B id_of} m m' b.

(** ** [BlockList]: the blocks of a sequence with their physical ids cached *)

Module BlockList.
Section List.
(** References to blocks. *)
Context {R : Type}.

Record t : Type := BlockList { blocks : list R; block_ids : list Z }.

Definition add_block_id (id : option Z) : M t unit := fun s =>
  match id with
  | Some b => (Ok tt, BlockList (blocks s) (block_ids s ++ [b]))
  | None => (Err AssertionError, s)
  end.

Definition update_block_id (index : nat) (id : option Z) : M t unit := fun s =>
  match id with
  | None => (Err AssertionError, s)
  | Some b =>
      if decide (index < length (block_ids s))%nat
      then (Ok tt, BlockList (blocks s) (<[index := b]> (block_ids s)))
      else (Err IndexError, s)
  end.

(** [id_of] reads a block object's [block_id]. *)
Definition update (id_of : R -> option Z) (bs : list R) : M t unit := fun _ =>
  for_each bs (fun i => add_block_id (id_of i)) (BlockList bs []).

Definition append (id_of : R -> option Z) (i : R) : M t unit := fun s =>
  add_block_id (id_of i) (BlockList (blocks s ++ [i]) (block_ids s)).

Definition set_item (id_of : R -> option Z) (index : nat) (i : R) : M t unit := fun s =>
  if decide (index < length (blocks s))%nat
  then update_block_id index (id_of i) (BlockList (<[index := i]> (blocks s)) (block_ids s))
  else (Err IndexError, s).

Definition get_item (index : nat) (s : t) : result R :=
  from_option_exn IndexError (blocks s !! index).

Definition len (s : t) : Z := Z.of_nat (length (blocks s)).
Definition reset : t := BlockList [] [].

(** The cached ids are those of the blocks. *)
Definition synced (id_of : R -> option Z) (s : t) : Prop :=
  map id_of (blocks s) = map Some (block_ids s).

Lemma for_each_add (id_of : R -> option Z) bs : forall s s',
  for_each bs (fun i => add_block_id (id_of i)) s = (Ok tt, s') ->
  exists l, map id_of bs = map Some l /\ s' = BlockList (blocks s) (block_ids s ++ l).
Proof.
  induction bs as [|i bs IH]; intros s s'; cbn [for_each].
  { intros [= <-]. exists []. rewrite app_nil_r. by destruct s. }
  intros ([] & s1 & H1 & H2)%bind_ok. unfold add_block_id in H1.
  destruct (id_of i) as [b|] eqn:Hb; [|done]. injection H1 as <-.
  apply IH in H2 as (l & Hl & ->). exists (b :: l). cbn. rewrite Hb, Hl.
  split; [done|]. by rewrite <- app_assoc.
Qed.

Lemma update_synced id_of bs s s' : update id_of bs s = (Ok tt, s') -> synced id_of s' /\ blocks s' = bs.
Proof. intros (l & Hl & ->)%for_each_add. done. Qed.

Lemma append_synced id_of i s s' :
  synced id_of s -> append id_of i s = (Ok tt, s') -> synced id_of s' /\ blocks s' = blocks s ++ [i].
Proof.
  unfold synced, append, add_block_id. intros Hs. destruct (id_of i) as [b|] eqn:Hb; [|done].
  intros [= <-]. cbn. rewrite !map_app, Hs. cbn. by rewrite Hb.
Qed.
End List.
Arguments t : clear implicits.
End BlockList.

(** ** [CacheMetricData] *)

Module Metric.

Record t : Type := CacheMetricData {
  num_completed_blocks : Z;
  completed_block_cache_hit_rate : Q;
  num_incompleted_block_queries : Z;
  num_incompleted_block_hit : Z;
  block_size : Z
}.

Definition init : t := CacheMetricData 0 0 0 0 1000.

Definition query (hit : bool) (s : t) : t :=
  let q := num_incompleted_block_queries s + 1 in
  let h := num_incompleted_block_hit s + (if hit then 1 else 0) in
  if q =? block_size s then
    let hit_rate := (inject_Z h / inject_Z q)%Q in
    let n := inject_Z (num_completed_blocks s) in
    CacheMetricData (num_completed_blocks s + 1)
      ((completed_block_cache_hit_rate s * n + hit_rate) / (n + 1)) 0 0 (block_size s)
  else CacheMetricData (num_completed_blocks s) (completed_block_cache_hit_rate s) q h (block_size s).

Definition get_hit_rate (s : t) : Q :=
  let incomplete_ratio :=
    (inject_Z (num_incompleted_block_queries s) / inject_Z (block_size s))%Q in
  let total_blocks := (inject_Z (num_completed_blocks s) + incomplete_ratio)%Q in
  if Qeq_bool total_blocks 0 then 0%Q
  else
    let completed_block_hit :=
      if 0 <? num_completed_blocks s
      then (completed_block_cache_hit_rate s * inject_Z (num_completed_blocks s))%Q else 0%Q in
    let incompleted_block_hit :=
      if 0 <? num_incompleted_block_queries s
      then (inject_Z (num_incompleted_block_hit s) / inject_Z (num_incompleted_block_queries s)
            * incomplete_ratio)%Q else 0%Q in
    ((completed_block_hit + incompleted_block_hit) / total_blocks)%Q.

Definition run (s : t) (qs : list bool) : t := foldl (fun s h => query h s) s qs.
Definition count_hits (qs : list bool) : Z := foldr (fun h n => (if h : bool then 1 else 0) + n) 0 qs.

(** [hits] of the [queries] so far, in the metric's representation. *)
Record represents (s : t) (queries hits : Z) : Prop := {
  rep_size : 0 < block_size s;
  rep_blocks : 0 <= num_completed_blocks s;
  rep_range : 0 <= num_incompleted_block_queries s < block_size s;
  rep_zero : num_incompleted_block_queries s = 0 -> num_incompleted_block_hit s = 0;
  rep_queries : queries = num_completed_blocks s * block_size s + num_incompleted_block_queries s;
  rep_hits : (completed_block_cache_hit_rate s * inject_Z (num_completed_blocks s)
              * inject_Z (block_size s) + inject_Z (num_incompleted_block_hit s)
              == inject_Z hits)%Q
}.

Lemma inject_pos n : 0 < n -> (0 < inject_Z n)%Q.
Proof. intros. change 0%Q with (inject_Z 0). by rewrite <- Zlt_Qlt. Qed.
Lemma inject_nonneg n : 0 <= n -> (0 <= inject_Z n)%Q.
Proof. intros. change 0%Q with (inject_Z 0). by rewrite <- Zle_Qle. Qed.

Lemma query_represents b s q h :
  represents s q h -> represents (query b s) (q + 1) (h + (if b then 1 else 0)).
Proof.
  intros [H1 H2 H3 H4 -> H5]. unfold query. cbv zeta.
  set (d := if b then 1 else 0).
  destruct (Z.eqb_spec (num_incompleted_block_queries s + 1) (block_size s)) as [E|E];
    split; cbn; try lia.
  - pose proof (inject_pos _ H1) as Hp. pose proof (inject_nonneg _ H2) as Hn.
    rewrite E. rewrite !inject_Z_plus. change (inject_Z 1) with 1%Q. change (inject_Z 0) with 0%Q.
    rewrite <- H5. field. split; lra.
  - rewrite !inject_Z_plus, <- H5. ring.
Qed.

Lemma run_represents qs : forall s q h,
  represents s q h -> represents (run s qs) (q + Z.of_nat (length qs)) (h + count_hits qs).
Proof.
  induction qs as [|b qs IH]; intros s q h Hs; cbn [run foldl length count_hits foldr].
  { by rewrite !Z.add_0_r. }
  apply (query_represents b) in Hs. apply IH in Hs. fold (count_hits qs).
  replace (q + Z.of_nat (S (length qs))) with (q + 1 + Z.of_nat (length qs)) by lia.
  by rewrite Z.add_assoc.
Qed.

Lemma represents_rate s q h :
  represents s q h -> 0 < q -> (get_hit_rate s == inject_Z h / inject_Z q)%Q.
Proof.
  intros [H1 H2 H3 H4 Hq H5] Hpos. unfold get_hit_rate. cbv zeta.
  pose proof (inject_pos _ H1) as Hp. pose proof (inject_nonneg _ H2) as Hn.
  pose proof (inject_nonneg _ (proj1 H3)) as Hr.
  assert (Htot : (inject_Z (num_completed_blocks s) +
    inject_Z (num_incompleted_block_queries s) / inject_Z (block_size s)
    == inject_Z q / inject_Z (block_size s))%Q).
  { rewrite Hq, inject_Z_plus, inject_Z_mult. field. lra. }
  pose proof (inject_pos _ Hpos) as Hqp.
  destruct (Qeq_bool _ 0) eqn:E.
  { apply Qeqb_eq in E. rewrite Htot in E. exfalso.
    assert (0 < inject_Z q / inject_Z (block_size s))%Q by (apply Qlt_shift_div_l; lra). lra. }
  rewrite Htot, <- H5.
  assert (Hc : ((if 0 <? num_completed_blocks s
      then completed_block_cache_hit_rate s * inject_Z (num_completed_blocks s) else 0)
      == completed_block_cache_hit_rate s * inject_Z (num_completed_blocks s))%Q).
  { destruct (Z.ltb_spec 0 (num_completed_blocks s)); [reflexivity|].
    replace (num_completed_blocks s) with 0 by lia. change (inject_Z 0) with 0%Q. ring. }
  assert (Hi : ((if 0 <? num_incompleted_block_queries s
      then inject_Z (num_incompleted_block_hit s) / inject_Z (num_incompleted_block_queries s)
           * (inject_Z (num_incompleted_block_queries s) / inject_Z (block_size s)) else 0)
      == inject_Z (num_incompleted_block_hit s) / inject_Z (block_size s))%Q).
  { destruct (Z.ltb_spec 0 (num_incompleted_block_queries s)) as [Hlt|Hge].
    - pose proof (inject_pos _ Hlt). field. split; lra.
    - rewrite H4 by lia. change (inject_Z 0) with 0%Q. field. lra. }
  rewrite Hc, Hi. field. split; lra.
Qed.

(** The hit rate that [CacheMetricData] keeps block by block is exactly the
    number of hits divided by the number of queries since it was created. *)
Theorem hit_rate_exact (qs : list bool) (Hqs : qs <> []) :
  (get_hit_rate (run init qs) == inject_Z (count_hits qs) / inject_Z (Z.of_nat (length qs)))%Q.
Proof.
  apply represents_rate.
  - apply (run_represents qs init 0 0). by split.
  - destruct qs; [done|]. cbn. lia.
Qed.

Lemma hit_rate_exact_witness :
  (get_hit_rate (run init [true; false; true]) == 2 # 3)%Q.
Proof. rewrite hit_rate_exact; [reflexivity|discriminate]. Defined.
End Metric.
