(* ===== verification/NaiveBlock.v ===== *)
(** * The naive allocator ([vllm/core/block/naive_block.py])

    [NaiveBlock] and [NaiveBlockAllocator].  The part of the allocator's state
    that deals in physical ids only ([ids]) is separate, because the
    prefix-caching allocator uses it as its "hashless" allocator with its own
    kind of block objects. *)
From S2P Require Import Prelude.
From S2P Require Import BlockCommon.

(** ** Physical ids *)

Module Ids.

Record t : Type := Ids {
  free_block_indices : list Z;
  all_block_indices : gset Z;
  refcounts : RefCounter.t
}.

(** The id part of [NaiveBlockAllocator.__init__]. *)
Definition init (num_blocks : Z) (block_ids : option (list Z)) : result t :=
  let ids := default (seqZ 0 num_blocks) block_ids in
  let all := list_to_set ids : gset Z in
  if Z.of_nat (size all) =? num_blocks
  then Ok (Ids ids all (RefCounter.init ids)) else Err AssertionError.

Definition with_refcounts (s : t) (m : RefCounter.t) : t :=
  Ids (free_block_indices s) (all_block_indices s) m.
Definition with_free (s : t) (l : list Z) : t :=
  Ids l (all_block_indices s) (refcounts s).

(** A call on the reference counter. *)
Definition counting {A} (f : M RefCounter.t A) : M t A := fun s =>
  let '(r, m) := f (refcounts s) in (r, with_refcounts s m).

(** [_allocate_block_id] *)
Definition allocate_block_id : M t Z := fun s =>
  match free_block_indices s with
  | [] => (Err NoFreeBlocksError, s)
  | b :: rest => (counting (RefCounter.incr b) ;; mret b) (with_free s rest)
  end.

(** [_free_block_id] for an id. *)
Definition free_block_id (block_id : Z) : M t unit :=
  c ← counting (RefCounter.decr block_id);
  if c =? 0 then modify (fun s => with_free s (block_id :: free_block_indices s))
  else mret tt.

Definition get_num_free_blocks (s : t) : Z := Z.of_nat (length (free_block_indices s)).
Definition get_num_total_blocks (s : t) : Z := Z.of_nat (size (all_block_indices s)).

(** [sorted(ids).index(absolute_id)] *)
Definition index_of (x : Z) (l : list Z) : result Z :=
  match list_find (fun y => y = x) l with
  | Some (i, _) => Ok (Z.of_nat i)
  | None => Err ValueError
  end.
Definition sorted_ids (ids : gset Z) : list Z := py_sorted (fun b => [inject_Z b]) (elements ids).
Definition get_physical_block_id (absolute_id : Z) (s : t) : result Z :=
  index_of absolute_id (sorted_ids (all_block_indices s)).

Definition refcount (s : t) (b : Z) : Z := default 0 (refcounts s !! b).

(** *** The ids' invariant: an id is free exactly when nothing refers to it *)

Record ids_ok (s : t) : Prop := {
  io_dom : forall b, is_Some (refcounts s !! b) <-> b ∈ all_block_indices s;
  io_nonneg : forall b c, refcounts s !! b = Some c -> 0 <= c;
  io_free : forall b, b ∈ free_block_indices s -> refcounts s !! b = Some 0;
  io_used : forall b, refcounts s !! b = Some 0 -> b ∈ free_block_indices s;
  io_nodup : NoDup (free_block_indices s)
}.

(** Without [io_used]: what holds of an allocator some of whose unreferenced ids
    are kept elsewhere. *)
Record ids_safe (s : t) : Prop := {
  is_dom : forall b, is_Some (refcounts s !! b) <-> b ∈ all_block_indices s;
  is_nonneg : forall b c, refcounts s !! b = Some c -> 0 <= c;
  is_free : forall b, b ∈ free_block_indices s -> refcounts s !! b = Some 0;
  is_nodup : NoDup (free_block_indices s)
}.

Lemma ids_ok_safe s : ids_ok s -> ids_safe s.
Proof. intros [? ? ? ? ?]. by split. Qed.

Lemma init_ids_ok n l s :
  NoDup (default (seqZ 0 n) l) -> init n l = Ok s -> ids_ok s.
Proof.
  unfold init. intros Hnd. destruct (_ =? n); [|done]. intros [= <-].
  set (ids := default _ _) in *.
  split; cbn; [| | | |done].
  - intros b. rewrite RefCounter.lookup_init, elem_of_list_to_set.
    case_decide; [split; [done|by eexists]|]. split; [by intros [? ?]|done].
  - intros b c. rewrite RefCounter.lookup_init. case_decide; [by intros [= <-]|done].
  - intros b Hb. by rewrite RefCounter.lookup_init, decide_True.
  - intros b. rewrite RefCounter.lookup_init. by case_decide.
Qed.

Lemma allocate_spec s :
  ids_safe s ->
  (free_block_indices s = [] /\ allocate_block_id s = (Err NoFreeBlocksError, s)) \/
  exists b rest, free_block_indices s = b :: rest /\
    allocate_block_id s = (Ok b, Ids rest (all_block_indices s) (<[b := 1]> (refcounts s))).
Proof.
  intros [H1 H2 H3 H4]. unfold allocate_block_id.
  destruct (free_block_indices s) as [|b rest] eqn:Hf; [by left|]. right.
  exists b, rest. split; [done|].
  assert (Hb : refcounts s !! b = Some 0) by (apply H3; rewrite ?Hf; left).
  rewrite bind_run. unfold counting, RefCounter.incr. cbn. by rewrite Hb.
Qed.

Lemma free_spec s b c :
  refcounts s !! b = Some c -> 0 < c ->
  free_block_id b s =
    (Ok tt, Ids (if c =? 1 then b :: free_block_indices s else free_block_indices s)
              (all_block_indices s) (<[b := c - 1]> (refcounts s))).
Proof.
  intros Hb Hc. unfold free_block_id. rewrite bind_run. unfold counting, RefCounter.decr.
  rewrite Hb, (proj2 (Z.ltb_lt _ _)) by done.
  replace (c - 1 =? 0) with (c =? 1) by (destruct (Z.eqb_spec c 1), (Z.eqb_spec (c - 1) 0); lia).
  by destruct (c =? 1).
Qed.

Lemma incr_spec s b c :
  refcounts s !! b = Some c -> 0 <= c ->
  counting (RefCounter.incr b) s = (Ok (c + 1), with_refcounts s (<[b := c + 1]> (refcounts s))).
Proof.
  intros Hb Hc. unfold counting, RefCounter.incr. by rewrite Hb, (proj2 (Z.leb_le _ _)).
Qed.

Lemma refcount_set s b c b' :
  refcount (with_refcounts s (<[b := c]> (refcounts s))) b' = if decide (b = b') then c else refcount s b'.
Proof.
  unfold refcount. cbn. case_decide; [subst; by rewrite lookup_insert_eq|by rewrite lookup_insert_ne].
Qed.

Lemma set_dom s b c c' b' :
  ids_ok s -> refcounts s !! b = Some c ->
  is_Some (<[b := c']> (refcounts s) !! b') <-> b' ∈ all_block_indices s.
Proof.
  intros Hs Hb. rewrite lookup_insert_is_Some', (io_dom s Hs). split; [|by right].
  intros [<-|?]; [|done]. apply (io_dom s Hs). by eexists.
Qed.

Lemma allocate_ok s b s' :
  ids_ok s -> allocate_block_id s = (Ok b, s') ->
  ids_ok s' /\ refcounts s !! b = Some 0 /\
  (forall b', refcount s' b' = refcount s b' + if decide (b = b') then 1 else 0) /\
  get_num_free_blocks s' = get_num_free_blocks s - 1.
Proof.
  intros Hs Ha. destruct (allocate_spec s (ids_ok_safe s Hs)) as [[Hf He]|(b0 & rest & Hf & He)];
    rewrite He in Ha; [done|]. injection Ha as -> <-.
  assert (Hb : refcounts s !! b = Some 0) by (apply (io_free s Hs); rewrite Hf; left).
  pose proof (io_nodup s Hs) as Hnd. rewrite Hf in Hnd. apply NoDup_cons in Hnd as [Hb' Hnd].
  split; [split; cbn|split; [done|split]].
  - intros b'. by eapply set_dom.
  - intros b' c [[_ <-]|[_ Hc]]%lookup_insert_Some; [done|]. by eapply io_nonneg.
  - intros b' Hin. rewrite lookup_insert_ne by (intros ->; done).
    apply (io_free s Hs). rewrite Hf. by right.
  - intros b' [[_ ?]|[Hne Hc]]%lookup_insert_Some; [done|].
    apply (io_used s Hs) in Hc. rewrite Hf in Hc. by apply elem_of_cons in Hc as [?|?].
  - done.
  - intros b'. unfold refcount. cbn. case_decide; [subst; by rewrite lookup_insert_eq, Hb|].
    rewrite lookup_insert_ne by done. lia.
  - unfold get_num_free_blocks. rewrite Hf. cbn. lia.
Qed.

Lemma free_ok s b s' :
  ids_ok s -> free_block_id b s = (Ok tt, s') ->
  ids_ok s' /\ 0 < refcount s b /\
  (forall b', refcount s' b' = refcount s b' - if decide (b = b') then 1 else 0).
Proof.
  intros Hs Hfr. destruct (refcounts s !! b) as [c|] eqn:Hb.
  2: { unfold free_block_id in Hfr. rewrite bind_run in Hfr.
       unfold counting, RefCounter.decr in Hfr. by rewrite Hb in Hfr. }
  destruct (Z.ltb_spec 0 c) as [Hc|Hc].
  2: { unfold free_block_id in Hfr. rewrite bind_run in Hfr.
       unfold counting, RefCounter.decr in Hfr. by rewrite Hb, (proj2 (Z.ltb_ge _ _)) in Hfr by done. }
  rewrite (free_spec s b c Hb Hc) in Hfr. injection Hfr as <-.
  assert (Hnf : b ∉ free_block_indices s).
  { intros Hin%(io_free s Hs). rewrite Hb in Hin. injection Hin. lia. }
  split; [split; cbn|split].
  - intros b'. by eapply set_dom.
  - intros b' c' [[_ <-]|[_ Hc']]%lookup_insert_Some; [lia|]. by eapply io_nonneg.
  - intros b' Hin. destruct (Z.eqb_spec c 1) as [->|Hne].
    + apply elem_of_cons in Hin as [->|Hin]; [by rewrite lookup_insert_eq|].
      rewrite lookup_insert_ne by (intros ->; done). by apply (io_free s Hs).
    + rewrite lookup_insert_ne by (intros ->; done). by apply (io_free s Hs).
  - intros b' [[<- ?]|[Hne Hc']]%lookup_insert_Some.
    + replace c with 1 by lia. left.
    + apply (io_used s Hs) in Hc'. destruct (c =? 1); [by right|done].
  - destruct (c =? 1); [|apply Hs]. apply NoDup_cons. split; [done|apply Hs].
  - unfold refcount. by rewrite Hb.
  - intros b'. unfold refcount. cbn. case_decide.
    + subst. by rewrite lookup_insert_eq, Hb.
    + rewrite lookup_insert_ne by done. lia.
Qed.

Lemma id_incr_ok s b c s' :
  ids_ok s -> counting (RefCounter.incr b) s = (Ok c, s') -> c <> 1 ->
  ids_ok s' /\ (forall b', refcount s' b' = refcount s b' + if decide (b = b') then 1 else 0).
Proof.
  intros Hs Hi Hc1. unfold counting in Hi. destruct (RefCounter.incr b (refcounts s)) as [r m] eqn:Hr.
  injection Hi as -> <-. apply RefCounter.incr_ok in Hr as (c0 & Hb & Hc0 & -> & ->).
  assert (Hnf : b ∉ free_block_indices s).
  { intros Hin%(io_free s Hs). rewrite Hb in Hin. injection Hin. lia. }
  split; [split; cbn|].
  - intros b'. by eapply set_dom.
  - intros b' c' [[_ <-]|[_ Hc']]%lookup_insert_Some; [lia|]. by eapply io_nonneg.
  - intros b' Hin. rewrite lookup_insert_ne by (intros ->; done). by apply (io_free s Hs).
  - intros b' [[<- ?]|[Hne Hc']]%lookup_insert_Some; [lia|]. by apply (io_used s Hs).
  - apply Hs.
  - intros b'. rewrite refcount_set. case_decide; [subst; unfold refcount; rewrite Hb; done|lia].
Qed.
End Ids.

(** ** Blocks and their allocator *)

Module Naive.

(** [NaiveBlock]; [_cow_target] is always the block itself. *)
Record block : Type := NaiveBlock {
  prev_block : option Z;
  token_ids : list Z;
  block_size : Z;
  block_id : option Z
}.

Definition num_empty_slots (o : block) : Z := block_size o - Z.of_nat (length (token_ids o)).
Definition is_full (o : block) : bool := num_empty_slots o =? 0.

Definition set_block_id (o : block) (b : option Z) : block :=
  NaiveBlock (prev_block o) (token_ids o) (block_size o) b.

(** [_append_token_ids_no_cow] *)
Definition append_token_ids_no_cow (toks : list Z) (o : block) : result unit * block :=
  match toks with
  | [] => (Ok tt, o)
  | _ =>
      if Z.of_nat (length toks) <=? num_empty_slots o
      then (Ok tt, NaiveBlock (prev_block o) (token_ids o ++ toks) (block_size o) (block_id o))
      else (Err AssertionError, o)
  end.

(** [__init__] on an existing object *)
Definition reinit (prev : option Z) (toks : list Z) (bsize : Z) (b : option Z) (_ : block)
    : result unit * block :=
  append_token_ids_no_cow toks (NaiveBlock prev [] bsize b).

Record t : Type := NaiveBlockAllocator {
  ids : Ids.t;
  pool : BlockPool.t block;
  bsize : Z;
  cow : Cow.t
}.

Definition blank (bs : Z) : block := NaiveBlock None [] bs None.

Definition init (num_blocks bs : Z) (block_ids : option (list Z)) : result t :=
  i ← Ids.init num_blocks block_ids;
  p ← BlockPool.init (blank bs) (num_blocks * 4);
  Ok (NaiveBlockAllocator i p bs []).

Definition with_ids (s : t) (i : Ids.t) : t := NaiveBlockAllocator i (pool s) (bsize s) (cow s).
Definition with_pool (s : t) (p : BlockPool.t block) : t :=
  NaiveBlockAllocator (ids s) p (bsize s) (cow s).
Definition with_cow (s : t) (c : Cow.t) : t := NaiveBlockAllocator (ids s) (pool s) (bsize s) c.

Definition on_ids {A} (f : M Ids.t A) : M t A := fun s =>
  let '(r, i) := f (ids s) in (r, with_ids s i).
Definition on_cow {A} (f : M Cow.t A) : M t A := fun s =>
  let '(r, c) := f (cow s) in (r, with_cow s c).

(** The object of a reference. *)
Definition obj (p : Z) : M t block := fun s =>
  (from_option_exn AttributeError (BlockPool.objs (pool s) !! p), s).
Definition put (p : Z) (o : block) : M t unit :=
  modify (fun s => with_pool s (BlockPool.set_obj p o (pool s))).

Definition init_block (prev : option Z) (toks : list Z) (b : option Z) : M t Z := fun s =>
  let '(r, q) := BlockPool.init_block (blank (bsize s)) (reinit prev toks (bsize s) b) (pool s) in
  (r, with_pool s q).

Definition allocate_mutable_block (prev : option Z) : M t Z :=
  b ← on_ids Ids.allocate_block_id;
  init_block prev [] (Some b).

(** [_free_block_id] for a block object. *)
Definition free_block_id (p : Z) : M t unit :=
  o ← obj p;
  put p (set_block_id o None) ;;
  match block_id o with
  | None => raise AssertionError
  | Some b => on_ids (Ids.free_block_id b)
  end.

Definition free (p : Z) (keep_block_object : bool) : M t unit :=
  free_block_id p ;;
  if keep_block_object then mret tt
  else modify (fun s => with_pool s (BlockPool.free_block p (pool s))).

Definition cow_block_if_not_appendable (p : Z) : M t Z :=
  o ← obj p;
  match block_id o with
  | None => raise AssertionError
  | Some src =>
      s ← get;
      ok ← lift (Cow.is_appendable (Ids.refcounts (ids s)) (Some src));
      if ok : bool then mret src
      else
        free_block_id p ;;
        trg ← on_ids Ids.allocate_block_id;
        on_cow (Cow.record_cow (Some src) (Some trg)) ;;
        mret trg
  end.

(** [NaiveBlock.append_token_ids] *)
Definition append_token_ids (p : Z) (toks : list Z) : M t unit :=
  o ← obj p;
  match append_token_ids_no_cow toks o with
  | (Err e, _) => raise e
  | (Ok _, o1) =>
      put p o1 ;;
      match block_id o1 with
      | None => mret tt
      | Some _ =>
          b ← cow_block_if_not_appendable p;
          o2 ← obj p;
          put p (set_block_id o2 (Some b))
      end
  end.

Definition allocate_immutable_block (prev : option Z) (toks : list Z) : M t Z :=
  p ← allocate_mutable_block prev;
  append_token_ids p toks ;;
  mret p.

(** The second loop of [allocate_immutable_blocks]. *)
Fixpoint init_blocks (prev : option Z) (l : list (list Z * Z)) : M t (list Z) :=
  match l with
  | [] => mret []
  | (toks, b) :: l' =>
      p ← init_block prev toks (Some b);
      ps ← init_blocks (Some p) l';
      mret (p :: ps)
  end.

(** The ids are all taken first, so running out leaves the earlier ones taken. *)
Definition allocate_immutable_blocks (prev : option Z) (block_token_ids : list (list Z))
    : M t (list Z) :=
  bs ← map_each block_token_ids (fun _ => on_ids Ids.allocate_block_id);
  init_blocks prev (zip block_token_ids bs).

(** The loop of [fork]. *)
Fixpoint fork_blocks (prev : option Z) (l : list Z) : M t (list Z) :=
  match l with
  | [] => mret []
  | p :: l' =>
      o ← obj p;
      match block_id o with
      | None => raise AssertionError
      | Some b =>
          c ← on_ids (Ids.counting (RefCounter.incr b));
          if c =? 1 then raise AssertionError
          else
            q ← init_block prev (token_ids o) (Some b);
            qs ← fork_blocks (Some q) l';
            mret (q :: qs)
      end
  end.

Definition source_blocks (p : Z) (s : t) : result (list Z) :=
  get_all_blocks_recursively prev_block (BlockPool.objs (pool s))
    (S (size (BlockPool.objs (pool s)))) p.

Definition fork (last_block : Z) : M t (list Z) :=
  s ← get;
  l ← lift (source_blocks last_block s);
  fork_blocks None l.

Definition get_num_free_blocks (s : t) : Z := Ids.get_num_free_blocks (ids s).
Definition get_num_total_blocks (s : t) : Z := Ids.get_num_total_blocks (ids s).

Definition clear_copy_on_writes : M t (list (Z * Z)) := on_cow Cow.clear_cows.

Definition mark_blocks_as_accessed (bs : list Z) : M t unit := mret tt.
Definition mark_blocks_as_computed (bs : list Z) : M t unit := mret tt.
Definition get_common_computed_block_ids (ls : list (list Z)) : list Z := [].
Definition promote_to_immutable_block (p : Z) : M t Z := raise NotImplementedError.
Definition get_prefix_cache_hit_rate (s : t) : Q := (-1)%Q.
Definition reset_prefix_cache : M t bool := mret true.
Definition find_cached_blocks_prefix (hs : list Z) : list Z := [].

(** Distinct full block objects. *)
Definition get_num_full_blocks_touched (ps : list Z) (s : t) : Z :=
  Z.of_nat (size (list_to_set (filter (fun p =>
    default false (is_full <$> BlockPool.objs (pool s) !! p) = true) ps) : gset Z)).

Definition swap_out (ps : list Z) : M t unit := for_each ps free_block_id.

(** ** Reference counts count references *)

(** How many objects hold the physical id [b]. *)
Abbreviation owners := (owners block_id).
Abbreviation points := (points block_id).

Lemma owners_add_blank bs from n m b :
  (forall i, from <= i < from + n -> m !! i = None) ->
  owners (BlockPool.add_objs (blank bs) from n m) b = owners m b.
Proof.
  intros Hnew. unfold BlockPool.add_objs.
  assert (Hl : forall i, i ∈ seqZ from n -> m !! i = None).
  { intros i Hi%elem_of_seqZ. by apply Hnew. }
  pose proof (NoDup_seqZ from n) as Hnd. clear Hnew.
  induction (seqZ from n) as [|j l IH]; cbn; [done|].
  apply NoDup_cons in Hnd as [Hj Hnd]. rewrite owners_fresh.
  - rewrite IH by (done || (intros; apply Hl; by right)). unfold points. cbn.
    rewrite decide_False by done. lia.
  - assert (H0 : m !! j = None) by (apply Hl; left). clear IH Hl Hnd.
    induction l as [|k l IH]; cbn; [done|]. rewrite not_elem_of_cons in Hj.
    rewrite lookup_insert_ne by (intros ->; tauto). apply IH. tauto.
Qed.

(** The invariant of the allocator. *)
Record naive_ok (s : t) : Prop := {
  no_ids : Ids.ids_ok (ids s);
  no_pool : BlockPool.pool_ok (pool s);
  no_size : 0 < BlockPool.pool_size (pool s);
  no_bsize : 0 < bsize s;
  no_counts : forall b, Ids.refcount (ids s) b = owners (BlockPool.objs (pool s)) b;
  (** Objects waiting in the pool hold no id. *)
  no_spare : forall i o, i ∈ BlockPool.free_ids (pool s) ->
    BlockPool.objs (pool s) !! i = Some o -> block_id o = None
}.

(** *** The pool part, for any change of ids *)

Record pool_inv (s : t) : Prop := {
  pi_pool : BlockPool.pool_ok (pool s);
  pi_size : 0 < BlockPool.pool_size (pool s);
  pi_bsize : 0 < bsize s;
  pi_spare : forall i o, i ∈ BlockPool.free_ids (pool s) ->
    BlockPool.objs (pool s) !! i = Some o -> block_id o = None
}.

Lemma naive_pool_inv s : naive_ok s -> pool_inv s.
Proof. by intros [? ? ? ? ? ?]. Qed.

(** A live object: handed out and not returned. *)
Definition live (s : t) (i : Z) : Prop :=
  is_Some (BlockPool.objs (pool s) !! i) /\ i ∉ BlockPool.free_ids (pool s).

Definition owners_of (s : t) : Z -> Z := owners (BlockPool.objs (pool s)).

Lemma reinit_ok prev toks bs b o :
  Z.of_nat (length toks) <= bs ->
  reinit prev toks bs b o = (Ok tt, NaiveBlock prev toks bs b).
Proof.
  intros Hl. unfold reinit, append_token_ids_no_cow. destruct toks as [|x l]; [done|].
  unfold num_empty_slots. cbn [block_size token_ids length]. cbn [length] in Hl.
  by rewrite (proj2 (Z.leb_le _ _)) by lia.
Qed.

Lemma grown_pool s :
  pool_inv s -> BlockPool.free_ids (pool s) = [] ->
  pool_inv (with_pool s (BlockPool.increase_pool (blank (bsize s)) (pool s))) /\
  forall b, owners_of (with_pool s (BlockPool.increase_pool (blank (bsize s)) (pool s))) b
            = owners_of s b.
Proof.
  intros [Hp Hs Hb Hsp] Hf. split.
  - split; cbn; [by apply BlockPool.increase_ok|lia|done|].
    rewrite Hf. cbn. intros i o Hi%elem_of_seqZ. rewrite BlockPool.lookup_add_objs, decide_True by done.
    by intros [= <-].
  - intros b. apply owners_add_blank. intros i Hi.
    destruct (BlockPool.objs (pool s) !! i) eqn:E; [|done].
    assert (0 <= i < BlockPool.pool_size (pool s)) by (apply Hp; by eexists). lia.
Qed.

Lemma init_block_ok prev toks b s :
  pool_inv s -> Z.of_nat (length toks) <= bsize s ->
  exists i p, init_block prev toks b s = (Ok i, with_pool s p) /\
    pool_inv (with_pool s p) /\ live (with_pool s p) i /\ ~ live s i /\
    BlockPool.objs p !! i = Some (NaiveBlock prev toks (bsize s) b) /\
    (forall b', owners_of (with_pool s p) b'
                = owners_of s b' + points (NaiveBlock prev toks (bsize s) b) b') /\
    (forall j, live s j -> live (with_pool s p) j /\
       BlockPool.objs p !! j = BlockPool.objs (pool s) !! j) /\
    (forall j, j <> i -> BlockPool.objs p !! j = BlockPool.objs (pool s) !! j \/
       BlockPool.objs (pool s) !! j = None /\ BlockPool.objs p !! j = Some (blank (bsize s))).
Proof.
  intros Hinv Hl.
  pose proof (BlockPool.init_block_spec (blank (bsize s)) (reinit prev toks (bsize s) b) (pool s)
    (pi_pool s Hinv) (pi_size s Hinv) (fun o => ex_intro _ _ (reinit_ok prev toks (bsize s) b o Hl)))
    as (i & p & o & o' & Hrun & Hok & Ho' & Hi & Hfrom & Hnf & Hsame & Hnew & Hfree & Hkeep & Hpos).
  rewrite reinit_ok in Ho' by done. injection Ho' as <-.
  unfold init_block. rewrite Hrun. exists i, p. split; [done|].
  (* the state just before the object is written *)
  set (s1 := match BlockPool.free_ids (pool s) with
             | [] => with_pool s (BlockPool.increase_pool (blank (bsize s)) (pool s))
             | _ => s end).
  assert (H1 : pool_inv s1 /\ forall b', owners_of s1 b' = owners_of s b').
  { unfold s1. destruct (BlockPool.free_ids (pool s)) eqn:Hf; [by apply grown_pool|done]. }
  destruct H1 as [Hinv1 Hown1].
  assert (Hwrite : exists o, BlockPool.objs (pool s1) !! i = Some o /\ i ∈ BlockPool.free_ids (pool s1) /\
    p = BlockPool.BlockPool (tail (BlockPool.free_ids (pool s1)))
          (<[i := NaiveBlock prev toks (bsize s) b]> (BlockPool.objs (pool s1)))
          (BlockPool.pool_size (pool s1))).
  { assert (Hp1 : pool s1 = match BlockPool.free_ids (pool s) with
                            | [] => BlockPool.increase_pool (blank (bsize s)) (pool s)
                            | _ => pool s end).
    { unfold s1. by destruct (BlockPool.free_ids (pool s)). }
    unfold BlockPool.init_block in Hrun. rewrite <- Hp1 in Hrun.
    destruct (BlockPool.free_ids (pool s1)) as [|i' rest] eqn:Hf1; [done|].
    destruct (BlockPool.objs (pool s1) !! i') as [o1|] eqn:Ho1; [|done].
    rewrite reinit_ok in Hrun by done. injection Hrun as -> <-.
    exists o1. split; [done|]. split; [left|done]. }
  destruct Hwrite as (o1 & Ho1 & Hin1 & Hp).
  assert (Hbid : block_id o1 = None) by (by eapply (pi_spare s1 Hinv1)).
  split; [split; cbn; [done|done|apply Hinv|]|].
  { intros j oj Hj Hoj. assert (j <> i) as Hne by (intros ->; done).
    rewrite Hp in Hj, Hoj. cbn in Hj, Hoj. rewrite lookup_insert_ne in Hoj by done.
    eapply (pi_spare s1 Hinv1); [|done]. destruct (BlockPool.free_ids (pool s1)); [done|by right]. }
  split; [split; [by eexists|done]|].
  split.
  { intros [Hs Hn]. destruct Hfrom as [?|[Hnil Hge]]; [done|].
    apply (BlockPool.po_objs _ (pi_pool s Hinv)) in Hs. lia. }
  split; [done|]. split.
  - intros b'. rewrite <- Hown1. unfold owners_of. rewrite Hp. cbn.
    rewrite (owners_set _ _ _ _ _ Ho1), (points_none o1 b' Hbid). lia.
  - split; [|intros j Hj; rewrite Hp; cbn; rewrite lookup_insert_ne by done; unfold s1].
    2: { destruct (BlockPool.free_ids (pool s)); [|by left]. cbn. rewrite BlockPool.lookup_add_objs.
      case_decide as Hr; [right|by left]. split; [|done].
      destruct (BlockPool.objs (pool s) !! j) eqn:E; [|done].
      assert (0 <= j < BlockPool.pool_size (pool s)) by (apply (pi_pool s Hinv); by eexists). lia. }
    intros j [Hj Hjf]. assert (Hne : j <> i).
    { intros ->. destruct Hfrom as [?|[Hnil Hge]]; [done|].
      apply (BlockPool.po_objs _ (pi_pool s Hinv)) in Hj. lia. }
    rewrite Hsame by done. split; [|done]. split; cbn; [by rewrite Hsame|].
    intros Hjf'. destruct (Hfree j Hjf') as [?|[Hnil Hge]]; [done|].
    apply (BlockPool.po_objs _ (pi_pool s Hinv)) in Hj. lia.
Qed.

(** *** Every call that returns keeps the counts right

    [d] is what has been taken and is not yet held by an object. *)

Record balanced (d : Z -> Z) (s : t) : Prop := {
  ba_ids : Ids.ids_ok (ids s);
  ba_pool : pool_inv s;
  ba_counts : forall b, Ids.refcount (ids s) b = owners_of s b + d b
}.

Definition one (b : Z) : Z -> Z := fun b' => if decide (b = b') then 1 else 0.

Lemma naive_balanced s : naive_ok s <-> balanced (fun _ => 0) s.
Proof.
  split.
  - intros [? ? ? ? H ?]. split; [done|done|]. intros b. by rewrite Z.add_0_r, H.
  - intros [? [? ? ? ?] H]. split; try done. intros b. by rewrite H, Z.add_0_r.
Qed.

Lemma balanced_ext d d' s : (forall b, d b = d' b) -> balanced d s -> balanced d' s.
Proof. intros Hd [? ? H]. split; [done..|]. intros b. by rewrite H, Hd. Qed.

Lemma on_ids_ok {A} (f : M Ids.t A) s a s' :
  on_ids f s = (Ok a, s') -> exists i, f (ids s) = (Ok a, i) /\ s' = with_ids s i.
Proof. unfold on_ids. destruct (f (ids s)) as [r i]. intros [= -> <-]. by exists i. Qed.

Lemma allocate_balanced d s b s' :
  balanced d s -> on_ids Ids.allocate_block_id s = (Ok b, s') ->
  balanced (fun b' => d b' + one b b') s' /\ pool s' = pool s /\ bsize s' = bsize s /\ cow s' = cow s /\
  Ids.refcounts (ids s) !! b = Some 0.
Proof.
  intros [Hi Hp Hc] (i & Ha & ->)%on_ids_ok.
  destruct (Ids.allocate_ok _ _ _ Hi Ha) as (Hi' & Hb & Hr & _).
  split; [split; [done|by destruct Hp; split|]|done].
  intros b'. cbn. rewrite Hr, Hc. unfold one, owners_of. cbn. lia.
Qed.

Lemma init_balanced d prev toks b s i s' :
  balanced (fun b' => d b' + one b b') s -> Z.of_nat (length toks) <= bsize s ->
  init_block prev toks (Some b) s = (Ok i, s') ->
  balanced d s' /\ live s' i /\ ~ live s i /\ ids s' = ids s /\ bsize s' = bsize s /\ cow s' = cow s /\
  BlockPool.objs (pool s') !! i = Some (NaiveBlock prev toks (bsize s) (Some b)) /\
  (forall j, live s j -> live s' j /\
     BlockPool.objs (pool s') !! j = BlockPool.objs (pool s) !! j).
Proof.
  intros [Hi Hp Hc] Hl Hrun.
  destruct (init_block_ok prev toks (Some b) s Hp Hl) as (i' & p & Hrun' & Hp' & Hlive & Hnl & Ho & Hown & Hfr & _).
  rewrite Hrun in Hrun'. injection Hrun' as -> ->.
  split; [split; [done|done|]|done].
  intros b'. cbn. rewrite Hc, Hown. unfold one. rewrite (points_some _ b) by done. lia.
Qed.

Lemma put_balanced d p o o' s :
  balanced d s -> BlockPool.objs (pool s) !! p = Some o ->
  (p ∈ BlockPool.free_ids (pool s) -> block_id o' = None) ->
  balanced (fun b => d b + points o b - points o' b) (with_pool s (BlockPool.set_obj p o' (pool s))).
Proof.
  intros [Hi [Hp Hs Hbs Hsp] Hc] Ho Hfree. split; [done| |].
  - split; cbn; [|done|done|].
    + destruct Hp as [H1 H2 H3 H4]. split; cbn; [done| |done|done].
      intros j. destruct (decide (p = j)) as [<-|Hne].
      * rewrite lookup_insert_eq, <- H2, Ho. by split; intros; eexists.
      * by rewrite lookup_insert_ne.
    + intros j oj Hj [[-> <-]|[_ Hoj]]%lookup_insert_Some; [by apply Hfree|by eapply Hsp].
  - intros b. cbn. rewrite Hc. unfold owners_of. cbn. rewrite (owners_set _ _ _ _ _ Ho). lia.
Qed.

Lemma obj_ok p s o s' : obj p s = (Ok o, s') -> BlockPool.objs (pool s) !! p = Some o /\ s' = s.
Proof. unfold obj. destruct (_ !! p) as [x|]; cbn; [|done]. by intros [= -> <-]. Qed.

(** [free_block_id]: the object gives up its id. *)
Lemma free_id_ok d p s s' :
  balanced d s -> free_block_id p s = (Ok tt, s') ->
  exists o b, BlockPool.objs (pool s) !! p = Some o /\ block_id o = Some b /\
    balanced d s' /\ pool s' = BlockPool.set_obj p (set_block_id o None) (pool s) /\
    bsize s' = bsize s /\ cow s' = cow s /\
    (forall b', Ids.refcount (ids s') b' = Ids.refcount (ids s) b' - one b b').
Proof.
  intros Hs. unfold free_block_id. intros (o & s1 & (Ho & ->)%obj_ok & H)%bind_ok.
  rewrite (bind_step (put _ _) _ s tt _ eq_refl) in H.
  destruct (block_id o) as [b|] eqn:Hb; [|done]. apply on_ids_ok in H as (i & Hf & ->).
  pose proof (put_balanced d p o (set_block_id o None) s Hs Ho (fun _ => eq_refl)) as [Hi Hp Hc].
  destruct (Ids.free_ok _ _ _ Hi Hf) as (Hi' & _ & Hr).
  exists o, b. split; [done|]. split; [done|]. split; [|done].
  split; [done|by destruct Hp; split|]. intros b'. cbn. rewrite Hr, Hc.
  rewrite (points_some o b b' Hb), (points_none (set_block_id o None) b') by done.
  unfold owners_of. cbn. lia.
Qed.

Lemma balanced_cow d s c : balanced d s -> balanced d (with_cow s c).
Proof. intros [? [? ? ? ?] ?]. by split. Qed.

(** Either the block is the only one on its id, or it moves to a fresh id and
    the pair is recorded. *)
Lemma cow_ok d p s b s' :
  balanced d s -> cow_block_if_not_appendable p s = (Ok b, s') ->
  exists o src, BlockPool.objs (pool s) !! p = Some o /\ block_id o = Some src /\
    ((b = src /\ s' = s /\ Ids.refcount (ids s) src <= 1) \/
     (1 < Ids.refcount (ids s) src /\ balanced (fun b' => d b' + one b b') s' /\
      pool s' = BlockPool.set_obj p (set_block_id o None) (pool s) /\
      bsize s' = bsize s /\ cow s' = cow s ++ [(src, b)] /\ b <> src /\
      (forall b', Ids.refcount (ids s') b' = Ids.refcount (ids s) b' - one src b' + one b b') /\
      Ids.refcount (ids s) b = 0)).
Proof.
  intros Hs. unfold cow_block_if_not_appendable. intros (o & s1 & (Ho & ->)%obj_ok & H)%bind_ok.
  exists o. destruct (block_id o) as [src|] eqn:Hb; [|done]. exists src.
  split; [done|]. split; [done|].
  rewrite (bind_step get _ s s s eq_refl) in H.
  apply bind_ok in H as (ok & s1 & Hok & H). unfold lift in Hok. injection Hok as Hok <-.
  unfold Cow.is_appendable, RefCounter.get in Hok.
  destruct (Ids.refcounts (ids s) !! src) as [c|] eqn:Hc; [|done]. injection Hok as <-.
  assert (Hrc : Ids.refcount (ids s) src = c) by (unfold Ids.refcount; by rewrite Hc).
  destruct (Z.leb_spec c 1) as [Hle|Hlt].
  - injection H as <- <-. left. split; [done|]. split; [done|lia].
  - right. apply bind_ok in H as ([] & s1 & Hf & H).
    destruct (free_id_ok d p s s1 Hs Hf) as (o' & b0 & Ho' & Hb0 & Hs1 & Hp1 & Hbs1 & Hc1 & Hr1).
    rewrite Ho in Ho'. injection Ho' as <-. rewrite Hb in Hb0. injection Hb0 as <-.
    apply bind_ok in H as (trg & s2 & Ha & H).
    destruct (allocate_balanced d s1 trg s2 Hs1 Ha) as (Hs2 & Hp2 & Hbs2 & Hc2 & H0).
    apply bind_ok in H as ([] & s3 & Hcow & H). injection H as <- <-.
    unfold on_cow, Cow.record_cow in Hcow. injection Hcow as <-.
    assert (Hz : Ids.refcount (ids s1) trg = 0) by (unfold Ids.refcount; by rewrite H0).
    assert (Hne : trg <> src).
    { intros ->. rewrite Hr1, Hrc in Hz. unfold one in Hz. rewrite decide_True in Hz by done. lia. }
    split; [lia|]. split; [by apply balanced_cow|]. cbn.
    split; [by rewrite Hp2|]. split; [by rewrite Hbs2|]. split; [by rewrite Hc2, Hc1|].
    split; [done|]. split.
    + intros b'. rewrite <- Hr1. apply on_ids_ok in Ha as (i & Ha & ->). cbn.
      destruct (Ids.allocate_ok _ _ _ (ba_ids _ _ Hs1) Ha) as (_ & _ & Hr2 & _). apply Hr2.
    + rewrite Hr1 in Hz. unfold one in Hz. rewrite decide_False in Hz by congruence. lia.
Qed.

Lemma append_no_cow_ok toks o o' :
  append_token_ids_no_cow toks o = (Ok tt, o') ->
  o' = NaiveBlock (prev_block o) (token_ids o ++ toks) (block_size o) (block_id o) /\
  (toks <> [] -> Z.of_nat (length (token_ids o ++ toks)) <= block_size o).
Proof.
  unfold append_token_ids_no_cow. destruct toks as [|x l].
  - intros [= <-]. rewrite app_nil_r. by destruct o.
  - destruct (Z.leb_spec (Z.of_nat (length (x :: l))) (num_empty_slots o)) as [Hle|]; [|done].
    intros [= <-]. split; [done|]. intros _. unfold num_empty_slots in Hle.
    rewrite length_app. lia.
Qed.

(** The effect of a successful [append_token_ids] on a block that holds [src]. *)
Record appended (p : Z) (toks : list Z) (o : block) (src b : Z) (s s' : t) : Prop := {
  ap_obj : BlockPool.objs (pool s') !! p
           = Some (NaiveBlock (prev_block o) (token_ids o ++ toks) (block_size o) (Some b));
  ap_others : forall q, q <> p -> BlockPool.objs (pool s') !! q = BlockPool.objs (pool s) !! q;
  ap_free : BlockPool.free_ids (pool s') = BlockPool.free_ids (pool s);
  ap_same : b = src -> cow s' = cow s /\ ids s' = ids s /\ Ids.refcount (ids s) src <= 1;
  ap_moved : b <> src -> cow s' = cow s ++ [(src, b)] /\ 1 < Ids.refcount (ids s) src /\
    Ids.refcount (ids s) b = 0 /\
    forall b', Ids.refcount (ids s') b' = Ids.refcount (ids s) b' - one src b' + one b b'
}.

Lemma append_ok d p toks s s' :
  balanced d s -> append_token_ids p toks s = (Ok tt, s') ->
  balanced d s' /\ bsize s' = bsize s /\
  exists o, BlockPool.objs (pool s) !! p = Some o /\
    (toks <> [] -> Z.of_nat (length (token_ids o ++ toks)) <= block_size o) /\
    match block_id o with
    | None => s' = with_pool s (BlockPool.set_obj p
                (NaiveBlock (prev_block o) (token_ids o ++ toks) (block_size o) None) (pool s))
    | Some src => exists b, appended p toks o src b s s'
    end.
Proof.
  intros Hs. unfold append_token_ids. intros (o & s1 & (Ho & ->)%obj_ok & H)%bind_ok.
  destruct (append_token_ids_no_cow toks o) as [[[]|e] o1] eqn:Happ; [|done].
  apply append_no_cow_ok in Happ as [-> Hlen].
  rewrite (bind_step (put _ _) _ s tt _ eq_refl) in H. cbn [block_id] in H.
  assert (Hs1 : balanced d (with_pool s (BlockPool.set_obj p
    (NaiveBlock (prev_block o) (token_ids o ++ toks) (block_size o) (block_id o)) (pool s)))).
  { eapply balanced_ext; [|apply (put_balanced d p o); [done|done|]].
    - intros b. unfold points. cbn. lia.
    - intros Hfree. exact (pi_spare s (ba_pool _ _ Hs) p o Hfree Ho). }
  destruct (block_id o) as [src|] eqn:Hb.
  2: { injection H as <-. split; [done|]. split; [done|]. exists o. by rewrite Hb. }
  set (o1 := NaiveBlock _ _ _ (Some src)) in *. set (s1 := with_pool s _) in *.
  apply bind_ok in H as (b & s2 & Hcow & H).
  apply bind_ok in H as (o2 & s3 & (Ho2 & ->)%obj_ok & H). injection H as <-.
  destruct (cow_ok d p s1 b s2 Hs1 Hcow) as (o1' & src' & Ho1 & Hsrc & Hcase).
  cbn in Ho1. rewrite lookup_insert_eq in Ho1. injection Ho1 as <-. injection Hsrc as <-.
  destruct Hcase as [(-> & -> & Hle)|(Hlt & Hs2 & Hp2 & Hbs2 & Hc2 & Hne & Hr2 & H0)].
  - cbn in Ho2. rewrite lookup_insert_eq in Ho2. injection Ho2 as <-.
    assert (Heq : with_pool s1 (BlockPool.set_obj p (set_block_id o1 (Some src)) (pool s1)) = s1).
    { unfold s1, with_pool, BlockPool.set_obj, set_block_id. cbn. by rewrite insert_insert_eq. }
    rewrite Heq. split; [done|]. split; [done|]. exists o. rewrite Hb.
    split; [done|]. split; [done|]. exists src.
    split; cbn; [by rewrite lookup_insert_eq| |done|done|done].
    intros q Hq. by rewrite lookup_insert_ne by done.
  - rewrite Hp2 in Ho2. cbn in Ho2. rewrite lookup_insert_eq in Ho2. injection Ho2 as <-.
    set (s3 := with_pool s2 _).
    assert (Hs3 : balanced d s3).
    { eapply balanced_ext; [|apply (put_balanced (fun b' => d b' + one b b') p (set_block_id o1 None))].
      - intros b'. cbn. rewrite (points_none (set_block_id o1 None)) by done.
        rewrite (points_some (set_block_id _ (Some b)) b) by done. unfold one. lia.
      - done.
      - rewrite Hp2. cbn. apply lookup_insert_eq.
      - rewrite Hp2. cbn. intros Hfree. exfalso.
        pose proof (pi_spare s (ba_pool _ _ Hs) p o Hfree Ho). congruence. }
    split; [exact Hs3|]. split; [done|]. exists o. rewrite Hb.
    split; [done|]. split; [done|]. exists b. unfold s3. rewrite Hp2. cbn.
    split; cbn; [by rewrite lookup_insert_eq| |done|done|done].
    intros q Hq. by rewrite !lookup_insert_ne by done.
Qed.

Lemma init_block_length prev toks b s i s' :
  0 < bsize s -> init_block prev toks b s = (Ok i, s') -> Z.of_nat (length toks) <= bsize s.
Proof.
  intros Hb. unfold init_block, BlockPool.init_block. cbv zeta.
  generalize (match BlockPool.free_ids (pool s) with
              | [] => BlockPool.increase_pool (blank (bsize s)) (pool s) | _ => pool s end).
  intros p1.
  destruct (BlockPool.free_ids p1) as [|j rest]; [done|].
  destruct (BlockPool.objs p1 !! j) as [o|]; [|done].
  unfold reinit, append_token_ids_no_cow. destruct toks as [|x l]; [cbn; lia|].
  unfold num_empty_slots. cbn [block_size token_ids].
  destruct (Z.leb_spec (Z.of_nat (length (x :: l))) (bsize s - Z.of_nat (length (@nil Z)))); [|done].
  cbn [length] in *. lia.
Qed.

Lemma allocate_mutable_ok d prev s p s' :
  balanced d s -> allocate_mutable_block prev s = (Ok p, s') ->
  balanced d s' /\ live s' p /\ ~ live s p /\ bsize s' = bsize s /\ cow s' = cow s /\
  exists b, Ids.refcount (ids s) b = 0 /\
    BlockPool.objs (pool s') !! p = Some (NaiveBlock prev [] (bsize s) (Some b)) /\
    forall j, live s j -> live s' j /\ BlockPool.objs (pool s') !! j = BlockPool.objs (pool s) !! j.
Proof.
  intros Hs (b & s1 & Ha & Hi)%bind_ok.
  destruct (allocate_balanced d s b s1 Hs Ha) as (Hs1 & Hp1 & Hb1 & Hc1 & H0).
  pose proof (pi_bsize s (ba_pool _ _ Hs)) as Hpos.
  destruct (init_balanced d prev [] b s1 p s' Hs1) as (Hs' & Hl & Hnl & Hid & Hb' & Hc' & Ho & Hfr);
    [cbn; lia|done|].
  assert (Hlive : forall j, live s j <-> live s1 j) by (intros j; unfold live; by rewrite Hp1).
  split; [done|]. split; [done|]. split; [by rewrite Hlive|]. split; [congruence|].
  split; [congruence|]. exists b. split; [unfold Ids.refcount; by rewrite H0|].
  split; [by rewrite <- Hb1|]. intros j Hj. rewrite <- Hp1. by apply Hfr, Hlive.
Qed.

Lemma allocate_immutable_ok d prev toks s p s' :
  balanced d s -> allocate_immutable_block prev toks s = (Ok p, s') ->
  balanced d s' /\ bsize s' = bsize s.
Proof.
  intros Hs (q & s1 & Ha & H)%bind_ok. apply bind_ok in H as ([] & s2 & Happ & H).
  injection H as <- <-.
  destruct (allocate_mutable_ok d prev s q s1 Hs Ha) as (Hs1 & _ & _ & Hb1 & _).
  destruct (append_ok d q toks s1 s2 Hs1 Happ) as (Hs2 & Hb2 & _). split; [done|congruence].
Qed.

(** The ids taken by the first loop of [allocate_immutable_blocks]. *)
Definition taken (bs : list Z) (b' : Z) : Z := foldr (fun b n => one b b' + n) 0 bs.

Lemma taken_cons b bs b' : taken (b :: bs) b' = one b b' + taken bs b'.
Proof. done. Qed.

Lemma map_allocate_ok (l : list (list Z)) : forall d s bs s',
  balanced d s -> map_each l (fun _ => on_ids Ids.allocate_block_id) s = (Ok bs, s') ->
  balanced (fun b => d b + taken bs b) s' /\ pool s' = pool s /\ bsize s' = bsize s /\
  length bs = length l.
Proof.
  induction l as [|x l IH]; intros d s bs s' Hs; cbn [map_each].
  { intros [= <- <-]. split; [|done]. eapply balanced_ext; [|done]. intros b. cbn. lia. }
  intros (b & s1 & Ha & H)%bind_ok. apply bind_ok in H as (bs' & s2 & Hm & H).
  injection H as <- <-.
  destruct (allocate_balanced d s b s1 Hs Ha) as (Hs1 & Hp1 & Hb1 & _).
  destruct (IH _ _ _ _ Hs1 Hm) as (Hs2 & Hp2 & Hb2 & Hlen).
  split; [|split; [congruence|split; [congruence|cbn; lia]]].
  eapply balanced_ext; [|done]. intros b'. rewrite taken_cons. lia.
Qed.

Lemma init_blocks_ok l : forall d prev s ps s',
  balanced (fun b => d b + taken l.*2 b) s -> init_blocks prev l s = (Ok ps, s') ->
  balanced d s' /\ bsize s' = bsize s.
Proof.
  induction l as [|[toks b] l IH]; intros d prev s ps s' Hs; cbn [init_blocks].
  { intros [= <- <-]. split; [|done]. eapply balanced_ext; [|done]. intros b. cbn. lia. }
  intros (p & s1 & Hi & H)%bind_ok. apply bind_ok in H as (ps' & s2 & Hr & H).
  injection H as <- <-. pose proof (pi_bsize s (ba_pool _ _ Hs)) as Hpos.
  pose proof (init_block_length _ _ _ _ _ _ Hpos Hi) as Hlen.
  destruct (init_balanced (fun b' => d b' + taken l.*2 b') prev toks b s p s1)
    as (Hs1 & _ & _ & _ & Hb1 & _); [|done|done|].
  { eapply balanced_ext; [|done]. intros b'. rewrite fmap_cons, taken_cons. cbn [snd]. lia. }
  destruct (IH _ _ _ _ _ Hs1 Hr) as [? Hb2]. split; [done|congruence].
Qed.

Lemma allocate_immutable_blocks_ok d prev l s ps s' :
  balanced d s -> allocate_immutable_blocks prev l s = (Ok ps, s') -> balanced d s'.
Proof.
  intros Hs (bs & s1 & Hm & Hi)%bind_ok.
  destruct (map_allocate_ok l d s bs s1 Hs Hm) as (Hs1 & _ & _ & Hlen).
  eapply init_blocks_ok; [|exact Hi]. eapply balanced_ext; [|exact Hs1]. intros b.
  by rewrite snd_zip by lia.
Qed.

Lemma free_block_ok d p keep s s' :
  balanced d s -> free p keep s = (Ok tt, s') -> p ∉ BlockPool.free_ids (pool s) ->
  balanced d s'.
Proof.
  intros Hs ([] & s1 & Hf & H)%bind_ok Hnf.
  destruct (free_id_ok d p s s1 Hs Hf) as (o & b & Ho & Hb & Hs1 & Hp1 & _).
  destruct keep; injection H as <-; [done|]. destruct Hs1 as [Hi [[H1 H2 H3 H4] Hsz Hbs Hsp] Hc].
  assert (Hfree : BlockPool.free_ids (pool s1) = BlockPool.free_ids (pool s)) by by rewrite Hp1.
  assert (Hobj : BlockPool.objs (pool s1) !! p = Some (set_block_id o None)).
  { rewrite Hp1. apply lookup_insert_eq. }
  split; [done| |done]. split; cbn; [|done|done|].
  - split; cbn; [done|done| |].
    + apply NoDup_cons. rewrite Hfree. split; [done|]. by rewrite <- Hfree.
    + intros i [->|Hi']%elem_of_cons; [|by apply H4]. apply H2. by eexists.
  - intros i oi [->|Hi']%elem_of_cons; [|by apply Hsp]. rewrite Hobj. by intros [= <-].
Qed.

(** A block that holds an id is not in the pool's free list. *)
Lemma holder_not_free d s p o b :
  balanced d s -> BlockPool.objs (pool s) !! p = Some o -> block_id o = Some b ->
  p ∉ BlockPool.free_ids (pool s).
Proof. intros Hs Ho Hb Hin. pose proof (pi_spare s (ba_pool _ _ Hs) p o Hin Ho). congruence. Qed.

Lemma free_balanced d p keep s s' :
  balanced d s -> free p keep s = (Ok tt, s') -> balanced d s'.
Proof.
  intros Hs Hf. eapply free_block_ok; [done..|].
  apply bind_ok in Hf as ([] & s1 & Hf & _).
  destruct (free_id_ok d p s s1 Hs Hf) as (o & b & Ho & Hb & _).
  by eapply holder_not_free.
Qed.

(** *** [fork] *)

(** [q] is a new object that shares the physical block of [p]. *)
Record shares (s s' : t) (p q : Z) : Prop := {
  sh_new : ~ live s q /\ live s' q;
  sh_same : exists o o', BlockPool.objs (pool s) !! p = Some o /\
    BlockPool.objs (pool s') !! p = Some o /\
    BlockPool.objs (pool s') !! q = Some o' /\
    token_ids o' = token_ids o /\ block_id o' = block_id o /\ is_Some (block_id o)
}.

Lemma incr_balanced d s b c s' :
  balanced d s -> on_ids (Ids.counting (RefCounter.incr b)) s = (Ok c, s') -> c <> 1 ->
  balanced (fun b' => d b' + one b b') s' /\ pool s' = pool s /\ bsize s' = bsize s /\ cow s' = cow s.
Proof.
  intros [Hi Hp Hc] (i & Ha & ->)%on_ids_ok Hne.
  destruct (Ids.id_incr_ok _ _ _ _ Hi Ha Hne) as (Hi' & Hr).
  split; [split; [done|by destruct Hp; split|]|done].
  intros b'. cbn. rewrite Hr, Hc. unfold one, owners_of. cbn. lia.
Qed.

Lemma fork_blocks_ok l : forall d prev s qs s',
  balanced d s -> fork_blocks prev l s = (Ok qs, s') ->
  balanced d s' /\ cow s' = cow s /\ (Forall (live s) l -> Forall2 (shares s s') l qs) /\
  (forall j, live s j -> live s' j /\ BlockPool.objs (pool s') !! j = BlockPool.objs (pool s) !! j).
Proof.
  induction l as [|p l IH]; intros d prev s qs s' Hs; cbn [fork_blocks].
  { intros [= <- <-]. split; [done|]. split; [done|]. by split. }
  intros (o & s0 & (Ho & ->)%obj_ok & H)%bind_ok.
  destruct (block_id o) as [b|] eqn:Hb; [|done].
  apply bind_ok in H as (c & s1 & Hinc & H).
  destruct (Z.eqb_spec c 1) as [|Hne]; [done|].
  destruct (incr_balanced d s b c s1 Hs Hinc Hne) as (Hs1 & Hp1 & Hb1 & Hc1).
  apply bind_ok in H as (q & s2 & Hi & H). apply bind_ok in H as (qs' & s3 & Hr & H).
  injection H as <- <-.
  pose proof (init_block_length _ _ _ _ _ _ (pi_bsize _ (ba_pool _ _ Hs1)) Hi) as Hlen.
  destruct (init_balanced d prev (token_ids o) b s1 q s2 Hs1 Hlen Hi)
    as (Hs2 & Hl2 & Hnl & _ & Hb2 & Hc2 & Ho2 & Hfr).
  destruct (IH _ _ _ _ _ Hs2 Hr) as (Hs3 & Hc3 & Hsh & Hfr3).
  assert (Hlive : forall j, live s j <-> live s1 j) by (intros j; unfold live; by rewrite Hp1).
  assert (Hall : forall j, live s j -> live s3 j /\
    BlockPool.objs (pool s3) !! j = BlockPool.objs (pool s) !! j).
  { intros j Hj. destruct (Hfr j) as [Hj2 E2]; [by apply Hlive|].
    destruct (Hfr3 j Hj2) as [Hj3 E3]. split; [done|]. by rewrite E3, E2, Hp1. }
  assert (Hpl : live s p).
  { split; [by eexists|]. by eapply holder_not_free. }
  split; [done|]. split; [congruence|]. split; [|done].
  intros [_ Hll]%list.Forall_cons. constructor.
  - destruct (Hfr3 q Hl2) as [Hq3 E3]. split; [by rewrite Hlive|].
    exists o, (NaiveBlock prev (token_ids o) (bsize s1) (Some b)).
    split; [done|]. split; [by rewrite (proj2 (Hall p Hpl))|].
    split; [by rewrite E3|]. split; [done|]. rewrite Hb. split; [done|by eexists].
  - assert (Hll2 : Forall (live s2) l).
    { eapply Forall_impl; [exact Hll|]. intros x Hx. by apply Hfr, Hlive. }
    specialize (Hsh Hll2). clear -Hsh Hll Hfr Hall Hlive Hp1.
    induction Hsh as [|x y l qs' [[Hn Hy] (ox & oy & E1 & E2 & E3 & E4)] Hsh IH]; [constructor|].
    apply list.Forall_cons in Hll as [Hx Hll]. constructor; [|by apply IH].
    assert (E0 : BlockPool.objs (pool s) !! x = Some ox).
    { rewrite <- Hp1, <- E1. symmetry. by apply Hfr, Hlive. }
    split; [split; [|done]; intros Hys; apply Hn; by apply Hfr, Hlive|].
    exists ox, oy. split; [done|]. by rewrite (proj2 (Hall x Hx)).
Qed.

Lemma fork_balanced d p s qs s' :
  balanced d s -> fork p s = (Ok qs, s') -> balanced d s'.
Proof.
  intros Hs. unfold fork. rewrite (bind_step get _ s s s eq_refl).
  intros (l & s1 & Hl & Hf)%bind_ok. unfold lift in Hl. injection Hl as _ <-.
  by destruct (fork_blocks_ok _ _ _ _ _ _ Hs Hf) as [? _].
Qed.

Lemma swap_out_balanced ps : forall d s s',
  balanced d s -> swap_out ps s = (Ok tt, s') -> balanced d s'.
Proof.
  induction ps as [|p ps IH]; intros d s s' Hs; [by intros [= <-]|].
  unfold swap_out. cbn [for_each]. intros ([] & s1 & H1 & H2)%bind_ok.
  destruct (free_id_ok d p s s1 Hs H1) as (o & b & _ & _ & Hs1 & _). by eapply IH.
Qed.

(** ** Reachable states *)

(** The calls that return; the requests the clients can make. *)
Inductive step : t -> t -> Prop :=
  | step_mutable prev p s s' : allocate_mutable_block prev s = (Ok p, s') -> step s s'
  | step_immutable prev toks p s s' :
      allocate_immutable_block prev toks s = (Ok p, s') -> step s s'
  | step_immutables prev l ps s s' :
      allocate_immutable_blocks prev l s = (Ok ps, s') -> step s s'
  | step_append p toks s s' : append_token_ids p toks s = (Ok tt, s') -> step s s'
  | step_free p keep s s' : free p keep s = (Ok tt, s') -> step s s'
  | step_fork p qs s s' : fork p s = (Ok qs, s') -> step s s'
  | step_swap_out ps s s' : swap_out ps s = (Ok tt, s') -> step s s'
  | step_clear l s s' : clear_copy_on_writes s = (Ok l, s') -> step s s'.

Lemma naive_ok_step s s' : step s s' -> naive_ok s -> naive_ok s'.
Proof.
  intros Hst Hs%naive_balanced. apply naive_balanced.
  destruct Hst as [prev p s s' H|prev toks p s s' H|prev l ps s s' H|p toks s s' H|p keep s s' H
    |p qs s s' H|ps s s' H|l s s' H].
  - by destruct (allocate_mutable_ok _ _ _ _ _ Hs H).
  - by destruct (allocate_immutable_ok _ _ _ _ _ _ Hs H).
  - by eapply allocate_immutable_blocks_ok.
  - by destruct (append_ok _ _ _ _ _ Hs H).
  - by eapply free_balanced.
  - by eapply fork_balanced.
  - by eapply swap_out_balanced.
  - unfold clear_copy_on_writes, on_cow in H. injection H as _ <-. by apply balanced_cow.
Qed.

Lemma init_naive_ok n bs l s :
  0 < n -> 0 < bs -> NoDup (default (seqZ 0 n) l) -> init n bs l = Ok s -> naive_ok s.
Proof.
  unfold init. intros Hn Hbs Hnd H. apply result_bind_ok in H as (i & Hi & H).
  apply result_bind_ok in H as (p & Hp & H). injection H as <-.
  pose proof (BlockPool.init_ok _ _ _ Hp) as Hpok. unfold BlockPool.init in Hp.
  destruct (0 <=? n * 4); [|done]. injection Hp as <-.
  assert (Hiok : Ids.ids_ok i) by (by eapply Ids.init_ids_ok).
  split; cbn; [done|done|lia|done| |].
  - intros b. unfold Ids.refcount. unfold Ids.init in Hi. destruct (_ =? n); [|done].
    injection Hi as <-. cbn. rewrite RefCounter.lookup_init, owners_add_blank by done.
    unfold owners. rewrite map_filter_empty, map_size_empty. by case_decide.
  - intros j o _. rewrite BlockPool.lookup_add_objs. case_decide; [by intros [= <-]|done].
Qed.

Lemma reachable_ok n bs l s0 s :
  0 < n -> 0 < bs -> NoDup (default (seqZ 0 n) l) -> init n bs l = Ok s0 ->
  rtc step s0 s -> naive_ok s.
Proof.
  intros Hn Hbs Hl Hi Hr. pose proof (init_naive_ok n bs l s0 Hn Hbs Hl Hi) as Hs. clear Hi.
  revert Hs. induction Hr; eauto using naive_ok_step.
Qed.

(** The ids some block holds. *)
Definition used_ids (s : t) : gset Z :=
  filter (fun b => 0 < owners_of s b) (Ids.all_block_indices (ids s)).

Lemma free_iff_unowned s b :
  naive_ok s ->
  b ∈ Ids.free_block_indices (ids s) <-> b ∈ Ids.all_block_indices (ids s) /\ owners_of s b = 0.
Proof.
  intros [Hi _ _ _ Hc _]. unfold owners_of. rewrite <- Hc. unfold Ids.refcount. split.
  - intros Hb%(Ids.io_free _ Hi). rewrite Hb. split; [|done]. apply (Ids.io_dom _ Hi). by eexists.
  - intros [[c Hb]%(Ids.io_dom _ Hi) H0]. rewrite Hb in H0. cbn in H0. subst c.
    by apply (Ids.io_used _ Hi).
Qed.

Lemma free_used_partition s :
  naive_ok s -> get_num_free_blocks s + Z.of_nat (size (used_ids s)) = get_num_total_blocks s.
Proof.
  intros Hs. unfold get_num_free_blocks, get_num_total_blocks, Ids.get_num_free_blocks,
    Ids.get_num_total_blocks.
  assert (Hall : Ids.all_block_indices (ids s)
                 = list_to_set (Ids.free_block_indices (ids s)) ∪ used_ids s).
  { apply set_eq. intros b. unfold used_ids.
    rewrite elem_of_union, elem_of_list_to_set, elem_of_filter, free_iff_unowned by done.
    pose proof (owners_nonneg (id_of := block_id) (BlockPool.objs (pool s)) b) as H0. fold (owners_of s b) in H0.
    destruct (decide (owners_of s b = 0)); [split; [tauto|]; intros [[? _]|[_ ?]]; done|].
    split; [intros Hb; right; split; [lia|done]|]. intros [[_ ?]|[_ ?]]; done. }
  rewrite Hall, size_union.
  - rewrite size_list_to_set; [lia|]. apply (Ids.io_nodup _ (no_ids s Hs)).
  - intros b. unfold used_ids. rewrite elem_of_list_to_set, elem_of_filter, free_iff_unowned by done.
    lia.
Qed.

(** In every state the naive allocator reaches, the reference count of a
    physical block is the number of block objects that hold it, a block is in
    the free list exactly when none does (and only once), and free and held
    blocks add up to the total: no block is leaked or handed out twice. *)
Theorem refcounts_count_references (n bs : Z) (l : option (list Z)) (s0 s : t)
    (Hn : 0 < n) (Hbs : 0 < bs) (Hl : NoDup (default (seqZ 0 n) l))
    (Hinit : init n bs l = Ok s0) (Hreach : rtc step s0 s) :
  (forall b, Ids.refcount (ids s) b = owners_of s b) /\
  (forall b, b ∈ Ids.free_block_indices (ids s) <->
     b ∈ Ids.all_block_indices (ids s) /\ owners_of s b = 0) /\
  NoDup (Ids.free_block_indices (ids s)) /\
  get_num_free_blocks s + Z.of_nat (size (used_ids s)) = get_num_total_blocks s.
Proof.
  pose proof (reachable_ok n bs l s0 s Hn Hbs Hl Hinit Hreach) as Hs.
  split; [apply Hs|]. split; [intros b; by apply free_iff_unowned|].
  split; [apply Hs|by apply free_used_partition].
Qed.

Definition sample_init : result t := init 3 2 None.
Definition sample_run : M t (list Z) :=
  p ← allocate_immutable_block None [5; 6];
  q ← allocate_mutable_block (Some p);
  append_token_ids q [7] ;;
  fork q.

Lemma sample_reach :
  exists s0 s, init 3 2 None = Ok s0 /\ rtc step s0 s /\
    sample_run s0 = (Ok [2; 3], s) /\ get_num_free_blocks s = 1.
Proof.
  assert (H : exists s0 s1 s2 s3 s4, init 3 2 None = Ok s0 /\
    allocate_immutable_block None [5; 6] s0 = (Ok 0, s1) /\
    allocate_mutable_block (Some 0) s1 = (Ok 1, s2) /\
    append_token_ids 1 [7] s2 = (Ok tt, s3) /\ fork 1 s3 = (Ok [2; 3], s4) /\
    get_num_free_blocks s4 = 1).
  { do 5 eexists. split; [vm_compute; reflexivity|]. split; [vm_compute; reflexivity|].
    split; [vm_compute; reflexivity|]. split; [vm_compute; reflexivity|].
    split; vm_compute; reflexivity. }
  destruct H as (s0 & s1 & s2 & s3 & s4 & H0 & H1 & H2 & H3 & H4 & Hf). exists s0, s4.
  split; [done|]. split; [|split; [|done]].
  - eapply rtc_l; [by eapply step_immutable|]. eapply rtc_l; [by eapply step_mutable|].
    eapply rtc_l; [by eapply step_append|]. eapply rtc_l; [by eapply step_fork|]. constructor.
  - unfold sample_run. rewrite (bind_step _ _ _ _ _ H1), (bind_step _ _ _ _ _ H2).
    by rewrite (bind_step _ _ _ _ _ H3).
Qed.

Lemma refcounts_count_references_witness :
  exists s, get_num_free_blocks s = 1 /\ size (used_ids s) = 2%nat.
Proof.
  destruct sample_reach as (s0 & s & Hi & Hr & Hrun & Hf). exists s. split; [exact Hf|].
  destruct (refcounts_count_references 3 2 None s0 s) as (_ & _ & _ & Hsum);
    [reflexivity|reflexivity|apply NoDup_seqZ|exact Hi|exact Hr|].
  assert (Ht : get_num_total_blocks s = 3).
  { assert (Hinv : exists s1, sample_run s1 = (Ok [2; 3], s) /\ init 3 2 None = Ok s1) by by exists s0.
    assert (Hc : exists s1, init 3 2 None = Ok s1 /\ get_num_total_blocks (sample_run s1).2 = 3).
    { eexists. split; [vm_compute; reflexivity|]. vm_compute. reflexivity. }
    destruct Hc as (s1 & Hi1 & Ht1). rewrite Hi in Hi1. injection Hi1 as <-. by rewrite Hrun in Ht1. }
  rewrite Hf, Ht in Hsum. lia.
Defined.

(** Appending never touches shared data: after a successful append to a
    block that held a physical block, the block's own physical block is held by
    it alone; if it was shared the append went to a block nobody held, the
    (source, target) pair was recorded for copying, and no other block object,
    nor the count of any third physical block, changed. *)
Theorem append_exclusive (n bs : Z) (l : option (list Z)) (s0 s s' : t)
    (p : Z) (toks : list Z) (o : block) (src : Z)
    (Hn : 0 < n) (Hbs : 0 < bs) (Hl : NoDup (default (seqZ 0 n) l))
    (Hinit : init n bs l = Ok s0) (Hreach : rtc step s0 s)
    (Ho : BlockPool.objs (pool s) !! p = Some o) (Hsrc : block_id o = Some src)
    (Happ : append_token_ids p toks s = (Ok tt, s')) :
  exists b, BlockPool.objs (pool s') !! p
      = Some (NaiveBlock (prev_block o) (token_ids o ++ toks) (block_size o) (Some b)) /\
    Ids.refcount (ids s') b = 1 /\
    (forall q, q <> p -> BlockPool.objs (pool s') !! q = BlockPool.objs (pool s) !! q) /\
    (forall b', b' <> b -> b' <> src -> Ids.refcount (ids s') b' = Ids.refcount (ids s) b') /\
    (if decide (1 < Ids.refcount (ids s) src)
     then Ids.refcount (ids s) b = 0 /\ cow s' = cow s ++ [(src, b)] /\
          Ids.refcount (ids s') src = Ids.refcount (ids s) src - 1
     else b = src /\ cow s' = cow s).
Proof.
  pose proof (reachable_ok n bs l s0 s Hn Hbs Hl Hinit Hreach) as Hs.
  pose proof (no_counts s Hs src) as Hc. pose proof (owners_pos _ _ _ _ Ho Hsrc) as Hpos.
  rewrite <- Hc in Hpos.
  destruct (append_ok _ p toks s s' (proj1 (naive_balanced s) Hs) Happ) as (_ & _ & o' & Ho' & _ & H).
  rewrite Ho in Ho'. injection Ho' as <-. rewrite Hsrc in H. destruct H as (b & [A1 A2 _ A3 A4]).
  exists b. split; [done|]. destruct (decide (b = src)) as [->|Hne].
  - destruct (A3 eq_refl) as (E1 & E2 & Hle). rewrite E2. split; [lia|]. split; [done|].
    split; [done|]. by rewrite decide_False by lia.
  - destruct (A4 Hne) as (E1 & Hlt & H0 & Hr). unfold one in Hr. split.
    { rewrite Hr, decide_False, decide_True by congruence. lia. }
    split; [done|]. split.
    { intros b' H1 H2. rewrite Hr, !decide_False by congruence. lia. }
    rewrite decide_True by done. split; [done|]. split; [done|].
    rewrite Hr, decide_True, decide_False by congruence. lia.
Qed.

Lemma append_exclusive_witness :
  exists s s' b, append_token_ids 3 [8] s = (Ok tt, s') /\ Ids.refcount (ids s') b = 1 /\ cow s' = [(1, b)].
Proof.
  destruct sample_reach as (s0 & s & Hi & Hr & Hrun & Hf).
  assert (H : exists o s', BlockPool.objs (pool s) !! 3 = Some o /\ block_id o = Some 1 /\
    Ids.refcount (ids s) 1 = 2 /\ cow s = [] /\ append_token_ids 3 [8] s = (Ok tt, s')).
  { assert (Hc : exists s1, init 3 2 None = Ok s1 /\ exists o s',
      BlockPool.objs (pool (sample_run s1).2) !! 3 = Some o /\ block_id o = Some 1 /\
      Ids.refcount (ids (sample_run s1).2) 1 = 2 /\ cow (sample_run s1).2 = [] /\
      append_token_ids 3 [8] (sample_run s1).2 = (Ok tt, s')).
    { eexists. split; [vm_compute; reflexivity|]. do 2 eexists. split; [vm_compute; reflexivity|].
      split; [vm_compute; reflexivity|]. split; [vm_compute; reflexivity|].
      split; vm_compute; reflexivity. }
    destruct Hc as (s1 & Hi1 & H). rewrite Hi in Hi1. injection Hi1 as <-. by rewrite Hrun in H. }
  destruct H as (o & s' & Ho & Hb & Hrc & Hcow & Happ). exists s, s'.
  destruct (append_exclusive 3 2 None s0 s s' 3 [8] o 1) as (b & _ & H1 & _ & _ & H2);
    [reflexivity|reflexivity|apply NoDup_seqZ|exact Hi|exact Hr|exact Ho|exact Hb|exact Happ|].
  exists b. split; [exact Happ|]. split; [exact H1|].
  rewrite Hrc in H2. rewrite decide_True in H2 by reflexivity. destruct H2 as (_ & H2 & _).
  by rewrite H2, Hcow.
Defined.

(** [fork] makes a copy of the sequence that shares its memory: one new
    object per block of the source, with the same tokens and the same physical
    block, whose count goes up; the source's objects are unchanged and nothing
    is copied. *)
Theorem fork_shares_blocks (n bs : Z) (l : option (list Z)) (s0 s s' : t)
    (last : Z) (src qs : list Z)
    (Hn : 0 < n) (Hbs : 0 < bs) (Hl : NoDup (default (seqZ 0 n) l))
    (Hinit : init n bs l = Ok s0) (Hreach : rtc step s0 s)
    (Hsrc : source_blocks last s = Ok src) (Hlive : Forall (live s) src)
    (Hfork : fork last s = (Ok qs, s')) :
  chain prev_block (BlockPool.objs (pool s)) (Some last) src /\
  Forall2 (shares s s') src qs /\ cow s' = cow s /\
  (forall b, Ids.refcount (ids s') b = owners_of s' b).
Proof.
  pose proof (reachable_ok n bs l s0 s Hn Hbs Hl Hinit Hreach) as Hs.
  apply naive_balanced in Hs. unfold fork in Hfork.
  rewrite (bind_step get _ s s s eq_refl), Hsrc in Hfork.
  rewrite (bind_step (lift _) _ s src s eq_refl) in Hfork.
  destruct (fork_blocks_ok _ _ _ _ _ _ Hs Hfork) as (Hs' & Hc & Hsh & _).
  split; [by eapply recursively_chain|]. split; [by apply Hsh|]. split; [done|].
  apply (no_counts s'). by apply naive_balanced.
Qed.

Lemma fork_shares_blocks_witness :
  exists s s', fork 3 s = (Ok [4; 5], s') /\ Forall2 (shares s s') [2; 3] [4; 5].
Proof.
  destruct sample_reach as (s0 & s & Hi & Hr & Hrun & Hf).
  assert (H : exists s', source_blocks 3 s = Ok [2; 3] /\ Forall (live s) [2; 3] /\
    fork 3 s = (Ok [4; 5], s')).
  { assert (Hc : exists s1 s2 s', init 3 2 None = Ok s1 /\ sample_run s1 = (Ok [2; 3], s2) /\
      source_blocks 3 s2 = Ok [2; 3] /\
      (bool_decide (Forall (live s2) [2; 3]) = true) /\ fork 3 s2 = (Ok [4; 5], s')).
    { do 3 eexists. split; [vm_compute; reflexivity|]. split; [vm_compute; reflexivity|].
      split; [vm_compute; reflexivity|]. split; vm_compute; reflexivity. }
    destruct Hc as (s1 & s2 & s' & Hi1 & Hrun1 & Hsb & Hl%bool_decide_eq_true & Hfk).
    rewrite Hi in Hi1. injection Hi1 as <-. rewrite Hrun in Hrun1. injection Hrun1 as <-.
    by exists s'. }
  destruct H as (s' & Hsb & Hl & Hfk). exists s, s'. split; [exact Hfk|].
  destruct (fork_shares_blocks 3 2 None s0 s s' 3 [2; 3] [4; 5]) as (_ & H & _);
    [reflexivity|reflexivity|apply NoDup_seqZ|exact Hi|exact Hr|exact Hsb|exact Hl|exact Hfk|exact H].
Defined.
End Naive.
