(* ===== verification/NaiveProgress.v ===== *)
(** * The naive allocator answers when ids are free

    [held a p] is what the object [p] says while it holds a physical id.  From a
    consistent allocator each method returns, provided enough ids are free, and
    changes what it should of [held] and of the number of free ids.  As in
    [NaiveBlock], [d] accounts for ids that are held outside the pool. *)
From S2P Require Import Prelude.
From S2P Require Import BlockCommon.
From S2P Require Import NaiveBlock.

Section Progress.
Import Naive.
Variable bs : Z.
Hypothesis Hbs : 0 < bs.
Implicit Types (a : Naive.t) (p q : Z) (d : Z -> Z).

Abbreviation objs a := (BlockPool.objs (pool a)).
Abbreviation free_ids a := (Ids.free_block_indices (ids a)).
Abbreviation all_ids a := (Ids.all_block_indices (ids a)).
Abbreviation refs a := (Ids.refcount (ids a)).

Record good d a : Prop := {
  gd_balanced : balanced d a;
  gd_bsize : bsize a = bs;
  gd_sized : forall p o, objs a !! p = Some o ->
    block_size o = bs /\ Z.of_nat (length (token_ids o)) <= bs
}.

Definition held a p : option (option Z * list Z * Z) :=
  o ← objs a !! p; i ← block_id o; Some (prev_block o, token_ids o, i).

Lemma held_Some a p prev toks i :
  held a p = Some (prev, toks, i) <->
  exists o, objs a !! p = Some o /\ prev_block o = prev /\ token_ids o = toks /\ block_id o = Some i.
Proof.
  unfold held. destruct (objs a !! p) as [o|]; cbn; [|by split; [|intros (? & ? & _)]].
  destruct (block_id o) as [b|] eqn:Hb; cbn.
  - split; [intros [= <- <- <-]; by exists o|by intros (? & [= <-] & <- & <- & [= <-]%(eq_trans (eq_sym Hb)))].
  - split; [done|intros (? & [= <-] & _ & _ & H); congruence].
Qed.

Lemma good_ext d d' a : (forall b, d b = d' b) -> good d a -> good d' a.
Proof. intros Hd [? ? ?]. split; [by eapply balanced_ext|done..]. Qed.

(** An id that an object holds is referenced. *)
Lemma held_owned a p prev toks i : held a p = Some (prev, toks, i) -> 1 <= owners_of a i.
Proof.
  intros (o & Ho & _ & _ & Hi)%held_Some. pose proof (owners_pos (objs a) p o i Ho Hi).
  unfold owners_of. lia.
Qed.

Lemma owners_single a p i :
  (forall q prev toks, held a q = Some (prev, toks, i) -> q = p) -> owners_of a i <= 1.
Proof.
  intros Hp. unfold owners_of, owners.
  set (f := filter _ _).
  assert (Hsub : forall q o, f !! q = Some o -> q = p).
  { intros q o [Hq Hi]%map_lookup_filter_Some. cbn in Hi. eapply Hp, held_Some. by exists o. }
  destruct (f !! p) as [o|] eqn:Ho.
  - assert (E : f = {[p := o]}).
    { apply map_eq. intros q. destruct (decide (p = q)) as [<-|Hne]; [by rewrite lookup_singleton_eq|].
      rewrite lookup_singleton_ne by done. destruct (f !! q) eqn:Hq; [|done]. by destruct Hne; rewrite (Hsub q _ Hq). }
    rewrite E, map_size_singleton. lia.
  - assert (E : f = ∅).
    { apply map_empty. intros q. destruct (f !! q) eqn:Hq; [|done].
      rewrite (Hsub q _ Hq) in Hq. congruence. }
    rewrite E, map_size_empty. lia.
Qed.

(** *** Taking an id and making an object *)

Lemma take_ok d a :
  good d a -> 0 < get_num_free_blocks a ->
  meets (on_ids Ids.allocate_block_id) a (fun b a' =>
    good (fun b' => d b' + one b b') a' /\ pool a' = pool a /\
    get_num_free_blocks a' = get_num_free_blocks a - 1 /\
    refs a b = 0 /\ b ∈ all_ids a /\ all_ids a' = all_ids a).
Proof.
  intros [Hb Hbs' Hsz] Hfree. pose proof (ba_ids _ _ Hb) as Hids.
  destruct (Ids.allocate_spec (ids a) (Ids.ids_ok_safe _ Hids)) as [[Hf _]|(b & rest & Hf & Hrun)].
  { unfold get_num_free_blocks, Ids.get_num_free_blocks in Hfree. rewrite Hf in Hfree. cbn in Hfree. lia. }
  apply meets_run. unfold on_ids at 1. rewrite Hrun. exists b. eexists. split; [reflexivity|].
  pose proof (allocate_balanced d a b) as H. unfold on_ids at 1 in H. rewrite Hrun in H.
  destruct (H _ Hb eq_refl) as (Hb' & Hp & Hbs2 & Hcow & H0).
  split; [split; [done|cbn; done|cbn; done]|]. split; [done|].
  split; [unfold get_num_free_blocks, Ids.get_num_free_blocks; cbn; rewrite Hf; cbn; lia|].
  split; [unfold Ids.refcount; by rewrite H0|]. split; [|done].
  apply (Ids.io_dom _ Hids). by eexists.
Qed.

Lemma init_progress d prev toks b a :
  good (fun b' => d b' + one b b') a -> Z.of_nat (length toks) <= bs ->
  meets (init_block prev toks (Some b)) a (fun p a' =>
    good d a' /\ held a p = None /\ held a' p = Some (prev, toks, b) /\
    (forall q, q <> p -> held a' q = held a q) /\ ids a' = ids a).
Proof.
  intros [Hb Hbs' Hsz] Hl. pose proof (ba_pool _ _ Hb) as Hp.
  destruct (init_block_ok prev toks (Some b) a Hp) as
    (p & pl & Hrun & Hp' & Hlive & Hnl & Ho & Hown & Hfr & Hoth); [lia|].
  apply meets_run. exists p. eexists. split; [exact Hrun|].
  destruct (init_balanced d prev toks b a p _ Hb ltac:(lia) Hrun) as (Hb' & _).
  assert (Hsame : forall q, q <> p -> held (with_pool a pl) q = held a q).
  { intros q Hq. unfold held. cbn. by destruct (Hoth q Hq) as [->|[-> ->]]. }
  split; [split|split; [|split; [|done]]].
  - done.
  - done.
  - cbn. intros q o Hq. destruct (decide (q = p)) as [->|Hne].
    + rewrite Ho in Hq. injection Hq as <-. cbn. lia.
    + destruct (Hoth q Hne) as [E|[_ E]]; rewrite E in Hq; [by apply (Hsz q)|].
      injection Hq as <-. cbn. lia.
  - unfold held. destruct (objs a !! p) as [o|] eqn:Hop; [|done]. cbn.
    destruct (decide (p ∈ BlockPool.free_ids (pool a))) as [Hin|Hin].
    + by rewrite (pi_spare a Hp p o Hin Hop).
    + exfalso. apply Hnl. split; [by eexists|done].
  - apply held_Some. cbn. eexists. by rewrite Ho.
Qed.

Lemma mutable_ok d prev a :
  good d a -> 0 < get_num_free_blocks a ->
  meets (allocate_mutable_block prev) a (fun p a' =>
    good d a' /\ held a p = None /\
    (exists b, held a' p = Some (prev, [], b) /\ refs a b = 0 /\ b ∈ all_ids a) /\
    (forall q, q <> p -> held a' q = held a q) /\
    get_num_free_blocks a' = get_num_free_blocks a - 1 /\ all_ids a' = all_ids a).
Proof.
  intros Ha Hfree. unfold allocate_mutable_block.
  eapply meets_bind; [by apply take_ok|]. intros b a1 (H1 & Hp1 & Hf1 & Hr & Hin & Hall).
  eapply meets_weaken; [apply init_progress; [done|cbn; lia]|].
  intros p a2 (H2 & Hn & Hh & Hfr & Hid).
  assert (E : forall q, held a1 q = held a q) by (intros q; unfold held; by rewrite Hp1).
  split; [done|]. split; [by rewrite <- E|]. split; [by exists b|].
  split; [intros q Hq; by rewrite Hfr, E|]. unfold get_num_free_blocks in *. rewrite Hid. done.
Qed.

(** *** Giving an id up, and appending *)

Lemma sized_set d a p o :
  good d a -> block_size o = bs -> Z.of_nat (length (token_ids o)) <= bs ->
  forall q o', objs (with_pool a (BlockPool.set_obj p o (pool a))) !! q = Some o' ->
  block_size o' = bs /\ Z.of_nat (length (token_ids o')) <= bs.
Proof.
  intros [_ _ Hsz] H1 H2 q o'. cbn. intros [[_ <-]|[_ Hq]]%lookup_insert_Some; [done|by apply (Hsz q)].
Qed.

Lemma refs_held d a p prev toks i :
  good d a -> held a p = Some (prev, toks, i) -> i ∈ all_ids a -> 0 <= d i ->
  1 <= refs a i /\ Ids.refcounts (ids a) !! i = Some (refs a i).
Proof.
  intros [Hb _ _] Hh Hi Hd. pose proof (held_owned _ _ _ _ _ Hh). pose proof (ba_counts _ _ Hb i).
  split; [lia|]. destruct (proj2 (Ids.io_dom _ (ba_ids _ _ Hb) i) Hi) as [c Hc].
  unfold Ids.refcount. by rewrite Hc.
Qed.

Lemma free_id_progress d a p prev toks i :
  good d a -> held a p = Some (prev, toks, i) -> i ∈ all_ids a -> 0 <= d i ->
  meets (free_block_id p) a (fun _ a' =>
    good d a' /\ held a' p = None /\ (forall q, q <> p -> held a' q = held a q) /\
    (exists o, objs a !! p = Some o /\ objs a' !! p = Some (set_block_id o None) /\
       forall q, q <> p -> objs a' !! q = objs a !! q) /\
    BlockPool.free_ids (pool a') = BlockPool.free_ids (pool a) /\
    get_num_free_blocks a' = get_num_free_blocks a + (if refs a i =? 1 then 1 else 0) /\
    all_ids a' = all_ids a /\ (forall b, refs a' b = refs a b - one i b)).
Proof.
  intros Ha Hh Hi Hd. destruct (refs_held d a p prev toks i Ha Hh Hi Hd) as [Hpos Hc].
  apply held_Some in Hh as (o & Ho & _ & _ & Hid).
  set (a' := with_ids (with_pool a (BlockPool.set_obj p (set_block_id o None) (pool a)))
    (Ids.Ids (if refs a i =? 1 then i :: free_ids a else free_ids a) (all_ids a)
       (<[i := refs a i - 1]> (Ids.refcounts (ids a))))).
  assert (Hrun : free_block_id p a = (Ok tt, a')).
  { unfold free_block_id. rewrite (bind_step (obj p) _ a o a) by (unfold obj; by rewrite Ho).
    rewrite (bind_step (put _ _) _ a tt _ eq_refl), Hid. unfold on_ids. cbn [ids with_pool].
    by rewrite (Ids.free_spec (ids a) i _ Hc) by lia. }
  apply meets_run. exists tt, a'. split; [done|].
  destruct (free_id_ok d p a a' (gd_balanced _ _ Ha) Hrun)
    as (o' & b & Ho' & Hb & Hbal & Hpl & Hbsz & _ & Hr).
  assert (b = i) as -> by congruence.
  destruct (gd_sized _ _ Ha p o Ho) as [Hs1 Hs2].
  split; [split; [done|cbn; apply Ha|exact (sized_set d a p (set_block_id o None) Ha Hs1 Hs2)]|].
  split; [unfold held; cbn; by rewrite lookup_insert_eq|].
  split; [intros q Hq; unfold held; cbn; by rewrite lookup_insert_ne|].
  split; [exists o; cbn; split; [done|]; split; [by rewrite lookup_insert_eq|intros q Hq; by rewrite lookup_insert_ne]|]. split; [done|].
  split; [|done]. unfold get_num_free_blocks, Ids.get_num_free_blocks. cbn.
  destruct (refs a i =? 1); cbn [length]; lia.
Qed.

(** Copy-on-write takes an id only from a block that is shared. *)
Definition shared_cost a i : Z := if refs a i <=? 1 then 0 else 1.

Lemma cow_progress d a p prev toks i :
  good d a -> held a p = Some (prev, toks, i) -> i ∈ all_ids a -> 0 <= d i ->
  refs a i <= 1 \/ 0 < get_num_free_blocks a ->
  meets (cow_block_if_not_appendable p) a (fun _ a' =>
    get_num_free_blocks a' = get_num_free_blocks a - shared_cost a i /\ all_ids a' = all_ids a /\
    is_Some (objs a' !! p)).
Proof.
  intros Ha Hh Hi Hd Hfree. destruct (refs_held d a p prev toks i Ha Hh Hi Hd) as [Hpos Hc].
  pose proof Hh as (o & Ho & _ & _ & Hid)%held_Some.
  unfold cow_block_if_not_appendable. eapply meets_step; [unfold obj; by rewrite Ho|]. rewrite Hid.
  apply meets_get. eapply meets_lift; [unfold Cow.is_appendable, RefCounter.get; by rewrite Hc|].
  unfold shared_cost. destruct (Z.leb_spec (refs a i) 1) as [Hle|Hgt].
  { apply meets_ret. split; [lia|]. split; [done|by eexists]. }
  eapply meets_bind; [by eapply free_id_progress|].
  intros [] a1 (H1 & _ & _ & (o1 & _ & Ho1 & _) & _ & Hf1 & Hall1 & _).
  rewrite (proj2 (Z.eqb_neq _ _)) in Hf1 by lia.
  eapply meets_bind; [apply (take_ok d); [done|lia]|].
  intros b a2 (_ & Hp2 & Hf2 & _ & _ & Hall2). eapply meets_step; [reflexivity|].
  apply meets_ret. unfold get_num_free_blocks in *. cbn. rewrite Hp2, Ho1.
  split; [lia|]. split; [congruence|by eexists].
Qed.

Lemma append_progress d a p prev old i toks :
  good d a -> held a p = Some (prev, old, i) -> i ∈ all_ids a -> 0 <= d i ->
  Z.of_nat (length (old ++ toks)) <= bs -> refs a i <= 1 \/ 0 < get_num_free_blocks a ->
  meets (append_token_ids p toks) a (fun _ a' =>
    good d a' /\ (forall q, q <> p -> held a' q = held a q) /\ all_ids a' = all_ids a /\
    get_num_free_blocks a' = get_num_free_blocks a - shared_cost a i /\
    exists j, held a' p = Some (prev, old ++ toks, j) /\ j ∈ all_ids a /\
      (j = i \/ refs a j = 0)).
Proof.
  intros Ha Hh Hi Hd Hlen Hfree. pose proof Hh as (o & Ho & Hprev & Hold & Hid)%held_Some.
  destruct (gd_sized _ _ Ha p o Ho) as [Hs1 Hs2].
  set (o1 := NaiveBlock (prev_block o) (token_ids o ++ toks) (block_size o) (block_id o)).
  assert (Hnc : append_token_ids_no_cow toks o = (Ok tt, o1)).
  { unfold append_token_ids_no_cow, o1. destruct toks as [|x l]; [rewrite app_nil_r; by destruct o|].
    rewrite (proj2 (Z.leb_le _ _)); [done|]. unfold num_empty_slots.
    rewrite length_app in Hlen. subst old. lia. }
  set (a1 := with_pool a (BlockPool.set_obj p o1 (pool a))).
  assert (Hrun : meets (append_token_ids p toks) a (fun _ a' =>
    get_num_free_blocks a' = get_num_free_blocks a - shared_cost a i /\ all_ids a' = all_ids a)).
  { unfold append_token_ids. eapply meets_step; [unfold obj; by rewrite Ho|]. rewrite Hnc.
    eapply meets_step; [done|]. cbn [block_id o1]. rewrite Hid. fold a1.
    assert (Ha1 : good d a1).
    { split; [|apply Ha|eapply sized_set; [done..|]; cbn; rewrite Hold; exact Hlen].
      eapply balanced_ext; [|apply (put_balanced d p o); [apply Ha|done|]].
      - intros b. unfold points. cbn. lia.
      - intros Hin. cbn. exact (pi_spare a (ba_pool _ _ (gd_balanced _ _ Ha)) p o Hin Ho). }
    assert (Hh1 : held a1 p = Some (prev, old ++ toks, i)).
    { apply held_Some. exists o1. unfold a1. cbn. rewrite lookup_insert_eq. subst. done. }
    eapply meets_bind; [apply (cow_progress d a1 p prev (old ++ toks) i); done|].
    intros b a2 (Hf2 & Hall2 & o2 & Ho2).
    eapply meets_step; [unfold obj; by rewrite Ho2|]. done. }
  apply meets_run in Hrun as ([] & a' & Hrun & Hfree' & Hall). apply meets_run.
  exists tt, a'. split; [done|].
  destruct (append_ok d p toks a a' (gd_balanced _ _ Ha) Hrun) as (Hbal & Hbsz & o' & Ho' & _ & Hap).
  assert (o' = o) as -> by congruence. rewrite Hid in Hap. destruct Hap as [j Hap].
  pose proof (ap_obj _ _ _ _ _ _ _ Hap) as Hobj.
  split; [split; [done|rewrite Hbsz; apply Ha|]|].
  { intros q oq Hq. destruct (decide (q = p)) as [->|Hne].
    - rewrite Hobj in Hq. injection Hq as <-. cbn. rewrite Hold. done.
    - rewrite (ap_others _ _ _ _ _ _ _ Hap q Hne) in Hq. by apply (gd_sized _ _ Ha q). }
  split; [intros q Hq; unfold held; by rewrite (ap_others _ _ _ _ _ _ _ Hap q Hq)|].
  split; [done|]. split; [done|]. exists j.
  split; [apply held_Some; eexists; split; [exact Hobj|]; subst; done|].
  destruct (decide (j = i)) as [->|Hne]; [by split; [|left]|].
  destruct (ap_moved _ _ _ _ _ _ _ Hap Hne) as (_ & _ & H0 & Hr). split; [|by right].
  rewrite <- Hall. apply (Ids.io_dom _ (ba_ids _ _ Hbal)). specialize (Hr j).
  unfold one in Hr. rewrite decide_False, decide_True in Hr by congruence.
  unfold Ids.refcount at 1 in Hr. destruct (_ !! j); [by eexists|cbn in Hr; lia].
Qed.

(** *** Many blocks at once *)

Lemma take_all_ok {T} (l : list T) : forall d a,
  good d a -> Z.of_nat (length l) <= get_num_free_blocks a ->
  meets (map_each l (fun _ => on_ids Ids.allocate_block_id)) a (fun js a' =>
    good (fun b => d b + taken js b) a' /\ pool a' = pool a /\ length js = length l /\
    get_num_free_blocks a' = get_num_free_blocks a - Z.of_nat (length l) /\
    all_ids a' = all_ids a /\ Forall (fun i => i ∈ all_ids a) js).
Proof.
  induction l as [|x l IH]; intros d a Ha Hfree; cbn [map_each].
  { apply meets_ret. cbn. split; [|split; [done|split; [done|split; [lia|by split; [|constructor]]]]].
    eapply good_ext; [|done]. intros b. cbn. lia. }
  cbn [length] in Hfree. eapply meets_bind; [apply (take_ok d); [done|lia]|].
  intros b a1 (H1 & Hp1 & Hf1 & _ & Hin & Hall1).
  eapply meets_bind; [apply IH; [done|lia]|]. intros js a2 (H2 & Hp2 & Hlen & Hf2 & Hall2 & Hin2).
  apply meets_ret. split; [|split; [congruence|split; [cbn; congruence|split; [cbn [length]; lia|]]]].
  - eapply good_ext; [|done]. intros b'. rewrite taken_cons. lia.
  - split; [congruence|]. constructor; [done|]. by rewrite Hall1 in Hin2.
Qed.

(** The objects [ps], each the predecessor of the next, hold [l]. *)
Fixpoint strung a (prev : option Z) (ps : list Z) (l : list (list Z * Z)) : Prop :=
  match ps, l with
  | [], [] => True
  | p :: ps', (toks, b) :: l' => held a p = Some (prev, toks, b) /\ strung a (Some p) ps' l'
  | _, _ => False
  end.

Lemma strung_frame a a' ps : forall prev l,
  (forall p, p ∈ ps -> held a' p = held a p) -> strung a prev ps l -> strung a' prev ps l.
Proof.
  induction ps as [|p ps IH]; intros prev [|[toks b] l] Hf; cbn; try done.
  intros [Hp Hl]. split; [by rewrite Hf by left|]. apply IH; [|done]. intros q Hq. apply Hf. by right.
Qed.

(** What making new objects [ps] does to the others. *)
Record added a a' (ps : list Z) : Prop := {
  ad_nodup : NoDup ps;
  ad_new : forall p, p ∈ ps -> held a p = None;
  ad_frame : forall q, q ∉ ps -> held a' q = held a q
}.

Lemma added_nil a : added a a [].
Proof. split; [constructor|by intros p ?%elem_of_nil|done]. Qed.

Lemma added_cons a a1 a2 p ps x :
  held a p = None -> held a1 p = Some x -> (forall q, q <> p -> held a1 q = held a q) ->
  added a1 a2 ps -> added a a2 (p :: ps).
Proof.
  intros Hp Hp1 Hf [H1 H2 H3].
  assert (Hin : p ∉ ps) by (intros Hin; specialize (H2 p Hin); congruence).
  split; [by apply NoDup_cons| |].
  - intros q [->|Hq]%elem_of_cons; [done|]. rewrite <- Hf; [by apply H2|]. by intros ->.
  - intros q Hq. rewrite not_elem_of_cons in Hq. rewrite H3, Hf by tauto. done.
Qed.

Lemma added_same a a' p ps : added a a' ps -> p ∉ ps -> held a' p = held a p.
Proof. intros [_ _ H]. apply H. Qed.

Lemma init_blocks_progress l : forall d prev a,
  good (fun b => d b + taken l.*2 b) a ->
  Forall (fun x => Z.of_nat (length x.1) <= bs) l ->
  meets (init_blocks prev l) a (fun ps a' =>
    good d a' /\ added a a' ps /\ strung a' prev ps l /\ ids a' = ids a).
Proof.
  induction l as [|[toks b] l IH]; intros d prev a Ha Hl; cbn [init_blocks].
  { apply meets_ret. split; [|split; [apply added_nil|done]].
    eapply good_ext; [|done]. intros b. cbn. lia. }
  apply Forall_cons in Hl as [Hlen Hl]. cbn in Hlen.
  eapply meets_bind; [apply (init_progress (fun b' => d b' + taken l.*2 b') prev toks b); [|done]|].
  { eapply good_ext; [|done]. intros b'. rewrite fmap_cons, taken_cons. cbn [snd]. lia. }
  intros p a1 (H1 & Hn & Hh & Hf & Hid).
  eapply meets_bind; [by apply IH|]. intros ps a2 (H2 & Had & Hs & Hid2). apply meets_ret.
  split; [done|]. split; [by eapply added_cons|]. split; [|congruence].
  cbn. split; [|done]. rewrite (added_same _ _ p _ Had); [done|].
  intros Hin. pose proof (ad_new _ _ _ Had p Hin). congruence.
Qed.

Lemma immutable_blocks_progress d prev l a :
  good d a -> Z.of_nat (length l) <= get_num_free_blocks a ->
  Forall (fun toks => Z.of_nat (length toks) <= bs) l ->
  meets (allocate_immutable_blocks prev l) a (fun ps a' =>
    good d a' /\ added a a' ps /\
    get_num_free_blocks a' = get_num_free_blocks a - Z.of_nat (length l) /\
    all_ids a' = all_ids a /\
    exists js, length js = length l /\ Forall (fun i => i ∈ all_ids a) js /\
      strung a' prev ps (zip l js)).
Proof.
  intros Ha Hfree Hl. unfold allocate_immutable_blocks.
  eapply meets_bind; [by apply take_all_ok|]. intros js a1 (H1 & Hp1 & Hlen & Hf1 & Hall1 & Hin).
  eapply meets_weaken; [apply (init_blocks_progress _ d prev)|].
  { by rewrite snd_zip by lia. }
  { apply Forall_forall. intros [toks b] Hx%elem_of_zip_l. cbn. by eapply Forall_forall in Hl. }
  intros ps a2 (H2 & [Hnd Hnew Hfr] & Hs & Hid). split; [done|].
  assert (E : forall q, held a1 q = held a q) by (intros q; unfold held; by rewrite Hp1).
  split; [split; [done|intros p Hp; rewrite <- E; by apply Hnew|intros q Hq; by rewrite Hfr, E]|].
  unfold get_num_free_blocks in *. rewrite Hid. split; [done|]. split; [congruence|]. by exists js.
Qed.

(** One more reference to an id that is in use. *)
Lemma incr_progress d a i :
  good d a -> i ∈ all_ids a -> 1 <= refs a i ->
  meets (on_ids (Ids.counting (RefCounter.incr i))) a (fun c a' =>
    good (fun b => d b + one i b) a' /\ c <> 1 /\ pool a' = pool a /\
    get_num_free_blocks a' = get_num_free_blocks a /\ all_ids a' = all_ids a).
Proof.
  intros [Hb Hbsz Hsz] Hi Hr.
  destruct (proj2 (Ids.io_dom _ (ba_ids _ _ Hb) i) Hi) as [c Hc].
  unfold Ids.refcount in Hr. rewrite Hc in Hr. cbn in Hr.
  apply meets_run. unfold on_ids at 1. rewrite (Ids.incr_spec _ i c Hc) by lia.
  exists (c + 1). eexists. split; [reflexivity|].
  destruct (incr_balanced d a i (c + 1) (with_ids a (Ids.with_refcounts (ids a)
    (<[i := c + 1]> (Ids.refcounts (ids a)))))) as (Hb' & _); [done| |lia|].
  { unfold on_ids. by rewrite (Ids.incr_spec _ i c Hc) by lia. }
  split; [by split|]. split; [lia|done].
Qed.

(** An object without an id goes back to the pool. *)
Lemma pool_free_ok d a p o :
  good d a -> objs a !! p = Some o -> block_id o = None -> p ∉ BlockPool.free_ids (pool a) ->
  good d (with_pool a (BlockPool.free_block p (pool a))).
Proof.
  intros [[Hi [[H1 H2 H3 H4] Hp2 Hp3 Hp4] Hc] Hbsz Hsz] Ho Hid Hnin.
  split; [split; [done| |done]|done|done]. split; cbn; [|done|done|].
  - split; cbn; [done|done|by apply NoDup_cons|].
    intros i [->|Hin]%elem_of_cons; [apply H2; by eexists|by apply H4].
  - intros i oi [->|Hin]%elem_of_cons Hoi; [congruence|by eapply Hp4].
Qed.
End Progress.
