(* ===== verification/BlockInterfaces.v ===== *)
(** * What the v0 block layer promises upwards ([vllm/core/block/interfaces.py])

    [DeviceAwareBlockAllocator] is the interface through which block tables and
    the block manager use the two allocators of a worker, GPU and CPU.  A block
    object is reached through a reference of a type [R]; its attributes are
    operations of the interface.

    [DeviceAwareLaws] is the contract the clients' theorems rest on.  [view s r]
    is what a block table may know about a live block: its predecessor, its
    tokens, its physical id and the device that id belongs to. *)
From S2P Require Import Prelude.
From S2P Require Import PyDict.
From S2P Require Import EvictorBase.
From S2P Require Import BlockCommon.

(** [vllm.utils.Device] *)
Inductive Device : Type := GPU | CPU.
#[global] Instance Device_eq_dec : EqDecision Device.
Proof. solve_decision. Defined.

(** [AllocStatus] of [vllm/core/interfaces.py] *)
Inductive AllocStatus : Type := OK | LATER | NEVER.
#[global] Instance AllocStatus_eq_dec : EqDecision AllocStatus.
Proof. solve_decision. Defined.

Class DeviceAwareBlockAllocator (S R : Type) : Type := {
  block_id_of : R -> S -> option Z;
  token_ids_of : R -> S -> list Z;
  block_append_token_ids : R -> list Z -> M S unit;
  allocate_or_get_null_block : M S R;
  allocate_mutable_block : option R -> Device -> option Z -> M S R;
  allocate_immutable_block : option R -> list Z -> Device -> option Z -> M S R;
  allocate_immutable_blocks : option R -> list (list Z) -> Device -> option Z -> M S (list R);
  free_block : R -> M S unit;
  fork_blocks : R -> M S (list R);
  get_num_free_blocks : Device -> S -> Z;
  get_num_total_blocks : Device -> S -> Z;
  get_physical_block_id : Device -> Z -> S -> result Z;
  swap_blocks : list R -> Device -> Device -> M S (pydict Z Z);
  get_num_full_blocks_touched : list R -> Device -> M S Z;
  clear_copy_on_writes : M S (list (Z * Z));
  mark_blocks_as_accessed : list Z -> Q -> option cache_hint -> M S unit;
  observe_cache_accesses : list Z -> option cache_hint -> M S unit;
  should_predict_cache_hint : S -> bool;
  mark_blocks_as_computed : list Z -> M S unit;
  get_common_computed_block_ids : list (list Z) -> S -> list Z;
  get_prefix_cache_hit_rate : Device -> S -> Q;
  get_scheduler_post_warmup_prefix_cache_hit_rate : Device -> S -> Q;
  reset_prefix_cache : M S bool;
  find_cached_blocks_prefix : list Z -> Device -> S -> result (list Z)
}.

Record block_view (R : Type) : Type := BlockView {
  bv_prev : option R;
  bv_tokens : list Z;
  bv_id : Z;
  bv_device : Device
}.
Arguments BlockView {R} bv_prev bv_tokens bv_id bv_device.
Arguments bv_prev {R} b.
Arguments bv_tokens {R} b.
Arguments bv_id {R} b.
Arguments bv_device {R} b.

Section Views.
Context {R : Type}.
Abbreviation views := (R -> option (block_view R)).
Implicit Types (v w : views) (r q : R).

(** No other block shares the physical block of [r]. *)
Definition alone v r : Prop :=
  forall q b c, v r = Some b -> v q = Some c -> bv_id b = bv_id c -> q = r.

(** Nothing changes outside [l]. *)
Definition frame v w (l : list R) : Prop := forall q, q ∉ l -> w q = v q.

(** [l] is a sequence of GPU blocks with the given contents, linked backwards,
    the first to [prev]. *)
Fixpoint linked v (prev : option R) (l : list R) (contents : list (list Z)) : Prop :=
  match l, contents with
  | [], [] => True
  | r :: l', toks :: contents' =>
      (exists i, v r = Some (BlockView prev toks i GPU)) /\ linked v (Some r) l' contents'
  | _, _ => False
  end.

(** A predecessor that a new block may have. *)
Definition prev_live v (prev : option R) : Prop :=
  match prev with None => True | Some q => is_Some (v q) end.

Lemma frame_refl v l : frame v v l.
Proof. done. Qed.

Lemma frame_trans v w x l l' : frame v w l -> frame w x l' -> frame v x (l ++ l').
Proof. intros H1 H2 q Hq. rewrite not_elem_of_app in Hq. rewrite H2, H1 by tauto. done. Qed.

Lemma frame_mono v w l l' : frame v w l -> l ⊆ l' -> frame v w l'.
Proof. intros H Hl q Hq. apply H. intros Hin. by apply Hq, Hl. Qed.

Lemma linked_length v l : forall prev contents, linked v prev l contents -> length l = length contents.
Proof.
  induction l as [|r l IH]; intros prev [|toks contents]; cbn; try done.
  intros [_ H]. f_equal. by eapply IH.
Qed.

Lemma linked_frame v w d l : forall prev contents,
  frame v w d -> (forall q, q ∈ l -> q ∉ d) -> linked v prev l contents -> linked w prev l contents.
Proof.
  induction l as [|r l IH]; intros prev [|toks contents]; cbn; try done.
  intros Hf Hd [[i Hr] Hl]. split.
  - exists i. by rewrite Hf by (apply Hd; left).
  - apply IH; [done| |done]. intros q Hq. apply Hd. by right.
Qed.

Lemma linked_lookup v l : forall prev contents k r toks,
  linked v prev l contents -> l !! k = Some r -> contents !! k = Some toks ->
  exists p i, v r = Some (BlockView p toks i GPU).
Proof.
  induction l as [|r l IH]; intros prev [|toks contents] k r' toks'; cbn; try done.
  intros [[i Hr] Hl]. destruct k as [|k]; cbn.
  - intros [= <-] [= <-]. by exists prev, i.
  - by eapply IH.
Qed.

Lemma linked_some v l prev contents r :
  linked v prev l contents -> r ∈ l -> exists p toks i, v r = Some (BlockView p toks i GPU).
Proof.
  intros Hl [k Hk]%list_elem_of_lookup.
  destruct (lookup_lt_is_Some_2 contents k) as [toks Ht].
  { rewrite <- (linked_length _ _ _ _ Hl). by eapply lookup_lt_Some. }
  destruct (linked_lookup _ _ _ _ _ _ _ Hl Hk Ht) as (p & i & H). by exists p, toks, i.
Qed.

Lemma linked_app v l1 : forall prev l2 c1 c2,
  length l1 = length c1 ->
  linked v prev (l1 ++ l2) (c1 ++ c2) <->
  linked v prev l1 c1 /\ linked v (match last l1 with Some r => Some r | None => prev end) l2 c2.
Proof.
  induction l1 as [|r l1 IH]; intros prev l2 [|toks c1] c2; cbn; try done; [tauto|].
  intros [= Hl]. rewrite IH by done.
  assert (Hlast : match last l1 with Some r0 => Some r0 | None => Some r end
                  = match last (r :: l1) with Some r0 => Some r0 | None => prev end).
  { rewrite last_cons. by destruct (last l1). }
  rewrite Hlast. tauto.
Qed.

(** The block at [k] gets the contents [toks]. *)
Lemma linked_update v w l : forall prev contents k r p toks i,
  NoDup l -> linked v prev l contents -> l !! k = Some r -> frame v w [r] ->
  (forall b, v r = Some b -> p = bv_prev b) -> w r = Some (BlockView p toks i GPU) ->
  linked w prev l (<[k := toks]> contents).
Proof.
  induction l as [|q l IH]; intros prev [|c contents] k r p toks i; cbn; try done.
  intros Hnd [[j Hq] Hl] Hk Hf Hp Hw. apply NoDup_cons in Hnd as [Hnin Hnd].
  destruct k as [|k]; cbn in Hk |- *.
  - injection Hk as ->. split; [exists i; by rewrite Hw, (Hp _ Hq)|].
    eapply linked_frame; [done| |done]. intros x Hx ->%list_elem_of_singleton. done.
  - split.
    + exists j. rewrite Hf; [done|]. intros ->%list_elem_of_singleton.
      apply Hnin. by eapply list_elem_of_lookup_2.
    + by eapply IH.
Qed.
End Views.

(** ** The contract

    [bsz] is the block size, [wf] says that the allocator is consistent.  A call
    that needs a GPU block returns when one is free; none changes the view of
    other blocks. *)
Class DeviceAwareLaws (S R : Type) `{!DeviceAwareBlockAllocator S R} (bsz : Z)
    (wf : S -> Prop) (view : S -> R -> option (block_view R)) : Prop := {
  law_bsz : 0 < bsz;
  law_free_nonneg : forall s, wf s -> 0 <= get_num_free_blocks GPU s;
  law_block_id : forall s r b, wf s -> view s r = Some b -> block_id_of r s = Some (bv_id b);
  law_token_ids : forall s r b, wf s -> view s r = Some b -> token_ids_of r s = bv_tokens b;
  law_clear_cows : forall s, wf s -> meets clear_copy_on_writes s (fun _ s' =>
    wf s' /\ frame (view s) (view s') [] /\
    get_num_free_blocks GPU s' = get_num_free_blocks GPU s);
  law_mutable : forall s prev extra,
    wf s -> prev_live (view s) prev -> 0 < get_num_free_blocks GPU s ->
    meets (allocate_mutable_block prev GPU extra) s (fun r s' =>
      wf s' /\ view s r = None /\ frame (view s) (view s') [r] /\
      get_num_free_blocks GPU s - 1 <= get_num_free_blocks GPU s' /\
      alone (view s') r /\ exists i, view s' r = Some (BlockView prev [] i GPU));
  law_immutable : forall s prev l extra,
    wf s -> prev_live (view s) prev -> Z.of_nat (length l) <= get_num_free_blocks GPU s ->
    Forall (fun toks => Z.of_nat (length toks) = bsz) l ->
    meets (allocate_immutable_blocks prev l GPU extra) s (fun rs s' =>
      wf s' /\ NoDup rs /\ (forall r, r ∈ rs -> view s r = None) /\ frame (view s) (view s') rs /\
      get_num_free_blocks GPU s - Z.of_nat (length l) <= get_num_free_blocks GPU s' /\
      linked (view s') prev rs l);
  law_append : forall s r prev old i toks,
    wf s -> view s r = Some (BlockView prev old i GPU) -> toks <> [] ->
    Z.of_nat (length (old ++ toks)) <= bsz ->
    alone (view s) r \/ 0 < get_num_free_blocks GPU s ->
    meets (block_append_token_ids r toks) s (fun _ s' =>
      wf s' /\ frame (view s) (view s') [r] /\
      get_num_free_blocks GPU s - 1 <= get_num_free_blocks GPU s' /\
      (alone (view s) r -> get_num_free_blocks GPU s <= get_num_free_blocks GPU s') /\
      exists j, view s' r = Some (BlockView prev (old ++ toks) j GPU) /\
        forall q b, q <> r -> view s q = Some b -> Z.of_nat (length (bv_tokens b)) < bsz ->
          bv_id b = j -> j = i);
  law_free : forall s r b,
    wf s -> view s r = Some b ->
    meets (free_block r) s (fun _ s' =>
      wf s' /\ view s' r = None /\ frame (view s) (view s') [r] /\
      get_num_free_blocks GPU s <= get_num_free_blocks GPU s');
  law_fork : forall s rs r contents,
    wf s -> NoDup rs -> linked (view s) None rs contents -> last rs = Some r ->
    meets (fork_blocks r) s (fun qs s' =>
      wf s' /\ NoDup qs /\ (forall q, q ∈ qs -> view s q = None) /\ frame (view s) (view s') qs /\
      get_num_free_blocks GPU s' = get_num_free_blocks GPU s /\
      linked (view s') None qs contents)
}.
