(* ===== verification/CpuGpuAllocator.v ===== *)
(** * The allocator of both devices ([vllm/core/block/cpu_gpu_block_allocator.py])

    [CpuGpuBlockAllocator] over two [NaiveBlockAllocator]s.  A block object stays
    in the pool of the allocator that created it, its [owner], while the physical
    id it holds may belong to the other device: swapping a sequence out gives its
    GPU objects CPU ids.  A reference is the owner with the pool id, and for the
    [NullBlock] that of the block it wraps.

    The methods of [NaiveBlockAllocator] that the allocator of one device runs on
    objects of either are written out here for any owner: [free_block_id],
    [free_on], [fork_on], [swap_out], [swap_in], [num_full_blocks].  A
    predecessor passed to an allocation is taken to be of the new block's pool, as
    block tables do it.  The object
    that [swap_in] uses for a moment has, in the code, a predecessor of the other
    pool; nothing reads it, and here it has none. *)
From S2P Require Import Prelude.
From S2P Require Import PyDict.
From S2P Require Import EvictorBase.
From S2P Require Import BlockCommon.
From S2P Require Import NaiveBlock.
From S2P Require Import BlockInterfaces.

Module CpuGpu.

Inductive block_ref : Type :=
  | Block (owner : Device) (pool_id : Z)
  | NullBlock (owner : Device) (pool_id : Z).

#[global] Instance block_ref_eq_dec : EqDecision block_ref.
Proof. solve_decision. Defined.
#[global] Instance block_ref_countable : Countable block_ref.
Proof.
  apply (inj_countable'
    (fun r => match r with
              | Block d p => (true, bool_decide (d = GPU), p)
              | NullBlock d p => (false, bool_decide (d = GPU), p)
              end)
    (fun '(b, g, p) => let d := if g : bool then GPU else CPU in
                       if b : bool then Block d p else NullBlock d p)).
  by intros [[] ?|[] ?].
Defined.

Definition owner (r : block_ref) : Device :=
  match r with Block d _ | NullBlock d _ => d end.
Definition pool_id (r : block_ref) : Z :=
  match r with Block _ p | NullBlock _ p => p end.
Definition is_null (r : block_ref) : bool :=
  match r with Block _ _ => false | NullBlock _ _ => true end.

(** [_block_ids_to_allocator] maps an id to its allocator's device. *)
Record t : Type := CpuGpuBlockAllocator {
  cpu : Naive.t;
  gpu : Naive.t;
  swap_mapping : pydict Z Z;
  null_block : option block_ref;
  block_ids_to_allocator : gmap Z Device
}.

Definition allocator (d : Device) (s : t) : Naive.t :=
  match d with GPU => gpu s | CPU => cpu s end.
Definition with_allocator (d : Device) (s : t) (a : Naive.t) : t :=
  match d with
  | GPU => CpuGpuBlockAllocator (cpu s) a (swap_mapping s) (null_block s) (block_ids_to_allocator s)
  | CPU => CpuGpuBlockAllocator a (gpu s) (swap_mapping s) (null_block s) (block_ids_to_allocator s)
  end.
Definition with_swaps (s : t) (m : pydict Z Z) : t :=
  CpuGpuBlockAllocator (cpu s) (gpu s) m (null_block s) (block_ids_to_allocator s).
Definition with_null (s : t) (r : option block_ref) : t :=
  CpuGpuBlockAllocator (cpu s) (gpu s) (swap_mapping s) r (block_ids_to_allocator s).

(** [self._allocators[d].f()] *)
Definition on {A} (d : Device) (f : M Naive.t A) : M t A := fun s =>
  let '(r, a) := f (allocator d s) in (r, with_allocator d s a).

Definition init (c g : Naive.t) : result t :=
  let cpu_ids := Ids.all_block_indices (Naive.ids c) in
  let gpu_ids := Ids.all_block_indices (Naive.ids g) in
  if decide (cpu_ids ∩ gpu_ids = ∅) then
    Ok (CpuGpuBlockAllocator c g ∅ None
          (set_to_map (fun b => (b, GPU)) gpu_ids ∪ set_to_map (fun b => (b, CPU)) cpu_ids))
  else Err AssertionError.

(** [create] for the naive type; [is_hpu]: the platform reserves block 0. *)
Definition create (is_hpu : bool) (num_gpu_blocks num_cpu_blocks block_size : Z) : result t :=
  let reserved_blocks := if is_hpu then 1 else 0 in
  let block_ids := seqZ reserved_blocks (num_gpu_blocks + num_cpu_blocks - reserved_blocks) in
  let num_gpu_blocks := num_gpu_blocks - reserved_blocks in
  g ← Naive.init num_gpu_blocks block_size (Some (take (Z.to_nat num_gpu_blocks) block_ids));
  c ← Naive.init num_cpu_blocks block_size (Some (drop (Z.to_nat num_gpu_blocks) block_ids));
  init c g.

(** ** A block's attributes *)

Definition obj (r : block_ref) : M t Naive.block := on (owner r) (Naive.obj (pool_id r)).

Definition lookup_obj (r : block_ref) (s : t) : option Naive.block :=
  BlockPool.objs (Naive.pool (allocator (owner r) s)) !! pool_id r.

Definition block_id (r : block_ref) (s : t) : option Z := lookup_obj r s ≫= Naive.block_id.
Definition token_ids (r : block_ref) (s : t) : list Z := default [] (Naive.token_ids <$> lookup_obj r s).

(** [block.block_id = b]; the null block refuses. *)
Definition set_block_id (r : block_ref) (b : option Z) : M t unit :=
  if is_null r then raise ValueError
  else
    o ← obj r;
    on (owner r) (Naive.put (pool_id r) (Naive.set_block_id o b)).

(** [block.append_token_ids]: the block's own allocator copies on write. *)
Definition append_token_ids (r : block_ref) (toks : list Z) : M t unit :=
  if is_null r then raise ValueError
  else on (owner r) (Naive.append_token_ids (pool_id r) toks).

(** ** [NaiveBlockAllocator] of device [d], on objects of any owner *)

Definition free_block_id (d : Device) (r : block_ref) : M t unit :=
  s ← get;
  set_block_id r None ;;
  match block_id r s with
  | None => raise AssertionError
  | Some b => on d (Naive.on_ids (Ids.free_block_id b))
  end.

(** [free]: the object goes to the pool of [d], whoever created it. *)
Definition free_on (d : Device) (r : block_ref) : M t unit :=
  free_block_id d r ;;
  on d (modify (fun a => Naive.with_pool a (BlockPool.free_block (pool_id r) (Naive.pool a)))).

(** The loop of [fork]. *)
Fixpoint fork_loop (d : Device) (prev : option Z) (l : list block_ref) : M t (list block_ref) :=
  match l with
  | [] => mret []
  | r :: l' =>
      o ← obj r;
      match Naive.block_id o with
      | None => raise AssertionError
      | Some b =>
          c ← on d (Naive.on_ids (Ids.counting (RefCounter.incr b)));
          if c =? 1 then raise AssertionError
          else
            q ← on d (Naive.init_block prev (Naive.token_ids o) (Some b));
            qs ← fork_loop d (Some q) l';
            mret (Block d q :: qs)
      end
  end.

Definition fork_on (d : Device) (last_block : block_ref) : M t (list block_ref) :=
  s ← get;
  l ← lift (Naive.source_blocks (pool_id last_block) (allocator (owner last_block) s));
  fork_loop d None (map (Block (owner last_block)) l).

Definition swap_out (d : Device) (l : list block_ref) : M t unit := for_each l (free_block_id d).

(** One block of [swap_in]. *)
Definition swap_in_block (d : Device) (r : block_ref) : M t unit :=
  o ← obj r;
  let prev := if decide (owner r = d) then Naive.prev_block o else None in
  tmp ← on d (if Naive.is_full o
              then Naive.allocate_immutable_block prev (Naive.token_ids o)
              else tmp ← Naive.allocate_mutable_block prev;
                   Naive.append_token_ids tmp (Naive.token_ids o) ;; mret tmp);
  tmp_block ← on d (Naive.obj tmp);
  on d (Naive.put tmp (Naive.set_block_id tmp_block None)) ;;
  on d (modify (fun a => Naive.with_pool a (BlockPool.free_block tmp (Naive.pool a)))) ;;
  set_block_id r (Naive.block_id tmp_block).

Definition swap_in (d : Device) (l : list block_ref) : M t unit := for_each l (swap_in_block d).

Definition num_full_blocks (l : list block_ref) (s : t) : Z :=
  Z.of_nat (size (list_to_set (filter (fun r =>
    default false (Naive.is_full <$> lookup_obj r s) = true) l) : gset block_ref)).

(** ** [CpuGpuBlockAllocator] *)

Definition pool_ref (r : option block_ref) : option Z := pool_id <$> r.

Definition allocate_mutable_block (prev : option block_ref) (d : Device) (extra : option Z)
    : M t block_ref :=
  p ← on d (Naive.allocate_mutable_block (pool_ref prev)); mret (Block d p).

Definition allocate_immutable_block (prev : option block_ref) (toks : list Z) (d : Device)
    (extra : option Z) : M t block_ref :=
  p ← on d (Naive.allocate_immutable_block (pool_ref prev) toks); mret (Block d p).

Definition allocate_immutable_blocks (prev : option block_ref) (l : list (list Z)) (d : Device)
    (extra : option Z) : M t (list block_ref) :=
  ps ← on d (Naive.allocate_immutable_blocks (pool_ref prev) l); mret (map (Block d) ps).

Definition allocate_or_get_null_block : M t block_ref :=
  s ← get;
  match null_block s with
  | Some r => mret r
  | None =>
      r ← allocate_mutable_block None GPU None;
      let n := NullBlock (owner r) (pool_id r) in
      modify (fun s => with_null s (Some n)) ;;
      mret n
  end.

(** The device whose allocator has the block's id. *)
Definition device_of (r : block_ref) : M t Device :=
  s ← get;
  match block_id r s with
  | None => raise AssertionError
  | Some b => lift (from_option_exn KeyError (block_ids_to_allocator s !! b))
  end.

Definition free (r : block_ref) : M t unit :=
  if is_null r then mret tt else d ← device_of r; free_on d r.

Definition fork (last_block : block_ref) : M t (list block_ref) :=
  assert_ (negb (is_null last_block)) ;;
  d ← device_of last_block;
  fork_on d last_block.

Definition get_num_free_blocks (d : Device) (s : t) : Z := Naive.get_num_free_blocks (allocator d s).
Definition get_num_total_blocks (d : Device) (s : t) : Z := Naive.get_num_total_blocks (allocator d s).
Definition get_physical_block_id (d : Device) (absolute_id : Z) (s : t) : result Z :=
  Ids.get_physical_block_id absolute_id (Naive.ids (allocator d s)).

(** The pairs recorded by [swap]. *)
Definition record_swap (m : pydict Z Z) (p : option Z * option Z) : pydict Z Z :=
  match p with
  | (Some src, Some dst) => <[src := dst]> m
  | _ => m
  end.

Definition swap (l : list block_ref) (src_device dst_device : Device) : M t (pydict Z Z) :=
  src_block_ids ← gets (fun s => map (fun r => block_id r s) l);
  swap_out src_device l ;;
  swap_in dst_device l ;;
  dst_block_ids ← gets (fun s => map (fun r => block_id r s) l);
  let pairs := zip src_block_ids dst_block_ids in
  modify (fun s => with_swaps s (foldl record_swap (swap_mapping s) pairs)) ;;
  mret (foldl record_swap ∅ pairs).

Definition get_num_full_blocks_touched (l : list block_ref) (d : Device) : M t Z :=
  gets (num_full_blocks l).

Definition clear_copy_on_writes : M t (list (Z * Z)) := on GPU Naive.clear_copy_on_writes.
Definition mark_blocks_as_accessed (bs : list Z) (now : Q) (h : option cache_hint) : M t unit :=
  on GPU (Naive.mark_blocks_as_accessed bs).
Definition mark_blocks_as_computed (bs : list Z) : M t unit :=
  on GPU (Naive.mark_blocks_as_computed bs).

(** The naive allocator has none of the methods looked up with [hasattr]. *)
Definition observe_cache_accesses (hs : list Z) (h : option cache_hint) : M t unit := mret tt.
Definition should_predict_cache_hint (s : t) : bool := true.
Definition get_scheduler_post_warmup_prefix_cache_hit_rate (d : Device) (s : t) : Q := (-1)%Q.

Definition get_common_computed_block_ids (ls : list (list Z)) (s : t) : list Z :=
  Naive.get_common_computed_block_ids ls.
Definition all_block_ids (s : t) : gset Z := dom (block_ids_to_allocator s).
Definition get_prefix_cache_hit_rate (d : Device) (s : t) : Q :=
  Naive.get_prefix_cache_hit_rate (allocator d s).

(** [success and a.reset()], for the CPU first. *)
Definition reset_prefix_cache : M t bool :=
  c ← on CPU Naive.reset_prefix_cache;
  if c : bool then on GPU Naive.reset_prefix_cache else mret false.

Definition get_and_reset_swaps : M t (list (Z * Z)) :=
  m ← gets swap_mapping;
  modify (fun s => with_swaps s ∅) ;;
  mret (items m).

Definition find_cached_blocks_prefix (hs : list Z) (d : Device) (s : t) : result (list Z) :=
  Ok (Naive.find_cached_blocks_prefix hs).

#[export] Instance cpu_gpu_allocator : DeviceAwareBlockAllocator t block_ref := {|
  BlockInterfaces.block_id_of := block_id;
  BlockInterfaces.token_ids_of := token_ids;
  BlockInterfaces.block_append_token_ids := append_token_ids;
  BlockInterfaces.allocate_or_get_null_block := allocate_or_get_null_block;
  BlockInterfaces.allocate_mutable_block := allocate_mutable_block;
  BlockInterfaces.allocate_immutable_block := allocate_immutable_block;
  BlockInterfaces.allocate_immutable_blocks := allocate_immutable_blocks;
  BlockInterfaces.free_block := free;
  BlockInterfaces.fork_blocks := fork;
  BlockInterfaces.get_num_free_blocks := get_num_free_blocks;
  BlockInterfaces.get_num_total_blocks := get_num_total_blocks;
  BlockInterfaces.get_physical_block_id := get_physical_block_id;
  BlockInterfaces.swap_blocks := swap;
  BlockInterfaces.get_num_full_blocks_touched := get_num_full_blocks_touched;
  BlockInterfaces.clear_copy_on_writes := clear_copy_on_writes;
  BlockInterfaces.mark_blocks_as_accessed := mark_blocks_as_accessed;
  BlockInterfaces.observe_cache_accesses := observe_cache_accesses;
  BlockInterfaces.should_predict_cache_hint := should_predict_cache_hint;
  BlockInterfaces.mark_blocks_as_computed := mark_blocks_as_computed;
  BlockInterfaces.get_common_computed_block_ids := get_common_computed_block_ids;
  BlockInterfaces.get_prefix_cache_hit_rate := get_prefix_cache_hit_rate;
  BlockInterfaces.get_scheduler_post_warmup_prefix_cache_hit_rate :=
    get_scheduler_post_warmup_prefix_cache_hit_rate;
  BlockInterfaces.reset_prefix_cache := reset_prefix_cache;
  BlockInterfaces.find_cached_blocks_prefix := find_cached_blocks_prefix
|}.
End CpuGpu.
