(* ===== verification/CpuGpuCorrect.v ===== *)
(** * The CPU/GPU allocator keeps the contract

    [CpuGpuBlockAllocator] satisfies [DeviceAwareLaws].  [wf] says that the two
    allocators share the objects of the GPU pool: an id's reference count is the
    number of GPU objects that hold it, whichever device the id belongs to.  The
    CPU pool's own objects are only used in passing, by [swap_in]. *)
From S2P Require Import Prelude.
From S2P Require Import BlockCommon.
From S2P Require Import NaiveBlock.
From S2P Require Import NaiveProgress.
From S2P Require Import BlockInterfaces.
From S2P Require Import CpuGpuAllocator.

Section Correct.
Import CpuGpu.
Variable bs : Z.
Hypothesis Hbs : 0 < bs.
Implicit Types (s : CpuGpu.t) (r q : block_ref) (a : Naive.t).

Abbreviation all_ids a := (Ids.all_block_indices (Naive.ids a)).
Abbreviation refs a := (Ids.refcount (Naive.ids a)).
Abbreviation on_cpu s := (fun b => - refs (cpu s) b).

Record wf s : Prop := {
  wf_gpu : good bs (on_cpu s) (gpu s);
  wf_cpu : Ids.ids_ok (Naive.ids (cpu s));
  wf_disjoint : forall b, b ∈ all_ids (gpu s) -> b ∉ all_ids (cpu s);
  wf_devices : forall b d, block_ids_to_allocator s !! b = Some d <-> b ∈ all_ids (allocator d s)
}.

Definition view s r : option (block_view block_ref) :=
  match r with
  | Block GPU p =>
      '(prev, toks, i) ← held (gpu s) p;
      dev ← block_ids_to_allocator s !! i;
      Some (BlockView (Block GPU <$> prev) toks i dev)
  | _ => None
  end.

Lemma view_held s r b :
  view s r = Some b ->
  exists p prev, r = Block GPU p /\ bv_prev b = Block GPU <$> prev /\
    held (gpu s) p = Some (prev, bv_tokens b, bv_id b) /\
    block_ids_to_allocator s !! bv_id b = Some (bv_device b).
Proof.
  unfold view. destruct r as [[] p|]; try done. destruct (held (gpu s) p) as [[[prev toks] i]|] eqn:Hh; [|done].
  cbn. destruct (_ !! i) as [dev|] eqn:Hd; cbn; [|done]. intros [= <-]. by exists p, prev.
Qed.

Lemma held_view s p prev toks i :
  wf s -> held (gpu s) p = Some (prev, toks, i) -> i ∈ all_ids (gpu s) ->
  view s (Block GPU p) = Some (BlockView (Block GPU <$> prev) toks i GPU).
Proof.
  intros Hs Hh Hi. unfold view. rewrite Hh. cbn.
  by rewrite (proj2 (wf_devices s Hs i GPU) Hi).
Qed.

(** An id of the GPU is not referenced on the CPU. *)
Lemma gpu_not_cpu s i : wf s -> i ∈ all_ids (gpu s) -> refs (cpu s) i = 0.
Proof.
  intros Hs Hi. unfold Ids.refcount. destruct (_ !! i) eqn:E; [|done].
  exfalso. apply (wf_disjoint s Hs i Hi), (Ids.io_dom _ (wf_cpu s Hs)). by eexists.
Qed.

(** A GPU id's references are the objects that hold it. *)
Lemma gpu_count s i : wf s -> i ∈ all_ids (gpu s) -> refs (gpu s) i = Naive.owners_of (gpu s) i.
Proof.
  intros Hs Hi. rewrite (Naive.ba_counts _ _ (gd_balanced _ _ _ (wf_gpu s Hs)) i).
  rewrite (gpu_not_cpu s i Hs Hi). lia.
Qed.

(** The GPU allocator changes, and keeps its ids. *)
Lemma wf_set_gpu s a :
  wf s -> good bs (on_cpu s) a -> all_ids a = all_ids (gpu s) -> wf (with_allocator GPU s a).
Proof.
  intros Hs Ha Hall. split; cbn [gpu cpu with_allocator block_ids_to_allocator].
  - exact Ha.
  - apply Hs.
  - rewrite Hall. apply Hs.
  - intros b []; cbn [allocator gpu cpu with_allocator]; rewrite ?Hall; apply (wf_devices s Hs).
Qed.

Lemma view_set_gpu s a q :
  (forall p, q = Block GPU p -> held a p = held (gpu s) p) ->
  view (with_allocator GPU s a) q = view s q.
Proof. destruct q as [[] p|]; try done. intros H. unfold view. cbn [gpu with_allocator]. by rewrite H. Qed.

Lemma on_meets {A} d (m : M Naive.t A) s Q :
  meets m (allocator d s) Q ->
  meets (on d m) s (fun x s' => exists a, Q x a /\ s' = with_allocator d s a).
Proof. unfold meets, on. destruct (m _) as [[x|e] a]; [by exists a|done]. Qed.

Lemma free_gpu s : get_num_free_blocks GPU s = Naive.get_num_free_blocks (gpu s).
Proof. done. Qed.

Lemma prev_ref s prev : prev_live (view s) prev -> Block GPU <$> pool_ref prev = prev.
Proof.
  destruct prev as [q|]; cbn; [|done]. intros [b Hb]. by apply view_held in Hb as (p & ? & -> & _).
Qed.

(** A block that is alone holds the only reference to its id. *)
Lemma alone_refs s p prev toks i :
  wf s -> held (gpu s) p = Some (prev, toks, i) -> i ∈ all_ids (gpu s) ->
  alone (view s) (Block GPU p) -> refs (gpu s) i <= 1.
Proof.
  intros Hs Hh Hi Hal. rewrite (gpu_count s i Hs Hi).
  apply (owners_single (gpu s) p).
  intros q prev' toks' Hq. pose proof (held_view s p _ _ _ Hs Hh Hi) as H1.
  pose proof (held_view s q _ _ _ Hs Hq Hi) as H2.
  by injection (Hal (Block GPU q) _ _ H1 H2 eq_refl).
Qed.

(** *** The laws *)

Lemma mutable_law s prev extra :
  wf s -> prev_live (view s) prev -> 0 < get_num_free_blocks GPU s ->
  meets (allocate_mutable_block prev GPU extra) s (fun r s' =>
    wf s' /\ view s r = None /\ frame (view s) (view s') [r] /\
    get_num_free_blocks GPU s - 1 <= get_num_free_blocks GPU s' /\
    alone (view s') r /\ exists i, view s' r = Some (BlockView prev [] i GPU)).
Proof.
  intros Hs Hprev Hfree. unfold allocate_mutable_block.
  eapply meets_bind; [apply on_meets, mutable_ok; [exact Hbs|apply Hs|done]|].
  intros p s' (a & (Ha & Hn & (i & Hh & H0 & Hi) & Hf & Hc & Hall) & ->). apply meets_ret.
  cbn [allocator] in *.
  assert (Hw : wf (with_allocator GPU s a)) by by apply wf_set_gpu.
  assert (Hv : view (with_allocator GPU s a) (Block GPU p) = Some (BlockView prev [] i GPU)).
  { rewrite <- (prev_ref s prev Hprev). apply held_view; [done|done|]. cbn. by rewrite Hall. }
  assert (Hfr : frame (view s) (view (with_allocator GPU s a)) [Block GPU p]).
  { intros q Hq. rewrite list_elem_of_singleton in Hq. apply view_set_gpu.
    intros p' ->. apply Hf. congruence. }
  split; [done|]. split; [unfold view; by rewrite Hn|]. split; [done|].
  split; [rewrite !free_gpu; cbn [gpu with_allocator]; lia|]. split; [|by exists i].
  intros q b c Hb Hcq Hid. rewrite Hv in Hb. injection Hb as <-. cbn in Hid.
  destruct (decide (q = Block GPU p)) as [|Hne]; [done|exfalso].
  rewrite Hfr in Hcq by by rewrite list_elem_of_singleton.
  apply view_held in Hcq as (p' & prev' & -> & _ & Hq & _).
  rewrite <- Hid in Hq. pose proof (held_owned _ _ _ _ _ Hq).
  pose proof (gpu_count s i Hs Hi). lia.
Qed.

Lemma strung_linked s a prev ps l js :
  wf (with_allocator GPU s a) -> length js = length l -> Forall (fun i => i ∈ all_ids a) js ->
  strung a prev ps (zip l js) ->
  linked (view (with_allocator GPU s a)) (Block GPU <$> prev) (map (Block GPU) ps) l.
Proof.
  intros Hw. revert prev ps js. induction l as [|toks l IH]; intros prev ps [|i js]; cbn; try done.
  { by destruct ps. }
  intros [= Hlen] Hin. apply Forall_cons in Hin as [Hi Hin].
  destruct ps as [|p ps]; [done|]. cbn. intros [Hh Hs]. split.
  - exists i. exact (held_view (with_allocator GPU s a) p prev toks i Hw Hh Hi).
  - by apply (IH (Some p) ps js).
Qed.

(** New objects [ps] of the GPU's pool, as blocks. *)
Lemma added_blocks s a ps :
  added (gpu s) a ps ->
  NoDup (map (Block GPU) ps) /\ (forall r, r ∈ map (Block GPU) ps -> view s r = None) /\
  frame (view s) (view (with_allocator GPU s a)) (map (Block GPU) ps).
Proof.
  intros [Hnd Hnew Hf]. split; [|split].
  - apply NoDup_fmap_2; [|done]. by intros ? ? [= ->].
  - intros r (p & -> & Hp)%list_elem_of_fmap. unfold view. by rewrite Hnew.
  - intros q Hq. apply view_set_gpu. intros p ->. apply Hf. intros Hp. apply Hq.
    by apply list_elem_of_fmap_2.
Qed.

Lemma immutable_law s prev l extra :
  wf s -> prev_live (view s) prev -> Z.of_nat (length l) <= get_num_free_blocks GPU s ->
  Forall (fun toks => Z.of_nat (length toks) = bs) l ->
  meets (allocate_immutable_blocks prev l GPU extra) s (fun rs s' =>
    wf s' /\ NoDup rs /\ (forall r, r ∈ rs -> view s r = None) /\ frame (view s) (view s') rs /\
    get_num_free_blocks GPU s - Z.of_nat (length l) <= get_num_free_blocks GPU s' /\
    linked (view s') prev rs l).
Proof.
  intros Hs Hprev Hfree Hl. unfold allocate_immutable_blocks.
  eapply meets_bind; [apply on_meets, immutable_blocks_progress; [exact Hbs|apply Hs|done|]|].
  { eapply Forall_impl; [done|]. cbn. lia. }
  intros ps s' (a & (Ha & Had & Hc & Hall & js & Hlen & Hin & Hstr) & ->). apply meets_ret.
  cbn [allocator] in *.
  assert (Hw : wf (with_allocator GPU s a)) by by apply wf_set_gpu.
  destruct (added_blocks s a ps Had) as (Hnd & Hnew & Hf).
  split; [done|]. split; [done|]. split; [done|]. split; [done|].
  split; [rewrite !free_gpu; cbn [gpu with_allocator]; lia|].
  rewrite <- (prev_ref s prev Hprev). eapply strung_linked; [done..| |done]. by rewrite Hall.
Qed.

Lemma append_law s r prev old i toks :
  wf s -> view s r = Some (BlockView prev old i GPU) -> toks <> [] ->
  Z.of_nat (length (old ++ toks)) <= bs ->
  alone (view s) r \/ 0 < get_num_free_blocks GPU s ->
  meets (append_token_ids r toks) s (fun _ s' =>
    wf s' /\ frame (view s) (view s') [r] /\
    get_num_free_blocks GPU s - 1 <= get_num_free_blocks GPU s' /\
    (alone (view s) r -> get_num_free_blocks GPU s <= get_num_free_blocks GPU s') /\
    exists j, view s' r = Some (BlockView prev (old ++ toks) j GPU) /\
      forall q b, q <> r -> view s q = Some b -> Z.of_nat (length (bv_tokens b)) < bs ->
        bv_id b = j -> j = i).
Proof.
  intros Hs Hv Ht Hlen Hcost. apply view_held in Hv as Hr.
  destruct Hr as (p & prev' & -> & Hprev & Hh & Hdev). cbn [bv_prev bv_tokens bv_id bv_device] in *.
  apply (wf_devices s Hs) in Hdev. cbn [allocator] in Hdev.
  assert (Hal : alone (view s) (Block GPU p) -> refs (gpu s) i <= 1) by by eapply alone_refs.
  assert (Hd : 0 <= on_cpu s i) by (rewrite (gpu_not_cpu s i Hs Hdev); lia).
  unfold append_token_ids. cbn [is_null owner pool_id].
  eapply meets_weaken; [apply on_meets, (append_progress bs (on_cpu s) _ p prev' old i); try done|].
  - apply Hs.
  - destruct Hcost as [Hcost|Hcost]; [left; by apply Hal|by right].
  - intros [] s' (a & (Ha & Hf & Hall & Hc & j & Hj & Hji & Hnew) & ->).
    cbn [allocator] in *.
    assert (Hw : wf (with_allocator GPU s a)) by by apply wf_set_gpu.
    assert (Hfr : frame (view s) (view (with_allocator GPU s a)) [Block GPU p]).
    { intros q Hq. rewrite list_elem_of_singleton in Hq. apply view_set_gpu.
      intros p' ->. apply Hf. congruence. }
    split; [done|]. split; [done|]. rewrite !free_gpu. cbn [gpu with_allocator allocator] in *.
    unfold shared_cost in Hc. split; [destruct (_ <=? 1); lia|].
    split; [intros Ha1; rewrite (proj2 (Z.leb_le _ _) (Hal Ha1)) in Hc; lia|].
    exists j. split.
    { rewrite Hprev. apply held_view; [done|done|]. cbn. by rewrite Hall. }
    intros q b Hq Hb _ Hid. destruct Hnew as [->|H0]; [done|exfalso].
    apply view_held in Hb as (p' & prev2 & -> & _ & Hq' & _). rewrite Hid in Hq'.
    pose proof (held_owned _ _ _ _ _ Hq').
    pose proof (gpu_count s j Hs Hji). lia.
Qed.

(** A live GPU object that holds no id, with the given predecessor and tokens. *)
Definition vacant s r (prev : option block_ref) (toks : list Z) : Prop :=
  exists p o, r = Block GPU p /\ BlockPool.objs (Naive.pool (gpu s)) !! p = Some o /\
    Block GPU <$> Naive.prev_block o = prev /\ Naive.token_ids o = toks /\
    Naive.block_id o = None /\ p ∉ BlockPool.free_ids (Naive.pool (gpu s)).

(** What giving up the id of [r] does, on either device. *)
Record released s s' r (v : block_view block_ref) : Prop := {
  rl_wf : wf s';
  rl_frame : frame (view s) (view s') [r];
  rl_vacant : vacant s' r (bv_prev v) (bv_tokens v);
  rl_others : forall q prev toks, vacant s q prev toks -> vacant s' q prev toks;
  rl_free : forall d, get_num_free_blocks d s <= get_num_free_blocks d s';
  rl_cpu_pool : Naive.pool (cpu s') = Naive.pool (cpu s) /\ Naive.bsize (cpu s') = Naive.bsize (cpu s);
  rl_ids : forall d, all_ids (allocator d s') = all_ids (allocator d s)
}.

Lemma gpu_view_lookup s r v :
  view s r = Some v ->
  exists p o, r = Block GPU p /\ BlockPool.objs (Naive.pool (gpu s)) !! p = Some o /\
    Block GPU <$> Naive.prev_block o = bv_prev v /\ Naive.token_ids o = bv_tokens v /\
    Naive.block_id o = Some (bv_id v) /\ held (gpu s) p = Some (Naive.prev_block o, bv_tokens v, bv_id v).
Proof.
  intros Hv. apply view_held in Hv as (p & prev & -> & Hp & Hh & _).
  pose proof Hh as (o & Ho & <- & Ht & Hi)%held_Some. by exists p, o.
Qed.

Lemma holder_not_spare s p o i :
  wf s -> BlockPool.objs (Naive.pool (gpu s)) !! p = Some o -> Naive.block_id o = Some i ->
  p ∉ BlockPool.free_ids (Naive.pool (gpu s)).
Proof. intros Hs. by eapply Naive.holder_not_free, gd_balanced, wf_gpu. Qed.

Lemma vacant_frame s s' q prev toks :
  vacant s q prev toks -> BlockPool.free_ids (Naive.pool (gpu s')) = BlockPool.free_ids (Naive.pool (gpu s)) ->
  (forall p, q = Block GPU p ->
     BlockPool.objs (Naive.pool (gpu s')) !! p = BlockPool.objs (Naive.pool (gpu s)) !! p) ->
  vacant s' q prev toks.
Proof. intros (p & o & -> & Ho & H) Hf He. exists p, o. by rewrite He, Hf. Qed.

(** The object of [p] loses its id [i], which is the CPU's. *)
Definition drop_cpu_id s p (o : Naive.block) (i : Z) : t :=
  with_allocator CPU
    (with_allocator GPU s (Naive.with_pool (gpu s)
       (BlockPool.set_obj p (Naive.set_block_id o None) (Naive.pool (gpu s)))))
    (Naive.with_ids (cpu s) (Ids.Ids
       (if refs (cpu s) i =? 1 then i :: Ids.free_block_indices (Naive.ids (cpu s))
        else Ids.free_block_indices (Naive.ids (cpu s)))
       (all_ids (cpu s)) (<[i := refs (cpu s) i - 1]> (Ids.refcounts (Naive.ids (cpu s)))))).

(** A CPU id's references are the GPU objects that hold it. *)
Lemma cpu_count s i : wf s -> i ∈ all_ids (cpu s) -> refs (cpu s) i = Naive.owners_of (gpu s) i.
Proof.
  intros Hs Hi. pose proof (Naive.ba_counts _ _ (gd_balanced _ _ _ (wf_gpu s Hs)) i) as Hc.
  assert (H0 : refs (gpu s) i = 0).
  { unfold Ids.refcount. destruct (_ !! i) eqn:E; [|done]. exfalso.
    apply (wf_disjoint s Hs i); [|done].
    apply (Ids.io_dom _ (Naive.ba_ids _ _ (gd_balanced _ _ _ (wf_gpu s Hs)))). by eexists. }
  rewrite H0 in Hc. lia.
Qed.

Lemma free_cpu_ok s p o i :
  wf s -> BlockPool.objs (Naive.pool (gpu s)) !! p = Some o -> Naive.block_id o = Some i ->
  i ∈ all_ids (cpu s) ->
  free_block_id CPU (Block GPU p) s = (Ok tt, drop_cpu_id s p o i) /\ wf (drop_cpu_id s p o i).
Proof.
  intros Hs Ho Hid Hi.
  assert (Hpos : 1 <= refs (cpu s) i).
  { rewrite cpu_count by done. pose proof (owners_pos _ p o i Ho Hid). unfold Naive.owners_of. lia. }
  destruct (proj2 (Ids.io_dom _ (wf_cpu s Hs) i) Hi) as [c Hc].
  assert (Hr : refs (cpu s) i = c) by (unfold Ids.refcount; by rewrite Hc).
  assert (Hspec := Ids.free_spec (Naive.ids (cpu s)) i c Hc ltac:(lia)).
  split.
  - unfold free_block_id, set_block_id, block_id, obj, lookup_obj. cbn [is_null owner pool_id].
    rewrite (bind_step get _ s s s eq_refl). cbn [allocator]. rewrite Ho. cbn [mbind option_bind]. rewrite Hid.
    unfold on, mbind, M_bind, Naive.obj, Naive.put, modify, Naive.on_ids. cbn. rewrite Ho. cbn.
    rewrite Hspec. unfold drop_cpu_id. by rewrite Hr.
  - rewrite <- Hr in Hspec.
    destruct (Ids.free_ok _ _ _ (wf_cpu s Hs) Hspec) as (Hids & _ & Hcount).
    split; cbn [gpu cpu drop_cpu_id with_allocator block_ids_to_allocator Naive.with_ids Naive.ids Naive.with_pool].
    + destruct (gd_sized _ _ _ (wf_gpu s Hs) p o Ho) as [H1 H2].
      split; [|apply (wf_gpu s Hs)|].
      2: { apply (sized_set bs (on_cpu s) (gpu s) p (Naive.set_block_id o None)); [apply Hs|done|done]. }
      eapply Naive.balanced_ext; [|apply (Naive.put_balanced (on_cpu s) p o); [apply (wf_gpu s Hs)|done|done]].
      intros b. cbn beta. rewrite Hcount, (points_some o i b Hid), (points_none (Naive.set_block_id o None)) by done.
      lia.
    + exact Hids.
    + apply Hs.
    + intros b []; apply (wf_devices s Hs).
Qed.

(** On an object of its own, [free_block_id] is the naive allocator's. *)
Lemma free_block_id_own s p :
  is_Some (BlockPool.objs (Naive.pool (gpu s)) !! p) ->
  free_block_id GPU (Block GPU p) s = on GPU (Naive.free_block_id p) s.
Proof.
  intros [o Ho]. unfold free_block_id, set_block_id, block_id, obj, lookup_obj. cbn [is_null owner pool_id].
  rewrite (bind_step get _ s s s eq_refl). cbn [allocator]. rewrite Ho. cbn [mbind option_bind].
  unfold on, Naive.free_block_id, mbind, M_bind, Naive.obj, Naive.put, modify, raise. cbn. rewrite Ho. cbn.
  destruct (Naive.block_id o); [|done]. unfold Naive.on_ids. cbn. by destruct (Ids.free_block_id _ _).
Qed.

Lemma release_ok s r v :
  wf s -> view s r = Some v ->
  meets (free_block_id (bv_device v) r) s (fun _ s' => released s s' r v).
Proof.
  intros Hs Hv. pose proof (gpu_view_lookup s r v Hv) as (p & o & -> & Ho & Hp & Ht & Hid & Hh).
  pose proof (holder_not_spare s p o _ Hs Ho Hid) as Hspare.
  apply view_held in Hv as (p' & prev & [= <-] & _ & _ & Hdev). apply (wf_devices s Hs) in Hdev.
  assert (Hoth : forall s', BlockPool.free_ids (Naive.pool (gpu s')) = BlockPool.free_ids (Naive.pool (gpu s)) ->
    (forall q : Z, q <> p -> BlockPool.objs (Naive.pool (gpu s')) !! q = BlockPool.objs (Naive.pool (gpu s)) !! q) ->
    forall q prev toks, vacant s q prev toks -> vacant s' q prev toks).
  { intros s' Hf He q prv toks Hq. eapply vacant_frame; [exact Hq|done|]. intros x ->. apply He.
    destruct Hq as (x' & ox & [= <-] & Hox & _ & _ & Hn & _). congruence. }
  destruct (bv_device v).
  - unfold meets. rewrite free_block_id_own by by eexists.
    match goal with |- match ?m with _ => _ end => change (meets (on GPU (Naive.free_block_id p)) s
      (fun _ s' => released s s' (Block GPU p) v)) end.
    eapply meets_weaken; [apply on_meets, (free_id_progress bs (on_cpu s) _ p
      (Naive.prev_block o) (bv_tokens v) (bv_id v)); [apply Hs|exact Hh|done|]|].
    { rewrite (gpu_not_cpu s _ Hs Hdev). lia. }
    intros [] s' (a & (Ha & Hn & Hf & (o' & Ho' & Hset & Hothers) & Hfree & Hc & Hall & _) & ->).
    cbn [allocator] in *. assert (o' = o) as -> by congruence.
    split; cbn [gpu cpu with_allocator]; [by apply wf_set_gpu| | | | |done|].
    + intros q Hq. rewrite list_elem_of_singleton in Hq. apply view_set_gpu. intros x ->. apply Hf. congruence.
    + exists p, (Naive.set_block_id o None). cbn. by rewrite Hfree.
    + by apply Hoth.
    + intros []; [|apply Z.le_refl]. rewrite !free_gpu. cbn [gpu with_allocator]. destruct (_ =? 1); lia.
    + by intros [].
  - destruct (free_cpu_ok s p o _ Hs Ho Hid Hdev) as [Hrun Hw]. unfold meets. rewrite Hrun.
    split; cbn [gpu cpu drop_cpu_id with_allocator Naive.pool Naive.with_pool Naive.with_ids]; [done| | | | |done|].
    + intros q Hq. rewrite list_elem_of_singleton in Hq.
      destruct q as [[] x|]; try done. unfold view, held. cbn. rewrite lookup_insert_ne by congruence. done.
    + exists p, (Naive.set_block_id o None). cbn. by rewrite lookup_insert_eq.
    + apply Hoth; [done|]. cbn. intros q Hq. by rewrite lookup_insert_ne.
    + intros []; [apply Z.le_refl|]. unfold get_num_free_blocks, Naive.get_num_free_blocks, Ids.get_num_free_blocks.
      cbn. destruct (_ =? 1); cbn [length]; lia.
    + by intros [].
Qed.

Lemma device_of_ok s r v : wf s -> view s r = Some v -> device_of r s = (Ok (bv_device v), s).
Proof.
  intros Hs Hv. pose proof (gpu_view_lookup s r v Hv) as (p & o & -> & Ho & _ & _ & Hid & _).
  apply view_held in Hv as (_ & _ & _ & _ & _ & Hdev).
  unfold device_of, block_id, lookup_obj. rewrite (bind_step get _ s s s eq_refl). cbn [owner pool_id allocator].
  rewrite Ho. cbn [mbind option_bind]. rewrite Hid. unfold lift. by rewrite Hdev.
Qed.

Lemma free_law s r v :
  wf s -> view s r = Some v ->
  meets (free r) s (fun _ s' =>
    wf s' /\ view s' r = None /\ frame (view s) (view s') [r] /\
    get_num_free_blocks GPU s <= get_num_free_blocks GPU s').
Proof.
  intros Hs Hv. pose proof (gpu_view_lookup s r v Hv) as (p & o & -> & _).
  unfold free. cbn [is_null]. eapply meets_step; [by apply device_of_ok|]. unfold free_on.
  eapply meets_bind; [by apply release_ok|].
  intros [] s1 [Hw Hf (p' & o' & [= <-] & Ho & _ & _ & Hid & Hnin) _ Hfree _ _].
  assert (Hnone : view s1 (Block GPU p) = None) by (unfold view, held; rewrite Ho; cbn; by rewrite Hid).
  assert (Hgpu := Hfree GPU).
  eapply meets_weaken; [apply on_meets; by instantiate (1 := fun _ a => a = _)|].
  intros [] s2 (a & -> & ->). destruct (bv_device v); cbn [allocator pool_id].
  - split; [apply wf_set_gpu; [done|eapply pool_free_ok; [apply Hw|done..]|done]|].
    split; [exact Hnone|]. split; [exact Hf|exact Hgpu].
  - split; [|split; [exact Hnone|split; [exact Hf|exact Hgpu]]].
    split; cbn [gpu cpu with_allocator Naive.with_pool Naive.ids block_ids_to_allocator]; [apply Hw..|].
    intros b []; apply (wf_devices s1 Hw).
Qed.

(** *** [fork] *)

Lemma linked_pool s rs : forall prev contents,
  linked (view s) prev rs contents -> exists ps, rs = map (Block GPU) ps.
Proof.
  induction rs as [|r rs IH]; intros prev [|c contents]; cbn; try done; [by exists []|].
  intros [[i Hr] Hl]. apply IH in Hl as [ps ->]. apply view_held in Hr as (p & _ & -> & _).
  by exists (p :: ps).
Qed.

Lemma linked_chain s ps contents :
  linked (view s) None (map (Block GPU) ps) contents ->
  chain Naive.prev_block (BlockPool.objs (Naive.pool (gpu s))) (last ps) ps.
Proof.
  revert contents. induction ps as [|p ps IH] using rev_ind; intros contents Hl; [constructor|].
  destruct contents as [|c contents _] using rev_ind.
  { apply linked_length in Hl. rewrite length_map, length_app in Hl. cbn in Hl. lia. }
  pose proof (linked_length _ _ _ _ Hl) as Hlen. rewrite length_map, !length_app in Hlen. cbn in Hlen.
  rewrite map_app in Hl. apply linked_app in Hl as [Hl [[i Hp] _]]; [|rewrite length_map; lia].
  apply gpu_view_lookup in Hp as (p' & o & [= <-] & Ho & Hprev & _). cbn in Hprev.
  rewrite last_snoc. eapply chain_snoc; [by eapply IH|done|].
  assert (E : last (map (Block GPU) ps) = Block GPU <$> last ps).
  { change (map (Block GPU) ps) with (Block GPU <$> ps). by rewrite fmap_last. }
  rewrite E in Hprev. destruct (last ps), (Naive.prev_block o); cbn in Hprev; congruence.
Qed.

Lemma chain_fuel s ps :
  NoDup ps -> (forall p, p ∈ ps -> is_Some (BlockPool.objs (Naive.pool (gpu s)) !! p)) ->
  (length ps <= S (size (BlockPool.objs (Naive.pool (gpu s)))))%nat.
Proof.
  intros Hnd Hin. rewrite <- (size_list_to_set (C := gset Z)) by done. rewrite <- size_dom.
  apply Nat.le_le_succ_r, subseteq_size. intros p Hp%elem_of_list_to_set. by apply elem_of_dom, Hin.
Qed.

(** One more object for the id of [p]. *)
Lemma share_ok s p prev toks i prevd :
  wf s -> held (gpu s) p = Some (prev, toks, i) -> i ∈ all_ids (gpu s) ->
  exists (y : Z) s', (forall (K : Z -> M t (list block_ref)),
    (o ← obj (Block GPU p);
     match Naive.block_id o with
     | None => raise AssertionError
     | Some b =>
         c ← on GPU (Naive.on_ids (Ids.counting (RefCounter.incr b)));
         if c =? 1 then raise AssertionError
         else y ← on GPU (Naive.init_block prevd (Naive.token_ids o) (Some b)); K y
     end) s = K y s') /\
    wf s' /\ view s (Block GPU y) = None /\
    view s' (Block GPU y) = Some (BlockView (Block GPU <$> prevd) toks i GPU) /\
    frame (view s) (view s') [Block GPU y] /\
    get_num_free_blocks GPU s' = get_num_free_blocks GPU s /\
    all_ids (gpu s') = all_ids (gpu s).
Proof.
  intros Hs Hh Hi. pose proof (wf_gpu s Hs) as Hg.
  pose proof Hh as (o & Ho & _ & Ht & Hid)%held_Some.
  assert (Hd : 0 <= on_cpu s i) by (rewrite (gpu_not_cpu s i Hs Hi); lia).
  destruct (refs_held bs (on_cpu s) (gpu s) p prev toks i Hg Hh Hi Hd) as [Hpos _].
  destruct (proj1 (meets_run _ _ _) (incr_progress bs (on_cpu s) (gpu s) i Hg Hi Hpos))
    as (c & a1 & Hinc & H1 & Hc & Hp1 & Hf1 & Hall1).
  destruct (gd_sized _ _ _ Hg p o Ho) as [_ Hlen]. rewrite Ht in Hlen.
  destruct (proj1 (meets_run _ _ _) (init_progress bs Hbs (on_cpu s) prevd toks i a1 H1 Hlen))
    as (q & a2 & Hinit & H2 & Hn & Hh2 & Hfr & Hid2).
  assert (E : forall x, held a1 x = held (gpu s) x) by (intros x; unfold held; by rewrite Hp1).
  assert (Hall2 : all_ids a2 = all_ids (gpu s)) by congruence.
  exists q, (with_allocator GPU s a2). split.
  { intros K. rewrite (bind_step (obj _) _ s o s); [|unfold obj, on, Naive.obj; cbn; rewrite Ho; by destruct s].
    rewrite Hid. rewrite (bind_step (on GPU _) _ s c (with_allocator GPU s a1)); [|unfold on; cbn [allocator]; by rewrite Hinc].
    rewrite (proj2 (Z.eqb_neq c 1)) by done. rewrite Ht.
    rewrite (bind_step (on GPU _) _ _ q (with_allocator GPU s a2)); [done|].
    unfold on. cbn [allocator gpu with_allocator]. by rewrite Hinit. }
  assert (Hw : wf (with_allocator GPU s a2)) by by apply wf_set_gpu.
  split; [done|]. split; [unfold view; rewrite <- E; by rewrite Hn|].
  split; [exact (held_view (with_allocator GPU s a2) q _ _ _ Hw Hh2 ltac:(cbn; by rewrite Hall2))|].
  split; [|split; [|done]].
  - intros x Hx. rewrite list_elem_of_singleton in Hx. apply view_set_gpu. intros y ->.
    rewrite <- E. apply Hfr. congruence.
  - rewrite !free_gpu. cbn [gpu with_allocator]. unfold Naive.get_num_free_blocks in *. by rewrite Hid2.
Qed.

Lemma fork_loop_ok ps : forall prev contents prevd s,
  wf s -> linked (view s) prev (map (Block GPU) ps) contents ->
  meets (fork_loop GPU prevd (map (Block GPU) ps)) s (fun qs s' =>
    wf s' /\ NoDup qs /\ (forall q, q ∈ qs -> view s q = None) /\ frame (view s) (view s') qs /\
    get_num_free_blocks GPU s' = get_num_free_blocks GPU s /\
    linked (view s') (Block GPU <$> prevd) qs contents).
Proof.
  induction ps as [|p ps IH]; intros prev [|toks contents] prevd s Hs; cbn [map linked]; try done.
  { intros _. apply meets_ret. split; [done|]. split; [constructor|].
    split; [by intros q ?%elem_of_nil|]. by split. }
  intros [[i Hp] Hl]. pose proof Hp as (p' & prev' & [= <-] & _ & Hh & Hdev)%view_held.
  apply (wf_devices s Hs) in Hdev.
  destruct (share_ok s p prev' toks i prevd Hs Hh Hdev) as (y & s1 & Hrun & Hw1 & Hn & Hy & Hf1 & Hc1 & _).
  cbn [fork_loop]. unfold meets. rewrite Hrun.
  match goal with |- match ?m with _ => _ end =>
    change (meets (qs ← fork_loop GPU (Some y) (map (Block GPU) ps); mret (Block GPU y :: qs)) s1
      (fun qs s' => wf s' /\ NoDup qs /\ (forall q, q ∈ qs -> view s q = None) /\
         frame (view s) (view s') qs /\ get_num_free_blocks GPU s' = get_num_free_blocks GPU s /\
         linked (view s') (Block GPU <$> prevd) qs (toks :: contents))) end.
  eapply meets_bind; [apply (IH (Some (Block GPU p)) contents (Some y) s1 Hw1)|].
  { eapply linked_frame; [exact Hf1| |exact Hl]. intros q Hq ->%list_elem_of_singleton.
    destruct (linked_some _ _ _ _ _ Hl Hq) as (? & ? & ? & ?). congruence. }
  intros qs s2 (Hw2 & Hnd & Hnew & Hf2 & Hc2 & Hl2). apply meets_ret.
  assert (Hin : Block GPU y ∉ qs) by (intros Hin; rewrite (Hnew _ Hin) in Hy; done).
  split; [done|]. split; [by apply NoDup_cons|]. split.
  { intros q [->|Hq]%elem_of_cons; [done|]. rewrite <- Hf1; [by apply Hnew|].
    intros ->%list_elem_of_singleton. done. }
  split; [by apply (frame_trans (view s) (view s1) (view s2) [Block GPU y] qs)|].
  split; [congruence|]. cbn [linked]. split; [|done]. exists i. by rewrite Hf2.
Qed.

Lemma fork_law s rs r contents :
  wf s -> NoDup rs -> linked (view s) None rs contents -> last rs = Some r ->
  meets (fork r) s (fun qs s' =>
    wf s' /\ NoDup qs /\ (forall q, q ∈ qs -> view s q = None) /\ frame (view s) (view s') qs /\
    get_num_free_blocks GPU s' = get_num_free_blocks GPU s /\
    linked (view s') None qs contents).
Proof.
  intros Hs Hnd Hl Hlast. destruct (linked_pool s rs _ _ Hl) as [ps ->].
  change (map (Block GPU) ps) with (Block GPU <$> ps) in Hlast. rewrite fmap_last in Hlast.
  destruct (last ps) as [p|] eqn:Hp; [|done]. injection Hlast as <-.
  assert (Hin : Block GPU p ∈ map (Block GPU) ps) by (apply list_elem_of_fmap_2; by apply last_Some_elem_of).
  destruct (linked_some _ _ _ _ _ Hl Hin) as (? & ? & ? & Hv).
  assert (Hsrc : Naive.source_blocks p (gpu s) = Ok ps).
  { unfold Naive.source_blocks. apply chain_recursively.
    - rewrite <- Hp. by eapply linked_chain.
    - apply chain_fuel; [by eapply NoDup_fmap_1|]. intros y Hy.
      destruct (linked_some _ _ _ _ (Block GPU y) Hl) as (? & ? & ? & Hvy); [by apply list_elem_of_fmap_2|].
      apply gpu_view_lookup in Hvy as (y' & o & [= <-] & Ho & _). by eexists. }
  unfold fork. apply meets_assert; [done|]. eapply meets_step; [by apply device_of_ok|].
  unfold fork_on. apply meets_get. cbn [owner pool_id allocator].
  eapply meets_lift; [exact Hsrc|]. by apply (fork_loop_ok ps None contents None s).
Qed.

#[export] Instance cpu_gpu_laws : DeviceAwareLaws CpuGpu.t block_ref bs wf view.
Proof.
  split.
  - exact Hbs.
  - intros s _. rewrite free_gpu. unfold Naive.get_num_free_blocks, Ids.get_num_free_blocks. lia.
  - intros s r b _ (p & o & -> & Ho & _ & _ & Hid & _)%gpu_view_lookup.
    cbn. unfold block_id, lookup_obj. cbn. by rewrite Ho.
  - intros s r b _ (p & o & -> & Ho & _ & Ht & _)%gpu_view_lookup.
    cbn. unfold token_ids, lookup_obj. cbn. by rewrite Ho.
  - intros s Hs. apply meets_run. do 2 eexists. split; [reflexivity|]. cbn [allocator].
    destruct (wf_gpu s Hs) as [Hb Hsz Hob].
    split; [apply wf_set_gpu; [done| |done]; split; [by apply Naive.balanced_cow|done|done]|].
    split; [|done]. intros q _. by apply view_set_gpu.
  - exact mutable_law.
  - exact immutable_law.
  - exact append_law.
  - exact free_law.
  - exact fork_law.
Qed.

(** *** A new allocator *)

Lemma init_good n l a :
  0 < n -> NoDup l -> Naive.init n bs (Some l) = Ok a ->
  good bs (fun _ => 0) a /\ (forall p, held a p = None).
Proof.
  intros Hn Hnd Hinit.
  pose proof (Naive.init_naive_ok n bs (Some l) a Hn Hbs Hnd Hinit) as Hok%Naive.naive_balanced.
  unfold Naive.init in Hinit. apply result_bind_ok in Hinit as (i & _ & Hinit).
  apply result_bind_ok in Hinit as (pl & Hpl & [= <-]). unfold BlockPool.init in Hpl.
  destruct (0 <=? n * 4); [|done]. injection Hpl as <-.
  assert (Hblank : forall p o, BlockPool.add_objs (Naive.blank bs) 0 (n * 4) ∅ !! p = Some o -> o = Naive.blank bs).
  { intros p o. rewrite BlockPool.lookup_add_objs. case_decide; [by intros [= <-]|by rewrite lookup_empty]. }
  split; [split; [done|done|]|].
  - cbn. intros p o ->%Hblank. cbn. split; [done|lia].
  - intros p. unfold held. cbn. destruct (_ !! p) as [o|] eqn:Ho; [|done]. by rewrite (Hblank p o Ho).
Qed.

Lemma ids_init n l i :
  NoDup l -> Ids.init n (Some l) = Ok i ->
  Ids.ids_ok i /\ Ids.all_block_indices i = list_to_set l /\ (forall b, Ids.refcount i b = 0) /\
  Ids.get_num_free_blocks i = Z.of_nat (length l).
Proof.
  intros Hnd Hi. split; [by eapply (Ids.init_ids_ok n (Some l))|]. unfold Ids.init in Hi. cbn [default] in Hi.
  destruct (_ =? n); [|done]. injection Hi as <-. split; [done|]. split; [|done].
  intros b. unfold Ids.refcount. cbn. rewrite RefCounter.lookup_init. by case_decide.
Qed.

Lemma naive_init_ids n l a :
  NoDup l -> Naive.init n bs (Some l) = Ok a ->
  Ids.ids_ok (Naive.ids a) /\ all_ids a = list_to_set l /\ (forall b, refs a b = 0) /\
  Naive.get_num_free_blocks a = Z.of_nat (length l).
Proof.
  unfold Naive.init. intros Hnd Hinit. apply result_bind_ok in Hinit as (i & Hi & Hinit).
  apply result_bind_ok in Hinit as (pl & _ & [= <-]). by apply (ids_init n l i).
Qed.

(** [_block_ids_to_allocator] *)
Lemma devices_init (g c : gset Z) (b : Z) (d : Device) :
  c ∩ g = ∅ ->
  (set_to_map (fun b => (b, GPU)) g ∪ set_to_map (fun b => (b, CPU)) c : gmap Z Device) !! b = Some d
  <-> b ∈ match d with GPU => g | CPU => c end.
Proof.
  intros Hdisj.
  assert (Hset : forall (x : Device) (X : gset Z) y, (set_to_map (fun b => (b, x)) X : gmap Z Device) !! b = Some y
                 <-> b ∈ X /\ x = y).
  { intros x X y. rewrite lookup_set_to_map by done.
    split; [by intros (? & ? & [= -> ->])|by intros [? ->]; exists b]. }
  rewrite lookup_union_Some_raw, !Hset.
  assert (Hnone : (set_to_map (fun b => (b, GPU)) g : gmap Z Device) !! b = None <-> b ∉ g).
  { rewrite eq_None_not_Some. split; intros H H'; apply H; [exists GPU; by apply Hset|].
    destruct H' as [y Hy]. by apply Hset in Hy as [? _]. }
  rewrite Hnone. assert (b ∈ c -> b ∉ g) by (intros H1 H2; apply (not_elem_of_empty (C := gset Z) b);
    rewrite <- Hdisj; by apply elem_of_intersection).
  destruct d; split.
  - by intros [[? _]|(_ & _ & [=])].
  - by left.
  - by intros [[_ [=]]|(_ & ? & _)].
  - intros Hb. right. by split; [apply H|].
Qed.

Lemma create_ok num_gpu num_cpu s :
  0 < num_gpu -> 0 <= num_cpu -> create false num_gpu num_cpu bs = Ok s ->
  wf s /\ (forall r, view s r = None) /\
  get_num_free_blocks GPU s = num_gpu /\ get_num_free_blocks CPU s = num_cpu.
Proof.
  intros Hg Hc. unfold create. cbv zeta. rewrite !Z.sub_0_r.
  set (l := seqZ 0 (num_gpu + num_cpu)). pose proof (NoDup_seqZ 0 (num_gpu + num_cpu)) as Hnd. fold l in Hnd.
  assert (Hlen : length l = Z.to_nat (num_gpu + num_cpu)) by apply length_seqZ.
  intros (g & Hgi & H)%result_bind_ok. apply result_bind_ok in H as (c & Hci & H).
  rewrite <- (take_drop (Z.to_nat num_gpu) l) in Hnd. apply NoDup_app in Hnd as (Hnd1 & Hdisj & Hnd2).
  destruct (init_good num_gpu _ g Hg Hnd1 Hgi) as [Hgood Hheld].
  destruct (naive_init_ids _ _ g Hnd1 Hgi) as (_ & Hgall & _ & Hgfree).
  destruct (naive_init_ids _ _ c Hnd2 Hci) as (Hcok & Hcall & Hcrefs & Hcfree).
  unfold init in H. destruct (decide _) as [Hempty|]; [|done]. injection H as <-.
  split; [split; cbn [gpu cpu block_ids_to_allocator allocator]|split; [|split]].
  - eapply good_ext; [|exact Hgood]. intros b. cbn. by rewrite Hcrefs.
  - done.
  - rewrite Hgall, Hcall. intros b Hb%elem_of_list_to_set Hb'%elem_of_list_to_set. by eapply Hdisj.
  - intros b d. rewrite (devices_init _ _ b d Hempty). by destruct d.
  - intros [[] p|]; try done. unfold view. cbn [gpu]. by rewrite Hheld.
  - unfold get_num_free_blocks. cbn [allocator gpu]. rewrite Hgfree, length_take. lia.
  - unfold get_num_free_blocks. cbn [allocator cpu]. rewrite Hcfree, length_drop. lia.
Qed.
End Correct.
