(* ===== verification/CpuGpuSwap.v ===== *)
(** * Swapping blocks between the devices

    [CpuGpu.swap] moves blocks: their objects get ids of the other device and keep
    their place and their tokens.  [cpu_spare] says that the CPU allocator's own
    objects hold no id, as in a new allocator; [vacant] (of [CpuGpuCorrect]) is a
    block between [swap_out] and [swap_in]. *)
From S2P Require Import Prelude.
From S2P Require Import PyDict.
From S2P Require Import BlockCommon.
From S2P Require Import NaiveBlock.
From S2P Require Import NaiveProgress.
From S2P Require Import BlockInterfaces.
From S2P Require Import CpuGpuAllocator.
From S2P Require Import CpuGpuCorrect.

(** ** An id through an object that is used for a moment *)

Section Borrow.
Import Naive.
Variable bs : Z.
Hypothesis Hbs : 0 < bs.
Implicit Types (d : Z -> Z) (a : Naive.t) (p q i : Z).
Abbreviation all_ids a := (Ids.all_block_indices (ids a)).
Abbreviation refs a := (Ids.refcount (ids a)).
Abbreviation objs a := (BlockPool.objs (pool a)).
Abbreviation good := (good bs).

(** The objects in use stay as they are. *)
Definition keeps a a' : Prop := forall q, live a q -> live a' q /\ objs a' !! q = objs a !! q.

Lemma keeps_trans a a1 a2 : keeps a a1 -> keeps a1 a2 -> keeps a a2.
Proof. intros H1 H2 q Hq. destruct (H1 q Hq) as [Hq1 <-]. by apply H2. Qed.

Lemma mutable_keeps d prev a p a' :
  good d a -> allocate_mutable_block prev a = (Ok p, a') ->
  live a' p /\ ~ live a p /\ keeps a a'.
Proof.
  intros [Ha Hsz _] (b & a1 & H1 & H2)%bind_ok.
  destruct (allocate_balanced d a b a1 Ha H1) as (Hb1 & Hp1 & _).
  destruct (init_balanced d prev [] b a1 p a' Hb1) as (_ & Hl & Hn & _ & _ & _ & _ & Hk); [|done|].
  { pose proof (pi_bsize _ (ba_pool _ _ Hb1)). cbn. lia. }
  assert (E : forall q, live a1 q <-> live a q) by (intros q; unfold live; by rewrite Hp1).
  split; [done|]. split; [by rewrite <- E|]. intros q Hq%E. destruct (Hk q Hq) as [? ->]. by rewrite Hp1.
Qed.

Lemma append_keeps d p toks a a' :
  balanced d a -> append_token_ids p toks a = (Ok tt, a') -> live a p ->
  live a' p /\ forall q, q <> p -> live a q -> live a' q /\ objs a' !! q = objs a !! q.
Proof.
  intros Ha Hrun [_ Hp]. destruct (append_ok d p toks a a' Ha Hrun) as (_ & _ & o & Ho & _ & H).
  assert (HH : BlockPool.free_ids (pool a') = BlockPool.free_ids (pool a) /\ is_Some (objs a' !! p) /\
    forall q, q <> p -> objs a' !! q = objs a !! q).
  { destruct (block_id o) as [src|].
    - destruct H as [b [Hobj Hoth Hfree _ _]]. split; [done|]. split; [by eexists|done].
    - subst a'. cbn. split; [done|]. split; [rewrite lookup_insert_eq; by eexists|].
      intros q Hq. by rewrite lookup_insert_ne. }
  destruct HH as (Hf & Hs & Hoth). split; [by split; [|rewrite Hf]|].
  intros q Hq [Hl Hn]. unfold live. rewrite Hf, Hoth by done. done.
Qed.

Definition temp_block (prev : option Z) (toks : list Z) : M t Z :=
  tmp ← allocate_mutable_block prev; append_token_ids tmp toks ;; mret tmp.

Lemma temp_ok d prev toks a :
  good d a -> (forall b, b ∈ all_ids a -> 0 <= d b) -> 0 < get_num_free_blocks a ->
  Z.of_nat (length toks) <= bs ->
  meets (temp_block prev toks) a (fun p a' =>
    good d a' /\ (exists i, held a' p = Some (prev, toks, i) /\ i ∈ all_ids a) /\
    held a p = None /\ (forall q, q <> p -> held a' q = held a q) /\
    get_num_free_blocks a' = get_num_free_blocks a - 1 /\ all_ids a' = all_ids a /\
    live a' p /\ ~ live a p /\ keeps a a').
Proof.
  intros Ha Hd Hfree Hlen. unfold temp_block.
  pose proof (mutable_ok bs Hbs d prev a Ha Hfree) as Hm.
  apply meets_run in Hm as (p & a1 & Hrun & H1 & Hn & (i & Hh & Hr & Hi) & Hf & Hc & Hall).
  destruct (mutable_keeps d prev a p a1 Ha Hrun) as (Hl1 & Hnl & Hk1).
  eapply meets_step; [exact Hrun|].
  pose proof (ba_counts _ _ (gd_balanced _ _ _ Ha) i) as Hcount.
  pose proof (ba_counts _ _ (gd_balanced _ _ _ H1) i) as Hcount1.
  pose proof (owners_nonneg (id_of := block_id) (objs a) i) as H0. fold (owners_of a i) in H0.
  pose proof (Hd i Hi) as Hdi.
  assert (Hone : owners_of a1 i <= 1).
  { apply (owners_single a1 p). intros q prev' toks' Hq. destruct (decide (q = p)) as [|Hne]; [done|].
    rewrite Hf in Hq by done. pose proof (held_owned _ _ _ _ _ Hq). lia. }
  pose proof (append_progress bs d a1 p prev [] i toks H1 Hh) as Happ.
  rewrite Hall in Happ. specialize (Happ Hi Hdi Hlen ltac:(left; lia)).
  apply meets_run in Happ as ([] & a2 & Hrun2 & H2 & Hf2 & Hall2 & Hc2 & j & Hh2 & Hj & _).
  destruct (append_keeps d p toks a1 a2 (gd_balanced _ _ _ H1) Hrun2 Hl1) as [Hl2 Hk2].
  eapply meets_step; [exact Hrun2|]. apply meets_ret.
  unfold shared_cost in Hc2. rewrite (proj2 (Z.leb_le _ _)) in Hc2 by lia.
  split; [done|]. split; [by exists j|]. split; [done|].
  split; [intros q Hq; by rewrite Hf2, Hf|]. split; [lia|]. split; [congruence|].
  split; [done|]. split; [done|]. intros q Hq. destruct (Hk1 q Hq) as [Hq1 <-].
  apply Hk2; [|done]. by intros ->.
Qed.

(** What [swap_in] does with the temporary object. *)
Definition borrow_id (prev : option Z) (toks : list Z) : M t (option Z) :=
  tmp ← temp_block prev toks;
  o ← obj tmp;
  put tmp (set_block_id o None) ;;
  modify (fun a => with_pool a (BlockPool.free_block tmp (pool a))) ;;
  mret (block_id o).

(** How many objects hold an id shows in what they hold. *)
Lemma owners_held a a' b : (forall q, held a' q = held a q) -> owners_of a' b = owners_of a b.
Proof.
  intros H. unfold owners_of, owners. rewrite <- !size_dom. do 2 f_equal. apply set_eq. intros q.
  assert (E : forall x, q ∈ dom (filter (fun z : Z * block => block_id z.2 = Some b) (objs x)) <->
    exists prev toks, held x q = Some (prev, toks, b)).
  { intros x. rewrite elem_of_dom. split.
    - intros [o [Ho Hb]%map_lookup_filter_Some]. exists (prev_block o), (token_ids o).
      apply held_Some. by exists o.
    - intros (prev & toks & (o & Ho & _ & _ & Hb)%held_Some). exists o. by apply map_lookup_filter_Some. }
  rewrite !E. by setoid_rewrite H.
Qed.

(** The id is taken, and no object has it. *)
Lemma borrow_ok d prev toks a :
  good d a -> (forall b, b ∈ all_ids a -> 0 <= d b) -> 0 < get_num_free_blocks a ->
  Z.of_nat (length toks) <= bs ->
  meets (borrow_id prev toks) a (fun r a' => exists i, r = Some i /\ i ∈ all_ids a /\
    good (fun b => d b + one i b) a' /\ (forall q, held a' q = held a q) /\
    get_num_free_blocks a' = get_num_free_blocks a - 1 /\ all_ids a' = all_ids a /\ keeps a a' /\
    forall b, refs a' b = refs a b + one i b).
Proof.
  intros Ha Hd Hfree Hlen. unfold borrow_id.
  eapply meets_bind; [by apply (temp_ok d)|].
  intros p a1 (H1 & (i & Hh & Hi) & Hn & Hf & Hc & Hall & [Hl Hspare] & Hnl & Hk).
  apply held_Some in Hh as (o & Ho & Hprev & Ht & Hid).
  eapply meets_step; [unfold obj; by rewrite Ho|]. eapply meets_step; [reflexivity|].
  eapply meets_step; [reflexivity|]. apply meets_ret. exists i. split; [done|]. split; [done|].
  set (a2 := with_pool a1 (BlockPool.set_obj p (set_block_id o None) (pool a1))).
  assert (H2 : good (fun b => d b + one i b) a2).
  { destruct (gd_sized _ _ _ H1 p o Ho) as [Hs1 Hs2].
    split; [|apply H1|apply (sized_set bs d a1 p (set_block_id o None) H1 Hs1 Hs2)].
    eapply balanced_ext; [|apply (put_balanced d p o); [apply H1|done|done]].
    intros b. cbn beta. rewrite (points_some o i b Hid), (points_none (set_block_id o None)) by done.
    unfold one. lia. }
  assert (H3 : good (fun b => d b + one i b) (with_pool a2 (BlockPool.free_block p (pool a2)))).
  { apply (pool_free_ok bs _ a2 p (set_block_id o None)); [done| |done|done].
    cbn. by rewrite lookup_insert_eq. }
  assert (Hheld : forall q, held (with_pool a2 (BlockPool.free_block p (pool a2))) q = held a q).
  { intros q. unfold held at 1. cbn. destruct (decide (p = q)) as [<-|Hne].
    - rewrite lookup_insert_eq, Hn. done.
    - rewrite lookup_insert_ne by done. by apply Hf. }
  split; [done|]. split; [done|]. split; [done|]. split; [done|]. split.
  - intros q Hq. assert (q <> p) by (by intros ->). destruct (Hk q Hq) as [[Hq1 Hq2] Hq3].
    unfold live. cbn. rewrite lookup_insert_ne by done. split; [|done]. split; [done|].
    by rewrite not_elem_of_cons.
  - intros b. rewrite (ba_counts _ _ (gd_balanced _ _ _ H3) b), (ba_counts _ _ (gd_balanced _ _ _ Ha) b).
    rewrite (owners_held a _ b Hheld). lia.
Qed.
End Borrow.

Section Swap.
Import CpuGpu.
Variable bs : Z.
Hypothesis Hbs : 0 < bs.
Implicit Types (s : CpuGpu.t) (r q : block_ref) (a : Naive.t) (d : Device).

Abbreviation all_ids a := (Ids.all_block_indices (Naive.ids a)).
Abbreviation refs a := (Ids.refcount (Naive.ids a)).
Abbreviation on_cpu s := (fun b => - refs (cpu s) b).
Abbreviation wf := (wf bs).

(** No object of the CPU's own pool holds an id. *)
Definition cpu_spare s : Prop := good bs (refs (cpu s)) (cpu s).

Lemma refs_nonneg a b : Ids.ids_ok (Naive.ids a) -> 0 <= refs a b.
Proof.
  intros H. unfold Ids.refcount. destruct (_ !! b) eqn:E; [|done]. by apply (Ids.io_nonneg _ H) in E.
Qed.

Lemma allocator_with d s a : allocator d (with_allocator d s a) = a.
Proof. by destruct d. Qed.
Lemma with_with d s a a' : with_allocator d (with_allocator d s a) a' = with_allocator d s a'.
Proof. by destruct d. Qed.

(** [swap_in] takes an id through a temporary object. *)
Lemma swap_in_block_borrow d r s o :
  lookup_obj r s = Some o ->
  swap_in_block d r s =
    (b ← on d (borrow_id (if decide (owner r = d) then Naive.prev_block o else None) (Naive.token_ids o));
     set_block_id r b) s.
Proof.
  intros Ho. unfold swap_in_block.
  rewrite (bind_step (obj r) _ s o s).
  2: { unfold obj, on, Naive.obj, lookup_obj in *. rewrite Ho. by destruct (owner r), s. }
  cbv zeta. set (prev := if decide _ then _ else _).
  assert (E : (if Naive.is_full o then Naive.allocate_immutable_block prev (Naive.token_ids o)
     else tmp ← Naive.allocate_mutable_block prev; Naive.append_token_ids tmp (Naive.token_ids o) ;; mret tmp)
     = temp_block prev (Naive.token_ids o)) by by destruct (Naive.is_full o).
  rewrite E. unfold borrow_id, mbind, M_bind, on.
  destruct (temp_block prev (Naive.token_ids o) (allocator d s)) as [[p|e] a]; [|done].
  rewrite allocator_with. unfold Naive.obj at 1 2.
  destruct (_ !! p) as [o'|]; cbn -[allocator with_allocator]; [|by rewrite with_with].
  by destruct d.
Qed.

(** A vacant block gets an id. *)
Definition give_id s p (o : Naive.block) (i : Z) : t :=
  with_allocator GPU s
    (Naive.with_pool (gpu s) (BlockPool.set_obj p (Naive.set_block_id o (Some i)) (Naive.pool (gpu s)))).

Lemma give_id_run s p o i :
  BlockPool.objs (Naive.pool (gpu s)) !! p = Some o ->
  set_block_id (Block GPU p) (Some i) s = (Ok tt, give_id s p o i).
Proof.
  intros Ho. unfold set_block_id, obj, on, mbind, M_bind, Naive.obj. cbn. rewrite Ho. cbn. done.
Qed.

Lemma give_id_good s p o i (e : Z -> Z) :
  good bs (fun b => e b + Naive.one i b) (gpu s) -> BlockPool.objs (Naive.pool (gpu s)) !! p = Some o ->
  Naive.block_id o = None -> p ∉ BlockPool.free_ids (Naive.pool (gpu s)) ->
  good bs e (gpu (give_id s p o i)).
Proof.
  intros Hg Ho Hid Hp. destruct (gd_sized _ _ _ Hg p o Ho) as [H1 H2].
  split; [|apply Hg|exact (sized_set bs (fun b => e b + Naive.one i b) (gpu s) p (Naive.set_block_id o (Some i)) Hg H1 H2)].
  eapply Naive.balanced_ext; [|apply (Naive.put_balanced (fun b => e b + Naive.one i b) p o); [apply Hg|done|done]].
  intros b. cbn beta. rewrite (points_none o), (points_some (Naive.set_block_id o (Some i)) i b) by done.
  unfold Naive.one. lia.
Qed.

(** After [s], an id [i] of [d] has been taken that no object has yet. *)
Record borrowed d s s1 (i : Z) : Prop := {
  bo_id : i ∈ all_ids (allocator d s);
  bo_ids : forall x, all_ids (allocator x s1) = all_ids (allocator x s);
  bo_live : forall p : Z, Naive.live (gpu s) p -> Naive.live (gpu s1) p /\
    BlockPool.objs (Naive.pool (gpu s1)) !! p = BlockPool.objs (Naive.pool (gpu s)) !! p;
  bo_held : forall p : Z, held (gpu s1) p = held (gpu s) p;
  bo_gpu : good bs (fun b => on_cpu s1 b + Naive.one i b) (gpu s1);
  bo_cpu : Ids.ids_ok (Naive.ids (cpu s1));
  bo_spare : cpu_spare s1;
  bo_free : get_num_free_blocks d s1 = get_num_free_blocks d s - 1;
  bo_devices : block_ids_to_allocator s1 = block_ids_to_allocator s
}.

Lemma borrow_step d s prev toks :
  wf s -> cpu_spare s -> 0 < get_num_free_blocks d s -> Z.of_nat (length toks) <= bs ->
  meets (on d (borrow_id prev toks)) s (fun x s1 => exists i, x = Some i /\ borrowed d s s1 i).
Proof.
  intros Hs Hc Hfree Hlen.
  set (e := match d with GPU => on_cpu s | CPU => refs (cpu s) end).
  assert (Hg : good bs e (allocator d s)) by (destruct d; [apply Hs|exact Hc]).
  assert (He : forall b, b ∈ all_ids (allocator d s) -> 0 <= e b).
  { intros b Hb. destruct d; [change (0 <= - refs (cpu s) b); rewrite (gpu_not_cpu bs s b Hs Hb); lia|].
    apply refs_nonneg, (wf_cpu _ _ Hs). }
  eapply meets_weaken; [apply on_meets, (borrow_ok bs Hbs e); [exact Hg|exact He|exact Hfree|exact Hlen]|].
  intros x s1 (a & (i & -> & Hi & Ha & Hheld & Hc1 & Hall & Hk & Hrefs) & ->). exists i. split; [done|].
  split; try by destruct d.
  - by intros []; destruct d.
  - destruct d; [exact Ha|]. eapply good_ext; [|apply (wf_gpu _ _ Hs)].
    intros b. cbn. rewrite Hrefs. cbn. lia.
  - destruct d; [apply (wf_cpu _ _ Hs)|apply Ha].
  - destruct d; [exact Hc|]. eapply good_ext; [|exact Ha]. intros b. cbn. by rewrite Hrefs.
Qed.

(** A vacant block takes the id. *)
Lemma give_id_wf d s s1 i p o :
  wf s -> borrowed d s s1 i -> BlockPool.objs (Naive.pool (gpu s1)) !! p = Some o ->
  Naive.block_id o = None -> p ∉ BlockPool.free_ids (Naive.pool (gpu s1)) -> wf (give_id s1 p o i).
Proof.
  intros Hs Hb Ho Hid Hp.
  assert (Hall : forall x, all_ids (allocator x (give_id s1 p o i)) = all_ids (allocator x s)).
  { intros x. rewrite <- (bo_ids _ _ _ _ Hb x). by destruct x. }
  split.
  - exact (give_id_good s1 p o i (on_cpu s1) (bo_gpu _ _ _ _ Hb) Ho Hid Hp).
  - exact (bo_cpu _ _ _ _ Hb).
  - intros b. change (b ∈ all_ids (allocator GPU (give_id s1 p o i)) ->
      b ∉ all_ids (allocator CPU (give_id s1 p o i))). rewrite !Hall. apply Hs.
  - intros b x. rewrite Hall, <- (wf_devices _ _ Hs), <- (bo_devices _ _ _ _ Hb). done.
Qed.

Lemma swap_in_block_ok d r s prev toks :
  wf s -> cpu_spare s -> vacant s r prev toks -> 0 < get_num_free_blocks d s ->
  meets (swap_in_block d r) s (fun _ s' =>
    wf s' /\ cpu_spare s' /\ frame (view s) (view s') [r] /\
    (exists i, view s' r = Some (BlockView prev toks i d)) /\
    (forall q prev' toks', q <> r -> vacant s q prev' toks' -> vacant s' q prev' toks') /\
    get_num_free_blocks d s' = get_num_free_blocks d s - 1 /\
    forall x, all_ids (allocator x s') = all_ids (allocator x s)).
Proof.
  intros Hs Hc (p & o & -> & Ho & Hprev & Ht & Hid & Hspare) Hfree.
  destruct (gd_sized _ _ _ (wf_gpu _ _ Hs) p o Ho) as [_ Hlen].
  pose proof (borrow_step d s (if decide (GPU = d) then Naive.prev_block o else None)
    (Naive.token_ids o) Hs Hc Hfree Hlen) as Hborrow.
  apply meets_run in Hborrow as (x & s1 & Hrun & i & -> & Hb).
  destruct (bo_live _ _ _ _ Hb p) as [[_ Hsp1] Ho1]; [split; [by eexists|done]|]. rewrite Ho in Ho1.
  apply meets_run. exists tt, (give_id s1 p o i). split.
  { rewrite (swap_in_block_borrow d (Block GPU p) s o Ho). cbn [owner].
    rewrite (bind_step _ _ s _ s1 Hrun). by apply give_id_run. }
  pose proof (give_id_wf d s s1 i p o Hs Hb Ho1 Hid Hsp1) as Hw.
  assert (Hoth : forall q : Z, q <> p -> BlockPool.objs (Naive.pool (gpu (give_id s1 p o i))) !! q
    = BlockPool.objs (Naive.pool (gpu s1)) !! q) by (intros q Hq; cbn; by rewrite lookup_insert_ne).
  split; [done|]. split; [exact (bo_spare _ _ _ _ Hb)|]. split; [|split; [|split; [|split]]].
  - intros q Hq. rewrite list_elem_of_singleton in Hq. destruct q as [[] q|]; try done.
    assert (q <> p) by congruence. unfold view.
    assert (held (gpu (give_id s1 p o i)) q = held (gpu s) q) as ->.
    { rewrite <- (bo_held _ _ _ _ Hb). unfold held. by rewrite Hoth. }
    cbn [give_id with_allocator block_ids_to_allocator]. by rewrite (bo_devices _ _ _ _ Hb).
  - exists i. unfold view, held. cbn. rewrite lookup_insert_eq. cbn.
    rewrite (bo_devices _ _ _ _ Hb), (proj2 (wf_devices _ _ Hs i d) (bo_id _ _ _ _ Hb)). cbn.
    by rewrite Hprev, Ht.
  - intros q prev' toks' Hq (p' & o' & -> & Ho' & H1 & H2 & H3 & H4). exists p', o'.
    assert (p' <> p) by congruence.
    destruct (bo_live _ _ _ _ Hb p') as [[_ Hsp'] Hp']; [split; [by eexists|done]|].
    rewrite Hoth, Hp' by done. done.
  - rewrite <- (bo_free _ _ _ _ Hb). by destruct d.
  - intros x. rewrite <- (bo_ids _ _ _ _ Hb x). by destruct x.
Qed.

(** *** All blocks of a list *)

Lemma released_spare s s' r v : released bs s s' r v -> cpu_spare s -> cpu_spare s'.
Proof.
  intros [Hw _ _ _ _ [Hp Hb] _] [[_ Hpool Hc] Hsz Hob].
  split; [split; [apply Hw| |]|by rewrite Hb|by rewrite Hp].
  - destruct Hpool. split; by rewrite ?Hp, ?Hb.
  - intros b. assert (H0 : Naive.owners_of (cpu s') b = 0); [|lia].
    specialize (Hc b). unfold Naive.owners_of in *. rewrite Hp. lia.
Qed.

(** The blocks of [l] lost their ids. *)
Record emptied s s' (l : list block_ref) : Prop := {
  em_wf : wf s';
  em_spare : cpu_spare s';
  em_frame : frame (view s) (view s') l;
  em_vacant : forall r v, r ∈ l -> view s r = Some v -> vacant s' r (bv_prev v) (bv_tokens v);
  em_others : forall q prev toks, vacant s q prev toks -> vacant s' q prev toks;
  em_free : forall d, get_num_free_blocks d s <= get_num_free_blocks d s';
  em_ids : forall d, all_ids (allocator d s') = all_ids (allocator d s)
}.

Definition on_device d s (l : list block_ref) : Prop :=
  forall r, r ∈ l -> exists v, view s r = Some v /\ bv_device v = d.

Lemma swap_out_empties d l : forall s,
  wf s -> cpu_spare s -> NoDup l -> on_device d s l ->
  meets (swap_out d l) s (fun _ s' => emptied s s' l).
Proof.
  unfold swap_out. induction l as [|r l IH]; intros s Hs Hc Hnd Hl; cbn [for_each].
  { apply meets_ret. split; try done. by intros r v ?%elem_of_nil. }
  apply NoDup_cons in Hnd as [Hr Hnd]. destruct (Hl r ltac:(left)) as (v & Hv & <-).
  eapply meets_bind; [by apply (release_ok bs s r v)|]. intros [] s1 H1.
  pose proof (rl_frame _ _ _ _ _ H1) as Hf1.
  assert (E : forall q, q ∈ l -> view s1 q = view s q).
  { intros q Hq. apply Hf1. intros ->%list_elem_of_singleton. done. }
  eapply meets_weaken; [apply IH; [apply H1|by eapply released_spare|done|]|].
  { intros q Hq. rewrite E by done. apply Hl. by right. }
  intros [] s2 [Hw Hsp Hf Hva Hoth Hfree Hids]. split; [done|done| | | | |].
  - by apply (frame_trans (view s) (view s1) (view s2) [r] l).
  - intros q w [->|Hq]%elem_of_cons Hw'; [|by apply Hva; [|rewrite E]].
    assert (w = v) as -> by congruence. apply Hoth, H1.
  - intros q prev toks Hq. by apply Hoth, (rl_others _ _ _ _ _ H1).
  - intros d. etrans; [apply (rl_free _ _ _ _ _ H1)|apply Hfree].
  - intros d. rewrite Hids. apply (rl_ids _ _ _ _ _ H1).
Qed.

(** The vacant blocks of [l] got ids of [d]. *)
Record filled d s s' (l : list block_ref) : Prop := {
  fi_wf : wf s';
  fi_spare : cpu_spare s';
  fi_frame : frame (view s) (view s') l;
  fi_view : forall r prev toks, r ∈ l -> vacant s r prev toks ->
    exists i, view s' r = Some (BlockView prev toks i d);
  fi_free : get_num_free_blocks d s' = get_num_free_blocks d s - Z.of_nat (length l);
  fi_ids : forall x, all_ids (allocator x s') = all_ids (allocator x s)
}.

Lemma swap_in_ok d l : forall s,
  wf s -> cpu_spare s -> NoDup l -> (forall r, r ∈ l -> exists prev toks, vacant s r prev toks) ->
  Z.of_nat (length l) <= get_num_free_blocks d s ->
  meets (swap_in d l) s (fun _ s' => filled d s s' l).
Proof.
  unfold swap_in. induction l as [|r l IH]; intros s Hs Hc Hnd Hl Hfree; cbn [for_each].
  { apply meets_ret. split; try done; [by intros r ? ? ?%elem_of_nil|]. cbn. lia. }
  apply NoDup_cons in Hnd as [Hr Hnd]. destruct (Hl r ltac:(left)) as (prev & toks & Hv).
  cbn [length] in Hfree.
  eapply meets_bind; [apply (swap_in_block_ok d r s prev toks); [done|done|done|lia]|].
  intros [] s1 (Hw1 & Hc1 & Hf1 & (i & Hi) & Hoth & Hfree1 & Hids1).
  eapply meets_weaken; [apply IH; [done|done|done| |lia]|].
  { intros q Hq. destruct (Hl q ltac:(by right)) as (prev' & toks' & Hq').
    exists prev', toks'. apply Hoth; [|done]. by intros ->. }
  intros [] s2 [Hw Hsp Hf Hva Hfree2 Hids]. split; [done|done| | | |].
  - by apply (frame_trans (view s) (view s1) (view s2) [r] l).
  - intros q prev' toks' [->|Hq]%elem_of_cons Hq'.
    + exists i. rewrite Hf by done. rewrite Hi.
      destruct Hq' as (p & o & -> & Ho & <- & <- & _), Hv as (p' & o' & [= <-] & Ho' & <- & <- & _).
      by assert (o' = o) as -> by congruence.
    + eapply Hva; [done|]. apply Hoth; [|done]. by intros ->.
  - cbn [length]. lia.
  - intros x. by rewrite Hids.
Qed.

(** *** The ids in use on a device are those that blocks hold *)

Definition used d s : gset Z := filter (fun i => 0 < refs (allocator d s) i) (all_ids (allocator d s)).

Lemma wf_ids d s : wf s -> Ids.ids_ok (Naive.ids (allocator d s)).
Proof. intros Hs. destruct d; [apply (wf_gpu _ _ Hs)|apply (wf_cpu _ _ Hs)]. Qed.

Lemma free_used d s :
  wf s -> get_num_free_blocks d s + Z.of_nat (size (used d s)) = Z.of_nat (size (all_ids (allocator d s))).
Proof.
  intros Hs. pose proof (wf_ids d s Hs) as Hi.
  unfold get_num_free_blocks, Naive.get_num_free_blocks, Ids.get_num_free_blocks.
  assert (Hmem : forall b, b ∈ Ids.free_block_indices (Naive.ids (allocator d s)) <->
    b ∈ all_ids (allocator d s) /\ refs (allocator d s) b = 0).
  { intros b. unfold Ids.refcount. split.
    - intros Hb%(Ids.io_free _ Hi). rewrite Hb. split; [|done]. apply (Ids.io_dom _ Hi). by eexists.
    - intros [[c Hb]%(Ids.io_dom _ Hi) H0]. rewrite Hb in H0. cbn in H0. subst c. by apply (Ids.io_used _ Hi). }
  assert (Hall : all_ids (allocator d s)
    = list_to_set (Ids.free_block_indices (Naive.ids (allocator d s))) ∪ used d s).
  { apply set_eq. intros b. unfold used. rewrite elem_of_union, elem_of_list_to_set, elem_of_filter, Hmem.
    pose proof (refs_nonneg (allocator d s) b Hi).
    destruct (decide (refs (allocator d s) b = 0)); [split; [tauto|]; intros [[? _]|[_ ?]]; done|].
    split; [intros Hb; right; split; [lia|done]|]. intros [[_ ?]|[_ ?]]; done. }
  rewrite Hall, size_union, size_list_to_set; [lia|apply (Ids.io_nodup _ Hi)|].
  intros b. unfold used. rewrite elem_of_list_to_set, elem_of_filter, Hmem. lia.
Qed.

Lemma elem_of_used d s i :
  wf s -> i ∈ used d s <-> exists r v, view s r = Some v /\ bv_id v = i /\ bv_device v = d.
Proof.
  intros Hs. unfold used. rewrite elem_of_filter.
  assert (Hc : i ∈ all_ids (allocator d s) -> refs (allocator d s) i = Naive.owners_of (gpu s) i).
  { intros Hi. destruct d; [by apply (gpu_count bs)|by apply (cpu_count bs)]. }
  split.
  - intros [Hpos Hi]. rewrite (Hc Hi) in Hpos. unfold Naive.owners_of, owners in Hpos.
    set (f := filter _ _) in Hpos. destruct (map_choose f) as (p & o & Hp).
    { intros E. rewrite E, map_size_empty in Hpos. cbn in Hpos. lia. }
    unfold f in Hp. apply map_lookup_filter_Some in Hp as [Ho Hid]. cbn in Hid.
    exists (Block GPU p), (BlockView (Block GPU <$> Naive.prev_block o) (Naive.token_ids o) i d).
    split; [|done].
    unfold view, held. rewrite Ho. cbn. rewrite Hid. cbn. by rewrite (proj2 (wf_devices _ _ Hs i d) Hi).
  - intros (r & v & Hv & <- & <-). pose proof (gpu_view_lookup s r v Hv) as (p & o & -> & Ho & _ & _ & Hid & _).
    apply view_held in Hv as (_ & _ & _ & _ & _ & Hdev). apply (wf_devices _ _ Hs) in Hdev.
    split; [|done]. rewrite (Hc Hdev). pose proof (owners_pos _ p o _ Ho Hid). unfold Naive.owners_of. lia.
Qed.

(** No more blocks on a device: no fewer free ids. *)
Lemma free_fewer d s s' l :
  wf s -> wf s' -> all_ids (allocator d s') = all_ids (allocator d s) -> frame (view s) (view s') l ->
  (forall r v, r ∈ l -> view s' r = Some v -> bv_device v <> d) ->
  get_num_free_blocks d s <= get_num_free_blocks d s'.
Proof.
  intros Hs Hs' Hids Hf Hn'.
  assert (Hsub : used d s' ⊆ used d s).
  { intros i. rewrite !elem_of_used by done. intros (r & v & Hv & Hi & Hd). exists r, v. split; [|done].
    rewrite <- Hf; [done|]. intros Hr. by eapply Hn'. }
  apply subseteq_size in Hsub. pose proof (free_used d s Hs). pose proof (free_used d s' Hs').
  rewrite Hids in *. lia.
Qed.

Lemma free_same d s s' l :
  wf s -> wf s' -> all_ids (allocator d s') = all_ids (allocator d s) -> frame (view s) (view s') l ->
  (forall r v, r ∈ l -> view s r = Some v -> bv_device v <> d) ->
  (forall r v, r ∈ l -> view s' r = Some v -> bv_device v <> d) ->
  get_num_free_blocks d s' = get_num_free_blocks d s.
Proof.
  intros Hs Hs' Hids Hf Hn Hn'. apply Z.le_antisymm; [|by apply (free_fewer d s s' l)].
  apply (free_fewer d s' s l); [done..| |done]. intros q Hq. by rewrite Hf.
Qed.

(** *** [swap] *)

Lemma record_swap_lookup (f g : block_ref -> option Z) (l : list block_ref) r i j (m : pydict Z Z) :
  r ∈ l -> f r = Some i -> g r = Some j -> (forall q, q ∈ l -> f q = Some i -> q = r) ->
  foldl record_swap m (zip (map f l) (map g l)) !! i = Some j.
Proof.
  intros Hr Hf Hg. induction l as [|q l IH] using rev_ind; intros Hu; [by apply elem_of_nil in Hr|].
  rewrite !map_app, zip_with_app by by rewrite !length_map. rewrite foldl_app. cbn.
  destruct (decide (q = r)) as [->|Hne].
  - rewrite Hf, Hg. cbn. apply dict_lookup_insert_eq.
  - apply elem_of_app in Hr as [Hr| ->%list_elem_of_singleton]; [|done].
    assert (Hi : f q <> Some i).
    { intros E. apply Hne, Hu; [|done]. apply elem_of_app. right. by apply list_elem_of_singleton. }
    assert (IH' := IH Hr ltac:(intros x Hx; apply Hu; apply elem_of_app; by left)).
    destruct (f q) as [k|], (g q) as [k'|]; cbn; try done.
    rewrite dict_lookup_insert_ne; [done|congruence].
Qed.

(** The blocks of [l] are on [d], with their contents; [m] tells their ids. *)
Record moved d s s' (l : list block_ref) (m : pydict Z Z) : Prop := {
  mv_wf : wf s';
  mv_spare : cpu_spare s';
  mv_frame : frame (view s) (view s') l;
  mv_view : forall r v, r ∈ l -> view s r = Some v ->
    exists i, view s' r = Some (BlockView (bv_prev v) (bv_tokens v) i d) /\
      ((forall q w, q ∈ l -> view s q = Some w -> bv_id w = bv_id v -> q = r) ->
       m !! bv_id v = Some i);
  mv_ids : forall x, all_ids (allocator x s') = all_ids (allocator x s)
}.

Lemma view_block_id s r v : view s r = Some v -> block_id r s = Some (bv_id v).
Proof.
  intros (p & o & -> & Ho & _ & _ & Hid & _)%gpu_view_lookup.
  unfold block_id, lookup_obj. cbn. by rewrite Ho.
Qed.

Lemma swap_ok src dst l s :
  wf s -> cpu_spare s -> NoDup l -> on_device src s l ->
  Z.of_nat (length l) <= get_num_free_blocks dst s ->
  meets (swap l src dst) s (fun m s' => moved dst s s' l m).
Proof.
  intros Hs Hc Hnd Hl Hfree. unfold swap. eapply meets_step; [reflexivity|].
  eapply meets_bind; [by apply swap_out_empties|]. intros [] s1 H1.
  eapply meets_bind; [apply (swap_in_ok dst l s1); [apply H1|apply H1|done| |]|].
  { intros r Hr. destruct (Hl r Hr) as (v & Hv & _). do 2 eexists. by apply (em_vacant _ _ _ H1 r v). }
  { pose proof (em_free _ _ _ H1 dst). lia. }
  intros [] s2 H2. eapply meets_step; [reflexivity|]. eapply meets_step; [reflexivity|]. apply meets_ret.
  destruct H2 as [Hw Hsp Hf Hv _ Hids]. split.
  - destruct Hw. by split.
  - exact Hsp.
  - intros q Hq. transitivity (view s1 q); [by apply (Hf q)|]. by apply (em_frame _ _ _ H1).
  - intros r v Hr Hrv. destruct (Hv r _ _ Hr (em_vacant _ _ _ H1 r v Hr Hrv)) as [i Hi].
    exists i. split; [exact Hi|]. intros Hu.
    apply (record_swap_lookup _ _ l r); [done|by apply view_block_id|by apply view_block_id in Hi|].
    intros q Hq Hid. destruct (Hl q Hq) as (w & Hw' & _). apply (Hu q w Hq Hw').
    apply view_block_id in Hw'. congruence.
  - intros x. transitivity (all_ids (allocator x s1)); [|apply (em_ids _ _ _ H1)].
    rewrite <- Hids. by destruct x.
Qed.

(** C26. Swapping is a round trip.  Swapping GPU blocks out needs only as many
    free CPU ids as there are blocks: every block then has an id of the CPU, with
    the same predecessor and tokens, the returned mapping takes its old id to
    the new one (when no other block of the list shares it), and no other block
    changes.  When the GPU has room again, swapping the same blocks in returns
    and restores them, with GPU ids, and every CPU id that was lent is free
    again. *)
Theorem swap_roundtrip s l (Hs : wf s) (Hc : cpu_spare s) (Hnd : NoDup l) (Hl : on_device GPU s l)
    (Hfree : Z.of_nat (length l) <= get_num_free_blocks CPU s) :
  exists m s1, swap l GPU CPU s = (Ok m, s1) /\ moved CPU s s1 l m /\
    get_num_free_blocks GPU s <= get_num_free_blocks GPU s1 /\
    (Z.of_nat (length l) <= get_num_free_blocks GPU s1 ->
     exists m' s2, swap l CPU GPU s1 = (Ok m', s2) /\ wf s2 /\ cpu_spare s2 /\
       frame (view s) (view s2) l /\
       (forall r v, r ∈ l -> view s r = Some v ->
          exists i, view s2 r = Some (BlockView (bv_prev v) (bv_tokens v) i GPU)) /\
       get_num_free_blocks CPU s2 = get_num_free_blocks CPU s).
Proof.
  pose proof (swap_ok GPU CPU l s Hs Hc Hnd Hl Hfree) as Hout.
  apply meets_run in Hout as (m & s1 & Hrun & H1). exists m, s1. split; [done|]. split; [done|].
  assert (Hl1 : on_device CPU s1 l).
  { intros r Hr. destruct (Hl r Hr) as (v & Hv & _).
    destruct (mv_view _ _ _ _ _ H1 r v Hr Hv) as (i & Hi & _). by eexists. }
  split.
  { apply (free_fewer GPU s s1 l); [done|apply H1|by rewrite (mv_ids _ _ _ _ _ H1)|apply H1|].
    intros r v Hr Hv. destruct (Hl1 r Hr) as (w & Hw & Hd). congruence. }
  intros Hfree1.
  pose proof (swap_ok CPU GPU l s1 (mv_wf _ _ _ _ _ H1) (mv_spare _ _ _ _ _ H1) Hnd Hl1 Hfree1) as Hin.
  apply meets_run in Hin as (m' & s2 & Hrun2 & H2). exists m', s2.
  assert (Hf : frame (view s) (view s2) l).
  { intros q Hq. rewrite (mv_frame _ _ _ _ _ H2), (mv_frame _ _ _ _ _ H1) by done. done. }
  assert (Hv2 : forall r v, r ∈ l -> view s r = Some v ->
    exists i, view s2 r = Some (BlockView (bv_prev v) (bv_tokens v) i GPU)).
  { intros r v Hr Hv. destruct (mv_view _ _ _ _ _ H1 r v Hr Hv) as (i & Hi & _).
    destruct (mv_view _ _ _ _ _ H2 r _ Hr Hi) as (j & Hj & _). by exists j. }
  split; [done|]. split; [apply H2|]. split; [apply H2|]. split; [done|]. split; [done|].
  apply (free_same CPU s s2 l); [done|apply H2| |done| |].
  - by rewrite (mv_ids _ _ _ _ _ H2), (mv_ids _ _ _ _ _ H1).
  - intros r v Hr Hv. destruct (Hl r Hr) as (v' & Hv' & Hd). congruence.
  - intros r v Hr Hv. destruct (Hl r Hr) as (v' & Hv' & _).
    destruct (Hv2 r v' Hr Hv') as [j Hj]. rewrite Hj in Hv. by injection Hv as <-.
Qed.
End Swap.

(** ** Two full blocks to the CPU and back *)

Definition sample_allocator : result CpuGpu.t := CpuGpu.create false 4 3 2.

Lemma create_spare bs num_gpu num_cpu s :
  0 < bs -> 0 < num_cpu -> CpuGpu.create false num_gpu num_cpu bs = Ok s -> cpu_spare bs s.
Proof.
  intros Hbs Hc. unfold CpuGpu.create. cbv zeta. rewrite !Z.sub_0_r.
  intros (g & _ & H)%result_bind_ok. apply result_bind_ok in H as (c & Hci & H).
  unfold CpuGpu.init in H. destruct (decide _); [|done]. injection H as <-.
  assert (Hnd : NoDup (drop (Z.to_nat num_gpu) (seqZ 0 (num_gpu + num_cpu)))).
  { eapply sublist_NoDup; [apply NoDup_seqZ|]. apply sublist_drop. }
  destruct (init_good bs Hbs num_cpu _ c Hc Hnd Hci) as [Hg _].
  destruct (naive_init_ids bs _ _ c Hnd Hci) as (_ & _ & Hr & _).
  eapply good_ext; [|exact Hg]. intros b. cbn. by rewrite Hr.
Qed.

Lemma swap_roundtrip_witness :
  exists l m s s1, CpuGpu.swap l GPU CPU s = (Ok m, s1) /\
    m = PyDict [(0, 4); (1, 5)] /\ CpuGpu.get_num_free_blocks CPU s1 = 1 /\
    exists m' s2, CpuGpu.swap l CPU GPU s1 = (Ok m', s2) /\ CpuGpu.get_num_free_blocks CPU s2 = 3.
Proof.
  destruct sample_allocator as [s0|] eqn:Hs0; [|by vm_compute in Hs0].
  destruct (create_ok 2 ltac:(done) 4 3 s0 ltac:(done) ltac:(done) Hs0) as (Hw0 & _ & Hfree & _).
  pose proof (create_spare 2 4 3 s0 ltac:(done) ltac:(done) Hs0) as Hc0.
  pose proof (immutable_law 2 ltac:(done) s0 None [[1; 2]; [3; 4]] None Hw0 I
    ltac:(rewrite Hfree; done) ltac:(repeat constructor)) as Hal.
  apply meets_run in Hal as (l & s & Hrun & Hw & Hnd & _ & _ & _ & Hlink).
  assert (Hcon : (exists l' s', CpuGpu.allocate_immutable_blocks None [[1; 2]; [3; 4]] GPU None s0 = (Ok l', s') /\
    CpuGpu.cpu s' = CpuGpu.cpu s0 /\ length l' = 2%nat /\
    CpuGpu.get_num_free_blocks CPU s' = 3 /\
    exists m1 s1, CpuGpu.swap l' GPU CPU s' = (Ok m1, s1) /\ m1 = PyDict [(0, 4); (1, 5)] /\
      CpuGpu.get_num_free_blocks CPU s1 = 1 /\ CpuGpu.get_num_free_blocks GPU s1 = 4)).
  { vm_compute in Hs0. injection Hs0 as <-. do 2 eexists. split; [vm_compute; reflexivity|].
    split; [vm_compute; reflexivity|]. split; [vm_compute; reflexivity|]. split; [vm_compute; reflexivity|].
    do 2 eexists. split; [vm_compute; reflexivity|]. split; [reflexivity|]. split; vm_compute; reflexivity. }
  destruct Hcon as (l' & s' & Hrun' & Hcpu & Hlen & Hf3 & m1 & s1 & Hsw & Hm1 & Hf1 & Hg1).
  rewrite Hrun in Hrun'. injection Hrun' as <- <-.
  destruct (swap_roundtrip 2 ltac:(done) s l Hw) as (m & s1' & Hrun1 & _ & _ & Hback).
  - unfold cpu_spare. rewrite Hcpu. exact Hc0.
  - exact Hnd.
  - intros r Hr. destruct (linked_some _ _ _ _ _ Hlink Hr) as (p & toks & i & Hv). by eexists.
  - rewrite Hlen, Hf3. done.
  - rewrite Hsw in Hrun1. injection Hrun1 as <- <-.
    destruct Hback as (m' & s2 & Hrun2 & _ & _ & _ & _ & Hfin); [rewrite Hlen, Hg1; done|].
    exists l, m1, s, s1. split; [exact Hsw|]. split; [exact Hm1|]. split; [exact Hf1|].
    exists m', s2. split; [exact Hrun2|]. rewrite Hfin. exact Hf3.
Defined.
