(* ===== verification/BlockTable.v ===== *)
(** * Block tables ([vllm/core/block/block_table.py])

    A [BlockTable] holds the blocks of one sequence, and of [vllm/core/block/common.py]
    [BlockList.append_token_ids], which the table alone uses.  The allocator is
    any implementation of [DeviceAwareBlockAllocator]; a method runs on the table
    and the allocator's state together. *)
From S2P Require Import Prelude.
From S2P Require Import BlockCommon.
From S2P Require Import BlockInterfaces.

(** [chunk_list] of [vllm/utils.py], for a positive size. *)
Definition chunk_list {A} (l : list A) (chunk_size : Z) : list (list A) :=
  map (fun i => take (Z.to_nat chunk_size) (drop (Z.to_nat (chunk_size * Z.of_nat i)) l))
    (seq 0 (Z.to_nat (cdiv (Z.of_nat (length l)) chunk_size))).

Module BlockTable.
Section Table.
Context {S R : Type} `{!EqDecision R} `{!DeviceAwareBlockAllocator S R}.

Record t : Type := BlockTable {
  block_size : Z;
  block_list : BlockList.t R;
  max_block_sliding_window : option Z;
  num_full_slots : Z
}.

Definition with_list (b : t) (l : BlockList.t R) : t :=
  BlockTable (block_size b) l (max_block_sliding_window b) (num_full_slots b).
Definition with_full (b : t) (n : Z) : t :=
  BlockTable (block_size b) (block_list b) (max_block_sliding_window b) n.

Definition on_list {A} (f : M (BlockList.t R) A) : M (t * S) A := fun s =>
  let '(r, l) := f (block_list s.1) in (r, (with_list s.1 l, s.2)).
Definition on_allocator {A} (f : M S A) : M (t * S) A := fun s =>
  let '(r, a) := f s.2 in (r, (s.1, a)).

Definition blocks (b : t) : list R := BlockList.blocks (block_list b).
Definition physical_block_ids (b : t) : list Z := BlockList.block_ids (block_list b).
Definition is_allocated (b : t) : bool := 0 <? BlockList.len (block_list b).

(** The ids of the blocks as they are now. *)
Definition ids_now (a : S) : R -> option Z := fun r => block_id_of r a.

(** [_get_num_token_ids] *)
Definition get_num_token_ids (l : list R) (a : S) : Z :=
  foldl (fun res r => res + Z.of_nat (length (token_ids_of r a))) 0 l.

(** [__init__] *)
Definition init (bs : Z) (l : list R) (window : option Z) (a : S) : result t :=
  match BlockList.update (ids_now a) l BlockList.reset with
  | (Ok _, bl) => Ok (BlockTable bs bl window (get_num_token_ids l a))
  | (Err e, _) => Err e
  end.

Definition get_num_required_blocks (toks : list Z) (bs num_lookahead_slots : Z) : Z :=
  cdiv (Z.of_nat (length toks) + num_lookahead_slots) bs.

Definition update (l : list R) : M (t * S) unit := fun s =>
  on_list (BlockList.update (ids_now s.2) l) s.

Definition allocate_blocks_for_token_ids (bs : Z) (prev_block : option R) (toks : list Z)
    (d : Device) (extra : option Z) : M S (list R) :=
  let chunks := chunk_list toks bs in
  let full c := bool_decide (Z.of_nat (length c) = bs) in
  let block_token_ids := filter (fun c => full c = true) chunks in
  let tail_token_ids := filter (fun c => full c = false) chunks in
  blocks ← (match block_token_ids with
            | [] => mret []
            | _ => allocate_immutable_blocks prev_block block_token_ids d extra
            end);
  let prev_block := match last blocks with Some r => Some r | None => prev_block end in
  match tail_token_ids with
  | [] => mret blocks
  | [cur_token_ids] =>
      block ← allocate_mutable_block prev_block d extra;
      block_append_token_ids block cur_token_ids ;;
      mret (blocks ++ [block])
  | _ => raise AssertionError
  end.

Definition allocate (toks : list Z) (d : Device) (extra : option Z) : M (t * S) unit :=
  s ← get;
  assert_ (negb (is_allocated s.1)) ;;
  assert_ (bool_decide (toks <> [])) ;;
  l ← on_allocator (allocate_blocks_for_token_ids (block_size s.1) None toks d extra);
  update l ;;
  modify (fun s => (with_full s.1 (Z.of_nat (length toks)), s.2)).

(** [_num_empty_slots] *)
Definition num_empty_slots (b : t) : result Z :=
  if is_allocated b
  then Ok (BlockList.len (block_list b) * block_size b - num_full_slots b)
  else Err AssertionError.

Definition append_block (extra : option Z) : M (t * S) unit :=
  s ← get;
  match last (blocks s.1) with
  | None => raise AssertionError
  | Some r =>
      q ← on_allocator (allocate_mutable_block (Some r) GPU extra);
      s ← get;
      on_list (BlockList.append (ids_now s.2) q)
  end.

Definition ensure_num_empty_slots (n : Z) (extra : option Z) : M (t * S) unit :=
  s ← get;
  assert_ (is_allocated s.1) ;;
  empty ← lift (num_empty_slots s.1);
  if n <=? empty then mret tt
  else
    let blocks_to_allocate := cdiv (n - empty) (block_size s.1) in
    for_each (seqZ 0 blocks_to_allocate) (fun _ => append_block extra).

Definition first_chunk_size (b : t) : Z := block_size b - num_full_slots b mod block_size b.

(** [_chunk_token_blocks_for_append] *)
Definition chunk_token_blocks_for_append (b : t) (toks : list Z) : list (list Z) :=
  match toks with
  | [] => []
  | _ => let n := Z.to_nat (first_chunk_size b) in
         take n toks :: chunk_list (drop n toks) (block_size b)
  end.

(** [BlockList.append_token_ids]: copy-on-write or promotion may change the id. *)
Definition list_append_token_ids (block_index : nat) (toks : list Z) : M (t * S) unit :=
  s ← get;
  r ← lift (BlockList.get_item block_index (block_list s.1));
  let prev_block_id := block_id_of r s.2 in
  on_allocator (block_append_token_ids r toks) ;;
  s ← get;
  if bool_decide (prev_block_id = block_id_of r s.2) then mret tt
  else on_list (BlockList.update_block_id block_index (block_id_of r s.2)).

(** One round of the loop that drops the blocks before the window. *)
Definition drop_block (null : R) (idx : nat) : M (t * S) unit :=
  s ← get;
  r ← lift (BlockList.get_item idx (block_list s.1));
  if decide (r = null) then mret tt
  else
    on_allocator (free_block r) ;;
    s ← get;
    on_list (BlockList.set_item (ids_now s.2) idx null).

Definition drop_window (window : Z) (num_computed_slots : option Z) : M (t * S) unit :=
  null ← on_allocator allocate_or_get_null_block;
  match num_computed_slots with
  | None => raise AssertionError
  | Some n =>
      s ← get;
      let end_block_idx := n / block_size s.1 - window in
      for_each (seq 0 (Z.to_nat end_block_idx)) (drop_block null)
  end.

(** The loop over the token blocks: the [i]-th goes to block [first + i]. *)
Fixpoint append_chunks (index : nat) (l : list (list Z)) : M (t * S) unit :=
  match l with
  | [] => mret tt
  | c :: l' => list_append_token_ids index c ;; append_chunks (Datatypes.S index) l'
  end.

Definition append_token_ids (toks : list Z) (num_lookahead_slots : Z)
    (num_computed_slots extra : option Z) : M (t * S) unit :=
  s ← get;
  assert_ (is_allocated s.1) ;;
  (match max_block_sliding_window s.1 with
   | None => mret tt
   | Some window => drop_window window num_computed_slots
   end) ;;
  ensure_num_empty_slots (Z.of_nat (length toks) + num_lookahead_slots) extra ;;
  s ← get;
  let first_block_idx := num_full_slots s.1 / block_size s.1 in
  append_chunks (Z.to_nat first_block_idx) (chunk_token_blocks_for_append s.1 toks) ;;
  modify (fun s => (with_full s.1 (num_full_slots s.1 + Z.of_nat (length toks)), s.2)).

(** The new table; this one does not change. *)
Definition fork (b : t) : M S t :=
  match last (blocks b) with
  | None => raise AssertionError
  | Some r =>
      forked_blocks ← fork_blocks r;
      a ← get;
      lift (init (block_size b) forked_blocks (max_block_sliding_window b) a)
  end.

Definition free : M (t * S) unit :=
  s ← get;
  on_allocator (for_each (blocks s.1) free_block) ;;
  modify (fun s => (with_list s.1 BlockList.reset, s.2)).

Definition get_unseen_token_ids (b : t) (sequence_token_ids : list Z) : list Z :=
  drop (Z.to_nat (num_full_slots b)) sequence_token_ids.

(** [_get_all_token_ids] *)
Definition get_all_token_ids (b : t) (a : S) : list Z :=
  concat (map (fun r => token_ids_of r a) (blocks b)).

Definition get_num_blocks_touched_by_append_slots (b : t) (toks : list Z)
    (num_lookahead_slots : Z) : Z :=
  let num_token_ids := Z.of_nat (length toks) + num_lookahead_slots in
  1 + cdiv (num_token_ids - first_chunk_size b) (block_size b).
End Table.
Arguments t : clear implicits.
End BlockTable.
