(* ===== verification/BlockTableCorrect.v ===== *)
(** * A block table holds its sequence's tokens

    Over any allocator that satisfies [DeviceAwareLaws]: [table_ok s b toks] says
    that the blocks of [b] are live GPU blocks, linked in order, that together
    hold [toks].  Every method keeps it, and takes no more free blocks than
    [get_num_required_blocks] and [get_num_blocks_touched_by_append_slots] say.
    The tables are without a sliding window. *)
From S2P Require Import Prelude.
From S2P Require Import BlockCommon.
From S2P Require Import BlockInterfaces.
From S2P Require Import BlockTable.

(** ** The contents of the blocks *)

Section Slots.
Context {A : Type}.
Variable B : nat.
Hypothesis HB : (0 < B)%nat.
Implicit Types l c : list A.

(** What the [n] first blocks of size [B] hold of [l]. *)
Definition slots (n : nat) l : list (list A) :=
  map (fun i => take B (drop (B * i) l)) (seq 0 n).

Lemma slots_length n l : length (slots n l) = n.
Proof. unfold slots. by rewrite length_map, length_seq. Qed.

Lemma slots_lookup n l k : (k < n)%nat -> slots n l !! k = Some (take B (drop (B * k) l)).
Proof.
  intros Hk. unfold slots. rewrite list_lookup_fmap, lookup_seq_lt by done. done.
Qed.

Lemma slots_lookup_Some n l k c :
  slots n l !! k = Some c -> (k < n)%nat /\ c = take B (drop (B * k) l).
Proof.
  intros H. assert (Hk : (k < n)%nat) by (rewrite <- (slots_length n l); by eapply lookup_lt_Some).
  rewrite slots_lookup in H by done. by injection H as <-.
Qed.

Lemma slots_snoc n l : slots (S n) l = slots n l ++ [take B (drop (B * n) l)].
Proof. unfold slots. by rewrite seq_S, map_app. Qed.

(** Blocks past the end are empty. *)
Lemma slots_grow n m l : (length l <= B * n)%nat -> slots (n + m) l = slots n l ++ replicate m [].
Proof.
  intros Hl. apply list_eq. intros k. destruct (decide (k < n)%nat) as [Hk|Hk].
  - rewrite lookup_app_l by (by rewrite slots_length). by rewrite !slots_lookup by lia.
  - rewrite lookup_app_r by (rewrite slots_length; lia). rewrite slots_length.
    destruct (decide (k < n + m)%nat) as [Hm|Hm].
    + rewrite slots_lookup, lookup_replicate_2 by lia. by rewrite drop_ge, take_nil by nia.
    + rewrite !lookup_ge_None_2; [done|rewrite length_replicate; lia|rewrite slots_length; lia].
Qed.

(** Appending into the first block that is not full. *)
Lemma slots_append n l c :
  (length l / B < n)%nat -> (length l mod B + length c <= B)%nat ->
  slots n (l ++ c)
  = <[(length l / B)%nat := take B (drop (B * (length l / B)) l) ++ c]> (slots n l).
Proof.
  intros Hn Hc. pose proof (Nat.div_mod_eq (length l) B) as Hdm.
  pose proof (Nat.mod_upper_bound (length l) B ltac:(lia)) as Hmod.
  set (q := (length l / B)%nat) in *. apply list_eq. intros k.
  destruct (decide (k < n)%nat) as [Hk|Hk].
  2: { rewrite !lookup_ge_None_2; [done|rewrite length_insert|]; rewrite slots_length; lia. }
  destruct (decide (k = q)) as [->|Hne].
  - rewrite list_lookup_insert_eq by (by rewrite slots_length). rewrite slots_lookup by done.
    f_equal. rewrite drop_app_le by lia.
    rewrite (take_ge (drop (B * q) l)) by (rewrite length_drop; lia).
    apply take_ge. rewrite length_app, length_drop. lia.
  - rewrite list_lookup_insert_ne by done. rewrite !slots_lookup by done. f_equal.
    destruct (decide (k < q)%nat) as [Hlt|Hge].
    + rewrite drop_app_le by nia. apply take_app_le. rewrite length_drop. nia.
    + rewrite !drop_ge; [done|nia|rewrite length_app; nia].
Qed.

Lemma slots_cons n l : slots (S n) l = take B l :: slots n (drop B l).
Proof.
  unfold slots. cbn [seq map]. rewrite Nat.mul_0_r, drop_0. f_equal.
  rewrite <- seq_shift, map_map. apply map_ext. intros i. rewrite drop_drop. do 2 f_equal. lia.
Qed.

Lemma slots_concat n l : (length l <= B * n)%nat -> concat (slots n l) = l.
Proof.
  revert l. induction n as [|n IH]; intros l Hl.
  { destruct l; [done|cbn in Hl; lia]. }
  rewrite slots_cons. cbn [concat]. rewrite IH by (rewrite length_drop; lia). apply take_drop.
Qed.
End Slots.

(** ** Arithmetic of chunks *)

Section Chunks.
Context {A : Type}.
Variable bsz : Z.
Hypothesis Hbsz : 0 < bsz.
Abbreviation B := (Z.to_nat bsz).
Implicit Types l : list A.

Lemma B_pos : (0 < B)%nat.
Proof. lia. Qed.

Lemma chunk_list_slots l : chunk_list l bsz = slots B (Z.to_nat (cdiv (Z.of_nat (length l)) bsz)) l.
Proof.
  unfold chunk_list, slots. apply map_ext. intros i. do 2 f_equal.
  by rewrite Z2Nat.inj_mul, Nat2Z.id by lia.
Qed.

Lemma cdiv_div l :
  Z.to_nat (cdiv (Z.of_nat (length l)) bsz)
  = (length l / B + if decide (length l mod B = 0) then 0 else 1)%nat.
Proof.
  pose proof (cdiv_spec (Z.of_nat (length l)) bsz Hbsz) as Hc.
  pose proof (Nat.div_mod_eq (length l) B) as Hdm.
  pose proof (Nat.mod_upper_bound (length l) B ltac:(lia)) as Hmod.
  set (q := (length l / B)%nat) in *. set (r := (length l mod B)%nat) in *.
  case_decide; nia.
Qed.

Lemma chunk_list_nil : chunk_list (@nil A) bsz = [].
Proof. rewrite chunk_list_slots. unfold cdiv. by rewrite Z.div_0_l by lia. Qed.

Lemma chunk_list_cons l :
  l <> [] -> chunk_list l bsz = take B l :: chunk_list (drop B l) bsz.
Proof.
  intros Hl. rewrite !chunk_list_slots, <- slots_cons by lia.
  assert (E : Z.to_nat (cdiv (Z.of_nat (length l)) bsz)
              = S (Z.to_nat (cdiv (Z.of_nat (length (drop B l))) bsz))); [|by rewrite E].
  assert (0 < length l)%nat by (destruct l; [done|cbn; lia]).
  pose proof (cdiv_spec (Z.of_nat (length l)) bsz Hbsz).
  pose proof (cdiv_spec (Z.of_nat (length (drop B l))) bsz Hbsz) as H2. rewrite length_drop in *. nia.
Qed.

Lemma chunk_list_concat l : concat (chunk_list l bsz) = l.
Proof.
  rewrite chunk_list_slots. apply slots_concat; [lia|].
  pose proof (cdiv_spec (Z.of_nat (length l)) bsz Hbsz). nia.
Qed.

(** The full chunks, then what is left over. *)
Lemma chunk_list_split l :
  let full c := bool_decide (Z.of_nat (length c) = bsz) in
  let q := (length l / B)%nat in
  filter (fun c => full c = true) (chunk_list l bsz) = slots B q l /\
  filter (fun c => full c = false) (chunk_list l bsz)
  = if decide (length l mod B = 0)%nat then [] else [drop (B * q) l].
Proof.
  intros full q. pose proof (Nat.div_mod_eq (length l) B) as Hdm.
  pose proof (Nat.mod_upper_bound (length l) B ltac:(lia)) as Hmod. fold q in Hdm.
  assert (Hfull : Forall (fun c => full c = true) (slots B q l)).
  { apply Forall_forall. intros c [k Hk]%list_elem_of_lookup.
    apply slots_lookup_Some in Hk as [Hk ->]. apply bool_decide_eq_true.
    rewrite length_take, length_drop. nia. }
  assert (Hsplit : chunk_list l bsz
    = slots B q l ++ if decide (length l mod B = 0)%nat then [] else [drop (B * q) l]).
  { rewrite chunk_list_slots, cdiv_div. fold q. case_decide as Hr.
    - by rewrite Nat.add_0_r, app_nil_r.
    - rewrite Nat.add_1_r, slots_snoc. do 2 f_equal. apply take_ge. rewrite length_drop. lia. }
  assert (Hnone : forall (l : list (list A)), Forall (fun c => full c = true) l ->
    filter (fun c => full c = true) l = l /\ filter (fun c => full c = false) l = []).
  { induction 1 as [|c cs Hc _ [IH1 IH2]]; [done|].
    rewrite filter_cons_True, filter_cons_False by congruence. by rewrite IH1, IH2. }
  destruct (Hnone _ Hfull) as [H1 H2].
  rewrite Hsplit, !filter_app, H1, H2. case_decide as Hr; [by rewrite app_nil_r|].
  assert (full (drop (B * q) l) = false).
  { apply bool_decide_eq_false. rewrite length_drop. lia. }
  rewrite filter_cons_False, filter_cons_True by congruence. by rewrite app_nil_r.
Qed.
End Chunks.

(** ** Block tables *)

Section Correct.
Context {S R : Type} `{!EqDecision R} `{!DeviceAwareBlockAllocator S R}.
Context {bsz : Z} {wf : S -> Prop} {view : S -> R -> option (block_view R)}.
Context `{!DeviceAwareLaws S R bsz wf view}.
Import BlockTable.

Abbreviation B := (Z.to_nat bsz).
Abbreviation free_blocks := (get_num_free_blocks GPU).
Implicit Types (s : S) (b : BlockTable.t R) (toks : list Z) (r q : R).

(** The block list [l] holds [toks]. *)
Record list_ok s (l : BlockList.t R) toks : Prop := {
  lo_blocks : BlockList.blocks l <> [];
  lo_nodup : NoDup (BlockList.blocks l);
  lo_room : (length toks <= B * length (BlockList.blocks l))%nat;
  lo_linked : linked (view s) None (BlockList.blocks l)
                (slots B (length (BlockList.blocks l)) toks);
  lo_ids : BlockList.synced (ids_now s) l
}.

Record table_ok s b toks : Prop := {
  to_size : block_size b = bsz;
  to_window : max_block_sliding_window b = None;
  to_full : num_full_slots b = Z.of_nat (length toks);
  to_list : list_ok s (block_list b) toks
}.

(** The blocks that a call may take. *)
Definition touched b toks la : Z := get_num_blocks_touched_by_append_slots b toks la.

(** What a call that adds [news] to the blocks of [l] guarantees to the rest. *)
Record grows s s' (l news : list R) (cost : Z) : Prop := {
  gr_wf : wf s';
  gr_fresh : forall r, r ∈ news -> view s r = None;
  gr_frame : frame (view s) (view s') (l ++ news);
  gr_cost : free_blocks s - cost <= free_blocks s'
}.

Lemma bsz_pos : 0 < bsz.
Proof. apply (law_bsz (S := S) (R := R)). Qed.

Lemma list_live s l toks r :
  list_ok s l toks -> r ∈ BlockList.blocks l -> exists v, view s r = Some v.
Proof.
  intros Hl Hr. destruct (linked_some _ _ _ _ _ (lo_linked _ _ _ Hl) Hr) as (p & c & i & H).
  by eexists.
Qed.

Lemma table_live s b toks r : table_ok s b toks -> r ∈ blocks b -> exists v, view s r = Some v.
Proof. intros [_ _ _ H]. by eapply list_live. Qed.

Lemma synced_frame s s' (l : BlockList.t R) :
  (forall r, r ∈ BlockList.blocks l -> ids_now s' r = ids_now s r) ->
  BlockList.synced (ids_now s) l -> BlockList.synced (ids_now s') l.
Proof.
  unfold BlockList.synced. intros Hf <-. apply map_ext_in. intros r Hr%list_elem_of_In. by apply Hf.
Qed.

Lemma ids_now_view s s' r v :
  wf s -> wf s' -> view s r = Some v -> view s' r = view s r -> ids_now s' r = ids_now s r.
Proof.
  intros Hs Hs' Hv He. unfold ids_now. by rewrite (law_block_id s r v), (law_block_id s' r v) by congruence.
Qed.

(** A table does not notice what happens to the blocks of others. *)
Lemma table_ok_frame s s' b toks l :
  wf s -> wf s' -> frame (view s) (view s') l -> (forall r, r ∈ blocks b -> r ∉ l) ->
  table_ok s b toks -> table_ok s' b toks.
Proof.
  intros Hs Hs' Hf Hd [H1 H2 H3 Hl]. split; [done..|].
  pose proof (fun r => list_live s _ toks r Hl) as Hlive. destruct Hl as [H4 H5 H6 H7 H8].
  split; [done..|by eapply linked_frame|].
  eapply synced_frame; [|done]. intros r Hr. destruct (Hlive r Hr) as [v Hv].
  eapply ids_now_view; [done..|]. by apply Hf, Hd.
Qed.

Lemma table_ok_others s s' b toks l news cost :
  wf s -> grows s s' l news cost -> (forall r, r ∈ blocks b -> r ∉ l) ->
  table_ok s b toks -> table_ok s' b toks.
Proof.
  intros Hs [Hw Hf Hfr _] Hd Hb. apply (table_ok_frame s s' b toks (l ++ news)); [done|done|done| |done].
  intros r Hr [Hin|Hin]%elem_of_app; [by eapply Hd|].
  destruct (table_live s b toks r Hb Hr) as [v Hv]. specialize (Hf r Hin). congruence.
Qed.

(** *** [allocate] *)

Lemma allocate_blocks_ok s toks extra :
  wf s -> cdiv (Z.of_nat (length toks)) bsz <= free_blocks s ->
  meets (allocate_blocks_for_token_ids bsz None toks GPU extra) s (fun rs s' =>
    grows s s' [] rs (cdiv (Z.of_nat (length toks)) bsz) /\ NoDup rs /\
    linked (view s') None rs (slots B (Z.to_nat (cdiv (Z.of_nat (length toks)) bsz)) toks)).
Proof.
  intros Hs Hfree. pose proof bsz_pos as Hpos.
  pose proof (cdiv_nonneg (Z.of_nat (length toks)) bsz Hpos ltac:(lia)) as Hc0.
  pose proof (cdiv_div bsz Hpos toks) as Hcd.
  pose proof (Nat.div_mod_eq (length toks) B) as Hdm.
  unfold allocate_blocks_for_token_ids. cbv zeta.
  destruct (chunk_list_split bsz Hpos toks) as [-> ->].
  set (n := (length toks / B)%nat) in *.
  apply (meets_bind _ _ _ (fun rs s' =>
    grows s s' [] rs (Z.of_nat n) /\ NoDup rs /\ linked (view s') None rs (slots B n toks))).
  { destruct (slots B n toks) as [|c l] eqn:Hl.
    - apply meets_ret. split; [|split; [constructor|done]].
      split; [done|by intros r ?%elem_of_nil|done|lia].
    - rewrite <- Hl. pose proof (slots_length B n toks) as Hlen.
      eapply meets_weaken; [apply law_immutable; [done|done|lia|]|].
      { apply Forall_forall. intros x [k Hk]%list_elem_of_lookup.
        apply slots_lookup_Some in Hk as [Hk ->]. rewrite length_take, length_drop. nia. }
      intros rs s' (Hw & Hnd & Hnew & Hf & Hc & Hl'). split; [|done].
      split; [done..|]. rewrite Hlen in Hc. lia. }
  intros rs s1 ([Hw1 Hnew1 Hf1 Hc1] & Hnd1 & Hl1).
  case_decide as Hr.
  { apply meets_ret. rewrite Hcd, Nat.add_0_r. split; [|done]. split; [done..|]. lia. }
  set (prev := match last rs with Some r => Some r | None => None end).
  eapply meets_bind; [apply law_mutable; [done| |lia]|].
  { unfold prev. destruct (last rs) as [x|] eqn:Hx; [|done]. apply last_Some_elem_of in Hx.
    destruct (linked_some _ _ _ _ _ Hl1 Hx) as (? & ? & ? & ?). by eexists. }
  intros r s2 (Hw2 & Hnone & Hf2 & Hc2 & Hal & i & Hr2).
  set (tail := drop (B * n) toks).
  assert (Htail : tail <> [] /\ Z.of_nat (length tail) <= bsz).
  { pose proof (Nat.mod_upper_bound (length toks) B ltac:(lia)).
    assert (Hlt : length tail = (length toks mod B)%nat) by (unfold tail; rewrite length_drop; lia).
    split; [intros E; rewrite E in Hlt; cbn in Hlt; lia|lia]. }
  eapply meets_bind; [apply (law_append s2 r prev [] i tail); [done|done|apply Htail|apply Htail|by left]|].
  intros [] s3 (Hw3 & Hf3 & _ & Hc3 & j & Hr3 & _). apply meets_ret.
  assert (Hrs : r ∉ rs).
  { intros Hin. destruct (linked_some _ _ _ _ _ Hl1 Hin) as (? & ? & ? & ?). congruence. }
  assert (Hv : view s r = None).
  { rewrite <- Hnone. symmetry. apply Hf1. by rewrite app_nil_l. }
  split; [split|split].
  - done.
  - intros q [Hq| ->%list_elem_of_singleton]%elem_of_app; [by apply Hnew1|done].
  - rewrite app_nil_l in *. eapply frame_mono; [eapply frame_trans; [exact Hf1|eapply frame_trans; [exact Hf2|exact Hf3]]|].
    intros x. rewrite !elem_of_app. tauto.
  - specialize (Hc3 Hal). lia.
  - apply NoDup_app. split; [done|]. split; [|apply NoDup_singleton].
    by intros x Hx ->%list_elem_of_singleton.
  - rewrite Hcd, Nat.add_1_r, slots_snoc, take_ge by (fold tail; lia). fold tail.
    apply linked_app; [by rewrite slots_length, (linked_length _ _ _ _ Hl1), slots_length|].
    split; [|split; [by exists j|done]].
    eapply (linked_frame (view s1)); [eapply frame_trans; [exact Hf2|exact Hf3]| |done].
    intros q Hq. rewrite elem_of_app, !list_elem_of_singleton. intros [->| ->]; done.
Qed.

Lemma on_allocator_meets {A} (m : M S A) (p : BlockTable.t R * S) Q :
  meets m p.2 Q -> meets (on_allocator m) p (fun a p' => Q a p'.2 /\ p'.1 = p.1).
Proof. unfold meets, on_allocator. destruct (m p.2) as [[a|e] s']; [by split|done]. Qed.

Lemma on_list_meets {A} (m : M (BlockList.t R) A) (p : BlockTable.t R * S) Q :
  meets m (block_list p.1) Q ->
  meets (on_list m) p (fun a p' => exists l, Q a l /\ p' = (with_list p.1 l, p.2)).
Proof. unfold meets, on_list. destruct (m _) as [[a|e] l]; [by exists l|done]. Qed.

Lemma update_meets (f : R -> option Z) l x :
  (forall r, r ∈ l -> is_Some (f r)) ->
  meets (BlockList.update f l) x (fun _ y => BlockList.synced f y /\ BlockList.blocks y = l).
Proof.
  intros Hl.
  assert (H : forall y : BlockList.t R, exists y', for_each l (fun i => BlockList.add_block_id (f i)) y = (Ok tt, y')).
  { clear x. induction l as [|r l IH]; intros y; cbn [for_each]; [by exists y|].
    destruct (Hl r) as [i Hi]; [left|]. rewrite bind_run. unfold BlockList.add_block_id at 1.
    rewrite Hi. apply IH. intros q Hq. apply Hl. by right. }
  destruct (H (BlockList.BlockList l [])) as [y' Hy]. apply meets_run. exists tt, y'.
  split; [exact Hy|]. by apply BlockList.update_synced in Hy.
Qed.

(** The blocks of a sequence have ids. *)
Lemma linked_ids s prev l contents r :
  wf s -> linked (view s) prev l contents -> r ∈ l -> is_Some (ids_now s r).
Proof.
  intros Hs Hl Hr. destruct (linked_some _ _ _ _ _ Hl Hr) as (p & c & i & H).
  exists i. unfold ids_now. by rewrite (law_block_id s r _ Hs H).
Qed.

Lemma synced_ids s b toks r :
  wf s -> table_ok s b toks -> r ∈ blocks b -> is_Some (ids_now s r).
Proof. intros Hs Hb. by eapply linked_ids, lo_linked, to_list. Qed.

Lemma table_allocate_ok s b toks extra :
  wf s -> block_size b = bsz -> max_block_sliding_window b = None -> blocks b = [] ->
  toks <> [] -> get_num_required_blocks toks bsz 0 <= free_blocks s ->
  meets (allocate toks GPU extra) (b, s) (fun _ p =>
    table_ok p.2 p.1 toks /\
    grows s p.2 [] (blocks p.1) (get_num_required_blocks toks bsz 0)).
Proof.
  unfold get_num_required_blocks. rewrite Z.add_0_r. intros Hs Hbs Hw Hb Ht Hfree.
  pose proof bsz_pos as Hpos. unfold allocate. apply meets_get.
  apply meets_assert; [unfold is_allocated, BlockList.len, blocks in *; cbn; by rewrite Hb|].
  apply meets_assert; [by apply bool_decide_eq_true|]. cbn [fst]. rewrite Hbs.
  eapply meets_bind; [by apply on_allocator_meets, allocate_blocks_ok|].
  intros rs [b1 s1] [(Hg & Hnd & Hl) Hb1]. cbn in Hg, Hl, Hb1. subst b1.
  eapply meets_bind; [apply on_list_meets, update_meets|].
  { intros r Hr. eapply linked_ids; [apply Hg|done..]. }
  intros [] p2 (bl & [Hsync Hbl] & ->). cbn in Hsync.
  set (n := Z.to_nat (cdiv (Z.of_nat (length toks)) bsz)) in *.
  assert (Hn : length rs = n) by (by rewrite (linked_length _ _ _ _ Hl), slots_length).
  assert (Hroom : (length toks <= B * n)%nat).
  { pose proof (cdiv_spec (Z.of_nat (length toks)) bsz Hpos). lia. }
  split; cbn; [split; cbn; [done..|split]|]; unfold blocks; cbn; rewrite ?Hbl; try done; [|by rewrite Hn..].
  intros E. rewrite E in Hn. cbn in Hn. rewrite <- Hn in Hroom. destruct toks; [done|cbn in Hroom; lia].
Qed.

(** *** [append_token_ids] *)

(** The chunks [l], appended after [n] tokens, fill one block after the other. *)
Fixpoint fits (n : nat) (l : list (list Z)) : Prop :=
  match l with
  | [] => True
  | c :: l' =>
      c <> [] /\ (n mod B + length c <= B)%nat /\ (l' = [] \/ ((n + length c) mod B = 0)%nat) /\
      fits (n + length c) l'
  end.

Lemma alone_append s s' r q old new v :
  alone (view s) q -> view s q = Some v -> Z.of_nat (length (bv_tokens v)) < bsz -> q <> r ->
  view s r = Some old -> frame (view s) (view s') [r] -> view s' r = Some new ->
  (forall q w, q <> r -> view s q = Some w -> Z.of_nat (length (bv_tokens w)) < bsz ->
     bv_id w = bv_id new -> bv_id new = bv_id old) ->
  alone (view s') q.
Proof.
  intros Ha Hq Hlen Hne Hr Hf Hr' Hmoved x w c Hb Hc Hid.
  rewrite (Hf q) in Hb by by rewrite list_elem_of_singleton. rewrite Hq in Hb. injection Hb as <-.
  destruct (decide (x = r)) as [->|Hx].
  - rewrite Hr' in Hc. injection Hc as <-. specialize (Hmoved q v Hne Hq Hlen Hid).
    exfalso. apply Hne. symmetry. apply (Ha r v old Hq Hr). congruence.
  - rewrite (Hf x) in Hc by by rewrite list_elem_of_singleton. by eapply Ha.
Qed.

Lemma synced_update (f g : R -> option Z) (l : BlockList.t R) k r j :
  BlockList.synced f l -> BlockList.blocks l !! k = Some r -> g r = Some j ->
  (forall n q, BlockList.blocks l !! n = Some q -> n <> k -> g q = f q) ->
  BlockList.synced g (BlockList.BlockList (BlockList.blocks l) (<[k := j]> (BlockList.block_ids l))).
Proof.
  unfold BlockList.synced. cbn. intros Hs Hk Hj Hf.
  pose proof (list_fmap_insert Some (BlockList.block_ids l) k j) as E. unfold fmap in E.
  change (list_fmap Z (option Z) Some) with (map (@Some Z)) in E. rewrite E, <- Hs.
  apply list_eq. intros n. rewrite list_lookup_fmap.
  destruct (decide (n = k)) as [->|Hne].
  - rewrite Hk, list_lookup_insert_eq; [cbn; by rewrite Hj|].
    rewrite length_map. by eapply lookup_lt_Some.
  - rewrite list_lookup_insert_ne by done. rewrite list_lookup_fmap.
    destruct (BlockList.blocks l !! n) as [q|] eqn:Hq; [|done]. cbn. by rewrite (Hf n q).
Qed.

(** One chunk goes to the first block with room. *)
Lemma list_append_ok (p : BlockTable.t R * S) toks c r :
  wf p.2 -> list_ok p.2 (block_list p.1) toks -> c <> [] ->
  (length toks mod B + length c <= B)%nat ->
  blocks p.1 !! (length toks / B)%nat = Some r ->
  alone (view p.2) r \/ 0 < free_blocks p.2 ->
  meets (list_append_token_ids (length toks / B) c) p (fun _ p' =>
    wf p'.2 /\ (exists l, p'.1 = with_list p.1 l /\ BlockList.blocks l = blocks p.1 /\
                          list_ok p'.2 l (toks ++ c)) /\
    frame (view p.2) (view p'.2) [r] /\ free_blocks p.2 - 1 <= free_blocks p'.2 /\
    (alone (view p.2) r -> free_blocks p.2 <= free_blocks p'.2) /\
    (forall q v, q <> r -> alone (view p.2) q -> view p.2 q = Some v ->
       Z.of_nat (length (bv_tokens v)) < bsz -> alone (view p'.2) q)).
Proof.
  destruct p as [b s]. cbn [fst snd]. intros Hs Hl Hc Hlen Hk Hcost.
  pose proof bsz_pos as Hpos. pose proof (Nat.div_mod_eq (length toks) B) as Hdm.
  set (k := (length toks / B)%nat) in *. set (bl := block_list b) in *.
  assert (Hlt : (k < length (BlockList.blocks bl))%nat) by by eapply lookup_lt_Some.
  set (old := take B (drop (B * k) toks)).
  assert (Hold : length old = (length toks mod B)%nat).
  { unfold old. rewrite length_take, length_drop. pose proof (Nat.mod_upper_bound (length toks) B). lia. }
  destruct (linked_lookup _ _ _ _ _ _ old (lo_linked _ _ _ Hl) Hk) as (prev & i & Hr).
  { by apply slots_lookup. }
  unfold list_append_token_ids. apply meets_get. cbn [fst snd].
  change (BlockList.blocks bl !! k = Some r) in Hk.
  eapply meets_lift; [unfold BlockList.get_item; fold bl; by rewrite Hk|].
  eapply meets_bind; [apply on_allocator_meets, (law_append s r prev old i c);
    [done..|rewrite length_app; lia|done]|].
  intros [] [b1 s1] [(Hw1 & Hf1 & Hc1 & Ha1 & j & Hr1 & Hmoved) Hb1]. cbn in *. subst b1.
  assert (Hlinked : linked (view s1) None (BlockList.blocks bl)
                      (slots B (length (BlockList.blocks bl)) (toks ++ c))).
  { rewrite slots_append by (fold k; lia). fold k old.
    eapply linked_update; [apply Hl|apply Hl|exact Hk|exact Hf1| |exact Hr1].
    rewrite Hr. by intros ? [= <-]. }
  assert (Hroom : (length (toks ++ c) <= B * length (BlockList.blocks bl))%nat)
    by (rewrite length_app; nia).
  assert (Hothers : forall q v, q <> r -> alone (view s) q -> view s q = Some v ->
    Z.of_nat (length (bv_tokens v)) < bsz -> alone (view s1) q).
  { intros q v Hq Haq Hv Hlv. by eapply alone_append. }
  assert (Hids : forall q, q ∈ BlockList.blocks bl -> q <> r -> ids_now s1 q = ids_now s q).
  { intros q Hq Hne. destruct (list_live s bl toks q Hl Hq) as [v Hv].
    eapply ids_now_view; [done..|]. apply Hf1. by rewrite list_elem_of_singleton. }
  pose proof (law_block_id s r _ Hs Hr) as Hi. pose proof (law_block_id s1 r _ Hw1 Hr1) as Hj.
  cbn in Hi, Hj. apply meets_get. cbn [fst snd]. rewrite Hi, Hj. case_bool_decide as Heq.
  - injection Heq as <-. apply meets_ret. cbn [fst snd]. split; [done|]. split; [|done].
    exists bl. split; [by destruct b|]. split; [done|]. split; [apply Hl..|done|done|].
    eapply synced_frame; [|apply Hl]. intros q Hq. destruct (decide (q = r)) as [->|Hne].
    + unfold ids_now. by rewrite Hi, Hj.
    + by apply Hids.
  - set (l' := BlockList.BlockList (BlockList.blocks bl) (<[k := j]> (BlockList.block_ids bl))).
    assert (Hnids : length (BlockList.block_ids bl) = length (BlockList.blocks bl)).
    { pose proof (f_equal length (lo_ids _ _ _ Hl)) as E. by rewrite !length_map in E. }
    assert (Hsync : BlockList.synced (ids_now s1) l').
    { eapply synced_update; [apply Hl|exact Hk|exact Hj|]. intros n q Hq Hne. apply Hids.
      - by eapply list_elem_of_lookup_2.
      - intros ->. apply Hne. by eapply NoDup_lookup; [apply Hl|..]. }
    unfold on_list, BlockList.update_block_id, meets. cbn. fold bl.
    rewrite decide_True by lia. cbn. split; [done|]. split; [|done].
    exists l'. split; [done|]. split; [done|]. split; [apply Hl..|done|done|done].
Qed.

Lemma next_block n c :
  (0 < c)%nat -> (n mod B + c <= B)%nat -> ((n + c) mod B = 0)%nat ->
  ((n + c) / B = n / B + 1)%nat.
Proof.
  intros Hc Hle H0. pose proof bsz_pos. pose proof (Nat.div_mod_eq n B) as H1.
  pose proof (Nat.div_mod_eq (n + c) B) as H2. pose proof (Nat.mod_upper_bound n B ltac:(lia)). nia.
Qed.

(** All chunks.  From the [m]-th block on the blocks are not shared, so they
    cost nothing. *)
Lemma append_chunks_ok l : forall (p : BlockTable.t R * S) toks m,
  wf p.2 -> list_ok p.2 (block_list p.1) toks -> fits (length toks) l ->
  (length toks + length (concat l) <= B * length (blocks p.1))%nat ->
  (forall k r, (m <= k)%nat -> (length toks / B <= k)%nat -> blocks p.1 !! k = Some r ->
     alone (view p.2) r) ->
  Z.of_nat (length l `min` (m - length toks / B)) <= free_blocks p.2 ->
  meets (append_chunks (length toks / B) l) p (fun _ p' =>
    wf p'.2 /\ (exists l', p'.1 = with_list p.1 l' /\ BlockList.blocks l' = blocks p.1 /\
                           list_ok p'.2 l' (toks ++ concat l)) /\
    frame (view p.2) (view p'.2) (blocks p.1) /\
    free_blocks p.2 - Z.of_nat (length l `min` (m - length toks / B)) <= free_blocks p'.2).
Proof.
  pose proof bsz_pos as Hpos.
  induction l as [|c l IH]; intros [b s] toks m Hs Hl Hfit Hroom Halone Hfree; cbn [append_chunks].
  { apply meets_ret. cbn in *. rewrite app_nil_r. split; [done|]. split; [|split; [done|lia]].
    exists (block_list b). by destruct b. }
  cbn [fst snd] in *. cbn in Hfit. destruct Hfit as (Hc & Hle & Hnext & Hfit).
  cbn [concat] in Hroom. rewrite length_app in Hroom.
  assert (Hc0 : (0 < length c)%nat) by (destruct c; [done|cbn; lia]).
  set (k := (length toks / B)%nat) in *.
  assert (Hk : (k < length (blocks b))%nat).
  { apply Nat.Div0.div_lt_upper_bound. lia. }
  destruct (lookup_lt_is_Some_2 (blocks b) k Hk) as [r Hr].
  set (cost := if decide (k < m)%nat then 1 else 0).
  assert (Hcost : Z.of_nat (length (c :: l) `min` (m - k)) =
                  cost + Z.of_nat (length l `min` (m - (k + 1)))).
  { unfold cost. cbn [length]. case_decide; lia. }
  assert (Hcost1 : (k < m)%nat -> cost = 1) by (intros; unfold cost; by rewrite decide_True).
  assert (Hcost0 : ~ (k < m)%nat -> cost = 0) by (intros; unfold cost; by rewrite decide_False).
  clearbody cost. eapply meets_bind.
  { apply (list_append_ok (b, s) toks c r); [done..|]. cbn [snd].
    destruct (decide (k < m)%nat) as [Hm|Hm]; [right|left; by apply (Halone k); [lia|lia|]].
    specialize (Hcost1 Hm). lia. }
  intros [] [b1 s1] (Hw1 & (l1 & Hb1 & Hbl1 & Hl1) & Hf1 & Hc1 & Ha1 & Hal1).
  cbn [fst snd] in *. subst b1.
  assert (Hpaid : free_blocks s - cost <= free_blocks s1).
  { destruct (decide (k < m)%nat) as [Hm|Hm]; [by rewrite (Hcost1 Hm)|].
    rewrite (Hcost0 Hm), Z.sub_0_r. apply Ha1. by apply (Halone k); [lia|lia|]. }
  assert (Hrin : r ∈ blocks b) by by eapply list_elem_of_lookup_2.
  destruct Hnext as [->|H0].
  { apply meets_ret. cbn [fst snd]. split; [done|]. split; [|split; [|lia]].
    - exists l1. cbn [concat]. by rewrite app_nil_r.
    - eapply frame_mono; [exact Hf1|]. by intros x ->%list_elem_of_singleton. }
  assert (Hk' : (length (toks ++ c) / B = k + 1)%nat).
  { rewrite length_app. by apply next_block. }
  replace (Datatypes.S k) with (k + 1)%nat by lia. rewrite <- Hk'. eapply meets_weaken; [apply (IH (with_list b l1, s1) (toks ++ c) m)|].
  - done.
  - done.
  - by rewrite length_app.
  - cbn [fst]. unfold blocks. cbn. fold (blocks b) in *. rewrite Hbl1, length_app. lia.
  - cbn [fst snd]. rewrite Hk'. unfold blocks. cbn. rewrite Hbl1. intros n q Hn Hkn Hq.
    destruct (linked_lookup _ _ _ _ _ _ [] (lo_linked _ _ _ Hl) Hq) as (pq & i & Hv).
    { pose proof (lookup_lt_Some _ _ _ Hq). rewrite slots_lookup by done.
      rewrite drop_ge, ?take_nil; [done|]. pose proof (Nat.div_mod_eq (length toks) B). fold k in H1.
      pose proof (Nat.mod_upper_bound (length toks) B). nia. }
    eapply Hal1; [|by apply (Halone n); [done|lia|]|done|cbn; lia].
    intros ->. assert (n = k) by (by eapply NoDup_lookup; [apply Hl|..]). lia.
  - cbn [snd]. rewrite Hk'. lia.
  - intros [] [b2 s2]. cbn [fst snd]. rewrite Hk'. intros (Hw2 & (l2 & Hb2 & Hbl2 & Hl2) & Hf2 & Hc2).
    subst b2. split; [done|]. split; [|split; [|lia]].
    + exists l2. split; [done|]. split; [by etransitivity; [exact Hbl2|]|]. cbn [concat]. by rewrite app_assoc.
    + unfold blocks in Hf2 at 1. cbn in Hf2. rewrite Hbl1 in Hf2.
      eapply frame_mono; [eapply frame_trans; [exact Hf1|exact Hf2]|].
      by intros x [->%list_elem_of_singleton|?]%elem_of_app.
Qed.

Lemma append_synced_at s (l : BlockList.t R) r i :
  BlockList.synced (ids_now s) l -> ids_now s r = Some i ->
  BlockList.synced (ids_now s)
    (BlockList.BlockList (BlockList.blocks l ++ [r]) (BlockList.block_ids l ++ [i])).
Proof. unfold BlockList.synced. cbn. intros Hs Hi. by rewrite !map_app, Hs; cbn; rewrite Hi. Qed.

Lemma alone_grows s s' r news :
  frame (view s) (view s') news -> (forall q, q ∈ news -> view s q = None) ->
  alone (view s) r -> (forall q, q ∈ news -> alone (view s') q) -> is_Some (view s r) ->
  alone (view s') r.
Proof.
  intros Hf Hnew Hr Hal [v Hv] q w c Hw Hc Hid.
  assert (Hrn : r ∉ news) by (intros Hin; rewrite (Hnew r Hin) in Hv; done).
  rewrite (Hf r Hrn) in Hw. destruct (decide (q ∈ news)) as [Hq|Hq].
  - symmetry. apply (Hal q Hq r c w); [done|by rewrite (Hf r Hrn)|done].
  - rewrite (Hf q Hq) in Hc. by eapply Hr.
Qed.

(** One new block at the end. *)
Lemma append_block_ok (p : BlockTable.t R * S) toks extra :
  wf p.2 -> list_ok p.2 (block_list p.1) toks -> 0 < free_blocks p.2 ->
  meets (append_block extra) p (fun _ p' => exists r l,
    p'.1 = with_list p.1 l /\ BlockList.blocks l = blocks p.1 ++ [r] /\
    wf p'.2 /\ list_ok p'.2 l toks /\ view p.2 r = None /\ alone (view p'.2) r /\
    is_Some (view p'.2 r) /\ frame (view p.2) (view p'.2) [r] /\
    free_blocks p.2 - 1 <= free_blocks p'.2).
Proof.
  destruct p as [b s]. cbn [fst snd]. intros Hs Hl Hfree. unfold append_block. apply meets_get.
  cbn [fst snd]. unfold blocks. set (bl := block_list b) in *.
  destruct (last (BlockList.blocks bl)) as [x|] eqn:Hlast.
  2: { apply last_None in Hlast. by destruct (lo_blocks _ _ _ Hl). }
  eapply meets_bind; [apply on_allocator_meets, law_mutable; [done| |done]|].
  { cbn. destruct (list_live s bl toks x Hl); [by apply last_Some_elem_of|by eexists]. }
  intros r [b1 s1] [(Hw1 & Hnone & Hf1 & Hc1 & Hal1 & i & Hr1) Hb1]. cbn [fst snd] in *. subst b1.
  apply meets_get. cbn [fst snd]. pose proof (law_block_id s1 r _ Hw1 Hr1) as Hi. cbn in Hi.
  unfold on_list, BlockList.append, BlockList.add_block_id, meets, ids_now. cbn. rewrite Hi. cbn.
  fold bl. exists r. eexists. split; [done|]. cbn. split; [done|]. split; [done|].
  assert (Hrin : r ∉ BlockList.blocks bl).
  { intros Hin. destruct (list_live s bl toks r Hl Hin). congruence. }
  split; [|split; [done|split; [done|split; [by eexists|done]]]].
  pose proof (lo_room _ _ _ Hl) as Hroom.
  split; cbn [BlockList.blocks BlockList.block_ids].
  - by destruct (BlockList.blocks bl).
  - apply NoDup_app. split; [apply Hl|]. split; [|apply NoDup_singleton].
    intros q Hq ->%list_elem_of_singleton. done.
  - rewrite length_app. cbn. lia.
  - rewrite length_app. change (length [r]) with 1%nat.
    rewrite slots_grow by first [apply B_pos, bsz_pos|exact Hroom]. cbn [replicate].
    apply linked_app; [by rewrite slots_length|]. rewrite Hlast. split; [|split; [by exists i|done]].
    eapply linked_frame; [exact Hf1| |apply Hl]. by intros q Hq ->%list_elem_of_singleton.
  - apply (append_synced_at s1 bl r i); [|done]. eapply synced_frame; [|apply Hl]. intros q Hq.
    destruct (list_live s bl toks q Hl Hq) as [v Hv]. eapply ids_now_view; [done..|].
    apply Hf1. rewrite list_elem_of_singleton. by intros ->.
Qed.

Lemma append_blocks_ok {T} (l : list T) extra toks : forall (p : BlockTable.t R * S),
  wf p.2 -> list_ok p.2 (block_list p.1) toks -> Z.of_nat (length l) <= free_blocks p.2 ->
  meets (for_each l (fun _ => append_block extra)) p (fun _ p' => exists news bl,
    p'.1 = with_list p.1 bl /\ BlockList.blocks bl = blocks p.1 ++ news /\ length news = length l /\
    list_ok p'.2 bl toks /\ grows p.2 p'.2 [] news (Z.of_nat (length l)) /\
    (forall r, r ∈ news -> alone (view p'.2) r)).
Proof.
  induction l as [|x l IH]; intros [b s] Hs Hl Hfree; cbn [fst snd for_each] in *.
  { apply meets_ret. exists [], (block_list b). cbn. rewrite app_nil_r.
    split; [by destruct b|]. split; [done|]. split; [done|]. split; [done|].
    split; [split; [done|by intros r ?%elem_of_nil|done|lia]|by intros r ?%elem_of_nil]. }
  cbn [length] in Hfree.
  eapply meets_bind; [apply (append_block_ok (b, s) toks); [done|done|cbn; lia]|].
  intros [] [b1 s1] (r & bl & Hb1 & Hbl & Hw1 & Hl1 & Hnone & Hal & Hlive & Hf1 & Hc1).
  cbn [fst snd] in *. subst b1.
  eapply meets_weaken; [apply (IH (with_list b bl, s1)); [done|done|cbn [snd]; lia]|].
  intros [] [b2 s2] (news & bl2 & Hb2 & Hbl2 & Hlen & Hl2 & [Hw2 Hnew2 Hf2 Hc2] & Hal2).
  cbn [fst snd] in *. subst b2. exists (r :: news), bl2. split; [done|].
  assert (Hrn : r ∉ news).
  { intros Hin. specialize (Hnew2 r Hin). rewrite Hnew2 in Hlive. by destruct Hlive. }
  rewrite app_nil_l in Hf2.
  split; [|split; [cbn; congruence|split; [done|split; [split|]]]].
  - etransitivity; [exact Hbl2|]. unfold blocks at 1. cbn. rewrite Hbl. by rewrite <- app_assoc.
  - done.
  - intros q [->|Hq]%elem_of_cons; [done|]. specialize (Hnew2 q Hq).
    rewrite Hf1 in Hnew2; [done|]. rewrite list_elem_of_singleton. by intros ->.
  - eapply frame_mono; [eapply frame_trans; [exact Hf1|exact Hf2]|]. done.
  - cbn [length]. lia.
  - intros q [->|Hq]%elem_of_cons; [|by apply Hal2]. eapply alone_grows; [exact Hf2|exact Hnew2|done|exact Hal2|].
    by destruct Hlive.
Qed.

(** *** The chunks of [append_token_ids] *)

Lemma fits_chunks l : forall n, (n mod B = 0)%nat -> fits n (chunk_list l bsz).
Proof.
  pose proof bsz_pos as Hpos. induction l as [l IH] using (induction_ltof1 _ (@length _)). intros n Hn.
  destruct l as [|x l]; [by rewrite (chunk_list_nil bsz Hpos)|].
  rewrite (chunk_list_cons bsz Hpos) by done. cbn [fits].
  assert (Htake : length (take B (x :: l)) = (B `min` length (x :: l))%nat) by apply length_take.
  split; [intros E; rewrite E in Htake; cbn in Htake; lia|]. split; [lia|].
  destruct (drop B (x :: l)) as [|y l'] eqn:Hd.
  { rewrite (chunk_list_nil bsz Hpos). split; [by left|done]. }
  assert (HB : length (take B (x :: l)) = B).
  { pose proof (f_equal length Hd) as E. rewrite length_drop in E. cbn [length] in *. lia. }
  assert (H0 : ((n + length (take B (x :: l))) mod B = 0)%nat).
  { rewrite HB. replace (n + B)%nat with (n + 1 * B)%nat by lia. by rewrite Nat.Div0.mod_add. }
  split; [by right|]. rewrite <- Hd. apply IH; [|done]. unfold ltof. rewrite length_drop. cbn [length]. lia.
Qed.

Lemma first_chunk b toks :
  block_size b = bsz -> num_full_slots b = Z.of_nat (length toks) ->
  Z.to_nat (first_chunk_size b) = (B - length toks mod B)%nat.
Proof.
  intros H1 H2. pose proof bsz_pos. unfold first_chunk_size. rewrite H1, H2.
  rewrite <- (Z2Nat.id bsz) at 2 by lia. rewrite <- Nat2Z.inj_mod. lia.
Qed.

Lemma append_chunks_fit b toks new :
  block_size b = bsz -> num_full_slots b = Z.of_nat (length toks) ->
  let l := chunk_token_blocks_for_append b new in
  fits (length toks) l /\ concat l = new /\
  (new = [] /\ l = [] \/
   new <> [] /\ Z.of_nat (length l) = cdiv (Z.of_nat (length toks + length new)) bsz
                                      - Z.of_nat (length toks) / bsz).
Proof.
  intros H1 H2. pose proof bsz_pos as Hpos. cbv zeta. destruct new as [|x new]; [by repeat split; left|].
  unfold chunk_token_blocks_for_append. rewrite (first_chunk b toks H1 H2), H1.
  pose proof (Nat.mod_upper_bound (length toks) B ltac:(lia)) as Hmod.
  pose proof (Nat.div_mod_eq (length toks) B) as Hdm.
  set (n := (B - length toks mod B)%nat). set (l := x :: new).
  assert (Htake : length (take n l) = (n `min` length l)%nat) by apply length_take.
  assert (Hne : (0 < length l)%nat) by (cbn; lia).
  assert (Hq : Z.of_nat (length toks) / bsz = Z.of_nat (length toks / B)).
  { rewrite Nat2Z.inj_div. by rewrite Z2Nat.id by lia. }
  split; [|split; [|right; split; [done|]]].
  - cbn [fits]. split; [intros E; rewrite E in Htake; cbn [length] in Htake; lia|]. split; [lia|].
    destruct (drop n l) as [|y l'] eqn:Hd.
    { rewrite (chunk_list_nil bsz Hpos). split; [by left|done]. }
    assert (Hn : length (take n l) = n).
    { pose proof (f_equal length Hd) as E. rewrite length_drop in E. cbn [length] in E. lia. }
    assert (H0 : ((length toks + length (take n l)) mod B = 0)%nat).
    { rewrite Hn, Hdm. unfold n.
      replace (B * (length toks / B) + length toks mod B + (B - length toks mod B))%nat
        with (0 + (length toks / B + 1) * B)%nat by lia.
      rewrite Nat.Div0.mod_add. by rewrite Nat.Div0.mod_0_l. }
    split; [by right|]. by apply fits_chunks.
  - cbn [concat]. rewrite (chunk_list_concat bsz Hpos). apply take_drop.
  - cbn [length]. rewrite (chunk_list_slots bsz Hpos), slots_length, Hq, length_drop.
    pose proof (cdiv_spec (Z.of_nat (length l - n)) bsz Hpos).
    pose proof (cdiv_spec (Z.of_nat (length toks + length l)) bsz Hpos). nia.
Qed.

Lemma is_allocated_ok s b toks : table_ok s b toks -> is_allocated b = true.
Proof.
  intros [_ _ _ Hl]. unfold is_allocated, BlockList.len. pose proof (lo_blocks _ _ _ Hl) as Hne.
  destruct (BlockList.blocks (block_list b)); [done|]. apply Z.ltb_lt. cbn. lia.
Qed.

(** [ensure_num_empty_slots n]: enough blocks for [n] more tokens. *)
Lemma ensure_ok s b toks n extra :
  let k := cdiv (Z.of_nat (length toks) + n) bsz - Z.of_nat (length (blocks b)) in
  wf s -> table_ok s b toks -> k <= free_blocks s -> 0 <= free_blocks s ->
  meets (ensure_num_empty_slots n extra) (b, s) (fun _ p => exists news bl,
    p.1 = with_list b bl /\ BlockList.blocks bl = blocks b ++ news /\
    length news = Z.to_nat k /\ list_ok p.2 bl toks /\ grows s p.2 [] news (Z.max 0 k) /\
    (forall r, r ∈ news -> alone (view p.2) r)).
Proof.
  intros k Hs Hb Hk Hfree. pose proof bsz_pos as Hpos.
  pose proof (is_allocated_ok s b toks Hb) as Halloc. destruct Hb as [Hbs Hw Hfull Hl].
  unfold ensure_num_empty_slots. apply meets_get. apply meets_assert; [done|]. cbn [fst].
  eapply meets_lift; [unfold num_empty_slots; by rewrite Halloc|].
  rewrite Hfull, Hbs. unfold BlockList.len. fold (blocks b).
  pose proof (cdiv_spec (Z.of_nat (length toks) + n) bsz Hpos) as Hc.
  set (nb := Z.of_nat (length (blocks b))) in *.
  destruct (Z.leb_spec n (nb * bsz - Z.of_nat (length toks))) as [Hle|Hgt].
  - assert (k <= 0) by (unfold k; nia).
    apply meets_ret. exists [], (block_list b). rewrite app_nil_r. cbn [fst snd].
    split; [by destruct b|]. split; [done|]. split; [cbn; lia|]. split; [done|].
    split; [split; [done|by intros r ?%elem_of_nil|done|lia]|by intros r ?%elem_of_nil].
  - assert (Ek : cdiv (n - (nb * bsz - Z.of_nat (length toks))) bsz = k).
    { pose proof (cdiv_spec (n - (nb * bsz - Z.of_nat (length toks))) bsz Hpos). unfold k. nia. }
    rewrite Ek. assert (0 < k) by (unfold k; nia).
    assert (Hlen : length (seqZ 0 k) = Z.to_nat k) by apply length_seqZ.
    eapply meets_weaken; [apply (append_blocks_ok _ _ toks); cbn [fst snd]; [done|done|lia]|].
    intros [] p (news & bl & H1 & H2 & H3 & H4 & H5 & H6). exists news, bl.
    rewrite Hlen in H3, H5. split; [done|]. split; [done|]. split; [done|]. split; [done|].
    split; [|done]. destruct H5 as [? ? ? ?]. split; [done..|]. cbn [snd] in *. lia.
Qed.

Lemma touched_cdiv s b toks new la :
  table_ok s b toks ->
  touched b new la = cdiv (Z.of_nat (length toks + length new) + la) bsz
                     - Z.of_nat (length toks / B).
Proof.
  intros [Hbs _ Hfull _]. pose proof bsz_pos as Hpos.
  unfold touched, get_num_blocks_touched_by_append_slots, first_chunk_size. rewrite Hbs, Hfull.
  pose proof (Z.div_mod (Z.of_nat (length toks)) bsz ltac:(lia)) as Hdm.
  assert (Hq : Z.of_nat (length toks) / bsz = Z.of_nat (length toks / B)).
  { rewrite Nat2Z.inj_div. by rewrite Z2Nat.id by lia. }
  rewrite <- Hq. set (q := Z.of_nat (length toks) / bsz) in *.
  set (m := Z.of_nat (length toks) mod bsz) in *.
  pose proof (cdiv_spec (Z.of_nat (length new) + la - (bsz - m)) bsz Hpos).
  pose proof (cdiv_spec (Z.of_nat (length toks + length new) + la) bsz Hpos). nia.
Qed.

Lemma touched_nonneg s b toks new la : table_ok s b toks -> 0 <= la -> 0 <= touched b new la.
Proof.
  intros Hb Hla. rewrite (touched_cdiv s b toks new la Hb). pose proof bsz_pos as Hpos.
  pose proof (cdiv_spec (Z.of_nat (length toks + length new) + la) bsz Hpos) as HT.
  pose proof (Nat.div_mod_eq (length toks) B) as Hdm.
  pose proof (Nat.mod_upper_bound (length toks) B ltac:(lia)). nia.
Qed.

(** Appending takes at most the blocks that
    [get_num_blocks_touched_by_append_slots] announces. *)
Lemma table_append_ok s b toks new la ncs extra :
  wf s -> table_ok s b toks -> 0 <= la -> touched b new la <= free_blocks s ->
  meets (append_token_ids new la ncs extra) (b, s) (fun _ p =>
    table_ok p.2 p.1 (toks ++ new) /\
    exists news, blocks p.1 = blocks b ++ news /\
      grows s p.2 (blocks b) news (touched b new la)).
Proof.
  intros Hs Hb Hla Hfree. pose proof bsz_pos as Hpos.
  pose proof (touched_cdiv s b toks new la Hb) as Htouch. pose proof (law_free_nonneg s Hs) as Hfree0.
  pose proof (is_allocated_ok s b toks Hb) as Halloc. pose proof Hb as [Hbs Hw Hfull Hl].
  pose proof (Nat.div_mod_eq (length toks) B) as Hdm.
  pose proof (Nat.mod_upper_bound (length toks) B ltac:(lia)) as Hmod.
  pose proof (lo_room _ _ _ Hl) as Hroom. fold (blocks b) in Hroom.
  pose proof (cdiv_spec (Z.of_nat (length toks + length new) + la) bsz Hpos) as HT.
  pose proof (cdiv_spec (Z.of_nat (length toks + length new)) bsz Hpos) as HT0.
  unfold append_token_ids. apply meets_get. cbn [fst]. apply meets_assert; [done|].
  rewrite Hw. eapply meets_step; [reflexivity|].
  eapply meets_bind; [eapply (ensure_ok s b toks); [done|done| |done]|].
  { rewrite Z.add_assoc, <- Nat2Z.inj_add. nia. }
  intros [] [b1 s1] (news & bl & Hb1 & Hbl & Hlen & Hl1 & [Hw1 Hnew1 Hf1 Hc1] & Hal1).
  cbn [fst snd] in *. subst b1. rewrite Z.add_assoc, <- Nat2Z.inj_add in Hlen, Hc1.
  apply meets_get. cbn [fst num_full_slots block_size with_list].
  destruct (append_chunks_fit (with_list b bl) toks new Hbs Hfull) as (Hfit & Hcat & Hchunks).
  set (l := chunk_token_blocks_for_append (with_list b bl) new) in *.
  assert (Hq : Z.of_nat (length toks) / bsz = Z.of_nat (length toks / B)).
  { rewrite Nat2Z.inj_div. by rewrite Z2Nat.id by lia. }
  rewrite Hfull, Hbs, Hq, Nat2Z.id. rewrite Hq in Hchunks.
  set (q := (length toks / B)%nat) in *.
  set (T := cdiv (Z.of_nat (length toks + length new) + la) bsz) in *.
  assert (Hqn : (q <= length (blocks b))%nat) by nia.
  assert (Hcost : Z.max 0 (T - Z.of_nat (length (blocks b)))
    + Z.of_nat (length l `min` (length (blocks b) - q)) <= touched b new la).
  { rewrite Htouch. destruct Hchunks as [[_ ->]|[_ Hchunks]]; cbn [length]; nia. }
  eapply meets_bind.
  { apply (append_chunks_ok l (with_list b bl, s1) toks (length (blocks b))); cbn [fst snd]; try done.
    - rewrite Hcat. unfold blocks at 1. cbn. rewrite Hbl, length_app, Hlen. nia.
    - unfold blocks at 2. cbn. rewrite Hbl. intros n r Hn _ Hr.
      rewrite lookup_app_r in Hr by done. apply Hal1. by eapply list_elem_of_lookup_2.
    - fold q. lia. }
  intros [] [b2 s2] (Hw2 & (l2 & Hb2 & Hbl2 & Hl2) & Hf2 & Hc2). cbn [fst snd] in *. subst b2.
  rewrite Hcat in Hl2. fold q in Hc2.
  assert (Hblocks : BlockList.blocks l2 = blocks b ++ news) by (etransitivity; [exact Hbl2|exact Hbl]).
  split; cbn [fst snd].
  - split; cbn; [done|done| |done]. rewrite Hfull, length_app. lia.
  - exists news. split; [done|]. split; [done|done| |lia].
    unfold blocks in Hf2 at 1. cbn in Hf2. rewrite Hbl in Hf2.
    eapply frame_mono; [eapply frame_trans; [exact Hf1|exact Hf2]|].
    intros x. rewrite !elem_of_app, elem_of_nil. tauto.
Qed.

(** *** [fork] and [free] *)

Lemma num_token_ids_linked s l : forall prev contents n,
  wf s -> linked (view s) prev l contents ->
  foldl (fun res r => res + Z.of_nat (length (token_ids_of r s))) n l
  = n + Z.of_nat (length (concat contents)).
Proof.
  induction l as [|r l IH]; intros prev [|c contents] n Hs; cbn [linked]; try done; [cbn; lia|].
  intros [[i Hr] Hl]. cbn [foldl concat]. rewrite (IH _ _ _ Hs Hl).
  rewrite (law_token_ids s r _ Hs Hr). cbn [bv_tokens]. rewrite length_app. lia.
Qed.

Lemma linked_tokens s l : forall prev contents,
  wf s -> linked (view s) prev l contents -> map (fun r => token_ids_of r s) l = contents.
Proof.
  induction l as [|r l IH]; intros prev [|c contents] Hs; cbn [linked map]; try done.
  intros [[i Hr] Hl]. rewrite (IH _ _ Hs Hl). by rewrite (law_token_ids s r _ Hs Hr).
Qed.

(** The tokens of the table's blocks, read off the blocks, are the sequence's. *)
Lemma all_token_ids_ok s b toks : wf s -> table_ok s b toks -> get_all_token_ids b s = toks.
Proof.
  intros Hs [_ _ _ Hl]. unfold get_all_token_ids, blocks.
  rewrite (linked_tokens _ _ _ _ Hs (lo_linked _ _ _ Hl)).
  apply slots_concat; [apply B_pos, bsz_pos|apply Hl].
Qed.

Lemma table_fork_ok s b toks :
  wf s -> table_ok s b toks ->
  meets (fork b) s (fun b' s' => table_ok s' b' toks /\ grows s s' [] (blocks b') 0).
Proof.
  intros Hs [Hbs Hw Hfull Hl]. unfold fork, blocks. set (bl := block_list b) in *.
  destruct (last (BlockList.blocks bl)) as [r|] eqn:Hlast.
  2: { apply last_None in Hlast. by destruct (lo_blocks _ _ _ Hl). }
  eapply meets_bind; [by eapply law_fork; [|apply Hl|apply Hl|]|].
  intros qs s1 (Hw1 & Hnd & Hnew & Hf & Hfree & Hlinked). apply meets_get.
  pose proof (linked_length _ _ _ _ Hlinked) as Hlen. rewrite slots_length in Hlen.
  pose proof (num_token_ids_linked s1 qs None _ 0 Hw1 Hlinked) as Hnum.
  rewrite slots_concat, Z.add_0_l in Hnum by first [apply B_pos, bsz_pos|apply Hl].
  unfold init, get_num_token_ids. rewrite Hnum.
  pose proof (update_meets (ids_now s1) qs BlockList.reset) as Hup. unfold meets in Hup |- *.
  destruct (BlockList.update _ _ _) as [[[]|e] bl']; [|exfalso; apply Hup; intros q Hq; by eapply linked_ids].
  destruct Hup as [Hsync Hbl']; [intros q Hq; by eapply linked_ids|]. cbn.
  split; [split; cbn; [done|done|done|split]|split]; unfold blocks; cbn; rewrite ?Hbl'; try done.
  - intros ->. cbn in Hlen. apply (lo_blocks _ _ _ Hl). by apply length_zero_iff_nil.
  - rewrite Hlen. apply Hl.
  - by rewrite Hlen.
  - lia.
Qed.

Lemma table_free_all_ok l : forall s,
  wf s -> NoDup l -> (forall r, r ∈ l -> exists v, view s r = Some v) ->
  meets (for_each l free_block) s (fun _ s' =>
    wf s' /\ frame (view s) (view s') l /\ (forall r, r ∈ l -> view s' r = None) /\
    free_blocks s <= free_blocks s').
Proof.
  induction l as [|r l IH]; intros s Hs Hnd Hl; cbn [for_each].
  { apply meets_ret. split; [done|]. split; [done|]. split; [by intros r ?%elem_of_nil|lia]. }
  apply NoDup_cons in Hnd as [Hr Hnd]. destruct (Hl r) as [v Hv]; [left|].
  eapply meets_bind; [by eapply law_free|]. intros [] s1 (Hw1 & Hnone & Hf1 & Hc1).
  eapply meets_weaken; [apply IH; [done|done|]|].
  - intros q Hq. rewrite Hf1; [apply Hl; by right|]. rewrite list_elem_of_singleton. by intros ->.
  - intros [] s2 (Hw2 & Hf2 & Hn2 & Hc2). split; [done|]. split; [|split; [|lia]].
    + by apply (frame_trans (view s) (view s1) (view s2) [r] l).
    + intros q [->|Hq]%elem_of_cons; [|by apply Hn2]. by rewrite Hf2.
Qed.

Lemma table_free_ok s b toks :
  wf s -> table_ok s b toks ->
  meets (free (R := R)) (b, s) (fun _ p =>
    p.1 = with_list b BlockList.reset /\ wf p.2 /\ frame (view s) (view p.2) (blocks b) /\
    (forall r, r ∈ blocks b -> view p.2 r = None) /\ free_blocks s <= free_blocks p.2).
Proof.
  intros Hs Hb. unfold free. apply meets_get. cbn [fst].
  eapply meets_bind; [apply on_allocator_meets, table_free_all_ok; [done|apply Hb|]|].
  { intros r Hr. by eapply table_live. }
  intros [] [b1 s1] [(Hw1 & Hf1 & Hn1 & Hc1) Hb1]. cbn in *. subst b1. done.
Qed.
End Correct.
