(* ===== verification/PrefixCaching.v ===== *)
(** * The prefix-caching allocator ([vllm/core/block/prefix_caching_block.py])

    [BlockTracker], [PrefixCachingBlock] and [PrefixCachingBlockAllocator].  A
    block object is referred to by its pool id; its fields, those of the
    [NaiveBlock] inside it included, are a [block] in the allocator's object
    pool.  The allocator is generic in the eviction policy: it uses it through
    [Evictor] and, for the methods the code looks up with [hasattr], through
    [EvictorHooks].  The hash of Python tuples is a parameter. *)
From S2P Require Import Prelude.
From S2P Require Import PyDict.
From S2P Require Import EvictorBase.
From S2P Require Import BlockCommon.
From S2P Require Import NaiveBlock.

(** The optional methods of a policy; [None] when the class lacks the method. *)
Class EvictorHooks (E : Type) : Type := {
  hook_set_capacity : option (Z -> M E unit);
  hook_should_predict_cache_hint : option (E -> bool);
  hook_should_record_post_warmup_metric : option (E -> bool);
  hook_should_observe_cache_accesses : option (E -> bool);
  hook_observe_cache_accesses : option (list Z -> option cache_hint -> list bool -> M E unit);
  hook_observe_cache_access : option (Z -> option cache_hint -> bool -> M E unit)
}.

(** The optional methods never change which blocks the policy holds. *)
Class EvictorHooksLaws (E : Type) `{!Evictor E} `{!EvictorHooks E} (ev_wf : E -> Prop) : Prop := {
  law_set_capacity : forall f c e,
    hook_set_capacity = Some f -> ev_wf e ->
    ev_wf (f c e).2 /\ forall j, ev_blocks (f c e).2 j = ev_blocks e j;
  law_observe_batch : forall f hs c hits e,
    hook_observe_cache_accesses = Some f -> ev_wf e ->
    ev_wf (f hs c hits e).2 /\ forall j, ev_blocks (f hs c hits e).2 j = ev_blocks e j;
  law_observe_one : forall f h c hit e,
    hook_observe_cache_access = Some f -> ev_wf e ->
    ev_wf (f h c hit e).2 /\ forall j, ev_blocks (f h c hit e).2 j = ev_blocks e j
}.

(** ** [BlockTracker] *)

Module BlockTracker.

Definition DEFAULT_LAST_ACCESSED_TIME : Q := (-1)%Q.

Record t : Type := BlockTracker {
  active : bool;
  last_accessed : Q;
  computed : bool;
  tracked_hint : option cache_hint
}.

Definition reset (s : t) : t := BlockTracker (active s) DEFAULT_LAST_ACCESSED_TIME false None.
Definition init : t := BlockTracker false DEFAULT_LAST_ACCESSED_TIME false None.

Definition enable : M t unit := fun s =>
  if active s then (Err AssertionError, s)
  else (Ok tt, reset (BlockTracker true (last_accessed s) (computed s) (tracked_hint s))).

Definition disable : M t unit := fun s =>
  if active s
  then (Ok tt, reset (BlockTracker false (last_accessed s) (computed s) (tracked_hint s)))
  else (Err AssertionError, s).

Definition set_computed (c : bool) (s : t) : t :=
  BlockTracker (active s) (last_accessed s) c (tracked_hint s).

Definition set_prob (h : cache_hint) (p : Q) : cache_hint :=
  CacheHint (ch_id h) (ch_turns h) (ch_seq_id h) (ch_use_lru h) (ch_use_rrip h)
    (ch_use_fifo h) (ch_scheduler_policy h) (ch_next_timestamp h) (Some p) (ch_exp_scale h).

Section Overwrite.
Variable np_exp : Q -> Q.

Definition key_of {A} (o : option A) : result A := from_option_exn KeyError o.

(** The hint [overwrite_block_metadata] keeps. *)
Definition merged_hint (s : t) (la : Q) (new : option cache_hint) : result (option cache_hint) :=
  match tracked_hint s with
  | None => Ok new
  | Some old =>
      old_id ← key_of (ch_id old);
      match new with
      | None => Err TypeError
      | Some c =>
          new_id ← key_of (ch_id c);
          if old_id =? new_id then
            old_turns ← key_of (ch_turns old);
            new_turns ← key_of (ch_turns c);
            Ok (if old_turns <? new_turns then Some c else Some old)
          else
            match ch_next_timestamp c with
            | Some new_next =>
                old_next ← key_of (ch_next_timestamp old);
                Ok (if Qltb old_next new_next then Some c else Some old)
            | None =>
                prob ← key_of (ch_prob_has_next old);
                scale ← key_of (ch_exp_scale old);
                let p := probability_of_future_arrival np_exp prob scale (la - last_accessed s) in
                new_prob ← key_of (ch_prob_has_next c);
                Ok (Some (if Qltb new_prob p then set_prob c p else c))
            end
      end
  end.

Definition overwrite_block_metadata (la : Q) (new : option cache_hint) : M t unit := fun s =>
  match merged_hint s la new with
  | Err e => (Err e, s)
  | Ok h => (Ok tt, BlockTracker (active s) la (computed s) h)
  end.
End Overwrite.
End BlockTracker.

(** ** [bisect_left] with a key that may raise, looking for [True] *)

Section Bisect.
Context {A : Type}.
Variable key : A -> result bool.

Fixpoint bisect_loop (fuel : nat) (l : list A) (lo hi : nat) : result nat :=
  if decide (lo < hi)%nat then
    match fuel with
    | O => Err OutOfFuel
    | S fuel' =>
        let mid := Nat.div2 (lo + hi) in
        match l !! mid with
        | None => Err IndexError
        | Some x =>
            k ← key x;
            if k : bool then bisect_loop fuel' l lo mid else bisect_loop fuel' l (S mid) hi
        end
    end
  else Ok lo.

Definition bisect_left_true (l : list A) : result nat := bisect_loop (length l) l 0 (length l).
End Bisect.

(** [os.path.commonprefix] of lists. *)
Fixpoint common2 (a b : list Z) : list Z :=
  match a, b with
  | x :: a', y :: b' => if x =? y then x :: common2 a' b' else []
  | _, _ => []
  end.
Definition commonprefix (ls : list (list Z)) : list Z :=
  match ls with
  | [] => []
  | l :: ls' => foldl common2 l ls'
  end.

(** ** Blocks and their allocator *)

Module Prefix.

Record block : Type := PrefixCachingBlock {
  prev_block : option Z;
  token_ids : list Z;
  block_size : Z;
  block_id : option Z;
  computed : bool;
  extra_hash : option Z;
  cached_content_hash : option Z;
  cached_num_tokens_total : Z
}.

Definition num_empty_slots (o : block) : Z := block_size o - Z.of_nat (length (token_ids o)).
Definition is_full (o : block) : bool := num_empty_slots o =? 0.

Definition set_block_id (o : block) (b : option Z) : block :=
  PrefixCachingBlock (prev_block o) (token_ids o) (block_size o) b (computed o) (extra_hash o)
    (cached_content_hash o) (cached_num_tokens_total o).
Definition set_computed (o : block) (c : bool) : block :=
  PrefixCachingBlock (prev_block o) (token_ids o) (block_size o) (block_id o) c (extra_hash o)
    (cached_content_hash o) (cached_num_tokens_total o).
Definition set_hash (o : block) (h : Z) : block :=
  PrefixCachingBlock (prev_block o) (token_ids o) (block_size o) (block_id o) (computed o)
    (extra_hash o) (Some h) (cached_num_tokens_total o).
Definition set_tokens (o : block) (toks : list Z) : block :=
  PrefixCachingBlock (prev_block o) toks (block_size o) (block_id o) (computed o)
    (extra_hash o) (cached_content_hash o) (cached_num_tokens_total o).
Definition set_total (o : block) (n : Z) : block :=
  PrefixCachingBlock (prev_block o) (token_ids o) (block_size o) (block_id o) (computed o)
    (extra_hash o) (cached_content_hash o) n.

Definition blank (bs : Z) : block := PrefixCachingBlock None [] bs None false None None 0.

(** [_append_token_ids_no_cow] of the inner [NaiveBlock]. *)
Definition append_token_ids_no_cow (toks : list Z) (o : block) : result unit * block :=
  match toks with
  | [] => (Ok tt, o)
  | _ =>
      if Z.of_nat (length toks) <=? num_empty_slots o
      then (Ok tt, set_tokens o (token_ids o ++ toks))
      else (Err AssertionError, o)
  end.

(** [_update_num_tokens_total], given the predecessor's total. *)
Definition num_tokens_total (prev_total : Z) (o : block) : Z :=
  prev_total + Z.of_nat (length (token_ids o)).
Definition prev_total (objs : gmap Z block) (prev : option Z) : Z :=
  match prev with
  | None => 0
  | Some p => default 0 (cached_num_tokens_total <$> objs !! p)
  end.

(** [__init__] on an existing object. *)
Definition reinit (total : Z) (prev : option Z) (toks : list Z) (bs : Z) (b extra : option Z)
    (_ : block) : result unit * block :=
  let '(r, o) := append_token_ids_no_cow toks
                   (PrefixCachingBlock prev [] bs b false extra None 0) in
  match r with
  | Err e => (Err e, o)
  | Ok _ => (Ok tt, set_total o (num_tokens_total total o))
  end.

Section Allocator.
Context {E : Type} `{!Evictor E} `{!EvictorHooks E}.
(** [hash] of the tuple [(is_first_block, prev_block_hash, *tokens, extra_hash)]. *)
Variable py_hash : bool * option Z * list Z * option Z -> Z.
(** [hash('None')] *)
Variable none_hash : Z.
Variable np_exp : Q -> Q.
(** [make_evictor(eviction_algorithm, eviction_algorithm_config)] *)
Variable make_evictor : result E.

Definition hash_block_tokens (is_first_block : bool) (prev_block_hash : option Z)
    (toks : list Z) (extra : option Z) : Z :=
  let prev := if is_first_block && bool_decide (prev_block_hash = None)
              then Some none_hash else prev_block_hash in
  py_hash (is_first_block, prev, toks, extra).

Record t : Type := PrefixCachingBlockAllocator {
  pool : BlockPool.t block;
  ids : Ids.t;
  bsize : Z;
  cached_blocks : gmap Z Z;
  touched_blocks : gset Z;
  block_tracker : gmap Z BlockTracker.t;
  evictor : E;
  cow : Cow.t;
  block_table : gmap Z Z;
  metric_data : Metric.t;
  scheduler_post_warmup_metric_data : Metric.t
}.

Definition with_pool (s : t) x : t :=
  PrefixCachingBlockAllocator x (ids s) (bsize s) (cached_blocks s) (touched_blocks s)
    (block_tracker s) (evictor s) (cow s) (block_table s) (metric_data s)
    (scheduler_post_warmup_metric_data s).
Definition with_ids (s : t) x : t :=
  PrefixCachingBlockAllocator (pool s) x (bsize s) (cached_blocks s) (touched_blocks s)
    (block_tracker s) (evictor s) (cow s) (block_table s) (metric_data s)
    (scheduler_post_warmup_metric_data s).
Definition with_cached (s : t) x : t :=
  PrefixCachingBlockAllocator (pool s) (ids s) (bsize s) x (touched_blocks s)
    (block_tracker s) (evictor s) (cow s) (block_table s) (metric_data s)
    (scheduler_post_warmup_metric_data s).
Definition with_touched (s : t) x : t :=
  PrefixCachingBlockAllocator (pool s) (ids s) (bsize s) (cached_blocks s) x
    (block_tracker s) (evictor s) (cow s) (block_table s) (metric_data s)
    (scheduler_post_warmup_metric_data s).
Definition with_tracker (s : t) x : t :=
  PrefixCachingBlockAllocator (pool s) (ids s) (bsize s) (cached_blocks s) (touched_blocks s)
    x (evictor s) (cow s) (block_table s) (metric_data s)
    (scheduler_post_warmup_metric_data s).
Definition with_evictor (s : t) x : t :=
  PrefixCachingBlockAllocator (pool s) (ids s) (bsize s) (cached_blocks s) (touched_blocks s)
    (block_tracker s) x (cow s) (block_table s) (metric_data s)
    (scheduler_post_warmup_metric_data s).
Definition with_cow (s : t) x : t :=
  PrefixCachingBlockAllocator (pool s) (ids s) (bsize s) (cached_blocks s) (touched_blocks s)
    (block_tracker s) (evictor s) x (block_table s) (metric_data s)
    (scheduler_post_warmup_metric_data s).
Definition with_table (s : t) x : t :=
  PrefixCachingBlockAllocator (pool s) (ids s) (bsize s) (cached_blocks s) (touched_blocks s)
    (block_tracker s) (evictor s) (cow s) x (metric_data s)
    (scheduler_post_warmup_metric_data s).
Definition with_metrics (s : t) x y : t :=
  PrefixCachingBlockAllocator (pool s) (ids s) (bsize s) (cached_blocks s) (touched_blocks s)
    (block_tracker s) (evictor s) (cow s) (block_table s) x y.

Definition on_ids {A} (f : M Ids.t A) : M t A := fun s =>
  let '(r, i) := f (ids s) in (r, with_ids s i).
Definition on_cow {A} (f : M Cow.t A) : M t A := fun s =>
  let '(r, c) := f (cow s) in (r, with_cow s c).
Definition on_evictor {A} (f : M E A) : M t A := fun s =>
  let '(r, e) := f (evictor s) in (r, with_evictor s e).
(** [self._block_tracker[b].f()] *)
Definition on_tracker {A} (b : Z) (f : M BlockTracker.t A) : M t A := fun s =>
  match block_tracker s !! b with
  | None => (Err KeyError, s)
  | Some k => let '(r, k') := f k in (r, with_tracker s (<[b := k']> (block_tracker s)))
  end.

Definition objs (s : t) : gmap Z block := BlockPool.objs (pool s).

Definition obj (p : Z) : M t block := fun s => (from_option_exn AttributeError (objs s !! p), s).
Definition put (p : Z) (o : block) : M t unit :=
  modify (fun s => with_pool s (BlockPool.set_obj p o (pool s))).
Definition assign_block_id (p : Z) (b : option Z) : M t unit :=
  o ← obj p; put p (set_block_id o b).

Definition init_block (prev : option Z) (toks : list Z) (b extra : option Z) : M t Z := fun s =>
  let '(r, q) := BlockPool.init_block (blank (bsize s))
                   (reinit (prev_total (objs s) prev) prev toks (bsize s) b extra) (pool s) in
  (r, with_pool s q).
Definition free_object (p : Z) : M t unit :=
  modify (fun s => with_pool s (BlockPool.free_block p (pool s))).

(** [__init__] *)
Definition init (num_blocks bs : Z) (block_ids : option (list Z)) : result t :=
  let all := default (seqZ 0 num_blocks) block_ids in
  p ← BlockPool.init (blank bs) (num_blocks * 4);
  i ← Ids.init num_blocks block_ids;
  e ← make_evictor;
  let e' := match hook_set_capacity with Some f => f num_blocks e | None => (Ok tt, e) end in
  _ ← e'.1;
  Ok (PrefixCachingBlockAllocator p i bs ∅ ∅
        (foldr (fun b m => <[b := BlockTracker.init]> m) ∅ all)
        e'.2 [] ∅ Metric.init Metric.init).

(** *** [PrefixCachingBlock.content_hash]: computed once, then remembered *)
Fixpoint content_hash_rec (fuel : nat) (p : Z) : M t (option Z) :=
  match fuel with
  | O => raise OutOfFuel
  | S fuel' =>
      o ← obj p;
      match cached_content_hash o with
      | Some h => mret (Some h)
      | None =>
          if is_full o then
            prev_block_hash ← match prev_block o with
                              | None => mret (Some none_hash)
                              | Some q => content_hash_rec fuel' q
                              end;
            let is_first_block := bool_decide (prev_block o = None) in
            if bool_decide (prev_block_hash = Some none_hash) && negb is_first_block
            then mret None
            else
              let h := hash_block_tokens is_first_block prev_block_hash (token_ids o)
                         (extra_hash o) in
              put p (set_hash o h) ;;
              mret (Some h)
          else mret None
      end
  end.

Definition content_hash (p : Z) : M t (option Z) :=
  s ← get; content_hash_rec (S (size (objs s))) p.

(** *** Tracking *)
Definition track_block_id (b : Z) (computed : bool) : M t unit :=
  on_tracker b (BlockTracker.enable ;; modify (BlockTracker.set_computed computed)).
Definition untrack_block_id (b : Z) : M t unit := on_tracker b BlockTracker.disable.

(** *** Taking a physical block *)
Definition catch_no_free {A} (m : M t A) : M t (option A) := fun s =>
  match m s with
  | (Ok a, s') => (Ok (Some a), s')
  | (Err e, s') => if decide (e = NoFreeBlocksError) then (Ok None, s') else (Err e, s')
  end.

Definition maybe_allocate_hashless_block_id : M t (option Z) :=
  catch_no_free (
    b0 ← on_ids Ids.allocate_block_id;
    p ← init_block None [] (Some b0) None;
    o ← obj p;
    free_object p ;;
    match block_id o with
    | None => raise AssertionError
    | Some b => track_block_id b false ;; mret b
    end).

(** The [while len(self._cached_blocks)] loop; each round takes a block out of
    the evictor, so its size bounds the rounds.  [last] is the block the name
    [block_id] is bound to. *)
Fixpoint evict_loop (fuel : nat) (last : option Z) : M t Z :=
  s ← get;
  if bool_decide (cached_blocks s = ∅) then
    match last with
    | Some b => mret b
    | None => raise UnboundLocalError
    end
  else
    match fuel with
    | O => raise OutOfFuel
    | S fuel' =>
        '(b, h) ← on_evictor ev_evict;
        s ← get;
        match cached_blocks s !! h with
        | None => evict_loop fuel' (Some b)
        | Some b' =>
            if bool_decide (b' = b) then
              c ← lift (RefCounter.get b' (Ids.refcounts (ids s)));
              if c =? 0 then
                modify (fun s => with_cached s (delete h (cached_blocks s))) ;;
                mret b
              else evict_loop fuel' (Some b)
            else evict_loop fuel' (Some b)
        end
    end.

Definition maybe_allocate_evicted_block_id : M t (option Z) :=
  s ← get;
  if ev_num_blocks (evictor s) =? 0 then mret None
  else
    b ← evict_loop (S (length (items (ev_table (evictor s))))) None;
    on_ids (Ids.counting (RefCounter.incr b)) ;;
    track_block_id b false ;;
    mret (Some b).

Definition allocate_block_id : M t Z :=
  r ← maybe_allocate_hashless_block_id;
  match r with
  | Some b => mret b
  | None =>
      r ← maybe_allocate_evicted_block_id;
      match r with
      | Some b => mret b
      | None => raise NoFreeBlocksError
      end
  end.

Definition allocate_mutable_block (prev extra : option Z) : M t Z :=
  b ← allocate_block_id;
  p ← init_block prev [] (Some b) extra;
  o ← obj p;
  assert_ (negb (computed o)) ;;
  h ← content_hash p;
  assert_ (bool_decide (h = None)) ;;
  mret p.

(** *** Reference counts *)
Definition incr_refcount_cached_block (p : Z) : M t unit :=
  o ← obj p;
  put p (set_computed o true) ;;
  match block_id o with
  | None => raise AssertionError
  | Some b =>
      c ← on_ids (Ids.counting (RefCounter.incr b));
      if c =? 1 then
        s ← get;
        (if ev_contains (evictor s) b then on_evictor (ev_remove b) else mret tt) ;;
        track_block_id b true
      else mret tt
  end.

Definition decr_refcount_cached_block (p : Z) : M t unit :=
  h ← content_hash p;
  match h with
  | None => raise AssertionError
  | Some h =>
      o ← obj p;
      match block_id o with
      | None => raise AssertionError
      | Some b =>
          c ← on_ids (Ids.counting (RefCounter.decr b));
          if 0 <? c then assign_block_id p None
          else
            assert_ (c =? 0) ;;
            s ← get;
            assert_ (bool_decide (is_Some (cached_blocks s !! h))) ;;
            k ← lift (from_option_exn KeyError (block_tracker s !! b));
            on_evictor (ev_add b h (cached_num_tokens_total o)
                          (BlockTracker.last_accessed k) (BlockTracker.tracked_hint k)) ;;
            untrack_block_id b ;;
            assign_block_id p None
      end
  end.

Definition decr_refcount_hashless_block (p : Z) : M t unit :=
  o ← obj p;
  match block_id o with
  | None => raise AssertionError
  | Some b =>
      s ← get;
      c ← lift (RefCounter.get b (Ids.refcounts (ids s)));
      (if c =? 1 then untrack_block_id b else mret tt) ;;
      (* NaiveBlockAllocator.free(block, keep_block_object=True) *)
      assign_block_id p None ;;
      on_ids (Ids.free_block_id b)
  end.

(** [_free_block_id] *)
Definition free_block_id (p : Z) : M t unit :=
  o ← obj p;
  match block_id o with
  | None => raise AssertionError
  | Some _ =>
      h ← content_hash p;
      match h with
      | Some _ => decr_refcount_cached_block p
      | None => decr_refcount_hashless_block p
      end ;;
      o' ← obj p;
      assert_ (bool_decide (block_id o' = None))
  end.

Definition free (p : Z) (keep_block_object : bool) : M t unit :=
  free_block_id p ;;
  if keep_block_object then mret tt else free_object p.

(** *** Appending, copy-on-write and promotion *)

(** Called with the inner [NaiveBlock] as the copy-on-write target: it has no
    content hash, so [_free_block_id] takes the hashless branch. *)
Definition cow_block_if_not_appendable (p : Z) : M t Z :=
  o ← obj p;
  match block_id o with
  | None => raise AssertionError
  | Some src =>
      s ← get;
      ok ← lift (Cow.is_appendable (Ids.refcounts (ids s)) (Some src));
      if ok : bool then mret src
      else
        decr_refcount_hashless_block p ;;
        trg ← allocate_block_id;
        on_cow (Cow.record_cow (Some src) (Some trg)) ;;
        mret trg
  end.

(** [self._block.append_token_ids] *)
Definition inner_append_token_ids (p : Z) (toks : list Z) : M t unit :=
  o ← obj p;
  match append_token_ids_no_cow toks o with
  | (Err e, _) => raise e
  | (Ok _, o1) =>
      put p o1 ;;
      match block_id o1 with
      | None => mret tt
      | Some _ => b ← cow_block_if_not_appendable p; assign_block_id p (Some b)
      end
  end.

Definition update_num_tokens_total (p : Z) : M t unit :=
  o ← obj p;
  s ← get;
  put p (set_total o (num_tokens_total (prev_total (objs s) (prev_block o)) o)).

Definition promote_to_immutable_block (p : Z) : M t Z :=
  h ← content_hash p;
  o ← obj p;
  match h, block_id o with
  | Some h, Some b =>
      s ← get;
      c ← lift (RefCounter.get b (Ids.refcounts (ids s)));
      assert_ (0 <? c) ;;
      match cached_blocks s !! h with
      | None =>
          modify (fun s =>
            with_touched
              (with_cached (with_table s (<[b := p]> (block_table s)))
                 (<[h := b]> (cached_blocks s)))
              ({[b]} ∪ touched_blocks s)) ;;
          mret b
      | Some b' =>
          decr_refcount_hashless_block p ;;
          assign_block_id p (Some b') ;;
          incr_refcount_cached_block p ;;
          mret b'
      end
  | _, _ => raise AssertionError
  end.

(** [PrefixCachingBlock.append_token_ids] *)
Definition append_token_ids (p : Z) (toks : list Z) : M t unit :=
  h ← content_hash p;
  assert_ (bool_decide (h = None)) ;;
  o ← obj p;
  assert_ (negb (computed o)) ;;
  match toks with
  | [] => mret tt
  | _ =>
      inner_append_token_ids p toks ;;
      update_num_tokens_total p ;;
      h ← content_hash p;
      match h with
      | None => mret tt
      | Some _ => b ← promote_to_immutable_block p; assign_block_id p (Some b)
      end
  end.

(** *** Immutable blocks *)
Definition query_metrics (hit : bool) : M t unit :=
  modify (fun s =>
    let m := Metric.query hit (metric_data s) in
    let m' := match hook_should_record_post_warmup_metric with
              | Some f => if f (evictor s)
                          then Metric.query hit (scheduler_post_warmup_metric_data s)
                          else scheduler_post_warmup_metric_data s
              | None => scheduler_post_warmup_metric_data s
              end in
    with_metrics s m m').

Definition allocate_immutable_block (prev : option Z) (toks : list Z) (extra : option Z) : M t Z :=
  p ← init_block prev toks None extra;
  h ← content_hash p;
  match h with
  | None => raise AssertionError
  | Some h =>
      s ← get;
      match cached_blocks s !! h with
      | Some b =>
          _ ← lift (from_option_exn KeyError (block_table s !! b));
          query_metrics true ;;
          assign_block_id p (Some b) ;;
          incr_refcount_cached_block p ;;
          mret p
      | None =>
          query_metrics false ;;
          free_object p ;;
          q ← allocate_mutable_block prev extra;
          append_token_ids q toks ;;
          mret q
      end
  end.

Fixpoint allocate_immutable_blocks (prev : option Z) (block_token_ids : list (list Z))
    (extra : option Z) : M t (list Z) :=
  match block_token_ids with
  | [] => mret []
  | toks :: rest =>
      p ← allocate_immutable_block prev toks extra;
      ps ← allocate_immutable_blocks (Some p) rest extra;
      mret (p :: ps)
  end.

(** *** Forking *)
Fixpoint fork_blocks (prev : option Z) (l : list Z) : M t (list Z) :=
  match l with
  | [] => mret []
  | p :: l' =>
      o ← obj p;
      match block_id o with
      | None => raise AssertionError
      | Some b =>
          c ← on_ids (Ids.counting (RefCounter.incr b));
          if c =? 1 then raise AssertionError
          else
            q ← init_block prev (token_ids o) (Some b) (extra_hash o);
            qs ← fork_blocks (Some q) l';
            mret (q :: qs)
      end
  end.

Definition source_blocks (p : Z) (s : t) : result (list Z) :=
  get_all_blocks_recursively prev_block (objs s) (S (size (objs s))) p.

Definition fork (last_block : Z) : M t (list Z) :=
  s ← get;
  l ← lift (source_blocks last_block s);
  fork_blocks None l.

(** *** Queries *)
Definition get_num_free_blocks (s : t) : Z :=
  Ids.get_num_free_blocks (ids s) + ev_num_blocks (evictor s).
Definition get_num_total_blocks (s : t) : Z := Ids.get_num_total_blocks (ids s).
Definition get_physical_block_id (absolute_id : Z) (s : t) : result Z :=
  Ids.get_physical_block_id absolute_id (ids s).
Definition get_prefix_cache_hit_rate (s : t) : Q := Metric.get_hit_rate (metric_data s).
Definition get_scheduler_post_warmup_prefix_cache_hit_rate (s : t) : Q :=
  match hook_should_record_post_warmup_metric with
  | None => (-1)%Q
  | Some f => if f (evictor s) then Metric.get_hit_rate (scheduler_post_warmup_metric_data s)
              else (-1)%Q
  end.

Definition is_block_cached (p : Z) : M t bool :=
  h ← content_hash p;
  match h with
  | None => raise AssertionError
  | Some h => gets (fun s => bool_decide (is_Some (cached_blocks s !! h)))
  end.

Definition block_is_computed (b : Z) (s : t) : result bool :=
  match block_tracker s !! b with
  | None => Err KeyError
  | Some k => Ok (if BlockTracker.active k then BlockTracker.computed k
                  else ev_contains (evictor s) b)
  end.

(** [_block_is_cached] of [find_cached_blocks_prefix]. *)
Definition hash_is_cached (s : t) (h : Z) : result bool :=
  match cached_blocks s !! h with
  | None => Ok false
  | Some b => block_is_computed b s
  end.

Definition find_cached_blocks_prefix (block_hashes : list Z) (s : t) : result (list Z) :=
  idx ← bisect_left_true (fun h => negb <$> hash_is_cached s h) block_hashes;
  Ok (take idx block_hashes).

Definition get_common_computed_block_ids (ls : list (list Z)) : list Z :=
  match ls with
  | [l] => l
  | _ => commonprefix (filter (fun l => l <> []) ls)
  end.

(** Does a swap of this block touch memory? *)
Definition touches (p : Z) : M t bool :=
  o ← obj p;
  if is_full o then
    cached ← is_block_cached p;
    if cached : bool then
      h ← content_hash p;
      s ← get;
      match h ≫= (fun h => cached_blocks s !! h) with
      | Some b => mret (ev_contains (evictor s) b)
      | None => mret false
      end
    else mret true
  else mret false.

Definition get_num_full_blocks_touched (ps : list Z) : M t Z :=
  l ← map_each ps touches;
  mret (Z.of_nat (length (filter (fun b : bool => b = true) l))).

(** *** Marks and observations *)
Definition mark_block_as_accessed (now : Q) (c : option cache_hint) (b : Z) : M t unit :=
  s ← get;
  match block_tracker s !! b with
  | None => raise KeyError
  | Some k =>
      if BlockTracker.active k
      then on_tracker b (BlockTracker.overwrite_block_metadata np_exp now c)
      else if ev_contains (evictor s) b then on_evictor (ev_update b now c)
      else raise ValueError
  end.
Definition mark_blocks_as_accessed (bs : list Z) (now : Q) (c : option cache_hint) : M t unit :=
  for_each bs (mark_block_as_accessed now c).

Definition mark_blocks_as_computed (bs : list Z) : M t unit :=
  s ← get;
  for_each (elements (touched_blocks s))
    (fun b => on_tracker b (modify (BlockTracker.set_computed true))) ;;
  modify (fun s => with_touched s ∅).

Definition observe_cache_accesses (block_hashes : list Z) (c : option cache_hint) : M t unit :=
  match hook_observe_cache_accesses, hook_observe_cache_access with
  | None, None => mret tt
  | batch, single =>
      s ← get;
      let observes := match hook_should_observe_cache_accesses with
                      | Some f => f (evictor s) | None => true end in
      let hit h := bool_decide (is_Some (cached_blocks s !! h)) in
      if observes then
        match batch, single with
        | Some f, _ => on_evictor (f block_hashes c (map hit block_hashes))
        | None, Some f => for_each block_hashes (fun h => on_evictor (f h c (hit h)))
        | None, None => mret tt
        end
      else mret tt
  end.

Definition should_predict_cache_hint (s : t) : bool :=
  match hook_should_predict_cache_hint with Some f => f (evictor s) | None => true end.

Definition clear_copy_on_writes : M t (list (Z * Z)) := on_cow Cow.clear_cows.

Definition swap_out (ps : list Z) : M t unit := for_each ps free_block_id.

(** *** [reset_prefix_cache] *)
Fixpoint drain_loop (fuel : nat) : M t unit :=
  r ← maybe_allocate_evicted_block_id;
  match r with
  | None => mret tt
  | Some b =>
      on_ids (Ids.free_block_id b) ;;
      match fuel with
      | O => raise OutOfFuel
      | S fuel' => drain_loop fuel'
      end
  end.

Definition reset_prefix_cache : M t bool :=
  modify (fun s => with_metrics s Metric.init Metric.init) ;;
  s ← get;
  if 0 <? get_num_total_blocks s - get_num_free_blocks s then mret false
  else
    drain_loop (length (items (ev_table (evictor s)))) ;;
    s ← get;
    assert_ (bool_decide (cached_blocks s = ∅)) ;;
    e ← lift make_evictor;
    modify (fun s => with_evictor s e) ;;
    match hook_set_capacity with
    | Some f => on_evictor (f (get_num_total_blocks s))
    | None => mret tt
    end ;;
    modify (fun s => with_tracker s ((fun _ => BlockTracker.init) <$> block_tracker s)) ;;
    mret true.
End Allocator.
Arguments t : clear implicits.
End Prefix.
