(* ===== verification/PrefixInvariant.v ===== *)
(** * The invariant of the prefix-caching allocator

    The contents of a block are the tokens and extra hashes of the blocks up to
    and including it.  The invariant says that reference counts count live
    block objects, that free, evictable and referenced ids are disjoint, and
    that the id of a full live block is the one its content hash is cached
    under.  Each primitive of [PrefixCaching] keeps it. *)
From S2P Require Import Prelude.
From S2P Require Import PyDict.
From S2P Require Import EvictorBase.
From S2P Require Import BlockCommon.
From S2P Require Import NaiveBlock.
From S2P Require Import PrefixCaching.
Import Prefix.

(** ** Contents and their hash *)

Definition part : Type := list Z * option Z.
Definition part_of (o : block) : part := (token_ids o, extra_hash o).

Inductive contents (L : gmap Z block) : option Z -> list part -> Prop :=
  | contents_nil : contents L None []
  | contents_snoc p o l :
      L !! p = Some o -> contents L (prev_block o) l -> contents L (Some p) (l ++ [part_of o]).

Section Hash.
Variable py_hash : bool * option Z * list Z * option Z -> Z.
Variable none_hash : Z.

Definition chain_step (acc : option Z) (x : part) : option Z :=
  Some (match acc with
        | None => hash_block_tokens py_hash none_hash true (Some none_hash) x.1 x.2
        | Some h => hash_block_tokens py_hash none_hash false (Some h) x.1 x.2
        end).
(** The content hash of a block with these contents. *)
Definition chain_hash (l : list part) : option Z := foldl chain_step None l.

Lemma chain_hash_snoc l x : chain_hash (l ++ [x]) = chain_step (chain_hash l) x.
Proof. unfold chain_hash. by rewrite foldl_app. Qed.

Lemma chain_hash_some l : l <> [] -> is_Some (chain_hash l).
Proof. destruct l as [|x l _] using rev_ind; [done|]. rewrite chain_hash_snoc. by eexists. Qed.

Lemma chain_hash_none l : chain_hash l = None -> l = [].
Proof.
  destruct l as [|x l]; [done|]. intros H.
  destruct (chain_hash_some (x :: l)) as [? Hs]; [done|]. by rewrite H in Hs.
Qed.

Section Injective.
Hypothesis py_hash_inj : forall a b, py_hash a = py_hash b -> a = b.

(** Without collisions the hash of a block identifies its whole prefix. *)
Lemma chain_hash_inj l : forall l', chain_hash l = chain_hash l' -> l = l'.
Proof.
  induction l as [|x l IH] using rev_ind; intros l'; [intros H; symmetry; by apply chain_hash_none|].
  destruct l' as [|x' l' _] using rev_ind.
  { rewrite chain_hash_snoc. done. }
  rewrite !chain_hash_snoc. unfold chain_step, hash_block_tokens.
  destruct (chain_hash l) as [h|] eqn:Hl, (chain_hash l') as [h'|] eqn:Hl'; intros [= Heq];
    apply py_hash_inj in Heq; cbn in Heq; try done.
  - injection Heq as ? ? ?. subst. f_equal; [by apply IH|]. f_equal. by apply injective_projections.
  - injection Heq as ? ?. apply chain_hash_none in Hl as ->, Hl' as ->.
    cbn. f_equal. by apply injective_projections.
Qed.
End Injective.
End Hash.

Lemma contents_some L p l :
  contents L (Some p) l -> exists o l', L !! p = Some o /\ contents L (prev_block o) l' /\ l = l' ++ [part_of o].
Proof. inversion 1; subst. eauto. Qed.

Lemma contents_fun L q l l' : contents L q l -> contents L q l' -> l = l'.
Proof.
  intros H. revert l'. induction H as [|p o l Hp Hc IH]; intros l' H'; [by inversion H'|].
  apply contents_some in H' as (o' & l1 & Hp' & Hc' & ->). rewrite Hp in Hp'. injection Hp' as <-.
  by rewrite (IH _ Hc').
Qed.

Lemma contents_mono L L' q l :
  (forall p o, L !! p = Some o -> exists o', L' !! p = Some o' /\
     prev_block o' = prev_block o /\ part_of o' = part_of o) ->
  contents L q l -> contents L' q l.
Proof.
  intros Hsub H. induction H as [|p o l Hp Hc IH]; [constructor|].
  destruct (Hsub p o Hp) as (o' & Hp' & E1 & <-). econstructor; [done|]. by rewrite E1.
Qed.

(** ** The invariant *)

Definition is_full_in (L : gmap Z block) (q : Z) : Prop :=
  exists oq, L !! q = Some oq /\ is_full oq = true.

Definition uncached (cached : gmap Z Z) (b : Z) : Prop := forall h, cached !! h <> Some b.

Section Invariant.
Context {E : Type} `{!Evictor E} `{!EvictorHooks E} {ev_wf : E -> Prop} `{!EvictorLaws E ev_wf}.
Variable py_hash : bool * option Z * list Z * option Z -> Z.
Variable none_hash : Z.
Hypothesis no_collision : forall a, py_hash a <> none_hash.

Abbreviation t := (t E).
Abbreviation chain_hash := (chain_hash py_hash none_hash).
Abbreviation owners := (owners block_id).
Abbreviation points := (points block_id).
Implicit Types (s : t) (L : gmap Z block) (o : block) (p b h : Z) (zs : gset Z) (x : option Z).

(** The objects in use: those handed out, and those in [zs], which have been
    returned to the pool but are still predecessors of objects in use. *)
Definition view (zs : gset Z) (s : t) : gmap Z block :=
  filter (fun e => e.1 ∉ BlockPool.free_ids (pool s) \/ e.1 ∈ zs) (objs s).

Record prev_ok (L : gmap Z block) (prev : option Z) (toks : list Z) : Prop := {
  po_live : forall q, prev = Some q -> is_Some (L !! q);
  po_full : forall q, prev = Some q -> toks <> [] -> is_full_in L q
}.

(** The block's content hash is [h]. *)
Definition hashed (L : gmap Z block) (p h : Z) : Prop :=
  is_full_in L p /\ exists l, contents L (Some p) l /\ chain_hash l = Some h.

(** What holds of a block's physical id; the block [x] is being filled. *)
Definition id_ok (L : gmap Z block) (cached : gmap Z Z) (x : option Z) (p : Z) (o : block) : Prop :=
  forall b, block_id o = Some b ->
    if decide (is_full o = true /\ x <> Some p)
    then exists h, hashed L p h /\ cached !! h = Some b
    else uncached cached b.

Record obj_ok (bs : Z) (L : gmap Z block) (cached : gmap Z Z) (x : option Z) (p : Z) (o : block)
    : Prop := {
  oo_size : block_size o = bs;
  oo_len : Z.of_nat (length (token_ids o)) <= bs;
  oo_prev : prev_ok L (prev_block o) (token_ids o);
  oo_contents : exists l, contents L (Some p) l;
  oo_hash : forall h, cached_content_hash o = Some h -> hashed L p h;
  oo_id : id_ok L cached x p o
}.

(** [d b] references to [b] are held outside the block objects. *)
Record inv (d : Z -> Z) (x : option Z) (zs : gset Z) (s : t) : Prop := {
  inv_ids : Ids.ids_safe (ids s);
  inv_pool : BlockPool.pool_ok (pool s);
  inv_pos : 0 < BlockPool.pool_size (pool s);
  inv_bs : 0 < bsize s;
  inv_ev : ev_wf (evictor s);
  inv_counts : forall b, Ids.refcount (ids s) b = owners (view zs s) b + d b;
  inv_track : forall b, b ∈ Ids.all_block_indices (ids s) ->
    exists k, block_tracker s !! b = Some k /\
      (BlockTracker.active k = true <-> 0 < Ids.refcount (ids s) b);
  inv_evict : forall b, is_Some (ev_blocks (evictor s) b) ->
    Ids.refcounts (ids s) !! b = Some 0 /\ b ∉ Ids.free_block_indices (ids s);
  inv_inj : forall h h' b, cached_blocks s !! h = Some b -> cached_blocks s !! h' = Some b -> h = h';
  inv_cached : forall h b, cached_blocks s !! h = Some b ->
    b ∈ Ids.all_block_indices (ids s) /\ b ∉ Ids.free_block_indices (ids s);
  inv_objs : forall p o, view zs s !! p = Some o ->
    obj_ok (bsize s) (view zs s) (cached_blocks s) x p o
}.

Definition zero : Z -> Z := fun _ => 0.
Definition one (b : Z) : Z -> Z := fun b' => if decide (b = b') then 1 else 0.

Lemma inv_ext d d' x zs s : (forall b, d b = d' b) -> inv d x zs s -> inv d' x zs s.
Proof. intros Hd []. split; try done. intros b. by rewrite <- Hd. Qed.

Lemma not_full_nil o bs : block_size o = bs -> 0 < bs -> token_ids o = [] -> is_full o = false.
Proof. intros <- Hb Ht. unfold is_full, num_empty_slots. rewrite Ht. cbn. apply Z.eqb_neq. lia. Qed.

Lemma full_nonempty o bs : block_size o = bs -> 0 < bs -> is_full o = true -> token_ids o <> [].
Proof. intros Hs Hb Hf Ht. by rewrite (not_full_nil o bs Hs Hb Ht) in Hf. Qed.

(** *** How contents and hashes survive changes of the store *)

(** [o'] has the contents and predecessor of [o]. *)
Record same_part (o o' : block) : Prop := {
  sp_prev : prev_block o' = prev_block o;
  sp_tokens : token_ids o' = token_ids o;
  sp_extra : extra_hash o' = extra_hash o;
  sp_size : block_size o' = block_size o
}.

Lemma same_part_refl o : same_part o o.
Proof. by split. Qed.

Lemma same_part_full o o' : same_part o o' -> is_full o' = is_full o.
Proof. intros [_ E1 _ E2]. unfold is_full, num_empty_slots. by rewrite E1, E2. Qed.

(** Every block of [L] is in [L'] with the same contents. *)
Definition extends (L L' : gmap Z block) : Prop :=
  forall p o, L !! p = Some o -> exists o', L' !! p = Some o' /\ same_part o o'.

Lemma extends_refl L : extends L L.
Proof. intros p o Hp. exists o. split; [done|apply same_part_refl]. Qed.

Lemma extends_set L p o o' : L !! p = Some o -> same_part o o' -> extends L (<[p := o']> L).
Proof.
  intros Hp Hs q oq Hq. destruct (decide (p = q)) as [<-|Hne].
  - exists o'. rewrite lookup_insert_eq. rewrite Hp in Hq. by injection Hq as <-.
  - exists oq. rewrite lookup_insert_ne by done. split; [done|apply same_part_refl].
Qed.

Lemma extends_fresh L p o : L !! p = None -> extends L (<[p := o]> L).
Proof.
  intros Hp q oq Hq. exists oq. rewrite lookup_insert_ne by congruence.
  split; [done|apply same_part_refl].
Qed.

Lemma extends_contents L L' q l : extends L L' -> contents L q l -> contents L' q l.
Proof.
  intros He. apply contents_mono. intros p o Hp. destruct (He p o Hp) as (o' & Hp' & [E1 E2 E3 _]).
  exists o'. split; [done|]. split; [done|]. unfold part_of. by rewrite E2, E3.
Qed.

Lemma extends_full L L' q : extends L L' -> is_full_in L q -> is_full_in L' q.
Proof.
  intros He (o & Ho & Hf). destruct (He q o Ho) as (o' & Ho' & Hs).
  exists o'. split; [done|]. by rewrite (same_part_full o o').
Qed.

Lemma extends_hashed L L' p h : extends L L' -> hashed L p h -> hashed L' p h.
Proof.
  intros He [Hf (l & Hc & Hl)]. split; [by eapply extends_full|].
  exists l. split; [|done]. by eapply extends_contents.
Qed.

Lemma extends_prev_ok L L' prev toks : extends L L' -> prev_ok L prev toks -> prev_ok L' prev toks.
Proof.
  intros He [H1 H2]. split.
  - intros q Hq. destruct (H1 q Hq) as [o Ho]. destruct (He q o Ho) as (o' & Ho' & _). by eexists.
  - intros q Hq Ht. by eapply extends_full; [|apply H2].
Qed.

Lemma hashed_fun L p h h' : hashed L p h -> hashed L p h' -> h = h'.
Proof.
  intros [_ (l & Hc & Hl)] [_ (l' & Hc' & Hl')]. rewrite (contents_fun _ _ _ _ Hc' Hc) in Hl'. congruence.
Qed.

Lemma id_ok_extends L L' cached x p o o' :
  extends L L' -> same_part o o' -> block_id o' = block_id o ->
  id_ok L cached x p o -> id_ok L' cached x p o'.
Proof.
  intros He Hs Hb H b Hb'. specialize (H b). rewrite <- Hb in H. specialize (H Hb').
  rewrite (same_part_full o o') by done. case_decide; [|done].
  destruct H as (h & Hh & Hc). exists h. split; [|done]. by eapply extends_hashed.
Qed.

Lemma obj_ok_extends bs L L' cached x p o :
  extends L L' -> obj_ok bs L cached x p o -> obj_ok bs L' cached x p o.
Proof.
  intros He [H1 H2 H3 [l H4] H5 H6]. split; [done|done| | | |].
  - by eapply extends_prev_ok.
  - exists l. by eapply extends_contents.
  - intros h Hh. by eapply extends_hashed; [|apply H5].
  - eapply id_ok_extends; [done|apply same_part_refl|done|done].
Qed.

(** *** Views *)

Lemma view_lookup zs s p o :
  view zs s !! p = Some o <->
  objs s !! p = Some o /\ (p ∉ BlockPool.free_ids (pool s) \/ p ∈ zs).
Proof. unfold view. by rewrite map_lookup_filter_Some. Qed.

Lemma view_set zs s p o o' :
  view zs s !! p = Some o ->
  view zs (with_pool s (BlockPool.set_obj p o' (pool s))) = <[p := o']> (view zs s).
Proof.
  intros [Hp Hl]%view_lookup. unfold view. cbn. by rewrite map_filter_insert_True.
Qed.

Lemma pool_set_ok s p o o' :
  BlockPool.pool_ok (pool s) -> objs s !! p = Some o ->
  BlockPool.pool_ok (BlockPool.set_obj p o' (pool s)).
Proof.
  intros [H1 H2 H3 H4] Hp. split; cbn; [done| |done|done].
  intros i. destruct (decide (p = i)) as [<-|Hne].
  - rewrite lookup_insert_eq, <- H2. split; [intros _; by eexists|by eexists].
  - by rewrite lookup_insert_ne.
Qed.

(** Replacing an object by one with the same contents. *)
Lemma inv_put d x zs s p o o' :
  inv d x zs s -> view zs s !! p = Some o -> same_part o o' ->
  (forall h, cached_content_hash o' = Some h -> cached_content_hash o = Some h \/ hashed (view zs s) p h) ->
  id_ok (view zs s) (cached_blocks s) x p o' ->
  inv (fun b => d b + points o b - points o' b) x zs (with_pool s (BlockPool.set_obj p o' (pool s))).
Proof.
  intros [] Hp Hs Hh Hid. pose proof (extends_set _ _ _ _ Hp Hs) as He.
  split; cbn; try done; rewrite ?(view_set zs s p o o') by done.
  - eapply pool_set_ok; [done|]. by apply view_lookup in Hp as [? _].
  - intros b. rewrite (owners_set _ _ _ _ _ Hp), inv_counts0. lia.
  - intros q oq. destruct (decide (p = q)) as [<-|Hne].
    + rewrite lookup_insert_eq. intros [= <-]. destruct (inv_objs0 p o Hp) as [H1 H2 H3 [l H4] H5 H6].
      destruct Hs as [E1 E2 E3 E4]. split.
      * by rewrite E4.
      * by rewrite E2.
      * rewrite E1, E2. by eapply extends_prev_ok.
      * exists l. by eapply extends_contents.
      * intros h Hc. destruct (Hh h Hc) as [Hc'|Hc']; eapply extends_hashed; try done. by apply H5.
      * eapply id_ok_extends; [done|apply same_part_refl|done|done].
    + rewrite lookup_insert_ne by done. intros Hq. by eapply obj_ok_extends; [|apply inv_objs0].
Qed.

(** *** Changes of the other components *)

(** What the invariant does not look at. *)
Lemma inv_frame d x zs s s' :
  inv d x zs s -> pool s' = pool s -> ids s' = ids s -> bsize s' = bsize s ->
  cached_blocks s' = cached_blocks s ->
  (forall b k, block_tracker s !! b = Some k -> exists k', block_tracker s' !! b = Some k' /\
     BlockTracker.active k' = BlockTracker.active k) ->
  ev_wf (evictor s') -> (forall b, ev_blocks (evictor s') b = ev_blocks (evictor s) b) ->
  inv d x zs s'.
Proof.
  intros [] Hp Hi Hb Hc Ht Hw He.
  assert (Hv : view zs s' = view zs s) by (unfold view, objs; by rewrite Hp).
  split; rewrite ?Hv, ?Hp, ?Hi, ?Hb, ?Hc; try done.
  - intros b Hin. destruct (inv_track0 b Hin) as (k & Hk & Ha). destruct (Ht b k Hk) as (k' & Hk' & Ha').
    exists k'. by rewrite Ha'.
  - intros b. rewrite He. apply inv_evict0.
Qed.

(** Dropping cache entries of unreferenced ids keeps the live blocks' ids right. *)
Lemma id_ok_cached L cached cached' x p o :
  (forall h b, cached' !! h = Some b -> cached !! h = Some b) ->
  (forall h b, cached !! h = Some b -> block_id o = Some b -> cached' !! h = Some b) ->
  id_ok L cached x p o -> id_ok L cached' x p o.
Proof.
  intros Hsub Hkeep H b Hb. specialize (H b Hb). case_decide.
  - destruct H as (h & Hh & Hc). exists h. split; [done|]. by apply Hkeep.
  - intros h Hc%Hsub. by apply (H h).
Qed.

(** An unreferenced id is taken into use. *)
Lemma inv_activate d x zs s s' b free' k' :
  inv d x zs s -> Ids.refcounts (ids s) !! b = Some 0 ->
  pool s' = pool s -> bsize s' = bsize s ->
  ids s' = Ids.Ids free' (Ids.all_block_indices (ids s)) (<[b := 1]> (Ids.refcounts (ids s))) ->
  block_tracker s' = <[b := k']> (block_tracker s) -> BlockTracker.active k' = true ->
  NoDup free' -> b ∉ free' -> (forall b', b' ∈ free' -> b' ∈ Ids.free_block_indices (ids s)) ->
  ev_wf (evictor s') -> ev_blocks (evictor s') b = None ->
  (forall j, is_Some (ev_blocks (evictor s') j) -> is_Some (ev_blocks (evictor s) j)) ->
  (forall h b', cached_blocks s' !! h = Some b' -> cached_blocks s !! h = Some b') ->
  (forall h b', cached_blocks s !! h = Some b' ->
     cached_blocks s' !! h = Some b' \/ b' = b /\ 0 <= d b) ->
  inv (fun b' => d b' + one b b') x zs s'.
Proof.
  intros [] Hb Hp Hbs Hi Ht Hk Hnd Hbf Hf Hw Heb He Hc1 Hc2.
  assert (Hv : view zs s' = view zs s) by (unfold view, objs; by rewrite Hp).
  destruct inv_ids0 as [A1 A2 A3 A4].
  assert (Hrc : forall b', Ids.refcount (ids s') b' = Ids.refcount (ids s) b' + one b b').
  { intros b'. unfold Ids.refcount, one. rewrite Hi. cbn. case_decide as Hbb.
    - subst b'. by rewrite lookup_insert_eq, Hb.
    - rewrite lookup_insert_ne by done. lia. }
  split; rewrite ?Hv, ?Hp, ?Hbs; try done.
  - rewrite Hi. split; cbn; [| | |done].
    + intros b'. rewrite lookup_insert_is_Some', A1. split; [|by right].
      intros [<-|?]; [|done]. apply A1. by eexists.
    + intros b' c [[_ <-]|[_ Hc]]%lookup_insert_Some; [done|by eapply A2].
    + intros b' Hin. rewrite lookup_insert_ne by (intros ->; done). by apply A3, Hf.
  - intros b'. rewrite Hrc, inv_counts0. lia.
  - intros b' Hin. rewrite Hi in Hin. cbn in Hin. rewrite Ht, Hrc. unfold one.
    destruct (decide (b = b')) as [<-|Hne].
    + rewrite lookup_insert_eq. exists k'. split; [done|]. rewrite Hk. split; [intros _|done].
      assert (0 <= Ids.refcount (ids s) b) by (unfold Ids.refcount; by rewrite Hb). lia.
    + rewrite lookup_insert_ne by done. destruct (inv_track0 b' Hin) as (k & Hk' & Ha).
      exists k. split; [done|]. rewrite Ha. lia.
  - intros b' He'. rewrite Hi. cbn. assert (Hne : b <> b').
    { intros <-. rewrite Heb in He'. by destruct He'. }
    apply He, inv_evict0 in He' as [H1 H2]. rewrite lookup_insert_ne by done.
    split; [done|]. by intros ?%Hf.
  - intros h h' b' H1%Hc1 H2%Hc1. by eapply inv_inj0.
  - intros h b' H1%Hc1. apply inv_cached0 in H1 as [H1 H2]. rewrite Hi. cbn.
    split; [done|]. by intros ?%Hf.
  - intros p o Hpo. destruct (inv_objs0 p o Hpo). split; try done.
    eapply id_ok_cached; [apply Hc1| |done]. intros h b' Hcb Hbo.
    destruct (Hc2 h b' Hcb) as [?|[-> Hd]]; [done|]. pose proof (owners_pos _ _ _ _ Hpo Hbo) as Hpos.
    specialize (inv_counts0 b). unfold Ids.refcount in inv_counts0. rewrite Hb in inv_counts0.
    cbn in inv_counts0. lia.
Qed.

(** The last reference to an id goes: it becomes free or evictable. *)
Lemma inv_deactivate d x zs s s' b free' k' :
  inv d x zs s -> Ids.refcounts (ids s) !! b = Some 1 ->
  pool s' = pool s -> bsize s' = bsize s -> cached_blocks s' = cached_blocks s ->
  ids s' = Ids.Ids free' (Ids.all_block_indices (ids s)) (<[b := 0]> (Ids.refcounts (ids s))) ->
  block_tracker s' = <[b := k']> (block_tracker s) -> BlockTracker.active k' = false ->
  NoDup free' ->
  (forall b', b' ∈ free' -> b' ∈ Ids.free_block_indices (ids s) \/
     b' = b /\ uncached (cached_blocks s) b /\ ev_blocks (evictor s') b = None) ->
  ev_wf (evictor s') ->
  (forall j, is_Some (ev_blocks (evictor s') j) -> is_Some (ev_blocks (evictor s) j) \/ j = b) ->
  inv (fun b' => d b' - one b b') x zs s'.
Proof.
  intros [] Hb Hp Hbs Hc Hi Ht Hk Hnd Hf Hw He.
  assert (Hv : view zs s' = view zs s) by (unfold view, objs; by rewrite Hp).
  destruct inv_ids0 as [A1 A2 A3 A4].
  assert (Hbf : b ∉ Ids.free_block_indices (ids s)) by (intros H%A3; congruence).
  assert (Hrc : forall b', Ids.refcount (ids s') b' = Ids.refcount (ids s) b' - one b b').
  { intros b'. unfold Ids.refcount, one. rewrite Hi. cbn. case_decide as Hbb.
    - subst b'. by rewrite lookup_insert_eq, Hb.
    - rewrite lookup_insert_ne by done. lia. }
  split; rewrite ?Hv, ?Hp, ?Hbs, ?Hc; try done.
  - rewrite Hi. split; cbn; [| | |done].
    + intros b'. rewrite lookup_insert_is_Some', A1. split; [|by right].
      intros [<-|?]; [|done]. apply A1. by eexists.
    + intros b' c [[_ <-]|[_ Hc']]%lookup_insert_Some; [done|by eapply A2].
    + intros b' [Hin|[-> _]]%Hf; [|by rewrite lookup_insert_eq].
      rewrite lookup_insert_ne by (intros ->; done). by apply A3.
  - intros b'. rewrite Hrc, inv_counts0. lia.
  - intros b' Hin. rewrite Hi in Hin. cbn in Hin. rewrite Ht, Hrc. unfold one.
    destruct (decide (b = b')) as [<-|Hne].
    + rewrite lookup_insert_eq. exists k'. split; [done|]. rewrite Hk. unfold Ids.refcount.
      rewrite Hb. cbn. split; [done|lia].
    + rewrite lookup_insert_ne by done. destruct (inv_track0 b' Hin) as (k & Hk' & Ha).
      exists k. split; [done|]. rewrite Ha. lia.
  - intros b' He'. rewrite Hi. cbn. destruct (decide (b = b')) as [<-|Hne].
    + rewrite lookup_insert_eq. split; [done|]. intros [?|(_ & _ & Hn)]%Hf; [done|].
      rewrite Hn in He'. by destruct He'.
    + apply He in He' as [He'| ->]; [|done]. apply inv_evict0 in He' as [H1 H2].
      rewrite lookup_insert_ne by done. split; [done|]. by intros [?|(-> & _)]%Hf.
  - intros h b' H1. pose proof H1 as H2. apply inv_cached0 in H1 as [H3 H4]. rewrite Hi. cbn.
    split; [done|]. intros [?|(-> & Hu & _)]%Hf; [done|]. by apply (Hu h).
Qed.

(** One reference more, or fewer, to an id that stays referenced. *)
Lemma inv_recount d x zs s s' b c c' :
  inv d x zs s -> Ids.refcounts (ids s) !! b = Some c -> 0 < c -> 0 < c' ->
  pool s' = pool s -> bsize s' = bsize s -> cached_blocks s' = cached_blocks s ->
  block_tracker s' = block_tracker s -> evictor s' = evictor s ->
  ids s' = Ids.with_refcounts (ids s) (<[b := c']> (Ids.refcounts (ids s))) ->
  inv (fun b' => d b' + (c' - c) * one b b') x zs s'.
Proof.
  intros [] Hb Hpos Hpos' Hp Hbs Hc Ht He Hi.
  assert (Hv : view zs s' = view zs s) by (unfold view, objs; by rewrite Hp).
  destruct inv_ids0 as [A1 A2 A3 A4].
  assert (Hrc : forall b', Ids.refcount (ids s') b' = Ids.refcount (ids s) b' + (c' - c) * one b b').
  { intros b'. unfold Ids.refcount, one. rewrite Hi. cbn. case_decide as Hbb.
    - subst b'. rewrite lookup_insert_eq, Hb. cbn. lia.
    - rewrite lookup_insert_ne by done. lia. }
  split; rewrite ?Hv, ?Hp, ?Hbs, ?Hc, ?He; try done.
  - rewrite Hi. split; cbn; [| | |done].
    + intros b'. rewrite lookup_insert_is_Some', A1. split; [|by right].
      intros [<-|?]; [|done]. apply A1. by eexists.
    + intros b' c1 [[_ <-]|[_ Hc']]%lookup_insert_Some; [lia|by eapply A2].
    + intros b' Hin%A3. rewrite lookup_insert_ne; [done|]. intros ->. rewrite Hin in Hb.
      injection Hb as <-. lia.
  - intros b'. rewrite Hrc, inv_counts0. lia.
  - intros b' Hin. rewrite Hi in Hin. cbn in Hin. rewrite Ht, Hrc.
    destruct (inv_track0 b' Hin) as (k & Hk & Ha). exists k. split; [done|]. rewrite Ha.
    unfold one. case_decide as Hbb; [|lia]. subst b'. unfold Ids.refcount. rewrite Hb. cbn. lia.
  - intros b' [H1 H2]%inv_evict0. rewrite Hi. cbn. split; [|done].
    rewrite lookup_insert_ne; [done|]. intros ->. rewrite H1 in Hb. injection Hb as <-. lia.
  - rewrite Hi. cbn. done.
Qed.

(** *** [content_hash] *)

Definition strip (o : block) : block :=
  PrefixCachingBlock (prev_block o) (token_ids o) (block_size o) (block_id o) (computed o)
    (extra_hash o) None (cached_num_tokens_total o).

(** Only remembered hashes differ. *)
Record quiet s s' : Prop := {
  qt_rest : s' = with_pool s (pool s');
  qt_free : BlockPool.free_ids (pool s') = BlockPool.free_ids (pool s);
  qt_objs : forall p, strip <$> objs s' !! p = strip <$> objs s !! p
}.

Lemma quiet_refl s : quiet s s.
Proof. split; [by destruct s|done|done]. Qed.

Lemma quiet_trans s1 s2 s3 : quiet s1 s2 -> quiet s2 s3 -> quiet s1 s3.
Proof.
  intros [H1 H2 H3] [H4 H5 H6]. split; [rewrite H4, H1; done|congruence|].
  intros p. by rewrite H6, H3.
Qed.

Lemma strip_same o o' : strip o' = strip o -> same_part o o' /\ block_id o' = block_id o /\
  computed o' = computed o /\ cached_num_tokens_total o' = cached_num_tokens_total o.
Proof. destruct o, o'. unfold strip. cbn. by intros [= -> -> -> -> -> -> ->]. Qed.

Lemma quiet_view zs s s' p o :
  quiet s s' -> view zs s !! p = Some o ->
  exists o', view zs s' !! p = Some o' /\ strip o' = strip o.
Proof.
  intros [_ Hf Ho] [Hp Hl]%view_lookup. specialize (Ho p). rewrite Hp in Ho. cbn in Ho.
  destruct (objs s' !! p) as [o'|] eqn:Hp'; [|done]. apply (inj Some) in Ho.
  exists o'. split; [|done]. apply view_lookup. by rewrite Hf.
Qed.

Lemma quiet_view_back zs s s' p o' :
  quiet s s' -> view zs s' !! p = Some o' ->
  exists o, view zs s !! p = Some o /\ strip o' = strip o.
Proof.
  intros [_ Hf Ho] [Hp Hl]%view_lookup. specialize (Ho p). rewrite Hp in Ho. cbn in Ho.
  destruct (objs s !! p) as [o|] eqn:Hp'; [|done]. apply (inj Some) in Ho.
  exists o. split; [|done]. apply view_lookup. by rewrite <- Hf.
Qed.

Lemma quiet_extends zs s s' : quiet s s' -> extends (view zs s) (view zs s').
Proof.
  intros Hq p o Hp. destruct (quiet_view zs s s' p o Hq Hp) as (o' & Hp' & Hs).
  exists o'. split; [done|]. by apply strip_same in Hs as [? _].
Qed.

Lemma quiet_put s p o o' :
  objs s !! p = Some o -> strip o' = strip o ->
  quiet s (with_pool s (BlockPool.set_obj p o' (pool s))).
Proof.
  intros Hp Hs. split; [done|done|]. intros q. unfold objs. cbn. destruct (decide (p = q)) as [<-|Hne].
  - rewrite lookup_insert_eq. fold (objs s). rewrite Hp. cbn. by rewrite Hs.
  - by rewrite lookup_insert_ne.
Qed.

Lemma hashed_not_none L p h : hashed L p h -> h <> none_hash.
Proof.
  intros [_ (l & Hc & Hl)]. destruct l as [|y l _] using rev_ind; [done|].
  rewrite chain_hash_snoc in Hl. unfold chain_step, hash_block_tokens in Hl.
  destruct (chain_hash l); injection Hl as <-; apply no_collision.
Qed.

Lemma content_hash_rec_ok fuel : forall d x zs s p o r s',
  inv d x zs s -> view zs s !! p = Some o ->
  content_hash_rec py_hash none_hash fuel p s = (Ok r, s') ->
  inv d x zs s' /\ quiet s s' /\
  (exists o', view zs s' !! p = Some o' /\ strip o' = strip o /\ cached_content_hash o' = r) /\
  if is_full o then exists h, r = Some h /\ hashed (view zs s') p h else r = None.
Proof.
  induction fuel as [|fuel IH]; intros d x zs s p o r s' Hs Hp; [done|].
  pose proof (inv_objs _ _ _ _ Hs p o Hp) as Hok.
  pose proof Hp as Hpo. apply view_lookup in Hpo as [Hpo _].
  cbn [content_hash_rec]. rewrite (bind_step (obj p) _ s o s) by (unfold obj; by rewrite Hpo).
  destruct (cached_content_hash o) as [h|] eqn:Hch.
  { intros [= <- <-]. pose proof (oo_hash _ _ _ _ _ _ Hok h Hch) as Hh.
    split; [done|]. split; [apply quiet_refl|]. split; [by exists o|].
    destruct Hh as [(oq & Hoq & Hf) Hh]. rewrite Hp in Hoq. injection Hoq as <-. rewrite Hf.
    exists h. split; [done|]. split; [by exists o|done]. }
  destruct (is_full o) eqn:Hf.
  2: { intros [= <- <-]. split; [done|]. split; [apply quiet_refl|]. split; [by exists o|done]. }
  pose proof (full_nonempty o _ (oo_size _ _ _ _ _ _ Hok) (inv_bs _ _ _ _ Hs) Hf) as Hne.
  destruct (oo_prev _ _ _ _ _ _ Hok) as [Hpl Hpf].
  assert (Hmid : forall r1 s1,
    (match prev_block o with None => mret (Some none_hash)
     | Some q => content_hash_rec py_hash none_hash fuel q end) s = (Ok r1, s1) ->
    inv d x zs s1 /\ quiet s s1 /\
    match prev_block o with
    | None => r1 = Some none_hash
    | Some q => exists h, r1 = Some h /\ hashed (view zs s1) q h
    end).
  { intros r1 s1. destruct (prev_block o) as [q|] eqn:Hq.
    - intros Hr. destruct (Hpf q eq_refl Hne) as (oq & Hoq & Hfq).
      destruct (IH _ _ _ _ _ _ _ _ Hs Hoq Hr) as (H1 & H2 & _ & H3). by rewrite Hfq in H3.
    - intros [= <- <-]. split; [done|]. split; [apply quiet_refl|done]. }
  intros (r1 & s1 & Hr1 & Hrest)%bind_ok. destruct (Hmid _ _ Hr1) as (Hs1 & Hq1 & Hprev).
  destruct (quiet_view _ _ _ _ _ Hq1 Hp) as (o1 & Hp1 & Hst).
  destruct (oo_contents _ _ _ _ _ _ (inv_objs _ _ _ _ Hs1 p o1 Hp1)) as [l1 Hl1].
  apply contents_some in Hl1 as (o1' & l & Ho1' & Hl & ->). rewrite Hp1 in Ho1'. injection Ho1' as <-.
  destruct (strip_same _ _ Hst) as ([E1 E2 E3 E4] & E5 & E6 & E7). rewrite E1 in Hl.
  assert (Hres : exists h, hashed (view zs s1) p h /\ (Ok r, s') =
    (Ok (Some h), with_pool s1 (BlockPool.set_obj p (set_hash o h) (pool s1)))).
  { assert (Hfull1 : is_full_in (view zs s1) p).
    { exists o1. split; [done|]. by rewrite (same_part_full o o1). }
    destruct (prev_block o) as [q|] eqn:Hq.
    - destruct Hprev as (hq & -> & Hhq). pose proof (hashed_not_none _ _ _ Hhq) as Hnn.
      rewrite bool_decide_eq_false_2 in Hrest by congruence. cbn [andb] in Hrest.
      rewrite (bool_decide_eq_false_2 (Some q = None)) in Hrest by done.
      destruct Hhq as [_ (lq & Hlq & Hchq)]. rewrite (contents_fun _ _ _ _ Hlq Hl) in Hchq.
      eexists. split; [|symmetry; exact Hrest]. split; [done|].
      exists (l ++ [part_of o1]). split.
      { econstructor; [done|]. by rewrite E1. }
      rewrite chain_hash_snoc, Hchq. unfold chain_step, part_of. cbn. by rewrite E2, E3.
    - subst r1. rewrite andb_false_r in Hrest. inversion Hl; subst l.
      eexists. split; [|symmetry; exact Hrest]. split; [done|].
      exists [part_of o1]. split.
      { apply (contents_snoc _ p o1 []); [done|]. rewrite E1. constructor. }
      unfold PrefixInvariant.chain_hash, chain_step, part_of. cbn. by rewrite E2, E3. }
  destruct Hres as (h & Hh & [= -> ->]).
  pose proof Hp1 as Hp1o. apply view_lookup in Hp1o as [Hp1o _].
  assert (Hsame : same_part o1 (set_hash o h)) by (split; cbn; congruence).
  assert (Hs' : inv d x zs (with_pool s1 (BlockPool.set_obj p (set_hash o h) (pool s1)))).
  { eapply inv_ext; [|eapply (inv_put d x zs s1 p o1); [done|done|done| |]].
    - intros b. unfold BlockCommon.points. cbn. rewrite E5. lia.
    - intros h'. cbn. intros [= <-]. by right.
    - eapply id_ok_extends; [apply extends_refl|done|cbn; congruence|].
      apply (oo_id _ _ _ _ _ _ (inv_objs _ _ _ _ Hs1 p o1 Hp1)). }
  split; [done|]. split.
  { eapply quiet_trans; [done|]. eapply quiet_put; [done|]. rewrite Hst. by destruct o. }
  rewrite (view_set zs s1 p o1) by done. split.
  { exists (set_hash o h). rewrite lookup_insert_eq. split; [done|]. split; [by destruct o|done]. }
  exists h. split; [done|]. eapply extends_hashed; [|done]. by apply (extends_set _ _ o1).
Qed.

Lemma content_hash_ok d x zs s p o r s' :
  inv d x zs s -> view zs s !! p = Some o ->
  content_hash py_hash none_hash p s = (Ok r, s') ->
  inv d x zs s' /\ quiet s s' /\
  (exists o', view zs s' !! p = Some o' /\ strip o' = strip o /\ cached_content_hash o' = r) /\
  if is_full o then exists h, r = Some h /\ hashed (view zs s') p h else r = None.
Proof.
  unfold content_hash. intros Hs Hp. rewrite (bind_step get _ s s s eq_refl).
  by apply content_hash_rec_ok.
Qed.
End Invariant.
