(* ===== verification/PrefixOperations.v ===== *)
(** * The operations of the prefix-caching allocator keep its invariant

    One lemma per method of [PrefixCaching]: from a state that satisfies [inv],
    a call that returns leaves one that does, and what it changed. *)
From S2P Require Import Prelude.
From S2P Require Import PyDict.
From S2P Require Import EvictorBase.
From S2P Require Import BlockCommon.
From S2P Require Import NaiveBlock.
From S2P Require Import PrefixCaching.
From S2P Require Import PrefixInvariant.
Import Prefix.

(** Read a state component that a [bind] looks at first. *)
Ltac run_get := rewrite (bind_step get _ _ _ _ eq_refl).

Section Operations.
Context {E : Type} `{!Evictor E} `{!EvictorHooks E} {ev_wf : E -> Prop} `{!EvictorLaws E ev_wf}.
Variable py_hash : bool * option Z * list Z * option Z -> Z.
Variable none_hash : Z.
Hypothesis no_collision : forall a, py_hash a <> none_hash.

Abbreviation t := (t E).
Abbreviation chain_hash := (chain_hash py_hash none_hash).
Abbreviation hashed := (hashed py_hash none_hash).
Abbreviation id_ok := (id_ok py_hash none_hash).
Abbreviation inv := (inv (ev_wf := ev_wf) py_hash none_hash).
Abbreviation owners := (owners block_id).
Abbreviation points := (points block_id).
Abbreviation content_hash := (content_hash py_hash none_hash).
Implicit Types (s : t) (L : gmap Z block) (o : block) (p b h : Z) (zs : gset Z) (x : option Z).

(** ** The object pool *)

Lemma obj_run zs s p o : view zs s !! p = Some o -> obj p s = (Ok o, s).
Proof. intros [Hp _]%view_lookup. unfold obj. by rewrite Hp. Qed.

Definition new_block (total : Z) (prev : option Z) (toks : list Z) (bs : Z) (b extra : option Z) : block :=
  PrefixCachingBlock prev toks bs b false extra None (total + Z.of_nat (length toks)).

Lemma reinit_new total prev toks bs (b : option Z) extra o :
  Z.of_nat (length toks) <= bs ->
  reinit total prev toks bs b extra o = (Ok tt, new_block total prev toks bs b extra).
Proof.
  intros Hl. unfold reinit, append_token_ids_no_cow. destruct toks as [|y l]; [done|].
  unfold num_empty_slots. cbn [block_size token_ids length]. cbn [length] in Hl.
  by rewrite (proj2 (Z.leb_le _ _)) by lia.
Qed.

Lemma init_block_run s prev toks (b : option Z) extra :
  BlockPool.pool_ok (pool s) -> 0 < BlockPool.pool_size (pool s) ->
  Z.of_nat (length toks) <= bsize s ->
  exists i q, init_block prev toks b extra s = (Ok i, with_pool s q) /\
    BlockPool.pool_ok q /\ 0 < BlockPool.pool_size q /\ view ∅ s !! i = None /\
    view ∅ (with_pool s q)
    = <[i := new_block (prev_total (objs s) prev) prev toks (bsize s) b extra]> (view ∅ s) /\
    (forall j, j <> i -> is_Some (objs s !! j) -> BlockPool.objs q !! j = objs s !! j).
Proof.
  intros Hpok Hppos Hl. unfold init_block. set (total := prev_total _ _).
  destruct (BlockPool.init_block_spec (blank (bsize s)) (reinit total prev toks (bsize s) b extra) (pool s))
    as (i & q & o & o' & Hrun & Hok & Hre & Hj & Hfrom & Hnf & Hsame & Hnew & Hfree & Hkeep & Hpos);
    [done|done|intros o; eexists; by apply reinit_new|].
  rewrite Hrun. rewrite reinit_new in Hre by done. injection Hre as <-.
  exists i, q. split; [done|]. split; [done|]. split; [done|].
  assert (Hi : view ∅ s !! i = None).
  { destruct (view ∅ s !! i) as [o1|] eqn:Hv; [|done]. apply view_lookup in Hv as [Ho1 [Hv|Hv]]; [|by apply elem_of_empty in Hv].
    destruct Hfrom as [?|[Hnil Hge]]; [done|].
    assert (Hr : is_Some (objs s !! i)) by by eexists.
    apply (BlockPool.po_objs _ Hpok) in Hr. lia. }
  split; [done|]. split; [|done]. apply map_eq. intros k. apply option_eq. intros ok.
  rewrite lookup_insert_Some, !view_lookup. unfold objs. cbn.
  destruct (decide (i = k)) as [<-|Hne].
  { rewrite Hj. split.
    - intros [[= <-] _]. by left.
    - intros [[_ <-]|[? _]]; [|done]. split; [done|]. by left. }
  destruct (BlockPool.objs (pool s) !! k) as [ok0|] eqn:Hk.
  - rewrite Hsame by (done || by rewrite Hk; eexists). rewrite Hk.
    assert (Hiff : k ∈ BlockPool.free_ids q <-> k ∈ BlockPool.free_ids (pool s)).
    { split; [|by apply Hkeep]. intros [?|[_ Hge]]%Hfree; [done|].
      assert (Hr : is_Some (BlockPool.objs (pool s) !! k)) by by rewrite Hk; eexists.
      apply (BlockPool.po_objs _ Hpok) in Hr. lia. }
    rewrite Hiff. split; [intros [? ?]; by right|]. by intros [[? _]|[_ ?]].
  - split.
    + intros [Hk' [Hnk|Hnk]]; [|by apply elem_of_empty in Hnk].
      exfalso. apply Hnk, Hnew; [done|done|]. by eexists.
    + by intros [[? _]|[_ [? _]]].
Qed.

Lemma free_object_view s p o :
  view ∅ s !! p = Some o -> view ∅ (with_pool s (BlockPool.free_block p (pool s))) = delete p (view ∅ s).
Proof.
  intros Hp. apply map_eq. intros k. apply option_eq. intros ok.
  rewrite lookup_delete_Some, !view_lookup. unfold objs. cbn. rewrite not_elem_of_cons.
  split.
  - intros (? & [[? ?]|?%elem_of_empty]); [|done]. split; [done|]. split; [done|by left].
  - intros (? & ? & [?|?%elem_of_empty]); [|done]. split; [done|by left].
Qed.

(** A returned object stays visible as a zombie. *)
Lemma free_object_zombie zs s p :
  view ({[p]} ∪ zs) (with_pool s (BlockPool.free_block p (pool s))) = view ({[p]} ∪ zs) s.
Proof.
  apply map_eq. intros k. apply option_eq. intros ok.
  rewrite !view_lookup. unfold objs. cbn. rewrite not_elem_of_cons, elem_of_union, elem_of_singleton.
  destruct (decide (k = p)); tauto.
Qed.

Lemma view_zombie zs s p o : view zs s !! p = Some o -> view ({[p]} ∪ zs) s = view zs s.
Proof.
  intros [Ho Hp]%view_lookup. apply map_eq. intros k. apply option_eq. intros ok.
  rewrite !view_lookup, elem_of_union, elem_of_singleton.
  split; intros [? Hk]; (split; [done|]); [destruct Hk as [?|[->|?]]|]; tauto.
Qed.

Lemma free_pool_ok s p o :
  BlockPool.pool_ok (pool s) -> objs s !! p = Some o -> p ∉ BlockPool.free_ids (pool s) ->
  BlockPool.pool_ok (BlockPool.free_block p (pool s)).
Proof.
  intros [H1 H2 H3 H4] Ho Hp. split; cbn; [done|done|by apply NoDup_cons|].
  intros i [->|Hi]%elem_of_cons; [|by apply H4]. apply H2. by eexists.
Qed.

(** The pool may change as long as the blocks in use stay the same. *)
Lemma inv_pool_change d x zs zs' s q :
  inv d x zs s -> BlockPool.pool_ok q -> 0 < BlockPool.pool_size q ->
  view zs' (with_pool s q) = view zs s -> inv d x zs' (with_pool s q).
Proof. intros [] Hq Hpos Hv. split; cbn; rewrite ?Hv; try done. Qed.

(** [NaiveBlock.__init__] asserts that the tokens fit. *)
Lemma init_block_fits s prev toks (b : option Z) extra i s' :
  0 < bsize s -> init_block prev toks b extra s = (Ok i, s') -> Z.of_nat (length toks) <= bsize s.
Proof.
  intros Hbs Hi. destruct (Z.leb_spec (Z.of_nat (length toks)) (bsize s)) as [|Hgt]; [done|].
  exfalso. revert Hi. unfold init_block, BlockPool.init_block.
  destruct (BlockPool.free_ids _) as [|f fs]; [done|]. destruct (_ !! f) as [o|]; [|done].
  assert (Hr : exists o', reinit (prev_total (objs s) prev) prev toks (bsize s) b extra o = (Err AssertionError, o')).
  { unfold reinit, append_token_ids_no_cow. destruct toks as [|y l]; [cbn in Hgt; lia|].
    rewrite (proj2 (Z.leb_gt _ _)) by (unfold num_empty_slots; cbn [block_size token_ids length] in *; lia).
    by eexists. }
  destruct Hr as [o' ->]. done.
Qed.

(** A new block enters. *)
Lemma prefix_init_block_ok d x s prev toks (b : option Z) extra i s' :
  inv d x ∅ s -> prev_ok (view ∅ s) prev toks -> Z.of_nat (length toks) <= bsize s ->
  (forall p, x = Some p -> is_Some (view ∅ s !! p)) ->
  (forall b0, b = Some b0 ->
     if decide (Z.of_nat (length toks) = bsize s)
     then exists l h, contents (view ∅ s) prev l /\ chain_hash (l ++ [(toks, extra)]) = Some h /\
                      cached_blocks s !! h = Some b0
     else uncached (cached_blocks s) b0) ->
  init_block prev toks b extra s = (Ok i, s') ->
  exists o q, s' = with_pool s q /\ view ∅ s !! i = None /\
    view ∅ s' = <[i := o]> (view ∅ s) /\
    o = new_block (prev_total (objs s) prev) prev toks (bsize s) b extra /\
    inv (fun b' => d b' - points o b') x ∅ s'.
Proof.
  intros Hs Hprev Hl Hx Hid Hrun.
  destruct (init_block_run s prev toks b extra) as (i' & q & Hrun' & Hq & Hpos & Hi & Hv & _);
    [apply (inv_pool _ _ _ _ _ _ Hs)|apply (inv_pos _ _ _ _ _ _ Hs)|done|].
  rewrite Hrun in Hrun'. injection Hrun' as <- ->.
  set (o := new_block _ _ _ _ _ _) in *. exists o, q.
  split; [done|]. split; [done|]. split; [done|]. split; [done|].
  pose proof (extends_fresh (view ∅ s) i o Hi) as He.
  destruct Hs. split; cbn; try done; rewrite ?Hv.
  - intros b'. rewrite owners_fresh by done. rewrite inv_counts. lia.
  - intros p op. destruct (decide (i = p)) as [<-|Hne].
    2: { rewrite lookup_insert_ne by done. intros Hp. by eapply obj_ok_extends; [|apply inv_objs]. }
    rewrite lookup_insert_eq. intros [= <-].
    assert (Hc : exists l, contents (view ∅ s) prev l).
    { destruct prev as [r|]; [|exists []; constructor].
      destruct (po_live _ _ _ Hprev r eq_refl) as [or Hr]. by apply (oo_contents _ _ _ _ _ _ _ _ (inv_objs r or Hr)). }
    destruct Hc as [l Hc].
    assert (Hci : contents (<[i := o]> (view ∅ s)) (Some i) (l ++ [(toks, extra)])).
    { apply (contents_snoc _ i o l); [apply lookup_insert_eq|]. by eapply extends_contents. }
    split; try done.
    + by eapply extends_prev_ok.
    + by eexists.
    + intros b0 Hb0. cbn in Hb0. specialize (Hid b0 Hb0).
      assert (Hfull : is_full o = true <-> Z.of_nat (length toks) = bsize s).
      { unfold is_full, num_empty_slots. cbn. rewrite Z.eqb_eq. lia. }
      assert (Hxi : x <> Some i).
      { intros ->. destruct (Hx i eq_refl) as [? Hv']. congruence. }
      destruct (decide (Z.of_nat (length toks) = bsize s)) as [Hf|Hf].
      * rewrite decide_True by by rewrite Hfull. destruct Hid as (l' & h & Hc' & Hh & Hcb).
        exists h. split; [|done]. split.
        { exists o. rewrite lookup_insert_eq. split; [done|]. by apply Hfull. }
        exists (l ++ [(toks, extra)]). split; [done|]. by rewrite (contents_fun _ _ _ _ Hc Hc').
      * rewrite decide_False by (rewrite Hfull; tauto). done.
Qed.

(** ** Small steps *)

(** Writing a block's physical id. *)
Lemma assign_ok d x zs s p o (b : option Z) s' :
  inv d x zs s -> view zs s !! p = Some o -> assign_block_id p b s = (Ok tt, s') ->
  id_ok (view zs s) (cached_blocks s) x p (set_block_id o b) ->
  s' = with_pool s (BlockPool.set_obj p (set_block_id o b) (pool s)) /\
  view zs s' = <[p := set_block_id o b]> (view zs s) /\
  inv (fun b' => d b' + points o b' - points (set_block_id o b) b') x zs s'.
Proof.
  intros Hs Hp. unfold assign_block_id. rewrite (bind_step _ _ _ _ _ (obj_run zs s p o Hp)).
  intros [= <-] Hid. split; [done|]. split; [by apply (view_set zs s p o)|].
  eapply (inv_put _ _ d x zs s p o); [done|done|done| |done]. intros h. by left.
Qed.

Lemma id_ok_none L cached x p o : block_id o = None -> id_ok L cached x p o.
Proof. intros H b. by rewrite H. Qed.

(** A live reference shows in the counter. *)
Lemma count_ge d x zs s p o b :
  inv d x zs s -> (0 <= d b) -> view zs s !! p = Some o -> block_id o = Some b ->
  exists c, Ids.refcounts (ids s) !! b = Some c /\ 1 <= c.
Proof.
  intros Hs Hd Hp Hb. pose proof (owners_pos _ _ _ _ Hp Hb) as Ho.
  pose proof (inv_counts _ _ _ _ _ _ Hs b) as Hc. unfold Ids.refcount in Hc.
  destruct (Ids.refcounts (ids s) !! b) as [c|]; cbn in Hc; [|lia]. exists c. split; [done|lia].
Qed.

Lemma tracked d x zs s b c :
  inv d x zs s -> Ids.refcounts (ids s) !! b = Some c ->
  b ∈ Ids.all_block_indices (ids s) /\
  exists k, block_tracker s !! b = Some k /\ (BlockTracker.active k = true <-> 0 < c).
Proof.
  intros Hs Hb. assert (Hall : b ∈ Ids.all_block_indices (ids s)).
  { apply (Ids.is_dom _ (inv_ids _ _ _ _ _ _ Hs)). by eexists. }
  split; [done|]. destruct (inv_track _ _ _ _ _ _ Hs b Hall) as (k & Hk & Ha).
  exists k. split; [done|]. unfold Ids.refcount in Ha. by rewrite Hb in Ha.
Qed.

Lemma track_run b c s k s' :
  block_tracker s !! b = Some k -> track_block_id b c s = (Ok tt, s') ->
  exists k', BlockTracker.active k' = true /\ s' = with_tracker s (<[b := k']> (block_tracker s)).
Proof.
  intros Hk. unfold track_block_id, on_tracker. rewrite Hk, bind_run. unfold BlockTracker.enable.
  destruct (BlockTracker.active k); [done|]. intros [= <-]. eexists. split; [|reflexivity]. done.
Qed.

Lemma untrack_run b s k :
  block_tracker s !! b = Some k -> BlockTracker.active k = true ->
  exists k', BlockTracker.active k' = false /\
    untrack_block_id b s = (Ok tt, with_tracker s (<[b := k']> (block_tracker s))).
Proof.
  intros Hk Ha. unfold untrack_block_id, on_tracker. rewrite Hk. unfold BlockTracker.disable.
  rewrite Ha. eexists. split; [|reflexivity]. done.
Qed.

(** ** Taking a physical block *)

(** [s'] is [s] with an id nobody held taken into use. *)
Record taken s s' b : Prop := {
  tk_view : view ∅ s' = view ∅ s;
  tk_objs : forall q oq, view ∅ s !! q = Some oq -> objs s' !! q = objs s !! q;
  tk_bsize : bsize s' = bsize s;
  tk_cow : cow s' = cow s;
  tk_zero : Ids.refcounts (ids s) !! b = Some 0;
  tk_refs : Ids.refcounts (ids s') = <[b := 1]> (Ids.refcounts (ids s));
  tk_all : Ids.all_block_indices (ids s') = Ids.all_block_indices (ids s);
  tk_uncached : uncached (cached_blocks s') b;
  tk_sub : forall h b', cached_blocks s' !! h = Some b' -> cached_blocks s !! h = Some b';
  tk_keep : forall h b', cached_blocks s !! h = Some b' -> b' <> b -> cached_blocks s' !! h = Some b'
}.

Lemma hashless_ok d x s r s' :
  inv d x ∅ s -> maybe_allocate_hashless_block_id s = (Ok r, s') ->
  match r with
  | None => s' = s
  | Some b => inv (fun b' => d b' + one b b') x ∅ s' /\ taken s s' b
  end.
Proof.
  intros Hs. unfold maybe_allocate_hashless_block_id, catch_no_free. rewrite bind_run.
  unfold on_ids at 1. pose proof (inv_ids _ _ _ _ _ _ Hs) as Hids.
  destruct (Ids.allocate_spec (ids s) Hids) as [[_ ->]|(b0 & rest & Hf & ->)].
  { cbn. rewrite decide_True by done. intros [= <- <-]. by destruct s. }
  set (s1 := with_ids s _).
  destruct (init_block_run s1 None [] (Some b0) None) as (i & q & Hrun & Hq & Hpos & Hi & Hv & Hsame);
    [apply (inv_pool _ _ _ _ _ _ Hs)|apply (inv_pos _ _ _ _ _ _ Hs)|cbn; apply Z.lt_le_incl, (inv_bs _ _ _ _ _ _ Hs)|].
  rewrite (bind_step _ _ _ _ _ Hrun). set (o := new_block _ _ _ _ _ _) in Hv.
  assert (Hvi : view ∅ (with_pool s1 q) !! i = Some o) by by rewrite Hv, lookup_insert_eq.
  rewrite (bind_step _ _ _ _ _ (obj_run _ _ _ _ Hvi)).
  unfold free_object, modify. rewrite bind_run. cbn [block_id o new_block].
  set (s2 := with_pool _ (BlockPool.free_block _ _)).
  assert (Hb0 : Ids.refcounts (ids s) !! b0 = Some 0).
  { apply (Ids.is_free _ Hids). rewrite Hf. left. }
  destruct (tracked _ _ _ _ _ _ Hs Hb0) as (_ & k & Hk & Ha).
  rewrite bind_run. destruct (track_block_id b0 false s2) as [[[]|e] s3] eqn:Ht; cbn.
  2: { unfold track_block_id, on_tracker in Ht. cbn in Ht. rewrite Hk in Ht. revert Ht.
       rewrite bind_run. unfold BlockTracker.enable. destruct (BlockTracker.active k); [|done].
       cbn. intros [= <- _]. done. }
  intros [= <- <-]. destruct (track_run b0 false s2 k s3) as (k' & Hk' & ->); [done|done|].
  assert (Hview : view ∅ s2 = view ∅ s).
  { unfold s2. etransitivity; [by apply (free_object_view _ _ o)|]. rewrite Hv.
    rewrite delete_insert_id; [done|]. exact Hi. }
  pose proof (Ids.is_nodup _ Hids) as Hnd. rewrite Hf in Hnd. apply NoDup_cons in Hnd as [Hnb Hnd].
  assert (Hunc : uncached (cached_blocks s) b0).
  { intros h Hh. apply (inv_cached _ _ _ _ _ _ Hs) in Hh as [_ Hh]. apply Hh. rewrite Hf. left. }
  assert (Hpool : BlockPool.pool_ok (BlockPool.free_block i q)).
  { apply view_lookup in Hvi as [Hvi [Hvf|Hvf]]; [|by apply elem_of_empty in Hvf].
    by apply (free_pool_ok (with_pool s1 q) i o). }
  split.
  - apply (inv_activate _ _ _ _ _ (with_pool s (BlockPool.free_block i q)) _ b0 rest k'); try done.
    + by apply inv_pool_change with (zs := ∅).
    + intros b' Hb'. cbn. rewrite Hf. by right.
    + apply Hs.
    + cbn. destruct (ev_blocks (evictor s) b0) as [h|] eqn:He; [|done].
      destruct (inv_evict _ _ _ _ _ _ Hs b0) as [_ Hn]; [by eexists|]. exfalso. apply Hn. rewrite Hf. left.
    + by left.
  - split; cbn; try done.
    intros j oj Hj. unfold objs. cbn. apply Hsame; [|by apply view_lookup in Hj as [? _]; eexists].
    intros ->. change (view ∅ s1) with (view ∅ s) in Hi. congruence.
Qed.

Lemma evict_loop_ok fuel : forall last s b s',
  ev_wf (evictor s) -> cached_blocks s <> ∅ \/ last = None ->
  evict_loop fuel last s = (Ok b, s') ->
  exists h e', s' = with_cached (with_evictor s e') (delete h (cached_blocks s)) /\
    cached_blocks s !! h = Some b /\ Ids.refcounts (ids s) !! b = Some 0 /\
    ev_wf e' /\ is_Some (ev_blocks (evictor s) b) /\ ev_blocks e' b = None /\
    forall j, is_Some (ev_blocks e' j) -> is_Some (ev_blocks (evictor s) j).
Proof.
  induction fuel as [|fuel IH]; intros last s b s' Hw Hl; cbn [evict_loop];
    run_get; (destruct (bool_decide_reflect (cached_blocks s = ∅)) as [Hemp|Hne];
      [destruct Hl as [? | ->]; done|]).
  { done. }
  intros ([b1 h1] & s1 & He & Hrest)%bind_ok. unfold on_evictor in He.
  destruct (ev_evict (evictor s)) as [r e1] eqn:Hev. injection He as -> <-.
  destruct (law_evict_ok _ _ _ _ Hw Hev) as (Hw1 & Hin1 & Hnone1 & Hsame1).
  assert (Hsub1 : forall j, is_Some (ev_blocks e1 j) -> is_Some (ev_blocks (evictor s) j)).
  { intros j Hj. destruct (decide (j = b1)) as [->|Hnj]; [done|]. by rewrite <- Hsame1. }
  assert (Hgo : evict_loop fuel (Some b1) (with_evictor s e1) = (Ok b, s') ->
    exists h e', s' = with_cached (with_evictor s e') (delete h (cached_blocks s)) /\
    cached_blocks s !! h = Some b /\ Ids.refcounts (ids s) !! b = Some 0 /\
    ev_wf e' /\ is_Some (ev_blocks (evictor s) b) /\ ev_blocks e' b = None /\
    forall j, is_Some (ev_blocks e' j) -> is_Some (ev_blocks (evictor s) j)).
  { intros Hgo. apply IH in Hgo as (h & e' & -> & H1 & H2 & H3 & H4 & H5 & H6); [|done|by left].
    exists h, e'. split; [done|]. split; [done|]. split; [done|]. split; [done|].
    split; [by apply Hsub1|]. split; [done|]. intros j Hj. by apply Hsub1, H6. }
  revert Hrest. run_get. cbn [cached_blocks with_evictor].
  destruct (cached_blocks s !! h1) as [b'|] eqn:Hc; [|done].
  destruct (bool_decide_reflect (b' = b1)) as [->|]; [|exact Hgo].
  intros (c & s2 & Hg & Hrest)%bind_ok. unfold lift, RefCounter.get in Hg. cbn in Hg.
  destruct (Ids.refcounts (ids s) !! b1) as [c'|] eqn:Hrc; [|done]. injection Hg as <- <-.
  destruct (Z.eqb_spec c' 0) as [->|]; [|exact (Hgo Hrest)]. injection Hrest as <- <-.
  exists h1, e1. done.
Qed.

Lemma evicted_ok d x zs s r s' :
  inv d x zs s -> (forall b, 0 <= d b) -> maybe_allocate_evicted_block_id s = (Ok r, s') ->
  match r with
  | None => s' = s
  | Some b => inv (fun b' => d b' + one b b') x zs s' /\ taken s s' b /\
      (forall zs, view zs s' = view zs s) /\
      Ids.free_block_indices (ids s') = Ids.free_block_indices (ids s) /\
      (forall j, is_Some (ev_blocks (evictor s') j) -> is_Some (ev_blocks (evictor s) j))
  end.
Proof.
  intros Hs Hd. unfold maybe_allocate_evicted_block_id. run_get.
  destruct (ev_num_blocks (evictor s) =? 0); [by intros [= <- <-]|].
  intros (b & s1 & Hl & Hrest)%bind_ok.
  apply evict_loop_ok in Hl as (h & e' & -> & Hc & Hrc & Hw & Hin & Hno & Hsub);
    [|apply Hs|by right].
  apply bind_ok in Hrest as (c & s2 & Hinc & Hrest). unfold on_ids in Hinc. cbn [ids with_cached with_evictor] in Hinc.
  rewrite (Ids.incr_spec _ _ _ Hrc ltac:(lia)) in Hinc. injection Hinc as <- <-.
  apply bind_ok in Hrest as ([] & s3 & Ht & Hrest). injection Hrest as <- <-.
  destruct (tracked _ _ _ _ _ _ Hs Hrc) as (Hall & k & Hk & _).
  apply (track_run _ _ _ k) in Ht as (k' & Hk' & ->); [|done].
  destruct (inv_evict _ _ _ _ _ _ Hs b Hin) as [_ Hnf].
  assert (Hunc : uncached (delete h (cached_blocks s)) b).
  { intros h' [Hne Hh']%lookup_delete_Some. apply Hne. by eapply (inv_inj _ _ _ _ _ _ Hs). }
  assert (Hkeep : forall h' b', cached_blocks s !! h' = Some b' -> b' <> b ->
    delete h (cached_blocks s) !! h' = Some b').
  { intros h' b' Hh' Hne. rewrite lookup_delete_ne; [done|]. intros ->. congruence. }
  split; [|split; [|done]].
  - eapply (inv_activate _ _ _ _ _ s _ b (Ids.free_block_indices (ids s)) k'); try done.
    + apply (Ids.is_nodup _ (inv_ids _ _ _ _ _ _ Hs)).
    + intros h' b' Hh'. cbn in Hh'. by apply lookup_delete_Some in Hh' as [_ ?].
    + intros h' b' Hh'. destruct (decide (b' = b)) as [->|Hne]; [by right|].
      left. by apply Hkeep.
  - split; cbn; try done. by intros h' b' [_ ?]%lookup_delete_Some.
Qed.

Lemma allocate_block_id_ok d x s b s' :
  inv d x ∅ s -> (forall b, 0 <= d b) -> allocate_block_id s = (Ok b, s') ->
  inv (fun b' => d b' + one b b') x ∅ s' /\ taken s s' b.
Proof.
  intros Hs Hd. unfold allocate_block_id. intros (r & s1 & Hr & Hrest)%bind_ok.
  pose proof (hashless_ok _ _ _ _ _ Hs Hr) as H1. destruct r as [b1|].
  { by injection Hrest as <- <-. }
  subst s1. apply bind_ok in Hrest as (r & s2 & Hr2 & Hrest).
  pose proof (evicted_ok _ _ _ _ _ _ Hs Hd Hr2) as H2. destruct r as [b2|]; [|done].
  injection Hrest as <- <-. by destruct H2 as (? & ? & _).
Qed.

(** ** Reference counts *)

(** [s'] is [s] with the object [p] rewritten to [o'] and other ids' counts kept. *)
Record rewritten zs s s' p o' (c : Z -> Z) : Prop := {
  rw_view : view zs s' = <[p := o']> (view zs s);
  rw_free : BlockPool.free_ids (pool s') = BlockPool.free_ids (pool s);
  rw_bsize : bsize s' = bsize s;
  rw_cached : cached_blocks s' = cached_blocks s;
  rw_cow : cow s' = cow s;
  rw_all : Ids.all_block_indices (ids s') = Ids.all_block_indices (ids s);
  rw_counts : forall b, Ids.refcount (ids s') b = Ids.refcount (ids s) b + c b
}.

Lemma refcount_insert (i : Ids.t) b c b' l a :
  Ids.refcount (Ids.Ids l a (<[b := c]> (Ids.refcounts i))) b'
  = if decide (b = b') then c else Ids.refcount i b'.
Proof.
  unfold Ids.refcount. cbn. case_decide; [subst; by rewrite lookup_insert_eq|].
  by rewrite lookup_insert_ne.
Qed.

Lemma refcount_of (i : Ids.t) b c : Ids.refcounts i !! b = Some c -> Ids.refcount i b = c.
Proof. intros H. unfold Ids.refcount. by rewrite H. Qed.

Lemma decr_hashless_ok d x zs s p o b s' :
  inv d x zs s -> 0 <= d b -> view zs s !! p = Some o -> block_id o = Some b ->
  uncached (cached_blocks s) b ->
  decr_refcount_hashless_block p s = (Ok tt, s') ->
  inv d x zs s' /\ rewritten zs s s' p (set_block_id o None) (fun b' => - one b b').
Proof.
  intros Hs Hd Hp Hb Hunc. unfold decr_refcount_hashless_block.
  rewrite (bind_step _ _ _ _ _ (obj_run zs s p o Hp)), Hb. run_get.
  destruct (count_ge _ _ _ _ _ _ _ Hs Hd Hp Hb) as (c & Hc & Hc1).
  rewrite bind_run. unfold lift, RefCounter.get. rewrite Hc. cbn [from_option_exn].
  destruct (tracked _ _ _ _ _ _ Hs Hc) as (Hall & k & Hk & Ha).
  set (s0 := with_pool s (BlockPool.set_obj p (set_block_id o None) (pool s))).
  assert (Hs0 : inv (fun b' => d b' + one b b') x zs s0).
  { eapply inv_ext; [|eapply (inv_put _ _ d x zs s p o); [done|done|done|intros h; by left|by apply id_ok_none]].
    intros b'. cbn beta. rewrite (points_some _ _ _ Hb), (points_none (set_block_id o None)) by done.
    unfold one. lia. }
  assert (Hview : view zs s0 = <[p := set_block_id o None]> (view zs s)) by by apply (view_set zs s p o).
  destruct (Z.eqb_spec c 1) as [->|Hc2].
  - destruct (untrack_run b s k Hk (proj2 Ha ltac:(lia))) as (k' & Hk' & Hut).
    rewrite (bind_step _ _ _ _ _ Hut), bind_run. unfold assign_block_id.
    assert (Hp1 : view zs (with_tracker s (<[b := k']> (block_tracker s))) !! p = Some o) by exact Hp.
    rewrite (bind_step _ _ _ _ _ (obj_run _ _ _ _ Hp1)). cbn [put modify]. unfold on_ids.
    cbn [ids with_pool with_tracker put modify].
    rewrite (Ids.free_spec _ _ _ Hc ltac:(lia)). intros [= <-]. cbn [Z.eqb Pos.eqb Z.sub].
    set (s' := with_ids _ _). split.
    + eapply (inv_ext _ _ (fun b' => d b' + one b b' - one b b')); [intros; lia|].
      apply (inv_deactivate _ _ _ _ _ s0 s' b (b :: Ids.free_block_indices (ids s)) k'); try done.
      * apply NoDup_cons. split; [|apply (inv_ids _ _ _ _ _ _ Hs)].
        intros Hin%(Ids.is_free _ (inv_ids _ _ _ _ _ _ Hs)). congruence.
      * intros b' [->|Hin]%elem_of_cons; [right|by left]. split; [done|]. split; [done|].
        destruct (ev_blocks (evictor s') b) as [h|] eqn:Hev; [|done].
        destruct (inv_evict _ _ _ _ _ _ Hs b) as [H0 _]; [by eexists|]. congruence.
      * apply Hs.
      * by left.
    + split; try done. intros b'. unfold s'. cbn [ids with_ids]. rewrite refcount_insert.
      unfold one. case_decide; [subst b'; rewrite (refcount_of _ _ _ Hc); lia|lia].
  - rewrite bind_run. cbn [mret M_ret]. rewrite bind_run. unfold assign_block_id.
    rewrite (bind_step _ _ _ _ _ (obj_run zs s p o Hp)). cbn [put modify]. unfold on_ids. cbn [ids with_pool put modify].
    rewrite (Ids.free_spec _ _ _ Hc ltac:(lia)), (proj2 (Z.eqb_neq c 1) Hc2). intros [= <-].
    set (s' := with_ids _ _). split.
    + eapply (inv_ext _ _ (fun b' => d b' + one b b' + (c - 1 - c) * one b b')); [intros; lia|].
      apply (inv_recount _ _ _ _ _ s0 s' b c (c - 1)); try done; lia.
    + split; try done. intros b'. unfold s'. cbn [ids with_ids]. rewrite refcount_insert.
      unfold one. case_decide; [subst b'; rewrite (refcount_of _ _ _ Hc); lia|lia].
Qed.

Lemma incr_cached_ok d x zs s p o b h s' :
  inv d x zs s -> view zs s !! p = Some o -> block_id o = Some b -> cached_blocks s !! h = Some b ->
  incr_refcount_cached_block p s = (Ok tt, s') ->
  inv (fun b' => d b' + one b b') x zs s' /\ rewritten zs s s' p (set_computed o true) (one b).
Proof.
  intros Hs Hp Hb Hcb. unfold incr_refcount_cached_block.
  rewrite (bind_step _ _ _ _ _ (obj_run zs s p o Hp)), bind_run. unfold put at 1. cbn [modify]. rewrite Hb.
  set (s0 := with_pool s (BlockPool.set_obj p (set_computed o true) (pool s))).
  assert (Hs0 : inv d x zs s0).
  { eapply inv_ext; [|eapply (inv_put _ _ d x zs s p o); [done|done|done|intros h'; by left|]].
    - intros b'. cbn beta. rewrite !(points_some _ b b') by done. lia.
    - eapply id_ok_extends; [apply extends_refl|done|done|].
      apply (oo_id _ _ _ _ _ _ _ _ (inv_objs _ _ _ _ _ _ Hs p o Hp)). }
  assert (Hview : view zs s0 = <[p := set_computed o true]> (view zs s)) by by apply (view_set zs s p o).
  destruct (inv_cached _ _ _ _ _ _ Hs h b Hcb) as [Hall Hnf].
  apply (Ids.is_dom _ (inv_ids _ _ _ _ _ _ Hs)) in Hall as [c Hc].
  pose proof (Ids.is_nonneg _ (inv_ids _ _ _ _ _ _ Hs) _ _ Hc) as Hc0.
  destruct (tracked _ _ _ _ _ _ Hs Hc) as (Hall & k & Hk & Ha).
  rewrite bind_run. unfold on_ids. cbn [ids s0 with_pool]. rewrite (Ids.incr_spec _ _ _ Hc Hc0).
  set (s1 := with_ids s0 _).
  destruct (Z.eqb_spec (c + 1) 1) as [Hc1|Hc1].
  - assert (c = 0) as -> by lia. run_get. intros ([] & s2 & He & Ht)%bind_ok.
    assert (Hev : exists e', s2 = with_evictor s1 e' /\ ev_wf e' /\ ev_blocks e' b = None /\
      forall j, is_Some (ev_blocks e' j) -> is_Some (ev_blocks (evictor s) j)).
    { change (evictor s1) with (evictor s) in He. destruct (ev_contains (evictor s) b) eqn:Hct.
      - unfold on_evictor in He. change (evictor s1) with (evictor s) in He.
        destruct (ev_remove b (evictor s)) as [r e'] eqn:Hr. injection He as -> <-.
        destruct (law_remove _ _ _ (inv_ev _ _ _ _ _ _ Hs) Hr) as (H1 & _ & H2 & H3).
        exists e'. split; [done|]. split; [done|]. split; [done|].
        intros j Hj. destruct (decide (j = b)) as [->|Hne]; [rewrite H2 in Hj; by destruct Hj|].
        by rewrite <- H3.
      - injection He as <-. exists (evictor s). split; [reflexivity|]. split; [apply Hs|].
        split; [|done]. destruct (ev_blocks (evictor s) b) as [y|] eqn:Hy; [|done].
        assert (Hy' : is_Some (ev_blocks (evictor s) b)) by by eexists.
        apply ev_contains_blocks in Hy'. congruence. }
    destruct Hev as (e' & -> & Hw & Hno & Hsub).
    apply (track_run _ _ _ k) in Ht as (k' & Hk' & ->); [|done]. split.
    + eapply (inv_activate _ _ _ _ _ s0 _ b (Ids.free_block_indices (ids s)) k'); try done.
      * apply (Ids.is_nodup _ (inv_ids _ _ _ _ _ _ Hs)).
      * by left.
    + split; try done. intros b'. cbn [ids with_ids with_tracker with_evictor s1 s0 with_pool Ids.with_refcounts].
      unfold Ids.with_refcounts. rewrite refcount_insert.
      unfold one. case_decide; [subst b'; rewrite (refcount_of _ _ _ Hc); lia|lia].
  - intros [= <-]. split.
    + eapply (inv_ext _ _ (fun b' => d b' + (c + 1 - c) * one b b')); [intros; lia|].
      apply (inv_recount _ _ _ _ _ s0 s1 b c (c + 1)); try done; lia.
    + split; try done. intros b'. unfold s1. cbn [ids with_ids]. unfold Ids.with_refcounts. rewrite refcount_insert.
      unfold one. case_decide; [subst b'; rewrite (refcount_of _ _ _ Hc); lia|lia].
Qed.

(** What releasing the id of a block does: remembered hashes aside, only the
    block and its id's count change. *)
Definition released zs s s' p o b : Prop :=
  exists s1 o1, quiet s s1 /\ view zs s1 !! p = Some o1 /\ strip o1 = strip o /\
    rewritten zs s1 s' p (set_block_id o1 None) (fun b' => - one b b').

Lemma obj_run_inv zs s p o o' s' :
  view zs s !! p = Some o -> obj p s = (Ok o', s') -> o' = o /\ s' = s.
Proof. intros Hp. rewrite (obj_run zs s p o Hp). by intros [= <- <-]. Qed.

Lemma decr_cached_ok d x zs s p o b s' :
  inv d x zs s -> 0 <= d b -> view zs s !! p = Some o -> block_id o = Some b ->
  is_full o = true -> x <> Some p ->
  decr_refcount_cached_block py_hash none_hash p s = (Ok tt, s') ->
  inv d x zs s' /\ released zs s s' p o b.
Proof.
  intros Hs0 Hd Hp0 Hb0 Hf Hx. unfold decr_refcount_cached_block. intros (r & s1 & Hch & Hrest)%bind_ok.
  destruct (content_hash_ok _ _ no_collision _ _ _ _ _ _ _ _ Hs0 Hp0 Hch) as (Hs & Hq & (o1 & Hp & Hst & _) & Hh).
  rewrite Hf in Hh. destruct Hh as (h & -> & Hh). revert Hrest.
  destruct (strip_same _ _ Hst) as (Hsame & Hbid & _). rewrite Hb0 in Hbid.
  assert (Hf1 : is_full o1 = true) by by rewrite (same_part_full o o1).
  rewrite (bind_step _ _ _ _ _ (obj_run zs s1 p o1 Hp)), Hbid.
  pose proof (oo_id _ _ _ _ _ _ _ _ (inv_objs _ _ _ _ _ _ Hs p o1 Hp) b Hbid) as Hid.
  rewrite decide_True in Hid by done. destruct Hid as (h' & Hh' & Hcb).
  rewrite <- (hashed_fun _ _ _ _ _ _ Hh Hh') in Hcb. clear h' Hh'.
  destruct (count_ge _ _ _ _ _ _ _ Hs Hd Hp Hbid) as (c & Hc & Hc1).
  destruct (tracked _ _ _ _ _ _ Hs Hc) as (Hall & k & Hk & Ha).
  set (s2 := with_pool s1 (BlockPool.set_obj p (set_block_id o1 None) (pool s1))).
  assert (Hs2 : inv (fun b' => d b' + one b b') x zs s2).
  { eapply inv_ext; [|eapply (inv_put _ _ d x zs s1 p o1); [done|done|done|intros h'; by left|by apply id_ok_none]].
    intros b'. cbn beta. rewrite (points_some _ _ _ Hbid), (points_none (set_block_id o1 None)) by done.
    unfold one. lia. }
  assert (Hview : view zs s2 = <[p := set_block_id o1 None]> (view zs s1)) by by apply (view_set zs s1 p o1).
  rewrite bind_run. unfold on_ids, Ids.counting, RefCounter.decr. rewrite Hc, (proj2 (Z.ltb_lt 0 c)) by lia.
  set (s3 := with_ids s1 _). destruct (Z.ltb_spec 0 (c - 1)) as [Hlt|Hge].
  - unfold assign_block_id. rewrite (bind_step _ _ _ _ _ (obj_run zs s3 p o1 Hp)). intros [= <-].
    set (s' := with_pool s3 _). split.
    + eapply (inv_ext _ _ (fun b' => d b' + one b b' + (c - 1 - c) * one b b')); [intros; lia|].
      apply (inv_recount _ _ _ _ _ s2 s' b c (c - 1)); try done; lia.
    + exists s1, o1. split; [done|]. split; [done|]. split; [done|]. split; try done.
      intros b'. cbn [s' s3 ids with_ids with_pool]. unfold Ids.with_refcounts. rewrite refcount_insert.
      unfold one. case_decide; [subst b'; rewrite (refcount_of _ _ _ Hc); lia|lia].
  - assert (c = 1) as -> by lia. rewrite (bind_step (assert_ (1 - 1 =? 0)) _ s3 tt s3 eq_refl). run_get.
    cbn [cached_blocks s3 with_ids]. rewrite Hcb.
    rewrite bool_decide_eq_true_2 by by eexists. rewrite (bind_step (assert_ true) _ s3 tt s3 eq_refl).
    rewrite bind_run. unfold lift. cbn [block_tracker s3 with_ids]. rewrite Hk. cbn [from_option_exn].
    intros ([] & s4 & Hadd & Hrest)%bind_ok. unfold on_evictor in Hadd. cbn [evictor s3 with_ids] in Hadd.
    destruct (ev_add b h _ _ _ (evictor s1)) as [ra e'] eqn:Hea. injection Hadd as -> <-.
    destruct (law_add _ _ _ _ _ _ _ (inv_ev _ _ _ _ _ _ Hs) Hea) as (Hw & Hin & Hkeep).
    destruct (untrack_run b (with_evictor s3 e') k Hk (proj2 Ha ltac:(lia))) as (k' & Hk' & Hut).
    rewrite (bind_step _ _ _ _ _ Hut) in Hrest. unfold assign_block_id in Hrest.
    set (s5 := with_tracker _ _) in Hrest.
    rewrite (bind_step _ _ _ _ _ (obj_run zs s5 p o1 Hp)) in Hrest. injection Hrest as <-.
    set (s' := with_pool s5 _). split.
    + eapply (inv_ext _ _ (fun b' => d b' + one b b' - one b b')); [intros; lia|].
      apply (inv_deactivate _ _ _ _ _ s2 s' b (Ids.free_block_indices (ids s1)) k'); try done.
      * apply (inv_ids _ _ _ _ _ _ Hs).
      * by left.
      * intros j Hj. destruct (decide (j = b)) as [->|Hne]; [by right|]. left.
        change (is_Some (ev_blocks e' j)) in Hj. by rewrite Hkeep in Hj.
    + exists s1, o1. split; [done|]. split; [done|]. split; [done|]. split; try done.
      intros b'. cbn [s' s5 s3 ids with_ids with_pool with_tracker with_evictor].
      unfold Ids.with_refcounts. rewrite refcount_insert.
      unfold one. case_decide; [subst b'; rewrite (refcount_of _ _ _ Hc); lia|lia].
Qed.

(** A block that is not full holds an uncached id. *)
Lemma part_full_uncached d x zs s p o b :
  inv d x zs s -> view zs s !! p = Some o -> block_id o = Some b ->
  is_full o = false \/ x = Some p -> uncached (cached_blocks s) b.
Proof.
  intros Hs Hp Hb Hf. pose proof (oo_id _ _ _ _ _ _ _ _ (inv_objs _ _ _ _ _ _ Hs p o Hp) b Hb) as Hid.
  rewrite decide_False in Hid; [done|]. intros [H1 H2]. destruct Hf; congruence.
Qed.

Lemma free_block_id_ok d x zs s p o s' :
  inv d x zs s -> (forall b, 0 <= d b) -> view zs s !! p = Some o -> x <> Some p ->
  free_block_id py_hash none_hash p s = (Ok tt, s') ->
  exists b, block_id o = Some b /\ inv d x zs s' /\ released zs s s' p o b.
Proof.
  intros Hs Hd Hp Hx. unfold free_block_id. rewrite (bind_step _ _ _ _ _ (obj_run zs s p o Hp)).
  destruct (block_id o) as [b|] eqn:Hb; [|done]. intros (r & s1 & Hch & Hrest)%bind_ok.
  destruct (content_hash_ok _ _ no_collision _ _ _ _ _ _ _ _ Hs Hp Hch)
    as (Hs1 & Hq & (o1 & Hp1 & Hst & _) & Hh).
  destruct (strip_same _ _ Hst) as (Hsame & Hbid & _). rewrite Hb in Hbid.
  pose proof (same_part_full _ _ Hsame) as Hf1.
  apply bind_ok in Hrest as ([] & s2 & Hdec & Hrest).
  assert (Hs' : s2 = s').
  { apply bind_ok in Hrest as (o' & s3 & Ho' & Ha). unfold obj in Ho'.
    injection Ho' as _ <-. destruct (bool_decide _); [by injection Ha as <-|done]. }
  subst s2. clear Hrest. exists b. split; [done|]. destruct (is_full o) eqn:Hf.
  - destruct Hh as (h & -> & _).
    destruct (decr_cached_ok _ _ _ _ _ _ _ _ Hs1 (Hd b) Hp1 Hbid Hf1 Hx Hdec) as (Hs' & s2 & o2 & Hq2 & Hp2 & Hst2 & Hrw).
    split; [done|]. exists s2, o2. split; [by eapply quiet_trans|]. split; [done|]. by rewrite Hst2.
  - subst r. pose proof (part_full_uncached _ _ _ _ _ _ _ Hs1 Hp1 Hbid (or_introl Hf1)) as Hunc.
    destruct (decr_hashless_ok _ _ _ _ _ _ _ _ Hs1 (Hd b) Hp1 Hbid Hunc Hdec) as [Hs' Hrw].
    split; [done|]. by exists s1, o1.
Qed.

(** ** Appending *)

Lemma contents_exist_set L p o o' q l :
  L !! p = Some o -> prev_block o' = prev_block o ->
  contents L q l -> exists l', contents (<[p := o']> L) q l'.
Proof.
  intros Hp Hprev Hc. induction Hc as [|r or l Hr Hc [l' IH]]; [exists []; constructor|].
  destruct (decide (p = r)) as [<-|Hne].
  - exists (l' ++ [part_of o']). rewrite Hp in Hr. injection Hr as <-.
    econstructor; [apply lookup_insert_eq|]. by rewrite Hprev.
  - exists (l' ++ [part_of or]). econstructor; [by rewrite lookup_insert_ne|done].
Qed.

(** Filling a block that is not full leaves the contents of full blocks alone. *)
Lemma full_contents_set d x zs s p o o' q l :
  inv d x zs s -> view zs s !! p = Some o -> is_full o = false ->
  is_full_in (view zs s) q ->
  contents (view zs s) (Some q) l -> contents (<[p := o']> (view zs s)) (Some q) l.
Proof.
  intros Hs Hp Hnf Hq Hc. remember (Some q) as sq eqn:Hsq. revert q Hq Hsq.
  induction Hc as [|r or l Hr Hc IH]; intros q Hq Hsq; [done|]. injection Hsq as ->.
  destruct Hq as (oq & Hoq & Hf). rewrite Hr in Hoq. injection Hoq as <-.
  econstructor.
  - rewrite lookup_insert_ne; [exact Hr|]. intros ->. congruence.
  - pose proof (inv_objs _ _ _ _ _ _ Hs q or Hr) as Hok.
    destruct (prev_block or) as [q'|] eqn:Hprev; [|inversion Hc; constructor].
    apply (IH q'); [|done]. apply (po_full _ _ _ (oo_prev _ _ _ _ _ _ _ _ Hok)); [done|].
    apply (full_nonempty or (bsize s)); [apply Hok|apply Hs|done].
Qed.

Lemma put_tokens_ok d s p o b toks :
  inv d None ∅ s -> view ∅ s !! p = Some o -> is_full o = false -> block_id o = Some b ->
  (forall q, prev_block o = Some q -> is_full_in (view ∅ s) q) ->
  Z.of_nat (length (token_ids o ++ toks)) <= bsize s ->
  inv d (Some p) ∅
    (with_pool s (BlockPool.set_obj p (set_tokens o (token_ids o ++ toks)) (pool s))).
Proof.
  intros Hs Hp Hnf Hb Hprev Hlen. set (o1 := set_tokens o (token_ids o ++ toks)).
  pose proof (inv_objs _ _ _ _ _ _ Hs p o Hp) as Hok.
  pose proof (part_full_uncached _ _ _ _ _ _ _ Hs Hp Hb (or_introl Hnf)) as Hunc.
  pose proof (fun q l h Hq Hl => full_contents_set _ _ _ _ p o o1 q l Hs Hp Hnf Hq Hl) as Hfull.
  assert (Hnotp : forall q oq, view ∅ s !! q = Some oq -> token_ids oq <> [] -> prev_block oq <> Some p).
  { intros q oq Hq Hne Hpr.
    destruct (po_full _ _ _ (oo_prev _ _ _ _ _ _ _ _ (inv_objs _ _ _ _ _ _ Hs q oq Hq)) p Hpr Hne) as (o2 & Ho2 & Hf2).
    congruence. }
  assert (Hkeepfull : forall q, is_full_in (view ∅ s) q -> is_full_in (<[p := o1]> (view ∅ s)) q).
  { intros q (oq & Hoq & Hf). exists oq. rewrite lookup_insert_ne; [done|]. intros ->. congruence. }
  assert (Hhash : forall q h, hashed (view ∅ s) q h -> hashed (<[p := o1]> (view ∅ s)) q h).
  { intros q h [Hq (l & Hl & Hh)]. split; [by apply Hkeepfull|]. exists l. split; [|done]. by apply Hfull. }
  pose proof (view_set ∅ s p o o1 Hp) as Hv.
  destruct Hs. split; cbn; try done; rewrite ?Hv.
  - eapply pool_set_ok; [done|]. by apply view_lookup in Hp as [? _].
  - intros b'. rewrite (owners_set _ _ _ _ _ Hp), inv_counts.
    change (points o1 b') with (points o b'). lia.
  - intros q oq. destruct (decide (p = q)) as [<-|Hne].
    + rewrite lookup_insert_eq. intros [= <-]. split; try done.
      * apply Hok.
      * split; [|intros q Hq _; by apply Hkeepfull, Hprev].
        intros q Hq. destruct (po_live _ _ _ (oo_prev _ _ _ _ _ _ _ _ Hok) q Hq) as [oq Hoq].
        destruct (decide (p = q)) as [<-|]; [rewrite lookup_insert_eq; by eexists|].
        rewrite lookup_insert_ne by done. by eexists.
      * destruct (oo_contents _ _ _ _ _ _ _ _ Hok) as [l Hl]. by eapply contents_exist_set.
      * intros h Hh. by apply Hhash, (oo_hash _ _ _ _ _ _ _ _ Hok).
      * intros b' Hb'. rewrite decide_False by tauto. change (block_id o = Some b') in Hb'.
        rewrite Hb in Hb'. by injection Hb' as <-.
    + rewrite lookup_insert_ne by done. intros Hq. destruct (inv_objs q oq Hq) as [H1 H2 [H3 H3'] [l H4] H5 H6].
      split; try done.
      * split; [intros r Hr; apply lookup_insert_is_Some'; right; by apply H3|].
        intros r Hr Hne'. by apply Hkeepfull, H3'.
      * by eapply contents_exist_set.
      * intros h Hh. by apply Hhash, H5.
      * intros b' Hb'. specialize (H6 b' Hb'). destruct (decide (is_full oq = true)) as [Hf|Hf].
        -- rewrite decide_True in H6 by done. rewrite decide_True by (split; [done|congruence]).
           destruct H6 as (h & Hh & Hc). exists h. split; [by apply Hhash|done].
        -- rewrite decide_False in H6 by tauto. by rewrite decide_False by tauto.
Qed.

(** The block being filled is done. *)
Lemma inv_filled d zs s p o :
  inv d (Some p) zs s -> view zs s !! p = Some o ->
  (is_full o = true -> forall b, block_id o = Some b -> exists h, hashed (view zs s) p h /\ cached_blocks s !! h = Some b) ->
  inv d None zs s.
Proof.
  intros [] Hp Hf. split; try done. intros q oq Hq. destruct (inv_objs q oq Hq). split; try done.
  intros b Hb. specialize (oo_id b Hb). destruct (decide (p = q)) as [<-|Hne].
  - rewrite Hp in Hq. injection Hq as <-. rewrite decide_False in oo_id by tauto.
    case_decide as Hd; [|done]. apply Hf; [tauto|done].
  - destruct (is_full oq) eqn:Hfq.
    + rewrite decide_True in oo_id by (split; [done|congruence]). by rewrite decide_True.
    + rewrite decide_False in oo_id by (intros [? _]; done). by rewrite decide_False by (intros [? _]; done).
Qed.

(** All other blocks are as they were. *)
Definition others_kept p s s' : Prop :=
  forall q, q <> p -> strip <$> view ∅ s' !! q = strip <$> view ∅ s !! q.

Lemma others_refl p s : others_kept p s s.
Proof. done. Qed.
Lemma others_trans p s1 s2 s3 : others_kept p s1 s2 -> others_kept p s2 s3 -> others_kept p s1 s3.
Proof. intros H1 H2 q Hq. by rewrite H2, H1. Qed.
Lemma others_set p s s' o' : view ∅ s' = <[p := o']> (view ∅ s) -> others_kept p s s'.
Proof. intros H q Hq. by rewrite H, lookup_insert_ne. Qed.
Lemma others_view p s s' : view ∅ s' = view ∅ s -> others_kept p s s'.
Proof. intros H q Hq. by rewrite H. Qed.
Lemma others_quiet p s s' : quiet s s' -> others_kept p s s'.
Proof.
  intros Hq q _. destruct (view ∅ s !! q) as [o|] eqn:Hv.
  - destruct (quiet_view _ _ _ _ _ Hq Hv) as (o' & -> & Hs). cbn. by rewrite Hs.
  - destruct (view ∅ s' !! q) as [o'|] eqn:Hv'; [|done].
    destruct (quiet_view_back _ _ _ _ _ Hq Hv') as (o & Ho & _). congruence.
Qed.

Lemma zero_nonneg b : 0 <= zero b.
Proof. done. Qed.

(** Copy-on-write leaves the block with an id that it alone holds. *)
Lemma prefix_cow_ok s p o b b' s1 s2 :
  inv zero (Some p) ∅ s -> view ∅ s !! p = Some o -> block_id o = Some b ->
  cow_block_if_not_appendable p s = (Ok b', s1) -> assign_block_id p (Some b') s1 = (Ok tt, s2) ->
  inv zero (Some p) ∅ s2 /\ view ∅ s2 !! p = Some (set_block_id o (Some b')) /\
  Ids.refcounts (ids s2) !! b' = Some 1 /\ others_kept p s s2 /\ bsize s2 = bsize s /\
  if decide (Ids.refcount (ids s) b = 1) then b' = b /\ cow s2 = cow s
  else Ids.refcount (ids s) b' = 0 /\ cow s2 = cow s ++ [(b, b')].
Proof.
  intros Hs Hp Hb. unfold cow_block_if_not_appendable.
  rewrite (bind_step _ _ _ _ _ (obj_run ∅ s p o Hp)), Hb. run_get.
  destruct (count_ge _ _ _ _ _ _ _ Hs (zero_nonneg b) Hp Hb) as (c & Hc & Hc1).
  pose proof (part_full_uncached _ _ _ _ _ _ _ Hs Hp Hb (or_intror eq_refl)) as Hunc.
  rewrite bind_run. unfold lift, Cow.is_appendable, RefCounter.get. rewrite Hc. cbn.
  rewrite (refcount_of _ _ _ Hc). destruct (Z.leb_spec c 1) as [Hle|Hgt].
  - intros [= <- <-] Ha. assert (c = 1) as -> by lia. rewrite decide_True by done.
    destruct (assign_ok _ _ _ _ _ o (Some b) _ Hs Hp Ha) as (-> & Hv & Hs2).
    { intros b2 [= <-]. by rewrite decide_False by tauto. }
    split; [|split; [|split; [|split; [|done]]]].
    + eapply inv_ext; [|exact Hs2]. intros b2. cbn beta. rewrite !(points_some _ b b2) by done. unfold zero. lia.
    + by rewrite Hv, lookup_insert_eq.
    + done.
    + by eapply others_set.
  - rewrite decide_False by lia. intros ([] & s3 & Hd & Hrest)%bind_ok.
    destruct (decr_hashless_ok _ _ _ _ _ _ _ _ Hs (zero_nonneg b) Hp Hb Hunc Hd) as [Hs3 Hrw].
    apply bind_ok in Hrest as (trg & s4 & Hal & Hrest).
    destruct (allocate_block_id_ok _ _ _ _ _ Hs3 zero_nonneg Hal) as [Hs4 Htk].
    apply bind_ok in Hrest as ([] & s5 & Hcow & Hrest). injection Hrest as <- <-.
    unfold on_cow in Hcow. cbn in Hcow. injection Hcow as <-. intros Ha.
    set (s5 := with_cow s4 _) in Ha.
    assert (Hs5 : inv (fun b' => zero b' + one trg b') (Some p) ∅ s5).
    { eapply inv_frame; [exact Hs4|done|done|done|done| |apply Hs4|done].
      intros b2 k Hk. by exists k. }
    assert (Hv5 : view ∅ s5 = <[p := set_block_id o None]> (view ∅ s)).
    { change (view ∅ s5) with (view ∅ s4). by rewrite (tk_view _ _ _ Htk), (rw_view _ _ _ _ _ _ Hrw). }
    assert (Hp5 : view ∅ s5 !! p = Some (set_block_id o None)) by by rewrite Hv5, lookup_insert_eq.
    destruct (assign_ok _ _ _ _ _ _ (Some trg) _ Hs5 Hp5 Ha) as (-> & Hv & Hs2).
    { intros b2 [= <-]. rewrite decide_False by tauto. apply (tk_uncached _ _ _ Htk). }
    split; [|split; [|split; [|split; [|split; [|split]]]]].
    + eapply inv_ext; [|exact Hs2]. intros b2. cbn beta.
      rewrite (points_none (set_block_id o None)) by done. rewrite (points_some _ trg b2) by done.
      unfold zero, one. lia.
    + by rewrite Hv, lookup_insert_eq.
    + change (Ids.refcounts (ids s4) !! trg = Some 1). by rewrite (tk_refs _ _ _ Htk), lookup_insert_eq.
    + intros q Hq. by rewrite Hv, Hv5, !lookup_insert_ne by done.
    + change (bsize s4 = bsize s). by rewrite (tk_bsize _ _ _ Htk), (rw_bsize _ _ _ _ _ _ Hrw).
    + pose proof (rw_counts _ _ _ _ _ _ Hrw trg) as Hct.
      rewrite (refcount_of _ _ _ (tk_zero _ _ _ Htk)) in Hct. unfold one in Hct.
      destruct (decide (b = trg)) as [<-|]; [rewrite (refcount_of _ _ _ Hc) in Hct|]; lia.
    + cbn. by rewrite (tk_cow _ _ _ Htk), (rw_cow _ _ _ _ _ _ Hrw).
Qed.

(** A full block whose content is new is cached under its own id. *)
Lemma promote_new_ok s s' p o b h :
  inv zero (Some p) ∅ s -> view ∅ s !! p = Some o -> block_id o = Some b ->
  Ids.refcounts (ids s) !! b = Some 1 -> hashed (view ∅ s) p h -> cached_blocks s !! h = None ->
  pool s' = pool s -> ids s' = ids s -> bsize s' = bsize s -> block_tracker s' = block_tracker s ->
  evictor s' = evictor s -> cached_blocks s' = <[h := b]> (cached_blocks s) ->
  inv zero None ∅ s'.
Proof.
  intros Hs Hp Hb Hrc Hh Hnew E1 E2 E3 E4 E5 E6.
  pose proof (part_full_uncached _ _ _ _ _ _ _ Hs Hp Hb (or_intror eq_refl)) as Hunc.
  destruct (tracked _ _ _ _ _ _ Hs Hrc) as [Hall _].
  assert (Hv : view ∅ s' = view ∅ s) by (unfold view, objs; by rewrite E1).
  assert (Hnf : b ∉ Ids.free_block_indices (ids s)).
  { intros Hin%(Ids.is_free _ (inv_ids _ _ _ _ _ _ Hs)). congruence. }
  destruct Hs. split; rewrite ?Hv, ?E1, ?E2, ?E3, ?E4, ?E5, ?E6; try done.
  - intros h1 h2 b' [[<- <-]|[Hn1 H1]]%lookup_insert_Some [[<- ?]|[Hn2 H2]]%lookup_insert_Some; try done.
    + by apply Hunc in H2.
    + subst b'. by apply Hunc in H1.
    + by eapply inv_inj.
  - intros h' b' [[_ <-]|[_ H']]%lookup_insert_Some; [done|by eapply inv_cached].
  - intros q oq Hq. destruct (inv_objs q oq Hq) as [H1 H2 H3 H4 H5 H6]. split; try done.
    intros b' Hb'. specialize (H6 b' Hb'). destruct (decide (p = q)) as [<-|Hne].
    + rewrite Hp in Hq. injection Hq as <-. rewrite Hb in Hb'. injection Hb' as <-.
      destruct Hh as [(o2 & Ho2 & Hf) Hh]. rewrite Hp in Ho2. injection Ho2 as <-.
      rewrite decide_True by done. exists h. split; [split; [by exists o|done]|]. by rewrite lookup_insert_eq.
    + assert (Hbb : b' <> b).
      { intros ->. pose proof (owners_two _ _ _ _ _ _ Hne Hp Hq Hb Hb') as H2'.
        specialize (inv_counts b). rewrite (refcount_of _ _ _ Hrc) in inv_counts. unfold zero in inv_counts. lia. }
      destruct (is_full oq) eqn:Hfq.
      * rewrite decide_True in H6 by (split; [done|congruence]). rewrite decide_True by done.
        destruct H6 as (h' & Hh' & Hc'). exists h'. split; [done|].
        rewrite lookup_insert_ne; [done|]. intros <-. congruence.
      * rewrite decide_False in H6 by (intros [? _]; done). rewrite decide_False by (intros [? _]; done).
        intros h' [[_ ?]|[_ Hh']]%lookup_insert_Some; [by subst b'|by apply H6 in Hh'].
Qed.

Lemma quiet_fields s s' : quiet s s' ->
  ids s' = ids s /\ bsize s' = bsize s /\ cached_blocks s' = cached_blocks s /\ cow s' = cow s.
Proof. intros [-> _ _]. done. Qed.

Lemma promote_ok s p o b b' s1 s2 :
  inv zero (Some p) ∅ s -> view ∅ s !! p = Some o -> is_full o = true -> block_id o = Some b ->
  Ids.refcounts (ids s) !! b = Some 1 ->
  promote_to_immutable_block py_hash none_hash p s = (Ok b', s1) ->
  assign_block_id p (Some b') s1 = (Ok tt, s2) ->
  inv zero None ∅ s2 /\ others_kept p s s2 /\ bsize s2 = bsize s /\ cow s2 = cow s /\
  exists o', view ∅ s2 !! p = Some o' /\ same_part o o' /\ block_id o' = Some b'.
Proof.
  intros Hs0 Hp0 Hf0 Hb0 Hrc0. unfold promote_to_immutable_block. intros (r & s3 & Hch & Hrest)%bind_ok Ha.
  destruct (content_hash_ok _ _ no_collision _ _ _ _ _ _ _ _ Hs0 Hp0 Hch)
    as (Hs & Hq & (o1 & Hp & Hst & _) & Hh).
  rewrite Hf0 in Hh. destruct Hh as (h & -> & Hh).
  destruct (strip_same _ _ Hst) as (Hsame & Hb & _). rewrite Hb0 in Hb.
  destruct (quiet_fields _ _ Hq) as (Eids & Ebs & Ec & Ecow).
  assert (Hrc : Ids.refcounts (ids s3) !! b = Some 1) by by rewrite Eids.
  assert (Hf : is_full o1 = true) by by rewrite (same_part_full o o1).
  revert Hrest. rewrite (bind_step _ _ _ _ _ (obj_run _ _ _ _ Hp)), Hb. run_get.
  rewrite bind_run. unfold lift, RefCounter.get. rewrite Hrc. cbn [from_option_exn].
  change (0 <? 1) with true. rewrite (bind_step (assert_ true) _ s3 tt s3 eq_refl).
  destruct (cached_blocks s3 !! h) as [b1|] eqn:Hcb.
  - intros ([] & s4 & Hd & Hrest)%bind_ok.
    pose proof (part_full_uncached _ _ _ _ _ _ _ Hs Hp Hb (or_intror eq_refl)) as Hunc.
    destruct (decr_hashless_ok _ _ _ _ _ _ _ _ Hs (zero_nonneg b) Hp Hb Hunc Hd) as [Hs4 Hrw].
    assert (Hp4 : view ∅ s4 !! p = Some (set_block_id o1 None)).
    { by rewrite (rw_view _ _ _ _ _ _ Hrw), lookup_insert_eq. }
    apply (inv_filled _ _ _ _ (set_block_id o1 None)) in Hs4; [|done|done].
    assert (Hh4 : hashed (view ∅ s4) p h).
    { rewrite (rw_view _ _ _ _ _ _ Hrw). eapply extends_hashed; [|done]. by apply (extends_set _ _ o1). }
    apply bind_ok in Hrest as ([] & s5 & Ha5 & Hrest).
    destruct (assign_ok _ _ _ _ _ _ (Some b1) _ Hs4 Hp4 Ha5) as (-> & Hv5 & Hs5).
    { intros b2 [= <-]. rewrite decide_True by (by split).
      exists h. split; [done|]. by rewrite (rw_cached _ _ _ _ _ _ Hrw). }
    set (s5 := with_pool s4 _) in *. set (o5 := set_block_id (set_block_id o1 None) (Some b1)) in *.
    apply bind_ok in Hrest as ([] & s6 & Hi & Hrest). injection Hrest as <- <-.
    assert (Hp5 : view ∅ s5 !! p = Some o5) by by rewrite Hv5, lookup_insert_eq.
    destruct (incr_cached_ok _ _ _ _ _ o5 b1 h s6 Hs5 Hp5 eq_refl) as [Hs6 Hrw6]; [|done|].
    { change (cached_blocks s4 !! h = Some b1). by rewrite (rw_cached _ _ _ _ _ _ Hrw). }
    assert (Hp6 : view ∅ s6 !! p = Some (set_computed o5 true)).
    { by rewrite (rw_view _ _ _ _ _ _ Hrw6), lookup_insert_eq. }
    destruct (assign_ok _ _ _ _ _ _ (Some b1) _ Hs6 Hp6 Ha) as (-> & Hv2 & Hs2).
    { apply (oo_id _ _ _ _ _ _ _ _ (inv_objs _ _ _ _ _ _ Hs6 p _ Hp6)). }
    split; [|split; [|split; [|split]]].
    + eapply inv_ext; [|exact Hs2]. intros b2. cbn beta.
      rewrite (points_none (set_block_id o1 None)) by done. rewrite !(points_some _ b1 b2) by done.
      unfold zero, one. lia.
    + eapply others_trans; [by eapply others_quiet|]. intros q Hqp.
      by rewrite Hv2, (rw_view _ _ _ _ _ _ Hrw6), Hv5, (rw_view _ _ _ _ _ _ Hrw), !lookup_insert_ne by done.
    + change (bsize s6 = bsize s). rewrite (rw_bsize _ _ _ _ _ _ Hrw6).
      change (bsize s4 = bsize s). by rewrite (rw_bsize _ _ _ _ _ _ Hrw).
    + change (cow s6 = cow s). rewrite (rw_cow _ _ _ _ _ _ Hrw6).
      change (cow s4 = cow s). by rewrite (rw_cow _ _ _ _ _ _ Hrw).
    + eexists. rewrite Hv2, lookup_insert_eq. split; [reflexivity|]. split; [|done].
      by destruct Hsame.
  - rewrite bind_run. cbn [modify]. intros [= <- <-]. set (s4 := with_touched _ _) in Ha.
    assert (Hs4 : inv zero None ∅ s4) by by eapply (promote_new_ok s3 s4 p o1 b h).
    assert (Hp4 : view ∅ s4 !! p = Some o1) by done.
    destruct (assign_ok _ _ _ _ _ _ (Some b) _ Hs4 Hp4 Ha) as (-> & Hv2 & Hs2).
    { eapply id_ok_extends; [apply extends_refl|apply same_part_refl| |].
      2: { replace (set_block_id o1 (Some b)) with o1; [|by destruct o1; cbn in Hb; subst].
           apply (oo_id _ _ _ _ _ _ _ _ (inv_objs _ _ _ _ _ _ Hs4 p _ Hp4)). }
      done. }
    split; [|split; [|split; [|split]]].
    + eapply inv_ext; [|exact Hs2]. intros b2. cbn beta.
      rewrite (points_some _ b b2 Hb), (points_some _ b b2) by done. unfold zero. lia.
    + eapply others_trans; [by eapply others_quiet|]. intros q Hqp.
      rewrite Hv2, lookup_insert_ne by done. done.
    + done.
    + done.
    + eexists. rewrite Hv2, lookup_insert_eq. split; [reflexivity|]. split; [|done]. by destruct Hsame.
Qed.

(** [PrefixCachingBlock.append_token_ids] *)
Lemma append_token_ids_ok s p o b toks s' :
  inv zero None ∅ s -> view ∅ s !! p = Some o -> block_id o = Some b ->
  (forall q, prev_block o = Some q -> is_full_in (view ∅ s) q) ->
  append_token_ids py_hash none_hash p toks s = (Ok tt, s') ->
  inv zero None ∅ s' /\ others_kept p s s' /\ bsize s' = bsize s /\
  exists o', view ∅ s' !! p = Some o' /\ token_ids o' = token_ids o ++ toks /\
    prev_block o' = prev_block o /\ extra_hash o' = extra_hash o /\ is_Some (block_id o').
Proof.
  intros Hs0 Hp0 Hb0 Hprev0. unfold append_token_ids. intros (r & s1 & Hch & Hrest)%bind_ok.
  destruct (content_hash_ok _ _ no_collision _ _ _ _ _ _ _ _ Hs0 Hp0 Hch)
    as (Hs & Hq & (o1 & Hp & Hst & _) & Hh).
  destruct (quiet_fields _ _ Hq) as (Eids & Ebs & Ec & Ecow).
  destruct (strip_same _ _ Hst) as (Hsame & Hb & _). rewrite Hb0 in Hb.
  destruct Hsame as [E1 E2 E3 E4]. destruct (is_full o) eqn:Hnf.
  { destruct Hh as (h & -> & _). done. }
  subst r. assert (Hnf1 : is_full o1 = false) by (rewrite (same_part_full o o1); [done|by split]).
  rewrite (bind_step (assert_ true) _ s1 tt s1 eq_refl) in Hrest.
  rewrite (bind_step _ _ _ _ _ (obj_run _ _ _ _ Hp)) in Hrest.
  destruct (computed o1) eqn:Hcomp; [done|].
  rewrite (bind_step (assert_ true) _ s1 tt s1 eq_refl) in Hrest.
  destruct toks as [|y toks].
  { injection Hrest as <-. split; [done|]. split; [by apply others_quiet|]. split; [done|].
    exists o1. rewrite app_nil_r. repeat (split; [congruence|]). by eexists. }
  set (ts := y :: toks) in *. apply bind_ok in Hrest as ([] & s4 & Hin & Hrest).
  unfold inner_append_token_ids in Hin. rewrite (bind_step _ _ _ _ _ (obj_run _ _ _ _ Hp)) in Hin.
  unfold append_token_ids_no_cow in Hin. change (match ts with [] => _ | _ => ?z end) with z in Hin.
  destruct (Z.leb_spec (Z.of_nat (length ts)) (num_empty_slots o1)) as [Hle|]; [|done].
  set (o2 := set_tokens o1 (token_ids o1 ++ ts)) in *.
  rewrite bind_run in Hin. unfold put at 1 in Hin. cbn [modify] in Hin.
  set (s2 := with_pool s1 _) in Hin.
  assert (Hs2 : inv zero (Some p) ∅ s2).
  { apply (put_tokens_ok _ _ _ _ b); [done|done|done|done| |].
    - rewrite E1. intros q Hpr. by eapply extends_full; [eapply quiet_extends|apply Hprev0].
    - unfold num_empty_slots in Hle. rewrite (oo_size _ _ _ _ _ _ _ _ (inv_objs _ _ _ _ _ _ Hs p o1 Hp)) in Hle.
      rewrite length_app. lia. }
  assert (Hv2 : view ∅ s2 = <[p := o2]> (view ∅ s1)) by by apply (view_set ∅ s1 p o1).
  assert (Hp2 : view ∅ s2 !! p = Some o2) by by rewrite Hv2, lookup_insert_eq.
  change (block_id o2) with (block_id o1) in Hin. rewrite Hb in Hin.
  apply bind_ok in Hin as (b' & s3 & Hcow & Hasg).
  destruct (prefix_cow_ok _ _ _ _ _ _ _ Hs2 Hp2 Hb Hcow Hasg) as (Hs4 & Hp4 & Hrc4 & Hoth4 & Hbs4 & _).
  set (o4 := set_block_id o2 (Some b')) in *.
  apply bind_ok in Hrest as ([] & s5 & Hup & Hrest). unfold update_num_tokens_total in Hup.
  rewrite (bind_step _ _ _ _ _ (obj_run _ _ _ _ Hp4)) in Hup. revert Hup. run_get. intros [= <-].
  set (o5 := set_total o4 _) in *. set (s5 := with_pool s4 _) in *.
  assert (Hv5 : view ∅ s5 = <[p := o5]> (view ∅ s4)) by by apply (view_set ∅ s4 p o4).
  assert (Hp5 : view ∅ s5 !! p = Some o5) by by rewrite Hv5, lookup_insert_eq.
  assert (Hs5 : inv zero (Some p) ∅ s5).
  { eapply inv_ext; [|eapply (inv_put _ _ zero _ ∅ s4 p o4 o5); [done|done|done|intros h; by left|]].
    - intros b2. cbn beta. rewrite !(points_some _ b' b2) by done. unfold zero. lia.
    - eapply (id_ok_extends _ _ _ _ _ _ _ o4 o5); [apply extends_refl|done|done|].
      apply (oo_id _ _ _ _ _ _ _ _ (inv_objs _ _ _ _ _ _ Hs4 p _ Hp4)). }
  apply bind_ok in Hrest as (r & s6 & Hch6 & Hrest).
  destruct (content_hash_ok _ _ no_collision _ _ _ _ _ _ _ _ Hs5 Hp5 Hch6)
    as (Hs6 & Hq6 & (o6 & Hp6 & Hst6 & _) & Hh6).
  destruct (quiet_fields _ _ Hq6) as (Eids6 & Ebs6 & Ec6 & Ecow6).
  destruct (strip_same _ _ Hst6) as (Hsame6 & Hb6 & _).
  assert (Hoth6 : others_kept p s s6).
  { eapply others_trans; [by eapply others_quiet|]. eapply others_trans; [by eapply (others_set _ s1 s2)|].
    eapply others_trans; [done|]. eapply others_trans; [by eapply (others_set _ s4 s5)|]. by apply others_quiet. }
  assert (Hbs6 : bsize s6 = bsize s).
  { rewrite Ebs6. change (bsize s4 = bsize s). rewrite Hbs4. change (bsize s1 = bsize s). done. }
  destruct (is_full o5) eqn:Hf5.
  - destruct Hh6 as (h & -> & _). apply bind_ok in Hrest as (b6 & s7 & Hpro & Hasg6).
    assert (Hf6 : is_full o6 = true) by by rewrite (same_part_full o5 o6).
    assert (Hrc6 : Ids.refcounts (ids s6) !! b' = Some 1) by by rewrite Eids6.
    destruct (promote_ok _ _ _ _ _ _ _ Hs6 Hp6 Hf6 Hb6 Hrc6 Hpro Hasg6)
      as (Hs' & Hoth & Hbs & _ & o' & Hp' & Hsame' & Hb').
    split; [done|]. split; [by eapply others_trans|]. split; [congruence|].
    exists o'. destruct Hsame' as [F1 F2 F3 _], Hsame6 as [G1 G2 G3 _].
    split; [done|]. rewrite F1, F2, F3, G1, G2, G3. cbn. split; [by rewrite E2|].
    split; [done|]. split; [done|]. by eexists.
  - subst r. injection Hrest as <-. split.
    + eapply inv_filled; [done|done|]. rewrite (same_part_full o5 o6) by done. congruence.
    + split; [done|]. split; [done|]. exists o6. destruct Hsame6 as [G1 G2 G3 _].
      split; [done|]. rewrite G1, G2, G3. cbn. split; [by rewrite E2|].
      split; [done|]. split; [done|]. by exists b'.
Qed.

(** ** Allocation *)

(** Objects leave the view: none held an id, none is a predecessor of one that stays. *)
Lemma inv_drop d zs zs' s q :
  inv d None zs s -> BlockPool.pool_ok q -> 0 < BlockPool.pool_size q ->
  (forall p o, view zs' (with_pool s q) !! p = Some o -> view zs s !! p = Some o) ->
  (forall p o, view zs s !! p = Some o -> view zs' (with_pool s q) !! p = None -> block_id o = None) ->
  (forall p o r, view zs' (with_pool s q) !! p = Some o -> prev_block o = Some r ->
     is_Some (view zs' (with_pool s q) !! r)) ->
  inv d None zs' (with_pool s q).
Proof.
  intros [] Hq Hpos Hsub Hgone Hclosed. set (L' := view zs' (with_pool s q)) in *.
  assert (Hc : forall r l, contents (view zs s) r l -> (forall p, r = Some p -> is_Some (L' !! p)) ->
    contents L' r l).
  { intros r l H. induction H as [|p o l Hp H IH]; intros Hr; [constructor|].
    destruct (Hr p eq_refl) as [o' Ho']. pose proof (Hsub _ _ Ho') as Ho. rewrite Hp in Ho. injection Ho as <-.
    econstructor; [done|]. apply IH. intros p' Hp'. by eapply Hclosed. }
  assert (Hf : forall p, is_full_in (view zs s) p -> is_Some (L' !! p) -> is_full_in L' p).
  { intros p (o & Ho & Hfo) [o' Ho']. pose proof (Hsub _ _ Ho') as Ho2. rewrite Ho in Ho2. injection Ho2 as <-.
    by exists o. }
  assert (Hh : forall p h, hashed (view zs s) p h -> is_Some (L' !! p) -> hashed L' p h).
  { intros p h [Hfp (l & Hl & Hlh)] Hp. split; [by apply Hf|]. exists l. split; [|done].
    apply Hc; [done|]. by intros ? [= <-]. }
  split; cbn; try done.
  - intros b. rewrite inv_counts. f_equal. apply owners_ext. intros p.
    change (view zs' (with_pool s q)) with L'. destruct (L' !! p) as [o|] eqn:Ho.
    + by rewrite (Hsub _ _ Ho).
    + destruct (view zs s !! p) as [o|] eqn:Ho2; [|done]. cbn. by rewrite (Hgone _ _ Ho2 Ho).
  - change (view zs' (with_pool s q)) with L'. intros p o Hp. pose proof (Hsub _ _ Hp) as Hpo.
    assert (Hsome : is_Some (L' !! p)) by by eexists.
    destruct (inv_objs p o Hpo) as [H1 H2 [H3 H3'] [l H4] H5 H6]. split; try done.
    + split; [intros r Hr; by eapply Hclosed|]. intros r Hr Hne. apply Hf; [by apply H3'|by eapply Hclosed].
    + exists l. apply Hc; [done|]. by intros ? [= <-].
    + intros h Hch. apply Hh; [by apply H5|done].
    + intros b Hb. specialize (H6 b Hb). case_decide; [|done].
      destruct H6 as (h & Hhh & Hcb). exists h. split; [by apply Hh|done].
Qed.

(** An allocated block [p]: new, in sequence after [prev]. *)
Record allocated s s' p prev toks extra : Prop := {
  al_inv : inv zero None ∅ s';
  al_others : others_kept p s s';
  al_bsize : bsize s' = bsize s;
  al_new : view ∅ s !! p = None;
  al_block : exists o, view ∅ s' !! p = Some o /\ token_ids o = toks /\ prev_block o = prev /\
    extra_hash o = extra /\ is_Some (block_id o)
}.

Lemma others_some p s s' q :
  others_kept p s s' -> q <> p -> is_Some (view ∅ s !! q) -> is_Some (view ∅ s' !! q).
Proof. intros H Hq Hs. specialize (H q Hq). rewrite <- (fmap_is_Some strip), H. by apply fmap_is_Some. Qed.

Lemma others_full p s s' q :
  others_kept p s s' -> q <> p -> is_full_in (view ∅ s) q -> is_full_in (view ∅ s') q.
Proof.
  intros H Hq (o & Ho & Hf). specialize (H q Hq). rewrite Ho in H. cbn in H.
  destruct (view ∅ s' !! q) as [o'|] eqn:Ho'; [|done]. cbn in H. apply (inj Some) in H.
  exists o'. split; [done|]. apply strip_same in H as [H _]. by rewrite (same_part_full o o').
Qed.

Lemma prefix_allocate_mutable_ok s prev extra p s' :
  inv zero None ∅ s -> (forall q, prev = Some q -> is_Some (view ∅ s !! q)) ->
  allocate_mutable_block py_hash none_hash prev extra s = (Ok p, s') ->
  allocated s s' p prev [] extra /\
  exists o b, view ∅ s' !! p = Some o /\ block_id o = Some b /\ Ids.refcount (ids s) b = 0.
Proof.
  intros Hs Hprev. unfold allocate_mutable_block. intros (b & s1 & Hal & Hrest)%bind_ok.
  destruct (allocate_block_id_ok _ _ _ _ _ Hs zero_nonneg Hal) as [Hs1 Htk].
  apply bind_ok in Hrest as (p' & s2 & Hi & Hrest).
  pose proof (inv_bs _ _ _ _ _ _ Hs1) as Hbs1.
  destruct (prefix_init_block_ok _ _ s1 prev [] (Some b) extra p' s2 Hs1)
    as (o & q & -> & Hnew & Hv & Ho & Hs2); [| | | |exact Hi|].
  { split; [|done]. intros r Hr. rewrite (tk_view _ _ _ Htk). by apply Hprev. }
  { cbn. lia. } { done. }
  { intros b0 [= <-]. rewrite decide_False by (cbn; lia). apply (tk_uncached _ _ _ Htk). }
  set (s2 := with_pool s1 q) in *.
  assert (Hp : view ∅ s2 !! p' = Some o) by by rewrite Hv, lookup_insert_eq.
  rewrite (bind_step _ _ _ _ _ (obj_run _ _ _ _ Hp)) in Hrest.
  assert (Hb : block_id o = Some b) by by rewrite Ho.
  assert (Hs2' : inv zero None ∅ s2).
  { eapply inv_ext; [|exact Hs2]. intros b2. cbn beta. rewrite (points_some _ b b2) by done.
    unfold zero, one. lia. }
  apply bind_ok in Hrest as ([] & s3 & Has & Hrest).
  destruct (negb (computed o)); [|done]. injection Has as <-.
  apply bind_ok in Hrest as (r & s3 & Hch & Hrest).
  destruct (content_hash_ok _ _ no_collision _ _ _ _ _ _ _ _ Hs2' Hp Hch) as (Hs3 & Hq & (o3 & Hp3 & Hst & _) & _).
  apply bind_ok in Hrest as ([] & s4 & Has & Hrest). destruct (bool_decide (r = None)); [|done].
  injection Has as <-. injection Hrest as <- <-.
  destruct (quiet_fields _ _ Hq) as (_ & Ebs & _ & _). destruct (strip_same _ _ Hst) as ([E1 E2 E3 _] & Hb3 & _).
  split.
  - split; [done| | | |].
    + eapply others_trans; [|by eapply others_quiet]. intros r' Hr. by rewrite Hv, lookup_insert_ne, (tk_view _ _ _ Htk).
    + rewrite Ebs. change (bsize s1 = bsize s). apply (tk_bsize _ _ _ Htk).
    + by rewrite <- (tk_view _ _ _ Htk).
    + exists o3. rewrite E1, E2, E3, Hb3, Ho. split; [done|]. cbn. repeat (split; [done|]). by eexists.
  - exists o3, b. rewrite Hb3. split; [done|]. split; [done|]. apply (refcount_of _ _ _ (tk_zero _ _ _ Htk)).
Qed.

Lemma metrics_ok d x zs s hit s' :
  inv d x zs s -> query_metrics hit s = (Ok tt, s') -> inv d x zs s' /\ s' = with_metrics s (metric_data s') (scheduler_post_warmup_metric_data s').
Proof.
  intros Hs. unfold query_metrics, modify. intros [= <-]. split; [|done].
  eapply inv_frame; [exact Hs|done|done|done|done| |apply Hs|done]. intros b k Hk. by exists k.
Qed.

(** The block that looked the content up and missed goes back to the pool. *)
Lemma discard_ok s p o :
  inv zero None ∅ s -> view ∅ s !! p = Some o -> block_id o = None ->
  (forall q oq, view ∅ s !! q = Some oq -> prev_block oq <> Some p) ->
  inv zero None ∅ (with_pool s (BlockPool.free_block p (pool s))).
Proof.
  intros Hs Hp Hb Hcl. pose proof (free_object_view s p o Hp) as Hv.
  pose proof Hp as [Ho [Hf|?%elem_of_empty]]%view_lookup; [|done].
  apply (inv_drop _ ∅); rewrite ?Hv;
    [done|by eapply free_pool_ok; [apply (inv_pool _ _ _ _ _ _ Hs)|..]|apply (inv_pos _ _ _ _ _ _ Hs)| | |].
  - by intros q oq [_ ?]%lookup_delete_Some.
  - intros q oq Hq [?|?]%lookup_delete_None; congruence.
  - intros q oq r [_ Hq]%lookup_delete_Some Hr.
    destruct (po_live _ _ _ (oo_prev _ _ _ _ _ _ _ _ (inv_objs _ _ _ _ _ _ Hs q oq Hq)) r Hr) as [or Hor].
    exists or. apply lookup_delete_Some. split; [|done].
    intros Heq. apply (Hcl q oq Hq). congruence.
Qed.

Lemma no_successor s p q oq :
  inv zero None ∅ s -> view ∅ s !! p = None -> view ∅ s !! q = Some oq -> prev_block oq <> Some p.
Proof.
  intros Hs Hp Hq Hr.
  destruct (po_live _ _ _ (oo_prev _ _ _ _ _ _ _ _ (inv_objs _ _ _ _ _ _ Hs q oq Hq)) p Hr) as [? ?]. congruence.
Qed.

Lemma prefix_allocate_immutable_ok s prev toks extra p s' :
  inv zero None ∅ s -> (forall q, prev = Some q -> is_full_in (view ∅ s) q) ->
  allocate_immutable_block py_hash none_hash prev toks extra s = (Ok p, s') ->
  allocated s s' p prev toks extra /\ Z.of_nat (length toks) = bsize s.
Proof.
  intros Hs Hprev. unfold allocate_immutable_block. intros (i & s1 & Hi & Hrest)%bind_ok.
  pose proof (init_block_fits _ _ _ _ _ _ _ (inv_bs _ _ _ _ _ _ Hs) Hi) as Hlen.
  assert (Hlive : forall r, prev = Some r -> is_Some (view ∅ s !! r)).
  { intros r Hr. destruct (Hprev r Hr) as (or & Hor & _). by eexists. }
  destruct (prefix_init_block_ok _ _ s prev toks None extra i s1 Hs)
    as (o & q & -> & Hnew & Hv & Ho & Hs1); [by split; auto|done|done|done|done|].
  set (s1 := with_pool s q) in *.
  assert (Hp1 : view ∅ s1 !! i = Some o) by by rewrite Hv, lookup_insert_eq.
  assert (Hs1' : inv zero None ∅ s1).
  { eapply inv_ext; [|exact Hs1]. intros b2. cbn beta. rewrite points_none by by rewrite Ho.
    unfold zero. lia. }
  apply bind_ok in Hrest as (r & s2 & Hch & Hrest).
  destruct (content_hash_ok _ _ no_collision _ _ _ _ _ _ _ _ Hs1' Hp1 Hch)
    as (Hs2 & Hq & (o2 & Hp2 & Hst & _) & Hh).
  destruct (quiet_fields _ _ Hq) as (Eids & Ebs & Ec & Ecow).
  destruct (strip_same _ _ Hst) as (Hsame & Hb2 & _). destruct Hsame as [E1 E2 E3 E4].
  destruct r as [h|]; [|done]. destruct (is_full o) eqn:Hf; [|done]. destruct Hh as (h' & [= <-] & Hh).
  split.
  2: { unfold is_full, num_empty_slots in Hf. rewrite Ho in Hf. cbn in Hf. apply Z.eqb_eq in Hf. lia. }
  assert (Hoth2 : others_kept i s s2).
  { eapply others_trans; [by eapply (others_set _ s s1)|by apply others_quiet]. }
  revert Hrest. run_get. destruct (cached_blocks s2 !! h) as [b|] eqn:Hcb.
  - rewrite bind_run. unfold lift. destruct (block_table s2 !! b) as [hit|]; [|done]. cbn [from_option_exn].
    intros ([] & s3 & Hm & Hrest)%bind_ok. destruct (metrics_ok _ _ _ _ _ _ Hs2 Hm) as [Hs3 Em].
    apply bind_ok in Hrest as ([] & s4 & Ha & Hrest).
    assert (Hv3 : view ∅ s3 = view ∅ s2) by by rewrite Em.
    assert (Hp3 : view ∅ s3 !! i = Some o2) by by rewrite Hv3.
    assert (Hcb3 : cached_blocks s3 !! h = Some b) by by rewrite Em.
    destruct (assign_ok _ _ _ _ _ _ (Some b) _ Hs3 Hp3 Ha) as (-> & Hv4 & Hs4).
    { intros b2 [= <-]. rewrite decide_True.
      - exists h. by rewrite Hv3.
      - split; [|done]. rewrite <- Hf. apply same_part_full. by split. }
    set (s4 := with_pool s3 _) in *. set (o4 := set_block_id o2 (Some b)) in *.
    assert (Hp4 : view ∅ s4 !! i = Some o4) by by rewrite Hv4, lookup_insert_eq.
    apply bind_ok in Hrest as ([] & s5 & Hinc & Hrest). injection Hrest as <- <-.
    destruct (incr_cached_ok _ _ _ _ _ o4 b h s5 Hs4 Hp4 eq_refl Hcb3 Hinc) as [Hs5 Hrw].
    split.
    + eapply inv_ext; [|exact Hs5]. intros b2. cbn beta. rewrite (points_none o2) by by rewrite Hb2, Ho.
      rewrite (points_some _ b b2) by done. unfold zero, one. lia.
    + eapply others_trans; [done|]. intros r Hr.
      by rewrite (rw_view _ _ _ _ _ _ Hrw), Hv4, Hv3, !lookup_insert_ne by done.
    + rewrite (rw_bsize _ _ _ _ _ _ Hrw). change (bsize s3 = bsize s). rewrite Em. done.
    + done.
    + exists (set_computed o4 true). rewrite (rw_view _ _ _ _ _ _ Hrw), lookup_insert_eq.
      split; [done|]. cbn. rewrite E1, E2, E3, Ho. repeat (split; [done|]). by eexists.
  - intros ([] & s3 & Hm & Hrest)%bind_ok. destruct (metrics_ok _ _ _ _ _ _ Hs2 Hm) as [Hs3 Em].
    assert (Hv3 : view ∅ s3 = view ∅ s2) by by rewrite Em.
    assert (Hp3 : view ∅ s3 !! i = Some o2) by by rewrite Hv3.
    assert (Hnosucc : forall r or, view ∅ s3 !! r = Some or -> prev_block or <> Some i).
    { intros r or. rewrite Hv3. intros Hr. destruct (quiet_view_back _ _ _ _ _ Hq Hr) as (or1 & Hr1 & Hsr).
      apply strip_same in Hsr as [[-> _ _ _] _]. rewrite Hv in Hr1.
      destruct (decide (i = r)) as [<-|Hne].
      - rewrite lookup_insert_eq in Hr1. injection Hr1 as <-. rewrite Ho. cbn. intros ->.
        destruct (Hlive i eq_refl) as [? ?]. congruence.
      - rewrite lookup_insert_ne in Hr1 by done. exact (no_successor s i r or1 Hs Hnew Hr1). }
    rewrite bind_run in Hrest. unfold free_object, modify in Hrest. set (s4 := with_pool s3 _) in Hrest.
    assert (Hs4 : inv zero None ∅ s4) by (eapply discard_ok; [done|done|by rewrite Hb2, Ho|done]).
    assert (Hv4 : view ∅ s4 = delete i (view ∅ s2)).
    { rewrite <- Hv3. by apply (free_object_view s3 i o2). }
    assert (Hkeep : forall r, strip <$> view ∅ s4 !! r = strip <$> view ∅ s !! r).
    { intros r. rewrite Hv4. destruct (decide (r = i)) as [->|Hne]; [by rewrite lookup_delete_eq, Hnew|].
      rewrite lookup_delete_ne by done. by apply Hoth2. }
    assert (Hfull4 : forall r, is_full_in (view ∅ s) r -> is_full_in (view ∅ s4) r).
    { intros r (or & Hor & Hfr). specialize (Hkeep r). rewrite Hor in Hkeep.
      destruct (view ∅ s4 !! r) as [or4|] eqn:Hor4; [|done]. apply (inj Some) in Hkeep.
      exists or4. split; [done|]. apply strip_same in Hkeep as [Hsp _]. by rewrite (same_part_full or or4). }
    apply bind_ok in Hrest as (p' & s5 & Hal & Hrest).
    destruct (prefix_allocate_mutable_ok s4 prev extra p' s5 Hs4) as [[Hs5 Hoth5 Hbs5 Hnew5 (o5 & Hp5 & F1 & F2 & F3 & [b5 F4])] _];
      [|exact Hal|].
    { intros r Hr. destruct (Hfull4 r (Hprev r Hr)) as (or & Hor & _). by eexists. }
    assert (Hne : forall r, prev = Some r -> r <> p').
    { intros r Hr ->. destruct (Hfull4 p' (Hprev p' Hr)) as (or & Hor & _). congruence. }
    apply bind_ok in Hrest as ([] & s6 & Hap & Hrest). injection Hrest as <- <-.
    destruct (append_token_ids_ok s5 p' o5 b5 toks s6 Hs5 Hp5 F4)
      as (Hs6 & Hoth6 & Hbs6 & o6 & Hp6 & G1 & G2 & G3 & G4);
      [|exact Hap|].
    { rewrite F2. intros r Hr. eapply others_full; [done|by apply Hne|by apply Hfull4, Hprev]. }
    split; [done| | | |].
    + eapply others_trans; [|done]. eapply others_trans; [|done]. intros r _. apply Hkeep.
    + rewrite Hbs6, Hbs5. change (bsize s3 = bsize s). by rewrite Em.
    + specialize (Hkeep p'). rewrite Hnew5 in Hkeep. by destruct (view ∅ s !! p').
    + exists o6. split; [done|]. rewrite G1, G2, G3, F1, F2, F3. done.
Qed.
End Operations.
