(* ===== verification/PrefixSequences.v ===== *)
(** * Whole sequences of blocks

    Freeing a sequence block by block, forking it, swapping it out, draining
    the cache: the operations of the prefix-caching allocator that touch many
    blocks keep its invariant. *)
From S2P Require Import Prelude.
From S2P Require Import PyDict.
From S2P Require Import EvictorBase.
From S2P Require Import BlockCommon.
From S2P Require Import NaiveBlock.
From S2P Require Import PrefixCaching.
From S2P Require Import PrefixInvariant.
From S2P Require Import PrefixOperations.
Import Prefix.

Section Sequences.
Context {E : Type} `{!Evictor E} `{!EvictorHooks E} {ev_wf : E -> Prop} `{!EvictorLaws E ev_wf}.
Variable py_hash : bool * option Z * list Z * option Z -> Z.
Variable none_hash : Z.
Hypothesis no_collision : forall a, py_hash a <> none_hash.

Abbreviation t := (t E).
Abbreviation chain_hash := (chain_hash py_hash none_hash).
Abbreviation hashed := (hashed py_hash none_hash).
Abbreviation id_ok := (id_ok py_hash none_hash).
Abbreviation inv := (inv (ev_wf := ev_wf) py_hash none_hash).
Abbreviation owners := (owners block_id).
Abbreviation points := (points block_id).
Abbreviation content_hash := (content_hash py_hash none_hash).
Abbreviation allocated := (allocated (ev_wf := ev_wf) py_hash none_hash).
Implicit Types (s : t) (L : gmap Z block) (o : block) (p b h : Z) (zs : gset Z) (x : option Z).

(** ** Allocating a sequence *)

Lemma allocated_full s s' p prev toks extra :
  allocated s s' p prev toks extra -> Z.of_nat (length toks) = bsize s -> is_full_in (view ∅ s') p.
Proof.
  intros [Hs _ Hbs _ (o & Hp & Ht & _)] Hl. exists o. split; [done|].
  unfold is_full, num_empty_slots. rewrite (oo_size _ _ _ _ _ _ _ _ (inv_objs _ _ _ _ _ _ Hs p o Hp)), Ht.
  rewrite Hbs. apply Z.eqb_eq. lia.
Qed.

Lemma prefix_allocate_immutable_blocks_ok extra l : forall prev s ps s',
  inv zero None ∅ s -> (forall q, prev = Some q -> is_full_in (view ∅ s) q) ->
  allocate_immutable_blocks py_hash none_hash prev l extra s = (Ok ps, s') ->
  inv zero None ∅ s' /\ bsize s' = bsize s.
Proof.
  induction l as [|toks l IH]; intros prev s ps s' Hs Hprev; cbn; [by intros [= _ <-]|].
  intros (p & s1 & Ha & Hrest)%bind_ok.
  destruct (prefix_allocate_immutable_ok _ _ no_collision _ _ _ _ _ _ Hs Hprev Ha) as [Hal Hlen].
  apply bind_ok in Hrest as (ps' & s2 & Hr & Hrest). injection Hrest as _ <-.
  apply IH in Hr as [H1 H2].
  - split; [done|]. by rewrite H2, (al_bsize _ _ _ _ _ _ _ _ Hal).
  - apply (al_inv _ _ _ _ _ _ _ _ Hal).
  - intros q [= <-]. by eapply allocated_full.
Qed.

(** ** Freeing a sequence *)

(** [BlockTable.free] frees the blocks one after the other. *)
Definition free_all (ps : list Z) : M t unit :=
  for_each ps (fun p => free py_hash none_hash p false).

Lemma released_view zs s s' p o b q o' :
  released zs s s' p o b -> view zs s' !! q = Some o' ->
  exists o0, view zs s !! q = Some o0 /\ same_part o0 o' /\
    (q <> p -> strip o' = strip o0) /\ (q = p -> block_id o' = None).
Proof.
  intros (s1 & o1 & Hq & Hp & Hst & Hrw). rewrite (rw_view _ _ _ _ _ _ Hrw).
  destruct (decide (p = q)) as [<-|Hne].
  - rewrite lookup_insert_eq. intros [= <-].
    destruct (quiet_view_back _ _ _ _ _ Hq Hp) as (o0 & Ho0 & Hs0).
    exists o0. split; [done|]. apply strip_same in Hs0 as [[E1 E2 E3 E4] _]. by split.
  - rewrite lookup_insert_ne by done. intros Hq'.
    destruct (quiet_view_back _ _ _ _ _ Hq Hq') as (o0 & Ho0 & Hs0).
    exists o0. split; [done|]. split; [by apply strip_same in Hs0 as [? _]|]. split; [done|congruence].
Qed.

Lemma released_back zs s s' p o b q o0 :
  released zs s s' p o b -> view zs s !! q = Some o0 -> is_Some (view zs s' !! q).
Proof.
  intros (s1 & o1 & Hq & Hp & Hst & Hrw) Hq0. rewrite (rw_view _ _ _ _ _ _ Hrw).
  apply lookup_insert_is_Some'. right. destruct (quiet_view _ _ _ _ _ Hq Hq0) as (? & ? & _). by eexists.
Qed.

Lemma released_free zs s s' p o b :
  released zs s s' p o b -> BlockPool.free_ids (pool s') = BlockPool.free_ids (pool s).
Proof. intros (s1 & o1 & Hq & Hp & Hst & Hrw). by rewrite (rw_free _ _ _ _ _ _ Hrw), (qt_free _ _ Hq). Qed.

Lemma zero_nonneg' : forall b, 0 <= zero b.
Proof. done. Qed.

(** After some of the blocks have been freed: they are zombies without ids. *)
Record freeing zs s : Prop := {
  fr_inv : inv zero None zs s;
  fr_gone : forall z, z ∈ zs -> z ∈ BlockPool.free_ids (pool s);
  fr_ids : forall z o, z ∈ zs -> view zs s !! z = Some o -> block_id o = None
}.

Lemma free_one_ok zs s p o s' :
  freeing zs s -> view zs s !! p = Some o -> p ∉ zs ->
  free py_hash none_hash p false s = (Ok tt, s') ->
  freeing ({[p]} ∪ zs) s' /\
  BlockPool.free_ids (pool s') = p :: BlockPool.free_ids (pool s) /\
  (forall q, is_Some (view ({[p]} ∪ zs) s' !! q) <-> is_Some (view zs s !! q)) /\
  (forall q o', view ({[p]} ∪ zs) s' !! q = Some o' ->
     exists o0, view zs s !! q = Some o0 /\ same_part o0 o' /\ (q <> p -> strip o' = strip o0)).
Proof.
  intros [Hs Hz Hzi] Hp Hpz. unfold free. intros ([] & s1 & Hf & Hrest)%bind_ok.
  destruct (free_block_id_ok _ _ no_collision _ _ _ _ _ _ _ Hs zero_nonneg' Hp ltac:(done) Hf)
    as (b & Hb & Hs1 & Hrel).
  injection Hrest as <-. set (s2 := with_pool s1 _).
  pose proof (released_free _ _ _ _ _ _ Hrel) as Hfi.
  assert (Hp1 : is_Some (view zs s1 !! p)) by by eapply released_back.
  destruct Hp1 as [o1 Hp1].
  assert (Hv : view ({[p]} ∪ zs) s2 = view zs s1).
  { unfold s2. rewrite free_object_zombie. by eapply view_zombie. }
  assert (Hnf : p ∉ BlockPool.free_ids (pool s1)).
  { apply view_lookup in Hp1 as [_ [?|?]]; done. }
  assert (Hpool : BlockPool.pool_ok (BlockPool.free_block p (pool s1))).
  { eapply (free_pool_ok _ _ o1); [apply (inv_pool _ _ _ _ _ _ Hs1)| |done]. by apply view_lookup in Hp1 as [? _]. }
  split; [split|split; [|split]].
  - eapply inv_pool_change; [exact Hs1|done|apply (inv_pos _ _ _ _ _ _ Hs1)|done].
  - intros z [->%elem_of_singleton|Hz']%elem_of_union; cbn; [left|right]. rewrite Hfi. by apply Hz.
  - intros z o'. rewrite Hv. intros Hzz Hvz.
    destruct (released_view _ _ _ _ _ _ _ _ Hrel Hvz) as (o0 & Ho0 & _ & H1 & H2).
    destruct (decide (z = p)) as [->|Hne]; [by apply H2|].
    apply elem_of_union in Hzz as [?%elem_of_singleton|Hzz]; [done|].
    specialize (H1 Hne). apply strip_same in H1 as (_ & -> & _). by apply (Hzi z).
  - cbn. by rewrite Hfi.
  - intros q. rewrite Hv. split.
    + intros [o' Hq]. destruct (released_view _ _ _ _ _ _ _ _ Hrel Hq) as (o0 & Ho0 & _). by eexists.
    + intros [o' Hq]. by eapply released_back.
  - intros q o'. rewrite Hv. intros Hq.
    destruct (released_view _ _ _ _ _ _ _ _ Hrel Hq) as (o0 & Ho0 & H1 & H2 & _). by exists o0.
Qed.

Lemma free_all_zombies ps : forall zs s s',
  freeing zs s -> NoDup ps -> (forall p, p ∈ ps -> is_Some (view zs s !! p) /\ p ∉ zs) ->
  free_all ps s = (Ok tt, s') ->
  freeing (list_to_set ps ∪ zs) s' /\
  (forall q, q ∈ BlockPool.free_ids (pool s') <-> q ∈ ps \/ q ∈ BlockPool.free_ids (pool s)) /\
  (forall q, is_Some (view zs s !! q) -> is_Some (view (list_to_set ps ∪ zs) s' !! q)) /\
  (forall q o', view (list_to_set ps ∪ zs) s' !! q = Some o' ->
     exists o0, view zs s !! q = Some o0 /\ same_part o0 o' /\ (q ∉ ps -> strip o' = strip o0)).
Proof.
  induction ps as [|p ps IH]; intros zs s s' Hs Hnd Hps; cbn [free_all for_each].
  { intros [= <-]. assert (Hz : list_to_set [] ∪ zs = zs :> gset Z) by apply union_empty_l_L. rewrite Hz.
    split; [exact Hs|]. split; [intros q; rewrite elem_of_nil; tauto|]. split; [by intros q Hq|].
    intros q o' Hq. exists o'. split; [exact Hq|]. split; [apply same_part_refl|done]. }
  intros ([] & s1 & H1 & H2)%bind_ok. apply NoDup_cons in Hnd as [Hp Hnd].
  destruct (Hps p) as [[o Ho] Hpz]; [left|].
  destruct (free_one_ok _ _ _ _ _ Hs Ho Hpz H1) as (Hs1 & Hf1 & Hd1 & Hv1).
  destruct (IH ({[p]} ∪ zs) s1 s' Hs1 Hnd) as (Hs' & Hf' & Hd' & Hv'); [|exact H2|].
  { intros q Hq. destruct (Hps q) as [Hq1 Hq2]; [by right|]. split; [by apply Hd1|].
       rewrite elem_of_union, elem_of_singleton. intros [->|?]; done. }
  assert (Heq : list_to_set (p :: ps) ∪ zs = list_to_set ps ∪ ({[p]} ∪ zs) :> gset Z).
  { apply set_eq. intros q. rewrite !elem_of_union, !elem_of_list_to_set, elem_of_cons, elem_of_singleton. tauto. }
  rewrite Heq. split; [done|]. split.
  - intros q. rewrite Hf', Hf1, !elem_of_cons. tauto.
  - split; [intros q Hq; by apply Hd', Hd1|].
    intros q o' Hq. destruct (Hv' q o' Hq) as (o1 & Ho1 & Hs1q & Hst1).
    destruct (Hv1 q o1 Ho1) as (o0 & Ho0 & Hs0 & Hst0). exists o0. split; [done|]. split.
    + destruct Hs1q, Hs0. split; congruence.
    + rewrite not_elem_of_cons. intros [Hqp Hqs]. by rewrite Hst1, Hst0.
Qed.

(** No block that stays comes after one that goes. *)
Definition closed s (ps : list Z) : Prop :=
  forall q o r, view ∅ s !! q = Some o -> q ∉ ps -> prev_block o = Some r -> r ∉ ps.

Lemma free_all_ok ps s s' :
  inv zero None ∅ s -> NoDup ps -> (forall p, p ∈ ps -> is_Some (view ∅ s !! p)) -> closed s ps ->
  free_all ps s = (Ok tt, s') ->
  inv zero None ∅ s' /\
  forall q, strip <$> view ∅ s' !! q = if decide (q ∈ ps) then None else strip <$> view ∅ s !! q.
Proof.
  intros Hs Hnd Hps Hcl Hrun.
  destruct (free_all_zombies ps ∅ s s') as ([Hs' Hz Hzi] & Hf & Hd & Hv); [|done| |done|].
  { split; [done|by intros z ?%elem_of_empty|by intros z o ?%elem_of_empty]. }
  { intros p Hp. split; [by apply Hps|apply not_elem_of_empty]. }
  rewrite union_empty_r_L in Hs', Hz, Hzi, Hv, Hd. set (zs := list_to_set ps) in *.
  assert (Hzs : forall q, q ∈ zs <-> q ∈ ps) by (intros q; apply elem_of_list_to_set).
  assert (Hsub : forall q o, view ∅ s' !! q = Some o <-> view zs s' !! q = Some o /\ q ∉ ps).
  { intros q o. rewrite !view_lookup, Hzs, Hf. split.
    - intros [? [H|?%elem_of_empty]]; [|done]. split; [split; [done|left; tauto]|tauto].
    - intros [[? [H|H]] Hq]; [|done]. split; [done|]. left. tauto. }
  assert (Heta : with_pool s' (pool s') = s') by by destruct s'.
  assert (Hs0 : inv zero None ∅ (with_pool s' (pool s'))).
  { apply (inv_drop _ _ _ zs); rewrite ?Heta;
      [done|apply (inv_pool _ _ _ _ _ _ Hs')|apply (inv_pos _ _ _ _ _ _ Hs')| | |].
    - by intros p o [? _]%Hsub.
    - intros p o Hp Hn. destruct (decide (p ∈ ps)) as [Hin|Hnin]; [by eapply Hzi; [apply Hzs|]|].
      assert (Hv0 : view ∅ s' !! p = Some o) by by apply Hsub. congruence.
    - intros p o r [Hp Hnp]%Hsub Hr. destruct (Hv p o Hp) as (o0 & Ho0 & [E1 _ _ _] & _).
      rewrite E1 in Hr. pose proof (Hcl p o0 r Ho0 Hnp Hr) as Hnr.
      rewrite <- E1 in Hr.
      destruct (po_live _ _ _ (oo_prev _ _ _ _ _ _ _ _ (inv_objs _ _ _ _ _ _ Hs' p o Hp)) r Hr) as [or Hor].
      exists or. by apply Hsub. }
  rewrite Heta in Hs0. split; [done|]. intros q. case_decide as Hq.
  - destruct (view ∅ s' !! q) as [o|] eqn:Ho; [|done]. apply Hsub in Ho as [_ ?]. done.
  - destruct (view ∅ s' !! q) as [o|] eqn:Ho; cbn.
    + apply Hsub in Ho as [Ho _]. destruct (Hv q o Ho) as (o0 & -> & _ & Hst). cbn. by rewrite Hst.
    + destruct (view ∅ s !! q) as [o0|] eqn:Ho0; [|done]. exfalso.
      destruct (Hd q) as [o' Ho']; [by eexists|].
      assert (Hv0 : view ∅ s' !! q = Some o') by by apply Hsub. congruence.
Qed.

(** ** Swapping out *)

Lemma swap_out_ok ps : forall s s',
  inv zero None ∅ s -> (forall p, p ∈ ps -> is_Some (view ∅ s !! p)) ->
  swap_out py_hash none_hash ps s = (Ok tt, s') -> inv zero None ∅ s'.
Proof.
  induction ps as [|p ps IH]; intros s s' Hs Hps; [by intros [= <-]|].
  unfold swap_out. cbn [for_each]. intros ([] & s1 & H1 & H2)%bind_ok.
  destruct (Hps p) as [o Ho]; [left|].
  destruct (free_block_id_ok _ _ no_collision _ _ _ _ _ _ _ Hs zero_nonneg' Ho ltac:(done) H1)
    as (b & Hb & Hs1 & Hrel).
  eapply IH; [exact Hs1| |exact H2]. intros q Hq. destruct (Hps q) as [oq Hoq]; [by right|].
  by eapply released_back.
Qed.

(** ** Forking *)

(** [l] continues the sequence that ends with [src]. *)
Fixpoint linked L (src : option Z) (l : list Z) : Prop :=
  match l with
  | [] => True
  | p :: l' => exists o, L !! p = Some o /\ prev_block o = src /\ linked L (Some p) l'
  end.

Lemma linked_snoc L i o l : forall src,
  linked L src l -> L !! i = Some o -> prev_block o = match last l with Some p => Some p | None => src end ->
  linked L src (l ++ [i]).
Proof.
  induction l as [|p l IH]; intros src; cbn [app linked].
  { intros _ Hi Hlast. exists o. split; [exact Hi|]. split; [exact Hlast|exact I]. }
  intros (op & Hop & Hpr & Hl) Hi Hlast. exists op. split; [done|]. split; [done|].
  apply IH; [done|done|]. rewrite Hlast. destruct l as [|q l]; [done|].
  change (last (p :: q :: l)) with (last (q :: l)).
  destruct (last (q :: l)) eqn:Hq; [done|]. by apply last_None in Hq.
Qed.

Lemma chain_linked s src l :
  chain prev_block (objs s) src l -> (forall p, p ∈ l -> is_Some (view ∅ s !! p)) ->
  linked (view ∅ s) None l /\ last l = src.
Proof.
  induction 1 as [|pr l i o Hc IH Ho Hpr]; intros Hl; [done|].
  destruct IH as [IH1 IH2]; [intros p Hp; apply Hl; apply elem_of_app; by left|].
  destruct (Hl i) as [o' Ho']; [apply elem_of_app; right; left|].
  pose proof Ho' as [Ho2 _]%view_lookup. rewrite Ho in Ho2. injection Ho2 as <-.
  split; [|by rewrite last_snoc]. eapply linked_snoc; [done|done|]. rewrite IH2, Hpr. by destruct pr.
Qed.

(** The copies share contents and ids with their sources. *)
Definition copies s s' p q : Prop :=
  view ∅ s !! q = None /\
  exists op oq, view ∅ s !! p = Some op /\ view ∅ s' !! q = Some oq /\
    token_ids oq = token_ids op /\ extra_hash oq = extra_hash op /\
    block_id oq = block_id op /\ is_Some (block_id op).

(** Every block in use is kept. *)
Definition all_kept s s' : Prop :=
  forall q, is_Some (view ∅ s !! q) -> strip <$> view ∅ s' !! q = strip <$> view ∅ s !! q.

Lemma prefix_fork_blocks_ok l : forall prev src s qs s',
  inv zero None ∅ s -> linked (view ∅ s) src l ->
  (exists c, contents (view ∅ s) src c /\ contents (view ∅ s) prev c) ->
  (forall r, src = Some r -> is_full_in (view ∅ s) r -> forall q, prev = Some q -> is_full_in (view ∅ s) q) ->
  (src = None -> prev = None) ->
  fork_blocks prev l s = (Ok qs, s') ->
  inv zero None ∅ s' /\ bsize s' = bsize s /\ cow s' = cow s /\ all_kept s s' /\ Forall2 (copies s s') l qs.
Proof.
  induction l as [|p l IH]; intros prev src s qs s' Hs Hl (c & Hc & Hc') Hfull Hnone; cbn [fork_blocks].
  { intros [= <- <-]. split; [done|]. split; [done|]. split; [done|]. split; [by intros q _|constructor]. }
  destruct Hl as (o & Hp & Hsrc & Hl).
  rewrite (bind_step _ _ _ _ _ (obj_run _ _ _ _ Hp)). destruct (block_id o) as [b|] eqn:Hb; [|done].
  destruct (count_ge _ _ _ _ _ _ _ _ _ Hs (zero_nonneg b) Hp Hb) as (n & Hn & Hn1).
  rewrite bind_run. unfold on_ids at 1. rewrite (Ids.incr_spec _ _ _ Hn ltac:(lia)).
  destruct (Z.eqb_spec (n + 1) 1); [lia|]. set (s1 := with_ids s _).
  assert (Hs1 : inv (fun b' => zero b' + (n + 1 - n) * one b b') None ∅ s1).
  { apply (inv_recount _ _ _ _ _ s s1 b n (n + 1)); try done; lia. }
  intros (i & s2 & Hi & Hrest)%bind_ok. apply bind_ok in Hrest as (qs' & s3 & Hr & Hrest).
  injection Hrest as <- <-.
  pose proof (inv_objs _ _ _ _ _ _ Hs p o Hp) as Hok.
  pose proof (oo_prev _ _ _ _ _ _ _ _ Hok) as [Hpl Hpf].
  assert (Hpc : contents (view ∅ s) (Some p) (c ++ [part_of o])).
  { econstructor; [done|]. by rewrite Hsrc. }
  assert (Hlen : Z.of_nat (length (token_ids o)) = bsize s <-> is_full o = true).
  { unfold is_full, num_empty_slots. rewrite (oo_size _ _ _ _ _ _ _ _ Hok), Z.eqb_eq. lia. }
  destruct (prefix_init_block_ok _ _ _ _ s1 prev (token_ids o) (Some b) (extra_hash o) i s2 Hs1)
    as (oi & q & -> & Hnew & Hv & Hoi & Hs2); [| | | |exact Hi|].
  { split.
    - intros r ->. destruct (contents_some _ _ _ Hc') as (or & _ & Hor & _). by eexists.
    - intros r -> Hne. destruct src as [r0|]; [|by specialize (Hnone eq_refl)].
      eapply Hfull; [done| |done]. by apply Hpf. }
  { apply (oo_len _ _ _ _ _ _ _ _ Hok). }
  { done. }
  { intros b0 [= <-]. pose proof (oo_id _ _ _ _ _ _ _ _ Hok b Hb) as Hid.
    change (bsize s1) with (bsize s).
    destruct (decide (Z.of_nat (length (token_ids o)) = bsize s)) as [Hd|Hd].
    - apply Hlen in Hd. rewrite decide_True in Hid by done. destruct Hid as (h & [_ (l' & Hl' & Hh)] & Hcb).
      exists c, h. split; [done|]. rewrite (contents_fun _ _ _ _ Hl' Hpc) in Hh. done.
    - rewrite decide_False in Hid; [done|]. intros [Hf _]. by apply Hd, Hlen. }
  set (s2 := with_pool s1 q) in *. change (view ∅ s1) with (view ∅ s) in *.
  assert (Hext : extends (view ∅ s) (view ∅ s2)) by (rewrite Hv; by apply extends_fresh).
  assert (Hs2' : inv zero None ∅ s2).
  { eapply inv_ext; [|exact Hs2]. intros b2. cbn beta. rewrite (points_some _ b b2) by by rewrite Hoi.
    unfold zero, one. lia. }
  assert (Hvi : view ∅ s2 !! i = Some oi) by by rewrite Hv, lookup_insert_eq.
  assert (Hkeep2 : forall r, is_Some (view ∅ s !! r) -> view ∅ s2 !! r = view ∅ s !! r).
  { intros r [or Hr']. rewrite Hv, lookup_insert_ne; [done|]. congruence. }
  destruct (IH (Some i) (Some p) s2 qs' s3 Hs2') as (Hs3 & Hbs3 & Hcow3 & Hk3 & Hcp3); [| | |done|exact Hr|].
  { clear -Hl Hkeep2. revert Hl. generalize (Some p). induction l as [|r l IH]; intros pr; [done|].
    intros (or & Hr & Hpr & Hl). exists or. split; [by rewrite Hkeep2|]. split; [done|]. by apply IH. }
  { exists (c ++ [part_of o]). split; [by eapply extends_contents|].
    replace (part_of o) with (part_of oi) by by rewrite Hoi.
    econstructor; [done|]. rewrite Hoi. cbn. by eapply extends_contents. }
  { intros r [= <-] (o' & Ho' & Hf) r' [= <-]. rewrite Hkeep2, Hp in Ho' by by eexists. injection Ho' as <-.
    exists oi. split; [done|]. apply Hlen in Hf. unfold is_full, num_empty_slots. rewrite Hoi. cbn.
    apply Z.eqb_eq. lia. }
  split; [done|]. split; [by rewrite Hbs3|]. split; [by rewrite Hcow3|]. split.
  { intros r Hr'. rewrite Hk3; rewrite Hkeep2; done. }
  assert (Hiq : is_Some (view ∅ s2 !! i)) by by eexists.
  constructor.
  - split; [done|]. specialize (Hk3 i Hiq). rewrite Hvi in Hk3.
    destruct (view ∅ s3 !! i) as [oi3|] eqn:Hi3; [|done]. apply (inj Some) in Hk3.
    apply strip_same in Hk3 as ([_ E2 E3 _] & Hbi & _). exists o, oi3. split; [done|]. split; [done|].
    rewrite E2, E3, Hbi, Hoi, Hb. repeat (split; [done|]). by eexists.
  - clear -Hcp3 Hkeep2 Hl. revert Hl. generalize (Some p).
    induction Hcp3 as [|p' q' l' qs'' [Hn (op & oq & Hop & Hoq & H)] Hcp3 IH]; intros pr; [constructor|].
    intros (op' & Hop' & _ & Hl'). constructor; [|by eapply IH]. split.
    + destruct (view ∅ s !! q') as [oq'|] eqn:Hq'; [|done].
      rewrite Hkeep2 in Hn by by rewrite Hq'; eexists. congruence.
    + exists op, oq. rewrite <- (Hkeep2 p') by by eexists. done.
Qed.

Lemma fork_ok s last_block qs s' :
  inv zero None ∅ s ->
  (forall l, source_blocks last_block s = Ok l -> forall p, p ∈ l -> is_Some (view ∅ s !! p)) ->
  fork last_block s = (Ok qs, s') ->
  exists l, source_blocks last_block s = Ok l /\ linked (view ∅ s) None l /\ last l = Some last_block /\
    inv zero None ∅ s' /\ bsize s' = bsize s /\ cow s' = cow s /\ all_kept s s' /\ Forall2 (copies s s') l qs.
Proof.
  intros Hs Hlive. unfold fork. run_get. intros (l & s1 & Hl & Hf)%bind_ok. unfold lift in Hl.
  injection Hl as Hl <-. exists l. split; [done|].
  pose proof (recursively_chain _ _ _ _ _ Hl) as Hch.
  destruct (chain_linked s _ l Hch (Hlive l Hl)) as [H1 H2]. split; [done|]. split; [done|].
  eapply prefix_fork_blocks_ok in Hf; [exact Hf|done|exact H1| |done|done].
  exists []. split; constructor.
Qed.
End Sequences.
