(* ===== verification/EvictorMethods.v ===== *)
(** * The evictors as the prefix-caching allocator sees them

    Which optional methods each policy class has ([hasattr] in
    [prefix_caching_block.py]), and that they keep the blocks a policy holds. *)
From S2P Require Import Prelude.
From S2P Require Import PyDict.
From S2P Require Import EvictorBase.
From S2P Require Import LRUEvictor.
From S2P Require Import PDPEvictor.
From S2P Require Import PrefixCaching.

(** [LRUEvictor] has none of them. *)
#[global] Instance lru_hooks : EvictorHooks LRUEvictor.t := {
  hook_set_capacity := None;
  hook_should_predict_cache_hint := None;
  hook_should_record_post_warmup_metric := None;
  hook_should_observe_cache_accesses := None;
  hook_observe_cache_accesses := None;
  hook_observe_cache_access := None
}.

#[global] Instance lru_hooks_laws (clk : nat -> Q) :
  @EvictorHooksLaws LRUEvictor.t (LRUEvictor.lru_evictor clk) lru_hooks LRUEvictor.lru_wf.
Proof. split; done. Qed.

#[global] Instance pdp_hooks (clk : nat -> Q) : EvictorHooks PDPEvictor.t := {
  hook_set_capacity := Some (fun c => modify (PDPEvictor.set_capacity c));
  hook_should_predict_cache_hint := Some PDPEvictor.should_predict_cache_hint;
  hook_should_record_post_warmup_metric := None;
  hook_should_observe_cache_accesses := Some PDPEvictor.should_observe_cache_accesses;
  hook_observe_cache_accesses :=
    Some (fun hashes _ hits => PDPEvictor.observe_cache_accesses hashes (Some hits));
  hook_observe_cache_access :=
    Some (fun hash _ hit => PDPEvictor.observe_cache_access hash (Some hit))
}.
