(* ===== verification/PrefixCorrect.v ===== *)
(** * Correctness of the prefix-caching allocator

    The calls of its clients as a step relation, and what holds in every state
    it reaches, whatever eviction policy it runs with. *)
From S2P Require Import Prelude.
From S2P Require Import PyDict.
From S2P Require Import EvictorBase.
From S2P Require Import BlockCommon.
From S2P Require Import NaiveBlock.
From S2P Require Import PrefixCaching.
From S2P Require Import PrefixInvariant.
From S2P Require Import PrefixOperations.
From S2P Require Import PrefixSequences.
From S2P Require Import LRUEvictor.
From S2P Require Import EvictorMethods.
Import Prefix.

Section Correct.
Context {E : Type} `{!Evictor E} `{!EvictorHooks E} {ev_wf : E -> Prop} `{!EvictorLaws E ev_wf}.
Context `{!EvictorHooksLaws E ev_wf}.
Variable py_hash : bool * option Z * list Z * option Z -> Z.
Variable none_hash : Z.
Variable np_exp : Q -> Q.
Variable make_evictor : result E.
Hypothesis no_collision : forall a, py_hash a <> none_hash.
Hypothesis fresh_evictor : forall e, make_evictor = Ok e -> ev_wf e /\ forall j, ev_blocks e j = None.

Abbreviation t := (t E).
Abbreviation chain_hash := (chain_hash py_hash none_hash).
Abbreviation hashed := (hashed py_hash none_hash).
Abbreviation inv := (inv (ev_wf := ev_wf) py_hash none_hash).
Abbreviation owners := (owners block_id).
Implicit Types (s : t) (L : gmap Z block) (o : block) (p b h : Z) (zs : gset Z) (x : option Z).

(** ** Marks, observations, copies *)

Lemma inv_evictor d x zs s e' :
  inv d x zs s -> ev_wf e' -> (forall j, ev_blocks e' j = ev_blocks (evictor s) j) ->
  inv d x zs (with_evictor s e').
Proof.
  intros Hs Hw He. eapply inv_frame; [exact Hs|done|done|done|done| |done|done].
  intros b k Hk. by exists k.
Qed.

Lemma inv_on_tracker {A} d x zs s b (f : M BlockTracker.t A) a s' :
  inv d x zs s -> (forall k, BlockTracker.active (f k).2 = BlockTracker.active k) ->
  on_tracker b f s = (Ok a, s') -> inv d x zs s'.
Proof.
  intros Hs Hf. unfold on_tracker. destruct (block_tracker s !! b) as [k|] eqn:Hk; [|done].
  specialize (Hf k). destruct (f k) as [r k'] eqn:Hfk. intros [= _ <-].
  eapply inv_frame; [exact Hs|done|done|done|done| |apply Hs|done].
  intros b' k0 Hk0. cbn. destruct (decide (b = b')) as [<-|Hne].
  - exists k'. rewrite lookup_insert_eq. split; [done|]. cbn in Hf. congruence.
  - exists k0. by rewrite lookup_insert_ne.
Qed.

Lemma mark_block_as_accessed_ok d x zs s now c b s' :
  inv d x zs s -> mark_block_as_accessed np_exp now c b s = (Ok tt, s') -> inv d x zs s'.
Proof.
  intros Hs. unfold mark_block_as_accessed. run_get.
  destruct (block_tracker s !! b) as [k|]; [|done]. destruct (BlockTracker.active k).
  - apply inv_on_tracker; [done|]. intros k'. unfold BlockTracker.overwrite_block_metadata.
    by destruct (BlockTracker.merged_hint _ _ _ _).
  - destruct (ev_contains (evictor s) b); [|done]. unfold on_evictor.
    destruct (ev_update b now c (evictor s)) as [r e'] eqn:Hu. intros [= -> <-].
    destruct (law_update _ _ _ _ _ (inv_ev _ _ _ _ _ _ Hs) Hu) as (H1 & _ & H2). by apply inv_evictor.
Qed.

Lemma mark_blocks_as_accessed_ok d x zs bs now c : forall s s',
  inv d x zs s -> mark_blocks_as_accessed np_exp bs now c s = (Ok tt, s') -> inv d x zs s'.
Proof.
  unfold mark_blocks_as_accessed. induction bs as [|b bs IH]; intros s s' Hs; cbn [for_each].
  - by intros [= <-].
  - intros ([] & s1 & H1 & H2)%bind_ok. eapply IH; [|done]. by eapply mark_block_as_accessed_ok.
Qed.

Lemma mark_blocks_as_computed_ok d x zs bs s s' :
  inv d x zs s -> mark_blocks_as_computed bs s = (Ok tt, s') -> inv d x zs s'.
Proof.
  intros Hs. unfold mark_blocks_as_computed. run_get. intros ([] & s1 & Hl & [= <-])%bind_ok.
  assert (Hs1 : inv d x zs s1).
  { revert Hl. generalize (elements (touched_blocks s)). intros l. revert s Hs.
    induction l as [|b l IH]; intros s Hs; cbn [for_each]; [by intros [= <-]|].
    intros ([] & s2 & H1 & H2)%bind_ok. eapply IH; [|exact H2].
    by eapply inv_on_tracker; [exact Hs|..|exact H1]. }
  eapply inv_frame; [exact Hs1|done|done|done|done| |apply Hs1|done]. intros b k Hk. by exists k.
Qed.

Lemma observe_loop_ok d x zs f c (hit : Z -> bool) l : forall s s',
  hook_observe_cache_access = Some f -> inv d x zs s ->
  for_each l (fun h => on_evictor (f h c (hit h))) s = (Ok tt, s') -> inv d x zs s'.
Proof.
  induction l as [|h l IH]; intros s s' Hf Hs; cbn [for_each]; [by intros [= <-]|].
  intros ([] & s1 & H1 & H2)%bind_ok. eapply IH; [done| |exact H2].
  unfold on_evictor in H1. pose proof (law_observe_one f h c (hit h) (evictor s) Hf (inv_ev _ _ _ _ _ _ Hs)) as [Hw He].
  destruct (f h c (hit h) (evictor s)) as [r e']. injection H1 as _ <-. by apply inv_evictor.
Qed.

Lemma observe_ok d x zs hs c s s' :
  inv d x zs s -> observe_cache_accesses hs c s = (Ok tt, s') -> inv d x zs s'.
Proof.
  intros Hs. unfold observe_cache_accesses. pose proof (observe_loop_ok d x zs) as Hloop.
  destruct hook_observe_cache_accesses as [f|] eqn:Hf.
  - run_get. destruct (match hook_should_observe_cache_accesses with Some f => f (evictor s) | None => true end);
      [|by intros [= <-]]. cbv zeta. unfold on_evictor.
    set (hits := map _ hs).
    pose proof (law_observe_batch f hs c hits (evictor s) Hf (inv_ev _ _ _ _ _ _ Hs)) as [Hw He].
    destruct (f hs c hits (evictor s)) as [r e']. intros [= _ <-]. by apply inv_evictor.
  - destruct hook_observe_cache_access as [g|]; [|by intros [= <-]].
    run_get. destruct (match hook_should_observe_cache_accesses with Some f => f (evictor s) | None => true end);
      [|by intros [= <-]]. cbv zeta. by apply Hloop.
Qed.

Lemma touches_ok d x zs s p r s' :
  inv d x zs s -> is_Some (view zs s !! p) -> touches py_hash none_hash p s = (Ok r, s') ->
  inv d x zs s' /\ forall q, is_Some (view zs s !! q) -> is_Some (view zs s' !! q).
Proof.
  intros Hs [o Hp]. unfold touches. rewrite (bind_step _ _ _ _ _ (obj_run _ _ _ _ Hp)).
  assert (Hq : forall s1, quiet s s1 -> forall q, is_Some (view zs s !! q) -> is_Some (view zs s1 !! q)).
  { intros s1 Hq q [oq Hoq]. destruct (quiet_view _ _ _ _ _ Hq Hoq) as (? & ? & _). by eexists. }
  destruct (is_full o); [|by intros [= _ <-]]. intros (c & s1 & Hc & Hrest)%bind_ok.
  unfold is_block_cached in Hc. apply bind_ok in Hc as (h & s2 & Hch & Hc).
  destruct (content_hash_ok _ _ no_collision _ _ _ _ _ _ _ _ Hs Hp Hch) as (Hs2 & Hq2 & (o2 & Hp2 & _) & _).
  destruct h as [h|]; [|done]. injection Hc as _ <-. destruct c.
  - apply bind_ok in Hrest as (h' & s3 & Hch3 & Hrest).
    destruct (content_hash_ok _ _ no_collision _ _ _ _ _ _ _ _ Hs2 Hp2 Hch3) as (Hs3 & Hq3 & _).
    revert Hrest. run_get. pose proof (quiet_trans _ _ _ Hq2 Hq3) as Hq23.
    destruct (h' ≫= _) as [b|]; intros [= _ <-]; split; eauto.
  - injection Hrest as _ <-. split; eauto.
Qed.

Lemma num_touched_ok d x zs ps n s s' :
  inv d x zs s -> (forall p, p ∈ ps -> is_Some (view zs s !! p)) ->
  get_num_full_blocks_touched py_hash none_hash ps s = (Ok n, s') -> inv d x zs s'.
Proof.
  intros Hs Hps. unfold get_num_full_blocks_touched. intros (l & s1 & Hl & [= _ <-])%bind_ok.
  revert s l Hs Hps Hl. induction ps as [|p ps IH]; intros s l Hs Hps; cbn [map_each]; [by intros [= _ <-]|].
  intros (r & s2 & H1 & H2)%bind_ok. apply bind_ok in H2 as (rs & s3 & H2 & [= _ <-]).
  destruct (touches_ok _ _ _ _ _ _ _ Hs (Hps p ltac:(left)) H1) as [Hs2 Hk].
  eapply IH; [exact Hs2| |exact H2]. intros q Hq. apply Hk, Hps. by right.
Qed.

(** ** Resetting the cache *)

(** While the cache is drained the trackers of the drained ids stay active;
    [retrack] is the state with the trackers as they should be. *)
Definition retrack_one s (b : Z) (k : BlockTracker.t) : BlockTracker.t :=
  BlockTracker.BlockTracker (bool_decide (0 < Ids.refcount (ids s) b)) (BlockTracker.last_accessed k)
    (BlockTracker.computed k) (BlockTracker.tracked_hint k).
Definition retrack s : t :=
  with_tracker s (map_imap (fun b k => Some (retrack_one s b k)) (block_tracker s)).

Lemma inv_retrack d x zs s : inv d x zs s -> inv d x zs (retrack s).
Proof.
  intros []. split; try done. intros b Hb. destruct (inv_track b Hb) as (k & Hk & Ha).
  exists (retrack_one s b k). cbn. rewrite map_lookup_imap, Hk. split; [done|]. by rewrite bool_decide_eq_true.
Qed.

(** One round of the drain: an evictable id becomes free. *)
Lemma drain_one s b s1 s2 :
  inv zero None ∅ (retrack s) -> maybe_allocate_evicted_block_id s = (Ok (Some b), s1) ->
  on_ids (Ids.free_block_id b) s1 = (Ok tt, s2) ->
  inv zero None ∅ (retrack s2) /\
  (forall b', Ids.refcount (ids s2) b' = Ids.refcount (ids s) b') /\
  Ids.all_block_indices (ids s2) = Ids.all_block_indices (ids s).
Proof.
  intros Hs. unfold maybe_allocate_evicted_block_id. run_get.
  destruct (ev_num_blocks (evictor s) =? 0); [done|]. intros (b1 & s3 & Hl & Hrest)%bind_ok.
  apply (evict_loop_ok (ev_wf := ev_wf)) in Hl as (h & e' & -> & Hc & Hrc & Hw & Hin & Hno & Hsub);
    [|apply (inv_ev _ _ _ _ _ _ Hs)|by right].
  apply bind_ok in Hrest as (c & s4 & Hinc & Hrest). unfold on_ids in Hinc.
  cbn [ids with_cached with_evictor] in Hinc. rewrite (Ids.incr_spec _ _ _ Hrc ltac:(lia)) in Hinc.
  injection Hinc as <- <-. apply bind_ok in Hrest as ([] & s5 & Ht & Hrest). injection Hrest as <- <-.
  unfold track_block_id, on_tracker in Ht. cbn [block_tracker with_ids with_cached with_evictor] in Ht.
  destruct (block_tracker s !! b1) as [k|] eqn:Hk; [|done].
  destruct ((BlockTracker.enable ;; modify (BlockTracker.set_computed false)) k) as [r k'].
  injection Ht as -> <-. unfold on_ids. cbn [ids with_ids with_tracker].
  rewrite (Ids.free_spec _ b1 1) by (cbn; by rewrite ?lookup_insert_eq). intros [= <-].
  cbn [Z.eqb Pos.eqb Ids.with_refcounts Ids.refcounts Ids.free_block_indices Ids.all_block_indices].
  set (s2 := with_ids _ _). pose proof (inv_ids _ _ _ _ _ _ Hs) as Hids. cbn in Hids.
  assert (Hrcs : Ids.refcounts (ids s2) = Ids.refcounts (ids s)).
  { cbn. rewrite insert_insert_eq, insert_id; done. }
  destruct (inv_evict _ _ _ _ _ _ Hs b1 Hin) as [_ Hnf]. cbn in Hnf.
  pose proof (inv_inj _ _ _ _ _ _ Hs) as Hinj. cbn in Hinj.
  assert (Hcount : forall b', Ids.refcount (ids s2) b' = Ids.refcount (ids s) b').
  { intros b'. unfold Ids.refcount. by rewrite Hrcs. }
  split; [|split; [done|done]].
  destruct Hs. split; try done.
  - destruct Hids as [A1 A2 A3 A4]. split; change (ids (retrack s2)) with (ids s2); rewrite ?Hrcs; try done.
    + intros b'. cbn. by intros [->|?%A3]%elem_of_cons.
    + cbn. by apply NoDup_cons.
  - intros b'. change (ids (retrack s2)) with (ids s2). rewrite Hcount. apply inv_counts.
  - intros b' Hb'. change (ids (retrack s2)) with (ids s2).
    destruct (inv_track b' Hb') as (k0 & Hk0 & _). cbn in Hk0. rewrite map_lookup_imap in Hk0.
    assert (Hsome : exists k1, block_tracker s2 !! b' = Some k1).
    { cbn. destruct (decide (b1 = b')) as [<-|Hne]; [by rewrite lookup_insert_eq; eexists|].
      rewrite lookup_insert_ne by done. destruct (block_tracker s !! b') as [k1|]; [by exists k1|done]. }
    destruct Hsome as [k1 Hk1]. exists (retrack_one s2 b' k1). split.
    + change (block_tracker (retrack s2)) with (map_imap (fun b k => Some (retrack_one s2 b k)) (block_tracker s2)).
      by rewrite map_lookup_imap, Hk1.
    + cbn [BlockTracker.active retrack_one]. by rewrite bool_decide_eq_true.
  - intros b' Hb'. change (ids (retrack s2)) with (ids s2). rewrite Hrcs.
    change (is_Some (ev_blocks e' b')) in Hb'. assert (Hne : b' <> b1).
    { intros ->. rewrite Hno in Hb'. by destruct Hb'. }
    destruct (inv_evict b' (Hsub b' Hb')) as [H1 H2]. split; [done|]. cbn. rewrite not_elem_of_cons. done.
  - intros h1 h2 b' H1 H2. cbn in H1, H2. apply lookup_delete_Some in H1 as [_ H1], H2 as [_ H2]. by eapply Hinj.
  - intros h' b' H1. cbn in H1. apply lookup_delete_Some in H1 as [Hne H1].
    destruct (inv_cached h' b' H1) as [H2 H3]. cbn in H2, H3. cbn. split; [done|]. rewrite not_elem_of_cons.
    split; [|done]. intros ->. by apply Hne, (Hinj h h' b1).
  - intros p o Hp. destruct (inv_objs p o Hp). split; try done.
    eapply id_ok_cached; [| |done].
    + intros h' b' H1. cbn in H1. by apply lookup_delete_Some in H1 as [_ H1].
    + intros h' b' H1 Hb'. cbn. apply lookup_delete_Some. split; [|done]. intros <-.
      cbn in H1. rewrite Hc in H1. injection H1 as ->.
      pose proof (owners_pos _ _ _ _ Hp Hb') as Hpos. specialize (inv_counts b').
      change (0 < owners (view ∅ s) b') in Hpos.
      change (Ids.refcount (ids s) b' = owners (view ∅ s) b' + zero b') in inv_counts.
      rewrite (refcount_of _ _ _ Hrc) in inv_counts. unfold zero in inv_counts. lia.
Qed.

Lemma drain_ok fuel : forall s s',
  inv zero None ∅ (retrack s) -> drain_loop fuel s = (Ok tt, s') ->
  inv zero None ∅ (retrack s') /\
  (forall b', Ids.refcount (ids s') b' = Ids.refcount (ids s) b') /\
  Ids.all_block_indices (ids s') = Ids.all_block_indices (ids s).
Proof.
  induction fuel as [|fuel IH]; intros s s' Hs; cbn [drain_loop];
    intros (r & s1 & Hr & Hrest)%bind_ok; destruct r as [b|].
  - by apply bind_ok in Hrest as ([] & s2 & _ & ?).
  - injection Hrest as <-. assert (s1 = s) as ->.
    { revert Hr. unfold maybe_allocate_evicted_block_id. run_get.
      destruct (_ =? 0); [by intros [= <-]|]. intros (? & ? & _ & Hr)%bind_ok.
      apply bind_ok in Hr as (? & ? & _ & Hr). by apply bind_ok in Hr as (? & ? & _ & ?). }
    done.
  - apply bind_ok in Hrest as ([] & s2 & Hf & Hrest).
    destruct (drain_one _ _ _ _ Hs Hr Hf) as (H1 & H2 & H3).
    destruct (IH _ _ H1 Hrest) as (H4 & H5 & H6). split; [done|].
    split; [intros b'; by rewrite H5|congruence].
  - injection Hrest as <-. assert (s1 = s) as ->.
    { revert Hr. unfold maybe_allocate_evicted_block_id. run_get.
      destruct (_ =? 0); [by intros [= <-]|]. intros (? & ? & _ & Hr)%bind_ok.
      apply bind_ok in Hr as (? & ? & _ & Hr). by apply bind_ok in Hr as (? & ? & _ & ?). }
    done.
Qed.

(** With as many free and evictable ids as there are ids, none is referenced. *)
Lemma all_unused d x zs s :
  inv d x zs s -> get_num_total_blocks s - get_num_free_blocks s <= 0 ->
  forall b, b ∈ Ids.all_block_indices (ids s) -> Ids.refcount (ids s) b = 0.
Proof.
  intros Hs Hn. unfold get_num_total_blocks, get_num_free_blocks, Ids.get_num_total_blocks,
    Ids.get_num_free_blocks, ev_num_blocks in Hn. rewrite dlen_keys in Hn.
  set (F := Ids.free_block_indices (ids s)) in *. set (K := keys (ev_table (evictor s))) in *.
  pose proof (inv_ids _ _ _ _ _ _ Hs) as [A1 A2 A3 A4].
  assert (HK : forall b, b ∈ K <-> is_Some (ev_blocks (evictor s) b)) by (intros b; apply elem_of_keys).
  assert (Hunused : forall b, b ∈ (list_to_set (F ++ K) : gset Z) -> Ids.refcounts (ids s) !! b = Some 0).
  { intros b. rewrite elem_of_list_to_set, elem_of_app. intros [Hb|Hb]; [by apply A3|].
    apply HK in Hb. by apply (inv_evict _ _ _ _ _ _ Hs). }
  assert (Heq : (list_to_set (F ++ K) : gset Z) = Ids.all_block_indices (ids s)).
  { apply set_subseteq_size_eq.
    - intros b Hb%Hunused. apply A1. by eexists.
    - rewrite size_list_to_set.
      + rewrite length_app. lia.
      + apply NoDup_app. split; [done|]. split.
        * intros b Hb Hk%HK. by apply (inv_evict _ _ _ _ _ _ Hs) in Hk as [_ ?].
        * apply (law_table _ (inv_ev _ _ _ _ _ _ Hs)). }
  intros b Hb. rewrite <- Heq in Hb. by apply refcount_of, Hunused.
Qed.

Lemma reset_prefix_cache_ok s r s' :
  inv zero None ∅ s -> reset_prefix_cache make_evictor s = (Ok r, s') -> inv zero None ∅ s'.
Proof.
  intros Hs0. rename s into si. unfold reset_prefix_cache. rewrite bind_run. cbn [modify].
  set (s := with_metrics si _ _).
  assert (Hs : inv zero None ∅ s).
  { eapply inv_frame; [exact Hs0|done|done|done|done| |apply Hs0|done]. intros b k Hk. by exists k. }
  clearbody s. clear Hs0. run_get.
  destruct (Z.ltb_spec 0 (get_num_total_blocks s - get_num_free_blocks s)) as [_|Hle]; [by intros [= _ <-]|].
  pose proof (all_unused _ _ _ _ Hs Hle) as Hun.
  intros ([] & s1 & Hd & Hrest)%bind_ok.
  destruct (drain_ok _ _ _ (inv_retrack _ _ _ _ Hs) Hd) as (Hs1 & Hcnt & Hall).
  revert Hrest. run_get. intros ([] & s2 & Has & Hrest)%bind_ok.
  destruct (bool_decide _); [|done]. injection Has as <-.
  apply bind_ok in Hrest as (e & s2 & He & Hrest). unfold lift in He. injection He as He <-.
  destruct (fresh_evictor e He) as [Hw Hno]. rewrite bind_run in Hrest. cbn [modify] in Hrest.
  apply bind_ok in Hrest as ([] & s3 & Hcap & Hrest). rewrite bind_run in Hrest. cbn [modify] in Hrest.
  injection Hrest as _ <-.
  assert (H3 : exists e', s3 = with_evictor s1 e' /\ ev_wf e' /\ forall j, ev_blocks e' j = None).
  { destruct hook_set_capacity as [f|] eqn:Hf.
    - unfold on_evictor in Hcap. cbn [evictor with_evictor] in Hcap.
      destruct (law_set_capacity f (get_num_total_blocks s1) e Hf Hw) as [H1 H2].
      destruct (f (get_num_total_blocks s1) e) as [rr e'] eqn:Hfe. injection Hcap as _ <-.
      exists e'. split; [done|]. split; [done|]. intros j. cbn in H2. by rewrite H2.
    - injection Hcap as <-. by exists e. }
  destruct H3 as (e' & -> & Hw' & Hno'). destruct Hs1. split; try done.
  - intros b Hb. destruct (inv_track b Hb) as (k & Hk & _). cbn in Hk. rewrite map_lookup_imap in Hk.
    destruct (block_tracker s1 !! b) as [k1|] eqn:Hk1; [|done].
    exists BlockTracker.init. cbn. rewrite lookup_fmap, Hk1. split; [done|].
    cbn in Hb. rewrite Hall in Hb. rewrite Hcnt, Hun by done. cbn. split; [done|lia].
  - intros b Hb. cbn in Hb. rewrite Hno' in Hb. by destruct Hb.
Qed.

(** ** Reachable states *)

Lemma lookup_trackers (l : list Z) b :
  foldr (fun b m => <[b := BlockTracker.init]> m) (∅ : gmap Z BlockTracker.t) l !! b
  = if decide (b ∈ l) then Some BlockTracker.init else None.
Proof.
  induction l as [|c l IH]; cbn [foldr].
  { rewrite decide_False by apply not_elem_of_nil. apply lookup_empty. }
  destruct (decide (c = b)) as [->|Hne].
  - rewrite decide_True by left. apply lookup_insert_eq.
  - etransitivity; [by apply lookup_insert_ne|]. etransitivity; [exact IH|].
    apply decide_ext. rewrite elem_of_cons. split; [by right|]. by intros [?|?].
Qed.

Lemma init_inv n bs l s :
  0 < n -> 0 < bs -> NoDup (default (seqZ 0 n) l) -> init make_evictor n bs l = Ok s ->
  inv zero None ∅ s.
Proof.
  intros Hn Hbs Hl. unfold init. intros (q & Hq & H)%result_bind_ok.
  apply result_bind_ok in H as (i & Hi & H). apply result_bind_ok in H as (e & He & H).
  destruct (fresh_evictor e He) as [Hw Hno].
  set (e' := match hook_set_capacity with Some f => f n e | None => (Ok tt, e) end) in *.
  apply result_bind_ok in H as (u & _ & H). injection H as <-.
  assert (He' : ev_wf e'.2 /\ forall j, ev_blocks e'.2 j = None).
  { unfold e'. destruct hook_set_capacity as [f|] eqn:Hf; [|done].
    destruct (law_set_capacity f n e Hf Hw) as [H1 H2]. split; [done|]. intros j. by rewrite H2. }
  destruct He' as [Hw' Hno'].
  pose proof (Ids.init_ids_ok _ _ _ Hl Hi) as Hids. pose proof (BlockPool.init_ok _ _ _ Hq) as Hpool.
  unfold BlockPool.init in Hq. destruct (0 <=? n * 4); [|done]. injection Hq as <-.
  unfold Ids.init in Hi. destruct (_ =? n) in Hi; [|done]. injection Hi as <-.
  set (s := PrefixCachingBlockAllocator _ _ _ _ _ _ _ _ _ _ _).
  assert (Hv : view ∅ s = ∅).
  { apply map_empty. intros p. destruct (view ∅ s !! p) as [o|] eqn:Ho; [|done]. exfalso.
    apply view_lookup in Ho as [Ho [Hp|?%elem_of_empty]]; [|done]. apply Hp. cbn.
    apply elem_of_seqZ. assert (Hs : is_Some (objs s !! p)) by by eexists.
    apply (BlockPool.po_objs _ Hpool) in Hs. cbn in Hs. lia. }
  split; rewrite ?Hv; try done.
  - by apply Ids.ids_ok_safe.
  - cbn. lia.
  - intros b. unfold owners. rewrite map_filter_empty, map_size_empty. unfold Ids.refcount. cbn.
    rewrite RefCounter.lookup_init. by case_decide.
  - intros b Hb. cbn in Hb. apply elem_of_list_to_set in Hb. exists BlockTracker.init. cbn.
    rewrite lookup_trackers, decide_True by done. split; [done|]. unfold Ids.refcount. cbn.
    rewrite RefCounter.lookup_init, decide_True by done. cbn. split; [done|lia].
  - intros b Hb. cbn in Hb. rewrite Hno' in Hb. by destruct Hb.
Qed.

(** The blocks in use: handed out by the pool and not returned. *)
Definition live_blocks s : gmap Z block := view ∅ s.
Definition live s p : Prop := is_Some (live_blocks s !! p).
(** A block may follow [prev] once [prev] is full. *)
Definition may_follow s (prev : option Z) : Prop :=
  forall q, prev = Some q -> is_full_in (live_blocks s) q.

(** The calls that return.  Clients name only live blocks, fill a block only
    after its predecessor, and free a block with all that follow it. *)
Inductive step : t -> t -> Prop :=
  | step_mutable prev extra p s s' :
      (forall q, prev = Some q -> live s q) ->
      allocate_mutable_block py_hash none_hash prev extra s = (Ok p, s') -> step s s'
  | step_immutable prev toks extra p s s' :
      may_follow s prev ->
      allocate_immutable_block py_hash none_hash prev toks extra s = (Ok p, s') -> step s s'
  | step_immutables prev l extra ps s s' :
      may_follow s prev ->
      allocate_immutable_blocks py_hash none_hash prev l extra s = (Ok ps, s') -> step s s'
  | step_append p o b toks s s' :
      live_blocks s !! p = Some o -> block_id o = Some b -> may_follow s (prev_block o) ->
      append_token_ids py_hash none_hash p toks s = (Ok tt, s') -> step s s'
  | step_free ps s s' :
      NoDup ps -> (forall p, p ∈ ps -> live s p) -> closed s ps ->
      free_all py_hash none_hash ps s = (Ok tt, s') -> step s s'
  | step_fork p qs s s' :
      (forall l, source_blocks p s = Ok l -> forall q, q ∈ l -> live s q) ->
      fork p s = (Ok qs, s') -> step s s'
  | step_swap_out ps s s' :
      (forall p, p ∈ ps -> live s p) -> swap_out py_hash none_hash ps s = (Ok tt, s') -> step s s'
  | step_num_touched ps n s s' :
      (forall p, p ∈ ps -> live s p) ->
      get_num_full_blocks_touched py_hash none_hash ps s = (Ok n, s') -> step s s'
  | step_accessed bs now c s s' : mark_blocks_as_accessed np_exp bs now c s = (Ok tt, s') -> step s s'
  | step_computed bs s s' : mark_blocks_as_computed bs s = (Ok tt, s') -> step s s'
  | step_observe hs c s s' : observe_cache_accesses hs c s = (Ok tt, s') -> step s s'
  | step_clear l s s' : clear_copy_on_writes s = (Ok l, s') -> step s s'
  | step_reset r s s' : reset_prefix_cache make_evictor s = (Ok r, s') -> step s s'.

Lemma step_inv s s' : step s s' -> inv zero None ∅ s -> inv zero None ∅ s'.
Proof.
  intros Hst Hs. destruct Hst as [prev extra p s s' Hl H|prev toks extra p s s' Hl H|prev l extra ps s s' Hl H
    |p o b toks s s' Ho Hb Hl H|ps s s' Hnd Hl Hc H|p qs s s' Hl H|ps s s' Hl H|ps n s s' Hl H|bs now c s s' H
    |bs s s' H|hs c s s' H|l s s' H|r s s' H].
  - destruct (prefix_allocate_mutable_ok _ _ no_collision _ _ _ _ _ Hs Hl H) as [Ha _]. apply Ha.
  - destruct (prefix_allocate_immutable_ok _ _ no_collision _ _ _ _ _ _ Hs Hl H) as [Ha _]. apply Ha.
  - by destruct (prefix_allocate_immutable_blocks_ok _ _ no_collision _ _ _ _ _ _ Hs Hl H).
  - by destruct (append_token_ids_ok _ _ no_collision _ _ _ _ _ _ Hs Ho Hb Hl H).
  - by destruct (free_all_ok _ _ no_collision _ _ _ Hs Hnd Hl Hc H).
  - by destruct (fork_ok _ _ _ _ _ _ Hs Hl H) as (_ & _ & _ & _ & ? & _).
  - by eapply swap_out_ok.
  - by eapply num_touched_ok.
  - by eapply mark_blocks_as_accessed_ok.
  - by eapply mark_blocks_as_computed_ok.
  - by eapply observe_ok.
  - unfold clear_copy_on_writes, on_cow in H. injection H as _ <-.
    eapply inv_frame; [exact Hs|done|done|done|done| |apply Hs|done]. intros b k Hk. by exists k.
  - by eapply reset_prefix_cache_ok.
Qed.

Lemma reachable_inv n bs l s0 s :
  0 < n -> 0 < bs -> NoDup (default (seqZ 0 n) l) -> init make_evictor n bs l = Ok s0 ->
  rtc step s0 s -> inv zero None ∅ s.
Proof.
  intros Hn Hbs Hl Hi Hr. pose proof (init_inv n bs l s0 Hn Hbs Hl Hi) as Hs. clear Hi.
  revert Hs. induction Hr; eauto using step_inv.
Qed.

Section Reached.
Variables (n bs : Z) (l : option (list Z)) (s0 s : t).
Hypothesis Hn : 0 < n.
Hypothesis Hbs : 0 < bs.
Hypothesis Hl : NoDup (default (seqZ 0 n) l).
Hypothesis Hinit : init make_evictor n bs l = Ok s0.
Hypothesis Hreach : rtc step s0 s.

Lemma reached : inv zero None ∅ s.
Proof. exact (reachable_inv n bs l s0 s Hn Hbs Hl Hinit Hreach). Qed.

(** C15. In every state the prefix-caching allocator reaches, under any
    eviction policy: a reference count is the number of live blocks that hold
    the id; a free id is held by no block, not offered for eviction and not in
    the cache; an id offered for eviction is held by no block; and an id is
    tracked as active exactly when some block holds it. *)
Theorem ids_accounted :
  (forall b, Ids.refcount (ids s) b = owners (live_blocks s) b) /\
  (forall b, b ∈ Ids.free_block_indices (ids s) ->
     owners (live_blocks s) b = 0 /\ ev_blocks (evictor s) b = None /\ uncached (cached_blocks s) b) /\
  (forall b, is_Some (ev_blocks (evictor s) b) -> owners (live_blocks s) b = 0) /\
  NoDup (Ids.free_block_indices (ids s)) /\
  (forall b k, b ∈ Ids.all_block_indices (ids s) -> block_tracker s !! b = Some k ->
     (BlockTracker.active k = true <-> 0 < owners (live_blocks s) b)).
Proof.
  pose proof reached as Hs.
  assert (Hc : forall b, Ids.refcount (ids s) b = owners (live_blocks s) b).
  { intros b. rewrite (inv_counts _ _ _ _ _ _ Hs). unfold zero, live_blocks. lia. }
  split; [done|]. split; [|split; [|split]].
  - intros b Hb. pose proof (Ids.is_free _ (inv_ids _ _ _ _ _ _ Hs) b Hb) as H0.
    split; [by rewrite <- Hc; apply refcount_of|]. split.
    + destruct (ev_blocks (evictor s) b) as [h|] eqn:He; [|done].
      by destruct (inv_evict _ _ _ _ _ _ Hs b (mk_is_Some _ _ He)) as [_ ?].
    + intros h Hh. by apply (inv_cached _ _ _ _ _ _ Hs) in Hh as [_ ?].
  - intros b [H0 _]%(inv_evict _ _ _ _ _ _ Hs). by rewrite <- Hc; apply refcount_of.
  - apply (inv_ids _ _ _ _ _ _ Hs).
  - intros b k Hb Hk. destruct (inv_track _ _ _ _ _ _ Hs b Hb) as (k' & Hk' & Ha).
    rewrite Hk in Hk'. injection Hk' as <-. by rewrite Ha, Hc.
Qed.

(** C16. [allocate_mutable_block] never hands out an id in use: the new block is
    empty, its id was held by no live block, and every live block is as it was
    (remembered hashes aside). *)
Theorem allocation_is_fresh (prev extra : option Z) (p : Z) (s' : t)
    (Hprev : forall q, prev = Some q -> live s q)
    (Halloc : allocate_mutable_block py_hash none_hash prev extra s = (Ok p, s')) :
  (exists o b, live_blocks s' !! p = Some o /\ token_ids o = [] /\ prev_block o = prev /\
     block_id o = Some b /\ owners (live_blocks s) b = 0) /\
  ~ live s p /\
  forall q, q <> p -> strip <$> live_blocks s' !! q = strip <$> live_blocks s !! q.
Proof.
  pose proof reached as Hs.
  destruct (prefix_allocate_mutable_ok _ _ no_collision _ _ _ _ _ Hs Hprev Halloc)
    as [[_ Hoth _ Hnew (o & Ho & H1 & H2 & _ & _)] (o' & b & Ho' & Hb & H0)].
  rewrite Ho in Ho'. injection Ho' as <-. split; [|split; [|exact Hoth]].
  - exists o, b. split; [done|]. split; [done|]. split; [done|]. split; [done|].
    rewrite (inv_counts _ _ _ _ _ _ Hs) in H0. unfold zero in H0. unfold live_blocks. lia.
  - intros [? ?]. unfold live_blocks in *. congruence.
Qed.

(** C14. Prefix caching shares exactly what may be shared: two full live blocks
    have the same physical id if and only if their sequences agree, in tokens
    and extra hashes, on everything up to and including the block. *)
Theorem shared_iff_same_prefix (p q bp bq : Z) (op oq : block) (lp lq : list part)
    (py_hash_inj : forall u v, py_hash u = py_hash v -> u = v)
    (Hp : live_blocks s !! p = Some op) (Hq : live_blocks s !! q = Some oq)
    (Hfp : is_full op = true) (Hfq : is_full oq = true)
    (Hbp : block_id op = Some bp) (Hbq : block_id oq = Some bq)
    (Hlp : contents (live_blocks s) (Some p) lp) (Hlq : contents (live_blocks s) (Some q) lq) :
  bp = bq <-> lp = lq.
Proof.
  pose proof reached as Hs.
  assert (Hid : forall p o b l, live_blocks s !! p = Some o -> is_full o = true -> block_id o = Some b ->
    contents (live_blocks s) (Some p) l -> exists h, chain_hash l = Some h /\ cached_blocks s !! h = Some b).
  { intros p' o b l' Hp' Hf Hb Hc. pose proof (oo_id _ _ _ _ _ _ _ _ (inv_objs _ _ _ _ _ _ Hs p' o Hp') b Hb) as H.
    rewrite decide_True in H by done. destruct H as (h & [_ (l2 & Hl2 & Hh)] & Hcb).
    exists h. by rewrite (contents_fun _ _ _ _ Hc Hl2). }
  destruct (Hid p op bp lp) as (hp & Hhp & Hcp); [done..|].
  destruct (Hid q oq bq lq) as (hq & Hhq & Hcq); [done..|]. split.
  - intros ->. rewrite (inv_inj _ _ _ _ _ _ Hs _ _ _ Hcp Hcq) in Hhp.
    apply (chain_hash_inj py_hash none_hash); [done|congruence].
  - intros ->. congruence.
Qed.
End Reached.
End Correct.

(** ** A small run: two sequences with a common first block *)

Section Sample.
Definition sample_hash (a : bool * option Z * list Z * option Z) : Z := Zpos (encode a).
Definition sample_clk (i : nat) : Q := inject_Z (Z.of_nat i).
#[local] Instance sample_evictor : Evictor LRUEvictor.t := LRUEvictor.lru_evictor sample_clk.
Definition sample_make : result LRUEvictor.t := Ok LRUEvictor.init.
Abbreviation sample_step := (step sample_hash 0 (fun _ => 1%Q) sample_make).

Lemma sample_no_collision a : sample_hash a <> 0.
Proof. done. Qed.
Lemma sample_hash_inj a b : sample_hash a = sample_hash b -> a = b.
Proof. intros [= H]. by apply (inj encode). Qed.
Lemma sample_fresh e : sample_make = Ok e -> LRUEvictor.lru_wf e /\ forall j, ev_blocks e j = None.
Proof. intros [= <-]. split; [constructor|done]. Qed.

Lemma sample_run :
  exists s0 s1 s2 s3 s4 o0 o1 p0 p2,
    init sample_make 4 2 None = Ok s0 /\
    allocate_immutable_block sample_hash 0 None [5; 6] None s0 = (Ok 0, s1) /\
    live_blocks s1 !! 0 = Some o0 /\
    allocate_mutable_block sample_hash 0 (Some 0) None s1 = (Ok 1, s2) /\
    live_blocks s2 !! 1 = Some o1 /\ block_id o1 = Some 1 /\ prev_block o1 = Some 0 /\
    live_blocks s2 !! 0 = Some o0 /\ is_full o0 = true /\
    append_token_ids sample_hash 0 1 [7] s2 = (Ok tt, s3) /\
    allocate_immutable_block sample_hash 0 None [5; 6] None s3 = (Ok 2, s4) /\
    live_blocks s4 !! 0 = Some p0 /\ live_blocks s4 !! 2 = Some p2 /\
    is_full p0 = true /\ is_full p2 = true /\ block_id p0 = Some 0 /\
    bool_decide (is_Some (block_id p2)) = true /\
    prev_block p0 = None /\ prev_block p2 = None /\ part_of p0 = part_of p2.
Proof.
  do 9 eexists. do 19 (split; [vm_compute; reflexivity|]). vm_compute. reflexivity.
Qed.

Lemma prefix_sample_reach :
  exists s0 s p0 p2 b, init sample_make 4 2 None = Ok s0 /\ rtc sample_step s0 s /\
    live_blocks s !! 0 = Some p0 /\ live_blocks s !! 2 = Some p2 /\
    is_full p0 = true /\ is_full p2 = true /\ block_id p0 = Some 0 /\ block_id p2 = Some b /\
    prev_block p0 = None /\ prev_block p2 = None /\ part_of p0 = part_of p2.
Proof.
  destruct sample_run as (s0 & s1 & s2 & s3 & s4 & o0 & o1 & p0 & p2 & Hi & H1 & Hl1 & H2 & Hl2 & Hb1 & Hp1
    & Hl0 & Hf0 & H3 & H4 & Hl & Hl' & Hf & Hf' & Hb & Hb' & Hr).
  apply bool_decide_eq_true in Hb' as [b Hb']. exists s0, s4, p0, p2, b.
  split; [exact Hi|]. split; [|done].
  eapply rtc_l; [eapply step_immutable; [|exact H1]; by intros ? [=]|].
  eapply rtc_l; [eapply step_mutable; [|exact H2]; by intros q [= <-]; exists o0|].
  eapply rtc_l; [eapply step_append; [exact Hl2|exact Hb1| |exact H3]|].
  { rewrite Hp1. intros q [= <-]. by exists o0. }
  eapply rtc_l; [eapply step_immutable; [|exact H4]; by intros ? [=]|]. constructor.
Qed.

Lemma sample_ids : NoDup (default (seqZ 0 4) None).
Proof. apply NoDup_seqZ. Qed.

Lemma ids_accounted_witness :
  exists s : Prefix.t LRUEvictor.t, is_Some (live_blocks s !! 0) /\
    NoDup (Ids.free_block_indices (ids s)) /\
    forall b, is_Some (ev_blocks (evictor s) b) -> BlockCommon.owners block_id (live_blocks s) b = 0.
Proof.
  destruct prefix_sample_reach as (s0 & s & p0 & p2 & b & Hi & Hr & Hl & _).
  destruct (ids_accounted (ev_wf := LRUEvictor.lru_wf) sample_hash 0 (fun _ => 1%Q) sample_make
    sample_no_collision sample_fresh 4 2 None s0 s eq_refl eq_refl sample_ids Hi Hr) as (_ & _ & H1 & H2 & _).
  exists s. split; [by exists p0|]. split; [exact H2|exact H1].
Defined.

Lemma allocation_is_fresh_witness :
  exists (s s' : Prefix.t LRUEvictor.t) o b, live_blocks s' !! 0 = Some o /\ block_id o = Some b /\
    BlockCommon.owners block_id (live_blocks s) b = 0.
Proof.
  assert (H : match init sample_make 4 2 None with
              | Ok s0 => match (allocate_mutable_block sample_hash 0 None None s0).1 with
                         | Ok p => p =? 0 | Err _ => false end
              | Err _ => false
              end = true) by (vm_compute; reflexivity).
  destruct (init sample_make 4 2 None) as [s0|] eqn:Hi; [|discriminate H].
  destruct (allocate_mutable_block sample_hash 0 None None s0) as [[p|] s'] eqn:Ha; [|discriminate H].
  apply Z.eqb_eq in H. cbn in H. subst p.
  destruct (allocation_is_fresh (ev_wf := LRUEvictor.lru_wf) sample_hash 0 (fun _ => 1%Q) sample_make
    sample_no_collision sample_fresh 4 2 None s0 s0 eq_refl eq_refl sample_ids Hi (rtc_refl _ s0)
    None None 0 s' (fun q H => match H with end) Ha) as ((o & b & Ho & _ & _ & Hb & H0) & _).
  exists s0, s', o, b. split; [exact Ho|]. split; [exact Hb|exact H0].
Defined.

Lemma shared_iff_same_prefix_witness :
  exists (s : Prefix.t LRUEvictor.t) o, live_blocks s !! 2 = Some o /\ block_id o = Some 0.
Proof.
  destruct prefix_sample_reach as (s0 & s & p0 & p2 & b & Hi & Hr & Hl & Hl' & Hf & Hf' & Hb & Hb' & Hp & Hp' & Hpart).
  exists s, p2. split; [exact Hl'|].
  assert (Hc : contents (live_blocks s) (Some 0) ([] ++ [part_of p0])).
  { eapply contents_snoc; [exact Hl|]. rewrite Hp. constructor. }
  assert (Hc' : contents (live_blocks s) (Some 2) ([] ++ [part_of p2])).
  { eapply contents_snoc; [exact Hl'|]. rewrite Hp'. constructor. }
  rewrite Hb'. f_equal. symmetry.
  apply (shared_iff_same_prefix (ev_wf := LRUEvictor.lru_wf) sample_hash 0 (fun _ => 1%Q) sample_make
    sample_no_collision sample_fresh 4 2 None s0 s eq_refl eq_refl sample_ids Hi Hr 0 2 0 b p0 p2
    ([] ++ [part_of p0]) ([] ++ [part_of p2]) sample_hash_inj Hl Hl' Hf Hf' Hb Hb' Hc Hc').
  by rewrite Hpart.
Defined.
End Sample.
