(* ===== verification/ComputedBlocks.v ===== *)
(** * Which blocks of a sequence are computed

    [find_cached_blocks_prefix] and its binary search, [ComputedBlocksTracker],
    which hashes the blocks of each sequence as it grows, and
    [LastAccessBlocksTracker] ([vllm/core/block/prefix_caching_block.py]).  The
    tracked hashes are the content hashes the allocator gives the blocks. *)
From S2P Require Import Prelude.
From S2P Require Import PyDict.
From S2P Require Import EvictorBase.
From S2P Require Import BlockCommon.
From S2P Require Import NaiveBlock.
From S2P Require Import PrefixCaching.
From S2P Require Import PrefixInvariant.
From S2P Require Import PrefixCorrect.
From S2P Require Import LRUEvictor.
From S2P Require Import EvictorMethods.

(** ** The binary search *)

Section BisectCorrect.
Context {A : Type}.
Variable key : A -> result bool.
Variable kb : A -> bool.

Lemma bisect_loop_ok l fuel : forall lo hi,
  (forall y, y ∈ l -> key y = Ok (kb y)) -> (lo <= hi <= length l)%nat -> (hi - lo <= fuel)%nat ->
  exists i, bisect_loop key fuel l lo hi = Ok i /\ (lo <= i <= hi)%nat /\
    (i = lo \/ exists y, l !! (i - 1)%nat = Some y /\ kb y = false) /\
    (i = hi \/ exists y, l !! i = Some y /\ kb y = true).
Proof.
  induction fuel as [|fuel IH]; intros lo hi Hk Hr Hf; cbn [bisect_loop]; case_decide as Hlt; try lia.
  { exists lo. split; [done|]. split; [lia|]. split; [by left|]. left. lia. }
  2: { exists lo. split; [done|]. split; [lia|]. split; [by left|]. left. lia. }
  set (mid := Nat.div2 (lo + hi)).
  assert (Hmid : (lo <= mid < hi)%nat).
  { unfold mid. rewrite Nat.div2_div. split.
    - apply Nat.div_le_lower_bound; lia.
    - apply Nat.Div0.div_lt_upper_bound; lia. }
  destruct (lookup_lt_is_Some_2 l mid ltac:(lia)) as [y Hy]. rewrite Hy.
  rewrite Hk by by eapply list_elem_of_lookup_2. cbn. destruct (kb y) eqn:Hkb.
  - destruct (IH lo mid Hk ltac:(lia) ltac:(lia)) as (i & Hi & Hri & H1 & H2).
    exists i. split; [done|]. split; [lia|]. split; [done|]. right.
    destruct H2 as [->|H2]; [by exists y|done].
  - destruct (IH (S mid) hi Hk ltac:(lia) ltac:(lia)) as (i & Hi & Hri & H1 & H2).
    exists i. split; [done|]. split; [lia|]. split; [|done]. right.
    destruct H1 as [->|H1]; [|done]. exists y. by replace (S mid - 1)%nat with mid by lia.
Qed.

Lemma bisect_left_ok l :
  (forall y, y ∈ l -> key y = Ok (kb y)) ->
  exists i, bisect_left_true key l = Ok i /\ (i <= length l)%nat /\
    (i = 0%nat \/ exists y, l !! (i - 1)%nat = Some y /\ kb y = false) /\
    (i = length l \/ exists y, l !! i = Some y /\ kb y = true).
Proof.
  intros Hk. destruct (bisect_loop_ok l (length l) 0 (length l) Hk ltac:(lia) ltac:(lia))
    as (i & Hi & Hr & H1 & H2). exists i. split; [done|]. split; [lia|]. split; done.
Qed.
End BisectCorrect.

(** ** Hashes of a token sequence *)

Section SeqHashes.
Variable py_hash : bool * option Z * list Z * option Z -> Z.
Variable none_hash : Z.
Variable block_size : Z.

(** The contents of the full blocks of a sequence. *)
Definition nth_part (toks : list Z) (extra : option Z) (i : nat) : part :=
  (take (Z.to_nat block_size) (drop (i * Z.to_nat block_size) toks), extra).
Definition seq_parts (toks : list Z) (extra : option Z) (n : nat) : list part :=
  map (nth_part toks extra) (seq 0 n).
Definition num_full (toks : list Z) : nat := Z.to_nat (Z.of_nat (length toks) / block_size).

(** The content hashes of the first [n] blocks. *)
Definition content_hashes (parts : list part) : list Z :=
  omap (fun i => chain_hash py_hash none_hash (take (S i) parts)) (seq 0 (length parts)).

Lemma seq_parts_snoc toks extra n :
  seq_parts toks extra (S n) = seq_parts toks extra n ++ [nth_part toks extra n].
Proof. unfold seq_parts. by rewrite seq_S, map_app. Qed.

Lemma seq_parts_length toks extra n : length (seq_parts toks extra n) = n.
Proof. unfold seq_parts. by rewrite length_map, length_seq. Qed.

Lemma content_hashes_snoc parts x :
  exists h, chain_hash py_hash none_hash (parts ++ [x]) = Some h /\
    content_hashes (parts ++ [x]) = content_hashes parts ++ [h].
Proof.
  destruct (chain_hash_some py_hash none_hash (parts ++ [x])) as [h Hh]; [by destruct parts|].
  exists h. split; [done|]. unfold content_hashes. rewrite length_app, Nat.add_1_r, seq_S, omap_app.
  f_equal.
  - apply list_omap_ext. apply Forall2_same_length_lookup. split; [done|].
    intros i j k Hj Hk. rewrite Hj in Hk. injection Hk as <-.
    apply lookup_seq in Hj as [-> Hlt]. rewrite take_app_le by lia. done.
  - cbn. rewrite take_ge by (rewrite length_app; cbn; lia). by rewrite Hh.
Qed.

Lemma content_hashes_length parts : length (content_hashes parts) = length parts.
Proof.
  induction parts as [|x parts IH] using rev_ind; [done|].
  destruct (content_hashes_snoc parts x) as (h & _ & ->). by rewrite !length_app, IH.
Qed.

Lemma content_hashes_last parts :
  chain_hash py_hash none_hash parts = last (content_hashes parts).
Proof.
  destruct parts as [|x parts _] using rev_ind; [done|].
  destruct (content_hashes_snoc parts x) as (h & -> & ->). by rewrite last_snoc.
Qed.
End SeqHashes.

(** ** [ComputedBlocksTracker] *)

Module Computed.

(** What the tracker reads of a [Sequence]. *)
Record seq_view : Type := SeqView {
  seq_id : Z;
  seq_token_ids : list Z;
  seq_extra_hash : option Z;
  seq_is_prefill : bool;
  seq_cache_hint : option cache_hint
}.

Section Tracker.
Variable py_hash : bool * option Z * list Z * option Z -> Z.
Variable none_hash : Z.
(** The allocator's state and the two calls the tracker makes. *)
Context {A : Type}.
Variable find_cached_blocks_prefix : list Z -> A -> result (list Z).
Variable observe_cache_accesses : list Z -> option cache_hint -> M A unit.

Record t : Type := ComputedBlocksTracker {
  block_size : Z;
  enable_caching : bool;
  seq_id_to_blocks_hashes : gmap Z (list Z);
  seq_id_to_num_tokens_computed : gmap Z Z
}.

Definition init (bs : Z) (caching : bool) : t := ComputedBlocksTracker bs caching ∅ ∅.

Definition with_hashes (s : t) (m : gmap Z (list Z)) : t :=
  ComputedBlocksTracker (block_size s) (enable_caching s) m (seq_id_to_num_tokens_computed s).
Definition with_computed (s : t) (m : gmap Z Z) : t :=
  ComputedBlocksTracker (block_size s) (enable_caching s) (seq_id_to_blocks_hashes s) m.

(** The loop over the new blocks: [i] the next block, [n] blocks to go. *)
Fixpoint hash_loop (bs : Z) (toks : list Z) (extra : option Z) (i n : nat) (prev : Z) : list Z :=
  match n with
  | O => []
  | S n' =>
      let block_token_ids := take (Z.to_nat bs) (drop (i * Z.to_nat bs) toks) in
      let h := Prefix.hash_block_tokens py_hash none_hash (prev =? none_hash) (Some prev)
                 block_token_ids extra in
      h :: hash_loop bs toks extra (S i) n' h
  end.

Definition update_seq_hashes (q : seq_view) : M t unit := fun s =>
  if enable_caching s then
    let recorded := default [] (seq_id_to_blocks_hashes s !! seq_id q) in
    let cur := length recorded in
    let toks := seq_token_ids q in
    if Z.of_nat cur * block_size s <=? Z.of_nat (length toks) then
      let num := Z.to_nat (Z.of_nat (length toks) / block_size s) in
      let prev := match last recorded with Some h => h | None => none_hash end in
      let new := hash_loop (block_size s) toks (seq_extra_hash q) cur (num - cur) prev in
      (Ok tt, with_hashes s (<[seq_id q := recorded ++ new]> (seq_id_to_blocks_hashes s)))
    else (Err AssertionError, s)
  else (Err AssertionError, s).

(** The tracker's state beside the allocator's. *)
Definition on_tracker {B} (f : M t B) : M (t * A) B := fun s =>
  let '(r, c) := f s.1 in (r, (c, s.2)).
Definition on_allocator {B} (f : M A B) : M (t * A) B := fun s =>
  let '(r, a) := f s.2 in (r, (s.1, a)).

Definition get_num_cached_tokens (q : seq_view) : M (t * A) Z :=
  s0 ← get;
  if enable_caching s0.1 then
    on_tracker (update_seq_hashes q) ;;
    s ← get;
    match seq_id_to_num_tokens_computed s.1 !! seq_id q, seq_is_prefill q with
    | Some prev, true => mret prev
    | _, _ =>
        block_hashes ← lift (from_option_exn KeyError (seq_id_to_blocks_hashes s.1 !! seq_id q));
        on_allocator (observe_cache_accesses block_hashes (seq_cache_hint q)) ;;
        s ← get;
        cached ← lift (find_cached_blocks_prefix block_hashes s.2);
        let num_cached_tokens := Z.of_nat (length cached) * block_size s.1 in
        on_tracker (modify (fun c =>
          with_computed c (<[seq_id q := num_cached_tokens]> (seq_id_to_num_tokens_computed c)))) ;;
        mret num_cached_tokens
    end
  else mret 0.

Definition remove_seq (i : Z) : M t unit := fun s =>
  if enable_caching s then
    match seq_id_to_blocks_hashes s !! i with
    | None => (Err AssertionError, s)
    | Some _ =>
        let s1 := with_hashes s (delete i (seq_id_to_blocks_hashes s)) in
        match seq_id_to_num_tokens_computed s1 !! i with
        | None => (Err AssertionError, s1)
        | Some _ => (Ok tt, with_computed s1 (delete i (seq_id_to_num_tokens_computed s1)))
        end
    end
  else (Ok tt, s).

(** *** The recorded hashes are content hashes *)

Hypothesis no_collision : forall a, py_hash a <> none_hash.

Lemma hash_loop_ok bs toks extra n : forall i prev,
  prev = match chain_hash py_hash none_hash (seq_parts bs toks extra i) with Some h => h | None => none_hash end ->
  content_hashes py_hash none_hash (seq_parts bs toks extra i) ++ hash_loop bs toks extra i n prev
  = content_hashes py_hash none_hash (seq_parts bs toks extra (i + n)).
Proof.
  induction n as [|n IH]; intros i prev Hprev; cbn [hash_loop]; [by rewrite app_nil_r, Nat.add_0_r|].
  destruct (content_hashes_snoc py_hash none_hash (seq_parts bs toks extra i) (nth_part bs toks extra i))
    as (h & Hh & Hcs).
  set (hb := Prefix.hash_block_tokens _ _ _ _ _ _).
  assert (Hb : hb = h).
  { rewrite chain_hash_snoc in Hh. unfold chain_step in Hh. unfold hb. subst prev.
    destruct (chain_hash py_hash none_hash (seq_parts bs toks extra i)) as [h0|] eqn:Hc.
    - assert (Hne : h0 <> none_hash).
      { destruct (seq_parts bs toks extra i) as [|x l _] using rev_ind; [done|].
        rewrite chain_hash_snoc in Hc. unfold chain_step, Prefix.hash_block_tokens in Hc. cbn in Hc.
        destruct (chain_hash py_hash none_hash l); injection Hc as <-; apply no_collision. }
      rewrite (proj2 (Z.eqb_neq _ _) Hne). by injection Hh.
    - rewrite Z.eqb_refl. by injection Hh. }
  rewrite Hb, cons_middle, app_assoc, <- Hcs, <- seq_parts_snoc.
  rewrite IH; [f_equal; f_equal; lia|]. by rewrite seq_parts_snoc, Hh.
Qed.
End Tracker.
End Computed.

(** ** [LastAccessBlocksTracker]

    The hints are dictionaries shared between the sequences, the tracker and
    the prediction queue, so they live in a store [hints] and are referred to
    by address. *)
Module LastAccess.

Record t : Type := LastAccessBlocksTracker {
  seq_last_access : gmap Z (option Q);
  seq_cache_hint : gmap Z (option Z);
  hints : gmap Z cache_hint;
  to_predict_queue : list Z
}.

Definition with_access (s : t) x : t :=
  LastAccessBlocksTracker x (seq_cache_hint s) (hints s) (to_predict_queue s).
Definition with_seq_hints (s : t) x : t :=
  LastAccessBlocksTracker (seq_last_access s) x (hints s) (to_predict_queue s).
Definition with_hints (s : t) x : t :=
  LastAccessBlocksTracker (seq_last_access s) (seq_cache_hint s) x (to_predict_queue s).
Definition with_queue (s : t) x : t :=
  LastAccessBlocksTracker (seq_last_access s) (seq_cache_hint s) (hints s) x.

Definition add_seq (i : Z) : M t unit := fun s =>
  match seq_last_access s !! i with
  | Some _ => (Err AssertionError, s)
  | None => (Ok tt, with_seq_hints (with_access s (<[i := None]> (seq_last_access s)))
                      (<[i := None]> (seq_cache_hint s)))
  end.

Definition remove_seq (i : Z) : M t unit := fun s =>
  match seq_last_access s !! i with
  | None => (Err AssertionError, s)
  | Some _ =>
      let s1 := with_access s (delete i (seq_last_access s)) in
      match seq_cache_hint s1 !! i with
      | None => (Err KeyError, s1)
      | Some _ => (Ok tt, with_seq_hints s1 (delete i (seq_cache_hint s1)))
      end
  end.

Definition update_last_access (i : Z) (time : Q) : M t unit := fun s =>
  match seq_last_access s !! i with
  | None => (Err AssertionError, s)
  | Some _ => (Ok tt, with_access s (<[i := Some time]> (seq_last_access s)))
  end.

Definition set_seq_id (h : cache_hint) (i : Z) : cache_hint :=
  CacheHint (ch_id h) (ch_turns h) (Some i) (ch_use_lru h) (ch_use_rrip h) (ch_use_fifo h)
    (ch_scheduler_policy h) (ch_next_timestamp h) (ch_prob_has_next h) (ch_exp_scale h).

Definition deref (r : Z) : M t cache_hint := fun s =>
  (from_option_exn TypeError (hints s !! r), s).
Definition store (r : Z) (h : cache_hint) : M t unit :=
  modify (fun s => with_hints s (<[r := h]> (hints s))).

(** Keep the hint and ask for a prediction when it has none. *)
Definition adopt (i r : Z) (should_predict : bool) : M t unit :=
  h ← deref r;
  modify (fun s => with_seq_hints s (<[i := Some r]> (seq_cache_hint s))) ;;
  if should_predict && bool_decide (ch_prob_has_next h = None)
  then modify (fun s => with_queue s (to_predict_queue s ++ [r]))
  else mret tt.

(** [should_predict]: the allocator's [should_predict_cache_hint()]. *)
Definition update_cache_hint (i r : Z) (should_predict : bool) : M t unit :=
  h ← deref r;
  store r (set_seq_id h i) ;;
  h ← deref r;
  (if negb should_predict && bool_decide (ch_prob_has_next h = None)
   then store r (BlockTracker.set_prob h 0) else mret tt) ;;
  s ← get;
  match seq_cache_hint s !! i with
  | None | Some None => adopt i r should_predict
  | Some (Some old) =>
      o ← deref old;
      old_turns ← lift (BlockTracker.key_of (ch_turns o));
      h ← deref r;
      new_turns ← lift (BlockTracker.key_of (ch_turns h));
      if old_turns <? new_turns then adopt i r should_predict else mret tt
  end.

(** The predictor thread answers the first request of the queue. *)
Definition predict (prob : Q) : M t unit := fun s =>
  match to_predict_queue s with
  | [] => (Ok tt, s)
  | r :: rest =>
      match hints s !! r with
      | None => (Err TypeError, s)
      | Some h => (Ok tt, with_queue (with_hints s (<[r := BlockTracker.set_prob h prob]> (hints s))) rest)
      end
  end.

(** What [update_blocks_metadata_using_seq_metadata] passes on to
    [mark_blocks_as_accessed], if anything. *)
Definition update_blocks_metadata_using_seq_metadata (i : Z) : M t (option (Q * cache_hint)) :=
  s ← get;
  match seq_cache_hint s !! i with
  | None => raise KeyError
  | Some None => raise TypeError
  | Some (Some r) =>
      h ← deref r;
      (if bool_decide (ch_prob_has_next h = None) then store r (BlockTracker.set_prob h 0)
       else mret tt) ;;
      h ← deref r;
      s ← get;
      match seq_last_access s !! i with
      | None => raise KeyError
      | Some None => mret None
      | Some (Some ts) => mret (Some (ts, h))
      end
  end.
End LastAccess.

(** ** Correctness *)

Section Correct.
Variable py_hash : bool * option Z * list Z * option Z -> Z.
Variable none_hash : Z.
Hypothesis no_collision : forall a, py_hash a <> none_hash.
Abbreviation content_hashes := (content_hashes py_hash none_hash).

(** The hashes recorded for the sequence are those of all its full blocks. *)
Definition tracks (s : Computed.t) (q : Computed.seq_view) : Prop :=
  Computed.seq_id_to_blocks_hashes s !! Computed.seq_id q
  = Some (content_hashes (seq_parts (Computed.block_size s) (Computed.seq_token_ids q)
       (Computed.seq_extra_hash q) (num_full (Computed.block_size s) (Computed.seq_token_ids q)))).

Lemma seq_parts_prefix bs toks toks' extra n :
  0 < bs -> toks `prefix_of` toks' -> (n <= num_full bs toks)%nat ->
  seq_parts bs toks extra n = seq_parts bs toks' extra n.
Proof.
  intros Hbs [k ->] Hn. unfold seq_parts. apply map_ext_in. intros i Hi%in_seq.
  unfold nth_part. f_equal. unfold num_full in Hn.
  assert (Hle : (S i * Z.to_nat bs <= length toks)%nat).
  { pose proof (Z.mul_div_le (Z.of_nat (length toks)) bs Hbs).
    assert (Z.of_nat (S i) <= Z.of_nat (length toks) / bs) by lia. nia. }
  rewrite drop_app_le by nia. rewrite take_app_le; [done|]. rewrite length_drop. nia.
Qed.

Lemma num_full_mono bs toks toks' :
  0 < bs -> toks `prefix_of` toks' -> (num_full bs toks <= num_full bs toks')%nat.
Proof.
  intros Hbs H%prefix_length. unfold num_full. apply Z2Nat.inj_le; [apply Z.div_pos; lia..|].
  apply Z.div_le_mono; lia.
Qed.

(** C18. [ComputedBlocksTracker] hashes incrementally what the allocator hashes
    block by block: when a sequence that is new, or has only grown since it was
    last seen, is updated, the recorded list is exactly the content hashes of
    all its full blocks, in order, and no other sequence's record changes. *)
Theorem tracked_hashes_exact (s : Computed.t) (q0 q : Computed.seq_view)
    (Hbs : 0 < Computed.block_size s) (Hen : Computed.enable_caching s = true)
    (Hq : Computed.seq_id_to_blocks_hashes s !! Computed.seq_id q = None \/
          (tracks s q0 /\ Computed.seq_id q0 = Computed.seq_id q /\
           Computed.seq_extra_hash q0 = Computed.seq_extra_hash q /\
           Computed.seq_token_ids q0 `prefix_of` Computed.seq_token_ids q)) :
  exists s', Computed.update_seq_hashes py_hash none_hash q s = (Ok tt, s') /\
    tracks s' q /\
    forall i, i <> Computed.seq_id q ->
      Computed.seq_id_to_blocks_hashes s' !! i = Computed.seq_id_to_blocks_hashes s !! i.
Proof.
  set (bs := Computed.block_size s) in *. set (toks := Computed.seq_token_ids q).
  set (extra := Computed.seq_extra_hash q).
  assert (Hrec : exists n, (n <= num_full bs toks)%nat /\
    default [] (Computed.seq_id_to_blocks_hashes s !! Computed.seq_id q)
    = content_hashes (seq_parts bs toks extra n)).
  { destruct Hq as [-> | (Ht & Hid & Hex & Hpre)]; [by exists 0%nat; split; [lia|]|].
    unfold tracks in Ht. rewrite Hid in Ht. rewrite Ht. cbn. fold bs. rewrite Hex.
    exists (num_full bs (Computed.seq_token_ids q0)). split; [by apply num_full_mono|].
    by rewrite (seq_parts_prefix bs _ toks) by done. }
  destruct Hrec as (n & Hn & Hrec). unfold Computed.update_seq_hashes. rewrite Hen. cbv zeta.
  fold bs toks extra. rewrite Hrec, content_hashes_length, seq_parts_length.
  assert (Hle : Z.of_nat n * bs <= Z.of_nat (length toks)).
  { unfold num_full in Hn. pose proof (Z.mul_div_le (Z.of_nat (length toks)) bs Hbs).
    assert (Z.of_nat n <= Z.of_nat (length toks) / bs); [|nia].
    pose proof (Z.div_pos (Z.of_nat (length toks)) bs ltac:(lia) Hbs). lia. }
  rewrite (proj2 (Z.leb_le _ _) Hle). eexists. split; [done|]. split.
  - unfold tracks. cbn. rewrite lookup_insert_eq. f_equal. fold bs toks extra.
    rewrite (Computed.hash_loop_ok py_hash none_hash no_collision).
    + f_equal. f_equal. unfold num_full in *. lia.
    + rewrite <- content_hashes_last. done.
  - intros i Hi. cbn. by rewrite lookup_insert_ne.
Qed.
End Correct.

Lemma tracked_hashes_exact_witness :
  exists s', Computed.update_seq_hashes sample_hash 0 (Computed.SeqView 7 [5; 6; 1] None false None)
      (Computed.init 2 true) = (Ok tt, s') /\
    tracks sample_hash 0 s' (Computed.SeqView 7 [5; 6; 1] None false None).
Proof.
  destruct (tracked_hashes_exact sample_hash 0 sample_no_collision (Computed.init 2 true)
    (Computed.SeqView 7 [] None false None) (Computed.SeqView 7 [5; 6; 1] None false None)
    eq_refl eq_refl (or_introl eq_refl)) as (s' & H1 & H2 & _).
  exists s'. split; [exact H1|exact H2].
Defined.

Section Find.
Context {E : Type} `{!Evictor E} `{!EvictorHooks E} {ev_wf : E -> Prop} `{!EvictorLaws E ev_wf}.
Context `{!EvictorHooksLaws E ev_wf}.
Variable py_hash : bool * option Z * list Z * option Z -> Z.
Variable none_hash : Z.
Variable np_exp : Q -> Q.
Variable make_evictor : result E.
Hypothesis no_collision : forall a, py_hash a <> none_hash.
Hypothesis fresh_evictor : forall e, make_evictor = Ok e -> ev_wf e /\ forall j, ev_blocks e j = None.

(** The hash is cached and its block marked computed. *)
Definition is_computed (s : Prefix.t E) (h : Z) : bool :=
  match Prefix.hash_is_cached s h with Ok b => b | Err _ => false end.

(** C17. In every reachable state [find_cached_blocks_prefix] returns, and the
    prefix it returns ends where being cached and computed ends: its last hash
    is, the next one is not.  When a later hash of the list is cached only if
    the earlier ones are, it is the longest prefix of cached, computed blocks. *)
Theorem find_cached_longest (n bs : Z) (l : option (list Z)) (s0 s : Prefix.t E) (hs : list Z)
    (Hn : 0 < n) (Hbs : 0 < bs) (Hl : NoDup (default (seqZ 0 n) l))
    (Hinit : Prefix.init make_evictor n bs l = Ok s0)
    (Hreach : rtc (PrefixCorrect.step py_hash none_hash np_exp make_evictor) s0 s) :
  exists r rest, Prefix.find_cached_blocks_prefix hs s = Ok r /\ hs = r ++ rest /\
    (forall h, last r = Some h -> is_computed s h = true) /\
    (forall h, head rest = Some h -> is_computed s h = false) /\
    ((forall i j x y, (i <= j)%nat -> hs !! i = Some x -> hs !! j = Some y ->
        is_computed s y = true -> is_computed s x = true) ->
     Forall (fun h => is_computed s h = true) r /\ Forall (fun h => is_computed s h = false) rest).
Proof.
  pose proof (reached (ev_wf := ev_wf) py_hash none_hash np_exp make_evictor no_collision fresh_evictor
    n bs l s0 s Hn Hbs Hl Hinit Hreach) as Hs.
  assert (Hkey : forall y, (fun h => negb <$> Prefix.hash_is_cached s h) y = Ok (negb (is_computed s y))).
  { intros y. unfold is_computed, Prefix.hash_is_cached.
    destruct (Prefix.cached_blocks s !! y) as [b|] eqn:Hc; [|done].
    destruct (inv_cached _ _ _ _ _ _ Hs y b Hc) as [Hall _].
    destruct (inv_track _ _ _ _ _ _ Hs b Hall) as (k & Hk & _).
    unfold Prefix.block_is_computed. by rewrite Hk. }
  destruct (bisect_left_ok _ (fun y => negb (is_computed s y)) hs (fun y _ => Hkey y)) as (i & Hi & Hlen & H1 & H2).
  exists (take i hs), (drop i hs). unfold Prefix.find_cached_blocks_prefix. rewrite Hi.
  split; [done|]. split; [by rewrite take_drop|].
  assert (Hlast : forall h, last (take i hs) = Some h -> hs !! (i - 1)%nat = Some h /\ (0 < i)%nat).
  { intros h. rewrite last_lookup, length_take, Nat.min_l by done.
    destruct i as [|i]; [cbn; by rewrite take_0|]. rewrite lookup_take_Some.
    replace (S i - 1)%nat with (pred (S i)) by lia. intros [? _]. split; [done|lia]. }
  assert (Hend : forall h, last (take i hs) = Some h -> is_computed s h = true).
  { intros h Hh. destruct (Hlast h Hh) as [Hh' Hpos]. destruct H1 as [-> | (y & Hy & Hf)]; [lia|].
    rewrite Hh' in Hy. injection Hy as <-. by destruct (is_computed s h). }
  assert (Hnext : forall h, head (drop i hs) = Some h -> is_computed s h = false).
  { intros h. rewrite head_lookup, lookup_drop, Nat.add_0_r. intros Hh.
    destruct H2 as [-> | (y & Hy & Hf)]; [by rewrite lookup_ge_None_2 in Hh by lia|].
    rewrite Hh in Hy. injection Hy as <-. by destruct (is_computed s h). }
  split; [done|]. split; [done|]. intros Hmono. split.
  - apply Forall_lookup. intros j x Hj%lookup_take_Some. destruct Hj as [Hj Hji].
    destruct H1 as [-> | (y & Hy & Hf)]; [lia|].
    apply (Hmono j (i - 1)%nat x y); [lia|done|done|]. by destruct (is_computed s y).
  - apply Forall_lookup. intros j x Hj. rewrite lookup_drop in Hj.
    destruct H2 as [-> | (y & Hy & Hf)]; [by rewrite lookup_ge_None_2 in Hj by lia|].
    destruct (is_computed s x) eqn:Hx; [|done].
    assert (Hcy : is_computed s y = true) by (apply (Hmono i (i + j)%nat y x); [lia|done|done|done]).
    by rewrite Hcy in Hf.
Qed.
End Find.

#[local] Existing Instance sample_evictor.

Lemma find_cached_longest_witness :
  exists (s : Prefix.t LRUEvictor.t) r, Prefix.find_cached_blocks_prefix [1; 2] s = Ok r.
Proof.
  destruct prefix_sample_reach as (s0 & s & p0 & p2 & b & Hi & Hr & _).
  destruct (find_cached_longest (ev_wf := LRUEvictor.lru_wf) sample_hash 0 (fun _ => 1%Q) sample_make
    sample_no_collision sample_fresh 4 2 None s0 s [1; 2] eq_refl eq_refl sample_ids Hi Hr)
    as (r & rest & Hf & _).
  exists s, r. exact Hf.
Defined.
