(* ===== verification/BlockManager.v ===== *)
(** * The block manager of the v0 engine ([vllm/core/block_manager.py])

    [SelfAttnBlockSpaceManager]: the block tables of all sequences, over any
    allocator of the interface [DeviceAwareBlockAllocator], with the trackers of
    computed blocks and of last accesses.  A sequence is an argument: what the
    manager reads of [vllm/sequence.py]'s [Sequence] and [SequenceGroup].  Cache
    hints are dictionaries that several objects share; a sequence has the address
    of its hint in the tracker's store.

    Fields that no method reads ([sliding_window], [watermark],
    [num_total_cpu_blocks]) are left out. *)
From Stdlib Require Import Qround.
From S2P Require Import Prelude.
From S2P Require Import PyDict.
From S2P Require Import EvictorBase.
From S2P Require Import BlockCommon.
From S2P Require Import PrefixCaching.
From S2P Require Import ComputedBlocks.
From S2P Require Import BlockInterfaces.
From S2P Require Import BlockTable.

(** [SequenceStatus] *)
Inductive SequenceStatus : Type :=
  | WAITING | RUNNING | SWAPPED
  | FINISHED_STOPPED | FINISHED_LENGTH_CAPPED | FINISHED_ABORTED | FINISHED_IGNORED.
#[global] Instance SequenceStatus_eq_dec : EqDecision SequenceStatus.
Proof. solve_decision. Defined.

Record Sequence : Type := MkSequence {
  seq_id : Z;
  get_token_ids : list Z;
  status : SequenceStatus;
  extra_hash : option Z;
  get_num_computed_tokens : Z;
  is_prefill : bool;
  seq_cache_hint : option Z
}.

Record SequenceGroup : Type := MkSequenceGroup {
  request_id : string;
  seqs : list Sequence;
  encoder_seq : option Sequence
}.

(** [SequenceGroup.get_seqs] with a status. *)
Definition get_seqs (g : SequenceGroup) (st : SequenceStatus) : list Sequence :=
  filter (fun q => status q = st) (seqs g).

Definition is_encoder_decoder (g : SequenceGroup) : bool := bool_decide (is_Some (encoder_seq g)).

(** The items of a dictionary comprehension over a dictionary. *)
Fixpoint remap (key value : Z -> result Z) (l : list (Z * Z)) (m : pydict Z Z) : result (pydict Z Z) :=
  match l with
  | [] => Ok m
  | (k, v) :: l' => k' ← key k; v' ← value v; remap key value l' (<[k' := v']> m)
  end.

Module BlockManager.
Section Manager.
Context {S R : Type} `{!EqDecision R} `{!DeviceAwareBlockAllocator S R}.
Variable py_hash : bool * option Z * list Z * option Z -> Z.
Variable none_hash : Z.

Record t : Type := SelfAttnBlockSpaceManager {
  block_size : Z;
  num_total_gpu_blocks : Z;
  max_block_sliding_window : option Z;
  enable_caching : bool;
  watermark_blocks : Z;
  block_allocator : S;
  block_tables : gmap Z (BlockTable.t R);
  cross_block_tables : gmap string (BlockTable.t R);
  computed_blocks_tracker : Computed.t;
  last_access_blocks_tracker : LastAccess.t
}.

Definition with_allocator (a : S) (s : t) : t :=
  SelfAttnBlockSpaceManager (block_size s) (num_total_gpu_blocks s) (max_block_sliding_window s)
    (enable_caching s) (watermark_blocks s) a (block_tables s) (cross_block_tables s)
    (computed_blocks_tracker s) (last_access_blocks_tracker s).
Definition with_tables (x : gmap Z (BlockTable.t R)) (s : t) : t :=
  SelfAttnBlockSpaceManager (block_size s) (num_total_gpu_blocks s) (max_block_sliding_window s)
    (enable_caching s) (watermark_blocks s) (block_allocator s) x (cross_block_tables s)
    (computed_blocks_tracker s) (last_access_blocks_tracker s).
Definition with_cross (x : gmap string (BlockTable.t R)) (s : t) : t :=
  SelfAttnBlockSpaceManager (block_size s) (num_total_gpu_blocks s) (max_block_sliding_window s)
    (enable_caching s) (watermark_blocks s) (block_allocator s) (block_tables s) x
    (computed_blocks_tracker s) (last_access_blocks_tracker s).
Definition with_computed (x : Computed.t) (s : t) : t :=
  SelfAttnBlockSpaceManager (block_size s) (num_total_gpu_blocks s) (max_block_sliding_window s)
    (enable_caching s) (watermark_blocks s) (block_allocator s) (block_tables s)
    (cross_block_tables s) x (last_access_blocks_tracker s).
Definition with_last_access (x : LastAccess.t) (s : t) : t :=
  SelfAttnBlockSpaceManager (block_size s) (num_total_gpu_blocks s) (max_block_sliding_window s)
    (enable_caching s) (watermark_blocks s) (block_allocator s) (block_tables s)
    (cross_block_tables s) (computed_blocks_tracker s) x.

Definition on_allocator {A} (f : M S A) : M t A := fun s =>
  let '(r, a) := f (block_allocator s) in (r, with_allocator a s).
Definition on_last_access {A} (f : M LastAccess.t A) : M t A := fun s =>
  let '(r, x) := f (last_access_blocks_tracker s) in (r, with_last_access x s).
Definition on_computed {A} (f : M Computed.t A) : M t A := fun s =>
  let '(r, x) := f (computed_blocks_tracker s) in (r, with_computed x s).
(** [self.block_tables[i].f()] *)
Definition on_table {A} (i : Z) (f : M (BlockTable.t R * S) A) : M t A := fun s =>
  match block_tables s !! i with
  | None => (Err KeyError, s)
  | Some b =>
      let '(r, (b', a)) := f (b, block_allocator s) in
      (r, with_allocator a (with_tables (<[i := b']> (block_tables s)) s))
  end.

(** [max_block_sliding_window] of [__init__] *)
Definition window_blocks (sliding_window : option Z) (bs : Z) : option Z :=
  (fun w => w / bs + 1 + 1) <$> sliding_window.

(** [__init__]; [create]: the allocator [CpuGpuBlockAllocator.create] makes. *)
Definition init (bs num_gpu_blocks : Z) (watermark : Q) (sliding_window : option Z)
    (caching : bool) (create : result S) : result t :=
  if Qle_bool 0 watermark then
    a ← create;
    Ok (SelfAttnBlockSpaceManager bs num_gpu_blocks (window_blocks sliding_window bs) caching
          (Qfloor (watermark * inject_Z num_gpu_blocks)) a ∅ ∅ (Computed.init bs caching)
          (LastAccess.LastAccessBlocksTracker ∅ ∅ ∅ []))
  else Err AssertionError.

(** [check_no_caching_or_swa_for_blockmgr_encdec] of [vllm/core/block/utils.py] *)
Definition check_no_caching_or_swa (g : SequenceGroup) (s : t) : result unit :=
  if is_encoder_decoder g then
    if bool_decide (is_Some (max_block_sliding_window s)) then Err NotImplementedError
    else if enable_caching s then Err NotImplementedError else Ok tt
  else Ok tt.

Definition first_seq (l : list Sequence) : result Sequence :=
  from_option_exn IndexError (head l).

(** The blocks [can_allocate] counts. *)
Definition num_required_blocks (g : SequenceGroup) (num_lookahead_slots : Z) (s : t) : result Z :=
  seq ← first_seq (get_seqs g WAITING);
  let n := BlockTable.get_num_required_blocks (get_token_ids seq) (block_size s) num_lookahead_slots in
  let n := match encoder_seq g with
           | Some e => n + BlockTable.get_num_required_blocks (get_token_ids e) (block_size s) 0
           | None => n
           end in
  Ok (match max_block_sliding_window s with Some w => Z.min n w | None => n end).

Definition can_allocate (g : SequenceGroup) (num_lookahead_slots : Z) (s : t) : result AllocStatus :=
  _ ← check_no_caching_or_swa g s;
  n ← num_required_blocks g num_lookahead_slots s;
  let num_free_gpu_blocks := get_num_free_blocks GPU (block_allocator s) in
  Ok (if num_total_gpu_blocks s - n <? watermark_blocks s then NEVER
      else if watermark_blocks s <=? num_free_gpu_blocks - n then OK
      else LATER).

(** [_allocate_sequence] *)
Definition allocate_sequence (q : Sequence) : M t (BlockTable.t R) := fun s =>
  match BlockTable.init (block_size s) [] (max_block_sliding_window s) (block_allocator s) with
  | Err e => (Err e, s)
  | Ok b =>
      if bool_decide (get_token_ids q = []) then (Ok b, s)
      else
        let '(r, (b', a)) :=
          BlockTable.allocate (get_token_ids q) GPU (extra_hash q) (b, block_allocator s) in
        (match r with Ok _ => Ok b' | Err e => Err e end, with_allocator a s)
  end.

Definition fork_table (b : BlockTable.t R) : M t (BlockTable.t R) := on_allocator (BlockTable.fork b).

Definition set_table (i : Z) (b : BlockTable.t R) : M t unit :=
  modify (fun s => with_tables (<[i := b]> (block_tables s)) s).

Definition allocate (g : SequenceGroup) : M t unit :=
  let waiting_seqs := get_seqs g WAITING in
  s ← get;
  assert_ (bool_decide (Forall (fun q => block_tables s !! seq_id q = None) waiting_seqs)) ;;
  seq ← lift (first_seq waiting_seqs);
  block_table ← allocate_sequence seq;
  set_table (seq_id seq) block_table ;;
  on_last_access (LastAccess.add_seq (seq_id seq)) ;;
  for_each (tail waiting_seqs) (fun q =>
    b ← fork_table block_table;
    set_table (seq_id q) b ;;
    on_last_access (LastAccess.add_seq (seq_id q))) ;;
  s ← get;
  assert_ (bool_decide (cross_block_tables s !! request_id g = None)) ;;
  lift (check_no_caching_or_swa g s) ;;
  match encoder_seq g with
  | None => mret tt
  | Some e =>
      b ← allocate_sequence e;
      modify (fun s => with_cross (<[request_id g := b]> (cross_block_tables s)) s)
  end.

(** The blocks that appending a sequence's new tokens touches. *)
Definition touched_by (q : Sequence) (num_lookahead_slots : Z) (s : t) : result Z :=
  b ← from_option_exn KeyError (block_tables s !! seq_id q);
  Ok (BlockTable.get_num_blocks_touched_by_append_slots b
        (BlockTable.get_unseen_token_ids b (get_token_ids q)) num_lookahead_slots).

Fixpoint sum_results (l : list (result Z)) : result Z :=
  match l with
  | [] => Ok 0
  | r :: l' => x ← r; y ← sum_results l'; Ok (x + y)
  end.

Definition can_append_slots (g : SequenceGroup) (num_lookahead_slots : Z) (s : t) : result bool :=
  n ← sum_results (map (fun q => touched_by q num_lookahead_slots s) (get_seqs g RUNNING));
  Ok (n <=? get_num_free_blocks GPU (block_allocator s)).

Definition append_slots (q : Sequence) (num_lookahead_slots : Z) : M t (list (Z * Z)) :=
  s ← get;
  block_table ← lift (from_option_exn KeyError (block_tables s !! seq_id q));
  on_table (seq_id q)
    (BlockTable.append_token_ids
       (BlockTable.get_unseen_token_ids block_table (get_token_ids q))
       num_lookahead_slots (Some (get_num_computed_tokens q)) (extra_hash q)) ;;
  on_allocator clear_copy_on_writes.

(** The loop of the scheduler's [_append_slots]: the copies of all sequences. *)
Fixpoint append_group (l : list Sequence) (num_lookahead_slots : Z) : M t (list (Z * Z)) :=
  match l with
  | [] => mret []
  | q :: l' =>
      cows ← append_slots q num_lookahead_slots;
      rest ← append_group l' num_lookahead_slots;
      mret (cows ++ rest)
  end.

Definition free (q : Sequence) : M t unit :=
  s ← get;
  match block_tables s !! seq_id q with
  | None => mret tt
  | Some b =>
      let block_ids := BlockTable.physical_block_ids b in
      r ← on_last_access (LastAccess.update_blocks_metadata_using_seq_metadata (seq_id q));
      match r with
      | None => mret tt
      | Some (ts, h) => on_allocator (mark_blocks_as_accessed block_ids ts (Some h))
      end ;;
      on_table (seq_id q) BlockTable.free ;;
      modify (fun s => with_tables (delete (seq_id q) (block_tables s)) s) ;;
      on_last_access (LastAccess.remove_seq (seq_id q)) ;;
      on_computed (Computed.remove_seq (seq_id q))
  end.

Definition free_cross (g : SequenceGroup) : M t unit := fun s =>
  match cross_block_tables s !! request_id g with
  | None => (Ok tt, s)
  | Some b =>
      let '(r, (b', a)) := BlockTable.free (b, block_allocator s) in
      match r with
      | Ok _ => (Ok tt, with_allocator a (with_cross (delete (request_id g) (cross_block_tables s)) s))
      | Err e => (Err e, with_allocator a (with_cross (<[request_id g := b']> (cross_block_tables s)) s))
      end
  end.

Definition get_block_table (q : Sequence) (s : t) : result (list Z) :=
  BlockTable.physical_block_ids <$> from_option_exn KeyError (block_tables s !! seq_id q).

Definition get_cross_block_table (g : SequenceGroup) (s : t) : result (list Z) :=
  BlockTable.physical_block_ids <$> from_option_exn AssertionError (cross_block_tables s !! request_id g).

Definition access_all_blocks_in_seq (q : Sequence) (now : Q) : M t unit :=
  s ← get;
  if enable_caching s then
    on_last_access (LastAccess.update_last_access (seq_id q) now) ;;
    match seq_cache_hint q with
    | None => raise TypeError
    | Some r =>
        on_last_access (LastAccess.update_cache_hint (seq_id q) r
          (should_predict_cache_hint (block_allocator s)))
    end
  else mret tt.

Definition mark_blocks_as_computed (g : SequenceGroup) (token_chunk_size : Z) : M t unit :=
  on_allocator (BlockInterfaces.mark_blocks_as_computed []).

(** What the tracker sees of a sequence. *)
Definition seq_view (q : Sequence) (s : t) : Computed.seq_view :=
  Computed.SeqView (seq_id q) (get_token_ids q) (extra_hash q) (is_prefill q)
    (seq_cache_hint q ≫= fun r => LastAccess.hints (last_access_blocks_tracker s) !! r).

Definition get_num_cached_tokens (q : Sequence) : M t Z := fun s =>
  let '(r, (x, a)) :=
    Computed.get_num_cached_tokens py_hash none_hash
      (fun hs a => find_cached_blocks_prefix hs GPU a) observe_cache_accesses
      (seq_view q s) (computed_blocks_tracker s, block_allocator s) in
  (r, with_allocator a (with_computed x s)).

Definition get_common_computed_block_ids (l : list Sequence) : M t (list Z) :=
  computed_seq_block_ids ← map_each l (fun q =>
    s ← get;
    b ← lift (from_option_exn KeyError (block_tables s !! seq_id q));
    let all_blocks := BlockTable.physical_block_ids b in
    num_cached_tokens ← get_num_cached_tokens q;
    assert_ (num_cached_tokens mod block_size s =? 0) ;;
    mret (take (Z.to_nat (num_cached_tokens / block_size s)) all_blocks));
  gets (fun s => BlockInterfaces.get_common_computed_block_ids computed_seq_block_ids (block_allocator s)).

Definition fork (parent_seq child_seq : Sequence) : M t unit :=
  s ← get;
  match block_tables s !! seq_id parent_seq with
  | None => mret tt
  | Some src =>
      b ← fork_table src;
      set_table (seq_id child_seq) b ;;
      on_last_access (LastAccess.add_seq (seq_id child_seq))
  end.

(** [_can_swap] *)
Definition can_swap (g : SequenceGroup) (device : Device) (st : SequenceStatus)
    (num_lookahead_slots : Z) : M t AllocStatus :=
  s ← get;
  num_blocks_touched ← lift (sum_results
    (map (fun q => touched_by q num_lookahead_slots s) (get_seqs g st)));
  let blocks := concat (map (fun q => from_option BlockTable.blocks [] (block_tables s !! seq_id q))
                          (get_seqs g st)) in
  full ← on_allocator (get_num_full_blocks_touched blocks device);
  let n := num_blocks_touched + full in
  let watermark := match device with GPU => watermark_blocks s | CPU => 0 end in
  a ← gets block_allocator;
  mret (if get_num_total_blocks device a <? n then NEVER
        else if watermark <=? get_num_free_blocks device a - n then OK
        else LATER).

Definition can_swap_in (g : SequenceGroup) (num_lookahead_slots : Z) : M t AllocStatus :=
  can_swap g GPU SWAPPED num_lookahead_slots.

Definition can_swap_out (g : SequenceGroup) : M t bool :=
  alloc_status ← can_swap g CPU RUNNING 0;
  mret (bool_decide (alloc_status = OK)).

(** The loop of [swap_in] and [swap_out]. *)
Fixpoint swap_seqs (l : list Sequence) (src dst : Device) : M t (list (Z * Z)) :=
  match l with
  | [] => mret []
  | q :: l' =>
      s ← get;
      b ← lift (from_option_exn KeyError (block_tables s !! seq_id q));
      let blocks := BlockTable.blocks b in
      if bool_decide (blocks = []) then swap_seqs l' src dst
      else
        seq_swap_mapping ← on_allocator (swap_blocks blocks src dst);
        on_table (seq_id q) (BlockTable.update blocks) ;;
        a ← gets block_allocator;
        m ← lift (remap (fun b => get_physical_block_id src b a)
                        (fun b => get_physical_block_id dst b a) (items seq_swap_mapping) ∅);
        rest ← swap_seqs l' src dst;
        mret (items m ++ rest)
  end.

Definition swap_in (g : SequenceGroup) : M t (list (Z * Z)) := swap_seqs (get_seqs g SWAPPED) CPU GPU.
Definition swap_out (g : SequenceGroup) : M t (list (Z * Z)) := swap_seqs (get_seqs g RUNNING) GPU CPU.

Definition get_num_free_gpu_blocks (s : t) : Z := get_num_free_blocks GPU (block_allocator s).
Definition get_num_free_cpu_blocks (s : t) : Z := get_num_free_blocks CPU (block_allocator s).
Definition get_prefix_cache_hit_rate (d : Device) (s : t) : Q :=
  BlockInterfaces.get_prefix_cache_hit_rate d (block_allocator s).
Definition get_scheduler_post_warmup_prefix_cache_hit_rate (d : Device) (s : t) : Q :=
  BlockInterfaces.get_scheduler_post_warmup_prefix_cache_hit_rate d (block_allocator s).
Definition reset_prefix_cache : M t bool := on_allocator BlockInterfaces.reset_prefix_cache.
End Manager.
Arguments t : clear implicits.
End BlockManager.
