(* ===== verification/BlockManagerCorrect.v ===== *)
(** * The block manager keeps every sequence's tokens

    [mgr_ok m held]: the tables of the manager [m] hold the tokens that [held]
    says, in blocks of their own.  The lemmas hold over any allocator that
    satisfies [DeviceAwareLaws]; the theorems at the end are about the manager
    with prefix caching off, over the allocator of [CpuGpuAllocator].  Sequences
    are not encoder-decoder and there is no sliding window. *)
From S2P Require Import Prelude.
From S2P Require Import BlockCommon.
From S2P Require Import ComputedBlocks.
From S2P Require Import BlockInterfaces.
From S2P Require Import CpuGpuAllocator.
From S2P Require Import CpuGpuCorrect.
From S2P Require Import BlockTable.
From S2P Require Import BlockTableCorrect.
From S2P Require Import BlockManager.

Section Correct.
Context {S R : Type} `{!EqDecision R} `{!DeviceAwareBlockAllocator S R}.
Context {bsz : Z} {wf : S -> Prop} {view : S -> R -> option (block_view R)}.
Context `{!DeviceAwareLaws S R bsz wf view}.
Context {caching : bool}.
Import BlockManager.

Abbreviation mgr := (BlockManager.t S R).
Abbreviation free_blocks := (get_num_free_blocks GPU).
Abbreviation table_ok := (table_ok (bsz := bsz) (view := view)).
Abbreviation grows := (grows (wf := wf) (view := view)).
Implicit Types (m : mgr) (a : S) (b : BlockTable.t R) (toks : list Z) (i j : Z).
Implicit Types (held : gmap Z (list Z)) (q : Sequence).

(** The last-access tracker knows the sequences with a table; without prefix
    caching they have no hint. *)
Record tracked (x : LastAccess.t) (tables : gmap Z (BlockTable.t R)) : Prop := {
  tr_access : forall i, is_Some (LastAccess.seq_last_access x !! i) <-> is_Some (tables !! i);
  tr_hint : forall i, is_Some (LastAccess.seq_cache_hint x !! i) <-> is_Some (tables !! i);
  tr_none : caching = false -> forall i h, LastAccess.seq_cache_hint x !! i = Some h -> h = None
}.

Record mgr_ok m held : Prop := {
  mo_wf : wf (block_allocator m);
  mo_size : block_size m = bsz;
  mo_window : max_block_sliding_window m = None;
  mo_cross : cross_block_tables m = ∅;
  mo_caching : enable_caching m = caching;
  mo_watermark : 0 <= watermark_blocks m;
  mo_table : forall i b, block_tables m !! i = Some b ->
    exists toks, held !! i = Some toks /\ table_ok (block_allocator m) b toks;
  mo_held : forall i, is_Some (held !! i) -> is_Some (block_tables m !! i);
  mo_disjoint : forall i j b c r, block_tables m !! i = Some b -> block_tables m !! j = Some c ->
    r ∈ BlockTable.blocks b -> r ∈ BlockTable.blocks c -> i = j;
  mo_tracked : tracked (last_access_blocks_tracker m) (block_tables m)
}.

(** The fields that only [__init__] sets. *)
Record same_config m m' : Prop := {
  sc_size : block_size m' = block_size m;
  sc_window : max_block_sliding_window m' = max_block_sliding_window m;
  sc_cross : cross_block_tables m' = cross_block_tables m;
  sc_caching : enable_caching m' = enable_caching m;
  sc_watermark : watermark_blocks m' = watermark_blocks m
}.

(** The table of [i] is set, from the blocks [l] it had and the new ones. *)
Lemma mgr_set m m' held i b toks l news cost :
  mgr_ok m held -> same_config m m' ->
  block_tables m' = <[i := b]> (block_tables m) ->
  grows (block_allocator m) (block_allocator m') l news cost ->
  (forall j c r, j <> i -> block_tables m !! j = Some c -> r ∈ BlockTable.blocks c -> r ∉ l) ->
  (forall r, r ∈ BlockTable.blocks b -> r ∈ l \/ r ∈ news) ->
  table_ok (block_allocator m') b toks ->
  tracked (last_access_blocks_tracker m') (block_tables m') ->
  mgr_ok m' (<[i := toks]> held).
Proof.
  intros [H1 H2 H3 H4 Hc0 H0 H5 H6 H7 H8] [C1 C2 C3 C4 C5] Ht Hg Hl Hb Hok Htr.
  assert (Hsep : forall j c r, j <> i -> block_tables m !! j = Some c ->
            r ∈ BlockTable.blocks c -> r ∉ BlockTable.blocks b).
  { intros j c r Hj Hc Hr [Hin|Hin]%Hb; [by eapply Hl|].
    destruct (H5 j c Hc) as (t & _ & Hct). destruct (table_live _ _ _ _ Hct Hr) as [v Hv].
    pose proof (gr_fresh _ _ _ _ _ Hg r Hin). congruence. }
  split.
  - apply Hg.
  - by rewrite C1.
  - by rewrite C2.
  - by rewrite C3.
  - by rewrite C4.
  - by rewrite C5.
  - intros j c. rewrite Ht. intros [[<- <-]|[Hne Hc]]%lookup_insert_Some.
    + exists toks. by rewrite lookup_insert_eq.
    + destruct (H5 j c Hc) as (t & Hh & Hct). exists t. rewrite lookup_insert_ne by done. split; [done|].
      eapply table_ok_others; [exact H1|exact Hg| |exact Hct]. intros r Hr. by eapply Hl.
  - intros j [t Hj]. rewrite Ht. destruct (decide (i = j)) as [<-|Hne]; [by rewrite lookup_insert_eq|].
    rewrite lookup_insert_ne by done. rewrite lookup_insert_ne in Hj by done. apply H6. by eexists.
  - intros j k c d r. rewrite Ht.
    intros [[<- <-]|[Hj Hc]]%lookup_insert_Some [[<- <-]|[Hk Hd]]%lookup_insert_Some Hr Hr'; [done| | |].
    + exfalso. by eapply (Hsep k d r).
    + exfalso. by eapply (Hsep j c r).
    + by eapply (H7 j k c d r).
  - done.
Qed.

Lemma tracked_same x tables i b :
  tracked x tables -> is_Some (tables !! i) -> tracked x (<[i := b]> tables).
Proof.
  intros [H1 H2 H3] Hi. split; [| |done]; intros j; [rewrite H1|rewrite H2];
    (destruct (decide (i = j)) as [<-|Hne]; [rewrite lookup_insert_eq|by rewrite lookup_insert_ne]);
    (split; [intros _; by eexists|done]).
Qed.

Lemma tracked_add x tables i b :
  tracked x tables -> tables !! i = None ->
  exists x', LastAccess.add_seq i x = (Ok tt, x') /\ tracked x' (<[i := b]> tables).
Proof.
  intros [H1 H2 H3] Hi. unfold LastAccess.add_seq.
  destruct (LastAccess.seq_last_access x !! i) eqn:E.
  { assert (is_Some (tables !! i)) as [? ?] by (apply H1; by eexists). congruence. }
  eexists. split; [reflexivity|]. split; cbn.
  - intros j. destruct (decide (i = j)) as [<-|Hne]; [rewrite !lookup_insert_eq; by split; eexists|].
    by rewrite !lookup_insert_ne.
  - intros j. destruct (decide (i = j)) as [<-|Hne]; [rewrite !lookup_insert_eq; by split; eexists|].
    by rewrite !lookup_insert_ne.
  - intros Hc j h [[_ <-]|[_ Hj]]%lookup_insert_Some; [done|]. by eapply H3.
Qed.

(** *** [append_slots] *)

Lemma table_of m held i toks :
  mgr_ok m held -> held !! i = Some toks ->
  exists b, block_tables m !! i = Some b /\ table_ok (block_allocator m) b toks.
Proof.
  intros Hm Hi. destruct (mo_held _ _ Hm i) as [b Hb]; [by eexists|].
  destruct (mo_table _ _ Hm i b Hb) as (t & Ht & Hok). exists b. split; [done|]. congruence.
Qed.

Lemma unseen_tokens a b old new :
  table_ok a b old -> BlockTable.get_unseen_token_ids b (old ++ new) = new.
Proof.
  intros Hb. unfold BlockTable.get_unseen_token_ids. rewrite (to_full _ _ _ Hb), Nat2Z.id.
  by rewrite drop_app_length.
Qed.

Lemma touched_by_ok m held q old new la :
  mgr_ok m held -> held !! seq_id q = Some old -> get_token_ids q = old ++ new ->
  exists b, block_tables m !! seq_id q = Some b /\ table_ok (block_allocator m) b old /\
    touched_by q la m = Ok (touched b new la).
Proof.
  intros Hm Hh Hq. destruct (table_of m held _ _ Hm Hh) as (b & Hb & Hok).
  exists b. split; [done|]. split; [done|]. unfold touched_by. rewrite Hb. cbn.
  by rewrite Hq, (unseen_tokens _ _ _ _ Hok).
Qed.

Lemma append_slots_ok m held q la n :
  mgr_ok m held -> (exists old, held !! seq_id q = Some old /\ old `prefix_of` get_token_ids q) ->
  0 <= la -> touched_by q la m = Ok n -> n <= free_blocks (block_allocator m) ->
  meets (append_slots q la) m (fun _ m' =>
    mgr_ok m' (<[seq_id q := get_token_ids q]> held) /\
    free_blocks (block_allocator m) - n <= free_blocks (block_allocator m') /\
    forall j, j <> seq_id q -> block_tables m' !! j = block_tables m !! j).
Proof.
  intros Hm (old & Hh & new & Hq) Hla Hn Hfree.
  destruct (touched_by_ok m held q old new la Hm Hh Hq) as (b & Hb & Hok & Ht).
  assert (n = touched b new la) as -> by congruence.
  unfold append_slots. apply meets_get. eapply meets_lift; [by rewrite Hb|].
  rewrite Hq at 1. rewrite (unseen_tokens _ _ _ _ Hok).
  pose proof (table_append_ok (block_allocator m) b old new la
    (Some (get_num_computed_tokens q)) (extra_hash q) (mo_wf _ _ Hm) Hok Hla Hfree) as Happ.
  apply meets_run in Happ as ([] & [b1 a1] & Hrun & Hok1 & news & Hnews & Hg). cbn [fst snd] in *.
  set (m1 := with_allocator a1 (with_tables (<[seq_id q := b1]> (block_tables m)) m)).
  eapply (meets_step _ _ m tt m1).
  { unfold on_table. rewrite Hb. by rewrite Hrun. }
  pose proof (law_clear_cows a1 (gr_wf _ _ _ _ _ Hg)) as Hcows.
  apply meets_run in Hcows as (cows & a2 & Hc & Hw2 & Hf2 & Hfree2).
  apply meets_run. exists cows, (with_allocator a2 m1).
  split; [unfold on_allocator; cbn; by rewrite Hc|].
  split; [|split; [cbn; rewrite Hfree2; apply Hg|intros j Hj; cbn; by rewrite lookup_insert_ne]].
  rewrite Hq.
  assert (Hg2 : grows (block_allocator m) a2 (BlockTable.blocks b) news (touched b new la)).
  { destruct Hg as [Hw Hnew Hf Hcost]. split; [done|done| |by rewrite Hfree2].
    intros r Hr. rewrite Hf2 by apply not_elem_of_nil. by apply Hf. }
  eapply (mgr_set m (with_allocator a2 m1) held (seq_id q) b1); [done|done|done|exact Hg2| | | |].
  - intros j c r Hj Hc' Hr Hin. apply Hj. by eapply (mo_disjoint _ _ Hm).
  - intros r. rewrite Hnews. by intros [?|?]%elem_of_app; [left|right].
  - eapply (table_ok_frame a1 a2); [apply Hg|done|exact Hf2|by intros r _ ?%elem_of_nil|done].
  - cbn. apply tracked_same; [apply Hm|by eexists].
Qed.

Lemma touched_nonneg_ok m held q la n :
  mgr_ok m held -> 0 <= la ->
  (exists old, held !! seq_id q = Some old /\ old `prefix_of` get_token_ids q) ->
  touched_by q la m = Ok n -> 0 <= n.
Proof.
  intros Hm Hla (old & Hh & new & Hq) Hn.
  destruct (touched_by_ok m held q old new la Hm Hh Hq) as (b & _ & Hok & Ht).
  assert (n = touched b new la) as -> by congruence. by eapply touched_nonneg.
Qed.

Lemma sum_touched_nonneg m held la l : forall n,
  mgr_ok m held -> 0 <= la ->
  (forall q, q ∈ l -> exists old, held !! seq_id q = Some old /\ old `prefix_of` get_token_ids q) ->
  sum_results (map (fun q => touched_by q la m) l) = Ok n -> 0 <= n.
Proof.
  induction l as [|q l IH]; intros n Hm Hla Hl; cbn [map sum_results]; [by intros [= <-]|].
  intros (x & Hx & H)%result_bind_ok. apply result_bind_ok in H as (y & Hy & [= <-]).
  pose proof (touched_nonneg_ok m held q la x Hm Hla (Hl q ltac:(left)) Hx).
  assert (0 <= y); [|lia]. apply IH; [done|done| |done]. intros q' Hin. apply Hl. by right.
Qed.

(** A group's sequences one after the other. *)
Lemma append_group_ok l la : forall m held n,
  mgr_ok m held -> 0 <= la -> NoDup (map seq_id l) ->
  (forall q, q ∈ l -> exists old, held !! seq_id q = Some old /\ old `prefix_of` get_token_ids q) ->
  sum_results (map (fun q => touched_by q la m) l) = Ok n -> n <= free_blocks (block_allocator m) ->
  meets (append_group l la) m (fun _ m' =>
    mgr_ok m' (foldl (fun h q => <[seq_id q := get_token_ids q]> h) held l)).
Proof.
  induction l as [|q l IH]; intros m held n Hm Hla Hnd Hl Hsum Hfree; cbn [append_group foldl map sum_results] in *.
  { by apply meets_ret. }
  apply NoDup_cons in Hnd as [Hq Hnd].
  apply result_bind_ok in Hsum as (x & Hx & Hsum). apply result_bind_ok in Hsum as (y & Hy & [= <-]).
  pose proof (touched_nonneg_ok m held q la x Hm Hla (Hl q ltac:(left)) Hx) as Hx0.
  assert (Hy0 : 0 <= y).
  { eapply (sum_touched_nonneg m held la l); [done|done| |done]. intros q' Hin. apply Hl. by right. }
  eapply meets_bind; [apply (append_slots_ok m held q la x); [done|apply Hl; left|done|done|lia]|].
  intros cows m1 (H1 & Hf1 & Ht1).
  eapply meets_bind; [|intros rest m2 H2; apply meets_ret; exact H2].
  apply (IH m1 _ y); [done|done|done| | |lia].
  - intros q' Hin. rewrite lookup_insert_ne; [apply Hl; by right|].
    intros E. apply Hq. rewrite E. by apply list_elem_of_fmap_2.
  - rewrite <- Hy. f_equal. apply map_ext_in. intros q' Hin%list_elem_of_In. unfold touched_by.
    rewrite Ht1; [done|]. intros E. apply Hq. rewrite <- E. by apply list_elem_of_fmap_2.
Qed.

(** *** [fork] and [allocate] *)

(** A sequence [i] without a table gets the new table [b]. *)
Lemma mgr_add m a held i b toks cost :
  mgr_ok m held -> block_tables m !! i = None ->
  table_ok a b toks -> grows (block_allocator m) a [] (BlockTable.blocks b) cost ->
  meets (set_table i b ;; on_last_access (LastAccess.add_seq i)) (with_allocator a m) (fun _ m' =>
    mgr_ok m' (<[i := toks]> held) /\ block_allocator m' = a /\
    block_tables m' = <[i := b]> (block_tables m)).
Proof.
  intros Hm Hi Hok Hg.
  destruct (tracked_add _ _ i b (mo_tracked _ _ Hm) Hi) as (x & Hx & Htr).
  apply meets_run. exists tt, (with_last_access x (with_tables (<[i := b]> (block_tables m)) (with_allocator a m))).
  split; [|split; [|done]].
  - unfold set_table. rewrite (bind_step (modify _) _ _ tt _ eq_refl). unfold on_last_access. cbn. by rewrite Hx.
  - eapply (mgr_set m _ held i b toks); [done|done|done|exact Hg|by intros j c r _ _ _ ?%elem_of_nil|by right|done|done].
Qed.

Lemma fork_step_ok m held j src i toks :
  mgr_ok m held -> block_tables m !! j = Some src -> table_ok (block_allocator m) src toks ->
  block_tables m !! i = None ->
  meets (b ← fork_table src; set_table i b ;; on_last_access (LastAccess.add_seq i)) m (fun _ m' =>
    mgr_ok m' (<[i := toks]> held) /\ table_ok (block_allocator m') src toks /\
    exists b, block_tables m' = <[i := b]> (block_tables m)).
Proof.
  intros Hm Hj Hsrc Hi.
  pose proof (table_fork_ok (block_allocator m) src toks (mo_wf _ _ Hm) Hsrc) as Hf.
  apply meets_run in Hf as (b & a & Hrun & Hok & Hg).
  eapply (meets_step _ _ m b (with_allocator a m)).
  { unfold fork_table, on_allocator. by rewrite Hrun. }
  eapply meets_weaken; [by apply (mgr_add m a held i b toks 0)|].
  intros [] m' (Hm' & Ha & Ht). split; [done|]. split; [|by exists b]. rewrite Ha.
  eapply (table_ok_others _ a src toks []); [apply Hm|exact Hg|by intros r _ ?%elem_of_nil|done].
Qed.

Lemma fork_group_ok l j src toks : forall m held,
  mgr_ok m held -> block_tables m !! j = Some src -> table_ok (block_allocator m) src toks ->
  NoDup (map seq_id l) -> (forall q, q ∈ l -> block_tables m !! seq_id q = None) ->
  meets (for_each l (fun q => b ← fork_table src; set_table (seq_id q) b ;;
                              on_last_access (LastAccess.add_seq (seq_id q)))) m (fun _ m' =>
    mgr_ok m' (foldl (fun h q => <[seq_id q := toks]> h) held l)).
Proof.
  induction l as [|q l IH]; intros m held Hm Hj Hsrc Hnd Hl; cbn [for_each foldl map] in *.
  { by apply meets_ret. }
  apply NoDup_cons in Hnd as [Hq Hnd]. pose proof (Hl q ltac:(left)) as Hnone.
  eapply meets_bind; [by apply (fork_step_ok m held j src (seq_id q) toks)|].
  intros [] m1 (H1 & Hsrc1 & b & Ht1). apply IH; [done| |done|done|].
  - rewrite Ht1. rewrite lookup_insert_ne; [done|]. intros E. congruence.
  - intros q' Hin. rewrite Ht1, lookup_insert_ne; [apply Hl; by right|].
    intros E. apply Hq. rewrite E. by apply list_elem_of_fmap_2.
Qed.

Lemma allocate_sequence_ok m held q :
  mgr_ok m held -> get_token_ids q <> [] ->
  BlockTable.get_num_required_blocks (get_token_ids q) bsz 0 <= free_blocks (block_allocator m) ->
  meets (allocate_sequence q) m (fun b m' => exists a,
    m' = with_allocator a m /\ table_ok a b (get_token_ids q) /\
    grows (block_allocator m) a [] (BlockTable.blocks b)
      (BlockTable.get_num_required_blocks (get_token_ids q) bsz 0)).
Proof.
  intros Hm Ht Hfree. unfold allocate_sequence, meets. cbn [BlockTable.init BlockList.update for_each].
  rewrite bool_decide_eq_false_2 by done.
  pose proof (table_allocate_ok (block_allocator m)
    (BlockTable.BlockTable (block_size m) (BlockList.BlockList [] []) (max_block_sliding_window m) 0)
    (get_token_ids q) (extra_hash q) (mo_wf _ _ Hm) (mo_size _ _ Hm) (mo_window _ _ Hm) eq_refl Ht Hfree) as Ha.
  apply meets_run in Ha as ([] & [b a] & Hrun & Hok & Hg). cbn [fst snd] in *.
  cbv [BlockTable.init BlockList.update for_each mret M_ret BlockTable.get_num_token_ids foldl].
  rewrite Hrun. by exists a.
Qed.

Lemma no_table m held i : mgr_ok m held -> held !! i = None -> block_tables m !! i = None.
Proof.
  intros Hm Hi. destruct (block_tables m !! i) as [b|] eqn:Hb; [|done].
  destruct (mo_table _ _ Hm i b Hb) as (t & Ht & _). congruence.
Qed.

(** What [can_allocate] says: enough free blocks for the first sequence. *)
Lemma can_allocate_ok m held g la q rest :
  mgr_ok m held -> encoder_seq g = None -> get_seqs g WAITING = q :: rest ->
  exists st', can_allocate g la m = Ok st' /\
    (st' = OK -> 0 <= la ->
     BlockTable.get_num_required_blocks (get_token_ids q) bsz 0 <= free_blocks (block_allocator m)).
Proof.
  intros Hm He Hq. unfold can_allocate, check_no_caching_or_swa, is_encoder_decoder.
  rewrite He, bool_decide_eq_false_2 by (by intros [? ?]). cbn [mbind result_bind].
  unfold num_required_blocks. rewrite Hq, He, (mo_window _ _ Hm), (mo_size _ _ Hm). cbn.
  eexists. split; [reflexivity|]. intros Hst Hla.
  pose proof (mo_watermark _ _ Hm). pose proof (bsz_pos (S := S) (R := R)) as Hpos.
  unfold BlockTable.get_num_required_blocks in *. rewrite Z.add_0_r.
  set (n := cdiv _ _) in Hst. destruct (_ <? _); [done|].
  destruct (Z.leb_spec (watermark_blocks m) (free_blocks (block_allocator m) - n)); [|done].
  pose proof (cdiv_spec (Z.of_nat (length (get_token_ids q))) bsz Hpos).
  pose proof (cdiv_spec (Z.of_nat (length (get_token_ids q)) + la) bsz Hpos). fold n in H2. nia.
Qed.

(** The sequences of [l] hold the tokens [toks]. *)
Definition all_hold (toks : list Z) (l : list Sequence) (held : gmap Z (list Z)) : gmap Z (list Z) :=
  foldl (fun h q => <[seq_id q := toks]> h) held l.

Lemma manager_allocate_ok m held g q rest :
  mgr_ok m held -> encoder_seq g = None -> get_seqs g WAITING = q :: rest ->
  (forall x, x ∈ q :: rest -> held !! seq_id x = None) -> NoDup (map seq_id (q :: rest)) ->
  get_token_ids q <> [] ->
  BlockTable.get_num_required_blocks (get_token_ids q) bsz 0 <= free_blocks (block_allocator m) ->
  meets (allocate g) m (fun _ m' => mgr_ok m' (all_hold (get_token_ids q) (q :: rest) held)).
Proof.
  intros Hm He Hq Hnone Hnd Ht Hfree. unfold allocate. rewrite Hq. apply meets_get.
  assert (Htab : forall x, x ∈ q :: rest -> block_tables m !! seq_id x = None).
  { intros x Hx. by apply (no_table m held), Hnone. }
  apply meets_assert; [by apply bool_decide_eq_true_2, Forall_forall|].
  eapply meets_lift; [done|].
  eapply meets_bind; [by apply (allocate_sequence_ok m held q)|].
  intros b ? (a & -> & Hok & Hg).
  pose proof (mgr_add m a held (seq_id q) b _ _ Hm (Htab q ltac:(left)) Hok Hg) as Hadd.
  apply meets_run in Hadd as ([] & m1 & Hrun & H1 & Ha1 & Ht1).
  assert (Hrun' := Hrun). apply bind_ok in Hrun' as ([] & m0 & Hset & Hacc).
  eapply meets_step; [exact Hset|]. eapply meets_step; [exact Hacc|]. cbn [tail].
  cbn [map] in Hnd. apply NoDup_cons in Hnd as [Hq' Hnd].
  eapply meets_bind.
  { apply (fork_group_ok rest (seq_id q) b (get_token_ids q) m1); [done|..|done|].
    - rewrite Ht1. apply lookup_insert_eq.
    - by rewrite Ha1.
    - intros x Hx. rewrite Ht1, lookup_insert_ne; [apply Htab; by right|].
      intros E. apply Hq'. rewrite E. by apply list_elem_of_fmap_2. }
  intros [] m2 H2. apply meets_get.
  apply meets_assert; [apply bool_decide_eq_true_2; by rewrite (mo_cross _ _ H2)|].
  eapply meets_lift.
  { unfold check_no_caching_or_swa, is_encoder_decoder. by rewrite He, bool_decide_eq_false_2 by (by intros [? ?]). }
  rewrite He. by apply meets_ret.
Qed.

Lemma manager_fork_ok m held p c toks :
  mgr_ok m held -> held !! seq_id p = Some toks -> held !! seq_id c = None ->
  meets (fork p c) m (fun _ m' => mgr_ok m' (<[seq_id c := toks]> held)).
Proof.
  intros Hm Hp Hc. destruct (table_of m held _ _ Hm Hp) as (src & Hsrc & Hok).
  unfold fork. apply meets_get. rewrite Hsrc.
  eapply meets_weaken; [apply (fork_step_ok m held _ src _ toks Hm Hsrc Hok); by apply (no_table m held)|].
  by intros [] m' (H & _).
Qed.

(** *** [free] *)

(** With prefix caching off no sequence has a hint, and [free] raises. *)
Lemma free_raises m held q toks :
  mgr_ok m held -> caching = false -> held !! seq_id q = Some toks ->
  free q m = (Err TypeError, m).
Proof.
  intros Hm Hc Hq. destruct (table_of m held _ _ Hm Hq) as (b & Hb & _).
  pose proof (mo_tracked _ _ Hm) as [_ Hh Hn].
  destruct (proj2 (Hh (seq_id q))) as [h E]; [by eexists|]. assert (h = None) as -> by by eapply Hn.
  unfold free. rewrite (bind_step get _ m m m eq_refl). rewrite Hb. cbv zeta.
  assert (Hr : on_last_access (LastAccess.update_blocks_metadata_using_seq_metadata (seq_id q)) m
               = (Err TypeError, m)); [|by rewrite bind_run, Hr].
  unfold on_last_access, LastAccess.update_blocks_metadata_using_seq_metadata.
  rewrite bind_run. cbn. rewrite E. cbn. by destruct m.
Qed.
End Correct.
