(* ===== verification/BlockManagerProtocol.v ===== *)
(** * The v0 block manager in use

    The block manager of [BlockManager], with prefix caching off and over the
    allocator of [CpuGpuAllocator], as the scheduler calls it: a group is
    allocated, or its slots are appended, only after the manager was asked, and a
    sequence's tokens only grow.  [in_use m held]: such calls lead to the manager
    [m], whose sequences with a table are given, with the tokens last passed for
    them, by [held].  Groups have no encoder and there is no sliding window; the
    lemmas are those of [BlockManagerCorrect]. *)
From S2P Require Import Prelude.
From S2P Require Import BlockCommon.
From S2P Require Import NaiveBlock.
From S2P Require Import NaiveProgress.
From S2P Require Import BlockInterfaces.
From S2P Require Import CpuGpuAllocator.
From S2P Require Import CpuGpuCorrect.
From S2P Require Import BlockTable.
From S2P Require Import BlockTableCorrect.
From S2P Require Import BlockManager.
From S2P Require Import BlockManagerCorrect.

#[local] Existing Instance CpuGpu.cpu_gpu_allocator.

Abbreviation mgr := (BlockManager.t CpuGpu.t CpuGpu.block_ref).

(** The manager's calls for a group, or for two sequences. *)
Inductive call : Type :=
  | Allocate (g : SequenceGroup) (num_lookahead_slots : Z)
  | Append (g : SequenceGroup) (num_lookahead_slots : Z)
  | Fork (parent child : Sequence).

(** The sequence's tokens continue those that its table holds. *)
Definition continues (held : gmap Z (list Z)) (q : Sequence) : Prop :=
  exists old, held !! seq_id q = Some old /\ old `prefix_of` get_token_ids q.

Definition legal (held : gmap Z (list Z)) (c : call) : Prop :=
  match c with
  | Allocate g la =>
      0 <= la /\ encoder_seq g = None /\
      exists q rest, get_seqs g WAITING = q :: rest /\ get_token_ids q <> [] /\
        NoDup (map seq_id (q :: rest)) /\ forall x, x ∈ q :: rest -> held !! seq_id x = None
  | Append g la =>
      0 <= la /\ NoDup (map seq_id (get_seqs g RUNNING)) /\
      forall q, q ∈ get_seqs g RUNNING -> continues held q
  | Fork p c => is_Some (held !! seq_id p) /\ held !! seq_id c = None
  end.

(** What the manager answers when it is asked. *)
Definition admits (c : call) (m : mgr) : result bool :=
  match c with
  | Allocate g la => st ← BlockManager.can_allocate g la m; Ok (bool_decide (st = OK))
  | Append g la => BlockManager.can_append_slots g la m
  | Fork _ _ => Ok true
  end.

Definition exec (c : call) : M mgr unit :=
  match c with
  | Allocate g _ => BlockManager.allocate g
  | Append g la => BlockManager.append_group (get_seqs g RUNNING) la ;; mret tt
  | Fork p c => BlockManager.fork p c
  end.

(** The sequences' tokens after a call. *)
Definition held_after (c : call) (held : gmap Z (list Z)) : gmap Z (list Z) :=
  match c with
  | Allocate g _ =>
      let l := get_seqs g WAITING in
      all_hold (from_option get_token_ids [] (head l)) l held
  | Append g _ => foldl (fun h q => <[seq_id q := get_token_ids q]> h) held (get_seqs g RUNNING)
  | Fork p c => <[seq_id c := default [] (held !! seq_id p)]> held
  end.

Section Protocol.
Variables (bs num_gpu num_cpu : Z) (watermark : Q).

Inductive in_use : mgr -> gmap Z (list Z) -> Prop :=
  | use_init m :
      BlockManager.init bs num_gpu watermark None false (CpuGpu.create false num_gpu num_cpu bs) = Ok m ->
      in_use m ∅
  | use_call m held c m' :
      in_use m held -> legal held c -> admits c m = Ok true -> exec c m = (Ok tt, m') ->
      in_use m' (held_after c held).

Hypothesis Hbs : 0 < bs.
Hypothesis Hgpu : 0 < num_gpu.
Hypothesis Hcpu : 0 <= num_cpu.
#[local] Instance laws : DeviceAwareLaws CpuGpu.t CpuGpu.block_ref bs (wf bs) view := cpu_gpu_laws bs Hbs.
Abbreviation mgr_ok := (mgr_ok (bsz := bs) (wf := wf bs) (view := view) (caching := false)).
Implicit Types (m : mgr) (held : gmap Z (list Z)).

Lemma init_mgr_ok m :
  BlockManager.init bs num_gpu watermark None false (CpuGpu.create false num_gpu num_cpu bs) = Ok m ->
  mgr_ok m ∅.
Proof.
  unfold BlockManager.init. destruct (Qle_bool 0 watermark) eqn:Hw; [|done].
  intros (a & Ha & [= <-])%result_bind_ok.
  destruct (create_ok bs Hbs num_gpu num_cpu a Hgpu Hcpu Ha) as (Hwf & _).
  assert (0 <= Qround.Qfloor (watermark * inject_Z num_gpu)).
  { change 0 with (Qround.Qfloor 0). apply Qround.Qfloor_resp_le. apply Qle_bool_iff in Hw.
    rewrite <- (Qmult_0_l (inject_Z num_gpu)). apply Qmult_le_compat_r; [done|].
    change 0%Q with (inject_Z 0). rewrite <- Zle_Qle. lia. }
  split; try done; cbn.
  - intros i [t Ht]. by rewrite lookup_empty in Ht.
  - split; try done; intros i; rewrite !lookup_empty; by split; intros [? ?].
Qed.

Lemma can_append_ok m held la l :
  mgr_ok m held -> 0 <= la -> (forall q, q ∈ l -> continues held q) ->
  exists n, BlockManager.sum_results (map (fun q => BlockManager.touched_by q la m) l) = Ok n.
Proof.
  intros Hm Hla. induction l as [|q l IH]; intros Hl; cbn [map BlockManager.sum_results]; [by eexists|].
  destruct (Hl q ltac:(left)) as (old & Hh & new & Hq).
  destruct (touched_by_ok m held q old new la Hm Hh Hq) as (b & _ & _ & ->).
  destruct IH as [n ->]; [intros x Hx; apply Hl; by right|]. by eexists.
Qed.

(** A call that the manager admits returns. *)
Lemma call_ok m held c :
  mgr_ok m held -> legal held c ->
  exists ans, admits c m = Ok ans /\
    (ans = true -> meets (exec c) m (fun _ m' => mgr_ok m' (held_after c held))).
Proof.
  intros Hm. destruct c as [g la|g la|p c]; cbn [legal admits exec held_after].
  - intros (Hla & He & q & rest & Hq & Ht & Hnd & Hnone).
    destruct (can_allocate_ok m held g la q rest Hm He Hq) as (st & -> & Hfree).
    eexists. split; [reflexivity|]. intros ->%bool_decide_eq_true.
    rewrite Hq. cbn [head from_option]. apply (manager_allocate_ok (caching := false) m held g q rest); auto.
  - intros (Hla & Hnd & Hl). destruct (can_append_ok m held la _ Hm Hla Hl) as [n Hn].
    unfold BlockManager.can_append_slots. rewrite Hn. cbn. eexists. split; [reflexivity|].
    intros Hfree%Z.leb_le. eapply meets_bind; [by apply (append_group_ok (caching := false) _ la m held n)|].
    intros cows m' H. exact H.
  - intros [[toks Hp] Hc]. eexists. split; [reflexivity|]. intros _. rewrite Hp. by apply (manager_fork_ok (caching := false)).
Qed.

Lemma in_use_ok m held : in_use m held -> mgr_ok m held.
Proof.
  induction 1 as [m Hinit|m held c m' _ IH Hl Ha Hrun]; [by apply init_mgr_ok|].
  destruct (call_ok m held c IH Hl) as (ans & Ha' & Hok).
  assert (ans = true) as -> by congruence. specialize (Hok eq_refl). unfold meets in Hok.
  by rewrite Hrun in Hok.
Qed.

(** A block of a table has the id that the table caches, a GPU id in use. *)
Lemma table_block m b toks k r :
  wf bs (BlockManager.block_allocator m) ->
  table_ok (bsz := bs) (view := view) (BlockManager.block_allocator m) b toks ->
  BlockTable.blocks b !! k = Some r ->
  exists i, BlockTable.physical_block_ids b !! k = Some i /\
    CpuGpu.block_id r (BlockManager.block_allocator m) = Some i /\
    i ∈ Ids.all_block_indices (Naive.ids (CpuGpu.gpu (BlockManager.block_allocator m))) /\
    1 <= Ids.refcount (Naive.ids (CpuGpu.gpu (BlockManager.block_allocator m))) i.
Proof.
  intros Hw [_ _ _ Hl] Hk. set (a := BlockManager.block_allocator m) in *.
  destruct (linked_some _ _ _ _ r (lo_linked _ _ _ Hl)) as (prev & c & i & Hv).
  { by eapply list_elem_of_lookup_2. }
  pose proof (law_block_id a r _ Hw Hv) as Hid. cbn [bv_id] in Hid.
  assert (Hp : BlockTable.physical_block_ids b !! k = Some i).
  { pose proof (lo_ids _ _ _ Hl) as Hsync. unfold BlockList.synced in Hsync.
    apply (f_equal (fun l => l !! k)) in Hsync. cbn beta in Hsync.
    change (map ?f ?l) with (f <$> l) in Hsync.
    rewrite !list_lookup_fmap in Hsync. unfold BlockTable.blocks in Hk. rewrite Hk in Hsync.
    change (CpuGpu.block_id r a = Some i) in Hid. cbn in Hsync. rewrite Hid in Hsync.
    unfold BlockTable.physical_block_ids. destruct (BlockList.block_ids _ !! k); [by injection Hsync as ->|done]. }
  exists i. split; [done|]. split; [done|].
  apply view_held in Hv as (p & prev' & -> & _ & Hh & Hdev). cbn [bv_id bv_device bv_tokens] in *.
  apply (wf_devices bs a Hw) in Hdev. split; [done|].
  eapply refs_held; [apply (wf_gpu bs a Hw)|exact Hh|done|].
  cbn beta. by rewrite (gpu_not_cpu bs a i Hw Hdev).
Qed.

(** C24. Take a manager over the two naive allocators, without prefix caching and
    without a sliding window, whose groups have no encoder and are never swapped.
    In every state that admitted calls of [allocate], [append_slots] and [fork]
    lead it to, each sequence with a table finds there exactly the tokens it was
    last given: the tokens read off the table's blocks, in order, are the
    sequence's, the table knows how many slots are filled and has room for them,
    and the block ids the workers get are those of the table's blocks, each an id
    of the GPU that is in use.  No other sequence has a table. *)
Theorem tables_hold_tokens m held (Huse : in_use m held) i :
  match held !! i with
  | None => BlockManager.block_tables m !! i = None
  | Some toks => exists b, BlockManager.block_tables m !! i = Some b /\
      BlockTable.get_all_token_ids b (BlockManager.block_allocator m) = toks /\
      BlockTable.num_full_slots b = Z.of_nat (length toks) /\
      Z.of_nat (length toks) <= bs * Z.of_nat (length (BlockTable.blocks b)) /\
      forall k r, BlockTable.blocks b !! k = Some r ->
        exists j, BlockTable.physical_block_ids b !! k = Some j /\
          CpuGpu.block_id r (BlockManager.block_allocator m) = Some j /\
          j ∈ Ids.all_block_indices (Naive.ids (CpuGpu.gpu (BlockManager.block_allocator m))) /\
          1 <= Ids.refcount (Naive.ids (CpuGpu.gpu (BlockManager.block_allocator m))) j
  end.
Proof.
  apply in_use_ok in Huse as Hm. pose proof (mo_wf _ _ Hm) as Hw.
  destruct (held !! i) as [toks|] eqn:Hi; [|by eapply no_table].
  destruct (table_of m held i toks Hm Hi) as (b & Hb & Hok). exists b. split; [done|].
  split; [by apply all_token_ids_ok|]. split; [apply Hok|]. split.
  - pose proof (lo_room _ _ _ (to_list _ _ _ Hok)) as Hroom. unfold BlockTable.blocks. nia.
  - intros k r Hk. by eapply table_block.
Qed.

(** C25. What the manager admits, it can do.  In the states of the last theorem
    (naive allocators, no prefix caching, no sliding window, no encoder, no
    swapping), [can_allocate] and [can_append_slots] answer, and when the answer
    is yes, [allocate], or [append_slots] for all the sequences of the group, one
    after the other with no check in between, returns.  The count of the blocks
    that a call may take, with lookahead slots and copies on write, is never too
    low. *)
Theorem admitted_calls_return m held c (Huse : in_use m held) (Hlegal : legal held c) :
  exists ans, admits c m = Ok ans /\
    (ans = true -> exists m', exec c m = (Ok tt, m') /\ in_use m' (held_after c held)).
Proof.
  destruct (call_ok m held c (in_use_ok m held Huse) Hlegal) as (ans & Ha & Hok).
  exists ans. split; [done|]. intros ->. specialize (Hok eq_refl).
  apply meets_run in Hok as ([] & m' & Hrun & _). exists m'. split; [done|].
  by eapply use_call.
Qed.

(** Without prefix caching a sequence cannot be freed: [free] first looks up
    the sequence's cache hint, which only [access_all_blocks_in_seq] with
    caching on would have set, finds [None], and raises [TypeError] before any
    block is given back. *)
Theorem free_raises_without_caching m held q (Huse : in_use m held)
    (Hq : is_Some (held !! seq_id q)) :
  BlockManager.free q m = (Err TypeError, m).
Proof.
  destruct Hq as [toks Hq]. by eapply (free_raises m held q toks (in_use_ok m held Huse)).
Qed.
End Protocol.

(** ** A run: two sequences with three tokens, one of which goes on *)

Definition sample_seq (i : Z) (toks : list Z) (st : SequenceStatus) : Sequence :=
  MkSequence i toks st None 0 false None.
Definition sample_group (st : SequenceStatus) (l : list (Z * list Z)) : SequenceGroup :=
  MkSequenceGroup "r" (map (fun '(i, toks) => sample_seq i toks st) l) None.
Definition prompt_group : SequenceGroup := sample_group WAITING [(0, [1; 2; 3]); (1, [1; 2; 3])].
Definition decode_group : SequenceGroup := sample_group RUNNING [(0, [1; 2; 3; 4; 5]); (1, [1; 2; 3; 6])].

Lemma prompt_legal : legal ∅ (Allocate prompt_group 0).
Proof.
  split; [done|]. split; [done|]. eexists _, _. split; [reflexivity|]. split; [done|].
  split; [by apply (bool_decide_unpack _); vm_compute|]. intros x _. apply lookup_empty.
Qed.

Lemma decode_legal : legal (held_after (Allocate prompt_group 0) ∅) (Append decode_group 1).
Proof.
  split; [done|]. split; [by apply (bool_decide_unpack _); vm_compute|].
  intros q Hq. assert (q = sample_seq 0 [1; 2; 3; 4; 5] RUNNING \/ q = sample_seq 1 [1; 2; 3; 6] RUNNING) as [-> | ->].
  { apply list_elem_of_In in Hq. vm_compute in Hq. destruct Hq as [<-|[<-|[]]]; [by left|by right]. }
  - exists [1; 2; 3]. split; [reflexivity|by exists [4; 5]].
  - exists [1; 2; 3]. split; [reflexivity|by exists [6]].
Qed.

Lemma sample_use :
  exists m, in_use 2 6 2 0 m (held_after (Append decode_group 1) (held_after (Allocate prompt_group 0) ∅)) /\
    BlockManager.get_num_free_gpu_blocks m = 1.
Proof.
  eexists. split.
  - eapply use_call; [|exact decode_legal| |].
    + eapply use_call; [|exact prompt_legal| |]; [apply use_init|..]; vm_compute; reflexivity.
    + vm_compute. reflexivity.
    + vm_compute. reflexivity.
  - vm_compute. reflexivity.
Qed.

Lemma tables_hold_tokens_witness :
  exists (m : mgr) b, BlockManager.block_tables m !! 0 = Some b /\
    BlockTable.get_all_token_ids b (BlockManager.block_allocator m) = [1; 2; 3; 4; 5].
Proof.
  destruct sample_use as (m & Hm & _).
  destruct (tables_hold_tokens 2 6 2 0 ltac:(done) ltac:(done) ltac:(done) m _ Hm 0) as (b & Hb & Ht & _).
  exists m, b. split; [exact Hb|exact Ht].
Defined.

Lemma admitted_calls_return_witness :
  exists (m m' : mgr), exec (Allocate prompt_group 0) m = (Ok tt, m') /\
    in_use 2 6 2 0 m' (held_after (Allocate prompt_group 0) ∅).
Proof.
  assert (H : exists m, in_use 2 6 2 0 m ∅ /\ admits (Allocate prompt_group 0) m = Ok true).
  { eexists. split; [apply use_init; vm_compute; reflexivity|vm_compute; reflexivity]. }
  destruct H as (m & Hm & Ha).
  destruct (admitted_calls_return 2 6 2 0 ltac:(done) ltac:(done) ltac:(done) m ∅
    (Allocate prompt_group 0) Hm prompt_legal) as (ans & Ha' & Hok).
  rewrite Ha in Ha'. injection Ha' as <-. destruct (Hok eq_refl) as (m' & Hrun & Hm').
  exists m, m'. split; [exact Hrun|exact Hm'].
Defined.

Lemma free_raises_without_caching_witness :
  exists m : mgr, BlockManager.free (sample_seq 0 [] RUNNING) m = (Err TypeError, m).
Proof.
  destruct sample_use as (m & Hm & _). exists m.
  apply (free_raises_without_caching 2 6 2 0 ltac:(done) ltac:(done) ltac:(done) m _ _ Hm).
  eexists. reflexivity.
Defined.
