(* ===== verification/V0Sequence.v ===== *)
(** * The v0 engine's sequences ([vllm/sequence.py])

    [SequenceData], [Sequence] and [SequenceGroup], as far as scheduling and the
    exchange with the workers read or change them: text, log probabilities,
    timing metrics and multi-modal inputs are left out.  Token arrays are lists of
    [Z].  [first_seq] is set in [__init__] from [seqs], which is not reassigned; it
    is read off [seqs] here.  When [is_single_seq] the code has shortcuts for
    [get_seqs], [num_seqs], [is_finished] and the like, which look at the one
    sequence and give what the general case gives.  [Group.view] is what the block manager sees of a group. *)
From S2P Require Import Prelude.
From S2P Require Import BlockManager.

Inductive SequenceStage : Type := PREFILL | DECODE.
#[global] Instance SequenceStage_eq_dec : EqDecision SequenceStage.
Proof. solve_decision. Defined.

(** [SequenceStatus.is_finished]: the status is above [SWAPPED]. *)
Definition is_finished_status (st : SequenceStatus) : bool :=
  match st with WAITING | RUNNING | SWAPPED => false | _ => true end.

(** [SequenceStatus.get_finished_reason] *)
Definition get_finished_reason (st : SequenceStatus) : option string :=
  match st with
  | FINISHED_STOPPED => Some "stop"%string
  | FINISHED_LENGTH_CAPPED => Some "length"%string
  | FINISHED_ABORTED => Some "abort"%string
  | FINISHED_IGNORED => Some "length"%string
  | _ => None
  end.

Module SequenceData.

Record t : Type := MkData {
  prompt_token_ids : list Z;
  output_token_ids : list Z;
  num_computed_tokens : Z;
  num_cached_tokens : Z;
  stage : SequenceStage;
  cached_all_token_ids : list Z;
  new_appended_tokens : list Z
}.

(** What [get_delta_and_reset] sends: [SequenceDataDelta]. *)
Record delta : Type := SequenceDataDelta {
  new_output_token_ids : list Z;
  new_num_computed_tokens : Z;
  new_stage : SequenceStage
}.

(** [from_seqs], with [__post_init__] *)
Definition from_seqs (prompt output : list Z) : t :=
  MkData prompt output 0 0 PREFILL (prompt ++ output) [].

(** [output_token_ids = l] *)
Definition set_output_token_ids (l : list Z) (d : t) : t :=
  MkData (prompt_token_ids d) l (num_computed_tokens d) (num_cached_tokens d) (stage d)
    (prompt_token_ids d ++ l) (new_appended_tokens d).

Definition append_token_id (token_id : Z) (d : t) : t :=
  MkData (prompt_token_ids d) (output_token_ids d ++ [token_id]) (num_computed_tokens d)
    (num_cached_tokens d) (stage d) (cached_all_token_ids d ++ [token_id])
    (new_appended_tokens d ++ [token_id]).

Definition get_prompt_len (d : t) : Z := Z.of_nat (length (prompt_token_ids d)).
Definition get_output_len (d : t) : Z := Z.of_nat (length (output_token_ids d)).
Definition get_len (d : t) : Z := get_output_len d + get_prompt_len d.
Definition get_token_ids (d : t) : list Z := cached_all_token_ids d.
Definition get_num_computed_tokens (d : t) : Z := num_computed_tokens d.
Definition get_num_uncomputed_tokens (d : t) : Z := get_len d - get_num_computed_tokens d.

Definition get_prefix_token_ids (num_tokens : Z) (d : t) : list Z * option (list Z) :=
  let prompt_length := get_prompt_len d in
  if prompt_length <? num_tokens
  then (prompt_token_ids d, Some (py_slice (output_token_ids d) 0 (num_tokens - prompt_length)))
  else (py_slice (prompt_token_ids d) 0 num_tokens, None).

Definition get_last_token_id (d : t) : result Z :=
  match output_token_ids d with
  | [] => py_index (prompt_token_ids d) (-1)
  | l => py_index l (-1)
  end.

Definition with_computed (n : Z) (st : SequenceStage) (d : t) : t :=
  MkData (prompt_token_ids d) (output_token_ids d) n (num_cached_tokens d) st
    (cached_all_token_ids d) (new_appended_tokens d).

Definition update_num_computed_tokens (num_new_computed_tokens : Z) : M t unit :=
  modify (fun d => with_computed (num_computed_tokens d + num_new_computed_tokens) (stage d) d) ;;
  d ← get;
  assert_ (num_computed_tokens d <=? get_len d) ;;
  if get_num_uncomputed_tokens d =? 0
  then modify (fun d => with_computed (num_computed_tokens d) DECODE d)
  else mret tt.

Definition update_num_cached_tokens (n : Z) (d : t) : t :=
  MkData (prompt_token_ids d) (output_token_ids d) (num_computed_tokens d) n (stage d)
    (cached_all_token_ids d) (new_appended_tokens d).

Definition with_new_tokens (l : list Z) (d : t) : t :=
  MkData (prompt_token_ids d) (output_token_ids d) (num_computed_tokens d) (num_cached_tokens d)
    (stage d) (cached_all_token_ids d) l.

Definition reset_state_for_recompute (d : t) : t :=
  with_new_tokens [] (with_computed 0 PREFILL d).

Definition get_delta_and_reset (d : t) : delta * t :=
  (SequenceDataDelta (new_appended_tokens d) (get_num_computed_tokens d) (stage d),
   with_new_tokens [] d).

Definition apply_delta (x : delta) (d : t) : t :=
  MkData (prompt_token_ids d) (output_token_ids d ++ new_output_token_ids x)
    (new_num_computed_tokens x) (num_cached_tokens d) (new_stage x)
    (cached_all_token_ids d ++ new_output_token_ids x) (new_appended_tokens d).
End SequenceData.

Module Seq.

Record t : Type := MkSeq {
  seq_id : Z;
  block_size : Z;
  lora_int_id : Z;
  prompt_adapter_id : Z;
  data : SequenceData.t;
  status : SequenceStatus;
  cache_hint : option Z;
  last_output_token_ids_offset : Z
}.

Definition with_status (st : SequenceStatus) (q : t) : t :=
  MkSeq (seq_id q) (block_size q) (lora_int_id q) (prompt_adapter_id q) (data q) st (cache_hint q)
    (last_output_token_ids_offset q).
Definition with_data (d : SequenceData.t) (q : t) : t :=
  MkSeq (seq_id q) (block_size q) (lora_int_id q) (prompt_adapter_id q) d (status q) (cache_hint q)
    (last_output_token_ids_offset q).
Definition with_offset (n : Z) (q : t) : t :=
  MkSeq (seq_id q) (block_size q) (lora_int_id q) (prompt_adapter_id q) (data q) (status q)
    (cache_hint q) n.

Definition get_len (q : t) : Z := SequenceData.get_len (data q).
Definition n_blocks (q : t) : Z := (get_len q + block_size q - 1) / block_size q.
Definition is_finished (q : t) : bool := is_finished_status (status q).
Definition is_prefill (q : t) : bool := bool_decide (SequenceData.stage (data q) = PREFILL).
Definition get_num_computed_tokens (q : t) : Z := SequenceData.get_num_computed_tokens (data q).

Definition get_num_new_tokens (q : t) : Z :=
  if bool_decide (SequenceData.stage (data q) = DECODE) then 1
  else SequenceData.get_num_uncomputed_tokens (data q).

Definition reset_state_for_recompute (q : t) : t :=
  with_data (SequenceData.reset_state_for_recompute (data q)) q.

Definition fork (new_seq_id : Z) (q : t) : t :=
  MkSeq new_seq_id (block_size q) (lora_int_id q) (prompt_adapter_id q) (data q) (status q)
    (cache_hint q) (last_output_token_ids_offset q).

(** [extra_hash]; [hash_pair]: [hash] of the pair. *)
Definition extra_hash (hash_pair : Z * Z -> Z) (q : t) : option Z :=
  if (prompt_adapter_id q =? 0) && (lora_int_id q =? 0) then None
  else Some (hash_pair (prompt_adapter_id q, lora_int_id q)).

(** [get_output_token_ids_to_return] with [delta]; for one token the code returns
    it without the list around it. *)
Definition get_new_output_token_ids (q : t) : list Z * t :=
  let output_len := SequenceData.get_output_len (data q) in
  let num_new_tokens := output_len - last_output_token_ids_offset q in
  let l := SequenceData.cached_all_token_ids (data q) in
  ((if num_new_tokens =? 0 then []
    else py_slice l (- num_new_tokens) (Z.of_nat (length l))),
   with_offset output_len q).

(** What the block manager sees of the sequence. *)
Definition view (hash_pair : Z * Z -> Z) (q : t) : Sequence :=
  MkSequence (seq_id q) (SequenceData.get_token_ids (data q)) (status q) (extra_hash hash_pair q)
    (get_num_computed_tokens q) (is_prefill q) (cache_hint q).
End Seq.

Module Group.

Record t : Type := MkGroup {
  request_id : string;
  seqs : list Seq.t;
  arrival_time : Q;
  encoder_seq : option Seq.t;
  lora_int_id : Z;
  long_lora_max_len : option Z;
  priority : Z;
  sampling_n : option Z;
  num_steps : Z;
  current_step : Z
}.

Definition with_seqs (l : list Seq.t) (g : t) : t :=
  MkGroup (request_id g) l (arrival_time g) (encoder_seq g) (lora_int_id g) (long_lora_max_len g)
    (priority g) (sampling_n g) (num_steps g) (current_step g).

(** [init_multi_step] *)
Definition init_multi_step (n : Z) (g : t) : t :=
  MkGroup (request_id g) (seqs g) (arrival_time g) (encoder_seq g) (lora_int_id g)
    (long_lora_max_len g) (priority g) (sampling_n g) n 0.

Definition first_seq (g : t) : result Seq.t := from_option_exn IndexError (head (seqs g)).
Definition has_status (st : SequenceStatus) (q : Seq.t) : bool := bool_decide (Seq.status q = st).

Definition get_seqs (status : option SequenceStatus) (g : t) : list Seq.t :=
  match status with
  | None => seqs g
  | Some st => List.filter (has_status st) (seqs g)
  end.

Definition get_finished_seqs (g : t) : list Seq.t := List.filter Seq.is_finished (seqs g).
Definition num_finished_seqs (g : t) : Z := Z.of_nat (length (get_finished_seqs g)).
Definition num_seqs (status : option SequenceStatus) (g : t) : Z :=
  Z.of_nat (length (get_seqs status g)).

Definition get_max_num_running_seqs (g : t) : Z := num_seqs None g - num_finished_seqs g.
Definition is_finished (g : t) : bool := forallb Seq.is_finished (seqs g).
Definition is_encoder_decoder (g : t) : bool := bool_decide (is_Some (encoder_seq g)).

Definition is_prefill (g : t) : result bool := Seq.is_prefill <$> first_seq g.

(** The sequences that [p] holds of change. *)
Definition update_seqs (p : Seq.t -> bool) (f : Seq.t -> Seq.t) (g : t) : t :=
  with_seqs (map (fun q => if p q then f q else q) (seqs g)) g.

Definition get_num_uncomputed_tokens (g : t) : Z :=
  foldr (fun q n => SequenceData.get_num_uncomputed_tokens (Seq.data q) + n) 0
    (List.filter (fun q => negb (Seq.is_finished q)) (seqs g)).

Fixpoint update_each (n : Z) (l : list Seq.t) : result unit * list Seq.t :=
  match l with
  | [] => (Ok tt, [])
  | q :: l' =>
      if Seq.is_finished q then let '(r, l2) := update_each n l' in (r, q :: l2)
      else
        match SequenceData.update_num_computed_tokens n (Seq.data q) with
        | (Ok _, d) => let '(r, l2) := update_each n l' in (r, Seq.with_data d q :: l2)
        | (Err e, d) => (Err e, Seq.with_data d q :: l')
        end
  end.

Definition update_num_computed_tokens (n : Z) : M t unit := fun g =>
  let '(r, l) := update_each n (seqs g) in (r, with_seqs l g).

Definition init_multi_step_from_lookahead_slots (num_lookahead_slots num_scheduler_steps : Z)
    (is_multi_step enable_chunking : bool) : M t unit :=
  if negb is_multi_step then modify (init_multi_step num_scheduler_steps)
  else
    g ← get;
    prefill ← lift (is_prefill g);
    if prefill && enable_chunking then
      assert_ (num_lookahead_slots =? num_scheduler_steps) ;;
      modify (init_multi_step num_lookahead_slots)
    else
      assert_ ((num_lookahead_slots =? 0) || negb prefill) ;;
      assert_ ((num_lookahead_slots + 1 =? num_scheduler_steps) || prefill) ;;
      modify (init_multi_step (num_lookahead_slots + 1)).

(** What the block manager sees of the group. *)
Definition view (hash_pair : Z * Z -> Z) (g : t) : SequenceGroup :=
  MkSequenceGroup (request_id g) (map (Seq.view hash_pair) (seqs g))
    (Seq.view hash_pair <$> encoder_seq g).
End Group.
