(* ===== verification/V0Budget.v ===== *)
(** * The v0 scheduler's budgets ([vllm/core/scheduler.py])

    [SchedulingBudget], which counts what one scheduling step may still take, and
    [PartialPrefillMetadata], which limits the concurrent prefills; with the part
    of [SchedulerConfig], [CacheConfig] and [LoRAConfig] that the scheduler
    reads. *)
From S2P Require Import Prelude.
From S2P Require Import BlockManager.
From S2P Require Import V0Sequence.

Record SchedulerConfig : Type := MkSchedulerConfig {
  max_num_batched_tokens : Z;
  max_num_seqs : Z;
  max_model_len : Z;
  num_lookahead_slots : Z;
  delay_factor : Q;
  chunked_prefill_enabled : bool;
  is_multi_step : bool;
  num_scheduler_steps : Z;
  preemption_mode : option string;
  policy : string;
  max_num_partial_prefills : Z;
  max_long_partial_prefills : Z;
  long_prefill_token_threshold : Z;
  send_delta_data : bool
}.

(** [max_loras]: the LoRA configuration's, if there is one. *)
Record CacheConfig : Type := MkCacheConfig {
  block_size : Z;
  enable_prefix_caching : bool;
  max_loras : option Z
}.

Module Budget.

Record t : Type := SchedulingBudget {
  token_budget : Z;
  max_seqs : Z;
  request_ids_num_batched_tokens : gset string;
  request_ids_num_curr_seqs : gset string;
  num_cached_tokens : Z;
  num_batched_tokens : Z;
  num_curr_seqs : Z
}.

Definition init (tokens seqs : Z) : t := SchedulingBudget tokens seqs ∅ ∅ 0 0 0.

Definition can_schedule (num_new_tokens num_new_seqs : Z) (b : t) : result bool :=
  if (0 <=? num_new_tokens) && negb (num_new_seqs =? 0)
  then Ok ((num_batched_tokens b + num_new_tokens <=? token_budget b) &&
           (num_curr_seqs b + num_new_seqs <=? max_seqs b))
  else Err AssertionError.

Definition remaining_token_budget (b : t) : Z := token_budget b - num_batched_tokens b.

Definition add_num_batched_tokens (req_id : string) (batched cached : Z) : M t unit :=
  b ← get;
  if decide (req_id ∈ request_ids_num_batched_tokens b) then mret tt
  else
    assert_ (0 <=? cached) ;;
    assert_ (0 <=? batched) ;;
    modify (fun b => SchedulingBudget (token_budget b) (max_seqs b)
      ({[req_id]} ∪ request_ids_num_batched_tokens b) (request_ids_num_curr_seqs b)
      (num_cached_tokens b + cached) (num_batched_tokens b + batched) (num_curr_seqs b)).

Definition subtract_num_batched_tokens (req_id : string) (batched : Z) (b : t) : t :=
  if decide (req_id ∈ request_ids_num_batched_tokens b) then
    SchedulingBudget (token_budget b) (max_seqs b)
      (request_ids_num_batched_tokens b ∖ {[req_id]}) (request_ids_num_curr_seqs b)
      (num_cached_tokens b) (num_batched_tokens b - batched) (num_curr_seqs b)
  else b.

Definition add_num_seqs (req_id : string) (n : Z) (b : t) : t :=
  if decide (req_id ∈ request_ids_num_curr_seqs b) then b
  else
    SchedulingBudget (token_budget b) (max_seqs b)
      (request_ids_num_batched_tokens b) ({[req_id]} ∪ request_ids_num_curr_seqs b)
      (num_cached_tokens b) (num_batched_tokens b) (num_curr_seqs b + n).

Definition subtract_num_seqs (req_id : string) (n : Z) (b : t) : t :=
  if decide (req_id ∈ request_ids_num_curr_seqs b) then
    SchedulingBudget (token_budget b) (max_seqs b)
      (request_ids_num_batched_tokens b) (request_ids_num_curr_seqs b ∖ {[req_id]})
      (num_cached_tokens b) (num_batched_tokens b) (num_curr_seqs b - n)
  else b.
End Budget.

Module Partial.

Record t : Type := PartialPrefillMetadata {
  schedulable_prefills : Z;
  long_prefills : Z
}.

Section Config.
Variable cfg : SchedulerConfig.

Definition is_long (q : Seq.t) : bool := long_prefill_token_threshold cfg <? Seq.get_num_new_tokens q.

Definition can_schedule (g : Group.t) (m : t) : result bool :=
  q ← Group.first_seq g;
  Ok (negb (is_long q && (max_long_partial_prefills cfg <=? long_prefills m) &&
            (1 <? max_num_partial_prefills cfg))).

Definition maybe_increment_partial_prefills (g : Group.t) (m : t) : result t :=
  q ← Group.first_seq g;
  Ok (if is_long q then PartialPrefillMetadata (schedulable_prefills m) (long_prefills m + 1) else m).

(** The loop over the running groups. *)
Fixpoint count_running (l : list Group.t) (prefills long : Z) : result (Z * Z) :=
  match l with
  | [] => Ok (prefills, long)
  | g :: l' =>
      q ← Group.first_seq g;
      if Seq.is_prefill q
      then count_running l' (prefills + 1) (if is_long q then long + 1 else long)
      else count_running l' prefills long
  end.

(** The loop over the waiting groups: the number of prefills. *)
Fixpoint count_waiting (l : list Group.t) (prefills long waiting_long : Z) : result Z :=
  match l with
  | [] => Ok prefills
  | g :: l' =>
      if max_num_partial_prefills cfg <=? prefills then Ok prefills
      else
        q ← Group.first_seq g;
        if is_long q then
          if max_long_partial_prefills cfg <=? long + waiting_long
          then count_waiting l' prefills long waiting_long
          else count_waiting l' (prefills + 1) long (waiting_long + 1)
        else count_waiting l' (prefills + 1) long waiting_long
  end.

Definition from_queues (running waiting : list Group.t) : result t :=
  '(prefills, long) ← count_running running 0 0;
  prefills ← count_waiting waiting prefills long 0;
  Ok (PartialPrefillMetadata (Z.min prefills (max_num_partial_prefills cfg)) long).
End Config.
End Partial.
