(* ===== verification/BlockSpaceManager.v ===== *)
(** * The interface of the v0 scheduler to block management
    ([vllm/core/interfaces.py])

    [BlockSpaceManager] is the abstract class; its instances are
    [SelfAttnBlockSpaceManager], for any device-aware allocator, and
    [PlaceholderBlockSpaceManager] ([placeholder_block_space_manager.py]), for
    models without a KV cache.  [free_cross], [get_cross_block_table] and the
    post-warm-up hit rate are not in the abstract class; the placeholder does not
    have them, and its [swap_in], [swap_out] and [get_block_table] return
    [None]. *)
From S2P Require Import Prelude.
From S2P Require Import BlockInterfaces.
From S2P Require Import BlockManager.

Class BlockSpaceManager (B : Type) : Type := {
  can_allocate : SequenceGroup -> Z -> B -> result AllocStatus;
  allocate : SequenceGroup -> M B unit;
  can_append_slots : SequenceGroup -> Z -> B -> result bool;
  append_slots : Sequence -> Z -> M B (list (Z * Z));
  fork : Sequence -> Sequence -> M B unit;
  can_swap_in : SequenceGroup -> Z -> M B AllocStatus;
  swap_in : SequenceGroup -> M B (option (list (Z * Z)));
  can_swap_out : SequenceGroup -> M B bool;
  swap_out : SequenceGroup -> M B (option (list (Z * Z)));
  free : Sequence -> M B unit;
  free_cross : SequenceGroup -> M B unit;
  get_block_table : Sequence -> B -> result (option (list Z));
  get_cross_block_table : SequenceGroup -> B -> result (list Z);
  get_num_free_gpu_blocks : B -> Z;
  get_num_free_cpu_blocks : B -> Z;
  access_all_blocks_in_seq : Sequence -> Q -> M B unit;
  get_common_computed_block_ids : list Sequence -> M B (list Z);
  mark_blocks_as_computed : SequenceGroup -> Z -> M B unit;
  get_prefix_cache_hit_rate : Device -> B -> Q;
  post_warmup_hit_rate : option (Device -> B -> Q);
  reset_prefix_cache : M B bool;
  get_num_cached_tokens : Sequence -> M B Z
}.

(** [SelfAttnBlockSpaceManager] *)
#[export] Instance self_attn_manager {S R} `{!EqDecision R} `{!DeviceAwareBlockAllocator S R}
    (py_hash : bool * option Z * list Z * option Z -> Z) (none_hash : Z) :
    BlockSpaceManager (BlockManager.t S R) := {|
  can_allocate := BlockManager.can_allocate;
  allocate := BlockManager.allocate;
  can_append_slots := BlockManager.can_append_slots;
  append_slots := BlockManager.append_slots;
  fork := BlockManager.fork;
  can_swap_in := BlockManager.can_swap_in;
  swap_in := fun g => l ← BlockManager.swap_in g; mret (Some l);
  can_swap_out := BlockManager.can_swap_out;
  swap_out := fun g => l ← BlockManager.swap_out g; mret (Some l);
  free := BlockManager.free;
  free_cross := BlockManager.free_cross;
  get_block_table := fun q s => Some <$> BlockManager.get_block_table q s;
  get_cross_block_table := BlockManager.get_cross_block_table;
  get_num_free_gpu_blocks := BlockManager.get_num_free_gpu_blocks;
  get_num_free_cpu_blocks := BlockManager.get_num_free_cpu_blocks;
  access_all_blocks_in_seq := BlockManager.access_all_blocks_in_seq;
  get_common_computed_block_ids := BlockManager.get_common_computed_block_ids py_hash none_hash;
  mark_blocks_as_computed := BlockManager.mark_blocks_as_computed;
  get_prefix_cache_hit_rate := BlockManager.get_prefix_cache_hit_rate;
  post_warmup_hit_rate := Some BlockManager.get_scheduler_post_warmup_prefix_cache_hit_rate;
  reset_prefix_cache := BlockManager.reset_prefix_cache;
  get_num_cached_tokens := BlockManager.get_num_cached_tokens py_hash none_hash
|}.

(** [PlaceholderBlockSpaceManager], which has no state. *)
Module Placeholder.
Record t : Type := PlaceholderBlockSpaceManager {}.

#[export] Instance placeholder_manager : BlockSpaceManager t := {|
  can_allocate := fun _ _ _ => Ok OK;
  allocate := fun _ => mret tt;
  can_append_slots := fun _ _ _ => Ok true;
  append_slots := fun _ _ => mret [];
  fork := fun _ _ => mret tt;
  can_swap_in := fun _ _ => mret OK;
  swap_in := fun _ => mret None;
  can_swap_out := fun _ => mret true;
  swap_out := fun _ => mret None;
  free := fun _ => mret tt;
  free_cross := fun _ => raise AttributeError;
  get_block_table := fun _ _ => Ok None;
  get_cross_block_table := fun _ _ => Err AttributeError;
  get_num_free_gpu_blocks := fun _ => 1;
  get_num_free_cpu_blocks := fun _ => 1;
  access_all_blocks_in_seq := fun _ _ => mret tt;
  get_common_computed_block_ids := fun _ => mret [];
  mark_blocks_as_computed := fun _ _ => mret tt;
  get_prefix_cache_hit_rate := fun _ _ => (-1)%Q;
  post_warmup_hit_rate := None;
  reset_prefix_cache := mret true;
  get_num_cached_tokens := fun _ => mret 0
|}.
End Placeholder.
