(* ===== verification/V0Scheduler.v ===== *)
(** * The scheduler of the v0 engine ([vllm/core/scheduler.py])

    [Scheduler], over any [BlockSpaceManager].  A sequence group is an object that
    queues and outputs refer to: it has an address in the store [groups].

    One call of [_schedule] works on a [frame]: the scheduler with the locals
    that its parts share and update in place, the budget, the current LoRA ids,
    the metadata of partial prefills, and the outputs of the three parts.

    Left out: the reuse of output objects ([PyObjectCache]), timing metrics, log
    lines, and the artificial preemption that an environment variable turns on
    for tests.  The readings of the clock in the loop over the waiting queue, and
    the engine's callback that processes a request's pending output, which
    changes sequence groups, are parameters. *)
From S2P Require Import Prelude.
From S2P Require Import PyDict.
From S2P Require Import BlockInterfaces.
From S2P Require Import BlockManager.
From S2P Require Import V0Sequence.
From S2P Require Import V0Budget.
From S2P Require Import BlockSpaceManager.

Inductive PreemptionMode : Type := SWAP | RECOMPUTE.

Record ScheduledSequenceGroup : Type := MkScheduled {
  seq_group : Z;
  token_chunk_size : Z
}.

Record SchedulerRunningOutputs : Type := MkRunning {
  decode_seq_groups : list ScheduledSequenceGroup;
  prefill_seq_groups : list ScheduledSequenceGroup;
  preempted : list Z;
  swapped_out : list Z;
  blocks_to_swap_out : list (Z * Z);
  run_blocks_to_copy : list (Z * Z);
  run_lookahead_slots : Z
}.

Record SchedulerSwappedInOutputs : Type := MkSwappedIn {
  in_decode_seq_groups : list ScheduledSequenceGroup;
  in_prefill_seq_groups : list ScheduledSequenceGroup;
  blocks_to_swap_in : list (Z * Z);
  in_blocks_to_copy : list (Z * Z);
  infeasible_seq_groups : list Z
}.

Record SchedulerPrefillOutputs : Type := MkPrefill {
  seq_groups : list ScheduledSequenceGroup;
  ignored_seq_groups : list Z
}.

Record SchedulerOutputs : Type := MkOutputs {
  scheduled_seq_groups : list ScheduledSequenceGroup;
  num_prefill_groups : Z;
  out_num_batched_tokens : Z;
  out_blocks_to_swap_in : list (Z * Z);
  out_blocks_to_swap_out : list (Z * Z);
  blocks_to_copy : list (Z * Z);
  out_ignored_seq_groups : list Z;
  out_num_lookahead_slots : Z;
  running_queue_size : Z;
  out_preempted : Z
}.

(** [SequenceGroupMetadata] and [SequenceGroupMetadataDelta] *)
Inductive metadata : Type :=
  | SequenceGroupMetadata (request_id : string) (is_prompt : bool)
      (seq_data : pydict Z SequenceData.t) (block_tables : pydict Z (option (list Z)))
      (do_sample : bool) (token_chunk_size : Z) (computed_block_nums : list Z)
      (encoder_seq_data : option SequenceData.t) (cross_block_table : option (list Z))
      (num_steps current_step : Z)
  | SequenceGroupMetadataDelta (seq_data_delta : pydict Z SequenceData.delta)
      (request_id : string) (block_tables : pydict Z (option (list Z))) (is_prompt : bool)
      (do_sample : bool) (token_chunk_size : Z) (computed_block_nums : list Z).

Definition empty_running (slots : Z) : SchedulerRunningOutputs := MkRunning [] [] [] [] [] [] slots.
Definition empty_swapped_in : SchedulerSwappedInOutputs := MkSwappedIn [] [] [] [] [].
Definition empty_prefill : SchedulerPrefillOutputs := MkPrefill [] [].

Module V0Scheduler.
Section Scheduler.
Context {B : Type} `{!BlockSpaceManager B}.
Variable hash_pair : Z * Z -> Z.
Variable cfg : SchedulerConfig.
Variable cache : CacheConfig.
Variable time : nat -> Q.
Variable output_proc_callback : option (string -> gmap Z Group.t -> gmap Z Group.t).

Record t : Type := Scheduler {
  groups : gmap Z Group.t;
  waiting : list Z;
  running : list Z;
  swapped : list Z;
  finished_requests_ids : list string;
  prev_time : Q;
  prev_prompt : bool;
  last_prompt_latency : Q;
  num_cumulative_preemption : Z;
  async_stopped : list Z;
  manager : B
}.

Definition with_groups (x : gmap Z Group.t) (s : t) : t :=
  Scheduler x (waiting s) (running s) (swapped s) (finished_requests_ids s) (prev_time s) (prev_prompt s)
    (last_prompt_latency s) (num_cumulative_preemption s) (async_stopped s) (manager s).
Definition with_waiting (x : list Z) (s : t) : t :=
  Scheduler (groups s) x (running s) (swapped s) (finished_requests_ids s) (prev_time s) (prev_prompt s)
    (last_prompt_latency s) (num_cumulative_preemption s) (async_stopped s) (manager s).
Definition with_running (x : list Z) (s : t) : t :=
  Scheduler (groups s) (waiting s) x (swapped s) (finished_requests_ids s) (prev_time s) (prev_prompt s)
    (last_prompt_latency s) (num_cumulative_preemption s) (async_stopped s) (manager s).
Definition with_swapped (x : list Z) (s : t) : t :=
  Scheduler (groups s) (waiting s) (running s) x (finished_requests_ids s) (prev_time s) (prev_prompt s)
    (last_prompt_latency s) (num_cumulative_preemption s) (async_stopped s) (manager s).
Definition with_finished_ids (x : list string) (s : t) : t :=
  Scheduler (groups s) (waiting s) (running s) (swapped s) x (prev_time s) (prev_prompt s)
    (last_prompt_latency s) (num_cumulative_preemption s) (async_stopped s) (manager s).
Definition with_prompt (now : Q) (b : bool) (latency : Q) (s : t) : t :=
  Scheduler (groups s) (waiting s) (running s) (swapped s) (finished_requests_ids s) now b
    latency (num_cumulative_preemption s) (async_stopped s) (manager s).
Definition with_preemptions (n : Z) (s : t) : t :=
  Scheduler (groups s) (waiting s) (running s) (swapped s) (finished_requests_ids s) (prev_time s) (prev_prompt s)
    (last_prompt_latency s) n (async_stopped s) (manager s).
Definition with_async_stopped (x : list Z) (s : t) : t :=
  Scheduler (groups s) (waiting s) (running s) (swapped s) (finished_requests_ids s) (prev_time s) (prev_prompt s)
    (last_prompt_latency s) (num_cumulative_preemption s) x (manager s).
Definition with_manager (x : B) (s : t) : t :=
  Scheduler (groups s) (waiting s) (running s) (swapped s) (finished_requests_ids s) (prev_time s) (prev_prompt s)
    (last_prompt_latency s) (num_cumulative_preemption s) (async_stopped s) x.

(** [__init__] *)
Definition init (b : B) : t := Scheduler ∅ [] [] [] [] 0 false 0 0 [] b.

Definition use_async_output_proc : bool := bool_decide (is_Some output_proc_callback).
Definition lora_enabled : bool := bool_decide (is_Some (max_loras cache)).

Definition on_manager {A} (f : M B A) : M t A := fun s =>
  let '(r, b) := f (manager s) in (r, with_manager b s).

(** ** Sequence groups as objects *)

Definition group (a : Z) : M t Group.t := fun s => (from_option_exn KeyError (groups s !! a), s).
Definition on_group {A} (a : Z) (f : M Group.t A) : M t A := fun s =>
  match groups s !! a with
  | None => (Err KeyError, s)
  | Some g => let '(r, g') := f g in (r, with_groups (<[a := g']> (groups s)) s)
  end.
Definition view (g : Group.t) : SequenceGroup := Group.view hash_pair g.
(** [seq.status = st] for the sequences that [p] holds of. *)
Definition set_status (a : Z) (p : Seq.t -> bool) (st : SequenceStatus) : M t unit :=
  on_group a (modify (Group.update_seqs p (Seq.with_status st))).
(** An object of the list [l]. *)
Definition one_of (l : list Seq.t) (q : Seq.t) : bool :=
  existsb (fun x => Seq.seq_id x =? Seq.seq_id q) l.

(** ** The methods around the queues *)

Definition add_seq_group (a : Z) (s : t) : t := with_waiting (waiting s ++ [a]) s.
Definition has_unfinished_seqs (s : t) : bool :=
  negb (Nat.eqb (length (waiting s)) 0) || negb (Nat.eqb (length (running s)) 0)
  || negb (Nat.eqb (length (swapped s)) 0).
Definition get_num_unfinished_seq_groups (s : t) : Z :=
  Z.of_nat (length (waiting s)) + Z.of_nat (length (running s)) + Z.of_nat (length (swapped s)).
Definition get_and_reset_finished_requests_ids (s : t) : list string * t :=
  (finished_requests_ids s, with_finished_ids [] s).
Definition get_prefix_cache_hit_rate (d : Device) (s : t) : Q :=
  BlockSpaceManager.get_prefix_cache_hit_rate d (manager s).
Definition get_scheduler_post_warmup_prefix_cache_hit_rate (d : Device) (s : t) : Q :=
  match post_warmup_hit_rate with Some f => f d (manager s) | None => (-1)%Q end.
Definition reset_prefix_cache : M t bool := on_manager BlockSpaceManager.reset_prefix_cache.

Definition fork_seq (parent_seq child_seq : Seq.t) : M t unit :=
  on_manager (fork (Seq.view hash_pair parent_seq) (Seq.view hash_pair child_seq)).
Definition free_seq (q : Seq.t) : M t unit := on_manager (free (Seq.view hash_pair q)).

(** [_free_seq_group_cross_attn_blocks] *)
Definition free_cross_attn_blocks (a : Z) : M t unit :=
  g ← group a;
  if Group.is_encoder_decoder g then on_manager (free_cross (view g)) else mret tt.

Definition free_finished_seqs (a : Z) : M t unit :=
  g ← group a;
  for_each (Group.get_seqs None g) (fun q => if Seq.is_finished q then free_seq q else mret tt).

Definition note_finished (a : Z) : M t unit :=
  g ← group a;
  modify (fun s => with_finished_ids (finished_requests_ids s ++ [Group.request_id g]) s).

Definition free_finished_seq_group (a : Z) : M t unit :=
  g ← group a;
  (if Group.is_finished g then free_cross_attn_blocks a ;; note_finished a else mret tt) ;;
  free_finished_seqs a.

(** The groups of [running] that are not finished, in order. *)
Fixpoint free_finished_loop (l : list Z) : M t (list Z) :=
  match l with
  | [] => mret []
  | a :: l' =>
      free_finished_seq_group a ;;
      g ← group a;
      rest ← free_finished_loop l';
      mret (if Group.is_finished g then rest else a :: rest)
  end.

Definition free_finished_seq_groups : M t unit :=
  s ← get;
  remaining ← free_finished_loop (running s);
  modify (with_running remaining) ;;
  s ← get;
  for_each (async_stopped s) (fun a =>
    free_cross_attn_blocks a ;; note_finished a ;; free_finished_seqs a) ;;
  modify (with_async_stopped []).

(** The queues in the order in which [abort_seq_group] visits them. *)
Inductive state_queue : Type := Waiting | Running | Swapped.
Definition queue (k : state_queue) (s : t) : list Z :=
  match k with Waiting => waiting s | Running => running s | Swapped => swapped s end.
Definition with_queue (k : state_queue) (l : list Z) (s : t) : t :=
  match k with Waiting => with_waiting l s | Running => with_running l s | Swapped => with_swapped l s end.

(** [deque.remove] *)
Fixpoint deque_remove (a : Z) (l : list Z) : result (list Z) :=
  match l with
  | [] => Err ValueError
  | b :: l' => if decide (b = a) then Ok l' else cons b <$> deque_remove a l'
  end.

Definition abort_one (k : state_queue) (a : Z) : M t unit :=
  s ← get;
  l ← lift (deque_remove a (queue k s));
  modify (with_queue k l) ;;
  note_finished a ;;
  g ← group a;
  for_each (Group.get_seqs None g) (fun q =>
    if Seq.is_finished q then mret tt
    else set_status a (one_of [q]) FINISHED_ABORTED ;; free_seq q).

(** The request a group belongs to: [n > 1] makes a group per sample. *)
Definition real_request_id (parents : gmap string string) (g : Group.t) : string :=
  default (Group.request_id g) (parents !! Group.request_id g).

Fixpoint abort_groups (k : state_queue) (l : list Z) (parents : gmap string string)
    : M t (gmap string string) :=
  match l with
  | [] => mret parents
  | a :: l' =>
      abort_one k a ;;
      g ← group a;
      free_cross_attn_blocks a ;;
      abort_groups k l' (delete (Group.request_id g) parents)
  end.

Definition abort_queue (k : state_queue) (ids : gset string) (parents : gmap string string)
    : M t (gmap string string) :=
  s ← get;
  let aborted := List.filter (fun a =>
    match groups s !! a with
    | Some g => bool_decide (real_request_id parents g ∈ ids)
    | None => false
    end) (queue k s) in
  abort_groups k aborted parents.

(** [seq_id_to_seq_group] is represented by the parent's id of each entry. *)
Definition abort_seq_group (ids : gset string) (parents : gmap string string)
    : M t (gmap string string) :=
  parents ← abort_queue Waiting ids parents;
  parents ← abort_queue Running ids parents;
  abort_queue Swapped ids parents.

(** ** Counting tokens *)

Definition get_num_lookahead_slots (is_prefill enable_chunking : bool) : Z :=
  if is_prefill then
    if is_multi_step cfg && enable_chunking then num_lookahead_slots cfg + 1 else 0
  else num_lookahead_slots cfg.

Definition get_prompt_limit (g : Group.t) : result Z :=
  let prompt_limit :=
    if chunked_prefill_enabled cfg && negb (is_multi_step cfg) then max_model_len cfg
    else Z.min (max_model_len cfg) (max_num_batched_tokens cfg) in
  match Group.long_lora_max_len g with
  | Some n =>
      if n =? 0 then Ok prompt_limit
      else if prompt_limit <=? n then Ok n else Err AssertionError
  | None => Ok prompt_limit
  end.

(** [partial_prefill_budget_lookup_list] *)
Definition partial_prefill_budget_lookup_list : list Z :=
  max_num_batched_tokens cfg ::
  map (fun i => max_num_batched_tokens cfg / i) (seqZ 1 (max_num_partial_prefills cfg)).

Definition chunk_new_tokens_to_schedule (budget : Budget.t) (prompt_limit num_new_tokens : Z)
    (meta : option Partial.t) : result Z :=
  let remaining_token_budget := Budget.remaining_token_budget budget in
  if is_multi_step cfg then
    Ok (if prompt_limit <? num_new_tokens then num_new_tokens
        else if remaining_token_budget <? num_new_tokens then 0 else num_new_tokens)
  else
    prefill_slot_budget ←
      match meta with
      | None => Ok remaining_token_budget
      | Some m => py_index partial_prefill_budget_lookup_list (Partial.schedulable_prefills m)
      end;
    let remaining_token_budget :=
      if enable_prefix_caching cache then
        Z.min remaining_token_budget prefill_slot_budget / block_size cache * block_size cache
      else remaining_token_budget in
    Ok (Z.min num_new_tokens (Z.min remaining_token_budget prefill_slot_budget)).

(** The uncached and cached new tokens of one sequence. *)
Definition new_tokens_of_seq (q : Seq.t) : M t (Z * Z) :=
  if negb (Seq.is_prefill q) then mret (1, 0)
  else
    let num_computed := Seq.get_num_computed_tokens q in
    let all_new := Seq.get_len q - num_computed in
    if negb (enable_prefix_caching cache) then mret (all_new, 0)
    else
      num_cached ← on_manager (get_num_cached_tokens (Seq.view hash_pair q));
      (if num_cached <? num_computed
       then assert_ (Seq.is_prefill q && bool_decide (Seq.status q = RUNNING)
                     && chunked_prefill_enabled cfg)
       else mret tt) ;;
      let cached_new := Z.max 0 (num_cached - num_computed) in
      mret (all_new - cached_new, cached_new).

Fixpoint new_tokens_of_seqs (l : list Seq.t) : M t (Z * Z) :=
  match l with
  | [] => mret (0, 0)
  | q :: l' =>
      x ← new_tokens_of_seq q;
      y ← new_tokens_of_seqs l';
      mret (x.1 + y.1, x.2 + y.2)
  end.

Definition get_num_new_uncached_and_cached_tokens (a : Z) (status : SequenceStatus)
    (enable_chunking : bool) (budget : Budget.t) (meta : option Partial.t) : M t (Z * Z) :=
  g ← group a;
  let seqs := Group.get_seqs (Some status) g in
  n ← new_tokens_of_seqs seqs;
  let '(uncached, cached) :=
    if (n.1 =? 0) && (0 <? n.2) then (1, n.2 - 1) else n in
  if enable_chunking && Nat.eqb (length seqs) 1 then
    prompt_limit ← lift (get_prompt_limit g);
    uncached ← lift (chunk_new_tokens_to_schedule budget prompt_limit uncached meta);
    mret (uncached, cached)
  else mret (uncached, cached).

(** ** Slots, preemption and swapping *)

Definition can_append_slots (a : Z) (enable_chunking : bool) : M t bool :=
  g ← group a;
  is_prefill ← lift (Group.is_prefill g);
  let slots := get_num_lookahead_slots is_prefill enable_chunking in
  (if is_prefill && (0 <? slots) then assert_ (is_multi_step cfg && enable_chunking) else mret tt) ;;
  s ← get;
  lift (BlockSpaceManager.can_append_slots (view g) slots (manager s)).

Fixpoint append_seqs (l : list Seq.t) (slots : Z) : M t (list (Z * Z)) :=
  match l with
  | [] => mret []
  | q :: l' =>
      cows ← on_manager (append_slots (Seq.view hash_pair q) slots);
      rest ← append_seqs l' slots;
      mret (cows ++ rest)
  end.

(** [_append_slots]: what it adds to [blocks_to_copy]. *)
Definition append_slots (a : Z) (enable_chunking : bool) : M t (list (Z * Z)) :=
  g ← group a;
  is_prefill ← lift (Group.is_prefill g);
  let slots := get_num_lookahead_slots is_prefill enable_chunking in
  on_group a (Group.init_multi_step_from_lookahead_slots slots (num_scheduler_steps cfg)
    (is_multi_step cfg) enable_chunking) ;;
  let st := if is_multi_step cfg && enable_chunking then None else Some RUNNING in
  g ← group a;
  append_seqs (Group.get_seqs st g) slots.

Definition allocate_and_set_running (a : Z) : M t unit :=
  g ← group a;
  on_manager (allocate (view g)) ;;
  set_status a (Group.has_status WAITING) RUNNING.

Definition preempt_by_recompute (a : Z) : M t unit :=
  g ← group a;
  let seqs := Group.get_seqs (Some RUNNING) g in
  assert_ (Nat.eqb (length seqs) 1) ;;
  for_each seqs (fun q =>
    set_status a (one_of [q]) WAITING ;;
    free_seq q ;;
    on_group a (modify (Group.update_seqs (one_of [q]) Seq.reset_state_for_recompute))) ;;
  free_cross_attn_blocks a.

(** [blocks.extend(mapping)] *)
Definition extended (mapping : option (list (Z * Z))) : result (list (Z * Z)) :=
  from_option_exn TypeError mapping.

Definition swap_in (a : Z) : M t (list (Z * Z)) :=
  g ← group a;
  mapping ← on_manager (BlockSpaceManager.swap_in (view g));
  l ← lift (extended mapping);
  set_status a (Group.has_status SWAPPED) RUNNING ;;
  mret l.

Definition swap_out (a : Z) : M t (list (Z * Z)) :=
  g ← group a;
  ok ← on_manager (can_swap_out (view g));
  if ok : bool then
    mapping ← on_manager (BlockSpaceManager.swap_out (view g));
    l ← lift (extended mapping);
    set_status a (Group.has_status RUNNING) SWAPPED ;;
    mret l
  else raise RuntimeError.

Definition preemption_mode_of (g : Group.t) : PreemptionMode :=
  match preemption_mode cfg with
  | None => if Group.get_max_num_running_seqs g =? 1 then RECOMPUTE else SWAP
  | Some m => if String.eqb m "swap" then SWAP else RECOMPUTE
  end.

(** [_preempt]: the mode, and what it adds to [blocks_to_swap_out]. *)
Definition preempt (a : Z) : M t (PreemptionMode * list (Z * Z)) :=
  g ← group a;
  modify (fun s => with_preemptions (num_cumulative_preemption s + 1) s) ;;
  match preemption_mode_of g with
  | RECOMPUTE => preempt_by_recompute a ;; mret (RECOMPUTE, [])
  | SWAP => l ← swap_out a; mret (SWAP, l)
  end.

(** ** One scheduling step *)

Record frame : Type := Frame {
  sch : t;
  budget : Budget.t;
  curr_loras : option (gset Z);
  partial : option Partial.t;
  run : SchedulerRunningOutputs;
  swp : SchedulerSwappedInOutputs;
  pre : SchedulerPrefillOutputs
}.

Definition with_sch (x : t) (f : frame) : frame :=
  Frame x (budget f) (curr_loras f) (partial f) (run f) (swp f) (pre f).
Definition with_budget (x : Budget.t) (f : frame) : frame :=
  Frame (sch f) x (curr_loras f) (partial f) (run f) (swp f) (pre f).
Definition with_loras (x : option (gset Z)) (f : frame) : frame :=
  Frame (sch f) (budget f) x (partial f) (run f) (swp f) (pre f).
Definition with_partial (x : option Partial.t) (f : frame) : frame :=
  Frame (sch f) (budget f) (curr_loras f) x (run f) (swp f) (pre f).
Definition with_run (x : SchedulerRunningOutputs) (f : frame) : frame :=
  Frame (sch f) (budget f) (curr_loras f) (partial f) x (swp f) (pre f).
Definition with_swp (x : SchedulerSwappedInOutputs) (f : frame) : frame :=
  Frame (sch f) (budget f) (curr_loras f) (partial f) (run f) x (pre f).
Definition with_pre (x : SchedulerPrefillOutputs) (f : frame) : frame :=
  Frame (sch f) (budget f) (curr_loras f) (partial f) (run f) (swp f) x.

Definition on_sch {A} (f : M t A) : M frame A := fun x =>
  let '(r, s) := f (sch x) in (r, with_sch s x).
Definition on_budget {A} (f : M Budget.t A) : M frame A := fun x =>
  let '(r, b) := f (budget x) in (r, with_budget b x).
Definition mod_sch (f : t -> t) : M frame unit := modify (fun x => with_sch (f (sch x)) x).
Definition mod_budget (f : Budget.t -> Budget.t) : M frame unit :=
  modify (fun x => with_budget (f (budget x)) x).

(** [curr_loras.add] and [.remove], for a LoRA's id. *)
Definition add_lora (lora_int_id : Z) : M frame unit :=
  modify (fun x => match curr_loras x with
                   | Some l => if 0 <? lora_int_id then with_loras (Some ({[lora_int_id]} ∪ l)) x else x
                   | None => x
                   end).
Definition remove_lora (lora_int_id : Z) : M frame unit :=
  modify (fun x => match curr_loras x with
                   | Some l => if 0 <? lora_int_id then with_loras (Some (l ∖ {[lora_int_id]})) x else x
                   | None => x
                   end).
(** *** [_schedule_running] *)

Definition mod_run (f : SchedulerRunningOutputs -> SchedulerRunningOutputs) : M frame unit :=
  modify (fun x => with_run (f (run x)) x).

Definition add_preempted (a : Z) (o : SchedulerRunningOutputs) : SchedulerRunningOutputs :=
  MkRunning (decode_seq_groups o) (prefill_seq_groups o) (preempted o ++ [a]) (swapped_out o)
    (blocks_to_swap_out o) (run_blocks_to_copy o) (run_lookahead_slots o).
Definition add_swapped_out (a : Z) (o : SchedulerRunningOutputs) : SchedulerRunningOutputs :=
  MkRunning (decode_seq_groups o) (prefill_seq_groups o) (preempted o) (swapped_out o ++ [a])
    (blocks_to_swap_out o) (run_blocks_to_copy o) (run_lookahead_slots o).
Definition add_swap_blocks (l : list (Z * Z)) (o : SchedulerRunningOutputs) : SchedulerRunningOutputs :=
  MkRunning (decode_seq_groups o) (prefill_seq_groups o) (preempted o) (swapped_out o)
    (blocks_to_swap_out o ++ l) (run_blocks_to_copy o) (run_lookahead_slots o).
Definition add_copies (l : list (Z * Z)) (o : SchedulerRunningOutputs) : SchedulerRunningOutputs :=
  MkRunning (decode_seq_groups o) (prefill_seq_groups o) (preempted o) (swapped_out o)
    (blocks_to_swap_out o) (run_blocks_to_copy o ++ l) (run_lookahead_slots o).
Definition add_prefill (x : ScheduledSequenceGroup) (o : SchedulerRunningOutputs) : SchedulerRunningOutputs :=
  MkRunning (decode_seq_groups o) (prefill_seq_groups o ++ [x]) (preempted o) (swapped_out o)
    (blocks_to_swap_out o) (run_blocks_to_copy o) (run_lookahead_slots o).
Definition add_decode (x : ScheduledSequenceGroup) (o : SchedulerRunningOutputs) : SchedulerRunningOutputs :=
  MkRunning (decode_seq_groups o ++ [x]) (prefill_seq_groups o) (preempted o) (swapped_out o)
    (blocks_to_swap_out o) (run_blocks_to_copy o) (run_lookahead_slots o).

(** Process the victim's pending output; whether it is still to be preempted. *)
Definition settle_victim (v : Z) : M t bool :=
  match output_proc_callback with
  | None => mret true
  | Some callback =>
      g ← group v;
      modify (fun s => with_groups (callback (Group.request_id g) (groups s)) s) ;;
      g ← group v;
      if Group.is_finished g then free_finished_seq_group v ;; mret false else mret true
  end.

(** Preempt the group [v], if it is still to be preempted. *)
Definition preempt_victim (v : Z) : M frame unit :=
  do_preempt ← on_sch (settle_victim v);
  if do_preempt : bool then
    '(mode, l) ← on_sch (preempt v);
    mod_run (add_swap_blocks l) ;;
    mod_run (match mode with RECOMPUTE => add_preempted v | SWAP => add_swapped_out v end)
  else mret tt.

(** The inner [while]: whether its [else] branch runs. *)
Fixpoint make_room (fuel : nat) (a : Z) (num_running_tokens : Z) (enable_chunking : bool) : M frame bool :=
  match fuel with
  | O => raise OutOfFuel
  | Datatypes.S fuel' =>
      ok ← on_sch (can_append_slots a enable_chunking);
      if ok : bool then mret true
      else
        g ← on_sch (group a);
        mod_budget (Budget.subtract_num_batched_tokens (Group.request_id g) num_running_tokens) ;;
        mod_budget (Budget.subtract_num_seqs (Group.request_id g) (Group.get_max_num_running_seqs g)) ;;
        remove_lora (Group.lora_int_id g) ;;
        x ← get;
        match last (running (sch x)) with
        | Some v =>
            mod_sch (with_running (removelast (running (sch x)))) ;;
            preempt_victim v ;;
            make_room fuel' a num_running_tokens enable_chunking
        | None => preempt_victim a ;; mret false
        end
  end.

(** The [else] branch: the group stays in the batch. *)
Definition keep_running (a : Z) (num_running_tokens : Z) (enable_chunking : bool) : M frame unit :=
  cows ← on_sch (append_slots a enable_chunking);
  mod_run (add_copies cows) ;;
  g ← on_sch (group a);
  is_prefill ← lift (Group.is_prefill g);
  mod_run (if is_prefill : bool then add_prefill (MkScheduled a num_running_tokens)
           else add_decode (MkScheduled a 1)) ;;
  on_budget (Budget.add_num_batched_tokens (Group.request_id g) num_running_tokens 0) ;;
  (if enable_chunking
   then mod_budget (Budget.add_num_seqs (Group.request_id g) (Group.get_max_num_running_seqs g))
   else mret tt) ;;
  add_lora (Group.lora_int_id g).

(** The group at the head of the queue, which has been popped. *)
Definition running_body (a : Z) (num_running_tokens : Z) (enable_chunking : bool) : M frame unit :=
  g ← on_sch (group a);
  q ← lift (Group.first_seq g);
  if use_async_output_proc && (max_model_len cfg <? Seq.get_len q) then
    mod_sch (fun s => with_async_stopped (async_stopped s ++ [a]) s)
  else
    x ← get;
    ok ← make_room (Datatypes.S (length (running (sch x)))) a num_running_tokens enable_chunking;
    if ok : bool then keep_running a num_running_tokens enable_chunking else mret tt.

Fixpoint running_loop (fuel : nat) (enable_chunking : bool) (meta : option Partial.t) : M frame unit :=
  match fuel with
  | O => raise OutOfFuel
  | Datatypes.S fuel' =>
      x ← get;
      match running (sch x) with
      | [] => mret tt
      | a :: rest =>
          n ← on_sch (get_num_new_uncached_and_cached_tokens a RUNNING enable_chunking (budget x) meta);
          let num_running_tokens := n.1 in
          if num_running_tokens =? 0 then mret tt
          else
            mod_sch (with_running rest) ;;
            running_body a num_running_tokens enable_chunking ;;
            running_loop fuel' enable_chunking meta
      end
  end.

Definition schedule_running (enable_chunking : bool) : M frame unit :=
  mod_run (fun _ => empty_running (get_num_lookahead_slots false enable_chunking)) ;;
  x ← get;
  assert_ (Nat.eqb (length (async_stopped (sch x))) 0) ;;
  running_loop (Datatypes.S (length (running (sch x)))) enable_chunking (partial x).

(** *** [_schedule_swapped] and [_schedule_prefills] *)

(** Whether the group's LoRA does not fit into the batch. *)
Definition lora_blocked (lora_int_id : Z) (loras : option (gset Z)) : result bool :=
  match max_loras cache with
  | None => Ok false
  | Some n =>
      l ← from_option_exn AssertionError loras;
      Ok ((0 <? lora_int_id) && negb (bool_decide (lora_int_id ∈ l)) && (n <=? Z.of_nat (size l)))
  end.

(** [lora_int_id] of the loop bodies. *)
Definition batch_lora (g : Group.t) : Z := if lora_enabled then Group.lora_int_id g else 0.

(** No new tokens, or no budget for them. *)
Definition over_budget (num_new_tokens num_new_seqs : Z) (b : Budget.t) : result bool :=
  if num_new_tokens =? 0 then Ok true
  else negb <$> Budget.can_schedule num_new_tokens num_new_seqs b.

(** What becomes of the group at the head of a queue: the loop ends there, or
    the group has been set aside, or it has been dealt with. *)
Inductive verdict : Type := Stop | Later | Done.

Definition mod_swp (f : SchedulerSwappedInOutputs -> SchedulerSwappedInOutputs) : M frame unit :=
  modify (fun x => with_swp (f (swp x)) x).
Definition add_infeasible (a : Z) (o : SchedulerSwappedInOutputs) : SchedulerSwappedInOutputs :=
  MkSwappedIn (in_decode_seq_groups o) (in_prefill_seq_groups o) (blocks_to_swap_in o)
    (in_blocks_to_copy o) (infeasible_seq_groups o ++ [a]).
Definition add_swapped_in (is_prefill : bool) (x : ScheduledSequenceGroup) (swaps cows : list (Z * Z))
    (o : SchedulerSwappedInOutputs) : SchedulerSwappedInOutputs :=
  MkSwappedIn (if is_prefill then in_decode_seq_groups o else in_decode_seq_groups o ++ [x])
    (if is_prefill then in_prefill_seq_groups o ++ [x] else in_prefill_seq_groups o)
    (blocks_to_swap_in o ++ swaps) (in_blocks_to_copy o ++ cows) (infeasible_seq_groups o).

Definition pop_swapped : M frame unit := mod_sch (fun s => with_swapped (tail (swapped s)) s).
Definition pop_waiting : M frame unit := mod_sch (fun s => with_waiting (tail (waiting s)) s).

Definition swapped_step (a : Z) (enable_chunking : bool) : M frame verdict :=
  g ← on_sch (group a);
  is_prefill ← lift (Group.is_prefill g);
  alloc_status ← on_sch (on_manager
    (can_swap_in (view g) (get_num_lookahead_slots is_prefill enable_chunking)));
  match alloc_status with
  | LATER => mret Stop
  | NEVER =>
      on_sch (set_status a (fun _ => true) FINISHED_IGNORED) ;;
      mod_swp (add_infeasible a) ;;
      pop_swapped ;;
      mret Done
  | OK =>
      x ← get;
      blocked ← lift (lora_blocked (Group.lora_int_id g) (curr_loras x));
      if blocked : bool then pop_swapped ;; mret Later
      else
        let num_new_seqs := Group.get_max_num_running_seqs g in
        n ← on_sch (get_num_new_uncached_and_cached_tokens a SWAPPED enable_chunking (budget x) None);
        over ← lift (over_budget n.1 num_new_seqs (budget x));
        if over : bool then mret Stop
        else
          add_lora (batch_lora g) ;;
          pop_swapped ;;
          swaps ← on_sch (swap_in a);
          cows ← on_sch (append_slots a enable_chunking);
          mod_swp (add_swapped_in is_prefill
            (MkScheduled a (if is_prefill then n.1 + n.2 else 1)) swaps cows) ;;
          on_budget (Budget.add_num_batched_tokens (Group.request_id g) n.1 n.2) ;;
          mod_budget (Budget.add_num_seqs (Group.request_id g) num_new_seqs) ;;
          mret Done
  end.

(** [leftover_swapped], the last one first. *)
Fixpoint swapped_loop (fuel : nat) (enable_chunking : bool) (leftover : list Z) : M frame (list Z) :=
  match fuel with
  | O => raise OutOfFuel
  | Datatypes.S fuel' =>
      x ← get;
      match swapped (sch x) with
      | [] => mret leftover
      | a :: _ =>
          v ← swapped_step a enable_chunking;
          match v with
          | Stop => mret leftover
          | Later => swapped_loop fuel' enable_chunking (a :: leftover)
          | Done => swapped_loop fuel' enable_chunking leftover
          end
      end
  end.

Definition schedule_swapped (enable_chunking : bool) : M frame unit :=
  mod_swp (fun _ => empty_swapped_in) ;;
  x ← get;
  leftover ← swapped_loop (Datatypes.S (length (swapped (sch x)))) enable_chunking [];
  mod_sch (fun s => with_swapped (rev leftover ++ swapped s) s).

Definition mod_pre (f : SchedulerPrefillOutputs -> SchedulerPrefillOutputs) : M frame unit :=
  modify (fun x => with_pre (f (pre x)) x).
Definition add_ignored (a : Z) (o : SchedulerPrefillOutputs) : SchedulerPrefillOutputs :=
  MkPrefill (seq_groups o) (ignored_seq_groups o ++ [a]).
Definition add_prefilled (x : ScheduledSequenceGroup) (o : SchedulerPrefillOutputs) : SchedulerPrefillOutputs :=
  MkPrefill (seq_groups o ++ [x]) (ignored_seq_groups o).

(** The prompt is refused. *)
Definition ignore_waiting (a : Z) (waiting_seqs : list Seq.t) : M frame verdict :=
  on_sch (set_status a (one_of waiting_seqs) FINISHED_IGNORED) ;;
  mod_pre (add_ignored a) ;;
  pop_waiting ;;
  mret Done.

(** The group is taken into the batch. *)
Definition admit_group (a : Z) (g : Group.t) (uncached cached slots num_new_seqs : Z)
    (enable_chunking : bool) : M frame verdict :=
  add_lora (batch_lora g) ;;
  pop_waiting ;;
  on_sch (allocate_and_set_running a) ;;
  g ← on_sch (group a);
  x ← get;
  match partial x with
  | None => mret tt
  | Some m =>
      m' ← lift (Partial.maybe_increment_partial_prefills cfg g m);
      modify (with_partial (Some m'))
  end ;;
  (if enable_chunking && is_multi_step cfg then
     cows ← on_sch (append_slots a enable_chunking);
     assert_ (bool_decide (cows = []))
   else
     on_sch (on_group a (Group.init_multi_step_from_lookahead_slots slots (num_scheduler_steps cfg)
       (is_multi_step cfg) enable_chunking))) ;;
  mod_pre (add_prefilled (MkScheduled a (uncached + cached))) ;;
  on_budget (Budget.add_num_batched_tokens (Group.request_id g) uncached cached) ;;
  mod_budget (Budget.add_num_seqs (Group.request_id g) num_new_seqs) ;;
  mret Done.

Definition waiting_step (a : Z) (enable_chunking : bool) : M frame verdict :=
  g ← on_sch (group a);
  let waiting_seqs := Group.get_seqs (Some WAITING) g in
  assert_ (Nat.eqb (length waiting_seqs) 1) ;;
  x ← get;
  short ← lift (match partial x with
                | None => Ok true
                | Some m => Partial.can_schedule cfg g m
                end);
  if negb short then pop_waiting ;; mret Later
  else
    n ← on_sch (get_num_new_uncached_and_cached_tokens a WAITING enable_chunking (budget x) (partial x));
    let num_new_tokens := n.1 + n.2 in
    (if enable_chunking then mret tt
     else
       q ← lift (from_option_exn IndexError (head waiting_seqs));
       assert_ (num_new_tokens =? Seq.get_len q)) ;;
    prompt_limit ← lift (get_prompt_limit g);
    if prompt_limit <? num_new_tokens then ignore_waiting a waiting_seqs
    else
      let slots := if is_multi_step cfg && enable_chunking
                   then get_num_lookahead_slots true enable_chunking else 0 in
      x ← get;
      can_allocate ← lift (BlockSpaceManager.can_allocate (view g) slots (manager (sch x)));
      match can_allocate with
      | LATER => mret Stop
      | NEVER => ignore_waiting a waiting_seqs
      | OK =>
          blocked ← lift (lora_blocked (Group.lora_int_id g) (curr_loras x));
          if blocked : bool then pop_waiting ;; mret Later
          else if max_num_batched_tokens cfg <=? Budget.num_batched_tokens (budget x) then mret Stop
          else
            let num_new_seqs := Group.get_max_num_running_seqs g in
            over ← lift (over_budget n.1 num_new_seqs (budget x));
            if over : bool then mret Stop
            else admit_group a g n.1 n.2 slots num_new_seqs enable_chunking
      end.

Fixpoint arrival_times (l : list Z) : M t (list Q) :=
  match l with
  | [] => mret []
  | a :: l' => g ← group a; ts ← arrival_times l'; mret (Group.arrival_time g :: ts)
  end.

Definition passed_delay (now : Q) : M t bool :=
  s ← get;
  let latency := if prev_prompt s then (now - prev_time s)%Q else last_prompt_latency s in
  modify (with_prompt now false latency) ;;
  if Qltb 0 (delay_factor cfg) && negb (Nat.eqb (length (waiting s)) 0) then
    ts ← arrival_times (waiting s);
    earliest ← lift (from_option_exn ValueError (py_min (fun q => [q]) ts));
    mret (Qltb (delay_factor cfg * latency) (now - earliest) || Nat.eqb (length (running s)) 0)
  else mret true.

(** [i]: the number of rounds so far, which the clock's reading depends on. *)
Fixpoint waiting_loop (fuel : nat) (i : nat) (enable_chunking : bool) (leftover : list Z) : M frame (list Z) :=
  match fuel with
  | O => raise OutOfFuel
  | Datatypes.S fuel' =>
      passed ← on_sch (passed_delay (time i));
      x ← get;
      match waiting (sch x) with
      | a :: _ =>
          if passed : bool then
            v ← waiting_step a enable_chunking;
            match v with
            | Stop => mret leftover
            | Later => waiting_loop fuel' (Datatypes.S i) enable_chunking (a :: leftover)
            | Done => waiting_loop fuel' (Datatypes.S i) enable_chunking leftover
            end
          else mret leftover
      | [] => mret leftover
      end
  end.

Definition schedule_prefills (enable_chunking : bool) : M frame unit :=
  mod_pre (fun _ => empty_prefill) ;;
  x ← get;
  if Budget.remaining_token_budget (budget x) =? 0 then mret tt
  else
    leftover ← waiting_loop (Datatypes.S (length (waiting (sch x)))) 0 enable_chunking [];
    mod_sch (fun s => with_waiting (rev leftover ++ waiting s) s) ;;
    x ← get;
    if Nat.eqb (length (seq_groups (pre x))) 0 then mret tt
    else mod_sch (fun s => with_prompt (prev_time s) true (last_prompt_latency s) s).

(** *** [_schedule_priority_preemption] *)

Definition get_priority (g : Group.t) : key := [inject_Z (Group.priority g); Group.arrival_time g].
Definition priority_of (s : t) (a : Z) : key := from_option get_priority [] (groups s !! a).

(** The loop: [running_queue] is a sorted copy, [waiting] is changed in place.
    The blocks that [_preempt] swaps out are recorded in a list of its own, which
    is dropped. *)
Fixpoint priority_loop (fuel : nat) (a : Z) (num_new_tokens num_new_seqs : Z)
    (running_queue : list Z) (count : Z) : M frame (list Z * Z) :=
  match fuel with
  | O => raise OutOfFuel
  | Datatypes.S fuel' =>
      g ← on_sch (group a);
      match last running_queue with
      | None => mret (running_queue, count)
      | Some v =>
          vg ← on_sch (group v);
          if key_ltb (get_priority g) (get_priority vg) then
            x ← get;
            can_allocate ← lift (BlockSpaceManager.can_allocate (view g) 0 (manager (sch x)));
            fits ← lift (if (0 <? num_new_tokens) && bool_decide (can_allocate = OK)
                         then Budget.can_schedule num_new_tokens num_new_seqs (budget x) else Ok false);
            if fits : bool then mret (running_queue, count)
            else
              n ← on_sch (get_num_new_uncached_and_cached_tokens v RUNNING false (budget x) None);
              mod_budget (Budget.subtract_num_batched_tokens (Group.request_id vg) n.1) ;;
              vg ← on_sch (group v);
              mod_budget (Budget.subtract_num_seqs (Group.request_id vg)
                (Group.get_max_num_running_seqs vg)) ;;
              on_sch (preempt v) ;;
              mod_sch (fun s => with_waiting (v :: waiting s) s) ;;
              priority_loop fuel' a num_new_tokens num_new_seqs (removelast running_queue) (count + 1)
          else mret (running_queue, count)
      end
  end.

Definition schedule_priority_preemption : M frame Z :=
  x ← get;
  let running_queue := py_sorted (priority_of (sch x)) (running (sch x)) in
  '(running_queue, count) ←
    (match waiting (sch x) with
     | [] => mret (running_queue, 0)
     | a :: _ =>
         pop_waiting ;;
         g ← on_sch (group a);
         let num_new_seqs := Group.get_max_num_running_seqs g in
         n ← on_sch (get_num_new_uncached_and_cached_tokens a WAITING false (budget x) None);
         res ← priority_loop (Datatypes.S (length running_queue)) a n.1 num_new_seqs running_queue 0;
         mod_sch (fun s => with_waiting (a :: waiting s) s) ;;
         mret res
     end);
  mod_sch (fun s => with_waiting (py_sorted (priority_of s) (waiting s)) s) ;;
  mod_sch (with_running running_queue) ;;
  mret count.

(** *** [SchedulerOutputs.__post_init__] *)

Definition string_key (x : string) : key :=
  map (fun c => inject_Z (Z.of_N (Ascii.N_of_ascii c))) (String.list_ascii_of_string x).

(** The key of [_sort_by_lora_ids]. *)
Definition lora_key (s : t) (mixed : bool) (x : ScheduledSequenceGroup) : key :=
  match groups s !! seq_group x with
  | None => []
  | Some g =>
      (if mixed
       then [inject_Z (match Group.is_prefill g with Ok true => 0 | _ => 1 end)] else [])
      ++ inject_Z (Group.lora_int_id g) :: string_key (Group.request_id g)
  end.

Definition has_lora (s : t) (x : ScheduledSequenceGroup) : bool :=
  match groups s !! seq_group x with Some g => 0 <? Group.lora_int_id g | None => false end.

Definition nonempty {A} (l : list A) : bool := negb (Nat.eqb (length l) 0).

Definition post_init (o : SchedulerOutputs) (s : t) : result SchedulerOutputs :=
  if nonempty (out_blocks_to_swap_in o) && nonempty (out_blocks_to_swap_out o) then Err AssertionError
  else if existsb (has_lora s) (scheduled_seq_groups o) then
    let n := Z.of_nat (length (scheduled_seq_groups o)) in
    if (0 <=? num_prefill_groups o) && (num_prefill_groups o <=? n) then
      let mixed := (0 <? num_prefill_groups o) && (num_prefill_groups o <? n) in
      Ok (MkOutputs (py_sorted (lora_key s mixed) (scheduled_seq_groups o)) (num_prefill_groups o)
            (out_num_batched_tokens o) (out_blocks_to_swap_in o) (out_blocks_to_swap_out o)
            (blocks_to_copy o) (out_ignored_seq_groups o) (out_num_lookahead_slots o)
            (running_queue_size o) (out_preempted o))
    else Err AssertionError
  else Ok o.

Definition is_empty (o : SchedulerOutputs) : bool :=
  negb (nonempty (scheduled_seq_groups o)) && negb (nonempty (out_blocks_to_swap_in o))
  && negb (nonempty (out_blocks_to_swap_out o)) && negb (nonempty (blocks_to_copy o)).
(** *** [_schedule] *)

Definition new_budget : Budget.t := Budget.init (max_num_batched_tokens cfg) (max_num_seqs cfg).

(** Run the body of a scheduling policy on a new frame. *)
Definition with_frame {A} (b : Budget.t) (loras : option (gset Z)) (meta : option Partial.t)
    (f : M frame A) : M t A := fun s =>
  let '(r, x) := f (Frame s b loras meta (empty_running 0) empty_swapped_in empty_prefill) in
  (r, sch x).

Fixpoint all_groups (l : list Z) : M t (list Group.t) :=
  match l with
  | [] => mret []
  | a :: l' => g ← group a; gs ← all_groups l'; mret (g :: gs)
  end.

Definition count_seqs (l : list Group.t) (b : Budget.t) : Budget.t :=
  foldl (fun b g => Budget.add_num_seqs (Group.request_id g) (Group.get_max_num_running_seqs g) b) b l.

Definition lora_ids (l : list Group.t) : gset Z :=
  list_to_set (List.filter (Z.ltb 0) (map Group.lora_int_id l)).

Definition num_preempted (o : SchedulerRunningOutputs) : Z :=
  Z.of_nat (length (preempted o)) + Z.of_nat (length (swapped_out o)).

(** The assertions on the budget at the end of a step. *)
Definition check_budget : M frame unit :=
  x ← get;
  assert_ (Budget.num_batched_tokens (budget x) <=? max_num_batched_tokens cfg) ;;
  assert_ (Budget.num_curr_seqs (budget x) <=? max_num_seqs cfg).

(** The three parts of [_schedule_default]. *)
Definition default_parts : M frame unit :=
  x ← get;
  (if nonempty (swapped (sch x)) then mret tt else schedule_prefills false) ;;
  x ← get;
  if nonempty (seq_groups (pre x)) then mret tt
  else
    (if String.eqb (policy cfg) "priority" then schedule_priority_preemption ;; mret tt else mret tt) ;;
    schedule_running false ;;
    x ← get;
    if num_preempted (run x) =? 0 then schedule_swapped false else mret tt.

(** The queues and the outputs of [_schedule_default]. *)
Definition default_outputs : M frame SchedulerOutputs :=
  check_budget ;;
  x ← get;
  let prefills := map seq_group (seq_groups (pre x)) in
  mod_sch (fun s => with_waiting (rev (preempted (run x)) ++ waiting s) s) ;;
  mod_sch (fun s => with_running (running s ++ prefills
    ++ map seq_group (decode_seq_groups (run x))
    ++ map seq_group (in_decode_seq_groups (swp x))) s) ;;
  mod_sch (fun s => with_swapped (swapped s ++ swapped_out (run x)) s) ;;
  assert_ (Nat.eqb (length (prefill_seq_groups (run x))) 0) ;;
  assert_ (Nat.eqb (length (in_prefill_seq_groups (swp x))) 0) ;;
  x ← get;
  lift (post_init (MkOutputs
    (seq_groups (pre x) ++ decode_seq_groups (run x) ++ in_decode_seq_groups (swp x))
    (Z.of_nat (length (seq_groups (pre x))))
    (Budget.num_batched_tokens (budget x) + Budget.num_cached_tokens (budget x))
    (blocks_to_swap_in (swp x)) (blocks_to_swap_out (run x))
    (run_blocks_to_copy (run x) ++ in_blocks_to_copy (swp x))
    (ignored_seq_groups (pre x) ++ infeasible_seq_groups (swp x))
    (run_lookahead_slots (run x)) (Z.of_nat (length (running (sch x)))) (num_preempted (run x)))
    (sch x)).

Definition schedule_default : M t SchedulerOutputs :=
  s ← get;
  l ← all_groups (running s);
  with_frame (count_seqs l new_budget) (if lora_enabled then Some (lora_ids l) else None) None
    (default_parts ;; default_outputs).

(** [_order_finishing_prefills_first] *)
Definition finishes (s : t) (x : ScheduledSequenceGroup) : bool :=
  match groups s !! seq_group x with
  | Some g => Group.get_num_uncomputed_tokens g =? token_chunk_size x
  | None => false
  end.
Definition order_finishing_prefills_first (l : list ScheduledSequenceGroup) (s : t) : list Z :=
  map seq_group (List.filter (finishes s) l) ++
  map seq_group (List.filter (fun x => negb (finishes s x)) l).

Definition chunked_parts : M frame unit :=
  schedule_running true ;;
  x ← get;
  (if num_preempted (run x) =? 0 then schedule_swapped false else mret tt) ;;
  schedule_prefills true.

Definition chunked_outputs : M frame SchedulerOutputs :=
  check_budget ;;
  x ← get;
  mod_sch (fun s => with_waiting (rev (preempted (run x)) ++ waiting s) s) ;;
  mod_sch (fun s => with_running (running s
    ++ map seq_group (in_decode_seq_groups (swp x)) ++ map seq_group (in_prefill_seq_groups (swp x))
    ++ map seq_group (decode_seq_groups (run x))
    ++ order_finishing_prefills_first (prefill_seq_groups (run x)) s
    ++ map seq_group (seq_groups (pre x))) s) ;;
  mod_sch (fun s => with_swapped (swapped s ++ swapped_out (run x)) s) ;;
  x ← get;
  let scheduled := seq_groups (pre x) ++ prefill_seq_groups (run x) ++ in_prefill_seq_groups (swp x)
                   ++ decode_seq_groups (run x) ++ in_decode_seq_groups (swp x) in
  let num_prefill_groups := Z.of_nat (length (seq_groups (pre x)))
    + Z.of_nat (length (in_prefill_seq_groups (swp x)))
    + Z.of_nat (length (prefill_seq_groups (run x))) in
  let all_prefills := Z.of_nat (length scheduled) =? num_prefill_groups in
  lift (post_init (MkOutputs scheduled num_prefill_groups
    (Budget.num_batched_tokens (budget x) + Budget.num_cached_tokens (budget x))
    (blocks_to_swap_in (swp x)) (blocks_to_swap_out (run x))
    (run_blocks_to_copy (run x) ++ in_blocks_to_copy (swp x))
    (ignored_seq_groups (pre x) ++ infeasible_seq_groups (swp x))
    (if all_prefills && negb (is_multi_step cfg) then 0 else run_lookahead_slots (run x))
    (Z.of_nat (length (running (sch x)))) (num_preempted (run x))) (sch x)).

Definition schedule_chunked_prefill : M t SchedulerOutputs :=
  s ← get;
  run ← all_groups (running s);
  wait ← all_groups (waiting s);
  meta ← lift (Partial.from_queues cfg run wait);
  with_frame new_budget (Some ∅) (Some meta) (chunked_parts ;; chunked_outputs).

(** [_schedule] *)
Definition schedule_queues : M t SchedulerOutputs :=
  if chunked_prefill_enabled cfg then schedule_chunked_prefill else schedule_default.

(** ** [schedule]: the step with the metadata for the workers *)

(** The loop over the group's running sequences. *)
Fixpoint seq_inputs (l : list Seq.t) (now : Q) (data : pydict Z SequenceData.t)
    (tables : pydict Z (option (list Z)))
    : M t (pydict Z SequenceData.t * pydict Z (option (list Z))) :=
  match l with
  | [] => mret (data, tables)
  | q :: l' =>
      s ← get;
      table ← lift (get_block_table (Seq.view hash_pair q) (manager s));
      on_manager (access_all_blocks_in_seq (Seq.view hash_pair q) now) ;;
      seq_inputs l' now (<[Seq.seq_id q := Seq.data q]> data) (<[Seq.seq_id q := table]> tables)
  end.

(** [is_first_prefill] and [do_sample] *)
Definition prompt_flags (g : Group.t) (is_prompt : bool) (chunk : Z) : result (bool * bool) :=
  if is_prompt then
    match Group.seqs g with
    | [q] =>
        let num_computed := Seq.get_num_computed_tokens q in
        Ok (num_computed =? 0, negb (chunk + num_computed <? Seq.get_len q))
    | _ => Err AssertionError
    end
  else Ok (false, true).

(** [get_delta_and_reset] of every sequence of the dictionary. *)
Fixpoint take_deltas (a : Z) (l : list (Z * SequenceData.t)) (m : pydict Z SequenceData.delta)
    : M t (pydict Z SequenceData.delta) :=
  match l with
  | [] => mret m
  | (i, d) :: l' =>
      on_group a (modify (Group.update_seqs (fun q => Seq.seq_id q =? i)
        (fun q => Seq.with_data (SequenceData.get_delta_and_reset (Seq.data q)).2 q))) ;;
      take_deltas a l' (<[i := (SequenceData.get_delta_and_reset d).1]> m)
  end.

Definition group_metadata (x : ScheduledSequenceGroup) (now : Q) : M t metadata :=
  let a := seq_group x in
  g ← group a;
  s ← get;
  cross ← lift (if Group.is_encoder_decoder g
                then Some <$> get_cross_block_table (view g) (manager s) else Ok None);
  let running_seqs := Group.get_seqs (Some RUNNING) g in
  '(data, tables) ← seq_inputs running_seqs now ∅ ∅;
  common ← (if enable_prefix_caching cache
            then on_manager (get_common_computed_block_ids (map (Seq.view hash_pair) running_seqs))
            else mret []);
  is_prompt ← lift (Group.is_prefill g);
  '(is_first_prefill, do_sample) ← lift (prompt_flags g is_prompt (token_chunk_size x));
  if is_first_prefill || negb (send_delta_data cfg) then
    mret (SequenceGroupMetadata (Group.request_id g) is_prompt data tables do_sample
      (token_chunk_size x) common (Seq.data <$> Group.encoder_seq g) cross
      (Group.num_steps g) (Group.current_step g))
  else
    deltas ← take_deltas a (items data) ∅;
    mret (SequenceGroupMetadataDelta deltas (Group.request_id g) tables is_prompt do_sample
      (token_chunk_size x) common).

(** [_allow_async_output_proc] *)
Definition allow_async (a : Z) : M t bool :=
  g ← group a;
  mret (match Group.sampling_n g with None => true | Some n => n =? 1 end).

Fixpoint all_metadata (l : list ScheduledSequenceGroup) (now : Q) (allow : bool)
    : M t (list metadata * bool) :=
  match l with
  | [] => mret ([], allow)
  | x :: l' =>
      md ← group_metadata x now;
      allow ← (if allow : bool then allow_async (seq_group x) else mret false);
      rest ← all_metadata l' now allow;
      mret (md :: rest.1, rest.2)
  end.

(** [now]: the clock after [_schedule]. *)
Definition schedule (now : Q) : M t (list metadata * SchedulerOutputs * bool) :=
  outputs ← schedule_queues;
  res ← all_metadata (scheduled_seq_groups outputs) now use_async_output_proc;
  for_each (scheduled_seq_groups outputs) (fun x =>
    g ← group (seq_group x);
    on_manager (mark_blocks_as_computed (view g) (token_chunk_size x))) ;;
  mret (res.1, outputs, res.2).
End Scheduler.
End V0Scheduler.
