(* ===== verification/V0SchedulerCorrect.v ===== *)
(** * What a step of the v0 scheduler keeps

    The lemmas follow the scheduler's routines once, for any block manager, and
    say what a routine does to the queues when it returns, and which exceptions it
    may raise: those of the set [E].  With all exceptions in [E] this is partial
    correctness; with all but [OutOfFuel], it is termination.  Both are used at
    the end.  With asynchronous output processing a step sets groups aside:
    those that have reached the length limit are stopped, and victims of a
    preemption whose pending output finishes them are dropped. *)
From S2P Require Import Prelude.
From S2P Require Import PyDict.
From S2P Require Import BlockInterfaces.
From S2P Require Import BlockManager.
From S2P Require Import V0Sequence.
From S2P Require Import V0Budget.
From S2P Require Import BlockSpaceManager.
From S2P Require Import V0Scheduler.

(** The manager raises only exceptions of [E]. *)
Class ManagerErrors (E : exn -> Prop) (B : Type) `{!BlockSpaceManager B} : Prop := {
  me_can_allocate : forall g n b e, can_allocate g n b = Err e -> E e;
  me_allocate : forall g b, ends E (allocate g) b (fun _ _ => True);
  me_can_append : forall g n b e, BlockSpaceManager.can_append_slots g n b = Err e -> E e;
  me_append : forall q n b, ends E (BlockSpaceManager.append_slots q n) b (fun _ _ => True);
  me_can_swap_in : forall g n b, ends E (can_swap_in g n) b (fun _ _ => True);
  me_swap_in : forall g b, ends E (BlockSpaceManager.swap_in g) b (fun _ _ => True);
  me_can_swap_out : forall g b, ends E (can_swap_out g) b (fun _ _ => True);
  me_swap_out : forall g b, ends E (BlockSpaceManager.swap_out g) b (fun _ _ => True);
  me_free : forall q b, ends E (free q) b (fun _ _ => True);
  me_free_cross : forall g b, ends E (free_cross g) b (fun _ _ => True);
  me_cached_tokens : forall q b, ends E (get_num_cached_tokens q) b (fun _ _ => True);
  me_block_table : forall q b e, get_block_table q b = Err e -> E e;
  me_cross_table : forall g b e, get_cross_block_table g b = Err e -> E e;
  me_access : forall q now b, ends E (access_all_blocks_in_seq q now) b (fun _ _ => True);
  me_common : forall l b, ends E (get_common_computed_block_ids l) b (fun _ _ => True);
  me_mark : forall g n b, ends E (mark_blocks_as_computed g n) b (fun _ _ => True)
}.

Create HintDb calm discriminated.
#[local] Hint Constants Opaque : calm.

Section Correct.
Context {B : Type} `{!BlockSpaceManager B}.
Variable hash_pair : Z * Z -> Z.
Variable cfg : SchedulerConfig.
Variable cache : CacheConfig.
Variable time : nat -> Q.
Variable callback : option (string -> gmap Z Group.t -> gmap Z Group.t).
Variable E : exn -> Prop.
Hypothesis E_other : forall e, e <> OutOfFuel -> E e.
Context `{!ManagerErrors E B}.
Import V0Scheduler.

Implicit Types (s : V0Scheduler.t (B := B)) (x : V0Scheduler.frame (B := B)) (v : Z) (g : Group.t).

(** ** Calls that leave the queues alone *)

Definition queues s : list Z * list Z * list Z * list Z :=
  (waiting s, running s, swapped s, async_stopped s).

Definition calm {A} (m : M t A) : Prop := forall s, ends E m s (fun _ s' => queues s' = queues s).
Definition fine {A} (r : result A) : Prop := forall e, r = Err e -> E e.

Lemma fine_ok {A} (r : A) : fine (Ok r).
Proof. by intros e. Qed.
Lemma fine_err {A} e : e <> OutOfFuel -> @fine A (Err e).
Proof. intros He e' [= <-]. by apply E_other. Qed.
Lemma fine_exn {A} e (o : option A) : e <> OutOfFuel -> fine (from_option_exn e o).
Proof. intros He. destruct o; [apply fine_ok|by apply fine_err]. Qed.
Lemma fine_bind {A C} (r : result A) (f : A -> result C) :
  fine r -> (forall a, fine (f a)) -> fine (r ≫= f).
Proof. destruct r as [a|e]; [intros _ Hf; apply Hf|intros H _ e' [= <-]; by apply H]. Qed.
Lemma fine_fmap {A C} (r : result A) (f : A -> C) : fine r -> fine (f <$> r).
Proof. destruct r as [a|e]; [intros _; apply fine_ok|intros H e' [= <-]; by apply H]. Qed.

Lemma calm_ret {A} (a : A) : calm (mret a).
Proof. by intros s. Qed.
Lemma calm_raise {A} e : e <> OutOfFuel -> @calm A (raise e).
Proof. intros He s. by apply E_other. Qed.
Lemma calm_gets {A} (f : t -> A) : calm (gets f).
Proof. by intros s. Qed.
Lemma calm_lift {A} (r : result A) : fine r -> calm (lift r).
Proof. intros Hr s. unfold ends, lift. destruct r; [done|by apply Hr]. Qed.
Lemma calm_assert i : calm (assert_ i).
Proof. intros s. destruct i; [done|by apply E_other]. Qed.
Lemma calm_bind {A C} (m : M t A) (f : A -> M t C) :
  calm m -> (forall a, calm (f a)) -> calm (m ≫= f).
Proof.
  intros Hm Hf s. eapply ends_bind; [apply Hm|]. intros a s1 H1.
  eapply ends_weaken; [apply Hf|]. intros c s2 H2. by rewrite H2.
Qed.
Lemma calm_get_bind {A} (f : t -> M t A) : (forall s, calm (f s)) -> calm (get ≫= f).
Proof. intros Hf s. by apply ends_get, Hf. Qed.
Lemma calm_for_each {A} (l : list A) body : (forall y, calm (body y)) -> calm (for_each l body).
Proof. intros Hb. induction l as [|y l IH]; cbn [for_each]; [apply calm_ret|by apply calm_bind]. Qed.
Lemma calm_modify f : (forall s, queues (f s) = queues s) -> calm (modify f).
Proof. intros Hf s. apply Hf. Qed.
Lemma calm_group a : calm (group a).
Proof. intros s. unfold ends, group. destruct (groups s !! a); [done|by apply E_other]. Qed.
Lemma calm_on_group {A} a (f : M Group.t A) :
  (forall g, ends E f g (fun _ _ => True)) -> calm (on_group a f).
Proof.
  intros Hf s. unfold ends, on_group. destruct (groups s !! a) as [g|]; [|by apply E_other].
  specialize (Hf g). unfold ends in Hf. by destruct (f g) as [[] ?].
Qed.
Lemma calm_on_manager {A} (f : M B A) : (forall b, ends E f b (fun _ _ => True)) -> calm (on_manager f).
Proof.
  intros Hf s. unfold ends, on_manager. specialize (Hf (manager s)). unfold ends in Hf.
  by destruct (f (manager s)) as [[] ?].
Qed.

#[local] Hint Resolve fine_ok fine_err fine_exn fine_bind fine_fmap calm_ret calm_raise calm_gets
  calm_lift calm_assert calm_for_each calm_group calm_on_manager calm_on_group : calm.
#[local] Hint Extern 1 (_ <> OutOfFuel) => discriminate : calm.

(** Follow the structure of a routine. *)
Ltac calm_step :=
  lazymatch goal with
  | |- calm (get ≫= _) => apply calm_get_bind; intros ?
  | |- calm (_ ≫= _) => apply calm_bind; [|intros ?]
  | |- calm (mret _) => apply calm_ret
  | |- calm (raise _) => apply calm_raise; discriminate
  | |- calm (lift _) => apply calm_lift
  | |- calm (assert_ _) => apply calm_assert
  | |- calm (modify _) => apply calm_modify; by intros ?
  | |- calm (for_each _ _) => apply calm_for_each; intros ?
  | |- calm (match ?y with _ => _ end) => destruct y eqn:?
  | |- fine (match ?y with _ => _ end) => destruct y eqn:?
  | |- fine (_ ≫= _) => apply fine_bind; [|intros ?]
  | |- fine (_ <$> _) => apply fine_fmap
  | |- fine (Ok _) => apply fine_ok
  | |- fine (Err _) => apply fine_err; discriminate
  | |- fine (from_option_exn _ _) => apply fine_exn; discriminate
  | |- _ => solve [auto 2 with calm nocore]
  end.
Ltac calmly := repeat (cbv zeta; calm_step).

Lemma calm_set_status a p st : calm (set_status a p st).
Proof. apply calm_on_group. by intros g. Qed.
#[local] Hint Resolve calm_set_status : calm.

Lemma calm_on_group_modify a f : calm (on_group a (modify f)).
Proof. apply calm_on_group. by intros g. Qed.
#[local] Hint Resolve calm_on_group_modify : calm.

Lemma calm_free_seq q : calm (free_seq hash_pair q).
Proof. apply calm_on_manager, me_free. Qed.
#[local] Hint Resolve calm_free_seq : calm.

Lemma calm_free_cross a : calm (free_cross_attn_blocks hash_pair a).
Proof. unfold free_cross_attn_blocks. calmly. apply calm_on_manager, me_free_cross. Qed.
#[local] Hint Resolve calm_free_cross : calm.

Lemma fine_first_seq g : fine (Group.first_seq g).
Proof. unfold Group.first_seq. calmly. Qed.
#[local] Hint Resolve fine_first_seq : calm.

Lemma fine_is_prefill g : fine (Group.is_prefill g).
Proof. unfold Group.is_prefill. calmly. Qed.
#[local] Hint Resolve fine_is_prefill : calm.

Lemma fine_prompt_limit g : fine (get_prompt_limit cfg g).
Proof. unfold get_prompt_limit. calmly. Qed.
#[local] Hint Resolve fine_prompt_limit : calm.

Lemma fine_chunk bud n m meta : fine (chunk_new_tokens_to_schedule cfg cache bud n m meta).
Proof.
  unfold chunk_new_tokens_to_schedule. calmly. unfold py_index. calmly.
Qed.
#[local] Hint Resolve fine_chunk : calm.

Lemma calm_new_tokens_of_seq q : calm (new_tokens_of_seq hash_pair cfg cache q).
Proof. unfold new_tokens_of_seq. calmly. apply calm_on_manager, me_cached_tokens. Qed.
#[local] Hint Resolve calm_new_tokens_of_seq : calm.

Lemma calm_new_tokens_of_seqs l : calm (new_tokens_of_seqs hash_pair cfg cache l).
Proof. induction l as [|q l IH]; cbn [new_tokens_of_seqs]; calmly. Qed.
#[local] Hint Resolve calm_new_tokens_of_seqs : calm.

Lemma calm_new_tokens a st c bud meta :
  calm (get_num_new_uncached_and_cached_tokens hash_pair cfg cache a st c bud meta).
Proof. unfold get_num_new_uncached_and_cached_tokens. calmly. Qed.
#[local] Hint Resolve calm_new_tokens : calm.

Lemma calm_can_append a c : calm (can_append_slots hash_pair cfg a c).
Proof. unfold can_append_slots. calmly. intros e. apply me_can_append. Qed.
#[local] Hint Resolve calm_can_append : calm.

Lemma calm_append_seqs l n : calm (append_seqs hash_pair l n).
Proof. induction l as [|q l IH]; cbn [append_seqs]; calmly. apply calm_on_manager, me_append. Qed.
#[local] Hint Resolve calm_append_seqs : calm.

Lemma calm_init_multi_step a n m k c :
  calm (on_group a (Group.init_multi_step_from_lookahead_slots n m k c)).
Proof.
  apply calm_on_group. intros g. unfold Group.init_multi_step_from_lookahead_slots.
  destruct k; cbn [negb]; [|done]. apply ends_get.
  apply ends_lift; [apply fine_is_prefill|]. intros p _. destruct (p && c).
  - apply ends_assert; [by apply E_other|done].
  - apply ends_assert; [by apply E_other|intros _]. apply ends_assert; [by apply E_other|done].
Qed.
#[local] Hint Resolve calm_init_multi_step : calm.

Lemma calm_append_slots a c : calm (append_slots hash_pair cfg a c).
Proof. unfold append_slots. calmly. Qed.
#[local] Hint Resolve calm_append_slots : calm.

Lemma calm_allocate a : calm (allocate_and_set_running hash_pair a).
Proof. unfold allocate_and_set_running. calmly. apply calm_on_manager, me_allocate. Qed.
#[local] Hint Resolve calm_allocate : calm.

Lemma calm_recompute a : calm (preempt_by_recompute hash_pair a).
Proof. unfold preempt_by_recompute. calmly. Qed.
#[local] Hint Resolve calm_recompute : calm.

Lemma calm_swap_in a : calm (swap_in hash_pair a).
Proof. unfold swap_in, extended. calmly. apply calm_on_manager, me_swap_in. Qed.
#[local] Hint Resolve calm_swap_in : calm.

Lemma calm_swap_out a : calm (swap_out hash_pair a).
Proof.
  unfold swap_out, extended. calmly.
  - apply calm_on_manager, me_can_swap_out.
  - apply calm_on_manager, me_swap_out.
Qed.
#[local] Hint Resolve calm_swap_out : calm.

Lemma calm_preempt a : calm (preempt hash_pair cfg a).
Proof. unfold preempt. calmly. Qed.
#[local] Hint Resolve calm_preempt : calm.

Lemma calm_note_finished a : calm (note_finished a).
Proof. unfold note_finished. calmly. Qed.
#[local] Hint Resolve calm_note_finished : calm.

Lemma calm_free_finished_seqs a : calm (free_finished_seqs hash_pair a).
Proof. unfold free_finished_seqs. calmly. Qed.
#[local] Hint Resolve calm_free_finished_seqs : calm.

Lemma calm_free_finished a : calm (free_finished_seq_group hash_pair a).
Proof. unfold free_finished_seq_group. calmly. Qed.
#[local] Hint Resolve calm_free_finished : calm.

(** ** Asynchronous output processing *)

(** The callback finishes the group [v] when it processes its pending output. *)
Definition finishes_victim (v : Z) : Prop := exists f g g' gs,
  callback = Some f /\ gs !! v = Some g /\ f (Group.request_id g) gs !! v = Some g' /\ Group.is_finished g' = true.

(** The groups [St] that a step may stop, and those, [F], that it may drop. *)
Definition set_aside (St F : list Z) : Prop := (callback = None -> St = []) /\ Forall finishes_victim F.

Lemma set_aside_nil : set_aside [] [].
Proof. split; [done|constructor]. Qed.
Lemma set_aside_app St F St' F' : set_aside St F -> set_aside St' F' -> set_aside (St ++ St') (F ++ F').
Proof.
  intros [H1 H2] [H3 H4]. split; [intros H; by rewrite (H1 H), (H3 H)|by apply Forall_app_2].
Qed.
Lemma set_aside_none St F : set_aside St F -> callback = None -> St = [] /\ F = [].
Proof.
  intros [H1 H2] Hc. split; [by apply H1|]. destruct H2 as [|v F (f & ? & ? & ? & Hf & _)]; [done|congruence].
Qed.

Lemma ends_group {A} a (f : Group.t -> M t A) s (Q : A -> t -> Prop) :
  (forall g, groups s !! a = Some g -> ends E (f g) s Q) -> ends E (group a ≫= f) s Q.
Proof.
  intros Hf. unfold ends. rewrite bind_run. unfold group.
  destruct (groups s !! a) as [g|]; [by apply Hf|by apply E_other].
Qed.

(** A victim is to be preempted, or finished. *)
Lemma settle_victim_ok v s : ends E (settle_victim hash_pair callback v) s (fun do_preempt s' =>
  queues s' = queues s /\ (do_preempt = false -> finishes_victim v)).
Proof.
  unfold settle_victim, finishes_victim. destruct callback as [f|]; [|by apply ends_ret].
  apply ends_group. intros g Hg. apply ends_modify, ends_group. cbn [groups with_groups]. intros g' Hg'.
  destruct (Group.is_finished g') eqn:Hd; [|by apply ends_ret].
  eapply ends_bind; [apply calm_free_finished|]. intros [] s1 H1. apply ends_ret. split; [by rewrite H1|].
  intros _. by exists f, g, g', (groups s).
Qed.

(** ** Frames *)

(** An order-preserving split of a list. *)
Record split_of (l l1 l2 : list Z) : Prop := {
  so_left : l1 `sublist_of` l;
  so_right : l2 `sublist_of` l;
  so_perm : l ≡ₚ l1 ++ l2
}.

Lemma split_nil : split_of [] [] [].
Proof. by split. Qed.
Lemma split_left v : split_of [v] [v] [].
Proof. split; [done|apply sublist_nil_l|done]. Qed.
Lemma split_right v : split_of [v] [] [v].
Proof. split; [apply sublist_nil_l|done|done]. Qed.
Lemma split_app l l1 l2 k k1 k2 : split_of l l1 l2 -> split_of k k1 k2 -> split_of (l ++ k) (l1 ++ k1) (l2 ++ k2).
Proof.
  intros [H1 H2 H3] [H4 H5 H6]. split; [by apply sublist_app|by apply sublist_app|].
  rewrite H3, H6. rewrite <- !(assoc_L (++)). apply Permutation_app_head.
  rewrite !(assoc_L (++)). apply Permutation_app_tail, Permutation_app_comm.
Qed.
Lemma sublist_same_length (l k : list Z) : l `sublist_of` k -> length l = length k -> l = k.
Proof.
  induction 1 as [|y l k H IH|y l k H IH]; cbn; intros Hlen; [done|f_equal; auto|].
  apply sublist_length in H. lia.
Qed.
Lemma split_nil_right l l1 : split_of l l1 [] -> l = l1.
Proof.
  intros [H1 _ H3]. rewrite app_nil_r in H3. symmetry. apply sublist_same_length; [done|]. by rewrite <- H3.
Qed.

Lemma split_all l : split_of l l [].
Proof. split; [done|apply sublist_nil_l|by rewrite app_nil_r]. Qed.

Definition ids (l : list ScheduledSequenceGroup) : list Z := map seq_group l.
Definition run_lists (o : SchedulerRunningOutputs) : list Z * list Z * list Z * list Z :=
  (ids (decode_seq_groups o), ids (prefill_seq_groups o), preempted o, swapped_out o).
Definition swp_lists (o : SchedulerSwappedInOutputs) : list Z * list Z * list Z :=
  (ids (in_decode_seq_groups o), ids (in_prefill_seq_groups o), infeasible_seq_groups o).
Definition pre_lists (o : SchedulerPrefillOutputs) : list Z * list Z :=
  (ids (seq_groups o), ignored_seq_groups o).

(** Where the groups are. *)
Definition parts x := (queues (sch x), run_lists (run x), swp_lists (swp x), pre_lists (pre x)).
Definition steady {A} (m : M frame A) : Prop := forall x, ends E m x (fun _ x' => parts x' = parts x).

Lemma steady_on_sch {A} (m : M t A) : calm m -> steady (on_sch m).
Proof.
  intros Hm x. unfold ends, on_sch, parts. specialize (Hm (sch x)). unfold ends in Hm.
  destruct (m (sch x)) as [[y|e] s]; [|done]. cbn. by rewrite Hm.
Qed.
Lemma steady_bind {A C} (m : M frame A) (f : A -> M frame C) :
  steady m -> (forall y, steady (f y)) -> steady (m ≫= f).
Proof.
  intros Hm Hf x. eapply ends_bind; [apply Hm|]. intros y x1 H1.
  eapply ends_weaken; [apply Hf|]. intros z x2 H2. by rewrite H2.
Qed.
Lemma steady_modify f : (forall x, parts (f x) = parts x) -> steady (modify f).
Proof. intros Hf x. apply Hf. Qed.
Lemma steady_ret {A} (y : A) : steady (mret y).
Proof. by intros x. Qed.
Lemma steady_lift {A} (r : result A) : fine r -> steady (lift r).
Proof. intros Hr x. unfold ends, lift. destruct r; [done|by apply Hr]. Qed.
Lemma steady_assert i : steady (assert_ i).
Proof. intros x. destruct i; [done|by apply E_other]. Qed.
Lemma steady_on_budget {A} (m : M Budget.t A) :
  (forall b, ends E m b (fun _ _ => True)) -> steady (on_budget m).
Proof.
  intros Hm x. unfold ends, on_budget. specialize (Hm (budget x)). unfold ends in Hm.
  by destruct (m (budget x)) as [[] ?].
Qed.
Lemma steady_add_lora n : steady (add_lora n).
Proof.
  apply steady_modify. intros x. destruct (curr_loras x); [|done]. by destruct (0 <? n).
Qed.
Lemma steady_remove_lora n : steady (remove_lora n).
Proof.
  apply steady_modify. intros x. destruct (curr_loras x); [|done]. by destruct (0 <? n).
Qed.
Lemma steady_add_tokens id n k : steady (on_budget (Budget.add_num_batched_tokens id n k)).
Proof.
  apply steady_on_budget. intros b. unfold Budget.add_num_batched_tokens. apply ends_get.
  destruct (decide _); [done|]. apply ends_assert; [by apply E_other|intros _].
  apply ends_assert; [by apply E_other|done].
Qed.

(** A steady step first. *)
Lemma steady_step {A C} (m : M frame A) (f : A -> M frame C) x (Q : C -> frame -> Prop) :
  steady m -> (forall y x', parts x' = parts x -> ends E (f y) x' Q) -> ends E (m ≫= f) x Q.
Proof. intros Hm Hf. eapply ends_bind; [apply Hm|]. intros y x' H. by apply Hf. Qed.

(** ** [_schedule_running] *)

(** Between [x] and [x'] the groups of [K] were kept and those of [V] were made to
    leave.  With asynchronous output processing some of [K] were stopped instead,
    and some of [V] finished; the others were preempted. *)
Record took x x' (K V : list Z) : Prop := {
  tk_waiting : waiting (sch x') = waiting (sch x);
  tk_swapped : swapped (sch x') = swapped (sch x);
  tk_kept : exists St C D P, split_of K C St /\ split_of C D P /\
    async_stopped (sch x') = async_stopped (sch x) ++ St /\ (callback = None -> St = []) /\
    ids (decode_seq_groups (run x')) = ids (decode_seq_groups (run x)) ++ D /\
    ids (prefill_seq_groups (run x')) = ids (prefill_seq_groups (run x)) ++ P;
  tk_victims : exists U F R S, split_of V U F /\ split_of U R S /\ Forall finishes_victim F /\
    preempted (run x') = preempted (run x) ++ R /\ swapped_out (run x') = swapped_out (run x) ++ S;
  tk_swp : swp_lists (swp x') = swp_lists (swp x);
  tk_pre : pre_lists (pre x') = pre_lists (pre x)
}.

Lemma took_parts x x' : parts x' = parts x -> took x x' [] [] /\ running (sch x') = running (sch x).
Proof.
  intros H. pose proof (f_equal (fun p => p.1.1.1) H) as H1. pose proof (f_equal (fun p => p.1.1.2) H) as H2.
  pose proof (f_equal (fun p => p.1.2) H) as H3. pose proof (f_equal snd H) as H4.
  cbn in H1, H2, H3, H4. injection H1 as E1 E2 E3 E4. injection H2 as E5 E6 E7 E8.
  split; [|done]. split; [done..| | |done|done].
  - exists [], [], [], []. rewrite !app_nil_r. split_and!; auto using split_nil.
  - exists [], [], [], []. rewrite !app_nil_r. split_and!; auto using split_nil.
Qed.

Lemma took_trans x x1 x2 K1 V1 K2 V2 :
  took x x1 K1 V1 -> took x1 x2 K2 V2 -> took x x2 (K1 ++ K2) (V1 ++ V2).
Proof.
  intros [H1 H2 (St & C & D & P & Hk & Hs & Ha & Hn & Hd & Hp) (U & F & R & S & Hu & Ht & Hf & Hr & Hw) H6 H7]
    [G1 G2 (St' & C' & D' & P' & Gk & Gs & Ga & Gn & Gd & Gp) (U' & F' & R' & S' & Gu & Gt & Gf & Gr & Gw) G6 G7].
  split; try congruence.
  - exists (St ++ St'), (C ++ C'), (D ++ D'), (P ++ P'). split_and!; [by apply split_app..| | | |].
    + by rewrite Ga, Ha, (assoc_L (++)).
    + intros Hc. by rewrite (Hn Hc), (Gn Hc).
    + by rewrite Gd, Hd, (assoc_L (++)).
    + by rewrite Gp, Hp, (assoc_L (++)).
  - exists (U ++ U'), (F ++ F'), (R ++ R'), (S ++ S'). split_and!; [by apply split_app..| | |].
    + by apply Forall_app_2.
    + by rewrite Gr, Hr, (assoc_L (++)).
    + by rewrite Gw, Hw, (assoc_L (++)).
Qed.

Lemma steady_run_blocks l : steady (mod_run (add_swap_blocks l)).
Proof. apply steady_modify. by intros x. Qed.

Lemma took_steady x x1 x2 K V : took x x1 K V -> parts x2 = parts x1 -> took x x2 K V.
Proof.
  intros H1 [H2 _]%took_parts. pose proof (took_trans _ _ _ _ _ _ _ H1 H2) as H.
  by rewrite !app_nil_r in H.
Qed.
Lemma steady_took x x1 x2 K V : parts x1 = parts x -> took x1 x2 K V -> took x x2 K V.
Proof. intros [H1 _]%took_parts H2. exact (took_trans _ _ _ _ _ _ _ H1 H2). Qed.
Lemma parts_running x x' : parts x' = parts x -> running (sch x') = running (sch x).
Proof. by intros [_ H]%took_parts. Qed.

Lemma on_sch_ret {A} (y : A) x : on_sch (mret y) x = (Ok y, x).
Proof. by destruct x. Qed.

(** New entries of the outputs. *)
Lemma took_run x o K V D P R S :
  split_of K D P -> split_of V R S ->
  ids (decode_seq_groups o) = ids (decode_seq_groups (run x)) ++ D ->
  ids (prefill_seq_groups o) = ids (prefill_seq_groups (run x)) ++ P ->
  preempted o = preempted (run x) ++ R -> swapped_out o = swapped_out (run x) ++ S ->
  took x (with_run o x) K V.
Proof.
  intros. split; try done.
  - exists [], K, D, P. rewrite app_nil_r. split_and!; auto using split_all.
  - exists V, [], R, S. split_and!; auto using split_all.
Qed.

Lemma settled v x : ends E (on_sch (settle_victim hash_pair callback v)) x (fun do_preempt x' =>
  parts x' = parts x /\ (do_preempt = false -> finishes_victim v)).
Proof.
  unfold ends, on_sch. pose proof (settle_victim_ok v (sch x)) as H. unfold ends in H.
  destruct (settle_victim _ _ _ _) as [[b|e] s']; [|done]. destruct H as [H1 H2].
  split; [|done]. unfold parts. cbn. by rewrite H1.
Qed.

(** A victim goes to one of the two lists, or it is finished. *)
Lemma preempt_victim_ok v x :
  ends E (preempt_victim hash_pair cfg callback v) x (fun _ x' =>
    took x x' [] [v] /\ running (sch x') = running (sch x)).
Proof.
  unfold preempt_victim. eapply ends_bind; [apply settled|]. intros do_preempt x0 [H0 Hfin].
  destruct do_preempt; [|apply ends_ret; split; [|by apply parts_running]].
  2:{ eapply steady_took; [exact H0|]. split; try done.
      - exists [], [], [], []. rewrite !app_nil_r. split_and!; auto using split_nil.
      - exists [], [v], [], []. rewrite !app_nil_r. split_and!; auto using split_nil, split_right. }
  eapply steady_step; [apply steady_on_sch, calm_preempt|].
  intros [mode l] x1 H1. eapply steady_step; [apply steady_run_blocks|]. intros [] x2 H2.
  assert (H : parts x2 = parts x) by congruence. unfold mod_run, ends, modify.
  split; [|cbn; by apply parts_running]. eapply steady_took; [exact H|].
  destruct mode.
  - apply (took_run _ _ _ _ [] [] [] [v]); cbn; rewrite ?app_nil_r; auto using split_nil, split_left, split_right.
  - apply (took_run _ _ _ _ [] [] [v] []); cbn; rewrite ?app_nil_r; auto using split_nil, split_left, split_right.
Qed.

Lemma last_removelast {A} (l : list A) y : last l = Some y -> l = removelast l ++ [y].
Proof. intros [l' ->]%last_Some. by rewrite removelast_last. Qed.

Lemma make_room_ok a n c : forall fuel x,
  (length (running (sch x)) < fuel)%nat ->
  ends E (make_room hash_pair cfg callback fuel a n c) x (fun ok x' => exists V,
    if ok : bool then took x x' [] V /\ running (sch x) = running (sch x') ++ rev V
    else took x x' [] (V ++ [a]) /\ running (sch x) = rev V /\ running (sch x') = []).
Proof.
  induction fuel as [|fuel IH]; intros x Hfuel; [lia|]. cbn [make_room].
  eapply steady_step; [apply steady_on_sch, calm_can_append|]. intros [] x1 H1.
  { apply ends_ret. exists []. split; [by apply took_parts|]. cbn. rewrite app_nil_r.
    symmetry. by apply parts_running. }
  eapply steady_step; [apply steady_on_sch, calm_group|]. intros g x2 H2.
  eapply steady_step; [by apply steady_modify|]. intros [] x3 H3.
  eapply steady_step; [by apply steady_modify|]. intros [] x4 H4.
  eapply steady_step; [apply steady_remove_lora|]. intros [] x5 H5.
  assert (H : parts x5 = parts x) by congruence. apply ends_get.
  assert (Hrun : running (sch x5) = running (sch x)) by by apply parts_running.
  destruct (last (running (sch x5))) as [v|] eqn:Hlast.
  - apply last_removelast in Hlast. rewrite Hrun in Hlast. apply ends_modify.
    eapply ends_bind; [apply preempt_victim_ok|]. intros [] x6 [H6 Hr6]. cbn in Hr6.
    rewrite Hrun in Hr6.
    assert (H6' : took x x6 [] [v]).
    { eapply steady_took; [exact H|]. destruct H6. by split. }
    eapply ends_weaken; [apply IH; rewrite Hr6|].
    { rewrite Hlast, length_app in Hfuel. cbn in Hfuel. lia. }
    intros [] x7 [V HV]; exists (v :: V).
    + destruct HV as [H7 Hr7]. split; [exact (took_trans _ _ _ _ _ _ _ H6' H7)|].
      rewrite Hlast. cbn. rewrite (assoc_L (++)), <- Hr7. by rewrite Hr6.
    + destruct HV as (H7 & Hr7 & Hn). split; [exact (took_trans _ _ _ _ _ _ _ H6' H7)|].
      split; [|done]. rewrite Hlast. cbn. by rewrite <- Hr7, Hr6.
  - assert (Hnil : running (sch x) = []).
    { rewrite Hrun in Hlast. by apply last_None in Hlast. }
    eapply ends_bind; [apply preempt_victim_ok|]. intros [] x6 [H6 Hr6]. apply ends_ret. exists [].
    split; [by eapply steady_took|]. split; [by rewrite Hnil|]. by rewrite Hr6, Hrun.
Qed.

Lemma keep_running_ok a n c x :
  ends E (keep_running hash_pair cfg a n c) x (fun _ x' =>
    took x x' [a] [] /\ running (sch x') = running (sch x)).
Proof.
  unfold keep_running.
  eapply steady_step; [apply steady_on_sch, calm_append_slots|]. intros cows x1 H1.
  eapply steady_step; [by apply steady_modify|]. intros [] x2 H2.
  eapply steady_step; [apply steady_on_sch, calm_group|]. intros g x3 H3.
  eapply steady_step; [apply steady_lift, fine_is_prefill|]. intros is_prefill x4 H4.
  assert (H : parts x4 = parts x) by congruence.
  eapply (ends_bind _ _ _ _ (fun _ x5 => took x x5 [a] [] /\ running (sch x5) = running (sch x))).
  { split; [|cbn; by apply parts_running]. eapply steady_took; [exact H|].
    destruct is_prefill.
    - apply (took_run _ _ _ _ [] [a] [] []); cbn; unfold ids; rewrite ?map_app, ?app_nil_r;
        auto using split_nil, split_left, split_right.
    - apply (took_run _ _ _ _ [a] [] [] []); cbn; unfold ids; rewrite ?map_app, ?app_nil_r;
        auto using split_nil, split_left, split_right. }
  intros [] x5 [H5 Hr5].
  eapply steady_step; [apply steady_add_tokens|]. intros [] x6 H6.
  eapply steady_step; [destruct c; [by apply steady_modify|apply steady_ret]|].
  intros [] x7 H7. eapply ends_weaken; [apply steady_add_lora|]. intros [] x8 H8. cbn in H8.
  assert (H' : parts x8 = parts x5) by congruence.
  split; [by eapply took_steady|]. rewrite <- Hr5. by apply parts_running.
Qed.

Lemma running_body_took a n c x rest :
  running (sch x) = rest ->
  ends E (running_body hash_pair cfg callback a n c) x (fun _ x' => exists K V,
    took x x' K V /\ a :: running (sch x) = K ++ running (sch x') ++ rev V /\
    (length (running (sch x')) <= length (running (sch x)))%nat).
Proof.
  intros Hx. unfold running_body.
  eapply steady_step; [apply steady_on_sch, calm_group|]. intros g x1 H1.
  eapply steady_step; [apply steady_lift, fine_first_seq|]. intros q x2 H2.
  assert (H : parts x2 = parts x) by congruence.
  pose proof (parts_running _ _ H) as Hr2.
  destruct (use_async_output_proc callback && _) eqn:Hstop.
  { apply andb_true_iff in Hstop as [Hasync%bool_decide_eq_true _].
    unfold mod_sch, ends, modify. exists [a], []. split; [|cbn; by rewrite app_nil_r, Hr2].
    eapply steady_took; [exact H|]. split; try done; cbn.
    - exists [a], [], [], []. rewrite !app_nil_r. split_and!; auto using split_nil, split_right.
      intros Hc. rewrite Hc in Hasync. by destruct Hasync.
    - exists [], [], [], []. rewrite !app_nil_r. split_and!; auto using split_nil. }
  apply ends_get.
  eapply ends_bind; [apply make_room_ok; lia|]. intros [] x3 [V HV].
  - destruct HV as [H3 Hr3]. eapply ends_weaken; [apply keep_running_ok|].
    intros [] x4 [H4 Hr4]. exists [a], V. split.
    + eapply steady_took; [exact H|]. pose proof (took_trans _ _ _ _ _ _ _ H3 H4) as H'.
      by rewrite app_nil_r in H'.
    + split; [cbn; by rewrite Hr4, <- Hr3, Hr2|].
      rewrite <- Hr2, Hr3, Hr4, length_app. lia.
  - destruct HV as (H3 & Hr3 & Hn). apply ends_ret. exists [], (V ++ [a]).
    split; [by eapply steady_took|]. rewrite Hn, rev_app_distr. cbn. rewrite <- Hr3, Hr2.
    split; [done|lia].
Qed.

Lemma running_loop_took c meta : forall fuel x,
  (length (running (sch x)) < fuel)%nat ->
  ends E (running_loop hash_pair cfg cache callback fuel c meta) x (fun _ x' => exists K V,
    took x x' K V /\ running (sch x) = K ++ running (sch x') ++ rev V).
Proof.
  induction fuel as [|fuel IH]; intros x Hfuel; [lia|]. cbn [running_loop]. apply ends_get.
  destruct (running (sch x)) as [|a rest] eqn:Hx.
  { apply ends_ret. exists [], []. rewrite Hx. split; [by apply took_parts|done]. }
  eapply steady_step; [apply steady_on_sch, calm_new_tokens|]. intros n x1 H1. cbv zeta.
  pose proof (parts_running _ _ H1) as Hr1. destruct (_ =? 0).
  { apply ends_ret. exists [], []. split; [by apply took_parts|]. rewrite Hr1, Hx. cbn. by rewrite app_nil_r. }
  apply ends_modify. eapply ends_bind; [by apply (running_body_took a _ _ _ rest)|].
  intros [] x2 (K & V & H2 & Hr2 & Hle). cbn in Hr2, Hle.
  assert (H2' : took x x2 K V).
  { eapply steady_took; [exact H1|]. destruct H2. by split. }
  eapply ends_weaken; [apply IH|].
  { cbn in Hfuel. lia. }
  intros [] x3 (K' & V' & H3 & Hr3). exists (K ++ K'), (V ++ V').
  split; [exact (took_trans _ _ _ _ _ _ _ H2' H3)|].
  rewrite Hr2, Hr3, rev_app_distr. by rewrite !(assoc_L (++)).
Qed.

(** The outputs of the part are reset first. *)
Lemma schedule_running_took c x :
  ends E (schedule_running hash_pair cfg cache callback c) x (fun _ x' =>
    exists n K V, took (with_run (empty_running n) x) x' K V /\
    running (sch x) = K ++ running (sch x') ++ rev V).
Proof.
  unfold schedule_running. apply ends_modify, ends_get.
  apply ends_assert; [by apply E_other|intros _].
  eapply ends_weaken; [apply running_loop_took; cbn; lia|].
  intros [] x' (K & V & H & Hr). eexists _, K, V. split; [exact H|exact Hr].
Qed.

(** ** [_schedule_prefills] *)

(** Between [x] and [x'] the groups of [A] were taken into the batch and those
    of [I] ignored. *)
Record admitted x x' (A I : list Z) : Prop := {
  ad_running : running (sch x') = running (sch x);
  ad_swapped : swapped (sch x') = swapped (sch x);
  ad_async : async_stopped (sch x') = async_stopped (sch x);
  ad_run : run_lists (run x') = run_lists (run x);
  ad_swp : swp_lists (swp x') = swp_lists (swp x);
  ad_groups : ids (seq_groups (pre x')) = ids (seq_groups (pre x)) ++ A;
  ad_ignored : ignored_seq_groups (pre x') = ignored_seq_groups (pre x) ++ I
}.

Lemma admitted_trans x x1 x2 A1 I1 A2 I2 :
  admitted x x1 A1 I1 -> admitted x1 x2 A2 I2 -> admitted x x2 (A1 ++ A2) (I1 ++ I2).
Proof.
  intros [] []. split; try congruence; rewrite (assoc_L (++)); congruence.
Qed.

Lemma admitted_parts x x' :
  parts x' = parts x -> admitted x x' [] [] /\ waiting (sch x') = waiting (sch x).
Proof.
  intros H. unfold parts, queues, pre_lists in H. injection H as E1 E2 E3 E4 E5 E6 E7 E8 E9 E10.
  split; [|done]. split; rewrite ?app_nil_r; try done.
  - unfold run_lists. congruence.
  - unfold swp_lists. congruence.
Qed.

Lemma admitted_pop x : admitted x (with_sch (with_waiting (tail (waiting (sch x))) (sch x)) x) [] [].
Proof. split; cbn; by rewrite ?app_nil_r. Qed.

Lemma admitted_prefilled x a n : admitted x (with_pre (add_prefilled (MkScheduled a n) (pre x)) x) [a] [].
Proof. split; cbn; unfold ids; by rewrite ?map_app, ?app_nil_r. Qed.

(** What a round of the loop over the waiting queue does. *)
Definition admits x a (v : verdict) x' : Prop := exists A I, admitted x x' A I /\
  match v with
  | Stop => A = [] /\ I = [] /\ waiting (sch x') = waiting (sch x)
  | Later => A = [] /\ I = [] /\ waiting (sch x') = tail (waiting (sch x))
  | Done => split_of [a] A I /\ waiting (sch x') = tail (waiting (sch x))
  end.

Lemma admits_parts x x1 a (w : verdict) x2 : parts x1 = parts x -> admits x1 a w x2 -> admits x a w x2.
Proof.
  intros [H1 Hw]%admitted_parts (A & I & H2 & Hv). exists A, I.
  split; [exact (admitted_trans _ _ _ _ _ _ _ H1 H2)|]. by rewrite <- Hw.
Qed.

Lemma stop_admits x a x' : parts x' = parts x -> admits x a Stop x'.
Proof. intros [H Hw]%admitted_parts. by exists [], []. Qed.

Lemma later_admits x a x' :
  parts x' = parts x -> ends E (pop_waiting ;; mret Later) x' (admits x a).
Proof.
  intros H. unfold pop_waiting, mod_sch. apply ends_modify, ends_ret.
  eapply admits_parts; [exact H|]. exists [], []. split; [apply admitted_pop|done].
Qed.

Lemma ignore_admits a l x : ends E (ignore_waiting a l) x (admits x a).
Proof.
  unfold ignore_waiting. eapply steady_step; [apply steady_on_sch, calm_set_status|]. intros [] x1 H1.
  unfold mod_pre, pop_waiting, mod_sch. apply ends_modify, ends_modify, ends_ret.
  eapply admits_parts; [exact H1|]. exists [], [a].
  split; [split; cbn; by rewrite ?app_nil_r|]. split; [apply split_right|done].
Qed.

Lemma steady_on_partial m' : steady (modify (with_partial m')).
Proof. by apply steady_modify. Qed.
Lemma fine_maybe_increment g m : fine (Partial.maybe_increment_partial_prefills cfg g m).
Proof. unfold Partial.maybe_increment_partial_prefills. calmly. Qed.
Lemma fine_partial_can_schedule g m : fine (Partial.can_schedule cfg g m).
Proof. unfold Partial.can_schedule. calmly. Qed.
Lemma fine_lora_blocked n l : fine (lora_blocked cache n l).
Proof. unfold lora_blocked. calmly. Qed.
Lemma fine_budget n k b : fine (Budget.can_schedule n k b).
Proof. unfold Budget.can_schedule. calmly. Qed.
Lemma fine_over_budget n k b : fine (over_budget n k b).
Proof. unfold over_budget. calmly. apply fine_budget. Qed.
Lemma calm_init_group a n m k c :
  calm (on_group a (Group.init_multi_step_from_lookahead_slots n m k c)).
Proof. apply calm_init_multi_step. Qed.
#[local] Hint Resolve fine_maybe_increment fine_partial_can_schedule fine_lora_blocked
  fine_over_budget : calm.

Lemma admit_admits a g u k slots n c x :
  ends E (admit_group hash_pair cfg cache a g u k slots n c) x (admits x a).
Proof.
  unfold admit_group. eapply steady_step; [apply steady_add_lora|]. intros [] x0 H0.
  unfold pop_waiting, mod_sch. apply ends_modify. set (x1 := with_sch _ x0).
  eapply steady_step; [apply steady_on_sch, calm_allocate|]. intros [] x2 H2.
  eapply steady_step; [apply steady_on_sch, calm_group|]. intros g' x3 H3. apply ends_get.
  eapply steady_step.
  { destruct (partial x3); [|apply steady_ret]. apply steady_bind; [apply steady_lift, fine_maybe_increment|].
    intros m'. apply steady_on_partial. }
  intros [] x4 H4.
  eapply steady_step.
  { destruct (c && is_multi_step cfg).
    - apply steady_bind; [apply steady_on_sch, calm_append_slots|]. intros cows. apply steady_assert.
    - apply steady_on_sch, calm_init_multi_step. }
  intros [] x5 H5. unfold mod_pre. apply ends_modify.
  eapply steady_step; [apply steady_add_tokens|]. intros [] x6 H6.
  eapply steady_step; [by apply steady_modify|]. intros [] x7 H7. apply ends_ret.
  eapply admits_parts; [exact H0|].
  assert (H : parts x5 = parts x1) by congruence. clear H2 H3 H4 H5.
  assert (H' : parts x7 = parts (with_pre (add_prefilled (MkScheduled a (u + k)) (pre x5)) x5)) by congruence.
  apply admitted_parts in H as [H Hw], H' as [H' Hw'].
  exists [a], []. split.
  - exact (admitted_trans _ _ _ _ _ _ _ (admitted_pop x0)
      (admitted_trans _ _ _ _ _ _ _ H (admitted_trans _ _ _ _ _ _ _ (admitted_prefilled x5 a _) H'))).
  - split; [apply split_left|]. cbn in Hw', Hw. by rewrite Hw', Hw.
Qed.

Lemma waiting_step_admits a c x :
  ends E (waiting_step hash_pair cfg cache a c) x (admits x a).
Proof.
  unfold waiting_step.
  eapply steady_step; [apply steady_on_sch, calm_group|]. intros g x1 H1. cbv zeta.
  eapply steady_step; [apply steady_assert|]. intros [] x2 H2. apply ends_get.
  eapply steady_step.
  { apply steady_lift. destruct (partial x2); [apply fine_partial_can_schedule|apply fine_ok]. }
  intros short x3 H3. destruct short; cbn [negb]; [|apply later_admits; congruence].
  eapply steady_step; [apply steady_on_sch, calm_new_tokens|]. intros n x4 H4. cbv zeta.
  eapply steady_step.
  { destruct c; [apply steady_ret|]. apply steady_bind; [apply steady_lift; calmly|].
    intros q. apply steady_assert. }
  intros [] x5 H5. eapply steady_step; [apply steady_lift, fine_prompt_limit|]. intros lim x6 H6.
  assert (H : parts x6 = parts x) by congruence. destruct (_ <? _).
  { eapply ends_weaken; [apply ignore_admits|]. intros v x'. by apply admits_parts. }
  apply ends_get. eapply steady_step.
  { apply steady_lift. intros e. apply me_can_allocate. }
  intros [] x7 H7; [|apply ends_ret, stop_admits; congruence|].
  2:{ eapply ends_weaken; [apply ignore_admits|]. intros v x'. apply admits_parts; congruence. }
  eapply steady_step; [apply steady_lift, fine_lora_blocked|]. intros [] x8 H8.
  { apply later_admits; congruence. }
  destruct (_ <=? _); [apply ends_ret, stop_admits; congruence|]. cbv zeta.
  eapply steady_step; [apply steady_lift, fine_over_budget|]. intros [] x9 H9.
  { apply ends_ret, stop_admits; congruence. }
  eapply ends_weaken; [apply admit_admits|]. intros v x'. apply admits_parts; congruence.
Qed.

Lemma calm_arrival_times l : calm (arrival_times l).
Proof. induction l as [|a l IH]; cbn [arrival_times]; calmly. Qed.
#[local] Hint Resolve calm_arrival_times : calm.

Lemma calm_passed_delay now : calm (passed_delay cfg now).
Proof. unfold passed_delay. calmly. Qed.

(** Of the first groups [F] of the queue, those of [L] were set aside. *)
Definition drained (q q' F T L : list Z) : Prop := q = F ++ q' /\ split_of F T L.

Lemma drained_nil q : drained q q [] [] [].
Proof. split; [done|apply split_nil]. Qed.
Lemma drained_later q a q1 q' F T L :
  q = a :: q1 -> drained q1 q' F T L -> drained q q' (a :: F) T (a :: L).
Proof. intros -> [-> H]. split; [done|]. exact (split_app _ _ _ _ _ _ (split_right a) H). Qed.
Lemma drained_done q a q1 q' F T L :
  q = a :: q1 -> drained q1 q' F T L -> drained q q' (a :: F) (a :: T) L.
Proof. intros -> [-> H]. split; [done|]. exact (split_app _ _ _ _ _ _ (split_left a) H). Qed.

Lemma waiting_loop_admits c : forall fuel i left x,
  (length (waiting (sch x)) < fuel)%nat ->
  ends E (waiting_loop hash_pair cfg cache time fuel i c left) x (fun l x' => exists F T L A I,
    admitted x x' A I /\ drained (waiting (sch x)) (waiting (sch x')) F T L /\
    split_of T A I /\ l = rev L ++ left).
Proof.
  assert (Hstop : forall left x x', parts x' = parts x -> exists F T L A I,
    admitted x x' A I /\ drained (waiting (sch x)) (waiting (sch x')) F T L /\
    split_of T A I /\ left = rev L ++ left).
  { intros left x x' [H Hw]%admitted_parts. exists [], [], [], [], []. rewrite Hw.
    split; [done|]. split; [apply drained_nil|]. split; [apply split_nil|done]. }
  induction fuel as [|fuel IH]; intros i left x Hfuel; [lia|]. cbn [waiting_loop].
  eapply steady_step; [apply steady_on_sch, calm_passed_delay|]. intros passed x1 H1. apply ends_get.
  destruct (waiting (sch x1)) as [|a q] eqn:Hq; [by apply ends_ret, Hstop|].
  destruct passed; [|by apply ends_ret, Hstop].
  apply admitted_parts in H1 as [H1 Hw1].
  eapply ends_bind; [apply waiting_step_admits|]. intros v x2 (A & I & H2 & Hv).
  pose proof (admitted_trans _ _ _ _ _ _ _ H1 H2) as H. cbn [app] in H. rewrite Hq in Hv.
  assert (Hlen : waiting (sch x) = a :: q) by by rewrite <- Hw1.
  rewrite Hlen in Hfuel. cbn in Hfuel. destruct v as [| |].
  - destruct Hv as (-> & -> & Hv). apply ends_ret. rewrite Hlen, Hv. exists [], [], [], [], [].
    split; [done|]. split; [apply drained_nil|]. split; [apply split_nil|done].
  - destruct Hv as (-> & -> & Hv). cbn in Hv. eapply ends_weaken; [apply IH; rewrite Hv; lia|].
    intros l x3 (F & T & L & A & I & H3 & Hd & Hs & ->). exists (a :: F), T, (a :: L), A, I.
    split; [exact (admitted_trans _ _ _ _ _ _ _ H H3)|]. rewrite Hv in Hd.
    split; [by eapply drained_later|]. split; [done|]. cbn. by rewrite <- (assoc_L (++)).
  - destruct Hv as (Hs2 & Hv). cbn in Hv. eapply ends_weaken; [apply IH; rewrite Hv; lia|].
    intros l x3 (F & T & L & A' & I' & H3 & Hd & Hs & ->). exists (a :: F), (a :: T), L, (A ++ A'), (I ++ I').
    split; [exact (admitted_trans _ _ _ _ _ _ _ H H3)|]. rewrite Hv in Hd.
    split; [by eapply drained_done|]. split; [|done]. exact (split_app _ _ _ _ _ _ Hs2 Hs).
Qed.

(** The groups set aside return to the front of the queue, in order. *)
Lemma schedule_prefills_ok c x :
  ends E (schedule_prefills hash_pair cfg cache time c) x (fun _ x' => exists F q T L A I,
    admitted (with_pre empty_prefill x) x' A I /\
    drained (waiting (sch x)) q F T L /\ split_of T A I /\ waiting (sch x') = L ++ q).
Proof.
  unfold schedule_prefills, mod_pre, mod_sch. apply ends_modify, ends_get.
  destruct (_ =? 0).
  { apply ends_ret. exists [], (waiting (sch x)), [], [], [], [].
    split; [by split; cbn; rewrite ?app_nil_r|]. split; [apply drained_nil|]. split; [apply split_nil|done]. }
  eapply ends_bind; [apply waiting_loop_admits; cbn; lia|]. intros l x1 (F & T & L & A & I & H & Hd & Hs & ->).
  apply ends_modify, ends_get. rewrite app_nil_r, rev_involutive.
  destruct (Nat.eqb _ _); [apply ends_ret|].
  - exists F, (waiting (sch x1)), T, L, A, I. split; [destruct H; split; assumption|done].
  - exists F, (waiting (sch x1)), T, L, A, I. split; [destruct H; split; assumption|done].
Qed.

(** ** [_schedule_swapped] *)

(** The groups of [D] and [P] were swapped in, those of [I] dropped. *)
Record moved_in x x' (D P I : list Z) : Prop := {
  mi_waiting : waiting (sch x') = waiting (sch x);
  mi_running : running (sch x') = running (sch x);
  mi_async : async_stopped (sch x') = async_stopped (sch x);
  mi_run : run_lists (run x') = run_lists (run x);
  mi_pre : pre_lists (pre x') = pre_lists (pre x);
  mi_decode : ids (in_decode_seq_groups (swp x')) = ids (in_decode_seq_groups (swp x)) ++ D;
  mi_prefill : ids (in_prefill_seq_groups (swp x')) = ids (in_prefill_seq_groups (swp x)) ++ P;
  mi_infeasible : infeasible_seq_groups (swp x') = infeasible_seq_groups (swp x) ++ I
}.

Lemma moved_trans x x1 x2 D1 P1 I1 D2 P2 I2 :
  moved_in x x1 D1 P1 I1 -> moved_in x1 x2 D2 P2 I2 -> moved_in x x2 (D1 ++ D2) (P1 ++ P2) (I1 ++ I2).
Proof. intros [] []. split; try congruence; rewrite (assoc_L (++)); congruence. Qed.

Lemma moved_parts x x' :
  parts x' = parts x -> moved_in x x' [] [] [] /\ swapped (sch x') = swapped (sch x).
Proof.
  intros H. unfold parts, queues, swp_lists in H. injection H as E1 E2 E3 E4 E5 E6 E7 E8 E9 E10.
  split; [|done]. split; rewrite ?app_nil_r; try done; unfold run_lists, pre_lists; congruence.
Qed.

Lemma moved_pop x : moved_in x (with_sch (with_swapped (tail (swapped (sch x))) (sch x)) x) [] [] [].
Proof. split; cbn; by rewrite ?app_nil_r. Qed.

Lemma moved_added x a n p swaps cows :
  moved_in x (with_swp (add_swapped_in p (MkScheduled a n) swaps cows (swp x)) x)
    (if p then [] else [a]) (if p then [a] else []) [].
Proof. split; cbn; unfold ids; destruct p; by rewrite ?map_app, ?app_nil_r. Qed.

Definition moves x a (v : verdict) x' : Prop := exists D P I, moved_in x x' D P I /\
  match v with
  | Stop => D = [] /\ P = [] /\ I = [] /\ swapped (sch x') = swapped (sch x)
  | Later => D = [] /\ P = [] /\ I = [] /\ swapped (sch x') = tail (swapped (sch x))
  | Done => [a] ≡ₚ D ++ P ++ I /\ swapped (sch x') = tail (swapped (sch x))
  end.

Lemma moves_parts x x1 a (w : verdict) x2 : parts x1 = parts x -> moves x1 a w x2 -> moves x a w x2.
Proof.
  intros [H1 Hw]%moved_parts (D & P & I & H2 & Hv). exists D, P, I.
  split; [exact (moved_trans _ _ _ _ _ _ _ _ _ H1 H2)|]. by rewrite <- Hw.
Qed.

Lemma stop_moves x a x' : parts x' = parts x -> moves x a Stop x'.
Proof. intros [H Hw]%moved_parts. by exists [], [], []. Qed.

Lemma swapped_step_moves a c x : ends E (swapped_step hash_pair cfg cache a c) x (moves x a).
Proof.
  unfold swapped_step, pop_swapped, mod_swp, mod_sch.
  eapply steady_step; [apply steady_on_sch, calm_group|]. intros g x1 H1.
  eapply steady_step; [apply steady_lift, fine_is_prefill|]. intros p x2 H2.
  eapply steady_step; [apply steady_on_sch, calm_on_manager, me_can_swap_in|]. intros [] x3 H3.
  - apply ends_get. eapply steady_step; [apply steady_lift, fine_lora_blocked|]. intros [] x4 H4.
    { apply ends_modify, ends_ret. eapply moves_parts; [|exists [], [], []; split; [apply moved_pop|done]]. congruence. }
    cbv zeta. eapply steady_step; [apply steady_on_sch, calm_new_tokens|]. intros n x5 H5.
    eapply steady_step; [apply steady_lift, fine_over_budget|]. intros [] x6 H6.
    { apply ends_ret, stop_moves. congruence. }
    eapply steady_step; [apply steady_add_lora|]. intros [] x7 H7. apply ends_modify.
    eapply steady_step; [apply steady_on_sch, calm_swap_in|]. intros swaps x8 H8.
    eapply steady_step; [apply steady_on_sch, calm_append_slots|]. intros cows x9 H9. apply ends_modify.
    eapply steady_step; [apply steady_add_tokens|]. intros [] x10 H10.
    eapply steady_step; [by apply steady_modify|]. intros [] x11 H11. apply ends_ret.
    eapply (moves_parts _ x7); [congruence|]. rewrite H10 in H11. rewrite H8 in H9.
    apply moved_parts in H9 as [H9 Hw9], H11 as [H11 Hw11].
    exists (if p then [] else [a]), (if p then [a] else []), [].
    split; [|split; [by destruct p|cbn in Hw9, Hw11; by rewrite Hw11, Hw9]].
    pose proof (moved_trans _ _ _ _ _ _ _ _ _ (moved_pop x7) (moved_trans _ _ _ _ _ _ _ _ _ H9
      (moved_trans _ _ _ _ _ _ _ _ _ (moved_added x9 a _ p swaps cows) H11))) as H.
    cbn [app] in H. by rewrite !app_nil_r in H.
  - apply ends_ret, stop_moves. congruence.
  - eapply steady_step; [apply steady_on_sch, calm_set_status|]. intros [] x4 H4.
    apply ends_modify, ends_modify, ends_ret. eapply (moves_parts _ x4); [congruence|].
    exists [], [], [a]. split; [split; cbn; by rewrite ?app_nil_r|done].
Qed.

Lemma swapped_loop_ok c : forall fuel left x,
  (length (swapped (sch x)) < fuel)%nat ->
  ends E (swapped_loop hash_pair cfg cache fuel c left) x (fun l x' => exists F T L D P I,
    moved_in x x' D P I /\ drained (swapped (sch x)) (swapped (sch x')) F T L /\
    T ≡ₚ D ++ P ++ I /\ l = rev L ++ left).
Proof.
  induction fuel as [|fuel IH]; intros left x Hfuel; [lia|]. cbn [swapped_loop]. apply ends_get.
  destruct (swapped (sch x)) as [|a q] eqn:Hq.
  { apply ends_ret. exists [], [], [], [], [], []. rewrite Hq.
    split; [by split; rewrite ?app_nil_r|]. by split; [apply drained_nil|]. }
  eapply ends_bind; [apply swapped_step_moves|]. intros v x2 (D & P & I & H & Hv).
  rewrite Hq in Hv. cbn in Hfuel. destruct v as [| |].
  - destruct Hv as (-> & -> & -> & Hv). apply ends_ret. rewrite Hv. exists [], [], [], [], [], [].
    split; [done|]. by split; [apply drained_nil|].
  - destruct Hv as (-> & -> & -> & Hv). cbn in Hv. eapply ends_weaken; [apply IH; rewrite Hv; lia|].
    intros l x3 (F & T & L & D & P & I & H3 & Hd & Hs & ->). exists (a :: F), T, (a :: L), D, P, I.
    split; [exact (moved_trans _ _ _ _ _ _ _ _ _ H H3)|]. rewrite Hv in Hd.
    split; [by eapply drained_later|]. split; [done|]. cbn. by rewrite <- (assoc_L (++)).
  - destruct Hv as (Hs2 & Hv). cbn in Hv. eapply ends_weaken; [apply IH; rewrite Hv; lia|].
    intros l x3 (F & T & L & D' & P' & I' & H3 & Hd & Hs & ->).
    exists (a :: F), (a :: T), L, (D ++ D'), (P ++ P'), (I ++ I').
    split; [exact (moved_trans _ _ _ _ _ _ _ _ _ H H3)|]. rewrite Hv in Hd.
    split; [by eapply drained_done|]. split; [|done]. change (a :: T) with ([a] ++ T).
    rewrite Hs2, Hs. solve_Permutation.
Qed.

Lemma schedule_swapped_ok c x :
  ends E (schedule_swapped hash_pair cfg cache c) x (fun _ x' => exists F q T L D P I,
    moved_in (with_swp empty_swapped_in x) x' D P I /\
    drained (swapped (sch x)) q F T L /\ T ≡ₚ D ++ P ++ I /\ swapped (sch x') = L ++ q).
Proof.
  unfold schedule_swapped, mod_swp, mod_sch. apply ends_modify, ends_get.
  eapply ends_bind; [apply swapped_loop_ok; cbn; lia|].
  intros l x1 (F & T & L & D & P & I & H & Hd & Hs & ->).
  exists F, (swapped (sch x1)), T, L, D, P, I. rewrite app_nil_r. cbn. rewrite rev_involutive.
  split; [destruct H; split; assumption|done].
Qed.

(** ** [_schedule_priority_preemption] *)

Definition at_waiting (w : list Z) x : frame := with_sch (with_waiting w (sch x)) x.

Lemma at_waiting_parts w x x' : parts x' = parts x -> parts (at_waiting w x') = parts (at_waiting w x).
Proof.
  intros H. unfold parts, queues in H. injection H as E1 E2 E3 E4 E5 E6 E7.
  unfold parts, queues, at_waiting. cbn. unfold run_lists, swp_lists, pre_lists. congruence.
Qed.
Lemma at_waiting_twice w w' x : parts (at_waiting w (at_waiting w' x)) = parts (at_waiting w x).
Proof. done. Qed.
Lemma parts_waiting x x' : parts x' = parts x -> waiting (sch x') = waiting (sch x).
Proof. by intros [_ H]%admitted_parts. Qed.

(** The victims [V] come from the end of the sorted running queue. *)
Lemma priority_loop_ok a n k : forall fuel rq count x,
  (length rq < fuel)%nat ->
  ends E (priority_loop hash_pair cfg cache fuel a n k rq count) x (fun res x' => exists V,
    rq = res.1 ++ V /\ parts x' = parts (at_waiting (V ++ waiting (sch x)) x)).
Proof.
  induction fuel as [|fuel IH]; intros rq count x Hfuel; [lia|]. cbn [priority_loop].
  assert (Hstop : forall x', parts x' = parts x -> exists V,
    rq = (rq, count).1 ++ V /\ parts x' = parts (at_waiting (V ++ waiting (sch x)) x)).
  { intros x' H. exists []. cbn. rewrite app_nil_r. split; [done|]. by destruct x as [[]]. }
  eapply steady_step; [apply steady_on_sch, calm_group|]. intros g x1 H1.
  destruct (last rq) as [v|] eqn:Hlast; [|by apply ends_ret, Hstop].
  apply last_removelast in Hlast.
  eapply steady_step; [apply steady_on_sch, calm_group|]. intros vg x2 H2.
  destruct (key_ltb _ _); [|apply ends_ret, Hstop; congruence]. apply ends_get.
  eapply steady_step; [apply steady_lift; intros e; apply me_can_allocate|]. intros ca x3 H3.
  eapply steady_step.
  { apply steady_lift. destruct (_ && _); [apply fine_budget|apply fine_ok]. }
  intros [] x4 H4; [apply ends_ret, Hstop; congruence|].
  eapply steady_step; [apply steady_on_sch, calm_new_tokens|]. intros m x5 H5.
  eapply steady_step; [by apply steady_modify|]. intros [] x6 H6.
  eapply steady_step; [apply steady_on_sch, calm_group|]. intros vg' x7 H7.
  eapply steady_step; [by apply steady_modify|]. intros [] x8 H8.
  eapply steady_step; [apply steady_on_sch, calm_preempt|]. intros ml x9 H9.
  assert (H : parts x9 = parts x) by congruence. clear H1 H2 H3 H4 H5 H6 H7 H8 H9.
  unfold mod_sch. apply ends_modify. eapply ends_weaken.
  { apply IH. rewrite Hlast, length_app in Hfuel. cbn in Hfuel. lia. }
  intros [rq' count'] x10 (V & Hrq & Hp). exists (V ++ [v]). cbn in Hrq |- *. split.
  { rewrite Hlast, Hrq. by rewrite (assoc_L (++)). }
  rewrite Hp. cbn. rewrite (parts_waiting _ _ H). rewrite <- (assoc_L (++)).
  by apply (at_waiting_parts _ _ _ H).
Qed.

Lemma schedule_priority_ok x :
  ends E (schedule_priority_preemption hash_pair cfg cache) x (fun _ x' => exists w r,
    parts x' = parts (with_sch (with_running r (with_waiting w (sch x))) x) /\
    w ++ r ≡ₚ waiting (sch x) ++ running (sch x)).
Proof.
  unfold schedule_priority_preemption. apply ends_get. set (rq := py_sorted _ _).
  assert (Hrq : rq ≡ₚ running (sch x)) by apply py_sorted_perm.
  eapply (ends_bind _ _ _ _ (fun res x' => exists w, parts x' = parts (at_waiting w x) /\
    w ++ res.1 ≡ₚ waiting (sch x) ++ running (sch x))).
  - destruct (waiting (sch x)) as [|a q] eqn:Hq.
    + apply ends_ret. exists []. split; [|by rewrite Hrq]. rewrite <- Hq. by destruct x as [[]].
    + unfold pop_waiting, mod_sch. apply ends_modify. rewrite Hq.
      eapply steady_step; [apply steady_on_sch, calm_group|]. intros g x1 H1. cbv zeta.
      eapply steady_step; [apply steady_on_sch, calm_new_tokens|]. intros n x2 H2.
      eapply ends_bind; [apply priority_loop_ok; lia|]. intros [r c] x3 (V & HV & H3).
      apply ends_modify, ends_ret. rewrite H1 in H2. cbn in HV |- *.
      rewrite (parts_waiting _ _ H2) in H3. cbn in H3.
      exists (a :: V ++ q). split.
      * pose proof (parts_waiting _ _ H3) as Hw. cbn in Hw. rewrite Hw.
        change (parts (at_waiting (a :: V ++ q) x3) = parts (at_waiting (a :: V ++ q) x)).
        by rewrite (at_waiting_parts _ _ _ H3), at_waiting_twice, (at_waiting_parts _ _ _ H2).
      * rewrite <- Hrq, HV. solve_Permutation.
  - intros [r c] x1 (w & H1 & Hw). cbn in Hw. unfold mod_sch. apply ends_modify, ends_modify, ends_ret.
    exists (py_sorted (priority_of (sch x1)) (waiting (sch x1))), r. split.
    + unfold parts, queues in H1. injection H1 as E1 E2 E3 E4 E5 E6 E7.
      unfold parts, queues. cbn. unfold run_lists, swp_lists, pre_lists. cbn in *. congruence.
    + rewrite py_sorted_perm. pose proof (parts_waiting _ _ H1) as Hx. cbn in Hx. by rewrite Hx.
Qed.

(** ** Where every group is *)

Definition run_ids (o : SchedulerRunningOutputs) : list Z :=
  ids (decode_seq_groups o) ++ ids (prefill_seq_groups o) ++ preempted o ++ swapped_out o.
Definition swp_ids (o : SchedulerSwappedInOutputs) : list Z :=
  ids (in_decode_seq_groups o) ++ ids (in_prefill_seq_groups o) ++ infeasible_seq_groups o.
Definition pre_ids (o : SchedulerPrefillOutputs) : list Z := ids (seq_groups o) ++ ignored_seq_groups o.
Definition all_queued s : list Z := waiting s ++ running s ++ swapped s.
Definition places x : list Z :=
  all_queued (sch x) ++ run_ids (run x) ++ swp_ids (swp x) ++ pre_ids (pre x).

(** The groups of [q] are those of [q'] and those set aside. *)
Definition leaves_aside (q q' stopped stopped' : list Z) : Prop := exists St F,
  q' ++ St ++ F ≡ₚ q /\ stopped' = stopped ++ St /\ set_aside St F.

Definition kept x x' : Prop :=
  leaves_aside (places x) (places x') (async_stopped (sch x)) (async_stopped (sch x')).

Lemma leaves_trans q q1 q2 t t1 t2 : leaves_aside q q1 t t1 -> leaves_aside q1 q2 t1 t2 -> leaves_aside q q2 t t2.
Proof.
  intros (St & F & H1 & -> & H2) (St' & F' & H3 & -> & H4). exists (St ++ St'), (F ++ F').
  split; [|split; [by rewrite (assoc_L (++))|by apply set_aside_app]]. rewrite <- H1, <- H3. solve_Permutation.
Qed.
Lemma leaves_perm q q' t t' : q' ≡ₚ q -> t' = t -> leaves_aside q q' t t'.
Proof. intros H ->. exists [], []. rewrite !app_nil_r. auto using set_aside_nil. Qed.
Lemma kept_trans x x1 x2 : kept x x1 -> kept x1 x2 -> kept x x2.
Proof. apply leaves_trans. Qed.
Lemma kept_refl x : kept x x.
Proof. by apply leaves_perm. Qed.
#[local] Hint Resolve kept_refl : core.

Lemma run_lists_ids o o' : run_lists o' = run_lists o -> run_ids o' = run_ids o.
Proof. unfold run_lists, run_ids. congruence. Qed.
Lemma swp_lists_ids o o' : swp_lists o' = swp_lists o -> swp_ids o' = swp_ids o.
Proof. unfold swp_lists, swp_ids. congruence. Qed.
Lemma pre_lists_ids o o' : pre_lists o' = pre_lists o -> pre_ids o' = pre_ids o.
Proof. unfold pre_lists, pre_ids. congruence. Qed.

Lemma running_places c x : run_ids (run x) = [] ->
  ends E (schedule_running hash_pair cfg cache callback c) x (fun _ x' => kept x x' /\
    swp_ids (swp x') = swp_ids (swp x) /\ pre_ids (pre x') = pre_ids (pre x)).
Proof.
  intros H0. eapply ends_weaken; [apply schedule_running_took|].
  intros [] x' (n & K & V & [H1 H2 (St & C & D & P & HK & HC & Ha & Hn & Hd & Hp) (U & F & R & S & HV & HU & HF & Hr & Hs)
    H6%swp_lists_ids H7%pre_lists_ids] & Hq).
  split; [|done]. exists St, F. cbn in *. split; [|by split].
  unfold places, all_queued, run_ids. unfold run_ids in H0. rewrite H0, H1, H2, Hd, Hp, Hr, Hs, H6, H7, Hq.
  apply so_perm in HK, HC, HV, HU. rewrite <- (Permutation_rev V), HK, HC, HV, HU. solve_Permutation.
Qed.

Lemma prefills_places c x : pre_ids (pre x) = [] ->
  ends E (schedule_prefills hash_pair cfg cache time c) x (fun _ x' => kept x x' /\
    swp_ids (swp x') = swp_ids (swp x) /\ run_ids (run x') = run_ids (run x)).
Proof.
  intros H0. eapply ends_weaken; [apply schedule_prefills_ok|].
  intros [] x' (F & q & T & L & A & I & [H1 H2 H3 H4%run_lists_ids H5%swp_lists_ids H6 H7] & [Hw HF] & HT & Hq).
  split; [|done]. apply leaves_perm; [|done]. cbn in *.
  unfold places, all_queued, pre_ids. unfold pre_ids in H0. rewrite H0, H1, H2, H4, H5, H6, H7, Hw, Hq.
  apply so_perm in HF, HT. rewrite HF, HT. solve_Permutation.
Qed.

Lemma swapped_places c x : swp_ids (swp x) = [] ->
  ends E (schedule_swapped hash_pair cfg cache c) x (fun _ x' => kept x x' /\
    pre_ids (pre x') = pre_ids (pre x) /\ run_ids (run x') = run_ids (run x)).
Proof.
  intros H0. eapply ends_weaken; [apply schedule_swapped_ok|].
  intros [] x' (F & q & T & L & D & P & I & [H1 H2 H3 H4%run_lists_ids H5%pre_lists_ids H6 H7 H8] & [Hw HF] & HT & Hq).
  split; [|done]. apply leaves_perm; [|done]. cbn in *.
  unfold places, all_queued, swp_ids. unfold swp_ids in H0. rewrite H0, H1, H2, H4, H5, H6, H7, H8, Hw, Hq.
  apply so_perm in HF. rewrite HF, HT. solve_Permutation.
Qed.

Lemma parts_lists x x' : parts x' = parts x ->
  queues (sch x') = queues (sch x) /\ run_lists (run x') = run_lists (run x) /\
  swp_lists (swp x') = swp_lists (swp x) /\ pre_lists (pre x') = pre_lists (pre x).
Proof.
  intros H. pose proof (f_equal (fun p => p.1.1.1) H). pose proof (f_equal (fun p => p.1.1.2) H).
  pose proof (f_equal (fun p => p.1.2) H). pose proof (f_equal snd H). done.
Qed.

Lemma priority_places x :
  ends E (schedule_priority_preemption hash_pair cfg cache) x (fun _ x' => kept x x' /\
    swp_ids (swp x') = swp_ids (swp x) /\ run_ids (run x') = run_ids (run x)).
Proof.
  eapply ends_weaken; [apply schedule_priority_ok|].
  intros _ x' (w & r & (H1 & H2%run_lists_ids & H3%swp_lists_ids & H4%pre_lists_ids)%parts_lists & Hp).
  split; [|done]. injection H1 as E1 E2 E3 E4. apply leaves_perm; [|done]. cbn in *.
  unfold places, all_queued. rewrite E1, E2, E3, H2, H3, H4, (assoc_L (++) w), Hp. solve_Permutation.
Qed.

(** The parts of a step, from a frame with empty outputs. *)
Definition no_outputs x : Prop := run_ids (run x) = [] /\ swp_ids (swp x) = [] /\ pre_ids (pre x) = [].

Lemma default_parts_kept x : no_outputs x ->
  ends E (default_parts hash_pair cfg cache time callback) x (fun _ x' => kept x x').
Proof.
  intros (H1 & H2 & H3). unfold default_parts. apply ends_get.
  eapply (ends_bind _ _ _ _ (fun _ x1 => kept x x1 /\
    swp_ids (swp x1) = swp_ids (swp x) /\ run_ids (run x1) = run_ids (run x))).
  { destruct (nonempty _); [by apply ends_ret|by apply prefills_places]. }
  intros [] x1 (K1 & S1 & R1). apply ends_get. destruct (nonempty _); [by apply ends_ret|].
  eapply (ends_bind _ _ _ _ (fun _ x2 => kept x1 x2 /\
    swp_ids (swp x2) = swp_ids (swp x1) /\ run_ids (run x2) = run_ids (run x1))).
  { destruct (String.eqb _ _); [|by apply ends_ret].
    eapply ends_bind; [apply priority_places|]. intros n x2 H. by apply ends_ret. }
  intros [] x2 (K2 & S2 & R2). eapply ends_bind; [apply running_places; congruence|].
  intros [] x3 (K3 & S3 & P3). apply ends_get.
  pose proof (kept_trans _ _ _ K1 (kept_trans _ _ _ K2 K3)) as K.
  destruct (_ =? 0); [|by apply ends_ret].
  eapply ends_weaken; [apply swapped_places; congruence|].
  intros [] x4 (K4 & _). exact (kept_trans _ _ _ K K4).
Qed.

Lemma chunked_parts_kept x : no_outputs x ->
  ends E (chunked_parts hash_pair cfg cache time callback) x (fun _ x' => kept x x').
Proof.
  intros (H1 & H2 & H3). unfold chunked_parts.
  eapply ends_bind; [by apply running_places|]. intros [] x1 (K1 & S1 & P1). apply ends_get.
  eapply (ends_bind _ _ _ _ (fun _ x2 => kept x x2 /\ pre_ids (pre x2) = [])).
  { destruct (_ =? 0); [|apply ends_ret; split; [done|congruence]].
    eapply ends_weaken; [apply swapped_places; congruence|]. intros [] x2 (K2 & P2 & R2).
    split; [exact (kept_trans _ _ _ K1 K2)|congruence]. }
  intros [] x2 [K2 P2]. eapply ends_weaken; [by apply prefills_places|].
  intros [] x3 (K3 & _). exact (kept_trans _ _ _ K2 K3).
Qed.

(** [__post_init__] at most reorders the batch. *)
Record same_batch (o o' : SchedulerOutputs) : Prop := {
  sb_scheduled : ids (scheduled_seq_groups o') ≡ₚ ids (scheduled_seq_groups o);
  sb_prefills : num_prefill_groups o' = num_prefill_groups o;
  sb_ignored : out_ignored_seq_groups o' = out_ignored_seq_groups o;
  sb_preempted : out_preempted o' = out_preempted o
}.

Lemma post_init_batch o s o' : post_init o s = Ok o' -> same_batch o o'.
Proof.
  unfold post_init. destruct (_ && _); [done|]. destruct (existsb _ _); [|by intros [= <-]].
  destruct (_ && _); [|done]. intros [= <-]. split; try done. cbn. unfold ids. by rewrite py_sorted_perm.
Qed.
Lemma fine_post_init o s : fine (post_init o s).
Proof. unfold post_init. calmly. Qed.

(** At the end of the step every group is in a queue or reported as ignored. *)
Definition placed x (o : SchedulerOutputs) x' : Prop :=
  all_queued (sch x') ++ out_ignored_seq_groups o ≡ₚ places x /\
  async_stopped (sch x') = async_stopped (sch x).

Lemma steady_check_budget : steady (check_budget cfg).
Proof.
  intros x. unfold check_budget. apply ends_get. apply ends_assert; [by apply E_other|intros _].
  apply steady_assert.
Qed.

Lemma ends_post_init o s x (Q : SchedulerOutputs -> frame -> Prop) :
  (forall o', same_batch o o' -> Q o' x) -> ends E (lift (post_init o s)) x Q.
Proof.
  intros HQ. unfold ends, lift. destruct (post_init o s) as [o'|e] eqn:Ho.
  - apply HQ. by eapply post_init_batch.
  - by apply (fine_post_init _ _ _ Ho).
Qed.

Lemma map_empty {A C} (f : A -> C) l : Nat.eqb (length l) 0 = true -> map f l = [].
Proof. by destruct l. Qed.

Lemma default_outputs_placed x : ends E (default_outputs cfg) x (placed x).
Proof.
  unfold default_outputs, mod_sch.
  eapply steady_step; [apply steady_check_budget|]. intros [] x1 H1. apply ends_get.
  apply ends_modify, ends_modify, ends_modify.
  apply ends_assert; [by apply E_other|intros Hp%(map_empty seq_group)].
  apply ends_assert; [by apply E_other|intros Hq%(map_empty seq_group)]. apply ends_get, ends_post_init.
  intros o Ho%sb_ignored. cbn in Hp, Hq, Ho. unfold placed. rewrite Ho.
  apply parts_lists in H1 as (HQ & HR%run_lists_ids & HS%swp_lists_ids & HP%pre_lists_ids).
  injection HQ as E1 E2 E3 E4. unfold places, all_queued. rewrite <- E1, <- E2, <- E3, <- E4, <- HR, <- HS, <- HP.
  split; [|done]. unfold run_ids, swp_ids, pre_ids, ids. rewrite Hp, Hq. cbn.
  rewrite <- (Permutation_rev (preempted (run x1))). solve_Permutation.
Qed.

Lemma order_finishing_perm l s : order_finishing_prefills_first l s ≡ₚ ids l.
Proof.
  unfold order_finishing_prefills_first, ids. induction l as [|y l IH]; [done|]. cbn [List.filter].
  destruct (finishes s y); cbn; [by rewrite IH|]. rewrite <- Permutation_middle. by rewrite IH.
Qed.

Lemma chunked_outputs_placed x : ends E (chunked_outputs cfg) x (placed x).
Proof.
  unfold chunked_outputs, mod_sch.
  eapply steady_step; [apply steady_check_budget|]. intros [] x1 H1. apply ends_get.
  apply ends_modify, ends_modify, ends_modify, ends_get, ends_post_init.
  intros o Ho%sb_ignored. cbn in Ho. unfold placed. rewrite Ho.
  apply parts_lists in H1 as (HQ & HR%run_lists_ids & HS%swp_lists_ids & HP%pre_lists_ids).
  injection HQ as E1 E2 E3 E4. unfold places, all_queued. rewrite <- E1, <- E2, <- E3, <- E4, <- HR, <- HS, <- HP.
  split; [|done]. unfold run_ids, swp_ids, pre_ids. cbn.
  rewrite order_finishing_perm, <- (Permutation_rev (preempted (run x1))). unfold ids. solve_Permutation.
Qed.

(** ** [_schedule] *)

Lemma fine_from_queues r w : fine (Partial.from_queues cfg r w).
Proof.
  assert (Hr : forall l p n, fine (Partial.count_running cfg l p n)).
  { induction l as [|g l IH]; intros p n; cbn [Partial.count_running]; calmly; apply IH. }
  assert (Hw : forall l p n m, fine (Partial.count_waiting cfg l p n m)).
  { induction l as [|g l IH]; intros p n m; cbn [Partial.count_waiting]; calmly; apply IH. }
  unfold Partial.from_queues. by calmly.
Qed.
Lemma calm_all_groups l : calm (all_groups l).
Proof. induction l as [|a l IH]; cbn [all_groups]; calmly. Qed.

Lemma with_frame_ends {A} b loras meta (f : M frame A) s (Q : A -> t -> Prop) :
  (forall x, sch x = s -> no_outputs x -> ends E f x (fun y x' => Q y (sch x'))) ->
  ends E (with_frame b loras meta f) s Q.
Proof.
  intros Hf. set (x := Frame s b loras meta (empty_running 0) empty_swapped_in empty_prefill).
  assert (H : no_outputs x) by done. specialize (Hf x eq_refl H). unfold ends in Hf.
  unfold ends, with_frame. fold x. by destruct (f x) as [[] ?].
Qed.

Definition conserves s (o : SchedulerOutputs) s' : Prop :=
  leaves_aside (all_queued s) (all_queued s' ++ out_ignored_seq_groups o) (async_stopped s) (async_stopped s').

Lemma placed_conserves x x1 x2 o : no_outputs x -> kept x x1 -> placed x1 o x2 -> conserves (sch x) o (sch x2).
Proof.
  intros (H1 & H2 & H3) K [P1 P2]. unfold conserves.
  assert (Hq : places x = all_queued (sch x)) by (unfold places; by rewrite H1, H2, H3, !app_nil_r).
  rewrite <- Hq. eapply leaves_trans; [exact K|]. by apply leaves_perm.
Qed.

Lemma queues_conserves s s1 o s' : queues s1 = queues s -> conserves s1 o s' -> conserves s o s'.
Proof. intros H Hc. injection H as E1 E2 E3 E4. unfold conserves, all_queued in *. by rewrite <- E1, <- E2, <- E3, <- E4. Qed.

Lemma default_conserves s : ends E (schedule_default hash_pair cfg cache time callback) s (conserves s).
Proof.
  unfold schedule_default. apply ends_get. eapply ends_bind; [apply calm_all_groups|]. intros l s1 H1.
  eapply ends_weaken.
  - apply (with_frame_ends _ _ _ _ _ (conserves s1)). intros x <- Hx.
    eapply ends_bind; [by apply default_parts_kept|]. intros [] x1 K.
    eapply ends_weaken; [apply default_outputs_placed|]. intros o x2 P. by eapply placed_conserves.
  - intros o s2. by apply queues_conserves.
Qed.

Lemma chunked_conserves s : ends E (schedule_chunked_prefill hash_pair cfg cache time callback) s (conserves s).
Proof.
  unfold schedule_chunked_prefill. apply ends_get.
  eapply ends_bind; [apply calm_all_groups|]. intros l s1 H1.
  eapply ends_bind; [apply calm_all_groups|]. intros l' s2 H2. apply ends_lift; [by apply fine_from_queues|].
  intros meta _. eapply ends_weaken.
  - apply (with_frame_ends _ _ _ _ _ (conserves s2)). intros x <- Hx.
    eapply ends_bind; [by apply chunked_parts_kept|]. intros [] x1 K.
    eapply ends_weaken; [apply chunked_outputs_placed|]. intros o x2 P. by eapply placed_conserves.
  - intros o s3. apply queues_conserves. congruence.
Qed.

Lemma schedule_queues_conserves s : ends E (schedule_queues hash_pair cfg cache time callback) s (conserves s).
Proof.
  unfold schedule_queues. destruct (chunked_prefill_enabled cfg); [apply chunked_conserves|apply default_conserves].
Qed.

(** ** [schedule] *)

Lemma calm_seq_inputs l now : forall data tables, calm (seq_inputs hash_pair l now data tables).
Proof.
  induction l as [|q l IH]; intros data tables; cbn [seq_inputs]; calmly.
  - intros e. apply me_block_table.
  - apply calm_on_manager, me_access.
Qed.
Lemma calm_take_deltas a l : forall m, calm (take_deltas a l m).
Proof. induction l as [|[i d] l IH]; intros m; cbn [take_deltas]; calmly. Qed.
Lemma fine_prompt_flags g p n : fine (prompt_flags g p n).
Proof. unfold prompt_flags. calmly. Qed.
#[local] Hint Resolve calm_seq_inputs calm_take_deltas fine_prompt_flags : calm.

Lemma calm_group_metadata y now : calm (group_metadata hash_pair cfg cache y now).
Proof.
  unfold group_metadata. calmly.
  - intros e. apply me_cross_table.
  - apply calm_on_manager, me_common.
Qed.
#[local] Hint Resolve calm_group_metadata : calm.

Lemma calm_all_metadata now l : forall allow, calm (all_metadata hash_pair cfg cache l now allow).
Proof.
  induction l as [|y l IH]; intros allow; cbn [all_metadata]; calmly. unfold allow_async. calmly.
Qed.

Lemma schedule_conserves now s :
  ends E (schedule hash_pair cfg cache time callback now) s (fun res s' => conserves s res.1.2 s').
Proof.
  unfold schedule. eapply ends_bind; [apply schedule_queues_conserves|]. intros o s1 P.
  eapply ends_bind; [apply calm_all_metadata|]. intros res s2 H2.
  eapply ends_bind.
  { apply calm_for_each. intros y. apply calm_bind; [apply calm_group|]. intros g.
    apply calm_on_manager, me_mark. }
  intros [] s3 H3. apply ends_ret. rewrite H2 in H3. injection H3 as E1 E2 E3 E4.
  unfold conserves, all_queued in *. cbn. by rewrite E1, E2, E3, E4.
Qed.

(** ** The order of the queues in a step without prefills *)

Lemma rev_sublist (l k : list Z) : l `sublist_of` k -> rev l `sublist_of` rev k.
Proof.
  induction 1; cbn; [done|by apply sublist_app|by apply sublist_inserts_r].
Qed.
Lemma split_rev l l1 l2 : split_of l l1 l2 -> split_of (rev l) (rev l1) (rev l2).
Proof.
  intros [H1 H2 H3]. split; [by apply rev_sublist|by apply rev_sublist|].
  by rewrite <- !Permutation_rev.
Qed.

(** [K] was kept or stopped; [V] was preempted or finished, the last group of the
    queue first. *)
Record decoded x x' (K V : list Z) : Prop := {
  dc_running : running (sch x) = K ++ running (sch x') ++ rev V;
  dc_waiting : waiting (sch x') `sublist_of` waiting (sch x);
  dc_kept : exists C St, split_of K C St /\
    split_of C (ids (decode_seq_groups (run x'))) (ids (prefill_seq_groups (run x'))) /\
    async_stopped (sch x') = async_stopped (sch x) ++ St /\ (callback = None -> St = []);
  dc_victims : exists U F, split_of V U F /\ split_of U (preempted (run x')) (swapped_out (run x')) /\
    Forall finishes_victim F;
  dc_swap_in : preempted (run x') ++ swapped_out (run x') <> [] -> in_decode_seq_groups (swp x') = []
}.

Lemma drained_sublist q q' F T L : drained q q' F T L -> L ++ q' `sublist_of` q.
Proof. intros [-> H]. apply sublist_app; [by eapply so_right|done]. Qed.

Lemma num_preempted_length o : num_preempted o = Z.of_nat (length (preempted o ++ swapped_out o)).
Proof. unfold num_preempted. rewrite length_app. lia. Qed.

Lemma prefills_decoded x : no_outputs x ->
  ends E (if nonempty (swapped (sch x)) then mret tt
          else schedule_prefills hash_pair cfg cache time false) x (fun _ x' =>
    running (sch x') = running (sch x) /\ waiting (sch x') `sublist_of` waiting (sch x) /\
    swp_ids (swp x') = [] /\ async_stopped (sch x') = async_stopped (sch x)).
Proof.
  intros (_ & Hs & _). destruct (nonempty _); [by apply ends_ret|].
  eapply ends_weaken; [apply schedule_prefills_ok|].
  intros [] x' (F & q & T & L & A & I & [H1 _ H3 _ H5%swp_lists_ids _ _] & Hd & _ & Hq).
  split; [exact H1|]. split; [rewrite Hq; by eapply drained_sublist|].
  split; [cbn in H5; congruence|exact H3].
Qed.

Lemma default_parts_decoded x : no_outputs x -> String.eqb (policy cfg) "priority" = false ->
  ends E (default_parts hash_pair cfg cache time callback) x (fun _ x' =>
    seq_groups (pre x') = [] -> exists K V, decoded x x' K V).
Proof.
  intros Hx Hpolicy. unfold default_parts. apply ends_get.
  eapply ends_bind; [by apply prefills_decoded|]. intros [] x1 (Hr & Hw & Hs & Hst). apply ends_get.
  destruct (nonempty (seq_groups (pre x1))) eqn:Hpre.
  { apply ends_ret. intros Hnil. by rewrite Hnil in Hpre. }
  rewrite Hpolicy. eapply ends_step; [done|]. eapply ends_bind; [apply schedule_running_took|].
  intros [] x2 (n & K & V & [T1 _ (St & C & D & P & HK & HC & Ha & Hnone & Hd & Hp)
    (U & F & R & X & HV & HU & HF & Hre & Hsw) T6 _] & Hq).
  cbn in *. apply ends_get.
  assert (G : decoded x x2 K V).
  { rewrite <- Hre, <- Hsw in HU. rewrite <- Hd, <- Hp in HC. split; [congruence|by rewrite T1| | |].
    - exists C, St. rewrite <- Hst. done.
    - by exists U, F.
    - intros _. apply swp_lists_ids in T6. rewrite Hs in T6. unfold swp_ids in T6.
      apply app_nil in T6 as [T6 _]. by destruct (in_decode_seq_groups (swp x2)). }
  destruct (num_preempted (run x2) =? 0) eqn:Hn; [|apply ends_ret; intros _; by exists K, V].
  rewrite num_preempted_length in Hn.
  eapply ends_weaken; [apply schedule_swapped_ok|].
  intros [] x3 (F' & q & T & L & D' & P' & I & [S1 S2 S3 S4 _ _ _ _] & _) _. exists K, V. cbn in *.
  unfold run_lists in S4. injection S4 as E1 E2 E3 E4. destruct G as [G1 G2 G3 G4 G5].
  split; [congruence|congruence|by rewrite E1, E2, S3|by rewrite E3, E4|].
  rewrite E3, E4. intros HV'. apply Z.eqb_eq in Hn. 
  by apply Nat2Z.inj with (m := O), nil_length_inv in Hn.
Qed.

(** A step of the default policy that admits no prompt: the batch is a prefix
    [Z] of the running queue, less the groups [St] that are stopped, with the groups
    [J] swapped in; the victims [V] are its end, and those that were not finished
    and are to be recomputed, [P], go back to the front of the waiting queue, all
    in the order they had. *)
Record decode_step s o s' : Prop := {
  ds_lists : exists Z R V K St J U F P X W Y,
    running s = Z ++ R ++ V /\ running s' = R ++ K ++ J /\
    split_of Z K St /\ async_stopped s' = async_stopped s ++ St /\
    ids (scheduled_seq_groups o) ≡ₚ K ++ J /\
    waiting s' = P ++ W /\ W `sublist_of` waiting s /\
    swapped s' = Y ++ rev X /\ split_of V U F /\ split_of U P X /\ set_aside St F /\
    (P ++ X <> [] -> J = []) /\ out_preempted o = Z.of_nat (length (P ++ X))
}.

Lemma default_outputs_step x1 x2 :
  (seq_groups (pre x2) = [] -> exists K V, decoded x1 x2 K V) ->
  ends E (default_outputs cfg) x2 (fun o x' => num_prefill_groups o = 0 -> decode_step (sch x1) o (sch x')).
Proof.
  intros Hparts. unfold default_outputs, mod_sch.
  eapply steady_step; [apply steady_check_budget|]. intros [] x3 HX. apply ends_get.
  apply ends_modify, ends_modify, ends_modify.
  apply ends_assert; [by apply E_other|intros Hp%(map_empty seq_group)].
  apply ends_assert; [by apply E_other|intros _]. apply ends_get, ends_post_init.
  intros o [Hb Hn _ Hpre] Hz. cbn in Hp, Hb, Hn, Hpre. rewrite Hz in Hn.
  apply parts_lists in HX as (HQ & HR & HS & HP). injection HQ as E1 E2 E3 E4.
  unfold run_lists in HR. injection HR as R1 R2 R3 R4.
  unfold swp_lists in HS. injection HS as S1 S2 S3.
  assert (Hnil : seq_groups (pre x3) = []) by (destruct (seq_groups (pre x3)); [done|cbn in Hn; lia]).
  destruct Hparts as (K & V & [H1 H2 (C & St & HK & HC & Ha & Hnone) (U & F & HV & HU & HF) H5]).
  { unfold pre_lists in HP. injection HP as HP _. rewrite Hnil in HP. by destruct (seq_groups (pre x2)). }
  assert (HCd : C = ids (decode_seq_groups (run x3))).
  { apply split_nil_right. rewrite R1, <- (eq_trans (eq_sym R2) Hp). done. }
  rewrite Hnil in Hb. split.
  exists K, (running (sch x2)), (rev V), C, St, (ids (in_decode_seq_groups (swp x3))), (rev U), (rev F),
    (rev (preempted (run x3))), (rev (swapped_out (run x3))), (waiting (sch x2)), (swapped (sch x2)).
  assert (Hlen : rev (preempted (run x3)) ++ rev (swapped_out (run x3)) ≡ₚ preempted (run x2) ++ swapped_out (run x2)).
  { by rewrite <- !Permutation_rev, R3, R4. }
  cbn. rewrite E1, E2, E3, E4, Hnil, rev_involutive, <- R3, <- R4 in *. cbn [map app]. split_and!; try done.
  - by rewrite HCd.
  - rewrite Hb, HCd. unfold ids. by rewrite !map_app.
  - by apply split_rev.
  - by apply split_rev.
  - split; [done|]. by apply Forall_rev.
  - intros HV'. rewrite S1. rewrite H5; [done|]. intros Hn'. apply HV'.
    by apply app_nil in Hn' as [-> ->].
  - rewrite Hpre, num_preempted_length. by rewrite Hlen.
Qed.

Lemma default_decode_step s : String.eqb (policy cfg) "priority" = false ->
  ends E (schedule_default hash_pair cfg cache time callback) s (fun o s' =>
    num_prefill_groups o = 0 -> decode_step s o s').
Proof.
  intros Hpolicy. unfold schedule_default. apply ends_get.
  eapply ends_bind; [apply calm_all_groups|]. intros l s1 H1.
  injection H1 as E1 E2 E3 E4. eapply ends_weaken.
  - apply (with_frame_ends _ _ _ _ _ (fun o s' => num_prefill_groups o = 0 -> decode_step s1 o s')).
    intros x <- Hx. eapply ends_bind; [by apply default_parts_decoded|]. intros [] x1 K.
    by apply default_outputs_step.
  - intros o s2 Hd Hz. destruct (Hd Hz) as [G]. split. by rewrite <- E1, <- E2, <- E4.
Qed.
End Correct.
