(* ===== verification/V0ManagerErrors.v ===== *)
(** * The exceptions of the v0 block manager

    The calls of [BlockManager] that the scheduler makes, over any device-aware
    allocator, raise only exceptions of a set [E] when the allocator does; and so
    does the allocator of [CpuGpuAllocator] with the naive allocators, in every
    state.  [E] is any set that lacks at most [OutOfFuel]: no loop of these calls
    exceeds its bound. *)
From S2P Require Import Prelude.
From S2P Require Import PyDict.
From S2P Require Import BlockCommon.
From S2P Require Import NaiveBlock.
From S2P Require Import BlockInterfaces.
From S2P Require Import CpuGpuAllocator.
From S2P Require Import PrefixCaching.
From S2P Require Import BlockTable.
From S2P Require Import ComputedBlocks.
From S2P Require Import BlockManager.
From S2P Require Import BlockSpaceManager.
From S2P Require Import V0SchedulerCorrect.

#[local] Existing Instance CpuGpu.cpu_gpu_allocator.

(** A computation, or a value, that raises only exceptions of [E]. *)
Definition only {S A} (E : exn -> Prop) (m : M S A) : Prop := forall s, ends E m s (fun _ _ => True).
Definition only_err {A} (E : exn -> Prop) (r : result A) : Prop := forall e, r = Err e -> E e.

(** The calls of the allocator that the manager makes. *)
Class AllocatorErrors (E : exn -> Prop) (S R : Type) `{!DeviceAwareBlockAllocator S R} : Prop := {
  ae_append : forall r l, only E (block_append_token_ids r l);
  ae_null : only E allocate_or_get_null_block;
  ae_mutable : forall p d x, only E (allocate_mutable_block p d x);
  ae_immutable : forall p l d x, only E (allocate_immutable_blocks p l d x);
  ae_free : forall r, only E (free_block r);
  ae_fork : forall r, only E (fork_blocks r);
  ae_physical : forall d b s, only_err E (get_physical_block_id d b s);
  ae_swap : forall l d d', only E (swap_blocks l d d');
  ae_touched : forall l d, only E (get_num_full_blocks_touched l d);
  ae_clear : only E clear_copy_on_writes;
  ae_accessed : forall l now h, only E (mark_blocks_as_accessed l now h);
  ae_observe : forall l h, only E (observe_cache_accesses l h);
  ae_computed : forall l, only E (BlockInterfaces.mark_blocks_as_computed l);
  ae_find : forall l d s, only_err E (find_cached_blocks_prefix l d s)
}.

Create HintDb errs discriminated.
#[local] Hint Constants Opaque : errs.

Section Errors.
Variable E : exn -> Prop.
Hypothesis E_other : forall e, e <> OutOfFuel -> E e.

(** ** Computations *)

Section Structure.
Context {S : Type}.

Lemma only_ret {A} (a : A) : only (S := S) E (mret a).
Proof. by intros s. Qed.
Lemma only_raise {A} e : e <> OutOfFuel -> only (S := S) (A := A) E (raise e).
Proof. intros He s. by apply E_other. Qed.
Lemma only_gets {A} (f : S -> A) : only E (gets f).
Proof. by intros s. Qed.
Lemma only_modify (f : S -> S) : only E (modify f).
Proof. by intros s. Qed.
Lemma only_lift {A} (r : result A) : only_err E r -> only (S := S) E (lift r).
Proof. intros Hr s. unfold ends, lift. destruct r; [done|by apply Hr]. Qed.
Lemma only_assert b : only (S := S) E (assert_ b).
Proof. intros s. destruct b; [done|by apply E_other]. Qed.
Lemma only_bind {A B} (m : M S A) (f : A -> M S B) :
  only E m -> (forall a, only E (f a)) -> only E (m ≫= f).
Proof. intros Hm Hf s. eapply ends_bind; [apply Hm|]. intros a s' _. apply Hf. Qed.
Lemma only_get_bind {A} (f : S -> M S A) : (forall s, only E (f s)) -> only E (get ≫= f).
Proof. intros Hf s. by apply ends_get, Hf. Qed.
Lemma only_for_each {A} (l : list A) (body : A -> M S unit) : (forall y, only E (body y)) -> only E (for_each l body).
Proof. intros Hb. induction l as [|y l IH]; cbn [for_each]; [apply only_ret|by apply only_bind]. Qed.
Lemma only_map_each {A B} (l : list A) (f : A -> M S B) : (forall y, only E (f y)) -> only E (map_each l f).
Proof.
  intros Hf. induction l as [|y l IH]; cbn [map_each]; [apply only_ret|].
  apply only_bind; [done|]. intros b. apply only_bind; [done|]. intros bs. apply only_ret.
Qed.
End Structure.

Lemma err_ok {A} (a : A) : only_err E (Ok a).
Proof. by intros e. Qed.
Lemma err_err {A} e : e <> OutOfFuel -> only_err (A := A) E (Err e).
Proof. intros He e' [= <-]. by apply E_other. Qed.
Lemma err_exn {A} e (o : option A) : e <> OutOfFuel -> only_err E (from_option_exn e o).
Proof. intros He. destruct o; [apply err_ok|by apply err_err]. Qed.
Lemma err_bind {A B} (r : result A) (f : A -> result B) :
  only_err E r -> (forall a, only_err E (f a)) -> only_err E (r ≫= f).
Proof. destruct r as [a|e]; [intros _ Hf; apply Hf|intros H _ e' [= <-]; by apply H]. Qed.
Lemma err_fmap {A B} (r : result A) (f : A -> B) : only_err E r -> only_err E (f <$> r).
Proof. destruct r as [a|e]; [intros _; apply err_ok|intros H e' [= <-]; by apply H]. Qed.

#[local] Hint Extern 1 (_ <> OutOfFuel) => discriminate : errs.

Ltac errs_step :=
  lazymatch goal with
  | |- only _ (get ≫= _) => apply only_get_bind; intros ?
  | |- only _ (_ ≫= _) => apply only_bind; [|intros ?]
  | |- only _ (mret _) => apply only_ret
  | |- only _ (raise _) => apply only_raise; discriminate
  | |- only _ (lift _) => apply only_lift
  | |- only _ (gets _) => apply only_gets
  | |- only _ (assert_ _) => apply only_assert
  | |- only _ (modify _) => apply only_modify
  | |- only _ (for_each _ _) => apply only_for_each; intros ?
  | |- only _ (map_each _ _) => apply only_map_each; intros ?
  | |- only _ (match ?y with _ => _ end) => destruct y eqn:?
  | |- only_err _ (match ?y with _ => _ end) => destruct y eqn:?
  | |- only_err _ (_ ≫= _) => apply err_bind; [|intros ?]
  | |- only_err _ (_ <$> _) => apply err_fmap
  | |- only_err _ (Ok _) => apply err_ok
  | |- only_err _ (Err _) => apply err_err; discriminate
  | |- only_err _ (from_option_exn _ _) => apply err_exn; discriminate
  | |- _ => solve [auto 5 with errs nocore]
  end.
Ltac errs := repeat (cbv zeta; errs_step).
(** For a method written as a function of the state. *)
Ltac errs_cases := intros ?; unfold ends; repeat case_match; simplify_eq; done || (by apply E_other).

(** ** The naive allocator *)

Lemma only_incr b : only E (RefCounter.incr b).
Proof. unfold RefCounter.incr. errs_cases. Qed.
Lemma only_decr b : only E (RefCounter.decr b).
Proof. unfold RefCounter.decr. errs_cases. Qed.
Lemma only_counting {A} (f : M RefCounter.t A) : only E f -> only E (Ids.counting f).
Proof. intros Hf s. unfold ends, Ids.counting. specialize (Hf (Ids.refcounts s)). unfold ends in Hf. by destruct (f _) as [[] ?]. Qed.
#[local] Hint Resolve only_incr only_decr only_counting : errs.

Lemma only_allocate_id : only E Ids.allocate_block_id.
Proof.
  intros s. unfold ends, Ids.allocate_block_id. destruct (Ids.free_block_indices s) as [|b l]; [by apply E_other|].
  enough (H : only E (Ids.counting (RefCounter.incr b) ;; mret b)) by apply H. errs.
Qed.
Lemma only_free_id b : only E (Ids.free_block_id b).
Proof. unfold Ids.free_block_id. errs. Qed.
#[local] Hint Resolve only_allocate_id only_free_id : errs.

Lemma only_on_ids {A} (f : M Ids.t A) : only E f -> only E (Naive.on_ids f).
Proof. intros Hf s. unfold ends, Naive.on_ids. specialize (Hf (Naive.ids s)). unfold ends in Hf. by destruct (f _) as [[] ?]. Qed.
Lemma only_on_cow {A} (f : M Cow.t A) : only E f -> only E (Naive.on_cow f).
Proof. intros Hf s. unfold ends, Naive.on_cow. specialize (Hf (Naive.cow s)). unfold ends in Hf. by destruct (f _) as [[] ?]. Qed.
Lemma only_naive_obj p : only E (Naive.obj p).
Proof. intros s. unfold ends, Naive.obj. destruct (_ !! _); [done|by apply E_other]. Qed.
Lemma only_put p o : only E (Naive.put p o).
Proof. apply only_modify. Qed.
Lemma only_record_cow a b : only E (Cow.record_cow a b).
Proof. unfold Cow.record_cow. errs_cases. Qed.
#[local] Hint Resolve only_on_ids only_on_cow only_naive_obj only_put only_record_cow : errs.

Lemma only_init_block prev toks b : only E (Naive.init_block prev toks b).
Proof.
  intros s. unfold ends, Naive.init_block, BlockPool.init_block, Naive.reinit, Naive.append_token_ids_no_cow.
  repeat case_match; simplify_eq; done || (by apply E_other).
Qed.
#[local] Hint Resolve only_init_block : errs.

Lemma only_naive_mutable prev : only E (Naive.allocate_mutable_block prev).
Proof. unfold Naive.allocate_mutable_block. errs. Qed.
Lemma only_naive_free_id p : only E (Naive.free_block_id p).
Proof. unfold Naive.free_block_id. errs. Qed.
#[local] Hint Resolve only_naive_mutable only_naive_free_id : errs.

Lemma err_appendable m b : only_err E (Cow.is_appendable m b).
Proof. unfold Cow.is_appendable, RefCounter.get. errs. Qed.
#[local] Hint Resolve err_appendable : errs.

Lemma only_cow_block p : only E (Naive.cow_block_if_not_appendable p).
Proof. unfold Naive.cow_block_if_not_appendable. errs. Qed.
#[local] Hint Resolve only_cow_block : errs.

Lemma only_naive_append p toks : only E (Naive.append_token_ids p toks).
Proof.
  unfold Naive.append_token_ids. apply only_bind; [apply only_naive_obj|]. intros o.
  destruct (Naive.append_token_ids_no_cow toks o) as [[[]|e] o1] eqn:Ha; [errs|].
  apply only_raise. intros ->. unfold Naive.append_token_ids_no_cow in Ha. by repeat case_match.
Qed.
#[local] Hint Resolve only_naive_append : errs.

Lemma only_naive_immutable prev toks : only E (Naive.allocate_immutable_block prev toks).
Proof. unfold Naive.allocate_immutable_block. errs. Qed.
Lemma only_init_blocks l : forall prev, only E (Naive.init_blocks prev l).
Proof. induction l as [|[toks b] l IH]; intros prev; cbn [Naive.init_blocks]; errs; apply IH. Qed.
#[local] Hint Resolve only_naive_immutable only_init_blocks : errs.
Lemma only_naive_immutables prev l : only E (Naive.allocate_immutable_blocks prev l).
Proof. unfold Naive.allocate_immutable_blocks. errs. Qed.
#[local] Hint Resolve only_naive_immutables : errs.

Lemma err_recursively {B} (prev_of : B -> option Z) objs fuel : forall i,
  only_err E (get_all_blocks_recursively prev_of objs fuel i).
Proof. induction fuel as [|fuel IH]; intros i; cbn [get_all_blocks_recursively]; errs; apply IH. Qed.
Lemma err_source p s : only_err E (Naive.source_blocks p s).
Proof. apply err_recursively. Qed.
#[local] Hint Resolve err_source : errs.

(** ** The allocator of both devices *)

Lemma only_on {A} d (f : M Naive.t A) : only E f -> only E (CpuGpu.on d f).
Proof.
  intros Hf s. unfold ends, CpuGpu.on. specialize (Hf (CpuGpu.allocator d s)). unfold ends in Hf.
  by destruct (f _) as [[] ?].
Qed.
#[local] Hint Resolve only_on : errs.
Lemma only_obj r : only E (CpuGpu.obj r).
Proof. apply only_on, only_naive_obj. Qed.
#[local] Hint Resolve only_obj : errs.
Lemma only_set_block_id r b : only E (CpuGpu.set_block_id r b).
Proof. unfold CpuGpu.set_block_id. errs. Qed.
#[local] Hint Resolve only_set_block_id : errs.
Lemma only_free_block_id d r : only E (CpuGpu.free_block_id d r).
Proof. unfold CpuGpu.free_block_id. errs. Qed.
Lemma only_device_of r : only E (CpuGpu.device_of r).
Proof. unfold CpuGpu.device_of. errs. Qed.
#[local] Hint Resolve only_free_block_id only_device_of : errs.
Lemma only_free_on d r : only E (CpuGpu.free_on d r).
Proof. unfold CpuGpu.free_on. errs. apply only_on, only_modify. Qed.
Lemma only_fork_loop d l : forall prev, only E (CpuGpu.fork_loop d prev l).
Proof. induction l as [|r l IH]; intros prev; cbn [CpuGpu.fork_loop]; errs; apply IH || (apply only_on; errs). Qed.
#[local] Hint Resolve only_free_on only_fork_loop : errs.
Lemma only_swap_in_block d r : only E (CpuGpu.swap_in_block d r).
Proof. unfold CpuGpu.swap_in_block. errs; apply only_on; errs. Qed.
#[local] Hint Resolve only_swap_in_block : errs.

Lemma cpu_gpu_errors : AllocatorErrors E CpuGpu.t CpuGpu.block_ref.
Proof.
  split; cbn.
  - intros r l. unfold CpuGpu.append_token_ids. errs.
  - unfold CpuGpu.allocate_or_get_null_block, CpuGpu.allocate_mutable_block. errs.
  - intros p d x. unfold CpuGpu.allocate_mutable_block. errs.
  - intros p l d x. unfold CpuGpu.allocate_immutable_blocks. errs.
  - intros r. unfold CpuGpu.free. errs.
  - intros r. unfold CpuGpu.fork, CpuGpu.fork_on. errs.
  - intros d b s. unfold CpuGpu.get_physical_block_id, Ids.get_physical_block_id, Ids.index_of. errs.
  - intros l d d'. unfold CpuGpu.swap, CpuGpu.swap_out, CpuGpu.swap_in. errs.
  - intros l d. unfold CpuGpu.get_num_full_blocks_touched. errs.
  - by intros s.
  - intros l now h. by apply only_on.
  - intros l h. by intros s.
  - intros l. by apply only_on.
  - intros l d s. apply err_ok.
Qed.
(** ** Block tables *)

Section Manager.
Context {S R : Type} `{!EqDecision R} `{!DeviceAwareBlockAllocator S R} `{!AllocatorErrors E S R}.
Abbreviation table := (BlockTable.t R).

#[local] Hint Resolve ae_append ae_null ae_mutable ae_immutable ae_free ae_fork ae_physical ae_swap ae_touched
  ae_clear ae_accessed ae_observe ae_computed ae_find : errs.

Lemma only_on_list {A} (f : M (BlockList.t R) A) : only E f -> only (S := table * S) E (BlockTable.on_list f).
Proof.
  intros Hf s. unfold ends, BlockTable.on_list. specialize (Hf (BlockTable.block_list s.1)). unfold ends in Hf.
  by destruct (f _) as [[] ?].
Qed.
Lemma only_table_allocator {A} (f : M S A) : only E f -> only (S := table * S) E (BlockTable.on_allocator f).
Proof. intros Hf s. unfold ends, BlockTable.on_allocator. specialize (Hf s.2). unfold ends in Hf. by destruct (f _) as [[] ?]. Qed.
#[local] Hint Resolve only_on_list only_table_allocator : errs.

Lemma only_add_block_id b : only (S := BlockList.t R) E (BlockList.add_block_id b).
Proof. unfold BlockList.add_block_id. errs_cases. Qed.
#[local] Hint Resolve only_add_block_id : errs.
Lemma only_list_update (f : R -> option Z) l : only E (BlockList.update f l).
Proof. intros s. unfold BlockList.update. by apply only_for_each; intros ?; apply only_add_block_id. Qed.
Lemma only_list_append (f : R -> option Z) r : only E (BlockList.append f r).
Proof. intros s. apply only_add_block_id. Qed.
Lemma only_update_block_id n b : only (S := BlockList.t R) E (BlockList.update_block_id n b).
Proof. unfold BlockList.update_block_id. errs_cases. Qed.
#[local] Hint Resolve only_list_update only_list_append only_update_block_id : errs.
Lemma only_set_item (f : R -> option Z) n r : only E (BlockList.set_item f n r).
Proof. intros s. unfold ends, BlockList.set_item. destruct (decide _); [apply only_update_block_id|by apply E_other]. Qed.
Lemma err_get_item n (l : BlockList.t R) : only_err E (BlockList.get_item n l).
Proof. unfold BlockList.get_item. errs. Qed.
#[local] Hint Resolve only_set_item err_get_item : errs.

Lemma err_table_init bs l w a : only_err E (BlockTable.init (S := S) (R := R) bs l w a).
Proof.
  unfold BlockTable.init. pose proof (only_list_update (BlockTable.ids_now a) l BlockList.reset) as H.
  unfold ends in H. destruct (BlockList.update _ _ _) as [[[]|e] bl]; [apply err_ok|]. by intros e' [= <-].
Qed.
Lemma only_table_update l : only (S := table * S) E (BlockTable.update l).
Proof. intros s. unfold BlockTable.update. apply only_on_list, only_list_update. Qed.
Lemma only_allocate_blocks bs p toks d x : only (S := S) E (BlockTable.allocate_blocks_for_token_ids (R := R) bs p toks d x).
Proof. unfold BlockTable.allocate_blocks_for_token_ids. errs. Qed.
#[local] Hint Resolve err_table_init only_table_update only_allocate_blocks : errs.
Lemma only_table_allocate toks d x : only (S := table * S) E (BlockTable.allocate toks d x).
Proof. unfold BlockTable.allocate. errs. Qed.
Lemma only_append_block x : only (S := table * S) E (BlockTable.append_block x).
Proof. unfold BlockTable.append_block. errs. Qed.
#[local] Hint Resolve only_table_allocate only_append_block : errs.
Lemma err_empty_slots (b : table) : only_err E (BlockTable.num_empty_slots b).
Proof. unfold BlockTable.num_empty_slots. errs. Qed.
#[local] Hint Resolve err_empty_slots : errs.
Lemma only_ensure n x : only (S := table * S) E (BlockTable.ensure_num_empty_slots n x).
Proof. unfold BlockTable.ensure_num_empty_slots. errs. Qed.
Lemma only_list_append_tokens n toks : only (S := table * S) E (BlockTable.list_append_token_ids n toks).
Proof. unfold BlockTable.list_append_token_ids. errs. Qed.
Lemma only_drop_block null n : only (S := table * S) E (BlockTable.drop_block null n).
Proof. unfold BlockTable.drop_block. errs. Qed.
#[local] Hint Resolve only_ensure only_list_append_tokens only_drop_block : errs.
Lemma only_drop_window w n : only (S := table * S) E (BlockTable.drop_window w n).
Proof. unfold BlockTable.drop_window. errs. Qed.
Lemma only_append_chunks l : forall n, only (S := table * S) E (BlockTable.append_chunks n l).
Proof. induction l as [|c l IH]; intros n; cbn [BlockTable.append_chunks]; errs; apply IH. Qed.
#[local] Hint Resolve only_drop_window only_append_chunks : errs.
Lemma only_append_tokens toks la n x : only (S := table * S) E (BlockTable.append_token_ids toks la n x).
Proof. unfold BlockTable.append_token_ids. errs. Qed.
Lemma only_table_fork (b : table) : only (S := S) E (BlockTable.fork b).
Proof. unfold BlockTable.fork. errs. Qed.
Lemma only_table_free : only (S := table * S) E BlockTable.free.
Proof. unfold BlockTable.free. errs. apply only_table_allocator. errs. Qed.
#[local] Hint Resolve only_append_tokens only_table_fork only_table_free : errs.

(** ** The trackers and the manager *)

Lemma only_add_seq i : only E (LastAccess.add_seq i).
Proof. unfold LastAccess.add_seq. errs_cases. Qed.
Lemma only_access_remove i : only E (LastAccess.remove_seq i).
Proof. unfold LastAccess.remove_seq. errs_cases. Qed.
Lemma only_update_access i now : only E (LastAccess.update_last_access i now).
Proof. unfold LastAccess.update_last_access. errs_cases. Qed.
Lemma only_deref r : only E (LastAccess.deref r).
Proof. intros s. unfold ends, LastAccess.deref. destruct (_ !! _); [done|by apply E_other]. Qed.
Lemma only_computed_remove i : only E (Computed.remove_seq i).
Proof. unfold Computed.remove_seq. errs_cases. Qed.
#[local] Hint Resolve only_add_seq only_access_remove only_update_access only_deref only_computed_remove : errs.

Lemma err_key_of {A} (o : option A) : only_err E (BlockTracker.key_of o).
Proof. by apply err_exn. Qed.
Lemma only_store r h : only E (LastAccess.store r h).
Proof. apply only_modify. Qed.
Lemma only_adopt i r b : only E (LastAccess.adopt i r b).
Proof. unfold LastAccess.adopt. errs. Qed.
#[local] Hint Resolve err_key_of only_store only_adopt : errs.
Lemma only_update_hint i r b : only E (LastAccess.update_cache_hint i r b).
Proof. unfold LastAccess.update_cache_hint. errs. Qed.
Lemma only_metadata i : only E (LastAccess.update_blocks_metadata_using_seq_metadata i).
Proof. unfold LastAccess.update_blocks_metadata_using_seq_metadata. errs. Qed.
#[local] Hint Resolve only_update_hint only_metadata : errs.

Section Tracker.
Variable py_hash : bool * option Z * list Z * option Z -> Z.
Variable none_hash : Z.

Lemma only_seq_hashes q : only E (Computed.update_seq_hashes py_hash none_hash q).
Proof. unfold Computed.update_seq_hashes. errs_cases. Qed.
Lemma only_on_tracker {A B} (f : M Computed.t B) : only E f -> only E (Computed.on_tracker (A := A) f).
Proof. intros Hf s. unfold ends, Computed.on_tracker. specialize (Hf s.1). unfold ends in Hf. by destruct (f _) as [[] ?]. Qed.
Lemma only_tracker_allocator {A B} (f : M A B) : only E f -> only E (Computed.on_allocator f).
Proof. intros Hf s. unfold ends, Computed.on_allocator. specialize (Hf s.2). unfold ends in Hf. by destruct (f _) as [[] ?]. Qed.
#[local] Hint Resolve only_seq_hashes only_on_tracker only_tracker_allocator : errs.

Lemma only_cached_tokens q : only E (Computed.get_num_cached_tokens py_hash none_hash (A := S)
  (fun hs a => find_cached_blocks_prefix hs GPU a) observe_cache_accesses q).
Proof. unfold Computed.get_num_cached_tokens. errs; apply ae_find || apply only_on_tracker, only_modify. Qed.

Abbreviation manager := (BlockManager.t S R).

Lemma only_mgr_allocator {A} (f : M S A) : only E f -> only (S := manager) E (BlockManager.on_allocator f).
Proof. intros Hf s. unfold ends, BlockManager.on_allocator. specialize (Hf (BlockManager.block_allocator s)). unfold ends in Hf. by destruct (f _) as [[] ?]. Qed.
Lemma only_mgr_access {A} (f : M LastAccess.t A) : only E f -> only (S := manager) E (BlockManager.on_last_access f).
Proof. intros Hf s. unfold ends, BlockManager.on_last_access. specialize (Hf (BlockManager.last_access_blocks_tracker s)). unfold ends in Hf. by destruct (f _) as [[] ?]. Qed.
Lemma only_mgr_computed {A} (f : M Computed.t A) : only E f -> only (S := manager) E (BlockManager.on_computed f).
Proof. intros Hf s. unfold ends, BlockManager.on_computed. specialize (Hf (BlockManager.computed_blocks_tracker s)). unfold ends in Hf. by destruct (f _) as [[] ?]. Qed.
Lemma only_mgr_table {A} i (f : M (table * S) A) : only E f -> only (S := manager) E (BlockManager.on_table i f).
Proof.
  intros Hf s. unfold ends, BlockManager.on_table. destruct (_ !! i) as [b|]; [|by apply E_other].
  specialize (Hf (b, BlockManager.block_allocator s)). unfold ends in Hf. by destruct (f _) as [[] [? ?]].
Qed.
#[local] Hint Resolve only_mgr_allocator only_mgr_access only_mgr_computed only_mgr_table : errs.

Lemma err_no_caching g (s : manager) : only_err E (BlockManager.check_no_caching_or_swa g s).
Proof. unfold BlockManager.check_no_caching_or_swa. errs. Qed.
Lemma err_mgr_first l : only_err E (BlockManager.first_seq l).
Proof. unfold BlockManager.first_seq. errs. Qed.
#[local] Hint Resolve err_no_caching err_mgr_first : errs.
Lemma only_allocate_sequence q : only (S := manager) E (BlockManager.allocate_sequence q).
Proof.
  intros s. unfold ends, BlockManager.allocate_sequence.
  destruct (BlockTable.init _ _ _ _) as [b|e] eqn:Hi; [|by apply (err_table_init _ _ _ _ _ Hi)].
  case_bool_decide; [done|].
  pose proof (only_table_allocate (get_token_ids q) GPU (extra_hash q) (b, BlockManager.block_allocator s)) as H0.
  unfold ends in H0. by destruct (BlockTable.allocate _ _ _ _) as [[] [? ?]].
Qed.
#[local] Hint Resolve only_allocate_sequence : errs.
Lemma err_touched q la (s : manager) : only_err E (BlockManager.touched_by q la s).
Proof. unfold BlockManager.touched_by. errs. Qed.
Lemma err_sum la (s : manager) l : only_err E (BlockManager.sum_results (map (fun q => BlockManager.touched_by q la s) l)).
Proof. induction l as [|q l IH]; cbn [map BlockManager.sum_results]; errs; apply err_touched || apply IH. Qed.
#[local] Hint Resolve err_sum : errs.
Lemma only_can_swap g d st la : only (S := manager) E (BlockManager.can_swap g d st la).
Proof. unfold BlockManager.can_swap. errs. Qed.
#[local] Hint Resolve only_can_swap : errs.
Lemma err_remap (key value : Z -> result Z) : (forall b, only_err E (key b)) -> (forall b, only_err E (value b)) ->
  forall l m, only_err E (remap key value l m).
Proof. intros Hk Hv. induction l as [|[k v] l IH]; intros m; cbn [remap]; errs; apply Hk || apply Hv || apply IH. Qed.
Lemma only_swap_seqs l src dst : only (S := manager) E (BlockManager.swap_seqs l src dst).
Proof.
  induction l as [|q l IH]; cbn [BlockManager.swap_seqs]; [errs|]. errs; try apply IH.
  apply err_remap; intros ?; apply ae_physical.
Qed.
#[local] Hint Resolve only_swap_seqs : errs.
Lemma only_mgr_cached q : only (S := manager) E (BlockManager.get_num_cached_tokens py_hash none_hash q).
Proof.
  intros s. unfold ends, BlockManager.get_num_cached_tokens.
  pose proof (only_cached_tokens (BlockManager.seq_view q s)
    (BlockManager.computed_blocks_tracker s, BlockManager.block_allocator s)) as H0.
  unfold ends in H0. by destruct (Computed.get_num_cached_tokens _ _ _ _ _ _) as [[] [? ?]].
Qed.
#[local] Hint Resolve only_mgr_cached : errs.

Lemma block_manager_errors : ManagerErrors (BlockSpaceManager0 := self_attn_manager py_hash none_hash) E manager.
Proof.
  split; cbn.
  - intros g n b. change (only_err E (BlockManager.can_allocate g n b)).
    unfold BlockManager.can_allocate, BlockManager.num_required_blocks. errs.
  - intros g. change (only E (BlockManager.allocate g)). unfold BlockManager.allocate, BlockManager.set_table, BlockManager.fork_table. errs.
  - intros g n b. change (only_err E (BlockManager.can_append_slots g n b)). unfold BlockManager.can_append_slots. errs.
  - intros q n. change (only E (BlockManager.append_slots q n)). unfold BlockManager.append_slots. errs.
  - intros g n. apply only_can_swap.
  - intros g. change (only E (l ← BlockManager.swap_in g; mret (Some l))). unfold BlockManager.swap_in. errs.
  - intros g. change (only E (BlockManager.can_swap_out g)). unfold BlockManager.can_swap_out. errs.
  - intros g. change (only E (l ← BlockManager.swap_out g; mret (Some l))). unfold BlockManager.swap_out. errs.
  - intros q. change (only E (BlockManager.free q)). unfold BlockManager.free. errs.
  - intros g s. unfold ends, BlockManager.free_cross. destruct (_ !! _) as [b|]; [|done].
    pose proof (only_table_free (b, BlockManager.block_allocator s)) as H0. unfold ends in H0.
    by destruct (BlockTable.free _) as [[] [? ?]].
  - intros q. apply only_mgr_cached.
  - intros q b. change (only_err E (Some <$> BlockManager.get_block_table q b)). unfold BlockManager.get_block_table. errs.
  - intros g b. change (only_err E (BlockManager.get_cross_block_table g b)). unfold BlockManager.get_cross_block_table. errs.
  - intros q now. change (only E (BlockManager.access_all_blocks_in_seq q now)). unfold BlockManager.access_all_blocks_in_seq. errs.
  - intros l. change (only E (BlockManager.get_common_computed_block_ids py_hash none_hash l)).
    unfold BlockManager.get_common_computed_block_ids. errs.
  - intros g n. change (only E (BlockManager.mark_blocks_as_computed g n)). unfold BlockManager.mark_blocks_as_computed. errs.
Qed.
End Tracker.
End Manager.
End Errors.
