(* ===== verification/V0SchedulerProtocol.v ===== *)
(** * The v0 scheduler's steps

    The theorems about [schedule]: what it does to the queues, for any block
    manager, and that it ends.  The lemmas are those of [V0SchedulerCorrect].  At
    the end, steps with the block manager of [BlockManager] over the allocator of
    [CpuGpuAllocator]. *)
From S2P Require Import Prelude.
From S2P Require Import PyDict.
From S2P Require Import BlockInterfaces.
From S2P Require Import CpuGpuAllocator.
From S2P Require Import BlockManager.
From S2P Require Import V0Sequence.
From S2P Require Import V0Budget.
From S2P Require Import BlockSpaceManager.
From S2P Require Import V0Scheduler.
From S2P Require Import V0SchedulerCorrect.
From S2P Require Import V0ManagerErrors.

(** Every manager raises only exceptions. *)
#[export] Instance any_errors {B} `{!BlockSpaceManager B} : ManagerErrors (fun _ => True) B.
Proof.
  assert (H : forall A (m : M B A) b, ends (fun _ => True) m b (fun _ _ => True)).
  { intros A m b. unfold ends. by destruct (m b) as [[] ?]. }
  split; intros; done || apply H.
Qed.

Section Steps.
Context {B : Type} `{!BlockSpaceManager B}.
Variable hash_pair : Z * Z -> Z.
Variable cfg : SchedulerConfig.
Variable cache : CacheConfig.
Variable time : nat -> Q.
Variable callback : option (string -> gmap Z Group.t -> gmap Z Group.t).
Import V0Scheduler.

(** C19. A step of the scheduler neither loses a request nor duplicates one: the
    groups of the three queues after [schedule], with those that it reports as
    ignored and those set aside by asynchronous output processing, are those of
    the three queues before it.  The groups set aside are [St], which the step
    adds to [_async_stopped], and [F], victims of a preemption that the output
    callback finishes; without a callback there are none.  This holds for either
    scheduling policy, with and without chunked prefills, for any block manager
    and for every outcome of preemption and swapping. *)
Theorem schedule_conserves_groups now (s s' : t (B := B)) metadata outputs allow
    (Hrun : schedule hash_pair cfg cache time callback now s = (Ok (metadata, outputs, allow), s')) :
  exists St F,
    waiting s' ++ running s' ++ swapped s' ++ out_ignored_seq_groups outputs ++ St ++ F
      ≡ₚ waiting s ++ running s ++ swapped s /\
    async_stopped s' = async_stopped s ++ St /\
    Forall (finishes_victim callback) F /\ (callback = None -> St = [] /\ F = []).
Proof.
  pose proof (schedule_conserves hash_pair cfg cache time callback (fun _ => True) (fun _ _ => I) now s) as H.
  apply (ends_ok _ _ _ _ _ _ H) in Hrun as (St & F & Hp & Ha & Hs). exists St, F.
  unfold all_queued in Hp. rewrite <- !(assoc_L (++)) in Hp.
  split_and!; [done|done|apply Hs|]. intros Hc. by eapply set_aside_none.
Qed.

(** C20. A step of the default policy that admits no prompt keeps the order of the
    requests.  The running queue falls into a part [Z] that stays, a part [R] that
    is not considered, and the victims [V] at its end.  Of [Z], the groups [K] are
    in the batch, together with the groups [J] swapped in, and the others, [St],
    have reached the length limit and are stopped.  Of [V], the groups [F] are
    finished by the output callback; of the others, those to be recomputed, [P],
    return to the front of the waiting queue in the order that they had, and the
    rest, [X], are added to the swapped queue.  When a group is preempted nothing
    is swapped in.  Without an output callback, [St] and [F] are empty. *)
Theorem decode_step_keeps_order (s s' : t (B := B)) outputs
    (Hpolicy : String.eqb (policy cfg) "priority" = false)
    (Hchunked : chunked_prefill_enabled cfg = false)
    (Hrun : schedule_queues hash_pair cfg cache time callback s = (Ok outputs, s'))
    (Hprefills : num_prefill_groups outputs = 0) :
  exists Z R V K St J U F P X W Y,
    running s = Z ++ R ++ V /\ running s' = R ++ K ++ J /\
    split_of Z K St /\ async_stopped s' = async_stopped s ++ St /\
    map seq_group (scheduled_seq_groups outputs) ≡ₚ K ++ J /\
    waiting s' = P ++ W /\ W `sublist_of` waiting s /\
    swapped s' = Y ++ rev X /\ split_of V U F /\ split_of U P X /\
    Forall (finishes_victim callback) F /\ (callback = None -> St = [] /\ F = []) /\
    (P ++ X <> [] -> J = []) /\ out_preempted outputs = Z.of_nat (length (P ++ X)).
Proof.
  unfold schedule_queues in Hrun. rewrite Hchunked in Hrun.
  pose proof (default_decode_step hash_pair cfg cache time callback (fun _ => True) (fun _ _ => I) s Hpolicy) as H.
  destruct (ends_ok _ _ _ _ _ _ H Hrun Hprefills)
    as [(Z & R & V & K & St & J & U & F & P & X & W & Y & H1 & H2 & H3 & H4 & H5 & H6 & H7 & H8 & H9 & H10 & H11 & H12 & H13)].
  exists Z, R, V, K, St, J, U, F, P, X, W, Y. split_and!; try done; [apply H11|]. intros Hc. by eapply set_aside_none.
Qed.

(** C21. [schedule] ends: whatever the queues, the budget, the policy and the output
    callback, its loops over the queues (and over the victims of a preemption)
    take at most one round for each group that is in a queue, for any block
    manager whose own calls end, as those of [SelfAttnBlockSpaceManager] over the
    naive allocators do ([block_manager_errors], [cpu_gpu_errors]). *)
Theorem schedule_terminates (Hmanager : ManagerErrors (fun e => e <> OutOfFuel) B) now (s : t (B := B)) :
  (schedule hash_pair cfg cache time callback now s).1 <> Err OutOfFuel.
Proof.
  pose proof (schedule_conserves hash_pair cfg cache time callback (fun e => e <> OutOfFuel) (fun _ H => H) now s) as H.
  unfold ends in H. destruct (schedule _ _ _ _ _ _ _) as [[r|e] s']; cbn; [done|congruence].
Qed.

Lemma all_groups_run : forall l (s : t (B := B)), (forall a, a ∈ l -> is_Some (groups s !! a)) ->
  exists gs, all_groups l s = (Ok gs, s).
Proof.
  induction l as [|a l IH]; intros s Hl; [by exists []|].
  destruct (Hl a) as [g Hg]; [by left|]. destruct (IH s) as [gs Hgs]; [intros b Hb; apply Hl; by right|].
  exists (g :: gs). cbn [all_groups]. rewrite bind_run. unfold group. rewrite Hg. cbn.
  by rewrite bind_run, Hgs.
Qed.

Lemma count_seqs_tokens l : forall b, Budget.remaining_token_budget (count_seqs l b) = Budget.remaining_token_budget b.
Proof.
  induction l as [|g l IH]; intros b; [done|]. cbn [count_seqs foldl]. etransitivity; [apply IH|].
  unfold Budget.add_num_seqs. by destruct (decide _).
Qed.

(** The call raises [AssertionError]. *)
Definition asserts {S A} (m : M S A) (s : S) : Prop := ends (eq AssertionError) m s (fun _ _ => False).

Lemma asserts_bind {S A C} (m : M S A) (f : A -> M S C) s : asserts m s -> asserts (m ≫= f) s.
Proof. intros H. by eapply ends_bind. Qed.
Lemma asserts_run {S A} (m : M S A) s : asserts m s -> (m s).1 = Err AssertionError.
Proof. unfold asserts, ends. destruct (m s) as [[a|e] s']; [done|by intros <-]. Qed.
Lemma asserts_on_sch {A} (m : M t A) (x : frame (B := B)) : asserts m (sch x) -> asserts (on_sch m) x.
Proof. unfold asserts, ends, on_sch. by destruct (m (sch x)) as [[a|e] s']. Qed.

Lemma with_frame_asserts {A} b loras meta (f : M frame A) (s : t (B := B)) :
  asserts f (Frame s b loras meta (empty_running 0) empty_swapped_in empty_prefill) ->
  asserts (with_frame b loras meta f) s.
Proof. unfold asserts, ends, with_frame. by destruct (f _) as [[a|e] x]. Qed.

(** Without a delay factor the next prompt may always be scheduled. *)
Lemma passed_delay_run now (s : t (B := B)) : Qltb 0 (delay_factor cfg) = false ->
  exists s', passed_delay cfg now s = (Ok true, s') /\ waiting s' = waiting s /\ groups s' = groups s.
Proof.
  intros Hdelay. unfold passed_delay. eexists. split.
  - eapply eq_trans; [by apply bind_step|]. eapply eq_trans; [by apply bind_step|]. by rewrite Hdelay.
  - done.
Qed.

(** A loop that meets a group without exactly one WAITING sequence fails. *)
Lemma waiting_loop_asserts fuel i c left (x : frame (B := B)) a w g :
  waiting (sch x) = a :: w -> groups (sch x) !! a = Some g ->
  length (Group.get_seqs (Some WAITING) g) <> 1%nat -> Qltb 0 (delay_factor cfg) = false ->
  asserts (waiting_loop hash_pair cfg cache time (Datatypes.S fuel) i c left) x.
Proof.
  intros Hw Hg Hseqs Hdelay. cbn [waiting_loop].
  destruct (passed_delay_run (time i) (sch x) Hdelay) as (s' & Hs & Hw' & Hg').
  eapply ends_step; [unfold on_sch; by rewrite Hs|]. apply ends_get. cbn [sch with_sch].
  rewrite Hw', Hw. apply asserts_bind. unfold waiting_step.
  eapply ends_step; [unfold on_sch, group; cbn [sch with_sch]; by rewrite Hg', Hg|].
  cbv zeta. apply Nat.eqb_neq in Hseqs. rewrite Hseqs. by apply asserts_bind.
Qed.

(** C23. The scheduler cannot pass a group in the waiting queue that has no WAITING
    sequence, as one that was preempted by swapping: when it is at the head and
    nothing is swapped out, every step of the scheduler raises [AssertionError].
    The priority policy with the preemption mode [swap] puts such groups there. *)
Theorem swapped_group_in_waiting_raises now (s : t (B := B)) a w g
    (Hchunked : chunked_prefill_enabled cfg = false)
    (Hdelay : Qltb 0 (delay_factor cfg) = false)
    (Hbudget : max_num_batched_tokens cfg <> 0)
    (Hrunning : forall b, b ∈ running s -> is_Some (groups s !! b))
    (Hswapped : swapped s = []) (Hwaiting : waiting s = a :: w)
    (Hgroup : groups s !! a = Some g)
    (Hseqs : forall q, q ∈ Group.seqs g -> Seq.status q <> WAITING) :
  (schedule hash_pair cfg cache time callback now s).1 = Err AssertionError.
Proof.
  destruct (all_groups_run _ s Hrunning) as [gs Hgs].
  assert (Hnone : length (Group.get_seqs (Some WAITING) g) <> 1%nat).
  { cbn. destruct (List.filter _ _) as [|q l] eqn:Hf; [done|].
    assert (Hq : In q (q :: l)) by by left. rewrite <- Hf in Hq. apply filter_In in Hq as [Hq Hst].
    apply bool_decide_eq_true in Hst. by destruct (Hseqs q (proj2 (list_elem_of_In _ _) Hq)). }
  apply asserts_run. unfold schedule, schedule_queues, schedule_default. rewrite Hchunked.
  apply asserts_bind. apply ends_get. eapply ends_step; [exact Hgs|].
  apply with_frame_asserts, asserts_bind. unfold default_parts. apply ends_get.
  cbn [sch]. rewrite Hswapped. cbn [nonempty length Nat.eqb negb].
  apply asserts_bind. unfold schedule_prefills, mod_pre. apply ends_modify, ends_get.
  cbn [with_pre budget]. rewrite count_seqs_tokens.
  replace (Budget.remaining_token_budget (new_budget cfg) =? 0) with false.
  - apply asserts_bind. by eapply waiting_loop_asserts.
  - symmetry. apply Z.eqb_neq. unfold Budget.remaining_token_budget, new_budget, Budget.init.
    cbn [Budget.token_budget Budget.num_batched_tokens]. lia.
Qed.
End Steps.

(** ** Runs: requests that do not all fit *)

Abbreviation sample_state := (V0Scheduler.t (B := BlockManager.t CpuGpu.t CpuGpu.block_ref)).
#[local] Existing Instance CpuGpu.cpu_gpu_allocator.
#[local] Instance sample_manager : BlockSpaceManager (BlockManager.t CpuGpu.t CpuGpu.block_ref) :=
  self_attn_manager (fun _ => 0) 0.

Lemma sample_manager_errors :
  ManagerErrors (fun e => e <> OutOfFuel) (BlockManager.t CpuGpu.t CpuGpu.block_ref).
Proof.
  pose proof (cpu_gpu_errors (fun e => e <> OutOfFuel) (fun _ H => H)).
  by apply (block_manager_errors (fun e => e <> OutOfFuel) (fun _ H => H)).
Qed.

Definition sample_config (policy : string) : SchedulerConfig :=
  MkSchedulerConfig 64 8 32 0 0 false false 1 (Some "swap"%string) policy 1 1 0 false.
Definition sample_cache : CacheConfig := MkCacheConfig 2 false None.

Definition sample_request (name : string) (i priority : Z) (toks : list Z) : Group.t :=
  Group.MkGroup name [Seq.MkSeq i 2 0 0 (SequenceData.from_seqs toks []) WAITING None 0]
    0 None 0 None priority None 1 0.

Definition sample_queues (policy : string) : M sample_state SchedulerOutputs :=
  V0Scheduler.schedule_queues (fun _ => 0) (sample_config policy) sample_cache (fun _ => 1%Q) None.
Definition sample_step (policy : string) :=
  V0Scheduler.schedule (B := BlockManager.t CpuGpu.t CpuGpu.block_ref) (fun _ => 0)
    (sample_config policy) sample_cache (fun _ => 1%Q) None 0%Q.

(** The engine's part of a step: [n] tokens of the prompt were computed, and a
    token sampled. *)
Definition sample_output (a n : Z) : M sample_state unit :=
  V0Scheduler.on_group a (Group.update_num_computed_tokens n) ;;
  V0Scheduler.on_group a (modify (Group.update_seqs (fun _ => true)
    (fun q => Seq.with_data (SequenceData.append_token_id 7 (Seq.data q)) q))).

(** Four blocks of two tokens on the GPU, and as many on the CPU. *)
Definition sample_run {A} (groups : gmap Z Group.t) (f : M sample_state A) : result (A * sample_state) :=
  m ← BlockManager.init 2 4 0 None false (CpuGpu.create false 4 4 2);
  match f (V0Scheduler.with_groups groups (V0Scheduler.init m)) with
  | (Ok a, s) => Ok (a, s)
  | (Err e, _) => Err e
  end.

(** Two requests of four tokens; after the prompt, each needs a third block. *)
Definition sample_decode : result (unit * sample_state) :=
  sample_run {[1 := sample_request "a" 1 0 [1; 2; 3; 4]; 2 := sample_request "b" 2 0 [1; 2; 3; 4]]}
    (modify (V0Scheduler.add_seq_group 1) ;; modify (V0Scheduler.add_seq_group 2) ;;
     sample_step "fcfs" ;; sample_output 1 4 ;; sample_output 2 4).

(** A more urgent request preempts the running one, and is aborted. *)
Definition sample_inversion : result (unit * sample_state) :=
  sample_run {[1 := sample_request "a" 1 5 [1; 2; 3; 4; 5; 6]; 2 := sample_request "b" 2 0 [1; 2; 3; 4]]}
    (modify (V0Scheduler.add_seq_group 1) ;; sample_step "priority" ;; sample_output 1 6 ;;
     modify (V0Scheduler.add_seq_group 2) ;; sample_step "priority" ;;
     V0Scheduler.abort_seq_group (fun _ => 0) {["b"%string]} ∅ ;; mret tt).

(** The same step with asynchronous output processing and a length limit that both
    requests have reached. *)
Definition sample_async_step :=
  V0Scheduler.schedule (B := BlockManager.t CpuGpu.t CpuGpu.block_ref) (fun _ => 0)
    (MkSchedulerConfig 64 8 4 0 0 false false 1 (Some "swap"%string) "fcfs" 1 1 0 false)
    sample_cache (fun _ => 1%Q) (Some (fun _ groups => groups)) 0%Q.

Lemma schedule_conserves_groups_witness : exists s s1 s2 : sample_state,
  V0Scheduler.running s = [1; 2] /\
  V0Scheduler.running s1 = [1] /\ V0Scheduler.swapped s1 = [2] /\
  (exists ignored, [1] ++ [2] ++ ignored ≡ₚ [1; 2]) /\
  V0Scheduler.async_stopped s2 = [1; 2] /\
  (exists St, V0Scheduler.async_stopped s2 = V0Scheduler.async_stopped s ++ St).
Proof.
  destruct sample_decode as [[[] s]|e] eqn:Hs; [|exfalso; vm_compute in Hs; discriminate].
  assert (H : V0Scheduler.running s = [1; 2] /\ V0Scheduler.waiting s = [] /\ V0Scheduler.swapped s = [] /\
    (exists md o al s1, sample_step "fcfs" s = (Ok (md, o, al), s1) /\ V0Scheduler.waiting s1 = [] /\
      V0Scheduler.running s1 = [1] /\ V0Scheduler.swapped s1 = [2]) /\
    exists md o al s2, sample_async_step s = (Ok (md, o, al), s2) /\ V0Scheduler.async_stopped s2 = [1; 2]).
  { vm_compute in Hs. injection Hs as <-. split_and!; [vm_compute; reflexivity..| |].
    - eexists _, _, _, _. split; [vm_compute; reflexivity|]. split_and!; vm_compute; reflexivity.
    - eexists _, _, _, _. split; vm_compute; reflexivity. }
  destruct H as (H1 & H2 & H3 & (md & o & al & s1 & Hrun & W1 & R1 & X1) & md2 & o2 & al2 & s2 & Hasync & A2).
  destruct (schedule_conserves_groups _ _ _ _ _ _ _ _ _ _ _ Hrun) as (St & F & Hp & _ & _ & Hn).
  destruct (schedule_conserves_groups _ _ _ _ _ _ _ _ _ _ _ Hasync) as (St2 & F2 & _ & Ha & _).
  destruct (Hn eq_refl) as [-> ->]. rewrite W1, R1, X1, H1, H2, H3, !app_nil_r in Hp.
  exists s, s1, s2. split_and!; [exact H1|exact R1|exact X1|by eexists|exact A2|by eexists].
Defined.

Lemma decode_step_keeps_order_witness : exists (s s' : sample_state) o K R V K' J U P X W Y,
  sample_queues "fcfs" s = (Ok o, s') /\ out_preempted o = 1 /\
  V0Scheduler.running s = K ++ R ++ V /\ V0Scheduler.running s' = R ++ K' ++ J /\ split_of K K' [] /\
  V0Scheduler.waiting s' = P ++ W /\ V0Scheduler.swapped s' = Y ++ rev X /\ split_of V U [] /\ split_of U P X.
Proof.
  destruct sample_decode as [[[] s]|e] eqn:Hs; [|exfalso; vm_compute in Hs; discriminate].
  assert (H : exists o s', sample_queues "fcfs" s = (Ok o, s') /\ num_prefill_groups o = 0 /\ out_preempted o = 1).
  { vm_compute in Hs. injection Hs as <-. eexists _, _. split; [vm_compute; reflexivity|]. by split. }
  destruct H as (o & s' & Hrun & Hp & Hn).
  destruct (decode_step_keeps_order (fun _ => 0) (sample_config "fcfs") sample_cache (fun _ => 1%Q) None s s' o eq_refl eq_refl Hrun Hp)
    as (K & R & V & K' & St & J & U & F & P & X & W & Y & H1 & H2 & H3 & _ & _ & H4 & _ & H5 & H6 & H7 & _ & H8 & _).
  destruct (H8 eq_refl) as [-> ->]. exists s, s', o, K, R, V, K', J, U, P, X, W, Y. split_and!; assumption.
Defined.

Lemma schedule_terminates_witness : exists s : sample_state,
  sample_decode = Ok (tt, s) /\ V0Scheduler.running s = [1; 2] /\
  (sample_step "fcfs" s).1 <> Err OutOfFuel.
Proof.
  destruct sample_decode as [[[] s]|e] eqn:Hs; [|exfalso; vm_compute in Hs; discriminate].
  exists s. split; [reflexivity|]. split.
  - vm_compute in Hs. injection Hs as <-. reflexivity.
  - apply schedule_terminates. apply sample_manager_errors.
Defined.

(** The engine stops working after the preemption. *)
Lemma swapped_group_in_waiting_raises_witness : exists s : sample_state,
  sample_inversion = Ok (tt, s) /\ (sample_step "priority" s).1 = Err AssertionError.
Proof.
  destruct sample_inversion as [[[] s]|e] eqn:Hs; [|exfalso; vm_compute in Hs; discriminate].
  exists s. split; [reflexivity|].
  assert (H : V0Scheduler.running s = [] /\ V0Scheduler.swapped s = [] /\ V0Scheduler.waiting s = [1] /\
    exists g, V0Scheduler.groups s !! 1 = Some g /\ map Seq.status (Group.seqs g) = [SWAPPED]).
  { vm_compute in Hs. injection Hs as <-. split_and!; [vm_compute; reflexivity..|].
    eexists. split; vm_compute; reflexivity. }
  destruct H as (Hr & Hsw & Hw & g & Hg & Hst).
  assert (Hrun : forall b, b ∈ V0Scheduler.running s -> is_Some (V0Scheduler.groups s !! b)).
  { clear Hs. intros b Hb. rewrite Hr in Hb. by apply not_elem_of_nil in Hb. }
  assert (Hseqs : forall q, q ∈ Group.seqs g -> Seq.status q <> WAITING).
  { clear Hs Hg. intros q Hq Hq'. apply list_elem_of_In, (in_map Seq.status) in Hq.
    rewrite Hst, Hq' in Hq. destruct Hq as [Hq|[]]. discriminate. }
  exact (swapped_group_in_waiting_raises (fun _ => 0) (sample_config "priority") sample_cache
    (fun _ => 1%Q) None 0%Q s 1 [] g eq_refl eq_refl ltac:(done) Hrun Hsw Hw Hg Hseqs).
Defined.
