(* ===== verification/V0Worker.v ===== *)
(** * The workers' copy of the sequences

    With [send_delta_data] the scheduler sends a group's [SequenceGroupMetadata]
    for the first prefill, and the changes since then, a
    [SequenceGroupMetadataDelta], in the later steps.  [Worker] is the cache of
    [vllm/worker/worker.py] that a worker keeps.  [exchange] is what a
    message makes of the engine's sequence and the worker's copy, which is what
    [Worker.receive] does to the cache ([exchange_received]); [engine_step] says
    what happens to a sequence between two messages; the theorem says that the
    worker's copy is always the engine's. *)
From S2P Require Import Prelude.
From S2P Require Import PyDict.
From S2P Require Import BlockManager.
From S2P Require Import V0Sequence.
From S2P Require Import V0Budget.
From S2P Require Import V0Scheduler.

Module Worker.

(** [_seq_group_metadata_cache] *)
Definition t : Type := gmap string metadata.

Definition request_id (m : metadata) : string :=
  match m with
  | SequenceGroupMetadata i _ _ _ _ _ _ _ _ _ _ => i
  | SequenceGroupMetadataDelta _ i _ _ _ _ _ => i
  end.

Fixpoint apply_deltas (l : list (Z * SequenceData.delta)) : M (pydict Z SequenceData.t) unit :=
  match l with
  | [] => mret tt
  | (i, x) :: l' =>
      data ← get;
      d ← lift (from_option_exn KeyError (data !! i));
      modify <[i := SequenceData.apply_delta x d]> ;;
      apply_deltas l'
  end.

(** [SequenceGroupMetadata.apply_delta]; a delta has no such method. *)
Definition apply_delta (x : metadata) : M metadata unit := fun m =>
  match m, x with
  | SequenceGroupMetadata i p data tables smp chunk common enc cross n k,
    SequenceGroupMetadataDelta deltas i' tables' p' smp' chunk' _ =>
      match apply_deltas (items deltas) data with
      | (Err e, data') => (Err e, SequenceGroupMetadata i p data' tables smp chunk common enc cross n k)
      | (Ok _, data') =>
          if String.eqb i i'
          then (Ok tt, SequenceGroupMetadata i p' data' tables' smp' chunk' common enc cross n k)
          else (Err AssertionError, SequenceGroupMetadata i p data' tables smp chunk common enc cross n k)
      end
  | _, _ => (Err AttributeError, m)
  end.

Definition is_full (m : metadata) : bool :=
  match m with
  | SequenceGroupMetadata _ _ _ _ _ _ _ _ _ _ _ => true
  | SequenceGroupMetadataDelta _ _ _ _ _ _ _ => false
  end.

(** One entry of the list that the scheduler sent. *)
Definition receive (x : metadata) : M t metadata :=
  let i := request_id x in
  cache ← get;
  match cache !! i with
  | None => assert_ (is_full x) ;; modify <[i := x]> ;; mret x
  | Some m =>
      if is_full x then modify <[i := x]> ;; mret x
      else
        let '(r, m') := apply_delta x m in
        modify <[i := m']> ;;
        lift r ;;
        mret m'
  end.

Fixpoint receive_all (l : list metadata) : M t (list metadata) :=
  match l with
  | [] => mret []
  | x :: l' => m ← receive x; rest ← receive_all l'; mret (m :: rest)
  end.

(** [_get_cached_seq_group_metadata]; a request has one entry in the list. *)
Definition get_cached_seq_group_metadata (l : list metadata) (finished_request_ids : list string)
    : M t (list metadata) :=
  res ← receive_all l;
  for_each finished_request_ids (fun i =>
    cache ← get;
    lift (from_option_exn KeyError (cache !! i)) ;;
    modify (delete i)) ;;
  mret res.
End Worker.

(** ** Between two messages *)

(** [is_first_prefill] of [schedule] for the group of one sequence. *)
Definition first_prefill (d : SequenceData.t) : bool :=
  bool_decide (SequenceData.stage d = PREFILL) && (SequenceData.get_num_computed_tokens d =? 0).

Lemma prompt_flags_first g q p chunk flags :
  Group.seqs g = [q] -> Group.is_prefill g = Ok p -> V0Scheduler.prompt_flags g p chunk = Ok flags ->
  flags.1 = first_prefill (Seq.data q).
Proof.
  intros Hq Hp. unfold Group.is_prefill, Group.first_seq in Hp. rewrite Hq in Hp. cbn in Hp.
  injection Hp as <-. unfold V0Scheduler.prompt_flags, first_prefill, Seq.is_prefill. rewrite Hq.
  destruct (bool_decide _); by intros [= <-].
Qed.

(** The engine's data, and the worker's copy, if it has one, after the message. *)
Definition exchange (x : SequenceData.t * option SequenceData.t) : SequenceData.t * option SequenceData.t :=
  let '(d, w) := x in
  if first_prefill d then (d, Some d)
  else
    let '(delta, d') := SequenceData.get_delta_and_reset d in
    (d', SequenceData.apply_delta delta <$> w).

(** The message of [schedule] for a group of the one sequence [j], and what a worker
    keeps of the data in a message. *)
Definition message (i : string) (j : Z) (is_prompt do_sample : bool) (tables : pydict Z (option (list Z)))
    (chunk : Z) (common : list Z) (d : SequenceData.t) : metadata :=
  if first_prefill d
  then SequenceGroupMetadata i is_prompt (PyDict [(j, d)]) tables do_sample chunk common None None 1 0
  else SequenceGroupMetadataDelta (PyDict [(j, (SequenceData.get_delta_and_reset d).1)]) i tables is_prompt do_sample
    chunk common.

Definition copy_of (m : metadata) (j : Z) : option SequenceData.t :=
  match m with
  | SequenceGroupMetadata _ _ data _ _ _ _ _ _ _ _ => data !! j
  | SequenceGroupMetadataDelta _ _ _ _ _ _ _ => None
  end.

(** [exchange] is what [receive] makes of such a message: the copy in the cache
    becomes the one that [exchange] gives. *)
Lemma exchange_received i j is_prompt do_sample tables chunk common d w d' w' (cache : Worker.t) :
  exchange (d, Some w) = (d', Some w') ->
  (exists m, cache !! i = Some m /\ Worker.is_full m = true /\ Worker.request_id m = i /\ copy_of m j = Some w) ->
  meets (Worker.receive (message i j is_prompt do_sample tables chunk common d)) cache
    (fun m cache' => cache' = <[i := m]> cache /\ Worker.is_full m = true /\ Worker.request_id m = i /\ copy_of m j = Some w').
Proof.
  intros He (m & Hm & Hfull & Hid & Hcopy).
  destruct m as [i0 p0 data t0 s0 c0 b0 e0 x0 n0 k0|]; [|done]. cbn in Hid, Hcopy. subst i0.
  unfold exchange in He. unfold message, Worker.receive. destruct (first_prefill d).
  - injection He as <- <-. cbn [Worker.request_id Worker.is_full]. apply meets_get. rewrite Hm.
    split_and!; [done..|]. apply dict_lookup_single.
  - destruct (SequenceData.get_delta_and_reset d) as [delta d1]. cbn [fst] in *.
    injection He as <- <-. cbn [Worker.request_id Worker.is_full]. apply meets_get. rewrite Hm.
    assert (Hrun : Worker.apply_deltas [(j, delta)] data = (Ok tt, <[j := SequenceData.apply_delta delta w]> data)).
    { cbn [Worker.apply_deltas]. rewrite bind_run. cbn. by rewrite bind_run, Hcopy. }
    cbn [Worker.apply_delta items]. rewrite Hrun, String.eqb_refl.
    split_and!; [done..|]. cbn [copy_of]. apply dict_lookup_insert_eq.
Qed.

(** What happens to a sequence: it is scheduled, [n] of its tokens are computed
    and the tokens [toks] are sampled; or it is preempted and will be recomputed;
    or the block manager's count of its cached tokens is set. *)
Inductive engine_step : SequenceData.t * option SequenceData.t -> SequenceData.t * option SequenceData.t -> Prop :=
  | step_serve x d w n toks d' :
      exchange x = (d, w) -> 0 < n ->
      SequenceData.update_num_computed_tokens n d = (Ok tt, d') ->
      engine_step x (foldl (fun d t => SequenceData.append_token_id t d) d' toks, w)
  | step_recompute d w : engine_step (d, w) (SequenceData.reset_state_for_recompute d, w)
  | step_cached d w n : engine_step (d, w) (SequenceData.update_num_cached_tokens n d, w).

Inductive served (prompt output : list Z) : SequenceData.t * option SequenceData.t -> Prop :=
  | served_start : served prompt output (SequenceData.from_seqs prompt output, None)
  | served_step x x' : served prompt output x -> engine_step x x' -> served prompt output x'.

(** The worker lacks the tokens that the next delta holds. *)
Record behind (d w : SequenceData.t) : Prop := {
  bh_prompt : SequenceData.prompt_token_ids d = SequenceData.prompt_token_ids w;
  bh_output : SequenceData.output_token_ids d
    = SequenceData.output_token_ids w ++ SequenceData.new_appended_tokens d;
  bh_all : SequenceData.cached_all_token_ids d
    = SequenceData.cached_all_token_ids w ++ SequenceData.new_appended_tokens d
}.

(** What the model runner reads of the copy. *)
Record agree (d w : SequenceData.t) : Prop := {
  ag_prompt : SequenceData.prompt_token_ids w = SequenceData.prompt_token_ids d;
  ag_output : SequenceData.output_token_ids w = SequenceData.output_token_ids d;
  ag_all : SequenceData.get_token_ids w = SequenceData.get_token_ids d;
  ag_computed : SequenceData.get_num_computed_tokens w = SequenceData.get_num_computed_tokens d;
  ag_stage : SequenceData.stage w = SequenceData.stage d
}.

(** The invariant: a message that is a delta finds a copy that it completes. *)
Record in_step (x : SequenceData.t * option SequenceData.t) : Prop := {
  is_tokens : SequenceData.cached_all_token_ids x.1
    = SequenceData.prompt_token_ids x.1 ++ SequenceData.output_token_ids x.1;
  is_computed : 0 <= SequenceData.num_computed_tokens x.1;
  is_first : first_prefill x.1 = true -> SequenceData.new_appended_tokens x.1 = [];
  is_behind : first_prefill x.1 = false -> exists w, x.2 = Some w /\ behind x.1 w
}.

Lemma exchange_agrees x : in_step x ->
  exists d w, exchange x = (d, Some w) /\ agree d w /\ behind d w /\
    SequenceData.cached_all_token_ids d = SequenceData.prompt_token_ids d ++ SequenceData.output_token_ids d /\
    0 <= SequenceData.num_computed_tokens d.
Proof.
  destruct x as [d w]. intros [H1 H2 H3 H4]. cbn in *. destruct (first_prefill d) eqn:Hf.
  - specialize (H3 eq_refl). exists d, d. split; [done|]. split; [done|]. split; [|done].
    split; rewrite ?H3, ?app_nil_r; done.
  - destruct (H4 eq_refl) as (w' & -> & [B1 B2 B3]). eexists _, _. split; [done|]. cbn.
    split; [split; cbn; by rewrite ?B2, ?B3|]. split; [|done]. split; cbn; by rewrite ?app_nil_r.
Qed.

Lemma update_computed_run n d d' :
  SequenceData.update_num_computed_tokens n d = (Ok tt, d') ->
  exists st, d' = SequenceData.with_computed (SequenceData.num_computed_tokens d + n) st d.
Proof.
  unfold SequenceData.update_num_computed_tokens. intros H. inv_ok.
  destruct (_ =? 0); match goal with H : _ = (Ok _, d') |- _ => injection H as <- end; by eexists.
Qed.

Definition append_all (toks : list Z) (d : SequenceData.t) : SequenceData.t :=
  foldl (fun d t => SequenceData.append_token_id t d) d toks.

Lemma append_all_fields toks : forall d,
  append_all toks d = SequenceData.MkData (SequenceData.prompt_token_ids d)
    (SequenceData.output_token_ids d ++ toks) (SequenceData.num_computed_tokens d)
    (SequenceData.num_cached_tokens d) (SequenceData.stage d)
    (SequenceData.cached_all_token_ids d ++ toks) (SequenceData.new_appended_tokens d ++ toks).
Proof.
  induction toks as [|t toks IH]; intros d; cbn; [by rewrite !app_nil_r; destruct d|].
  unfold append_all in IH. rewrite IH. cbn. by rewrite <- !(assoc_L (++)).
Qed.

Lemma computed_not_first d : 0 < SequenceData.num_computed_tokens d -> first_prefill d = false.
Proof.
  intros H. unfold first_prefill, SequenceData.get_num_computed_tokens.
  rewrite (proj2 (Z.eqb_neq _ 0)) by lia. apply andb_false_r.
Qed.

Lemma engine_step_ok x x' : in_step x -> engine_step x x' -> in_step x'.
Proof.
  intros Hx Hstep. destruct Hstep as [x d w n toks d' He Hn Hd|d w|d w n].
  - apply exchange_agrees in Hx as (d1 & w1 & He' & _ & [B1 B2 B3] & Ht & Hc).
    rewrite He in He'. injection He' as -> ->. apply update_computed_run in Hd as [st ->].
    match goal with |- in_step (foldl _ ?d _, _) => change (in_step (append_all toks d, Some w1)) end.
    rewrite append_all_fields.
    split; cbn; [by rewrite Ht, (assoc_L (++))|lia| |].
    + rewrite computed_not_first; [done|cbn; lia].
    + intros _. exists w1. split; [done|]. split; cbn; rewrite ?B2, ?B3, ?(assoc_L (++)); done.
  - destruct Hx as [H1 _ _ _]. split; [exact H1|done|done|]. cbn. discriminate.
  - destruct Hx as [H1 H2 H3 H4]. split; [exact H1|exact H2|exact H3|].
    intros Hf. destruct (H4 Hf) as (w' & Hw & [B1 B2 B3]). exists w'. by split.
Qed.

Lemma served_in_step prompt output x : served prompt output x -> in_step x.
Proof.
  induction 1 as [|x x' _ IH Hstep]; [by split|]. by eapply engine_step_ok.
Qed.

(** C22. However often a sequence is served, preempted or appended to, the copy
    that a worker has after the scheduler's message agrees with the engine's
    sequence in the tokens, the number of computed tokens and the stage, although
    most messages hold only the tokens sampled since the last one: what is lost
    when a preemption clears these is sent again, as the first prefill. *)
Theorem workers_copy_agrees prompt output x (Hserved : served prompt output x) :
  exists d w, exchange x = (d, Some w) /\ agree d w.
Proof.
  apply served_in_step, exchange_agrees in Hserved as (d & w & He & Ha & _). by exists d, w.
Qed.

Lemma serve prompt output x n toks :
  served prompt output x -> 0 < n ->
  (SequenceData.update_num_computed_tokens n (exchange x).1).1 = Ok tt ->
  served prompt output
    (append_all toks (SequenceData.update_num_computed_tokens n (exchange x).1).2, (exchange x).2).
Proof.
  intros Hx Hn Hu. eapply served_step; [exact Hx|]. destruct (exchange x) as [d w] eqn:He. cbn in *.
  destruct (SequenceData.update_num_computed_tokens n d) as [r d'] eqn:Hd. cbn in *. subst r.
  by eapply step_serve.
Qed.

(** Served twice, preempted, and served again, with five of its tokens. *)
Lemma workers_copy_agrees_witness : exists x d w,
  exchange x = (d, Some w) /\ agree d w /\ SequenceData.get_token_ids w = [1; 2; 3; 4; 5; 6].
Proof.
  assert (H : exists x, served [1; 2; 3] [] x /\ first_prefill x.1 = false /\
    SequenceData.cached_all_token_ids x.1 = [1; 2; 3; 4; 5; 6]).
  { pose proof (serve [1; 2; 3] [] _ 3 [4] (served_start _ _) eq_refl eq_refl) as H1.
    pose proof (serve _ _ _ 1 [5] H1 eq_refl eq_refl) as H2.
    pose proof (served_step _ _ _ _ H2 (step_recompute _ _)) as H3.
    pose proof (serve _ _ _ 5 [6] H3 eq_refl eq_refl) as H4.
    eexists. split; [exact H4|]. by split. }
  destruct H as (x & Hx & Hf & Ht). destruct (workers_copy_agrees _ _ x Hx) as (d & w & He & Ha).
  exists x, d, w. split; [exact He|]. split; [exact Ha|]. rewrite (ag_all _ _ Ha).
  destruct x as [d0 w0]. cbn in *. rewrite Hf in He. by injection He as <- _.
Defined.
