(* ===== verification/FreeQueue.v ===== *)
(** * v1: block metadata and the queue of free blocks ([vllm/v1/core/kv_cache_utils.py])

    [KVCacheBlock] objects link themselves into the doubly linked list that
    [FreeKVCacheBlockQueue] keeps.  Objects live in a store keyed by their
    [block_id], a reference to a block is its id; the dataclass equality the
    queue uses compares the ids first, so it is identity on the blocks of one
    pool.  [repr s l] says that the pointers of [s] spell the list [l], and every
    operation of the queue is shown to do to [l] what it should. *)
From S2P Require Import Prelude.

(** ** [BlockHashType] *)

(** What a block's hash covers besides its tokens: multi-modal input hashes and
    the id of a LoRA adapter. *)
Inductive extra_key : Type :=
  | MMHash (h : string)
  | LoRAId (i : Z).

#[global] Instance extra_key_eq_dec : EqDecision extra_key.
Proof. solve_decision. Defined.
#[global] Instance extra_key_countable : Countable extra_key.
Proof.
  refine (inj_countable'
    (fun k => match k with MMHash h => inl h | LoRAId i => inr i end)
    (fun k => match k with inl h => MMHash h | inr i => LoRAId i end) _).
  by intros [].
Defined.

Record BlockHashType : Type := BlockHash {
  hash_value : Z;
  token_ids : list Z;
  extra_keys : option (list extra_key);
}.

#[global] Instance block_hash_eq_dec : EqDecision BlockHashType.
Proof. solve_decision. Defined.
#[global] Instance block_hash_countable : Countable BlockHashType.
Proof.
  refine (inj_countable'
    (fun h => (hash_value h, token_ids h, extra_keys h))
    (fun '(v, ts, ks) => BlockHash v ts ks) _).
  by intros [].
Defined.

(** ** [KVCacheBlock] *)

Module KVCacheBlock.

Record t : Type := Block {
  ref_cnt : Z;
  block_hash : option BlockHashType;
  prev_free_block : option Z;
  next_free_block : option Z;
}.

Definition init : t := Block 0 None None None.
#[global] Instance block_inhabited : Inhabited t := populate init.

Definition with_ref_cnt n b :=
  Block n (block_hash b) (prev_free_block b) (next_free_block b).
Definition with_block_hash h b :=
  Block (ref_cnt b) h (prev_free_block b) (next_free_block b).
Definition with_prev p b := Block (ref_cnt b) (block_hash b) p (next_free_block b).
Definition with_next n b := Block (ref_cnt b) (block_hash b) (prev_free_block b) n.

Definition incr_ref (b : t) : t := with_ref_cnt (ref_cnt b + 1) b.
Definition decr_ref (b : t) : t := with_ref_cnt (ref_cnt b - 1) b.
(** The setter of the property [block_hash]. *)
Definition set_block_hash (h : BlockHashType) (b : t) : result t :=
  match block_hash b with
  | Some _ => Err AssertionError
  | None => Ok (with_block_hash (Some h) b)
  end.
Definition reset_hash (b : t) : t := with_block_hash None b.
End KVCacheBlock.

Abbreviation heap := (gmap Z KVCacheBlock.t).

(** ** [FreeKVCacheBlockQueue] *)

Module FreeQueue.
Import KVCacheBlock.

(** The queue's fields, and the store of the objects its pointers reach. *)
Record t : Type := Queue {
  blocks : heap;
  num_free_blocks : Z;
  free_list_head : option Z;
  free_list_tail : option Z;
}.

Definition with_blocks h s :=
  Queue h (num_free_blocks s) (free_list_head s) (free_list_tail s).
Definition with_num n s := Queue (blocks s) n (free_list_head s) (free_list_tail s).
Definition with_head p s := Queue (blocks s) (num_free_blocks s) p (free_list_tail s).
Definition with_tail p s := Queue (blocks s) (num_free_blocks s) (free_list_head s) p.

(** Assign to the attributes of block [b]. *)
Definition update_block (b : Z) (f : KVCacheBlock.t -> KVCacheBlock.t) (s : t) : t :=
  with_blocks (<[b := f (blocks s !!! b)]> (blocks s)) s.
Definition prev_of (b : Z) (s : t) : option Z := prev_free_block (blocks s !!! b).
Definition next_of (b : Z) (s : t) : option Z := next_free_block (blocks s !!! b).
Definition set_prev (b : Z) (p : option Z) : M t unit := modify (update_block b (with_prev p)).
Definition set_next (b : Z) (n : option Z) : M t unit := modify (update_block b (with_next n)).

(** The constructor, on the blocks [0 .. n-1] of the store [h]: [blocks[0]]
    raises when there are none. *)
Definition init (h : heap) (n : nat) : result t :=
  match n with
  | O => Err IndexError
  | S m =>
      let s := Queue h (Z.of_nat n) (Some 0) (Some (Z.of_nat m)) in
      let link := for_each (seqZ 0 (Z.of_nat n)) (fun i =>
        (if 0 <? i then set_prev i (Some (i - 1)) else mret tt) ;;
        (if i <? Z.of_nat n - 1 then set_next i (Some (i + 1)) else mret tt)) in
      match link s with (Ok _, s') => Ok s' | (Err e, _) => Err e end
  end.

Definition remove (b : Z) : M t unit :=
  p ← gets (prev_of b);
  match p with
  | Some p => n ← gets (next_of b); set_next p n
  | None => mret tt
  end ;;
  n ← gets (next_of b);
  match n with
  | Some n => p ← gets (prev_of b); set_prev n p
  | None => mret tt
  end ;;
  hd ← gets free_list_head;
  (if bool_decide (hd = Some b)
   then n ← gets (next_of b); modify (with_head n) else mret tt) ;;
  tl ← gets free_list_tail;
  (if bool_decide (tl = Some b)
   then p ← gets (prev_of b); modify (with_tail p) else mret tt) ;;
  set_prev b None ;;
  set_next b None ;;
  n ← gets num_free_blocks;
  modify (with_num (n - 1)).

Definition popleft : M t Z :=
  hd ← gets free_list_head;
  match hd with
  | None => raise ValueError
  | Some b => remove b ;; mret b
  end.

Definition append (b : Z) : M t unit :=
  tl ← gets free_list_tail;
  match tl with
  | Some c =>
      set_next c (Some b) ;;
      set_prev b (Some c) ;;
      modify (with_tail (Some b))
  | None =>
      hd ← gets free_list_head;
      assert_ (bool_decide (hd = None)) ;;
      modify (fun s => with_tail (Some b) (with_head (Some b) s))
  end ;;
  set_next b None ;;
  n ← gets num_free_blocks;
  modify (with_num (n + 1)).

(** The [while] loop that walks the list, from [curr_block]. *)
Fixpoint walk (fuel : nat) (curr : option Z) (s : t) : result (list Z) :=
  match fuel, curr with
  | _, None => Ok []
  | O, Some _ => Err OutOfFuel
  | S f, Some b => ret ← walk f (next_of b s) s; mret (b :: ret)
  end.

Definition get_all_free_blocks (fuel : nat) (s : t) : result (list Z) :=
  walk fuel (free_list_head s) s.

(** ** The list the pointers spell *)

Definition or_else (a b : option Z) : option Z := match a with Some _ => a | None => b end.

(** [seg h p l n]: the blocks of [l] are linked in order in [h], the first one
    back to [p] and the last one on to [n]. *)
Fixpoint seg (h : heap) (p : option Z) (l : list Z) (n : option Z) : Prop :=
  match l with
  | [] => True
  | b :: l' =>
      prev_free_block (h !!! b) = p /\
      next_free_block (h !!! b) = or_else (head l') n /\
      seg h (Some b) l' n
  end.

Record repr (s : t) (l : list Z) : Prop := Repr {
  repr_nodup : NoDup l;
  repr_num : num_free_blocks s = Z.of_nat (length l);
  repr_head : free_list_head s = head l;
  repr_tail : free_list_tail s = last l;
  repr_seg : seg (blocks s) None l None;
  repr_free : forall b, b ∉ l ->
    prev_free_block (blocks s !!! b) = None /\ next_free_block (blocks s !!! b) = None;
}.

(** What the queue leaves alone: the reference counts, the hashes, and the set
    of objects. *)
Definition same_meta (h h' : heap) : Prop :=
  (forall b, ref_cnt (h' !!! b) = ref_cnt (h !!! b) /\
             block_hash (h' !!! b) = block_hash (h !!! b)) /\
  (forall b, is_Some (h !! b) -> is_Some (h' !! b)).

#[global] Instance same_meta_preorder : PreOrder same_meta.
Proof.
  split; [by intros h; split|]. intros h1 h2 h3 [H1 H1'] [H2 H2'].
  split; [|eauto]. intros b. destruct (H1 b), (H2 b). split; congruence.
Qed.

Lemma lookup_upd (h : heap) b f c :
  <[b := f (h !!! b)]> h !!! c = (if decide (b = c) then f else fun x => x) (h !!! c).
Proof.
  destruct (decide (b = c)) as [->|Hne].
  - by rewrite lookup_total_insert_eq.
  - by rewrite lookup_total_insert_ne.
Qed.

Lemma same_meta_upd h b f :
  ref_cnt (f (h !!! b)) = ref_cnt (h !!! b) ->
  block_hash (f (h !!! b)) = block_hash (h !!! b) ->
  same_meta h (<[b := f (h !!! b)]> h).
Proof.
  intros Hr Hh. split.
  - intros c. rewrite lookup_upd. by case_decide; subst.
  - intros c Hc. destruct (decide (b = c)) as [->|].
    + rewrite lookup_insert_eq. eauto.
    + by rewrite lookup_insert_ne.
Qed.

(** *** Segments *)

Lemma seg_ext h h' p l n :
  (forall b, b ∈ l -> prev_free_block (h' !!! b) = prev_free_block (h !!! b) /\
                      next_free_block (h' !!! b) = next_free_block (h !!! b)) ->
  seg h p l n -> seg h' p l n.
Proof.
  revert p. induction l as [|b l IH]; intros p Heq; cbn; [done|].
  destruct (Heq b) as [-> ->]; [by left|]. intros (? & ? & ?).
  split_and!; [done..|]. apply IH; [|done]. intros c Hc. apply Heq. by right.
Qed.

Lemma seg_app h p l1 l2 n :
  seg h p (l1 ++ l2) n <->
  seg h p l1 (or_else (head l2) n) /\ seg h (or_else (last l1) p) l2 n.
Proof.
  revert p. induction l1 as [|b l1 IH]; intros p; cbn [app seg].
  { cbn. tauto. }
  rewrite IH. assert (or_else (last (b :: l1)) p = or_else (last l1) (Some b)) as ->.
  { rewrite last_cons. by destruct (last l1). }
  assert (or_else (head (l1 ++ l2)) n = or_else (head l1) (or_else (head l2) n)) as ->
    by (by destruct l1).
  tauto.
Qed.

(** Redirecting the two ends of a segment. *)
Lemma seg_relink h h' p p' l n n' :
  NoDup l -> seg h p l n ->
  (forall x, x ∈ l ->
    prev_free_block (h' !!! x) =
      (if bool_decide (head l = Some x) then p' else prev_free_block (h !!! x)) /\
    next_free_block (h' !!! x) =
      (if bool_decide (last l = Some x) then n' else next_free_block (h !!! x))) ->
  seg h' p' l n'.
Proof.
  revert p p'. induction l as [|b l IH]; intros p p' Hnd; [done|].
  apply NoDup_cons in Hnd as [Hb Hnd]. cbn [seg]. intros (Hp & Hn & Hs) Heq.
  destruct (Heq b) as [Hp' Hn']; [by left|]. rewrite bool_decide_true in Hp' by done.
  split_and!; [done| |].
  - rewrite Hn', last_cons. destruct l as [|c l]; [by rewrite bool_decide_true|].
    destruct (last (c :: l)) as [x|] eqn:El; [|by apply last_None in El].
    rewrite bool_decide_false; [done|]. intros [= ->].
    by apply Hb, last_Some_elem_of.
  - apply (IH (Some b)); [done..|]. intros x Hx.
    destruct (Heq x) as [Hpx Hnx]; [by right|].
    assert (x <> b) by (by intros ->). split.
    + rewrite Hpx. rewrite bool_decide_false by (cbn; congruence).
      destruct (bool_decide_reflect (head l = Some x)) as [E|]; [|done].
      destruct l as [|c l]; [done|].
      injection E as ->. by destruct Hs as [-> _].
    + rewrite Hnx, last_cons. destruct (last l) as [y|] eqn:El; [done|].
      apply last_None in El. subst. by apply not_elem_of_nil in Hx.
Qed.

(** *** Construction *)

Definition link_block (n i : Z) (s : t) : t :=
  let s := if 0 <? i then update_block i (with_prev (Some (i - 1))) s else s in
  if i <? n - 1 then update_block i (with_next (Some (i + 1))) s else s.

Lemma for_each_pure {A S} (l : list A) (body : A -> M S unit) (f : A -> S -> S) :
  (forall x s, body x s = (Ok tt, f x s)) ->
  forall s, for_each l body s = (Ok tt, foldl (fun s x => f x s) s l).
Proof.
  intros Hb. induction l as [|x l IH]; intros s; cbn; [done|].
  by rewrite (bind_step _ _ _ _ _ (Hb x s)), IH.
Qed.

Lemma link_block_spec n i s x :
  let b := blocks s !!! x in let b' := blocks (link_block n i s) !!! x in
  ref_cnt b' = ref_cnt b /\ block_hash b' = block_hash b /\
  prev_free_block b' =
    (if bool_decide (x = i /\ 0 < i) then Some (i - 1) else prev_free_block b) /\
  next_free_block b' =
    (if bool_decide (x = i /\ i < n - 1) then Some (i + 1) else next_free_block b).
Proof.
  cbn zeta. unfold link_block.
  destruct (Z.ltb_spec 0 i) as [H1|H1], (Z.ltb_spec i (n - 1)) as [H2|H2];
    cbn [update_block with_blocks blocks]; rewrite ?lookup_upd;
    destruct (decide (i = x)) as [->|Hne]; rewrite ?lookup_upd; cbn;
    rewrite ?decide_True, ?decide_False by done; cbn;
    repeat (first [rewrite bool_decide_true by lia | rewrite bool_decide_false by lia]);
    done.
Qed.

Lemma link_blocks_spec n m i s x :
  0 <= i ->
  let b := blocks s !!! x in
  let s' := foldl (fun s j => link_block n j s) s (seqZ i (Z.of_nat m)) in
  let b' := blocks s' !!! x in
  ref_cnt b' = ref_cnt b /\ block_hash b' = block_hash b /\
  prev_free_block b' =
    (if bool_decide (i <= x < i + Z.of_nat m /\ 0 < x) then Some (x - 1)
     else prev_free_block b) /\
  next_free_block b' =
    (if bool_decide (i <= x < i + Z.of_nat m /\ x < n - 1) then Some (x + 1)
     else next_free_block b).
Proof.
  revert i s. induction m as [|m IH]; intros i s Hi.
  { cbn. rewrite !bool_decide_false by lia. done. }
  rewrite seqZ_cons by lia. cbn [foldl].
  replace (Z.pred (Z.of_nat (S m))) with (Z.of_nat m) by lia.
  destruct (IH (Z.succ i) (link_block n i s) ltac:(lia)) as (-> & -> & -> & ->).
  destruct (link_block_spec n i s x) as (-> & -> & -> & ->).
  split_and!; [done..| |]; repeat case_bool_decide; try done; try lia; f_equal; lia.
Qed.

Lemma link_blocks_frame n l s :
  let s' := foldl (fun s j => link_block n j s) s l in
  num_free_blocks s' = num_free_blocks s /\ free_list_head s' = free_list_head s /\
  free_list_tail s' = free_list_tail s /\
  forall b, is_Some (blocks s !! b) -> is_Some (blocks s' !! b).
Proof.
  revert s. induction l as [|i l IH]; intros s; cbn; [done|].
  destruct (IH (link_block n i s)) as (-> & -> & -> & Hd).
  split_and!; try (unfold link_block; by repeat case_match).
  intros b Hb. apply Hd. unfold link_block.
  assert (Hup : forall c f s, is_Some (blocks s !! b) -> is_Some (blocks (update_block c f s) !! b)).
  { intros c f s0 H0. cbn. destruct (decide (c = b)) as [->|].
    - rewrite lookup_insert_eq. eauto.
    - by rewrite lookup_insert_ne. }
  repeat case_match; auto.
Qed.

Lemma seg_seqZ h p i m :
  (0 < m)%nat ->
  (forall x, i <= x < i + Z.of_nat m ->
     prev_free_block (h !!! x) = (if bool_decide (x = i) then p else Some (x - 1)) /\
     next_free_block (h !!! x) =
       (if bool_decide (x = i + Z.of_nat m - 1) then None else Some (x + 1))) ->
  seg h p (seqZ i (Z.of_nat m)) None.
Proof.
  revert p i. induction m as [|m IH]; intros p i Hm Hx; [lia|].
  rewrite seqZ_cons by lia. cbn [seg].
  replace (Z.pred (Z.of_nat (S m))) with (Z.of_nat m) by lia.
  destruct (Hx i ltac:(lia)) as [-> ->]. rewrite bool_decide_true by done.
  destruct m as [|m].
  { rewrite bool_decide_true by lia. done. }
  rewrite bool_decide_false by lia. split_and!; [done| |].
  - rewrite seqZ_cons by lia. done.
  - apply IH; [lia|]. intros x Hr. destruct (Hx x ltac:(lia)) as [-> ->].
    rewrite (bool_decide_false (x = i)) by lia.
    split; repeat case_bool_decide; try done; try lia; f_equal; lia.
Qed.

Lemma init_repr h n :
  (0 < n)%nat ->
  (forall b, prev_free_block (h !!! b) = None /\ next_free_block (h !!! b) = None) ->
  exists s, init h n = Ok s /\ repr s (seqZ 0 (Z.of_nat n)) /\ same_meta h (blocks s).
Proof.
  intros Hn Hh. destruct n as [|m]; [lia|]. unfold init. cbv zeta.
  erewrite (for_each_pure _ _ (link_block (Z.of_nat (S m)))).
  2:{ intros i s. unfold link_block. by repeat case_match. }
  eexists. split; [done|].
  set (s0 := Queue h _ _ _). set (n := Z.of_nat (S m)).
  pose proof (fun x => link_blocks_spec n (S m) 0 s0 x ltac:(lia)) as Hs.
  cbv zeta in Hs. change (Z.of_nat (S m)) with n in Hs.
  destruct (link_blocks_frame n (seqZ 0 n) s0) as (Hnum & Hhd & Htl & Hdom).
  split; [|split; [intros x; destruct (Hs x) as (? & ? & _); done|exact Hdom]].
  assert (Hlen : length (seqZ 0 n) = S m) by (rewrite length_seqZ; lia).
  split.
  - apply NoDup_seqZ.
  - rewrite Hnum, Hlen. done.
  - rewrite Hhd, seqZ_cons by lia. done.
  - rewrite Htl, last_lookup, Hlen, lookup_seqZ_lt by lia. cbn. f_equal; lia.
  - apply (seg_seqZ _ None 0 (S m)); [lia|]. intros x Hx.
    destruct (Hs x) as (_ & _ & -> & ->). cbn. destruct (Hh x) as [-> ->].
    split; repeat case_bool_decide; try done; lia.
  - intros b Hb. rewrite elem_of_seqZ in Hb. destruct (Hs b) as (_ & _ & -> & ->). cbn.
    destruct (Hh b) as [-> ->]. rewrite !bool_decide_false by lia. done.
Qed.

(** *** [remove] *)

(** What [remove b] does, when [b] is not linked to itself. *)
Lemma remove_run b s :
  let p := prev_of b s in let n := next_of b s in
  p <> Some b -> n <> Some b ->
  exists s', remove b s = (Ok tt, s') /\ same_meta (blocks s) (blocks s') /\
    num_free_blocks s' = num_free_blocks s - 1 /\
    free_list_head s' = (if bool_decide (free_list_head s = Some b) then n
                         else free_list_head s) /\
    free_list_tail s' = (if bool_decide (free_list_tail s = Some b) then p
                         else free_list_tail s) /\
    forall x,
      prev_free_block (blocks s' !!! x) =
        (if decide (x = b) then None
         else if bool_decide (n = Some x) then p else prev_free_block (blocks s !!! x)) /\
      next_free_block (blocks s' !!! x) =
        (if decide (x = b) then None
         else if bool_decide (p = Some x) then n else next_free_block (blocks s !!! x)).
Proof.
  cbv zeta. intros Hp Hn.
  set (s1 := match prev_of b s with
             | Some p => update_block p (with_next (next_of b s)) s | None => s end).
  assert (Hb1 : prev_of b s1 = prev_of b s /\ next_of b s1 = next_of b s).
  { unfold s1. destruct (prev_of b s) as [p|] eqn:E; [|by rewrite E].
    unfold prev_of, next_of in *. cbn. rewrite lookup_upd, decide_False by congruence.
    done. }
  set (s2 := match next_of b s with
             | Some n => update_block n (with_prev (prev_of b s)) s1 | None => s1 end).
  assert (Hb2 : prev_of b s2 = prev_of b s /\ next_of b s2 = next_of b s).
  { unfold s2. destruct Hb1 as [E1 E2].
    destruct (next_of b s) as [n|] eqn:E; [|by rewrite E1, E2].
    rewrite <- E1, <- E2. unfold prev_of, next_of in *. cbn.
    rewrite lookup_upd, decide_False by congruence. done. }
  set (s3 := if bool_decide (free_list_head s = Some b)
             then with_head (next_of b s) s2 else s2).
  set (s4 := if bool_decide (free_list_tail s = Some b)
             then with_tail (prev_of b s) s3 else s3).
  set (s5 := update_block b (with_next None) (update_block b (with_prev None) s4)).
  assert (Hrest1 : num_free_blocks s2 = num_free_blocks s /\
                   free_list_head s2 = free_list_head s /\
                   free_list_tail s2 = free_list_tail s).
  { unfold s2, s1. by repeat case_match. }
  destruct Hrest1 as (Hr1 & Hr2 & Hr3).
  assert (H4 : blocks s4 = blocks s2).
  { unfold s4, s3. by repeat case_match. }
  exists (with_num (num_free_blocks s - 1) s5). split_and!.
  - unfold remove. rewrite bind_run.
    change (gets (prev_of b) s) with (@Ok (option Z) (prev_of b s), s). cbv iota.
    assert (Hstep : forall (o : option Z) A (f : Z -> M t unit) (g : unit -> M t A) s s',
      match o with Some x => f x | None => mret tt end s = (Ok tt, s') ->
      (match o with Some x => f x | None => mret tt end ≫= g) s = g tt s').
    { intros. by apply bind_step. }
    rewrite (Hstep _ _ _ _ _ s1).
    2:{ unfold s1. by destruct (prev_of b s). }
    rewrite bind_run. change (gets (next_of b) s1) with (@Ok (option Z) (next_of b s1), s1).
    cbv iota. rewrite (Hstep _ _ _ _ _ s2).
    2:{ unfold s2. rewrite (proj2 Hb1), <- (proj1 Hb1). by destruct (next_of b s). }
    rewrite bind_run. change (gets free_list_head s2) with (@Ok (option Z) (free_list_head s2), s2).
    cbv iota. rewrite Hr2, (bind_step _ _ _ tt s3).
    2:{ unfold s3. rewrite <- (proj2 Hb2). by case_bool_decide. }
    rewrite bind_run. change (gets free_list_tail s3) with (@Ok (option Z) (free_list_tail s3), s3).
    cbv iota. replace (free_list_tail s3) with (free_list_tail s)
      by (unfold s3; by case_bool_decide).
    rewrite (bind_step _ _ _ tt s4).
    2:{ unfold s4. replace (prev_of b s) with (prev_of b s3)
          by (rewrite <- (proj1 Hb2); unfold s3; by case_bool_decide).
        by case_bool_decide. }
    assert (Hn4 : num_free_blocks s4 = num_free_blocks s).
    { rewrite <- Hr1. unfold s4, s3. by repeat case_bool_decide. }
    rewrite <- Hn4. done.
  - assert (same_meta (blocks s) (blocks s2)) as Hm.
    { assert (same_meta (blocks s) (blocks s1)) as Hm1.
      { unfold s1. destruct (prev_of b s); [|reflexivity]. by apply same_meta_upd. }
      etransitivity; [exact Hm1|]. unfold s2. destruct (next_of b s); [|reflexivity].
      by apply same_meta_upd. }
    etransitivity; [exact Hm|]. rewrite <- H4. cbn.
    etransitivity; [apply (same_meta_upd _ b (with_prev None)); done|].
    by apply (same_meta_upd _ b (with_next None)).
  - done.
  - unfold s5, s4, s3. repeat case_bool_decide; cbn; congruence.
  - unfold s5, s4, s3. repeat case_bool_decide; cbn; congruence.
  - intros x. cbn. rewrite !lookup_upd, H4.
    destruct (decide (b = x)) as [<-|Hne].
    { by rewrite !decide_True. }
    rewrite !decide_False by congruence.
    unfold s2, s1. destruct (next_of b s) as [n|] eqn:En, (prev_of b s) as [p|] eqn:Ep;
      cbn; rewrite ?lookup_upd;
      repeat (case_decide; subst; cbn); rewrite ?lookup_upd;
      repeat (case_decide; subst; cbn); repeat case_bool_decide; congruence || done.
Qed.

Lemma or_else_None o : or_else o None = o.
Proof. by destruct o. Qed.

Lemma seg_first h p l n x : seg h p l n -> head l = Some x -> prev_free_block (h !!! x) = p.
Proof. destruct l as [|b l]; [done|]. by intros [? _] [= ->]. Qed.

Lemma seg_last h p l n x : seg h p l n -> last l = Some x -> next_free_block (h !!! x) = n.
Proof.
  intros Hs (l' & ->)%last_Some. apply seg_app in Hs as [_ Hs]. by destruct Hs as (_ & ? & _).
Qed.

Lemma head_elem {A} (l : list A) x : head l = Some x -> x ∈ l.
Proof. destruct l; [done|]. intros [= ->]. by left. Qed.

Lemma remove_repr s l1 b l2 :
  repr s (l1 ++ b :: l2) ->
  exists s', remove b s = (Ok tt, s') /\ repr s' (l1 ++ l2) /\
             same_meta (blocks s) (blocks s').
Proof.
  intros [Hnd Hnum Hhd Htl Hseg Hfree].
  pose proof Hseg as [Hs1 (Hp & Hn & Hs2)]%seg_app. cbn [head or_else] in Hs1.
  rewrite or_else_None in Hp, Hn.
  pose proof Hnd as (Hnd1 & Hdis & Hnd2)%NoDup_app.
  apply NoDup_cons in Hnd2 as [Hb2 Hnd2].
  assert (Hb1 : b ∉ l1) by (intros H; apply (Hdis b H); left).
  assert (Hd12 : forall x, x ∈ l1 -> x ∉ l2) by (intros x H1 H2; apply (Hdis x H1); by right).
  destruct (remove_run b s) as (s' & Hrun & Hmeta & Hnum' & Hhd' & Htl' & Hpt).
  { unfold prev_of. rewrite Hp. by intros ?%last_Some_elem_of. }
  { unfold next_of. rewrite Hn. by intros ?%head_elem. }
  unfold prev_of, next_of in *. rewrite Hp, Hn in *.
  exists s'. split; [done|]. split; [|done]. split.
  - apply NoDup_app. auto.
  - rewrite Hnum', Hnum, !length_app. cbn. lia.
  - rewrite Hhd', Hhd. destruct l1 as [|c l1]; cbn.
    + by rewrite bool_decide_true.
    + rewrite bool_decide_false; [done|]. intros [= ->]. apply Hb1. by left.
  - rewrite Htl', Htl, !last_app, last_cons. destruct (last l2) as [c|] eqn:E.
    + rewrite bool_decide_false; [done|]. intros [= ->]. by apply Hb2, last_Some_elem_of.
    + by rewrite bool_decide_true.
  - apply seg_app. rewrite !or_else_None. split.
    + apply (seg_relink (blocks s) _ None None l1 (Some b)); [done..|].
      intros x Hx. destruct (Hpt x) as [-> ->].
      rewrite !decide_False by (by intros ->).
      rewrite (bool_decide_false (head l2 = Some x))
        by (intros ?%head_elem; by apply (Hd12 x)).
      split; [|done]. goal_decide; [by eauto using seg_first|done].
    + apply (seg_relink (blocks s) _ (Some b) (last l1) l2 None); [done..|].
      intros x Hx. destruct (Hpt x) as [-> ->].
      rewrite !decide_False by (by intros ->).
      rewrite (bool_decide_false (last l1 = Some x))
        by (intros ?%last_Some_elem_of; by apply (Hd12 x)).
      split; [done|]. goal_decide; [by eauto using seg_last|done].
  - intros x Hx. destruct (Hpt x) as [-> ->]. destruct (decide (x = b)); [done|].
    rewrite !bool_decide_false.
    + apply Hfree. set_unfold in Hx. set_unfold. tauto.
    + intros ?%last_Some_elem_of. apply Hx, elem_of_app. by left.
    + intros ?%head_elem. apply Hx, elem_of_app. by right.
Qed.

Lemma repr_nil_head s l : repr s l -> free_list_head s = None <-> l = [].
Proof. intros H. rewrite (repr_head _ _ H). by destruct l. Qed.

Lemma popleft_repr s l :
  repr s l ->
  match l with
  | [] => popleft s = (Err ValueError, s)
  | b :: l' => exists s', popleft s = (Ok b, s') /\ repr s' l' /\
                          same_meta (blocks s) (blocks s')
  end.
Proof.
  intros Hr. pose proof (repr_head _ _ Hr) as Hhd. unfold popleft. rewrite bind_run.
  change (gets free_list_head s) with (@Ok (option Z) (free_list_head s), s). cbv iota.
  rewrite Hhd. destruct l as [|b l]; cbn [head]; [done|].
  destruct (remove_repr s [] b l Hr) as (s' & Hrun & Hr' & Hm).
  exists s'. by rewrite (bind_step _ _ _ _ _ Hrun).
Qed.

(** *** [append] *)

Lemma append_repr s l b :
  repr s l -> b ∉ l ->
  exists s', append b s = (Ok tt, s') /\ repr s' (l ++ [b]) /\
             same_meta (blocks s) (blocks s').
Proof.
  intros [Hnd Hnum Hhd Htl Hseg Hfree] Hb.
  assert (Hnd' : NoDup (l ++ [b])).
  { apply NoDup_app. split_and!; [done| |by apply NoDup_singleton].
    by intros x Hx ->%list_elem_of_singleton. }
  unfold append. rewrite bind_run.
  change (gets free_list_tail s) with (@Ok (option Z) (free_list_tail s), s). cbv iota.
  rewrite Htl. destruct (last l) as [c|] eqn:El.
  - assert (Hc : c ∈ l) by (by apply last_Some_elem_of).
    assert (Hcb : c <> b) by (by intros ->).
    eexists. split; [reflexivity|]. split; [|].
    + split; [done|..].
      * cbn. rewrite length_app. cbn. lia.
      * cbn. rewrite Hhd. by destruct l.
      * cbn. by rewrite last_snoc.
      * cbn. apply seg_app. rewrite El. cbn [head or_else]. split.
        -- apply (seg_relink (blocks s) _ None None l None); [done..|].
           intros x Hx. rewrite !lookup_upd.
           destruct (decide (b = x)) as [->|_]; [done|]. rewrite El. destruct (decide (c = x)) as [->|Hcx]; cbn.
           ++ rewrite (bool_decide_true (Some x = Some x)) by done. split; [|done].
              goal_decide; [by eauto using seg_first|done].
           ++ rewrite (bool_decide_false (Some c = Some x)) by congruence. split; [|done].
              goal_decide; [by eauto using seg_first|done].
        -- cbn. rewrite !lookup_upd, !decide_True by done. done.
      * intros x Hx. cbn. rewrite !lookup_upd. set_unfold in Hx.
        destruct (decide (b = x)) as [->|_]; [tauto|].
        destruct (decide (c = x)) as [->|_]; [tauto|]. apply Hfree. tauto.
    + cbn. etransitivity; [by apply (same_meta_upd _ c (with_next (Some b)))|].
      etransitivity; [by apply (same_meta_upd _ b (with_prev (Some c)))|].
      by apply (same_meta_upd _ b (with_next None)).
  - apply last_None in El. subst l. cbn [head] in Hhd.
    unfold mbind, M_bind, gets. rewrite Hhd. eexists. split; [reflexivity|].
    split; [|cbn; by apply (same_meta_upd _ b (with_next None))].
    split; [done|..]; cbn.
    + rewrite Hnum. done.
    + done.
    + done.
    + rewrite lookup_upd, decide_True by done. split_and!; [|done..].
      cbn. apply Hfree, Hb.
    + intros x Hx. rewrite lookup_upd. set_unfold in Hx.
      rewrite decide_False by (intros ->; tauto). by apply Hfree, not_elem_of_nil.
Qed.

(** *** The walk *)

Lemma walk_seg s p l fuel :
  seg (blocks s) p l None -> (length l <= fuel)%nat -> walk fuel (head l) s = Ok l.
Proof.
  revert p fuel. induction l as [|b l IH]; intros p fuel Hs Hf; [by destruct fuel|].
  cbn in Hf. destruct fuel as [|fuel]; [lia|]. destruct Hs as (_ & Hn & Hs). cbn.
  unfold next_of. rewrite Hn, or_else_None. by rewrite (IH _ fuel Hs) by lia.
Qed.

Lemma get_all_free_blocks_repr s l fuel :
  repr s l -> (length l <= fuel)%nat -> get_all_free_blocks fuel s = Ok l.
Proof.
  intros Hr. unfold get_all_free_blocks. rewrite (repr_head _ _ Hr).
  apply (walk_seg _ None), (repr_seg _ _ Hr).
Qed.

(** ** The queue as a list

    What the class promises its callers, with a list for its state.  [None]:
    the caller broke the precondition of [remove] (the block is queued) or
    [append] (it is not). *)

Inductive op : Type :=
  | Popleft
  | Remove (b : Z)
  | Append (b : Z).

Definition run_op (o : op) : M t (option Z) :=
  match o with
  | Popleft => b ← popleft; mret (Some b)
  | Remove b => remove b ;; mret None
  | Append b => append b ;; mret None
  end.

Fixpoint run_ops (ops : list op) (s : t) : list (result (option Z)) * t :=
  match ops with
  | [] => ([], s)
  | o :: ops => let '(r, s) := run_op o s in
                let '(rs, s) := run_ops ops s in (r :: rs, s)
  end.

Definition spec_op (o : op) (l : list Z) : option (result (option Z) * list Z) :=
  match o with
  | Popleft => Some (match l with
                     | [] => (Err ValueError, [])
                     | b :: l => (Ok (Some b), l)
                     end)
  | Remove b => if decide (b ∈ l) then Some (Ok None, filter (fun c => c <> b) l) else None
  | Append b => if decide (b ∈ l) then None else Some (Ok None, l ++ [b])
  end.

Fixpoint spec_ops (ops : list op) (l : list Z) :
    option (list (result (option Z)) * list Z) :=
  match ops with
  | [] => Some ([], l)
  | o :: ops => '(r, l) ← spec_op o l; '(rs, l) ← spec_ops ops l; Some (r :: rs, l)
  end.

Lemma spec_op_simulated o s l r l' :
  repr s l -> spec_op o l = Some (r, l') ->
  exists s', run_op o s = (r, s') /\ repr s' l'.
Proof.
  intros Hr. destruct o as [|b|b]; cbn [spec_op run_op].
  - intros [= Hl]. pose proof (popleft_repr s l Hr) as Hp. destruct l as [|b l].
    + injection Hl as <- <-. exists s. rewrite bind_run, Hp. done.
    + destruct Hp as (s' & Hp & Hr' & _). injection Hl as <- <-.
      exists s'. by rewrite (bind_step _ _ _ _ _ Hp).
  - destruct (decide (b ∈ l)) as [Hb|]; [|done]. intros [= <- <-].
    apply list_elem_of_split in Hb as (l1 & l2 & ->).
    destruct (remove_repr s l1 b l2 Hr) as (s' & Hrun & Hr' & _).
    exists s'. rewrite (bind_step _ _ _ _ _ Hrun). split; [done|].
    by rewrite filter_ne_split by apply Hr.
  - destruct (decide (b ∈ l)) as [|Hb]; [done|]. intros [= <- <-].
    destruct (append_repr s l b Hr Hb) as (s' & Hrun & Hr' & _).
    exists s'. by rewrite (bind_step _ _ _ _ _ Hrun).
Qed.

Lemma run_ops_simulated ops s l answers l' :
  repr s l -> spec_ops ops l = Some (answers, l') ->
  exists s', run_ops ops s = (answers, s') /\ repr s' l'.
Proof.
  revert s l answers. induction ops as [|o ops IH]; intros s l answers Hr; cbn.
  { intros [= <- <-]. eauto. }
  intros ([r l1] & Ho & ([rs l2] & Hs & [= <- <-])%bind_Some)%bind_Some.
  destruct (spec_op_simulated o s l r l1 Hr Ho) as (s1 & -> & Hr1).
  destruct (IH s1 l1 rs Hr1 Hs) as (s2 & -> & Hr2). eauto.
Qed.

(** C34. The pointer structure is a queue: from the constructor on, any sequence
    of [popleft], [remove] of a queued block and [append] of a block that is not
    queued answers what the same operations answer on a plain list (the error
    of an empty queue included), and ends with [get_all_free_blocks] spelling
    that list and [num_free_blocks] counting it. *)
Theorem queue_refines_list h n ops answers l :
  (0 < n)%nat ->
  (forall b, prev_free_block (h !!! b) = None /\ next_free_block (h !!! b) = None) ->
  spec_ops ops (seqZ 0 (Z.of_nat n)) = Some (answers, l) ->
  exists s s', init h n = Ok s /\ run_ops ops s = (answers, s') /\
    get_all_free_blocks (length l) s' = Ok l /\
    num_free_blocks s' = Z.of_nat (length l).
Proof.
  intros Hn Hh Hspec. destruct (init_repr h n Hn Hh) as (s & Hinit & Hr & _).
  destruct (run_ops_simulated _ _ _ _ _ Hr Hspec) as (s' & Hrun & Hr').
  exists s, s'. split_and!; [done..|by apply get_all_free_blocks_repr|apply Hr'].
Qed.
End FreeQueue.

Lemma queue_refines_list_witness :
  FreeQueue.spec_ops
    [FreeQueue.Remove 1; FreeQueue.Popleft; FreeQueue.Append 1; FreeQueue.Popleft;
     FreeQueue.Popleft; FreeQueue.Popleft; FreeQueue.Append 0]
    (seqZ 0 3) =
  Some ([Ok None; Ok (Some 0); Ok None; Ok (Some 2); Ok (Some 1); Err ValueError; Ok None],
        [0]) /\
  exists s s', FreeQueue.init ∅ 3 = Ok s /\
    FreeQueue.run_ops
      [FreeQueue.Remove 1; FreeQueue.Popleft; FreeQueue.Append 1; FreeQueue.Popleft;
       FreeQueue.Popleft; FreeQueue.Popleft; FreeQueue.Append 0] s =
      ([Ok None; Ok (Some 0); Ok None; Ok (Some 2); Ok (Some 1); Err ValueError; Ok None], s') /\
    FreeQueue.get_all_free_blocks 1 s' = Ok [0] /\ FreeQueue.num_free_blocks s' = 1.
Proof.
  split; [vm_compute; reflexivity|].
  eapply (FreeQueue.queue_refines_list ∅ 3 _ _ [0]).
  - lia.
  - intros b. rewrite lookup_total_empty. done.
  - vm_compute; reflexivity.
Defined.
