(* ===== verification/NgramProposer.v ===== *)
(** * N-gram speculation ([vllm/v1/spec_decode/ngram_proposer.py])

    The proposer looks for the last [n] tokens of the context in what precedes
    them, with the algorithm of Knuth, Morris and Pratt, and proposes what
    followed their first occurrence.  The positions in the arrays are natural
    numbers; an access outside an array would answer [IndexError], and the theorem
    shows that there is none.  The entries of [lps] fit the [int32] of the code as
    long as [n] does. *)
From S2P Require Import Prelude.

Module Ngram.

(** [a[i]] for a position [i] that is not negative. *)
Definition item {A} (l : list A) (i : nat) : result A := from_option_exn IndexError (l !! i).

(** The loop of [_kmp_lps_array] *)
Fixpoint lps_loop (fuel : nat) (pattern : list Z) (i prev_lps : nat) (lps : list nat) : result (list nat) :=
  match fuel with
  | O => Err OutOfFuel
  | S fuel' =>
      if (i <? length pattern)%nat then
        x ← item pattern i;
        y ← item pattern prev_lps;
        if x =? y then lps_loop fuel' pattern (S i) (S prev_lps) (<[i := S prev_lps]> lps)
        else if negb (prev_lps =? 0)%nat then
          p ← item lps (prev_lps - 1);
          lps_loop fuel' pattern i p lps
        else lps_loop fuel' pattern (S i) prev_lps (<[i := 0%nat]> lps)
      else Ok lps
  end.

(** Each round moves [i] on or makes [prev_lps] smaller. *)
Definition kmp_lps_array (pattern : list Z) : result (list nat) :=
  lps_loop (2 * length pattern + 1) pattern 1 0 (replicate (length pattern) 0%nat).

(** The loop of [_find_subarray_kmp]: the position behind the match. *)
Fixpoint kmp_loop (fuel : nat) (context pattern : list Z) (lps : list nat) (n : Z) (i j : nat)
    : result (option nat) :=
  match fuel with
  | O => Err OutOfFuel
  | S fuel' =>
      if Z.of_nat i <? Z.of_nat (length context) - n then
        x ← item context i;
        y ← item pattern j;
        if x =? y then
          if Z.of_nat (S j) =? n then Ok (Some (S i))
          else kmp_loop fuel' context pattern lps n (S i) (S j)
        else if negb (j =? 0)%nat then
          p ← item lps (j - 1);
          kmp_loop fuel' context pattern lps n i p
        else kmp_loop fuel' context pattern lps n (S i) j
      else Ok None
  end.

Definition find_subarray_kmp (context : list Z) (n k : Z) : result (option (list Z)) :=
  if 0 <? n then
    let pattern := py_slice context (- n) (Z.of_nat (length context)) in
    lps ← kmp_lps_array pattern;
    found ← kmp_loop (2 * length context + 1) context pattern lps n 0 0;
    Ok (match found with
        | Some i => Some (py_slice context (Z.of_nat i) (Z.of_nat i + k))
        | None => None
        end)
  else Err AssertionError.

Definition propose (context_token_ids : list Z) (n k : Z) : result (option (list Z)) :=
  find_subarray_kmp context_token_ids n k.

(** The example of the doc string. *)
Example propose_doc : propose [1; 2; 3; 4; 2; 3] 2 4 = Ok (Some [4; 2; 3]).
Proof. reflexivity. Qed.

(** ** Borders

    A border of length [b] of the first [i] tokens of [p]: they start and end with
    the same [b] tokens, and [b < i]. *)

Section Borders.
Variable p : list Z.
Implicit Types (i j b c x : nat).

Definition border i b : Prop := (b < i)%nat /\ forall x, (x < b)%nat -> p !! x = p !! (i - b + x)%nat.

Lemma border_zero i : (0 < i)%nat -> border i 0.
Proof. intros H. split; [done|lia]. Qed.

Lemma border_succ i c : border (S i) (S c) <-> border i c /\ p !! c = p !! i.
Proof.
  split.
  - intros [H1 H2]. split; [split; [lia|]|].
    + intros x Hx. rewrite H2 by lia. f_equal; lia.
    + rewrite H2 by lia. f_equal; lia.
  - intros [[H1 H2] H3]. split; [lia|]. intros x Hx. destruct (decide (x = c)) as [->|].
    + rewrite H3. f_equal; lia.
    + rewrite H2 by lia. f_equal; lia.
Qed.

Lemma border_within i b c : border i b -> (c < b)%nat -> border i c -> border b c.
Proof.
  intros [H1 H2] Hc [H3 H4]. split; [done|]. intros x Hx. rewrite H4 by done.
  rewrite (H2 (b - c + x)%nat) by lia. f_equal; lia.
Qed.

Lemma border_trans i b c : border i b -> border b c -> border i c.
Proof.
  intros [H1 H2] [H3 H4]. split; [lia|]. intros x Hx. rewrite H4 by done.
  rewrite (H2 (b - c + x)%nat) by lia. f_equal; lia.
Qed.

(** The longest one *)
Definition longest i b : Prop := border i b /\ forall c, border i c -> (c <= b)%nat.

(** [lps] is right for the first [i] positions. *)
Definition lps_ok (lps : list nat) i : Prop :=
  length lps = length p /\ forall q, (q < i)%nat -> exists b, lps !! q = Some b /\ longest (S q) b.

Lemma lps_ok_set lps i b : (i < length p)%nat -> lps_ok lps i -> longest (S i) b -> lps_ok (<[i := b]> lps) (S i).
Proof.
  intros Hi [Hlen Hq] Hb. split; [by rewrite length_insert|]. intros q Hqi.
  destruct (decide (q = i)) as [->|].
  - exists b. split; [|done]. apply list_lookup_insert_eq. lia.
  - destruct (Hq q) as (c & Hc & Hl); [lia|]. exists c. split; [|done]. by rewrite list_lookup_insert_ne.
Qed.

(** [prev] is a border of the first [i] tokens, and no longer one continues. *)
Definition candidate i prev : Prop :=
  border i prev /\ forall c, border i c -> p !! c = p !! i -> (c <= prev)%nat.

Lemma longest_match i prev : candidate i prev -> p !! prev = p !! i -> longest (S i) (S prev).
Proof.
  intros [Hb Hc] Heq. split; [by apply border_succ|]. intros [|c] H; [lia|].
  apply border_succ in H as [H1 H2]. specialize (Hc c H1 H2). lia.
Qed.

Lemma longest_none i : candidate i 0 -> p !! 0%nat <> p !! i -> longest (S i) 0.
Proof.
  intros [Hb Hc] Hne. split; [apply border_zero; lia|]. intros [|c] H; [lia|].
  apply border_succ in H as [H1 H2]. specialize (Hc c H1 H2). assert (c = 0%nat) as -> by lia. done.
Qed.

Lemma longest_candidate i b : longest i b -> candidate i b.
Proof. intros [H1 H2]. split; [done|]. intros c Hc _. by apply H2. Qed.

Lemma candidate_next i prev b :
  candidate i prev -> p !! prev <> p !! i -> longest prev b -> candidate i b.
Proof.
  intros [Hp Hc] Hne [Hb Hl]. split; [by eapply border_trans|]. intros c H1 H2.
  apply Hl. eapply border_within; [exact Hp| |done].
  specialize (Hc c H1 H2). assert (c <> prev) by by intros ->. lia.
Qed.

Lemma item_lookup {A} (l : list A) i y : l !! i = Some y -> item l i = Ok y.
Proof. unfold item. by intros ->. Qed.

Lemma lps_loop_ok : forall fuel i prev lps,
  (1 <= i <= length p)%nat -> lps_ok lps i -> candidate i prev ->
  (2 * (length p - i) + prev < fuel)%nat ->
  exists lps', lps_loop fuel p i prev lps = Ok lps' /\ lps_ok lps' (length p).
Proof.
  induction fuel as [|fuel IH]; intros i prev lps Hi Hlps Hc Hfuel; [lia|]. cbn [lps_loop].
  destruct (Nat.ltb_spec i (length p)) as [Hlt|Hge].
  2:{ exists lps. split; [done|]. by replace (length p) with i by lia. }
  destruct (lookup_lt_is_Some_2 p i Hlt) as [x Hx].
  pose proof (proj1 (proj1 Hc)) as Hprev.
  destruct (lookup_lt_is_Some_2 p prev) as [y Hy]; [lia|].
  rewrite (item_lookup _ _ _ Hx). cbn [mbind result_bind]. rewrite (item_lookup _ _ _ Hy). cbn.
  destruct (Z.eqb_spec x y) as [->|Hne].
  - assert (Hl : longest (S i) (S prev)) by (apply longest_match; [done|congruence]).
    apply IH; [lia|by apply lps_ok_set|by apply longest_candidate|lia].
  - assert (Hpi : p !! prev <> p !! i) by congruence.
    destruct (Nat.eqb_spec prev 0) as [->|Hnz]; cbn [negb].
    + assert (Hl : longest (S i) 0) by by apply longest_none.
      apply IH; [lia|by apply lps_ok_set|by apply longest_candidate|lia].
    + destruct (proj2 Hlps (prev - 1)%nat) as (b & Hb & Hl); [lia|].
      replace (S (prev - 1)) with prev in Hl by lia. rewrite (item_lookup _ _ _ Hb). cbn.
      apply IH; [done|done|by eapply candidate_next|]. pose proof (proj1 (proj1 Hl)). lia.
Qed.

Lemma kmp_lps_array_ok : exists lps, kmp_lps_array p = Ok lps /\ lps_ok lps (length p).
Proof.
  unfold kmp_lps_array. destruct (Nat.eq_dec (length p) 0%nat) as [H0|H0].
  { apply nil_length_inv in H0. rewrite H0. exists []. split; [reflexivity|]. split; [by rewrite H0|intros q Hq; cbn in Hq; lia]. }
  apply lps_loop_ok; [lia| | |lia].
  - split; [by rewrite length_replicate|]. intros q Hq. assert (q = 0%nat) as -> by lia.
    exists 0%nat. split; [apply lookup_replicate; split; [done|lia]|].
    split; [apply border_zero; lia|]. intros c [H _]. lia.
  - split; [apply border_zero; lia|]. intros c [H _] _. lia.
Qed.
End Borders.

(** ** The search *)

(** [p] stands at position [s] of [t]. *)
Definition occurs_at (p t : list Z) (s : nat) : Prop := forall x, (x < length p)%nat -> p !! x = t !! (s + x)%nat.

(** The first [j] tokens of [p] end at position [i] of [t], and [p] stands nowhere
    before them. *)
Record partial_match (p t : list Z) (i j : nat) : Prop := {
  pm_le : (j <= i)%nat;
  pm_short : (j < length p)%nat;
  pm_match : forall x, (x < j)%nat -> p !! x = t !! (i - j + x)%nat;
  pm_first : forall s, (s < i - j)%nat -> ~ occurs_at p t s
}.

Lemma partial_next p t i j : partial_match p t i j -> p !! j = t !! i ->
  (S j < length p)%nat -> partial_match p t (S i) (S j).
Proof.
  intros [H1 H2 H3 H4] Heq Hj. split; [lia|done| |].
  - intros x Hx. destruct (decide (x = j)) as [->|].
    + rewrite Heq. f_equal; lia.
    + rewrite H3 by lia. f_equal; lia.
  - intros s Hs. apply H4. lia.
Qed.

Lemma partial_full p t i j : partial_match p t i j -> p !! j = t !! i ->
  S j = length p -> occurs_at p t (S i - length p).
Proof.
  intros [H1 H2 H3 H4] Heq Hj x Hx. destruct (decide (x = j)) as [->|].
  - rewrite Heq. f_equal; lia.
  - rewrite H3 by lia. f_equal; lia.
Qed.

(** An occurrence that begins inside the partial match gives a border of it. *)
Lemma occurrence_border p t i j s : partial_match p t i j -> p !! j <> t !! i ->
  occurs_at p t s -> (s <= i)%nat -> (0 < j)%nat -> border p j (i - s).
Proof.
  intros [H1 H2 H3 H4] Hne Ho Hs Hj.
  assert (Hs' : (i - j < s)%nat).
  { destruct (decide (s < i - j)%nat) as [Hlt|]; [by destruct (H4 s Hlt)|].
    destruct (decide (s = i - j)%nat) as [->|]; [|lia]. destruct Hne.
    rewrite (Ho j) by lia. f_equal; lia. }
  split; [lia|]. intros x Hx. rewrite (Ho x) by lia. rewrite (H3 (j - (i - s) + x)%nat) by lia. f_equal; lia.
Qed.

Lemma partial_skip p t i j b : partial_match p t i j -> p !! j <> t !! i -> (0 < j)%nat ->
  longest p j b -> partial_match p t i b.
Proof.
  intros Hp Hne Hj [[Hb1 Hb2] Hl]. pose proof Hp as [H1 H2 H3 H4]. split; [lia|lia| |].
  - intros x Hx. rewrite Hb2 by done. rewrite H3 by lia. f_equal; lia.
  - intros s Hs Ho. assert (Hbs : border p j (i - s)) by (eapply occurrence_border; eauto; lia).
    specialize (Hl _ Hbs). lia.
Qed.

Lemma partial_restart p t i : partial_match p t i 0 -> p !! 0%nat <> t !! i -> partial_match p t (S i) 0.
Proof.
  intros [H1 H2 H3 H4] Hne. split; [lia|done|lia|]. intros s Hs Ho.
  destruct (decide (s < i - 0)%nat) as [Hlt|]; [by destruct (H4 s Hlt)|].
  apply Hne. rewrite (Ho 0%nat) by lia. f_equal; lia.
Qed.

(** [p] first stands at [s] among the first [m] tokens. *)
Definition first_occurrence (p t : list Z) (m s : nat) : Prop :=
  (s + length p <= m)%nat /\ occurs_at p t s /\ forall s', (s' < s)%nat -> ~ occurs_at p t s'.

Lemma kmp_loop_ok p t lps n m :
  Z.of_nat (length p) = n -> Z.of_nat (length t) - n = Z.of_nat m -> lps_ok p lps (length p) ->
  forall fuel i j, partial_match p t i j -> (i <= m)%nat -> (2 * (m - i) + j < fuel)%nat ->
  exists res, kmp_loop fuel t p lps n i j = Ok res /\
    match res with
    | Some e => exists s, first_occurrence p t m s /\ e = (s + length p)%nat
    | None => forall s, (s + length p <= m)%nat -> ~ occurs_at p t s
    end.
Proof.
  intros Hn Hm Hlps. induction fuel as [|fuel IH]; intros i j Hp Hi Hfuel; [lia|]. cbn [kmp_loop].
  pose proof Hp as [H1 H2 H3 H4]. rewrite Hm.
  destruct (Z.ltb_spec (Z.of_nat i) (Z.of_nat m)) as [Hlt|Hge].
  2:{ exists None. split; [done|]. intros s Hs. apply H4. lia. }
  destruct (lookup_lt_is_Some_2 t i) as [x Hx]; [lia|].
  destruct (lookup_lt_is_Some_2 p j H2) as [y Hy].
  rewrite (item_lookup _ _ _ Hx). cbn [mbind result_bind]. rewrite (item_lookup _ _ _ Hy). cbn.
  destruct (Z.eqb_spec x y) as [->|Hne].
  - destruct (Z.eqb_spec (Z.of_nat (S j)) n) as [Hj|Hj].
    + exists (Some (S i)). split; [done|]. exists (S i - length p)%nat.
      split; [|lia]. split; [lia|]. split; [apply (partial_full _ _ _ j); [done|congruence|lia]|].
      intros s' Hs'. apply H4. lia.
    + apply IH; [apply partial_next; [done|congruence|lia]|lia|lia].
  - assert (Hpi : p !! j <> t !! i) by congruence.
    destruct (Nat.eqb_spec j 0) as [->|Hnz]; cbn [negb].
    + apply IH; [by apply partial_restart|lia|lia].
    + destruct (proj2 Hlps (j - 1)%nat) as (b & Hb & Hl); [lia|].
      replace (S (j - 1)) with j in Hl by lia. rewrite (item_lookup _ _ _ Hb). cbn.
      apply IH; [eapply partial_skip; eauto; lia|done|]. pose proof (proj1 (proj1 Hl)). lia.
Qed.

Lemma occurs_at_take p t s :
  (s + length p <= length t)%nat -> occurs_at p t s <-> take (length p) (drop s t) = p.
Proof.
  intros Hs. split.
  - intros Ho. apply list_eq. intros x. destruct (decide (x < length p)%nat) as [Hx|Hx].
    + rewrite lookup_take_lt by done. rewrite lookup_drop. symmetry. by apply Ho.
    + rewrite lookup_take_ge by lia. symmetry. apply lookup_ge_None. lia.
  - intros Heq x Hx. rewrite <- Heq at 1. rewrite lookup_take_lt by done. by rewrite lookup_drop.
Qed.

Lemma last_tokens (t : list Z) n : 0 < n -> n <= Z.of_nat (length t) ->
  py_slice t (- n) (Z.of_nat (length t)) = drop (length t - Z.to_nat n) t.
Proof.
  intros H0 Hn. unfold py_slice, slice_bound.
  destruct (Z.ltb_spec (- n) 0); [|lia]. destruct (Z.ltb_spec (Z.of_nat (length t)) 0); [lia|].
  rewrite take_ge; [f_equal; lia|]. rewrite length_drop. lia.
Qed.

(** C33. The proposer's search finds the first occurrence of the last [n] tokens
    among the tokens before them, and proposes the (at most [k]) tokens that
    follow it; it answers [None] exactly when there is none.  The tables it builds
    on the way never lead it past an occurrence or outside an array, and its
    loops end. *)
Theorem propose_first_occurrence context n k (Hn : 0 < n) (Hk : 0 <= k) :
  exists res, propose context n k = Ok res /\
    let len := length context in
    let m := Z.to_nat n in
    let found s := (s + m + m <= len)%nat /\ take m (drop s context) = drop (len - m) context in
    match res with
    | Some l => exists s, found s /\ (forall s', (s' < s)%nat -> ~ found s') /\
                          l = take (Z.to_nat k) (drop (s + m) context)
    | None => forall s, ~ found s
    end.
Proof.
  unfold propose, find_subarray_kmp. rewrite (proj2 (Z.ltb_lt 0 n) Hn). cbv zeta.
  set (p := py_slice context (- n) (Z.of_nat (length context))).
  destruct (kmp_lps_array_ok p) as (lps & Hlps & Hok). rewrite Hlps. cbn [mbind result_bind].
  destruct (Z.leb_spec n (Z.of_nat (length context))) as [Hle|Hgt].
  2:{ exists None. split; [|intros s [Hs _]; lia]. 
      replace (2 * length context + 1)%nat with (S (2 * length context)) by lia. cbn [kmp_loop].
      destruct (Z.ltb_spec (Z.of_nat 0) (Z.of_nat (length context) - n)); [lia|done]. }
  assert (Hp : p = drop (length context - Z.to_nat n) context) by by apply last_tokens.
  assert (Hlen : length p = Z.to_nat n) by (rewrite Hp, length_drop; lia).
  destruct (kmp_loop_ok p context lps n (length context - Z.to_nat n) ltac:(lia) ltac:(lia) Hok
    (2 * length context + 1) 0 0) as (res & Hres & Hspec).
  - split; [lia|lia|lia|]. intros s Hs. lia.
  - lia.
  - lia.
  - rewrite Hres. cbn.
    assert (Hocc : forall s, (s + length p <= length context - Z.to_nat n)%nat ->
      occurs_at p context s <-> take (Z.to_nat n) (drop s context) = drop (length context - Z.to_nat n) context).
    { intros s Hs. rewrite occurs_at_take by lia. by rewrite Hlen, <- Hp. }
    eexists. split; [done|]. destruct res as [e|].
    + destruct Hspec as (s & (Hs & Ho & Hf) & ->). exists s. split_and!.
      * lia.
      * by apply Hocc.
      * intros s' Hs' [H1 H2]. apply (Hf s' Hs'). apply Hocc; [lia|done].
      * rewrite py_slice_take by lia. f_equal; [lia|]. f_equal. lia.
    + intros s [H1 H2]. apply (Hspec s); [lia|]. apply Hocc; [lia|done].
Qed.

Lemma propose_first_occurrence_witness : exists l s,
  propose [7; 1; 7; 2; 7; 1; 7; 3; 7; 1; 7] 3 2 = Ok (Some l) /\ s = 0%nat /\
  l = take 2 (drop (s + 3) [7; 1; 7; 2; 7; 1; 7; 3; 7; 1; 7]).
Proof.
  destruct (propose_first_occurrence [7; 1; 7; 2; 7; 1; 7; 3; 7; 1; 7] 3 2 ltac:(lia) ltac:(lia))
    as (res & Hres & Hspec).
  assert (H : propose [7; 1; 7; 2; 7; 1; 7; 3; 7; 1; 7] 3 2 = Ok (Some [2; 7])) by (vm_compute; reflexivity).
  rewrite H in Hres. injection Hres as <-. destruct Hspec as (s & Hf & Hleast & Hl).
  exists [2; 7], s. split; [exact H|]. split; [|exact Hl].
  destruct s as [|s]; [reflexivity|]. exfalso. apply (Hleast 0%nat); [lia|]. split; [cbn; lia|reflexivity].
Defined.
End Ngram.
