(* ===== verification/RejectionSampler.v ===== *)
(** * v1: greedy verification of drafted tokens ([vllm/v1/sample/rejection_sampler.py])

    [RejectionSampler.forward] with [forward_native], and the parts of
    [GPUModelRunner.execute_model] that hand it the drafts and take its tensor
    apart.  A tensor is a list of rows; a value of [target_probs] is exact; the
    request rows are in the order of the batch.  [flashinfer_sample] calls a
    kernel of a third party and is not modelled.

    The theorem: with drafts in the order of the batch, a request gets exactly
    the tokens that greedy decoding would have produced one at a time, at least
    one and at most one more than drafted. *)
From S2P Require Import Prelude.
From S2P Require Import PyDict.

Module RejectionSampler.

Definition INVALID_TOKEN_ID : Z := -1.

(** ** The tensor operations the code uses *)

(** [argmax]: the position of the first maximal value. *)
Fixpoint argmax_from (i : nat) (best : nat * Q) (l : list Q) : nat :=
  match l with
  | [] => best.1
  | x :: l' => argmax_from (S i) (if Qltb best.2 x then (i, x) else best) l'
  end.

Definition argmax (l : list Q) : result nat :=
  match l with
  | [] => Err IndexError
  | x :: l' => Ok (argmax_from 1 (0%nat, x) l')
  end.

(** [t.split(lens)]: the lengths must add up. *)
Fixpoint split {A} (l : list A) (lens : list nat) : result (list (list A)) :=
  match lens with
  | [] => if bool_decide (length l = 0%nat) then Ok [] else Err RuntimeError
  | n :: lens' =>
      if bool_decide (n <= length l)%nat
      then rest ← split (drop n l) lens'; Ok (take n l :: rest)
      else Err RuntimeError
  end.

(** [pad_sequence(rows, batch_first=True, padding_value=INVALID_TOKEN_ID)] *)
Definition width {A} (rows : list (list A)) : nat := foldr Nat.max 0%nat (map length rows).

Definition pad_to (w : nat) (row : list Z) : list Z :=
  row ++ replicate (w - length row) INVALID_TOKEN_ID.

Definition pad_sequence (rows : list (list Z)) : result (list (list Z)) :=
  match rows with [] => Err RuntimeError | _ => Ok (map (pad_to (width rows)) rows) end.

(** [cumprod] of a mask. *)
Fixpoint cumprod (l : list bool) : list bool :=
  match l with
  | [] => []
  | b :: l' => b :: map (andb b) (cumprod l')
  end.

Definition float_of (b : bool) : Q := if b then 1 else 0.

(** ** [forward_native], row by row after the padding *)

(** The mask of what to keep: up to the first mismatch, and the first zero of
    the mask set to one. *)
Definition generate_row (output draft : list Z) : result (list bool) :=
  let accept := cumprod (zip_with Z.eqb (removelast output) draft) in
  let valid := map (fun x => negb (x =? INVALID_TOKEN_ID)) output in
  let mask := zip_with andb (accept ++ [false]) valid in
  let zeros := map negb mask in
  first_zero ← argmax (map float_of zeros);
  Ok (if existsb id zeros then <[first_zero := true]> mask else mask).

Definition keep_row (output : list Z) (mask : list bool) : list Z :=
  zip_with (fun x b => if b : bool then x else INVALID_TOKEN_ID) output mask.

Fixpoint rows_of (outputs drafts : list (list Z)) : result (list (list Z)) :=
  match outputs, drafts with
  | o :: outputs', d :: drafts' =>
      mask ← generate_row o d; rest ← rows_of outputs' drafts'; Ok (keep_row o mask :: rest)
  | _, _ => Ok []
  end.

Fixpoint argmax_rows (probs : list (list Q)) : result (list Z) :=
  match probs with
  | [] => Ok []
  | p :: probs' => i ← argmax p; rest ← argmax_rows probs'; Ok (Z.of_nat i :: rest)
  end.

Definition forward_native (draft_token_ids : list (list Z)) (target_probs : list (list Q))
    (all_greedy : bool) : result (list (list Z)) :=
  let sample_lens := map (fun x => S (length x)) draft_token_ids in
  draft_tensor ← pad_sequence draft_token_ids;
  if all_greedy
  then
    output ← argmax_rows target_probs;
    output ← split output sample_lens;
    output ← pad_sequence output;
    rows_of output draft_tensor
  else Err NotImplementedError.

Definition forward (draft_token_ids : list (list Z)) (target_probs : list (list Q))
    (all_greedy : bool) : result (list (list Z)) :=
  if all_greedy then forward_native draft_token_ids target_probs all_greedy
  else Err NotImplementedError.

(** ** In [execute_model] *)

(** The drafts handed to the sampler: in the order of the scheduler's dictionary. *)
Definition drafts_of (num_scheduled_tokens : pydict string Z)
    (scheduled_spec_decode_tokens : pydict string (list Z)) : list (list Z) :=
  map (fun id => default [] (scheduled_spec_decode_tokens !! id)) (keys num_scheduled_tokens).

(** The valid generated tokens of each row. *)
Definition valid_sampled_token_ids (sampled_token_ids : list (list Z)) : list (list Z) :=
  if bool_decide (width sampled_token_ids = 1%nat) then sampled_token_ids
  else map (filter (fun x => x <> INVALID_TOKEN_ID)) sampled_token_ids.

Definition verify_drafts (num_scheduled_tokens : pydict string Z)
    (scheduled_spec_decode_tokens : pydict string (list Z)) (target_probs : list (list Q))
    (all_greedy : bool) : result (list (list Z)) :=
  sampled ← forward (drafts_of num_scheduled_tokens scheduled_spec_decode_tokens) target_probs all_greedy;
  Ok (valid_sampled_token_ids sampled).

(** ** Specification

    [next ctx] is the token that the target model finds most likely after
    [ctx]; greedy decoding appends it, one token at a time. *)
Fixpoint greedy (next : list Z -> Z) (ctx : list Z) (n : nat) : list Z :=
  match n with
  | O => []
  | S n' => next ctx :: greedy next (ctx ++ [next ctx]) n'
  end.

(** What the model says after each prefix of the drafts. *)
Fixpoint targets (next : list Z -> Z) (ctx draft : list Z) : list Z :=
  next ctx :: match draft with [] => [] | x :: draft' => targets next (ctx ++ [x]) draft' end.

(** The number of leading ones of a mask, and of leading tokens that agree. *)
Fixpoint lead (l : list bool) : nat :=
  match l with true :: l' => S (lead l') | _ => 0%nat end.

Definition agreed (target draft : list Z) : nat := lead (zip_with Z.eqb target draft).

Lemma length_targets next draft : forall ctx, length (targets next ctx draft) = S (length draft).
Proof. induction draft as [|x draft IH]; intros ctx; cbn; [done|by rewrite IH]. Qed.

Lemma targets_greedy next draft : forall ctx,
  take (S (agreed (targets next ctx draft) draft)) (targets next ctx draft) =
    greedy next ctx (S (agreed (targets next ctx draft) draft)) /\
  agreed (targets next ctx draft) draft = agreed (greedy next ctx (length draft)) draft.
Proof.
  unfold agreed. induction draft as [|x draft IH]; intros ctx; [done|]. cbn [targets length greedy zip_with].
  destruct (Z.eqb_spec (next ctx) x) as [<-|]; cbn [lead take greedy]; [|done].
  destruct (IH (ctx ++ [next ctx])) as [Ht Ha]. split; [f_equal; exact Ht|f_equal; exact Ha].
Qed.

Lemma agreed_le draft : forall target, (agreed target draft <= length draft)%nat.
Proof.
  unfold agreed. induction draft as [|x draft IH]; intros [|t target]; cbn; try lia.
  destruct (t =? x); cbn; [specialize (IH target); lia|lia].
Qed.

(** ** Masks *)

Lemma map_replicate {A B} (f : A -> B) n x : map f (replicate n x) = replicate n (f x).
Proof. apply fmap_replicate. Qed.

Lemma cumprod_lead l : cumprod l = replicate (lead l) true ++ replicate (length l - lead l) false.
Proof.
  induction l as [|[] l IH]; [done|..]; cbn [cumprod lead length].
  - rewrite (map_ext _ id), map_id by done. by rewrite IH.
  - cbn. f_equal. rewrite IH, map_app, !map_replicate. cbn. clear IH.
    assert (lead l <= length l)%nat by (induction l as [|[]]; cbn; lia).
    rewrite <- replicate_add. f_equal. lia.
Qed.

Lemma argmax_from_le b l : forall i, Forall (fun x => x <= b.2)%Q l -> argmax_from i b l = b.1.
Proof.
  induction l as [|x l IH]; intros i Hl; cbn; [done|]. inversion_clear Hl as [|? ? Hx Hl'].
  rewrite (proj2 (Qltb_ge _ _) Hx). by apply IH.
Qed.

Lemma argmax_from_first i l m j b :
  argmax_from i (b, 0)%Q (replicate j (float_of false) ++ float_of true :: replicate m (float_of true) ++ l) =
  argmax_from (i + S j) ((i + j)%nat, 1%Q) (replicate m (float_of true) ++ l).
Proof.
  revert i. induction j as [|j IH]; intros i; cbn.
  - by replace (i + 1)%nat with (S i) by lia; replace (i + 0)%nat with i by lia.
  - rewrite IH. by replace (S i + S j)%nat with (i + S (S j))%nat by lia; replace (S i + j)%nat with (i + S j)%nat by lia.
Qed.

(** The first one of a mask. *)
Lemma argmax_first_one j m :
  argmax (map float_of (replicate j false ++ replicate (S m) true)) = Ok j.
Proof.
  rewrite map_app, !map_replicate. cbn [replicate].
  assert (Hle : Forall (fun x => x <= 1)%Q (replicate m (float_of true))) by (apply Forall_replicate; done).
  destruct j as [|j]; cbn [replicate app argmax float_of].
  - f_equal. by apply (argmax_from_le (0%nat, 1%Q)).
  - f_equal. pose proof (argmax_from_first 1 [] m j 0%nat) as H. rewrite !app_nil_r in H.
    cbn [float_of] in *. rewrite H. apply (argmax_from_le ((1 + j)%nat, 1%Q)), Hle.
Qed.

(** Padding does not hide the end of the drafts: an invalid token is no target. *)
Lemma lead_padded draft : forall target w, Forall (fun x => 0 <= x) target ->
  length target = S (length draft) -> (length draft <= w)%nat ->
  lead (zip_with Z.eqb (take w (pad_to (S w) target)) (pad_to w draft)) = agreed target draft.
Proof.
  unfold agreed. induction draft as [|y draft IH]; intros [|x target] w Hnn Ht Hw; try done; cbn in Ht.
  - destruct target; [|done]. destruct w as [|w]; [done|]. cbn.
    inversion_clear Hnn. destruct (Z.eqb_spec x INVALID_TOKEN_ID) as [->|]; [|done].
    unfold INVALID_TOKEN_ID in *. lia.
  - destruct w as [|w]; [cbn in Hw; lia|]. inversion_clear Hnn.
    change (pad_to (S (S w)) (x :: target)) with (x :: pad_to (S w) target).
    change (pad_to (S w) (y :: draft)) with (y :: pad_to w draft). cbn [take zip_with].
    destruct (x =? y); cbn [lead]; [|done]. f_equal. apply IH; [done|lia|cbn in Hw; lia].
Qed.

Lemma length_pad w row : (length row <= w)%nat -> length (pad_to w row) = w.
Proof. intros. unfold pad_to. rewrite length_app, length_replicate. lia. Qed.

Lemma valid_mask_padded w row : Forall (fun x => 0 <= x) row ->
  map (fun x => negb (x =? INVALID_TOKEN_ID)) (pad_to w row) =
  replicate (length row) true ++ replicate (w - length row) false.
Proof.
  intros Hnn. unfold pad_to. rewrite map_app, map_replicate. f_equal.
  induction Hnn as [|x row Hx _ IH]; cbn; [done|]. rewrite IH. f_equal.
  destruct (Z.eqb_spec x INVALID_TOKEN_ID) as [->|]; [unfold INVALID_TOKEN_ID in *; lia|done].
Qed.

Lemma and_masks j n a b : (j <= n)%nat -> (j + a = n + b)%nat ->
  zip_with andb (replicate j true ++ replicate a false) (replicate n true ++ replicate b false) =
  replicate j true ++ replicate a false.
Proof.
  revert n a b. induction j as [|j IH]; intros [|n] a b Hjn Hab; cbn in *; try lia.
  - replace b with a by lia. clear. induction a; cbn; congruence.
  - clear -Hab. revert n Hab. induction a as [|a IH]; intros n Hab; cbn; [done|].
    destruct n as [|n]; cbn; f_equal.
    + clear -Hab. replace b with a by lia. clear. induction a; cbn; congruence.
    + apply IH. lia.
  - f_equal. apply IH; lia.
Qed.

Lemma set_first_zero j a : <[j := true]> (replicate j true ++ replicate (S a) false) =
  replicate (S j) true ++ replicate a false.
Proof. induction j as [|j IH]; cbn; [done|]. f_equal. exact IH. Qed.

(** The mask of a row: the accepted drafts and one token more. *)
Lemma generate_row_ok target draft w : Forall (fun x => 0 <= x) target ->
  length target = S (length draft) -> (length draft <= w)%nat ->
  generate_row (pad_to (S w) target) (pad_to w draft) =
  Ok (replicate (S (agreed target draft)) true ++ replicate (w - agreed target draft) false).
Proof.
  intros Hnn Ht Hw. unfold generate_row. pose proof (agreed_le draft target) as Hj.
  rewrite removelast_firstn_len, length_pad by lia. cbn [Nat.pred].
  rewrite cumprod_lead, (lead_padded draft target w) by done.
  rewrite length_zip_with, length_take, !length_pad by lia.
  rewrite valid_mask_padded by done. set (j := agreed target draft) in *.
  rewrite <- app_assoc. change [false] with (replicate 1 false). rewrite <- replicate_add.
  replace (Nat.min (Nat.min w (S w)) w - j + 1)%nat with (S (w - j)) by lia.
  rewrite and_masks by lia. rewrite map_app, !map_replicate. cbn [negb].
  rewrite argmax_first_one. cbn [mbind result_bind]. rewrite set_first_zero. f_equal.
  rewrite existsb_app. cbn. by rewrite orb_true_r.
Qed.

Lemma keep_row_mask row j a : (j <= length row)%nat -> (length row = j + a)%nat ->
  keep_row row (replicate j true ++ replicate a false) = take j row ++ replicate a INVALID_TOKEN_ID.
Proof.
  unfold keep_row. revert row. induction j as [|j IH]; intros row Hj Ha; cbn.
  - rewrite take_0. revert row Ha Hj. cbn. induction a as [|a IH]; intros [|x row] Ha _; cbn in *; try done.
    f_equal. apply IH; lia.
  - destruct row as [|x row]; cbn in *; [lia|]. f_equal. apply IH; lia.
Qed.

Lemma row_ok target draft w : Forall (fun x => 0 <= x) target ->
  length target = S (length draft) -> (length draft <= w)%nat ->
  exists mask, generate_row (pad_to (S w) target) (pad_to w draft) = Ok mask /\
    keep_row (pad_to (S w) target) mask =
      take (S (agreed target draft)) target ++ replicate (w - agreed target draft) INVALID_TOKEN_ID.
Proof.
  intros Hnn Ht Hw. eexists. split; [by apply generate_row_ok|].
  pose proof (agreed_le draft target). rewrite keep_row_mask by (rewrite length_pad; lia). f_equal.
  unfold pad_to. by rewrite take_app_le by lia.
Qed.

(** ** Whole batches *)

Definition verified (target draft : list Z) : list Z := take (S (agreed target draft)) target.

Definition well_drafted (target draft : list Z) : Prop :=
  Forall (fun x => 0 <= x) target /\ length target = S (length draft).

Lemma rows_of_ok w targets drafts : Forall2 well_drafted targets drafts ->
  Forall (fun d => length d <= w)%nat drafts ->
  rows_of (map (pad_to (S w)) targets) (map (pad_to w) drafts) =
  Ok (zip_with (fun t d => verified t d ++ replicate (w - agreed t d) INVALID_TOKEN_ID) targets drafts).
Proof.
  induction 1 as [|t d targets drafts [Hnn Hl] _ IH]; intros Hw; [done|]. inversion_clear Hw as [|? ? Hd Hw'].
  cbn [map rows_of zip_with]. destruct (row_ok t d w Hnn Hl Hd) as (mask & -> & Hk).
  cbn [mbind result_bind]. rewrite IH by done. cbn. by rewrite Hk.
Qed.

Lemma split_concat {A} (rows : list (list A)) : split (concat rows) (map length rows) = Ok rows.
Proof.
  induction rows as [|row rows IH]; [done|]. cbn [concat map split].
  rewrite bool_decide_eq_true_2 by (rewrite length_app; lia).
  rewrite drop_app_length, take_app_length, IH. done.
Qed.

Lemma width_targets targets drafts : Forall2 well_drafted targets drafts -> drafts <> [] ->
  width targets = S (width drafts).
Proof.
  intros H Hne. destruct H as [|t d ts ds [_ H1] H]; [done|]. clear Hne. revert t d H1.
  induction H as [|t' d' ts ds [_ H2] _ IH]; intros t d H1; unfold width in *; cbn in *; [lia|].
  specialize (IH t' d' H2). lia.
Qed.

Lemma width_ge {A} (rows : list (list A)) : Forall (fun r => length r <= width rows)%nat rows.
Proof.
  induction rows as [|r rows IH]; constructor; unfold width in *; cbn; [lia|].
  eapply Forall_impl; [exact IH|]. cbn. intros; lia.
Qed.

Lemma argmax_rows_nonneg probs : forall l, argmax_rows probs = Ok l -> Forall (fun x => 0 <= x) l.
Proof.
  induction probs as [|p probs IH]; cbn; intros l Hl; [injection Hl as <-; constructor|].
  apply result_bind_ok in Hl as (i & _ & Hl). apply result_bind_ok in Hl as (rest & Hr & Hl).
  injection Hl as <-. constructor; [lia|by apply IH].
Qed.

(** The sampler's tensor for a batch of drafts. *)
Lemma forward_ok targets drafts probs : drafts <> [] -> Forall2 well_drafted targets drafts ->
  argmax_rows probs = Ok (concat targets) ->
  forward drafts probs true =
  Ok (zip_with (fun t d => verified t d ++ replicate (width drafts - agreed t d) INVALID_TOKEN_ID) targets drafts).
Proof.
  intros Hne Hwf Hp. unfold forward, forward_native.
  assert (pad_sequence drafts = Ok (map (pad_to (width drafts)) drafts)) as -> by (by destruct drafts).
  cbn [mbind result_bind]. rewrite Hp. cbn [mbind result_bind].
  assert (map (fun x => S (length x)) drafts = map length targets) as ->.
  { clear -Hwf. induction Hwf as [|t d ts ds [_ H] _ IH]; cbn; [done|]. by rewrite H, IH. }
  rewrite split_concat. cbn [mbind result_bind].
  assert (pad_sequence targets = Ok (map (pad_to (S (width drafts))) targets)) as ->.
  { rewrite <- (width_targets targets drafts) by done. destruct Hwf; done. }
  cbn [mbind result_bind]. apply rows_of_ok; [done|apply width_ge].
Qed.

Lemma filter_valid l : Forall (fun x => 0 <= x) l -> filter (fun x => x <> INVALID_TOKEN_ID) l = l.
Proof.
  induction 1 as [|x l Hx _ IH]; [done|]. rewrite filter_cons, decide_True, IH by (unfold INVALID_TOKEN_ID; lia). done.
Qed.

Lemma filter_padding n : filter (fun x => x <> INVALID_TOKEN_ID) (replicate n INVALID_TOKEN_ID) = [].
Proof. induction n as [|n IH]; [done|]. cbn [replicate]. rewrite filter_cons, decide_False by (by intros []). done. Qed.

Lemma width_zip {A} w (f : list Z -> list Z -> list A) targets drafts : drafts <> [] ->
  Forall2 (fun t d => length (f t d) = w) targets drafts -> width (zip_with f targets drafts) = w.
Proof.
  intros Hne H. destruct H as [|t d ts ds H1 H]; [done|]. clear Hne. revert t d H1.
  induction H as [|t' d' ts ds H2 _ IH]; intros t d H1; unfold width in *; cbn in *; [lia|].
  specialize (IH t' d' H2). lia.
Qed.

Lemma length_verified t d : well_drafted t d -> length (verified t d) = S (agreed t d).
Proof. intros [_ Hl]. unfold verified. rewrite length_take, Hl. pose proof (agreed_le d t). lia. Qed.

(** Taking the tensor apart leaves the verified tokens of each request. *)
Lemma valid_ok targets drafts : drafts <> [] -> Forall2 well_drafted targets drafts ->
  valid_sampled_token_ids (zip_with (fun t d =>
    verified t d ++ replicate (width drafts - agreed t d) INVALID_TOKEN_ID) targets drafts) =
  zip_with verified targets drafts.
Proof.
  intros Hne Hwf. unfold valid_sampled_token_ids. rewrite (width_zip (S (width drafts))); [|done|].
  2: { pose proof (width_ge drafts) as Hge. revert Hge. generalize (width drafts). intros w Hge. clear Hne.
       induction Hwf as [|t d ts ds Hw _ IH]; [constructor|]. inversion_clear Hge as [|? ? Hd Hge'].
       constructor; [|by apply IH]. rewrite length_app, length_replicate, length_verified by done.
       pose proof (agreed_le d t). lia. }
  case_bool_decide as Hw.
  - assert (width drafts = 0%nat) as -> by lia. clear. revert drafts.
    induction targets as [|t ts IH]; intros [|d ds]; cbn; [done..|]. by rewrite app_nil_r, IH.
  - generalize (width drafts). intros w. clear Hw Hne.
    induction Hwf as [|t d ts ds [Hnn _] _ IH]; cbn [zip_with map]; [done|]. rewrite IH. f_equal.
    rewrite filter_app, filter_padding, app_nil_r. apply filter_valid, Forall_take, Hnn.
Qed.

(** C7. Verifying drafted tokens is greedy decoding.  Let the rows of
    [target_probs] be what the model says after each prefix of the drafts of each
    request of the batch, and the scheduler's dictionary list the requests in the
    order of the batch.  Then the step returns, for every request, the tokens that
    the same model would have produced greedily one at a time: as many as drafts
    agree with greedy decoding, and one more. *)
Theorem drafts_verified_greedily (next : list Z -> Z) (batch : list (string * list Z))
    (num_scheduled_tokens : pydict string Z) (spec : pydict string (list Z)) (probs : list (list Q))
    (Hne : batch <> []) (Horder : keys num_scheduled_tokens = map fst batch)
    (Hmodel : argmax_rows probs =
       Ok (concat (map (fun r => targets next r.2 (default [] (spec !! r.1))) batch))) :
  verify_drafts num_scheduled_tokens spec probs true =
  Ok (map (fun r => let draft := default [] (spec !! r.1) in
        greedy next r.2 (S (agreed (greedy next r.2 (length draft)) draft))) batch).
Proof.
  set (ts := map (fun r => targets next r.2 (default [] (spec !! r.1))) batch) in *.
  set (ds := map (fun r : string * list Z => default [] (spec !! r.1)) batch).
  assert (Hds : drafts_of num_scheduled_tokens spec = ds).
  { unfold drafts_of, ds. by rewrite Horder, map_map. }
  assert (Hwf : Forall2 well_drafted ts ds).
  { apply argmax_rows_nonneg in Hmodel. clear -Hmodel. induction batch as [|r batch IH]; cbn in *; [constructor|].
    apply Forall_app in Hmodel as [Hr Hb]. constructor; [split; [exact Hr|apply length_targets]|by apply IH]. }
  assert (Hd0 : ds <> []) by (unfold ds; clear -Hne; destruct batch; [by destruct Hne|discriminate]).
  unfold verify_drafts. rewrite Hds, (forward_ok ts ds) by done. cbn [mbind result_bind].
  rewrite valid_ok by done. f_equal. unfold ts, ds, verified. clear.
  induction batch as [|r batch IH]; cbn [map zip_with]; [done|]. rewrite IH. f_equal.
  destruct (targets_greedy next (default [] (spec !! r.1)) r.2) as [-> ->]. done.
Qed.

(** A model that counts up, two requests, one draft wrong at its second token. *)
Definition one_hot (i : Z) : list Q := map (fun j => if j =? i then 1 else 0)%Q (seqZ 0 12).
Definition count_up (ctx : list Z) : Z := default 0 (last ctx) + 1.
Definition sample_batch : list (string * list Z) := [("a"%string, [1; 2]); ("b"%string, [5])].
Definition sample_spec : pydict string (list Z) := <["b"%string := [6; 9]]> (<["a"%string := [3]]> ∅).
Definition sample_probs : list (list Q) :=
  map one_hot (concat (map (fun r => targets count_up r.2 (default [] (sample_spec !! r.1))) sample_batch)).
Definition batch_order : pydict string Z := <["b"%string := 3]> (<["a"%string := 2]> ∅).
Definition other_order : pydict string Z := <["a"%string := 2]> (<["b"%string := 3]> ∅).

Lemma drafts_verified_greedily_witness :
  verify_drafts batch_order sample_spec sample_probs true = Ok [[3; 4]; [6; 7]].
Proof.
  rewrite (drafts_verified_greedily count_up sample_batch batch_order sample_spec sample_probs
             ltac:(discriminate) eq_refl ltac:(vm_compute; reflexivity)).
  vm_compute. reflexivity.
Defined.

(** The order is a hypothesis that the model runner does not ensure: its batch
    keeps a request in its slot, the scheduler's dictionary lists the running
    requests first.  With the orders exchanged the rows are cut at the wrong
    places, and request [b], whose next token is 6, is given 7. *)
Example drafts_in_scheduler_order :
  verify_drafts other_order sample_spec sample_probs true = Ok [[3]; [7]] /\
  map (fun r => count_up r.2) sample_batch = [3; 6].
Proof. split; vm_compute; reflexivity. Qed.

(** A batch with a request that is not greedy is refused. *)
Lemma random_refused d s probs : verify_drafts d s probs false = Err NotImplementedError.
Proof. done. Qed.
End RejectionSampler.
