(* ===== verification/Detokenizer.v ===== *)
(** * Incremental detokenization and stop strings

    [detokenize_incrementally] ([vllm/transformers_utils/detokenizer_utils.py]),
    the search for stop strings ([vllm/engine/output_processor/stop_checker.py]) and
    the v1 engine's [IncrementalDetokenizer] ([vllm/v1/engine/detokenizer.py]).

    A Python string is the list of its code points.  The tokenizer is third-party
    code: its methods are the fields of [Tokenizer], which the definitions take as
    an argument; [None] is the token string that it gives for an id it does not
    know.  [convert_ids_to_tokens] is called with a list and answers a list. *)
From S2P Require Import Prelude.

Abbreviation text := (list Z).

Record Tokenizer : Type := MkTokenizer {
  vocab_size : Z;
  is_fast : bool;
  all_special_tokens : list text;
  get_added_vocab : list text;
  convert_ids_to_tokens : list Z -> bool -> list (option text);
  convert_tokens_to_string : list (option text) -> text
}.

(** ** Python's strings *)

Definition stands_at (sub t : text) (s : nat) : bool := bool_decide (take (length sub) (drop s t) = sub).

(** [t.find(sub, start)] *)
Definition py_find (t sub : text) (start : Z) : Z :=
  let a := if (Z.of_nat (length t) <? start) then S (length t) else slice_bound t start in
  match find (stands_at sub t) (seq a (S (length t) - a)) with
  | Some s => Z.of_nat s
  | None => -1
  end.

Fixpoint join (sep : text) (l : list text) : text :=
  match l with
  | [] => []
  | [x] => x
  | x :: l' => x ++ sep ++ join sep l'
  end.

(** ** [detokenizer_utils.py] *)

Definition replace_none_with_empty (tokens : list (option text)) : list (option text) :=
  map (fun x => Some (default [] x)) tokens.

(** The loop: the texts so far, and the current one's tokens. *)
Fixpoint sub_texts (tok : Tokenizer) (skip : bool) (output_tokens : list (option text))
    (texts : list text) (current : list (option text)) : list text :=
  match output_tokens with
  | [] => match current with [] => texts | _ => texts ++ [convert_tokens_to_string tok current] end
  | token :: l =>
      if skip && bool_decide (token ∈ Some <$> all_special_tokens tok)
      then sub_texts tok skip l texts current
      else if bool_decide (token ∈ Some <$> get_added_vocab tok) then
        sub_texts tok skip l
          (match current with [] => texts | _ => texts ++ [convert_tokens_to_string tok current] end
           ++ [default [] token]) []
      else sub_texts tok skip l texts (current ++ [token])
  end.

Definition space : Z := 32.
Definition convert_tokens_to_string_with_added_encoders (tok : Tokenizer) (output_tokens : list (option text))
    (skip_special_tokens spaces_between_special_tokens : bool) : text :=
  join (if spaces_between_special_tokens then [space] else [])
    (sub_texts tok skip_special_tokens output_tokens [] []).

Definition INITIAL_INCREMENTAL_DETOKENIZATION_OFFSET : Z := 5.

Definition convert_prompt_ids_to_tokens (tok : Tokenizer) (prompt_ids : list Z) (skip : bool)
    : list (option text) * Z * Z :=
  let new_tokens := convert_ids_to_tokens tok
    (py_slice prompt_ids (- INITIAL_INCREMENTAL_DETOKENIZATION_OFFSET - 2) (Z.of_nat (length prompt_ids))) skip in
  let read_offset := Z.of_nat (length new_tokens) in
  let prefix_offset := Z.max (read_offset - INITIAL_INCREMENTAL_DETOKENIZATION_OFFSET) 0 in
  (replace_none_with_empty new_tokens, prefix_offset, read_offset).

(** U+FFFD, what an unfinished UTF-8 sequence decodes to. *)
Definition replacement_character : Z := 65533.

Definition tokens_text (tok : Tokenizer) (l : list (option text)) (skip spaces : bool) : text :=
  if is_fast tok || bool_decide (get_added_vocab tok = [])
  then convert_tokens_to_string tok l
  else convert_tokens_to_string_with_added_encoders tok l skip spaces.

Definition detokenize_incrementally (tok : Tokenizer) (all_input_ids : list Z)
    (prev_tokens : option (list (option text))) (prefix_offset read_offset : Z) (skip spaces : bool)
    : result (list (option text) * text * Z * Z) :=
  new_token_id ← py_index all_input_ids (-1);
  let '(prev, prefix_offset, read_offset) :=
    match prev_tokens with
    | Some l => (l, prefix_offset, read_offset)
    | None => convert_prompt_ids_to_tokens tok (removelast all_input_ids) skip
    end in
  let new_tokens :=
    if (0 <=? new_token_id) && (new_token_id <? vocab_size tok)
    then convert_ids_to_tokens tok [new_token_id] skip else [Some []] in
  let output_tokens := prev ++ new_tokens in
  let new_tokens := match prev_tokens with Some _ => new_tokens | None => output_tokens end in
  let prefix_text := tokens_text tok (py_slice output_tokens prefix_offset read_offset) skip spaces in
  let new_text := tokens_text tok
    (py_slice output_tokens prefix_offset (Z.of_nat (length output_tokens))) skip spaces in
  if (length new_text <=? length prefix_text)%nat || bool_decide (last new_text = Some replacement_character)
  then Ok (new_tokens, [], prefix_offset, read_offset)
  else Ok (new_tokens, drop (length prefix_text) new_text, read_offset, Z.of_nat (length output_tokens)).

(** ** [StopChecker.check_stop_strings] *)

(** The loop over the stop strings. *)
Fixpoint check_stop_loop (output_text : text) (new_char_count : Z) (stop : list text) (include_in_output : bool)
    : option (text * Z) :=
  match stop with
  | [] => None
  | stop_str :: rest =>
      let stop_string_len := Z.of_nat (length stop_str) in
      let stop_index := py_find output_text stop_str (1 - new_char_count - stop_string_len) in
      if stop_index =? -1 then check_stop_loop output_text new_char_count rest include_in_output
      else if include_in_output then
        let stop_index := stop_index + stop_string_len in
        if Z.of_nat (length output_text) <=? stop_index then Some (stop_str, -1)
        else Some (stop_str, stop_index)
      else Some (stop_str, stop_index)
  end.

Definition check_stop_strings (output_text : text) (new_char_count : Z) (stop : list text)
    (include_in_output : bool) : option (text * Z) :=
  if (new_char_count =? 0) || bool_decide (stop = []) then None
  else check_stop_loop output_text new_char_count stop include_in_output.

(** ** [IncrementalDetokenizer] *)

Module Detok.

Record t : Type := IncrementalDetokenizer {
  token_ids : list Z;
  output_text : text;
  tokens : list (option text);
  prompt_len : Z;
  stop : list text;
  include_stop_str_in_output : bool;
  prefix_offset : Z;
  read_offset : Z;
  skip_special_tokens : bool;
  spaces_between_special_tokens : bool;
  tokenizer : option Tokenizer;
  stop_buffer_length : Z;
  last_output_text_offset : Z
}.

Definition with_token_ids (x : list Z) (d : t) : t :=
  IncrementalDetokenizer x (output_text d) (tokens d) (prompt_len d) (stop d)
    (include_stop_str_in_output d) (prefix_offset d) (read_offset d) (skip_special_tokens d)
    (spaces_between_special_tokens d) (tokenizer d) (stop_buffer_length d) (last_output_text_offset d).
Definition with_output_text (x : text) (d : t) : t :=
  IncrementalDetokenizer (token_ids d) x (tokens d) (prompt_len d) (stop d)
    (include_stop_str_in_output d) (prefix_offset d) (read_offset d) (skip_special_tokens d)
    (spaces_between_special_tokens d) (tokenizer d) (stop_buffer_length d) (last_output_text_offset d).
Definition with_tokens (x : list (option text)) (po ro : Z) (d : t) : t :=
  IncrementalDetokenizer (token_ids d) (output_text d) x (prompt_len d) (stop d)
    (include_stop_str_in_output d) po ro (skip_special_tokens d)
    (spaces_between_special_tokens d) (tokenizer d) (stop_buffer_length d) (last_output_text_offset d).
Definition with_offset (x : Z) (d : t) : t :=
  IncrementalDetokenizer (token_ids d) (output_text d) (tokens d) (prompt_len d) (stop d)
    (include_stop_str_in_output d) (prefix_offset d) (read_offset d) (skip_special_tokens d)
    (spaces_between_special_tokens d) (tokenizer d) (stop_buffer_length d) x.

Definition output_token_ids (d : t) : list Z :=
  if prompt_len d =? 0 then token_ids d
  else py_slice (token_ids d) (prompt_len d) (Z.of_nat (length (token_ids d))).

(** [max(len(s) for s in stops)] *)
Definition max_length (stops : list text) : Z := foldr (fun s n => Z.max (Z.of_nat (length s)) n) 0 stops.

Definition from_new_request (tok : option Tokenizer) (prompt_token_ids : list Z) (stops : list text)
    (include skip spaces : bool) : t :=
  match tok with
  | None => IncrementalDetokenizer [] [] [] 0 [] false 0 0 true true None 0 0
  | Some tk =>
      let '(toks, po, ro) := convert_prompt_ids_to_tokens tk prompt_token_ids skip in
      let stop_buffer_length :=
        if bool_decide (stops <> []) && negb include then max_length stops - 1 else 0 in
      IncrementalDetokenizer prompt_token_ids [] toks (Z.of_nat (length prompt_token_ids)) stops include
        po ro skip spaces tok stop_buffer_length 0
  end.

(** The loop of [update]: the text of the new tokens. *)
Fixpoint decode_loop (tok : Tokenizer) (new_token_ids : list Z) (decoded_text : text) : M t text :=
  match new_token_ids with
  | [] => mret decoded_text
  | i :: l =>
      modify (fun d => with_token_ids (token_ids d ++ [i]) d) ;;
      d ← get;
      '(new_tokens, new_text, po, ro) ← lift (detokenize_incrementally tok (token_ids d) (Some (tokens d))
        (prefix_offset d) (read_offset d) (skip_special_tokens d) (spaces_between_special_tokens d));
      modify (with_tokens (tokens d ++ new_tokens) po ro) ;;
      decode_loop tok l (decoded_text ++ new_text)
  end.

Definition update (new_token_ids : list Z) : M t (option text) :=
  d ← get;
  match tokenizer d with
  | None => modify (fun d => with_token_ids (token_ids d ++ new_token_ids) d) ;; mret None
  | Some tok =>
      decoded_text ← decode_loop tok new_token_ids [];
      modify (fun d => with_output_text (output_text d ++ decoded_text) d) ;;
      d ← get;
      if bool_decide (stop d = []) then mret None
      else
        match check_stop_strings (output_text d) (Z.of_nat (length decoded_text)) (stop d)
                (include_stop_str_in_output d) with
        | None => mret None
        | Some (stop_string, truncate_to) =>
            (if truncate_to =? -1 then mret tt
             else modify (with_output_text (py_slice (output_text d) 0 truncate_to))) ;;
            mret (Some stop_string)
        end
  end.

Definition get_next_output_text (finished delta : bool) : M t text :=
  d ← get;
  let buffer_length := if finished then 0 else stop_buffer_length d in
  if negb delta then
    mret (if buffer_length =? 0 then output_text d else py_slice (output_text d) 0 (- buffer_length))
  else
    let length := Z.of_nat (length (output_text d)) - buffer_length in
    let last_offset := last_output_text_offset d in
    if last_offset <? length then
      modify (with_offset length) ;;
      mret (py_slice (output_text d) last_offset length)
    else mret [].
End Detok.
