(* ===== verification/DetokenizerCorrect.v ===== *)
(** * Stop strings and streamed text

    The search for stop strings, which looks at the new characters only, finds
    what a search of the whole text would find; and what a request streams is never
    taken back: the texts returned to the client, put together, are the final
    text, although a stop string is cut off its end. *)
From S2P Require Import Prelude.
From S2P Require Import Detokenizer.

(** ** Searching *)

(** [sub] is found in [t] at [s]. *)
Definition occurs (sub t : text) (s : nat) : Prop :=
  (s + length sub <= length t)%nat /\ take (length sub) (drop s t) = sub.
Definition contains (t sub : text) : Prop := exists s, occurs sub t s.

Lemma stands_at_occurs sub t s : sub <> [] -> stands_at sub t s = true <-> occurs sub t s.
Proof.
  intros Hne. unfold stands_at, occurs. rewrite bool_decide_eq_true. split; [|by intros [_ H]].
  intros H. split; [|done]. pose proof (f_equal length H) as Hl. rewrite length_take, length_drop in Hl.
  destruct sub; [done|]. cbn [length] in *. lia.
Qed.

Lemma find_seq f : forall n a,
  match find f (seq a n) with
  | Some s => (a <= s)%nat /\ f s = true /\ forall s', (a <= s' < s)%nat -> f s' = false
  | None => forall s', (a <= s' < a + n)%nat -> f s' = false
  end.
Proof.
  induction n as [|n IH]; intros a; cbn [seq find]; [lia|]. destruct (f a) eqn:Ha.
  - split; [lia|]. split; [done|lia].
  - specialize (IH (S a)). destruct (find f (seq (S a) n)) as [s|].
    + destruct IH as (H1 & H2 & H3). split; [lia|]. split; [done|]. intros s' Hs'.
      destruct (decide (s' = a)) as [->|]; [done|]. apply H3. lia.
    + intros s' Hs'. destruct (decide (s' = a)) as [->|]; [done|]. apply IH. lia.
Qed.

(** Where the search begins, from [start] before the end. *)
Definition search_from (t : text) (start : Z) : nat := Z.to_nat (Z.of_nat (length t) + start).

(** The first occurrence at or after [a]. *)
Definition first_from (t sub : text) (a s : nat) : Prop :=
  (a <= s)%nat /\ occurs sub t s /\ forall s', (a <= s' < s)%nat -> ~ occurs sub t s'.

Lemma py_find_cases t sub start : sub <> [] -> start < 0 ->
  (py_find t sub start = -1 /\ forall s, (search_from t start <= s)%nat -> ~ occurs sub t s) \/
  (exists s, py_find t sub start = Z.of_nat s /\ first_from t sub (search_from t start) s).
Proof.
  intros Hne Hst. unfold py_find. destruct (Z.ltb_spec (Z.of_nat (length t)) start); [lia|].
  replace (slice_bound t start) with (search_from t start).
  2:{ unfold slice_bound, search_from. destruct (Z.ltb_spec start 0); lia. }
  set (a := search_from t start). pose proof (find_seq (stands_at sub t) (S (length t) - a) a) as Hf.
  destruct (find _ _) as [s|].
  - right. exists s. destruct Hf as (H1 & H2 & H3). split; [done|]. split; [done|].
    split; [by apply stands_at_occurs|]. intros s' Hs' Ho. apply stands_at_occurs in Ho; [|done].
    specialize (H3 s' Hs'). congruence.
  - left. split; [done|]. intros s Hs Ho. pose proof (proj1 Ho). apply stands_at_occurs in Ho; [|done].
    rewrite Hf in Ho; [done|]. lia.
Qed.

Lemma first_from_unique t sub a s s' : first_from t sub a s -> first_from t sub a s' -> s = s'.
Proof.
  intros (H1 & H2 & H3) (H4 & H5 & H6). destruct (Nat.lt_total s s') as [H|[H|H]]; [|done|].
  - destruct (H6 s); [lia|done].
  - destruct (H3 s'); [lia|done].
Qed.

(** A string that did not occur before begins where it needs a new character. *)
Lemma new_occurrence old new sub s : ~ contains old sub -> occurs sub (old ++ new) s ->
  (length old < s + length sub)%nat.
Proof.
  intros Hold [H1 H2]. destruct (decide (s + length sub <= length old)%nat) as [Hle|]; [|lia].
  destruct Hold. exists s. split; [done|]. rewrite drop_app_le in H2 by lia.
  rewrite take_app_le in H2; [done|]. rewrite length_drop. lia.
Qed.

Lemma find_incremental old new sub : sub <> [] -> ~ contains old sub -> new <> [] ->
  py_find (old ++ new) sub (1 - Z.of_nat (length new) - Z.of_nat (length sub)) =
  py_find (old ++ new) sub (1 - Z.of_nat (length (old ++ new)) - Z.of_nat (length sub)).
Proof.
  intros Hne Hold Hnew.
  assert (Hn : (0 < length new)%nat) by (destruct new; [done|cbn; lia]).
  assert (Hs : (0 < length sub)%nat) by (destruct sub; [done|cbn; lia]).
  set (t := old ++ new). set (st := 1 - Z.of_nat (length new) - Z.of_nat (length sub)).
  set (st' := 1 - Z.of_nat (length t) - Z.of_nat (length sub)).
  assert (Ht : length t = (length old + length new)%nat) by apply length_app.
  assert (Hlow : forall s, occurs sub t s -> (search_from t st <= s)%nat).
  { intros s Ho. pose proof (new_occurrence _ _ _ _ Hold Ho). unfold search_from, st. lia. }
  assert (Hzero : search_from t st' = 0%nat) by (unfold search_from, st'; lia).
  destruct (py_find_cases t sub st Hne) as [[-> H1]|(s & -> & H1)]; [unfold st; lia| |];
    (destruct (py_find_cases t sub st' Hne) as [[-> H2]|(s' & -> & H2)]; [unfold st'; lia| |]).
  - done.
  - destruct H2 as (_ & Ho & _). by destruct (H1 s' (Hlow s' Ho)).
  - destruct H1 as (_ & Ho & _). destruct (H2 s); [lia|done].
  - f_equal. apply (first_from_unique t sub (search_from t st)); [done|].
    destruct H2 as (_ & Ho & Hf). split; [by apply Hlow|]. split; [done|]. intros x Hx. apply Hf. lia.
Qed.

(** ** Stop strings *)

(** Nothing was found in the old text. *)
Definition stop_free (stop : list text) (t : text) : Prop := forall s, s ∈ stop -> s <> [] /\ ~ contains t s.

Lemma stop_loop_incremental stop old new include : stop_free stop old -> new <> [] ->
  check_stop_loop (old ++ new) (Z.of_nat (length new)) stop include =
  check_stop_loop (old ++ new) (Z.of_nat (length (old ++ new))) stop include.
Proof.
  intros Hfree Hnew. induction stop as [|s stop IH]; [done|]. cbn [check_stop_loop].
  destruct (Hfree s) as [Hne Hs]; [by left|]. rewrite (find_incremental old new s) by done.
  rewrite IH; [done|]. intros x Hx. apply Hfree. by right.
Qed.

(** Where the search for a string that is not in the old text begins. *)
Lemma new_start old new sub s :
  sub <> [] -> ~ contains old sub -> new <> [] -> occurs sub (old ++ new) s ->
  let st := 1 - Z.of_nat (length new) - Z.of_nat (length sub) in
  st < 0 /\ (search_from (old ++ new) st <= s)%nat.
Proof.
  intros Hne Hold Hnew Ho. pose proof (new_occurrence _ _ _ _ Hold Ho) as Hs.
  assert (0 < length new)%nat by (destruct new; [done|cbn; lia]).
  assert (0 < length sub)%nat by (destruct sub; [done|cbn; lia]).
  unfold search_from. rewrite length_app. lia.
Qed.

Lemma find_new old new sub : sub <> [] -> ~ contains old sub -> new <> [] ->
  let i := py_find (old ++ new) sub (1 - Z.of_nat (length new) - Z.of_nat (length sub)) in
  (i = -1 /\ ~ contains (old ++ new) sub) \/ (exists s, i = Z.of_nat s /\ occurs sub (old ++ new) s).
Proof.
  intros Hne Hold Hnew.
  assert (Hst : 1 - Z.of_nat (length new) - Z.of_nat (length sub) < 0).
  { assert (0 < length new)%nat by (destruct new; [done|cbn; lia]).
    assert (0 < length sub)%nat by (destruct sub; [done|cbn; lia]). lia. }
  destruct (py_find_cases (old ++ new) sub _ Hne Hst) as [[-> H]|(s & -> & _ & Ho & _)].
  - left. split; [done|]. intros [s Ho]. apply (H s); [|done]. by eapply new_start.
  - right. by exists s.
Qed.

Lemma stop_free_cons s stop t : stop_free (s :: stop) t <-> (s <> [] /\ ~ contains t s) /\ stop_free stop t.
Proof.
  split.
  - intros H. split; [apply H; by left|]. intros x Hx. apply H. by right.
  - intros [H1 H2] x Hx. apply elem_of_cons in Hx as [->|Hx]; [done|by apply H2].
Qed.

Lemma stop_loop_cases old new stop include : stop_free stop old -> new <> [] ->
  match check_stop_loop (old ++ new) (Z.of_nat (length new)) stop include with
  | None => stop_free stop (old ++ new)
  | Some (s, k) => s ∈ stop /\ exists i, occurs s (old ++ new) i /\
      if include then k = (if Z.of_nat (length (old ++ new)) <=? Z.of_nat (i + length s) then -1
                           else Z.of_nat (i + length s))
      else k = Z.of_nat i
  end.
Proof.
  intros Hfree Hnew. induction stop as [|s stop IH]; [by intros s Hs%not_elem_of_nil|]. cbn [check_stop_loop].
  apply stop_free_cons in Hfree as [[Hne Hs] Hfree]. specialize (IH Hfree).
  destruct (find_new old new s Hne Hs Hnew) as [[-> Hnone]|(i & -> & Hi)]; [cbn [Z.eqb]|].
  - change (-1 =? -1) with true. cbn match. destruct (check_stop_loop _ _ _ _) as [[s' k]|].
    + destruct IH as [H1 H2]. split; [by right|done].
    + by apply stop_free_cons.
  - destruct (Z.eqb_spec (Z.of_nat i) (-1)); [lia|]. rewrite <- Nat2Z.inj_add.
    destruct include; [destruct (_ <=? _) eqn:Hle|]; (split; [by left|]); exists i; (split; [done|]);
      by rewrite ?Hle.
Qed.

(** The search for stop strings looks only at the end of the text, as far back
    as a match with a new character can reach.  As long as nothing was found
    before, it answers what a search of the whole text answers: the first stop
    string of the list that occurs, and its first occurrence. *)
Theorem stop_check_incremental stop old new include (Hfree : stop_free stop old) :
  check_stop_strings (old ++ new) (Z.of_nat (length new)) stop include =
  check_stop_strings (old ++ new) (Z.of_nat (length (old ++ new))) stop include.
Proof.
  unfold check_stop_strings. destruct (bool_decide (stop = [])); [by rewrite !orb_true_r|].
  rewrite !orb_false_r. destruct (decide (new = [])) as [->|Hnew].
  - rewrite app_nil_r. destruct (decide (old = [])) as [->|Hold]; [done|].
    assert (0 < length old)%nat by (destruct old; [done|cbn; lia]).
    destruct (Z.eqb_spec (Z.of_nat (length old)) 0); [lia|]. cbn.
    assert (Hnil : stop_free stop []).
    { intros s Hs. destruct (Hfree s Hs) as [Hne _]. split; [done|]. intros [x [Hx _]].
      destruct s; [done|cbn in Hx; lia]. }
    pose proof (stop_loop_cases [] old stop include Hnil Hold) as G. cbn [app] in G.
    destruct (check_stop_loop _ _ _ _) as [[s k]|]; [|done].
    destruct G as (Hs & i & Hi & _). destruct (Hfree s Hs) as [_ Hnot]. destruct Hnot. by exists i.
  - assert (0 < length new)%nat by (destruct new; [done|cbn; lia]).
    rewrite length_app. destruct (Z.eqb_spec (Z.of_nat (length new)) 0); [lia|].
    destruct (Z.eqb_spec (Z.of_nat (length old + length new)) 0); [lia|].
    rewrite stop_loop_incremental by done. by rewrite length_app.
Qed.

Lemma stop_check_incremental_witness :
  check_stop_strings ([1; 2; 3] ++ [4; 5]) 2 [[9]; [3; 4]] false =
  check_stop_strings ([1; 2; 3] ++ [4; 5]) 5 [[9]; [3; 4]] false.
Proof.
  apply (stop_check_incremental [[9]; [3; 4]] [1; 2; 3] [4; 5] false). intros s Hs.
  assert (Hd : forall x, x ∈ seq 0 4 -> take (length s) (drop x [1; 2; 3]) <> s).
  { intros x Hx Heq. apply list_elem_of_In in Hs, Hx. cbn in Hs, Hx.
    destruct Hs as [<-|[<-|[]]]; destruct Hx as [<-|[<-|[<-|[<-|[]]]]]; discriminate. }
  split.
  - intros ->. apply list_elem_of_In in Hs. cbn in Hs. destruct Hs as [Hs|[Hs|[]]]; discriminate.
  - intros [x [H1 H2]]. apply (Hd x); [|exact H2]. apply list_elem_of_In, in_seq. cbn in H1. lia.
Defined.

(** ** Streaming *)

Module Streaming.
Import Detok.

(** A request that streams: each round the tokens of a step come in, and the new
    text goes out; [rounds] are the steps' tokens, and whether the engine says
    that the request is finished.  The texts, put together, and whether the
    request is finished. *)
Fixpoint stream (rounds : list (list Z * bool)) : M t (text * bool) :=
  match rounds with
  | [] => mret ([], false)
  | (new_token_ids, engine_finished) :: rest =>
      stop_string ← update new_token_ids;
      let finished := engine_finished || bool_decide (is_Some stop_string) in
      out ← get_next_output_text finished true;
      if finished : bool then mret (out, true)
      else
        res ← stream rest;
        mret (out ++ res.1, res.2)
  end.

(** What [update] leaves alone. *)
Definition setup (d : t) : list text * bool * Z * Z :=
  (stop d, include_stop_str_in_output d, stop_buffer_length d, last_output_text_offset d).

Lemma py_index_last {A} (l : list A) y : exists x, py_index (l ++ [y]) (-1) = Ok x.
Proof.
  unfold py_index. rewrite length_app. cbn [length Z.ltb]. change (-1 <? 0) with true. cbn match.
  destruct (Z.ltb_spec (-1 + Z.of_nat (length l + 1)) 0); [lia|].
  replace (Z.to_nat _) with (length l) by lia. rewrite list_lookup_middle by done. by eexists.
Qed.

Lemma detokenize_returns tok ids i toks po ro skip spaces :
  exists res, detokenize_incrementally tok (ids ++ [i]) (Some toks) po ro skip spaces = Ok res.
Proof.
  unfold detokenize_incrementally. destruct (py_index_last ids i) as [x ->]. cbn.
  destruct (_ || _); by eexists.
Qed.

Lemma decode_loop_ok tok : forall ids acc d,
  meets (decode_loop tok ids acc) d (fun _ d' =>
    setup d' = setup d /\ output_text d' = output_text d /\ tokenizer d' = tokenizer d).
Proof.
  induction ids as [|i ids IH]; intros acc d; cbn [decode_loop]; [done|].
  eapply meets_step; [done|]. apply meets_get. cbn [token_ids with_token_ids].
  edestruct (detokenize_returns tok (token_ids d) i) as [[[[nt tx] po] ro] Hres].
  eapply meets_step; [unfold lift; by rewrite Hres|]. cbn match. eapply meets_step; [done|].
  eapply meets_weaken; [apply IH|]. intros _ d' (H1 & H2 & H3). by rewrite H1, H2, H3.
Qed.

(** The two calls of the output processor return, whatever the state. *)
Lemma update_returns ids d : meets (update ids) d (fun _ _ => True).
Proof.
  unfold update. apply meets_get. destruct (tokenizer d) as [tok|]; [|by eapply meets_step].
  eapply meets_bind; [apply decode_loop_ok|]. intros new d1 _. eapply meets_step; [done|]. apply meets_get.
  destruct (bool_decide _); [done|]. destruct (check_stop_strings _ _ _ _) as [[s k]|]; [|done].
  destruct (k =? -1); by eapply meets_step.
Qed.

Lemma next_text_returns fin delta d : meets (get_next_output_text fin delta) d (fun _ _ => True).
Proof.
  unfold get_next_output_text. apply meets_get. destruct (negb delta); [done|].
  destruct (_ <? _); [by eapply meets_step|done].
Qed.

(** [out] was returned so far. *)
Record streaming (d : t) (out : text) : Prop := {
  st_out : out = take (length out) (output_text d);
  st_offset : last_output_text_offset d = Z.of_nat (length out);
  st_free : stop_free (stop d) (output_text d);
  st_buffer : 0 <= stop_buffer_length d;
  st_held : forall s, s ∈ stop d -> include_stop_str_in_output d = false ->
    Z.of_nat (length s) <= stop_buffer_length d + 1;
  st_behind : out = [] \/ Z.of_nat (length out) + stop_buffer_length d <= Z.of_nat (length (output_text d))
}.

Lemma streaming_le d out : streaming d out -> (length out <= length (output_text d))%nat.
Proof. intros H. pose proof (f_equal length (st_out _ _ H)) as Hl. rewrite length_take in Hl. lia. Qed.

Lemma out_of_more d out new : streaming d out -> out = take (length out) (output_text d ++ new).
Proof. intros H. rewrite take_app_le by by apply streaming_le. apply H. Qed.

(** After [update]: more text, in which nothing was found, or the end, cut off at
    the stop string but not before what was returned. *)
Definition updated (out : text) (r : option text) (d' : t) : Prop :=
  match r with
  | None => streaming d' out
  | Some _ => out = take (length out) (output_text d') /\ last_output_text_offset d' = Z.of_nat (length out)
  end.

Lemma streaming_more d d' out new : streaming d out -> setup d' = setup d ->
  output_text d' = output_text d ++ new -> stop_free (stop d) (output_text d ++ new) -> streaming d' out.
Proof.
  intros Hst Hsetup Ht Hfree. injection Hsetup as E1 E2 E3 E4.
  split; rewrite ?E1, ?E2, ?E3, ?E4, ?Ht; try apply Hst; try done.
  - by apply out_of_more.
  - rewrite length_app. destruct (st_behind _ _ Hst); [by left|right; lia].
Qed.

Lemma update_ok ids d out : streaming d out -> meets (update ids) d (updated out).
Proof.
  intros Hst. unfold update. apply meets_get. destruct (tokenizer d) as [tok|] eqn:Htok.
  2:{ eapply meets_step; [done|]. apply meets_ret. cbn. destruct Hst. by split. }
  eapply meets_bind; [apply decode_loop_ok|]. intros new d1 (Hsetup & Ht & _).
  eapply meets_step; [done|]. apply meets_get. set (d2 := with_output_text _ d1).
  assert (Hs2 : setup d2 = setup d) by done.
  assert (Ht2 : output_text d2 = output_text d ++ new) by (cbn; by rewrite Ht).
  assert (Hstop : stop d2 = stop d) by exact (f_equal (fun p => p.1.1.1) Hs2).
  assert (Hinc : include_stop_str_in_output d2 = include_stop_str_in_output d) by exact (f_equal (fun p => p.1.1.2) Hs2).
  assert (Hoff : last_output_text_offset d2 = last_output_text_offset d) by exact (f_equal snd Hs2).
  clearbody d2. rewrite Hstop, Ht2.
  destruct (bool_decide_reflect (stop d = [])) as [Hnil|Hnil].
  { apply meets_ret. eapply streaming_more; [done..|]. rewrite Hnil. by intros s Hs%not_elem_of_nil. }
  unfold check_stop_strings. rewrite bool_decide_eq_false_2, orb_false_r by done.
  destruct (decide (new = [])) as [->|Hnew].
  { cbn. apply meets_ret. eapply streaming_more; [done..|]. rewrite app_nil_r. apply Hst. }
  assert (0 < length new)%nat by (destruct new; [done|cbn; lia]).
  destruct (Z.eqb_spec (Z.of_nat (length new)) 0); [lia|].
  pose proof (stop_loop_cases _ new (stop d) (include_stop_str_in_output d2) (st_free _ _ Hst) Hnew) as Hcases.
  destruct (check_stop_loop _ _ _ _) as [[s k]|].
  2:{ apply meets_ret. by eapply streaming_more. }
  destruct Hcases as (Hin & i & Hocc & Hk).
  pose proof (new_occurrence _ _ _ _ (proj2 (st_free _ _ Hst s Hin)) Hocc) as Hpast.
  assert (Hcut : k = -1 \/ (length out <= Z.to_nat k)%nat /\ 0 <= k).
  { pose proof (streaming_le _ _ Hst). destruct (include_stop_str_in_output d2).
    - destruct (_ <=? _); [by left|right]. lia.
    - right. destruct (st_behind _ _ Hst) as [->|Hb]; [cbn; lia|].
      pose proof (st_held _ _ Hst s Hin ltac:(congruence)). lia. }
  destruct (Z.eqb_spec k (-1)) as [->|Hne].
  - eapply meets_step; [done|]. apply meets_ret. split; [|by rewrite Hoff; apply Hst].
    rewrite Ht2. by apply out_of_more.
  - destruct Hcut as [?|[Hle Hpos]]; [done|]. eapply meets_step; [done|]. apply meets_ret.
    split; [|cbn; rewrite Hoff; apply Hst].
    cbn. rewrite py_slice_take by lia. rewrite Nat.sub_0_r. cbn [drop].
    rewrite take_take, Nat.min_l by lia. by apply out_of_more.
Qed.

Lemma take_slice {A} (l : list A) a b : (a <= b)%nat ->
  take a l ++ py_slice l (Z.of_nat a) (Z.of_nat b) = take b l.
Proof.
  intros H. rewrite py_slice_take by lia. rewrite !Nat2Z.id.
  replace b with (a + (b - a))%nat at 2 by lia. by rewrite take_take_drop.
Qed.

(** The last text completes what was returned. *)
Lemma finish_text_ok d out : out = take (length out) (output_text d) -> last_output_text_offset d = Z.of_nat (length out) ->
  meets (get_next_output_text true true) d (fun x d' => out ++ x = output_text d').
Proof.
  intros Ho Hoff. unfold get_next_output_text. apply meets_get. cbn [negb]. rewrite Z.sub_0_r, Hoff.
  destruct (Z.ltb_spec (Z.of_nat (length out)) (Z.of_nat (length (output_text d)))) as [Hlt|Hge].
  - eapply meets_step; [done|]. apply meets_ret. cbn. rewrite Ho at 1. rewrite take_slice by lia. by apply take_ge.
  - apply meets_ret. rewrite app_nil_r. rewrite Ho. apply take_ge. lia.
Qed.

Lemma continue_ok d out : streaming d out ->
  meets (get_next_output_text false true) d (fun x d' => streaming d' (out ++ x)).
Proof.
  intros Hst. pose proof (streaming_le _ _ Hst). unfold get_next_output_text. apply meets_get. cbn [negb].
  rewrite (st_offset _ _ Hst).
  destruct (Z.ltb_spec (Z.of_nat (length out)) (Z.of_nat (length (output_text d)) - stop_buffer_length d)) as [Hlt|Hge].
  2:{ apply meets_ret. by rewrite app_nil_r. }
  eapply meets_step; [done|]. apply meets_ret. pose proof (st_buffer _ _ Hst).
  set (b := Z.to_nat (Z.of_nat (length (output_text d)) - stop_buffer_length d)).
  assert (Hx : out ++ py_slice (output_text d) (Z.of_nat (length out))
    (Z.of_nat (length (output_text d)) - stop_buffer_length d) = take b (output_text d)).
  { rewrite (st_out _ _ Hst) at 1. replace (Z.of_nat (length (output_text d)) - _) with (Z.of_nat b) by lia.
    apply take_slice. lia. }
  rewrite Hx. assert (Hb : length (take b (output_text d)) = b) by (rewrite length_take; lia).
  split; cbn; try apply Hst; rewrite Hb; [done|lia|right; lia].
Qed.

Lemma stream_ok : forall rounds d out, streaming d out ->
  meets (stream rounds) d (fun res d' =>
    if res.2 then out ++ res.1 = output_text d' else streaming d' (out ++ res.1)).
Proof.
  induction rounds as [|[ids fin] rounds IH]; intros d out Hst; cbn [stream].
  { apply meets_ret. cbn. by rewrite app_nil_r. }
  eapply meets_bind; [by apply update_ok|]. intros r d1 Hr. cbv zeta.
  destruct (fin || bool_decide (is_Some r)) eqn:Hfin.
  - eapply meets_bind; [apply (finish_text_ok d1 out)|].
    + destruct r; [apply Hr|apply (st_out _ _ Hr)].
    + destruct r; [apply Hr|apply (st_offset _ _ Hr)].
    + intros x d2 Hx. by apply meets_ret.
  - apply orb_false_iff in Hfin as [_ Hr0]. destruct r as [s|]; [by rewrite bool_decide_eq_true_2 in Hr0|].
    eapply meets_bind; [exact (continue_ok d1 out Hr)|]. intros x d2 Hx.
    eapply meets_bind; [exact (IH d2 _ Hx)|]. intros [y f] d3 Hy. apply meets_ret. cbn in *.
    by rewrite !(assoc_L (++)).
Qed.

Lemma max_length_ge s : forall stops, s ∈ stops -> Z.of_nat (length s) <= max_length stops.
Proof.
  induction stops as [|x stops IH]; intros H; [by apply not_elem_of_nil in H|]. cbn [max_length foldr].
  apply elem_of_cons in H as [->|H]; [lia|]. specialize (IH H). unfold max_length in IH. lia.
Qed.

Lemma new_streaming tok prompt stops include skip spaces : (forall s, s ∈ stops -> s <> []) ->
  streaming (from_new_request tok prompt stops include skip spaces) [].
Proof.
  intros Hne. unfold from_new_request. destruct tok as [tk|].
  2:{ split; cbn; try done; try (by left); by intros s Hs%not_elem_of_nil. }
  destruct (convert_prompt_ids_to_tokens tk prompt skip) as [[toks po] ro].
  assert (Hlen : forall s, s ∈ stops -> (0 < length s)%nat).
  { intros s Hs. specialize (Hne s Hs). destruct s; [done|cbn; lia]. }
  split; cbn; try done; [| | |by left].
  - intros s Hs. split; [by apply Hne|]. intros [x [Hx _]]. specialize (Hlen s Hs). cbn in Hx. lia.
  - destruct stops as [|s l]; [done|]. rewrite bool_decide_eq_true_2 by done. destruct include; [done|].
    cbn [negb andb]. pose proof (max_length_ge s (s :: l) ltac:(by left)). specialize (Hlen s ltac:(by left)). lia.
  - intros s Hs ->. destruct stops as [|s0 l]; [by apply not_elem_of_nil in Hs|].
    rewrite bool_decide_eq_true_2 by done. cbn [negb andb].
    pose proof (max_length_ge s (s0 :: l) Hs). lia.
Qed.

(** C30. What is streamed to the client is never taken back: the texts that a
    request returns, put together, are a prefix of its text at any time, and all
    of its text once it is finished, although a stop string is cut off the end;
    the characters held back are enough for every stop string.  Until then none
    of the stop strings occurs in the text.  The calls never raise, for any
    tokenizer whose methods return. *)
Theorem stream_never_retracts tok prompt stops include skip spaces rounds
    (Hstops : forall s, s ∈ stops -> s <> []) :
  exists out finished d,
    stream rounds (from_new_request tok prompt stops include skip spaces) = (Ok (out, finished), d) /\
    out `prefix_of` output_text d /\
    (finished = true -> out = output_text d) /\
    (finished = false -> stop_free (stop d) (output_text d)).
Proof.
  pose proof (stream_ok rounds _ _ (new_streaming tok prompt stops include skip spaces Hstops)) as H.
  apply meets_run in H as ([out fin] & d & Hrun & H). exists out, fin, d. cbn in H.
  split; [done|]. destruct fin.
  - by rewrite H.
  - split; [|split; [done|intros _; apply H]]. exists (drop (length out) (output_text d)).
    rewrite (st_out _ _ H) at 1. by rewrite take_drop.
Qed.

(** Tokens are characters; [2; 3] stops the request. *)
Definition sample_tokenizer : Tokenizer :=
  MkTokenizer 100 true [] [] (fun ids _ => map (fun i => Some [i]) ids) (fun l => concat (map (default []) l)).

Lemma stream_never_retracts_witness :
  exists out finished d,
    stream [([1; 2], false); ([1], false); ([4; 2], false); ([3; 5], false)]
      (from_new_request (Some sample_tokenizer) [9] [[2; 3]; [7]] false true true) = (Ok (out, finished), d) /\
    out = [1; 2; 1; 4] /\ out = output_text d.
Proof.
  destruct (stream_never_retracts (Some sample_tokenizer) [9] [[2; 3]; [7]] false true true
    [([1; 2], false); ([1], false); ([4; 2], false); ([3; 5], false)]) as (out & fin & d & Hrun & _ & Hfin & _).
  - intros s Hs. apply list_elem_of_In in Hs. cbn in Hs. destruct Hs as [<-|[<-|[]]]; discriminate.
  - exists out, fin, d. split; [exact Hrun|].
    assert (H : out = [1; 2; 1; 4] /\ fin = true).
    { vm_compute in Hrun. injection Hrun as <- <- _. by split. }
    destruct H as [H1 H2]. split; [exact H1|exact (Hfin H2)].
Defined.

(** With two stop strings in the text of one step, the first one of the list cuts
    the text, and the other one stays in it. *)
Example stop_string_returned :
  check_stop_strings [1; 2; 3; 4; 5] 5 [[4]; [2]] false = Some ([4], 3).
Proof. reflexivity. Qed.
End Streaming.
