(* ===== verification/V1Request.v ===== *)
(** * v1: requests ([vllm/v1/request.py])

    A request is an object that the scheduler mutates; here its fields are a
    record and a method is a function to the new record.  [output_token_ids] and
    [all_token_ids] are read-only views of the two private lists, so they are
    those lists.  Objects the code only passes along (multi-modal kwargs) are
    represented by an identifier, a LoRA request by its [lora_int_id], and a
    structured-output request by whether its grammar has been compiled. *)
From S2P Require Import Prelude.

(** ** Enumerations *)

Inductive FinishReason : Type := STOP | LENGTH | ABORT.

Inductive RequestStatus : Type :=
  | WAITING
  | WAITING_FOR_FSM
  | RUNNING
  | PREEMPTED
  | FINISHED_STOPPED
  | FINISHED_LENGTH_CAPPED
  | FINISHED_ABORTED
  | FINISHED_IGNORED.

#[global] Instance finish_reason_eq_dec : EqDecision FinishReason.
Proof. solve_decision. Defined.
#[global] Instance request_status_eq_dec : EqDecision RequestStatus.
Proof. solve_decision. Defined.

(** The [IntEnum] value, from [enum.auto()]. *)
Definition status_value (st : RequestStatus) : Z :=
  match st with
  | WAITING => 1 | WAITING_FOR_FSM => 2 | RUNNING => 3 | PREEMPTED => 4
  | FINISHED_STOPPED => 5 | FINISHED_LENGTH_CAPPED => 6
  | FINISHED_ABORTED => 7 | FINISHED_IGNORED => 8
  end.

Definition status_is_finished (st : RequestStatus) : bool :=
  status_value PREEMPTED <? status_value st.

Definition FINISHED_REASON_MAP : list (RequestStatus * FinishReason) :=
  [(FINISHED_STOPPED, STOP); (FINISHED_LENGTH_CAPPED, LENGTH);
   (FINISHED_ABORTED, ABORT); (FINISHED_IGNORED, LENGTH)].

(** [_FINISHED_REASON_MAP.get(status)] *)
Definition status_finished_reason (st : RequestStatus) : option FinishReason :=
  snd <$> list_find (fun '(k, _) => k = st) FINISHED_REASON_MAP ≫= fun '(_, kv) => Some kv.

Inductive EventType : Type := QUEUED | SCHEDULED | EV_PREEMPTED.

(** ** Data *)

Record PlaceholderRange : Type := Placeholder { offset : Z; length_ : Z }.

#[global] Instance placeholder_eq_dec : EqDecision PlaceholderRange.
Proof. solve_decision. Defined.

(** The fields of [SamplingParams] the scheduler reads. *)
Record SamplingParams : Type := Sampling {
  guided_decoding : bool;
  max_tokens_param : option Z;
  prompt_logprobs : option Z;
  logprobs : option Z;
  ignore_eos : bool;
  stop_token_ids : list Z;
}.

Definition EngineCoreEvent : Type := EventType * Q.

Module Request.

Record t : Type := Request {
  request_id : string;
  sampling_params : SamplingParams;
  eos_token_id : option Z;
  lora_request : option Z;
  grammar_ready : bool;
  status : RequestStatus;
  events : list EngineCoreEvent;
  stop_reason : option Z;
  max_tokens : Z;
  prompt_token_ids : list Z;
  num_prompt_tokens : Z;
  output_token_ids : list Z;
  all_token_ids : list Z;
  spec_token_ids : list Z;
  num_computed_tokens : Z;
  mm_positions : list PlaceholderRange;
  mm_inputs : list Z;
  mm_hashes : list (option string);
}.

Definition with_status st r :=
  Request (request_id r) (sampling_params r) (eos_token_id r) (lora_request r)
    (grammar_ready r) st (events r) (stop_reason r) (max_tokens r)
    (prompt_token_ids r) (num_prompt_tokens r) (output_token_ids r) (all_token_ids r)
    (spec_token_ids r) (num_computed_tokens r) (mm_positions r) (mm_inputs r) (mm_hashes r).
Definition with_events ev r :=
  Request (request_id r) (sampling_params r) (eos_token_id r) (lora_request r)
    (grammar_ready r) (status r) ev (stop_reason r) (max_tokens r)
    (prompt_token_ids r) (num_prompt_tokens r) (output_token_ids r) (all_token_ids r)
    (spec_token_ids r) (num_computed_tokens r) (mm_positions r) (mm_inputs r) (mm_hashes r).
Definition with_stop_reason sr r :=
  Request (request_id r) (sampling_params r) (eos_token_id r) (lora_request r)
    (grammar_ready r) (status r) (events r) sr (max_tokens r)
    (prompt_token_ids r) (num_prompt_tokens r) (output_token_ids r) (all_token_ids r)
    (spec_token_ids r) (num_computed_tokens r) (mm_positions r) (mm_inputs r) (mm_hashes r).
Definition with_tokens out all r :=
  Request (request_id r) (sampling_params r) (eos_token_id r) (lora_request r)
    (grammar_ready r) (status r) (events r) (stop_reason r) (max_tokens r)
    (prompt_token_ids r) (num_prompt_tokens r) out all
    (spec_token_ids r) (num_computed_tokens r) (mm_positions r) (mm_inputs r) (mm_hashes r).
Definition with_spec sp r :=
  Request (request_id r) (sampling_params r) (eos_token_id r) (lora_request r)
    (grammar_ready r) (status r) (events r) (stop_reason r) (max_tokens r)
    (prompt_token_ids r) (num_prompt_tokens r) (output_token_ids r) (all_token_ids r)
    sp (num_computed_tokens r) (mm_positions r) (mm_inputs r) (mm_hashes r).
Definition with_computed n r :=
  Request (request_id r) (sampling_params r) (eos_token_id r) (lora_request r)
    (grammar_ready r) (status r) (events r) (stop_reason r) (max_tokens r)
    (prompt_token_ids r) (num_prompt_tokens r) (output_token_ids r) (all_token_ids r)
    (spec_token_ids r) n (mm_positions r) (mm_inputs r) (mm_hashes r).

(** [x or []] *)
Definition or_nil {A} (o : option (list A)) : list A := default [] o.

Definition init (request_id : string) (prompt_token_ids : list Z)
    (multi_modal_inputs : option (list Z)) (multi_modal_hashes : option (list (option string)))
    (multi_modal_placeholders : option (list PlaceholderRange))
    (sampling_params : SamplingParams) (eos_token_id lora_request : option Z)
    (grammar_ready : bool) : result t :=
  match max_tokens_param sampling_params with
  | None => Err AssertionError
  | Some max_tokens =>
      let mm_positions := or_nil multi_modal_placeholders in
      let mm_inputs := or_nil multi_modal_inputs in
      let mm_hashes := or_nil multi_modal_hashes in
      if bool_decide (length mm_inputs = length mm_positions) then
        if bool_decide (mm_hashes = [] \/ length mm_inputs = length mm_hashes) then
          Ok (Request request_id sampling_params eos_token_id lora_request grammar_ready
                (if guided_decoding sampling_params then WAITING_FOR_FSM else WAITING)
                [] None max_tokens prompt_token_ids (Z.of_nat (length prompt_token_ids))
                [] prompt_token_ids [] 0 mm_positions mm_inputs mm_hashes)
        else Err AssertionError
      else Err AssertionError
  end.

(** [queued] and [scheduled]: [timestamp or time.monotonic()] comes as [now]. *)
Definition queued (now : Q) (r : t) : t := with_events (events r ++ [(QUEUED, now)]) r.
Definition scheduled (now : Q) (r : t) : t := with_events (events r ++ [(SCHEDULED, now)]) r.
Definition take_events (r : t) : option (list EngineCoreEvent) * t :=
  match events r with [] => (None, r) | evs => (Some evs, with_events [] r) end.

Definition append_output_token_ids (token_ids : list Z) (r : t) : t :=
  with_tokens (output_token_ids r ++ token_ids) (all_token_ids r ++ token_ids) r.

Definition num_tokens (r : t) : Z := Z.of_nat (length (all_token_ids r)).
Definition num_tokens_with_spec (r : t) : Z :=
  Z.of_nat (length (all_token_ids r)) + Z.of_nat (length (spec_token_ids r)).
Definition num_output_tokens (r : t) : Z := Z.of_nat (length (output_token_ids r)).
Definition is_finished (r : t) : bool := status_is_finished (status r).
Definition get_finished_reason (r : t) : option FinishReason :=
  status_finished_reason (status r).
Definition has_encoder_inputs (r : t) : bool := 0 <? Z.of_nat (length (mm_inputs r)).
Definition num_encoder_inputs (r : t) : Z := Z.of_nat (length (mm_positions r)).
(** [input_id] is an index from [enumerate], so it is not negative. *)
Definition get_num_encoder_tokens (input_id : nat) (r : t) : result Z :=
  if bool_decide (input_id < length (mm_positions r))%nat
  then length_ <$> from_option_exn IndexError (mm_positions r !! input_id)
  else Err AssertionError.
Definition use_structured_output (r : t) : bool := guided_decoding (sampling_params r).

(** ** What holds of every request *)

Record wf (r : t) : Prop := Wf {
  wf_tokens : all_token_ids r = prompt_token_ids r ++ output_token_ids r;
  wf_prompt : num_prompt_tokens r = Z.of_nat (length (prompt_token_ids r));
  wf_mm : length (mm_inputs r) = length (mm_positions r);
  wf_hashes : mm_hashes r = [] \/ length (mm_hashes r) = length (mm_positions r);
}.

Lemma request_init_wf rid prompt inputs hashes pos sp eos lora g r :
  init rid prompt inputs hashes pos sp eos lora g = Ok r -> wf r.
Proof.
  unfold init. destruct (max_tokens_param sp); [|done].
  case_bool_decide as Hin; [|done]. case_bool_decide as Hh; [|done].
  intros [= <-]. split; cbn; [by rewrite app_nil_r|done|done|].
  destruct Hh; [by left|right; congruence].
Qed.

Lemma append_wf ids r : wf r -> wf (append_output_token_ids ids r).
Proof. intros [Ht Hp Hm Hh]. split; cbn; [|done..]. by rewrite Ht, app_assoc. Qed.

Lemma wf_num_tokens r : wf r -> num_tokens r = num_prompt_tokens r + num_output_tokens r.
Proof.
  intros [Ht Hp _ _]. unfold num_tokens, num_output_tokens.
  rewrite Ht, Hp, length_app. lia.
Qed.

Lemma finished_has_reason r : is_finished r = bool_decide (is_Some (get_finished_reason r)).
Proof. unfold is_finished, get_finished_reason. by destruct (status r). Qed.
End Request.
