(* ===== verification/BlockHashing.v ===== *)
(** * v1: hashes of full blocks ([vllm/v1/core/kv_cache_utils.py])

    A full block is identified by the hash of its parent, its tokens and its
    extra keys.  Python's [hash] is a parameter: [py_hash] on the hashed triple
    and [hash_none] for [hash('None')].  Extra keys come from the multi-modal
    inputs that overlap the block and from the LoRA adapter.

    The lemmas say what the chain of a request's hashes is, that it only grows
    as tokens are appended, and that [hash_request_tokens] returns all of it. *)
From S2P Require Import Prelude.
From S2P Require Import FreeQueue.
From S2P Require Import V1Request.

Module BlockHashing.
Import Request.

Definition need_extra_keys (request : t) : bool :=
  negb (bool_decide (mm_positions request = [])) || bool_decide (lora_request request <> None).

(** The [while] loop of [_gen_mm_extra_hash_keys]. *)
Fixpoint mm_loop (fuel : nat) (positions : list PlaceholderRange)
    (hashes : list (option string)) (start_token_idx end_token_idx : Z)
    (extra_keys : list extra_key) (curr_mm_idx : Z) : result (list extra_key * Z) :=
  if negb (curr_mm_idx <? Z.of_nat (length positions)) then Ok (extra_keys, curr_mm_idx)
  else match fuel with
  | O => Err OutOfFuel
  | S fuel =>
      h ← from_option_exn IndexError (hashes !! Z.to_nat curr_mm_idx);
      match h with
      | None => Err AssertionError
      | Some h =>
          p ← from_option_exn IndexError (positions !! Z.to_nat curr_mm_idx);
          if offset p <? end_token_idx then
            if offset p + length_ p <? start_token_idx then
              mm_loop fuel positions hashes start_token_idx end_token_idx
                extra_keys (curr_mm_idx + 1)
            else
              let extra_keys := extra_keys ++ [MMHash h] in
              if offset p + length_ p <=? end_token_idx then
                mm_loop fuel positions hashes start_token_idx end_token_idx
                  extra_keys (curr_mm_idx + 1)
              else Ok (extra_keys, curr_mm_idx)
          else Ok (extra_keys, curr_mm_idx)
      end
  end.

Definition gen_mm_extra_hash_keys (request : t)
    (start_token_idx end_token_idx start_mm_idx : Z) : result (list extra_key * Z) :=
  let positions := mm_positions request in
  let hashes := mm_hashes request in
  match last positions with
  | None => Ok ([], start_mm_idx)
  | Some p =>
      if negb (bool_decide (length positions = length hashes)) then Err ValueError
      else if offset p + length_ p <? start_token_idx then Ok ([], start_mm_idx)
      else
        start_mm_idx ←
          (if start_mm_idx <? 0
           then if - start_mm_idx <=? Z.of_nat (length positions)
                then Ok (Z.of_nat (length positions) + start_mm_idx)
                else Err AssertionError
           else Ok start_mm_idx);
        mm_loop (length positions) positions hashes start_token_idx end_token_idx
          [] start_mm_idx
  end.

Definition gen_lora_extra_hash_keys (request : t) : list extra_key :=
  match lora_request request with None => [] | Some i => [LoRAId i] end.

Definition generate_block_hash_extra_keys (request : t)
    (start_token_idx end_token_idx start_mm_idx : Z) :
    result (option (list extra_key) * Z) :=
  '(mm_extra_keys, new_start_mm_idx) ←
    gen_mm_extra_hash_keys request start_token_idx end_token_idx start_mm_idx;
  let extra_keys := gen_lora_extra_hash_keys request ++ mm_extra_keys in
  match extra_keys with
  | [] => Ok (None, new_start_mm_idx)
  | _ => Ok (Some extra_keys, new_start_mm_idx)
  end.

Section Hash.
Context (py_hash : Z * list Z * option (list extra_key) -> Z) (hash_none : Z).

(** [if not parent_block_hash]: no parent, and also a parent that hashes to 0. *)
Definition hash_block_tokens (parent_block_hash : option Z)
    (curr_block_token_ids : list Z) (extra_keys : option (list extra_key)) :
    BlockHashType :=
  let parent := match parent_block_hash with
                | None => hash_none
                | Some h => if h =? 0 then hash_none else h
                end in
  BlockHash (py_hash (parent, curr_block_token_ids, extra_keys))
    curr_block_token_ids extra_keys.

(** The [for start in range(0, len(token_ids), block_size)] loop over the
    remaining [starts]. *)
Fixpoint hash_loop (block_size : Z) (request : t) (starts : list Z)
    (parent : option Z) (req_extra_keys : option (list extra_key)) (curr_mm_idx : Z) :
    result (list BlockHashType) :=
  match starts with
  | [] => Ok []
  | start :: starts =>
      let end_ := start + block_size in
      let block_token_ids := py_slice (all_token_ids request) start end_ in
      if Z.of_nat (length block_token_ids) <? block_size then Ok []
      else
        '(req_extra_keys, curr_mm_idx) ←
          (if need_extra_keys request
           then generate_block_hash_extra_keys request start end_ curr_mm_idx
           else Ok (req_extra_keys, curr_mm_idx));
        let block_hash := hash_block_tokens parent block_token_ids req_extra_keys in
        ret ← hash_loop block_size request starts (Some (hash_value block_hash))
                req_extra_keys curr_mm_idx;
        Ok (block_hash :: ret)
  end.

Definition hash_request_tokens (block_size : Z) (request : t) :
    result (list BlockHashType) :=
  starts ← py_range 0 (num_tokens request) block_size;
  hash_loop block_size request starts None None 0.

(** ** Requests without multi-modal inputs

    Their extra keys are the same for every block, and [chain] is the sequence
    of their block hashes. *)

Definition text (request : t) : Prop := mm_positions request = [].

Definition text_keys (request : t) : option (list extra_key) :=
  match lora_request request with None => None | Some i => Some [LoRAId i] end.

Definition block_tokens (block_size : Z) (request : t) (i : nat) : list Z :=
  py_slice (all_token_ids request) (Z.of_nat i * block_size)
    ((Z.of_nat i + 1) * block_size).

(** The hash of the [i]-th block, from its predecessors. *)
Fixpoint chain (block_size : Z) (request : t) (i : nat) : BlockHashType :=
  hash_block_tokens
    (match i with O => None | S j => Some (hash_value (chain block_size request j)) end)
    (block_tokens block_size request i) (text_keys request).

(** The hash value that block [i] chains from. *)
Definition chain_parent (block_size : Z) (request : t) (i : nat) : option Z :=
  match i with O => None | S j => Some (hash_value (chain block_size request j)) end.

Lemma chain_unfold bs r i :
  chain bs r i = hash_block_tokens (chain_parent bs r i) (block_tokens bs r i) (text_keys r).
Proof. by destruct i. Qed.

Lemma text_extra_keys r a b i :
  text r -> exists j, generate_block_hash_extra_keys r a b i = Ok (text_keys r, j).
Proof.
  intros Ht. unfold generate_block_hash_extra_keys, gen_mm_extra_hash_keys.
  rewrite Ht. unfold gen_lora_extra_hash_keys, text_keys.
  destruct (lora_request r); by eexists.
Qed.

Lemma text_need r : text r -> need_extra_keys r = bool_decide (text_keys r <> None).
Proof. intros Ht. unfold need_extra_keys, text_keys. rewrite Ht. by destruct (lora_request r). Qed.

Lemma length_block_tokens bs r i :
  0 < bs -> (Z.of_nat i + 1) * bs <= num_tokens r ->
  length (block_tokens bs r i) = Z.to_nat bs.
Proof. intros. unfold block_tokens, num_tokens in *. rewrite length_py_slice; lia. Qed.

(** The tokens of a full block stay when tokens are appended. *)
Lemma block_tokens_prefix bs r r' i :
  0 < bs -> (Z.of_nat i + 1) * bs <= num_tokens r ->
  all_token_ids r `prefix_of` all_token_ids r' ->
  block_tokens bs r' i = block_tokens bs r i.
Proof.
  intros Hbs Hi [ts Hts]. unfold block_tokens, num_tokens in *. rewrite Hts.
  rewrite !py_slice_take by lia. rewrite drop_app_le by lia.
  rewrite take_app_le; [done|]. rewrite length_drop. lia.
Qed.

Lemma chain_prefix bs r r' i :
  0 < bs -> (Z.of_nat i + 1) * bs <= num_tokens r ->
  all_token_ids r `prefix_of` all_token_ids r' -> lora_request r = lora_request r' ->
  chain bs r' i = chain bs r i.
Proof.
  intros Hbs Hi Hpre Hl. assert (Hk : text_keys r' = text_keys r) by (unfold text_keys; by rewrite Hl).
  induction i as [|i IH]; cbn [chain]; rewrite Hk, (block_tokens_prefix bs r r') by done;
    [done|]. by rewrite IH by lia.
Qed.

Definition num_full (bs : Z) (r : t) : nat := Z.to_nat (num_tokens r / bs).

Lemma hash_loop_text bs r k m ks j :
  text r -> 0 < bs -> (ks = text_keys r \/ need_extra_keys r = true) ->
  Z.of_nat (k + m) = cdiv (num_tokens r) bs ->
  hash_loop bs r (map (fun i => 0 + i * bs) (seqZ (Z.of_nat k) (Z.of_nat m)))
    (chain_parent bs r k) ks j =
  Ok (map (chain bs r) (seq k (num_full bs r - k))).
Proof.
  intros Ht Hbs. revert k ks j.
  pose proof (cdiv_spec (num_tokens r) bs Hbs) as Hc.
  pose proof (Z.div_mod (num_tokens r) bs ltac:(lia)) as Hdm.
  pose proof (Z.mod_pos_bound (num_tokens r) bs Hbs) as Hmod.
  assert (Hn : 0 <= num_tokens r) by (unfold num_tokens; lia).
  assert (Hq : 0 <= num_tokens r / bs) by (apply Z.div_pos; lia).
  assert (HF : Z.of_nat (num_full bs r) = num_tokens r / bs) by (unfold num_full; lia).
  induction m as [|m IH]; intros k ks j Hks Hm.
  { replace (num_full bs r - k)%nat with O by nia. done. }
  rewrite seqZ_cons by lia. replace (Z.pred (Z.of_nat (S m))) with (Z.of_nat m) by lia.
  replace (Z.succ (Z.of_nat k)) with (Z.of_nat (S k)) by lia.
  cbn [map hash_loop].
  replace (py_slice (all_token_ids r) (0 + Z.of_nat k * bs) (0 + Z.of_nat k * bs + bs))
    with (block_tokens bs r k) by (unfold block_tokens; f_equal; lia).
  destruct (decide (k < num_full bs r)%nat) as [Hk|Hk].
  - rewrite length_block_tokens by (done || nia).
    rewrite (proj2 (Z.ltb_ge _ _)) by lia.
    assert (Hek : exists j', (if need_extra_keys r
        then generate_block_hash_extra_keys r (0 + Z.of_nat k * bs)
               (0 + Z.of_nat k * bs + bs) j
        else Ok (ks, j)) = Ok (text_keys r, j')).
    { destruct (need_extra_keys r) eqn:E; [by apply text_extra_keys|].
      destruct Hks as [->|]; [by eexists|done]. }
    destruct Hek as (j' & ->). cbn [mbind result_bind].
    rewrite <- chain_unfold.
    change (Some (hash_value (chain bs r k))) with (chain_parent bs r (S k)).
    rewrite (IH (S k) (text_keys r) j' (or_introl eq_refl)) by lia. cbn [mbind result_bind].
    replace (num_full bs r - k)%nat with (S (num_full bs r - S k)) by lia. done.
  - rewrite (proj2 (Z.ltb_lt _ _)).
    { by replace (num_full bs r - k)%nat with O by lia. }
    unfold block_tokens. rewrite py_slice_take, length_take, length_drop by lia.
    unfold num_tokens in *. nia.
Qed.

(** On such requests [hash_request_tokens] returns the hashes of all full
    blocks. *)
Lemma hash_request_tokens_text bs r :
  text r -> 0 < bs ->
  hash_request_tokens bs r = Ok (map (chain bs r) (seq 0 (num_full bs r))).
Proof.
  intros Ht Hbs. unfold hash_request_tokens, py_range.
  rewrite (proj2 (Z.eqb_neq _ _)) by lia. cbn [mbind result_bind].
  assert (Hn : 0 <= num_tokens r) by (unfold num_tokens; lia).
  pose proof (cdiv_nonneg (num_tokens r) bs Hbs Hn).
  rewrite Z.sub_0_r, Z.max_r by done.
  rewrite <- (Z2Nat.id (cdiv (num_tokens r) bs)) by done.
  rewrite <- (Nat.sub_0_r (num_full bs r)).
  apply (hash_loop_text bs r 0); [done|done| |lia].
  rewrite (text_need r Ht). unfold text_keys. destruct (lora_request r); [by right|by left].
Qed.
End Hash.
End BlockHashing.

(** ** Completed blocks and multi-modal inputs

    [cache_full_blocks] starts at the last multi-modal input ([-1]) when it
    hashes a block that generated tokens complete; [hash_request_tokens] walks
    the inputs in order.  The two disagree when the last input ends exactly
    where the block begins, and when the block contains more than one input. *)

Definition mm_request (positions : list PlaceholderRange) (hashes : list (option string))
    (tokens : list Z) : Request.t :=
  Request.Request "mm" (Sampling false (Some 10) None None false []) None None true WAITING []
    None 10 tokens (Z.of_nat (length tokens)) [] tokens [] 0 positions
    (map (fun _ => 0) positions) hashes.

Example mm_boundary_keys :
  let r := mm_request [Placeholder 0 2] [Some "image"] [1; 2; 3; 4] in
  BlockHashing.generate_block_hash_extra_keys r 0 2 0 = Ok (Some [MMHash "image"], 1) /\
  BlockHashing.generate_block_hash_extra_keys r 2 4 1 = Ok (None, 1) /\
  BlockHashing.generate_block_hash_extra_keys r 2 4 (-1) = Ok (Some [MMHash "image"], 1).
Proof. vm_compute. done. Qed.

Example mm_several_keys :
  let r := mm_request [Placeholder 0 1; Placeholder 1 1] [Some "x"; Some "y"] [1; 2; 3; 4] in
  BlockHashing.generate_block_hash_extra_keys r 0 4 0 =
    Ok (Some [MMHash "x"; MMHash "y"], 2) /\
  BlockHashing.generate_block_hash_extra_keys r 0 4 (-1) = Ok (Some [MMHash "y"], 2).
Proof. vm_compute. done. Qed.
