(* ===== verification/V1BlockPool.v ===== *)
(** * v1: the block pool ([vllm/v1/core/block_pool.py])

    The pool owns the block objects (the store inside its free queue), hands
    blocks out, takes them back, and remembers which blocks hold which cached
    hash.  A cached hash maps block ids to blocks; a reference to a block being
    its id, that inner dictionary maps ids to themselves. *)
From S2P Require Import Prelude.
From S2P Require Import PyDict.
From S2P Require Import FreeQueue.
From S2P Require Import V1Request.
From S2P Require Import BlockHashing.

Module V1BlockPool.
Import KVCacheBlock BlockHashing.

Record t : Type := Pool {
  num_gpu_blocks : Z;
  enable_caching : bool;
  free_block_queue : FreeQueue.t;
  cached_block_hash_to_block : gmap BlockHashType (pydict Z Z);
}.

Definition with_queue q p :=
  Pool (num_gpu_blocks p) (enable_caching p) q (cached_block_hash_to_block p).
Definition with_cached c p :=
  Pool (num_gpu_blocks p) (enable_caching p) (free_block_queue p) c.

Definition init (num_gpu_blocks : nat) (enable_caching : bool) : result t :=
  let blocks : heap := foldr (fun i h => <[i := KVCacheBlock.init]> h) ∅
                         (seqZ 0 (Z.of_nat num_gpu_blocks)) in
  q ← FreeQueue.init blocks num_gpu_blocks;
  Ok (Pool (Z.of_nat num_gpu_blocks) enable_caching q ∅).

(** A method of the queue, called on the pool's queue. *)
Definition on_queue {A} (m : M FreeQueue.t A) : M t A := fun p =>
  let '(r, q) := m (free_block_queue p) in (r, with_queue q p).

(** The block object behind a reference, and assignment to its attributes. *)
Definition block (p : t) (b : Z) : KVCacheBlock.t :=
  FreeQueue.blocks (free_block_queue p) !!! b.
Definition set_block (b : Z) (x : KVCacheBlock.t) (p : t) : t :=
  with_queue (FreeQueue.update_block b (fun _ => x) (free_block_queue p)) p.
Definition update (b : Z) (f : KVCacheBlock.t -> KVCacheBlock.t) : M t unit :=
  modify (fun p => set_block b (f (block p b)) p).

Definition get_cached_block (block_hash : BlockHashType) (p : t) : result (option Z) :=
  match cached_block_hash_to_block p !! block_hash with
  | None => Ok None
  | Some d =>
      first_block_id ← from_option_exn IndexError (head (keys d));
      Some <$> from_option_exn KeyError (d !! first_block_id)
  end.

Definition get_num_free_blocks (p : t) : Z := FreeQueue.num_free_blocks (free_block_queue p).

Definition get_usage (p : t) : result Q :=
  if num_gpu_blocks p =? 0 then Err ZeroDivisionError
  else Ok (1 - inject_Z (get_num_free_blocks p) / inject_Z (num_gpu_blocks p))%Q.

Section Hash.
Context (py_hash : Z * list Z * option (list extra_key) -> Z) (hash_none : Z).

(** The hash of the [i]-th new block: one already known, or else computed and
    appended.  The argument [block_hashes] is a list object that the method
    appends to, so it is part of the state. *)
Definition next_block_hash (request : Request.t) (new_block_hashes : list BlockHashType)
    (num_cached_blocks block_size : Z) (i : nat) (prev_block_hash_value : option Z) :
    M (t * list BlockHashType) BlockHashType :=
  match new_block_hashes !! i with
  | Some bh => mret bh
  | None =>
      let blk_idx := num_cached_blocks + Z.of_nat i in
      let start_token_idx := blk_idx * block_size in
      let end_token_idx := (blk_idx + 1) * block_size in
      let block_tokens :=
        py_slice (Request.all_token_ids request) start_token_idx end_token_idx in
      assert_ (Z.of_nat (length block_tokens) =? block_size) ;;
      ek ← lift (generate_block_hash_extra_keys request start_token_idx end_token_idx (-1));
      let bh := hash_block_tokens py_hash hash_none prev_block_hash_value
                  block_tokens ek.1 in
      modify (fun s => (s.1, s.2 ++ [bh])) ;;
      mret bh
  end.

(** The loop over [enumerate(new_full_blocks)]. *)
Fixpoint cache_loop (request : Request.t) (new_block_hashes : list BlockHashType)
    (num_cached_blocks block_size : Z) (i : nat) (new_full_blocks : list Z)
    (prev_block_hash_value : option Z) : M (t * list BlockHashType) unit :=
  match new_full_blocks with
  | [] => mret tt
  | blk :: new_full_blocks =>
      old ← gets (fun s => block_hash (block s.1 blk));
      assert_ (bool_decide (old = None)) ;;
      bh ← next_block_hash request new_block_hashes num_cached_blocks block_size i
             prev_block_hash_value;
      s ← get;
      blk' ← lift (set_block_hash bh (block s.1 blk));
      modify (fun s => (set_block blk blk' s.1, s.2)) ;;
      modify (fun s =>
        let c := cached_block_hash_to_block s.1 in
        let d := default ∅ (c !! bh) in
        (with_cached (<[bh := <[blk := blk]> d]> c) s.1, s.2)) ;;
      cache_loop request new_block_hashes num_cached_blocks block_size (S i)
        new_full_blocks (Some (hash_value bh))
  end.

Definition cache_full_blocks (request : Request.t) (blocks : list Z)
    (num_cached_blocks num_full_blocks block_size : Z) : M (t * list BlockHashType) unit :=
  if num_cached_blocks =? num_full_blocks then mret tt
  else
    let new_full_blocks := py_slice blocks num_cached_blocks num_full_blocks in
    block_hashes ← gets snd;
    assert_ (num_cached_blocks <=? Z.of_nat (length block_hashes)) ;;
    let new_block_hashes :=
      py_slice block_hashes num_cached_blocks (Z.of_nat (length block_hashes)) in
    prev_block_hash_value ←
      (if num_cached_blocks =? 0 then mret None
       else
         prev_block ← lift (py_index blocks (num_cached_blocks - 1));
         h ← gets (fun s => block_hash (block s.1 prev_block));
         match h with
         | None => raise AssertionError
         | Some h => mret (Some (hash_value h))
         end);
    cache_loop request new_block_hashes num_cached_blocks block_size 0
      new_full_blocks prev_block_hash_value.
End Hash.

Definition maybe_evict_cached_block (b : Z) : M t bool :=
  h ← gets (fun p => block_hash (block p b));
  match h with
  | None => mret false
  | Some h =>
      c ← gets cached_block_hash_to_block;
      match c !! h with
      | None => mret false
      | Some d =>
          update b reset_hash ;;
          if has d b then
            let d := delete b d in
            modify (with_cached (<[h := d]> c)) ;;
            (if dlen d =? 0
             then modify (fun p => with_cached (delete h (cached_block_hash_to_block p)) p)
             else mret tt) ;;
            mret true
          else raise KeyError
      end
  end.

(** The [while idx < num_blocks] loop, with [k] blocks to go. *)
Fixpoint get_loop (k : nat) : M t (list Z) :=
  match k with
  | O => mret []
  | S k =>
      curr_block ← on_queue FreeQueue.popleft;
      n ← gets (fun p => ref_cnt (block p curr_block));
      assert_ (n =? 0) ;;
      caching ← gets enable_caching;
      (if caching : bool then maybe_evict_cached_block curr_block ;; mret tt else mret tt) ;;
      update curr_block incr_ref ;;
      ret ← get_loop k;
      mret (curr_block :: ret)
  end.

Definition get_new_blocks (num_blocks : Z) : M t (list Z) :=
  free ← gets get_num_free_blocks;
  if free <? num_blocks then raise ValueError else get_loop (Z.to_nat num_blocks).

Definition touch_one (b : Z) : M t unit :=
  n ← gets (fun p => ref_cnt (block p b));
  (if n =? 0 then on_queue (FreeQueue.remove b) else mret tt) ;;
  update b incr_ref.

Definition touch (blocks : list Z) : M t unit := for_each blocks touch_one.

Definition free_one (b : Z) : M t unit :=
  update b decr_ref ;;
  n ← gets (fun p => ref_cnt (block p b));
  if n =? 0 then on_queue (FreeQueue.append b) else mret tt.

Definition free_blocks (ordered_blocks : list Z) : M t unit := for_each ordered_blocks free_one.

Definition reset_prefix_cache : M t bool :=
  p ← get;
  let num_used_blocks := num_gpu_blocks p - get_num_free_blocks p in
  if 0 <? num_used_blocks then mret false
  else
    modify (with_cached ∅) ;;
    for_each (seqZ 0 (num_gpu_blocks p)) (fun b => update b reset_hash) ;;
    mret true.
End V1BlockPool.
