(* ===== verification/V1PoolCorrect.v ===== *)
(** * v1: the block pool is consistent

    [inv p l]: the queue spells the list [l] of free blocks, which are the
    blocks of the pool whose reference count is 0; the cache maps a hash to
    exactly the blocks that carry it.  One lemma per method of
    [V1BlockPool] says when it succeeds, what it returns, and what it does to
    reference counts, hashes and the queue. *)
From S2P Require Import Prelude.
From S2P Require Import PyDict.
From S2P Require Import FreeQueue.
From S2P Require Import V1Request.
From S2P Require Import BlockHashing.
From S2P Require Import V1BlockPool.
Import KVCacheBlock V1BlockPool.

Definition ref (p : t) (b : Z) : Z := ref_cnt (block p b).
Definition hash (p : t) (b : Z) : option BlockHashType := block_hash (block p b).

(** The cache maps each hash to the blocks that carry it. *)
Record cache_ok (p : t) : Prop := CacheOk {
  ok_cached : forall h b, hash p b = Some h <->
    exists d, cached_block_hash_to_block p !! h = Some d /\ is_Some (d !! b);
  ok_dicts : forall h d, cached_block_hash_to_block p !! h = Some d ->
    wf_dict d /\ keys d <> [] /\ forall b c, d !! b = Some c -> c = b;
  ok_range : forall b, is_Some (hash p b) -> 0 <= b < num_gpu_blocks p;
}.

Record inv (p : t) (l : list Z) : Prop := Inv {
  inv_queue : FreeQueue.repr (free_block_queue p) l;
  inv_range : forall b, b ∈ l -> 0 <= b < num_gpu_blocks p;
  inv_ref : forall b, 0 <= ref p b;
  inv_free : forall b, 0 <= b < num_gpu_blocks p -> b ∈ l <-> ref p b = 0;
  inv_cache : cache_ok p;
}.

(** What [p'] has in common with [p]. *)
Record same_config (p p' : t) : Prop := SameConfig {
  same_num : num_gpu_blocks p' = num_gpu_blocks p;
  same_caching : enable_caching p' = enable_caching p;
}.

#[global] Instance same_config_preorder : PreOrder same_config.
Proof.
  split; [by intros p|]. intros p1 p2 p3 [] []. split; congruence.
Qed.

(** The cache is unchanged, and so is every block's hash. *)
Record same_cache (p p' : t) : Prop := SameCache {
  same_hash : forall b, hash p' b = hash p b;
  same_cached : cached_block_hash_to_block p' = cached_block_hash_to_block p;
}.

#[global] Instance same_cache_preorder : PreOrder same_cache.
Proof.
  split; [by intros p|]. intros p1 p2 p3 [] []. split; congruence.
Qed.

(** ** Attribute updates *)

Lemma block_set_block b x p c :
  block (set_block b x p) c = if decide (b = c) then x else block p c.
Proof.
  unfold block, set_block; cbn. destruct (decide (b = c)) as [->|Hne].
  - by rewrite lookup_total_insert_eq.
  - by rewrite lookup_total_insert_ne.
Qed.

Lemma repr_set_block b x p l :
  prev_free_block x = prev_free_block (block p b) ->
  next_free_block x = next_free_block (block p b) ->
  FreeQueue.repr (free_block_queue p) l ->
  FreeQueue.repr (free_block_queue (set_block b x p)) l.
Proof.
  intros Hp Hn [Hnd Hnum Hhd Htl Hseg Hfree].
  assert (Heq : forall c,
    prev_free_block (block (set_block b x p) c) = prev_free_block (block p c) /\
    next_free_block (block (set_block b x p) c) = next_free_block (block p c)).
  { intros c. rewrite block_set_block. by case_decide; subst. }
  split; [done..| |].
  - eapply FreeQueue.seg_ext; [|exact Hseg]. intros c _. apply Heq.
  - intros c Hc. destruct (Heq c) as [Hpc Hnc]. unfold block in Hpc, Hnc.
    rewrite Hpc, Hnc. by apply Hfree.
Qed.

Lemma cache_ok_same p p' :
  same_config p p' -> same_cache p p' -> cache_ok p -> cache_ok p'.
Proof.
  intros [Hn _] [Hh Hc] [H1 H2 H3]. split; rewrite ?Hc, ?Hn; [|exact H2|].
  - intros h b. rewrite Hh. apply H1.
  - intros b. rewrite Hh. apply H3.
Qed.

(** The invariant from one pool to another whose cache is consistent too. *)
Lemma inv_transfer p l p' l' :
  inv p l -> same_config p p' -> cache_ok p' ->
  FreeQueue.repr (free_block_queue p') l' ->
  (forall b, 0 <= ref p' b) ->
  (forall b, b ∈ l' -> 0 <= b < num_gpu_blocks p) ->
  (forall b, 0 <= b < num_gpu_blocks p -> b ∈ l' <-> ref p' b = 0) ->
  inv p' l'.
Proof. intros Hi [Hnum _] Hc Hq Hr Hl Hf. by split; rewrite ?Hnum. Qed.

Lemma on_queue_run {A} (m : M FreeQueue.t A) p r q :
  m (free_block_queue p) = (r, q) -> on_queue m p = (r, with_queue q p).
Proof. unfold on_queue. by intros ->. Qed.

(** A change of the queue that keeps counts and hashes. *)
Lemma with_queue_same p q :
  FreeQueue.same_meta (FreeQueue.blocks (free_block_queue p)) (FreeQueue.blocks q) ->
  same_config p (with_queue q p) /\ same_cache p (with_queue q p) /\
  forall b, ref (with_queue q p) b = ref p b.
Proof.
  intros [Hm _]. split_and!; [done| |intros b; apply Hm].
  split; [|done]. intros b. apply Hm.
Qed.

Lemma set_ref_same p b n :
  same_config p (set_block b (with_ref_cnt n (block p b)) p) /\
  same_cache p (set_block b (with_ref_cnt n (block p b)) p) /\
  forall c, ref (set_block b (with_ref_cnt n (block p b)) p) c =
            if decide (b = c) then n else ref p c.
Proof.
  split_and!; [done| |].
  - split; [|done]. intros c. unfold hash. rewrite block_set_block. by case_decide; subst.
  - intros c. unfold ref. rewrite block_set_block. by case_decide.
Qed.

(** ** [touch] *)

Lemma touch_one_ok p l b :
  inv p l -> 0 <= b < num_gpu_blocks p ->
  exists p', touch_one b p = (Ok tt, p') /\ inv p' (filter (fun c => c <> b) l) /\
    same_config p p' /\ same_cache p p' /\
    forall c, ref p' c = ref p c + (if decide (b = c) then 1 else 0).
Proof.
  intros Hi Hb. unfold touch_one. rewrite bind_run.
  change (gets (fun p => ref_cnt (block p b)) p) with (@Ok Z (ref p b), p). cbv iota.
  assert (Hinc : exists p1,
    (if ref p b =? 0 then on_queue (FreeQueue.remove b) else mret tt) p = (Ok tt, p1) /\
    FreeQueue.repr (free_block_queue p1) (filter (fun c => c <> b) l) /\
    same_config p p1 /\ same_cache p p1 /\ forall c, ref p1 c = ref p c).
  { destruct (Z.eqb_spec (ref p b) 0) as [H0|H0].
    - apply (inv_free _ _ Hi b Hb) in H0. apply list_elem_of_split in H0 as (l1 & l2 & ->).
      destruct (FreeQueue.remove_repr _ _ _ _ (inv_queue _ _ Hi)) as (q & Hrun & Hr & Hm).
      exists (with_queue q p). split; [by apply on_queue_run|].
      rewrite filter_ne_split by apply Hi. split; [done|]. by apply with_queue_same.
    - exists p. rewrite filter_id; [|intros c Hc ->; by apply (inv_free _ _ Hi b Hb) in Hc].
      by split_and!; [|apply Hi|..]. }
  destruct Hinc as (p1 & Hrun & Hr1 & Hcfg & Hcache & Href).
  rewrite (bind_step _ _ _ _ _ Hrun).
  destruct (set_ref_same p1 b (ref p1 b + 1)) as (Hcfg2 & Hcache2 & Href2).
  exists (set_block b (incr_ref (block p1 b)) p1). split; [done|].
  assert (Hrefs : forall c, ref (set_block b (incr_ref (block p1 b)) p1) c =
                    ref p c + (if decide (b = c) then 1 else 0)).
  { intros c. unfold incr_ref. rewrite Href2. case_decide; subst; rewrite Href; lia. }
  split_and!; [|by etransitivity..|done].
  apply (inv_transfer p l); [done|by etransitivity|..].
  - apply (cache_ok_same p); [by etransitivity..|apply Hi].
  - by apply repr_set_block.
  - intros c. rewrite Hrefs. pose proof (inv_ref _ _ Hi c). case_decide; lia.
  - intros c [_ Hc]%list_elem_of_filter. by apply Hi.
  - intros c Hc. rewrite Hrefs, list_elem_of_filter.
    pose proof (inv_ref _ _ Hi c). pose proof (inv_free _ _ Hi c Hc).
    case_decide; [subst; split; [by intros []|lia]|].
    rewrite Z.add_0_r. split; [by intros [_ ?]; tauto|]. intros ?. split; [congruence|tauto].
Qed.

(** How often [b] occurs in a list of blocks. *)
Definition occurrences (b : Z) (bs : list Z) : Z :=
  Z.of_nat (length (filter (fun c => c = b) bs)).

Lemma occurrences_nil b : occurrences b [] = 0.
Proof. done. Qed.
Lemma occurrences_cons b c bs :
  occurrences b (c :: bs) = (if decide (c = b) then 1 else 0) + occurrences b bs.
Proof. unfold occurrences. rewrite filter_cons. case_decide; cbn; lia. Qed.
Lemma occurrences_app b bs cs : occurrences b (bs ++ cs) = occurrences b bs + occurrences b cs.
Proof. unfold occurrences. rewrite filter_app, length_app. lia. Qed.
Lemma occurrences_nonneg b bs : 0 <= occurrences b bs.
Proof. unfold occurrences. lia. Qed.
Lemma occurrences_zero b bs : occurrences b bs = 0 <-> b ∉ bs.
Proof.
  induction bs as [|c bs IH]; [split; [intros _; apply not_elem_of_nil|done]|].
  rewrite occurrences_cons, not_elem_of_cons. pose proof (occurrences_nonneg b bs).
  case_decide; [split; [lia|]; intros []; congruence|]. rewrite <- IH.
  split; [|lia]. intros. split; [congruence|lia].
Qed.
Lemma occurrences_perm b bs cs : bs ≡ₚ cs -> occurrences b bs = occurrences b cs.
Proof. unfold occurrences. by intros ->. Qed.
Lemma occurrences_nodup b bs : NoDup bs -> b ∈ bs -> occurrences b bs = 1.
Proof.
  induction 1 as [|c bs Hc Hnd IH]; intros Hb; [by apply not_elem_of_nil in Hb|].
  rewrite occurrences_cons. apply elem_of_cons in Hb as [->|Hb].
  - rewrite decide_True by done. apply occurrences_zero in Hc. lia.
  - rewrite decide_False by (by intros ->). by rewrite IH.
Qed.

Lemma nodup_occurrences bs : (forall b, b ∈ bs -> occurrences b bs <= 1) -> NoDup bs.
Proof.
  induction bs as [|b bs IH]; intros H; constructor.
  - intros Hb. pose proof (H b ltac:(left)) as H1.
    rewrite occurrences_cons, decide_True in H1 by done.
    pose proof (occurrences_nonneg b bs).
    assert (Hz : occurrences b bs = 0) by lia. by apply occurrences_zero in Hz.
  - apply IH. intros c Hc. pose proof (H c ltac:(by right)) as H1.
    rewrite occurrences_cons in H1. case_decide; lia.
Qed.

Lemma touch_ok p l bs :
  inv p l -> (forall b, b ∈ bs -> 0 <= b < num_gpu_blocks p) ->
  exists p', touch bs p = (Ok tt, p') /\ inv p' (filter (fun c => c ∉ bs) l) /\
    same_config p p' /\ same_cache p p' /\
    forall c, ref p' c = ref p c + occurrences c bs.
Proof.
  unfold touch. revert p l. induction bs as [|b bs IH]; intros p l Hi Hbs; cbn.
  { exists p. rewrite filter_id by (intros; apply not_elem_of_nil).
    split_and!; [done..|]. intros c. rewrite occurrences_nil. lia. }
  destruct (touch_one_ok p l b Hi) as (p1 & Hrun & Hi1 & Hcfg & Hcache & Href).
  { apply Hbs. by left. }
  rewrite (bind_step _ _ _ _ _ Hrun).
  destruct (IH p1 _ Hi1) as (p2 & -> & Hi2 & Hcfg2 & Hcache2 & Href2).
  { intros c Hc. rewrite (same_num _ _ Hcfg). apply Hbs. by right. }
  exists p2. split; [done|]. split_and!; [|by etransitivity..|].
  - rewrite list_filter_filter in Hi2. erewrite list_filter_iff; [exact Hi2|].
    intros c. rewrite not_elem_of_cons. tauto.
  - intros c. rewrite Href2, Href, occurrences_cons. lia.
Qed.

(** ** [free_blocks] *)

Lemma pool_free_one_ok p l b :
  inv p l -> 0 <= b < num_gpu_blocks p -> 0 < ref p b ->
  exists p', free_one b p = (Ok tt, p') /\
    inv p' (if decide (ref p b = 1) then l ++ [b] else l) /\
    same_config p p' /\ same_cache p p' /\
    forall c, ref p' c = ref p c - (if decide (b = c) then 1 else 0).
Proof.
  intros Hi Hb Hpos. unfold free_one.
  destruct (set_ref_same p b (ref p b - 1)) as (Hcfg & Hcache & Href).
  set (p1 := set_block b (decr_ref (block p b)) p).
  rewrite (bind_step _ _ p tt p1) by done. rewrite bind_run.
  change (gets (fun p => ref_cnt (block p b)) p1) with (@Ok Z (ref p1 b), p1). cbv iota.
  assert (Hrefs : forall c, ref p1 c = ref p c - (if decide (b = c) then 1 else 0)).
  { intros c. unfold p1, decr_ref. rewrite Href. case_decide; subst; lia. }
  assert (Hr1 : FreeQueue.repr (free_block_queue p1) l) by (apply repr_set_block; [done..|apply Hi]).
  assert (Hbl : b ∉ l) by (intros ?%(inv_free _ _ Hi b Hb); lia).
  rewrite Hrefs, decide_True by done.
  destruct (Z.eqb_spec (ref p b - 1) 0) as [H1|H1].
  - rewrite decide_True by lia.
    destruct (FreeQueue.append_repr _ _ _ Hr1 Hbl) as (q & Hrun & Hr2 & Hm).
    destruct (with_queue_same p1 q Hm) as (Hcfg2 & Hcache2 & Href2).
    exists (with_queue q p1). split; [by apply on_queue_run|].
    assert (Hrefs2 : forall c, ref (with_queue q p1) c =
                       ref p c - (if decide (b = c) then 1 else 0))
      by (intros c; by rewrite Href2).
    split_and!; [|by transitivity p1..|done].
    apply (inv_transfer p l); [done|by transitivity p1|..].
    + apply (cache_ok_same p); [by transitivity p1..|apply Hi].
    + done.
    + intros c. rewrite Hrefs2. pose proof (inv_ref _ _ Hi c). case_decide; subst; lia.
    + intros c [Hc| ->%list_elem_of_singleton]%elem_of_app; [by apply Hi|done].
    + intros c Hc. rewrite Hrefs2, elem_of_app, list_elem_of_singleton.
      pose proof (inv_free _ _ Hi c Hc). case_decide; [subst; split; [lia|auto]|].
      rewrite Z.sub_0_r. split; [intros [?| ->]; tauto|tauto].
  - rewrite decide_False by lia. exists p1. split; [done|]. split_and!; [|done..].
    apply (inv_transfer p l); [done|done|..].
    + apply (cache_ok_same p); [done..|apply Hi].
    + done.
    + intros c. rewrite Hrefs. pose proof (inv_ref _ _ Hi c). case_decide; subst; lia.
    + apply Hi.
    + intros c Hc. rewrite Hrefs. pose proof (inv_free _ _ Hi c Hc).
      case_decide; [subst; split; [tauto|lia]|]. by rewrite Z.sub_0_r.
Qed.

(** The blocks of [bs] whose count drops to 0 when each occurrence takes one
    off the counts [f], in the order in which they do. *)
Fixpoint freed (f : Z -> Z) (bs : list Z) : list Z :=
  match bs with
  | [] => []
  | b :: bs =>
      (if decide (f b = 1) then [b] else []) ++
      freed (fun c => f c - (if decide (b = c) then 1 else 0)) bs
  end.

Lemma freed_ext f g bs : (forall b, f b = g b) -> freed f bs = freed g bs.
Proof.
  revert f g. induction bs as [|b bs IH]; intros f g Hfg; cbn; [done|].
  rewrite Hfg. f_equal. apply IH. intros c. by rewrite Hfg.
Qed.

Lemma freed_nodup f bs : NoDup bs -> freed f bs = filter (fun b => f b = 1) bs.
Proof.
  intros Hnd. revert f. induction Hnd as [|b bs Hb Hnd IH]; intros f; cbn [freed]; [done|].
  rewrite filter_cons, IH.
  assert (filter (fun c => f c - (if decide (b = c) then 1 else 0) = 1) bs =
          filter (fun c => f c = 1) bs) as ->.
  { clear -Hb. induction bs as [|c bs IH]; [done|].
    apply not_elem_of_cons in Hb as [Hne Hb]. rewrite !filter_cons, (IH Hb).
    rewrite (decide_False (P := b = c)) by done. by rewrite Z.sub_0_r. }
  by case_decide.
Qed.

Lemma free_blocks_ok p l bs :
  inv p l -> (forall b, b ∈ bs -> 0 <= b < num_gpu_blocks p) ->
  (forall b, occurrences b bs <= ref p b) ->
  exists p', free_blocks bs p = (Ok tt, p') /\ inv p' (l ++ freed (ref p) bs) /\
    same_config p p' /\ same_cache p p' /\
    forall c, ref p' c = ref p c - occurrences c bs.
Proof.
  unfold free_blocks. revert p l. induction bs as [|b bs IH]; intros p l Hi Hbs Hocc; cbn.
  { exists p. rewrite app_nil_r. split_and!; [done..|]. intros c. rewrite occurrences_nil. lia. }
  destruct (pool_free_one_ok p l b Hi) as (p1 & Hrun & Hi1 & Hcfg & Hcache & Href).
  { apply Hbs. by left. }
  { pose proof (Hocc b) as H. rewrite occurrences_cons, decide_True in H by done.
    pose proof (occurrences_nonneg b bs). lia. }
  rewrite (bind_step _ _ _ _ _ Hrun).
  destruct (IH p1 _ Hi1) as (p2 & -> & Hi2 & Hcfg2 & Hcache2 & Href2).
  { intros c Hc. rewrite (same_num _ _ Hcfg). apply Hbs. by right. }
  { intros c. pose proof (Hocc c) as H. rewrite occurrences_cons in H. rewrite Href.
    case_decide; lia. }
  exists p2. split; [done|]. split_and!; [|by etransitivity..|].
  - rewrite (freed_ext (ref p1) _ _ Href) in Hi2.
    case_decide; cbn; [by rewrite <- app_assoc in Hi2|done].
  - intros c. rewrite Href2, Href, occurrences_cons. lia.
Qed.

(** ** Eviction from the cache *)

Lemma dict_empty_keys (d : pydict Z Z) : dlen d = 0 <-> keys d = [].
Proof.
  rewrite dlen_zero. destruct d as [its]. unfold keys; cbn. split; [by intros ->|].
  by destruct its.
Qed.

(** [d] loses [b]: the cache of [p] with [h]'s dictionary replaced, or dropped
    when it becomes empty. *)
Lemma cache_ok_evict p p' b h d :
  cache_ok p -> same_config p p' ->
  hash p b = Some h -> cached_block_hash_to_block p !! h = Some d ->
  (forall c, hash p' c = if decide (b = c) then None else hash p c) ->
  (forall h', cached_block_hash_to_block p' !! h' =
     if decide (h' = h) then (if dlen (delete b d) =? 0 then None else Some (delete b d))
     else cached_block_hash_to_block p !! h') ->
  cache_ok p'.
Proof.
  intros [Hc Hd Hrange] [Hn _] Hb Hh Hhash Hcached. split.
  - intros h' c. rewrite Hhash, Hcached. destruct (decide (h' = h)) as [->|Hne].
    + assert (Hdel : is_Some (delete b d !! c) <-> b <> c /\ is_Some (d !! c)).
      { rewrite dict_lookup_delete. case_decide; [|tauto].
        split; [intros [? [=]]|tauto]. }
      destruct (Z.eqb_spec (dlen (delete b d)) 0) as [E|E].
      * apply dict_empty_keys in E. split; [|by intros (? & [=] & _)].
        case_decide as Hcb; [done|]. intros (d' & Hd' & Hs)%Hc.
        rewrite Hh in Hd'. injection Hd' as <-.
        assert (Hin : c ∈ keys (delete b d)) by (apply elem_of_keys; tauto).
        rewrite E in Hin. by apply not_elem_of_nil in Hin.
      * split.
        -- case_decide as Hcb; [done|]. intros (d' & Hd' & Hs)%Hc.
           rewrite Hh in Hd'. injection Hd' as <-. eexists. split; [done|]. tauto.
        -- intros (d' & [= <-] & [Hbc Hs]%Hdel). rewrite decide_False by done.
           apply Hc. eauto.
    + case_decide as Hcb; [|apply Hc]. subst c. split; [done|].
      intros H. apply Hc in H. congruence.
  - intros h' d'. rewrite Hcached. destruct (decide (h' = h)) as [->|]; [|apply Hd].
    destruct (Z.eqb_spec (dlen (delete b d)) 0) as [E|E]; [done|]. intros [= <-].
    destruct (Hd h d Hh) as (Hwf & _ & Hid). split_and!.
    + by apply wf_delete.
    + by intros ?%dict_empty_keys.
    + intros c x. rewrite dict_lookup_delete. case_decide; [done|apply Hid].
  - intros c. rewrite Hhash, Hn. case_decide; [by intros [? [=]]|apply Hrange].
Qed.

Lemma set_hash_same p b h :
  let p' := set_block b (with_block_hash h (block p b)) p in
  same_config p p' /\ (forall c, ref p' c = ref p c) /\
  (forall c, hash p' c = if decide (b = c) then h else hash p c) /\
  cached_block_hash_to_block p' = cached_block_hash_to_block p /\
  forall l, FreeQueue.repr (free_block_queue p) l -> FreeQueue.repr (free_block_queue p') l.
Proof.
  cbv zeta. split_and!; [done| | |done|].
  - intros c. unfold ref. rewrite block_set_block. by case_decide; subst.
  - intros c. unfold hash. rewrite block_set_block. by case_decide.
  - intros l. by apply repr_set_block.
Qed.

Lemma maybe_evict_ok p b :
  cache_ok p ->
  exists p', maybe_evict_cached_block b p = (Ok (bool_decide (is_Some (hash p b))), p') /\
    cache_ok p' /\ same_config p p' /\ (forall c, ref p' c = ref p c) /\
    (forall c, hash p' c = if decide (b = c) then None else hash p c) /\
    forall l, FreeQueue.repr (free_block_queue p) l -> FreeQueue.repr (free_block_queue p') l.
Proof.
  intros Hok. unfold maybe_evict_cached_block. rewrite bind_run.
  change (gets (fun p => block_hash (block p b)) p) with (@Ok (option BlockHashType) (hash p b), p).
  cbv iota. destruct (hash p b) as [h|] eqn:Hb.
  2:{ exists p. split_and!; [done..| |done]. intros c. by case_decide; subst. }
  rewrite bind_run. change (gets cached_block_hash_to_block p)
    with (@Ok (gmap BlockHashType (pydict Z Z)) (cached_block_hash_to_block p), p). cbv iota.
  destruct (proj1 (ok_cached _ Hok h b) Hb) as (d & Hd & Hs). rewrite Hd.
  destruct (set_hash_same p b None) as (Hcfg & Href & Hhash & Hc & Hr).
  set (p1 := set_block b (with_block_hash None (block p b)) p) in *.
  rewrite (bind_step _ _ p tt p1) by done.
  rewrite (proj2 (has_true d b) Hs).
  set (d' := delete b d). set (p2 := with_cached (<[h := d']> (cached_block_hash_to_block p)) p1).
  rewrite (bind_step _ _ p1 tt p2) by done.
  set (p3 := if dlen d' =? 0
             then with_cached (delete h (cached_block_hash_to_block p2)) p2 else p2).
  rewrite (bind_step _ _ p2 tt p3) by (unfold p3; by case_match).
  assert (H3 : same_config p p3 /\ (forall c, block p3 c = block p1 c) /\
               free_block_queue p3 = free_block_queue p1).
  { unfold p3. by case_match. }
  destruct H3 as (Hcfg3 & Hblk3 & Hq3).
  exists p3. split; [done|]. split_and!; [|done| | |].
  - apply (cache_ok_evict p p3 b h d); [done..| |].
    + intros c. unfold hash at 1. rewrite Hblk3. apply Hhash.
    + intros h'. unfold p3, d'. destruct (dlen (delete b d) =? 0); cbn.
      * destruct (decide (h' = h)) as [->|]; [apply lookup_delete_eq|].
        by rewrite lookup_delete_ne, lookup_insert_ne by congruence.
      * destruct (decide (h' = h)) as [->|]; [apply lookup_insert_eq|].
        by rewrite lookup_insert_ne by congruence.
  - intros c. unfold ref at 1. rewrite Hblk3. apply Href.
  - intros c. unfold hash at 1. rewrite Hblk3. apply Hhash.
  - intros l. rewrite Hq3. apply Hr.
Qed.

(** ** [get_new_blocks] *)

(** One turn of the loop. *)
Lemma get_loop_ok k p l :
  inv p l -> (k <= length l)%nat ->
  exists p', get_loop k p = (Ok (take k l), p') /\ inv p' (drop k l) /\ same_config p p' /\
    (forall c, ref p' c = ref p c + occurrences c (take k l)) /\
    (forall c, hash p' c = if decide (enable_caching p = true /\ c ∈ take k l) then None
                           else hash p c).
Proof.
  revert p l. induction k as [|k IH]; intros p l Hi Hk.
  { exists p. rewrite take_0, drop_0. split_and!; [done..| |].
    - intros c. rewrite occurrences_nil. lia.
    - intros c. rewrite decide_False; [done|]. by intros [_ ?%not_elem_of_nil]. }
  destruct l as [|b l]; cbn in Hk; [lia|]. cbn [get_loop take drop].
  pose proof (FreeQueue.popleft_repr _ _ (inv_queue _ _ Hi)) as (q & Hpop & Hrq & Hm).
  rewrite (bind_step _ _ _ _ _ (on_queue_run _ _ _ _ Hpop)).
  set (p1 := with_queue q p). destruct (with_queue_same p q Hm) as (Hcfg1 & Hca1 & Href1).
  fold p1 in Hcfg1, Hca1, Href1.
  assert (Hb : 0 <= b < num_gpu_blocks p) by (apply Hi; left).
  assert (Hb0 : ref p b = 0) by (apply (inv_free _ _ Hi b Hb); left).
  assert (Hnd : b ∉ l) by (pose proof (FreeQueue.repr_nodup _ _ (inv_queue _ _ Hi)) as
    [? _]%NoDup_cons; done).
  rewrite bind_run.
  change (gets (fun p => ref_cnt (block p b)) p1) with (@Ok Z (ref p1 b), p1). cbv iota.
  rewrite Href1, Hb0. rewrite (bind_step _ _ p1 tt p1) by done.
  rewrite bind_run. change (gets enable_caching p1) with (@Ok bool (enable_caching p), p1).
  cbv iota.
  assert (Hev : exists p2,
    (if enable_caching p then maybe_evict_cached_block b ;; mret tt else mret tt) p1 = (Ok tt, p2) /\
    cache_ok p2 /\ same_config p p2 /\ (forall c, ref p2 c = ref p c) /\
    (forall c, hash p2 c = if decide (enable_caching p = true /\ c = b) then None else hash p c) /\
    FreeQueue.repr (free_block_queue p2) l).
  { assert (Hok1 : cache_ok p1) by (apply (cache_ok_same p); [done..|apply Hi]).
    destruct (enable_caching p) eqn:Ec.
    - destruct (maybe_evict_ok p1 b Hok1) as (p2 & Hrun & Hok2 & Hcfg2 & Href2 & Hh2 & Hr2).
      exists p2. rewrite (bind_step _ _ _ _ _ Hrun).
      split_and!; [done|done|by transitivity p1|intros c; by rewrite Href2| |by apply Hr2].
      intros c. rewrite Hh2, (same_hash _ _ Hca1).
      destruct (decide (b = c)) as [->|]; [by rewrite decide_True|].
      rewrite decide_False; [done|]. intros [_ ?]; congruence.
    - exists p1. split_and!; [done..| |done].
      intros c. rewrite decide_False by (intros [? _]; done). apply (same_hash _ _ Hca1). }
  destruct Hev as (p2 & Hrun & Hok2 & Hcfg2 & Href2 & Hh2 & Hr2).
  rewrite (bind_step _ _ _ _ _ Hrun).
  destruct (set_ref_same p2 b (ref p2 b + 1)) as (Hcfg3 & Hca3 & Href3).
  set (p3 := set_block b (incr_ref (block p2 b)) p2).
  change (set_block b (with_ref_cnt (ref p2 b + 1) (block p2 b)) p2) with p3 in *.
  rewrite (bind_step _ _ p2 tt p3) by done.
  assert (Hrefs : forall c, ref p3 c = ref p c + (if decide (b = c) then 1 else 0)).
  { intros c. rewrite Href3, !Href2. destruct (decide (b = c)) as [->|]; lia. }
  assert (Hi3 : inv p3 l).
  { apply (inv_transfer p (b :: l)); [done|by transitivity p2|..].
    - by apply (cache_ok_same p2).
    - by apply repr_set_block.
    - intros c. rewrite Hrefs. pose proof (inv_ref _ _ Hi c).
      destruct (decide (b = c)); lia.
    - intros c Hc. apply Hi. by right.
    - intros c Hc. rewrite Hrefs. pose proof (inv_free _ _ Hi c Hc) as Hf.
      rewrite elem_of_cons in Hf. pose proof (inv_ref _ _ Hi c).
      destruct (decide (b = c)) as [->|]; [split; [done|lia]|]. rewrite Z.add_0_r, <- Hf.
      split; [tauto|]. intros [?|?]; [congruence|done]. }
  destruct (IH p3 l Hi3 ltac:(lia)) as (p' & Hrun' & Hi' & Hcfg' & Href' & Hh').
  exists p'. rewrite (bind_step _ _ _ _ _ Hrun'). split; [done|].
  split_and!; [done|by transitivity p3; [transitivity p2|]| |].
  - intros c. rewrite Href', Hrefs, occurrences_cons. lia.
  - intros c. rewrite Hh', (same_hash _ _ Hca3), Hh2.
    rewrite (same_caching _ _ Hcfg3), (same_caching _ _ Hcfg2).
    repeat case_decide; rewrite elem_of_cons in *; tauto.
Qed.

Lemma get_num_free_ok p l : inv p l -> get_num_free_blocks p = Z.of_nat (length l).
Proof. intros Hi. apply Hi. Qed.

Lemma get_new_blocks_ok p l n :
  inv p l -> 0 <= n ->
  if decide (n <= Z.of_nat (length l)) then
    let k := Z.to_nat n in
    exists p', get_new_blocks n p = (Ok (take k l), p') /\ inv p' (drop k l) /\ same_config p p' /\
      (forall c, ref p' c = ref p c + occurrences c (take k l)) /\
      (forall c, hash p' c = if decide (enable_caching p = true /\ c ∈ take k l) then None
                             else hash p c)
  else get_new_blocks n p = (Err ValueError, p).
Proof.
  intros Hi Hn. unfold get_new_blocks. rewrite bind_run.
  change (gets get_num_free_blocks p) with (@Ok Z (get_num_free_blocks p), p). cbv iota.
  rewrite (get_num_free_ok _ _ Hi). case_decide.
  - rewrite (proj2 (Z.ltb_ge _ _)) by lia. apply get_loop_ok; [done|lia].
  - rewrite (proj2 (Z.ltb_lt _ _)) by lia. done.
Qed.

(** ** [cache_full_blocks] *)

(** Block [b], which had no hash, gets hash [h] and is entered under it. *)
Definition cache_block (b : Z) (h : BlockHashType) (p : t) : t :=
  let p1 := set_block b (with_block_hash (Some h) (block p b)) p in
  let c := cached_block_hash_to_block p in
  with_cached (<[h := <[b := b]> (default ∅ (c !! h))]> c) p1.

Lemma cache_block_same p b h :
  let p' := cache_block b h p in
  same_config p p' /\ (forall c, ref p' c = ref p c) /\
  (forall c, hash p' c = if decide (b = c) then Some h else hash p c) /\
  forall l, FreeQueue.repr (free_block_queue p) l -> FreeQueue.repr (free_block_queue p') l.
Proof. cbv zeta. by destruct (set_hash_same p b (Some h)) as (? & ? & ? & _ & ?). Qed.

Lemma cache_block_ok p b h :
  cache_ok p -> 0 <= b < num_gpu_blocks p -> hash p b = None -> cache_ok (cache_block b h p).
Proof.
  intros [Hc Hd Hrange] Hr Hb. destruct (cache_block_same p b h) as (_ & _ & Hhash & _).
  split.
  - intros h' c. rewrite Hhash. cbn. rewrite lookup_insert. destruct (decide (h = h')) as [<-|Hne].
    + destruct (decide (b = c)) as [->|Hbc].
      { split; [|done]. intros _. eexists. split; [done|]. rewrite dict_lookup_insert_eq. eauto. }
      rewrite Hc. split.
      * intros (d & -> & Hs). eexists. split; [done|]. cbn.
        by rewrite dict_lookup_insert_ne.
      * intros (d & [= <-] & Hs). rewrite dict_lookup_insert_ne in Hs by done.
        destruct (cached_block_hash_to_block p !! h) as [d|]; [by exists d|].
        by destruct Hs as [? [=]].
    + destruct (decide (b = c)) as [->|Hbc]; [|apply Hc].
      split; [congruence|]. intros H%Hc. congruence.
  - intros h' d. cbn. rewrite lookup_insert. destruct (decide (h = h')) as [<-|Hne]; [|apply Hd].
    intros [= <-].
    assert (Hold : wf_dict (default ∅ (cached_block_hash_to_block p !! h)) /\
      forall x y, default ∅ (cached_block_hash_to_block p !! h) !! x = Some y -> y = x).
    { destruct (cached_block_hash_to_block p !! h) as [d|] eqn:E; cbn; [|split; [constructor|done]].
      by destruct (Hd _ _ E) as (? & _ & ?). }
    destruct Hold as [Hwf Hid]. split_and!.
    + by apply wf_insert.
    + intros Hk. assert (Hin : b ∈ keys (<[b:=b]> (default ∅ (cached_block_hash_to_block p !! h)))).
      { apply elem_of_keys. rewrite dict_lookup_insert_eq. eauto. }
      rewrite Hk in Hin. by apply not_elem_of_nil in Hin.
    + intros x y. rewrite dict_lookup_insert. case_decide; [by intros [= <-]|apply Hid].
  - intros c. rewrite Hhash. cbn. case_decide; [by subst|apply Hrange].
Qed.

Section Caching.
Context (py_hash : Z * list Z * option (list extra_key) -> Z) (hash_none : Z).

(** What [cache_loop] can change, whatever its outcome: the hashes of the
    blocks it is given. *)
Record cached_only (blks : list Z) (p p' : t) : Prop := CachedOnly {
  co_config : same_config p p';
  co_ref : forall c, ref p' c = ref p c;
  co_hash : forall c, c ∉ blks -> hash p' c = hash p c;
  co_keep : forall c h, hash p c = Some h -> hash p' c = Some h;
  co_queue : forall l, FreeQueue.repr (free_block_queue p) l ->
               FreeQueue.repr (free_block_queue p') l;
}.

Lemma cached_only_refl blks p : cached_only blks p p.
Proof. by split. Qed.

Lemma cached_only_step b blks p h p' :
  hash p b = None -> cached_only blks (cache_block b h p) p' -> cached_only (b :: blks) p p'.
Proof.
  intros Hb [Hcfg Href Hhash Hkeep Hq].
  destruct (cache_block_same p b h) as (Hcfg1 & Href1 & Hhash1 & Hq1). split.
  - by etransitivity.
  - intros c. by rewrite Href.
  - intros c [Hne Hc]%not_elem_of_cons. by rewrite Hhash, Hhash1, decide_False.
  - intros c h' Hc. apply Hkeep. rewrite Hhash1, decide_False; [done|]. congruence.
  - auto.
Qed.

(** One turn of the loop, once the block's hash [h] is known. *)
Lemma cache_turn b h p hs A (f : unit -> M (t * list BlockHashType) A) :
  hash p b = None ->
  (s ← get;
   blk' ← lift (set_block_hash h (block s.1 b));
   modify (fun s => (set_block b blk' s.1, s.2)) ;;
   modify (fun s =>
     let c := cached_block_hash_to_block s.1 in
     let d := default ∅ (c !! h) in
     (with_cached (<[h := <[b := b]> d]> c) s.1, s.2)) ;; f tt) (p, hs) =
  f tt (cache_block b h p, hs).
Proof.
  intros Hb. rewrite bind_run. cbn [get fst snd]. rewrite bind_run.
  unfold hash in Hb. unfold set_block_hash at 1. cbn [fst]. rewrite Hb. cbn [lift].
  rewrite !bind_run. done.
Qed.

Lemma cache_loop_frame r new k bs i blks prev p hs res p' hs' :
  cache_ok p -> (forall b, b ∈ blks -> 0 <= b < num_gpu_blocks p) ->
  cache_loop py_hash hash_none r new k bs i blks prev (p, hs) = (res, (p', hs')) ->
  cache_ok p' /\ cached_only blks p p'.
Proof.
  revert i prev p hs. induction blks as [|b blks IH]; intros i prev p hs Hok Hrange; cbn [cache_loop].
  { intros [= _ <- _]. split; [done|apply cached_only_refl]. }
  rewrite bind_run. change (gets (fun s : t * list BlockHashType => block_hash (block s.1 b)) (p, hs))
    with (@Ok (option BlockHashType) (hash p b), (p, hs)). cbv iota.
  destruct (hash p b) as [h0|] eqn:Hb.
  { intros [= _ <- _]. split; [done|apply cached_only_refl]. }
  rewrite (bind_step _ _ (p, hs) tt (p, hs)) by done. rewrite bind_run.
  assert (Hm : exists rh hs1, next_block_hash py_hash hash_none r new k bs i prev (p, hs) =
                                (rh, (p, hs1))).
  { unfold next_block_hash. destruct (new !! i); [by eexists _, _|]. cbv zeta. rewrite bind_run.
    destruct (_ =? _); cbn; [|by eexists _, _]. rewrite bind_run.
    destruct (BlockHashing.generate_block_hash_extra_keys _ _ _ _); cbn; by eexists _, _. }
  destruct Hm as (rh & hs1 & ->). destruct rh as [h|e].
  2:{ intros [= _ <- _]. split; [done|apply cached_only_refl]. }
  rewrite (cache_turn b h p hs1 unit (fun _ => _)) by done. intros Hrun.
  assert (Hb' : 0 <= b < num_gpu_blocks p) by (apply Hrange; left).
  apply IH in Hrun as [Hok' Hco];
    [|by apply cache_block_ok|intros c Hc; apply Hrange; by right].
  split; [done|]. by apply (cached_only_step b blks p h).
Qed.

Lemma cache_full_blocks_frame r blks k n bs p hs res p' hs' :
  cache_ok p -> (forall b, b ∈ blks -> 0 <= b < num_gpu_blocks p) ->
  cache_full_blocks py_hash hash_none r blks k n bs (p, hs) = (res, (p', hs')) ->
  cache_ok p' /\ cached_only (py_slice blks k n) p p'.
Proof.
  intros Hok Hrange. unfold cache_full_blocks. cbv zeta. destruct (k =? n).
  { intros [= _ <- _]. split; [done|apply cached_only_refl]. }
  rewrite bind_run. change (gets snd (p, hs)) with (@Ok (list BlockHashType) hs, (p, hs)). cbv iota.
  destruct (k <=? Z.of_nat (length hs)).
  2:{ intros [= _ <- _]. split; [done|apply cached_only_refl]. }
  rewrite (bind_step _ _ (p, hs) tt (p, hs)) by done. rewrite bind_run.
  match goal with |- match ?m with _ => _ end = _ -> _ =>
    assert (Hm : exists rp, m = (rp, (p, hs))) end.
  { destruct (k =? 0); [by eexists|]. rewrite bind_run.
    destruct (py_index blks (k - 1)); cbn; [|by eexists]. rewrite bind_run. cbn.
    destruct (block_hash _); by eexists. }
  destruct Hm as (rp & ->). destruct rp as [prev|e].
  { apply cache_loop_frame; [done|]. intros b Hb. apply Hrange. by apply elem_of_py_slice in Hb. }
  intros [= _ <- _]. split; [done|apply cached_only_refl].
Qed.
(** For a request without multi-modal inputs the blocks [k .. n-1] get the
    hashes of the request's chain, and the list of known hashes grows to [n]. *)
Section Text.
Context (bs : Z) (r : Request.t).
Context (Hbs : 0 < bs) (Htext : BlockHashing.text r).

Abbreviation chain := (BlockHashing.chain py_hash hash_none bs r).

Lemma lookup_chain m i :
  map chain (seq 0 m) !! i = if decide (i < m)%nat then Some (chain i) else None.
Proof.
  destruct (decide (i < m)%nat).
  - rewrite list_lookup_fmap, lookup_seq_lt by done. done.
  - rewrite list_lookup_fmap, lookup_seq_ge by lia. done.
Qed.

Lemma next_block_hash_text k m i p :
  Z.of_nat (S (k + i)) * bs <= Request.num_tokens r ->
  next_block_hash py_hash hash_none r (drop k (map chain (seq 0 m))) (Z.of_nat k) bs i
    (BlockHashing.chain_parent py_hash hash_none bs r (k + i))
    (p, map chain (seq 0 (m `max` (k + i)))) =
  (Ok (chain (k + i)), (p, map chain (seq 0 (m `max` (k + S i))))).
Proof.
  intros Hlen. unfold next_block_hash. set (hs := map chain (seq 0 (m `max` (k + i)))).
  rewrite lookup_drop, lookup_chain. case_decide as Hi.
    { unfold hs. by replace (m `max` (k + S i))%nat with (m `max` (k + i))%nat by lia. }
    cbv zeta. rewrite (bind_step _ _ (p, hs) tt (p, hs)).
    2:{ replace (py_slice _ _ _) with (BlockHashing.block_tokens bs r (k + i))
          by (unfold BlockHashing.block_tokens; f_equal; lia).
        rewrite BlockHashing.length_block_tokens by (done || lia).
        rewrite Z2Nat.id by lia. by rewrite Z.eqb_refl. }
    destruct (BlockHashing.text_extra_keys r ((Z.of_nat k + Z.of_nat i) * bs)
      ((Z.of_nat k + Z.of_nat i + 1) * bs) (-1) Htext) as (j & Hek).
    rewrite bind_run, Hek. cbn [lift].
    replace (py_slice _ _ _) with (BlockHashing.block_tokens bs r (k + i))
      by (unfold BlockHashing.block_tokens; f_equal; lia).
    cbn [fst]. rewrite <- BlockHashing.chain_unfold. rewrite bind_run. cbn [modify fst snd].
    unfold hs. replace (m `max` (k + i))%nat with (k + i)%nat by lia.
    replace (m `max` (k + S i))%nat with (S (k + i)) by lia.
    by rewrite seq_S, map_app.
Qed.

Lemma cache_loop_text k m i blks p :
  cache_ok p -> NoDup blks -> (forall b, b ∈ blks -> hash p b = None) ->
  (forall b, b ∈ blks -> 0 <= b < num_gpu_blocks p) ->
  Z.of_nat (k + i + length blks) * bs <= Request.num_tokens r ->
  exists p', cache_loop py_hash hash_none r (drop k (map chain (seq 0 m))) (Z.of_nat k) bs i blks
      (BlockHashing.chain_parent py_hash hash_none bs r (k + i))
      (p, map chain (seq 0 (m `max` (k + i)))) =
    (Ok tt, (p', map chain (seq 0 (m `max` (k + i + length blks))))) /\
    cache_ok p' /\ cached_only blks p p' /\
    forall j b, blks !! j = Some b -> hash p' b = Some (chain (k + i + j)).
Proof.
  revert i p. induction blks as [|b blks IH]; intros i p Hok Hnd Hnone Hrange Hlen.
  { exists p. cbn [length]. rewrite Nat.add_0_r. split_and!; [done|done|apply cached_only_refl|].
    intros j b. by rewrite lookup_nil. }
  apply NoDup_cons in Hnd as [Hbl Hnd]. cbn [cache_loop length] in *.
  assert (Hb : hash p b = None) by (apply Hnone; left).
  assert (Hb' : 0 <= b < num_gpu_blocks p) by (apply Hrange; left).
  set (hs := map chain (seq 0 (m `max` (k + i)))).
  rewrite bind_run. change (gets (fun s : t * list BlockHashType => block_hash (block s.1 b)) (p, hs))
    with (@Ok (option BlockHashType) (hash p b), (p, hs)). cbv iota. rewrite Hb.
  rewrite (bind_step _ _ (p, hs) tt (p, hs)) by done. rewrite bind_run.
  unfold hs. rewrite next_block_hash_text by (done || lia). fold hs.
  rewrite (cache_turn b _ p _ unit (fun _ => _)) by done.
  change (Some (hash_value (chain (k + i))))
    with (BlockHashing.chain_parent py_hash hash_none bs r (S (k + i))).
  replace (S (k + i)) with (k + S i)%nat by lia.
  destruct (cache_block_same p b (chain (k + i))) as (_ & _ & Hhash & _).
  destruct (IH (S i) (cache_block b (chain (k + i)) p)) as (p' & Hrun & Hok' & Hco & Hget).
  - by apply cache_block_ok.
  - done.
  - intros c Hc. rewrite Hhash, decide_False by (by intros ->). apply Hnone. by right.
  - intros c Hc. apply Hrange. by right.
  - lia.
  - exists p'. rewrite Hrun. replace (k + i + S (length blks))%nat with
      (k + S i + length blks)%nat by lia.
    split_and!; [done|done|by apply (cached_only_step b blks p (chain (k + i)))|].
    intros [|j] c; cbn.
    + intros [= <-]. rewrite Nat.add_0_r. apply (co_keep _ _ _ Hco).
      by rewrite Hhash, decide_True.
    + intros Hc. rewrite (Hget j c Hc). do 2 f_equal. lia.
Qed.

Lemma cache_full_blocks_text blks k n m p :
  cache_ok p -> (k <= n)%nat -> (n <= length blks)%nat -> (k <= m)%nat ->
  NoDup (drop k blks) -> (forall b, b ∈ blks -> 0 <= b < num_gpu_blocks p) ->
  (forall j b, (k <= j < n)%nat -> blks !! j = Some b -> hash p b = None) ->
  (forall j b, k = S j -> blks !! j = Some b -> hash p b = Some (chain j)) ->
  Z.of_nat n * bs <= Request.num_tokens r ->
  exists p', cache_full_blocks py_hash hash_none r blks (Z.of_nat k) (Z.of_nat n) bs
      (p, map chain (seq 0 m)) =
    (Ok tt, (p', map chain (seq 0 (m `max` n)))) /\
    cache_ok p' /\ cached_only (take (n - k) (drop k blks)) p p' /\
    forall j b, (k <= j < n)%nat -> blks !! j = Some b -> hash p' b = Some (chain j).
Proof.
  intros Hok Hkn Hnl Hkm Hnd Hrange Hnone Hprev Htok. unfold cache_full_blocks. cbv zeta.
  destruct (Z.eqb_spec (Z.of_nat k) (Z.of_nat n)) as [E|E].
  { exists p. replace (m `max` n)%nat with m by lia.
    split_and!; [done|done|apply cached_only_refl|lia]. }
  set (hs := map chain (seq 0 m)).
  assert (Hlen : length hs = m) by (unfold hs; by rewrite length_map, length_seq).
  rewrite bind_run. change (gets snd (p, hs)) with (@Ok (list BlockHashType) hs, (p, hs)). cbv iota.
  rewrite Hlen, (proj2 (Z.leb_le _ _)) by lia.
  rewrite (bind_step _ _ (p, hs) tt (p, hs)) by done.
  rewrite (bind_step _ _ (p, hs) (BlockHashing.chain_parent py_hash hash_none bs r k) (p, hs)).
  2:{ destruct k as [|k]; [done|]. rewrite (proj2 (Z.eqb_neq _ _)) by lia.
      unfold py_index. rewrite (proj2 (Z.ltb_ge _ _)) by lia.
      replace (Z.to_nat (Z.of_nat (S k) - 1)) with k by lia.
      destruct (lookup_lt_is_Some_2 blks k) as [b Hb]; [lia|]. rewrite Hb. cbn [from_option_exn].
      rewrite bind_run. cbn [lift]. rewrite bind_run.
      change (gets (fun s : t * list BlockHashType => block_hash (block s.1 b)) (p, hs))
        with (@Ok (option BlockHashType) (hash p b), (p, hs)). cbv iota.
      by rewrite (Hprev k b eq_refl Hb). }
  rewrite !py_slice_take by lia. rewrite !Nat2Z.id.
  assert (Hd : take (m - k) (drop k hs) = drop k hs).
  { apply take_ge. rewrite length_drop. lia. }
  rewrite Hd. set (new := take (n - k) (drop k blks)).
  assert (Hnew : length new = (n - k)%nat).
  { unfold new. rewrite length_take, length_drop. lia. }
  assert (Hlook : forall j, new !! j = if decide (j < n - k)%nat then blks !! (k + j)%nat else None).
  { intros j. unfold new. case_decide.
    - by rewrite lookup_take_lt, lookup_drop.
    - by rewrite lookup_take_ge by lia. }
  destruct (cache_loop_text k m 0 new p Hok) as (p' & Hrun & Hok' & Hco & Hget).
  - eapply sublist_NoDup; [exact Hnd|apply sublist_take].
  - intros b Hb. apply list_elem_of_lookup in Hb as [j Hj]. rewrite Hlook in Hj.
    case_decide; [|done]. by apply (Hnone (k + j)%nat); [lia|].
  - intros b Hb. apply list_elem_of_lookup in Hb as [j Hj]. rewrite Hlook in Hj.
    case_decide; [|done]. by eapply Hrange, list_elem_of_lookup_2.
  - rewrite Hnew. lia.
  - rewrite Nat.add_0_r, Nat.max_l in Hrun by lia. rewrite Hnew in Hrun.
    exists p'. unfold hs. rewrite Hrun. replace (k + (n - k))%nat with n by lia.
    split_and!; [done..|]. intros j b Hj Hb.
    specialize (Hget (j - k)%nat b). rewrite Hlook, decide_True in Hget by lia.
    replace (k + (j - k))%nat with j in Hget by lia. rewrite (Hget Hb). do 2 f_equal. lia.
Qed.
End Text.
End Caching.

(** ** Construction, lookup and reset *)

Lemma lookup_fresh_blocks (n : Z) b :
  foldr (fun i (h : heap) => <[i := KVCacheBlock.init]> h) ∅ (seqZ 0 n) !!! b = KVCacheBlock.init.
Proof.
  induction (seqZ 0 n) as [|i l IH]; cbn; [by rewrite lookup_total_empty|].
  destruct (decide (i = b)) as [->|].
  - apply lookup_total_insert_eq.
  - rewrite lookup_total_insert_ne by done. exact IH.
Qed.

Lemma pool_init_ok n caching :
  (0 < n)%nat ->
  exists p, init n caching = Ok p /\ inv p (seqZ 0 (Z.of_nat n)) /\
    num_gpu_blocks p = Z.of_nat n /\ enable_caching p = caching /\
    (forall b, ref p b = 0) /\ forall b, hash p b = None.
Proof.
  intros Hn. set (h := foldr (fun i (h : heap) => <[i := KVCacheBlock.init]> h) ∅
                         (seqZ 0 (Z.of_nat n))).
  assert (Hh : forall b, h !!! b = KVCacheBlock.init) by (intros; apply lookup_fresh_blocks).
  destruct (FreeQueue.init_repr h n Hn) as (q & Hq & Hr & Hm & _).
  { intros b. by rewrite Hh. }
  eexists. unfold init. cbv zeta. fold h. rewrite Hq. split; [reflexivity|].
  set (p := Pool _ _ _ _).
  assert (Hrf : forall b, ref p b = 0).
  { intros b. destruct (Hm b) as [Hb _]. rewrite Hh in Hb. exact Hb. }
  assert (Hhs : forall b, hash p b = None).
  { intros b. destruct (Hm b) as [_ Hb]. rewrite Hh in Hb. exact Hb. }
  split_and!; try done. split.
  - done.
  - intros b Hb. apply elem_of_seqZ in Hb. cbn. lia.
  - intros b. by rewrite Hrf.
  - intros b Hb. rewrite Hrf, elem_of_seqZ. cbn in Hb. split; [done|lia].
  - split.
    + intros hh b. rewrite Hhs. split; [done|]. cbn. by intros (d & Hd%lookup_empty_Some & _).
    + intros hh d. cbn. by intros ?%lookup_empty_Some.
    + intros b. rewrite Hhs. by intros [? [=]].
Qed.

(** A hit is a block that carries the hash; a miss means that no block does. *)
Lemma get_cached_block_ok p h :
  cache_ok p ->
  exists o, get_cached_block h p = Ok o /\
    match o with
    | Some b => hash p b = Some h
    | None => forall b, hash p b <> Some h
    end.
Proof.
  intros [Hc Hd Hr]. unfold get_cached_block.
  destruct (cached_block_hash_to_block p !! h) as [d|] eqn:E.
  2:{ exists None. split; [done|]. intros b (d & Hd' & _)%Hc. congruence. }
  destruct (Hd h d E) as (Hwf & Hne & Hid).
  destruct (keys d) as [|b ks] eqn:Ek; [done|]. cbn.
  assert (Hs : is_Some (d !! b)) by (apply elem_of_keys; rewrite Ek; left).
  destruct Hs as [c Hbc]. rewrite Hbc. exists (Some c). split; [done|].
  rewrite (Hid b c Hbc). apply Hc. eauto.
Qed.

Lemma reset_hashes_ok bs p :
  let run := for_each bs (fun b => update b reset_hash) p in
  exists p', run = (Ok tt, p') /\ same_config p p' /\ (forall c, ref p' c = ref p c) /\
    (forall c, hash p' c = if decide (c ∈ bs) then None else hash p c) /\
    cached_block_hash_to_block p' = cached_block_hash_to_block p /\
    forall l, FreeQueue.repr (free_block_queue p) l -> FreeQueue.repr (free_block_queue p') l.
Proof.
  cbv zeta. revert p. induction bs as [|b bs IH]; intros p; cbn [for_each].
  { exists p. by split_and!. }
  destruct (set_hash_same p b None) as (Hcfg & Href & Hhash & Hc & Hr).
  set (p1 := set_block b (with_block_hash None (block p b)) p) in *.
  rewrite (bind_step _ _ p tt p1) by done.
  destruct (IH p1) as (p' & -> & Hcfg' & Href' & Hhash' & Hc' & Hr').
  exists p'. split_and!; [done|by transitivity p1|intros c; by rewrite Href'| |by rewrite Hc'|auto].
  intros c. rewrite Hhash', Hhash.
  destruct (decide (c ∈ bs)) as [Hin|Hin].
  - rewrite decide_True; [done|by right].
  - destruct (decide (b = c)) as [->|Hne].
    + rewrite decide_True; [done|left].
    + rewrite decide_False; [done|]. intros [?|?]%elem_of_cons; [congruence|done].
Qed.

Lemma pool_reset_ok p l :
  inv p l ->
  if decide (Z.of_nat (length l) < num_gpu_blocks p)
  then reset_prefix_cache p = (Ok false, p)
  else exists p', reset_prefix_cache p = (Ok true, p') /\ inv p' l /\ same_config p p' /\
         (forall c, ref p' c = ref p c) /\ (forall c, hash p' c = None) /\
         cached_block_hash_to_block p' = ∅.
Proof.
  intros Hi. unfold reset_prefix_cache. rewrite bind_run. cbn [get].
  rewrite (get_num_free_ok _ _ Hi). case_decide.
  { by rewrite (proj2 (Z.ltb_lt _ _)) by lia. }
  rewrite (proj2 (Z.ltb_ge _ _)) by lia.
  set (p1 := with_cached ∅ p). rewrite (bind_step _ _ p tt p1) by done.
  destruct (reset_hashes_ok (seqZ 0 (num_gpu_blocks p)) p1)
    as (p' & Hrun & Hcfg & Href & Hhash & Hc & Hr).
  rewrite (bind_step _ _ _ _ _ Hrun).
  assert (Hnone : forall c, hash p' c = None).
  { intros c. rewrite Hhash. case_decide as Hin; [done|].
    destruct (hash p1 c) as [h|] eqn:E; [|done].
    destruct Hin. apply elem_of_seqZ.
    assert (is_Some (hash p c)) as ?%(ok_range _ (inv_cache _ _ Hi)) by (by exists h). lia. }
  assert (Hcfg' : same_config p p') by (split; apply Hcfg).
  exists p'. split; [done|]. split_and!; [|exact Hcfg'|exact Href|exact Hnone|exact Hc].
  apply (inv_transfer p l); [done|exact Hcfg'| | | |exact (inv_range _ _ Hi)|].
  - split; rewrite ?Hc; cbn.
    + intros h b. rewrite Hnone. split; [done|]. by intros (d & Hd%lookup_empty_Some & _).
    + by intros h d ?%lookup_empty_Some.
    + intros b. rewrite Hnone. by intros [? [=]].
  - apply Hr, Hi.
  - intros b. rewrite Href. apply (inv_ref _ _ Hi).
  - intros b Hb. rewrite Href. exact (inv_free _ _ Hi b Hb).
Qed.
