(* ===== verification/KVCacheManager.v ===== *)
(** * v1: the KV-cache manager ([vllm/v1/core/kv_cache_manager.py])

    The manager keeps the blocks, the block hashes and the number of cached
    blocks of every request, on top of the block pool.  [sliding_window] and
    [log_stats] are stored by the constructor and not read by any method, so
    they have no field here.  [req_to_blocks] and [req_to_block_hashes] are
    [defaultdict]s: indexing a missing key enters an empty list. *)
From S2P Require Import Prelude.
From S2P Require Import PyDict.
From S2P Require Import FreeQueue.
From S2P Require Import V1Request.
From S2P Require Import BlockHashing.
From S2P Require Import V1BlockPool.

(** ** [PrefixCacheStats] and [PrefixCachingMetrics] *)

Module PrefixCacheStats.
Record t : Type := Stats { reset : bool; requests : Z; queries : Z; hits : Z }.
Definition init : t := Stats false 0 0 0.
End PrefixCacheStats.

Module PrefixCachingMetrics.
Import PrefixCacheStats.

Record t : Type := Metrics {
  interval : Z;
  aggregated_requests : Z;
  aggregated_query_total : Z;
  aggregated_query_hit : Z;
  query_queue : list (Z * Z * Z);
}.

Definition init (interval : Z) : t := Metrics interval 0 0 0 [].
Definition reset_ (m : t) : t := Metrics (interval m) 0 0 0 [].

Definition observe (stats : PrefixCacheStats.t) (m : t) : t :=
  let m := if reset stats then reset_ m else m in
  let q := query_queue m ++ [(requests stats, queries stats, hits stats)] in
  let r := aggregated_requests m + requests stats in
  let t := aggregated_query_total m + queries stats in
  let h := aggregated_query_hit m + hits stats in
  if interval m <? r then
    match q with
    | (old_requests, old_queries, old_hits) :: q =>
        Metrics (interval m) (r - old_requests) (t - old_queries) (h - old_hits) q
    | [] => Metrics (interval m) r t h q
    end
  else Metrics (interval m) r t h q.

Definition hit_rate (m : t) : Q :=
  if aggregated_query_total m =? 0 then 0%Q
  else (inject_Z (aggregated_query_hit m) / inject_Z (aggregated_query_total m))%Q.
End PrefixCachingMetrics.

Module KVCacheManager.
Import BlockHashing.

Record t : Type := Manager {
  block_size : Z;
  max_model_len : Z;
  max_num_blocks_per_req : Z;
  enable_caching : bool;
  num_preallocate_blocks : Z;
  block_pool : V1BlockPool.t;
  req_to_blocks : gmap string (list Z);
  req_to_block_hashes : gmap string (list BlockHashType);
  num_cached_block : gmap string Z;
  prefix_cache_stats : PrefixCacheStats.t;
}.

Definition with_pool p m :=
  Manager (block_size m) (max_model_len m) (max_num_blocks_per_req m) (enable_caching m)
    (num_preallocate_blocks m) p (req_to_blocks m) (req_to_block_hashes m)
    (num_cached_block m) (prefix_cache_stats m).
Definition with_blocks b m :=
  Manager (block_size m) (max_model_len m) (max_num_blocks_per_req m) (enable_caching m)
    (num_preallocate_blocks m) (block_pool m) b (req_to_block_hashes m)
    (num_cached_block m) (prefix_cache_stats m).
Definition with_hashes h m :=
  Manager (block_size m) (max_model_len m) (max_num_blocks_per_req m) (enable_caching m)
    (num_preallocate_blocks m) (block_pool m) (req_to_blocks m) h
    (num_cached_block m) (prefix_cache_stats m).
Definition with_num_cached n m :=
  Manager (block_size m) (max_model_len m) (max_num_blocks_per_req m) (enable_caching m)
    (num_preallocate_blocks m) (block_pool m) (req_to_blocks m) (req_to_block_hashes m)
    n (prefix_cache_stats m).
Definition with_stats s m :=
  Manager (block_size m) (max_model_len m) (max_num_blocks_per_req m) (enable_caching m)
    (num_preallocate_blocks m) (block_pool m) (req_to_blocks m) (req_to_block_hashes m)
    (num_cached_block m) s.

Definition init (block_size : Z) (num_gpu_blocks : nat) (max_model_len : Z)
    (enable_caching : bool) (num_preallocate_tokens : Z) : result t :=
  if block_size =? 0 then Err ZeroDivisionError
  else
    pool ← V1BlockPool.init num_gpu_blocks enable_caching;
    Ok (Manager block_size max_model_len (cdiv max_model_len block_size) enable_caching
          (cdiv num_preallocate_tokens block_size) pool ∅ ∅ ∅ PrefixCacheStats.init).

(** A method of the pool, called on the manager's pool. *)
Definition on_pool {A} (f : M V1BlockPool.t A) : M t A := fun m =>
  let '(r, p) := f (block_pool m) in (r, with_pool p m).

(** [self.req_to_blocks[id]] and [self.req_to_block_hashes[id]] *)
Definition get_blocks (id : string) : M t (list Z) := fun m =>
  let bs := default [] (req_to_blocks m !! id) in
  (Ok bs, with_blocks (<[id := bs]> (req_to_blocks m)) m).
Definition get_hashes (id : string) : M t (list BlockHashType) := fun m =>
  let hs := default [] (req_to_block_hashes m !! id) in
  (Ok hs, with_hashes (<[id := hs]> (req_to_block_hashes m)) m).

(** A method of the pool that appends to the hashes of request [id]: the list
    it is passed is the one in [req_to_block_hashes]. *)
Definition on_pool_and_hashes {A} (id : string)
    (f : M (V1BlockPool.t * list BlockHashType) A) : M t A := fun m =>
  let '(r, (p, hs)) := f (block_pool m, default [] (req_to_block_hashes m !! id)) in
  (r, with_hashes (<[id := hs]> (req_to_block_hashes m)) (with_pool p m)).

Definition usage (m : t) : result Q := V1BlockPool.get_usage (block_pool m).

Definition make_prefix_cache_stats : M t PrefixCacheStats.t := fun m =>
  (Ok (prefix_cache_stats m), with_stats PrefixCacheStats.init m).

(** The loop over the chain of block hashes, up to the first miss. *)
Fixpoint find_computed (p : V1BlockPool.t) (block_hashes : list BlockHashType) :
    result (list Z) :=
  match block_hashes with
  | [] => Ok []
  | block_hash :: block_hashes =>
      cached_block ← V1BlockPool.get_cached_block block_hash p;
      match cached_block with
      | Some b => computed ← find_computed p block_hashes; Ok (b :: computed)
      | None => Ok []
      end
  end.

(** [req_blocks.extend(blocks)]: [req_blocks] is the list in [req_to_blocks]. *)
Definition extend_blocks (id : string) (blocks : list Z) : M t unit :=
  modify (fun m =>
    with_blocks (<[id := default [] (req_to_blocks m !! id) ++ blocks]> (req_to_blocks m)) m).

(** The branch of [allocate_slots] that takes [num_new_blocks] and some blocks
    in advance from the pool. *)
Definition get_request_blocks (id : string) (num_new_blocks : Z) : M t (list Z) :=
  if num_new_blocks <=? 0 then mret []
  else
    m ← get;
    let num_new_blocks :=
      Z.min (Z.min (num_new_blocks + num_preallocate_blocks m)
                   (V1BlockPool.get_num_free_blocks (block_pool m)))
            (max_num_blocks_per_req m -
             Z.of_nat (length (default [] (req_to_blocks m !! id)))) in
    assert_ (0 <? num_new_blocks) ;;
    new_blocks ← on_pool (V1BlockPool.get_new_blocks num_new_blocks);
    extend_blocks id new_blocks ;;
    mret new_blocks.

Section Hash.
Context (py_hash : Z * list Z * option (list extra_key) -> Z) (hash_none : Z).

Definition get_computed_blocks (request : Request.t) : M t (list Z * Z) :=
  caching ← gets enable_caching;
  if negb (caching : bool) then mret ([], 0)
  else
    let id := Request.request_id request in
    known ← get_hashes id;
    bs ← gets block_size;
    block_hashes ←
      match known with
      | [] =>
          hs ← lift (hash_request_tokens py_hash hash_none bs request);
          modify (fun m => with_hashes (<[id := hs]> (req_to_block_hashes m)) m) ;;
          mret hs
      | _ => mret known
      end;
    modify (fun m =>
      let s := prefix_cache_stats m in
      with_stats (PrefixCacheStats.Stats (PrefixCacheStats.reset s)
        (PrefixCacheStats.requests s + 1) (PrefixCacheStats.queries s)
        (PrefixCacheStats.hits s)) m) ;;
    match prompt_logprobs (Request.sampling_params request) with
    | None =>
        pool ← gets block_pool;
        computed_blocks ← lift (find_computed pool block_hashes);
        modify (fun m =>
          let s := prefix_cache_stats m in
          with_stats (PrefixCacheStats.Stats (PrefixCacheStats.reset s)
            (PrefixCacheStats.requests s)
            (PrefixCacheStats.queries s + Z.of_nat (length block_hashes))
            (PrefixCacheStats.hits s + Z.of_nat (length computed_blocks))) m) ;;
        mret (computed_blocks, Z.of_nat (length computed_blocks) * bs)
    | Some _ => mret ([], 0)
    end.

(** [self.block_pool.cache_full_blocks(...)]. *)
Definition cache_request_blocks (request : Request.t) (num_cached num_full : Z) : M t unit :=
  let id := Request.request_id request in
  req_blocks ← gets (fun m => default [] (req_to_blocks m !! id));
  _ ← get_hashes id;
  bs ← gets block_size;
  on_pool_and_hashes id
    (V1BlockPool.cache_full_blocks py_hash hash_none request req_blocks num_cached num_full bs).

(** The end of [allocate_slots]: cache the blocks that the appended tokens
    (speculated ones not counted) fill. *)
Definition cache_after_append (request : Request.t) (num_new_computed num_tokens : Z) : M t unit :=
  let id := Request.request_id request in
  num_cached_blocks ← gets (fun m => default num_new_computed (num_cached_block m !! id));
  bs ← gets block_size;
  let num_full_blocks_after_append :=
    (num_tokens - Z.of_nat (length (Request.spec_token_ids request))) / bs in
  cache_request_blocks request num_cached_blocks num_full_blocks_after_append ;;
  modify (fun m =>
    with_num_cached (<[id := num_full_blocks_after_append]> (num_cached_block m)) m).

Definition allocate_slots (request : Request.t) (num_tokens : Z)
    (new_computed_blocks : option (list Z)) : M t (option (list Z)) :=
  if num_tokens =? 0 then raise ValueError
  else
    let id := Request.request_id request in
    let new_computed_blocks := default [] new_computed_blocks in
    let num_new_computed := Z.of_nat (length new_computed_blocks) in
    bs ← gets block_size;
    let num_computed_tokens := Request.num_computed_tokens request + num_new_computed * bs in
    let num_required_blocks := cdiv (num_computed_tokens + num_tokens) bs in
    req_blocks ← get_blocks id;
    let num_new_blocks :=
      num_required_blocks - Z.of_nat (length req_blocks) - num_new_computed in
    pool ← gets block_pool;
    let num_evictable_computed_blocks :=
      Z.of_nat (length (filter (fun b => KVCacheBlock.ref_cnt (V1BlockPool.block pool b) = 0)
                          new_computed_blocks)) in
    if V1BlockPool.get_num_free_blocks pool - num_evictable_computed_blocks <? num_new_blocks
    then mret None
    else
      caching ← gets enable_caching;
      (if caching : bool then on_pool (V1BlockPool.touch new_computed_blocks)
       else assert_ (bool_decide (new_computed_blocks = []))) ;;
      extend_blocks id new_computed_blocks ;;
      new_blocks ← get_request_blocks id num_new_blocks;
      if negb caching then mret (Some new_blocks)
      else
        cache_after_append request num_new_computed (num_computed_tokens + num_tokens) ;;
        mret (Some new_blocks).
End Hash.

Definition free (request : Request.t) : M t unit :=
  let id := Request.request_id request in
  blocks ← gets (fun m => default [] (req_to_blocks m !! id));
  modify (fun m => with_blocks (delete id (req_to_blocks m)) m) ;;
  caching ← gets enable_caching;
  let ordered_blocks := if caching : bool then reverse blocks else blocks in
  on_pool (V1BlockPool.free_blocks ordered_blocks) ;;
  modify (fun m => with_num_cached (delete id (num_cached_block m)) m).

Definition reset_prefix_cache : M t bool :=
  ok ← on_pool V1BlockPool.reset_prefix_cache;
  if ok : bool then
    modify (fun m =>
      let s := prefix_cache_stats m in
      with_stats (PrefixCacheStats.Stats true (PrefixCacheStats.requests s)
        (PrefixCacheStats.queries s) (PrefixCacheStats.hits s)) m) ;;
    mret true
  else mret false.

(** The loop that counts the leading blocks held by every running request. *)
Fixpoint count_common (p : V1BlockPool.t) (num_running_requests : Z) (blocks : list Z) : Z :=
  match blocks with
  | [] => 0
  | b :: blocks =>
      if KVCacheBlock.ref_cnt (V1BlockPool.block p b) =? num_running_requests
      then 1 + count_common p num_running_requests blocks else 0
  end.

Definition get_num_common_prefix_blocks (request : Request.t) (num_running_requests : Z) :
    M t Z :=
  assert_ (bool_decide (Request.status request = RUNNING)) ;;
  blocks ← get_blocks (Request.request_id request);
  pool ← gets block_pool;
  mret (count_common pool num_running_requests blocks).

Definition free_block_hashes (request : Request.t) : M t unit :=
  modify (fun m => with_hashes (delete (Request.request_id request) (req_to_block_hashes m)) m).
End KVCacheManager.
