(* ===== verification/KVManagerCorrect.v ===== *)
(** * v1: the KV-cache manager keeps the pool's books

    [wf m l]: the manager's block tables and the pool agree.  The reference
    count of a block is the number of times it stands in a table, so the free
    queue [l] holds the blocks in no table, and a block in two tables carries a
    hash.  The first part shows that every call keeps [wf], whatever the request
    and whether the call returns or raises. *)
From S2P Require Import Prelude.
From S2P Require Import PyDict.
From S2P Require Import FreeQueue.
From S2P Require Import V1Request.
From S2P Require Import BlockHashing.
From S2P Require Import V1BlockPool.
From S2P Require Import V1PoolCorrect.
From S2P Require Import KVCacheManager.
Import KVCacheManager.

(** How often block [b] stands in the tables [tbl]. *)
Definition holders (tbl : gmap string (list Z)) (b : Z) : Z :=
  occurrences b (concat (map_to_list tbl).*2).

Lemma holders_fresh tbl id bs b :
  tbl !! id = None -> holders (<[id := bs]> tbl) b = holders tbl b + occurrences b bs.
Proof.
  intros Hid. unfold holders. transitivity (occurrences b (bs ++ concat (map_to_list tbl).*2)).
  - apply occurrences_perm. by rewrite map_to_list_insert by done.
  - rewrite occurrences_app. lia.
Qed.

Lemma holders_delete tbl id b :
  holders (delete id tbl) b = holders tbl b - occurrences b (default [] (tbl !! id)).
Proof.
  destruct (tbl !! id) as [bs|] eqn:E; cbn.
  - rewrite <- (insert_id tbl id bs E) at 2. rewrite <- (insert_delete_eq tbl id bs).
    rewrite holders_fresh by apply lookup_delete_eq. lia.
  - rewrite delete_id by done. change (occurrences b []) with 0. lia.
Qed.

Lemma holders_insert tbl id bs b :
  holders (<[id := bs]> tbl) b =
  holders tbl b - occurrences b (default [] (tbl !! id)) + occurrences b bs.
Proof.
  rewrite <- insert_delete_eq, holders_fresh by apply lookup_delete_eq.
  rewrite holders_delete. lia.
Qed.

Lemma holders_ge tbl id b : occurrences b (default [] (tbl !! id)) <= holders tbl b.
Proof.
  pose proof (holders_delete tbl id b).
  pose proof (occurrences_nonneg b (concat (map_to_list (delete id tbl)).*2)).
  unfold holders in *. lia.
Qed.

Lemma holders_empty b : holders ∅ b = 0.
Proof. unfold holders. by rewrite map_to_list_empty. Qed.

Lemma holders_zero tbl b :
  (forall id, b ∉ default [] (tbl !! id)) -> holders tbl b = 0.
Proof.
  intros H. unfold holders. apply occurrences_zero.
  rewrite list_elem_of_In, in_concat. intros (bs & Hbs & Hb).
  apply list_elem_of_In, list_elem_of_fmap in Hbs as ([id bs'] & -> & Hid).
  apply elem_of_map_to_list in Hid. apply (H id). rewrite Hid. by apply list_elem_of_In.
Qed.

(** The table of a request, [[]] when it has none. *)
Definition table (m : t) (id : string) : list Z := default [] (req_to_blocks m !! id).

Record wf (m : t) (l : list Z) : Prop := Wf {
  wf_pool : V1PoolCorrect.inv (block_pool m) l;
  wf_caching : V1BlockPool.enable_caching (block_pool m) = enable_caching m;
  wf_size : 0 < block_size m;
  wf_refs : forall b, ref (block_pool m) b = holders (req_to_blocks m) b;
  wf_range : forall id b, b ∈ table m id -> 0 <= b < V1BlockPool.num_gpu_blocks (block_pool m);
  wf_shared : forall b, 2 <= ref (block_pool m) b -> is_Some (V1PoolCorrect.hash (block_pool m) b);
}.

(** The fields that no call changes. *)
Record same_setup (m m' : t) : Prop := SameSetup {
  ss_size : block_size m' = block_size m;
  ss_len : max_model_len m' = max_model_len m;
  ss_max : max_num_blocks_per_req m' = max_num_blocks_per_req m;
  ss_caching : enable_caching m' = enable_caching m;
  ss_pre : num_preallocate_blocks m' = num_preallocate_blocks m;
  ss_num : V1BlockPool.num_gpu_blocks (block_pool m') =
           V1BlockPool.num_gpu_blocks (block_pool m);
}.

#[global] Instance same_setup_preorder : PreOrder same_setup.
Proof. split; [by intros m|]. intros m1 m2 m3 [] []. split; congruence. Qed.

(** [m'] differs from [m] in bookkeeping only: the tables mean the same. *)
Lemma wf_same m m' l :
  wf m l -> block_pool m' = block_pool m -> enable_caching m' = enable_caching m ->
  block_size m' = block_size m -> (forall id, table m' id = table m id) ->
  (forall b, holders (req_to_blocks m') b = holders (req_to_blocks m) b) -> wf m' l.
Proof.
  intros [Hp Hc Hs Hr Hg Hh] Hpool Hca Hsz Ht Hho.
  split; rewrite ?Hpool, ?Hca, ?Hsz; [done..| | |done].
  - intros b. by rewrite Hho.
  - intros id b. rewrite Ht. apply Hg.
Qed.

Lemma get_blocks_same m l id :
  wf m l ->
  let m' := with_blocks (<[id := table m id]> (req_to_blocks m)) m in
  get_blocks id m = (Ok (table m id), m') /\ wf m' l /\ same_setup m m' /\
  forall id', table m' id' = table m id'.
Proof.
  intros Hw m'.
  assert (Ht : forall id', table m' id' = table m id').
  { intros id'. unfold m', table; cbn. destruct (decide (id = id')) as [->|].
    - by rewrite lookup_insert_eq.
    - by rewrite lookup_insert_ne. }
  split_and!; [done| |done|done].
  apply (wf_same m); [done..|]. intros b. cbn. rewrite holders_insert.
  unfold table. lia.
Qed.

Lemma get_hashes_same m l id :
  wf m l -> exists m', get_hashes id m = (Ok (default [] (req_to_block_hashes m !! id)), m') /\
    m' = with_hashes (<[id := default [] (req_to_block_hashes m !! id)]> (req_to_block_hashes m)) m /\
    wf m' l /\ same_setup m m'.
Proof. intros Hw. eexists. split_and!; [done|done|by apply (wf_same m)|done]. Qed.

(** A pool [p'] with the same counts and at least the same hashes. *)
Lemma wf_with_pool m l p' l' :
  wf m l -> V1PoolCorrect.inv p' l' -> same_config (block_pool m) p' ->
  (forall b, ref p' b = ref (block_pool m) b) ->
  (forall b, is_Some (V1PoolCorrect.hash (block_pool m) b) -> is_Some (V1PoolCorrect.hash p' b)) ->
  wf (with_pool p' m) l'.
Proof.
  intros [Hp Hc Hs Hr Hg Hh] Hi [Hn Hca] Href Hhash. split; cbn; try done.
  - by rewrite Hca.
  - intros b. by rewrite Href.
  - intros id b. rewrite Hn. apply Hg.
  - intros b. rewrite Href. auto.
Qed.

(** ** [free] *)

Lemma manager_free_ok m l r :
  wf m l ->
  let id := Request.request_id r in
  let bs := if enable_caching m then reverse (table m id) else table m id in
  exists m', free r m = (Ok tt, m') /\
    wf m' (l ++ freed (ref (block_pool m)) bs) /\ same_setup m m' /\
    req_to_blocks m' = delete id (req_to_blocks m) /\
    req_to_block_hashes m' = req_to_block_hashes m /\
    num_cached_block m' = delete id (num_cached_block m) /\
    (forall b, V1PoolCorrect.hash (block_pool m') b = V1PoolCorrect.hash (block_pool m) b).
Proof.
  intros Hw id bs. unfold free. fold id.
  rewrite bind_run. cbn [gets]. rewrite bind_run. cbn [modify].
  rewrite bind_run. cbn [gets]. cbn [enable_caching with_blocks].
  change (default [] (req_to_blocks m !! id)) with (table m id). fold bs.
  set (m1 := with_blocks (delete id (req_to_blocks m)) m).
  assert (Hocc : forall b, occurrences b bs = occurrences b (table m id)).
  { intros b. unfold bs. destruct (enable_caching m); [|done].
    apply occurrences_perm, reverse_Permutation. }
  assert (Hin : forall b, b ∈ bs -> b ∈ table m id).
  { intros b. unfold bs. destruct (enable_caching m); [|done]. by rewrite elem_of_reverse. }
  destruct (free_blocks_ok (block_pool m) l bs (wf_pool _ _ Hw)) as
    (p' & Hrun & Hi & Hcfg & Hcache & Href).
  { intros b Hb. eapply wf_range; [done|]. by apply Hin. }
  { intros b. rewrite Hocc, (wf_refs _ _ Hw). apply holders_ge. }
  rewrite (bind_step _ _ m1 tt (with_pool p' m1)) by (unfold on_pool; cbn; by rewrite Hrun).
  eexists. split; [reflexivity|]. split_and!; try done.
  2:{ split; cbn; try done. apply Hcfg. }
  2:{ intros b. cbn. apply (same_hash _ _ Hcache). }
  destruct Hw as [Hp Hc Hs Hr Hg Hh]. destruct Hcfg as [Hn Hca]. split; cbn.
  - done.
  - by rewrite Hca.
  - done.
  - intros b. rewrite Href, Hr, Hocc, holders_delete. done.
  - intros id' b. unfold table; cbn. rewrite Hn. destruct (decide (id = id')) as [<-|].
    + rewrite lookup_delete_eq. cbn. by intros ?%not_elem_of_nil.
    + rewrite lookup_delete_ne by done. apply Hg.
  - intros b. rewrite Href, (same_hash _ _ Hcache). intros H. apply Hh.
    pose proof (occurrences_nonneg b bs). lia.
Qed.

(** ** [reset_prefix_cache] *)

Lemma all_free m l b :
  wf m l -> V1BlockPool.num_gpu_blocks (block_pool m) <= Z.of_nat (length l) ->
  holders (req_to_blocks m) b = 0.
Proof.
  intros Hw Hlen. set (n := V1BlockPool.num_gpu_blocks (block_pool m)) in *.
  assert (Hperm : l ≡ₚ seqZ 0 n).
  { apply submseteq_length_Permutation.
    - apply NoDup_submseteq; [apply (FreeQueue.repr_nodup _ _ (inv_queue _ _ (wf_pool _ _ Hw)))|].
      intros c Hc. apply elem_of_seqZ.
      pose proof (inv_range _ _ (wf_pool _ _ Hw) c Hc). lia.
    - rewrite length_seqZ. lia. }
  rewrite <- (wf_refs _ _ Hw).
  destruct (decide (0 <= b < n)) as [Hb|Hb].
  - apply (inv_free _ _ (wf_pool _ _ Hw) b Hb). rewrite Hperm. apply elem_of_seqZ. lia.
  - rewrite (wf_refs _ _ Hw). apply holders_zero. intros id Hin.
    pose proof (wf_range _ _ Hw id b Hin). done.
Qed.

Lemma reset_ok m l :
  wf m l ->
  exists ok m', reset_prefix_cache m = (Ok ok, m') /\ wf m' l /\ same_setup m m' /\
    req_to_blocks m' = req_to_blocks m /\ req_to_block_hashes m' = req_to_block_hashes m /\
    num_cached_block m' = num_cached_block m /\
    if ok then (forall b, V1PoolCorrect.hash (block_pool m') b = None) /\
               (forall id, table m id = [])
    else m' = m.
Proof.
  intros Hw. unfold reset_prefix_cache.
  pose proof (pool_reset_ok _ _ (wf_pool _ _ Hw)) as Hr. case_decide as Hlt.
  - exists false, m. rewrite (bind_step _ _ m false m).
    2:{ unfold on_pool. rewrite Hr. by destruct m. }
    by split_and!.
  - destruct Hr as (p' & Hrun & Hi & Hcfg & Href & Hnone & _).
    exists true. eexists. rewrite (bind_step _ _ m true (with_pool p' m)).
    2:{ unfold on_pool. by rewrite Hrun. }
    split; [reflexivity|].
    assert (Hz : forall b, holders (req_to_blocks m) b = 0) by (intros b; apply (all_free m l); [done|lia]).
    assert (Hwp : wf (with_pool p' m) l).
    { destruct Hw as [Hp Hc Hs Hrf Hg Hh]. destruct Hcfg as [Hn Hca]. split; cbn; try done.
      - by rewrite Hca.
      - intros b. by rewrite Href.
      - intros id b. rewrite Hn. apply Hg.
      - intros b. rewrite Href, Hrf, Hz. lia. }
    split_and!; try done.
    + by apply (wf_same (with_pool p' m)).
    + split; cbn; try done. apply Hcfg.
    + intros id. destruct (table m id) as [|b bs] eqn:E; [done|].
      pose proof (holders_ge (req_to_blocks m) id b) as H. fold (table m id) in H.
      rewrite Hz, E, occurrences_cons, decide_True in H by done.
      pose proof (occurrences_nonneg b bs). lia.
Qed.

(** ** [get_computed_blocks] *)

(** The blocks found carry the first hashes of the list, and when they stop
    short no block carries the next one. *)
Record found (p : V1BlockPool.t) (hs : list BlockHashType) (bs : list Z) : Prop := Found {
  found_hash : forall i b, bs !! i = Some b ->
    exists h, hs !! i = Some h /\ V1PoolCorrect.hash p b = Some h;
  found_most : forall h, hs !! length bs = Some h ->
    forall b, V1PoolCorrect.hash p b <> Some h;
}.

Lemma find_computed_ok p hs :
  cache_ok p -> exists bs, find_computed p hs = Ok bs /\ found p hs bs.
Proof.
  intros Hok. induction hs as [|h hs (bs & IH & [Hh Hm])].
  { exists []. split; [done|]. split; [intros i b; by rewrite lookup_nil|done]. }
  cbn [find_computed]. destruct (get_cached_block_ok p h Hok) as (o & -> & Ho).
  cbn [mbind result_bind]. destruct o as [b|].
  - rewrite IH. exists (b :: bs). split; [done|]. split; [|done].
    intros [|i] c; cbn; [intros [= <-]; eauto|apply Hh].
  - exists []. split; [done|]. split; [intros i b; by rewrite lookup_nil|].
    cbn. by intros h' [= <-].
Qed.

Section Hash.
Context (py_hash : Z * list Z * option (list extra_key) -> Z) (hash_none : Z).

(** The tables, the pool and the cached counts are as before. *)
Record looked_up (m m' : t) : Prop := LookedUp {
  lu_pool : block_pool m' = block_pool m;
  lu_blocks : req_to_blocks m' = req_to_blocks m;
  lu_cached : num_cached_block m' = num_cached_block m;
  lu_setup : same_setup m m';
}.

Lemma looked_up_wf m m' l : wf m l -> looked_up m m' -> wf m' l.
Proof.
  intros Hw [Hp Hb _ [Hs _ _ Hc _ _]]. apply (wf_same m); [done..| |].
  - intros id. unfold table. by rewrite Hb.
  - intros b. by rewrite Hb.
Qed.

#[global] Instance looked_up_preorder : PreOrder looked_up.
Proof.
  split; [by intros m|]. intros m1 m2 m3 [] []. split; [congruence..|]. by etransitivity.
Qed.

Lemma get_computed_blocks_frame r m res m' :
  get_computed_blocks py_hash hash_none r m = (res, m') -> looked_up m m'.
Proof.
  unfold get_computed_blocks. rewrite bind_run. cbn [gets].
  destruct (enable_caching m); cbn [negb]; [|by intros [= _ <-]].
  cbv zeta. rewrite bind_run. cbn [get_hashes]. set (hs := default [] _).
  set (m1 := with_hashes _ m). assert (H1 : looked_up m m1) by done.
  rewrite bind_run. cbn [gets]. rewrite bind_run.
  assert (Hk : exists rh m2,
    match hs with
    | [] => hs ← lift (BlockHashing.hash_request_tokens py_hash hash_none (block_size m1) r);
            modify (fun m => with_hashes (<[Request.request_id r := hs]> (req_to_block_hashes m)) m) ;;
            mret hs
    | _ => mret hs
    end m1 = (rh, m2) /\ looked_up m1 m2).
  { destruct hs; [|by eexists _, _]. rewrite bind_run.
    destruct (BlockHashing.hash_request_tokens _ _ _ _); cbn; by eexists _, _. }
  destruct Hk as (rh & m2 & -> & H2). destruct rh as [hs'|e].
  2:{ intros [= _ <-]. by transitivity m1. }
  rewrite bind_run. cbn [modify]. set (m3 := with_stats _ m2).
  assert (H3 : looked_up m m3) by (transitivity m1; [done|]; transitivity m2; done).
  destruct (prompt_logprobs _); [by intros [= _ <-]|].
  rewrite bind_run. cbn [gets]. rewrite bind_run.
  destruct (find_computed _ hs') as [cb|e]; cbn; intros [= _ <-]; [|done].
  by transitivity m3.
Qed.

(** ** [allocate_slots] *)

Lemma on_pool_step {A B} (f : M V1BlockPool.t A) (g : A -> M t B) m a p' :
  f (block_pool m) = (Ok a, p') -> (on_pool f ≫= g) m = g a (with_pool p' m).
Proof. intros H. unfold on_pool. rewrite bind_run. by rewrite H. Qed.

Lemma table_insert (tbl : gmap string (list Z)) id bs id' :
  default [] (<[id := bs]> tbl !! id') = if decide (id = id') then bs else default [] (tbl !! id').
Proof.
  destruct (decide (id = id')) as [->|].
  - by rewrite lookup_insert_eq.
  - by rewrite lookup_insert_ne.
Qed.

(** Putting blocks [bs] of the pool [p'], whose counts went up by them, at the
    end of a table. *)
Lemma wf_extend m l p' l' id bs :
  wf m l -> V1PoolCorrect.inv p' l' -> same_config (block_pool m) p' ->
  (forall b, ref p' b = ref (block_pool m) b + occurrences b bs) ->
  (forall b, b ∈ bs -> 0 <= b < V1BlockPool.num_gpu_blocks (block_pool m)) ->
  (forall b, 2 <= ref p' b -> is_Some (V1PoolCorrect.hash p' b)) ->
  let m' := with_blocks (<[id := table m id ++ bs]> (req_to_blocks m)) (with_pool p' m) in
  wf m' l' /\ same_setup m m' /\
  forall id', table m' id' = if decide (id = id') then table m id ++ bs else table m id'.
Proof.
  intros [Hp Hc Hs Hr Hg Hh] Hi [Hn Hca] Href Hrange Hshared m'.
  assert (Ht : forall id', table m' id' =
                 if decide (id = id') then table m id ++ bs else table m id')
    by (intros id'; apply table_insert).
  split_and!; [|done|exact Ht]. split; cbn; try done.
  - by rewrite Hca.
  - intros b. rewrite Href, Hr, holders_insert, occurrences_app. unfold table. lia.
  - intros id' b. rewrite Ht, Hn. case_decide; [|apply Hg].
    intros [?|?]%elem_of_app; [by eapply Hg|by apply Hrange].
Qed.

(** The cached blocks handed to [allocate_slots]. *)
Definition hits (m : t) (cb : list Z) : Prop :=
  forall b, b ∈ cb -> is_Some (V1PoolCorrect.hash (block_pool m) b).

Lemma take_computed_ok m l id cb :
  wf m l -> hits m cb -> enable_caching m = true ->
  exists m', (on_pool (V1BlockPool.touch cb) ;; extend_blocks id cb) m = (Ok tt, m') /\
    wf m' (filter (fun b => b ∉ cb) l) /\ same_setup m m' /\
    (forall id', table m' id' = if decide (id = id') then table m id ++ cb else table m id') /\
    req_to_block_hashes m' = req_to_block_hashes m /\ num_cached_block m' = num_cached_block m /\
    (forall b, V1PoolCorrect.hash (block_pool m') b = V1PoolCorrect.hash (block_pool m) b).
Proof.
  intros Hw Hhit Hca.
  destruct (touch_ok (block_pool m) l cb (wf_pool _ _ Hw)) as (p' & Hrun & Hi & Hcfg & Hcache & Href).
  { intros b Hb. apply (ok_range _ (inv_cache _ _ (wf_pool _ _ Hw))). by apply Hhit. }
  rewrite (on_pool_step _ _ _ _ _ Hrun).
  destruct (wf_extend m l p' _ id cb Hw Hi Hcfg Href) as (Hw' & Hss & Ht).
  { intros b Hb. apply (ok_range _ (inv_cache _ _ (wf_pool _ _ Hw))). by apply Hhit. }
  { intros b. rewrite Href, (same_hash _ _ Hcache). intros H2.
    destruct (decide (b ∈ cb)) as [Hb|Hb]; [by apply Hhit|].
    apply (wf_shared _ _ Hw). apply occurrences_zero in Hb. lia. }
  eexists. split; [reflexivity|]. split_and!; try done.
  exact (same_hash _ _ Hcache).
Qed.

(** How many blocks [get_request_blocks] takes when [free] are free. *)
Definition to_take (m : t) (id : string) (num free : Z) : Z :=
  Z.min (Z.min (num + num_preallocate_blocks m) free)
        (max_num_blocks_per_req m - Z.of_nat (length (table m id))).

Lemma get_request_blocks_ok m l id num :
  wf m l ->
  let k := Z.to_nat (to_take m id num (Z.of_nat (length l))) in
  if decide (num <= 0) then get_request_blocks id num m = (Ok [], m)
  else if decide (k = O) then get_request_blocks id num m = (Err AssertionError, m)
  else exists m', get_request_blocks id num m = (Ok (take k l), m') /\
    wf m' (drop k l) /\ same_setup m m' /\
    (forall id', table m' id' = if decide (id = id') then table m id ++ take k l else table m id') /\
    req_to_block_hashes m' = req_to_block_hashes m /\ num_cached_block m' = num_cached_block m /\
    (forall b, V1PoolCorrect.hash (block_pool m') b =
       if decide (enable_caching m = true /\ b ∈ take k l) then None
       else V1PoolCorrect.hash (block_pool m) b).
Proof.
  intros Hw k. unfold get_request_blocks. case_decide as Hnum.
  { by rewrite (proj2 (Z.leb_le _ _)) by lia. }
  rewrite (proj2 (Z.leb_gt _ _)) by lia. rewrite bind_run. cbn [get].
  rewrite (get_num_free_ok _ _ (wf_pool _ _ Hw)).
  change (default [] (req_to_blocks m !! id)) with (table m id).
  fold (to_take m id num (Z.of_nat (length l))). set (n := to_take m id num _) in *.
  case_decide as Hk.
  { rewrite (proj2 (Z.ltb_ge _ _)) by lia. done. }
  rewrite (proj2 (Z.ltb_lt _ _)) by lia. rewrite (bind_step _ _ m tt m) by done.
  pose proof (get_new_blocks_ok _ _ n (wf_pool _ _ Hw) ltac:(lia)) as Hg.
  rewrite decide_True in Hg by (unfold n, to_take; lia). cbv zeta in Hg. fold k in Hg.
  destruct Hg as (p' & Hrun & Hi & Hcfg & Href & Hhash).
  rewrite (on_pool_step _ _ _ _ _ Hrun).
  destruct (wf_extend m l p' _ id (take k l) Hw Hi Hcfg Href) as (Hw' & Hss & Ht).
  { intros b Hb. apply (inv_range _ _ (wf_pool _ _ Hw)). eapply elem_of_sublist; [exact Hb|apply sublist_take]. }
  { intros b H2. rewrite Hhash. rewrite Href in H2.
    destruct (decide (b ∈ take k l)) as [Hb|Hb].
    - exfalso. assert (Hnd : NoDup (take k l)).
      { eapply sublist_NoDup; [|apply sublist_take].
        apply (FreeQueue.repr_nodup _ _ (inv_queue _ _ (wf_pool _ _ Hw))). }
      rewrite occurrences_nodup in H2 by done.
      assert (Hbl : b ∈ l) by (eapply elem_of_sublist; [exact Hb|apply sublist_take]).
      pose proof (inv_range _ _ (wf_pool _ _ Hw) b Hbl) as Hbr.
      apply (inv_free _ _ (wf_pool _ _ Hw) b Hbr) in Hbl. lia.
    - rewrite decide_False by tauto. apply (wf_shared _ _ Hw).
      apply occurrences_zero in Hb. lia. }
  eexists. split; [reflexivity|]. split_and!; try done.
  intros b. cbn. rewrite Hhash, (wf_caching _ _ Hw). done.
Qed.

(** Caching changes hashes only, and no block loses one. *)
Record cached_more (m m' : t) : Prop := CachedMore {
  cm_blocks : forall id, table m' id = table m id;
  cm_setup : same_setup m m';
  cm_keep : forall b h, V1PoolCorrect.hash (block_pool m) b = Some h ->
    V1PoolCorrect.hash (block_pool m') b = Some h;
}.

Lemma cache_request_blocks_frame r k n m l res m' :
  wf m l -> cache_request_blocks py_hash hash_none r k n m = (res, m') ->
  wf m' l /\ cached_more m m' /\ num_cached_block m' = num_cached_block m.
Proof.
  intros Hw. unfold cache_request_blocks. cbv zeta. rewrite bind_run. cbn [gets].
  change (default [] (req_to_blocks m !! Request.request_id r))
    with (table m (Request.request_id r)). set (id := Request.request_id r).
  destruct (get_hashes_same m l id Hw) as (m1 & Hg & -> & Hw1 & Hs1).
  rewrite (bind_step _ _ _ _ _ Hg). set (m1 := with_hashes _ m) in *.
  rewrite bind_run. cbn [gets]. unfold on_pool_and_hashes.
  destruct (V1BlockPool.cache_full_blocks _ _ _ _ _ _ _ _) as [rr [p' hs']] eqn:E.
  intros [= _ <-].
  apply cache_full_blocks_frame in E as [Hok' [Hcfg Href Hh Hkeep Hq]].
  2:{ apply Hw. }
  2:{ intros b Hb. by apply (wf_range _ _ Hw id). }
  split_and!; [|split; [done| |done]; split; cbn; done || apply Hcfg|done].
  assert (Hi : V1PoolCorrect.inv p' l).
  { pose proof (wf_pool _ _ Hw) as Hp. apply (inv_transfer (block_pool m) l); try done.
    - apply Hq, Hp.
    - intros b. rewrite Href. apply (inv_ref _ _ Hp).
    - apply (inv_range _ _ Hp).
    - intros b Hb. rewrite Href. by apply (inv_free _ _ Hp). }
  apply (wf_same (with_pool p' m)); try done.
  apply (wf_with_pool m l); try done. intros b [h Hb]. exists h. by apply Hkeep.
Qed.

Lemma cache_after_append_frame r nc n m l res m' :
  wf m l -> cache_after_append py_hash hash_none r nc n m = (res, m') ->
  wf m' l /\ cached_more m m'.
Proof.
  intros Hw. unfold cache_after_append. cbv zeta. rewrite bind_run. cbn [gets].
  rewrite bind_run. cbn [gets]. rewrite bind_run.
  destruct (cache_request_blocks _ _ _ _ _ _) as [rr m1] eqn:E.
  destruct (cache_request_blocks_frame _ _ _ _ _ _ _ Hw E) as (Hw1 & Hc1 & _).
  destruct rr as [[]|e]; cbn [modify].
  - intros [= _ <-]. split; [by apply (wf_same m1)|]. destruct Hc1 as [? [] ?]. by split.
  - by intros [= _ <-].
Qed.

(** The state in which [allocate_slots] has taken all blocks it needs: the
    computed blocks [cb] and [k] new ones from the front of the queue. *)
Record taken (m : t) (l : list Z) (id : string) (cb new : list Z) (m' : t) (l' : list Z) :
    Prop := Taken {
  tk_wf : wf m' l';
  tk_setup : same_setup m m';
  tk_table : forall id', table m' id' =
    if decide (id = id') then table m id ++ cb ++ new else table m id';
  tk_queue : filter (fun b => b ∉ cb) l = new ++ l';
  tk_hashes : req_to_block_hashes m' = req_to_block_hashes m;
  tk_cached : num_cached_block m' = num_cached_block m;
  tk_hash : forall b, V1PoolCorrect.hash (block_pool m') b =
    if decide (enable_caching m = true /\ b ∈ new) then None
    else V1PoolCorrect.hash (block_pool m) b;
}.

(** The free blocks among [cb], which cannot serve as new blocks. *)
Definition evictable (m : t) (cb : list Z) : Z :=
  Z.of_nat (length (filter (fun b => ref (block_pool m) b = 0) cb)).

(** [allocate_slots] in terms of the numbers it computes. *)
Section Allocate.
Context (m : t) (l : list Z) (r : Request.t) (num_tokens : Z) (oc : option (list Z)).
Let id := Request.request_id r.
Let cb := default [] oc.

Definition total_tokens : Z :=
  Request.num_computed_tokens r + Z.of_nat (length cb) * block_size m + num_tokens.
Definition new_needed : Z :=
  cdiv total_tokens (block_size m) - Z.of_nat (length (table m id)) - Z.of_nat (length cb).

Lemma allocate_slots_cases :
  wf m l -> hits m cb -> (enable_caching m = false -> cb = []) -> num_tokens <> 0 ->
  let run := allocate_slots py_hash hash_none r num_tokens oc m in
  let l1 := filter (fun b => b ∉ cb) l in
  let k := Z.to_nat (Z.min (Z.min (new_needed + num_preallocate_blocks m) (Z.of_nat (length l1)))
                       (max_num_blocks_per_req m -
                        Z.of_nat (length (table m id ++ cb)))) in
  if decide (Z.of_nat (length l) - evictable m cb < new_needed)
  then exists m', run = (Ok None, m') /\ wf m' l /\ same_setup m m' /\
         (forall id', table m' id' = table m id') /\
         req_to_block_hashes m' = req_to_block_hashes m /\
         num_cached_block m' = num_cached_block m /\ block_pool m' = block_pool m
  else if decide (0 < new_needed /\ k = O) then
    exists m', run = (Err AssertionError, m') /\ wf m' l1 /\ same_setup m m'
  else
    let new := if decide (new_needed <= 0) then [] else take k l1 in
    exists m1, taken m l id cb new m1 (drop (length new) l1) /\
      run = (if enable_caching m
             then cache_after_append py_hash hash_none r (Z.of_nat (length cb)) total_tokens ;;
                  mret (Some new)
             else mret (Some new)) m1.
Proof.
  intros Hw Hhit Hnoc Hn. cbv zeta. unfold allocate_slots.
  rewrite (proj2 (Z.eqb_neq _ _)) by done. fold cb id.
  rewrite bind_run. cbn [gets].
  destruct (get_blocks_same m l id Hw) as (Hgb & Hw0 & Hss0 & Ht0).
  rewrite (bind_step _ _ _ _ _ Hgb). set (m0 := with_blocks _ m) in *.
  rewrite bind_run. cbn [gets]. change (block_pool m0) with (block_pool m).
  rewrite (get_num_free_ok _ _ (wf_pool _ _ Hw)). fold (evictable m cb).
  fold total_tokens. fold new_needed.
  case_decide as Hfull.
  { rewrite (proj2 (Z.ltb_lt _ new_needed)) by done. exists m0. by split_and!. }
  rewrite (proj2 (Z.ltb_ge _ new_needed)) by (apply Z.nlt_ge; exact Hfull).
  rewrite bind_run. cbn [gets].
  change (enable_caching m0) with (enable_caching m).
  assert (Htake : exists m1,
    (forall A (g : unit -> M t A),
      ((if enable_caching m then on_pool (V1BlockPool.touch cb)
        else assert_ (bool_decide (cb = []))) ≫= fun _ => extend_blocks id cb ≫= g) m0 = g tt m1) /\
    wf m1 (filter (fun b => b ∉ cb) l) /\ same_setup m m1 /\
    (forall id', table m1 id' = if decide (id = id') then table m id ++ cb else table m id') /\
    req_to_block_hashes m1 = req_to_block_hashes m /\ num_cached_block m1 = num_cached_block m /\
    (forall b, V1PoolCorrect.hash (block_pool m1) b = V1PoolCorrect.hash (block_pool m) b)).
  { destruct (enable_caching m) eqn:Hca.
    - destruct (take_computed_ok m0 l id cb Hw0 Hhit Hca) as
        (m1 & Hrun & Hw1 & Hss1 & Ht1 & Hh1 & Hn1 & Hha1).
      exists m1. split_and!; [|done|by transitivity m0| |done..].
      + intros A g. rewrite bind_run in Hrun. rewrite bind_run.
        destruct (on_pool (V1BlockPool.touch cb) m0) as [[[]|e] m'] eqn:E; [|done].
        by rewrite (bind_step _ _ _ _ _ Hrun).
      + intros id'. rewrite Ht1, !Ht0. done.
    - rewrite (Hnoc eq_refl). cbn [bool_decide decide_rel]. rewrite filter_id
        by (intros; apply not_elem_of_nil).
      exists (with_blocks (<[id := table m id ++ []]> (req_to_blocks m0)) m0).
      assert (Ht1 : forall id', default [] (<[id := table m id ++ []]> (req_to_blocks m0) !! id') =
        if decide (id = id') then table m id ++ [] else table m id').
      { intros id'. rewrite table_insert. case_decide; [done|]. apply Ht0. }
      split_and!; try done.
      + intros A g. rewrite bind_run. cbn. rewrite bind_run. cbn.
        change (default [] (<[id:=table m id]> (req_to_blocks m) !! id)) with (table m0 id).
        by rewrite Ht0.
      + apply (wf_same m0); [done..| |].
        * intros id'. unfold table at 1. cbn. rewrite Ht1, Ht0, app_nil_r. by case_decide; subst.
        * intros b. cbn. rewrite holders_insert, app_nil_r.
          change (default [] (<[id:=table m id]> (req_to_blocks m) !! id)) with (table m0 id).
          rewrite Ht0. cbn. lia. }
  destruct Htake as (m1 & Hstep & Hw1 & Hss1 & Ht1 & Hh1 & Hn1 & Hha1).
  rewrite Hstep. clear Hstep. rewrite bind_run.
  pose proof (get_request_blocks_ok m1 _ id new_needed Hw1) as Hreq. cbv zeta in Hreq.
  assert (Hid : table m1 id = table m id ++ cb) by (by rewrite Ht1, decide_True).
  unfold to_take in Hreq. rewrite Hid in Hreq.
  rewrite (ss_pre _ _ Hss1), (ss_max _ _ Hss1) in Hreq.
  set (l1 := filter (fun b => b ∉ cb) l) in *.
  set (k := Z.to_nat _) in *.
  destruct (decide (new_needed <= 0)) as [Hle|Hle].
  { rewrite Hreq. rewrite decide_False by lia. exists m1. split.
    - split; try done.
      + intros id'. rewrite app_nil_r. apply Ht1.
      + intros b. rewrite decide_False; [apply Hha1|]. by intros [_ ?%not_elem_of_nil].
    - by destruct (enable_caching m). }
  destruct (decide (k = O)) as [Hk|Hk].
  { rewrite Hreq, decide_True by lia. eauto. }
  rewrite decide_False by lia. destruct Hreq as (m2 & -> & Hw2 & Hss2 & Ht2 & Hh2 & Hn2 & Hha2).
  assert (Hlen : (length (take k l1) = k)%nat) by (rewrite length_take; unfold k; lia).
  rewrite Hlen. exists m2. split; [|by destruct (enable_caching m)]. split.
  - done.
  - by transitivity m1.
  - intros id'. rewrite Ht2, Ht1.
    destruct (decide (id = id')); [by rewrite app_assoc|done].
  - by rewrite take_drop.
  - congruence.
  - congruence.
  - intros b. rewrite Hha2, (ss_caching _ _ Hss1), Hha1. done.
Qed.
End Allocate.
End Hash.

(** ** Every call keeps the books *)

Section Reach.
Context (py_hash : Z * list Z * option (list extra_key) -> Z) (hash_none : Z).

(** A call of a method, on any request and with any outcome.  The computed
    blocks passed to [allocate_slots] are cached ones, as
    [get_computed_blocks] returns, and none when caching is off. *)
Inductive call : t -> t -> Prop :=
  | call_computed m r res m' :
      get_computed_blocks py_hash hash_none r m = (res, m') -> call m m'
  | call_allocate m r n oc res m' :
      hits m (default [] oc) -> (enable_caching m = false -> default [] oc = []) ->
      allocate_slots py_hash hash_none r n oc m = (res, m') -> call m m'
  | call_free m r res m' : free r m = (res, m') -> call m m'
  | call_reset m res m' : reset_prefix_cache m = (res, m') -> call m m'
  | call_common m r n res m' : get_num_common_prefix_blocks r n m = (res, m') -> call m m'
  | call_stats m res m' : make_prefix_cache_stats m = (res, m') -> call m m'
  | call_free_hashes m r res m' : free_block_hashes r m = (res, m') -> call m m'.

Definition reached (m : t) : Prop :=
  exists bs n len caching pre m0, 0 < bs /\ (0 < n)%nat /\
    init bs n len caching pre = Ok m0 /\ rtc call m0 m.

Lemma manager_init_wf bs n len caching pre :
  0 < bs -> (0 < n)%nat ->
  exists m, init bs n len caching pre = Ok m /\ wf m (seqZ 0 (Z.of_nat n)).
Proof.
  intros Hbs Hn. unfold init. rewrite (proj2 (Z.eqb_neq _ _)) by lia.
  destruct (pool_init_ok n caching Hn) as (p & -> & Hi & Hnum & Hca & Href & Hhash).
  eexists. split; [reflexivity|]. split; try done.
  - intros id b. unfold table; cbn. rewrite lookup_empty. by intros ?%not_elem_of_nil.
  - intros b H2. specialize (Href b). cbn [block_pool] in H2. lia.
Qed.

Lemma allocate_slots_wf m l r n oc res m' :
  wf m l -> hits m (default [] oc) -> (enable_caching m = false -> default [] oc = []) ->
  allocate_slots py_hash hash_none r n oc m = (res, m') -> exists l', wf m' l'.
Proof.
  intros Hw Hhit Hnoc Hrun. destruct (decide (n = 0)) as [->|Hn].
  { cbn in Hrun. injection Hrun as _ <-. eauto. }
  pose proof (allocate_slots_cases py_hash hash_none m l r n oc Hw Hhit Hnoc Hn) as Hc.
  cbv zeta in Hc. rewrite Hrun in Hc. case_decide as H1.
  { destruct Hc as (m1 & [= _ <-] & Hw1 & _). eauto. }
  case_decide as H2.
  { destruct Hc as (m1 & [= _ <-] & Hw1 & _). eauto. }
  destruct Hc as (m1 & Ht & Hr). apply tk_wf in Ht.
  destruct (enable_caching m); [|injection Hr as _ ->; eauto].
  rewrite bind_run in Hr.
  destruct (cache_after_append _ _ _ _ _ _) as [rr m2] eqn:E.
  destruct (cache_after_append_frame _ _ _ _ _ _ _ _ _ Ht E) as (Hw2 & _).
  destruct rr; injection Hr as _ ->; eauto.
Qed.

Lemma call_wf m l m' : wf m l -> call m m' -> exists l', wf m' l'.
Proof.
  intros Hw Hc. destruct Hc as [m r res m' H|m r n oc res m' Hh Hn H|m r res m' H|m res m' H
    |m r n res m' H|m res m' H|m r res m' H].
  - exists l. eapply looked_up_wf, get_computed_blocks_frame; done.
  - by eapply allocate_slots_wf.
  - destruct (manager_free_ok m l r Hw) as (m1 & Hf & Hw1 & _). rewrite Hf in H.
    injection H as _ <-. eauto.
  - destruct (reset_ok m l Hw) as (ok & m1 & Hf & Hw1 & _). rewrite Hf in H.
    injection H as _ <-. eauto.
  - exists l. unfold get_num_common_prefix_blocks in H.
    destruct (bool_decide _); [|by injection H as _ <-].
    rewrite (bind_step _ _ m tt m) in H by done.
    destruct (get_blocks_same m l (Request.request_id r) Hw) as (Hg & Hw1 & _).
    rewrite (bind_step _ _ _ _ _ Hg) in H. by injection H as _ <-.
  - exists l. injection H as _ <-. by apply (wf_same m).
  - exists l. injection H as _ <-. by apply (wf_same m).
Qed.

Lemma reached_wf m : reached m -> exists l, wf m l.
Proof.
  intros (bs & n & len & caching & pre & m0 & Hbs & Hn & Hinit & Hsteps).
  destruct (manager_init_wf bs n len caching pre Hbs Hn) as (m1 & Hinit' & Hw).
  rewrite Hinit in Hinit'. injection Hinit' as <-. revert Hw.
  generalize (seqZ 0 (Z.of_nat n)). clear Hinit.
  induction Hsteps as [m|m m' m'' Hc _ IH]; intros l Hw; [eauto|].
  destruct (call_wf _ _ _ Hw Hc) as (l' & Hw'). by apply (IH l').
Qed.

(** C13. No block is lost, used twice or leaked, whatever sequence of calls the
    manager has seen and whether they returned or raised: a block's reference
    count is the number of times it stands in the requests' tables; the queue of
    free blocks lists without repetition exactly the blocks of the pool in no
    table; the tables hold blocks of the pool only; and a block that stands in
    two places is a cached one. *)
Theorem blocks_accounted m :
  reached m ->
  let pool := block_pool m in
  let tbl := req_to_blocks m in
  exists l, FreeQueue.get_all_free_blocks (length l) (V1BlockPool.free_block_queue pool) = Ok l /\
    NoDup l /\ V1BlockPool.get_num_free_blocks pool = Z.of_nat (length l) /\
    (forall b, KVCacheBlock.ref_cnt (V1BlockPool.block pool b) = holders tbl b) /\
    (forall b, 0 <= b < V1BlockPool.num_gpu_blocks pool -> b ∈ l <-> holders tbl b = 0) /\
    (forall id b, b ∈ default [] (tbl !! id) -> 0 <= b < V1BlockPool.num_gpu_blocks pool) /\
    (forall b, 2 <= holders tbl b ->
       is_Some (KVCacheBlock.block_hash (V1BlockPool.block pool b))).
Proof.
  intros (l & [Hp Hca Hs Hr Hg Hh])%reached_wf pool tbl. exists l. split_and!.
  - apply FreeQueue.get_all_free_blocks_repr; [apply Hp|done].
  - apply (FreeQueue.repr_nodup _ _ (inv_queue _ _ Hp)).
  - by apply get_num_free_ok.
  - exact Hr.
  - intros b Hb. unfold tbl. rewrite <- Hr. by apply (inv_free _ _ Hp).
  - exact Hg.
  - intros b. unfold tbl. rewrite <- Hr. apply Hh.
Qed.
End Reach.

(** ** A sample run: 4 blocks of 2 tokens, sequences of at most 8 tokens *)

Definition sample_hash (x : Z * list Z * option (list extra_key)) : Z :=
  let '(p, ts, ek) := x in
  foldl (fun a t => a * 31 + t + 1) (p * 7 + Z.of_nat (length (default [] ek))) ts.

Definition sample_params : SamplingParams := Sampling false (Some 10) None None false [].

Definition sample_request (id : string) (tokens : list Z) : Request.t :=
  Request.Request id sample_params None None true WAITING [] None 10 tokens
    (Z.of_nat (length tokens)) [] tokens [] 0 [] [] [].

Definition sample_a : Request.t := sample_request "a" [1; 2; 3; 4; 5].
Definition sample_b : Request.t := sample_request "b" [1; 2; 3; 4; 9; 9].

(** Blocks of 2 tokens, 4 blocks, sequences of at most 8 tokens. *)
Definition sample_m0 : t :=
  Manager 2 8 4 true 0
    (match V1BlockPool.init 4 true with
     | Ok p => p
     | Err _ => V1BlockPool.Pool 0 true (FreeQueue.Queue ∅ 0 None None) ∅
     end) ∅ ∅ ∅ PrefixCacheStats.init.
Definition sample_m1 : t := (get_computed_blocks sample_hash 17 sample_a sample_m0).2.
Definition sample_m2 : t := (allocate_slots sample_hash 17 sample_a 5 (Some []) sample_m1).2.

Lemma blocks_accounted_witness :
  reached sample_hash 17 sample_m2 /\
  exists l, FreeQueue.get_all_free_blocks (length l)
      (V1BlockPool.free_block_queue (block_pool sample_m2)) = Ok l /\
    forall b, 0 <= b < 4 -> b ∈ l <-> holders (req_to_blocks sample_m2) b = 0.
Proof.
  assert (Hr : reached sample_hash 17 sample_m2).
  { exists 2, 4%nat, 8, true, 0, sample_m0. split; [lia|]. split; [lia|].
    split; [vm_compute; reflexivity|].
    eapply rtc_l; [|apply rtc_once].
    - apply (call_computed _ _ sample_m0 sample_a (Ok ([], 0))). vm_compute; reflexivity.
    - apply (call_allocate _ _ sample_m1 sample_a 5 (Some []) (Ok (Some [0; 1; 2]))).
      + by intros b ?%not_elem_of_nil.
      + done.
      + vm_compute; reflexivity. }
  split; [exact Hr|].
  destruct (blocks_accounted sample_hash 17 sample_m2 Hr) as (l & Hl & _ & _ & _ & Hf & _).
  exists l. split; [exact Hl|]. exact Hf.
Defined.

(** ** Speculated tokens that are not scheduled

    [allocate_slots] takes all of [spec_token_ids] off the tokens to cache, also
    those that the token budget leaves unscheduled (the scheduler trims the list
    after the call), so the number of cached blocks can go down; the next call
    then tries to cache a block again and fails its assertion. *)

Definition spec_request (computed : Z) (tokens spec : list Z) : Request.t :=
  Request.with_spec spec (Request.with_computed computed (sample_request "a" tokens)).

(** A request with two cached blocks of two tokens has 4 tokens computed,
    one more accepted and 3 speculated; the token budget schedules one token.
    The call that allocates for it lowers the number of cached blocks to one,
    and the next call, for one token more, raises [AssertionError]. *)
Theorem unscheduled_speculation_asserts :
  let r1 := spec_request 4 [1; 2; 3; 4; 5] [7; 8; 9] in
  let r2 := spec_request 5 [1; 2; 3; 4; 5; 6] [] in
  let m3 := (allocate_slots sample_hash 17 r1 1 None sample_m2).2 in
  num_cached_block sample_m2 !! "a" = Some 2 /\ num_cached_block m3 !! "a" = Some 1 /\
  (allocate_slots sample_hash 17 r2 1 None m3).1 = Err AssertionError.
Proof. vm_compute. done. Qed.
