(* ===== verification/KVManagerChain.v ===== *)
(** * v1: the KV-cache manager under its client's protocol

    Prefix caching is on, and the requests have no multi-modal inputs.  A client
    keeps the live requests [R]; [tracks m r] says that the manager's tables for
    request [r] agree with [r]'s chain of block hashes, computed from scratch
    from its tokens.  Under the protocol of [step] every call returns, keeps
    [tracks] for all live requests, and [allocate_slots] refuses exactly when
    the pool has too few blocks. *)
From S2P Require Import Prelude.
From S2P Require Import PyDict.
From S2P Require Import FreeQueue.
From S2P Require Import V1Request.
From S2P Require Import BlockHashing.
From S2P Require Import V1BlockPool.
From S2P Require Import V1PoolCorrect.
From S2P Require Import KVCacheManager.
From S2P Require Import KVManagerCorrect.
Import KVCacheManager BlockHashing.

Section Chain.
Context (py_hash : Z * list Z * option (list extra_key) -> Z) (hash_none : Z).

Abbreviation chain := (BlockHashing.chain py_hash hash_none).
Abbreviation allocate_slots := (KVCacheManager.allocate_slots py_hash hash_none).
Abbreviation get_computed_blocks := (KVCacheManager.get_computed_blocks py_hash hash_none).

Definition hash_of (m : t) (b : Z) : option BlockHashType := V1PoolCorrect.hash (block_pool m) b.
Definition known_hashes (m : t) (id : string) : list BlockHashType :=
  default [] (req_to_block_hashes m !! id).

(** The first [k] blocks of the table carry the chain, the others no hash. *)
Definition hashed_upto (m : t) (r : Request.t) (k : nat) : Prop :=
  (k <= length (table m (Request.request_id r)))%nat /\
  forall i b, table m (Request.request_id r) !! i = Some b ->
    hash_of m b = if decide (i < k)%nat then Some (chain (block_size m) r i) else None.

Record tracks (m : t) (r : Request.t) : Prop := Tracks {
  tr_hashes : exists h, known_hashes m (Request.request_id r) =
                  map (chain (block_size m) r) (seq 0 h) /\
                (h <= num_full (block_size m) r)%nat;
  tr_table : match num_cached_block m !! Request.request_id r with
             | None => table m (Request.request_id r) = []
             | Some n => exists k, n = Z.of_nat k /\ hashed_upto m r k /\
                           (k <= length (known_hashes m (Request.request_id r)))%nat
             end;
}.

Lemma tracks_len m r : tracks m r ->
  known_hashes m (Request.request_id r) =
    map (chain (block_size m) r) (seq 0 (length (known_hashes m (Request.request_id r)))) /\
  (length (known_hashes m (Request.request_id r)) <= num_full (block_size m) r)%nat.
Proof.
  intros [(h & E & Hh) _]. assert (length (known_hashes m (Request.request_id r)) = h) as ->;
    [by rewrite E, length_map, length_seq|done].
Qed.

(** [tracks] reads the entries of its request, and the hashes of its blocks. *)
Lemma tracks_same m m' r :
  block_size m' = block_size m ->
  table m' (Request.request_id r) = table m (Request.request_id r) ->
  known_hashes m' (Request.request_id r) = known_hashes m (Request.request_id r) ->
  num_cached_block m' !! Request.request_id r = num_cached_block m !! Request.request_id r ->
  (forall b, b ∈ table m (Request.request_id r) -> hash_of m' b = hash_of m b) ->
  tracks m r -> tracks m' r.
Proof.
  intros Hs Ht Hk Hn Hh [H1 H2]. split; rewrite ?Hs, ?Hk; [done|].
  rewrite Hn. destruct (num_cached_block m !! _) as [n|]; [|by rewrite Ht].
  destruct H2 as (k & -> & [Hl Hi] & Hkl). exists k. split_and!; [done| |done].
  split; rewrite ?Ht, ?Hs; [done|]. intros i b Hb. rewrite Hh; [by apply Hi|].
  by eapply list_elem_of_lookup_2.
Qed.

(** Appending tokens to a request keeps [tracks]. *)
Lemma tracks_extend m r r' :
  0 < block_size m -> Request.request_id r' = Request.request_id r ->
  Request.lora_request r = Request.lora_request r' ->
  Request.all_token_ids r `prefix_of` Request.all_token_ids r' ->
  tracks m r -> tracks m r'.
Proof.
  intros Hbs Hid Hl Hpre Ht. pose proof (tracks_len m r Ht) as [Hk Hle].
  assert (Hn : (num_full (block_size m) r <= num_full (block_size m) r')%nat).
  { unfold num_full. apply Z2Nat.inj_le; [apply Z.div_pos; unfold Request.num_tokens; lia..|].
    apply Z.div_le_mono; [done|]. unfold Request.num_tokens.
    apply prefix_length in Hpre. lia. }
  assert (Hfull : forall i, (i < num_full (block_size m) r)%nat ->
            chain (block_size m) r' i = chain (block_size m) r i).
  { intros i Hi. apply BlockHashing.chain_prefix; [done| |done..].
    unfold num_full in Hi.
    pose proof (Z.mul_div_le (Request.num_tokens r) (block_size m) Hbs).
    assert (Z.of_nat i + 1 <= Request.num_tokens r / block_size m) by lia. nia. }
  destruct Ht as [_ H2]. split; rewrite Hid.
  - eexists. split; [|etransitivity; [exact Hle|exact Hn]]. rewrite Hk at 1.
    apply map_ext_in. intros i [_ Hi]%in_seq. symmetry. apply Hfull. lia.
  - destruct (num_cached_block m !! _) as [n|]; [|done].
    destruct H2 as (k & -> & [Hl' Hi] & Hkl). exists k. split_and!; [done| |done].
    split; rewrite Hid; [done|]. intros i b Hb. rewrite (Hi i b Hb).
    case_decide; [|done]. rewrite Hfull by lia. done.
Qed.

(** ** [get_computed_blocks] *)

(** The blocks returned carry the request's first hashes, as many as there are
    in the cache. *)
Record computed (m : t) (r : Request.t) (cb : list Z) : Prop := Computed {
  cp_hash : forall i b, cb !! i = Some b -> hash_of m b = Some (chain (block_size m) r i);
  cp_known : (length cb <= length (known_hashes m (Request.request_id r)))%nat;
}.

Lemma get_computed_ok m l r :
  wf m l -> enable_caching m = true -> text r -> tracks m r ->
  exists cb m', get_computed_blocks r m =
      (Ok (cb, Z.of_nat (length cb) * block_size m), m') /\
    looked_up m m' /\ tracks m' r /\ computed m' r cb /\
    (forall id, id <> Request.request_id r ->
       req_to_block_hashes m' !! id = req_to_block_hashes m !! id) /\
    length (known_hashes m' (Request.request_id r)) =
      (match known_hashes m (Request.request_id r) with
       | [] => num_full (block_size m) r | hs => length hs end) /\
    (prompt_logprobs (Request.sampling_params r) = None ->
     found (block_pool m) (known_hashes m' (Request.request_id r)) cb).
Proof.
  intros Hw Hca Htext Htr. pose proof (wf_size _ _ Hw) as Hbs.
  unfold KVCacheManager.get_computed_blocks. rewrite bind_run. cbn [gets].
  rewrite Hca. cbn [negb]. cbv zeta. set (id := Request.request_id r).
  rewrite bind_run. cbn [get_hashes]. fold (known_hashes m id).
  rewrite bind_run. cbn [gets]. set (m1 := with_hashes _ m).
  set (h := match known_hashes m id with [] => num_full (block_size m) r | hs => length hs end).
  pose proof (tracks_len m r Htr) as [Hkn Hle]. fold id in Hkn, Hle.
  assert (Hcase : exists hs m2,
    match known_hashes m id with
    | [] => hs ← lift (BlockHashing.hash_request_tokens py_hash hash_none (block_size m1) r);
            modify (fun m => with_hashes (<[id := hs]> (req_to_block_hashes m)) m) ;; mret hs
    | _ => mret (known_hashes m id)
    end m1 = (Ok hs, m2) /\ hs = map (chain (block_size m) r) (seq 0 h) /\
    looked_up m m2 /\ prefix_cache_stats m2 = prefix_cache_stats m /\
    known_hashes m2 id = hs /\
    (forall id', id' <> id -> req_to_block_hashes m2 !! id' = req_to_block_hashes m !! id')).
  { unfold h. destruct (known_hashes m id) as [|h0 hs0] eqn:Ek.
    - rewrite bind_run. change (block_size m1) with (block_size m).
      rewrite (hash_request_tokens_text py_hash hash_none _ r Htext Hbs). cbn.
      eexists _, _. split_and!; [reflexivity|done|done|done| |].
      + unfold known_hashes; cbn. by rewrite lookup_insert_eq.
      + intros id' Hne. cbn. by rewrite !lookup_insert_ne by congruence.
    - eexists _, _. split_and!; [reflexivity|exact Hkn|done|done| |].
      + unfold known_hashes; cbn. by rewrite lookup_insert_eq.
      + intros id' Hne. cbn. by rewrite lookup_insert_ne by congruence. }
  destruct Hcase as (hs & m2 & Hrun & Hhs & Hlu & Hst & Hk2 & Hoth).
  rewrite (bind_step _ _ _ _ _ Hrun). rewrite bind_run. cbn [modify].
  set (m3 := with_stats _ m2).
  assert (Hlen : length hs = h) by (by rewrite Hhs, length_map, length_seq).
  assert (Hhle : (h <= num_full (block_size m) r)%nat).
  { unfold h. destruct (known_hashes m id); lia. }
  assert (Htr' : forall m', looked_up m m' -> known_hashes m' id = hs -> tracks m' r).
  { intros m' [Hp Hb Hc [Hs _ _ _ _ _]] Hk. split; fold id; rewrite ?Hs, ?Hk.
    - exists h. done.
    - rewrite Hc. destruct Htr as [_ H2]. fold id in H2.
      destruct (num_cached_block m !! id) as [n|]; [|unfold table; by rewrite Hb].
      destruct H2 as (k & -> & [Hl Hi] & Hkl). exists k. split_and!; [done| |].
      + unfold hashed_upto, hash_of, table in *. by rewrite Hb, Hp, Hs.
      + rewrite Hlen. unfold h. destruct (known_hashes m id); cbn in Hkl |- *; lia. }
  assert (Hcp : forall m' cb, looked_up m m' -> known_hashes m' id = hs ->
            found (block_pool m) hs cb -> computed m' r cb).
  { intros m' cb [Hp _ _ [Hs _ _ _ _ _]] Hk [Hf _]. split.
    - intros i b Hb. destruct (Hf i b Hb) as (hh & Hi & Hh). unfold hash_of.
      rewrite Hp, Hs, Hh. rewrite Hhs, (lookup_chain py_hash hash_none) in Hi. by case_decide.
    - fold id. rewrite Hk. destruct cb as [|b cb _] using rev_ind; [cbn; lia|].
      destruct (Hf (length cb) b) as (hh & Hi & _).
      { by rewrite lookup_app_r, Nat.sub_diag by lia. }
      rewrite length_app. cbn. apply lookup_lt_Some in Hi. lia. }
  destruct (prompt_logprobs (Request.sampling_params r)) as [?|].
  - exists [], m3. assert (Hl3 : looked_up m m3) by (by transitivity m2).
    split_and!; [done|done|by apply Htr'| |done| |done].
    + split; [intros i b; by rewrite lookup_nil|cbn; lia].
    + change (known_hashes m3 id) with (known_hashes m2 id). by rewrite Hk2.
  - rewrite bind_run. cbn [gets]. change (block_pool m3) with (block_pool m2).
    rewrite (lu_pool _ _ Hlu).
    destruct (find_computed_ok (block_pool m) hs (inv_cache _ _ (wf_pool _ _ Hw)))
      as (cb & Hf & Hfound).
    rewrite bind_run. rewrite Hf. cbn [lift].
    eexists cb, _. split; [reflexivity|].
    match goal with |- looked_up m ?m' /\ _ =>
      assert (Hl4 : looked_up m m') by (by transitivity m2); set (m4 := m') in * end.
    assert (Hk4 : known_hashes m4 id = hs) by done.
    split_and!; [done|by apply Htr'|by apply Hcp|done|by rewrite Hk4|].
    intros _. by rewrite Hk4.
Qed.

(** ** Caching the blocks that new tokens fill *)

Lemma hash_none_ref m l b : wf m l -> hash_of m b = None -> ref (block_pool m) b <= 1.
Proof.
  intros Hw Hb. destruct (decide (2 <= ref (block_pool m) b)) as [H2|]; [|lia].
  apply (wf_shared _ _ Hw) in H2 as [h Hh]. unfold hash_of in Hb. congruence.
Qed.

(** The blocks without a hash stand in a table only once. *)
Lemma unhashed_nodup m l r k :
  wf m l -> hashed_upto m r k -> NoDup (drop k (table m (Request.request_id r))).
Proof.
  intros Hw [Hk Hi]. apply nodup_occurrences. intros b Hb.
  pose proof (list_elem_of_lookup_1 _ _ Hb) as [i Hib]. rewrite lookup_drop in Hib.
  pose proof (Hi _ _ Hib) as Hn. rewrite decide_False in Hn by lia.
  apply (hash_none_ref m l b Hw) in Hn. rewrite (wf_refs _ _ Hw) in Hn.
  pose proof (holders_ge (req_to_blocks m) (Request.request_id r) b) as Hge.
  fold (table m (Request.request_id r)) in Hge.
  rewrite <- (take_drop k (table m (Request.request_id r))), occurrences_app in Hge.
  pose proof (occurrences_nonneg b (take k (table m (Request.request_id r)))). lia.
Qed.

Lemma cache_after_append_text m l r nc total k h nf :
  wf m l -> text r ->
  default nc (num_cached_block m !! Request.request_id r) = Z.of_nat k ->
  hashed_upto m r k ->
  known_hashes m (Request.request_id r) = map (chain (block_size m) r) (seq 0 h) ->
  (k <= h)%nat -> (k <= nf)%nat ->
  (total - Z.of_nat (length (Request.spec_token_ids r))) / block_size m = Z.of_nat nf ->
  (nf <= length (table m (Request.request_id r)))%nat -> (nf <= num_full (block_size m) r)%nat ->
  let id := Request.request_id r in
  exists m', cache_after_append py_hash hash_none r nc total m = (Ok tt, m') /\
    wf m' l /\ same_setup m m' /\ (forall id', table m' id' = table m id') /\
    num_cached_block m' = <[id := Z.of_nat nf]> (num_cached_block m) /\
    known_hashes m' id = map (chain (block_size m) r) (seq 0 (h `max` nf)) /\
    (forall id', id' <> id -> known_hashes m' id' = known_hashes m id') /\
    hashed_upto m' r nf /\
    (forall b, b ∉ table m id \/ is_Some (hash_of m b) -> hash_of m' b = hash_of m b).
Proof.
  intros Hw Htext Hnc Hupto Hkn Hkh Hknf Hnf Hlen Hfull id.
  pose proof (wf_size _ _ Hw) as Hbs. pose proof Hupto as [Hk Hi].
  destruct (cache_full_blocks_text py_hash hash_none (block_size m) r Hbs Htext
    (table m id) k nf h (block_pool m) (inv_cache _ _ (wf_pool _ _ Hw)) Hknf Hlen Hkh)
    as (p' & Hrun & Hok' & Hco & Hget).
  { by eapply unhashed_nodup. }
  { intros b Hb. by apply (wf_range _ _ Hw id). }
  { intros j b Hj Hb. pose proof (Hi j b Hb) as H. by rewrite decide_False in H by lia. }
  { intros j b -> Hb. pose proof (Hi j b Hb) as H. by rewrite decide_True in H by lia. }
  { unfold num_full in Hfull.
    pose proof (Z.mul_div_le (Request.num_tokens r) (block_size m) Hbs).
    assert (0 <= Request.num_tokens r / block_size m)
      by (apply Z.div_pos; unfold Request.num_tokens; lia). nia. }
  assert (Hrun' : exists m', cache_after_append py_hash hash_none r nc total m = (Ok tt, m') /\
    block_pool m' = p' /\ req_to_blocks m' = req_to_blocks m /\
    num_cached_block m' = <[id := Z.of_nat nf]> (num_cached_block m) /\
    block_size m' = block_size m /\
    known_hashes m' id = map (chain (block_size m) r) (seq 0 (h `max` nf)) /\
    (forall id', id' <> id -> known_hashes m' id' = known_hashes m id')).
  { unfold cache_after_append. cbv zeta. fold id in Hnc |- *.
    rewrite bind_run. cbn [gets]. rewrite Hnc.
    rewrite bind_run. cbn [gets]. rewrite Hnf.
    assert (Hc : exists m1, cache_request_blocks py_hash hash_none r (Z.of_nat k) (Z.of_nat nf) m =
      (Ok tt, m1) /\ block_pool m1 = p' /\ req_to_blocks m1 = req_to_blocks m /\
      num_cached_block m1 = num_cached_block m /\ block_size m1 = block_size m /\
      known_hashes m1 id = map (chain (block_size m) r) (seq 0 (h `max` nf)) /\
      (forall id', id' <> id -> known_hashes m1 id' = known_hashes m id')).
    { unfold cache_request_blocks. cbv zeta. fold id. rewrite bind_run. cbn [gets].
      fold (table m id). rewrite bind_run. cbn [get_hashes]. rewrite bind_run. cbn [gets].
      unfold on_pool_and_hashes. cbn [with_hashes block_pool req_to_block_hashes block_size].
      rewrite lookup_insert_eq. cbn [default from_option].
      fold (known_hashes m id). unfold id in Hkn |- *. change (Datatypes.id ?x) with x.
      rewrite Hkn. fold id.
      rewrite Hrun. eexists. split; [reflexivity|]. split_and!; try done.
      - unfold known_hashes; cbn. by rewrite lookup_insert_eq.
      - intros id' Hne. unfold known_hashes; cbn. by rewrite !lookup_insert_ne by congruence. }
    destruct Hc as (m1 & Hr1 & H1 & H2 & H3 & H4 & H5 & H6).
    rewrite (bind_step _ _ _ _ _ Hr1). eexists. split; [reflexivity|].
    split_and!; try done. cbn. by rewrite H3. }
  destruct Hrun' as (m' & Hr' & Hp' & Hb' & Hn' & Hs' & Hk' & Ho').
  destruct (cache_after_append_frame _ _ _ _ _ _ _ _ _ Hw Hr') as (Hw' & [Ht' Hss' _]).
  exists m'. split_and!; try done.
  - split; [by rewrite Ht'|]. intros i b. rewrite Ht', Hs'. intros Hb.
    unfold hash_of. rewrite Hp'. destruct (decide (i < k)%nat) as [Hik|Hik].
    + rewrite decide_True by lia. apply (co_keep _ _ _ Hco).
      pose proof (Hi i b Hb) as H. by rewrite decide_True in H by lia.
    + destruct (decide (i < nf)%nat) as [Hin|Hin].
      { by apply Hget; [lia|]. }
      pose proof (Hi i b Hb) as H. rewrite decide_False in H by lia.
      unfold hash_of in H. rewrite <- H. apply (co_hash _ _ _ Hco).
      intros (j & Hj)%list_elem_of_lookup_1.
      assert (Hjn : (j < nf - k)%nat).
      { apply lookup_lt_Some in Hj. rewrite length_take in Hj. lia. }
      rewrite lookup_take_lt in Hj by done.
      pose proof (unhashed_nodup m l r k Hw Hupto) as Hnd. rewrite NoDup_alt in Hnd.
      assert (j = i - k)%nat; [|lia]. apply (Hnd _ _ b Hj).
      rewrite lookup_drop. by replace (k + (i - k))%nat with i by lia.
  - intros b Hb. unfold hash_of at 1. rewrite Hp'.
    destruct (decide (b ∈ take (nf - k) (drop k (table m id)))) as [Hin|Hin].
    + destruct Hb as [Hb|[hh Hb]].
      * destruct Hb. eapply elem_of_sublist; [exact Hin|].
        etransitivity; [apply sublist_take|apply sublist_drop].
      * rewrite Hb. apply (co_keep _ _ _ Hco). exact Hb.
    + by apply (co_hash _ _ _ Hco).
Qed.

(** ** [allocate_slots] *)

(** What a call for request [id] leaves to the other requests. *)
Record others (id : string) (m m' : t) : Prop := Others {
  ot_setup : same_setup m m';
  ot_table : forall id', id' <> id -> table m' id' = table m id';
  ot_known : forall id', id' <> id -> known_hashes m' id' = known_hashes m id';
  ot_cached : forall id', id' <> id -> num_cached_block m' !! id' = num_cached_block m !! id';
  ot_hash : forall id' b, id' <> id -> b ∈ table m id' -> hash_of m' b = hash_of m b;
}.

Lemma others_tracks m m' r id :
  others id m m' -> Request.request_id r <> id -> tracks m r -> tracks m' r.
Proof.
  intros [Hs Ht Hk Hc Hh] Hne. apply tracks_same; auto. apply Hs. intros b. by apply Hh.
Qed.

Lemma occurrences_pos b bs : b ∈ bs -> 1 <= occurrences b bs.
Proof.
  intros Hb. pose proof (occurrences_nonneg b bs).
  destruct (decide (occurrences b bs = 0)) as [E|]; [by apply occurrences_zero in E|lia].
Qed.

Lemma holders_two m id id' b :
  id' <> id -> b ∈ table m id -> b ∈ table m id' -> 2 <= holders (req_to_blocks m) b.
Proof.
  intros Hne H1%occurrences_pos H2%occurrences_pos.
  pose proof (holders_delete (req_to_blocks m) id b) as Hd.
  pose proof (holders_ge (delete id (req_to_blocks m)) id' b) as Hge.
  rewrite lookup_delete_ne in Hge by done. unfold table in *. lia.
Qed.

Lemma free_not_held m l id b : wf m l -> b ∈ l -> b ∉ table m id.
Proof.
  intros Hw Hl Hb. pose proof (inv_range _ _ (wf_pool _ _ Hw) b Hl) as Hr.
  apply (inv_free _ _ (wf_pool _ _ Hw) b Hr) in Hl. rewrite (wf_refs _ _ Hw) in Hl.
  pose proof (holders_ge (req_to_blocks m) id b). apply occurrences_pos in Hb.
  unfold table in *. lia.
Qed.

(** Taking blocks disturbs no other request. *)
Lemma taken_others m l id cb new m' l' : wf m l -> taken m l id cb new m' l' -> others id m m'.
Proof.
  intros Hw [Hw' Hss Ht Hq Hh Hc Hha]. split; [done|..].
  - intros id' Hne. by rewrite Ht, decide_False.
  - intros id' Hne. unfold known_hashes. by rewrite Hh.
  - intros id' Hne. by rewrite Hc.
  - intros id' b Hne Hb. unfold hash_of. rewrite Hha, decide_False; [done|].
    intros [_ Hnew]. apply (free_not_held m l id' b Hw); [|done].
    assert (Hin : b ∈ filter (fun b => b ∉ cb) l) by (rewrite Hq; apply elem_of_app; by left).
    by apply list_elem_of_filter in Hin as [_ ?].
Qed.

Lemma manager_others_trans id m1 m2 m3 :
  (forall id' b, id' <> id -> b ∈ table m1 id' -> hash_of m3 b = hash_of m2 b) ->
  others id m1 m2 -> same_setup m2 m3 ->
  (forall id', id' <> id -> table m3 id' = table m2 id') ->
  (forall id', id' <> id -> known_hashes m3 id' = known_hashes m2 id') ->
  (forall id', id' <> id -> num_cached_block m3 !! id' = num_cached_block m2 !! id') ->
  others id m1 m3.
Proof.
  intros Hh [Hs Ht Hk Hc Hh1] Hs2 Ht2 Hk2 Hc2. split.
  - by transitivity m2.
  - intros id' Hne. by rewrite Ht2, Ht.
  - intros id' Hne. by rewrite Hk2, Hk.
  - intros id' Hne. by rewrite Hc2, Hc.
  - intros id' b Hne Hb. by rewrite (Hh id'), (Hh1 id').
Qed.

(** Removing computed blocks from the queue leaves at least as many as the code
    counts on. *)
Lemma length_remaining m l cb :
  wf m l ->
  Z.of_nat (length l) - evictable m cb <= Z.of_nat (length (filter (fun b => b ∉ cb) l)).
Proof.
  intros Hw. unfold evictable.
  assert (Hsum : (length l = length (filter (fun b => b ∈ cb) l) +
                            length (filter (fun b => b ∉ cb) l))%nat).
  { clear Hw. induction l as [|b l IH]; [done|]. rewrite !filter_cons.
    destruct (decide (b ∈ cb)) as [Hb|Hb].
    - rewrite decide_False by tauto. cbn. lia.
    - rewrite decide_True by done. cbn. lia. }
  assert (Hle : (length (filter (fun b => b ∈ cb) l) <=
                 length (filter (fun b => (ref (block_pool m) b = 0)%Z) cb))%nat); [|lia].
  apply submseteq_length, NoDup_submseteq.
  - apply NoDup_filter, (FreeQueue.repr_nodup _ _ (inv_queue _ _ (wf_pool _ _ Hw))).
  - intros b [Hcb Hl]%list_elem_of_filter. apply list_elem_of_filter. split; [|done].
    pose proof (inv_range _ _ (wf_pool _ _ Hw) b Hl) as Hr.
    by apply (inv_free _ _ (wf_pool _ _ Hw) b Hr).
Qed.

(** The numbers of a call [allocate_slots r n oc] for a request with [k] cached
    blocks: the tokens to compute are tokens of the request (not counting
    speculated ones), reach beyond its cached blocks, and fit the model. *)
Record fits (m : t) (r : Request.t) (n : Z) (oc : option (list Z)) (k : nat) : Prop := Fits {
  ft_pos : 0 < n;
  ft_cached : default (Z.of_nat (length (default [] oc)))
                (num_cached_block m !! Request.request_id r) = Z.of_nat k;
  ft_len : total_tokens m r n oc <= max_model_len m;
  ft_own : total_tokens m r n oc - Z.of_nat (length (Request.spec_token_ids r)) <=
             Request.num_tokens r;
  ft_more : Z.of_nat k * block_size m <=
              total_tokens m r n oc - Z.of_nat (length (Request.spec_token_ids r));
}.

(** The limits that [init] sets. *)
Record limits (m : t) : Prop := Limits {
  lm_pre : 0 <= num_preallocate_blocks m;
  lm_max : max_num_blocks_per_req m = cdiv (max_model_len m) (block_size m);
}.

Lemma limits_same m m' : same_setup m m' -> limits m -> limits m'.
Proof. intros [Hs Hl Hm Hc Hp Hn] [H1 H2]. split; congruence. Qed.

Lemma cdiv_mono a b c : 0 < c -> a <= b -> cdiv a c <= cdiv b c.
Proof.
  intros Hc Hab. apply cdiv_le_iff; [done|]. pose proof (cdiv_spec b c Hc). lia.
Qed.

Lemma div_le_cdiv a s c : 0 < c -> 0 <= s -> (a - s) / c <= cdiv a c.
Proof.
  intros Hc Hs. pose proof (cdiv_spec a c Hc).
  pose proof (Z.mul_div_le (a - s) c Hc). nia.
Qed.

Definition num_full_after (m : t) (r : Request.t) (n : Z) (oc : option (list Z)) : Z :=
  (total_tokens m r n oc - Z.of_nat (length (Request.spec_token_ids r))) / block_size m.

Lemma allocate_text m l r n oc k :
  wf m l -> enable_caching m = true -> limits m -> text r -> tracks m r -> fits m r n oc k ->
  computed m r (default [] oc) ->
  (is_Some (num_cached_block m !! Request.request_id r) -> default [] oc = []) ->
  let id := Request.request_id r in
  let cb := default [] oc in
  if decide (Z.of_nat (length l) - evictable m cb < new_needed m r n oc)
  then exists m', allocate_slots r n oc m = (Ok None, m') /\ wf m' l /\ others id m m' /\
         tracks m' r /\ (forall id', table m' id' = table m id') /\
         num_cached_block m' = num_cached_block m
  else exists new l' m', allocate_slots r n oc m = (Ok (Some new), m') /\ wf m' l' /\
         others id m m' /\ tracks m' r /\
         filter (fun b => b ∉ cb) l = new ++ l' /\
         table m' id = table m id ++ cb ++ new /\
         new_needed m r n oc <= Z.of_nat (length new) /\
         num_cached_block m' !! id = Some (num_full_after m r n oc).
Proof.
  intros Hw Hca [Hpre Hmax] Htext Htr [Hpos Hk Hlen Hown Hmore] [Hch Hck] Hrun id cb.
  fold id in Hk, Hrun, Hck. fold cb in Hk, Hrun, Hck, Hch.
  pose proof (wf_size _ _ Hw) as Hbs.
  pose proof (allocate_slots_cases py_hash hash_none m l r n oc Hw) as Hc.
  specialize (Hc ltac:(intros b (i & Hi)%list_elem_of_lookup_1; eexists; by apply (Hch i))).
  specialize (Hc ltac:(rewrite Hca; done) ltac:(lia)). cbv zeta in Hc.
  fold id cb in Hc. case_decide as Hfull.
  { destruct Hc as (m' & Hr & Hw' & Hss & Ht & Hh & Hn & Hp).
    exists m'. split_and!; [done|done| | |done|done].
    - split; [done|by auto|..].
      + intros id' _. unfold known_hashes. by rewrite Hh.
      + intros id' _. by rewrite Hn.
      + intros id' b _ _. unfold hash_of. by rewrite Hp.
    - apply (tracks_same m); [apply Hss|apply Ht| | | |done].
      + unfold known_hashes. by rewrite Hh.
      + by rewrite Hn.
      + intros b _. unfold hash_of. by rewrite Hp. }
  set (l1 := filter (fun b => b ∉ cb) l) in *.
  pose proof (length_remaining m l cb Hw) as Hrem. fold l1 in Hrem.
  set (total := total_tokens m r n oc) in *. set (need := new_needed m r n oc) in *.
  assert (Hneed : need = cdiv total (block_size m) - Z.of_nat (length (table m id)) -
                         Z.of_nat (length cb)) by done.
  pose proof (cdiv_mono total (max_model_len m) (block_size m) Hbs Hlen) as Hcd.
  rewrite length_app in Hc.
  set (kk := Z.to_nat _) in Hc.
  assert (Hkk : 0 < need -> need <= Z.of_nat kk).
  { intros Hp. unfold kk. rewrite Hmax. lia. }
  rewrite decide_False in Hc by lia.
  set (new := if decide (need <= 0) then [] else take kk l1) in *.
  assert (Hnew : need <= Z.of_nat (length new)).
  { unfold new. case_decide; [cbn; lia|]. rewrite length_take. unfold kk in *. lia. }
  destruct Hc as (m1 & Htk & Hr). rewrite Hca in Hr.
  pose proof (taken_others _ _ _ _ _ _ _ Hw Htk) as Hoth1.
  destruct Htk as [Hw1 Hss1 Ht1 Hq1 Hh1 Hc1 Hha1].
  assert (Htid : table m1 id = table m id ++ cb ++ new) by (by rewrite Ht1, decide_True).
  pose proof (tracks_len m r Htr) as [Hkn Hle]. fold id in Hkn, Hle.
  destruct Htr as [_ Htab]. fold id in Htab.
  assert (Hnewf : forall b, b ∈ new -> b ∈ l1) by (intros b Hb; unfold l1; rewrite Hq1; apply elem_of_app; by left).
  (* the table up to the computed blocks is hashed up to [k] *)
  assert (Hold : (k <= length (table m id ++ cb))%nat /\ forall i b,
    (table m id ++ cb) !! i = Some b ->
    hash_of m b = if decide (i < k)%nat then Some (chain (block_size m) r i) else None).
  { destruct (num_cached_block m !! id) as [j|] eqn:Ej; cbn in Hk.
    - destruct Htab as (k' & -> & [Hl' Hi'] & _). assert (k' = k) as -> by lia.
      rewrite (Hrun ltac:(eauto)), app_nil_r. done.
    - rewrite Htab. cbn. assert (k = length cb) as -> by lia. split; [lia|].
      intros i b Hb. rewrite decide_True by (by eapply lookup_lt_Some). by apply Hch. }
  assert (Hkh : (k <= length (known_hashes m id))%nat).
  { destruct (num_cached_block m !! id) as [j|] eqn:Ej; cbn in Hk; [|lia].
    destruct Htab as (k' & -> & _ & Hk'). lia. }
  assert (Hupto : hashed_upto m1 r k).
  { split; fold id; rewrite Htid; [rewrite app_assoc, length_app; lia|].
    intros i b. rewrite app_assoc. rewrite (ss_size _ _ Hss1). unfold hash_of. rewrite Hha1.
    intros [Hb|[Hge Hb]]%lookup_app_Some.
    - rewrite decide_False; [by apply Hold|]. intros [_ Hn].
      apply Hnewf, list_elem_of_filter in Hn as [Hncb Hl].
      apply list_elem_of_lookup_2, elem_of_app in Hb as [Hb|Hb]; [|done].
      by apply (free_not_held m l id b Hw).
    - apply list_elem_of_lookup_2 in Hb as Hin. rewrite decide_True by done.
      rewrite decide_False by lia. done. }
  set (nf := Z.to_nat (num_full_after m r n oc)).
  assert (Hnf : num_full_after m r n oc = Z.of_nat nf).
  { unfold nf. rewrite Z2Nat.id; [done|]. unfold num_full_after. apply Z.div_pos; lia. }
  destruct (cache_after_append_text m1 (drop (length new) l1) r (Z.of_nat (length cb)) total k
    (length (known_hashes m id)) nf Hw1 Htext) as
    (m2 & Hr2 & Hw2 & Hss2 & Ht2 & Hn2 & Hk2 & Ho2 & Hup2 & Hha2); fold id.
  - by rewrite Hc1.
  - done.
  - rewrite (ss_size _ _ Hss1). unfold known_hashes at 1. rewrite Hh1. exact Hkn.
  - done.
  - assert (Z.of_nat k <= num_full_after m r n oc); [|lia].
    unfold num_full_after. apply Z.div_le_lower_bound; [done|]. fold total. lia.
  - rewrite (ss_size _ _ Hss1). exact Hnf.
  - rewrite Htid, !length_app. assert (num_full_after m r n oc <= cdiv total (block_size m)); [|lia].
    apply div_le_cdiv; lia.
  - unfold nf, num_full_after, num_full. rewrite (ss_size _ _ Hss1).
    apply Z2Nat.inj_le; [apply Z.div_pos; lia|apply Z.div_pos; unfold Request.num_tokens; lia|].
    apply Z.div_le_mono; [done|]. fold total. lia.
  - change (Request.request_id r) with id in Hk2, Hn2, Ho2, Hha2.
    rewrite (bind_step _ _ _ _ _ Hr2) in Hr.
    exists new, (drop (length new) l1), m2. split; [exact Hr|].
    assert (Hoth : others id m m2).
    { apply (manager_others_trans id m m1 m2); [|done|done|..].
      - intros id' b Hne Hb. apply Hha2. fold id.
        destruct (decide (b ∈ table m1 id)) as [Hin|]; [right|by left].
        apply (wf_shared _ _ Hw1). rewrite (wf_refs _ _ Hw1).
        apply (holders_two m1 id id'); [done|done|]. by rewrite (ot_table _ _ _ Hoth1).
      - intros id' _. apply Ht2.
      - intros id' Hne. by apply Ho2.
      - intros id' Hne. rewrite Hn2. by apply lookup_insert_ne; intros E; apply Hne. }
    assert (Hsz : block_size m2 = block_size m) by (etransitivity; [apply Hss2|apply Hss1]).
    split_and!; [done|done| |done|by rewrite Ht2|done|].
    + split; fold id.
      * exists (length (known_hashes m id) `max` nf)%nat. rewrite Hk2, Hsz, (ss_size _ _ Hss1).
        split; [done|]. apply Nat.max_lub; [done|].
        unfold nf, num_full_after, num_full.
        apply Z2Nat.inj_le; [apply Z.div_pos; lia|apply Z.div_pos; unfold Request.num_tokens; lia|].
        apply Z.div_le_mono; [done|]. fold total. lia.
      * rewrite Hn2, lookup_insert_eq. exists nf. split_and!; [done|done|].
        rewrite Hk2, length_map, length_seq. lia.
    + rewrite Hn2, lookup_insert_eq. by rewrite Hnf.
Qed.
End Chain.
