(* ===== verification/KVManagerProtocol.v ===== *)
(** * v1: what a client of the KV-cache manager can rely on

    [step] is the client's protocol: requests arrive, grow, are scheduled (a new
    request looks its prefix up and allocates the rest, a running one allocates
    for its next tokens), are preempted, and finish; the prefix cache is reset
    in between.  The theorems hold in every state reached from a new manager. *)
From S2P Require Import Prelude.
From S2P Require Import PyDict.
From S2P Require Import FreeQueue.
From S2P Require Import V1Request.
From S2P Require Import BlockHashing.
From S2P Require Import V1BlockPool.
From S2P Require Import V1PoolCorrect.
From S2P Require Import KVCacheManager.
From S2P Require Import KVManagerCorrect.
From S2P Require Import KVManagerChain.
Import KVCacheManager BlockHashing.

Section Protocol.
Context (py_hash : Z * list Z * option (list extra_key) -> Z) (hash_none : Z).

Abbreviation chain := (BlockHashing.chain py_hash hash_none).
Abbreviation allocate_slots := (KVCacheManager.allocate_slots py_hash hash_none).
Abbreviation get_computed_blocks := (KVCacheManager.get_computed_blocks py_hash hash_none).
Abbreviation tracks := (KVManagerChain.tracks py_hash hash_none).
Abbreviation world := (t * gmap string Request.t)%type.

Inductive step : world -> world -> Prop :=
  | step_arrive m R r :
      R !! Request.request_id r = None -> text r ->
      step (m, R) (m, <[Request.request_id r := r]> R)
  | step_grow m R r r' :
      R !! Request.request_id r = Some r -> Request.request_id r' = Request.request_id r ->
      text r' -> Request.lora_request r = Request.lora_request r' ->
      Request.all_token_ids r `prefix_of` Request.all_token_ids r' ->
      step (m, R) (m, <[Request.request_id r := r']> R)
  | step_schedule_new m R r cb n0 m1 j n k res m2 :
      R !! Request.request_id r = Some r ->
      num_cached_block m !! Request.request_id r = None ->
      get_computed_blocks r m = (Ok (cb, n0), m1) ->
      fits m1 r n (Some (take j cb)) k ->
      allocate_slots r n (Some (take j cb)) m1 = (res, m2) ->
      step (m, R) (m2, R)
  | step_schedule_running m R r n k res m' :
      R !! Request.request_id r = Some r ->
      is_Some (num_cached_block m !! Request.request_id r) ->
      fits m r n None k ->
      allocate_slots r n None m = (res, m') ->
      step (m, R) (m', R)
  | step_preempt m R r res m' :
      R !! Request.request_id r = Some r -> free r m = (res, m') ->
      step (m, R) (m', R)
  | step_finish m R r res m1 res' m' :
      R !! Request.request_id r = Some r -> free r m = (res, m1) ->
      free_block_hashes r m1 = (res', m') ->
      step (m, R) (m', delete (Request.request_id r) R)
  | step_reset m R res m' : reset_prefix_cache m = (res, m') -> step (m, R) (m', R).

Definition client_reached (w : world) : Prop :=
  exists bs n len pre m0, 0 < bs /\ (0 < n)%nat /\ 0 <= pre /\
    init bs n len true pre = Ok m0 /\ rtc step (m0, ∅) w.

(** The manager has nothing on record for a request that is not live. *)
Record unknown (m : t) (id : string) : Prop := Unknown {
  uk_table : table m id = [];
  uk_cached : num_cached_block m !! id = None;
  uk_hashes : known_hashes m id = [];
}.

Record good (w : world) (l : list Z) : Prop := Good {
  gd_wf : wf w.1 l;
  gd_caching : enable_caching w.1 = true;
  gd_limits : limits w.1;
  gd_live : forall id r, w.2 !! id = Some r ->
    Request.request_id r = id /\ text r /\ tracks w.1 r;
  gd_dead : forall id, w.2 !! id = None -> unknown w.1 id;
}.

(** A call for the live request [r] that leaves the others alone. *)
Lemma good_others m R l r m' l' :
  good (m, R) l -> R !! Request.request_id r = Some r ->
  wf m' l' -> others (Request.request_id r) m m' -> tracks m' r -> good (m', R) l'.
Proof.
  intros [Hw Hca Hlim Hlive Hdead] Hr Hw' Ho Ht. cbn [fst snd] in *. split; cbn [fst snd].
  - done.
  - rewrite (ss_caching _ _ (ot_setup _ _ _ Ho)). done.
  - eapply limits_same; [apply Ho|done].
  - intros id r' Hr'. destruct (Hlive id r' Hr') as (Hid & Htext & Htr).
    split_and!; [done|done|]. destruct (decide (id = Request.request_id r)) as [->|Hne].
    + rewrite Hr in Hr'. by injection Hr' as <-.
    + eapply others_tracks; [done|by rewrite Hid|done].
  - intros id Hid. destruct (Hdead id Hid) as [H1 H2 H3].
    assert (Hne : id <> Request.request_id r) by (intros ->; congruence).
    split; [by rewrite (ot_table _ _ _ Ho)|by rewrite (ot_cached _ _ _ Ho)|
      by rewrite (ot_known _ _ _ Ho)].
Qed.

Lemma free_others m l r m' l' :
  wf m l -> wf m' l' -> same_setup m m' ->
  req_to_blocks m' = delete (Request.request_id r) (req_to_blocks m) ->
  req_to_block_hashes m' = req_to_block_hashes m ->
  num_cached_block m' = delete (Request.request_id r) (num_cached_block m) ->
  (forall b, hash_of m' b = hash_of m b) -> others (Request.request_id r) m m'.
Proof.
  intros _ _ Hs Hb Hh Hc Hha. split; [done|..].
  - intros id' Hne. unfold table. by rewrite Hb, lookup_delete_ne by congruence.
  - intros id' _. unfold known_hashes. by rewrite Hh.
  - intros id' Hne. by rewrite Hc, lookup_delete_ne by congruence.
  - intros id' b _ _. apply Hha.
Qed.

(** [free] on a live request. *)
Lemma free_good m R l r :
  good (m, R) l -> R !! Request.request_id r = Some r ->
  exists m', free r m = (Ok tt, m') /\
    good (m', R) (l ++ freed (ref (block_pool m)) (reverse (table m (Request.request_id r)))) /\
    req_to_block_hashes m' = req_to_block_hashes m /\
    table m' (Request.request_id r) = [] /\
    num_cached_block m' !! Request.request_id r = None /\
    others (Request.request_id r) m m' /\ (forall b, hash_of m' b = hash_of m b).
Proof.
  intros Hg Hr. pose proof Hg as [Hw Hca _ Hlive _]. cbn [fst snd] in *.
  destruct (manager_free_ok m l r Hw) as (m' & Hf & Hw' & Hss & Hb & Hh & Hc & Hha).
  rewrite Hca in Hw'. destruct (Hlive _ _ Hr) as (_ & _ & Htr).
  assert (Htab : table m' (Request.request_id r) = []).
  { unfold table. by rewrite Hb, lookup_delete_eq. }
  assert (Hnc : num_cached_block m' !! Request.request_id r = None).
  { by rewrite Hc, lookup_delete_eq. }
  pose proof (free_others m l r m' _ Hw Hw' Hss Hb Hh Hc Hha) as Ho.
  exists m'. split_and!; try done.
  apply (good_others m R l r); try done.
  - destruct Htr as [(h & Hk & Hle) _]. split.
    + exists h. unfold known_hashes. rewrite Hh, (ss_size _ _ Hss). done.
    + by rewrite Hnc.
Qed.

Lemma looked_up_others m l r m' :
  wf m l -> looked_up m m' ->
  (forall id, id <> Request.request_id r ->
     req_to_block_hashes m' !! id = req_to_block_hashes m !! id) ->
  others (Request.request_id r) m m'.
Proof.
  intros _ [Hp Hb Hc Hs] Hh. split; [done|..].
  - intros id' _. unfold table. by rewrite Hb.
  - intros id' Hne. unfold known_hashes. by rewrite Hh.
  - intros id' _. by rewrite Hc.
  - intros id' b _ _. unfold hash_of. by rewrite Hp.
Qed.

Lemma computed_take m r cb j :
  computed py_hash hash_none m r cb -> computed py_hash hash_none m r (take j cb).
Proof.
  intros [H1 H2]. split.
  - intros i b Hi. apply H1. apply lookup_take_Some in Hi as [? _]. done.
  - rewrite length_take. lia.
Qed.

(** Scheduling a live request that has no slots yet. *)
Lemma schedule_new_good m R l r :
  good (m, R) l -> R !! Request.request_id r = Some r ->
  num_cached_block m !! Request.request_id r = None ->
  exists cb m1, get_computed_blocks r m = (Ok (cb, Z.of_nat (length cb) * block_size m), m1) /\
    good (m1, R) l /\ computed py_hash hash_none m1 r cb /\
    block_pool m1 = block_pool m /\ req_to_blocks m1 = req_to_blocks m /\
    num_cached_block m1 = num_cached_block m /\ others (Request.request_id r) m m1.
Proof.
  intros Hg Hr Hnc. pose proof Hg as [Hw Hca _ Hlive _]. cbn [fst snd] in *.
  destruct (Hlive _ _ Hr) as (_ & Htext & Htr).
  destruct (get_computed_ok py_hash hash_none m l r Hw Hca Htext Htr) as
    (cb & m1 & Hrun & Hlu & Htr1 & Hcp & Hoth & _).
  pose proof (looked_up_others m l r m1 Hw Hlu Hoth) as Ho.
  exists cb, m1. pose proof Hlu as [Hp Hb Hc Hs]. split_and!; try done.
  apply (good_others m R l r); try done. by eapply looked_up_wf.
Qed.

(** The outcomes of [allocate_slots], with the invariant afterwards. *)
Lemma allocate_good m R l r n oc k :
  good (m, R) l -> R !! Request.request_id r = Some r -> fits m r n oc k ->
  computed py_hash hash_none m r (default [] oc) ->
  (is_Some (num_cached_block m !! Request.request_id r) -> default [] oc = []) ->
  if decide (Z.of_nat (length l) - evictable m (default [] oc) < new_needed m r n oc)
  then exists m', allocate_slots r n oc m = (Ok None, m') /\ good (m', R) l /\
         others (Request.request_id r) m m' /\ (forall id, table m' id = table m id) /\
         num_cached_block m' = num_cached_block m
  else exists new l' m', allocate_slots r n oc m = (Ok (Some new), m') /\ good (m', R) l' /\
         filter (fun b => b ∉ default [] oc) l = new ++ l' /\
         table m' (Request.request_id r) =
           table m (Request.request_id r) ++ default [] oc ++ new /\
         new_needed m r n oc <= Z.of_nat (length new) /\
         num_cached_block m' !! Request.request_id r = Some (num_full_after m r n oc) /\
         others (Request.request_id r) m m'.
Proof.
  intros Hg Hr Hfit Hcp Hrun. pose proof Hg as [Hw Hca Hlim Hlive _]. cbn [fst snd] in *.
  destruct (Hlive _ _ Hr) as (_ & Htext & Htr).
  pose proof (allocate_text py_hash hash_none m l r n oc k Hw Hca Hlim Htext Htr Hfit Hcp Hrun) as H.
  cbv zeta in H. case_decide.
  - destruct H as (m' & Ha & Hw' & Ho & Ht & Htab & Hn). exists m'.
    split_and!; [done| |done..]. by apply (good_others m R l r).
  - destruct H as (new & l' & m' & Ha & Hw' & Ho & Ht & Hq & Htab & Hlen & Hn).
    exists new, l', m'. split_and!; try done. by apply (good_others m R l r).
Qed.

(** A new request. *)
Lemma good_arrive m R l r :
  good (m, R) l -> R !! Request.request_id r = None -> text r ->
  good (m, <[Request.request_id r := r]> R) l.
Proof.
  intros [Hw Hca Hlim Hlive Hdead] Hr Htext. cbn [fst snd] in *.
  split; cbn [fst snd]; [done..| |].
  - intros id r' [[<- <-]|[Hne Hr']]%lookup_insert_Some; [|by apply Hlive].
    destruct (Hdead _ Hr) as [H1 H2 H3]. split_and!; [done|done|]. split.
    + exists O. rewrite H3. split; [done|lia].
    + by rewrite H2.
  - intros id [Hid _]%lookup_insert_None. by apply Hdead.
Qed.

(** A live request changes: it may only have more tokens. *)
Lemma good_grow m R l r r' :
  good (m, R) l -> R !! Request.request_id r = Some r ->
  Request.request_id r' = Request.request_id r -> text r' ->
  Request.lora_request r = Request.lora_request r' ->
  Request.all_token_ids r `prefix_of` Request.all_token_ids r' ->
  good (m, <[Request.request_id r := r']> R) l.
Proof.
  intros [Hw Hca Hlim Hlive Hdead] Hr Hid Htext Hl Hpre. cbn [fst snd] in *.
  split; cbn [fst snd]; [done..| |].
  - intros id r0 [[<- <-]|[Hne Hr']]%lookup_insert_Some; [|by apply Hlive].
    destruct (Hlive _ _ Hr) as (_ & _ & Htr). split_and!; [done|done|].
    eapply tracks_extend; try done. apply Hw.
  - intros id [Hid' _]%lookup_insert_None. by apply Hdead.
Qed.

(** A request finishes. *)
Lemma finish_good m R l r :
  good (m, R) l -> R !! Request.request_id r = Some r ->
  exists m1 m' l', free r m = (Ok tt, m1) /\ free_block_hashes r m1 = (Ok tt, m') /\
    good (m', delete (Request.request_id r) R) l' /\ others (Request.request_id r) m m'.
Proof.
  intros Hg Hr. destruct (free_good m R l r Hg Hr) as (m1 & Hf & Hg' & _ & Htab & Hnc & Ho & _).
  exists m1. eexists. eexists. split; [exact Hf|]. split; [reflexivity|].
  destruct Hg' as [Hw Hca Hlim Hlive Hdead]. cbn [fst snd] in *. split.
  - split; cbn [fst snd].
    + by apply (wf_same m1).
    + done.
    + by apply (limits_same m1).
    + intros id r' [Hne Hr']%lookup_delete_Some. destruct (Hlive _ _ Hr') as (Hid & Htext & Htr).
      split_and!; [done|done|]. apply (tracks_same py_hash hash_none m1); try done.
      unfold known_hashes; cbn. by rewrite lookup_delete_ne by congruence.
    + intros id [<-|Hid]%lookup_delete_None.
      { split; [exact Htab|exact Hnc|]. unfold known_hashes; cbn. by rewrite lookup_delete_eq. }
      destruct (Hdead _ Hid) as [H1 H2 H3]. split; [done|done|].
      unfold known_hashes in *; cbn.
      destruct (decide (Request.request_id r = id)) as [->|].
      * by rewrite lookup_delete_eq.
      * by rewrite lookup_delete_ne.
  - destruct Ho as [Hss Ht Hk Hc Hh]. split; [by destruct Hss; split|done| |done|done].
    intros id' Hne. rewrite <- Hk by done. unfold known_hashes; cbn.
    by rewrite lookup_delete_ne by congruence.
Qed.

Lemma reset_good m R l :
  good (m, R) l ->
  exists ok m', reset_prefix_cache m = (Ok ok, m') /\ good (m', R) l /\ same_setup m m' /\
    num_cached_block m' = num_cached_block m /\ (forall id, table m' id = table m id).
Proof.
  intros [Hw Hca Hlim Hlive Hdead]. cbn [fst snd] in *.
  destruct (reset_ok m l Hw) as (ok & m1 & Hf & Hw1 & Hss & Hb & Hh & Hc & Hres).
  assert (Htm : forall id, table m1 id = table m id) by (intros id; unfold table; by rewrite Hb).
  exists ok, m1. split_and!; [done| |done..]. destruct ok; [|by subst].
  destruct Hres as [Hnone Htab]. split; cbn [fst snd].
  - done.
  - by rewrite (ss_caching _ _ Hss).
  - by eapply limits_same.
  - intros id r Hr. destruct (Hlive _ _ Hr) as (Hid & Htext & Htr).
    split_and!; [done|done|]. apply (tracks_same py_hash hash_none m); try done; try apply Hss.
    + unfold known_hashes. by rewrite Hh.
    + by rewrite Hc.
    + intros b. rewrite Htab. by intros ?%not_elem_of_nil.
  - intros id Hid. destruct (Hdead _ Hid) as [H1 H2 H3].
    split; [by rewrite Htm|by rewrite Hc|]. unfold known_hashes in *. by rewrite Hh.
Qed.

Lemma step_good w w' l : good w l -> step w w' -> exists l', good w' l'.
Proof.
  intros Hg Hs. destruct Hs as [m R r Hr Htext|m R r r' Hr Hid Htext Hl Hpre
    |m R r cb n0 m1 j n k res m2 Hr Hnc Hg1 Hfit Ha|m R r n k res m' Hr Hnc Hfit Ha
    |m R r res m' Hr Hf|m R r res m1 res' m' Hr Hf Hh|m R res m' Hrs].
  - exists l. by apply good_arrive.
  - exists l. by apply (good_grow m R l r).
  - destruct (schedule_new_good m R l r Hg Hr Hnc) as
      (cb' & m1' & Hg1' & Hgood & Hcp & _ & _ & Hnc1 & _).
    rewrite Hg1 in Hg1'. injection Hg1' as <- _ <-.
    pose proof (allocate_good m1 R l r n (Some (take j cb)) k Hgood Hr Hfit
      (computed_take _ _ _ _ Hcp)) as H.
    rewrite Hnc1, Hnc in H. specialize (H ltac:(by intros [? [=]])).
    case_decide.
    + destruct H as (m' & Ha' & Hg' & _). rewrite Ha in Ha'. injection Ha' as _ <-. eauto.
    + destruct H as (new & l' & m' & Ha' & Hg' & _). rewrite Ha in Ha'.
      injection Ha' as _ <-. eauto.
  - pose proof (allocate_good m R l r n None k Hg Hr Hfit) as H. cbn [default from_option] in H.
    specialize (H ltac:(split; [intros i b; by rewrite lookup_nil|cbn; lia]) ltac:(done)).
    case_decide.
    + destruct H as (m2 & Ha' & Hg' & _). rewrite Ha in Ha'. injection Ha' as _ <-. eauto.
    + destruct H as (new & l' & m2 & Ha' & Hg' & _). rewrite Ha in Ha'.
      injection Ha' as _ <-. eauto.
  - destruct (free_good m R l r Hg Hr) as (m1 & Hf' & Hg' & _). rewrite Hf in Hf'.
    injection Hf' as _ <-. eauto.
  - destruct (finish_good m R l r Hg Hr) as (m1' & m2 & l' & Hf' & Hh' & Hg' & _).
    rewrite Hf in Hf'. injection Hf' as _ <-. rewrite Hh in Hh'. injection Hh' as _ <-. eauto.
  - destruct (reset_good m R l Hg) as (ok & m1 & Hf & Hg' & _).
    rewrite Hf in Hrs. injection Hrs as _ <-. eauto.
Qed.

Lemma good_rtc w w' l : good w l -> rtc step w w' -> exists l', good w' l'.
Proof.
  intros Hg Hs. revert l Hg. induction Hs as [w|w w1 w' H1 _ IH]; intros l Hg; [eauto|].
  destruct (step_good _ _ _ Hg H1) as (l1 & Hg1). by apply (IH l1).
Qed.

Lemma client_reached_good w : client_reached w -> exists l, good w l.
Proof.
  intros (bs & n & len & pre & m0 & Hbs & Hn & Hpre & Hinit & Hsteps).
  destruct (manager_init_wf bs n len true pre Hbs Hn) as (m1 & Hinit' & Hw).
  rewrite Hinit in Hinit'. injection Hinit' as <-.
  assert (Hg : good (m0, ∅) (seqZ 0 (Z.of_nat n))).
  { unfold init in Hinit. rewrite (proj2 (Z.eqb_neq _ _)) in Hinit by lia.
    destruct (V1BlockPool.init n true) as [p|]; [|done]. injection Hinit as <-.
    split; cbn [fst snd]; try done.
    split; cbn; [by apply cdiv_nonneg|done]. }
  eapply good_rtc; [exact Hg|done].
Qed.

(** ** Hashes computed as tokens arrive, and from scratch *)

(** C10. Block hashes are computed block by block as a request's tokens are
    allocated; they always agree with hashing the request from scratch.  For a
    live request, [hash_request_tokens] on its current tokens returns one hash
    per full block, the hashes on record are a prefix of these, the first
    [num_cached_block] blocks of the request carry the first of them in order,
    and its other blocks carry none. *)
Theorem incremental_hashes_agree m R id r :
  client_reached (m, R) -> R !! id = Some r ->
  exists hs, hash_request_tokens py_hash hash_none (block_size m) r = Ok hs /\
    Z.of_nat (length hs) = Request.num_tokens r / block_size m /\
    default [] (req_to_block_hashes m !! id) `prefix_of` hs /\
    match num_cached_block m !! id with
    | None => default [] (req_to_blocks m !! id) = []
    | Some k =>
        0 <= k <= Z.of_nat (length (default [] (req_to_blocks m !! id))) /\
        forall i b, default [] (req_to_blocks m !! id) !! i = Some b ->
          KVCacheBlock.block_hash (V1BlockPool.block (block_pool m) b) =
            if decide (Z.of_nat i < k) then hs !! i else None
    end.
Proof.
  intros [l [Hw _ _ Hlive _]]%client_reached_good Hr. cbn [fst snd] in *.
  destruct (Hlive _ _ Hr) as (<- & Htext & Htr). pose proof (wf_size _ _ Hw) as Hbs.
  rewrite (hash_request_tokens_text py_hash hash_none _ r Htext Hbs).
  eexists. split; [reflexivity|]. rewrite length_map, length_seq.
  pose proof (tracks_len _ _ m r Htr) as [Hk Hle]. split_and!.
  - unfold num_full. rewrite Z2Nat.id; [done|]. apply Z.div_pos; [|done].
    unfold Request.num_tokens. lia.
  - fold (known_hashes m (Request.request_id r)). rewrite Hk.
    eexists (map _ (seq (length (known_hashes m (Request.request_id r)))
      (num_full (block_size m) r - length (known_hashes m (Request.request_id r))))).
    rewrite <- map_app, <- seq_app. do 2 f_equal. lia.
  - destruct Htr as [_ Ht]. destruct (num_cached_block m !! _) as [n|]; [|done].
    destruct Ht as (k & -> & [Hl Hi] & Hkl). split; [unfold table in Hl; lia|].
    intros i b Hb. rewrite (lookup_chain py_hash hash_none). etransitivity; [apply (Hi i b Hb)|].
    repeat case_decide; (done || lia).
Qed.

(** ** [allocate_slots] answers *)

(** The calls of [allocate_slots] the protocol makes: without computed blocks
    for a request that has slots, and with some of the blocks that
    [get_computed_blocks] has just returned for a request that has none. *)
Inductive offered (R : gmap string Request.t) (r : Request.t) : t -> option (list Z) -> Prop :=
  | offered_running m :
      client_reached (m, R) -> is_Some (num_cached_block m !! Request.request_id r) ->
      offered R r m None
  | offered_new m0 cb n0 m j :
      client_reached (m0, R) -> num_cached_block m0 !! Request.request_id r = None ->
      get_computed_blocks r m0 = (Ok (cb, n0), m) -> offered R r m (Some (take j cb)).

Lemma offered_good R r m oc :
  offered R r m oc -> R !! Request.request_id r = Some r ->
  exists l, good (m, R) l /\ computed py_hash hash_none m r (default [] oc) /\
    (is_Some (num_cached_block m !! Request.request_id r) -> default [] oc = []).
Proof.
  intros [m1 Hm Hn|m0 cb n0 m1 j Hm Hn Hg] Hr.
  - destruct (client_reached_good _ Hm) as [l Hgood]. exists l. split_and!; [done| |done].
    split; [intros i b; cbn; by rewrite lookup_nil|cbn; lia].
  - destruct (client_reached_good _ Hm) as [l Hgood]. exists l.
    destruct (schedule_new_good m0 R l r Hgood Hr Hn) as
      (cb' & m1' & Hg' & Hgood' & Hcp & _ & _ & Hnc & _).
    rewrite Hg in Hg'. injection Hg' as <- _ <-. split_and!; [done|by apply computed_take|].
    rewrite Hnc, Hn. by intros [? [=]].
Qed.

(** C11. Allocation answers and is fair to the other requests.  Under the
    protocol [allocate_slots] raises nothing: it returns [None], with all tables
    as they were, exactly when the new blocks needed exceed the free blocks that
    are not among the computed ones; otherwise it returns new blocks, at least
    as many as needed, pairwise different and in no request's table, and appends
    the computed and the new blocks to the table of this request only. *)
Theorem allocate_slots_answers R r m n oc k :
  offered R r m oc -> R !! Request.request_id r = Some r -> fits m r n oc k ->
  let id := Request.request_id r in
  let free := V1BlockPool.get_num_free_blocks (block_pool m) in
  if decide (free - evictable m (default [] oc) < new_needed m r n oc)
  then exists m', allocate_slots r n oc m = (Ok None, m') /\
         forall id', table m' id' = table m id'
  else exists new m', allocate_slots r n oc m = (Ok (Some new), m') /\
         new_needed m r n oc <= Z.of_nat (length new) /\ NoDup new /\
         (forall b id', b ∈ new -> b ∉ table m id') /\
         table m' id = table m id ++ default [] oc ++ new /\
         forall id', id' <> id -> table m' id' = table m id'.
Proof.
  intros Hoff Hr Hfit id free. destruct (offered_good R r m oc Hoff Hr) as (l & Hg & Hcp & Hrun).
  pose proof Hg as [Hw _ _ _ _]. cbn [fst] in Hw. unfold free.
  rewrite (get_num_free_ok _ _ (wf_pool _ _ Hw)).
  pose proof (allocate_good m R l r n oc k Hg Hr Hfit Hcp Hrun) as H. case_decide.
  - destruct H as (m' & Ha & _ & _ & Ht & _). eauto.
  - destruct H as (new & l' & m' & Ha & _ & Hq & Ht & Hlen & _ & Ho).
    pose proof (ot_table _ _ _ Ho) as Ho'. exists new, m'.
    assert (Hsub : forall b, b ∈ new -> b ∈ l).
    { intros b Hb. assert (Hin : b ∈ filter (fun b => b ∉ default [] oc) l)
        by (rewrite Hq; apply elem_of_app; by left).
      by apply list_elem_of_filter in Hin as [_ ?]. }
    split_and!; try done.
    + assert (Hnd : NoDup (new ++ l')); [|by apply NoDup_app in Hnd as [? _]].
      rewrite <- Hq. apply NoDup_filter, (FreeQueue.repr_nodup _ _ (inv_queue _ _ (wf_pool _ _ Hw))).
    + intros b id' Hb. apply (free_not_held m l id' b Hw). by apply Hsub.
Qed.

(** ** A freed prefix is found again *)

(** Two requests with the same adapter and the same first [k] blocks of tokens. *)
Definition same_prefix (bs : Z) (k : nat) (r r' : Request.t) : Prop :=
  Request.lora_request r = Request.lora_request r' /\
  forall i, (i < k)%nat -> block_tokens bs r i = block_tokens bs r' i.

Lemma same_prefix_chain bs k r r' i :
  same_prefix bs k r r' -> (i < k)%nat -> chain bs r' i = chain bs r i.
Proof.
  intros [Hl Ht]. assert (Hk : text_keys r' = text_keys r) by (unfold text_keys; by rewrite Hl).
  induction i as [|i IH]; intros Hi; cbn [BlockHashing.chain]; rewrite Hk, (Ht _ Hi); [done|].
  by rewrite IH by lia.
Qed.

(** C12. What was cached is found again.  A request with [k] cached blocks is
    freed; then [get_computed_blocks] returns at least [k] blocks for a live
    request that has the same first [k] blocks of tokens (the freed one itself
    when it is resumed, or another one), and these carry the same hashes as the
    [k] blocks that were freed. *)
Theorem freed_prefix_found_again m R r r' k hs :
  client_reached (m, R) ->
  R !! Request.request_id r = Some r -> R !! Request.request_id r' = Some r' ->
  num_cached_block m !! Request.request_id r = Some (Z.of_nat k) ->
  same_prefix (block_size m) k r r' ->
  hash_request_tokens py_hash hash_none (block_size m) r' = Ok hs -> (k <= length hs)%nat ->
  (known_hashes m (Request.request_id r') = [] \/
   (k <= length (known_hashes m (Request.request_id r')))%nat) ->
  prompt_logprobs (Request.sampling_params r') = None ->
  exists m1 cb m2,
    free r m = (Ok tt, m1) /\
    get_computed_blocks r' m1 = (Ok (cb, Z.of_nat (length cb) * block_size m), m2) /\
    (k <= length cb)%nat /\
    forall i b, (i < k)%nat -> cb !! i = Some b ->
      exists b', table m (Request.request_id r) !! i = Some b' /\
        V1PoolCorrect.hash (block_pool m2) b = V1PoolCorrect.hash (block_pool m) b'.
Proof.
  intros [l Hg]%client_reached_good Hr Hr' Hnc Hsame Hhs Hkhs Hkn Hlp.
  pose proof Hg as [Hw Hca _ Hlive _]. cbn [fst snd] in *.
  pose proof (wf_size _ _ Hw) as Hbs.
  destruct (Hlive _ _ Hr) as (_ & Htext & [_ Htab]). rewrite Hnc in Htab.
  destruct Htab as (k' & Hkk & [Hlen Hi] & _). assert (k' = k) as -> by lia. clear Hkk.
  destruct (free_good m R l r Hg Hr) as (m1 & Hf & Hg1 & Hh1 & _ & _ & [Hss1 _ _ _ _] & Hha1).
  pose proof Hg1 as [Hw1 Hca1 _ Hlive1 _]. cbn [fst snd] in *.
  destruct (Hlive1 _ _ Hr') as (_ & Htext' & Htr').
  destruct (get_computed_ok py_hash hash_none m1 _ r' Hw1 Hca1 Htext' Htr') as
    (cb & m2 & Hrun & Hlu & Htr2 & Hcp & _ & Hknown & Hfound).
  rewrite (ss_size _ _ Hss1) in Hrun. exists m1, cb, m2.
  assert (Hl : (k <= length (known_hashes m2 (Request.request_id r')))%nat).
  { rewrite Hknown. unfold known_hashes at 1. rewrite Hh1.
    fold (known_hashes m (Request.request_id r')).
    rewrite (hash_request_tokens_text py_hash hash_none _ r' Htext' Hbs) in Hhs.
    injection Hhs as <-. rewrite length_map, length_seq in Hkhs. rewrite (ss_size _ _ Hss1).
    destruct Hkn as [->|Hkn]; [done|].
    destruct (known_hashes m _); [cbn in Hkn; lia|done]. }
  assert (Hkcb : (k <= length cb)%nat).
  { destruct (decide (k <= length cb)%nat) as [|Hlt]; [done|]. exfalso.
    destruct (Hfound Hlp) as [_ Hmost].
    destruct (lookup_lt_is_Some_2 (table m (Request.request_id r)) (length cb)) as [b Hb]; [lia|].
    pose proof (Hi _ _ Hb) as Hbh. rewrite decide_True in Hbh by lia.
    pose proof (tracks_len _ _ m2 r' Htr2) as [Hk2 _].
    apply (Hmost (chain (block_size m) r (length cb))) with b.
    - rewrite Hk2, (lookup_chain py_hash hash_none), decide_True by lia. f_equal.
      rewrite (ss_size _ _ (lu_setup _ _ Hlu)), (ss_size _ _ Hss1).
      apply (same_prefix_chain _ k); [done|lia].
    - rewrite <- Hbh. apply Hha1. }
  split_and!; [done|done|done|]. intros i b Hik Hb.
  destruct (lookup_lt_is_Some_2 (table m (Request.request_id r)) i) as [b' Hb']; [lia|].
  exists b'. split; [done|]. pose proof (Hi _ _ Hb') as Hbh. rewrite decide_True in Hbh by lia.
  unfold hash_of in Hbh. rewrite Hbh. pose proof (cp_hash _ _ _ _ _ Hcp i b Hb) as Hc.
  unfold hash_of in Hc. rewrite Hc, (ss_size _ _ (lu_setup _ _ Hlu)), (ss_size _ _ Hss1).
  f_equal. by apply (same_prefix_chain _ k).
Qed.
End Protocol.

(** ** A sample run: two requests that share two blocks *)

Definition sample_live : gmap string Request.t := <["b" := sample_b]> {["a" := sample_a]}.

Lemma sample_reached0 : client_reached sample_hash 17 (sample_m0, {["a" := sample_a]}).
Proof.
  exists 2, 4%nat, 8, 0, sample_m0. split_and!; [lia|lia|lia|vm_compute; reflexivity|].
  apply rtc_once, (step_arrive _ _ _ _ sample_a); [apply lookup_empty|done].
Defined.

Lemma sample_offered : offered sample_hash 17 {["a" := sample_a]} sample_a sample_m1 (Some []).
Proof.
  apply (offered_new _ _ _ _ sample_m0 [] 0 _ 0); [apply sample_reached0|done|].
  vm_compute; reflexivity.
Defined.

Lemma sample_fits : fits sample_m1 sample_a 5 (Some []) 0.
Proof. split; vm_compute; done. Defined.

Lemma sample_reached2 : client_reached sample_hash 17 (sample_m2, sample_live).
Proof.
  destruct sample_reached0 as (bs & n & len & pre & m0 & H1 & H2 & H3 & H4 & Hs).
  exists bs, n, len, pre, m0. split_and!; [done..|].
  eapply rtc_r; [eapply rtc_r; [exact Hs|]|].
  - apply (step_schedule_new _ _ sample_m0 _ sample_a [] 0 sample_m1 0 5 0 (Ok (Some [0; 1; 2]))
             sample_m2); [done|done|vm_compute; reflexivity|apply sample_fits|].
    vm_compute; reflexivity.
  - apply (step_arrive _ _ _ _ sample_b); [|done]. vm_compute. reflexivity.
Defined.

Lemma sample_cached : num_cached_block sample_m2 !! "a" = Some 2.
Proof. vm_compute; reflexivity. Defined.
Lemma sample_table : default [] (req_to_blocks sample_m2 !! "a") = [0; 1; 2].
Proof. vm_compute; reflexivity. Defined.

Lemma incremental_hashes_agree_witness :
  num_cached_block sample_m2 !! "a" = Some 2 /\
  exists hs, hash_request_tokens sample_hash 17 2 sample_a = Ok hs /\ length hs = 2%nat /\
    (hash_of sample_m2 <$> default [] (req_to_blocks sample_m2 !! "a")) =
      [hs !! 0%nat; hs !! 1%nat; None].
Proof.
  split; [apply sample_cached|].
  destruct (incremental_hashes_agree sample_hash 17 sample_m2 sample_live "a" sample_a
    sample_reached2 ltac:(vm_compute; reflexivity)) as (hs & Hhs & _ & _ & Hi).
  exists hs. split; [exact Hhs|]. split.
  - assert (Hlen : forall x, Ok hs = x -> match x with Ok l => length l = 2%nat | Err _ => False end ->
      length hs = 2%nat) by (by intros x <-).
    eapply Hlen; [symmetry; exact Hhs|]. vm_compute. reflexivity.
  - rewrite sample_cached in Hi. rewrite sample_table in Hi |- *. destruct Hi as [_ Hi].
    pose proof (Hi 0%nat 0 eq_refl) as H0. pose proof (Hi 1%nat 1 eq_refl) as H1.
    pose proof (Hi 2%nat 2 eq_refl) as H2. rewrite decide_True in H0, H1 by lia.
    rewrite decide_False in H2 by lia.
    cbn [fmap list_fmap]. unfold hash_of, V1PoolCorrect.hash. by rewrite H0, H1, H2.
Defined.

Lemma allocate_slots_answers_witness :
  exists new m', allocate_slots sample_hash 17 sample_a 5 (Some []) sample_m1 =
      (Ok (Some new), m') /\
    3 <= Z.of_nat (length new) /\ NoDup new /\ table m' "a" = new.
Proof.
  pose proof (allocate_slots_answers sample_hash 17 {["a" := sample_a]} sample_a sample_m1
    5 (Some []) 0 sample_offered ltac:(vm_compute; reflexivity) sample_fits) as H.
  cbv zeta in H. rewrite decide_False in H by (vm_compute; congruence).
  destruct H as (new & m' & Ha & Hlen & Hnd & _ & Ht & _). exists new, m'.
  split; [exact Ha|]. split; [exact Hlen|]. split; [exact Hnd|]. exact Ht.
Defined.

Lemma freed_prefix_found_again_witness :
  exists m1 cb m2, free sample_a sample_m2 = (Ok tt, m1) /\
    get_computed_blocks sample_hash 17 sample_b m1 = (Ok (cb, Z.of_nat (length cb) * 2), m2) /\
    (2 <= length cb)%nat.
Proof.
  edestruct (freed_prefix_found_again sample_hash 17 sample_m2 sample_live sample_a sample_b 2)
    as (m1 & cb & m2 & Hf & Hg & Hl & _).
  - apply sample_reached2.
  - vm_compute; reflexivity.
  - vm_compute; reflexivity.
  - vm_compute; reflexivity.
  - split; [reflexivity|]. intros [|[|i]] Hi; [reflexivity|reflexivity|lia].
  - vm_compute; reflexivity.
  - cbn; lia.
  - left. vm_compute. reflexivity.
  - reflexivity.
  - exists m1, cb, m2. split; [exact Hf|]. split; [exact Hg|exact Hl].
Defined.
