(* ===== verification/EncoderCache.v ===== *)
(** * v1: the encoder cache ([vllm/v1/core/encoder_cache_manager.py])

    Which encoder outputs are cached, and how many slots (encoder tokens) are
    left.  A Python set of input ids is a [gset nat]; where the code iterates
    over one, the model goes through [elements].  The multi-modal registry is a
    parameter of [compute_encoder_budget]. *)
From S2P Require Import Prelude.
From S2P Require Import PyDict.
From S2P Require Import V1Request.

Module EncoderCache.

Record t : Type := Encoder {
  cache_size : Z;
  num_free_slots : Z;
  cached : gmap string (gset nat);
  freed : list (string * nat);
}.

Definition with_slots n s := Encoder (cache_size s) n (cached s) (freed s).
Definition with_cached c s := Encoder (cache_size s) (num_free_slots s) c (freed s).
Definition with_freed f s := Encoder (cache_size s) (num_free_slots s) (cached s) f.

Definition init (cache_size : Z) : t := Encoder cache_size cache_size ∅ [].

Definition get_cached_input_ids (request : Request.t) (s : t) : gset nat :=
  default ∅ (cached s !! Request.request_id request).

Definition has_cache (request : Request.t) (input_id : nat) (s : t) : bool :=
  match cached s !! Request.request_id request with
  | None => false
  | Some ids => bool_decide (input_id ∈ ids)
  end.

Definition can_allocate (request : Request.t) (input_id : nat) (s : t) : result bool :=
  num_tokens ← Request.get_num_encoder_tokens input_id request;
  Ok (num_tokens <=? num_free_slots s).

Definition allocate (request : Request.t) (input_id : nat) : M t unit :=
  let req_id := Request.request_id request in
  modify (fun s =>
    with_cached (<[req_id := {[input_id]} ∪ default ∅ (cached s !! req_id)]> (cached s)) s) ;;
  n ← lift (Request.get_num_encoder_tokens input_id request);
  modify (fun s => with_slots (num_free_slots s - n) s).

Definition free_encoder_input (request : Request.t) (input_id : nat) : M t unit :=
  let req_id := Request.request_id request in
  c ← gets cached;
  match c !! req_id with
  | None => mret tt
  | Some ids =>
      let ids := ids ∖ {[input_id]} in
      modify (with_cached (if decide (ids = ∅) then delete req_id c else <[req_id := ids]> c)) ;;
      n ← lift (Request.get_num_encoder_tokens input_id request);
      modify (fun s => with_slots (num_free_slots s + n) s) ;;
      modify (fun s => with_freed (freed s ++ [(req_id, input_id)]) s)
  end.

Definition free (request : Request.t) : M t unit :=
  ids ← gets (get_cached_input_ids request);
  for_each (elements ids) (free_encoder_input request).

Definition get_freed_ids : M t (list (string * nat)) := fun s => (Ok (freed s), with_freed [] s).

(** [compute_encoder_budget]: the registry's answer is the list of modalities
    with the greatest number of tokens an item of each can have. *)
Definition compute_encoder_budget_multimodal (max_tokens_by_modality : list (string * Z))
    (max_num_encoder_input_tokens encoder_cache_size : Z) : Z * Z :=
  match py_max (fun '(_, n) => [inject_Z n]) max_tokens_by_modality with
  | None => (0, 0)
  | Some (_, max_tokens_per_mm_item) =>
      (Z.max max_num_encoder_input_tokens max_tokens_per_mm_item,
       Z.max encoder_cache_size max_tokens_per_mm_item)
  end.

Definition compute_encoder_budget (is_multimodal_model : bool)
    (max_tokens_by_modality : list (string * Z))
    (max_num_encoder_input_tokens encoder_cache_size : Z) : Z * Z :=
  if negb is_multimodal_model then (0, 0)
  else compute_encoder_budget_multimodal max_tokens_by_modality
         max_num_encoder_input_tokens encoder_cache_size.

(** ** Slots are conserved *)

Section Slots.
(** The client's requests: one object per id, whose multi-modal inputs are fixed
    and have lengths that are not negative. *)
Context (req : string -> Request.t).
Context (req_id : forall id, Request.request_id (req id) = id).
Context (req_len : forall id p, p ∈ Request.mm_positions (req id) -> 0 <= length_ p).

(** The encoder tokens of input [i] of request [id]. *)
Definition tokens (id : string) (i : nat) : Z :=
  default 0 (length_ <$> Request.mm_positions (req id) !! i).

Definition tokens_of (id : string) (l : list nat) : Z := foldr (fun i n => tokens id i + n) 0 l.
Definition used (c : gmap string (gset nat)) : Z :=
  foldr (fun '(id, ids) n => tokens_of id (elements ids) + n) 0 (map_to_list c).

Definition is_input (id : string) (i : nat) : Prop :=
  (i < length (Request.mm_positions (req id)))%nat.

Lemma tokens_ok id i :
  is_input id i -> Request.get_num_encoder_tokens i (req id) = Ok (tokens id i).
Proof.
  intros Hi. unfold Request.get_num_encoder_tokens. rewrite bool_decide_true by done.
  unfold tokens. by destruct (lookup_lt_is_Some_2 _ _ Hi) as [p ->].
Qed.

Lemma tokens_nonneg id i : 0 <= tokens id i.
Proof.
  unfold tokens. destruct (_ !! i) as [p|] eqn:E; cbn; [|done].
  eapply req_len, list_elem_of_lookup_2. exact E.
Qed.

Lemma tokens_of_cons id i l : tokens_of id (i :: l) = tokens id i + tokens_of id l.
Proof. done. Qed.

Lemma tokens_of_perm id l l' : l ≡ₚ l' -> tokens_of id l = tokens_of id l'.
Proof. unfold tokens_of. induction 1; cbn; lia. Qed.

Lemma tokens_of_nonneg id l : 0 <= tokens_of id l.
Proof. induction l as [|i l IH]; [done|]. pose proof (tokens_nonneg id i). unfold tokens_of in *. cbn. lia. Qed.

Lemma used_fresh c id ids :
  c !! id = None -> used (<[id := ids]> c) = used c + tokens_of id (elements ids).
Proof.
  intros Hid. unfold used.
  assert (Hp : forall (l l' : list (string * gset nat)), l ≡ₚ l' ->
    foldr (fun '(id, ids) n => tokens_of id (elements ids) + n) 0 l =
    foldr (fun '(id, ids) n => tokens_of id (elements ids) + n) 0 l').
  { induction 1 as [|[? ?]|[? ?] [? ?]|]; cbn; lia. }
  rewrite (Hp _ _ (map_to_list_insert c id ids Hid)). cbn. lia.
Qed.

Lemma used_delete c id :
  used (delete id c) = used c - tokens_of id (elements (default ∅ (c !! id))).
Proof.
  destruct (c !! id) as [ids|] eqn:E; cbn [default from_option].
  - rewrite <- (insert_id c id ids E) at 2. rewrite <- (insert_delete_eq c id ids).
    rewrite used_fresh by apply lookup_delete_eq. unfold Datatypes.id. lia.
  - rewrite delete_id by done. rewrite elements_empty. cbn. lia.
Qed.

Lemma used_insert c id ids :
  used (<[id := ids]> c) =
  used c - tokens_of id (elements (default ∅ (c !! id))) + tokens_of id (elements ids).
Proof.
  rewrite <- insert_delete_eq, used_fresh by apply lookup_delete_eq. rewrite used_delete. lia.
Qed.

Lemma used_nonneg c : 0 <= used c.
Proof.
  unfold used. induction (map_to_list c) as [|[id ids] l IH]; cbn; [done|].
  pose proof (tokens_of_nonneg id (elements ids)). lia.
Qed.

Record slots_ok (s : t) : Prop := SlotsOk {
  so_sum : num_free_slots s + used (cached s) = cache_size s;
  so_free : 0 <= num_free_slots s;
  so_ids : forall id ids, cached s !! id = Some ids ->
    ids <> ∅ /\ forall i, i ∈ ids -> is_input id i;
}.

Lemma encoder_allocate_ok s id i :
  slots_ok s -> is_input id i -> has_cache (req id) i s = false ->
  can_allocate (req id) i s = Ok true ->
  exists s', allocate (req id) i s = (Ok tt, s') /\ slots_ok s' /\
    has_cache (req id) i s' = true /\ cache_size s' = cache_size s /\
    num_free_slots s' = num_free_slots s - tokens id i.
Proof.
  intros [Hsum Hfree Hids] Hi Hno Hcan. unfold can_allocate in Hcan.
  unfold allocate, has_cache in *. cbv zeta.
  rewrite (tokens_ok id i Hi) in Hcan. cbn in Hcan. injection Hcan as Hcan.
  rewrite bind_run. cbn [modify]. rewrite bind_run, (tokens_ok id i Hi). cbn [lift modify].
  eexists. split; [reflexivity|]. rewrite req_id in *. cbn.
  assert (Hnot : i ∉ default ∅ (cached s !! id)).
  { destruct (cached s !! id); cbn; [|apply not_elem_of_empty].
    by apply bool_decide_eq_false in Hno. }
  split_and!; [|rewrite lookup_insert_eq; apply bool_decide_eq_true, elem_of_union;
    left; by apply elem_of_singleton|done|done].
  split; cbn.
  - rewrite used_insert. pose proof (tokens_of_perm id _ _
      (elements_union_singleton (default ∅ (cached s !! id)) i Hnot)) as Hp.
    rewrite tokens_of_cons in Hp. lia.
  - lia.
  - intros id' ids'. rewrite lookup_insert_Some. intros [[<- <-]|[Hne Hl]]; [|by apply Hids].
    split.
    { intros He. assert (Hin : i ∈ {[i]} ∪ default ∅ (cached s !! id))
        by (apply elem_of_union; left; by apply elem_of_singleton).
      rewrite He in Hin. by apply not_elem_of_empty in Hin. }
    intros j [->%elem_of_singleton|Hj]%elem_of_union; [done|].
    destruct (cached s !! id) as [ids|] eqn:E; cbn in Hj; [by apply (Hids id ids)|].
    by apply not_elem_of_empty in Hj.
Qed.

Lemma free_encoder_input_ok s id i :
  slots_ok s -> has_cache (req id) i s = true ->
  exists s', free_encoder_input (req id) i s = (Ok tt, s') /\ slots_ok s' /\
    cache_size s' = cache_size s /\ num_free_slots s' = num_free_slots s + tokens id i /\
    get_cached_input_ids (req id) s' = get_cached_input_ids (req id) s ∖ {[i]} /\
    freed s' = freed s ++ [(id, i)].
Proof.
  intros [Hsum Hfree Hids] Hhas. unfold free_encoder_input, has_cache, get_cached_input_ids in *.
  rewrite req_id in *. cbv zeta. rewrite bind_run. cbn [gets].
  destruct (cached s !! id) as [ids|] eqn:E; [|done]. apply bool_decide_eq_true in Hhas.
  destruct (Hids id ids E) as [Hne Hin]. pose proof (Hin i Hhas) as Hi.
  rewrite bind_run. cbn [modify]. rewrite bind_run, (tokens_ok id i Hi). cbn [lift].
  rewrite bind_run. cbn [modify]. eexists. split; [reflexivity|]. cbn.
  assert (Hperm : elements ids ≡ₚ i :: elements (ids ∖ {[i]})).
  { rewrite <- elements_union_singleton
      by (intros [_ Hd]%elem_of_difference; by apply Hd, elem_of_singleton).
    assert (Heq : ids = {[i]} ∪ ids ∖ {[i]}); [|by rewrite <- Heq].
    apply set_eq. intros x. rewrite elem_of_union, elem_of_difference, elem_of_singleton.
    destruct (decide (x = i)) as [->|]; tauto. }
  pose proof (tokens_of_perm id _ _ Hperm) as Ht. rewrite tokens_of_cons in Ht.
  assert (Hused : used (if decide (ids ∖ {[i]} = ∅) then delete id (cached s)
                        else <[id := ids ∖ {[i]}]> (cached s)) =
                  used (cached s) - tokens id i).
  { case_decide as Hemp.
    - rewrite used_delete, E. change (default ∅ (Some ids)) with ids.
      rewrite Ht, Hemp, elements_empty. change (tokens_of id []) with 0. lia.
    - rewrite used_insert, E. change (default ∅ (Some ids)) with ids. lia. }
  split_and!; try done.
  - split; cbn.
    + rewrite Hused. lia.
    + pose proof (tokens_nonneg id i). lia.
    + intros id' ids'. destruct (decide (ids ∖ {[i]} = ∅)) as [Hemp|Hemp].
      * intros [_ Hl]%lookup_delete_Some. by apply Hids.
      * intros [[<- <-]|[_ Hl]]%lookup_insert_Some; [|by apply Hids].
        split; [done|]. intros j [Hj _]%elem_of_difference. by apply Hin.
  - destruct (decide (ids ∖ {[i]} = ∅)) as [Hemp|Hemp].
    + rewrite lookup_delete_eq. cbn. unfold Datatypes.id. by rewrite Hemp.
    + by rewrite lookup_insert_eq.
Qed.

Lemma free_loop_ok id l s :
  slots_ok s -> NoDup l -> (forall i, i ∈ l -> i ∈ get_cached_input_ids (req id) s) ->
  exists s', for_each l (free_encoder_input (req id)) s = (Ok tt, s') /\ slots_ok s' /\
    cache_size s' = cache_size s /\ num_free_slots s' = num_free_slots s + tokens_of id l /\
    (forall i, i ∈ get_cached_input_ids (req id) s' <->
       i ∈ get_cached_input_ids (req id) s /\ i ∉ l) /\
    freed s' = freed s ++ map (pair id) l.
Proof.
  intros Hok Hnd. revert s Hok. induction Hnd as [|i l Hi Hnd IH]; intros s Hok Hin.
  { exists s. cbn [for_each map]. rewrite app_nil_r. split_and!; try done.
    - change (tokens_of id []) with 0. lia.
    - intros i. pose proof (not_elem_of_nil i). tauto. }
  assert (Hhas : has_cache (req id) i s = true).
  { pose proof (Hin i ltac:(left)) as H. unfold has_cache, get_cached_input_ids in *.
    destruct (cached s !! _) as [ids|]; cbn in H; [by apply bool_decide_eq_true|].
    by apply not_elem_of_empty in H. }
  destruct (free_encoder_input_ok s id i Hok Hhas) as (s1 & Hrun & Hok1 & Hsz & Hn & Hc & Hf).
  cbn [for_each map]. rewrite (bind_step _ _ _ _ _ Hrun).
  destruct (IH s1 Hok1) as (s' & -> & Hok' & Hsz' & Hn' & Hc' & Hf').
  { intros j Hj. rewrite Hc, elem_of_difference, elem_of_singleton.
    split; [apply Hin; by right|]. by intros ->. }
  exists s'. split_and!; [done|done|congruence| | |].
  - rewrite Hn', Hn, tokens_of_cons. lia.
  - intros j. rewrite Hc', Hc, elem_of_difference, elem_of_singleton, elem_of_cons. tauto.
  - by rewrite Hf', Hf, <- app_assoc.
Qed.

Lemma free_request_ok id s :
  slots_ok s ->
  exists s', free (req id) s = (Ok tt, s') /\ slots_ok s' /\ cached s' !! id = None /\
    num_free_slots s' = num_free_slots s +
      tokens_of id (elements (get_cached_input_ids (req id) s)) /\
    freed s' = freed s ++ map (pair id) (elements (get_cached_input_ids (req id) s)).
Proof.
  intros Hok. unfold free. rewrite bind_run. cbn [gets].
  destruct (free_loop_ok id (elements (get_cached_input_ids (req id) s)) s Hok) as
    (s' & Hrun & Hok' & _ & Hn & Hc & Hf).
  - apply NoDup_elements.
  - intros i. by rewrite elem_of_elements.
  - exists s'. split_and!; try done.
    destruct (cached s' !! id) as [ids|] eqn:E; [|done].
    destruct (so_ids _ Hok' id ids E) as [Hne _].
    destruct (set_choose_L ids Hne) as [i Hi].
    pose proof (proj1 (Hc i)) as H. unfold get_cached_input_ids at 1 in H.
    rewrite req_id, E in H. destruct (H Hi) as [H1 H2]. by rewrite elem_of_elements in H2.
Qed.

(** The calls of a client that allocates an input when it is not cached and
    fits, and frees one when it is cached.  (The scheduler checks several inputs
    before it allocates them: see [EngineCore].) *)
Inductive step : t -> t -> Prop :=
  | step_allocate s id i res s' :
      is_input id i -> has_cache (req id) i s = false ->
      can_allocate (req id) i s = Ok true ->
      allocate (req id) i s = (res, s') -> step s s'
  | step_free_input s id i res s' :
      has_cache (req id) i s = true -> free_encoder_input (req id) i s = (res, s') -> step s s'
  | step_free s id res s' : free (req id) s = (res, s') -> step s s'
  | step_get_freed s res s' : get_freed_ids s = (res, s') -> step s s'.

Lemma step_slots s s' : slots_ok s -> step s s' -> slots_ok s' /\ cache_size s' = cache_size s.
Proof.
  intros Hok Hs. destruct Hs as [s id i res s' Hi Hno Hcan H|s id i res s' Hhas H
    |s id res s' H|s res s' H].
  - destruct (encoder_allocate_ok s id i Hok Hi Hno Hcan) as (s1 & H1 & Hok1 & _ & Hsz & _).
    rewrite H in H1. injection H1 as _ <-. done.
  - destruct (free_encoder_input_ok s id i Hok Hhas) as (s1 & H1 & Hok1 & Hsz & _).
    rewrite H in H1. injection H1 as _ <-. done.
  - unfold free in H. rewrite bind_run in H. cbn [gets] in H.
    destruct (free_loop_ok id (elements (get_cached_input_ids (req id) s)) s Hok) as
      (s1 & H1 & Hok1 & Hsz & _).
    + apply NoDup_elements.
    + intros i. by rewrite elem_of_elements.
    + rewrite H in H1. injection H1 as _ <-. done.
  - injection H as _ <-. split; [|done]. by destruct Hok.
Qed.

(** Encoder slots are conserved: in every state reached by these
    calls the free slots and the tokens of the cached inputs add up to the size
    of the cache, so the cache is never overcommitted; and freeing a request
    returns the slots of all its cached inputs, reports each of them once, and
    leaves nothing of it in the cache. *)
Theorem encoder_slots_conserved size s :
  0 <= size -> rtc step (init size) s ->
  num_free_slots s + used (cached s) = size /\ 0 <= num_free_slots s <= size /\
  forall id, exists s', free (req id) s = (Ok tt, s') /\ cached s' !! id = None /\
    num_free_slots s' = num_free_slots s +
      tokens_of id (elements (get_cached_input_ids (req id) s)) /\
    freed s' = freed s ++ map (pair id) (elements (get_cached_input_ids (req id) s)).
Proof.
  intros Hsize Hs.
  assert (Hok : slots_ok s /\ cache_size s = size).
  { assert (H0 : slots_ok (init size) /\ cache_size (init size) = size).
    { split; [|done]. split; cbn; [unfold used; rewrite map_to_list_empty; cbn; lia|done|].
      intros id ids. rewrite lookup_empty. done. }
    induction Hs as [s|s s1 s' H1 _ IH]; [done|]. apply IH.
    destruct H0 as [Hok Hsz]. destruct (step_slots _ _ Hok H1). split; [done|congruence]. }
  destruct Hok as [Hok <-]. pose proof (used_nonneg (cached s)).
  pose proof (so_sum _ Hok). pose proof (so_free _ Hok). split_and!; [done|done|lia|].
  intros id. destruct (free_request_ok id s Hok) as (s' & Hf & _ & Hc & Hn & Hfr). eauto.
Qed.
End Slots.
End EncoderCache.

(** A request with two images of 3 and 2 encoder tokens, in a cache of 4. *)
Definition sample_images (id : string) : Request.t :=
  Request.Request id (Sampling false (Some 10) None None false []) None None true WAITING []
    None 10 [1; 2; 3; 4; 5; 6] 6 [] [1; 2; 3; 4; 5; 6] [] 0
    [Placeholder 0 3; Placeholder 3 2] [0; 1] [].

Lemma encoder_slots_conserved_witness :
  exists s s', rtc (EncoderCache.step sample_images) (EncoderCache.init 4) s /\
    EncoderCache.num_free_slots s = 1 /\
    EncoderCache.can_allocate (sample_images "r") 1 s = Ok false /\
    EncoderCache.free (sample_images "r") s = (Ok tt, s') /\
    EncoderCache.cached s' !! "r" = None.
Proof.
  set (s := (EncoderCache.allocate (sample_images "r") 0 (EncoderCache.init 4)).2).
  assert (Hs : rtc (EncoderCache.step sample_images) (EncoderCache.init 4) s).
  { apply rtc_once, (EncoderCache.step_allocate _ _ "r" 0 (Ok tt)).
    - unfold EncoderCache.is_input. cbn. lia.
    - reflexivity.
    - reflexivity.
    - vm_compute; reflexivity. }
  destruct (EncoderCache.encoder_slots_conserved sample_images (fun id => eq_refl)
    ltac:(intros id p; cbn; rewrite !elem_of_cons; intros [->|[->|H]];
          [cbn; lia|cbn; lia|by apply not_elem_of_nil in H]) 4 s ltac:(lia) Hs)
    as (_ & _ & Hf).
  destruct (Hf "r") as (s' & Hfree & Hc & _). exists s, s'.
  split; [exact Hs|]. split; [vm_compute; reflexivity|]. split; [vm_compute; reflexivity|].
  split; [exact Hfree|exact Hc].
Defined.
