(* ===== verification/KVCacheConfig.v ===== *)
(** * v1: sizing the KV cache ([vllm/v1/kv_cache_interface.py], and the end of
    [vllm/v1/core/kv_cache_utils.py])

    How the memory that profiling found is divided among the layers.  A torch
    dtype is represented by the size that [get_dtype_size] gives it; log lines
    are left out, but the division they contain is not. *)
From S2P Require Import Prelude.
From S2P Require Import PyDict.
From stdpp Require Import pretty.
#[local] Open Scope Z_scope.

Module KVCacheConfig.

(** ** [FullAttentionSpec], the one kind of layer there is *)

Record FullAttentionSpec : Type := Spec {
  block_size : Z;
  num_kv_heads : Z;
  head_size : Z;
  dtype_size : Z;
  use_mla : bool;
}.

Definition page_size_bytes (l : FullAttentionSpec) : Z :=
  let coef := if use_mla l then 1 else 2 in
  coef * block_size l * num_kv_heads l * head_size l * dtype_size l.

Definition type_id (l : FullAttentionSpec) : string :=
  ("full_attention_" +:+ pretty (block_size l) +:+ "_" +:+ pretty (page_size_bytes l))%string.

Definition bytes_for_tokens (l : FullAttentionSpec) (num_tokens : Z) : result Z :=
  if block_size l =? 0 then Err ZeroDivisionError
  else Ok (cdiv num_tokens (block_size l) * page_size_bytes l).

Abbreviation KVCacheSpec := (pydict string FullAttentionSpec).

(** [KVCacheTensor] has its size as only field. *)
Record t : Type := Config {
  num_blocks : Z;
  tensors : pydict string Z;
  groups : list (list string);
  kv_cache_spec : KVCacheSpec;
}.

(** ** Sizing *)

(** The fields of [VllmConfig] that are read. *)
Record VllmConfig : Type := Vllm {
  max_model_len : Z;
  cache_block_size : Z;
  num_gpu_blocks_override : option Z;
}.

Fixpoint sum_bytes (layers : list FullAttentionSpec) (num_tokens : Z) : result Z :=
  match layers with
  | [] => Ok 0
  | l :: layers =>
      b ← bytes_for_tokens l num_tokens;
      rest ← sum_bytes layers num_tokens;
      Ok (b + rest)
  end.

Definition check_enough_kv_cache_memory (cfg : VllmConfig) (spec : KVCacheSpec)
    (available_memory : Z) : result unit :=
  if available_memory <=? 0 then Err ValueError
  else
    needed_memory ← sum_bytes (values spec) (max_model_len cfg);
    if available_memory <? needed_memory then Err ValueError else Ok tt.

Definition is_kv_cache_type_uniform (spec : KVCacheSpec) : bool :=
  bool_decide (size (list_to_set (map type_id (values spec)) : gset string) = 1%nat).

Definition get_kv_cache_config_uniform_type (cfg : VllmConfig) (spec : KVCacheSpec)
    (available_memory num_layers : Z) : result t :=
  let page_sizes := elements (list_to_set (map page_size_bytes (values spec)) : gset Z) in
  match page_sizes with
  | [page_size] =>
      if (page_size =? 0) || (num_layers =? 0) then Err ZeroDivisionError
      else
        let num_blocks := Z.max (available_memory / page_size / num_layers) 0 in
        let num_blocks := default num_blocks (num_gpu_blocks_override cfg) in
        if max_model_len cfg =? 0 then Err ZeroDivisionError
        else
          let per_layer_size := page_size * num_blocks in
          Ok (Config num_blocks (dfmap (fun _ => per_layer_size) spec) [keys spec] spec)
  | _ => Err AssertionError
  end.

Fixpoint configs_loop (cfg : VllmConfig) (available_memory num_layers : Z)
    (specs : list KVCacheSpec) : result (list t) :=
  match specs with
  | [] => Ok []
  | spec :: specs =>
      check_enough_kv_cache_memory cfg spec available_memory ;;
      if is_kv_cache_type_uniform spec then
        c ← get_kv_cache_config_uniform_type cfg spec available_memory num_layers;
        cs ← configs_loop cfg available_memory num_layers specs;
        Ok (c :: cs)
      else Err NotImplementedError
  end.

Definition get_kv_cache_configs (cfg : VllmConfig) (specs : list KVCacheSpec)
    (available_memory : Z) : result (list t) :=
  match map dlen specs with
  | [] => Err ValueError
  | n :: ns => configs_loop cfg available_memory (foldl Z.max n ns) specs
  end.

(** ** What a configuration promises *)

(** The memory of all its layers. *)
Definition total_size (c : t) : Z := foldr Z.add 0 (values (tensors c)).

Lemma foldl_max_ge ns n : n <= foldl Z.max n ns /\ forall m, m ∈ ns -> m <= foldl Z.max n ns.
Proof.
  revert n. induction ns as [|k ns IH]; intros n; cbn [foldl].
  { split; [lia|]. by intros m ?%not_elem_of_nil. }
  destruct (IH (Z.max n k)) as [H1 H2]. split; [lia|].
  intros m [->|Hm]%elem_of_cons; [lia|auto].
Qed.

Lemma foldl_max_in ns n : foldl Z.max n ns = n \/ foldl Z.max n ns ∈ ns.
Proof.
  revert n. induction ns as [|k ns IH]; intros n; cbn [foldl]; [by left|].
  destruct (IH (Z.max n k)) as [->|H]; [|right; by right].
  destruct (Z.max_spec n k) as [[_ ->]|[_ ->]]; [right; left|by left].
Qed.

Lemma sum_bytes_ok layers n needed page bs :
  0 < bs ->
  (forall l, l ∈ layers -> block_size l = bs /\ page_size_bytes l = page) ->
  sum_bytes layers n = Ok needed -> needed = Z.of_nat (length layers) * (cdiv n bs * page).
Proof.
  intros Hbs. revert needed. induction layers as [|l layers IH]; intros needed Hl; cbn.
  { intros [= <-]. done. }
  destruct (Hl l ltac:(left)) as [Hb Hp]. unfold bytes_for_tokens.
  rewrite Hb, Hp, (proj2 (Z.eqb_neq _ _)) by lia. cbn.
  destruct (sum_bytes layers n) as [rest|] eqn:E; cbn; [|done]. intros [= <-].
  rewrite (IH rest (fun l' H => Hl l' (list_elem_of_further _ _ _ H)) eq_refl). lia.
Qed.

Lemma total_size_uniform (spec : KVCacheSpec) n (g : list (list string)) k :
  total_size (Config k (dfmap (fun _ => n) spec) g spec) = dlen spec * n.
Proof.
  unfold total_size, dlen, dfmap. destruct spec as [its]; cbn. unfold values; cbn.
  induction its as [|[? ?] its IH]; cbn -[Z.mul]; [done|]. rewrite IH. lia.
Qed.

Lemma length_values (spec : KVCacheSpec) : Z.of_nat (length (values spec)) = dlen spec.
Proof. unfold values, dlen. by rewrite length_fmap. Qed.

(** The one page size of a uniform specification. *)
Lemma single_page (spec : KVCacheSpec) page p :
  (forall l, l ∈ values spec -> page_size_bytes l = page) ->
  elements (list_to_set (map page_size_bytes (values spec)) : gset Z) = [p] -> p = page.
Proof.
  intros Hp E. assert (Hin : p ∈ (list_to_set (map page_size_bytes (values spec)) : gset Z)).
  { apply elem_of_elements. rewrite E. left. }
  apply elem_of_list_to_set, list_elem_of_In, in_map_iff in Hin as (l & <- & Hl).
  by apply Hp, list_elem_of_In.
Qed.

Section Fits.
Context (cfg : VllmConfig) (available_memory page bs : Z).
Context (Hpage : 0 < page) (Hbs : 0 < bs).

Definition uniform (spec : KVCacheSpec) : Prop :=
  forall l, l ∈ values spec -> block_size l = bs /\ page_size_bytes l = page.

Lemma configs_loop_ok L specs cs :
  0 <= L -> (forall spec, spec ∈ specs -> uniform spec /\ dlen spec <= L) ->
  configs_loop cfg available_memory L specs = Ok cs ->
  Forall2 (fun spec c =>
    kv_cache_spec c = spec /\ keys (tensors c) = keys spec /\
    num_blocks c = default (available_memory / page / L) (num_gpu_blocks_override cfg) /\
    total_size c = dlen spec * (page * num_blocks c) /\
    (num_gpu_blocks_override cfg = None -> total_size c <= available_memory) /\
    dlen spec * (cdiv (max_model_len cfg) bs * page) <= available_memory /\ 0 < L) specs cs.
Proof.
  intros HL0. revert cs. induction specs as [|spec specs IH]; intros cs Hs; cbn.
  { intros [= <-]. constructor. }
  intros ([] & Hchk & Hrest)%result_bind_ok.
  destruct (is_kv_cache_type_uniform spec); [|done].
  apply result_bind_ok in Hrest as (c & Hc & (cs' & Hcs & [= <-])%result_bind_ok).
  constructor; [|apply IH; [|done]; intros s H; apply Hs; by right].
  destruct (Hs spec ltac:(left)) as [Hu HL].
  unfold check_enough_kv_cache_memory in Hchk.
  destruct (Z.leb_spec available_memory 0) as [|Hav]; [done|].
  apply result_bind_ok in Hchk as (needed & Hneed & Hle).
  destruct (Z.ltb_spec available_memory needed) as [|Hle']; [done|].
  apply (sum_bytes_ok _ _ _ page bs Hbs Hu) in Hneed. rewrite length_values in Hneed.
  unfold get_kv_cache_config_uniform_type in Hc.
  destruct (elements _) as [|p [|? ?]] eqn:E; [done| |done].
  apply (single_page spec page) in E; [subst p|intros l Hl; by apply Hu].
  destruct (Z.eqb_spec page 0); [lia|]. destruct (Z.eqb_spec L 0) as [|HLn]; [done|].
  cbn [orb] in Hc.
  destruct (max_model_len cfg =? 0); [done|]. injection Hc as <-.
  assert (Hq : 0 <= available_memory / page / L).
  { apply Z.div_pos; [apply Z.div_pos; lia|lia]. }
  rewrite Z.max_l by done.
  split_and!; try done.
  - apply keys_dfmap.
  - by rewrite total_size_uniform.
  - intros Hover. rewrite Hover. cbn [default from_option]. rewrite total_size_uniform. change (Datatypes.id ?x) with x.
    pose proof (Z.mul_div_le (available_memory / page) L ltac:(lia)).
    pose proof (Z.mul_div_le available_memory page ltac:(lia)).
    set (q := available_memory / page / L) in *.
    assert (dlen spec * q <= L * q) by (apply Z.mul_le_mono_nonneg_r; lia).
    transitivity (page * (L * q)); [|transitivity (page * (available_memory / page)); [|lia]].
    + replace (dlen spec * (page * q)) with (page * (dlen spec * q)) by lia.
      apply Z.mul_le_mono_nonneg_l; lia.
    + apply Z.mul_le_mono_nonneg_l; lia.
  - lia.
  - lia.
Qed.
End Fits.

(** C35. A configuration fits and suffices.  When all layers of all workers have
    the same page and block size, [get_kv_cache_configs] returns configurations
    (one per worker, with one tensor per layer of the worker) only if the
    available memory holds a sequence of the maximum length on every worker, and
    all of them give the same number of blocks and one page per block and layer.
    Without [num_gpu_blocks_override] the tensors of each worker take no more
    than the available memory, and the blocks hold a sequence of the maximum
    length; with it the number of blocks is the one given, whether or not the
    tensors fit. *)
Theorem configs_fit cfg available_memory page bs specs cs :
  0 < page -> 0 < bs ->
  (forall spec, spec ∈ specs -> uniform page bs spec) ->
  get_kv_cache_configs cfg specs available_memory = Ok cs ->
  map kv_cache_spec cs = specs /\
  (forall spec, spec ∈ specs -> dlen spec * (cdiv (max_model_len cfg) bs * page) <= available_memory) /\
  exists n,
    (forall c, c ∈ cs -> num_blocks c = n /\ keys (tensors c) = keys (kv_cache_spec c) /\
      total_size c = dlen (kv_cache_spec c) * (page * n)) /\
    match num_gpu_blocks_override cfg with
    | None => cdiv (max_model_len cfg) bs <= n /\ forall c, c ∈ cs -> total_size c <= available_memory
    | Some k => n = k
    end.
Proof.
  intros Hpage Hbs Hu Hrun. unfold get_kv_cache_configs in Hrun.
  destruct specs as [|spec specs]; [done|]. cbn [map] in Hrun.
  set (L := foldl Z.max (dlen spec) (map dlen specs)) in *.
  destruct (foldl_max_ge (map dlen specs) (dlen spec)) as [H1 H2]. fold L in H1, H2.
  assert (HL : forall s, s ∈ spec :: specs -> dlen s <= L).
  { intros s [->|Hs]%elem_of_cons; [done|]. apply H2, list_elem_of_In, in_map_iff.
    exists s. split; [done|]. by apply list_elem_of_In. }
  pose proof (dlen_nonneg spec).
  pose proof (configs_loop_ok cfg available_memory page bs Hpage Hbs L (spec :: specs) cs
    ltac:(lia) (fun s Hs => conj (Hu s Hs) (HL s Hs)) Hrun) as Hall.
  split.
  { clear -Hall. induction Hall as [|s c ss cs (H & _) _ IH]; cbn; [done|]. by rewrite H, IH. }
  split.
  { intros s [i Hi]%list_elem_of_lookup_1.
    by destruct (Forall2_lookup_l _ _ _ _ _ Hall Hi) as (c & _ & (_ & _ & _ & _ & _ & Hcap & _)). }
  exists (default (available_memory / page / L) (num_gpu_blocks_override cfg)). split.
  { intros c [i Hi]%list_elem_of_lookup_1.
    destruct (Forall2_lookup_r _ _ _ _ _ Hall Hi) as (s & _ & (H4 & H5 & H6 & H7 & _)).
    rewrite H4, <- H6. done. }
  destruct (num_gpu_blocks_override cfg) as [k|] eqn:Hover; [done|]. cbn [default from_option]. split.
  - assert (Hmax : exists s, s ∈ spec :: specs /\ dlen s = L).
    { destruct (foldl_max_in (map dlen specs) (dlen spec)) as [E|Hin].
      - exists spec. split; [left|symmetry; exact E].
      - apply list_elem_of_In, in_map_iff in Hin as (s & Hd & Hs).
        exists s. split; [right; by apply list_elem_of_In|exact Hd]. }
    destruct Hmax as (s & Hs & Hd). apply list_elem_of_lookup_1 in Hs as [i Hi].
    destruct (Forall2_lookup_l _ _ _ _ _ Hall Hi) as (c & _ & (_ & _ & _ & _ & _ & Hcap & HLpos)).
    rewrite Hd in Hcap. apply Z.div_le_lower_bound; [done|].
    apply Z.div_le_lower_bound; [done|]. lia.
  - intros c [i Hi]%list_elem_of_lookup_1.
    destruct (Forall2_lookup_r _ _ _ _ _ Hall Hi) as (s & _ & (_ & _ & _ & _ & H7 & _)). by apply H7.
Qed.
End KVCacheConfig.

Definition sample_layer : KVCacheConfig.FullAttentionSpec := KVCacheConfig.Spec 16 2 64 2 false.
Definition sample_spec (names : list string) : KVCacheConfig.KVCacheSpec :=
  PyDict (map (fun n => (n, sample_layer)) names).

(** Two workers with 2 layers and 1 layer, pages of 8192 bytes, 5 pages' room. *)
Lemma configs_fit_witness :
  let cfg := KVCacheConfig.Vllm 32 16 None in
  let specs := [sample_spec ["l0"; "l1"]; sample_spec ["l2"]] in
  KVCacheConfig.page_size_bytes sample_layer = 8192 /\
  exists cs, KVCacheConfig.get_kv_cache_configs cfg specs 40960 = Ok cs /\
    map KVCacheConfig.num_blocks cs = [2; 2] /\
    exists n, 2 <= n /\ forall c, c ∈ cs -> KVCacheConfig.num_blocks c = n /\
      KVCacheConfig.total_size c <= 40960.
Proof.
  split; [reflexivity|].
  assert (Hu : forall spec, spec ∈ [sample_spec ["l0"; "l1"]; sample_spec ["l2"]] ->
    KVCacheConfig.uniform 8192 16 spec).
  { intros spec Hs l Hl. rewrite !elem_of_cons in Hs.
    destruct Hs as [->|[->|Hs]]; [| |by apply not_elem_of_nil in Hs];
      cbn in Hl; rewrite ?elem_of_cons in Hl;
      repeat (destruct Hl as [->|Hl]; [done|]); by apply not_elem_of_nil in Hl. }
  eexists. split; [vm_compute; reflexivity|]. split; [reflexivity|].
  destruct (KVCacheConfig.configs_fit (KVCacheConfig.Vllm 32 16 None) 40960 8192 16
    [sample_spec ["l0"; "l1"]; sample_spec ["l2"]] _ ltac:(lia) ltac:(lia) Hu
    ltac:(vm_compute; reflexivity)) as (_ & _ & n & Hc & Hn & Hfit).
  exists n. split; [exact Hn|]. intros c Hin. destruct (Hc c Hin) as (H1 & _ & _). split; [exact H1|by apply Hfit].
Defined.
