(* ===== verification/V1Scheduler.v ===== *)
(** * v1: the scheduler ([vllm/v1/core/scheduler.py])

    The scheduler puts the KV-cache manager, the encoder cache and the requests
    together.  Requests are objects that several lists refer to and that the
    scheduler mutates: [objs] is the store of the objects, keyed by request id
    (a client uses an id for one object), the queues hold ids, and [requests] is
    the set of keys of the dictionary [self.requests].

    Outside the model: the structured-output manager (its bitmask is not part of
    the output, and [accept_tokens] is not called; whether a grammar is compiled
    is the field [grammar_ready] of a request) and the tensors of prompt log
    probabilities, which are identifiers.  A set that the code iterates over is a
    list, in the order of the iteration.  [time.monotonic()] is an argument.

    A [while] loop has a bound, from the lengths of the queues, and answers
    [OutOfFuel] beyond it; [V1SchedulerCorrect] shows that it never does. *)
From S2P Require Import Prelude.
From S2P Require Import PyDict.
From S2P Require Import FreeQueue.
From S2P Require Import V1Request.
From S2P Require Import BlockHashing.
From S2P Require Import V1BlockPool.
From S2P Require Import KVCacheManager.
From S2P Require Import EncoderCache.

Module V1Scheduler.

(** ** Data *)

Record NewRequestData : Type := NewRequest {
  new_req_id : string;
  new_prompt_token_ids : list Z;
  new_mm_inputs : list Z;
  new_mm_hashes : list (option string);
  new_mm_positions : list PlaceholderRange;
  new_sampling_params : SamplingParams;
  new_req_block_ids : list Z;
  new_req_num_computed_tokens : Z;
  new_lora_request : option Z;
}.

Definition new_from_request (request : Request.t) (block_ids : list Z) : NewRequestData :=
  NewRequest (Request.request_id request) (Request.prompt_token_ids request)
    (Request.mm_inputs request) (Request.mm_hashes request) (Request.mm_positions request)
    (Request.sampling_params request) block_ids (Request.num_computed_tokens request)
    (Request.lora_request request).

Record CachedRequestData : Type := CachedRequest {
  req_id : string;
  resumed_from_preemption : bool;
  new_token_ids : list Z;
  new_block_ids : list Z;
  num_computed_tokens : Z;
}.

Definition cached_from_request (request : Request.t) (resumed : bool)
    (new_token_ids new_block_ids : list Z) : CachedRequestData :=
  CachedRequest (Request.request_id request) resumed new_token_ids new_block_ids
    (Request.num_computed_tokens request).

Record SchedulerOutput : Type := Output {
  scheduled_new_reqs : list NewRequestData;
  scheduled_cached_reqs : list CachedRequestData;
  num_scheduled_tokens : pydict string Z;
  total_num_scheduled_tokens : Z;
  scheduled_spec_decode_tokens : pydict string (list Z);
  scheduled_encoder_inputs : pydict string (list nat);
  num_common_prefix_blocks : Z;
  out_finished_req_ids : gset string;
  free_encoder_input_ids : list (string * nat);
  structured_output_request_ids : pydict string Z;
}.

Record SchedulerStats : Type := Stats {
  num_running_reqs : Z;
  num_waiting_reqs : Z;
  gpu_cache_usage : Q;
  prefix_stats : PrefixCacheStats.t;
}.

(** [LogprobsLists] and [ModelRunnerOutput] of [vllm/v1/outputs.py]. *)
Record LogprobsLists : Type := Logprobs {
  logprob_token_ids : list (list Z);
  logprobs_ : list (list Q);
  sampled_token_ranks : list Z;
}.

Definition logprobs_slice (l : LogprobsLists) (start stop : Z) : LogprobsLists :=
  Logprobs (py_slice (logprob_token_ids l) start stop) (py_slice (logprobs_ l) start stop)
    (py_slice (sampled_token_ranks l) start stop).

Record ModelRunnerOutput : Type := RunnerOutput {
  req_id_to_index : gmap string nat;
  sampled_token_ids : list (list Z);
  spec_token_ids_ : option (list (list Z));
  logprobs_of_step : option LogprobsLists;
  prompt_logprobs_dict : gmap string (option Z);
}.

(** [EngineCoreOutput] of [vllm/v1/engine/__init__.py]. *)
Record EngineCoreOutput : Type := CoreOutput {
  core_request_id : string;
  core_new_token_ids : list Z;
  core_new_logprobs : option LogprobsLists;
  core_prompt_logprobs : option Z;
  core_finish_reason : option FinishReason;
  core_stop_reason : option Z;
  core_events : option (list EngineCoreEvent);
}.

Definition finished (o : EngineCoreOutput) : bool :=
  bool_decide (core_finish_reason o <> None).

(** [max_loras]: the LoRA configuration, when there is one. *)
Record t : Type := Scheduler {
  log_stats : bool;
  max_loras : option Z;
  max_num_running_reqs : Z;
  max_num_scheduled_tokens : Z;
  max_model_len : Z;
  max_num_encoder_input_tokens : Z;
  kv_cache_manager : KVCacheManager.t;
  encoder_cache_manager : EncoderCache.t;
  objs : gmap string Request.t;
  requests : gset string;
  waiting : list string;
  running : list string;
  scheduled_req_ids : gset string;
  finished_req_ids : gset string;
  cached_reqs_data : gmap string CachedRequestData;
}.

Definition with_kv x s := Scheduler (log_stats s) (max_loras s) (max_num_running_reqs s)
  (max_num_scheduled_tokens s) (max_model_len s) (max_num_encoder_input_tokens s) x
  (encoder_cache_manager s) (objs s) (requests s) (waiting s) (running s)
  (scheduled_req_ids s) (finished_req_ids s) (cached_reqs_data s).
Definition with_encoder x s := Scheduler (log_stats s) (max_loras s) (max_num_running_reqs s)
  (max_num_scheduled_tokens s) (max_model_len s) (max_num_encoder_input_tokens s)
  (kv_cache_manager s) x (objs s) (requests s) (waiting s) (running s)
  (scheduled_req_ids s) (finished_req_ids s) (cached_reqs_data s).
Definition with_objs x s := Scheduler (log_stats s) (max_loras s) (max_num_running_reqs s)
  (max_num_scheduled_tokens s) (max_model_len s) (max_num_encoder_input_tokens s)
  (kv_cache_manager s) (encoder_cache_manager s) x (requests s) (waiting s) (running s)
  (scheduled_req_ids s) (finished_req_ids s) (cached_reqs_data s).
Definition with_requests x s := Scheduler (log_stats s) (max_loras s) (max_num_running_reqs s)
  (max_num_scheduled_tokens s) (max_model_len s) (max_num_encoder_input_tokens s)
  (kv_cache_manager s) (encoder_cache_manager s) (objs s) x (waiting s) (running s)
  (scheduled_req_ids s) (finished_req_ids s) (cached_reqs_data s).
Definition with_waiting x s := Scheduler (log_stats s) (max_loras s) (max_num_running_reqs s)
  (max_num_scheduled_tokens s) (max_model_len s) (max_num_encoder_input_tokens s)
  (kv_cache_manager s) (encoder_cache_manager s) (objs s) (requests s) x (running s)
  (scheduled_req_ids s) (finished_req_ids s) (cached_reqs_data s).
Definition with_running x s := Scheduler (log_stats s) (max_loras s) (max_num_running_reqs s)
  (max_num_scheduled_tokens s) (max_model_len s) (max_num_encoder_input_tokens s)
  (kv_cache_manager s) (encoder_cache_manager s) (objs s) (requests s) (waiting s) x
  (scheduled_req_ids s) (finished_req_ids s) (cached_reqs_data s).
Definition with_scheduled x s := Scheduler (log_stats s) (max_loras s) (max_num_running_reqs s)
  (max_num_scheduled_tokens s) (max_model_len s) (max_num_encoder_input_tokens s)
  (kv_cache_manager s) (encoder_cache_manager s) (objs s) (requests s) (waiting s) (running s)
  x (finished_req_ids s) (cached_reqs_data s).
Definition with_finished x s := Scheduler (log_stats s) (max_loras s) (max_num_running_reqs s)
  (max_num_scheduled_tokens s) (max_model_len s) (max_num_encoder_input_tokens s)
  (kv_cache_manager s) (encoder_cache_manager s) (objs s) (requests s) (waiting s) (running s)
  (scheduled_req_ids s) x (cached_reqs_data s).
Definition with_cached_data x s := Scheduler (log_stats s) (max_loras s) (max_num_running_reqs s)
  (max_num_scheduled_tokens s) (max_model_len s) (max_num_encoder_input_tokens s)
  (kv_cache_manager s) (encoder_cache_manager s) (objs s) (requests s) (waiting s) (running s)
  (scheduled_req_ids s) (finished_req_ids s) x.

(** The fields of the configurations that the constructor reads.  The encoder
    budget of [compute_encoder_budget] is used as it is. *)
Definition init (log_stats : bool) (max_loras : option Z) (max_num_seqs max_num_batched_tokens
    max_model_len block_size : Z) (num_gpu_blocks : nat) (enable_prefix_caching : bool)
    (encoder_budget : Z * Z) : result t :=
  if bool_decide (num_gpu_blocks = O) then Err AssertionError
  else
    kv ← KVCacheManager.init block_size num_gpu_blocks max_model_len enable_prefix_caching 64;
    Ok (Scheduler log_stats max_loras max_num_seqs max_num_batched_tokens max_model_len
          encoder_budget.1 kv (EncoderCache.init encoder_budget.2) ∅ ∅ [] [] ∅ ∅ ∅).

(** Calls on the parts, and the object behind an id. *)
Definition on_kv {A} (f : M KVCacheManager.t A) : M t A := fun s =>
  let '(r, k) := f (kv_cache_manager s) in (r, with_kv k s).
Definition on_encoder {A} (f : M EncoderCache.t A) : M t A := fun s =>
  let '(r, e) := f (encoder_cache_manager s) in (r, with_encoder e s).
Definition obj (id : string) : M t Request.t := fun s =>
  (from_option_exn KeyError (objs s !! id), s).
Definition set_obj (id : string) (f : Request.t -> Request.t) : M t unit :=
  r ← obj id; modify (fun s => with_objs (<[id := f r]> (objs s)) s).

Definition log_event (id : string) (type : EventType) (timestamp : Q) : M t unit :=
  l ← gets log_stats;
  if l : bool
  then set_obj id (fun r => Request.with_events (Request.events r ++ [(type, timestamp)]) r)
  else mret tt.
Definition request_queued (id : string) (now : Q) : M t unit := log_event id QUEUED now.
Definition request_scheduled (id : string) (now : Q) : M t unit := log_event id SCHEDULED now.
Definition request_preempted (id : string) (now : Q) : M t unit := log_event id EV_PREEMPTED now.

(** ** [_try_schedule_encoder_inputs] *)

(** The loop over [enumerate(mm_positions)], from input [i]. *)
Fixpoint encoder_loop (request : Request.t) (enc : EncoderCache.t) (i : nat)
    (positions : list PlaceholderRange) (num_computed_tokens num_new_tokens encoder_budget : Z)
    (encoder_inputs : list nat) : result (list nat * Z * Z) :=
  match positions with
  | [] => Ok (encoder_inputs, num_new_tokens, encoder_budget)
  | p :: positions =>
      let start_pos := offset p in
      let num_encoder_tokens := length_ p in
      if num_computed_tokens + num_new_tokens <=? start_pos
      then Ok (encoder_inputs, num_new_tokens, encoder_budget)
      else if start_pos + num_encoder_tokens <=? num_computed_tokens
      then encoder_loop request enc (S i) positions num_computed_tokens num_new_tokens
             encoder_budget encoder_inputs
      else if EncoderCache.has_cache request i enc
      then encoder_loop request enc (S i) positions num_computed_tokens num_new_tokens
             encoder_budget encoder_inputs
      else
        can ← EncoderCache.can_allocate request i enc;
        if negb can || (encoder_budget <? num_encoder_tokens) then
          if num_computed_tokens <? start_pos
          then Ok (encoder_inputs, start_pos - num_computed_tokens, encoder_budget)
          else Ok (encoder_inputs, 0, encoder_budget)
        else
          encoder_loop request enc (S i) positions num_computed_tokens num_new_tokens
            (encoder_budget - num_encoder_tokens) (encoder_inputs ++ [i])
  end.

Definition try_schedule_encoder_inputs (request : Request.t)
    (num_computed_tokens num_new_tokens encoder_budget : Z) (s : t) :
    result (list nat * Z * Z) :=
  if negb (Request.has_encoder_inputs request) then Ok ([], num_new_tokens, encoder_budget)
  else if bool_decide (Request.mm_positions request = []) then Err AssertionError
  else encoder_loop request (encoder_cache_manager s) 0 (Request.mm_positions request)
         num_computed_tokens num_new_tokens encoder_budget [].

(** ** [schedule] *)

(** The local variables of [schedule].  The lists of requests hold ids. *)
Record locals : Type := Locals {
  new_reqs : list string;
  resumed_reqs : list string;
  running_reqs : list string;
  preempted_reqs : list string;
  structured_ids : pydict string Z;
  req_to_new_block_ids : pydict string (list Z);
  scheduled : pydict string Z;
  token_budget : Z;
  encoder_inputs : pydict string (list nat);
  encoder_budget : Z;
  spec_tokens : pydict string (list Z);
  req_index : Z;
  requested_loras : gset Z;
  waiting_for_fsm : list string;
}.

Definition start_locals (s : t) : locals :=
  Locals [] [] [] [] ∅ ∅ ∅ (max_num_scheduled_tokens s) ∅ (max_num_encoder_input_tokens s)
    ∅ 0 ∅ [].

Definition next_index (l : locals) : locals :=
  Locals (new_reqs l) (resumed_reqs l) (running_reqs l) (preempted_reqs l) (structured_ids l)
    (req_to_new_block_ids l) (scheduled l) (token_budget l) (encoder_inputs l)
    (encoder_budget l) (spec_tokens l) (req_index l + 1) (requested_loras l)
    (waiting_for_fsm l).

Definition preempt_ids (ids : list string) (l : locals) : locals :=
  Locals (new_reqs l) (resumed_reqs l) (running_reqs l) (preempted_reqs l ++ ids)
    (structured_ids l) (req_to_new_block_ids l) (scheduled l) (token_budget l)
    (encoder_inputs l) (encoder_budget l) (spec_tokens l) (req_index l) (requested_loras l)
    (waiting_for_fsm l).

Definition set_loras (loras : gset Z) (l : locals) : locals :=
  Locals (new_reqs l) (resumed_reqs l) (running_reqs l) (preempted_reqs l) (structured_ids l)
    (req_to_new_block_ids l) (scheduled l) (token_budget l) (encoder_inputs l)
    (encoder_budget l) (spec_tokens l) (req_index l) loras (waiting_for_fsm l).

Definition skip_for_fsm (id : string) (l : locals) : locals :=
  Locals (new_reqs l) (resumed_reqs l) (running_reqs l) (preempted_reqs l) (structured_ids l)
    (req_to_new_block_ids l) (scheduled l) (token_budget l) (encoder_inputs l)
    (encoder_budget l) (spec_tokens l) (req_index l) (requested_loras l)
    (id :: waiting_for_fsm l).

(** Which of the three lists of scheduled requests a request goes to. *)
Definition add_new id l := Locals (new_reqs l ++ [id]) (resumed_reqs l) (running_reqs l)
  (preempted_reqs l) (structured_ids l) (req_to_new_block_ids l) (scheduled l)
  (token_budget l) (encoder_inputs l) (encoder_budget l) (spec_tokens l) (req_index l)
  (requested_loras l) (waiting_for_fsm l).
Definition add_resumed id l := Locals (new_reqs l) (resumed_reqs l ++ [id]) (running_reqs l)
  (preempted_reqs l) (structured_ids l) (req_to_new_block_ids l) (scheduled l)
  (token_budget l) (encoder_inputs l) (encoder_budget l) (spec_tokens l) (req_index l)
  (requested_loras l) (waiting_for_fsm l).
Definition add_running id l := Locals (new_reqs l) (resumed_reqs l) (running_reqs l ++ [id])
  (preempted_reqs l) (structured_ids l) (req_to_new_block_ids l) (scheduled l)
  (token_budget l) (encoder_inputs l) (encoder_budget l) (spec_tokens l) (req_index l)
  (requested_loras l) (waiting_for_fsm l).

(** What both loops record of a request they schedule. *)
Definition charge (r : Request.t) (num_new_tokens : Z) (block_ids : list Z) (l : locals) :
    locals :=
  let id := Request.request_id r in
  Locals (new_reqs l) (resumed_reqs l) (running_reqs l) (preempted_reqs l)
    (if Request.use_structured_output r then <[id := req_index l]> (structured_ids l)
     else structured_ids l)
    (<[id := block_ids]> (req_to_new_block_ids l))
    (<[id := num_new_tokens]> (scheduled l)) (token_budget l - num_new_tokens)
    (encoder_inputs l) (encoder_budget l) (spec_tokens l) (req_index l + 1)
    (requested_loras l) (waiting_for_fsm l).

Definition set_spec (id : string) (ids : list Z) (l : locals) : locals :=
  Locals (new_reqs l) (resumed_reqs l) (running_reqs l) (preempted_reqs l) (structured_ids l)
    (req_to_new_block_ids l) (scheduled l) (token_budget l) (encoder_inputs l)
    (encoder_budget l) (<[id := ids]> (spec_tokens l)) (req_index l) (requested_loras l)
    (waiting_for_fsm l).

Definition set_encoder (id : string) (inputs : list nat) (budget : Z) (l : locals) : locals :=
  Locals (new_reqs l) (resumed_reqs l) (running_reqs l) (preempted_reqs l) (structured_ids l)
    (req_to_new_block_ids l) (scheduled l) (token_budget l)
    (<[id := inputs]> (encoder_inputs l)) budget (spec_tokens l) (req_index l)
    (requested_loras l) (waiting_for_fsm l).

(** The end of both loop bodies: record and allocate the encoder inputs. *)
Definition schedule_encoder (id : string) (inputs : list nat) (budget : Z) (l : locals) :
    M t locals :=
  match inputs with
  | [] => mret l
  | _ =>
      r ← obj id;
      for_each inputs (fun i => on_encoder (EncoderCache.allocate r i)) ;;
      mret (set_encoder id inputs budget l)
  end.

Section Hash.
Context (py_hash : Z * list Z * option (list extra_key) -> Z) (hash_none : Z).

(** [while True: new_blocks = allocate_slots(...)], which preempts the last
    running request until the allocation succeeds or the request itself is
    preempted.  The answer: the new blocks, if any, and the preempted ids. *)
Fixpoint preempt_loop (fuel : nat) (id : string) (num_new_tokens : Z) (now : Q)
    (preempted : list string) : M t (option (list Z) * list string) :=
  match fuel with
  | O => raise OutOfFuel
  | S fuel =>
      request ← obj id;
      new_blocks ←
        on_kv (KVCacheManager.allocate_slots py_hash hash_none request num_new_tokens None);
      match new_blocks with
      | Some new_blocks => mret (Some new_blocks, preempted)
      | None =>
          run ← gets running;
          match last run with
          | None => raise IndexError
          | Some p =>
              modify (with_running (removelast run)) ;;
              preempted_req ← obj p;
              on_kv (KVCacheManager.free preempted_req) ;;
              set_obj p (Request.with_status PREEMPTED) ;;
              set_obj p (Request.with_computed 0) ;;
              request_preempted p now ;;
              modify (fun s => with_waiting (p :: waiting s) s) ;;
              if bool_decide (p = id) then mret (None, preempted ++ [p])
              else preempt_loop fuel id num_new_tokens now (preempted ++ [p])
          end
      end
  end.

(** The speculated tokens of a running request that is scheduled. *)
Definition schedule_spec (id : string) (num_new_tokens : Z) (l : locals) : M t locals :=
  request ← obj id;
  match Request.spec_token_ids request with
  | [] => mret l
  | spec =>
      let n := num_new_tokens + Request.num_computed_tokens request -
               Request.num_tokens request in
      if 0 <? n then
        set_obj id (Request.with_spec (take (Z.to_nat n) spec)) ;;
        mret (set_spec id (take (Z.to_nat n) spec) l)
      else mret l
  end.

(** The body of the running loop for request [id]; the answer says whether the
    loop goes on. *)
Definition running_body (id : string) (now : Q) (l : locals) : M t (locals * bool) :=
  already ← gets (fun s => bool_decide (id ∈ scheduled_req_ids s));
  if already : bool then mret (next_index l, true)
  else
    request ← obj id;
    let num_new_tokens := Z.min (Request.num_tokens_with_spec request -
                                 Request.num_computed_tokens request) (token_budget l) in
    assert_ (0 <? num_new_tokens) ;;
    s ← get;
    '(inputs, num_new_tokens, new_encoder_budget) ←
      lift (try_schedule_encoder_inputs request (Request.num_computed_tokens request)
              num_new_tokens (encoder_budget l) s);
    if num_new_tokens =? 0 then mret (next_index l, true)
    else
      '(new_blocks, preempted) ←
        preempt_loop (S (length (running s))) id num_new_tokens now [];
      let l := preempt_ids preempted l in
      match new_blocks with
      | None => mret (l, false)
      | Some new_blocks =>
          modify (fun s => with_scheduled ({[id]} ∪ scheduled_req_ids s) s) ;;
          l ← schedule_spec id num_new_tokens
                (charge request num_new_tokens new_blocks (add_running id l));
          l ← schedule_encoder id inputs new_encoder_budget l;
          mret (l, true)
      end.

Fixpoint running_loop (fuel : nat) (now : Q) (l : locals) : M t locals :=
  run ← gets running;
  match run !! Z.to_nat (req_index l) with
  | None => mret l
  | Some id =>
      if 0 <? token_budget l then
        match fuel with
        | O => raise OutOfFuel
        | S fuel =>
            '(l, continues) ← running_body id now l;
            if continues : bool then running_loop fuel now l else mret l
        end
      else mret l
  end.

(** The LoRAs of the scheduled running requests. *)
Definition record_loras (l : locals) : M t locals :=
  m ← gets max_loras;
  match m with
  | None => mret l
  | Some m =>
      rs ← map_each (running_reqs l) obj;
      let loras := list_to_set (omap (fun r =>
        match Request.lora_request r with
        | Some i => if 0 <? i then Some i else None
        | None => None
        end) rs) : gset Z in
      assert_ (Z.of_nat (size loras) <=? m) ;;
      mret (set_loras loras l)
  end.

(** A request that waits for its grammar becomes [WAITING] once it is there. *)
Definition fsm_ready (id : string) : M t bool :=
  request ← obj id;
  if bool_decide (Request.status request = WAITING_FOR_FSM) then
    if Request.use_structured_output request && Request.grammar_ready request then
      set_obj id (Request.with_status WAITING) ;; mret true
    else mret false
  else mret true.

(** The LoRA of the request would exceed [max_loras]. *)
Definition lora_blocked (request : Request.t) (l : locals) (s : t) : bool :=
  match max_loras s, Request.lora_request request with
  | Some m, Some i =>
      (Z.of_nat (size (requested_loras l)) =? m) && negb (bool_decide (i ∈ requested_loras l))
  | _, _ => false
  end.

(** The computed blocks that are kept and the tokens to compute: when all of
    them are cached, the last block is computed again. *)
Definition tokens_to_compute (request : Request.t) (computed_blocks : list Z)
    (num_computed_tokens bs : Z) : result (list Z * Z * Z) :=
  let num_new_tokens := Request.num_tokens request - num_computed_tokens in
  if num_new_tokens =? 0 then
    match computed_blocks with
    | [] => Err IndexError
    | _ => Ok (removelast computed_blocks, num_computed_tokens - bs, bs)
    end
  else Ok (computed_blocks, num_computed_tokens, num_new_tokens).

Definition add_scheduled (request : Request.t) (l : locals) : result locals :=
  match Request.status request with
  | WAITING => Ok (add_new (Request.request_id request) l)
  | PREEMPTED => Ok (add_resumed (Request.request_id request) l)
  | _ => Err RuntimeError
  end.

Definition note_lora (request : Request.t) (s : t) (l : locals) : locals :=
  match max_loras s, Request.lora_request request with
  | Some _, Some i => set_loras ({[i]} ∪ requested_loras l) l
  | _, _ => l
  end.

(** Request [id], at the head of the queue, has been given [new_blocks]. *)
Definition start_running (id : string) (blocks : list Z)
    (num_computed_tokens num_new_tokens : Z) (inputs : list nat) (new_encoder_budget : Z)
    (now : Q) (l : locals) : M t locals :=
  modify (fun s => with_waiting (tail (waiting s)) s) ;;
  modify (fun s => with_running (running s ++ [id]) s) ;;
  modify (fun s => with_scheduled ({[id]} ∪ scheduled_req_ids s) s) ;;
  request_scheduled id now ;;
  request ← obj id;
  l ← lift (add_scheduled request l);
  s ← get;
  let l := charge request num_new_tokens blocks (note_lora request s l) in
  set_obj id (Request.with_status RUNNING) ;;
  set_obj id (Request.with_computed num_computed_tokens) ;;
  schedule_encoder id inputs new_encoder_budget l.

(** The rest of the waiting loop's body, from [get_computed_blocks] on; [None]
    where it breaks. *)
Definition waiting_body (id : string) (now : Q) (l : locals) : M t (option locals) :=
  request ← obj id;
  s ← get;
  if lora_blocked request l s then mret None
  else
    '(computed_blocks, num_computed_tokens) ←
      on_kv (KVCacheManager.get_computed_blocks py_hash hash_none request);
    '(computed_blocks, num_computed_tokens, num_new_tokens) ←
      lift (tokens_to_compute request computed_blocks num_computed_tokens
              (KVCacheManager.block_size (kv_cache_manager s)));
    let num_new_tokens := Z.min num_new_tokens (token_budget l) in
    assert_ (0 <? num_new_tokens) ;;
    '(inputs, num_new_tokens, new_encoder_budget) ←
      lift (try_schedule_encoder_inputs request num_computed_tokens num_new_tokens
              (encoder_budget l) s);
    if num_new_tokens =? 0 then mret None
    else
      new_blocks ← on_kv (KVCacheManager.allocate_slots py_hash hash_none request
                            num_new_tokens (Some computed_blocks));
      match new_blocks with
      | None => mret None
      | Some new_blocks =>
          l ← start_running id (computed_blocks ++ new_blocks) num_computed_tokens
                num_new_tokens inputs new_encoder_budget now l;
          mret (Some l)
      end.

Fixpoint waiting_loop (fuel : nat) (now : Q) (l : locals) : M t locals :=
  s ← get;
  match waiting s with
  | [] => mret l
  | id :: rest =>
      if negb (0 <? token_budget l) ||
         (Z.of_nat (length (running s)) =? max_num_running_reqs s)
      then mret l
      else
        match fuel with
        | O => raise OutOfFuel
        | S fuel =>
            ready ← fsm_ready id;
            if negb (ready : bool) then
              modify (with_waiting rest) ;; waiting_loop fuel now (skip_for_fsm id l)
            else
              ol ← waiting_body id now l;
              match ol with
              | None => mret l
              | Some l => waiting_loop fuel now l
              end
        end
  end.
End Hash.

Definition total (d : pydict string Z) : Z := foldr Z.add 0 (values d).

(** The assertions after the loops. *)
Definition constraints (l : locals) : M t unit :=
  s ← get;
  assert_ (total (scheduled l) <=? max_num_scheduled_tokens s) ;;
  assert_ (0 <=? token_budget l) ;;
  assert_ (Z.of_nat (length (running s)) <=? max_num_running_reqs s) ;;
  assert_ (bool_decide (length (new_reqs l) + length (resumed_reqs l) +
                        length (running_reqs l) <= length (running s))%nat).

Definition common_prefix : M t Z :=
  run ← gets running;
  match run with
  | [] => mret 0
  | any :: _ =>
      any_request ← obj any;
      on_kv (KVCacheManager.get_num_common_prefix_blocks any_request
               (Z.of_nat (length run)))
  end.

(** [_make_cached_request_data] *)
Definition make_cached_request_data (request : Request.t)
    (num_scheduled_tokens num_scheduled_spec_tokens : Z) (new_block_ids : list Z)
    (resumed : bool) : M t CachedRequestData :=
  let id := Request.request_id request in
  let computed := Request.num_computed_tokens request in
  let num_regular_tokens := num_scheduled_tokens - num_scheduled_spec_tokens in
  let new_token_ids :=
    py_slice (Request.all_token_ids request) computed (computed + num_regular_tokens) in
  known ← gets cached_reqs_data;
  let req_data :=
    match known !! id with
    | Some d => CachedRequest (req_id d) resumed new_token_ids new_block_ids computed
    | None => cached_from_request request resumed new_token_ids new_block_ids
    end in
  modify (fun s => with_cached_data (<[id := req_data]> (cached_reqs_data s)) s) ;;
  mret req_data.

Definition new_data (l : locals) (id : string) : M t NewRequestData :=
  request ← obj id;
  blocks ← lift (from_option_exn KeyError (req_to_new_block_ids l !! id));
  mret (new_from_request request blocks).

Definition cached_data (l : locals) (resumed : bool) (id : string) : M t CachedRequestData :=
  request ← obj id;
  n ← lift (from_option_exn KeyError (scheduled l !! id));
  blocks ← lift (from_option_exn KeyError (req_to_new_block_ids l !! id));
  make_cached_request_data request n
    (Z.of_nat (length (default [] (spec_tokens l !! id)))) blocks resumed.

(** From the assertions to the end of [schedule]. *)
Definition finish_schedule (l : locals) : M t SchedulerOutput :=
  constraints l ;;
  common ← common_prefix;
  new_reqs_data ← map_each (new_reqs l) (new_data l);
  resumed_reqs_data ← map_each (resumed_reqs l) (cached_data l true);
  running_reqs_data ← map_each (running_reqs l) (cached_data l false);
  finished ← gets finished_req_ids;
  freed ← on_encoder EncoderCache.get_freed_ids;
  modify (with_finished ∅) ;;
  mret (Output new_reqs_data (resumed_reqs_data ++ running_reqs_data) (scheduled l)
          (total (scheduled l)) (spec_tokens l) (encoder_inputs l) common finished freed
          (structured_ids l)).

Section Schedule.
Context (py_hash : Z * list Z * option (list extra_key) -> Z) (hash_none : Z).

Definition schedule (now : Q) : M t SchedulerOutput :=
  s ← get;
  l ← running_loop py_hash hash_none (length (running s)) now (start_locals s);
  l ← record_loras l;
  l ← match preempted_reqs l with
      | [] => w ← gets waiting; waiting_loop py_hash hash_none (length w) now l
      | _ => mret l
      end;
  (* [self.waiting.extendleft(waiting_for_fsm)] *)
  modify (fun s => with_waiting (reverse (waiting_for_fsm l) ++ waiting s) s) ;;
  finish_schedule l.
End Schedule.

(** ** [update_from_output] *)

Definition check_stop (id : string) : M t bool :=
  request ← obj id;
  len ← gets max_model_len;
  if (len <=? Request.num_tokens request) ||
     (Request.max_tokens request <=? Request.num_output_tokens request) then
    set_obj id (Request.with_status FINISHED_LENGTH_CAPPED) ;; mret true
  else
    let params := Request.sampling_params request in
    last_token_id ← lift (py_index (Request.output_token_ids request) (-1));
    if negb (ignore_eos params) && bool_decide (Some last_token_id = Request.eos_token_id request)
    then set_obj id (Request.with_status FINISHED_STOPPED) ;; mret true
    else if bool_decide (last_token_id ∈ stop_token_ids params) then
      set_obj id (Request.with_status FINISHED_STOPPED) ;;
      set_obj id (Request.with_stop_reason (Some last_token_id)) ;; mret true
    else mret false.

(** [del self.requests[id]] *)
Definition del_request (id : string) : M t unit :=
  known ← gets requests;
  if bool_decide (id ∈ known) then modify (with_requests (known ∖ {[id]}))
  else raise KeyError.

Definition free_request (id : string) : M t unit :=
  request ← obj id;
  assert_ (Request.is_finished request) ;;
  on_kv (KVCacheManager.free request) ;;
  on_kv (KVCacheManager.free_block_hashes request) ;;
  on_encoder (EncoderCache.free request) ;;
  modify (fun s => with_cached_data (delete id (cached_reqs_data s)) s) ;;
  del_request id ;;
  modify (fun s => with_finished ({[id]} ∪ finished_req_ids s) s).

(** [self.scheduled_req_ids.remove(id)] *)
Definition unschedule (id : string) : M t unit :=
  sch ← gets scheduled_req_ids;
  if bool_decide (id ∈ sch) then modify (with_scheduled (sch ∖ {[id]})) else raise KeyError.

(** The tokens of this step are computed, less the rejected ones. *)
Definition advance (id : string) (num_tokens_scheduled : Z) (spec : option (list Z))
    (generated_token_ids : list Z) : M t unit :=
  match spec with
  | None =>
      set_obj id (fun r => Request.with_computed
        (Request.num_computed_tokens r + num_tokens_scheduled) r) ;;
      request ← obj id;
      assert_ (Request.num_computed_tokens request <=? Request.num_tokens request)
  | Some scheduled_spec_token_ids =>
      let step := num_tokens_scheduled -
        (Z.of_nat (length scheduled_spec_token_ids) + 1 -
         Z.of_nat (length generated_token_ids)) in
      set_obj id (fun r => Request.with_computed (Request.num_computed_tokens r + step) r)
  end.

(** Free the encoder inputs whose tokens are all computed. *)
Definition free_processed_inputs (id : string) : M t unit :=
  request ← obj id;
  enc ← gets encoder_cache_manager;
  for_each (elements (EncoderCache.get_cached_input_ids request enc)) (fun i =>
    p ← lift (from_option_exn IndexError (Request.mm_positions request !! i));
    if offset p + length_ p <=? Request.num_computed_tokens request
    then on_encoder (EncoderCache.free_encoder_input request i)
    else mret tt).

(** The loop over the generated tokens: whether the request stopped, and the
    tokens appended. *)
Fixpoint append_generated (id : string) (generated_token_ids new_token_ids : list Z) :
    M t (bool * list Z) :=
  match generated_token_ids with
  | [] => mret (false, new_token_ids)
  | output_token_id :: generated_token_ids =>
      set_obj id (Request.append_output_token_ids [output_token_id]) ;;
      let new_token_ids := new_token_ids ++ [output_token_id] in
      stopped ← check_stop id;
      if stopped : bool then free_request id ;; mret (true, new_token_ids)
      else append_generated id generated_token_ids new_token_ids
  end.

Definition accept_generated (id : string) (req_index : nat) (generated_token_ids : list Z)
    (logprobs_of_step : option LogprobsLists) : M t (bool * list Z * option LogprobsLists) :=
  request ← obj id;
  if Request.num_tokens request <=? Request.num_computed_tokens request then
    '(stopped, new_token_ids) ← append_generated id generated_token_ids [];
    new_logprobs ←
      match logprobs (Request.sampling_params request) with
      | None => mret None
      | Some _ =>
          match logprobs_of_step with
          | None => raise AssertionError
          | Some l =>
              mret (Some (logprobs_slice l (Z.of_nat req_index) (Z.of_nat req_index + 1)))
          end
      end;
    mret (stopped, new_token_ids, new_logprobs)
  else mret (false, [], None).

(** [request.take_events()] on the object. *)
Definition take_events (id : string) : M t (option (list EngineCoreEvent)) :=
  request ← obj id;
  let '(evs, request) := Request.take_events request in
  set_obj id (fun _ => request) ;;
  mret evs.

(** The loop body for running request [id]: the outputs it adds, and whether the
    request stays in the running queue. *)
Definition update_request (scheduler_output : SchedulerOutput)
    (model_runner_output : ModelRunnerOutput) (id : string) :
    M t (list EngineCoreOutput * bool) :=
  let n := default 0 (num_scheduled_tokens scheduler_output !! id) in
  if n =? 0 then mret ([], true)
  else
    req_index ← lift (from_option_exn KeyError (req_id_to_index model_runner_output !! id));
    generated ← lift (from_option_exn IndexError
                        (sampled_token_ids model_runner_output !! req_index));
    advance id n (scheduled_spec_decode_tokens scheduler_output !! id) generated ;;
    free_processed_inputs id ;;
    match spec_token_ids_ model_runner_output with
    | None => mret tt
    | Some spec =>
        ids ← lift (from_option_exn IndexError (spec !! req_index));
        set_obj id (Request.with_spec ids)
    end ;;
    let prompt_logprobs := mjoin (prompt_logprobs_dict model_runner_output !! id) in
    '(stopped, new_token_ids, new_logprobs) ←
      accept_generated id req_index generated (logprobs_of_step model_runner_output);
    outputs ←
      (if bool_decide (new_token_ids <> []) || bool_decide (prompt_logprobs <> None) then
         request ← obj id;
         evs ← take_events id;
         mret [CoreOutput id new_token_ids new_logprobs prompt_logprobs
                 (Request.get_finished_reason request) (Request.stop_reason request) evs]
       else mret []);
    unschedule id ;;
    mret (outputs, negb stopped).

Fixpoint update_loop (scheduler_output : SchedulerOutput)
    (model_runner_output : ModelRunnerOutput) (ids : list string) :
    M t (list EngineCoreOutput * list string) :=
  match ids with
  | [] => mret ([], [])
  | id :: ids =>
      '(out, stays) ← update_request scheduler_output model_runner_output id;
      '(outs, new_running) ← update_loop scheduler_output model_runner_output ids;
      mret (out ++ outs, if stays : bool then id :: new_running else new_running)
  end.

Definition make_stats : M t (option SchedulerStats) :=
  l ← gets log_stats;
  if negb (l : bool) then mret None
  else
    s ← get;
    usage ← lift (KVCacheManager.usage (kv_cache_manager s));
    stats ← on_kv KVCacheManager.make_prefix_cache_stats;
    mret (Some (Stats (Z.of_nat (length (running s))) (Z.of_nat (length (waiting s)))
                  usage stats)).

Definition update_from_output (scheduler_output : SchedulerOutput)
    (model_runner_output : ModelRunnerOutput) :
    M t (list EngineCoreOutput * option SchedulerStats) :=
  run ← gets running;
  '(outputs, new_running) ← update_loop scheduler_output model_runner_output run;
  modify (with_running new_running) ;;
  stats ← make_stats;
  mret (outputs, stats).

(** ** The other methods *)

Definition add_request (request : Request.t) (now : Q) : M t unit :=
  let id := Request.request_id request in
  modify (fun s => with_objs (<[id := request]> (objs s)) s) ;;
  modify (fun s => with_waiting (waiting s ++ [id]) s) ;;
  modify (fun s => with_requests ({[id]} ∪ requests s) s) ;;
  request_queued id now.

(** [l.remove(x)]: the first occurrence. *)
Fixpoint remove_first (l : list string) (x : string) : result (list string) :=
  match l with
  | [] => Err ValueError
  | y :: l => if decide (y = x) then Ok l else cons y <$> remove_first l x
  end.

Definition finish_one (finished_status : RequestStatus) (id : string) : M t unit :=
  known ← gets requests;
  if negb (bool_decide (id ∈ known)) then mret tt
  else
    request ← obj id;
    (if bool_decide (Request.status request = RUNNING) then
       run ← gets running;
       run ← lift (remove_first run id);
       modify (with_running run) ;;
       modify (fun s => with_scheduled (scheduled_req_ids s ∖ {[id]}) s)
     else
       w ← gets waiting;
       w ← lift (remove_first w id);
       modify (with_waiting w)) ;;
    set_obj id (Request.with_status finished_status) ;;
    free_request id.

Definition finish_requests (request_ids : list string) (finished_status : RequestStatus) :
    M t unit :=
  assert_ (status_is_finished finished_status) ;;
  for_each request_ids (finish_one finished_status).

Definition get_num_unfinished_requests (s : t) : Z :=
  Z.of_nat (length (waiting s)) + Z.of_nat (length (running s)).
Definition has_unfinished_requests (s : t) : bool := 0 <? get_num_unfinished_requests s.
Definition has_finished_requests (s : t) : bool := 0 <? Z.of_nat (size (finished_req_ids s)).
Definition has_requests (s : t) : bool := has_unfinished_requests s || has_finished_requests s.
Definition get_num_unscheduled_requests (s : t) : Z :=
  get_num_unfinished_requests s - Z.of_nat (size (scheduled_req_ids s)).
Definition reset_prefix_cache : M t bool := on_kv KVCacheManager.reset_prefix_cache.
End V1Scheduler.
