(* ===== verification/EngineCore.v ===== *)
(** * v1: the engine core's loop ([vllm/v1/engine/core.py])

    The part of [EngineCore] between the input queue and the output queue: add
    and abort a request, run a step, run a step with the batch queue.  The model
    executor is a parameter: the output it computes for a scheduler output.  In
    the batch queue a batch stands for its future, of which [result()] is the
    executor's answer.  Outside the model: sockets, processes, profiling, and the
    mirrored multi-modal input cache. *)
From S2P Require Import Prelude.
From S2P Require Import PyDict.
From S2P Require Import FreeQueue.
From S2P Require Import V1Request.
From S2P Require Import BlockHashing.
From S2P Require Import V1BlockPool.
From S2P Require Import KVCacheManager.
From S2P Require Import KVManagerCorrect.
From S2P Require Import EncoderCache.
From S2P Require Import V1Scheduler.
Import V1Scheduler.

Module EngineCore.

(** [batch_queue_size] is [max_concurrent_batches]; there is a queue when it is
    greater than one. *)
Record t : Type := Core {
  scheduler : V1Scheduler.t;
  batch_queue : list SchedulerOutput;
  batch_queue_size : nat;
}.

Definition with_scheduler x c := Core x (batch_queue c) (batch_queue_size c).
Definition with_queue x c := Core (scheduler c) x (batch_queue_size c).

Definition on_scheduler {A} (f : M V1Scheduler.t A) : M t A := fun c =>
  let '(r, s) := f (scheduler c) in (r, with_scheduler s c).

Definition outputs : Type := list EngineCoreOutput * option SchedulerStats.

Definition add_request (request : Request.t) (now : Q) : M t unit :=
  on_scheduler (V1Scheduler.add_request request now).
Definition abort_requests (request_ids : list string) : M t unit :=
  on_scheduler (finish_requests request_ids FINISHED_ABORTED).
Definition reset_prefix_cache : M t unit :=
  _ ← on_scheduler V1Scheduler.reset_prefix_cache; mret tt.

(** [EngineCoreOutputs(outputs=[], scheduler_stats=self.scheduler.make_stats())] *)
Definition no_outputs : M t outputs :=
  stats ← on_scheduler make_stats; mret ([], stats).

Section Executor.
Context (py_hash : Z * list Z * option (list extra_key) -> Z) (hash_none : Z).
Context (execute_model : SchedulerOutput -> ModelRunnerOutput).

Definition step (now : Q) : M t outputs :=
  s ← gets scheduler;
  if negb (has_requests s) then no_outputs
  else
    scheduler_output ← on_scheduler (schedule py_hash hash_none now);
    if total_num_scheduled_tokens scheduler_output =? 0 then no_outputs
    else on_scheduler (update_from_output scheduler_output (execute_model scheduler_output)).

(** Schedule a batch, if there is anything to schedule and room in the queue. *)
Definition submit_batch (now : Q) : M t (option SchedulerOutput) :=
  c ← get;
  if (0 <? get_num_unscheduled_requests (scheduler c)) &&
     negb (bool_decide (batch_queue_size c <= length (batch_queue c))%nat)
  then
    out ← on_scheduler (schedule py_hash hash_none now);
    (if 0 <? total_num_scheduled_tokens out
     then modify (fun c => with_queue (batch_queue c ++ [out]) c) else mret tt) ;;
    mret (Some out)
  else mret None.

Definition step_with_batch_queue (now : Q) : M t (option outputs) :=
  scheduler_output ← submit_batch now;
  if match scheduler_output with
     | None => true
     | Some out => total_num_scheduled_tokens out =? 0
     end
  then
    q ← gets batch_queue;
    match q with
    | [] => o ← no_outputs; mret (Some o)
    | out :: q =>
        modify (with_queue q) ;;
        o ← on_scheduler (update_from_output out (execute_model out));
        mret (Some o)
    end
  else mret None.
End Executor.
End EngineCore.

(** ** Ids that stay scheduled

    [update_from_output] takes the ids of running requests, and no others, off
    [scheduled_req_ids]. *)
Section Stale.
Variable id : string.

(** The queues are [w] and [r], and [id] counts as scheduled. *)
Definition queued (w r : list string) (s : V1Scheduler.t) : Prop :=
  waiting s = w /\ running s = r /\ id ∈ scheduled_req_ids s.

Section Queued.
Variables w r : list string.
Abbreviation keeps := (preserves (queued w r)).

Lemma keeps_obj j : keeps (obj j).
Proof. by intros s. Qed.
Lemma keeps_set_obj j f : keeps (set_obj j f).
Proof. apply preserves_bind; [apply keeps_obj|]. intros x. by apply preserves_modify. Qed.
Lemma keeps_on_kv {A} (f : M KVCacheManager.t A) : keeps (on_kv f).
Proof. intros s H. unfold on_kv. by destruct (f _). Qed.
Lemma keeps_on_encoder {A} (f : M EncoderCache.t A) : keeps (on_encoder f).
Proof. intros s H. unfold on_encoder. by destruct (f _). Qed.
Lemma keeps_gets_bind {A B} (f : V1Scheduler.t -> A) (g : A -> M V1Scheduler.t B) :
  (forall a, keeps (g a)) -> keeps (gets f ≫= g).
Proof. intros Hg. apply preserves_bind; [apply preserves_gets|done]. Qed.
Lemma keeps_del_request j : keeps (del_request j).
Proof. apply keeps_gets_bind. intros known. destruct (bool_decide _); [by apply preserves_modify|apply preserves_raise]. Qed.
#[local] Hint Resolve keeps_obj keeps_set_obj keeps_on_kv keeps_on_encoder keeps_del_request : pres.

(** Follow the structure of a routine. *)
Ltac keep :=
  repeat first
    [ assumption
    | apply preserves_for_each; intros ?
    | apply preserves_bind; [|intros ?]
    | apply preserves_modify; by intros ?
    | solve [auto 2 with pres nocore]
    | case_match ].

Lemma keeps_free_request j : keeps (free_request j).
Proof. unfold free_request. keep. Qed.
Lemma keeps_check_stop j : keeps (check_stop j).
Proof. unfold check_stop. keep. Qed.
#[local] Hint Resolve keeps_free_request keeps_check_stop : pres.
Lemma keeps_append j l : forall new, keeps (append_generated j l new).
Proof. induction l as [|x l IH]; intros new; cbn [append_generated]; keep. Qed.
#[local] Hint Resolve keeps_append : pres.
Lemma keeps_unschedule j : j <> id -> keeps (unschedule j).
Proof.
  intros Hj s [H1 [H2 H3]]. unfold unschedule. rewrite bind_run. unfold gets. cbv beta iota.
  destruct (bool_decide _); [|by split]. unfold queued, modify. cbn.
  split; [done|]. split; [done|]. set_solver.
Qed.
Lemma keeps_make_stats : keeps make_stats.
Proof. unfold make_stats. keep. Qed.

Lemma keeps_update_request out mro j : j <> id -> keeps (update_request out mro j).
Proof.
  intros Hj. pose proof (keeps_unschedule j Hj) as Hu.
  unfold update_request, advance, free_processed_inputs, accept_generated, take_events. cbv zeta. keep.
Qed.
End Queued.

(** A request that is not in the batch stays in the queue. *)
Lemma update_loop_queued out mro w r : forall ids s, id ∉ ids -> queued w r s ->
  queued w r (update_loop out mro ids s).2 /\
  forall outs l, (update_loop out mro ids s).1 = Ok (outs, l) ->
    l `sublist_of` ids /\ forall a, a ∈ ids -> num_scheduled_tokens out !! a = None -> a ∈ l.
Proof.
  induction ids as [|j ids IH]; intros s Hid Hs; cbn [update_loop].
  { split; [done|]. intros outs l [= <- <-]. split; [done|]. by intros a ?%not_elem_of_nil. }
  apply not_elem_of_cons in Hid as [Hj Hid]. rewrite bind_run.
  pose proof (keeps_update_request w r out mro j (not_eq_sym Hj) s Hs) as H1.
  assert (Hstay : num_scheduled_tokens out !! j = None -> update_request out mro j s = (Ok ([], true), s)).
  { intros Hn. unfold update_request. by rewrite Hn. }
  destruct (update_request out mro j s) as [[[o stays]|e] s1]; [|done]. cbn [snd] in H1.
  rewrite bind_run. specialize (IH s1 Hid H1) as [H2 H3].
  destruct (update_loop out mro ids s1) as [[[outs l]|e] s2]; [|done]. split; [done|].
  intros outs' l' [= <- <-]. destruct (H3 _ _ eq_refl) as [Hsub Hin]. split.
  - destruct stays; [by apply sublist_skip|by apply sublist_cons].
  - intros a [->|Ha]%elem_of_cons Hn.
    + specialize (Hstay Hn). injection Hstay as _ -> _. by left.
    + destruct stays; [right|]; by apply Hin.
Qed.
End Stale.

Module Starvation.
Import EngineCore.

(** [id] counts as scheduled but is not running, and at most one request is
    unfinished.  The batches in flight are some of [q], and if the request [a] is
    not in these, it is running. *)
Record starved (id a : string) (q : list SchedulerOutput) (c : t) : Prop := {
  st_scheduled : id ∈ scheduled_req_ids (scheduler c);
  st_running : id ∉ running (scheduler c);
  st_unfinished : get_num_unfinished_requests (scheduler c) <= 1;
  st_queue : exists k, batch_queue c = drop k q;
  st_waits : (forall out, out ∈ q -> num_scheduled_tokens out !! a = None) -> a ∈ running (scheduler c)
}.

Lemma starved_unscheduled id a q c : starved id a q c -> get_num_unscheduled_requests (scheduler c) <= 0.
Proof.
  intros [H1 _ H3 _ _]. unfold get_num_unscheduled_requests.
  assert (size (scheduled_req_ids (scheduler c)) <> 0%nat) by (intros H%size_empty_inv; set_solver). lia.
Qed.

Section Steps.
Context (py_hash : Z * list Z * option (list extra_key) -> Z) (hash_none : Z).
Context (execute_model : SchedulerOutput -> ModelRunnerOutput).

Lemma starved_submits_nothing id a q c now : starved id a q c ->
  submit_batch py_hash hash_none now c = (Ok None, c).
Proof.
  intros H%starved_unscheduled. unfold submit_batch. rewrite bind_run. cbn.
  by rewrite (proj2 (Z.ltb_ge _ _) H).
Qed.

(** Neither queue changes. *)
Lemma queued_starved id a q c s : starved id a q c ->
  queued id (waiting (scheduler c)) (running (scheduler c)) s -> starved id a q (with_scheduler s c).
Proof.
  intros [H1 H2 H3 H4 H5] (Hw & Hr & Hs). split; cbn; [done|by rewrite Hr|..|done|by rewrite Hr].
  unfold get_num_unfinished_requests in *. by rewrite Hw, Hr.
Qed.

Lemma update_starved id a q out c : starved id a q c -> out ∈ q ->
  starved id a q (on_scheduler (update_from_output out (execute_model out)) c).2.
Proof.
  intros H Hout. pose proof H as [H1 H2 H3 H4 H5]. set (s := scheduler c) in *.
  unfold on_scheduler, update_from_output. fold s. rewrite bind_run. unfold gets at 1. cbv beta iota. rewrite bind_run.
  assert (Hq : queued id (waiting s) (running s) s) by by split.
  pose proof (update_loop_queued id out (execute_model out) _ _ (running s) s H2 Hq) as [Hq1 Hl].
  destruct (update_loop _ _ _ _) as [[[outs l]|e] s1]; cbn [snd] in Hq1; [|by apply (queued_starved id a q c)].
  destruct (Hl _ _ eq_refl) as [Hsub Hin]. rewrite bind_run. unfold modify. cbv beta iota. rewrite bind_run.
  assert (Hq2 : queued id (waiting s) l (with_running l s1)) by (destruct Hq1 as (Hw & _ & Hs); by split).
  apply (keeps_make_stats id) in Hq2. destruct (make_stats _) as [r s3]. cbn [snd] in Hq2.
  assert (Hdone : starved id a q (with_scheduler s3 c)).
  { destruct Hq2 as (Hw & Hr & Hs). split; cbn; [done| | |done|].
    - rewrite Hr. intros Hid. apply H2. by eapply elem_of_submseteq, sublist_submseteq.
    - unfold get_num_unfinished_requests in *. fold s in H3. rewrite Hw, Hr. apply sublist_length in Hsub. lia.
    - intros Hnone. rewrite Hr. apply Hin; auto. }
  by destruct r.
Qed.

Lemma step_starved id a q now : preserves (starved id a q) (step_with_batch_queue py_hash hash_none execute_model now).
Proof.
  intros c H. unfold step_with_batch_queue. rewrite (bind_step _ _ _ _ _ (starved_submits_nothing _ _ _ _ now H)).
  cbv iota. rewrite bind_run. unfold gets. cbv beta iota. destruct (batch_queue c) as [|out l] eqn:Hc.
  - unfold no_outputs, on_scheduler. rewrite !bind_run.
    pose proof (keeps_make_stats id (waiting (scheduler c)) (running (scheduler c)) (scheduler c)) as Hk.
    destruct (make_stats _) as [[stats|e] s1]; apply (queued_starved id a q c); try done;
      by apply Hk; split; [|split; [|apply H]].
  - rewrite bind_run. unfold modify at 1. cbv beta iota. rewrite bind_run.
    destruct (st_queue _ _ _ _ H) as [k Hk]. rewrite Hc in Hk.
    assert (Hout : out ∈ q) by (rewrite <- (take_drop k q), <- Hk; set_solver).
    assert (H' : starved id a q (with_queue l c)).
    { destruct H as [H1 H2 H3 _ H5]. split; try done. exists (Datatypes.S k). cbn.
      by rewrite <- Nat.add_1_r, <- drop_drop, <- Hk. }
    pose proof (update_starved id a q out _ H' Hout) as Hu. by destruct (on_scheduler _ _) as [[o|e] c1].
Qed.
End Steps.

Lemma remove_first_shorter (l : list string) x : x ∈ l -> exists l', remove_first l x = Ok l' /\ length l = Datatypes.S (length l').
Proof.
  induction l as [|y l IH]; intros Hx; [by apply not_elem_of_nil in Hx|]. cbn. destruct (decide (y = x)); [by exists l|].
  apply elem_of_cons in Hx as [->|Hx]; [done|]. destruct (IH Hx) as (l' & -> & Hl). exists (y :: l'). cbn. by rewrite Hl.
Qed.

(** Aborting a request that is not running leaves its id where it is. *)
Lemma abort_starves id a c r :
  objs (scheduler c) !! id = Some r -> Request.status r <> RUNNING ->
  id ∈ requests (scheduler c) -> id ∈ waiting (scheduler c) -> id ∉ running (scheduler c) ->
  id ∈ scheduled_req_ids (scheduler c) -> get_num_unfinished_requests (scheduler c) <= 2 ->
  a ∈ running (scheduler c) -> starved id a (batch_queue c) (abort_requests [id] c).2.
Proof.
  set (s := scheduler c). intros Hr Hst Hreq Hw Hrun Hsch Hn Ha.
  destruct (remove_first_shorter _ _ Hw) as (w & Hrem & Hlen).
  assert (Hq : queued id w (running s) (finish_requests [id] FINISHED_ABORTED s).2).
  { unfold finish_requests. rewrite (bind_step _ _ s tt s eq_refl). cbn [for_each].
    assert (Hf : queued id w (running s) (finish_one FINISHED_ABORTED id s).2).
    { unfold finish_one. rewrite bind_run. unfold gets at 1. cbv beta iota. rewrite bool_decide_true by done. cbn [negb].
      rewrite (bind_step (obj id) _ s r s) by (unfold obj; by rewrite Hr). rewrite bool_decide_false by done.
      rewrite bind_run. rewrite (bind_step (gets waiting) _ s (waiting s) s eq_refl), Hrem.
      unfold lift at 1. rewrite bind_run. cbv beta iota. unfold modify at 1. cbv beta iota.
      assert (Hq : queued id w (running s) (with_waiting w s)) by by split.
      revert Hq. generalize (with_waiting w s). apply preserves_bind; [apply keeps_set_obj|intros ?; apply keeps_free_request]. }
    rewrite bind_run. by destruct (finish_one _ _ _) as [[]]. }
  assert (H' : (abort_requests [id] c).2 = with_scheduler (finish_requests [id] FINISHED_ABORTED s).2 c).
  { unfold abort_requests, on_scheduler. fold s. by destruct (finish_requests _ _ _). }
  rewrite H'. revert Hq. generalize (finish_requests [id] FINISHED_ABORTED s).2. intros s' (Hqw & Hqr & Hqs). split; cbn; [done|by rewrite Hqr| |by exists O|intros _; by rewrite Hqr].
  unfold get_num_unfinished_requests in *. fold s in Hn. rewrite Hqw, Hqr. lia.
Qed.
End Starvation.

(** C37. With several batches in flight a request can starve.  A request that is
    preempted while its batch runs is no longer running, but its id stays in
    [scheduled_req_ids], and aborting it does not take the id off.  When at most
    one other request, [a], is unfinished, the number of unscheduled requests is
    then never positive: however many steps the engine makes, with any executor
    and whatever the outcomes, no step submits a batch any more, the batches in
    flight run out, and a running request [a] that is in none of them stays in
    the running queue unfinished. *)
Theorem preempted_in_flight_starves py_hash hash_none execute c id r a times :
  let s := EngineCore.scheduler c in
  objs s !! id = Some r -> Request.status r <> RUNNING -> id ∈ requests s ->
  id ∈ waiting s -> id ∉ running s -> id ∈ scheduled_req_ids s ->
  get_num_unfinished_requests s <= 2 -> a ∈ running s ->
  let c' := ((EngineCore.abort_requests [id] ;;
              map_each times (EngineCore.step_with_batch_queue py_hash hash_none execute)) c).2 in
  id ∈ scheduled_req_ids (EngineCore.scheduler c') /\
  (exists k, EngineCore.batch_queue c' = drop k (EngineCore.batch_queue c)) /\
  ((forall out, out ∈ EngineCore.batch_queue c -> num_scheduled_tokens out !! a = None) ->
    a ∈ running (EngineCore.scheduler c')) /\
  forall now, EngineCore.submit_batch py_hash hash_none now c' = (Ok None, c').
Proof.
  intros s Hr Hst Hreq Hw Hrun Hsch Hn Ha c'.
  pose proof (Starvation.abort_starves id a c r Hr Hst Hreq Hw Hrun Hsch Hn Ha) as H0.
  assert (H : Starvation.starved id a (EngineCore.batch_queue c) c').
  { unfold c'. rewrite bind_run. destruct (EngineCore.abort_requests [id] c) as [[[]|e] c1]; [|done].
    by apply (preserves_map_each _ times _ (Starvation.step_starved py_hash hash_none execute id a _)). }
  split_and!; try apply H. intros now. by eapply Starvation.starved_submits_nothing.
Qed.

(** ** Two runs *)

Definition run_state {S A} (m : M S A) (s : S) : S := (m s).2.

(** Blocks of 2 tokens, at most 10 tokens and 4 requests a step. *)
Definition sample_scheduler (max_len : Z) (blocks : nat) (encoder_budget : Z * Z) :
    V1Scheduler.t :=
  match V1Scheduler.init false None 4 10 max_len 2 blocks true encoder_budget with
  | Ok s => s
  | Err _ => Scheduler false None 4 10 8 0 sample_m0 (EncoderCache.init 0) ∅ ∅ [] [] ∅ ∅ ∅
  end.
Definition sample_engine : EngineCore.t := EngineCore.Core (sample_scheduler 8 5 (0, 0)) [] 2.

(** An executor that generates token 9 for every scheduled request. *)
Definition sample_execute (out : SchedulerOutput) : ModelRunnerOutput :=
  let ids := keys (num_scheduled_tokens out) in
  RunnerOutput (list_to_map (zip ids (seq 0 (length ids)))) (map (fun _ => [9]) ids) None None ∅.

Definition sample_step : M EngineCore.t (option EngineCore.outputs) :=
  EngineCore.step_with_batch_queue sample_hash 17 sample_execute 0.

(** Batch 1 has requests c and a.  While it runs, c is aborted and b scheduled,
    in batch 2.  When batch 1 is done, a needs a block and preempts b, whose
    batch still runs; then the batches end. *)
Definition leak_run : M EngineCore.t unit :=
  EngineCore.add_request (sample_request "c" [1; 2]) 0 ;;
  EngineCore.add_request (sample_request "a" [3; 4]) 0 ;;
  _ ← sample_step;
  EngineCore.abort_requests ["c"] ;;
  EngineCore.add_request (sample_request "b" [5; 6]) 0 ;;
  _ ← sample_step;
  _ ← sample_step;
  _ ← sample_step;
  _ ← sample_step;
  _ ← sample_step;
  mret tt.

Definition leak_state : EngineCore.t := run_state leak_run sample_engine.

(** When b is aborted now, a is never scheduled again. *)
Lemma preempted_in_flight_starves_witness :
  (leak_run sample_engine).1 = Ok tt /\ EngineCore.batch_queue leak_state = [] /\
  forall times, let c' := ((EngineCore.abort_requests ["b"] ;;
      map_each times (EngineCore.step_with_batch_queue sample_hash 17 sample_execute)) leak_state).2 in
    "a"%string ∈ running (EngineCore.scheduler c') /\
    forall now, EngineCore.submit_batch sample_hash 17 now c' = (Ok None, c').
Proof.
  assert (Hq : EngineCore.batch_queue leak_state = []) by (vm_compute; reflexivity).
  split; [vm_compute; reflexivity|]. split; [exact Hq|]. intros times.
  assert (Hr : exists r, objs (EngineCore.scheduler leak_state) !! "b"%string = Some r /\ Request.status r = PREEMPTED).
  { eexists. split; vm_compute; reflexivity. }
  destruct Hr as (r & Hr & Hst).
  assert (Hreq : requests (EngineCore.scheduler leak_state) = {["a"%string; "b"%string]}) by (vm_compute; reflexivity).
  assert (Hw : waiting (EngineCore.scheduler leak_state) = ["b"%string]) by (vm_compute; reflexivity).
  assert (Hrun : running (EngineCore.scheduler leak_state) = ["a"%string]) by (vm_compute; reflexivity).
  assert (Hsch : scheduled_req_ids (EngineCore.scheduler leak_state) = {["b"%string]}) by (vm_compute; reflexivity).
  destruct (preempted_in_flight_starves sample_hash 17 sample_execute leak_state "b" r "a" times Hr)
    as (_ & _ & Ha & Hnow).
  - by rewrite Hst.
  - rewrite Hreq. set_solver.
  - rewrite Hw. by left.
  - rewrite Hrun. by intros ?%list_elem_of_singleton.
  - rewrite Hsch. by apply elem_of_singleton.
  - unfold get_num_unfinished_requests. by rewrite Hw, Hrun.
  - rewrite Hrun. by left.
  - split; [|exact Hnow]. apply Ha. rewrite Hq. intros out Hout. destruct (not_elem_of_nil out Hout).
Defined.

(** A request of [n] tokens with images at the given places. *)
Definition image_request (id : string) (n : nat) (images : list PlaceholderRange) : Request.t :=
  let tokens := map Z.of_nat (seq 0 n) in
  Request.Request id sample_params None None true WAITING [] None 10 tokens (Z.of_nat n)
    [] tokens [] 0 images (map (fun _ => 0) images) (map (fun _ => Some "h") images).

(** An encoder cache and an encoder budget of 6 tokens.  The image of r, of 4
    tokens, is in the cache when s arrives, with two images of 2 tokens. *)
Definition overcommit_run : M V1Scheduler.t SchedulerOutput :=
  V1Scheduler.add_request (image_request "r" 12 [Placeholder 8 4]) 0 ;;
  out ← schedule sample_hash 17 0;
  _ ← update_from_output out (sample_execute out);
  V1Scheduler.add_request (image_request "s" 8 [Placeholder 0 2; Placeholder 4 2]) 0 ;;
  schedule sample_hash 17 0.

(** The encoder cache can be overcommitted.  [_try_schedule_encoder_inputs]
    asks for each input whether it fits the cache, without counting the inputs
    it has just chosen: here the cache has two slots left, and both images of a
    request, of two slots each, are scheduled and allocated, which leaves the
    number of free slots at minus two. *)
Theorem encoder_cache_overcommitted :
  let '(res, s) := overcommit_run (sample_scheduler 32 20 (6, 6)) in
  (exists out, res = Ok out /\ scheduled_encoder_inputs out = PyDict [("s", [0; 1]%nat)]) /\
  EncoderCache.cache_size (encoder_cache_manager s) = 6 /\
  EncoderCache.num_free_slots (encoder_cache_manager s) = -2.
Proof. vm_compute. split; [eexists; split; reflexivity|split; reflexivity]. Qed.
