(* ===== verification/V1SchedulerInv.v ===== *)
(** * v1: what holds of a scheduler between and during its calls

    [inv s q run f] relates the queues, the request objects and the KV-cache
    manager's records: [run] is the running queue, [q] the requests that the
    waiting loop has set aside for their grammar, [f] the number of tokens of a
    request that are scheduled and not yet processed.  The lemmas say what each
    kind of change does to it: a live request changes and may move between the
    queues ([inv_change]) or leaves ([inv_remove]).  The requests are text-only and
    without speculated tokens ([plain]); the scheduler is not configured for LoRA. *)
From S2P Require Import Prelude.
From S2P Require Import PyDict.
From S2P Require Import FreeQueue.
From S2P Require Import V1Request.
From S2P Require Import BlockHashing.
From S2P Require Import V1BlockPool.
From S2P Require Import V1PoolCorrect.
From S2P Require Import KVCacheManager.
From S2P Require Import KVManagerCorrect.
From S2P Require Import KVManagerChain.
From S2P Require Import KVManagerProtocol.
From S2P Require Import EncoderCache.
From S2P Require Import V1Scheduler.
Import V1Scheduler.

(** ** Request objects *)

(** The object of [id] becomes [r]. *)
Definition put (id : string) (r : Request.t) (s : t) : t := with_objs (<[id := r]> (objs s)) s.

Lemma put_id id r s : objs s !! id = Some r -> put id r s = s.
Proof. intros H. unfold put. rewrite insert_id by done. by destruct s. Qed.
Lemma put_put id r r' s : put id r' (put id r s) = put id r' s.
Proof. unfold put, with_objs; cbn. by rewrite insert_insert_eq. Qed.

Lemma object_run id r s : objs s !! id = Some r -> obj id s = (Ok r, s).
Proof. intros H. unfold obj. by rewrite H. Qed.
Lemma obj_put id r s : obj id (put id r s) = (Ok r, put id r s).
Proof. apply object_run. apply lookup_insert_eq. Qed.

Lemma set_obj_run id r s g : objs s !! id = Some r -> set_obj id g s = (Ok tt, put id (g r) s).
Proof. intros H. unfold set_obj. by rewrite (bind_step _ _ _ _ _ (object_run _ _ _ H)). Qed.
Lemma set_obj_put id r s g : set_obj id g (put id r s) = (Ok tt, put id (g r) s).
Proof. rewrite (set_obj_run id r) by apply lookup_insert_eq. by rewrite put_put. Qed.

Definition logged (s : t) (ty : EventType) (now : Q) (r : Request.t) : Request.t :=
  if log_stats s then Request.with_events (Request.events r ++ [(ty, now)]) r else r.

Lemma log_event_put id r s ty now :
  log_event id ty now (put id r s) = (Ok tt, put id (logged s ty now r) s).
Proof.
  unfold log_event. rewrite bind_run. cbn [gets]. unfold logged.
  change (log_stats (put id r s)) with (log_stats s).
  destruct (log_stats s); [|done]. by rewrite set_obj_put.
Qed.

(** ** Live requests *)

Definition live (s : t) : gmap string Request.t :=
  filter (fun kv => kv.1 ∈ requests s) (objs s).

Lemma live_lookup s id r : live s !! id = Some r <-> objs s !! id = Some r /\ id ∈ requests s.
Proof. unfold live. rewrite map_lookup_filter_Some. done. Qed.

Lemma live_same s s' : objs s' = objs s -> requests s' = requests s -> live s' = live s.
Proof. unfold live. by intros -> ->. Qed.

Lemma live_put s id r : id ∈ requests s -> live (put id r s) = <[id := r]> (live s).
Proof.
  intros Hid. apply map_eq. intros i. apply option_eq. intros r'.
  rewrite live_lookup. cbn. rewrite !lookup_insert_Some, live_lookup.
  split; [intros [[[<- <-]|[? ?]] ?]; tauto|intros [[<- <-]|[? [? ?]]]; tauto].
Qed.

Lemma live_dead s id r : id ∉ requests s -> live (put id r s) = live s.
Proof.
  intros Hid. apply map_eq. intros i. apply option_eq. intros r'.
  rewrite !live_lookup. cbn. rewrite lookup_insert_Some.
  split; [intros [[[<- <-]|[? ?]] ?]; tauto|intros [? ?]].
  split; [|done]. right. split; [|done]. by intros ->.
Qed.

Lemma live_delete s s' id :
  objs s' = objs s -> requests s' = requests s ∖ {[id]} -> live s' = delete id (live s).
Proof.
  intros Ho Hr. apply map_eq. intros i. apply option_eq. intros r.
  rewrite lookup_delete_Some, !live_lookup, Ho, Hr, elem_of_difference, elem_of_singleton.
  split; [intros (? & ? & ?); split_and!; congruence|intros (? & ? & ?); split_and!; congruence].
Qed.

Lemma live_add s s' id r :
  objs s' = <[id := r]> (objs s) -> requests s' = {[id]} ∪ requests s ->
  live s' = <[id := r]> (live s).
Proof.
  intros Ho Hr. apply map_eq. intros i. apply option_eq. intros r'.
  rewrite live_lookup, Ho, Hr, !lookup_insert_Some, live_lookup, elem_of_union, elem_of_singleton.
  split; [intros [[[<- <-]|[? ?]] [?|?]]; try tauto; congruence|].
  intros [[<- <-]|[? [? ?]]]; tauto.
Qed.

(** ** The invariant *)

(** A text-only request whose tokens fit the model. *)
Record plain (len : Z) (r : Request.t) : Prop := Plain {
  pl_mm : Request.mm_inputs r = [];
  pl_spec : Request.spec_token_ids r = [];
  pl_some : 0 < Request.num_tokens r;
  pl_len : Request.num_tokens r <= len;
}.

Abbreviation computed_tokens := Request.num_computed_tokens.
Abbreviation kv := kv_cache_manager.

(** A running request with [n] tokens in flight: its full blocks are among the
    computed and scheduled tokens, and it has a token left to compute. *)
Record running_ok (m : KVCacheManager.t) (n : Z) (r : Request.t) : Prop := RunningOk {
  ro_status : Request.status r = RUNNING;
  ro_computed : 0 <= computed_tokens r;
  ro_own : computed_tokens r + n <= Request.num_tokens r;
  ro_more : n = 0 -> computed_tokens r < Request.num_tokens r;
  ro_blocks : exists k, KVCacheManager.num_cached_block m !! Request.request_id r =
                Some (Z.of_nat k) /\
              Z.of_nat k * KVCacheManager.block_size m <= computed_tokens r + n;
}.

Record waiting_ok (m : KVCacheManager.t) (r : Request.t) : Prop := WaitingOk {
  wo_status : Request.status r = WAITING \/ Request.status r = WAITING_FOR_FSM \/
              Request.status r = PREEMPTED;
  wo_computed : computed_tokens r = 0;
  wo_blocks : KVCacheManager.num_cached_block m !! Request.request_id r = None;
}.

(** What the configuration must satisfy, and the encoder cache is unused. *)
Record config_ok (s : t) : Prop := ConfigOk {
  cf_loras : max_loras s = None;
  cf_budget : 0 <= max_num_scheduled_tokens s;
  cf_len : KVCacheManager.max_model_len (kv s) = max_model_len s;
  cf_blocks : 0 < V1BlockPool.num_gpu_blocks (KVCacheManager.block_pool (kv s));
  cf_encoder : EncoderCache.cached (encoder_cache_manager s) = ∅;
}.

Definition in_flight (f : string -> option Z) (id : string) : Z := default 0 (f id).

Section Inv.
Context (py_hash : Z * list Z * option (list extra_key) -> Z) (hash_none : Z).

Abbreviation good := (KVManagerProtocol.good py_hash hash_none).

Record inv (s : t) (q run : list string) (f : string -> option Z) : Prop := Inv {
  iv_config : config_ok s;
  iv_good : exists l, good (kv s, live s) l;
  iv_nodup : NoDup (q ++ waiting s ++ run);
  iv_requests : forall id, id ∈ requests s <-> id ∈ q ++ waiting s ++ run;
  iv_objs : forall id, id ∈ requests s -> is_Some (objs s !! id);
  iv_room : Z.of_nat (length run) <= max_num_running_reqs s;
  iv_plain : forall id r, live s !! id = Some r -> plain (max_model_len s) r;
  iv_running : forall id r, id ∈ run -> live s !! id = Some r ->
    running_ok (kv s) (in_flight f id) r;
  iv_waiting : forall id r, id ∈ q ++ waiting s -> live s !! id = Some r -> waiting_ok (kv s) r;
  iv_flight : forall id n, f id = Some n -> 0 < n /\ id ∈ run;
}.

(** The scheduled ids are those with tokens in flight. *)
Definition sched_ok (s : t) (f : string -> option Z) : Prop :=
  forall id, id ∈ scheduled_req_ids s <-> is_Some (f id).

Lemma inv_live s q run f id :
  inv s q run f -> id ∈ q ++ waiting s ++ run ->
  exists r, live s !! id = Some r /\ objs s !! id = Some r /\ Request.request_id r = id /\
    BlockHashing.text r /\ plain (max_model_len s) r.
Proof.
  intros Hi Hin. apply (iv_requests _ _ _ _ Hi) in Hin as Hreq.
  destruct (iv_objs _ _ _ _ Hi id Hreq) as [r Hr]. exists r.
  assert (Hl : live s !! id = Some r) by by apply live_lookup.
  destruct (iv_good _ _ _ _ Hi) as (l & Hg).
  destruct (gd_live _ _ _ _ Hg id r Hl) as (Hid & Htext & _).
  split_and!; [done|done|done|done|]. by apply (iv_plain _ _ _ _ Hi id).
Qed.

(** What no call of [schedule] changes. *)
Record same_env (s s' : t) : Prop := SameEnv {
  se_log : log_stats s' = log_stats s;
  se_loras : max_loras s' = max_loras s;
  se_running : max_num_running_reqs s' = max_num_running_reqs s;
  se_budget : max_num_scheduled_tokens s' = max_num_scheduled_tokens s;
  se_len : max_model_len s' = max_model_len s;
  se_encoder : EncoderCache.cached (encoder_cache_manager s') =
               EncoderCache.cached (encoder_cache_manager s);
}.

#[global] Instance same_env_preorder : PreOrder same_env.
Proof.
  split; [done|]. intros s1 s2 s3 [] []. split; congruence.
Qed.

Lemma config_same s s' :
  same_env s s' -> same_setup (kv s) (kv s') -> config_ok s -> config_ok s'.
Proof.
  intros [Hl Hlo Hru Hb Hle He] [Hs Hm _ _ _ Hn] [H1 H2 H3 H4 H5]. split; congruence.
Qed.

(** Other requests do not notice. *)
Lemma running_others m m' id r n :
  others id m m' -> Request.request_id r <> id -> running_ok m n r -> running_ok m' n r.
Proof.
  intros Ho Hne [H1 H2 H3 H4 (k & H5 & H6)]. split; [done..|]. exists k.
  rewrite (ot_cached _ _ _ Ho) by done. split; [done|].
  by rewrite (ss_size _ _ (ot_setup _ _ _ Ho)).
Qed.
Lemma waiting_others m m' id r :
  others id m m' -> Request.request_id r <> id -> waiting_ok m r -> waiting_ok m' r.
Proof.
  intros Ho Hne [H1 H2 H3]. split; [done..|]. by rewrite (ot_cached _ _ _ Ho).
Qed.

(** The live request [id] becomes [r'], after a call of the manager for it that
    leaves the others alone; it may change its queue. *)
Lemma inv_change s q run f s' q' run' f' id r' l' :
  inv s q run f -> id ∈ requests s ->
  good (kv s', <[id := r']> (live s)) l' -> others id (kv s) (kv s') ->
  same_env s s' -> requests s' = requests s -> objs s' = <[id := r']> (objs s) ->
  q' ++ waiting s' ++ run' ≡ₚ q ++ waiting s ++ run ->
  (forall id', id' <> id -> id' ∈ run' <-> id' ∈ run) ->
  Z.of_nat (length run') <= max_num_running_reqs s ->
  (forall id', id' <> id -> f' id' = f id') -> (forall n, f' id = Some n -> 0 < n) ->
  plain (max_model_len s) r' ->
  (if decide (id ∈ run') then running_ok (kv s') (in_flight f' id) r'
   else waiting_ok (kv s') r' /\ f' id = None) ->
  inv s' q' run' f'.
Proof.
  intros Hi Hid Hg Ho Henv Hreq Hobj Hperm Hrun Hroom Hf Hfp Hpl Hnew.
  assert (Hlive : live s' = <[id := r']> (live s)).
  { etransitivity; [|apply (live_put s id r'); done]. by apply live_same. }
  assert (Hnd : NoDup (q' ++ waiting s' ++ run')) by (rewrite Hperm; apply Hi).
  assert (Hne : forall i r, live s' !! i = Some r -> i <> id ->
            live s !! i = Some r /\ Request.request_id r = i).
  { intros i r Hr Hi'. rewrite Hlive, lookup_insert_ne in Hr by done. split; [done|].
    destruct (iv_good _ _ _ _ Hi) as (l & Hgood). by apply (gd_live _ _ _ _ Hgood). }
  assert (Hw : forall i, i <> id -> i ∈ q' ++ waiting s' -> i ∈ q ++ waiting s).
  { intros i Hne' Hin. assert (Hall : i ∈ q ++ waiting s ++ run).
    { rewrite <- Hperm, app_assoc. apply elem_of_app. by left. }
    rewrite app_assoc in Hall. apply elem_of_app in Hall as [?|Hall]; [done|].
    apply Hrun in Hall; [|done]. rewrite app_assoc in Hnd.
    apply NoDup_app in Hnd as (_ & Hdis & _). by destruct (Hdis i Hin). }
  split.
  - eapply config_same; [done|apply Ho|apply Hi].
  - exists l'. by rewrite Hlive.
  - done.
  - intros i. by rewrite Hreq, Hperm, (iv_requests _ _ _ _ Hi).
  - intros i. rewrite Hreq, Hobj. intros Hin. destruct (decide (id = i)) as [->|].
    + rewrite lookup_insert_eq. eauto.
    + rewrite lookup_insert_ne by done. by apply (iv_objs _ _ _ _ Hi).
  - by rewrite (se_running _ _ Henv).
  - intros i r Hr. rewrite (se_len _ _ Henv). destruct (decide (i = id)) as [->|Hn].
    + rewrite Hlive, lookup_insert_eq in Hr. by injection Hr as <-.
    + destruct (Hne i r Hr Hn) as [Hr' _]. by apply (iv_plain _ _ _ _ Hi i).
  - intros i r Hin Hr. destruct (decide (i = id)) as [->|Hn].
    + rewrite Hlive, lookup_insert_eq in Hr. injection Hr as <-. by rewrite decide_True in Hnew.
    + destruct (Hne i r Hr Hn) as [Hr' Hri]. unfold in_flight. rewrite Hf by done.
      apply (running_others (kv s) _ id); [done|congruence|].
      apply (iv_running _ _ _ _ Hi i); [by apply Hrun|done].
  - intros i r Hin Hr. destruct (decide (i = id)) as [->|Hn].
    + rewrite Hlive, lookup_insert_eq in Hr. injection Hr as <-.
      rewrite decide_False in Hnew; [apply Hnew|]. intros Hr. rewrite app_assoc in Hnd.
      apply NoDup_app in Hnd as (_ & Hdis & _). by destruct (Hdis id Hin).
    + destruct (Hne i r Hr Hn) as [Hr' Hri].
      apply (waiting_others (kv s) _ id); [done|congruence|].
      apply (iv_waiting _ _ _ _ Hi i); [by apply Hw|done].
  - intros i n Hfi. destruct (decide (i = id)) as [->|Hn].
    + split; [by apply Hfp|]. destruct (decide (id ∈ run')); [done|].
      destruct Hnew as [_ Hnew]. congruence.
    + rewrite Hf in Hfi by done. destruct (iv_flight _ _ _ _ Hi i n Hfi). split; [done|].
      by apply Hrun.
Qed.

(** A request leaves. *)
Lemma inv_remove s q run f s' q' run' f' id l' :
  inv s q run f -> id ∈ requests s ->
  good (kv s', delete id (live s)) l' -> others id (kv s) (kv s') ->
  same_env s s' -> requests s' = requests s ∖ {[id]} ->
  (forall i, i <> id -> objs s' !! i = objs s !! i) ->
  id :: q' ++ waiting s' ++ run' ≡ₚ q ++ waiting s ++ run ->
  (forall i, i <> id -> i ∈ run' <-> i ∈ run) -> (length run' <= length run)%nat ->
  (forall i, i <> id -> f' i = f i) -> f' id = None ->
  inv s' q' run' f'.
Proof.
  intros Hi Hid Hg Ho Henv Hreq Hobj Hperm Hrun Hlen Hf Hfid.
  assert (Hlive : live s' = delete id (live s)).
  { apply map_eq. intros i. apply option_eq. intros r.
    rewrite lookup_delete_Some, !live_lookup, Hreq, elem_of_difference, elem_of_singleton.
    destruct (decide (i = id)) as [->|Hn]; [tauto|]. rewrite Hobj by done.
    split; [intros (? & ? & ?)|intros (? & ? & ?)]; split_and!; congruence. }
  assert (Hnd : NoDup (id :: q' ++ waiting s' ++ run')) by (rewrite Hperm; apply Hi).
  apply NoDup_cons in Hnd as [Hnot Hnd].
  assert (Hne : forall i r, live s' !! i = Some r ->
            i <> id /\ live s !! i = Some r /\ Request.request_id r = i).
  { intros i r. rewrite Hlive, lookup_delete_Some. intros [Hn Hr]. split_and!; [done|done|].
    destruct (iv_good _ _ _ _ Hi) as (l & Hgood). by apply (gd_live _ _ _ _ Hgood). }
  split.
  - eapply config_same; [done|apply Ho|apply Hi].
  - exists l'. by rewrite Hlive.
  - done.
  - intros i. rewrite Hreq, elem_of_difference, elem_of_singleton, (iv_requests _ _ _ _ Hi).
    rewrite <- Hperm, elem_of_cons. split; [tauto|]. intros Hin. split; [by right|].
    intros ->. done.
  - intros i. rewrite Hreq, elem_of_difference, elem_of_singleton. intros [Hin Hn].
    rewrite Hobj by done. by apply (iv_objs _ _ _ _ Hi).
  - rewrite (se_running _ _ Henv). pose proof (iv_room _ _ _ _ Hi). lia.
  - intros i r Hr. rewrite (se_len _ _ Henv). destruct (Hne i r Hr) as (_ & Hr' & _).
    by apply (iv_plain _ _ _ _ Hi i).
  - intros i r Hin Hr. destruct (Hne i r Hr) as (Hn & Hr' & Hri). unfold in_flight.
    rewrite Hf by done. apply (running_others (kv s) _ id); [done|congruence|].
    apply (iv_running _ _ _ _ Hi i); [by apply Hrun|done].
  - intros i r Hin Hr. destruct (Hne i r Hr) as (Hn & Hr' & Hri).
    apply (waiting_others (kv s) _ id); [done|congruence|].
    apply (iv_waiting _ _ _ _ Hi i); [|done].
    assert (Hall : i ∈ q ++ waiting s ++ run).
    { rewrite <- Hperm. right. rewrite app_assoc. apply elem_of_app. by left. }
    rewrite app_assoc in Hall. apply elem_of_app in Hall as [?|Hall]; [done|].
    apply Hrun in Hall; [|done]. rewrite app_assoc in Hnd.
    apply NoDup_app in Hnd as (_ & Hdis & _). by destruct (Hdis i Hin).
  - intros i n Hfi. destruct (decide (i = id)) as [->|Hn]; [congruence|].
    rewrite Hf in Hfi by done. destruct (iv_flight _ _ _ _ Hi i n Hfi). split; [done|].
    by apply Hrun.
Qed.
End Inv.
