(* ===== verification/V1SchedulerSchedule.v ===== *)
(** * v1: [schedule] answers and keeps the scheduler's invariant

    The two loops of [schedule], with the bounds that suffice for them, and the
    assertions after them.  [tally] is what the local variables of [schedule]
    say: the tokens given to each request and the budget left. *)
From S2P Require Import Prelude.
From S2P Require Import PyDict.
From S2P Require Import FreeQueue.
From S2P Require Import V1Request.
From S2P Require Import BlockHashing.
From S2P Require Import V1BlockPool.
From S2P Require Import V1PoolCorrect.
From S2P Require Import KVCacheManager.
From S2P Require Import KVManagerCorrect.
From S2P Require Import KVManagerChain.
From S2P Require Import KVManagerProtocol.
From S2P Require Import EncoderCache.
From S2P Require Import V1Scheduler.
From S2P Require Import V1SchedulerInv.
Import V1Scheduler.

(** ** Requests that change only in what the cache manager does not read *)

Record evolves (r r' : Request.t) : Prop := Evolves {
  ev_id : Request.request_id r' = Request.request_id r;
  ev_lora : Request.lora_request r' = Request.lora_request r;
  ev_mm : Request.mm_positions r' = Request.mm_positions r;
  ev_inputs : Request.mm_inputs r' = Request.mm_inputs r;
  ev_spec : Request.spec_token_ids r' = Request.spec_token_ids r;
  ev_params : Request.sampling_params r' = Request.sampling_params r;
  ev_tokens : Request.all_token_ids r `prefix_of` Request.all_token_ids r';
}.

#[global] Instance evolves_preorder : PreOrder evolves.
Proof.
  split; [done|]. intros r1 r2 r3 [] []. split; try congruence. by etransitivity.
Qed.

Lemma evolves_logged s ty now r : evolves r (logged s ty now r).
Proof. unfold logged. by destruct (log_stats s). Qed.

Lemma evolves_plain len r r' :
  evolves r r' -> Request.num_tokens r' <= len -> plain len r -> plain len r'.
Proof.
  intros [] Hlen [H1 H2 H3 H4]. split; [congruence..| |done].
  unfold Request.num_tokens in *. apply prefix_length in ev_tokens0. lia.
Qed.

Definition add_flight (f : string -> option Z) (id : string) (n : Z) : string -> option Z :=
  fun i => if decide (i = id) then Some n else f i.

Section Schedule.
Context (py_hash : Z * list Z * option (list extra_key) -> Z) (hash_none : Z).

Abbreviation good := (KVManagerProtocol.good py_hash hash_none).
Abbreviation inv := (V1SchedulerInv.inv py_hash hash_none).
Abbreviation allocate_slots := (KVCacheManager.allocate_slots py_hash hash_none).

Lemma good_evolve m R l id r r' :
  good (m, R) l -> R !! id = Some r -> evolves r r' -> good (m, <[id := r']> R) l.
Proof.
  intros Hg Hr [Hid Hl Hm Hi Hs Hp Ht]. destruct (gd_live _ _ _ _ Hg id r Hr) as (<- & Htext & _).
  apply (good_grow py_hash hash_none m R l r); try done. unfold BlockHashing.text in *. congruence.
Qed.

Lemma inv_flight_ext s q run f f' : (forall i, f i = f' i) -> inv s q run f -> inv s q run f'.
Proof.
  intros He [H1 H2 H3 H4 H5 H6 H7 H8 H9 H10]. split; try done.
  - intros id r. unfold in_flight. rewrite <- He. apply H8.
  - intros id n. rewrite <- He. apply H10.
Qed.

(** ** The manager's calls *)

(** There are blocks for a request of the greatest length. *)
Definition roomy (s : t) : Prop :=
  cdiv (max_model_len s) (KVCacheManager.block_size (kv s)) <=
  V1BlockPool.num_gpu_blocks (KVCacheManager.block_pool (kv s)).

(** Only running requests hold blocks. *)
Lemma idle_table s q run f id : inv s q run f -> id ∉ run -> table (kv s) id = [].
Proof.
  intros Hi Hid. destruct (iv_good _ _ _ _ _ _ Hi) as [l Hg].
  destruct (live s !! id) as [r|] eqn:Hl.
  - destruct (gd_live _ _ _ _ Hg id r Hl) as (Hrid & _ & [_ Ht]). cbn in Hrid.
    assert (Hw : waiting_ok (kv s) r).
    { apply (iv_waiting _ _ _ _ _ _ Hi id r); [|done].
      pose proof Hl as [_ Hin]%live_lookup. apply (iv_requests _ _ _ _ _ _ Hi) in Hin.
      rewrite app_assoc in Hin. by apply elem_of_app in Hin as [?|?]. }
    cbn in Ht. rewrite (wo_blocks _ _ Hw) in Ht. by rewrite <- Hrid.
  - apply (uk_table _ _ (gd_dead _ _ _ _ Hg id Hl)).
Qed.

(** When one request holds all the blocks that are held, the others are free. *)
Lemma free_count m l id :
  wf m l -> (forall i, i <> id -> table m i = []) ->
  V1BlockPool.num_gpu_blocks (KVCacheManager.block_pool m) <=
  Z.of_nat (length l) + Z.of_nat (length (table m id)).
Proof.
  intros Hw Ht. set (n := V1BlockPool.num_gpu_blocks _).
  assert (Hsub : seqZ 0 n ⊆+ l ++ table m id).
  { apply NoDup_submseteq; [apply NoDup_seqZ|]. intros b Hb%elem_of_seqZ.
    apply elem_of_app. destruct (decide (b ∈ table m id)) as [|Hnot]; [by right|]. left.
    apply (inv_free _ _ (wf_pool _ _ Hw) b); [lia|]. rewrite (wf_refs _ _ Hw).
    apply holders_zero. intros i. fold (table m i).
    destruct (decide (i = id)) as [->|Hne]; [done|]. rewrite Ht by done. apply not_elem_of_nil. }
  apply submseteq_length in Hsub. rewrite length_seqZ, length_app in Hsub. lia.
Qed.

(** [allocate_slots] for a running request that has tokens left. *)
Lemma allocate_running s q run f id r n :
  inv s q run f -> id ∈ run -> live s !! id = Some r -> f id = None ->
  0 < n -> computed_tokens r + n <= Request.num_tokens r ->
  exists ob m', allocate_slots r n None (kv s) = (Ok ob, m') /\
    inv (with_kv m' s) q run
      (match ob with None => f | Some _ => add_flight f id n end) /\
    same_setup (kv s) m' /\ (roomy s -> run = [id] -> ob <> None).
Proof.
  intros Hi Hid Hr Hf Hn Hown. destruct (iv_good _ _ _ _ _ _ Hi) as (l & Hg).
  destruct (gd_live _ _ _ _ Hg id r Hr) as (Hrid & Htext & _). cbn in Hrid.
  pose proof (iv_plain _ _ _ _ _ _ Hi id r Hr) as [Hmm Hsp Hpos Hlen].
  pose proof (iv_running _ _ _ _ _ _ Hi id r Hid Hr) as [Hst H0 Ho Hmore (k & Hk & Hkb)].
  unfold in_flight in *. rewrite Hf in *. cbn in Ho, Hkb.
  assert (Hreq : id ∈ requests s) by (by apply live_lookup in Hr as [_ ?]).
  assert (Htot : total_tokens (kv s) r n None = computed_tokens r + n).
  { unfold total_tokens. cbn. lia. }
  assert (Hfit : fits (kv s) r n None k).
  { split; rewrite ?Htot, ?Hsp; cbn [length]; [done| |..]; try lia.
    - by rewrite Hk.
    - rewrite (cf_len _ (iv_config _ _ _ _ _ _ Hi)). lia. }
  rewrite <- Hrid in Hr.
  pose proof (allocate_good py_hash hash_none (kv s) (live s) l r n None k Hg Hr Hfit) as H.
  cbn [default from_option] in H.
  specialize (H ltac:(split; [intros i b; by rewrite lookup_nil|cbn; lia]) ltac:(done)).
  assert (Hsame : <[id := r]> (live s) = live s) by (apply insert_id; by rewrite <- Hrid).
  assert (Hobj : objs s = <[id := r]> (objs s)).
  { symmetry. apply insert_id. rewrite Hrid in Hr. by apply live_lookup in Hr as [? _]. }
  case_decide.
  - destruct H as (m' & Ha & Hg' & Hoth & _ & Hnc). exists None, m'. split; [done|].
    rewrite Hrid in Hoth. split_and!; [|apply Hoth|].
    2:{ intros Hroom ->. exfalso. pose proof (gd_wf _ _ _ _ Hg) as Hw. cbn in Hw.
        pose proof (free_count (kv s) l id Hw) as Hfree.
        specialize (Hfree ltac:(intros i Hne; apply (idle_table s q [id] f); [done|];
          by intros ?%list_elem_of_singleton)).
        pose proof (cdiv_mono (computed_tokens r + n) (max_model_len s) _ (wf_size _ _ Hw)).
        unfold new_needed, evictable, roomy in *. rewrite Htot, Hrid in *. cbn in *. lia. }
    apply (inv_change py_hash hash_none s q run f _ _ _ _ id r l); try done.
    + by rewrite Hsame.
    + apply Hi.
    + intros n'. congruence.
    + rewrite decide_True by done. unfold in_flight. rewrite Hf. cbn.
      split; [done..|]. exists k. rewrite Hnc. split; [done|].
      by rewrite (ss_size _ _ (ot_setup _ _ _ Hoth)).
  - destruct H as (new & l' & m' & Ha & Hg' & _ & _ & _ & Hnc & Hoth). exists (Some new), m'.
    split; [done|]. rewrite Hrid in Hoth. split_and!; [|apply Hoth|done].
    pose proof (wf_size _ _ (gd_wf _ _ _ _ Hg)) as Hbs. cbn in Hbs.
    apply (inv_change py_hash hash_none s q run f _ _ _ _ id r l'); try done.
    + by rewrite Hsame.
    + apply Hi.
    + intros i Hne. unfold add_flight. by rewrite decide_False.
    + intros n'. unfold add_flight. rewrite decide_True by done. by intros [= <-].
    + rewrite decide_True by done. unfold in_flight, add_flight. rewrite decide_True by done.
      cbn. split; [done|done|lia|lia|]. exists (Z.to_nat (num_full_after (kv s) r n None)).
      rewrite (ss_size _ _ (ot_setup _ _ _ Hoth)). unfold num_full_after in *.
      rewrite Htot, Hsp in *. cbn [length] in *. rewrite Z.sub_0_r in *.
      assert (0 <= (computed_tokens r + n) / KVCacheManager.block_size (kv s))
        by (apply Z.div_pos; lia).
      rewrite Z2Nat.id by done. split; [done|].
      pose proof (Z.mul_div_le (computed_tokens r + n) _ Hbs). lia.
Qed.

(** The state after the last running request [p] has been preempted. *)
Definition preempted_state (s : t) (run : list string) (p : string) (r : Request.t)
    (m : KVCacheManager.t) (now : Q) : t :=
  with_waiting (p :: waiting s)
    (put p (logged s EV_PREEMPTED now (Request.with_computed 0 (Request.with_status PREEMPTED r)))
       (with_kv m (with_running run s))).

Lemma preempt_ok s q run p f now :
  inv s q (run ++ [p]) f -> f p = None ->
  exists r m, objs s !! p = Some r /\
    KVCacheManager.free r (kv s) = (Ok tt, m) /\ same_setup (kv s) m /\
    inv (preempted_state s run p r m now) q run f.
Proof.
  intros Hi Hf. destruct (inv_live _ _ _ _ _ _ p Hi) as (r & Hl & Hr & Hid & Htext & Hpl).
  { set_unfold. tauto. }
  destruct (iv_good _ _ _ _ _ _ Hi) as (l & Hg). rewrite <- Hid in Hl.
  destruct (free_good py_hash hash_none (kv s) (live s) l r Hg Hl) as
    (m & Hfree & Hg' & _ & _ & Hnc & Hoth & _).
  rewrite Hid in *. exists r, m. split_and!; [done|done|apply Hoth|].
  set (r' := Request.with_computed 0 (Request.with_status PREEMPTED r)).
  assert (Hev : evolves r (logged s EV_PREEMPTED now r')).
  { transitivity r'; [done|apply evolves_logged]. }
  assert (Hnt : Request.num_tokens (logged s EV_PREEMPTED now r') = Request.num_tokens r)
    by (unfold logged; by destruct (log_stats s)).
  pose proof (iv_nodup _ _ _ _ _ _ Hi) as Hnd. rewrite !app_assoc in Hnd.
  apply NoDup_app in Hnd as (_ & Hdis & _).
  apply (inv_change py_hash hash_none s q (run ++ [p]) f _ _ _ _ p
           (logged s EV_PREEMPTED now r') (l ++ freed (ref (KVCacheManager.block_pool (kv s)))
             (reverse (table (kv s) p)))); try done.
  - by apply live_lookup in Hl as [_ ?].
  - cbn. rewrite <- Hid at 1. rewrite Hid. by apply (good_evolve _ _ _ p r).
  - cbn. apply Permutation_app_head. rewrite app_assoc. apply Permutation_cons_append.
  - intros i Hne. set_unfold. tauto.
  - pose proof (iv_room _ _ _ _ _ _ Hi) as Hroom. rewrite length_app in Hroom. lia.
  - congruence.
  - apply (evolves_plain _ r); [done|rewrite Hnt; apply Hpl|done].
  - rewrite decide_False.
    + split; [|done]. split.
      * unfold logged. destruct (log_stats s); cbn; tauto.
      * unfold logged. by destruct (log_stats s).
      * rewrite (ev_id _ _ Hev), Hid. exact Hnc.
    + intros Hp. apply (Hdis p); set_unfold; tauto.
Qed.

Lemma preempt_run s run p r m now {A} (K : M t A) :
  objs s !! p = Some r -> KVCacheManager.free r (kv s) = (Ok tt, m) ->
  (modify (with_running run) ;;
   preempted_req ← obj p;
   on_kv (KVCacheManager.free preempted_req) ;;
   set_obj p (Request.with_status PREEMPTED) ;;
   set_obj p (Request.with_computed 0) ;;
   request_preempted p now ;;
   modify (fun s => with_waiting (p :: waiting s) s) ;; K) s =
  K (preempted_state s run p r m now).
Proof.
  intros Hr Hf. rewrite bind_run. cbn [modify].
  rewrite (bind_step _ _ _ r _ (object_run p r (with_running run s) Hr)).
  rewrite (bind_step _ _ _ tt (with_kv m (with_running run s)))
    by (unfold on_kv; cbn; by rewrite Hf).
  rewrite (bind_step _ _ _ _ _ (set_obj_run p r (with_kv m (with_running run s)) _ Hr)).
  rewrite (bind_step _ _ _ _ _ (set_obj_put _ _ _ _)).
  unfold request_preempted. rewrite (bind_step _ _ _ _ _ (log_event_put _ _ _ _ _)).
  rewrite bind_run. done.
Qed.

(** What a scheduling step leaves as it is. *)
Record kept (s s' : t) : Prop := Kept {
  kp_env : same_env s s';
  kp_setup : same_setup (kv s) (kv s');
  kp_requests : requests s' = requests s;
  kp_finished : finished_req_ids s' = finished_req_ids s;
  kp_data : cached_reqs_data s' = cached_reqs_data s;
}.

#[local] Instance kept_preorder : PreOrder kept.
Proof.
  split; [by repeat split|]. intros s1 s2 s3 [] []. split; try congruence; by etransitivity.
Qed.

(** A state with another manager of the same setup. *)
Lemma kept_kv s s' :
  same_setup (kv s) (kv s') -> kept (with_kv (kv s') s) s' -> kept s s'.
Proof. intros Hs [[] ? ? ? ?]. by split; [split|..]. Qed.

Lemma roomy_kept s s' : kept s s' -> roomy s -> roomy s'.
Proof.
  intros [He [] _ _ _]. unfold roomy. rewrite (se_len _ _ He). congruence.
Qed.

(** The preemption loop for [id], which stands in the running queue before
    [suf]: one round for each request of [suf], and one more, are enough. *)
Lemma preempt_loop_ok fuel id n now pre suf s q f acc r :
  inv s q (pre ++ id :: suf) f -> running s = pre ++ id :: suf ->
  (forall i, i ∈ id :: suf -> f i = None) -> live s !! id = Some r ->
  0 < n -> computed_tokens r + n <= Request.num_tokens r -> (length suf < fuel)%nat ->
  exists ob ids s', preempt_loop py_hash hash_none fuel id n now acc s = (Ok (ob, acc ++ ids), s') /\
    kept s s' /\ scheduled_req_ids s' = scheduled_req_ids s /\
    match ob with
    | None => running s' = pre /\ inv s' q pre f /\ ids <> []
    | Some _ => exists suf', running s' = pre ++ id :: suf' /\
        (length suf' + length ids = length suf)%nat /\
        inv s' q (pre ++ id :: suf') (add_flight f id n) /\ live s' !! id = Some r
    end /\ (roomy s -> pre = [] -> ob <> None).
Proof.
  revert suf s acc. induction fuel as [|fuel IH]; intros suf s acc Hi Hrun Hf Hr Hn Hown Hfuel; [lia|].
  cbn [preempt_loop]. pose proof Hr as [Hobj Hreq]%live_lookup.
  rewrite (bind_step _ _ _ _ _ (object_run id r s Hobj)).
  destruct (allocate_running s q _ f id r n Hi ltac:(set_unfold; tauto) Hr
              (Hf id ltac:(left)) Hn Hown) as (ob & m & Ha & Hi1 & Hss & Halone).
  rewrite (bind_step _ _ _ ob (with_kv m s)) by (unfold on_kv; by rewrite Ha).
  destruct ob as [bs|].
  { exists (Some bs), [], (with_kv m s). rewrite app_nil_r.
    split_and!; [done|by apply kept_kv|done| |done].
    exists suf. cbn [length]. split_and!; [done|lia|done|done]. }
  assert (Hkv : forall m' s', kv s' = m' -> same_setup m m' ->
    kept (with_kv m' s) s' -> kept s s').
  { intros m' s' <- Hss' Hk. apply kept_kv; [|done]. by transitivity m. }
  rewrite bind_run. cbn [gets]. change (running (with_kv m s)) with (running s). rewrite Hrun.
  destruct suf as [|p suf _] using rev_ind.
  - destruct (preempt_ok (with_kv m s) q pre id f now Hi1 (Hf id ltac:(left))) as
      (r' & m' & Hr' & Hfree & Hss' & Hi2).
    rewrite last_snoc, removelast_last.
    rewrite (preempt_run (with_kv m s) pre id r' m' now _ Hr' Hfree).
    rewrite bool_decide_true by done.
    eexists None, [id], _. split; [reflexivity|].
    split_and!; [by apply (Hkv m'); [| |repeat split]|done|done|done|done|].
    intros Hroom ->. by apply Halone.
  - rewrite app_comm_cons, app_assoc in Hi1 |- *.
    destruct (preempt_ok (with_kv m s) q _ p f now Hi1 (Hf p ltac:(set_unfold; tauto))) as
      (r' & m' & Hr' & Hfree & Hss' & Hi2).
    rewrite last_snoc, removelast_last.
    rewrite (preempt_run (with_kv m s) _ p r' m' now _ Hr' Hfree).
    assert (Hne : p <> id).
    { intros ->. pose proof (iv_nodup _ _ _ _ _ _ Hi1) as Hnd. rewrite !app_assoc in Hnd.
      apply NoDup_app in Hnd as (_ & Hdis & _). apply (Hdis id); set_unfold; tauto. }
    rewrite bool_decide_false by done. rewrite length_app in Hfuel. cbn in Hfuel.
    set (s2 := preempted_state _ _ _ _ _ _) in *.
    destruct (IH suf s2 (acc ++ [p])) as (ob & ids & s' & Hl & Hk & Hsc & Hres & Hal); try done.
    + intros i Hin. apply Hf. set_unfold. tauto.
    + apply live_lookup. split; [|done]. cbn. by rewrite lookup_insert_ne.
    + lia.
    + exists ob, (p :: ids), s'. rewrite Hl, <- app_assoc. split; [done|].
      assert (Hk2 : kept s s2) by (by apply (Hkv m'); [| |repeat split]).
      split; [by transitivity s2|]. split; [done|].
      split; [|intros Hroom; apply Hal; by apply (roomy_kept s)].
      destruct ob; [|by destruct Hres as (? & ? & ?)].
      destruct Hres as (suf' & H1 & H2 & H3 & H4). exists suf'. split_and!; try done.
      rewrite length_app. cbn. lia.
Qed.

(** ** The local variables *)

Definition flight (l : locals) (id : string) : option Z := scheduled l !! id.

Record tally (s : t) (l : locals) : Prop := Tally {
  ta_budget : token_budget l + total (scheduled l) = max_num_scheduled_tokens s;
  ta_left : 0 <= token_budget l;
  ta_wf : wf_dict (scheduled l);
  ta_blocks : forall i, is_Some (scheduled l !! i) -> is_Some (req_to_new_block_ids l !! i);
  ta_all : new_reqs l ++ resumed_reqs l ++ running_reqs l ≡ₚ keys (scheduled l);
  ta_spec : spec_tokens l = ∅;
  ta_encoder : encoder_inputs l = ∅;
}.

(** What holds between two rounds of the loops. *)
Record at_step (s : t) (l : locals) : Prop := AtStep {
  as_inv : inv s (waiting_for_fsm l) (running s) (flight l);
  as_sched : sched_ok s (flight l);
  as_tally : tally s l;
}.

Lemma total_insert d id n : d !! id = None -> total (<[id := n]> d) = total d + n.
Proof.
  destruct d as [l]. unfold total, values, insert, pydict_insert, lookup, pydict_lookup. cbn.
  induction l as [|[i m] l IH]; cbn; [lia|]. destruct (decide (i = id)); [done|].
  intros H. cbn. rewrite IH by done. lia.
Qed.

Lemma keys_fresh {V} (d : pydict string V) id v :
  d !! id = None -> keys (<[id := v]> d) = keys d ++ [id].
Proof.
  intros H. rewrite keys_insert, decide_False; [done|]. rewrite elem_of_keys, H. by intros [? ?].
Qed.

(** A request is scheduled, whichever list it goes to. *)
Lemma tally_charge s s' l l' r n bs :
  tally s l -> max_num_scheduled_tokens s' = max_num_scheduled_tokens s ->
  scheduled l !! Request.request_id r = None -> n <= token_budget l ->
  new_reqs l' ++ resumed_reqs l' ++ running_reqs l' ≡ₚ
    Request.request_id r :: new_reqs l ++ resumed_reqs l ++ running_reqs l ->
  scheduled l' = scheduled l -> req_to_new_block_ids l' = req_to_new_block_ids l ->
  token_budget l' = token_budget l -> spec_tokens l' = spec_tokens l ->
  encoder_inputs l' = encoder_inputs l ->
  tally s' (charge r n bs l').
Proof.
  intros [Hb Hl Hw Hbl Ha Hsp He] Hm Hid Hn Hall E1 E2 E3 E4 E5.
  split; cbn; rewrite ?E1, ?E2, ?E3, ?E4, ?E5; try done.
  - rewrite total_insert by done. lia.
  - lia.
  - by apply wf_insert.
  - intros i. rewrite !dict_lookup_insert. destruct (decide (_ = i)); eauto.
  - rewrite keys_fresh by done. rewrite Hall, Ha. apply Permutation_cons_append.
Qed.

Lemma charge_flight r n bs l l' id i :
  Request.request_id r = id -> scheduled l' = scheduled l ->
  flight (charge r n bs l') i = add_flight (flight l) id n i.
Proof.
  intros <- E. unfold flight, add_flight. cbn. rewrite E, dict_lookup_insert.
  destruct (decide (_ = i)) as [->|Hne]; [by rewrite decide_True|].
  by rewrite decide_False by congruence.
Qed.

Lemma sched_add s f f' id n :
  sched_ok s f -> (forall i, f' i = add_flight f id n i) ->
  sched_ok (with_scheduled ({[id]} ∪ scheduled_req_ids s) s) f'.
Proof.
  intros Hs Hf i. rewrite Hf. unfold add_flight. cbn.
  rewrite elem_of_union, elem_of_singleton, (Hs i).
  destruct (decide (i = id)) as [->|]; [split; eauto|].
  split; [intros [?|?]; done|by right].
Qed.

(** A state that differs only in what the invariant does not read. *)
Lemma inv_state s s' q run f :
  same_env s s' -> kv s' = kv s -> waiting s' = waiting s -> requests s' = requests s ->
  objs s' = objs s -> inv s q run f -> inv s' q run f.
Proof.
  intros He Hk Hw Hr Ho [H1 H2 H3 H4 H5 H6 H7 H8 H9 H10].
  assert (Hl : live s' = live s) by by apply live_same.
  split; rewrite ?Hk, ?Hw, ?Hr, ?Ho, ?Hl, ?(se_running _ _ He), ?(se_len _ _ He); try done.
  apply (config_same s); [done|by rewrite Hk|done].
Qed.

Lemma text_encoder_inputs r len c n budget s :
  plain len r -> try_schedule_encoder_inputs r c n budget s = Ok ([], n, budget).
Proof.
  intros Hp. unfold try_schedule_encoder_inputs, Request.has_encoder_inputs.
  by rewrite (pl_mm _ _ Hp).
Qed.

Lemma plain_with_spec len r :
  plain len r -> Request.num_tokens_with_spec r = Request.num_tokens r.
Proof.
  intros Hp. unfold Request.num_tokens_with_spec, Request.num_tokens.
  rewrite (pl_spec _ _ Hp). cbn. lia.
Qed.

(** ** The running loop *)

(** The requests after the scheduled one have not been scheduled. *)
Lemma later_unscheduled s s1 q q1 pre id suf suf' f n i :
  inv s q (pre ++ id :: suf) f -> inv s1 q1 (pre ++ id :: suf') (add_flight f id n) ->
  (forall j, j ∈ id :: suf -> f j = None) -> i ∈ suf' -> add_flight f id n i = None.
Proof.
  intros Hi Hi1 Hf Hin. pose proof (iv_nodup _ _ _ _ _ _ Hi1) as Hnd.
  rewrite (cons_middle id), !app_assoc in Hnd. apply NoDup_app in Hnd as (_ & Hdis & _).
  unfold add_flight. rewrite decide_False by (intros ->; apply (Hdis id); set_unfold; tauto).
  destruct (f i) as [m|] eqn:E; [|done]. exfalso.
  destruct (iv_flight _ _ _ _ _ _ Hi i m E) as [_ Hin'].
  apply elem_of_app in Hin' as [Hpre|Hin']; [|by rewrite (Hf i Hin') in E].
  apply (Hdis i); set_unfold; tauto.
Qed.

(** A running request that has been given [n] tokens. *)
Lemma schedule_running_ok s s1 l id r n bs ids pre suf' budget :
  at_step s l -> kept s s1 -> scheduled_req_ids s1 = scheduled_req_ids s ->
  running s1 = pre ++ id :: suf' ->
  inv s1 (waiting_for_fsm l) (pre ++ id :: suf') (add_flight (flight l) id n) ->
  live s1 !! id = Some r -> Request.request_id r = id -> plain (max_model_len s) r ->
  scheduled l !! id = None -> n <= token_budget l ->
  let l1 := charge r n bs (add_running id (preempt_ids ids l)) in
  let s2 := with_scheduled ({[id]} ∪ scheduled_req_ids s1) s1 in
  (l2 ← schedule_spec id n l1; l3 ← schedule_encoder id [] budget l2; mret (l3, true)) s2 =
    (Ok (l1, true), s2) /\
  at_step s2 l1 /\ kept s s2 /\ forall i, flight l1 i = add_flight (flight l) id n i.
Proof.
  intros [Hi Hs Ht] Hk Hsc Hrun1 Hi1 Hl1 Hid Hpl Hfresh Hn l1 s2.
  pose proof Hl1 as [Ho1 _]%live_lookup.
  assert (Hfl : forall i, flight l1 i = add_flight (flight l) id n i)
    by (intros i; by apply charge_flight).
  split_and!; [|split| |done].
  - unfold schedule_spec. rewrite bind_run.
    rewrite (bind_step _ _ _ _ _ (object_run id r s2 Ho1)), (pl_spec _ _ Hpl). reflexivity.
  - change (running s2) with (running s1). rewrite Hrun1.
    apply (inv_flight_ext _ _ _ (add_flight (flight l) id n)); [done|]. by apply (inv_state s1).
  - apply (sched_add s1 (flight l) _ id n); [|done]. intros i. rewrite Hsc. apply Hs.
  - apply (tally_charge s _ l); try done; [apply Hk|by rewrite Hid|].
    cbn. rewrite Hid, !app_assoc. symmetry. apply Permutation_cons_append.
  - transitivity s1; [done|by repeat split].
Qed.

Lemma running_body_ok s l id now pre suf :
  at_step s l -> running s = pre ++ id :: suf -> req_index l = Z.of_nat (length pre) ->
  (forall i, i ∈ id :: suf -> scheduled l !! i = None) -> 0 < token_budget l ->
  exists l' b s', running_body py_hash hash_none id now l s = (Ok (l', b), s') /\
    at_step s' l' /\ kept s s' /\
    waiting_for_fsm l' = waiting_for_fsm l /\
    (new_reqs l', resumed_reqs l') = (new_reqs l, resumed_reqs l) /\
    if b : bool
    then exists suf', running s' = (pre ++ [id]) ++ suf' /\ (length suf' <= length suf)%nat /\
           (forall i, i ∈ suf' -> scheduled l' !! i = None) /\
           req_index l' = Z.of_nat (length (pre ++ [id])) /\
           token_budget l' < token_budget l
    else preempted_reqs l' <> [] /\ token_budget l' = token_budget l /\
           (roomy s -> pre <> []).
Proof.
  intros Has Hrun Hix Hf Hbud. pose proof Has as [Hi Hs Ht].
  unfold running_body. rewrite bind_run. cbn [gets].
  rewrite bool_decide_false
    by (rewrite (Hs id); unfold flight; rewrite (Hf id ltac:(left)); by intros [? ?]).
  destruct (inv_live _ _ _ _ _ _ id Hi) as (r & Hl & Hr & Hid & Htext & Hpl).
  { rewrite Hrun. set_unfold. tauto. }
  rewrite (bind_step _ _ _ _ _ (object_run id r s Hr)).
  rewrite (plain_with_spec _ _ Hpl). set (n := Z.min _ _).
  pose proof (iv_running _ _ _ _ _ _ Hi id r ltac:(rewrite Hrun; set_unfold; tauto) Hl)
    as [_ H0 _ Hmore _].
  unfold in_flight, flight in Hmore. rewrite (Hf id ltac:(left)) in Hmore. cbn in Hmore.
  specialize (Hmore eq_refl). assert (Hn : 0 < n) by (unfold n; lia).
  rewrite bind_run, (proj2 (Z.ltb_lt 0 n)) by done. cbn [assert_ mret M_ret].
  rewrite bind_run. cbn [get]. rewrite bind_run. cbn [lift].
  rewrite (text_encoder_inputs r _ _ _ _ _ Hpl). rewrite (proj2 (Z.eqb_neq n 0)) by lia.
  rewrite Hrun in Hi.
  destruct (preempt_loop_ok (S (length (running s))) id n now pre suf s (waiting_for_fsm l)
    (flight l) [] r Hi Hrun Hf Hl Hn ltac:(unfold n; lia)) as
    (ob & ids & s1 & Hloop & Hk & Hsc & Hres & Hal).
  { rewrite Hrun, length_app. cbn. lia. }
  rewrite (bind_step _ _ _ _ _ Hloop). cbn [app]. destruct ob as [bs|].
  - destruct Hres as (suf' & Hrun1 & Hlen & Hi1 & Hl1). rewrite bind_run. cbn [modify].
    destruct (schedule_running_ok s s1 l id r n bs ids pre suf' (encoder_budget l) Has Hk Hsc
      Hrun1 Hi1 Hl1 Hid Hpl (Hf id ltac:(left)) ltac:(unfold n; lia)) as (Hend & Has2 & Hk2 & Hfl).
    eexists _, true, _. split; [exact Hend|]. split_and!; [done|done|done|done|].
    exists suf'. split_and!.
    + cbn. by rewrite Hrun1, <- app_assoc.
    + lia.
    + intros i Hin. etransitivity; [apply Hfl|]. by eapply later_unscheduled.
    + cbn. rewrite Hix, length_app. cbn. lia.
    + cbn. lia.
  - destruct Hres as (Hrun1 & Hi1 & Hne). exists (preempt_ids ids l), false, s1.
    split; [done|]. split_and!; [split|done|done|done|..].
    + by rewrite Hrun1.
    + intros i. rewrite Hsc. apply Hs.
    + destruct Ht. split; try done. by rewrite (se_budget _ _ (kp_env _ _ Hk)).
    + cbn. by destruct (preempted_reqs l).
    + done.
    + intros Hroom Hpre. by destruct (Hal Hroom Hpre).
Qed.

Lemma running_loop_ok fuel s l now pre suf :
  at_step s l -> running s = pre ++ suf -> req_index l = Z.of_nat (length pre) ->
  (forall i, i ∈ suf -> scheduled l !! i = None) -> (length suf <= fuel)%nat ->
  exists l' s', running_loop py_hash hash_none fuel now l s = (Ok l', s') /\
    at_step s' l' /\ kept s s' /\ waiting_for_fsm l' = waiting_for_fsm l /\
    (new_reqs l', resumed_reqs l') = (new_reqs l, resumed_reqs l) /\
    token_budget l' <= token_budget l /\
    (roomy s -> pre = [] -> suf <> [] -> 0 < token_budget l -> token_budget l' < token_budget l).
Proof.
  revert s l pre suf. induction fuel as [|fuel IH]; intros s l pre suf Has Hrun Hix Hf Hfuel;
    cbn [running_loop]; rewrite bind_run; cbn [gets]; rewrite Hrun, Hix, Nat2Z.id;
    rewrite lookup_app_r, Nat.sub_diag by done; destruct suf as [|id suf]; cbn [lookup list_lookup];
    try (exists l, s; split_and!; (done || lia)); [cbn in Hfuel; lia|].
  destruct (Z.ltb_spec 0 (token_budget l)) as [Hb|Hb];
    [|exists l, s; split_and!; (done || (intros; lia))].
  destruct (running_body_ok s l id now pre suf Has Hrun Hix Hf Hb) as
    (l1 & b & s1 & Hbody & Has1 & Hk1 & Hq1 & Hnr1 & Hres).
  rewrite (bind_step _ _ _ _ _ Hbody). cbn [fst snd]. destruct b.
  2:{ destruct Hres as (_ & Hb1 & Hpre). exists l1, s1. split_and!; try done; [lia|].
      intros Hroom E. by destruct (Hpre Hroom). }
  destruct Hres as (suf' & Hrun1 & Hlen & Hf1 & Hix1 & Hb1). cbn in Hfuel.
  destruct (IH s1 l1 (pre ++ [id]) suf' Has1 Hrun1 Hix1 Hf1 ltac:(lia)) as
    (l2 & s2 & Hl & Has2 & Hk2 & Hq2 & Hnr2 & Hb2 & _).
  exists l2, s2. split_and!; [done|done|by transitivity s1|congruence|congruence|lia|].
  intros _ _ _ _. lia.
Qed.

(** ** The waiting loop *)

(** The requests that do not run are arranged differently. *)
Lemma inv_queue s s' q q' run f :
  same_env s s' -> kv s' = kv s -> requests s' = requests s -> objs s' = objs s ->
  q' ++ waiting s' ≡ₚ q ++ waiting s -> inv s q run f -> inv s' q' run f.
Proof.
  intros He Hk Hr Ho Hp [H1 H2 H3 H4 H5 H6 H7 H8 H9 H10].
  assert (Hl : live s' = live s) by by apply live_same.
  assert (Hall : q' ++ waiting s' ++ run ≡ₚ q ++ waiting s ++ run)
    by (rewrite !app_assoc; by rewrite Hp).
  split; rewrite ?Hk, ?Hr, ?Ho, ?Hl, ?(se_running _ _ He), ?(se_len _ _ He); try done.
  - apply (config_same s); [done|by rewrite Hk|done].
  - by rewrite Hall.
  - intros id. by rewrite Hall.
  - intros id r. rewrite Hp. apply H9.
Qed.

(** A waiting request changes, and stays where it is. *)
Lemma inv_waiting s q run f s' id r r' l' :
  inv s q run f -> id ∈ q ++ waiting s -> live s !! id = Some r ->
  good (kv s', <[id := r']> (live s)) l' -> others id (kv s) (kv s') ->
  same_env s s' -> requests s' = requests s -> objs s' = <[id := r']> (objs s) ->
  waiting s' = waiting s -> plain (max_model_len s) r' -> waiting_ok (kv s') r' ->
  inv s' q run f.
Proof.
  intros Hi Hin Hl Hg Ho He Hr Hob Hw Hpl Hok.
  assert (Hnot : id ∉ run).
  { intros Hrun. pose proof (iv_nodup _ _ _ _ _ _ Hi) as Hnd. rewrite app_assoc in Hnd.
    apply NoDup_app in Hnd as (_ & Hdis & _). by destruct (Hdis id Hin). }
  assert (Hfid : f id = None).
  { destruct (f id) as [n|] eqn:E; [|done]. by destruct (iv_flight _ _ _ _ _ _ Hi id n E). }
  apply (inv_change py_hash hash_none s q run f s' q run f id r' l'); try done.
  - by apply live_lookup in Hl as [_ ?].
  - by rewrite Hw.
  - apply Hi.
  - congruence.
  - by rewrite decide_False.
Qed.

Lemma insert_live s id r : live s !! id = Some r ->
  <[id := r]> (live s) = live s /\ <[id := r]> (objs s) = objs s.
Proof. intros H. split; apply insert_id; [done|]. by apply live_lookup in H as [? _]. Qed.

(** The waiting loop can schedule the request: it does not wait for a grammar,
    or the grammar is there. *)
Definition ready (r : Request.t) : bool :=
  negb (bool_decide (Request.status r = WAITING_FOR_FSM)) ||
  (Request.use_structured_output r && Request.grammar_ready r).

Lemma fsm_ready_ok s l id :
  at_step s l -> id ∈ waiting s ->
  exists b s', fsm_ready id s = (Ok b, s') /\ at_step s' l /\ kept s s' /\
    waiting s' = waiting s /\ running s' = running s /\
    if b : bool then exists r, live s' !! id = Some r /\
      (Request.status r = WAITING \/ Request.status r = PREEMPTED)
    else s' = s /\ forall r, live s !! id = Some r -> ready r = false.
Proof.
  intros Has Hid. pose proof Has as [Hi Hs Ht].
  destruct (inv_live _ _ _ _ _ _ id Hi) as (r & Hl & Hr & Hrid & Htext & Hpl);
    [set_unfold; tauto|].
  pose proof (iv_waiting _ _ _ _ _ _ Hi id r ltac:(set_unfold; tauto) Hl) as [Hst H0 Hnc].
  unfold fsm_ready. rewrite (bind_step _ _ _ _ _ (object_run id r s Hr)).
  case_bool_decide as Hfsm.
  2:{ exists true, s. split_and!; try done. exists r. tauto. }
  destruct (Request.use_structured_output r && Request.grammar_ready r) eqn:Hgr.
  2:{ exists false, s. split_and!; try done. intros r0. rewrite Hl. intros [= <-].
      unfold ready. by rewrite bool_decide_true, Hgr. }
  rewrite (bind_step _ _ _ _ _ (set_obj_run id r s _ Hr)).
  set (r' := Request.with_status WAITING r). exists true, (put id r' s).
  destruct (iv_good _ _ _ _ _ _ Hi) as (lf & Hg).
  split; [done|]. split_and!; try done.
  - split; [|done|by destruct Ht].
    apply (inv_waiting s _ _ _ _ id r r' lf); try done.
    + set_unfold; tauto.
    + by apply (good_evolve _ _ _ id r).
    + by apply (evolves_plain _ r); [|apply Hpl|].
    + split; [by left|done|done].
  - exists r'. split; [|by left]. rewrite live_put; [apply lookup_insert_eq|].
    by apply live_lookup in Hl as [_ ?].
Qed.

(** At least one token of the request remains to be computed. *)
Lemma tokens_to_compute_ok r cb bs :
  0 < bs -> 0 < Request.num_tokens r -> Z.of_nat (length cb) * bs <= Request.num_tokens r ->
  exists j n, tokens_to_compute r cb (Z.of_nat (length cb) * bs) bs =
      Ok (take j cb, Z.of_nat (length (take j cb)) * bs, n) /\
    0 < n /\ Z.of_nat (length (take j cb)) * bs + n <= Request.num_tokens r.
Proof.
  intros Hbs Hpos Hle. unfold tokens_to_compute.
  destruct (Z.eqb_spec (Request.num_tokens r - Z.of_nat (length cb) * bs) 0) as [H0|H0].
  - destruct cb as [|b cb _] using rev_ind; [cbn in H0; lia|]. exists (length cb), bs.
    rewrite take_app_length, removelast_last, length_app in *. cbn in *.
    replace (Z.of_nat (length cb + 1) * bs - bs) with (Z.of_nat (length cb) * bs) by lia.
    split_and!; [|done|lia]. by destruct cb.
  - exists (length cb). eexists. rewrite firstn_all. split_and!; [done|lia|lia].
Qed.

Lemma log_event_run id r s ty now :
  objs s !! id = Some r -> log_event id ty now s = (Ok tt, put id (logged s ty now r) s).
Proof.
  intros H. rewrite <- (put_id id r s H) at 1. apply log_event_put.
Qed.

(** [start_running] for the request at the head of the waiting queue. *)
Definition started (s : t) (id : string) (r : Request.t) (rest : list string) (c : Z) (now : Q) : t :=
  put id (Request.with_computed c (Request.with_status RUNNING (logged s SCHEDULED now r)))
    (with_scheduled ({[id]} ∪ scheduled_req_ids s)
       (with_running (running s ++ [id]) (with_waiting rest s))).

Lemma start_running_run s id r rest blocks c n eb now l :
  waiting s = id :: rest -> objs s !! id = Some r -> Request.request_id r = id ->
  max_loras s = None -> Request.status r = WAITING \/ Request.status r = PREEMPTED ->
  exists l1, add_scheduled r l = Ok l1 /\
    start_running id blocks c n [] eb now l s =
      (Ok (charge (logged s SCHEDULED now r) n blocks l1), started s id r rest c now).
Proof.
  intros Hw Hr Hid Hlo Hst.
  assert (Hadd : exists l1, add_scheduled r l = Ok l1)
    by (unfold add_scheduled; destruct Hst as [-> | ->]; eauto).
  destruct Hadd as [l1 Hl1]. exists l1. split; [done|]. unfold start_running.
  rewrite bind_run; cbn [modify]. rewrite Hw. cbn [tail].
  rewrite bind_run; cbn [modify]. rewrite bind_run; cbn [modify].
  cbn [running with_waiting]. set (s3 := with_scheduled _ _).
  unfold request_scheduled. rewrite (bind_step _ _ _ _ _ (log_event_run id r s3 _ _ Hr)).
  change (logged s3 SCHEDULED now r) with (logged s SCHEDULED now r).
  set (r1 := logged s SCHEDULED now r).
  rewrite (bind_step _ _ _ _ _ (obj_put id r1 s3)).
  assert (Hl1' : add_scheduled r1 l = Ok l1).
  { unfold r1, logged. by destruct (log_stats s). }
  rewrite bind_run. rewrite Hl1'. cbn [lift]. rewrite bind_run. cbn [get].
  assert (Hn : forall l, note_lora r1 (put id r1 s3) l = l).
  { intros l0. unfold note_lora. change (max_loras (put id r1 s3)) with (max_loras s).
    by rewrite Hlo. }
  rewrite Hn. rewrite (bind_step _ _ _ _ _ (set_obj_put _ _ _ _)).
  rewrite (bind_step _ _ _ _ _ (set_obj_put _ _ _ _)). reflexivity.
Qed.

Lemma add_scheduled_lists r l l1 :
  add_scheduled r l = Ok l1 ->
  new_reqs l1 ++ resumed_reqs l1 ++ running_reqs l1 ≡ₚ
    Request.request_id r :: new_reqs l ++ resumed_reqs l ++ running_reqs l /\
  scheduled l1 = scheduled l /\ req_to_new_block_ids l1 = req_to_new_block_ids l /\
  token_budget l1 = token_budget l /\ spec_tokens l1 = spec_tokens l /\
  encoder_inputs l1 = encoder_inputs l /\ waiting_for_fsm l1 = waiting_for_fsm l /\
  preempted_reqs l1 = preempted_reqs l.
Proof.
  unfold add_scheduled. destruct (Request.status r); try done; intros [= <-]; cbn; split; try done.
  - rewrite <- app_assoc. symmetry. apply Permutation_middle.
  - rewrite <- app_assoc. cbn. rewrite (app_assoc (new_reqs l)), <- Permutation_middle.
    by rewrite <- app_assoc.
Qed.

(** The lookup of a waiting request's prefix. *)
Lemma lookup_waiting s q run f id r :
  inv s q run f -> id ∈ q ++ waiting s -> live s !! id = Some r ->
  let bs := KVCacheManager.block_size (kv s) in
  exists cb m, KVCacheManager.get_computed_blocks py_hash hash_none r (kv s) =
      (Ok (cb, Z.of_nat (length cb) * bs), m) /\
    same_setup (kv s) m /\ inv (with_kv m s) q run f /\ computed py_hash hash_none m r cb /\
    0 < bs /\ Z.of_nat (length cb) * bs <= Request.num_tokens r.
Proof.
  intros Hi Hin Hl bs. destruct (iv_good _ _ _ _ _ _ Hi) as (lf & Hg).
  destruct (gd_live _ _ _ _ Hg id r Hl) as (Hrid & _ & _). cbn in Hrid.
  pose proof (iv_waiting _ _ _ _ _ _ Hi id r Hin Hl) as [Hst Hc0 Hnc].
  pose proof Hl as Hl'. rewrite <- Hrid in Hl'.
  destruct (schedule_new_good py_hash hash_none (kv s) (live s) lf r Hg Hl' Hnc) as
    (cb & m1 & Hget & Hg1 & Hcp & _ & _ & Hnc1 & Ho1).
  rewrite Hrid in Ho1. pose proof (ot_setup _ _ _ Ho1) as Hss.
  pose proof (wf_size _ _ (gd_wf _ _ _ _ Hg)) as Hbs. cbn in Hbs. fold bs in Hbs.
  pose proof (iv_plain _ _ _ _ _ _ Hi id r Hl) as Hpl.
  exists cb, m1. split_and!; [done|done| |done|done|].
  - destruct (insert_live s id r Hl) as [Hsame Hsameo].
    apply (inv_waiting s _ _ _ (with_kv m1 s) id r r lf); try done.
    + by rewrite Hsame.
    + split; [done|done|]. cbn. by rewrite Hnc1.
  - destruct (gd_live _ _ _ _ Hg1 id r Hl) as (_ & _ & Htr).
    pose proof (tracks_len _ _ _ _ Htr) as [_ Hle]. cbn in Hle.
    rewrite (ss_size _ _ Hss) in Hle. fold bs in Hle.
    pose proof (cp_known _ _ _ _ _ Hcp) as Hk. unfold BlockHashing.num_full in Hle.
    pose proof (Z.div_pos (Request.num_tokens r) bs). pose proof (pl_some _ _ Hpl).
    pose proof (Z.mul_div_le (Request.num_tokens r) bs Hbs). nia.
Qed.

(** The size of what [allocate_slots] is asked for. *)
Lemma waiting_total m r cb n :
  computed_tokens r = 0 ->
  total_tokens m r n (Some cb) = Z.of_nat (length cb) * KVCacheManager.block_size m + n.
Proof. intros Hc. unfold total_tokens. cbn [default from_option]. rewrite Hc. done. Qed.

Lemma waiting_fits s q run f id r cb n :
  inv s q run f -> id ∈ q ++ waiting s -> live s !! id = Some r -> Request.request_id r = id ->
  0 < n -> Z.of_nat (length cb) * KVCacheManager.block_size (kv s) + n <= Request.num_tokens r ->
  fits (kv s) r n (Some cb) (length cb).
Proof.
  intros Hi Hin Hl Hrid Hn Hown. pose proof (iv_plain _ _ _ _ _ _ Hi id r Hl) as Hpl.
  pose proof (iv_waiting _ _ _ _ _ _ Hi id r Hin Hl) as [_ Hc0 Hnc].
  pose proof (pl_len _ _ Hpl) as Hlen.
  rewrite <- (cf_len _ (iv_config _ _ _ _ _ _ Hi)) in Hlen.
  split; rewrite ?(waiting_total _ _ _ _ Hc0), ?(pl_spec _ _ Hpl); cbn [length Z.of_nat];
    [done| |lia|lia|lia].
  by rewrite Hnc.
Qed.

(** When nothing runs, a request that is refused would not fit an empty cache. *)
Lemma refused_not_alone s q f lf r cb n :
  inv s q [] f -> wf (kv s) lf -> computed_tokens r = 0 ->
  Z.of_nat (length cb) * KVCacheManager.block_size (kv s) + n <= max_model_len s ->
  Z.of_nat (length lf) - evictable (kv s) cb < new_needed (kv s) r n (Some cb) -> ~ roomy s.
Proof.
  intros Hi Hw Hc0 Hown Href Hroomy.
  assert (Htab : forall i, table (kv s) i = []).
  { intros i. apply (idle_table s q [] f i Hi). apply not_elem_of_nil. }
  pose proof (free_count (kv s) lf (Request.request_id r) Hw (fun i _ => Htab i)) as Hfree.
  pose proof (cdiv_mono _ _ _ (wf_size _ _ Hw) Hown) as Hcd.
  pose proof (length_filter (fun b => ref (KVCacheManager.block_pool (kv s)) b = 0) cb) as Hev.
  unfold new_needed, evictable, roomy in *. rewrite (waiting_total _ _ _ _ Hc0) in Href.
  change (default [] (Some cb)) with cb in Href. rewrite !Htab in *. cbn [length] in *. lia.
Qed.

(** [allocate_slots] for a waiting request with the computed blocks [cb]. *)
Lemma allocate_waiting s q run f id r cb n :
  inv s q run f -> id ∈ q ++ waiting s -> live s !! id = Some r ->
  computed py_hash hash_none (kv s) r cb -> 0 < n ->
  let bs := KVCacheManager.block_size (kv s) in
  Z.of_nat (length cb) * bs + n <= Request.num_tokens r ->
  exists ob m, allocate_slots r n (Some cb) (kv s) = (Ok ob, m) /\ same_setup (kv s) m /\
    match ob with
    | None => inv (with_kv m s) q run f /\ (roomy s -> run <> [])
    | Some _ => (exists l, good (m, live s) l) /\ others id (kv s) m /\
        exists k, KVCacheManager.num_cached_block m !! id = Some (Z.of_nat k) /\
          Z.of_nat k * bs <= Z.of_nat (length cb) * bs + n
    end.
Proof.
  intros Hi Hin Hl Hcp Hn bs Hown. destruct (iv_good _ _ _ _ _ _ Hi) as (lf & Hg).
  destruct (gd_live _ _ _ _ Hg id r Hl) as (Hrid & _ & _). cbn in Hrid.
  pose proof (iv_waiting _ _ _ _ _ _ Hi id r Hin Hl) as [Hst Hc0 Hnc].
  pose proof (iv_plain _ _ _ _ _ _ Hi id r Hl) as Hpl.
  pose proof (gd_wf _ _ _ _ Hg) as Hw. cbn in Hw. pose proof (wf_size _ _ Hw) as Hbs.
  pose proof Hl as Hl'. rewrite <- Hrid in Hl'.
  pose proof (allocate_good py_hash hash_none (kv s) (live s) lf r n (Some cb) (length cb)
    Hg Hl' (waiting_fits s q run f id r cb n Hi Hin Hl Hrid Hn Hown) Hcp) as H.
  rewrite Hnc, Hrid in H. specialize (H ltac:(by intros [? [=]])). case_decide as Href.
  - destruct H as (m & Ha & Hg2 & Ho & _ & Hnc2). exists None, m.
    split_and!; [done|apply Ho| |].
    + destruct (insert_live s id r Hl) as [Hsame Hsameo].
      apply (inv_waiting s _ _ _ (with_kv m s) id r r lf); try done; [by rewrite Hsame|].
      split; [done|done|]. cbn. by rewrite Hnc2.
    + intros Hroomy ->. pose proof (pl_len _ _ Hpl).
      apply (refused_not_alone s q f lf r cb n Hi Hw Hc0); [fold bs; lia|exact Href|done].
  - destruct H as (new & l' & m & Ha & Hg2 & _ & _ & _ & Hnc2 & Ho). exists (Some new), m.
    split_and!; [done|apply Ho|by exists l'|done|].
    exists (Z.to_nat (num_full_after (kv s) r n (Some cb))). rewrite Hnc2.
    unfold num_full_after. rewrite (waiting_total _ _ _ _ Hc0), (pl_spec _ _ Hpl).
    cbn [length]. rewrite Z.sub_0_r. fold bs in Hbs |- *.
    assert (0 <= (Z.of_nat (length cb) * bs + n) / bs) by (apply Z.div_pos; lia).
    rewrite Z2Nat.id by done. split; [done|].
    pose proof (Z.mul_div_le (Z.of_nat (length cb) * bs + n) _ Hbs). lia.
Qed.

(** The head of the waiting queue starts to run, with [m] the manager that has
    allocated for it. *)
Lemma started_inv s q f m id r rest c n now k :
  inv s q (running s) f -> waiting s = id :: rest -> live s !! id = Some r ->
  (exists l, good (m, live s) l) -> others id (kv s) m ->
  KVCacheManager.num_cached_block m !! id = Some (Z.of_nat k) ->
  Z.of_nat k * KVCacheManager.block_size (kv s) <= c + n ->
  0 <= c -> 0 < n -> c + n <= Request.num_tokens r ->
  Z.of_nat (length (running s)) <> max_num_running_reqs s ->
  inv (started (with_kv m s) id r rest c now) q (running s ++ [id]) (add_flight f id n).
Proof.
  intros Hi Hw Hl [l' Hg] Ho Hk Hkb Hc Hn Hown Hroom.
  pose proof Hl as [Hr Hreq]%live_lookup.
  destruct (iv_good _ _ _ _ _ _ Hi) as (lf & Hg0).
  destruct (gd_live _ _ _ _ Hg0 id r Hl) as (Hrid & _ & _). cbn in Hrid.
  set (r1 := logged (with_kv m s) SCHEDULED now r).
  set (r3 := Request.with_computed c (Request.with_status RUNNING r1)).
  assert (Hev : evolves r r3) by (transitivity r1; [apply evolves_logged|done]).
  assert (Hnt : Request.num_tokens r3 = Request.num_tokens r)
    by (unfold r3, r1, logged; by destruct (log_stats _)).
  pose proof (iv_plain _ _ _ _ _ _ Hi id r Hl) as Hpl.
  apply (inv_change py_hash hash_none s q (running s) f _ _ _ _ id r3 l'); try done.
  - by apply (good_evolve _ _ _ id r).
  - cbn. rewrite Hw. cbn. apply Permutation_app_head. rewrite app_assoc. symmetry.
    apply Permutation_cons_append.
  - intros i Hne. cbn. set_unfold. tauto.
  - pose proof (iv_room _ _ _ _ _ _ Hi). rewrite length_app. cbn. lia.
  - intros i Hne. unfold add_flight. by rewrite decide_False.
  - intros n'. unfold add_flight. rewrite decide_True by done. by intros [= <-].
  - apply (evolves_plain _ r); [done|rewrite Hnt; apply Hpl|done].
  - rewrite decide_True by (cbn; set_unfold; tauto).
    unfold in_flight, add_flight. rewrite decide_True by done. cbn [default from_option].
    unfold Datatypes.id. split; [done|exact Hc|rewrite Hnt; exact Hown|lia|].
    exists k. rewrite (ev_id _ _ Hev), Hrid. split; [exact Hk|].
    cbn. by rewrite (ss_size _ _ (ot_setup _ _ _ Ho)).
Qed.

Lemma at_step_fresh s l id : at_step s l -> id ∈ waiting s -> scheduled l !! id = None.
Proof.
  intros [Hi _ _] Hin. destruct (scheduled l !! id) as [x|] eqn:E; [|done].
  destruct (iv_flight _ _ _ _ _ _ Hi id x E) as [_ Hrin].
  pose proof (iv_nodup _ _ _ _ _ _ Hi) as Hnd. rewrite app_assoc in Hnd.
  apply NoDup_app in Hnd as (_ & Hdis & _). destruct (Hdis id); set_unfold; tauto.
Qed.

(** [start_running] after a successful allocation. *)
Lemma start_running_ok s l m id r rest blocks c n eb now k :
  at_step s l -> waiting s = id :: rest -> live s !! id = Some r ->
  Request.status r = WAITING \/ Request.status r = PREEMPTED ->
  (exists l, good (m, live s) l) -> others id (kv s) m ->
  KVCacheManager.num_cached_block m !! id = Some (Z.of_nat k) ->
  Z.of_nat k * KVCacheManager.block_size (kv s) <= c + n ->
  0 <= c -> 0 < n <= token_budget l -> c + n <= Request.num_tokens r ->
  Z.of_nat (length (running s)) <> max_num_running_reqs s ->
  exists l' s', start_running id blocks c n [] eb now l (with_kv m s) = (Ok l', s') /\
    at_step s' l' /\ kept s s' /\ waiting s' = rest /\
    token_budget l' < token_budget l /\ preempted_reqs l' = preempted_reqs l /\
    waiting_for_fsm l' = waiting_for_fsm l.
Proof.
  intros Has Hw Hl Hst Hg Ho Hk Hkb Hc [Hn Hnb] Hown Hroom. pose proof Has as [Hi Hs Ht].
  pose proof Hl as [Hr _]%live_lookup. set (s2 := with_kv m s).
  assert (Hrid : Request.request_id r = id).
  { destruct (iv_good _ _ _ _ _ _ Hi) as (lf & Hg0). apply (gd_live _ _ _ _ Hg0 id r Hl). }
  destruct (start_running_run s2 id r rest blocks c n eb now l Hw Hr Hrid
    (cf_loras _ (iv_config _ _ _ _ _ _ Hi)) Hst) as (l1 & Hadd & Hrun).
  set (r1 := logged s2 SCHEDULED now r) in *.
  assert (Hid1 : Request.request_id r1 = id)
    by (etransitivity; [apply (ev_id _ _ (evolves_logged s2 SCHEDULED now r))|exact Hrid]).
  destruct (add_scheduled_lists _ _ _ Hadd) as (Hlists & E1 & E2 & E3 & E4 & E5 & E6 & E7).
  assert (Hfresh : scheduled l !! id = None)
    by (apply (at_step_fresh s); [done|rewrite Hw; left]).
  set (l2 := charge r1 n blocks l1) in *.
  assert (Hfl : forall i, flight l2 i = add_flight (flight l) id n i).
  { intros i. etransitivity; [by apply (charge_flight r1 n blocks l l1 id i)|done]. }
  exists l2. eexists. split; [exact Hrun|].
  split_and!; [split| |done|cbn; rewrite E3; lia|exact E7|exact E6].
  - apply (inv_flight_ext _ _ _ (add_flight (flight l) id n)); [done|].
    change (waiting_for_fsm l2) with (waiting_for_fsm l1). rewrite E6.
    by apply (started_inv s _ _ m id r rest c n now k).
  - apply (sched_add s2 (flight l) _ id n); done.
  - apply (tally_charge s _ l); try done; [by rewrite Hid1|by rewrite Hid1, <- Hrid].
  - apply kept_kv; [apply Ho|by repeat split].
Qed.

Lemma waiting_body_ok s l id rest r now :
  at_step s l -> waiting s = id :: rest -> live s !! id = Some r ->
  Request.status r = WAITING \/ Request.status r = PREEMPTED ->
  0 < token_budget l -> Z.of_nat (length (running s)) <> max_num_running_reqs s ->
  exists ol s', waiting_body py_hash hash_none id now l s = (Ok ol, s') /\ kept s s' /\
    match ol with
    | None => at_step s' l /\ (roomy s -> running s <> [])
    | Some l' => token_budget l' < token_budget l /\ at_step s' l' /\ waiting s' = rest /\
        preempted_reqs l' = preempted_reqs l /\ waiting_for_fsm l' = waiting_for_fsm l
    end.
Proof.
  intros Has Hw Hl Hst Hbud Hroom. pose proof Has as [Hi Hs Ht].
  pose proof Hl as [Hr Hreq]%live_lookup.
  assert (Hin : id ∈ waiting_for_fsm l ++ waiting s)
    by (apply elem_of_app; right; rewrite Hw; left).
  pose proof (iv_plain _ _ _ _ _ _ Hi id r Hl) as Hpl.
  unfold waiting_body. rewrite (bind_step _ _ _ _ _ (object_run id r s Hr)).
  rewrite bind_run. cbn [get]. unfold lora_blocked.
  rewrite (cf_loras _ (iv_config _ _ _ _ _ _ Hi)).
  destruct (lookup_waiting s _ _ _ id r Hi Hin Hl) as (cb & m1 & Hget & Hss1 & Hi1 & Hcp & Hbs & Hcb).
  set (bs := KVCacheManager.block_size (kv s)) in *. set (s1 := with_kv m1 s) in *.
  rewrite (bind_step _ _ _ (cb, Z.of_nat (length cb) * bs) s1) by (unfold on_kv; by rewrite Hget).
  cbn [fst snd].
  destruct (tokens_to_compute_ok r cb bs Hbs (pl_some _ _ Hpl) Hcb) as (j & n0 & Htc & Hn0 & Hle).
  rewrite bind_run. rewrite Htc. cbn [lift]. cbn [fst snd].
  set (cb' := take j cb) in *. set (n := Z.min n0 (token_budget l)).
  rewrite bind_run, (proj2 (Z.ltb_lt 0 n)) by (unfold n; lia). cbn [assert_ mret M_ret].
  rewrite bind_run. rewrite (text_encoder_inputs r _ _ _ _ _ Hpl). cbn [lift].
  rewrite (proj2 (Z.eqb_neq n 0)) by (unfold n; lia).
  assert (Hbs1 : KVCacheManager.block_size (kv s1) = bs) by apply Hss1.
  destruct (allocate_waiting s1 _ _ _ id r cb' n Hi1 Hin Hl (computed_take _ _ _ _ _ _ Hcp)
    ltac:(unfold n; lia) ltac:(rewrite Hbs1; unfold n; lia)) as (ob & m2 & Ha & Hss2 & Hres).
  rewrite Hbs1 in Hres. change (kv s1) with m1 in Ha.
  rewrite (bind_step _ _ _ ob (with_kv m2 s)) by (unfold on_kv; cbn; by rewrite Ha).
  assert (Hk1 : kept s s1) by (apply kept_kv; [done|by repeat split]).
  destruct ob as [new|].
  - destruct Hres as (Hg2 & Ho2 & k & Hk & Hkb).
    assert (Has1 : at_step s1 l) by (split; [done|done|by destruct Ht]).
    destruct (start_running_ok s1 l m2 id r rest (cb' ++ new) (Z.of_nat (length cb') * bs) n
      (encoder_budget l) now k Has1 Hw Hl Hst Hg2 Ho2 Hk) as
      (l' & s' & Hrun & Has' & Hk' & Hw' & Hb' & Hp' & Hf'); [..|done|];
      try (rewrite ?Hbs1; unfold n; lia).
    rewrite (bind_step _ _ _ _ _ Hrun). exists (Some l'), s'. split; [done|].
    split; [by transitivity s1|by split_and!].
  - destruct Hres as [Hi2 Hno]. exists None, (with_kv m2 s). split; [done|].
    split; [transitivity s1; [done|]; apply kept_kv; [done|by repeat split]|].
    split; [split; [done|done|by destruct Ht]|].
    intros Hroomy. apply Hno. by apply (roomy_kept s).
Qed.

(** One round for each waiting request is enough. *)
Lemma waiting_loop_ok fuel now s l :
  at_step s l -> (length (waiting s) <= fuel)%nat ->
  exists l' s', waiting_loop py_hash hash_none fuel now l s = (Ok l', s') /\
    at_step s' l' /\ kept s s' /\ preempted_reqs l' = preempted_reqs l /\
    token_budget l' <= token_budget l /\
    (roomy s -> running s = [] -> 0 < token_budget l -> 0 < max_num_running_reqs s ->
     (exists id r, id ∈ waiting s /\ live s !! id = Some r /\ ready r = true) ->
     token_budget l' < token_budget l).
Proof.
  revert s l. induction fuel as [|fuel IH]; intros s l Has Hfuel;
    cbn [waiting_loop]; rewrite bind_run; cbn [get];
    destruct (waiting s) as [|id rest] eqn:Hw; cbn in Hfuel; try lia;
    try (exists l, s; split_and!; try (done || lia);
         intros _ _ _ _ (id & r & ?%not_elem_of_nil & _); done).
  destruct (negb (0 <? token_budget l) || _) eqn:Hstop.
  { exists l, s. split_and!; try (done || lia). intros _ He Hb Hm _. exfalso.
    apply orb_true_iff in Hstop as [H%negb_true_iff%Z.ltb_ge|H%Z.eqb_eq]; [lia|].
    rewrite He in H. cbn in H. lia. }
  apply orb_false_iff in Hstop as [Hbud Hroom].
  apply negb_false_iff, Z.ltb_lt in Hbud. apply Z.eqb_neq in Hroom.
  destruct (fsm_ready_ok s l id Has ltac:(rewrite Hw; left)) as
    (b & s1 & Hfsm & Has1 & Hk1 & Hw1 & Hrun1 & Hb).
  rewrite (bind_step _ _ _ _ _ Hfsm). destruct b; cbn [negb].
  - destruct Hb as (r & Hl & Hst).
    destruct (waiting_body_ok s1 l id rest r now Has1 ltac:(congruence) Hl Hst Hbud
      ltac:(rewrite Hrun1, (se_running _ _ (kp_env _ _ Hk1)); done)) as
      (ol & s2 & Hbody & Hk2 & Hres).
    rewrite (bind_step _ _ _ _ _ Hbody). destruct ol as [l2|].
    + destruct Hres as (Hlt & Has2 & Hw2 & Hp2 & _).
      destruct (IH s2 l2 Has2 ltac:(rewrite Hw2; lia)) as
        (l3 & s3 & Hloop & Has3 & Hk3 & Hp3 & Hb3 & _).
      exists l3, s3. split_and!; [done|done| |congruence|lia|intros; lia].
      transitivity s1; [done|]. by transitivity s2.
    + destruct Hres as (Has2 & Hno). exists l, s2.
      split_and!; [done|done|by transitivity s1|done|lia|].
      intros Hroomy He. exfalso. apply Hno; [by apply (roomy_kept s)|congruence].
  - destruct Hb as [-> Hready]. rewrite bind_run. cbn [modify]. set (s2 := with_waiting rest s).
    assert (Has2 : at_step s2 (skip_for_fsm id l)).
    { destruct Has1 as [Hi Hs Ht]. split; [|done|by destruct Ht].
      apply (inv_queue s _ (waiting_for_fsm l)); try done. cbn. rewrite Hw.
      apply Permutation_middle. }
    destruct (IH s2 (skip_for_fsm id l) Has2 ltac:(cbn; lia)) as
      (l3 & s3 & Hloop & Has3 & Hk3 & Hp3 & Hb3 & Hpr3).
    exists l3, s3. split_and!; [done|done| |done|done|].
    { transitivity s2; [by repeat split|done]. }
    intros Hroomy He Hb0 Hm (i & r & Hin & Hr & Hrd). apply Hpr3; try done.
    exists i, r. split_and!; [|done|done]. cbn.
    apply elem_of_cons in Hin as [->|?]; [|done]. by rewrite (Hready r Hr) in Hrd.
Qed.

(** ** After the loops *)

Lemma constraints_ok s l : at_step s l -> constraints l s = (Ok tt, s).
Proof.
  intros [Hi Hs Ht]. unfold constraints. rewrite bind_run. cbn [get].
  pose proof (ta_budget _ _ Ht). pose proof (ta_left _ _ Ht).
  rewrite bind_run, (proj2 (Z.leb_le (total (scheduled l)) _)) by lia. cbn [assert_ mret M_ret].
  rewrite bind_run, (proj2 (Z.leb_le 0 _)) by done. cbn [assert_ mret M_ret].
  rewrite bind_run, (proj2 (Z.leb_le (Z.of_nat _) _)) by apply Hi. cbn [assert_ mret M_ret].
  rewrite bool_decide_true; [done|].
  rewrite <- Nat.add_assoc, <- !length_app.
  rewrite (Permutation_length (ta_all _ _ Ht)).
  apply submseteq_length, NoDup_submseteq; [apply (ta_wf _ _ Ht)|].
  intros id [n Hn]%elem_of_keys. by apply (iv_flight _ _ _ _ _ _ Hi id n).
Qed.

Lemma record_loras_ok s l : config_ok s -> record_loras l s = (Ok l, s).
Proof. intros Hc. unfold record_loras. rewrite bind_run. cbn [gets]. by rewrite (cf_loras _ Hc). Qed.

(** The manager's records are read only. *)
Lemma good_same m m' R l :
  good (m, R) l -> wf m' l -> same_setup m m' -> (forall id, table m' id = table m id) ->
  KVCacheManager.req_to_block_hashes m' = KVCacheManager.req_to_block_hashes m ->
  KVCacheManager.num_cached_block m' = KVCacheManager.num_cached_block m ->
  (forall b, hash_of m' b = hash_of m b) -> good (m', R) l.
Proof.
  intros [Hw Hca Hlim Hlive Hdead] Hw' Hs Ht Hh Hc Hha. cbn [fst snd] in *.
  split; cbn [fst snd].
  - done.
  - by rewrite (ss_caching _ _ Hs).
  - by eapply limits_same.
  - intros id r Hr. destruct (Hlive id r Hr) as (Hid & Htext & Htr). split_and!; [done|done|].
    apply (tracks_same py_hash hash_none m); try done; [apply Hs|..].
    + unfold known_hashes. by rewrite Hh.
    + by rewrite Hc.
  - intros id Hid. destruct (Hdead id Hid) as [H1 H2 H3].
    split; [by rewrite Ht|by rewrite Hc|]. unfold known_hashes in *. by rewrite Hh.
Qed.

Lemma common_prefix_ok s f :
  inv s [] (running s) f ->
  exists n m, common_prefix s = (Ok n, with_kv m s) /\ same_setup (kv s) m /\
    inv (with_kv m s) [] (running s) f.
Proof.
  intros Hi. unfold common_prefix. rewrite bind_run. cbn [gets].
  destruct (running s) as [|id run] eqn:Hrun.
  { exists 0, (kv s). assert (E : with_kv (kv s) s = s) by by destruct s. rewrite E. done. }
  destruct (inv_live _ _ _ _ _ _ id Hi) as (r & Hl & Hr & Hid & Htext & Hpl);
    [set_unfold; tauto|].
  rewrite (bind_step _ _ _ _ _ (object_run id r s Hr)).
  pose proof (iv_running _ _ _ _ _ _ Hi id r ltac:(left) Hl) as Hro.
  destruct (iv_good _ _ _ _ _ _ Hi) as (l & Hg).
  destruct (get_blocks_same (kv s) l (Request.request_id r) (gd_wf _ _ _ _ Hg)) as
    (Hgb & Hw & Hss & Ht).
  set (m := KVCacheManager.with_blocks _ (kv s)) in *.
  assert (Hcount : exists n, KVCacheManager.get_num_common_prefix_blocks r (Z.of_nat (length (id :: run))) (kv s) =
            (Ok n, m)).
  { unfold KVCacheManager.get_num_common_prefix_blocks. rewrite bind_run, bool_decide_true by apply Hro.
    cbn [assert_ mret M_ret]. rewrite (bind_step _ _ _ _ _ Hgb). eexists. reflexivity. }
  destruct Hcount as [n Hn]. exists n, m. split; [unfold on_kv; by rewrite Hn|]. split; [done|].
  destruct (insert_live s id r Hl) as [Hsame Hsameo].
  assert (Ho : others id (kv s) m) by by split.
  apply (inv_change py_hash hash_none s [] (id :: run) f (with_kv m s) _ _ _ id r l); try done.
  - by apply live_lookup in Hl as [_ ?].
  - rewrite Hsame. by apply (good_same (kv s)).
  - apply Hi.
  - intros n'. apply Hi.
  - rewrite decide_True by left. destruct Hro as [H1 H2 H3 H4 (k & H5 & H6)].
    split; [done..|]. by exists k.
Qed.

(** The records that are cached carry the id they are filed under. *)
Definition data_ok (s : t) : Prop :=
  forall id d, cached_reqs_data s !! id = Some d -> req_id d = id.

(** The record of a request for the workers: of a new one, and of a known one that
    is given [sched] tokens from its computed ones on. *)
Definition new_record (s : t) (d : NewRequestData) : Prop :=
  exists r bs, objs s !! new_req_id d = Some r /\ d = new_from_request r bs.

Definition cached_record (s : t) (sched : pydict string Z) (d : CachedRequestData) : Prop :=
  exists r n, objs s !! req_id d = Some r /\ sched !! req_id d = Some n /\
    num_computed_tokens d = computed_tokens r /\
    new_token_ids d = py_slice (Request.all_token_ids r) (computed_tokens r) (computed_tokens r + n).

Lemma new_data_ok s l id r :
  objs s !! id = Some r -> Request.request_id r = id -> is_Some (req_to_new_block_ids l !! id) ->
  exists d, new_data l id s = (Ok d, s) /\ new_req_id d = id /\ new_record s d.
Proof.
  intros Hr Hid [bs Hbs]. unfold new_data. rewrite (bind_step _ _ _ _ _ (object_run id r s Hr)).
  rewrite bind_run, Hbs. cbn. eexists. split; [reflexivity|]. split; [exact Hid|].
  exists r, bs. cbn. by rewrite Hid.
Qed.

Lemma cached_data_ok s l b id r :
  data_ok s -> spec_tokens l = ∅ -> objs s !! id = Some r -> Request.request_id r = id ->
  is_Some (scheduled l !! id) -> is_Some (req_to_new_block_ids l !! id) ->
  exists d c, cached_data l b id s = (Ok d, with_cached_data c s) /\ req_id d = id /\
    data_ok (with_cached_data c s) /\ cached_record s (scheduled l) d.
Proof.
  intros Hd Hsp Hr Hid [n Hn] [bs Hbs]. unfold cached_data.
  rewrite (bind_step _ _ _ _ _ (object_run id r s Hr)).
  rewrite bind_run, Hn. cbn [lift from_option_exn]. rewrite bind_run, Hbs.
  cbn [lift from_option_exn]. unfold make_cached_request_data. rewrite bind_run. cbn [gets].
  rewrite bind_run. cbn [modify]. rewrite Hid, Hsp, dict_lookup_empty. cbn [default length]. rewrite Z.sub_0_r.
  eexists _, _. split; [reflexivity|].
  set (d := match cached_reqs_data s !! id with Some _ => _ | None => _ end).
  assert (Hd' : req_id d = id).
  { unfold d. destruct (cached_reqs_data s !! id) as [d0|] eqn:E; [|done]. cbn. by apply Hd. }
  split; [done|]. split.
  - intros i x. cbn. rewrite lookup_insert_Some. intros [[<- <-]|[_ Hx]]; [done|by apply Hd].
  - exists r, n. rewrite Hd'. split_and!; [done|done|..]; unfold d; by destruct (cached_reqs_data s !! id).
Qed.

Lemma map_new_data s l ids :
  (forall id, id ∈ ids -> exists r, objs s !! id = Some r /\ Request.request_id r = id /\
     is_Some (req_to_new_block_ids l !! id)) ->
  exists ds, map_each ids (new_data l) s = (Ok ds, s) /\ map new_req_id ds = ids /\ Forall (new_record s) ds.
Proof.
  induction ids as [|id ids IH]; intros H; cbn [map_each]; [by exists []|].
  destruct (H id ltac:(left)) as (r & Hr & Hid & Hb).
  destruct (new_data_ok s l id r Hr Hid Hb) as (d & Hd & Hdid & Hrec).
  rewrite (bind_step _ _ _ _ _ Hd).
  destruct IH as (ds & Hds & Hm & Hall); [intros i Hi; apply H; by right|].
  rewrite (bind_step _ _ _ _ _ Hds). exists (d :: ds). split; [done|]. split; [cbn; congruence|by constructor].
Qed.

Lemma map_cached_data s l b ids :
  data_ok s -> spec_tokens l = ∅ ->
  (forall id, id ∈ ids -> exists r, objs s !! id = Some r /\ Request.request_id r = id /\
     is_Some (scheduled l !! id) /\ is_Some (req_to_new_block_ids l !! id)) ->
  exists ds c, map_each ids (cached_data l b) s = (Ok ds, with_cached_data c s) /\
    map req_id ds = ids /\ data_ok (with_cached_data c s) /\ Forall (cached_record s (scheduled l)) ds.
Proof.
  intros Hok Hsp. revert s Hok. induction ids as [|id ids IH]; intros s Hok H; cbn [map_each].
  { exists [], (cached_reqs_data s). assert (E : with_cached_data (cached_reqs_data s) s = s)
      by by destruct s. by rewrite E. }
  destruct (H id ltac:(left)) as (r & Hr & Hid & Hs & Hb).
  destruct (cached_data_ok s l b id r Hok Hsp Hr Hid Hs Hb) as (d & c & Hd & Hdid & Hok1 & Hrec).
  rewrite (bind_step _ _ _ _ _ Hd).
  destruct (IH (with_cached_data c s) Hok1) as (ds & c' & Hds & Hm & Hok2 & Hall);
    [intros i Hi; apply H; by right|].
  rewrite (bind_step _ _ _ _ _ Hds). exists (d :: ds), c'. split; [done|].
  split; [cbn; congruence|]. split; [done|by constructor].
Qed.

(** ** [schedule] *)

(** What the output of a step says of the step. *)
Record output_ok (s : t) (out : SchedulerOutput) (s' : t) : Prop := OutputOk {
  oo_wf : wf_dict (num_scheduled_tokens out);
  oo_total : total_num_scheduled_tokens out = total (num_scheduled_tokens out);
  oo_budget : total_num_scheduled_tokens out <= max_num_scheduled_tokens s;
  oo_ids : map new_req_id (scheduled_new_reqs out) ++ map req_id (scheduled_cached_reqs out) ≡ₚ
             keys (num_scheduled_tokens out);
  oo_spec : scheduled_spec_decode_tokens out = ∅;
  oo_encoder : scheduled_encoder_inputs out = ∅;
  oo_finished : out_finished_req_ids out = finished_req_ids s /\ finished_req_ids s' = ∅;
  oo_new : Forall (new_record s') (scheduled_new_reqs out);
  oo_cached : Forall (cached_record s' (num_scheduled_tokens out)) (scheduled_cached_reqs out);
}.

Lemma finish_schedule_ok s l :
  at_step s l -> waiting_for_fsm l = [] -> data_ok s ->
  exists out s', finish_schedule l s = (Ok out, s') /\
    inv s' [] (running s') (fun i => num_scheduled_tokens out !! i) /\
    sched_ok s' (fun i => num_scheduled_tokens out !! i) /\ data_ok s' /\
    same_env s s' /\ same_setup (kv s) (kv s') /\ requests s' = requests s /\
    objs s' = objs s /\ num_scheduled_tokens out = scheduled l /\ output_ok s out s'.
Proof.
  intros Has Hq Hd. pose proof Has as [Hi Hs Ht]. rewrite Hq in Hi.
  unfold finish_schedule. rewrite (bind_step _ _ _ _ _ (constraints_ok s l Has)).
  destruct (common_prefix_ok s (flight l) Hi) as (n & m & Hcp & Hss & Hi1).
  rewrite (bind_step _ _ _ _ _ Hcp). set (s1 := with_kv m s) in *.
  assert (Hids : forall id, id ∈ keys (scheduled l) -> exists r, objs s1 !! id = Some r /\
            Request.request_id r = id /\ is_Some (scheduled l !! id) /\
            is_Some (req_to_new_block_ids l !! id)).
  { intros id Hin. apply elem_of_keys in Hin as Hsome. pose proof Hsome as [x Hx].
    destruct (iv_flight _ _ _ _ _ _ Hi id x Hx) as [_ Hrun].
    destruct (inv_live _ _ _ _ _ _ id Hi) as (r & _ & Hr & Hid & _); [set_unfold; tauto|].
    exists r. split_and!; [done|done|done|by apply (ta_blocks _ _ Ht)]. }
  assert (Hsub : forall id, id ∈ new_reqs l \/ id ∈ resumed_reqs l \/ id ∈ running_reqs l ->
            id ∈ keys (scheduled l)).
  { intros id Hin. rewrite <- (ta_all _ _ Ht), !elem_of_app. tauto. }
  destruct (map_new_data s1 l (new_reqs l)) as (nd & Hnd & Hndi & Hndr).
  { intros id Hin. destruct (Hids id (Hsub id (or_introl Hin))) as (r & ? & ? & ? & ?). eauto. }
  rewrite (bind_step _ _ _ _ _ Hnd).
  destruct (map_cached_data s1 l true (resumed_reqs l) Hd (ta_spec _ _ Ht)) as (rd & c1 & Hrd & Hrdi & Hd1 & Hrdr).
  { intros id Hin. apply Hids, Hsub. tauto. }
  rewrite (bind_step _ _ _ _ _ Hrd).
  destruct (map_cached_data (with_cached_data c1 s1) l false (running_reqs l) Hd1 (ta_spec _ _ Ht)) as
    (ud & c2 & Hud & Hudi & Hd2 & Hudr).
  { intros id Hin. apply Hids, Hsub. tauto. }
  rewrite (bind_step _ _ _ _ _ Hud). rewrite bind_run. cbn [gets].
  set (s2 := with_cached_data c2 _) in *.
  rewrite (bind_step _ _ _ (EncoderCache.freed (encoder_cache_manager s2))
    (with_encoder (EncoderCache.with_freed [] (encoder_cache_manager s2)) s2)) by done.
  rewrite bind_run. cbn [modify]. eexists _, _. split; [reflexivity|].
  cbn [num_scheduled_tokens running with_finished with_encoder].
  split_and!; try done.
  - change (running s2) with (running s). by apply (inv_state s1).
  - split; cbn; try done.
    + apply (ta_wf _ _ Ht).
    + pose proof (ta_budget _ _ Ht). pose proof (ta_left _ _ Ht). lia.
    + rewrite map_app, Hndi, Hrdi, Hudi. apply Ht.
    + apply Ht.
    + apply Ht.
    + by apply Forall_app.
Qed.

Lemma waiting_loop_decides now w s l :
  at_step s l -> (length (waiting s) <= w)%nat ->
  exists l' s', (match preempted_reqs l with
      | [] => waiting_loop py_hash hash_none w now l
      | _ => mret l
      end) s = (Ok l', s') /\ at_step s' l' /\ kept s s' /\ token_budget l' <= token_budget l /\
    (preempted_reqs l = [] ->
     roomy s -> running s = [] -> 0 < token_budget l -> 0 < max_num_running_reqs s ->
     (exists id r, id ∈ waiting s /\ live s !! id = Some r /\ ready r = true) ->
     token_budget l' < token_budget l).
Proof.
  intros Has Hw. destruct (preempted_reqs l); [|exists l, s; split_and!; (done || lia)].
  destruct (waiting_loop_ok w now s l Has Hw) as (l' & s' & H1 & H2 & H3 & _ & H4 & H5).
  exists l', s'. by split_and!.
Qed.

(** Some request can be scheduled: one runs, or one waits that is ready. *)
Definition schedulable (s : t) : Prop :=
  running s <> [] \/ exists id r, id ∈ waiting s /\ live s !! id = Some r /\ ready r = true.

(** What [schedule] leaves as it is. *)
Definition kept_env (s s' : t) : Prop :=
  same_env s s' /\ same_setup (kv s) (kv s') /\ requests s' = requests s.

(** Between the steps nothing is in flight. *)
Definition idle : string -> option Z := fun _ => None.

Lemma schedule_ok s now :
  inv s [] (running s) idle -> sched_ok s idle -> data_ok s ->
  exists out s', schedule py_hash hash_none now s = (Ok out, s') /\
    inv s' [] (running s') (fun i => num_scheduled_tokens out !! i) /\
    sched_ok s' (fun i => num_scheduled_tokens out !! i) /\ data_ok s' /\
    kept_env s s' /\ output_ok s out s' /\
    (roomy s -> 0 < max_num_scheduled_tokens s -> 0 < max_num_running_reqs s ->
     schedulable s -> 0 < total_num_scheduled_tokens out).
Proof.
  intros Hi Hs Hd. unfold schedule. rewrite bind_run. cbn [get].
  assert (Has : at_step s (start_locals s)).
  { split; [done|done|]. split; cbn; try done.
    - unfold total. cbn. lia.
    - apply (cf_budget _ (iv_config _ _ _ _ _ _ Hi)).
    - intros i [x Hx]. done. }
  destruct (running_loop_ok (length (running s)) s (start_locals s) now [] (running s)
    Has eq_refl eq_refl (fun i _ => eq_refl) ltac:(lia)) as (l1 & s1 & Hrun & Has1 & Hk1 & Hq1 & _ & Hb1 & Hpr1).
  rewrite (bind_step _ _ _ _ _ Hrun).
  rewrite (bind_step _ _ _ _ _
    (record_loras_ok s1 l1 (iv_config _ _ _ _ _ _ (as_inv _ _ Has1)))).
  assert (Hwait : exists l2 s2, (match preempted_reqs l1 with
      | [] => w ← gets waiting; waiting_loop py_hash hash_none (length w) now l1
      | _ => mret l1
      end) s1 = (Ok l2, s2) /\ at_step s2 l2 /\ kept s1 s2 /\ token_budget l2 <= token_budget l1 /\
    (preempted_reqs l1 = [] ->
     roomy s1 -> running s1 = [] -> 0 < token_budget l1 -> 0 < max_num_running_reqs s1 ->
     (exists id r, id ∈ waiting s1 /\ live s1 !! id = Some r /\ ready r = true) ->
     token_budget l2 < token_budget l1)).
  { destruct (waiting_loop_decides now (length (waiting s1)) s1 l1 Has1 ltac:(lia)) as
      (l2 & s2 & H2 & Hrest). exists l2, s2. split; [|done].
    destruct (preempted_reqs l1); [|done]. rewrite bind_run. exact H2. }
  destruct Hwait as (l2 & s2 & Hwait & Has2 & Hk2 & Hb2 & Hpr2).
  rewrite (bind_step _ _ _ _ _ Hwait). rewrite bind_run. cbn [modify].
  set (s3 := with_waiting _ s2). set (l3 := Locals (new_reqs l2) (resumed_reqs l2)
    (running_reqs l2) (preempted_reqs l2) (structured_ids l2) (req_to_new_block_ids l2)
    (scheduled l2) (token_budget l2) (encoder_inputs l2) (encoder_budget l2) (spec_tokens l2)
    (req_index l2) (requested_loras l2) []).
  assert (Has3 : at_step s3 l3).
  { destruct Has2 as [Hi2 Hs2 Ht2]. split; [|done|by destruct Ht2].
    apply (inv_queue s2 _ (waiting_for_fsm l2)); try done. cbn.
    by rewrite reverse_Permutation. }
  assert (Hk : kept s s3).
  { transitivity s1; [done|]. transitivity s2; [done|]. by repeat split. }
  destruct (finish_schedule_ok s3 l3 Has3 eq_refl) as
    (out & s4 & Hf & Hi4 & Hs4 & Hd4 & He4 & Hk4 & Hr4 & _ & Hout & [H1 H2 H3 H4 H5 H6 [H7 H8] H9 H10]).
  { unfold data_ok. by rewrite (kp_data _ _ Hk). }
  exists out, s4. split; [exact Hf|]. split_and!; [done|done|done|..].
  - split_and!; [transitivity s3; [apply Hk|done]|transitivity (kv s3); [apply Hk|done]|].
    rewrite Hr4. apply Hk.
  - split; try done.
    + by rewrite <- (se_budget _ _ (kp_env _ _ Hk)).
    + split; [|done]. rewrite H7. apply Hk.
  - intros Hroomy Hbud Hmax Hsch. rewrite H2, Hout. change (scheduled l3) with (scheduled l2).
    pose proof (ta_budget _ _ (as_tally _ _ Has3)) as Ht3.
    change (scheduled l3) with (scheduled l2) in Ht3.
    change (token_budget l3) with (token_budget l2) in Ht3.
    rewrite (se_budget _ _ (kp_env _ _ Hk)) in Ht3.
    change (token_budget (start_locals s)) with (max_num_scheduled_tokens s) in *.
    destruct (running s) as [|i run] eqn:Er.
    + cbn in Hrun. rewrite bind_run in Hrun. cbn [gets] in Hrun. rewrite Er in Hrun.
      cbn in Hrun. injection Hrun as <- <-.
      assert (token_budget l2 < max_num_scheduled_tokens s); [|lia].
      destruct Hsch as [|Hw]; [done|]. by apply Hpr2.
    + assert (token_budget l1 < max_num_scheduled_tokens s); [|lia]. by apply Hpr1.
Qed.
End Schedule.
