(* ===== verification/V1SchedulerUpdate.v ===== *)
(** * v1: [update_from_output], [add_request] and [finish_requests] answer

    The output of the model runner is the one of [V1Scheduler.schedule]'s batch:
    [answers] says what is relied on of it.  Every running request that was
    scheduled advances; when its tokens are all computed the generated ones are
    appended until a stop condition holds, and then it is freed. *)
From S2P Require Import Prelude.
From S2P Require Import PyDict.
From S2P Require Import FreeQueue.
From S2P Require Import V1Request.
From S2P Require Import BlockHashing.
From S2P Require Import V1BlockPool.
From S2P Require Import V1PoolCorrect.
From S2P Require Import KVCacheManager.
From S2P Require Import KVManagerCorrect.
From S2P Require Import KVManagerChain.
From S2P Require Import KVManagerProtocol.
From S2P Require Import EncoderCache.
From S2P Require Import V1Scheduler.
From S2P Require Import V1SchedulerInv.
From S2P Require Import V1SchedulerSchedule.
Import V1Scheduler.

(** The model runner answers for every scheduled request with at least one
    token, with the log probabilities where one of them wants them, and without
    speculated tokens. *)
Record answers (s : t) (out : SchedulerOutput) (mro : ModelRunnerOutput) : Prop := Answers {
  an_tokens : forall id n, num_scheduled_tokens out !! id = Some n ->
    exists i toks, req_id_to_index mro !! id = Some i /\ sampled_token_ids mro !! i = Some toks /\
      toks <> [] /\
      forall r, objs s !! id = Some r -> logprobs (Request.sampling_params r) <> None ->
        logprobs_of_step mro <> None;
  an_spec : spec_token_ids_ mro = None;
}.

(** Requests may change, but not their sampling parameters. *)
Definition same_params (s s' : t) : Prop :=
  forall id r', objs s' !! id = Some r' ->
    exists r, objs s !! id = Some r /\ Request.sampling_params r' = Request.sampling_params r.

Lemma answers_same s s' out mro : same_params s s' -> answers s out mro -> answers s' out mro.
Proof.
  intros Hp [Ht Hs]. split; [|done]. intros id n Hn.
  destruct (Ht id n Hn) as (i & toks & H1 & H2 & H3 & H4). exists i, toks. split_and!; [done..|].
  intros r' Hr'. destruct (Hp id r' Hr') as (r & Hr & ->). by apply H4.
Qed.

Definition clear (f : string -> option Z) (id : string) : string -> option Z :=
  fun i => if decide (i = id) then None else f i.

Section Update.
Context (py_hash : Z * list Z * option (list extra_key) -> Z) (hash_none : Z).

Abbreviation good := (KVManagerProtocol.good py_hash hash_none).
Abbreviation inv := (V1SchedulerInv.inv py_hash hash_none).

(** ** One request's steps *)

Lemma advance_ok id r s n toks :
  computed_tokens r + n <= Request.num_tokens r ->
  advance id n None toks (put id r s) =
  (Ok tt, put id (Request.with_computed (computed_tokens r + n) r) s).
Proof.
  intros Hn. unfold advance. rewrite (bind_step _ _ _ _ _ (set_obj_put _ _ _ _)).
  rewrite (bind_step _ _ _ _ _ (obj_put _ _ _)).
  set (r' := Request.with_computed _ r).
  rewrite (proj2 (Z.leb_le (computed_tokens r') _)); [done|]. exact Hn.
Qed.

Lemma no_encoder_inputs e r : EncoderCache.cached e = ∅ -> EncoderCache.get_cached_input_ids r e = ∅.
Proof. intros H. unfold EncoderCache.get_cached_input_ids. by rewrite H, lookup_empty. Qed.

Lemma free_processed_ok id r s :
  EncoderCache.cached (encoder_cache_manager s) = ∅ ->
  free_processed_inputs id (put id r s) = (Ok tt, put id r s).
Proof.
  intros He. unfold free_processed_inputs. rewrite (bind_step _ _ _ _ _ (obj_put _ _ _)).
  rewrite bind_run. cbn [gets].
  change (encoder_cache_manager (put id r s)) with (encoder_cache_manager s).
  rewrite (no_encoder_inputs _ r He), elements_empty. done.
Qed.

Lemma encoder_free_none e r :
  EncoderCache.cached e = ∅ -> EncoderCache.free r e = (Ok tt, e).
Proof.
  intros He. unfold EncoderCache.free. rewrite bind_run. cbn [gets].
  by rewrite (no_encoder_inputs _ r He), elements_empty.
Qed.

(** Request [id], now [r], has left; [m] is the manager. *)
Definition gone (s : t) (id : string) (r : Request.t) (m : KVCacheManager.t) : t :=
  with_finished ({[id]} ∪ finished_req_ids s)
    (with_requests (requests s ∖ {[id]})
       (with_cached_data (delete id (cached_reqs_data s)) (with_kv m (put id r s)))).

Lemma request_freed s id r l :
  id ∈ requests s -> Request.request_id r = id -> Request.is_finished r = true ->
  EncoderCache.cached (encoder_cache_manager s) = ∅ ->
  good (kv s, <[id := r]> (live s)) l ->
  exists m l', free_request id (put id r s) = (Ok tt, gone s id r m) /\
    good (m, delete id (live s)) l' /\ others id (kv s) m.
Proof.
  intros Hin Hid Hfin He Hg.
  destruct (finish_good py_hash hash_none (kv s) (<[id := r]> (live s)) l r Hg) as
    (m1 & m & l' & Hf & Hh & Hg' & Ho).
  { by rewrite Hid, lookup_insert_eq. }
  rewrite Hid, delete_insert_eq in Hg'. rewrite Hid in Ho. exists m, l'. split_and!; [|done|done].
  unfold free_request. rewrite (bind_step _ _ _ _ _ (obj_put _ _ _)).
  rewrite bind_run, Hfin. cbn [assert_ mret M_ret].
  rewrite (bind_step _ _ _ tt (with_kv m1 (put id r s))) by (unfold on_kv; cbn; by rewrite Hf).
  rewrite (bind_step _ _ _ tt (with_kv m (put id r s))) by (injection Hh as <-; reflexivity).
  rewrite (bind_step _ _ _ tt (with_kv m (put id r s))).
  2:{ unfold on_encoder. cbn. by rewrite (encoder_free_none _ r He). }
  rewrite bind_run. cbn [modify]. rewrite (bind_step _ _ _ tt
    (with_requests (requests s ∖ {[id]})
       (with_cached_data (delete id (cached_reqs_data s)) (with_kv m (put id r s))))).
  2:{ unfold del_request. rewrite bind_run. cbn [gets]. by rewrite bool_decide_true. }
  done.
Qed.

(** ** Generated tokens *)

Definition capped (s : t) (r : Request.t) : bool :=
  (max_model_len s <=? Request.num_tokens r) ||
  (Request.max_tokens r <=? Request.num_output_tokens r).

Lemma check_stop_ok id r s :
  Request.output_token_ids r <> [] ->
  exists b r', check_stop id (put id r s) = (Ok b, put id r' s) /\ evolves r r' /\
    if b : bool then Request.is_finished r' = true
    else r' = r /\ Request.num_tokens r < max_model_len s.
Proof.
  intros Hout. unfold check_stop. rewrite (bind_step _ _ _ _ _ (obj_put _ _ _)).
  rewrite bind_run. cbn [gets]. change (max_model_len (put id r s)) with (max_model_len s).
  destruct (_ || _) eqn:Hcap.
  { rewrite (bind_step _ _ _ _ _ (set_obj_put _ _ _ _)). eexists true, _. by split_and!. }
  apply orb_false_iff in Hcap as [Hlen%Z.leb_gt _].
  destruct (Request.output_token_ids r) as [|x xs _] eqn:E using rev_ind; [done|].
  assert (Hlast : py_index (xs ++ [x]) (-1) = Ok x).
  { unfold py_index. cbn. rewrite length_app. cbn.
    rewrite (proj2 (Z.ltb_ge (-1 + Z.of_nat (length xs + 1)) 0)) by lia.
    replace (Z.to_nat _) with (length xs) by lia.
    by rewrite lookup_app_r, Nat.sub_diag by done. }
  rewrite bind_run, Hlast. cbn [lift].
  destruct (negb _ && _).
  { rewrite (bind_step _ _ _ _ _ (set_obj_put _ _ _ _)). eexists true, _. by split_and!. }
  destruct (bool_decide _).
  { rewrite (bind_step _ _ _ _ _ (set_obj_put _ _ _ _)).
    rewrite (bind_step _ _ _ _ _ (set_obj_put _ _ _ _)). eexists true, _. by split_and!. }
  exists false, r. by split_and!.
Qed.

Lemma evolves_append r ids : evolves r (Request.append_output_token_ids ids r).
Proof. split; cbn; try done. by apply prefix_app_r. Qed.

(** The tokens are appended one by one, until the request stops. *)
Lemma append_generated_ok s id r0 toks r acc :
  id ∈ requests s -> live s !! id = Some r0 -> (exists l, good (kv s, live s) l) ->
  EncoderCache.cached (encoder_cache_manager s) = ∅ -> evolves r0 r -> toks <> [] ->
  exists b ts r' s', append_generated id toks acc (put id r s) = (Ok (b, acc ++ ts), s') /\
    evolves r r' /\ ts <> [] /\
    if b : bool
    then Request.is_finished r' = true /\
         exists m l', s' = gone s id r' m /\ good (m, delete id (live s)) l' /\ others id (kv s) m
    else s' = put id r' s /\ Request.num_tokens r < Request.num_tokens r' < max_model_len s /\
         Request.status r' = Request.status r /\ computed_tokens r' = computed_tokens r.
Proof.
  intros Hin Hl Hg He. revert r acc. induction toks as [|x toks IH]; intros r acc Hev Hne; [done|].
  cbn [append_generated]. rewrite (bind_step _ _ _ _ _ (set_obj_put _ _ _ _)).
  set (r1 := Request.append_output_token_ids [x] r). cbv zeta.
  assert (Hev1 : evolves r r1) by apply evolves_append.
  assert (Hnt : Request.num_tokens r1 = Request.num_tokens r + 1).
  { unfold Request.num_tokens. cbn. rewrite length_app. cbn. lia. }
  destruct (check_stop_ok id r1 s) as (b & r2 & Hcs & Hev2 & Hb).
  { cbn. by destruct (Request.output_token_ids r). }
  rewrite (bind_step _ _ _ _ _ Hcs). destruct b.
  - destruct Hg as [l Hg].
    destruct (request_freed s id r2 l Hin) as (m & l' & Hf & Hg' & Ho); try done.
    + rewrite (ev_id _ _ Hev2), (ev_id _ _ Hev1), (ev_id _ _ Hev).
      by apply (gd_live _ _ _ _ Hg) in Hl as (? & _).
    + apply (good_evolve _ _ _ _ _ _ r0); try done. by do 2 (etransitivity; [eassumption|]).
    + rewrite (bind_step _ _ _ _ _ Hf). exists true, [x], r2, (gone s id r2 m).
      split; [done|]. split; [by transitivity r1|].
      split; [done|]. split; [done|]. eauto.
  - destruct Hb as [-> Hlen]. destruct toks as [|y toks].
    + exists false, [x], r1, (put id r1 s). split; [done|]. split; [done|]. split; [done|].
      split; [done|]. split; [lia|done].
    + destruct (IH r1 (acc ++ [x])) as (b & ts & r' & s' & Hrun & Hev' & _ & Hres);
        [by transitivity r|done|].
      exists b, (x :: ts), r', s'. rewrite Hrun, <- app_assoc. split; [done|].
      split; [by transitivity r1|]. split; [done|]. destruct b; [done|].
      destruct Hres as (H1 & H2 & H3 & H4). split_and!; [done|lia|lia|done|done].
Qed.

(** ** One request of the loop *)

Lemma take_events_ok id r s :
  objs s !! id = Some r ->
  exists evs ev, take_events id s = (Ok evs, put id (Request.with_events ev r) s).
Proof.
  intros Hr. unfold take_events. rewrite (bind_step _ _ _ _ _ (object_run id r s Hr)).
  unfold Request.take_events. destruct (Request.events r) as [|e evs] eqn:E.
  - rewrite (bind_step _ _ _ _ _ (set_obj_run id r s _ Hr)). exists None, (Request.events r).
    rewrite E. cbn. destruct r; cbn in E. by subst.
  - rewrite (bind_step _ _ _ _ _ (set_obj_run id r s _ Hr)). by exists (Some (e :: evs)), [].
Qed.

Lemma emit_ok id r s (c : bool) (mk : Request.t -> option (list EngineCoreEvent) -> EngineCoreOutput) :
  objs s !! id = Some r ->
  exists evs ev,
    (if c then
       request ← obj id;
       evs ← take_events id;
       mret [mk request evs]
     else mret []) s = (Ok (if c then [mk r evs] else []), put id (Request.with_events ev r) s).
Proof.
  intros Hr. destruct c.
  - rewrite (bind_step _ _ _ _ _ (object_run id r s Hr)).
    destruct (take_events_ok id r s Hr) as (evs & ev & Ht).
    rewrite (bind_step _ _ _ _ _ Ht). by exists evs, ev.
  - exists None, (Request.events r).
    assert (E : Request.with_events (Request.events r) r = r) by by destruct r.
    by rewrite E, put_id.
Qed.

Lemma unschedule_ok id s f :
  sched_ok s f -> is_Some (f id) ->
  exists s', unschedule id s = (Ok tt, s') /\ s' = with_scheduled (scheduled_req_ids s ∖ {[id]}) s /\
    sched_ok s' (clear f id).
Proof.
  intros Hs Hf. unfold unschedule. rewrite bind_run. cbn [gets].
  rewrite bool_decide_true by (by apply Hs). eexists. split; [reflexivity|]. split; [done|].
  intros i. cbn. rewrite elem_of_difference, elem_of_singleton, (Hs i). unfold clear.
  destruct (decide (i = id)); [|tauto]. split; [tauto|]. by intros [? ?].
Qed.

(** [accept_generated]: tokens are appended when the request has caught up. *)
Lemma accept_ok s id r0 r i toks lp :
  id ∈ requests s -> live s !! id = Some r0 -> (exists l, good (kv s, live s) l) ->
  EncoderCache.cached (encoder_cache_manager s) = ∅ -> evolves r0 r -> toks <> [] ->
  (logprobs (Request.sampling_params r0) <> None -> lp <> None) ->
  computed_tokens r <= Request.num_tokens r <= max_model_len s ->
  exists b ts nl r' s', accept_generated id i toks lp (put id r s) = (Ok (b, ts, nl), s') /\
    evolves r r' /\
    if b : bool
    then (ts <> [] /\ Request.is_finished r' = true) /\
         exists m l', s' = gone s id r' m /\ good (m, delete id (live s)) l' /\ others id (kv s) m
    else s' = put id r' s /\ Request.status r' = Request.status r /\
         computed_tokens r' = computed_tokens r /\
         computed_tokens r < Request.num_tokens r' <= max_model_len s.
Proof.
  intros Hin Hl Hg He Hev Hne Hlp Hlen. unfold accept_generated.
  rewrite (bind_step _ _ _ _ _ (obj_put _ _ _)).
  destruct (Z.leb_spec (Request.num_tokens r) (computed_tokens r)) as [Hle|Hgt].
  2:{ exists false, [], None, r, (put id r s). split_and!; try done; lia. }
  destruct (append_generated_ok s id r0 toks r [] Hin Hl Hg He Hev Hne) as
    (b & ts & r' & s' & Hrun & Hev' & Hts & Hres).
  rewrite (bind_step _ _ _ _ _ Hrun).
  assert (Hlg : exists nl, forall s : t, (match logprobs (Request.sampling_params r) with
      | None => mret None
      | Some _ =>
          match lp with
          | None => raise AssertionError
          | Some l => mret (Some (logprobs_slice l (Z.of_nat i) (Z.of_nat i + 1)))
          end
      end : M t (option LogprobsLists)) s = (Ok nl, s)).
  { rewrite (ev_params _ _ Hev). destruct (logprobs _) as [?|]; [|by exists None].
    destruct lp as [l|]; [by eexists|]. by destruct Hlp. }
  destruct Hlg as [nl Hlg]. rewrite (bind_step _ _ _ _ _ (Hlg s')).
  exists b, ts, nl, r', s'. split; [done|]. split; [done|]. destruct b; [by destruct Hres|].
  destruct Hres as (H1 & H2 & H3 & H4). split_and!; [done|done|done|lia|lia].
Qed.

Lemma same_params_put s s' id r r' :
  objs s !! id = Some r -> Request.sampling_params r' = Request.sampling_params r ->
  objs s' = <[id := r']> (objs s) -> same_params s s'.
Proof.
  intros Hr Hp Ho i x. rewrite Ho, lookup_insert_Some. intros [[<- <-]|[_ Hx]]; eauto.
Qed.

Lemma cons_mid {A} (l1 l2 : list A) x : x :: l1 ++ l2 ≡ₚ l1 ++ x :: l2.
Proof. apply Permutation_middle. Qed.

(** The state after the loop body has processed request [id], which
    [accept_generated] has changed to [r2] in state [s2]. *)
Definition processed (s2 : t) (id : string) (r2 : Request.t) (ev : list EngineCoreEvent) : t :=
  with_scheduled (scheduled_req_ids s2 ∖ {[id]}) (put id (Request.with_events ev r2) s2).

(** It has stopped. *)
Lemma processed_gone s pre ids f id r r2 m l' ev :
  inv s [] (pre ++ id :: ids) f -> data_ok s -> live s !! id = Some r -> evolves r r2 ->
  good (m, delete id (live s)) l' -> others id (kv s) m ->
  forall s4, s4 = processed (gone s id r2 m) id r2 ev ->
  inv s4 [] (pre ++ ids) (clear f id) /\ data_ok s4 /\ same_env s s4 /\ same_params s s4 /\
  requests s4 = requests s ∖ {[id]}.
Proof.
  intros Hi Hd Hl Hev Hg' Ho s4 E4. pose proof Hl as [Hr Hreq]%live_lookup.
  assert (Ho4 : objs s4 = <[id := Request.with_events ev r2]> (objs s)).
  { rewrite E4. cbn. by rewrite insert_insert_eq. }
  subst s4. set (s4 := processed _ _ _ _) in *.
  split_and!.
  - apply (inv_remove py_hash hash_none s [] (pre ++ id :: ids) f s4 _ _ _ id l'); try done.
    + intros j Hj. by rewrite Ho4, lookup_insert_ne.
    + cbn. rewrite (app_assoc (waiting s)), cons_mid. by rewrite <- app_assoc.
    + intros j Hj. set_unfold. tauto.
    + rewrite !length_app. cbn. lia.
    + intros j Hj. unfold clear. by rewrite decide_False.
    + unfold clear. by rewrite decide_True.
  - intros j x. cbn. rewrite lookup_delete_Some. intros [_ Hx]. by apply Hd.
  - done.
  - apply (same_params_put s s4 id r (Request.with_events ev r2)); [done| |done]. apply Hev.
  - done.
Qed.

(** It goes on: its scheduled tokens are computed. *)
Lemma processed_stays s pre ids f id n r r2 ev :
  inv s [] (pre ++ id :: ids) f -> data_ok s -> live s !! id = Some r -> evolves r r2 ->
  f id = Some n -> Request.status r2 = RUNNING -> computed_tokens r2 = computed_tokens r + n ->
  computed_tokens r2 < Request.num_tokens r2 <= max_model_len s ->
  let s4 := processed (put id r2 s) id r2 ev in
  inv s4 [] (pre ++ [id] ++ ids) (clear f id) /\ data_ok s4 /\ same_env s s4 /\
  same_params s s4 /\ requests s4 = requests s.
Proof.
  intros Hi Hd Hl Hev Ef Hst Hc Hnt s4. pose proof Hl as [Hr Hreq]%live_lookup.
  set (r3 := Request.with_events ev r2). assert (Hev3 : evolves r r3) by (transitivity r2; done).
  assert (Ho4 : objs s4 = <[id := r3]> (objs s)).
  { unfold s4. cbn. by rewrite insert_insert_eq. }
  destruct (iv_flight _ _ _ _ _ _ Hi id n Ef) as [Hpos Hrin].
  destruct (iv_running _ _ _ _ _ _ Hi id r Hrin Hl) as [_ H0 _ _ (k & Hk & Hkb)].
  unfold in_flight in Hkb. rewrite Ef in Hkb. cbn in Hkb. unfold Datatypes.id in Hkb.
  split_and!; [|done|done| |done].
  - destruct (iv_good _ _ _ _ _ _ Hi) as (l & Hg).
    apply (inv_change py_hash hash_none s [] (pre ++ id :: ids) f s4 _ _ _ id r3 l); try done.
    + by apply (good_evolve _ _ _ _ _ _ r).
    + apply Hi.
    + intros j Hj. unfold clear. by rewrite decide_False.
    + intros n'. unfold clear. by rewrite decide_True.
    + apply (evolves_plain _ r); [done| |by apply (iv_plain _ _ _ _ _ _ Hi id)].
      change (Request.num_tokens r3) with (Request.num_tokens r2). lia.
    + rewrite decide_True by done. unfold in_flight, clear. rewrite decide_True by done.
      cbn [default from_option].
      change (Request.num_tokens r3) with (Request.num_tokens r2).
      split; [exact Hst| | | |]; change (computed_tokens r3) with (computed_tokens r2);
        change (Request.num_tokens r3) with (Request.num_tokens r2); try lia.
      exists k. rewrite (ev_id _ _ Hev3). split; [done|]. cbn. lia.
  - apply (same_params_put s s4 id r r3); [done| |done]. apply Hev.
Qed.

(** The requests that the outputs say are finished. *)
Definition finished_ids (outs : list EngineCoreOutput) : gset string :=
  list_to_set (core_request_id <$> filter (fun o => finished o = true) outs).

Lemma finished_ids_app l l' : finished_ids (l ++ l') = finished_ids l ∪ finished_ids l'.
Proof. unfold finished_ids. by rewrite filter_app, fmap_app, list_to_set_app_L. Qed.

(** What is emitted for a request. *)
Lemma finished_ids_emitted (c : bool) id ts nl lp r sr evs :
  finished_ids (if c then [CoreOutput id ts nl lp (Request.get_finished_reason r) sr evs] else []) =
  if c && Request.is_finished r then {[id]} else ∅.
Proof.
  destruct c; [|done]. cbn [andb]. rewrite Request.finished_has_reason. unfold finished_ids.
  destruct (Request.get_finished_reason r); cbn; [|done]. set_solver.
Qed.

(** The loop body of [update_from_output] for request [id]; [pre] are the
    requests that stay, [ids] those still to come. *)
Lemma update_request_ok s out mro id pre ids f :
  inv s [] (pre ++ id :: ids) f -> sched_ok s f -> data_ok s ->
  scheduled_spec_decode_tokens out = ∅ -> answers s out mro ->
  num_scheduled_tokens out !! id = f id ->
  exists outs (b : bool) s', update_request out mro id s = (Ok (outs, b), s') /\
    inv s' [] (pre ++ (if b then [id] else []) ++ ids) (clear f id) /\
    sched_ok s' (clear f id) /\ data_ok s' /\ same_env s s' /\ same_params s s' /\
    requests s' = requests s ∖ finished_ids outs /\
    Forall (fun o => core_request_id o = id) outs.
Proof.
  intros Hi Hs Hd Hspec Han Hn. unfold update_request. rewrite Hn.
  destruct (f id) as [n|] eqn:Ef.
  2:{ exists [], true, s. cbn [default from_option]. rewrite (proj2 (Z.eqb_eq _ _)) by done.
      assert (Hc : forall i, f i = clear f id i).
      { intros i. unfold clear. case_decide; by subst. }
      split_and!; try done.
      - by apply (inv_flight_ext _ _ _ _ _ f).
      - intros i. rewrite <- Hc. apply Hs.
      - intros i r Hr. eauto.
      - symmetry. apply difference_empty_L. }
  destruct (iv_flight _ _ _ _ _ _ Hi id n Ef) as [Hpos Hrin]. cbn [default from_option].
  unfold Datatypes.id. rewrite (proj2 (Z.eqb_neq n 0)) by lia.
  destruct (inv_live _ _ _ _ _ _ id Hi) as (r & Hl & Hr & Hid & Htext & Hpl);
    [set_unfold; tauto|].
  destruct (an_tokens _ _ _ Han id n Hn) as (i & toks & Hix & Htok & Hne & Hlp).
  rewrite bind_run, Hix. cbn [lift from_option_exn].
  rewrite bind_run, Htok. cbn [lift from_option_exn].
  rewrite Hspec, dict_lookup_empty.
  pose proof (iv_running _ _ _ _ _ _ Hi id r Hrin Hl) as [Hst H0 Hown _ (k & Hk & Hkb)].
  unfold in_flight in Hown, Hkb. rewrite Ef in Hown, Hkb. cbn in Hown, Hkb.
  unfold Datatypes.id in Hown, Hkb.
  pose proof (iv_config _ _ _ _ _ _ Hi) as Hcf. pose proof (cf_encoder _ Hcf) as He.
  set (r1 := Request.with_computed (computed_tokens r + n) r).
  assert (Hadv : advance id n None toks s = (Ok tt, put id r1 s)).
  { rewrite <- (put_id id r s Hr) at 1. by apply advance_ok. }
  rewrite (bind_step _ _ _ _ _ Hadv).
  rewrite (bind_step _ _ _ _ _ (free_processed_ok id r1 s He)).
  rewrite (an_spec _ _ _ Han). rewrite bind_run. cbn [mret M_ret].
  assert (Hreq : id ∈ requests s) by (by apply live_lookup in Hl as [_ ?]).
  destruct (accept_ok s id r r1 i toks (logprobs_of_step mro) Hreq Hl
    (iv_good _ _ _ _ _ _ Hi) He) as (b & ts & nl & r2 & s2 & Hacc & Hev & Hres); try done.
  { by apply Hlp. }
  { pose proof (pl_len _ _ Hpl). cbn. change (Request.num_tokens r1) with (Request.num_tokens r). lia. }
  rewrite (bind_step _ _ _ _ _ Hacc). cbn [fst snd].
  assert (Ho2 : objs s2 = <[id := r2]> (objs s)).
  { destruct b; [destruct Hres as (_ & m & l' & -> & _)|destruct Hres as (-> & _)]; done. }
  assert (Hev' : evolves r r2) by (transitivity r1; done).
  set (lp := mjoin (prompt_logprobs_dict mro !! id)).
  destruct (emit_ok id r2 s2 (bool_decide (ts <> []) || bool_decide (lp <> None))
    (fun request evs => CoreOutput id ts nl lp (Request.get_finished_reason request)
       (Request.stop_reason request) evs)) as (evs & ev & Hemit).
  { by rewrite Ho2, lookup_insert_eq. }
  match type of Hemit with _ = (Ok ?o, _) => set (outs := o) in Hemit end.
  rewrite (bind_step _ _ _ _ _ Hemit). set (s3 := put id (Request.with_events ev r2) s2).
  assert (Hs3 : sched_ok s3 f).
  { destruct b; [destruct Hres as (_ & m & l' & -> & _)|destruct Hres as (-> & _)]; exact Hs. }
  destruct (unschedule_ok id s3 f Hs3 ltac:(eauto)) as (s4 & Hun & Hs4 & Hsc4).
  rewrite (bind_step _ _ _ _ _ Hun). exists outs, (negb b), s4. split; [done|].
  assert (Hfin : inv s4 [] (pre ++ (if negb b then [id] else []) ++ ids) (clear f id) /\
    data_ok s4 /\ same_env s s4 /\ same_params s s4 /\ requests s4 = requests s ∖ finished_ids outs).
  { assert (E4 : s4 = processed s2 id r2 ev) by exact Hs4.
    clear Hs4 Hun Hsc4 Hs3 Hemit. destruct b; cbn [negb app].
    - destruct Hres as ([Hts Hfin] & m & l' & E2 & Hg' & Ho). rewrite E2 in E4.
      unfold outs. rewrite finished_ids_emitted, (bool_decide_true _ Hts), Hfin. cbn [orb andb].
      exact (processed_gone s pre ids f id r r2 m l' ev Hi Hd Hl Hev' Hg' Ho s4 E4).
    - destruct Hres as (E2 & Hst2 & Hc2 & Hnt2). rewrite E2 in E4. rewrite E4.
      assert (Hnf : Request.is_finished r2 = false) by (unfold Request.is_finished; by rewrite (eq_trans Hst2 Hst)).
      unfold outs. rewrite finished_ids_emitted, Hnf, andb_false_r, difference_empty_L.
      apply (processed_stays s pre ids f id n r r2); try done; [by rewrite Hst2|].
      by rewrite Hc2. }
  destruct Hfin as (H1 & H2 & H3 & H4 & H5). split_and!; try done.
  unfold outs. destruct (_ || _); by repeat constructor.
Qed.

(** ** The whole of [update_from_output] *)

Lemma update_loop_ok out mro ids pre s f :
  inv s [] (pre ++ ids) f -> sched_ok s f -> data_ok s ->
  scheduled_spec_decode_tokens out = ∅ -> answers s out mro ->
  (forall i, i ∈ ids -> num_scheduled_tokens out !! i = f i) ->
  exists outs rest s' f', update_loop out mro ids s = (Ok (outs, rest), s') /\
    inv s' [] (pre ++ rest) f' /\ sched_ok s' f' /\ data_ok s' /\ same_env s s' /\
    requests s' = requests s ∖ finished_ids outs /\
    Forall (fun o => core_request_id o ∈ ids) outs /\ rest `sublist_of` ids /\
    (forall i, i ∈ ids -> f' i = None) /\ (forall i, i ∉ ids -> f' i = f i).
Proof.
  revert pre s f. induction ids as [|id ids IH]; intros pre s f Hi Hs Hd Hspec Han Hn;
    cbn [update_loop].
  { exists [], [], s, f. split_and!; try done; [|by intros i ?%not_elem_of_nil].
    symmetry. apply difference_empty_L. }
  destruct (update_request_ok s out mro id pre ids f Hi Hs Hd Hspec Han (Hn id ltac:(left)))
    as (outs & b & s1 & Hu & Hi1 & Hs1 & Hd1 & He1 & Hp1 & Hr1 & Ho1).
  rewrite (bind_step _ _ _ _ _ Hu). cbn [fst snd].
  assert (Hnot : id ∉ ids).
  { pose proof (iv_nodup _ _ _ _ _ _ Hi) as Hnd. cbn in Hnd. rewrite app_assoc in Hnd.
    apply NoDup_app in Hnd as (_ & _ & [? _]%NoDup_cons). done. }
  rewrite app_assoc in Hi1.
  destruct (IH _ s1 (clear f id) Hi1 Hs1 Hd1 Hspec (answers_same _ _ _ _ Hp1 Han)) as
    (outs' & rest & s2 & f' & Hl & Hi2 & Hs2 & Hd2 & He2 & Hr2 & Ho2 & Hsub & Hin & Hout).
  { intros i Hii. unfold clear. rewrite decide_False by (by intros ->). apply Hn. by right. }
  rewrite (bind_step _ _ _ _ _ Hl). cbn [fst snd]. rewrite <- app_assoc in Hi2.
  exists (outs ++ outs'), (if b then id :: rest else rest), s2, f'.
  split; [by destruct b|]. split; [by destruct b|]. split_and!; try done.
  - by transitivity s1.
  - by rewrite finished_ids_app, Hr2, Hr1, difference_difference_l_L.
  - apply Forall_app. split.
    + eapply Forall_impl; [exact Ho1|]. cbn. intros o ->. by left.
    + eapply Forall_impl; [exact Ho2|]. cbn. intros o Ho. by right.
  - destruct b; [by constructor|by constructor].
  - intros i [->|Hii]%elem_of_cons; [|by apply Hin].
    rewrite (Hout id Hnot). unfold clear. by rewrite decide_True.
  - intros i [Hne Hii]%not_elem_of_cons. rewrite (Hout i Hii). unfold clear.
    by rewrite decide_False.
Qed.

(** The manager changes what no request's invariant mentions. *)
Lemma inv_manager s m q run f :
  inv s q run f -> (forall l, good (kv s, live s) l -> good (m, live s) l) ->
  same_setup (kv s) m -> KVCacheManager.num_cached_block m = KVCacheManager.num_cached_block (kv s) ->
  inv (with_kv m s) q run f.
Proof.
  intros [H1 [l Hg] H3 H4 H5 H6 H7 H8 H9 H10] Hm Hs Hn. split; try done.
  - by apply (config_same s).
  - exists l. by apply Hm.
  - intros id r Hin Hr. destruct (H8 id r Hin Hr) as [A B C D (k & E & F)]. split; try done.
    exists k. cbn. by rewrite Hn, (ss_size _ _ Hs).
  - intros id r Hin Hr. destruct (H9 id r Hin Hr) as [A B C]. split; try done.
    cbn. by rewrite Hn.
Qed.

Lemma make_stats_ok s q run f :
  inv s q run f -> exists st m, make_stats s = (Ok st, with_kv m s) /\ inv (with_kv m s) q run f.
Proof.
  intros Hi. unfold make_stats. rewrite bind_run. cbn [gets].
  assert (E : with_kv (kv s) s = s) by by destruct s.
  destruct (log_stats s); cbn [negb].
  2:{ exists None, (kv s). by rewrite E. }
  rewrite bind_run. cbn [get]. rewrite bind_run.
  unfold KVCacheManager.usage, V1BlockPool.get_usage.
  rewrite (proj2 (Z.eqb_neq _ 0)); cbn [lift].
  2:{ pose proof (cf_blocks _ (iv_config _ _ _ _ _ _ Hi)). lia. }
  rewrite (bind_step _ _ _ (KVCacheManager.prefix_cache_stats (kv s))
    (with_kv (KVCacheManager.with_stats PrefixCacheStats.init (kv s)) s)) by done.
  eexists _, _. split; [reflexivity|]. apply inv_manager; try done.
  intros l Hg. apply (good_same py_hash hash_none (kv s)); try done.
  apply (wf_same (kv s)); try done. apply (gd_wf _ _ _ _ Hg).
Qed.

Lemma update_from_output_ok s out mro :
  inv s [] (running s) (fun i => num_scheduled_tokens out !! i) ->
  sched_ok s (fun i => num_scheduled_tokens out !! i) -> data_ok s ->
  scheduled_spec_decode_tokens out = ∅ -> answers s out mro ->
  exists outs st s', update_from_output out mro s = (Ok (outs, st), s') /\
    inv s' [] (running s') idle /\ sched_ok s' idle /\ data_ok s' /\ same_env s s' /\
    requests s' = requests s ∖ finished_ids outs /\
    Forall (fun o => core_request_id o ∈ running s) outs /\ running s' `sublist_of` running s.
Proof.
  intros Hi Hs Hd Hspec Han. unfold update_from_output. rewrite bind_run. cbn [gets].
  destruct (update_loop_ok out mro (running s) [] s _ Hi Hs Hd Hspec Han (fun i _ => eq_refl))
    as (outs & rest & s1 & f' & Hl & Hi1 & Hs1 & Hd1 & He1 & Hr1 & Ho1 & Hsub & Hin & Hout).
  rewrite (bind_step _ _ _ _ _ Hl). cbn [fst snd app] in *. rewrite bind_run. cbn [modify].
  assert (Hidle : forall i, f' i = idle i).
  { intros i. destruct (decide (i ∈ running s)) as [Hr|Hr]; [by apply Hin|].
    rewrite Hout by done. unfold idle. destruct (num_scheduled_tokens out !! i) eqn:E; [|done].
    by destruct (iv_flight _ _ _ _ _ _ Hi i _ E). }
  set (s2 := with_running rest s1).
  assert (Hi2 : inv s2 [] rest idle).
  { apply (inv_flight_ext _ _ _ _ _ f'); [done|]. by apply (inv_state _ _ s1). }
  destruct (make_stats_ok s2 [] rest idle Hi2) as (st & m & Hst & Hi3).
  rewrite (bind_step _ _ _ _ _ Hst). eexists outs, st, _. split; [reflexivity|].
  split_and!; try done; [intros i; rewrite <- Hidle; apply Hs1|].
  transitivity s1; [done|by split].
Qed.

(** ** Arrivals *)

(** A request as [EngineCore.add_request] makes it. *)
Record fresh (len : Z) (r : Request.t) : Prop := Fresh {
  fr_plain : plain len r;
  fr_text : BlockHashing.text r;
  fr_status : Request.status r = WAITING \/ Request.status r = WAITING_FOR_FSM;
  fr_computed : computed_tokens r = 0;
}.

Lemma add_request_ok s r now :
  inv s [] (running s) idle -> sched_ok s idle -> data_ok s ->
  fresh (max_model_len s) r -> Request.request_id r ∉ requests s ->
  exists s', add_request r now s = (Ok tt, s') /\
    inv s' [] (running s') idle /\ sched_ok s' idle /\ data_ok s' /\ same_env s s' /\
    requests s' = {[Request.request_id r]} ∪ requests s.
Proof.
  intros Hi Hs Hd [Hpl Htext Hst Hc] Hnew. unfold add_request. cbv zeta.
  set (id := Request.request_id r) in *.
  rewrite bind_run. cbn [modify]. rewrite bind_run. cbn [modify].
  rewrite bind_run. cbn [modify]. set (s1 := with_requests _ _).
  assert (Hr1 : objs s1 !! id = Some r) by apply lookup_insert_eq.
  unfold request_queued. rewrite (log_event_run id r s1 _ _ Hr1).
  set (r1 := logged s1 QUEUED now r). assert (Hev : evolves r r1) by apply evolves_logged.
  exists (put id r1 s1). split; [done|].
  assert (Hnt : Request.num_tokens r1 = Request.num_tokens r)
    by (unfold r1, logged; by destruct (log_stats s1)).
  assert (Hl : live (put id r1 s1) = <[id := r1]> (live s)).
  { apply (live_add s); [|done]. cbn. by rewrite insert_insert_eq. }
  assert (Hdead : live s !! id = None).
  { destruct (live s !! id) as [x|] eqn:E; [|done]. by apply live_lookup in E as [_ ?]. }
  destruct (iv_good _ _ _ _ _ _ Hi) as [l Hg].
  assert (Hid1 : Request.request_id r1 = id) by apply (ev_id _ _ Hev).
  assert (Hnotin : id ∉ waiting s ++ running s) by (by rewrite <- (iv_requests _ _ _ _ _ _ Hi id)).
  assert (Hold : forall i x, <[id := r1]> (live s) !! i = Some x ->
    i = id /\ x = r1 \/ i <> id /\ live s !! i = Some x).
  { intros i x. rewrite lookup_insert_Some. intros [[<- <-]|[? ?]]; [by left|right; split; congruence]. }
  split_and!; try done. destruct Hi as [H1 _ H3 H4 H5 H6 H7 H8 H9 H10]. cbn in H3, H4, H9.
  split; cbn [app]; rewrite ?Hl; try done.
  - by apply (config_same s).
  - exists l. change (kv (put id r1 s1)) with (kv s). rewrite <- Hid1.
    apply good_arrive; [done|by rewrite Hid1|].
    unfold BlockHashing.text. by rewrite (ev_mm _ _ Hev).
  - change (NoDup ((waiting s ++ [id]) ++ running s)). rewrite <- app_assoc. cbn.
    rewrite <- Permutation_middle. by apply NoDup_cons.
  - intros i. change (i ∈ {[id]} ∪ requests s <-> i ∈ (waiting s ++ [id]) ++ running s).
    rewrite elem_of_union, elem_of_singleton, H4, !elem_of_app, list_elem_of_singleton. tauto.
  - intros i. change (i ∈ {[id]} ∪ requests s -> is_Some (<[id := r1]> (<[id := r]> (objs s)) !! i)).
    rewrite elem_of_union, elem_of_singleton. destruct (decide (id = i)) as [->|Hne].
    + intros _. rewrite lookup_insert_eq. eauto.
    + rewrite !lookup_insert_ne by done. intros [?|?]; [congruence|by apply H5].
  - intros i x [[-> ->]|[Hne Hx]]%Hold; [|by apply (H7 i)].
    apply (evolves_plain _ r); [done|rewrite Hnt; apply Hpl|done].
  - intros i x Hin [[-> ->]|[Hne Hx]]%Hold; [|by apply (H8 i)].
    destruct Hnotin. apply elem_of_app. by right.
  - intros i x Hin [[-> ->]|[Hne Hx]]%Hold.
    + split.
      * unfold r1, logged. destruct (log_stats s1); cbn; tauto.
      * unfold r1, logged. by destruct (log_stats s1).
      * rewrite Hid1. by apply (uk_cached _ _ (gd_dead _ _ _ _ Hg id Hdead)).
    + apply (H9 i); [|done]. change (i ∈ waiting s ++ [id]) in Hin.
      apply elem_of_app in Hin as [?|?%list_elem_of_singleton]; done.
Qed.

(** ** Requests finished from outside *)

Lemma remove_first_ok l x : x ∈ l -> exists l', remove_first l x = Ok l' /\ l ≡ₚ x :: l'.
Proof.
  induction l as [|y l IH]; [by intros ?%not_elem_of_nil|]. cbn [remove_first].
  destruct (decide (y = x)) as [->|Hne]; [by exists l|].
  intros [?|Hin]%elem_of_cons; [congruence|]. destruct (IH Hin) as (l' & -> & Hp).
  exists (y :: l'). split; [done|]. rewrite Hp. apply perm_swap.
Qed.

Lemma perm_elem (l l' : list string) x i : l ≡ₚ x :: l' -> i <> x -> i ∈ l' <-> i ∈ l.
Proof. intros -> Hne. rewrite elem_of_cons. tauto. Qed.

(** The request is taken out of its queue. *)
Lemma dequeue_ok s id r :
  inv s [] (running s) idle -> sched_ok s idle -> id ∈ waiting s ++ running s ->
  live s !! id = Some r ->
  exists s1, (if bool_decide (Request.status r = RUNNING) then
       run ← gets running;
       run ← lift (remove_first run id);
       modify (with_running run) ;;
       modify (fun s => with_scheduled (scheduled_req_ids s ∖ {[id]}) s)
     else
       w ← gets waiting;
       w ← lift (remove_first w id);
       modify (with_waiting w)) s = (Ok tt, s1) /\
     kv s1 = kv s /\ objs s1 = objs s /\ requests s1 = requests s /\ same_env s s1 /\
     cached_reqs_data s1 = cached_reqs_data s /\
     waiting s ++ running s ≡ₚ id :: waiting s1 ++ running s1 /\
     (forall i, i <> id -> i ∈ running s1 <-> i ∈ running s) /\
     (length (running s1) <= length (running s))%nat /\ sched_ok s1 idle.
Proof.
  intros Hi Hs Hin Hl. case_bool_decide as Hst.
  - assert (Hrun : id ∈ running s).
    { apply elem_of_app in Hin as [Hw|?]; [|done].
      destruct (iv_waiting _ _ _ _ _ _ Hi id r ltac:(done) Hl) as [[E|[E|E]] _ _]; congruence. }
    destruct (remove_first_ok _ _ Hrun) as (run & E & Hp).
    rewrite bind_run. cbn [gets]. rewrite bind_run, E. cbn [lift].
    rewrite bind_run. cbn [modify]. eexists. split; [reflexivity|]. split_and!; try done.
    + cbn. rewrite Hp. symmetry. apply Permutation_middle.
    + intros i Hne. by apply (perm_elem _ _ id).
    + cbn. rewrite Hp. cbn. lia.
    + intros i. cbn. rewrite elem_of_difference, (Hs i). unfold idle.
      split; [tauto|by intros [? ?]].
  - assert (Hw : id ∈ waiting s).
    { apply elem_of_app in Hin as [?|Hrun]; [done|].
      by destruct (iv_running _ _ _ _ _ _ Hi id r Hrun Hl). }
    destruct (remove_first_ok _ _ Hw) as (w & E & Hp).
    rewrite bind_run. cbn [gets]. rewrite bind_run, E. cbn [lift].
    eexists. split; [reflexivity|]. split_and!; try done. cbn. by rewrite Hp.
Qed.

Lemma finish_one_ok st id s :
  inv s [] (running s) idle -> sched_ok s idle -> data_ok s -> status_is_finished st = true ->
  exists s', finish_one st id s = (Ok tt, s') /\
    inv s' [] (running s') idle /\ sched_ok s' idle /\ data_ok s' /\ same_env s s' /\
    requests s' = requests s ∖ {[id]}.
Proof.
  intros Hi Hs Hd Hfin. unfold finish_one. rewrite bind_run. cbn [gets].
  case_bool_decide as Hreq; cbn [negb].
  2:{ exists s. split_and!; try done. apply set_eq. intros x.
      rewrite elem_of_difference, elem_of_singleton. split; [|tauto]. intros Hx.
      split; [done|]. by intros ->. }
  pose proof Hreq as Hin. rewrite (iv_requests _ _ _ _ _ _ Hi) in Hin. cbn in Hin.
  destruct (inv_live _ _ _ _ _ _ id Hi Hin) as (r & Hl & Hr & Hid & Htext & Hpl).
  rewrite (bind_step _ _ _ _ _ (object_run id r s Hr)).
  destruct (iv_good _ _ _ _ _ _ Hi) as [l Hg].
  set (r1 := Request.with_status st r).
  destruct (dequeue_ok s id r Hi Hs Hin Hl) as (s1 & Hrun & Hk1 & Ho1 & Hr1 & He1 & Hc1 & Hp1 & Hru1 & Hlen1 & Hs1).
  rewrite (bind_step _ _ _ _ _ Hrun).
  assert (Hobj1 : objs s1 !! id = Some r) by by rewrite Ho1.
  rewrite (bind_step _ _ _ _ _ (set_obj_run id r s1 _ Hobj1)).
  assert (Hl1 : live s1 = live s) by by apply live_same.
  pose proof (cf_encoder _ (iv_config _ _ _ _ _ _ Hi)) as Henc.
  destruct (request_freed s1 id r1 l) as (m & l' & Hf & Hg' & Ho); try done.
  { by rewrite Hr1. }
  { by rewrite (se_encoder _ _ He1). }
  { rewrite Hk1, Hl1. by apply (good_evolve _ _ _ _ _ _ r). }
  eexists. split; [exact Hf|]. rewrite Hl1 in Hg'. rewrite Hk1 in Ho.
  split_and!.
  - apply (inv_remove py_hash hash_none s [] (running s) idle _ _ _ _ id l'); try done.
    + transitivity s1; [done|by split].
    + cbn. by rewrite Hr1.
    + intros i Hne. cbn. by rewrite lookup_insert_ne, Ho1 by congruence.
  - exact Hs1.
  - intros i x. cbn. rewrite lookup_delete_Some, Hc1. intros [_ Hx]. by apply Hd.
  - transitivity s1; [done|by split].
  - cbn. by rewrite Hr1.
Qed.

Lemma finish_requests_ok ids st s :
  inv s [] (running s) idle -> sched_ok s idle -> data_ok s -> status_is_finished st = true ->
  exists s', finish_requests ids st s = (Ok tt, s') /\
    inv s' [] (running s') idle /\ sched_ok s' idle /\ data_ok s' /\ same_env s s' /\
    requests s' = requests s ∖ list_to_set ids.
Proof.
  intros Hi Hs Hd Hfin. unfold finish_requests. rewrite bind_run, Hfin. cbn [assert_ mret M_ret].
  revert s Hi Hs Hd. induction ids as [|id ids IH]; intros s Hi Hs Hd; cbn [for_each].
  { exists s. split_and!; try done. apply set_eq. intros x. cbn.
    rewrite elem_of_difference, elem_of_empty. tauto. }
  destruct (finish_one_ok st id s Hi Hs Hd Hfin) as (s1 & Hf & Hi1 & Hs1 & Hd1 & He1 & Hr1).
  rewrite (bind_step _ _ _ _ _ Hf).
  destruct (IH s1 Hi1 Hs1 Hd1) as (s2 & Hf2 & Hi2 & Hs2 & Hd2 & He2 & Hr2).
  exists s2. split_and!; try done; [by transitivity s1|].
  rewrite Hr2, Hr1. apply set_eq. intros x. cbn.
  rewrite !elem_of_difference, elem_of_union. tauto.
Qed.

(** ** The rest *)

Lemma scheduler_reset_ok s :
  inv s [] (running s) idle ->
  exists ok m, reset_prefix_cache s = (Ok ok, with_kv m s) /\ inv (with_kv m s) [] (running s) idle.
Proof.
  intros Hi. destruct (iv_good _ _ _ _ _ _ Hi) as [l Hg].
  destruct (reset_good py_hash hash_none (kv s) (live s) l Hg) as (ok & m & Hr & Hg' & Hss & Hn & Ht).
  exists ok, m. split; [unfold reset_prefix_cache, on_kv; by rewrite Hr|].
  apply inv_manager; try done. intros l0 Hg0.
  destruct (reset_good py_hash hash_none (kv s) (live s) l0 Hg0) as (ok' & m' & Hr' & Hg'' & _).
  rewrite Hr in Hr'. injection Hr' as _ <-. done.
Qed.

(** A grammar has been compiled. *)
Definition grammar_compiled (r : Request.t) : Request.t :=
  Request.Request (Request.request_id r) (Request.sampling_params r) (Request.eos_token_id r)
    (Request.lora_request r) true (Request.status r) (Request.events r) (Request.stop_reason r)
    (Request.max_tokens r) (Request.prompt_token_ids r) (Request.num_prompt_tokens r)
    (Request.output_token_ids r) (Request.all_token_ids r) (Request.spec_token_ids r)
    (Request.num_computed_tokens r) (Request.mm_positions r) (Request.mm_inputs r)
    (Request.mm_hashes r).

Lemma grammar_ok s id r :
  inv s [] (running s) idle -> objs s !! id = Some r ->
  inv (put id (grammar_compiled r) s) [] (running s) idle.
Proof.
  intros Hi Hr. destruct (decide (id ∈ requests s)) as [Hin|Hnot].
  - assert (Hl : live s !! id = Some r) by by apply live_lookup.
    destruct (iv_good _ _ _ _ _ _ Hi) as [l Hg].
    apply (inv_change py_hash hash_none s [] (running s) idle _ _ _ _ id (grammar_compiled r) l);
      try done.
    + by apply (good_evolve _ _ _ _ _ _ r).
    + apply Hi.
    + apply (evolves_plain _ r); [done|apply (iv_plain _ _ _ _ _ _ Hi id r Hl)|
        apply (iv_plain _ _ _ _ _ _ Hi id r Hl)].
    + case_decide as Hrun.
      * destruct (iv_running _ _ _ _ _ _ Hi id r Hrun Hl) as [A B C D E]. by split.
      * rewrite (iv_requests _ _ _ _ _ _ Hi) in Hin. cbn in Hin.
        apply elem_of_app in Hin as [Hw|?]; [|done].
        destruct (iv_waiting _ _ _ _ _ _ Hi id r Hw Hl) as [A B C]. by split.
  - destruct Hi as [H1 H2 H3 H4 H5 H6 H7 H8 H9 H10].
    pose proof (live_dead s id (grammar_compiled r) Hnot) as Hl.
    split; rewrite ?Hl; try done; [by apply (config_same s)|].
    intros i Hi'. cbn. rewrite lookup_insert_ne by (by intros ->). by apply H5.
Qed.
End Update.
