(* ===== verification/EngineCoreCorrect.v ===== *)
(** * v1: the engine core runs text requests without failing

    [call] is the life of an engine core that runs one batch at a time, with
    prefix caching: requests are added and aborted, steps are run, grammars get
    compiled, the prefix cache is reset.  Requests are text-only and without
    speculated tokens, and LoRA is not configured ([V1SchedulerInv.inv] says what
    then holds of the state); the executor's answers are as [answers] says.

    No call raises ([engine_calls_answer]): none of the assertions, dictionary
    lookups and list removals along the way can fail, and the loops end within
    their bounds.  The state stays consistent ([queues_consistent]), a step stays
    within its budgets ([step_within_budget]) and makes progress
    ([step_makes_progress]). *)
From S2P Require Import Prelude.
From S2P Require Import PyDict.
From S2P Require Import FreeQueue.
From S2P Require Import V1Request.
From S2P Require Import BlockHashing.
From S2P Require Import V1BlockPool.
From S2P Require Import V1PoolCorrect.
From S2P Require Import KVCacheManager.
From S2P Require Import KVManagerCorrect.
From S2P Require Import KVManagerChain.
From S2P Require Import KVManagerProtocol.
From S2P Require Import EncoderCache.
From S2P Require Import V1Scheduler.
From S2P Require Import EngineCore.
From S2P Require Import V1SchedulerInv.
From S2P Require Import V1SchedulerSchedule.
From S2P Require Import V1SchedulerUpdate.
Import V1Scheduler EngineCore.

Section Engine.
Context (py_hash : Z * list Z * option (list extra_key) -> Z) (hash_none : Z).
Context (execute_model : SchedulerOutput -> ModelRunnerOutput).

Abbreviation inv := (V1SchedulerInv.inv py_hash hash_none).
Abbreviation schedule := (V1Scheduler.schedule py_hash hash_none).
Abbreviation step := (EngineCore.step py_hash hash_none execute_model).

(** The executor answers for the batch that [schedule] makes of [s]. *)
Definition executes (now : Q) (s : V1Scheduler.t) : Prop :=
  forall out s', schedule now s = (Ok out, s') -> answers s' out (execute_model out).

Inductive call : EngineCore.t -> EngineCore.t -> Prop :=
  | call_add c r now res c' :
      fresh (max_model_len (scheduler c)) r -> Request.request_id r ∉ requests (scheduler c) ->
      EngineCore.add_request r now c = (res, c') -> call c c'
  | call_abort c ids res c' : abort_requests ids c = (res, c') -> call c c'
  | call_step c now res c' :
      executes now (scheduler c) -> step now c = (res, c') -> call c c'
  | call_reset c res c' : EngineCore.reset_prefix_cache c = (res, c') -> call c c'
  | call_grammar c id r :
      objs (scheduler c) !! id = Some r ->
      call c (with_scheduler (put id (grammar_compiled r) (scheduler c)) c).

Definition reached (c : EngineCore.t) : Prop :=
  exists log_stats max_num_seqs max_tokens max_len block_size n encoder_budget s0,
    0 <= max_num_seqs /\ 0 <= max_tokens /\ 0 < block_size /\
    V1Scheduler.init log_stats None max_num_seqs max_tokens max_len block_size n true
      encoder_budget = Ok s0 /\
    rtc call (Core s0 [] 1) c.

(** Between the calls. *)
Record rest (s : V1Scheduler.t) : Prop := Rest {
  rs_inv : inv s [] (running s) idle;
  rs_sched : sched_ok s idle;
  rs_data : data_ok s;
}.

Lemma init_rest log_stats max_seqs max_tokens max_len bs n budget s :
  0 <= max_seqs -> 0 <= max_tokens -> 0 < bs ->
  V1Scheduler.init log_stats None max_seqs max_tokens max_len bs n true budget = Ok s -> rest s.
Proof.
  intros Hse Hto Hbs. unfold V1Scheduler.init. case_bool_decide as Hn; [done|].
  destruct (manager_init_wf bs n max_len true 64 Hbs ltac:(lia)) as (m & Hm & Hw).
  rewrite Hm. cbn. intros [= <-].
  assert (Hl : forall s, objs s = ∅ -> requests s = ∅ -> live s = ∅).
  { intros s Ho _. unfold live. rewrite Ho. apply map_filter_empty. }
  assert (Hg : KVManagerProtocol.good py_hash hash_none (m, ∅) (seqZ 0 (Z.of_nat n)) /\
    KVCacheManager.max_model_len m = max_len /\
    V1BlockPool.num_gpu_blocks (KVCacheManager.block_pool m) = Z.of_nat n).
  { unfold KVCacheManager.init in Hm. rewrite (proj2 (Z.eqb_neq _ _)) in Hm by lia.
    destruct (pool_init_ok n true ltac:(lia)) as (p & Hp & _ & Hnum & _).
    rewrite Hp in Hm. injection Hm as <-. split_and!; [|done|done].
    split; cbn [fst snd]; try done. split; cbn; [by apply cdiv_nonneg|done]. }
  destruct Hg as (Hg & Hlen & Hnum). split.
  - split.
    + split; try done; cbn; lia.
    + exists (seqZ 0 (Z.of_nat n)). rewrite Hl by done. exact Hg.
    + apply NoDup_nil_2.
    + intros id. split; [by intros ?%not_elem_of_empty|by intros ?%not_elem_of_nil].
    + by intros id ?%not_elem_of_empty.
    + cbn. lia.
    + intros id r. rewrite Hl by done. by rewrite lookup_empty.
    + by intros id r ?%not_elem_of_nil.
    + by intros id r ?%not_elem_of_nil.
    + done.
  - intros i. split; [by intros ?%not_elem_of_empty|by intros [? ?]].
  - intros i d H. cbn in H. by apply lookup_empty_Some in H.
Qed.

(** ** [step] *)

Lemma on_scheduler_run {A} (f : M V1Scheduler.t A) c a s' :
  f (scheduler c) = (Ok a, s') -> on_scheduler f c = (Ok a, with_scheduler s' c).
Proof. intros H. unfold on_scheduler. by rewrite H. Qed.

Lemma with_scheduler_twice s s' c : with_scheduler s' (with_scheduler s c) = with_scheduler s' c.
Proof. done. Qed.

Lemma no_outputs_ok c :
  rest (scheduler c) ->
  exists o c', no_outputs c = (Ok o, c') /\ rest (scheduler c') /\ o.1 = [] /\
    requests (scheduler c') = requests (scheduler c) /\ same_env (scheduler c) (scheduler c').
Proof.
  intros [Hi Hs Hd]. unfold no_outputs.
  destruct (make_stats_ok py_hash hash_none _ _ _ _ Hi) as (st & m & Hst & Hi').
  rewrite (bind_step _ _ _ _ _ (on_scheduler_run _ _ _ _ Hst)).
  eexists _, _. split; [reflexivity|]. by split_and!.
Qed.

Lemma nothing_scheduled s out :
  inv s [] (running s) (fun i => num_scheduled_tokens out !! i) -> 
  wf_dict (num_scheduled_tokens out) -> total (num_scheduled_tokens out) = 0 ->
  forall i, num_scheduled_tokens out !! i = None.
Proof.
  intros Hi Hwf Htot i. destruct (num_scheduled_tokens out !! i) as [n|] eqn:E; [|done].
  exfalso. destruct (num_scheduled_tokens out) as [l] eqn:Ed.
  assert (Hpos : forall k x, (k, x) ∈ l -> 0 < x).
  { intros k x Hin. apply (elem_of_items (PyDict l)) in Hin; [|done].
    by apply (iv_flight _ _ _ _ _ _ Hi k x). }
  apply (elem_of_items (PyDict l)) in E; [|done]. cbn in E.
  unfold total, values in Htot. cbn in Htot.
  assert (Hge : forall l : list (string * Z), (forall k x, (k, x) ∈ l -> 0 < x) ->
            0 <= foldr Z.add 0 l.*2 /\ forall k x, (k, x) ∈ l -> x <= foldr Z.add 0 l.*2).
  { clear. induction l as [|[k x] l IH]; intros Hp; cbn.
    - split; [done|]. by intros k x ?%not_elem_of_nil.
    - destruct IH as [H1 H2]; [intros j y Hj; apply (Hp j); by right|].
      pose proof (Hp k x ltac:(left)). split; [lia|].
      intros j y [[= -> ->]|Hj]%elem_of_cons; [lia|]. pose proof (H2 j y Hj). lia. }
  destruct (Hge l Hpos) as [_ H]. pose proof (H i n E). pose proof (Hpos i n E). lia.
Qed.

(** The outputs are about requests of the scheduler, and those that leave it are
    those that the outputs say are finished. *)
Lemma step_ok c now :
  rest (scheduler c) -> executes now (scheduler c) ->
  exists o c', step now c = (Ok o, c') /\ rest (scheduler c') /\
    requests (scheduler c') = requests (scheduler c) ∖ finished_ids o.1 /\
    Forall (fun x => core_request_id x ∈ requests (scheduler c)) o.1 /\
    same_env (scheduler c) (scheduler c').
Proof.
  assert (Hnothing : forall c0, rest (scheduler c0) -> requests (scheduler c0) = requests (scheduler c) ->
    same_env (scheduler c) (scheduler c0) ->
    exists o c', no_outputs c0 = (Ok o, c') /\ rest (scheduler c') /\
      requests (scheduler c') = requests (scheduler c) ∖ finished_ids o.1 /\
      Forall (fun x => core_request_id x ∈ requests (scheduler c)) o.1 /\
      same_env (scheduler c) (scheduler c')).
  { intros c0 Hr E1 E2. destruct (no_outputs_ok c0 Hr) as (o & c' & H1 & H2 & H3 & H4 & H5).
    exists o, c'. split_and!; [done|done| |rewrite H3; constructor|by transitivity (scheduler c0)].
    rewrite H3, H4, E1. symmetry. apply difference_empty_L. }
  intros Hr Hex. pose proof Hr as [Hi Hs Hd]. unfold EngineCore.step.
  rewrite bind_run. cbn [gets]. destruct (has_requests (scheduler c)); cbn [negb];
    [|by apply Hnothing].
  destruct (schedule_ok py_hash hash_none (scheduler c) now Hi Hs Hd) as
    (out & s1 & Hsch & Hi1 & Hs1 & Hd1 & Hkept & Hout & _).
  rewrite (bind_step _ _ _ _ _ (on_scheduler_run _ _ _ _ Hsch)).
  destruct (Z.eqb_spec (total_num_scheduled_tokens out) 0) as [H0|H0].
  - apply Hnothing; [|apply Hkept|apply Hkept].
    assert (Hnone : forall i, num_scheduled_tokens out !! i = idle i).
    { apply (nothing_scheduled s1); [done|apply Hout|]. by rewrite <- (oo_total _ _ _ Hout). }
    split; [|intros i; rewrite <- Hnone; apply Hs1|done].
    by apply (inv_flight_ext py_hash hash_none _ _ _ (fun i => num_scheduled_tokens out !! i)).
  - destruct (update_from_output_ok py_hash hash_none s1 out (execute_model out) Hi1 Hs1 Hd1
      (oo_spec _ _ _ Hout) (Hex out s1 Hsch)) as
      (outs & st & s2 & Hup & Hi2 & Hs2 & Hd2 & He2 & Hreq & Ho2 & _).
    rewrite (on_scheduler_run _ (with_scheduler s1 c) _ _ Hup).
    destruct Hkept as (Hse & _ & Ereq). eexists _, _. split; [reflexivity|]. split; [by split|]. split_and!.
    + change (requests s2 = requests (scheduler c) ∖ finished_ids outs).
      by rewrite Hreq, Ereq.
    + eapply Forall_impl; [exact Ho2|]. intros o Ho. cbn in Ho.
      rewrite <- Ereq, (iv_requests _ _ _ _ _ _ Hi1). cbn. apply elem_of_app. by right.
    + by transitivity s1.
Qed.

Lemma call_rest c c' : rest (scheduler c) -> call c c' -> rest (scheduler c').
Proof.
  intros Hr Hc. pose proof Hr as [Hi Hs Hd].
  destruct Hc as [c r now res c' Hf Hn H|c ids res c' H|c now res c' Hex H|c res c' H|c id r Hid].
  - destruct (add_request_ok py_hash hash_none (scheduler c) r now Hi Hs Hd Hf Hn) as
      (s' & Ha & Hi' & Hs' & Hd' & _).
    unfold EngineCore.add_request in H. rewrite (on_scheduler_run _ _ _ _ Ha) in H.
    injection H as _ <-. by split.
  - destruct (finish_requests_ok py_hash hash_none ids FINISHED_ABORTED (scheduler c) Hi Hs Hd eq_refl)
      as (s' & Ha & Hi' & Hs' & Hd' & _).
    unfold abort_requests in H. rewrite (on_scheduler_run _ _ _ _ Ha) in H.
    injection H as _ <-. by split.
  - destruct (step_ok c now Hr Hex) as (o & c1 & Hst & Hr1 & _). rewrite H in Hst.
    by injection Hst as _ <-.
  - destruct (scheduler_reset_ok py_hash hash_none (scheduler c) Hi) as (ok & m & Ha & Hi').
    unfold EngineCore.reset_prefix_cache in H.
    rewrite (bind_step _ _ _ _ _ (on_scheduler_run _ _ _ _ Ha)) in H.
    injection H as _ <-. by split.
  - split; [by apply (grammar_ok py_hash hash_none (scheduler c))|done|done].
Qed.

Lemma reached_rest c : reached c -> rest (scheduler c).
Proof.
  intros (ls & ms & mt & ml & bs & n & eb & s0 & H1 & H2 & H3 & Hinit & Hs).
  pose proof (init_rest _ _ _ _ _ _ _ _ H1 H2 H3 Hinit) as Hr.
  change s0 with (scheduler (Core s0 [] 1)) in Hr. revert Hr. clear Hinit.
  induction Hs as [c|c c1 c' Hc _ IH]; intros Hr; [done|]. apply IH. by apply (call_rest c).
Qed.

(** ** The theorems *)

(** C1. The engine does not fail.  In every state reached, adding a request with
    a new id, aborting any ids, running a step and resetting the prefix cache
    return: no assertion, lookup or removal in the scheduler, the KV-cache manager
    or the block pool raises, and no loop exceeds its bound. *)
Theorem engine_calls_answer c :
  reached c ->
  (forall r now, fresh (max_model_len (scheduler c)) r ->
     Request.request_id r ∉ requests (scheduler c) ->
     exists c', EngineCore.add_request r now c = (Ok tt, c')) /\
  (forall ids, exists c', abort_requests ids c = (Ok tt, c')) /\
  (forall now, executes now (scheduler c) -> exists o c', step now c = (Ok o, c')) /\
  exists c', EngineCore.reset_prefix_cache c = (Ok tt, c').
Proof.
  intros Hr%reached_rest. pose proof Hr as [Hi Hs Hd]. split_and!.
  - intros r now Hf Hn.
    destruct (add_request_ok py_hash hash_none (scheduler c) r now Hi Hs Hd Hf Hn) as (s' & Ha & _).
    eexists. unfold EngineCore.add_request. by rewrite (on_scheduler_run _ _ _ _ Ha).
  - intros ids.
    destruct (finish_requests_ok py_hash hash_none ids FINISHED_ABORTED (scheduler c) Hi Hs Hd eq_refl)
      as (s' & Ha & _).
    eexists. unfold abort_requests. by rewrite (on_scheduler_run _ _ _ _ Ha).
  - intros now Hex. destruct (step_ok c now Hr Hex) as (o & c' & Hst & _). eauto.
  - destruct (scheduler_reset_ok py_hash hash_none (scheduler c) Hi) as (ok & m & Ha & _).
    eexists. unfold EngineCore.reset_prefix_cache.
    by rewrite (bind_step _ _ _ _ _ (on_scheduler_run _ _ _ _ Ha)).
Qed.

(** C2. Between the calls the scheduler is consistent: every unfinished request
    is in exactly one queue, once; the running ones have status [RUNNING] and a
    token left to compute, and are no more than the limit; the waiting ones have
    computed nothing; only running requests hold blocks; nothing is in flight. *)
Theorem queues_consistent c :
  reached c ->
  let s := scheduler c in
  NoDup (waiting s ++ running s) /\
  (forall id, id ∈ requests s <-> id ∈ waiting s ++ running s) /\
  (forall id, id ∈ running s -> exists r, objs s !! id = Some r /\
     Request.status r = RUNNING /\ 0 <= computed_tokens r < Request.num_tokens r) /\
  (forall id, id ∈ waiting s -> exists r, objs s !! id = Some r /\
     Request.status r ∈ [WAITING; WAITING_FOR_FSM; PREEMPTED] /\ computed_tokens r = 0) /\
  (forall id, id ∉ running s ->
     default [] (KVCacheManager.req_to_blocks (kv_cache_manager s) !! id) = []) /\
  Z.of_nat (length (running s)) <= max_num_running_reqs s /\
  scheduled_req_ids s = ∅.
Proof.
  intros Hr%reached_rest s. pose proof Hr as [Hi Hs Hd]. fold s in Hi, Hs.
  split_and!.
  - apply Hi.
  - apply Hi.
  - intros id Hin. destruct (inv_live _ _ _ _ _ _ id Hi) as (r & Hl & Ho & _).
    { apply elem_of_app. right. by apply elem_of_app; right. }
    exists r. destruct (iv_running _ _ _ _ _ _ Hi id r Hin Hl) as [H1 H2 _ H3 _].
    split_and!; [done|done|done|by apply H3].
  - intros id Hin. destruct (inv_live _ _ _ _ _ _ id Hi) as (r & Hl & Ho & _).
    { apply elem_of_app. right. by apply elem_of_app; left. }
    exists r. destruct (iv_waiting _ _ _ _ _ _ Hi id r Hin Hl) as [H1 H2 _].
    split_and!; [done| |done]. rewrite !elem_of_cons. tauto.
  - intros id Hid. apply (idle_table py_hash hash_none s [] (running s) idle id Hi Hid).
  - apply Hi.
  - apply set_eq. intros i. rewrite (Hs i), elem_of_empty. split; [by intros [? ?]|done].
Qed.

(** C4. A step stays within its budgets: [schedule] gives every request of the
    batch at least one token and no more than it has left, the total is the sum
    and is within the token budget, and the workers are sent exactly one record,
    new or cached, for each request of the batch.  The record of a request that
    the workers know already carries the number of its computed tokens and
    exactly its scheduled tokens; that of a new request is made by [from_request],
    which sends the whole prompt whatever part of it is scheduled. *)
Theorem step_within_budget c now :
  reached c ->
  let s := scheduler c in
  exists out s', schedule now s = (Ok out, s') /\
    total_num_scheduled_tokens out = total (num_scheduled_tokens out) /\
    total_num_scheduled_tokens out <= max_num_scheduled_tokens s /\
    NoDup (keys (num_scheduled_tokens out)) /\
    map new_req_id (scheduled_new_reqs out) ++ map req_id (scheduled_cached_reqs out) ≡ₚ
      keys (num_scheduled_tokens out) /\
    forall id n, num_scheduled_tokens out !! id = Some n ->
      0 < n /\ id ∈ running s' /\
      exists r, objs s' !! id = Some r /\ 0 <= computed_tokens r /\ computed_tokens r + n <= Request.num_tokens r /\
        ((exists blocks, new_from_request r blocks ∈ scheduled_new_reqs out) \/
         (exists d, d ∈ scheduled_cached_reqs out /\ req_id d = id /\ num_computed_tokens d = computed_tokens r /\
            Z.of_nat (length (new_token_ids d)) = n /\
            new_token_ids d = take (Z.to_nat n) (drop (Z.to_nat (computed_tokens r)) (Request.all_token_ids r)))).
Proof.
  intros [Hi Hs Hd]%reached_rest s.
  destruct (schedule_ok py_hash hash_none s now Hi Hs Hd) as
    (out & s1 & Hsch & Hi1 & Hs1 & Hd1 & _ & [H1 H2 H3 H4 _ _ _ H8 H9] & _).
  exists out, s1. split_and!; [done|done|done|apply H1|done|].
  intros id n Hn. destruct (iv_flight _ _ _ _ _ _ Hi1 id n Hn) as [Hpos Hin].
  split_and!; [done|done|]. destruct (inv_live _ _ _ _ _ _ id Hi1) as (r & Hl & Ho & _).
  { apply elem_of_app. right. by apply elem_of_app; right. }
  exists r. destruct (iv_running _ _ _ _ _ _ Hi1 id r Hin Hl) as [_ Hc Hown _ _].
  unfold in_flight in Hown. rewrite Hn in Hown. cbn in Hown. split_and!; [done..|].
  assert (Hid : id ∈ keys (num_scheduled_tokens out)) by (apply elem_of_keys; by exists n).
  rewrite <- H4 in Hid. apply elem_of_app in Hid as [(d & -> & Hin')%list_elem_of_fmap|(d & -> & Hin')%list_elem_of_fmap].
  - left. destruct (proj1 (Forall_forall _ _) H8 d Hin') as (r' & bs & Hr' & ->). rewrite Ho in Hr'. injection Hr' as <-.
    by exists bs.
  - right. destruct (proj1 (Forall_forall _ _) H9 d Hin') as (r' & n' & Hr' & Hn' & Hcd & Htok).
    rewrite Ho in Hr'. injection Hr' as <-. rewrite Hn in Hn'. injection Hn' as <-. exists d.
    split_and!; [done..| |].
    + rewrite Htok. unfold Request.num_tokens in Hown. rewrite length_py_slice by lia. lia.
    + rewrite Htok, py_slice_take by lia. f_equal. lia.
Qed.

(** C3. No deadlock: when the cache has room for one request of the greatest
    length, and some request is running, or waiting and not for its grammar,
    then [schedule] schedules at least one token. *)
Theorem step_makes_progress c now :
  reached c ->
  let s := scheduler c in
  cdiv (max_model_len s) (KVCacheManager.block_size (kv_cache_manager s)) <=
    V1BlockPool.num_gpu_blocks (KVCacheManager.block_pool (kv_cache_manager s)) ->
  0 < max_num_scheduled_tokens s -> 0 < max_num_running_reqs s ->
  (running s <> [] \/ exists id r, id ∈ waiting s /\ objs s !! id = Some r /\ ready r = true) ->
  exists out s', schedule now s = (Ok out, s') /\ 0 < total_num_scheduled_tokens out.
Proof.
  intros [Hi Hs Hd]%reached_rest s Hroom Hb Hm Hsch.
  destruct (schedule_ok py_hash hash_none s now Hi Hs Hd) as
    (out & s1 & Hrun & _ & _ & _ & _ & _ & Hpr).
  exists out, s1. split; [done|]. apply Hpr; try done.
  destruct Hsch as [?|(id & r & Hin & Ho & Hr)]; [by left|]. right.
  exists id, r. split_and!; [done| |done]. apply live_lookup. split; [done|].
  apply (iv_requests _ _ _ _ _ _ Hi). apply elem_of_app. right. apply elem_of_app. by left.
Qed.
End Engine.

(** ** A sample engine: one request, before and after its first step *)

Definition sample_core0 : EngineCore.t := Core (sample_scheduler 8 5 (0, 0)) [] 1.
Definition sample_a5 : Request.t := sample_request "a" [1; 2; 3; 4; 5].
Definition sample_core1 : EngineCore.t := run_state (EngineCore.add_request sample_a5 0) sample_core0.
Definition sample_core2 : EngineCore.t :=
  run_state (EngineCore.step sample_hash 17 sample_execute 0) sample_core1.

Lemma sample_a5_fresh : fresh 8 sample_a5.
Proof. split; [split|..]; try done. by left. Defined.

Lemma sample_core1_reached : reached sample_hash 17 sample_execute sample_core1.
Proof.
  exists false, 4, 10, 8, 2, 5%nat, (0, 0), (sample_scheduler 8 5 (0, 0)).
  split_and!; [lia|lia|lia|vm_compute; reflexivity|].
  apply rtc_once, (call_add _ _ _ _ sample_a5 0 (Ok tt)).
  - apply sample_a5_fresh.
  - vm_compute. congruence.
  - vm_compute. reflexivity.
Defined.

Lemma sample_executes : executes sample_hash 17 sample_execute 0 (scheduler sample_core1).
Proof.
  intros out s' H.
  assert (Hout : num_scheduled_tokens out = PyDict [("a", 5)]).
  { assert (E : match (V1Scheduler.schedule sample_hash 17 0 (scheduler sample_core1)).1 with
                | Ok o => num_scheduled_tokens o = PyDict [("a", 5)] | Err _ => False end)
      by (vm_compute; reflexivity).
    by rewrite H in E. }
  assert (Hlp : Request.sampling_params <$> (objs s' !! "a") = Some sample_params).
  { assert (E : Request.sampling_params <$>
        (objs (V1Scheduler.schedule sample_hash 17 0 (scheduler sample_core1)).2 !! "a") =
        Some sample_params) by (vm_compute; reflexivity).
    by rewrite H in E. }
  split; [|unfold sample_execute; reflexivity].
  intros id n. rewrite Hout. clear H. unfold lookup, pydict_lookup. cbn.
  destruct (decide ("a" = id)) as [<-|]; [|done]. intros _. exists 0%nat, [9].
  unfold sample_execute. rewrite Hout. split_and!; [vm_compute; reflexivity|reflexivity|done|].
  intros r Hr Hn. change (objs s' !! "a" = Some r) in Hr. rewrite Hr in Hlp.
  change (Some (Request.sampling_params r) = Some sample_params) in Hlp.
  apply (inj Some) in Hlp. rewrite Hlp in Hn. by destruct Hn.
Defined.

Lemma sample_core2_reached : reached sample_hash 17 sample_execute sample_core2.
Proof.
  destruct sample_core1_reached as (ls & ms & mt & ml & bs & n & eb & s0 & H1 & H2 & H3 & H4 & Hs).
  exists ls, ms, mt, ml, bs, n, eb, s0. split_and!; [done..|].
  eapply rtc_r; [exact Hs|].
  apply (call_step _ _ _ sample_core1 0
           (EngineCore.step sample_hash 17 sample_execute 0 sample_core1).1); [apply sample_executes|].
  unfold sample_core2, run_state. by destruct (EngineCore.step _ _ _ _ _).
Defined.

Lemma engine_calls_answer_witness :
  (exists o c', EngineCore.step sample_hash 17 sample_execute 0 sample_core1 = (Ok o, c')) /\
  exists c', abort_requests ["a"; "b"] sample_core2 = (Ok tt, c').
Proof.
  destruct (engine_calls_answer sample_hash 17 sample_execute sample_core1 sample_core1_reached)
    as (_ & _ & Hstep & _).
  destruct (engine_calls_answer sample_hash 17 sample_execute sample_core2 sample_core2_reached)
    as (_ & Habort & _).
  split; [apply Hstep, sample_executes|apply Habort].
Defined.

Lemma queues_consistent_witness :
  running (scheduler sample_core2) = ["a"] /\
  exists r, objs (scheduler sample_core2) !! "a" = Some r /\
    Request.status r = RUNNING /\ 0 <= computed_tokens r < Request.num_tokens r.
Proof.
  destruct (queues_consistent sample_hash 17 sample_execute sample_core2 sample_core2_reached)
    as (_ & _ & Hrun & _).
  split; [vm_compute; reflexivity|]. apply Hrun. vm_compute. left.
Defined.

Lemma step_within_budget_witness :
  exists out s', V1Scheduler.schedule sample_hash 17 0 (scheduler sample_core1) = (Ok out, s') /\
    total_num_scheduled_tokens out <= 10.
Proof.
  destruct (step_within_budget sample_hash 17 sample_execute sample_core1 0 sample_core1_reached)
    as (out & s' & H & _ & Hb & _).
  exists out, s'. split; [exact H|]. exact Hb.
Defined.

Lemma step_makes_progress_witness :
  exists out s', V1Scheduler.schedule sample_hash 17 1 (scheduler sample_core2) = (Ok out, s') /\
    0 < total_num_scheduled_tokens out.
Proof.
  apply (step_makes_progress sample_hash 17 sample_execute sample_core2 1 sample_core2_reached).
  - vm_compute. congruence.
  - vm_compute. reflexivity.
  - vm_compute. reflexivity.
  - left. vm_compute. congruence.
Defined.
