(* ===== verification/Params.v ===== *)
(** * Sampling parameters ([vllm/sampling_params.py])

    The fields of [SamplingParams] that the modelled parts read, what
    [__post_init__] makes of the caller's arguments and what [_verify_args]
    refuses.  Text is a list of code points, floats are exact.  Left out: the
    clamping of logit biases and the encoding of bad words (the fields hold their
    results), extra arguments, and the coercion of booleans to numbers.
    [logits_processors] and [guided_decoding] are represented by whether they are
    given. *)
From S2P Require Import Prelude.
From S2P Require Import Detokenizer.
From S2P Require Import V1Request.

Inductive RequestOutputKind : Type := CUMULATIVE | DELTA | FINAL_ONLY.

#[global] Instance output_kind_eq_dec : EqDecision RequestOutputKind.
Proof. solve_decision. Defined.

Definition SAMPLING_EPS : Q := 1 # 100000.
Definition MAX_TEMP : Q := 1 # 100.

Module Params.

Record t : Type := MkParams {
  n : Z;
  best_of : option Z;
  real_n : option Z;
  presence_penalty : Q;
  frequency_penalty : Q;
  repetition_penalty : Q;
  temperature : Q;
  top_p : Q;
  top_k : Z;
  min_p : Q;
  seed : option Z;
  stop : list text;
  stop_token_ids : list Z;
  ignore_eos : bool;
  max_tokens : option Z;
  min_tokens : Z;
  logprobs : option Z;
  prompt_logprobs : option Z;
  detokenize : bool;
  skip_special_tokens : bool;
  spaces_between_special_tokens : bool;
  logits_processors : bool;
  include_stop_str_in_output : bool;
  truncate_prompt_tokens : option Z;
  output_kind : RequestOutputKind;
  output_text_buffer_length : Z;
  all_stop_token_ids : gset Z;
  guided_decoding : bool;
  allowed_token_ids : option (list Z);
  logit_bias : option (list (Z * Q));
  bad_words_token_ids : list (list Z)
}.

Definition with_n x rn p :=
  MkParams x (best_of p) rn (presence_penalty p) (frequency_penalty p) (repetition_penalty p)
    (temperature p) (top_p p) (top_k p) (min_p p) (seed p) (stop p) (stop_token_ids p) (ignore_eos p)
    (max_tokens p) (min_tokens p) (logprobs p) (prompt_logprobs p) (detokenize p)
    (skip_special_tokens p) (spaces_between_special_tokens p) (logits_processors p)
    (include_stop_str_in_output p) (truncate_prompt_tokens p) (output_kind p)
    (output_text_buffer_length p) (all_stop_token_ids p) (guided_decoding p) (allowed_token_ids p)
    (logit_bias p) (bad_words_token_ids p).
Definition with_sampling temp tp tk mp p :=
  MkParams (n p) (best_of p) (real_n p) (presence_penalty p) (frequency_penalty p) (repetition_penalty p)
    temp tp tk mp (seed p) (stop p) (stop_token_ids p) (ignore_eos p)
    (max_tokens p) (min_tokens p) (logprobs p) (prompt_logprobs p) (detokenize p)
    (skip_special_tokens p) (spaces_between_special_tokens p) (logits_processors p)
    (include_stop_str_in_output p) (truncate_prompt_tokens p) (output_kind p)
    (output_text_buffer_length p) (all_stop_token_ids p) (guided_decoding p) (allowed_token_ids p)
    (logit_bias p) (bad_words_token_ids p).
Definition with_seed x p :=
  MkParams (n p) (best_of p) (real_n p) (presence_penalty p) (frequency_penalty p) (repetition_penalty p)
    (temperature p) (top_p p) (top_k p) (min_p p) x (stop p) (stop_token_ids p) (ignore_eos p)
    (max_tokens p) (min_tokens p) (logprobs p) (prompt_logprobs p) (detokenize p)
    (skip_special_tokens p) (spaces_between_special_tokens p) (logits_processors p)
    (include_stop_str_in_output p) (truncate_prompt_tokens p) (output_kind p)
    (output_text_buffer_length p) (all_stop_token_ids p) (guided_decoding p) (allowed_token_ids p)
    (logit_bias p) (bad_words_token_ids p).
Definition with_stop x p :=
  MkParams (n p) (best_of p) (real_n p) (presence_penalty p) (frequency_penalty p) (repetition_penalty p)
    (temperature p) (top_p p) (top_k p) (min_p p) (seed p) x (stop_token_ids p) (ignore_eos p)
    (max_tokens p) (min_tokens p) (logprobs p) (prompt_logprobs p) (detokenize p)
    (skip_special_tokens p) (spaces_between_special_tokens p) (logits_processors p)
    (include_stop_str_in_output p) (truncate_prompt_tokens p) (output_kind p)
    (output_text_buffer_length p) (all_stop_token_ids p) (guided_decoding p) (allowed_token_ids p)
    (logit_bias p) (bad_words_token_ids p).
Definition with_stop_ids x all p :=
  MkParams (n p) (best_of p) (real_n p) (presence_penalty p) (frequency_penalty p) (repetition_penalty p)
    (temperature p) (top_p p) (top_k p) (min_p p) (seed p) (stop p) x (ignore_eos p)
    (max_tokens p) (min_tokens p) (logprobs p) (prompt_logprobs p) (detokenize p)
    (skip_special_tokens p) (spaces_between_special_tokens p) (logits_processors p)
    (include_stop_str_in_output p) (truncate_prompt_tokens p) (output_kind p)
    (output_text_buffer_length p) all (guided_decoding p) (allowed_token_ids p)
    (logit_bias p) (bad_words_token_ids p).
Definition with_buffer x p :=
  MkParams (n p) (best_of p) (real_n p) (presence_penalty p) (frequency_penalty p) (repetition_penalty p)
    (temperature p) (top_p p) (top_k p) (min_p p) (seed p) (stop p) (stop_token_ids p) (ignore_eos p)
    (max_tokens p) (min_tokens p) (logprobs p) (prompt_logprobs p) (detokenize p)
    (skip_special_tokens p) (spaces_between_special_tokens p) (logits_processors p)
    (include_stop_str_in_output p) (truncate_prompt_tokens p) (output_kind p)
    x (all_stop_token_ids p) (guided_decoding p) (allowed_token_ids p)
    (logit_bias p) (bad_words_token_ids p).

(** ** [_verify_args] *)

Definition check (c : bool) (e : exn) : result unit := if c then Err e else Ok tt.

(** [x is not None and x < m] *)
Definition below (x : option Z) (m : Z) : bool := match x with Some v => v <? m | None => false end.

Definition outside (lo x hi : Q) : bool := negb (Qle_bool lo x && Qle_bool x hi).

Definition verify_args (p : t) : result unit :=
  check (n p <? 1) ValueError ;;
  check (outside (-2) (presence_penalty p) 2) ValueError ;;
  check (outside (-2) (frequency_penalty p) 2) ValueError ;;
  check (negb (Qltb 0 (repetition_penalty p) && Qle_bool (repetition_penalty p) 2)) ValueError ;;
  check (Qltb (temperature p) 0) ValueError ;;
  check (negb (Qltb 0 (top_p p) && Qle_bool (top_p p) 1)) ValueError ;;
  check ((top_k p <? -1) || (top_k p =? 0)) ValueError ;;
  check (outside 0 (min_p p) 1) ValueError ;;
  check (below (max_tokens p) 1) ValueError ;;
  check (min_tokens p <? 0) ValueError ;;
  check (below (max_tokens p) (min_tokens p)) ValueError ;;
  check (below (logprobs p) 0) ValueError ;;
  check (below (prompt_logprobs p) 0) ValueError ;;
  check (below (truncate_prompt_tokens p) 1) ValueError ;;
  check (existsb (fun s => bool_decide (s = [])) (stop p)) ValueError ;;
  check (bool_decide (stop p <> []) && negb (detokenize p)) ValueError ;;
  check (bool_decide (best_of p <> real_n p) && bool_decide (output_kind p = DELTA)) ValueError.

Definition verify_greedy_sampling (p : t) : result unit := check (1 <? n p) ValueError.

(** ** [__post_init__] *)

(** [stop]: [None], a string, or a list of strings. *)
Inductive stop_arg : Type := NoStop | OneStop (s : text) | Stops (l : list text).

Definition stop_list (s : stop_arg) : list text :=
  match s with NoStop => [] | OneStop x => [x] | Stops l => l end.

(** [if self.best_of: ...] *)
Definition apply_best_of (p : t) : result t :=
  match best_of p with
  | None | Some 0 => Ok p
  | Some b =>
      check (b <? n p) ValueError ;;
      match real_n p with
      | None | Some 0 => Ok (with_n b (Some (n p)) p)
      | Some _ => Ok p
      end
  end.

Definition raise_temperature (p : t) : t :=
  if Qltb 0 (temperature p) && Qltb (temperature p) MAX_TEMP
  then with_sampling MAX_TEMP (top_p p) (top_k p) (min_p p) p else p.

Definition post_init (stop_ : stop_arg) (stop_token_ids_ : option (list Z)) (p : t) : result t :=
  p ← apply_best_of p;
  let p := raise_temperature p in
  let p := with_seed (if bool_decide (seed p = Some (-1)) then None else seed p) p in
  let p := with_stop (stop_list stop_) p in
  let p := with_stop_ids (default [] stop_token_ids_) (all_stop_token_ids p) p in
  let p := if bool_decide (stop p <> []) && negb (include_stop_str_in_output p)
           then with_buffer (Detok.max_length (stop p) - 1) p else p in
  verify_args p ;;
  p ← (if Qltb (temperature p) SAMPLING_EPS then
         let p := with_sampling (temperature p) 1 (-1) 0 p in
         verify_greedy_sampling p ;; Ok p
       else Ok p);
  Ok (with_stop_ids (stop_token_ids p) (list_to_set (stop_token_ids p)) p).

(** [eos_ids]: [generation_config.get("eos_token_id")] as a list; [list(eos_ids)]
    of a set comes in some order. *)
Definition update_from_generation_config (eos_ids : option (list Z)) (model_eos_token_id : option Z) (p : t) : t :=
  let p := match model_eos_token_id with
           | Some e => with_stop_ids (stop_token_ids p) ({[e]} ∪ all_stop_token_ids p) p
           | None => p
           end in
  match eos_ids with
  | None => p
  | Some l =>
      let eos : gset Z := list_to_set l in
      let eos := match model_eos_token_id with Some e => eos ∖ {[e]} | None => eos end in
      if bool_decide (eos = ∅) then p
      else
        let ids := if ignore_eos p then stop_token_ids p
                   else elements (eos ∪ list_to_set (stop_token_ids p)) in
        with_stop_ids ids (eos ∪ all_stop_token_ids p) p
  end.

(** The fields that the engine core reads. *)
Definition core_params (p : t) : SamplingParams :=
  Sampling (guided_decoding p) (max_tokens p) (prompt_logprobs p) (logprobs p) (ignore_eos p) (stop_token_ids p).

(** ** What accepted parameters satisfy *)

Record valid (p : t) : Prop := Valid {
  vl_n : 1 <= n p;
  vl_max_tokens : forall m, max_tokens p = Some m -> 1 <= m /\ min_tokens p <= m;
  vl_stop : forall s, s ∈ stop p -> s <> [];
  vl_detokenize : stop p <> [] -> detokenize p = true;
  vl_temperature : (temperature p == 0 \/ MAX_TEMP <= temperature p)%Q;
  vl_greedy : (temperature p < SAMPLING_EPS)%Q -> n p = 1 /\ top_k p = -1;
  vl_top_k : top_k p = -1 \/ 1 <= top_k p;
  vl_buffer : stop p <> [] -> include_stop_str_in_output p = false ->
    output_text_buffer_length p = Detok.max_length (stop p) - 1;
  vl_seed : seed p <> Some (-1)
}.

Lemma check_ok c e u : check c e = Ok u -> c = false.
Proof. by destruct c. Qed.

(** Peel the checks off a run that returned. *)
Ltac checks H :=
  repeat (apply result_bind_ok in H; destruct H as ([] & ?%check_ok & H)); try apply check_ok in H.

(** What [_verify_args] establishes of the fields that [valid] mentions. *)
Lemma verify_args_ok p u : verify_args p = Ok u ->
  1 <= n p /\
  (forall m, max_tokens p = Some m -> 1 <= m /\ min_tokens p <= m) /\
  (forall s, s ∈ stop p -> s <> []) /\
  (stop p <> [] -> detokenize p = true) /\
  (0 <= temperature p)%Q /\
  (top_k p = -1 \/ 1 <= top_k p).
Proof.
  intros H. unfold verify_args in H. checks H. split_and!.
  - lia.
  - intros m Hm. rewrite Hm in *. cbn in *. lia.
  - intros s Hs ->.
    assert (E : existsb (fun s => bool_decide (s = [])) (stop p) = true); [|congruence].
    apply existsb_exists. exists []. by rewrite <- list_elem_of_In.
  - intros Hs. rewrite bool_decide_true in * by done. by destruct (detokenize p).
  - by apply Qltb_ge.
  - lia.
Qed.

Lemma raised_temperature p : (0 <= temperature p)%Q ->
  (temperature (raise_temperature p) == 0 \/ MAX_TEMP <= temperature (raise_temperature p))%Q.
Proof.
  intros H. unfold raise_temperature. destruct (Qltb 0 (temperature p)) eqn:E0; cbn [andb].
  - destruct (Qltb (temperature p) MAX_TEMP) eqn:E1; right; [apply Qle_refl|by apply Qltb_ge].
  - left. apply Qltb_ge in E0. by apply Qle_antisym.
Qed.

(** What the first steps of [__post_init__] leave. *)
Lemma post_init_cases s0 ids p0 p :
  post_init s0 ids p0 = Ok p ->
  exists p1, (0 <= temperature p1)%Q /\
    verify_args p1 = Ok tt /\
    (temperature p1 == 0 \/ MAX_TEMP <= temperature p1)%Q /\
    seed p1 <> Some (-1) /\
    (stop p1 <> [] -> include_stop_str_in_output p1 = false ->
       output_text_buffer_length p1 = Detok.max_length (stop p1) - 1) /\
    exists all tp tk mp, p = with_stop_ids (stop_token_ids p1) all (with_sampling (temperature p1) tp tk mp p1) /\
      (if Qltb (temperature p1) SAMPLING_EPS then n p1 <= 1 /\ tk = -1 else tk = top_k p1).
Proof.
  intros H. unfold post_init in H. apply result_bind_ok in H as (p2 & _ & H). cbv zeta in H.
  apply result_bind_ok in H as ([] & Hv & H).
  apply result_bind_ok in H as (p3 & Hg & H). injection H as <-.
  set (p1 := if _ : bool then _ else _) in *. exists p1.
  pose proof (verify_args_ok _ _ Hv) as (_ & _ & _ & _ & Ht & _).
  assert (E : temperature p1 = temperature (raise_temperature p2) /\ seed p1 <> Some (-1)).
  { unfold p1. clear. destruct (_ && _); cbn; (split; [done|]); by case_bool_decide. }
  destruct E as [Et Es]. split_and!; try done.
  - rewrite Et. apply raised_temperature. unfold raise_temperature in Et.
    destruct (Qltb 0 (temperature p2)) eqn:E0; [apply Qltb_lt in E0; lra|].
    cbn [andb] in Et. by rewrite <- Et.
  - intros Hs Hi. unfold p1 in *. destruct (bool_decide _ && _) eqn:Eb; [done|].
    exfalso. apply andb_false_iff in Eb as [Eb|Eb].
    + by apply bool_decide_eq_false in Eb.
    + by rewrite Hi in Eb.
  - destruct (Qltb (temperature p1) SAMPLING_EPS).
    + apply result_bind_ok in Hg as ([] & Hn%check_ok & [= <-]). eexists _, _, _, _. split; [done|].
      cbn in Hn. split; [lia|done].
    + injection Hg as <-. exists (list_to_set (stop_token_ids p1)), (top_p p1), (top_k p1), (min_p p1).
      by destruct p1.
Qed.

(** Whatever the caller asks for, parameters that are accepted are [valid]: [n]
    and [max_tokens] are positive, no stop string is empty, and only detokenized
    requests have stop strings; zero temperature means one greedy sequence; the
    text buffer is long enough for every stop string. *)
Theorem accepted_params_valid stop_ stop_token_ids_ p0 p :
  post_init stop_ stop_token_ids_ p0 = Ok p -> valid p.
Proof.
  intros (p1 & H0 & Hv & Ht & Hs & Hb & all & tp & tk & mp & -> & Hg)%post_init_cases.
  apply verify_args_ok in Hv as (Hn & Hm & Hst & Hd & _ & Hk). split; cbn; try done.
  - intros Hlt%Qltb_lt. rewrite Hlt in Hg. destruct Hg. split; [lia|done].
  - destruct (Qltb _ _); [left; tauto|by rewrite Hg].
Qed.

(** Zero temperature with two sequences is refused, one is accepted. *)
Definition sample_params (n : Z) : t :=
  MkParams n None None 0 0 1 0 1 (-1) 0 (Some (-1)) [] [] false (Some 16) 0 None None true true true false
    false None CUMULATIVE 0 ∅ false None None [].

Example greedy_once : post_init (OneStop [7; 8]) None (sample_params 2) = Err ValueError /\
  exists p, post_init (OneStop [7; 8]) None (sample_params 1) = Ok p /\
    stop p = [[7; 8]] /\ output_text_buffer_length p = 1 /\ seed p = None.
Proof. split; [reflexivity|]. eexists. split; [vm_compute; reflexivity|]. by vm_compute. Qed.
End Params.
