(* ===== verification/V1FrontEnd.v ===== *)
(** * v1: the front end of the engine

    Parallel sampling ([vllm/v1/engine/parallel_sampling.py]), the output processor
    ([output_processor.py]), the processor of inputs ([processor.py]), the
    synchronous engine ([llm_engine.py], with the in-process client of
    [core_client.py]) and what [AsyncLLM.generate] ([async_llm.py]) does with its
    queue; the outputs are those of [vllm/outputs.py].

    The parents of parallel requests and the queues are objects that several
    requests share: they live in stores and are referred to by address.  The
    text side is in scope for text prompts: multi-modal inputs are left out, as
    are log probabilities, metrics and the LoRA statistics, which nothing here
    reads, data parallelism, and the validation of grammars by their third-party
    back end, which is a parameter. *)
From stdpp Require Import pretty.
From S2P Require Import Prelude.
From S2P Require Import Detokenizer.
From S2P Require Import FreeQueue.
From S2P Require Import V1Request.
From S2P Require Import BlockHashing.
From S2P Require Import V1Scheduler.
From S2P Require Import EngineCore.
From S2P Require Import Params.

(** ** Outputs ([outputs.py]) *)

Inductive StopReason : Type := StopToken (id : Z) | StopString (s : text).

(** [finish_reason] is the string of the reason. *)
Record CompletionOutput : Type := Completion {
  index : Z;
  completion_text : text;
  completion_token_ids : list Z;
  finish_reason : option FinishReason;
  completion_stop_reason : option StopReason
}.

Record RequestOutput : Type := MkRequestOutput {
  output_request_id : string;
  output_prompt : option text;
  output_prompt_token_ids : list Z;
  outputs : list CompletionOutput;
  output_finished : bool
}.

Definition with_outputs (l : list CompletionOutput) (o : RequestOutput) : RequestOutput :=
  MkRequestOutput (output_request_id o) (output_prompt o) (output_prompt_token_ids o) l (output_finished o).

(** [RequestOutput.add] *)
Definition add_output (next_output self : RequestOutput) : result RequestOutput :=
  completion ← py_index (outputs self) 0;
  next_completion ← py_index (outputs next_output) 0;
  let completion := Completion (index completion)
    (completion_text completion ++ completion_text next_completion)
    (completion_token_ids completion ++ completion_token_ids next_completion)
    (finish_reason completion) (completion_stop_reason completion) in
  Ok (MkRequestOutput (output_request_id self) (output_prompt next_output)
        (output_prompt_token_ids next_output) (completion :: tail (outputs self))
        (output_finished self || output_finished next_output)).

(** ** Parallel sampling *)

Module Parent.

Record t : Type := ParentRequest {
  request_id : string;
  sampling_params : Params.t;
  child_requests : gset string;
  output_aggregator : option RequestOutput;
  cached_child_sampling_params : option Params.t
}.

Definition with_children x p :=
  ParentRequest (request_id p) (sampling_params p) x (output_aggregator p) (cached_child_sampling_params p).
Definition with_aggregator x p :=
  ParentRequest (request_id p) (sampling_params p) (child_requests p) x (cached_child_sampling_params p).
Definition with_cached x p :=
  ParentRequest (request_id p) (sampling_params p) (child_requests p) (output_aggregator p) x.

Definition init (request_id : string) (params : Params.t) : t := ParentRequest request_id params ∅ None None.

Definition from_params (request_id : string) (params : Params.t) : option t :=
  if Params.n params =? 1 then None else Some (init request_id params).

Definition get_child_sampling_params (index : Z) : M t Params.t :=
  p ← get;
  match cached_child_sampling_params p with
  | Some c => mret c
  | None =>
      let child := Params.with_n 1 (Params.real_n (sampling_params p)) (sampling_params p) in
      match Params.seed (sampling_params p) with
      | None => modify (with_cached (Some child)) ;; mret child
      | Some seed => mret (Params.with_seed (Some (seed + index)) child)
      end
  end.

(** [f"{index}_{self.request_id}"] *)
Definition child_id (index : Z) (request_id : string) : string := pretty index +:+ "_" +:+ request_id.

Definition get_child_info (index : Z) : M t (string * Params.t) :=
  p ← get;
  let child_req_id := child_id index (request_id p) in
  modify (with_children ({[child_req_id]} ∪ child_requests p)) ;;
  params ← get_child_sampling_params index;
  mret (child_req_id, params).

(** [self.child_requests.remove(req_id)] *)
Definition finish_child_request (req_id : string) : M t unit :=
  p ← get;
  if bool_decide (req_id ∈ child_requests p)
  then modify (with_children (child_requests p ∖ {[req_id]}))
  else raise KeyError.

Definition n (p : t) : Z := Params.n (sampling_params p).

Definition make_request_output (final_only : bool) (completion_output : CompletionOutput)
    (new_request_output : string -> RequestOutput) : M t (option RequestOutput) :=
  p ← get;
  let request_output := match output_aggregator p with
                        | Some o => o
                        | None => new_request_output (request_id p)
                        end in
  let request_output := with_outputs (outputs request_output ++ [completion_output]) request_output in
  if final_only && negb (Z.of_nat (length (outputs request_output)) =? n p)
  then modify (with_aggregator (Some request_output)) ;; mret None
  else
    modify (with_aggregator None) ;;
    mret (Some (with_outputs (py_sorted (fun c => [inject_Z (index c)]) (outputs request_output)) request_output)).
End Parent.

(** ** [EngineCoreRequest] ([engine/__init__.py]) *)

Record EngineCoreRequest : Type := CoreRequest {
  core_req_id : string;
  core_prompt : option text;
  core_prompt_token_ids : list Z;
  core_sampling_params : Params.t;
  core_eos_token_id : option Z;
  core_lora_request : option Z
}.

(** [Request.from_engine_core_request]; no grammar is compiled yet. *)
Definition from_engine_core_request (r : EngineCoreRequest) : result Request.t :=
  Request.init (core_req_id r) (core_prompt_token_ids r) None None None
    (Params.core_params (core_sampling_params r)) (core_eos_token_id r) (core_lora_request r) false.

(** ** The state of a request in the output processor *)

Module RequestState.

Record t : Type := MkRequestState {
  request_id : string;
  parent_req : option Z;
  request_index : Z;
  output_kind : RequestOutputKind;
  prompt : option text;
  prompt_token_ids : list Z;
  detokenizer : Detok.t;
  is_prefilling : bool;
  queue : option Z
}.

Definition with_detokenizer x s :=
  MkRequestState (request_id s) (parent_req s) (request_index s) (output_kind s) (prompt s)
    (prompt_token_ids s) x (is_prefilling s) (queue s).
Definition with_prefilling x s :=
  MkRequestState (request_id s) (parent_req s) (request_index s) (output_kind s) (prompt s)
    (prompt_token_ids s) (detokenizer s) x (queue s).

Definition on_detokenizer {A} (f : M Detok.t A) : M t A := fun s =>
  let '(r, d) := f (detokenizer s) in (r, with_detokenizer d s).

Definition from_new_request (tokenizer : Tokenizer) (request : EngineCoreRequest)
    (parent_req : option Z) (request_index : Z) (queue : option Z) : t :=
  let params := core_sampling_params request in
  let tok := if Params.detokenize params then Some tokenizer else None in
  MkRequestState (core_req_id request) parent_req request_index (Params.output_kind params)
    (core_prompt request) (core_prompt_token_ids request)
    (Detok.from_new_request tok (core_prompt_token_ids request) (Params.stop params)
       (Params.include_stop_str_in_output params) (Params.skip_special_tokens params)
       (Params.spaces_between_special_tokens params))
    true queue.

Definition new_request_output (s : t) (finished : bool) (request_id : string) : RequestOutput :=
  MkRequestOutput request_id (prompt s) (prompt_token_ids s) [] finished.

Definition new_completion_output (token_ids : list Z) (reason : option FinishReason)
    (stop_reason : option StopReason) : M t CompletionOutput :=
  s ← get;
  let finished := bool_decide (is_Some reason) in
  let delta := bool_decide (output_kind s = DELTA) in
  text ← on_detokenizer (Detok.get_next_output_text finished delta);
  s ← get;
  let token_ids := if delta then token_ids else Detok.output_token_ids (detokenizer s) in
  mret (Completion (request_index s) text token_ids reason (if finished then stop_reason else None)).
End RequestState.

(** ** The output processor *)

Module OutputProcessor.

(** [next] is the address of the next object. *)
Record t : Type := MkOutputProcessor {
  request_states : gmap string RequestState.t;
  parents : gmap Z Parent.t;
  queues : gmap Z (list RequestOutput);
  next : Z
}.

Definition init : t := MkOutputProcessor ∅ ∅ ∅ 0.

Definition with_states x s := MkOutputProcessor x (parents s) (queues s) (next s).
Definition with_parents x s := MkOutputProcessor (request_states s) x (queues s) (next s).
Definition with_queues x s := MkOutputProcessor (request_states s) (parents s) x (next s).
Definition with_next x s := MkOutputProcessor (request_states s) (parents s) (queues s) x.

(** A method of the request object in [request_states], of a parent object. *)
Definition on_request {A} (id : string) (f : M RequestState.t A) : M t A := fun s =>
  match request_states s !! id with
  | None => (Err KeyError, s)
  | Some r => let '(a, r) := f r in (a, with_states (<[id := r]> (request_states s)) s)
  end.
Definition on_parent {A} (p : Z) (f : M Parent.t A) : M t A := fun s =>
  match parents s !! p with
  | None => (Err AttributeError, s)
  | Some r => let '(a, r) := f r in (a, with_parents (<[p := r]> (parents s)) s)
  end.

(** [ParentRequest(...)], [asyncio.Queue()]: a new object. *)
Definition new_parent (r : Parent.t) : M t Z :=
  s ← get;
  modify (fun s => with_next (next s + 1) (with_parents (<[next s := r]> (parents s)) s)) ;;
  mret (next s).
Definition new_queue : M t Z :=
  s ← get;
  modify (fun s => with_next (next s + 1) (with_queues (<[next s := []]> (queues s)) s)) ;;
  mret (next s).

Definition put_nowait (q : Z) (o : RequestOutput) : M t unit :=
  modify (fun s => with_queues (<[q := default [] (queues s !! q) ++ [o]]> (queues s)) s).

Definition get_num_unfinished_requests (s : t) : Z := Z.of_nat (size (request_states s)).
Definition has_unfinished_requests (s : t) : bool := 0 <? get_num_unfinished_requests s.

(** [if req_state.parent_req is not None: ...] *)
Definition finish_child (r : RequestState.t) (id : string) : M t unit :=
  match RequestState.parent_req r with
  | Some p => on_parent p (Parent.finish_child_request id)
  | None => mret tt
  end.

Definition abort_one (request_id : string) : M t unit :=
  s ← get;
  match request_states s !! request_id with
  | None => mret tt
  | Some r =>
      modify (with_states (delete request_id (request_states s))) ;;
      finish_child r request_id
  end.
Definition abort_requests (request_ids : list string) : M t unit := for_each request_ids abort_one.

Definition add_request (tokenizer : Tokenizer) (request : EngineCoreRequest) (parent_req : option Z)
    (request_index : Z) (queue : option Z) : M t unit :=
  s ← get;
  if bool_decide (is_Some (request_states s !! core_req_id request)) then raise ValueError
  else modify (with_states (<[core_req_id request :=
         RequestState.from_new_request tokenizer request parent_req request_index queue]> (request_states s))).

(** [req_state.make_request_output] *)
Definition make_request_output (id : string) (new_token_ids : list Z) (reason : option FinishReason)
    (stop_reason : option StopReason) : M t (option RequestOutput) :=
  r ← on_request id get;
  let finished := bool_decide (is_Some reason) in
  let final_only := bool_decide (RequestState.output_kind r = FINAL_ONLY) in
  if negb finished && (RequestState.is_prefilling r || final_only) then mret None
  else
    completion ← on_request id (RequestState.new_completion_output new_token_ids reason stop_reason);
    match RequestState.parent_req r with
    | Some p =>
        on_parent p (Parent.make_request_output final_only completion
          (RequestState.new_request_output r finished))
    | None =>
        mret (Some (with_outputs [completion]
          (RequestState.new_request_output r finished (RequestState.request_id r))))
    end.

(** The outputs to return and the requests to abort. *)
Definition processed : Type := list RequestOutput * list string.

(** [if stop_string and finish_reason != FinishReason.STOP] *)
Definition stopped_by (stop_string : option text) (reason : option FinishReason)
    (stop_reason : option StopReason) : option FinishReason * option StopReason :=
  match stop_string with
  | Some (_ :: _ as str) =>
      if bool_decide (reason = Some STOP) then (reason, stop_reason) else (Some STOP, Some (StopString str))
  | _ => (reason, stop_reason)
  end.

(** Give the output to the caller, or to the queue. *)
Definition deliver (r : RequestState.t) (out : option RequestOutput) : M t (list RequestOutput) :=
  match out, RequestState.queue r with
  | None, _ => mret []
  | Some o, Some q => put_nowait q o ;; mret []
  | Some o, None => mret [o]
  end.

(** [if finish_reason is not None: ...] *)
Definition free_completed (r : RequestState.t) (id : string) (reason : option FinishReason)
    (core_finished : bool) : M t (list string) :=
  match reason with
  | None => mret []
  | Some _ =>
      modify (fun s => with_states (delete id (request_states s)) s) ;;
      finish_child r id ;;
      mret (if core_finished then [] else [id])
  end.

(** The body of the loop. *)
Definition process_output (o : V1Scheduler.EngineCoreOutput) : M t processed :=
  let req_id := V1Scheduler.core_request_id o in
  s ← get;
  match request_states s !! req_id with
  | None => mret ([], [])
  | Some r =>
      let new_token_ids := V1Scheduler.core_new_token_ids o in
      on_request req_id (modify (RequestState.with_prefilling (bool_decide (new_token_ids = [])))) ;;
      stop_string ← on_request req_id (RequestState.on_detokenizer (Detok.update new_token_ids));
      let '(reason, stop_reason) := stopped_by stop_string (V1Scheduler.core_finish_reason o)
        (StopToken <$> V1Scheduler.core_stop_reason o) in
      out ← make_request_output req_id new_token_ids reason stop_reason;
      outs ← deliver r out;
      aborts ← free_completed r req_id reason (V1Scheduler.finished o);
      mret (outs, aborts)
  end.

Fixpoint process_outputs (engine_core_outputs : list V1Scheduler.EngineCoreOutput) : M t processed :=
  match engine_core_outputs with
  | [] => mret ([], [])
  | o :: l =>
      '(outs, aborts) ← process_output o;
      '(outs', aborts') ← process_outputs l;
      mret (outs ++ outs', aborts ++ aborts')
  end.
End OutputProcessor.

(** ** The processor of inputs *)

Module Processor.

(** [str] or a list of token ids. *)
Inductive Prompt : Type := TextPrompt (s : text) | TokensPrompt (ids : list Z).

(** What [Processor] reads of the configuration and of the tokenizer group:
    [encode] and [eos_token_id] for a LoRA request, and the check of a grammar. *)
Record t : Type := MkProcessor {
  max_logprobs : Z;
  max_model_len : Z;
  vocab_size : Z;
  lora_enabled : bool;
  eos_token_ids : option (list Z);
  get_lora_tokenizer : option Z -> Tokenizer;
  encode : option Z -> text -> list Z;
  get_eos_token_id : option Z -> option Z;
  validate_structured_output : Params.t -> result unit
}.

Definition validate_lora (c : t) (lora_request : option Z) : result unit :=
  Params.check (bool_decide (is_Some lora_request) && negb (lora_enabled c)) ValueError.

(** [x and x > max_logprobs] *)
Definition above (x : option Z) (m : Z) : bool :=
  match x with Some v => negb (v =? 0) && (m <? v) | None => false end.
Definition validate_logprobs (c : t) (p : Params.t) : result unit :=
  Params.check (above (Params.logprobs p) (max_logprobs c)) ValueError ;;
  Params.check (above (Params.prompt_logprobs p) (max_logprobs c)) ValueError.

Definition validate_sampling_params (c : t) (p : Params.t) : result unit :=
  validate_structured_output c p ;;
  match Params.allowed_token_ids p with
  | None => Ok tt
  | Some l =>
      Params.check (bool_decide (l = [])) ValueError ;;
      Params.check (negb (forallb (fun tid => (0 <=? tid) && (tid <? vocab_size c)) l)) ValueError
  end.

Definition validate_supported_sampling_params (p : Params.t) : result unit :=
  Params.check (match Params.best_of p with Some b => 1 <? b | None => false end) ValueError ;;
  Params.check (Params.logits_processors p) ValueError.

Definition validate_params (c : t) (p : Params.t) : result unit :=
  validate_logprobs c p ;;
  validate_sampling_params c p ;;
  validate_supported_sampling_params p.

Definition validate_model_inputs (c : t) (prompt_ids : list Z) : result unit :=
  Params.check (bool_decide (prompt_ids = [])) ValueError ;;
  Params.check (max_model_len c <=? Z.of_nat (length prompt_ids)) ValueError.

(** The tokens of a prompt, from [InputPreprocessor.preprocess]. *)
Definition preprocess (c : t) (prompt : Prompt) (lora_request : option Z) : option text * list Z :=
  match prompt with
  | TextPrompt s => (Some s, encode c lora_request s)
  | TokensPrompt ids => (None, ids)
  end.

Definition process_inputs (c : t) (request_id : string) (prompt : Prompt) (params : Params.t)
    (lora_request : option Z) (priority : Z) : result EngineCoreRequest :=
  validate_lora c lora_request ;;
  validate_params c params ;;
  Params.check (negb (priority =? 0)) ValueError ;;
  let '(prompt_text, ids) := preprocess c prompt lora_request in
  let eos_token_id := get_eos_token_id c lora_request in
  validate_model_inputs c ids ;;
  let sampling_params := Params.update_from_generation_config (eos_token_ids c) eos_token_id params in
  Ok (CoreRequest request_id prompt_text ids sampling_params eos_token_id lora_request).
End Processor.

(** ** The synchronous engine *)

Module LLMEngine.

Record t : Type := Engine {
  processor : Processor.t;
  output_processor : OutputProcessor.t;
  engine_core : EngineCore.t
}.

Definition on_output {A} (f : M OutputProcessor.t A) : M t A := fun s =>
  let '(r, x) := f (output_processor s) in (r, Engine (processor s) x (engine_core s)).
Definition on_core {A} (f : M EngineCore.t A) : M t A := fun s =>
  let '(r, x) := f (engine_core s) in (r, Engine (processor s) (output_processor s) x).

Definition get_num_unfinished_requests (s : t) : Z :=
  OutputProcessor.get_num_unfinished_requests (output_processor s).
Definition has_unfinished_requests (s : t) : bool :=
  OutputProcessor.has_unfinished_requests (output_processor s).

(** [InprocClient] *)
Definition core_add_request (request : EngineCoreRequest) (now : Q) : M EngineCore.t unit :=
  req ← lift (from_engine_core_request request);
  EngineCore.add_request req now.
Definition core_abort_requests (request_ids : list string) : M EngineCore.t unit :=
  if 0 <? Z.of_nat (length request_ids) then EngineCore.abort_requests request_ids else mret tt.

Definition abort_request (request_ids : list string) : M t unit :=
  on_core (core_abort_requests request_ids) ;;
  on_output (OutputProcessor.abort_requests request_ids).

(** One round of the loop of [add_request]. *)
Definition add_child (request_id : string) (prompt : Processor.Prompt) (params : Params.t)
    (lora_request : option Z) (priority : Z) (now : Q) (parent_req : option Z) (idx : Z) : M t unit :=
  '(request_id, params) ←
    match parent_req with
    | Some p => on_output (OutputProcessor.on_parent p (Parent.get_child_info idx))
    | None => mret (request_id, params)
    end;
  s ← get;
  request ← lift (Processor.process_inputs (processor s) request_id prompt params lora_request priority);
  on_output (OutputProcessor.add_request
    (Processor.get_lora_tokenizer (processor s) lora_request) request parent_req idx None) ;;
  on_core (core_add_request request now).

(** [ParentRequest.from_params] *)
Definition make_parent (request_id : string) (params : Params.t) : M t (option Z) :=
  match Parent.from_params request_id params with
  | None => mret None
  | Some p => a ← on_output (OutputProcessor.new_parent p); mret (Some a)
  end.

Definition add_request (request_id : string) (prompt : Processor.Prompt) (params : Params.t)
    (lora_request : option Z) (priority : Z) (now : Q) : M t unit :=
  parent_req ← make_parent request_id params;
  for_each (seqZ 0 (Params.n params))
    (add_child request_id prompt params lora_request priority now parent_req).

Section Step.
Context (py_hash : Z * list Z * option (list extra_key) -> Z) (hash_none : Z).
Context (execute_model : V1Scheduler.SchedulerOutput -> V1Scheduler.ModelRunnerOutput).

Definition step (now : Q) : M t (list RequestOutput) :=
  outputs ← on_core (EngineCore.step py_hash hash_none execute_model now);
  processed_outputs ← on_output (OutputProcessor.process_outputs outputs.1);
  on_core (core_abort_requests processed_outputs.2) ;;
  mret processed_outputs.1.
End Step.
End LLMEngine.

(** ** The asynchronous engine

    [AsyncLLM] and the engine core run in different processes: the requests to
    add and to abort are messages, which the core handles in order, and its
    outputs are messages back. *)

Module AsyncLLM.

Inductive message : Type := AddRequest (r : EngineCoreRequest) | AbortRequests (ids : list string).

Record t : Type := Async {
  processor : Processor.t;
  output_processor : OutputProcessor.t;
  sent : list message
}.

Definition on_output {A} (f : M OutputProcessor.t A) : M t A := fun s =>
  let '(r, x) := f (output_processor s) in (r, Async (processor s) x (sent s)).
Definition send (m : message) : M t unit :=
  modify (fun s => Async (processor s) (output_processor s) (sent s ++ [m])).
Definition make_parent (request_id : string) (params : Params.t) : M t (option Z) :=
  match Parent.from_params request_id params with
  | None => mret None
  | Some p => a ← on_output (OutputProcessor.new_parent p); mret (Some a)
  end.

Definition add_child (request_id : string) (prompt : Processor.Prompt) (params : Params.t)
    (lora_request : option Z) (priority : Z) (parent_req : option Z) (queue : Z) (idx : Z) : M t unit :=
  '(request_id, params) ←
    match parent_req with
    | Some p => on_output (OutputProcessor.on_parent p (Parent.get_child_info idx))
    | None => mret (request_id, params)
    end;
  s ← get;
  request ← lift (Processor.process_inputs (processor s) request_id prompt params lora_request priority);
  on_output (OutputProcessor.add_request
    (Processor.get_lora_tokenizer (processor s) lora_request) request parent_req idx (Some queue)) ;;
  send (AddRequest request).

Definition add_request (request_id : string) (prompt : Processor.Prompt) (params : Params.t)
    (lora_request : option Z) (priority : Z) : M t Z :=
  queue ← on_output OutputProcessor.new_queue;
  parent_req ← make_parent request_id params;
  for_each (seqZ 0 (Params.n params))
    (add_child request_id prompt params lora_request priority parent_req queue) ;;
  mret queue.

(** [abort_requests_async] sends only if there is something to abort. *)
Definition abort_requests_async (request_ids : list string) : M t unit :=
  if 0 <? Z.of_nat (length request_ids) then send (AbortRequests request_ids) else mret tt.

Definition abort (request_id : string) : M t unit :=
  abort_requests_async [request_id] ;;
  on_output (OutputProcessor.abort_requests [request_id]).

(** One slice of the outputs, in [_run_output_handler]; other tasks run between
    the slices. *)
Definition handle_slice (outputs_slice : list V1Scheduler.EngineCoreOutput) : M t unit :=
  processed_outputs ← on_output (OutputProcessor.process_outputs outputs_slice);
  assert_ (bool_decide (processed_outputs.1 = [])) ;;
  abort_requests_async processed_outputs.2.

(** [while not q.empty(): ...]: coalesce what is in the queue. *)
Fixpoint coalesce (kind : RequestOutputKind) (out : RequestOutput) (q : list RequestOutput) : result RequestOutput :=
  match q with
  | [] => Ok out
  | next_out :: q =>
      if bool_decide (kind = DELTA)
      then out ← add_output next_out out; coalesce kind out q
      else coalesce kind next_out q
  end.

(** The loop of [generate]: [arrivals] are the outputs that are in the queue at
    its rounds, where an empty queue is waited for; what it yields. *)
Fixpoint generate (kind : RequestOutputKind) (arrivals : list (list RequestOutput)) : result (list RequestOutput) :=
  match arrivals with
  | [] => Ok []
  | [] :: arrivals => generate kind arrivals
  | (out :: rest) :: arrivals =>
      out ← coalesce kind out rest;
      if output_finished out then Ok [out]
      else cons out <$> generate kind arrivals
  end.
End AsyncLLM.
