(* ===== verification/OutputProcessorCorrect.v ===== *)
(** * The output processor of v1 and parallel sampling

    A parallel request that is not streamed is answered once, with what all its
    children generated ([parallel_final_output]); the calls of the output processor
    never raise, and the requests that leave it are those that the core has
    finished and those that it asks to abort ([process_outputs_ok]). *)
From stdpp Require Import sorting.
From S2P Require Import Prelude.
From S2P Require Import Detokenizer.
From S2P Require Import DetokenizerCorrect.
From S2P Require Import FreeQueue.
From S2P Require Import V1Request.
From S2P Require Import BlockHashing.
From S2P Require Import V1Scheduler.
From S2P Require Import V1SchedulerUpdate.
From S2P Require Import Params.
From S2P Require Import V1FrontEnd.

(** ** Parallel sampling *)

Section Parallel.
Context (new_request_output : string -> RequestOutput).

(** The children's completions [done_] have come, and more are to come. *)
Definition aggregating (p : Parent.t) (done_ : list CompletionOutput) : Prop :=
  match Parent.output_aggregator p with
  | None => done_ = [] /\ outputs (new_request_output (Parent.request_id p)) = []
  | Some o => o = with_outputs done_ (new_request_output (Parent.request_id p))
  end.

Lemma aggregate_step p done_ c : aggregating p done_ ->
  Parent.make_request_output true c new_request_output p =
  if Z.of_nat (length done_) + 1 =? Parent.n p
  then (Ok (Some (with_outputs (py_sorted (fun c => [inject_Z (index c)]) (done_ ++ [c]))
               (new_request_output (Parent.request_id p)))), Parent.with_aggregator None p)
  else (Ok None, Parent.with_aggregator
          (Some (with_outputs (done_ ++ [c]) (new_request_output (Parent.request_id p)))) p).
Proof.
  intros H. unfold Parent.make_request_output. rewrite bind_run. cbn [get].
  assert (E : forall o, o = match Parent.output_aggregator p with
      | Some o => o | None => new_request_output (Parent.request_id p) end ->
      with_outputs (outputs o ++ [c]) o = with_outputs (done_ ++ [c]) (new_request_output (Parent.request_id p))).
  { intros o ->. unfold aggregating in H. destruct (Parent.output_aggregator p) as [o|].
    - by subst o.
    - destruct H as [-> ->]. by destruct (new_request_output _). }
  rewrite (E _ eq_refl). cbn [outputs with_outputs]. rewrite length_app. cbn [length andb].
  replace (Z.of_nat (length done_ + 1)) with (Z.of_nat (length done_) + 1) by lia.
  by destruct (_ =? _).
Qed.

Lemma aggregate_all : forall rest p done_, aggregating p done_ ->
  Z.of_nat (length done_ + length rest) = Parent.n p -> rest <> [] ->
  exists p', map_each rest (fun c => Parent.make_request_output true c new_request_output) p =
    (Ok (replicate (length rest - 1) None ++
         [Some (with_outputs (py_sorted (fun c => [inject_Z (index c)]) (done_ ++ rest))
                  (new_request_output (Parent.request_id p)))]), p') /\
    Parent.output_aggregator p' = None.
Proof.
  induction rest as [|c rest IH]; intros p done_ Hagg Hn Hne; [done|].
  cbn [map_each]. rewrite bind_run, (aggregate_step p done_ c Hagg).
  destruct rest as [|c' rest].
  - cbn [length] in Hn. destruct (Z.eqb_spec (Z.of_nat (length done_) + 1) (Parent.n p)); [|lia].
    by eexists.
  - cbn [length] in Hn. destruct (Z.eqb_spec (Z.of_nat (length done_) + 1) (Parent.n p)); [lia|].
    destruct (IH (Parent.with_aggregator
      (Some (with_outputs (done_ ++ [c]) (new_request_output (Parent.request_id p)))) p) (done_ ++ [c]))
      as (p' & Hrun & Hnone); [done| |done|].
    { rewrite length_app. cbn [length Parent.n Parent.with_aggregator Parent.sampling_params].
      unfold Parent.n in *. cbn [Parent.with_aggregator Parent.sampling_params]. lia. }
    rewrite (bind_step _ _ _ _ _ Hrun). exists p'. split; [|done].
    rewrite <- app_assoc. cbn [app length Nat.sub replicate Parent.request_id Parent.with_aggregator].
    by rewrite Nat.sub_0_r.
Qed.
End Parallel.

(** Sorting the children by index. *)
Lemma sorted_indices (l : list CompletionOutput) n :
  map index l ≡ₚ seqZ 0 n -> map index (py_sorted (fun c => [inject_Z (index c)]) l) = seqZ 0 n.
Proof.
  intros Hp. set (f := fun c => [inject_Z (index c)]).
  apply (StronglySorted_unique Z.le).
  - pose proof (py_sorted_ordered f l) as Ho. unfold ordered in Ho. induction Ho as [|x l' _ IH Hx]; [constructor|].
    cbn. constructor; [done|]. apply Forall_map. eapply Forall_impl; [exact Hx|]. intros y Hy.
    unfold f in Hy. apply key_leb_cons_Z in Hy. lia.
  - clear. induction (seqZ_sorted 0 n) as [|x l' _ IH Hx]; [constructor|]. constructor; [done|].
    eapply Forall_impl; [exact Hx|]. cbn. lia.
  - rewrite (Permutation_map index (py_sorted_perm f l)). done.
Qed.

(** C31. A parallel request that is not streamed is answered once: whatever the
    order in which its children finish, [make_request_output] returns nothing for
    all but the last one, and then one output, of the parent's id, with exactly
    the children's completions, in the order of their indices; nothing is left in
    the aggregator. *)
Theorem parallel_final_output request_id params new_request_output (completions : list CompletionOutput)
    (Hempty : forall id, outputs (new_request_output id) = [])
    (Hid : forall id, output_request_id (new_request_output id) = id)
    (Hn : 1 <= Params.n params)
    (Hchildren : map index completions ≡ₚ seqZ 0 (Params.n params)) :
  exists o p',
    map_each completions (fun c => Parent.make_request_output true c new_request_output)
      (Parent.init request_id params) =
      (Ok (replicate (length completions - 1) None ++ [Some o]), p') /\
    output_request_id o = request_id /\
    outputs o ≡ₚ completions /\
    map index (outputs o) = seqZ 0 (Params.n params) /\
    Parent.output_aggregator p' = None.
Proof.
  assert (Hlen : Z.of_nat (length completions) = Params.n params).
  { pose proof (f_equal Z.of_nat (Permutation_length Hchildren)) as Hl.
    rewrite length_map, length_seqZ in Hl. lia. }
  destruct (aggregate_all new_request_output completions (Parent.init request_id params) [])
    as (p' & Hrun & Hagg); [by split|done|by intros ->; cbn in Hlen; lia|].
  eexists _, p'. split; [exact Hrun|]. split_and!.
  - apply Hid.
  - apply py_sorted_perm.
  - by apply sorted_indices.
  - done.
Qed.

Lemma parallel_final_output_witness :
  let new_ id := MkRequestOutput id None [1] [] true in
  exists o p',
    map_each [Completion 1 [6] [6] None None; Completion 0 [5] [5] None None]
      (fun c => Parent.make_request_output true c new_)
      (Parent.init "p" (Params.with_n 2 None (Params.sample_params 1))) = (Ok [None; Some o], p') /\
    map index (outputs o) = [0; 1].
Proof.
  cbv zeta. destruct (parallel_final_output "p" (Params.with_n 2 None (Params.sample_params 1))
    (fun id => MkRequestOutput id None [1] [] true) [Completion 1 [6] [6] None None; Completion 0 [5] [5] None None])
    as (o & p' & H1 & _ & _ & H2 & _); [reflexivity|reflexivity|discriminate|apply Permutation_swap|].
  exists o, p'. split; [exact H1|exact H2].
Defined.

(** ** The output processor *)

Module OP.
Import OutputProcessor.

(** A live request is filed under its id, and its parent, if it has one, waits
    for it. *)
Record op_ok (s : t) : Prop := OpOk {
  oo_id : forall id r, request_states s !! id = Some r -> RequestState.request_id r = id;
  oo_parent : forall id r p, request_states s !! id = Some r -> RequestState.parent_req r = Some p ->
    exists pr, parents s !! p = Some pr /\ id ∈ Parent.child_requests pr;
  oo_fresh : forall id r p, request_states s !! id = Some r -> RequestState.parent_req r = Some p -> p < next s
}.

Definition live_ids (s : t) : gset string := dom (request_states s).

(** The identity of a request does not change. *)
Definition same_request (r r' : RequestState.t) : Prop :=
  RequestState.request_id r' = RequestState.request_id r /\
  RequestState.parent_req r' = RequestState.parent_req r.

Lemma on_request_ok {A} id (f : M RequestState.t A) s r (Q : A -> RequestState.t -> Prop) :
  op_ok s -> request_states s !! id = Some r ->
  meets f r (fun a r' => same_request r r' /\ Q a r') ->
  meets (on_request id f) s (fun a s' => op_ok s' /\ live_ids s' = live_ids s /\
    exists r', request_states s' !! id = Some r' /\ same_request r r' /\ Q a r').
Proof.
  intros [H1 H2 H3] Hr Hf. apply meets_run in Hf as (a & r' & Hrun & [Hid Hp] & HQ).
  unfold on_request, meets. rewrite Hr, Hrun. cbn. split_and!.
  - split; cbn.
    + intros i x [[<- <-]|[_ Hx]]%lookup_insert_Some; [rewrite Hid|]; by apply H1.
    + intros i x p [[<- <-]|[_ Hx]]%lookup_insert_Some Hxp; [|by apply (H2 i x)].
      rewrite Hp in Hxp. by apply (H2 id r).
    + intros i x p [[<- <-]|[_ Hx]]%lookup_insert_Some Hxp; [|by apply (H3 i x)].
      rewrite Hp in Hxp. by apply (H3 id r).
  - unfold live_ids. cbn. rewrite dom_insert_L. apply elem_of_dom_2 in Hr. set_solver.
  - exists r'. by rewrite lookup_insert_eq.
Qed.

(** A change of a parent that keeps the children the live requests need. *)
Lemma on_parent_ok {A} p (f : M Parent.t A) s pr (Q : A -> Prop) :
  op_ok s -> parents s !! p = Some pr ->
  meets f pr (fun a pr' => Q a /\ forall id, is_Some (request_states s !! id) ->
    id ∈ Parent.child_requests pr -> id ∈ Parent.child_requests pr') ->
  meets (on_parent p f) s (fun a s' => op_ok s' /\ request_states s' = request_states s /\ Q a).
Proof.
  intros [H1 H2 H3] Hp Hf. apply meets_run in Hf as (a & pr' & Hrun & HQ & Hkeep).
  unfold on_parent, meets. rewrite Hp, Hrun. cbn. split_and!; [|done..]. split; cbn; [done| |done].
  intros id r p' Hr Hrp. destruct (H2 id r p' Hr Hrp) as (pr0 & Hp0 & Hin).
  destruct (decide (p' = p)) as [->|Hne].
  - exists pr'. rewrite lookup_insert_eq. split; [done|]. apply Hkeep; [eauto|].
    rewrite Hp in Hp0. by injection Hp0 as <-.
  - exists pr0. by rewrite lookup_insert_ne.
Qed.

(** The request leaves, and its parent no longer waits for it. *)
Lemma leave_ok s id r :
  op_ok s -> request_states s !! id = Some r ->
  meets (finish_child r id) (with_states (delete id (request_states s)) s) (fun _ s' =>
    op_ok s' /\ live_ids s' = live_ids s ∖ {[id]}).
Proof.
  intros [H1 H2 H3] Hr. set (s0 := with_states _ s).
  assert (Hok : op_ok s0).
  { split; cbn.
    - intros i x [_ Hx]%lookup_delete_Some. by apply H1.
    - intros i x p [_ Hx]%lookup_delete_Some. by apply (H2 i x).
    - intros i x p [_ Hx]%lookup_delete_Some. by apply (H3 i x). }
  assert (Hdom : live_ids s0 = live_ids s ∖ {[id]}) by apply dom_delete_L.
  unfold finish_child. destruct (RequestState.parent_req r) as [p|] eqn:Hp; [|by apply meets_ret].
  destruct (H2 id r p Hr Hp) as (pr & Hpr & Hin).
  eapply meets_weaken; [apply (on_parent_ok p _ s0 pr (fun _ => True) Hok Hpr)|].
  - unfold Parent.finish_child_request. apply meets_get. rewrite bool_decide_true by done.
    cbn. split; [done|]. intros i [x Hx]. cbn in Hx. apply lookup_delete_Some in Hx as [Hne _]. set_solver.
  - intros [] s' (Hok' & Hst & _). split; [done|]. rewrite <- Hdom. unfold live_ids. by rewrite Hst.
Qed.

Lemma abort_one_ok id s : op_ok s ->
  meets (abort_one id) s (fun _ s' => op_ok s' /\ live_ids s' = live_ids s ∖ {[id]}).
Proof.
  intros Hok. unfold abort_one. apply meets_get. destruct (request_states s !! id) as [r|] eqn:Hr.
  - eapply meets_step; [done|]. by apply leave_ok.
  - apply meets_ret. split; [done|]. apply not_elem_of_dom in Hr. unfold live_ids. set_solver.
Qed.

Lemma abort_requests_ok ids : forall s, op_ok s ->
  meets (abort_requests ids) s (fun _ s' => op_ok s' /\ live_ids s' = live_ids s ∖ list_to_set ids).
Proof.
  induction ids as [|id ids IH]; intros s Hok; cbn [abort_requests for_each].
  - apply meets_ret. split; [done|]. set_solver.
  - eapply meets_bind; [by apply abort_one_ok|]. intros [] s1 [Hok1 Hd1].
    eapply meets_weaken; [by apply IH|]. intros [] s2 [Hok2 Hd2]. split; [done|]. set_solver.
Qed.

(** ** One output of the engine *)

Definition known (id : string) (r : RequestState.t) (s : t) : Prop :=
  exists r', request_states s !! id = Some r' /\ same_request r r'.

(** Nothing has changed for the requests but their contents. *)
Definition steady (id : string) (r : RequestState.t) (s s' : t) : Prop :=
  op_ok s' /\ live_ids s' = live_ids s /\ known id r s'.

Lemma on_request_steady {A} id (f : M RequestState.t A) s r (Q : A -> RequestState.t -> Prop) :
  op_ok s -> known id r s ->
  (forall r', same_request r r' -> meets f r' (fun a r'' => same_request r' r'' /\ Q a r'')) ->
  meets (on_request id f) s (fun a s' => steady id r s s' /\
    exists r', request_states s' !! id = Some r' /\ same_request r r' /\ Q a r').
Proof.
  intros Hok (r' & Hr & [E1 E2]) Hf.
  eapply meets_weaken; [apply (on_request_ok id f s r' Q Hok Hr), Hf; by split|].
  intros a s' (Hok' & Hd & r'' & Hr' & [E3 E4] & HQ).
  assert (Hs : same_request r r'') by (split; congruence).
  split; [split; [done|split; [done|by exists r'']]|by exists r''].
Qed.

Lemma detokenizer_steady {A} (f : M Detok.t A) r :
  (forall d, meets f d (fun _ _ => True)) ->
  meets (RequestState.on_detokenizer f) r (fun a r' => same_request r r').
Proof.
  intros Hf. unfold RequestState.on_detokenizer. specialize (Hf (RequestState.detokenizer r)).
  apply meets_run in Hf as (a & d & Hrun & _). unfold meets. by rewrite Hrun.
Qed.

Lemma completion_steady toks reason sr r :
  meets (RequestState.new_completion_output toks reason sr) r (fun _ r' => same_request r r').
Proof.
  unfold RequestState.new_completion_output. apply meets_get.
  eapply meets_bind; [apply detokenizer_steady; intros d; apply Streaming.next_text_returns|].
  intros x r' Hr. apply meets_get. by apply meets_ret.
Qed.

Lemma make_output_ok id toks reason sr s r : op_ok s -> known id r s ->
  meets (make_request_output id toks reason sr) s (fun _ s' => steady id r s s').
Proof.
  intros Hok Hk. unfold make_request_output.
  eapply meets_bind; [apply (on_request_steady id get s r (fun a r' => a = r') Hok Hk); by intros|].
  intros ra s1 ([Hok1 [Hd1 Hk1]] & r1 & Hr1 & Hs1 & ->). cbv zeta.
  destruct (negb _ && _); [apply meets_ret; by split_and!|].
  eapply meets_bind; [apply (on_request_steady id _ s1 r (fun _ _ => True) Hok1 Hk1)|].
  { intros r' _. eapply meets_weaken; [apply completion_steady|]. done. }
  intros c s2 ([Hok2 [Hd2 Hk2]] & r2 & Hr2 & Hs2 & _).
  assert (Hst : steady id r s s2) by (split; [done|split; [congruence|done]]).
  destruct (RequestState.parent_req r1) as [p|] eqn:Hp; [|by apply meets_ret].
  assert (Hp2 : RequestState.parent_req r2 = Some p) by (destruct Hs1, Hs2; congruence).
  destruct (oo_parent _ Hok2 id r2 p Hr2 Hp2) as (pr & Hpr & Hin).
  eapply meets_weaken; [apply (on_parent_ok p _ s2 pr (fun _ => True) Hok2 Hpr)|].
  - unfold Parent.make_request_output. apply meets_get. cbv zeta.
    destruct (_ && _); (eapply meets_step; [done|]); by apply meets_ret.
  - intros a s3 (Hok3 & Est & _). destruct Hst as (_ & Hd & r' & Hr' & Hs').
    split; [done|]. split; [unfold live_ids in *; by rewrite Est|]. exists r'. by rewrite Est.
Qed.

Lemma finish_child_same r r' id : same_request r r' -> finish_child r' id = finish_child r id.
Proof. intros [_ E]. unfold finish_child. by rewrite E. Qed.

Lemma deliver_ok r out s id r0 : op_ok s -> known id r0 s -> meets (deliver r out) s (fun _ s' => steady id r0 s s').
Proof.
  intros Hok Hk. unfold deliver. destruct out as [o|]; [|by apply meets_ret].
  destruct (RequestState.queue r) as [q|]; [|by apply meets_ret].
  eapply meets_step; [done|]. apply meets_ret. split; [|by split].
  by destruct Hok.
Qed.

Lemma stopped_by_finished str reason sr : is_Some reason -> is_Some (stopped_by str reason sr).1.
Proof. intros H. unfold stopped_by. destruct str as [[|x l]|]; [done| |done]. by case_bool_decide. Qed.

(** The requests that leave are those that the engine has finished, and those to
    be aborted. *)
Lemma process_output_ok o s : op_ok s ->
  meets (process_output o) s (fun res s' =>
    op_ok s' /\ live_ids s' = live_ids s ∖ (finished_ids [o] ∪ list_to_set res.2) /\
    Forall (fun i => i = V1Scheduler.core_request_id o) res.2).
Proof.
  intros Hok. unfold process_output. set (id := V1Scheduler.core_request_id o).
  assert (Hfin : finished_ids [o] = if V1Scheduler.finished o then {[id]} else ∅).
  { unfold finished_ids. cbn. destruct (V1Scheduler.finished o); cbn; [set_solver|done]. }
  apply meets_get. destruct (request_states s !! id) as [r|] eqn:Hr.
  2:{ apply meets_ret. split; [done|]. split; [|done]. apply not_elem_of_dom in Hr. cbn [snd]. rewrite Hfin.
      unfold live_ids. destruct (V1Scheduler.finished o); set_solver. }
  assert (Hk : known id r s) by (by exists r). cbv zeta.
  eapply meets_bind; [apply (on_request_steady id _ s r (fun _ _ => True) Hok Hk)|].
  { intros r' _. done. }
  intros [] s1 ([Hok1 [Hd1 Hk1]] & _).
  eapply meets_bind; [apply (on_request_steady id _ s1 r (fun _ _ => True) Hok1 Hk1)|].
  { intros r' _. eapply meets_weaken; [apply detokenizer_steady; intros d; apply Streaming.update_returns|]. done. }
  intros str s2 ([Hok2 [Hd2 Hk2]] & _).
  destruct (stopped_by str _ _) as [reason sr] eqn:Est.
  eapply meets_bind; [by apply (make_output_ok id _ reason sr s2 r)|]. intros out s3 (Hok3 & Hd3 & Hk3).
  eapply meets_bind; [by apply (deliver_ok r out s3 id r)|]. intros outs s4 (Hok4 & Hd4 & r4 & Hr4 & Hs4).
  assert (Hd : live_ids s4 = live_ids s) by congruence.
  assert (Hreason : V1Scheduler.finished o = true -> is_Some reason).
  { unfold V1Scheduler.finished. intros H%bool_decide_eq_true.
    change reason with (reason, sr).1. rewrite <- Est. apply stopped_by_finished.
    by apply not_eq_None_Some. }
  unfold free_completed. destruct reason as [rs|].
  - apply (meets_bind _ _ _ (fun ab s5 => ab = (if V1Scheduler.finished o then [] else [id]) /\
      op_ok s5 /\ live_ids s5 = live_ids s4 ∖ {[id]})).
    + eapply meets_step; [done|]. rewrite <- (finish_child_same _ _ id Hs4).
      eapply meets_bind; [by apply (leave_ok s4 id r4)|]. intros [] s5 H5. by apply meets_ret.
    + intros ab s5 (-> & Hok5 & Hd5). apply meets_ret. split; [done|]. cbn [snd]. rewrite Hfin, Hd5, Hd.
      destruct (V1Scheduler.finished o); (split; [set_solver|by repeat constructor]).
  - eapply meets_step; [done|]. apply meets_ret. split; [done|]. split; [|done]. cbn [snd]. rewrite Hfin, Hd.
    destruct (V1Scheduler.finished o) eqn:E; [by destruct (Hreason eq_refl)|set_solver].
Qed.

Lemma process_outputs_ok l : forall s, op_ok s ->
  meets (process_outputs l) s (fun res s' =>
    op_ok s' /\ live_ids s' = live_ids s ∖ (finished_ids l ∪ list_to_set res.2) /\
    Forall (fun i => i ∈ V1Scheduler.core_request_id <$> l) res.2).
Proof.
  induction l as [|o l IH]; intros s Hok; cbn [process_outputs].
  - apply meets_ret. split; [done|]. split; [cbn; set_solver|done].
  - eapply meets_bind; [by apply process_output_ok|]. intros [outs aborts] s1 (Hok1 & Hd1 & Ha1).
    eapply meets_bind; [by apply IH|]. intros [outs' aborts'] s2 (Hok2 & Hd2 & Ha2). apply meets_ret.
    split; [done|]. cbn [snd] in *. rewrite Hd2, Hd1, list_to_set_app_L. split.
    + change (o :: l) with ([o] ++ l). rewrite finished_ids_app. set_solver.
    + apply Forall_app. split; (eapply Forall_impl; [eassumption|]); cbn; set_solver.
Qed.
End OP.
