(* ===== verification/V1FrontEndCorrect.v ===== *)
(** * The two sides of the v1 engine agree

    The requests filed in the front end and those of the scheduler are the same,
    whatever is added, aborted and finished ([front_end_agrees]); two things the
    engine gets wrong ([unlimited_request_wedges], [abort_misses_samples]); and
    what becomes of outputs that wait in the queue of the caller
    ([merged_deltas]). *)
From stdpp Require Import pretty.
From S2P Require Import Prelude.
From S2P Require Import PyDict.
From S2P Require Import Detokenizer.
From S2P Require Import DetokenizerCorrect.
From S2P Require Import FreeQueue.
From S2P Require Import V1Request.
From S2P Require Import BlockHashing.
From S2P Require Import KVManagerCorrect.
From S2P Require Import V1Scheduler.
From S2P Require Import EngineCore.
From S2P Require Import V1SchedulerInv.
From S2P Require Import V1SchedulerSchedule.
From S2P Require Import V1SchedulerUpdate.
From S2P Require Import EngineCoreCorrect.
From S2P Require Import Params.
From S2P Require Import V1FrontEnd.
From S2P Require Import OutputProcessorCorrect.

(** ** Requests that arrive *)

Module Arrivals.
Import OutputProcessor OP.

(** A parent whose set of children grows. *)
Lemma op_ok_parent s p pr pr' : op_ok s -> parents s !! p = Some pr ->
  Parent.child_requests pr ⊆ Parent.child_requests pr' ->
  op_ok (with_parents (<[p := pr']> (parents s)) s).
Proof.
  intros [H1 H2 H3] Hp Hsub. split; cbn; [done| |done].
  intros id r p' Hr Hrp. destruct (H2 id r p' Hr Hrp) as (pr0 & Hp0 & Hin).
  destruct (decide (p' = p)) as [->|Hne].
  - exists pr'. rewrite lookup_insert_eq. split; [done|]. apply Hsub. rewrite Hp in Hp0. by injection Hp0 as <-.
  - exists pr0. by rewrite lookup_insert_ne.
Qed.

(** A new parent. *)
Lemma op_ok_new s pr : op_ok s ->
  op_ok (with_next (next s + 1) (with_parents (<[next s := pr]> (parents s)) s)).
Proof.
  intros [H1 H2 H3]. split; cbn; [done| |].
  - intros id r p Hr Hrp. pose proof (H3 id r p Hr Hrp). rewrite lookup_insert_ne by lia. by apply (H2 id r).
  - intros id r p Hr Hrp. pose proof (H3 id r p Hr Hrp). lia.
Qed.

(** What a request may have as its parent. *)
Definition has_parent (s : t) (id : string) (parent_req : option Z) : Prop :=
  match parent_req with
  | None => True
  | Some p => p < next s /\ exists pr, parents s !! p = Some pr /\ id ∈ Parent.child_requests pr
  end.

Lemma op_ok_insert s id r : op_ok s -> RequestState.request_id r = id ->
  has_parent s id (RequestState.parent_req r) -> op_ok (with_states (<[id := r]> (request_states s)) s).
Proof.
  intros [H1 H2 H3] Hid Hp. unfold has_parent in Hp. split; cbn.
  - intros i x [[<- <-]|[_ Hx]]%lookup_insert_Some; [done|by apply H1].
  - intros i x p [[<- <-]|[_ Hx]]%lookup_insert_Some Hxp; [|by apply (H2 i x)]. rewrite Hxp in Hp. apply Hp.
  - intros i x p [[<- <-]|[_ Hx]]%lookup_insert_Some Hxp; [|by apply (H3 i x)]. rewrite Hxp in Hp. apply Hp.
Qed.

(** A parent whose children all have a limit. *)
Record parent_ok (id : string) (pr : Parent.t) : Prop := ParentOk {
  po_id : Parent.request_id pr = id;
  po_limit : Params.max_tokens (Parent.sampling_params pr) <> None;
  po_cached : forall c, Parent.cached_child_sampling_params pr = Some c -> Params.max_tokens c <> None
}.

Lemma get_child_info_ok id idx pr : parent_ok id pr ->
  meets (Parent.get_child_info idx) pr (fun res pr' =>
    res.1 = Parent.child_id idx id /\ Params.max_tokens res.2 <> None /\ parent_ok id pr' /\
    Parent.child_requests pr' = {[res.1]} ∪ Parent.child_requests pr).
Proof.
  intros [H1 H2 H3]. unfold Parent.get_child_info. apply meets_get. eapply meets_step; [done|].
  eapply meets_bind with (R := fun params pr' => Params.max_tokens params <> None /\ parent_ok id pr' /\
    Parent.child_requests pr' = {[Parent.child_id idx id]} ∪ Parent.child_requests pr).
  2:{ intros params pr' (Hm & Hok & Hc). apply meets_ret. cbn. by rewrite H1. }
  unfold Parent.get_child_sampling_params. apply meets_get. cbn [Parent.cached_child_sampling_params Parent.with_children].
  rewrite H1. destruct (Parent.cached_child_sampling_params pr) as [c|] eqn:Ec.
  { apply meets_ret. split; [by apply H3|]. split; [|done]. split; cbn; try done. intros c' Hc'. apply H3. congruence. }
  cbn [Parent.sampling_params Parent.with_children]. destruct (Params.seed _) as [sd|].
  - apply meets_ret. split; [done|]. split; [|done]. split; cbn; try done. by rewrite Ec.
  - eapply meets_step; [done|]. apply meets_ret. split; [done|]. split; [|done]. split; cbn; try done. by intros c [= <-].
Qed.
End Arrivals.

(** What [process_inputs] may raise: its own errors, and those of the back end of
    the grammars. *)
Definition refused (c : Processor.t) (e : exn) : Prop :=
  e = ValueError \/ exists p, Processor.validate_structured_output c p = Err e.

Lemma result_bind_cases {A B} (x : result A) (f : A -> result B) (Q : B -> Prop) (E : exn -> Prop) :
  match x with Ok a => match f a with Ok b => Q b | Err e => E e end | Err e => E e end ->
  match x ≫= f with Ok b => Q b | Err e => E e end.
Proof. by destruct x. Qed.

Lemma check_cases {B} (b : bool) (f : unit -> result B) (Q : B -> Prop) (E : exn -> Prop) :
  E ValueError -> (b = false -> match f tt with Ok x => Q x | Err e => E e end) ->
  match Params.check b ValueError ≫= f with Ok x => Q x | Err e => E e end.
Proof. intros He H. destruct b; [done|by apply H]. Qed.

Lemma check_last (b : bool) (Q : unit -> Prop) (E : exn -> Prop) :
  E ValueError -> (b = false -> Q tt) ->
  match Params.check b ValueError with Ok x => Q x | Err e => E e end.
Proof. intros He H. destruct b; [done|by apply H]. Qed.

Lemma validate_params_cases c p :
  match Processor.validate_params c p with Ok _ => True | Err e => refused c e end.
Proof.
  assert (Hv : refused c ValueError) by by left. unfold Processor.validate_params.
  apply result_bind_cases. destruct (Processor.validate_logprobs c p) as [[]|e] eqn:E.
  2:{ unfold Processor.validate_logprobs in E. revert E. unfold Params.check.
      by destruct (Processor.above _ _), (Processor.above _ _); intros [= <-]. }
  clear E. apply result_bind_cases. destruct (Processor.validate_sampling_params c p) as [[]|e] eqn:E.
  2:{ unfold Processor.validate_sampling_params in E.
      destruct (Processor.validate_structured_output c p) as [[]|e'] eqn:Es; cbn in E.
      - destruct (Params.allowed_token_ids p); [|done]. revert E. unfold Params.check.
        by destruct (bool_decide _), (negb _); intros [= <-].
      - injection E as <-. right. by exists p. }
  unfold Processor.validate_supported_sampling_params. apply check_cases; [done|]. intros _.
  by apply check_last.
Qed.

Lemma updated_max_tokens eos e p :
  Params.max_tokens (Params.update_from_generation_config eos e p) = Params.max_tokens p.
Proof. unfold Params.update_from_generation_config. destruct e, eos; cbn; try done; by case_bool_decide. Qed.

(** A request that is accepted has a prompt that leaves room in the model. *)
Record accepted (c : Processor.t) (id : string) (params : Params.t) (q : EngineCoreRequest) : Prop := Accepted {
  ac_id : core_req_id q = id;
  ac_max_tokens : Params.max_tokens (core_sampling_params q) = Params.max_tokens params;
  ac_prompt : core_prompt_token_ids q <> [];
  ac_room : Z.of_nat (length (core_prompt_token_ids q)) < Processor.max_model_len c
}.

Lemma process_inputs_cases c id prompt params lora priority :
  match Processor.process_inputs c id prompt params lora priority with
  | Ok q => accepted c id params q
  | Err e => refused c e
  end.
Proof.
  assert (Hv : refused c ValueError) by by left. unfold Processor.process_inputs, Processor.validate_lora.
  apply check_cases; [done|]. intros _. apply result_bind_cases. pose proof (validate_params_cases c params) as Hp.
  destruct (Processor.validate_params c params); [|done]. apply check_cases; [done|]. intros _.
  destruct (Processor.preprocess c prompt lora) as [txt ids]. unfold Processor.validate_model_inputs.
  apply result_bind_cases. apply check_cases; [done|]. intros Hne%bool_decide_eq_false.
  apply check_last; [done|]. intros Hlt. split; cbn; [done|apply updated_max_tokens|done|lia].
Qed.

Lemma core_request_cases c id params q : accepted c id params q ->
  match Params.max_tokens params with
  | None => from_engine_core_request q = Err AssertionError
  | Some _ => exists r, from_engine_core_request q = Ok r /\ Request.request_id r = id /\
      fresh (Processor.max_model_len c) r
  end.
Proof.
  intros [H1 H2 H3 H4]. unfold from_engine_core_request, Request.init. cbn [Params.core_params max_tokens_param].
  rewrite H2. destruct (Params.max_tokens params) as [m|]; [|done]. cbn. eexists. split; [done|].
  split; [done|]. split; cbn; [|done| |done].
  - split; cbn; [done|done| |]; unfold Request.num_tokens; cbn; destruct (core_prompt_token_ids q); [done|cbn; lia|done|lia].
  - destruct (Params.guided_decoding _); [by right|by left].
Qed.

(** ** The engine: the two sides know the same requests *)

Module LLM.
Import LLMEngine OP.
Section LLM.
Context (py_hash : Z * list Z * option (list extra_key) -> Z) (hash_none : Z).
Context (execute_model : V1Scheduler.SchedulerOutput -> V1Scheduler.ModelRunnerOutput).

Abbreviation scheduler_of s := (EngineCore.scheduler (engine_core s)).
Abbreviation core_ids s := (V1Scheduler.requests (scheduler_of s)).
Abbreviation front_ids s := (live_ids (output_processor s)).
Abbreviation step := (LLMEngine.step py_hash hash_none execute_model).

(** The front end knows the requests of the core, and the requests [w] besides. *)
Record agrees (w : gset string) (s : LLMEngine.t) : Prop := Agrees {
  ag_core : rest py_hash hash_none (scheduler_of s);
  ag_op : op_ok (output_processor s);
  ag_ids : front_ids s = core_ids s ∪ w;
  ag_apart : core_ids s ## w;
  ag_len : Processor.max_model_len (processor s) = V1Scheduler.max_model_len (scheduler_of s)
}.

Lemma meets_on_core {A} (f : M EngineCore.t A) s (Q : A -> EngineCore.t -> Prop) :
  meets f (engine_core s) Q ->
  meets (on_core f) s (fun a s' => Q a (engine_core s') /\ output_processor s' = output_processor s /\
    processor s' = processor s).
Proof. unfold meets, on_core. by destruct (f (engine_core s)) as [[a|e] x]. Qed.

Lemma meets_on_output {A} (f : M OutputProcessor.t A) s (Q : A -> OutputProcessor.t -> Prop) :
  meets f (output_processor s) Q ->
  meets (on_output f) s (fun a s' => Q a (output_processor s') /\ engine_core s' = engine_core s /\
    processor s' = processor s).
Proof. unfold meets, on_output. by destruct (f (output_processor s)) as [[a|e] x]. Qed.

(** Aborting in the core. *)
Lemma core_abort_ok ids c : rest py_hash hash_none (EngineCore.scheduler c) ->
  meets (core_abort_requests ids) c (fun _ c' => rest py_hash hash_none (EngineCore.scheduler c') /\
    V1Scheduler.requests (EngineCore.scheduler c') = V1Scheduler.requests (EngineCore.scheduler c) ∖ list_to_set ids /\
    V1Scheduler.max_model_len (EngineCore.scheduler c') = V1Scheduler.max_model_len (EngineCore.scheduler c)).
Proof.
  intros Hr. unfold core_abort_requests. destruct ids as [|i ids].
  { apply meets_ret. split; [done|]. split; [|done]. symmetry. apply difference_empty_L. }
  replace (0 <? Z.of_nat (length (i :: ids))) with true by (cbn; symmetry; apply Z.ltb_lt; lia).
  destruct Hr as [Hi Hs Hd].
  destruct (finish_requests_ok py_hash hash_none (i :: ids) FINISHED_ABORTED (EngineCore.scheduler c) Hi Hs Hd eq_refl)
    as (s' & Ha & Hi' & Hs' & Hd' & He & Hr').
  unfold meets, EngineCore.abort_requests. rewrite (on_scheduler_run _ _ _ _ Ha). cbn.
  split; [by split|]. split; [done|apply He].
Qed.

Lemma abort_agrees w ids s : agrees w s ->
  meets (abort_request ids) s (fun _ s' => agrees (w ∖ list_to_set ids) s').
Proof.
  intros [H1 H2 H3 H4 H5]. unfold abort_request.
  eapply meets_bind; [apply meets_on_core, core_abort_ok, H1|].
  intros [] s1 ((Hr1 & Hids1 & Hl1) & Ho1 & Hp1). 
  eapply meets_weaken; [apply meets_on_output, abort_requests_ok; by rewrite Ho1|].
  intros [] s2 ((Hok2 & Hd2) & Hc2 & Hp2). split.
  - by rewrite Hc2.
  - done.
  - rewrite Hd2, Hc2, Hids1, Ho1, H3. set_solver.
  - rewrite Hc2, Hids1. set_solver.
  - rewrite Hc2, Hp2, Hp1, Hl1. done.
Qed.

Lemma step_agrees w now s : agrees w s ->
  executes py_hash hash_none execute_model now (scheduler_of s) ->
  meets (step now) s (fun _ s' => agrees w s').
Proof.
  intros [H1 H2 H3 H4 H5] Hex. unfold LLMEngine.step.
  destruct (step_ok py_hash hash_none execute_model (engine_core s) now H1 Hex) as
    (o & c & Hst & Hr & Hreq & Hin & Henv).
  assert (Hfin : finished_ids o.1 ⊆ core_ids s).
  { unfold finished_ids. intros i Hi. apply elem_of_list_to_set, list_elem_of_fmap in Hi as (x & -> & Hx).
    rewrite Forall_forall in Hin. apply Hin. by apply list_elem_of_filter in Hx as [_ ?]. }
  eapply meets_step; [unfold on_core; rewrite Hst; reflexivity|].
  eapply meets_bind; [apply meets_on_output, process_outputs_ok, H2|].
  intros [outs aborts] s2 ((Hok2 & Hd2 & Ha2) & Hc2 & Hp2). cbn [fst snd output_processor engine_core processor] in *.
  assert (Hab : (list_to_set aborts : gset string) ⊆ core_ids s).
  { intros i Hi. apply elem_of_list_to_set in Hi. rewrite Forall_forall in Ha2.
    apply Ha2, list_elem_of_fmap in Hi as (x & -> & Hx). rewrite Forall_forall in Hin. by apply Hin. }
  eapply meets_bind; [apply meets_on_core, core_abort_ok; by rewrite Hc2|].
  intros [] s3 ((Hr3 & Hids3 & Hl3) & Ho3 & Hp3). apply meets_ret. split.
  - done.
  - by rewrite Ho3.
  - rewrite Ho3, Hd2, Hids3, Hc2, Hreq, H3. set_solver.
  - rewrite Hids3, Hc2, Hreq. set_solver.
  - rewrite Hp3, Hp2, Hl3, Hc2, H5. symmetry. apply Henv.
Qed.
(** *** Adding *)

Import Arrivals.

(** A call that returns meets [Q]; one that raises refuses its input, and leaves
    the two sides in agreement. *)
Definition outcome {A} (w : gset string) (m : M LLMEngine.t A) (s : LLMEngine.t) (Q : A -> LLMEngine.t -> Prop) : Prop :=
  match m s with
  | (Ok a, s') => Q a s' /\ processor s' = processor s
  | (Err e, s') => refused (processor s) e /\ agrees w s' /\ processor s' = processor s
  end.

Lemma outcome_bind {A B} w (m : M LLMEngine.t A) (f : A -> M LLMEngine.t B) s R Q :
  outcome w m s R -> (forall a s', R a s' -> outcome w (f a) s' Q) -> outcome w (m ≫= f) s Q.
Proof.
  unfold outcome. intros Hm Hf. rewrite bind_run. destruct (m s) as [[a|e] s']; [|done].
  destruct Hm as [HR Hp]. specialize (Hf a s' HR). rewrite Hp in Hf.
  by destruct (f a s') as [[b|e] s''].
Qed.

Lemma outcome_meets {A} w (m : M LLMEngine.t A) s Q :
  meets m s (fun a s' => Q a s' /\ processor s' = processor s) -> outcome w m s Q.
Proof. unfold outcome, meets. by destruct (m s) as [[a|e] s']. Qed.

(** The state in which the loop of [add_request] adds a child. *)
Definition ready (w : gset string) (request_id : string) (params : Params.t) (parent_req : option Z)
    (s : LLMEngine.t) : Prop :=
  agrees w s /\
  match parent_req with
  | None => Params.max_tokens params <> None
  | Some p => p < OutputProcessor.next (output_processor s) /\
      exists pr, OutputProcessor.parents (output_processor s) !! p = Some pr /\ parent_ok request_id pr
  end.

Definition child_name (request_id : string) (parent_req : option Z) (idx : Z) : string :=
  match parent_req with None => request_id | Some _ => Parent.child_id idx request_id end.

(** The id and parameters of a child; the parent knows it from now on. *)
Lemma child_info_ok w request_id params parent_req idx s : ready w request_id params parent_req s ->
  outcome w (match parent_req with
             | Some p => on_output (OutputProcessor.on_parent p (Parent.get_child_info idx))
             | None => mret (request_id, params)
             end) s (fun res s' =>
    res.1 = child_name request_id parent_req idx /\ Params.max_tokens res.2 <> None /\
    ready w request_id params parent_req s' /\ has_parent (output_processor s') res.1 parent_req /\
    front_ids s' = front_ids s).
Proof.
  intros [Hag Hp]. destruct parent_req as [p|]; [|by apply outcome_meets].
  destruct Hp as (Hlt & pr & Hpr & Hok). apply outcome_meets.
  pose proof (get_child_info_ok request_id idx pr Hok) as Hm. apply meets_run in Hm as ([cid cp] & pr' & Hrun & E1 & Hm & Hok' & Hc).
  unfold meets, on_output, OutputProcessor.on_parent. rewrite Hpr, Hrun. cbn [fst snd] in *. split; [|done].
  destruct Hag as [G1 G2 G3 G4 G5].
  assert (Hpr' : OutputProcessor.parents (OutputProcessor.with_parents
     (<[p := pr']> (OutputProcessor.parents (output_processor s))) (output_processor s)) !! p = Some pr')
    by apply lookup_insert_eq.
  split_and!; [done|done| | |done].
  - split; [|split; [done|by exists pr']]. split; try done. apply (op_ok_parent _ p pr pr'); [done..|set_solver].
  - split; [done|]. exists pr'. split; [done|set_solver].
Qed.

(** A request that the processor accepts reaches the core. *)
Lemma core_add_ok len id params q now c : accepted len id params q -> Params.max_tokens params <> None ->
  rest py_hash hash_none (EngineCore.scheduler c) ->
  Processor.max_model_len len = V1Scheduler.max_model_len (EngineCore.scheduler c) ->
  id ∉ V1Scheduler.requests (EngineCore.scheduler c) ->
  meets (core_add_request q now) c (fun _ c' => rest py_hash hash_none (EngineCore.scheduler c') /\
    V1Scheduler.requests (EngineCore.scheduler c') = {[id]} ∪ V1Scheduler.requests (EngineCore.scheduler c) /\
    V1Scheduler.max_model_len (EngineCore.scheduler c') = V1Scheduler.max_model_len (EngineCore.scheduler c)).
Proof.
  intros Hq Hm [Hi Hs Hd] Hlen Hnew. pose proof (core_request_cases _ _ _ _ Hq) as Hc.
  destruct (Params.max_tokens params); [|done]. destruct Hc as (r & Hr & Hid & Hf).
  unfold core_add_request. eapply meets_lift; [exact Hr|]. rewrite Hlen in Hf.
  destruct (add_request_ok py_hash hash_none (EngineCore.scheduler c) r now Hi Hs Hd Hf) as
    (s' & Ha & Hi' & Hs' & Hd' & He & Hreq); [by rewrite Hid|].
  unfold meets, EngineCore.add_request. rewrite (on_scheduler_run _ _ _ _ Ha). cbn.
  split; [by split|]. split; [by rewrite Hreq, Hid|apply He].
Qed.
(** Filing the request and sending it to the core. *)
Lemma file_request_ok w request_id params parent_req idx tok q cid cparams now s :
  ready w request_id params parent_req s -> has_parent (output_processor s) cid parent_req ->
  accepted (processor s) cid cparams q -> Params.max_tokens cparams <> None ->
  outcome w (on_output (OutputProcessor.add_request tok q parent_req idx None) ;;
             on_core (core_add_request q now)) s (fun _ s' =>
    ready w request_id params parent_req s' /\ front_ids s' = {[cid]} ∪ front_ids s).
Proof.
  intros [[G1 G2 G3 G4 G5] Hp] Hpar Hq Hm. pose proof (ac_id _ _ _ _ Hq) as Hid.
  unfold outcome. rewrite bind_run. unfold on_output at 1, OutputProcessor.add_request. rewrite bind_run.
  cbn [get]. rewrite Hid. case_bool_decide as Hin.
  { cbn. split; [by left|]. split; [by destruct s|done]. }
  cbn [modify]. set (o1 := OutputProcessor.with_states _ _). set (s1 := Engine _ o1 _).
  assert (Hnot : cid ∉ front_ids s).
  { intros H. by apply Hin, elem_of_dom. }
  assert (Hok1 : op_ok o1).
  { apply op_ok_insert; [done|done|]. exact Hpar. }
  assert (Hd1 : live_ids o1 = {[cid]} ∪ front_ids s) by apply dom_insert_L.
  pose proof (core_add_ok (processor s) cid cparams q now (engine_core s) Hq Hm G1 G5) as Hadd.
  specialize (Hadd ltac:(rewrite G3 in Hnot; set_solver)).
  apply (meets_on_core _ s1) in Hadd. apply meets_run in Hadd as ([] & s2 & Hrun & (Hr2 & Hreq & Hlen) & Ho2 & Hp2).
  rewrite Hrun. split; [|done]. split; [split|by rewrite Ho2].
  - split; [done|by rewrite Ho2| | |by rewrite Hp2, Hlen].
    + rewrite Ho2, Hreq. change (output_processor s1) with o1. rewrite Hd1, G3. set_solver.
    + rewrite Hreq. rewrite G3 in Hnot. set_solver.
  - by rewrite Ho2.
Qed.

Lemma add_child_ok w request_id prompt params lora priority now parent_req idx s :
  ready w request_id params parent_req s ->
  outcome w (add_child request_id prompt params lora priority now parent_req idx) s (fun _ s' =>
    ready w request_id params parent_req s' /\
    front_ids s' = {[child_name request_id parent_req idx]} ∪ front_ids s).
Proof.
  intros Hr. unfold add_child. eapply outcome_bind; [by apply child_info_ok|].
  intros [cid cparams] s1 (E & Hm & Hr1 & Hpar & Hd). cbn [fst snd] in *. subst cid.
  eapply (outcome_bind _ get _ _ (fun a s' => a = s1 /\ s' = s1)); [by apply outcome_meets|].
  intros s1' s1'' [-> ->].
  eapply (outcome_bind _ (lift _) _ _ (fun q s' => s' = s1 /\ accepted (processor s1) _ cparams q)).
  { unfold outcome, lift. pose proof (process_inputs_cases (processor s1)
      (child_name request_id parent_req idx) prompt cparams lora priority) as Hc.
    destruct (Processor.process_inputs _ _ _ _ _ _); [done|]. split; [done|]. split; [apply Hr1|done]. }
  intros q s1' [-> Hq]. rewrite <- Hd. by apply (file_request_ok w request_id params parent_req idx _ q _ cparams).
Qed.

Lemma add_children_ok w request_id prompt params lora priority now parent_req : forall l s,
  ready w request_id params parent_req s ->
  outcome w (for_each l (add_child request_id prompt params lora priority now parent_req)) s (fun _ s' =>
    ready w request_id params parent_req s' /\
    front_ids s' = list_to_set (child_name request_id parent_req <$> l) ∪ front_ids s).
Proof.
  induction l as [|idx l IH]; intros s Hr; cbn [for_each].
  - apply outcome_meets, meets_ret. split; [|done]. split; [done|]. cbn. set_solver.
  - eapply outcome_bind; [by apply add_child_ok|]. intros [] s1 [Hr1 Hd1].
    unfold outcome in *. specialize (IH s1 Hr1).
    destruct (for_each l _ s1) as [[a|e] s2]; [|done]. destruct IH as [[Hr2 Hd2] Hp2].
    split; [|done]. split; [done|]. rewrite Hd2, Hd1. cbn. set_solver.
Qed.

(** The ids under which [add_request] files a request. *)
Definition filed_ids (request_id : string) (params : Params.t) : gset string :=
  if Params.n params =? 1 then {[request_id]}
  else list_to_set ((fun idx => Parent.child_id idx request_id) <$> seqZ 0 (Params.n params)).

Lemma add_agrees w request_id prompt params lora priority now s :
  agrees w s -> Params.max_tokens params <> None ->
  outcome w (LLMEngine.add_request request_id prompt params lora priority now) s (fun _ s' =>
    agrees w s' /\ front_ids s' = filed_ids request_id params ∪ front_ids s).
Proof.
  intros Hag Hm. unfold LLMEngine.add_request.
  eapply (outcome_bind _ _ _ _ (fun parent_req s' => ready w request_id params parent_req s' /\
    front_ids s' = front_ids s /\ bool_decide (parent_req = None) = (Params.n params =? 1))).
  - apply outcome_meets. unfold make_parent, Parent.from_params. destruct (Params.n params =? 1).
    { by apply meets_ret. }
    unfold meets, on_output. cbn. split; [|done]. split; [|done]. split.
    + destruct Hag as [G1 G2 G3 G4 G5]. split; try done. by apply op_ok_new.
    + split; [apply Z.lt_succ_diag_r|]. exists (Parent.init request_id params). split; [apply lookup_insert_eq|]. by split.
  - intros parent_req s1 (Hr1 & Hd1 & Hpar). pose proof (add_children_ok w request_id prompt params lora priority now
      parent_req (seqZ 0 (Params.n params)) s1 Hr1) as H.
    unfold outcome in *. destruct (for_each _ _ s1) as [[a|e] s2]; [|done].
    destruct H as [[Hr2 Hd2] Hp2]. split; [|done]. split; [apply Hr2|]. rewrite Hd2, Hd1. f_equal.
    unfold filed_ids. destruct parent_req as [p|]; cbn in Hpar; rewrite <- Hpar; [done|].
    symmetry in Hpar. apply Z.eqb_eq in Hpar. rewrite Hpar. cbn. set_solver.
Qed.
(** *** Runs *)

Inductive call : LLMEngine.t -> LLMEngine.t -> Prop :=
  | call_add request_id prompt params lora priority now s res s' :
      Params.max_tokens params <> None ->
      LLMEngine.add_request request_id prompt params lora priority now s = (res, s') -> call s s'
  | call_abort ids s res s' : abort_request ids s = (res, s') -> call s s'
  | call_step now s res s' :
      executes py_hash hash_none execute_model now (scheduler_of s) -> step now s = (res, s') -> call s s'.

(** The requests are those that [Params.post_init] and [process_inputs] accept;
    the engine starts with an empty output processor and core. *)
Definition reached (s : LLMEngine.t) : Prop :=
  exists proc log_stats max_num_seqs max_tokens max_len block_size n encoder_budget s0,
    0 <= max_num_seqs /\ 0 <= max_tokens /\ 0 < block_size /\ Processor.max_model_len proc = max_len /\
    V1Scheduler.init log_stats None max_num_seqs max_tokens max_len block_size n true encoder_budget = Ok s0 /\
    rtc call (Engine proc OutputProcessor.init (EngineCore.Core s0 [] 1)) s.

Lemma init_agrees proc log_stats max_num_seqs max_tokens max_len block_size n encoder_budget s0 :
  0 <= max_num_seqs -> 0 <= max_tokens -> 0 < block_size -> Processor.max_model_len proc = max_len ->
  V1Scheduler.init log_stats None max_num_seqs max_tokens max_len block_size n true encoder_budget = Ok s0 ->
  agrees ∅ (Engine proc OutputProcessor.init (EngineCore.Core s0 [] 1)).
Proof.
  intros H1 H2 H3 H4 Hinit. pose proof (init_rest py_hash hash_none _ _ _ _ _ _ _ _ H1 H2 H3 Hinit) as Hr.
  assert (E : V1Scheduler.requests s0 = ∅ /\ V1Scheduler.max_model_len s0 = max_len).
  { unfold V1Scheduler.init in Hinit. case_bool_decide; [done|].
    apply result_bind_ok in Hinit as (m & _ & [= <-]). done. }
  destruct E as [E1 E2]. split; cbn.
  - done.
  - split; cbn; intros id r; by rewrite lookup_empty.
  - rewrite E1. unfold live_ids. cbn. by rewrite dom_empty_L, (left_id_L ∅ (∪)).
  - set_solver.
  - congruence.
Qed.

Lemma call_agrees w s s' : agrees w s -> call s s' -> exists w', w' ⊆ w /\ agrees w' s'.
Proof.
  intros Hag Hc. destruct Hc as [request_id prompt params lora priority now s res s' Hm H|ids s res s' H|now s res s' Hex H].
  - pose proof (add_agrees w request_id prompt params lora priority now s Hag Hm) as Ho.
    exists w. split; [done|]. unfold outcome in Ho. rewrite H in Ho. destruct res; [apply Ho|apply Ho].
  - pose proof (abort_agrees w ids s Hag) as Ho. apply meets_run in Ho as ([] & s1 & Hrun & Ho).
    rewrite H in Hrun. injection Hrun as -> ->. eexists. split; [|done]. set_solver.
  - pose proof (step_agrees w now s Hag Hex) as Ho. apply meets_run in Ho as (a & s1 & Hrun & Ho).
    rewrite H in Hrun. injection Hrun as -> ->. by exists w.
Qed.

Lemma reached_agrees s : reached s -> agrees ∅ s.
Proof.
  intros (proc & ls & ms & mt & ml & bs & n & eb & s0 & H1 & H2 & H3 & H4 & Hinit & Hs).
  pose proof (init_agrees proc ls ms mt ml bs n eb s0 H1 H2 H3 H4 Hinit) as Hag. clear Hinit. revert Hag.
  induction Hs as [s|s s1 s' Hc _ IH]; intros Hag; [done|]. apply IH.
  destruct (call_agrees ∅ s s1 Hag Hc) as (w & Hw & Hag1). assert (w = ∅) as -> by set_solver. done.
Qed.

Lemma unfinished_agree s : agrees ∅ s ->
  LLMEngine.has_unfinished_requests s = V1Scheduler.has_unfinished_requests (scheduler_of s).
Proof.
  intros [[Hi _ _] _ Hids _ _]. unfold LLMEngine.has_unfinished_requests, OutputProcessor.has_unfinished_requests,
    OutputProcessor.get_num_unfinished_requests, V1Scheduler.has_unfinished_requests, V1Scheduler.get_num_unfinished_requests.
  rewrite <- size_dom. fold (live_ids (output_processor s)). rewrite Hids, (right_id_L ∅ (∪)).
  assert (E : core_ids s = list_to_set (V1Scheduler.waiting (scheduler_of s) ++ V1Scheduler.running (scheduler_of s))).
  { apply set_eq. intros i. rewrite (iv_requests _ _ _ _ _ _ Hi), elem_of_list_to_set. done. }
  rewrite E, size_list_to_set, length_app, Nat2Z.inj_add; [done|]. exact (iv_nodup _ _ _ _ _ _ Hi).
Qed.

(** C5. The front end and the core do not lose each other's requests, as long as
    every request that is added limits its tokens ([max_tokens] is not [None]).
    Whatever such requests are added, with one or several samples, aborted and
    finished, by the core or by a stop string, the requests filed in the output
    processor are those of the scheduler, so the loop that runs while there are
    unfinished requests ends when the core is idle.  No call fails on the way:
    aborting and stepping return, and adding a request whose tokens are limited
    returns or refuses it.  A request without a limit is outside: the core
    refuses it after the output processor has filed it. *)
Theorem front_end_agrees s : reached s ->
  live_ids (output_processor s) = V1Scheduler.requests (EngineCore.scheduler (engine_core s)) /\
  LLMEngine.has_unfinished_requests s =
    V1Scheduler.has_unfinished_requests (EngineCore.scheduler (engine_core s)) /\
  (forall ids, exists s', abort_request ids s = (Ok tt, s')) /\
  (forall now, executes py_hash hash_none execute_model now (EngineCore.scheduler (engine_core s)) ->
     exists outs s', step now s = (Ok outs, s')) /\
  (forall request_id prompt params lora priority now, Params.max_tokens params <> None ->
     match (LLMEngine.add_request request_id prompt params lora priority now s).1 with
     | Ok _ => True
     | Err e => refused (processor s) e
     end).
Proof.
  intros Hag%reached_agrees. split_and!.
  - rewrite (ag_ids _ _ Hag). apply (right_id_L ∅ (∪)).
  - by apply unfinished_agree.
  - intros ids. pose proof (abort_agrees ∅ ids s Hag) as H. apply meets_run in H as ([] & s' & H & _). eauto.
  - intros now Hex. pose proof (step_agrees ∅ now s Hag Hex) as H. apply meets_run in H as (outs & s' & H & _). eauto.
  - intros request_id prompt params lora priority now Hm.
    pose proof (add_agrees ∅ request_id prompt params lora priority now s Hag Hm) as H.
    unfold outcome in H. destruct (LLMEngine.add_request _ _ _ _ _ _ s) as [[a|e] s']; [done|apply H].
Qed.
(** A run of the loop [while has_unfinished_requests(): step()]. *)
Definition stepping (s s' : LLMEngine.t) : Prop :=
  exists now res, executes py_hash hash_none execute_model now (scheduler_of s) /\ step now s = (res, s').

Lemma stepping_agrees w s s' : agrees w s -> rtc stepping s s' -> agrees w s'.
Proof.
  intros Hag Hs. induction Hs as [s|s s1 s' (now & res & Hex & H) _ IH]; [done|]. apply IH.
  pose proof (step_agrees w now s Hag Hex) as Ho. apply meets_run in Ho as (a & s2 & Hrun & Ho).
  rewrite H in Hrun. by injection Hrun as -> ->.
Qed.

Lemma add_single_run request_id prompt params lora priority now s :
  Params.n params = 1 ->
  LLMEngine.add_request request_id prompt params lora priority now s =
  add_child request_id prompt params lora priority now None 0 s.
Proof.
  intros Hn. unfold LLMEngine.add_request, make_parent, Parent.from_params. rewrite Hn.
  rewrite bind_run. change (1 =? 1) with true. cbn match. cbn [mret M_ret].
  change (seqZ 0 1) with [0]. cbn [for_each]. rewrite bind_run.
  by destruct (add_child request_id prompt params lora priority now None 0 s) as [[[]|e] s'].
Qed.

(** A request without a limit of tokens wedges the engine.  [SamplingParams]
    allows [max_tokens=None], and the processor accepts it; but the core asserts
    that there is a limit, after the request has been filed in the output
    processor.  [add_request] raises, the core has never heard of the request, and
    it is never taken out of the output processor: however often the engine steps
    from then on, it has unfinished requests, so the loop of the caller never
    ends. *)
Theorem unlimited_request_wedges s request_id prompt params lora priority now q :
  reached s ->
  Params.n params = 1 -> Params.max_tokens params = None ->
  Processor.process_inputs (processor s) request_id prompt params lora priority = Ok q ->
  request_id ∉ live_ids (output_processor s) ->
  exists s1, LLMEngine.add_request request_id prompt params lora priority now s = (Err AssertionError, s1) /\
    forall s2, rtc stepping s1 s2 ->
      LLMEngine.has_unfinished_requests s2 = true /\
      request_id ∉ V1Scheduler.requests (EngineCore.scheduler (engine_core s2)).
Proof.
  intros [G1 G2 G3 G4 G5]%reached_agrees Hn Hm Hq Hnew. rewrite (add_single_run request_id prompt params lora priority now s Hn).
  pose proof (process_inputs_cases (processor s) request_id prompt params lora priority) as Hacc.
  rewrite Hq in Hacc. pose proof (core_request_cases _ _ _ _ Hacc) as Hcore. rewrite Hm in Hcore.
  set (r := RequestState.from_new_request (Processor.get_lora_tokenizer (processor s) lora) q None 0 None).
  set (o1 := OutputProcessor.with_states (<[request_id := r]> (OutputProcessor.request_states (output_processor s)))
    (output_processor s)).
  exists (Engine (processor s) o1 (engine_core s)). split.
  - unfold add_child. rewrite bind_run. cbn [mret M_ret]. rewrite bind_run. cbn [get].
    rewrite bind_run, Hq. cbn [lift]. rewrite bind_run. unfold on_output, OutputProcessor.add_request.
    rewrite bind_run. cbn [get]. rewrite (ac_id _ _ _ _ Hacc), bool_decide_false.
    2:{ intros H. by apply Hnew, elem_of_dom. }
    cbn [modify]. unfold on_core, core_add_request. rewrite bind_run, Hcore. done.
  - intros s2 Hs.
    assert (Hag1 : agrees {[request_id]} (Engine (processor s) o1 (engine_core s))).
    { rewrite G3, (right_id_L ∅ (∪)) in Hnew. split; cbn; try done.
      - apply op_ok_insert; [done| |done]. cbn. apply Hacc.
      - unfold live_ids. cbn. rewrite dom_insert_L. fold (live_ids (output_processor s)). rewrite G3. set_solver.
      - set_solver. }
    destruct (stepping_agrees _ _ _ Hag1 Hs) as [K1 K2 K3 K4 K5]. split; [|set_solver].
    unfold LLMEngine.has_unfinished_requests, OutputProcessor.has_unfinished_requests,
      OutputProcessor.get_num_unfinished_requests. rewrite <- size_dom.
    fold (live_ids (output_processor s2)). rewrite K3. apply Z.ltb_lt.
    assert (size (core_ids s2 ∪ {[request_id]}) <> 0)%nat; [|lia].
    intros H%size_empty_inv. set_solver.
Qed.

Lemma length_append s1 s2 : String.length (s1 +:+ s2) = (String.length s1 + String.length s2)%nat.
Proof. induction s1 as [|c s1 IH]; cbn; [done|by rewrite <- IH]. Qed.

Lemma child_id_ne idx request_id : request_id <> Parent.child_id idx request_id.
Proof.
  intros E%(f_equal String.length). unfold Parent.child_id in E. rewrite !length_append in E. cbn in E. lia.
Qed.

(** C40. Aborting a request with several samples aborts nothing.  Its samples are
    filed under ids of their own, and [abort_request] is called with the id of
    the request: after it, in the output processor and in the core, all of them
    are as alive as before, and go on to generate. *)
Theorem abort_misses_samples s request_id prompt params lora priority now s1 :
  reached s -> 1 < Params.n params -> Params.max_tokens params <> None ->
  request_id ∉ live_ids (output_processor s) ->
  LLMEngine.add_request request_id prompt params lora priority now s = (Ok tt, s1) ->
  exists s2, abort_request [request_id] s1 = (Ok tt, s2) /\
    live_ids (output_processor s2) = live_ids (output_processor s1) /\
    forall idx, 0 <= idx < Params.n params ->
      Parent.child_id idx request_id ∈ V1Scheduler.requests (EngineCore.scheduler (engine_core s2)).
Proof.
  intros Hag%reached_agrees Hn Hm Hnew Hadd.
  pose proof (add_agrees ∅ request_id prompt params lora priority now s Hag Hm) as H.
  unfold outcome in H. rewrite Hadd in H. destruct H as [[Hag1 Hd1] _].
  pose proof (abort_agrees ∅ [request_id] s1 Hag1) as H. apply meets_run in H as ([] & s2 & Hrun & Hag2).
  exists s2. split; [done|].
  pose proof (abort_requests_ok [request_id] (output_processor s1) (ag_op _ _ Hag1)) as Hop.
  assert (Hd2 : live_ids (output_processor s2) = live_ids (output_processor s1) ∖ {[request_id]}).
  { apply meets_run in Hop as ([] & o2 & Ho2 & _ & Hd). unfold abort_request in Hrun. rewrite bind_run in Hrun.
    pose proof (meets_on_core (core_abort_requests [request_id]) s1 _
      (core_abort_ok [request_id] (engine_core s1) (ag_core _ _ Hag1))) as Hc.
    apply meets_run in Hc as ([] & s1' & Hc & _ & Eo & _). rewrite Hc in Hrun. unfold on_output in Hrun.
    rewrite Eo, Ho2 in Hrun. injection Hrun as <-. cbn [output_processor]. rewrite Hd. set_solver. }
  assert (Hids : filed_ids request_id params =
    list_to_set ((fun idx => Parent.child_id idx request_id) <$> seqZ 0 (Params.n params))).
  { unfold filed_ids. destruct (Z.eqb_spec (Params.n params) 1); [lia|done]. }
  assert (Hnot : request_id ∉ live_ids (output_processor s1)).
  { rewrite Hd1, Hids, elem_of_union, elem_of_list_to_set, list_elem_of_fmap. intros [(idx & E & _)|?]; [|done].
    by apply (child_id_ne idx request_id). }
  split; [set_solver|]. intros idx Hidx.
  assert (Hin : Parent.child_id idx request_id ∈ live_ids (output_processor s2)).
  { rewrite Hd2, Hd1, Hids. apply elem_of_difference. split.
    - apply elem_of_union_l, elem_of_list_to_set, list_elem_of_fmap. exists idx. split; [done|]. apply elem_of_seqZ. lia.
    - rewrite elem_of_singleton. intros E. by apply (child_id_ne idx request_id). }
  rewrite (ag_ids _ _ Hag2) in Hin. set_solver.
Qed.
End LLM.

(** *** A sample engine *)

(** An executor that generates token 9 for every scheduled request. *)
Definition runner (out : V1Scheduler.SchedulerOutput) : V1Scheduler.ModelRunnerOutput :=
  let ids := PyDict.keys (V1Scheduler.num_scheduled_tokens out) in
  V1Scheduler.RunnerOutput (list_to_map (zip ids (seq 0 (length ids)))) (map (fun _ => [9]) ids) None
    (Some (V1Scheduler.Logprobs [] [] [])) ∅.

Lemma runner_executes now s : executes sample_hash 17 runner now s.
Proof.
  intros out s' _. split; [|done]. intros id n Hn. unfold runner. cbn.
  set (ids := PyDict.keys (V1Scheduler.num_scheduled_tokens out)).
  assert (Hin : id ∈ ids) by (apply PyDict.elem_of_keys; by eexists).
  destruct (list_to_map (M := gmap string nat) (zip ids (seq 0 (length ids))) !! id) as [i|] eqn:E.
  - exists i, [9]. split; [done|]. apply elem_of_list_to_map_2, elem_of_zip_r, elem_of_seq in E.
    split; [|by split]. rewrite list_lookup_fmap. destruct (ids !! i) eqn:Ei; [done|].
    apply lookup_ge_None in Ei. lia.
  - apply not_elem_of_list_to_map_2 in E. destruct E. rewrite fst_zip; [done|]. by rewrite length_seq.
Defined.

Definition sample_processor : Processor.t :=
  Processor.MkProcessor 5 8 100 false None (fun _ => Streaming.sample_tokenizer) (fun _ s => s) (fun _ => None)
    (fun _ => Ok tt).
Definition sample_engine : LLMEngine.t := Engine sample_processor OutputProcessor.init sample_core0.

(** [n] samples of at most [limit] tokens, returned when they are complete. *)
Definition sample_request_params (n : Z) (limit : option Z) (kind : RequestOutputKind) : Params.t :=
  Params.MkParams n None None 0 0 1 1 1 (-1) 0 None [] [] false limit 0 None None true true true false
    false None kind 0 ∅ false None None [].

Definition add_sample (id : string) (n : Z) (limit : option Z) : M LLMEngine.t unit :=
  LLMEngine.add_request id (Processor.TokensPrompt [1; 2; 3]) (sample_request_params n limit FINAL_ONLY) None 0 0.

Definition after {A} (m : M LLMEngine.t A) (s : LLMEngine.t) : LLMEngine.t := (m s).2.
Definition sample_added : LLMEngine.t := after (add_sample "p" 2 (Some 2)) sample_engine.
Definition sample_stepped : LLMEngine.t := after (LLMEngine.step sample_hash 17 runner 0) sample_added.
Definition sample_done : LLMEngine.t := after (LLMEngine.step sample_hash 17 runner 0) sample_stepped.

Lemma after_run {A} (m : M LLMEngine.t A) s : m s = ((m s).1, after m s).
Proof. unfold after. by destruct (m s). Defined.

Lemma sample_reached : reached sample_hash 17 runner sample_done.
Proof.
  exists sample_processor, false, 4, 10, 8, 2, 5%nat, (0, 0), (sample_scheduler 8 5 (0, 0)).
  split_and!; [lia|lia|lia|reflexivity|vm_compute; reflexivity|].
  apply (rtc_l _ _ sample_added).
  { apply (call_add _ _ _ "p" (Processor.TokensPrompt [1; 2; 3]) (sample_request_params 2 (Some 2) FINAL_ONLY)
      None 0 0 _ _ _ ltac:(discriminate) (after_run (add_sample "p" 2 (Some 2)) sample_engine)). }
  apply (rtc_l _ _ sample_stepped).
  { apply (call_step _ _ _ 0 _ _ _ (runner_executes _ _) (after_run (LLMEngine.step sample_hash 17 runner 0) sample_added)). }
  apply rtc_once.
  apply (call_step _ _ _ 0 _ _ _ (runner_executes _ _) (after_run (LLMEngine.step sample_hash 17 runner 0) sample_stepped)).
Defined.

Lemma start_reached : reached sample_hash 17 runner sample_engine.
Proof.
  exists sample_processor, false, 4, 10, 8, 2, 5%nat, (0, 0), (sample_scheduler 8 5 (0, 0)).
  split_and!; [lia|lia|lia|reflexivity|vm_compute; reflexivity|]. apply rtc_refl.
Defined.

(** Both samples are complete after two steps, and are returned as one output. *)
Example samples_returned :
  (LLMEngine.step sample_hash 17 runner 0 sample_added).1 = Ok [] /\
  exists o, (LLMEngine.step sample_hash 17 runner 0 sample_stepped).1 = Ok [o] /\
    output_request_id o = "p" /\ output_finished o = true /\
    map index (outputs o) = [0; 1] /\ map completion_token_ids (outputs o) = [[9; 9]; [9; 9]].
Proof. split; [by vm_compute|]. eexists. split; [vm_compute; reflexivity|]. by vm_compute. Qed.

Lemma front_end_agrees_witness :
  LLMEngine.has_unfinished_requests sample_done = false /\
  V1Scheduler.has_unfinished_requests (EngineCore.scheduler (engine_core sample_done)) = false.
Proof.
  destruct (front_end_agrees sample_hash 17 runner sample_done sample_reached) as (_ & H & _).
  assert (E : LLMEngine.has_unfinished_requests sample_done = false) by (vm_compute; reflexivity).
  split; [exact E|]. by rewrite <- H.
Defined.

Lemma unlimited_request_wedges_witness :
  exists s1, add_sample "u" 1 None sample_engine = (Err AssertionError, s1) /\
    forall s2, rtc (stepping sample_hash 17 runner) s1 s2 -> LLMEngine.has_unfinished_requests s2 = true.
Proof.
  destruct (unlimited_request_wedges sample_hash 17 runner sample_engine "u" (Processor.TokensPrompt [1; 2; 3])
    (sample_request_params 1 None FINAL_ONLY) None 0 0
    (CoreRequest "u" None [1; 2; 3] (sample_request_params 1 None FINAL_ONLY) None None)
    start_reached) as (s1 & H1 & H2); [reflexivity|reflexivity|reflexivity|apply not_elem_of_empty|].
  exists s1. split; [exact H1|]. intros s2 H. apply (H2 s2 H).
Defined.

Lemma abort_misses_samples_witness :
  exists s2, abort_request ["p"] sample_added = (Ok tt, s2) /\
    "1_p" ∈ V1Scheduler.requests (EngineCore.scheduler (engine_core s2)).
Proof.
  destruct (abort_misses_samples sample_hash 17 runner sample_engine "p" (Processor.TokensPrompt [1; 2; 3])
    (sample_request_params 2 (Some 2) FINAL_ONLY) None 0 0 sample_added start_reached)
    as (s2 & H1 & _ & H2); [reflexivity|discriminate|apply not_elem_of_empty|vm_compute; reflexivity|].
  exists s2. split; [exact H1|]. apply (H2 1). split; [discriminate|reflexivity].
Defined.
End LLM.

(** ** Outputs that wait in the queue of the caller *)

Module Coalescing.
Import AsyncLLM.

(** The output of a request with one sample. *)
Definition single (o : RequestOutput) (c : CompletionOutput) : Prop := outputs o = [c].

Lemma coalesce_deltas : forall rest cs out c, single out c -> Forall2 single rest cs ->
  exists out' c', coalesce DELTA out rest = Ok out' /\ single out' c' /\
    completion_text c' = concat (completion_text <$> c :: cs) /\
    completion_token_ids c' = concat (completion_token_ids <$> c :: cs) /\
    output_finished out' = existsb output_finished (out :: rest) /\
    finish_reason c' = finish_reason c /\ completion_stop_reason c' = completion_stop_reason c.
Proof.
  induction rest as [|o rest IH]; intros cs out c Hout Hrest.
  - apply Forall2_nil_inv_l in Hrest as ->. exists out, c. cbn. rewrite !app_nil_r, orb_false_r. by split_and!.
  - apply Forall2_cons_inv_l in Hrest as (co & cs' & Ho & Hrest & ->).
    cbn [coalesce]. rewrite bool_decide_true by done. unfold add_output. unfold single in *. rewrite Hout, Ho.
    cbn [py_index]. destruct (IH cs' (MkRequestOutput (output_request_id out) (output_prompt o)
        (output_prompt_token_ids o)
        (Completion (index c) (completion_text c ++ completion_text co)
           (completion_token_ids c ++ completion_token_ids co) (finish_reason c) (completion_stop_reason c) :: [])
        (output_finished out || output_finished o)) _ eq_refl Hrest)
      as (out' & c' & Hrun & Hs & H1 & H2 & H3 & H4 & H5).
    exists out', c'. split; [exact Hrun|]. split; [done|]. cbn in *. rewrite H1, H2, H3.
    by rewrite <- !app_assoc, orb_assoc.
Qed.

(** C32. Deltas that wait in the queue are merged into one output, with all their
    text and all their tokens, in order, and finished if one of them is; but it
    keeps the finish reason and the stop reason of the first of them.  So when
    the last output of a request finds an earlier one still in the queue, the
    caller gets a finished output whose finish reason is [None]. *)
Theorem merged_deltas out rest c cs :
  single out c -> Forall2 single rest cs ->
  exists out' c', generate DELTA [out :: rest] = Ok [out'] /\ single out' c' /\
    completion_text c' = concat (completion_text <$> c :: cs) /\
    completion_token_ids c' = concat (completion_token_ids <$> c :: cs) /\
    output_finished out' = existsb output_finished (out :: rest) /\
    finish_reason c' = finish_reason c /\ completion_stop_reason c' = completion_stop_reason c.
Proof.
  intros Hout Hrest. destruct (coalesce_deltas rest cs out c Hout Hrest) as (out' & c' & Hrun & H).
  exists out', c'. split; [|done]. cbn [generate]. rewrite Hrun. cbn. by destruct (output_finished out').
Qed.

Definition delta (index_ : Z) (t : text) (ids : list Z) (r : option FinishReason) : RequestOutput :=
  MkRequestOutput "r" None [1] [Completion index_ t ids r None] (bool_decide (is_Some r)).

Lemma merged_deltas_witness :
  exists out' c', generate DELTA [[delta 0 [5] [5] None; delta 0 [6] [6] (Some LENGTH)]] = Ok [out'] /\
    single out' c' /\ completion_text c' = [5; 6] /\ output_finished out' = true /\ finish_reason c' = None.
Proof.
  destruct (merged_deltas (delta 0 [5] [5] None) [delta 0 [6] [6] (Some LENGTH)]
    (Completion 0 [5] [5] None None) [Completion 0 [6] [6] (Some LENGTH) None])
    as (out' & c' & H1 & H2 & H3 & _ & H4 & H5 & _); [reflexivity|repeat constructor|].
  exists out', c'. by split_and!.
Defined.

(** Two streamed samples: in the second step the first one ends, which ends the
    stream, although the second one goes on. *)
Definition stream_start : AsyncLLM.t :=
  (AsyncLLM.add_request "p" (Processor.TokensPrompt [1; 2; 3]) (LLM.sample_request_params 2 (Some 5) DELTA) None 0
     (Async LLM.sample_processor OutputProcessor.init [])).2.
Definition core_output (id : string) (token : Z) (r : option FinishReason) : V1Scheduler.EngineCoreOutput :=
  V1Scheduler.CoreOutput id [token] None None r None None.
Definition stream_step (l : list V1Scheduler.EngineCoreOutput) (s : AsyncLLM.t) : AsyncLLM.t := (handle_slice l s).2.

Example stream_cut :
  let s1 := stream_step [core_output "0_p" 5 None; core_output "1_p" 6 None] stream_start in
  let s2 := stream_step [core_output "0_p" 7 (Some STOP); core_output "1_p" 8 None] s1 in
  let queue s := default [] (OutputProcessor.queues (output_processor s) !! 0) in
  exists a b c d, queue s2 = [a; b; c; d] /\ map (fun o => map index (outputs o)) [a; b; c; d] = [[0]; [1]; [0]; [1]] /\
    map output_finished [a; b; c; d] = [false; false; true; false] /\
    generate DELTA [[a]; [b]; [c]; [d]] = Ok [a; b; c] /\
    OutputProcessor.get_num_unfinished_requests (output_processor s2) = 1.
Proof. vm_compute. eexists _, _, _, _. split; [reflexivity|]. by split_and!. Qed.
End Coalescing.
