(* ===== verification/Arrays.v ===== *)
(** * Arrays and tensors of the v1 workers

    What the worker uses of NumPy and of torch, on lists: reading and storing at
    an index that is not negative, assignment to a slice, broadcasting,
    [cumsum], [repeat], 32-bit integers.  The state of a worker has many arrays
    with an entry per request: a [column] is one of them, read and written
    through the state. *)
From S2P Require Import Prelude.

(** ** Columns of a state *)

Record column (S A : Type) : Type := Column {
  read : S -> list A;
  write : list A -> S -> S;
}.
Arguments Column {S A}.
Arguments read {S A}.
Arguments write {S A}.

Section Columns.
Context {S A : Type}.
Implicit Types (c : column S A) (i j : nat) (x : A).

(** [a[i]] *)
Definition fetch c i : M S A :=
  l ← gets (read c); lift (from_option_exn IndexError (l !! i)).

(** [a[i] = x] *)
Definition store c i x : M S unit :=
  l ← gets (read c);
  if bool_decide (i < length l)%nat then modify (write c (<[i := x]> l)) else raise IndexError.

(** [a[dst] = a[src]] *)
Definition move c (src dst : nat) : M S unit := x ← fetch c src; store c dst x.

(** [a[i], a[j] = a[j], a[i]], where reading an entry copies it. *)
Definition swap c i j : M S unit :=
  x ← fetch c j; y ← fetch c i; store c i x ;; store c j y.

Lemma fetch_run c i x s : read c s !! i = Some x -> fetch c i s = (Ok x, s).
Proof. intros H. unfold fetch. rewrite bind_run. unfold gets, lift. by rewrite H. Qed.

Lemma store_run c i x s : (i < length (read c s))%nat ->
  store c i x s = (Ok tt, write c (<[i := x]> (read c s)) s).
Proof. intros H. unfold store. rewrite bind_run. unfold gets. by rewrite bool_decide_eq_true_2. Qed.

Lemma move_run c src dst x s : read c s !! src = Some x -> (dst < length (read c s))%nat ->
  move c src dst s = (Ok tt, write c (<[dst := x]> (read c s)) s).
Proof. intros Hx Hd. unfold move. rewrite (bind_step _ _ _ _ _ (fetch_run c src x s Hx)). by apply store_run. Qed.

Lemma swap_run c i j x y s : (forall l s, read c (write c l s) = l) ->
  (forall l l' s, write c l' (write c l s) = write c l' s) ->
  read c s !! i = Some y -> read c s !! j = Some x ->
  swap c i j s = (Ok tt, write c (<[j := y]> (<[i := x]> (read c s))) s).
Proof.
  intros Hrw Hww Hy Hx. unfold swap.
  rewrite (bind_step _ _ _ _ _ (fetch_run c j x s Hx)), (bind_step _ _ _ _ _ (fetch_run c i y s Hy)).
  rewrite (bind_step _ _ _ _ _ (store_run c i x s ltac:(by eapply lookup_lt_Some))).
  rewrite store_run; rewrite Hrw; [by rewrite Hww|]. rewrite length_insert. by eapply lookup_lt_Some.
Qed.

(** The same steps for the reasoning about whole operations. *)
Lemma meets_fetch {B} c i x (f : A -> M S B) s (Q : B -> S -> Prop) :
  read c s !! i = Some x -> meets (f x) s Q -> meets (fetch c i ≫= f) s Q.
Proof. intros H. apply meets_step. by apply fetch_run. Qed.

Lemma meets_store {B} c i x (f : unit -> M S B) s (Q : B -> S -> Prop) :
  (i < length (read c s))%nat -> meets (f tt) (write c (<[i := x]> (read c s)) s) Q ->
  meets (store c i x ≫= f) s Q.
Proof. intros H. apply meets_step. by apply store_run. Qed.

Lemma meets_move {B} c src dst x (f : unit -> M S B) s (Q : B -> S -> Prop) :
  read c s !! src = Some x -> (dst < length (read c s))%nat ->
  meets (f tt) (write c (<[dst := x]> (read c s)) s) Q -> meets (move c src dst ≫= f) s Q.
Proof. intros H1 H2. apply meets_step. by apply move_run. Qed.
End Columns.

Lemma meets_modify {S B} (g : S -> S) (f : unit -> M S B) s (Q : B -> S -> Prop) :
  meets (f tt) (g s) Q -> meets (modify g ≫= f) s Q.
Proof. done. Qed.

Lemma meets_assoc {S A B C} (m : M S A) (f : A -> M S B) (g : B -> M S C) s Q :
  meets (m ≫= fun x => f x ≫= g) s Q -> meets ((m ≫= f) ≫= g) s Q.
Proof. unfold meets. rewrite !bind_run. destruct (m s) as [[a|e] s']; done. Qed.

Lemma meets_reassoc {S A B C} (m : M S A) (f : A -> M S B) (g : B -> M S C) s Q :
  meets ((m ≫= f) ≫= g) s Q -> meets (m ≫= fun x => f x ≫= g) s Q.
Proof. unfold meets. rewrite !bind_run. destruct (m s) as [[a|e] s']; done. Qed.

Lemma meets_preserves {S A} (I : S -> Prop) (f : M S A) s (Q : A -> S -> Prop) : preserves I f -> I s -> meets f s Q ->
  meets f s (fun a s' => Q a s' /\ I s').
Proof. intros Hp Hs. specialize (Hp s Hs). unfold meets. destruct (f s) as [[a|e] s']; done. Qed.

(** The last step of an operation. *)
Lemma meets_last {S} (m : M S unit) s (Q : unit -> S -> Prop) :
  meets (m ≫= fun _ => mret tt) s Q -> meets m s Q.
Proof. unfold meets. rewrite bind_run. destruct (m s) as [[[]|e] s']; done. Qed.

(** ** Rows *)

(** The values of a slice of length [n]: a list of length one is broadcast. *)
Definition broadcast {A} (n : nat) (vals : list A) : result (list A) :=
  if bool_decide (length vals = n) then Ok vals
  else match vals with [x] => Ok (replicate n x) | _ => Err ValueError end.

(** [row[a:b] = vals] *)
Definition set_slice {A} (row : list A) (a b : Z) (vals : list A) : result (list A) :=
  let lo := slice_bound row a in
  let n := (slice_bound row b - lo)%nat in
  vs ← broadcast n vals; Ok (take lo row ++ vs ++ drop (lo + n) row).

(** [a[i, lo:hi] = vals] *)
Definition store_slice {S A} (c : column S (list A)) (i : nat) (lo hi : Z) (vals : list A) : M S unit :=
  row ← fetch c i; row' ← lift (set_slice row lo hi vals); store c i row'.

(** [row] begins with [l]. *)
Definition holds {A} (row l : list A) : Prop := l = take (length l) row.

Lemma holds_le {A} (row l : list A) : holds row l -> (length l <= length row)%nat.
Proof. intros H. apply (f_equal length) in H. rewrite length_take in H. lia. Qed.

Lemma holds_take {A} (row l : list A) n : holds row l -> holds row (take n l).
Proof.
  unfold holds. intros H. rewrite length_take. rewrite H at 1. rewrite take_take. f_equal.
Qed.

Lemma holds_lookup {A} (row l : list A) i x : holds row l -> l !! i = Some x -> row !! i = Some x.
Proof.
  intros H Hi. rewrite H in Hi. rewrite lookup_take in Hi. case_decide; [done|discriminate].
Qed.

Lemma holds_nil {A} (row : list A) : holds row [].
Proof. done. Qed.

Lemma holds_prefix {A} (row : list A) n : holds row (take n row).
Proof.
  unfold holds. rewrite length_take. destruct (decide (n <= length row)%nat).
  - by rewrite Nat.min_l.
  - rewrite Nat.min_r, !take_ge by lia. done.
Qed.

Lemma slice_bound_in {A} (row : list A) i : 0 <= i <= Z.of_nat (length row) -> slice_bound row i = Z.to_nat i.
Proof. intros H. unfold slice_bound. destruct (Z.ltb_spec i 0); [lia|]. by rewrite Z.min_l by lia. Qed.

(** A slice that fits receives its values. *)
Lemma set_slice_ok {A} (row vals : list A) (a : nat) : (a + length vals <= length row)%nat ->
  set_slice row (Z.of_nat a) (Z.of_nat a + Z.of_nat (length vals)) vals =
  Ok (take a row ++ vals ++ drop (a + length vals) row).
Proof.
  intros H. unfold set_slice. rewrite !slice_bound_in by lia.
  replace (Z.to_nat (Z.of_nat a + Z.of_nat (length vals)) - Z.to_nat (Z.of_nat a))%nat with (length vals) by lia.
  unfold broadcast. rewrite bool_decide_eq_true_2 by done. cbn. by rewrite Nat2Z.id.
Qed.

Lemma set_slice_length {A} (row vals : list A) (a : nat) : (a + length vals <= length row)%nat ->
  length (take a row ++ vals ++ drop (a + length vals) row) = length row.
Proof. intros. rewrite !length_app, length_take, length_drop. lia. Qed.

(** Writing [vals] at [a] into a row that begins with [l], where [a] is not beyond
    the end of [l]. *)
Lemma holds_write {A} (row l vals : list A) (a : nat) : holds row l -> (a <= length l)%nat ->
  holds (take a row ++ vals ++ drop (a + length vals) row) (take a l ++ vals).
Proof.
  intros Hl Ha. pose proof (holds_le _ _ Hl). unfold holds.
  assert (Ht : take a row = take a l) by (rewrite Hl, take_take; f_equal; lia).
  rewrite Ht, app_assoc, take_app_length. done.
Qed.

(** And where it overwrites a part of [l] with what was there. *)
Lemma holds_rewrite {A} (row l vals : list A) (a : nat) :
  holds row l -> vals = take (length vals) (drop a l) -> (a <= length l)%nat ->
  take a row ++ vals ++ drop (a + length vals) row = row.
Proof.
  intros Hl Hv Ha. pose proof (holds_le _ _ Hl).
  assert (Hvr : vals = take (length vals) (drop a row)).
  { assert (length vals <= length l - a)%nat
      by (apply (f_equal length) in Hv; rewrite length_take, length_drop in Hv; lia).
    rewrite Hv at 1. rewrite Hl, skipn_firstn_comm, take_take. f_equal. lia. }
  rewrite Hvr at 1. rewrite <- drop_drop, take_drop, take_drop. done.
Qed.

Lemma meets_store_slice {S A B} (c : column S (list A)) i (a : nat) row vals (f : unit -> M S B) s Q :
  read c s !! i = Some row -> (a + length vals <= length row)%nat ->
  meets (f tt) (write c (<[i := take a row ++ vals ++ drop (a + length vals) row]> (read c s)) s) Q ->
  meets (store_slice c i (Z.of_nat a) (Z.of_nat a + Z.of_nat (length vals)) vals ≫= f) s Q.
Proof.
  intros Hr Hl Hf. unfold store_slice. apply meets_assoc. eapply meets_fetch; [done|].
  apply meets_assoc. eapply meets_lift; [by apply set_slice_ok|].
  apply meets_store; [by eapply lookup_lt_Some|done].
Qed.

(** ** Arithmetic on arrays *)

(** The 32-bit integer that an operation on arrays of [int32] leaves. *)
Definition wrap32 (z : Z) : Z := (z + 2 ^ 31) mod 2 ^ 32 - 2 ^ 31.

Lemma wrap32_id z : - 2 ^ 31 <= z < 2 ^ 31 -> wrap32 z = z.
Proof. intros H. unfold wrap32. rewrite Z.mod_small by lia. lia. Qed.

(** An operation on two arrays: equal lengths, or one of length one. *)
Definition np_zip {A B C} (f : A -> B -> C) (l : list A) (k : list B) : result (list C) :=
  if bool_decide (length l = length k) then Ok (zip_with f l k)
  else match l, k with
       | [x], _ => Ok (map (f x) k)
       | _, [y] => Ok (map (fun x => f x y) l)
       | _, _ => Err ValueError
       end.

(** [np.repeat(l, counts)] *)
Definition np_repeat {A} (l : list A) (counts : list Z) : result (list A) :=
  if bool_decide (length l = length counts)
  then if forallb (Z.leb 0) counts
       then Ok (concat (zip_with (fun x n => replicate (Z.to_nat n) x) l counts))
       else Err ValueError
  else Err ValueError.

(** [np.cumsum(l)] *)
Fixpoint cumsum_from (acc : Z) (l : list Z) : list Z :=
  match l with [] => [] | x :: l' => (acc + x) :: cumsum_from (acc + x) l' end.
Definition np_cumsum (l : list Z) : list Z := cumsum_from 0 l.

Definition np_sum (l : list Z) : Z := foldr Z.add 0 l.

(** [torch.index_select(t, 0, index)]: no negative indices. *)
Definition index_select {A} (t : list A) (index : list Z) : result (list A) :=
  mapM (fun i => if i <? 0 then Err IndexError else from_option_exn IndexError (t !! Z.to_nat i)) index.

(** [t[index]] for a tensor of indices. *)
Definition tensor_index {A} (t : list A) (index : list Z) : result (list A) := mapM (py_index t) index.
