(* ===== verification/WorkerBlockTable.v ===== *)
(** * v1 workers: the table of block numbers ([vllm/v1/worker/block_table.py])

    One row of block numbers per request of the batch, with the number of
    entries in use.  [block_table_cpu] and [block_table_np] share their memory
    and are one field here; [block_table] is the copy on the device. *)
From S2P Require Import Prelude.
From S2P Require Import Arrays.

Module WorkerBlockTable.

Record t : Type := Table {
  block_table : list (list Z);
  block_table_np : list (list Z);
  num_blocks_per_row : list Z;
}.

Definition with_device x s := Table x (block_table_np s) (num_blocks_per_row s).
Definition with_table x s := Table (block_table s) x (num_blocks_per_row s).
Definition with_num_blocks x s := Table (block_table s) (block_table_np s) x.

Definition rows : column t (list Z) := Column block_table_np with_table.
Definition num_blocks : column t Z := Column num_blocks_per_row with_num_blocks.

Definition init (max_num_reqs max_num_blocks_per_req : nat) : t :=
  let zeros := replicate max_num_reqs (replicate max_num_blocks_per_req 0) in
  Table zeros zeros (replicate max_num_reqs 0).

Definition append_row (block_ids : list Z) (row_idx : nat) : M t unit :=
  match block_ids with
  | [] => mret tt
  | _ =>
      let n := Z.of_nat (length block_ids) in
      start ← fetch num_blocks row_idx;
      store num_blocks row_idx (start + n) ;;
      store_slice rows row_idx start (start + n) block_ids
  end.

Definition add_row (block_ids : list Z) (row_idx : nat) : M t unit :=
  store num_blocks row_idx 0 ;; append_row block_ids row_idx.

Definition move_row (src tgt : nat) : M t unit :=
  n ← fetch num_blocks src;
  from ← fetch rows src;
  store_slice rows tgt 0 n (py_slice from 0 n) ;;
  store num_blocks tgt n.

Definition swap_row (src tgt : nat) : M t unit :=
  num_blocks_src ← fetch num_blocks src;
  num_blocks_tgt ← fetch num_blocks tgt;
  store num_blocks src num_blocks_tgt ;;
  store num_blocks tgt num_blocks_src ;;
  swap rows src tgt.

Definition commit (num_reqs : nat) : M t unit :=
  modify (fun s => with_device (take num_reqs (block_table_np s) ++ drop num_reqs (block_table s)) s).

Definition clear : M t unit :=
  modify (fun s =>
    let zero := map (map (fun _ : Z => 0)) in
    Table (zero (block_table s)) (zero (block_table_np s)) (num_blocks_per_row s)).

(** ** What a row says *)

(** Row [i] lists the blocks [l]. *)
Definition lists (s : t) (i : nat) (l : list Z) : Prop :=
  num_blocks_per_row s !! i = Some (Z.of_nat (length l)) /\
  exists row, block_table_np s !! i = Some row /\ holds row l.

(** Tables of [n] rows of [w] entries. *)
Record shaped (n w : nat) (s : t) : Prop := Shaped {
  shaped_rows : length (block_table_np s) = n;
  shaped_counts : length (num_blocks_per_row s) = n;
  shaped_row : Forall (fun row => length row = w) (block_table_np s);
}.

Lemma init_shaped n w : shaped n w (init n w).
Proof.
  split; cbn; [by rewrite length_replicate..|]. apply Forall_replicate. by rewrite length_replicate.
Qed.

Section Rows.
Context {n w : nat}.
Implicit Types (s : t) (l : list Z) (i j : nat).

Lemma row_lookup s i : shaped n w s -> (i < n)%nat ->
  exists row, block_table_np s !! i = Some row /\ length row = w.
Proof.
  intros Hs Hi. destruct (lookup_lt_is_Some_2 (block_table_np s) i) as [row Hr].
  { by rewrite (shaped_rows n w s Hs). }
  exists row. split; [done|]. apply (proj1 (Forall_forall _ _) (shaped_row n w s Hs)). by eapply list_elem_of_lookup_2.
Qed.

Lemma lists_lt s i l : shaped n w s -> lists s i l -> (i < n)%nat.
Proof. intros Hs [Hc _]. apply lookup_lt_Some in Hc. by rewrite (shaped_counts n w s Hs) in Hc. Qed.

Lemma lists_fits s i l : shaped n w s -> lists s i l -> (length l <= w)%nat.
Proof.
  intros Hs (_ & row & Hr & Hl%holds_le). etransitivity; [exact Hl|].
  apply Nat.eq_le_incl, (proj1 (Forall_forall _ _) (shaped_row n w s Hs)). by eapply list_elem_of_lookup_2.
Qed.

(** Replacing row [i]. *)
Definition put (i : nat) (c : Z) (row : list Z) (s : t) : t :=
  Table (block_table s) (<[i := row]> (block_table_np s)) (<[i := c]> (num_blocks_per_row s)).

Lemma put_shaped s i c row : shaped n w s -> length row = w -> shaped n w (put i c row s).
Proof.
  intros [H1 H2 H3] Hr. split; cbn; [by rewrite length_insert..|]. by apply Forall_insert.
Qed.

Lemma put_lists s i c row l : shaped n w s -> (i < n)%nat -> c = Z.of_nat (length l) -> holds row l ->
  lists (put i c row s) i l.
Proof.
  intros [H1 H2 _] Hi -> Hl. split; cbn.
  - apply list_lookup_insert_eq. lia.
  - exists row. split; [|done]. apply list_lookup_insert_eq. lia.
Qed.

Lemma put_other s i j c row l : i <> j -> lists s j l -> lists (put i c row s) j l.
Proof. intros Hij [Hc Hr]. split; cbn; rewrite list_lookup_insert_ne by done; done. Qed.

(** Appending blocks to a row that has room for them. *)
Lemma append_row_ok s i l block_ids : shaped n w s -> lists s i l ->
  (length l + length block_ids <= w)%nat ->
  meets (append_row block_ids i) s (fun _ s' =>
    shaped n w s' /\ lists s' i (l ++ block_ids) /\
    (forall j l', j <> i -> lists s j l' -> lists s' j l') /\ block_table s' = block_table s).
Proof.
  intros Hs Hl Hfit. unfold append_row. destruct block_ids as [|b bs] eqn:E.
  { apply meets_ret. rewrite app_nil_r. by split_and!. }
  rewrite <- E in *. clear E b bs. pose proof (lists_lt s i l Hs Hl) as Hi.
  destruct Hl as (Hc & row & Hr & Hrow). pose proof Hs as [H1 H2 H3].
  eapply meets_step; [by apply fetch_run|]. eapply meets_step; [apply store_run; cbn; lia|].
  unfold store_slice. eapply meets_step; [apply (fetch_run rows i row); exact Hr|].
  assert (Hw : length row = w) by (apply (proj1 (Forall_forall _ _) H3); by eapply list_elem_of_lookup_2).
  eapply meets_lift; [apply set_slice_ok; lia|]. unfold meets. rewrite store_run by (cbn; lia). cbn [write read rows num_blocks].
  change (with_table _ _) with (put i (Z.of_nat (length l) + Z.of_nat (length block_ids))
    (take (length l) row ++ block_ids ++ drop (length l + length block_ids) row) s).
  split_and!; [|apply put_lists; [done..|rewrite length_app; lia|]|by intros; apply put_other|done].
  - apply put_shaped; [done|]. rewrite set_slice_length; lia.
  - pose proof (holds_write row l block_ids (length l) Hrow (le_n _)) as H. by rewrite firstn_all in H.
Qed.

Lemma add_row_ok s i block_ids : shaped n w s -> (i < n)%nat -> (length block_ids <= w)%nat ->
  meets (add_row block_ids i) s (fun _ s' =>
    shaped n w s' /\ lists s' i block_ids /\
    (forall j l', j <> i -> lists s j l' -> lists s' j l') /\ block_table s' = block_table s).
Proof.
  intros Hs Hi Hfit. destruct (row_lookup s i Hs Hi) as (row & Hr & Hw). pose proof Hs as [H1 H2 H3].
  unfold add_row. eapply meets_step; [apply store_run; cbn; lia|]. cbn [write read rows num_blocks].
  assert (Heq : with_num_blocks (<[i := 0]> (num_blocks_per_row s)) s = put i 0 row s).
  { unfold put, with_num_blocks. f_equal. symmetry. by apply list_insert_id. }
  rewrite Heq. eapply meets_weaken.
  - apply (append_row_ok _ i [] block_ids); [by apply put_shaped|apply put_lists; done|done].
  - intros [] s' (Hs' & Hl' & Ho & Hd). split_and!; [done|exact Hl'|intros j l' Hj Hl; by apply Ho, put_other|done].
Qed.

Lemma move_row_ok s src tgt l : shaped n w s -> lists s src l -> (tgt < n)%nat ->
  meets (move_row src tgt) s (fun _ s' =>
    shaped n w s' /\ lists s' tgt l /\ (forall j l', j <> tgt -> lists s j l' -> lists s' j l') /\
    block_table s' = block_table s).
Proof.
  intros Hs Hl Ht. pose proof (lists_fits s src l Hs Hl) as Hfit. destruct Hl as (Hc & from & Hf & Hl).
  destruct (row_lookup s tgt Hs Ht) as (row & Hr & Hw). pose proof Hs as [H1 H2 H3].
  unfold move_row. eapply meets_step; [by apply fetch_run|]. eapply meets_step; [by apply fetch_run|].
  assert (Hsl : py_slice from 0 (Z.of_nat (length l)) = l).
  { rewrite py_slice_take, Nat2Z.id, Nat.sub_0_r by lia. by rewrite drop_0. }
  rewrite Hsl. eapply meets_bind with (R := fun _ s' =>
    s' = with_table (<[tgt := l ++ drop (length l) row]> (block_table_np s)) s).
  { unfold store_slice, meets. rewrite (bind_step _ _ _ _ _ (fetch_run rows tgt row s Hr)).
    pose proof (set_slice_ok row l 0 ltac:(lia)) as Hset. change (Z.of_nat 0) with 0 in Hset. rewrite Z.add_0_l in Hset.
    rewrite Hset. rewrite bind_run. unfold lift. rewrite store_run by (cbn; lia). done. }
  intros [] s' ->. unfold meets. rewrite store_run by (cbn; lia). cbn [write read rows num_blocks].
  change (with_num_blocks _ _) with (put tgt (Z.of_nat (length l)) (l ++ drop (length l) row) s).
  split_and!; [apply put_shaped; [done|rewrite length_app, length_drop; lia]|apply put_lists; try done|
               by intros; apply put_other|done].
  unfold holds. by rewrite take_app_length.
Qed.

Lemma swap_row_ok s i j li lj : shaped n w s -> lists s i li -> lists s j lj ->
  meets (swap_row i j) s (fun _ s' =>
    shaped n w s' /\ lists s' i lj /\ lists s' j li /\
    (forall k l', k <> i -> k <> j -> lists s k l' -> lists s' k l') /\ block_table s' = block_table s).
Proof.
  intros Hs Hi Hj. pose proof (lists_lt s i li Hs Hi) as Hin. pose proof (lists_lt s j lj Hs Hj) as Hjn.
  pose proof (conj Hi Hj) as Hij.
  destruct Hi as (Hci & ri & Hri & Hli), Hj as (Hcj & rj & Hrj & Hlj). pose proof Hs as [H1 H2 H3].
  unfold swap_row. eapply meets_step; [by apply fetch_run|]. eapply meets_step; [by apply fetch_run|].
  eapply meets_step; [apply store_run; cbn; lia|]. eapply meets_step; [apply store_run; cbn; rewrite length_insert; lia|].
  unfold meets. erewrite swap_run; [|done|done|cbn; exact Hri|cbn; exact Hrj]. cbn [write read rows num_blocks].
  change (with_table _ _) with (put j (Z.of_nat (length li)) ri (put i (Z.of_nat (length lj)) rj s)).
  assert (Hlen : forall r k, block_table_np s !! k = Some r -> length r = w).
  { intros r k Hk. apply (proj1 (Forall_forall _ _) H3). by eapply list_elem_of_lookup_2. }
  assert (Hs1 : shaped n w (put i (Z.of_nat (length lj)) rj s)) by (apply put_shaped; eauto).
  split_and!; [apply put_shaped; eauto| |by apply put_lists| |done].
  - destruct (decide (i = j)) as [<-|Hne]; [|apply put_other; [done|by apply put_lists]].
    assert (ri = rj /\ length li = length lj) as [<- Hll] by (simplify_eq; split; [done|lia]).
    apply put_lists; [done..|lia|done].
  - intros k l' Hki Hkj Hk. by do 2 (apply put_other; [done|]).
Qed.
End Rows.
End WorkerBlockTable.
