(* ===== verification/InputBatch.v ===== *)
(** * v1 workers: the persistent batch ([vllm/v1/worker/gpu_input_batch.py])

    [CachedRequestState] and [InputBatch], with [swap_dict_values] of
    [vllm/utils.py].  The batch keeps each request in a slot of many arrays, some
    dictionaries keyed by the slot, and some sets and dictionaries keyed by the
    request.

    - The one-dimensional arrays of numbers are [ints] and [reals], by attribute;
      the sets of request ids are [groups].
    - The list of output tokens of a request is an object that the cached state
      and the batch share: the batch holds its address, [add_request] is also
      given its contents.  A generator and a LoRA request are identifiers.
    - The tensors on the device change when [sampling_metadata] is made, which
      holds what they are then; the penalties of a batch without penalties, which
      nobody reads, are not represented.  The metadata shares the dictionaries
      keyed by slot and the list of outputs with the batch: they are read there.
    - Integers fit 32 bits. *)
From S2P Require Import Prelude.
From S2P Require Import V1Request.
From S2P Require Import Params.
From S2P Require Import Arrays.
From S2P Require Import WorkerBlockTable.

Record CachedRequestState : Type := CachedState {
  cached_req_id : string;
  cached_prompt_token_ids : list Z;
  cached_mm_inputs : list Z;
  cached_mm_positions : list PlaceholderRange;
  cached_sampling_params : Params.t;
  cached_generator : option nat;
  cached_block_ids : list Z;
  cached_num_computed_tokens : Z;
  cached_output_token_ids : nat;
  cached_lora_request : option Z;
}.

Inductive SamplingType : Type := GREEDY | RANDOM | RANDOM_SEED.

#[global] Instance sampling_type_eq_dec : EqDecision SamplingType.
Proof. solve_decision. Defined.

Definition sampling_type (p : Params.t) : SamplingType :=
  if Qltb (Params.temperature p) SAMPLING_EPS then GREEDY
  else if bool_decide (Params.seed p <> None) then RANDOM_SEED else RANDOM.

Record SamplingMetadata : Type := Metadata {
  m_temperature : option (list Q);
  m_all_greedy : bool;
  m_all_random : bool;
  m_top_p : option (list Q);
  m_top_k : option (list Z);
  m_min_p : option (list Q);
  m_max_num_logprobs : option Z;
  m_no_penalties : bool;
  m_prompt_token_ids : option (list (list Z));
  m_penalties : option (list Q * list Q * list Q);
  m_logit_bias : list (option (list (Z * Q)));
  m_allowed_token_ids_mask : option (list (list bool));
}.

Module InputBatch.

Inductive int_column : Type :=
  | NUM_TOKENS | NUM_TOKENS_NO_SPEC | NUM_PROMPT_TOKENS | NUM_COMPUTED_TOKENS | TOP_K | LORA_MAPPING.
Inductive real_column : Type :=
  | TEMPERATURE | TOP_P | MIN_P | FREQUENCY_PENALTIES | PRESENCE_PENALTIES | REPETITION_PENALTIES.
Inductive group : Type :=
  | GREEDY_REQS | RANDOM_REQS | TOP_P_REQS | TOP_K_REQS | MIN_P_REQS
  | FREQUENCY_REQS | PRESENCE_REQS | REPETITION_REQS | HAS_ALLOWED.

#[global] Instance int_column_eq_dec : EqDecision int_column.
Proof. solve_decision. Defined.
#[global] Instance real_column_eq_dec : EqDecision real_column.
Proof. solve_decision. Defined.
#[global] Instance group_eq_dec : EqDecision group.
Proof. solve_decision. Defined.

(** An array by name, with one of them replaced. *)
Definition set_at {K A} `{!EqDecision K} (k : K) (x : A) (f : K -> A) : K -> A :=
  fun j => if decide (j = k) then x else f j.

Lemma set_at_eq {K A} `{!EqDecision K} (k : K) (x : A) f : set_at k x f k = x.
Proof. unfold set_at. by rewrite decide_True. Qed.

Lemma set_at_ne {K A} `{!EqDecision K} (k j : K) (x : A) f : j <> k -> set_at k x f j = f j.
Proof. intros H. unfold set_at. by rewrite decide_False. Qed.

Record t : Type := Batch {
  max_num_reqs : nat;
  max_model_len : nat;
  vocab_size : Z;
  req_ids : list (option string);
  req_id_to_index : gmap string nat;
  token_ids_cpu : list (list Z);
  ints : int_column -> list Z;
  reals : real_column -> list Q;
  block_table : WorkerBlockTable.t;
  groups : group -> gset string;
  min_tokens : gmap nat (Z * gset Z);
  lora_id_to_request_ids : gmap Z (gset string);
  lora_id_to_lora_request : gmap Z Z;
  generators : gmap nat nat;
  num_logprobs : gmap string Z;
  num_prompt_logprobs : gmap string Z;
  logit_bias : list (option (list (Z * Q)));
  allowed_token_ids_mask : option (list (list bool));
  bad_words_token_ids : gmap nat (list (list Z));
  req_output_token_ids : list (option nat);
  sampling_metadata : SamplingMetadata;
}.

Definition with_req_ids x s := Batch (max_num_reqs s) (max_model_len s) (vocab_size s) x (req_id_to_index
  s) (token_ids_cpu s) (ints s) (reals s) (block_table s) (groups s) (min_tokens s)
  (lora_id_to_request_ids s) (lora_id_to_lora_request s) (generators s) (num_logprobs s)
  (num_prompt_logprobs s) (logit_bias s) (allowed_token_ids_mask s) (bad_words_token_ids s)
  (req_output_token_ids s) (sampling_metadata s).
Definition with_index x s := Batch (max_num_reqs s) (max_model_len s) (vocab_size s) (req_ids s) x
  (token_ids_cpu s) (ints s) (reals s) (block_table s) (groups s) (min_tokens s) (lora_id_to_request_ids
  s) (lora_id_to_lora_request s) (generators s) (num_logprobs s) (num_prompt_logprobs s) (logit_bias s)
  (allowed_token_ids_mask s) (bad_words_token_ids s) (req_output_token_ids s) (sampling_metadata s).
Definition with_token_ids x s := Batch (max_num_reqs s) (max_model_len s) (vocab_size s) (req_ids s)
  (req_id_to_index s) x (ints s) (reals s) (block_table s) (groups s) (min_tokens s)
  (lora_id_to_request_ids s) (lora_id_to_lora_request s) (generators s) (num_logprobs s)
  (num_prompt_logprobs s) (logit_bias s) (allowed_token_ids_mask s) (bad_words_token_ids s)
  (req_output_token_ids s) (sampling_metadata s).
Definition with_ints x s := Batch (max_num_reqs s) (max_model_len s) (vocab_size s) (req_ids s)
  (req_id_to_index s) (token_ids_cpu s) x (reals s) (block_table s) (groups s) (min_tokens s)
  (lora_id_to_request_ids s) (lora_id_to_lora_request s) (generators s) (num_logprobs s)
  (num_prompt_logprobs s) (logit_bias s) (allowed_token_ids_mask s) (bad_words_token_ids s)
  (req_output_token_ids s) (sampling_metadata s).
Definition with_reals x s := Batch (max_num_reqs s) (max_model_len s) (vocab_size s) (req_ids s)
  (req_id_to_index s) (token_ids_cpu s) (ints s) x (block_table s) (groups s) (min_tokens s)
  (lora_id_to_request_ids s) (lora_id_to_lora_request s) (generators s) (num_logprobs s)
  (num_prompt_logprobs s) (logit_bias s) (allowed_token_ids_mask s) (bad_words_token_ids s)
  (req_output_token_ids s) (sampling_metadata s).
Definition with_block_table x s := Batch (max_num_reqs s) (max_model_len s) (vocab_size s) (req_ids s)
  (req_id_to_index s) (token_ids_cpu s) (ints s) (reals s) x (groups s) (min_tokens s)
  (lora_id_to_request_ids s) (lora_id_to_lora_request s) (generators s) (num_logprobs s)
  (num_prompt_logprobs s) (logit_bias s) (allowed_token_ids_mask s) (bad_words_token_ids s)
  (req_output_token_ids s) (sampling_metadata s).
Definition with_groups x s := Batch (max_num_reqs s) (max_model_len s) (vocab_size s) (req_ids s)
  (req_id_to_index s) (token_ids_cpu s) (ints s) (reals s) (block_table s) x (min_tokens s)
  (lora_id_to_request_ids s) (lora_id_to_lora_request s) (generators s) (num_logprobs s)
  (num_prompt_logprobs s) (logit_bias s) (allowed_token_ids_mask s) (bad_words_token_ids s)
  (req_output_token_ids s) (sampling_metadata s).
Definition with_min_tokens x s := Batch (max_num_reqs s) (max_model_len s) (vocab_size s) (req_ids s)
  (req_id_to_index s) (token_ids_cpu s) (ints s) (reals s) (block_table s) (groups s) x
  (lora_id_to_request_ids s) (lora_id_to_lora_request s) (generators s) (num_logprobs s)
  (num_prompt_logprobs s) (logit_bias s) (allowed_token_ids_mask s) (bad_words_token_ids s)
  (req_output_token_ids s) (sampling_metadata s).
Definition with_lora_ids x s := Batch (max_num_reqs s) (max_model_len s) (vocab_size s) (req_ids s)
  (req_id_to_index s) (token_ids_cpu s) (ints s) (reals s) (block_table s) (groups s) (min_tokens s) x
  (lora_id_to_lora_request s) (generators s) (num_logprobs s) (num_prompt_logprobs s) (logit_bias s)
  (allowed_token_ids_mask s) (bad_words_token_ids s) (req_output_token_ids s) (sampling_metadata s).
Definition with_lora_requests x s := Batch (max_num_reqs s) (max_model_len s) (vocab_size s) (req_ids s)
  (req_id_to_index s) (token_ids_cpu s) (ints s) (reals s) (block_table s) (groups s) (min_tokens s)
  (lora_id_to_request_ids s) x (generators s) (num_logprobs s) (num_prompt_logprobs s) (logit_bias s)
  (allowed_token_ids_mask s) (bad_words_token_ids s) (req_output_token_ids s) (sampling_metadata s).
Definition with_generators x s := Batch (max_num_reqs s) (max_model_len s) (vocab_size s) (req_ids s)
  (req_id_to_index s) (token_ids_cpu s) (ints s) (reals s) (block_table s) (groups s) (min_tokens s)
  (lora_id_to_request_ids s) (lora_id_to_lora_request s) x (num_logprobs s) (num_prompt_logprobs s)
  (logit_bias s) (allowed_token_ids_mask s) (bad_words_token_ids s) (req_output_token_ids s)
  (sampling_metadata s).
Definition with_num_logprobs x s := Batch (max_num_reqs s) (max_model_len s) (vocab_size s) (req_ids s)
  (req_id_to_index s) (token_ids_cpu s) (ints s) (reals s) (block_table s) (groups s) (min_tokens s)
  (lora_id_to_request_ids s) (lora_id_to_lora_request s) (generators s) x (num_prompt_logprobs s)
  (logit_bias s) (allowed_token_ids_mask s) (bad_words_token_ids s) (req_output_token_ids s)
  (sampling_metadata s).
Definition with_num_prompt_logprobs x s := Batch (max_num_reqs s) (max_model_len s) (vocab_size s)
  (req_ids s) (req_id_to_index s) (token_ids_cpu s) (ints s) (reals s) (block_table s) (groups s)
  (min_tokens s) (lora_id_to_request_ids s) (lora_id_to_lora_request s) (generators s) (num_logprobs s) x
  (logit_bias s) (allowed_token_ids_mask s) (bad_words_token_ids s) (req_output_token_ids s)
  (sampling_metadata s).
Definition with_logit_bias x s := Batch (max_num_reqs s) (max_model_len s) (vocab_size s) (req_ids s)
  (req_id_to_index s) (token_ids_cpu s) (ints s) (reals s) (block_table s) (groups s) (min_tokens s)
  (lora_id_to_request_ids s) (lora_id_to_lora_request s) (generators s) (num_logprobs s)
  (num_prompt_logprobs s) x (allowed_token_ids_mask s) (bad_words_token_ids s) (req_output_token_ids s)
  (sampling_metadata s).
Definition with_mask x s := Batch (max_num_reqs s) (max_model_len s) (vocab_size s) (req_ids s)
  (req_id_to_index s) (token_ids_cpu s) (ints s) (reals s) (block_table s) (groups s) (min_tokens s)
  (lora_id_to_request_ids s) (lora_id_to_lora_request s) (generators s) (num_logprobs s)
  (num_prompt_logprobs s) (logit_bias s) x (bad_words_token_ids s) (req_output_token_ids s)
  (sampling_metadata s).
Definition with_bad_words x s := Batch (max_num_reqs s) (max_model_len s) (vocab_size s) (req_ids s)
  (req_id_to_index s) (token_ids_cpu s) (ints s) (reals s) (block_table s) (groups s) (min_tokens s)
  (lora_id_to_request_ids s) (lora_id_to_lora_request s) (generators s) (num_logprobs s)
  (num_prompt_logprobs s) (logit_bias s) (allowed_token_ids_mask s) x (req_output_token_ids s)
  (sampling_metadata s).
Definition with_outputs x s := Batch (max_num_reqs s) (max_model_len s) (vocab_size s) (req_ids s)
  (req_id_to_index s) (token_ids_cpu s) (ints s) (reals s) (block_table s) (groups s) (min_tokens s)
  (lora_id_to_request_ids s) (lora_id_to_lora_request s) (generators s) (num_logprobs s)
  (num_prompt_logprobs s) (logit_bias s) (allowed_token_ids_mask s) (bad_words_token_ids s) x
  (sampling_metadata s).
Definition with_metadata x s := Batch (max_num_reqs s) (max_model_len s) (vocab_size s) (req_ids s)
  (req_id_to_index s) (token_ids_cpu s) (ints s) (reals s) (block_table s) (groups s) (min_tokens s)
  (lora_id_to_request_ids s) (lora_id_to_lora_request s) (generators s) (num_logprobs s)
  (num_prompt_logprobs s) (logit_bias s) (allowed_token_ids_mask s) (bad_words_token_ids s)
  (req_output_token_ids s) x.

Definition ids : column t (option string) := Column req_ids with_req_ids.
Definition outputs : column t (option nat) := Column req_output_token_ids with_outputs.
Definition tokens : column t (list Z) := Column token_ids_cpu with_token_ids.
Definition int (c : int_column) : column t Z :=
  Column (fun s => ints s c) (fun x s => with_ints (set_at c x (ints s)) s).
Definition real (c : real_column) : column t Q :=
  Column (fun s => reals s c) (fun x s => with_reals (set_at c x (reals s)) s).
Definition biases : column t (option (list (Z * Q))) := Column logit_bias with_logit_bias.

Definition on_table {A} (f : M WorkerBlockTable.t A) : M t A := fun s =>
  let '(r, x) := f (block_table s) in (r, with_block_table x s).

Definition num_reqs (s : t) : nat := size (req_id_to_index s).

(** [s.add(req_id)] and [s.discard(req_id)] *)
Definition join (g : group) (id : string) : M t unit :=
  modify (fun s => with_groups (set_at g ({[id]} ∪ groups s g) (groups s)) s).
Definition leave (g : group) (id : string) : M t unit :=
  modify (fun s => with_groups (set_at g (groups s g ∖ {[id]}) (groups s)) s).
Definition join_if (b : bool) (g : group) (id : string) : M t unit :=
  if b then join g id else mret tt.

Definition empty_metadata : SamplingMetadata :=
  Metadata None true true None None None None true None None [] None.

Definition init (max_num_reqs max_model_len max_num_blocks_per_req : nat) (vocab_size : Z) : t :=
  Batch max_num_reqs max_model_len vocab_size [] ∅
    (replicate max_num_reqs (replicate max_model_len 0))
    (fun _ => replicate max_num_reqs 0) (fun _ => replicate max_num_reqs 0%Q)
    (WorkerBlockTable.init max_num_reqs max_num_blocks_per_req) (fun _ => ∅) ∅ ∅ ∅ ∅ ∅ ∅
    (replicate max_num_reqs None) None ∅ [] empty_metadata.

(** ** [add_request] *)

(** The slot, the tokens and the blocks. *)
Definition add_tokens (request : CachedRequestState) (output : list Z) (i : nat) : M t unit :=
  let prompt := cached_prompt_token_ids request in
  let num_prompt_tokens := Z.of_nat (length prompt) in
  let num_tokens := num_prompt_tokens + Z.of_nat (length output) in
  store (int NUM_PROMPT_TOKENS) i num_prompt_tokens ;;
  store_slice tokens i 0 num_prompt_tokens prompt ;;
  store_slice tokens i num_prompt_tokens num_tokens output ;;
  store (int NUM_TOKENS) i num_tokens ;;
  store (int NUM_TOKENS_NO_SPEC) i num_tokens ;;
  store (int NUM_COMPUTED_TOKENS) i (cached_num_computed_tokens request) ;;
  on_table (WorkerBlockTable.add_row (cached_block_ids request) i).

Definition add_sampling (request : CachedRequestState) (i : nat) : M t unit :=
  let id := cached_req_id request in
  let p := cached_sampling_params request in
  (if bool_decide (sampling_type p = GREEDY)
   then store (real TEMPERATURE) i (-1)%Q ;; join GREEDY_REQS id
   else store (real TEMPERATURE) i (Params.temperature p) ;; join RANDOM_REQS id) ;;
  store (real TOP_P) i (Params.top_p p) ;;
  join_if (Qltb (Params.top_p p) 1) TOP_P_REQS id ;;
  vocab ← gets vocab_size;
  let limits := (0 <? Params.top_k p) && (Params.top_k p <? vocab) in
  join_if limits TOP_K_REQS id ;;
  store (int TOP_K) i (if limits then Params.top_k p else vocab) ;;
  store (real MIN_P) i (Params.min_p p) ;;
  store (real FREQUENCY_PENALTIES) i (Params.frequency_penalty p) ;;
  join_if (Qltb SAMPLING_EPS (Params.min_p p)) MIN_P_REQS id ;;
  join_if (negb (Qeq_bool (Params.frequency_penalty p) 0)) FREQUENCY_REQS id ;;
  store (real PRESENCE_PENALTIES) i (Params.presence_penalty p) ;;
  join_if (negb (Qeq_bool (Params.presence_penalty p) 0)) PRESENCE_REQS id ;;
  store (real REPETITION_PENALTIES) i (Params.repetition_penalty p) ;;
  join_if (negb (Qeq_bool (Params.repetition_penalty p) 1)) REPETITION_REQS id.

Definition add_optional (request : CachedRequestState) (i : nat) : M t unit :=
  let id := cached_req_id request in
  let p := cached_sampling_params request in
  (if Params.min_tokens p =? 0 then mret tt
   else modify (fun s => with_min_tokens
          (<[i := (Params.min_tokens p, Params.all_stop_token_ids p)]> (min_tokens s)) s)) ;;
  match cached_generator request with
  | Some g => modify (fun s => with_generators (<[i := g]> (generators s)) s)
  | None => mret tt
  end ;;
  match Params.logprobs p with
  | Some n => modify (fun s => with_num_logprobs (<[id := n]> (num_logprobs s)) s)
  | None => mret tt
  end ;;
  match Params.prompt_logprobs p with
  | Some n => modify (fun s => with_num_prompt_logprobs (<[id := n]> (num_prompt_logprobs s)) s)
  | None => mret tt
  end ;;
  match Params.logit_bias p with
  | Some bias => store biases i (Some bias)
  | None => mret tt
  end.

(** [row[token_ids] = False] *)
Fixpoint allow (row : list bool) (token_ids : list Z) : result (list bool) :=
  match token_ids with
  | [] => Ok row
  | id :: token_ids' =>
      let i := if id <? 0 then id + Z.of_nat (length row) else id in
      if (0 <=? i) && (i <? Z.of_nat (length row))
      then allow (<[Z.to_nat i := false]> row) token_ids' else Err IndexError
  end.

Definition add_allowed (request : CachedRequestState) (i : nat) : M t unit :=
  match Params.allowed_token_ids (cached_sampling_params request) with
  | Some (a :: l) =>
      join HAS_ALLOWED (cached_req_id request) ;;
      s ← get;
      let mask := match allowed_token_ids_mask s with
                  | None => replicate (max_num_reqs s) (replicate (Z.to_nat (vocab_size s)) false)
                  | Some mask => mask
                  end in
      modify (with_mask (Some (<[i := replicate (Z.to_nat (vocab_size s)) true]> mask))) ;;
      row ← lift (allow (replicate (Z.to_nat (vocab_size s)) true) (a :: l));
      modify (with_mask (Some (<[i := row]> mask)))
  | _ => mret tt
  end.

Definition add_lora (request : CachedRequestState) (i : nat) : M t unit :=
  match cached_lora_request request with
  | Some lora_id =>
      modify (fun s => match lora_id_to_request_ids s !! lora_id with
                       | None => with_lora_ids (<[lora_id := ∅]> (lora_id_to_request_ids s)) s
                       | Some _ => s
                       end) ;;
      store (int LORA_MAPPING) i lora_id ;;
      modify (fun s => with_lora_ids
        (alter (union {[cached_req_id request]}) lora_id (lora_id_to_request_ids s)) s) ;;
      modify (fun s => with_lora_requests (<[lora_id := lora_id]> (lora_id_to_lora_request s)) s)
  | None => store (int LORA_MAPPING) i 0
  end.

Definition add_request (request : CachedRequestState) (output : list Z) (req_index : option nat) : M t unit :=
  s ← get;
  let i := default (num_reqs s) req_index in
  assert_ (bool_decide (i < max_num_reqs s)%nat) ;;
  let id := cached_req_id request in
  (if bool_decide (i = length (req_ids s))
   then modify (with_req_ids (req_ids s ++ [Some id])) ;;
        modify (with_outputs (req_output_token_ids s ++ [Some (cached_output_token_ids request)]))
   else store ids i (Some id) ;; store outputs i (Some (cached_output_token_ids request))) ;;
  modify (fun s => with_index (<[id := i]> (req_id_to_index s)) s) ;;
  add_tokens request output i ;;
  add_sampling request i ;;
  add_optional request i ;;
  add_allowed request i ;;
  modify (fun s => with_bad_words
    (<[i := Params.bad_words_token_ids (cached_sampling_params request)]> (bad_words_token_ids s)) s) ;;
  add_lora request i.

(** ** [remove_request] *)

(** A request leaves the set of its LoRA; the last one takes the LoRA with it. *)
Definition remove_lora (id : string) (i : nat) : M t unit :=
  lora_id ← fetch (int LORA_MAPPING) i;
  if lora_id =? 0 then mret tt
  else
    s ← get;
    members ← lift (from_option_exn KeyError ((lora_id_to_request_ids s : gmap Z (gset string)) !! lora_id));
    let members := (members ∖ {[id]} : gset string) in
    modify (with_lora_ids (<[lora_id := members]> (lora_id_to_request_ids s))) ;;
    (if bool_decide (members = ∅)
     then
       modify (fun s => with_lora_ids (delete lora_id (lora_id_to_request_ids s)) s) ;;
       lift (if bool_decide (lora_id_to_lora_request s !! lora_id = None) then Err KeyError else Ok tt) ;;
       modify (fun s => with_lora_requests (delete lora_id (lora_id_to_lora_request s)) s)
     else mret tt) ;;
    store (int LORA_MAPPING) i 0.

Definition clear_mask_row (i : nat) : M t unit :=
  modify (fun s => match allowed_token_ids_mask s with
                   | Some mask => with_mask (Some (alter (map (fun _ => false)) i mask)) s
                   | None => s
                   end).

Definition remove_request (id : string) : M t (option nat) :=
  s ← get;
  match req_id_to_index s !! id with
  | None => mret None
  | Some i =>
      modify (with_index (delete id (req_id_to_index s))) ;;
      store ids i None ;;
      store outputs i None ;;
      leave GREEDY_REQS id ;;
      leave RANDOM_REQS id ;;
      leave TOP_P_REQS id ;;
      leave TOP_K_REQS id ;;
      leave MIN_P_REQS id ;;
      modify (fun s => with_min_tokens (delete i (min_tokens s)) s) ;;
      leave FREQUENCY_REQS id ;;
      leave PRESENCE_REQS id ;;
      leave REPETITION_REQS id ;;
      modify (fun s => with_generators (delete i (generators s)) s) ;;
      modify (fun s => with_num_logprobs (delete id (num_logprobs s)) s) ;;
      modify (fun s => with_num_prompt_logprobs (delete id (num_prompt_logprobs s)) s) ;;
      remove_lora id i ;;
      store biases i None ;;
      leave HAS_ALLOWED id ;;
      clear_mask_row i ;;
      modify (fun s => with_bad_words (delete i (bad_words_token_ids s)) s) ;;
      mret (Some i)
  end.

(** ** [condense] *)

(** What is popped from one key of a dictionary is put under another. *)
Definition rekey {V} (src dst : nat) (d : gmap nat V) : gmap nat V :=
  match d !! src with
  | Some v => <[dst := v]> (delete src d)
  | None => delete src d
  end.

(** The request of slot [src] goes to the empty slot [dst]. *)
Definition move_request (src dst : nat) : M t unit :=
  oid ← fetch ids src;
  output ← fetch outputs src;
  match oid with
  | None => raise AssertionError
  | Some id =>
      store ids dst (Some id) ;;
      store ids src None ;;
      store outputs dst output ;;
      store outputs src None ;;
      modify (fun s => with_index (<[id := dst]> (req_id_to_index s)) s) ;;
      num_tokens ← fetch (int NUM_TOKENS) src;
      from ← fetch tokens src;
      store_slice tokens dst 0 num_tokens (py_slice from 0 num_tokens) ;;
      store (int NUM_TOKENS) dst num_tokens ;;
      move (int NUM_TOKENS_NO_SPEC) src dst ;;
      move (int NUM_PROMPT_TOKENS) src dst ;;
      move (int NUM_COMPUTED_TOKENS) src dst ;;
      on_table (WorkerBlockTable.move_row src dst) ;;
      move (real TEMPERATURE) src dst ;;
      move (real TOP_P) src dst ;;
      move (int TOP_K) src dst ;;
      move (real FREQUENCY_PENALTIES) src dst ;;
      move (real PRESENCE_PENALTIES) src dst ;;
      move (real REPETITION_PENALTIES) src dst ;;
      move (real MIN_P) src dst ;;
      modify (fun s => with_generators (rekey src dst (generators s)) s) ;;
      modify (fun s => with_min_tokens (rekey src dst (min_tokens s)) s) ;;
      move (int LORA_MAPPING) src dst ;;
      move biases src dst ;;
      modify (fun s => match allowed_token_ids_mask s with
                       | Some mask => with_mask (Some (<[dst := default [] (mask !! src)]> mask)) s
                       | None => s
                       end) ;;
      modify (fun s => with_bad_words (rekey src dst (bad_words_token_ids s)) s)
  end.

(** [while last_req_index in empty_req_indices: last_req_index -= 1] *)
Fixpoint skip_empty (fuel : nat) (last_req_index : Z) (empty : list nat) : result Z :=
  match fuel with
  | O => Err OutOfFuel
  | S fuel =>
      if bool_decide (last_req_index ∈ map Z.of_nat empty)
      then skip_empty fuel (last_req_index - 1) empty else Ok last_req_index
  end.

Fixpoint condense_loop (fuel : nat) (empty : list nat) (last_req_index : Z) : M t unit :=
  match last empty with
  | None => mret tt
  | Some empty_index =>
      match fuel with
      | O => raise OutOfFuel
      | S fuel =>
          last_req_index ← lift (skip_empty (S (length empty)) last_req_index empty);
          if last_req_index <=? Z.of_nat empty_index then mret tt
          else
            move_request (Z.to_nat last_req_index) empty_index ;;
            condense_loop fuel (removelast empty) (last_req_index - 1)
      end
  end.

Definition condense (empty_req_indices : list nat) : M t unit :=
  n ← gets num_reqs;
  if bool_decide (n = O)
  then modify (with_req_ids []) ;; modify (with_outputs [])
  else
    condense_loop (length empty_req_indices) empty_req_indices
      (Z.of_nat (n + length empty_req_indices) - 1) ;;
    modify (fun s => with_req_ids (take (num_reqs s) (req_ids s)) s) ;;
    modify (fun s => with_outputs (take (num_reqs s) (req_output_token_ids s)) s).

(** ** [swap_states] *)

Definition swap_dict_values {V} (key1 key2 : nat) (d : gmap nat V) : gmap nat V :=
  let v1 := d !! key1 in
  let v2 := d !! key2 in
  let d := match v1 with Some v => <[key2 := v]> d | None => delete key2 d end in
  match v2 with Some v => <[key1 := v]> d | None => delete key1 d end.

(** A tuple assignment between rows of a tensor: the right-hand sides are views,
    so the second row is read after the first is overwritten. *)
Definition swap_views {A} (i1 i2 : nat) (mask : list A) : list A :=
  match mask !! i2 with
  | Some row =>
      let mask := <[i1 := row]> mask in
      match mask !! i1 with Some row => <[i2 := row]> mask | None => mask end
  | None => mask
  end.

Definition swap_states (i1 i2 : nat) : M t unit :=
  old_id_i1 ← fetch ids i1;
  old_id_i2 ← fetch ids i2;
  swap ids i1 i2 ;;
  swap outputs i1 i2 ;;
  match old_id_i1, old_id_i2 with
  | Some id1, Some id2 =>
      s ← get;
      x ← lift (from_option_exn KeyError (req_id_to_index s !! id2));
      y ← lift (from_option_exn KeyError (req_id_to_index s !! id1));
      modify (with_index (<[id2 := y]> (<[id1 := x]> (req_id_to_index s)))) ;;
      swap (int NUM_TOKENS) i1 i2 ;;
      swap (int NUM_TOKENS_NO_SPEC) i1 i2 ;;
      swap (int NUM_PROMPT_TOKENS) i1 i2 ;;
      swap (int NUM_COMPUTED_TOKENS) i1 i2 ;;
      swap (real TEMPERATURE) i1 i2 ;;
      swap (real TOP_P) i1 i2 ;;
      swap (int TOP_K) i1 i2 ;;
      swap (real FREQUENCY_PENALTIES) i1 i2 ;;
      swap (real PRESENCE_PENALTIES) i1 i2 ;;
      swap (real REPETITION_PENALTIES) i1 i2 ;;
      swap (real MIN_P) i1 i2 ;;
      swap tokens i1 i2 ;;
      modify (fun s => with_generators (swap_dict_values i1 i2 (generators s)) s) ;;
      modify (fun s => with_min_tokens (swap_dict_values i1 i2 (min_tokens s)) s) ;;
      modify (fun s => with_bad_words (swap_dict_values i1 i2 (bad_words_token_ids s)) s) ;;
      swap (int LORA_MAPPING) i1 i2 ;;
      swap biases i1 i2 ;;
      modify (fun s => match allowed_token_ids_mask s with
                       | Some mask => with_mask (Some (swap_views i1 i2 mask)) s
                       | None => s
                       end) ;;
      on_table (WorkerBlockTable.swap_row i1 i2)
  | _, _ => raise AssertionError
  end.

(** ** The sampling metadata *)

Definition nobody (g : group) (s : t) : bool := bool_decide (groups s g = ∅).
Definition all_greedy : t -> bool := nobody RANDOM_REQS.
Definition all_random : t -> bool := nobody GREEDY_REQS.
Definition no_penalties (s : t) : bool :=
  nobody PRESENCE_REQS s && nobody FREQUENCY_REQS s && nobody REPETITION_REQS s.

Definition max_num_logprobs (s : t) : option Z :=
  match map snd (map_to_list (num_logprobs s)) with
  | [] => None
  | x :: l => Some (foldr Z.max x l)
  end.

(** The prompts, padded with a token that does not exist. *)
Definition make_prompt_token_ids_tensor (s : t) : result (list (list Z)) :=
  let n := num_reqs s in
  match take n (ints s NUM_PROMPT_TOKENS) with
  | [] => Err ValueError
  | x :: l =>
      let max_prompt_len := foldr Z.max x l in
      mapM (fun '(row, np) =>
              row ← broadcast (Z.to_nat max_prompt_len) (py_slice row 0 max_prompt_len);
              Ok (py_slice row 0 np ++ replicate (length row - slice_bound row np) (vocab_size s)))
        (zip (take n (token_ids_cpu s)) (x :: l))
  end.

Definition make_sampling_metadata (s : t) : result SamplingMetadata :=
  let n := num_reqs s in
  prompts ← (if no_penalties s then Ok None
             else l ← make_prompt_token_ids_tensor s; Ok (Some l));
  mask ← (if nobody HAS_ALLOWED s then Ok None
          else match allowed_token_ids_mask s with
               | None => Err AssertionError
               | Some mask => Ok (Some (take n mask))
               end);
  Ok (Metadata
    (if all_greedy s then None else Some (take n (reals s TEMPERATURE)))
    (all_greedy s) (all_random s)
    (if nobody TOP_P_REQS s then None else Some (take n (reals s TOP_P)))
    (if nobody TOP_K_REQS s then None else Some (take n (ints s TOP_K)))
    (if nobody MIN_P_REQS s then None else Some (take n (reals s MIN_P)))
    (max_num_logprobs s) (no_penalties s) prompts
    (if no_penalties s then None
     else Some (take n (reals s FREQUENCY_PENALTIES), take n (reals s PRESENCE_PENALTIES),
                take n (reals s REPETITION_PENALTIES)))
    (take n (logit_bias s)) mask).

Definition refresh_sampling_metadata : M t unit :=
  s ← get; m ← lift (make_sampling_metadata s); modify (with_metadata m).
End InputBatch.
