(* ===== verification/InputBatchCorrect.v ===== *)
(** * v1 workers: the persistent batch is a map of slots

    The batch of [InputBatch] is fifteen arrays, three dictionaries by slot and
    a dozen collections by request.  Here it refines a finite map from slots to
    requests: [add_request] inserts, [remove_request] deletes, [condense] renames
    slots until they are contiguous, [swap_states] exchanges two. *)
From stdpp Require Import sorting.
From S2P Require Import Prelude.
From S2P Require Import V1Request.
From S2P Require Import Params.
From S2P Require Import Arrays.
From S2P Require Import WorkerBlockTable.
From S2P Require Import InputBatch.

Module Slots.
Import InputBatch.

(** ** What a slot holds *)

Record slot : Type := Slot {
  s_id : string;
  s_output : nat;
  s_tokens : list Z;
  s_int : int_column -> Z;
  s_real : real_column -> Q;
  s_blocks : list Z;
  s_min_tokens : option (Z * gset Z);
  s_generator : option nat;
  s_bad_words : option (list (list Z));
  s_member : group -> bool;
  s_logprobs : option Z;
  s_prompt_logprobs : option Z;
}.

(** Slot [i] of the batch holds [x].  Logit biases and the mask of allowed tokens
    are left out: see [stale_logit_bias] of [WorkerSampling]. *)
Record occupied (s : t) (i : nat) (x : slot) : Prop := Occupied {
  o_id : req_ids s !! i = Some (Some (s_id x));
  o_index : req_id_to_index s !! s_id x = Some i;
  o_output : req_output_token_ids s !! i = Some (Some (s_output x));
  o_int : forall c, ints s c !! i = Some (s_int x c);
  o_real : forall c, reals s c !! i = Some (s_real x c);
  o_num_tokens : s_int x NUM_TOKENS = Z.of_nat (length (s_tokens x));
  o_tokens : exists row, token_ids_cpu s !! i = Some row /\ holds row (s_tokens x);
  o_blocks : WorkerBlockTable.lists (block_table s) i (s_blocks x);
  o_min_tokens : min_tokens s !! i = s_min_tokens x;
  o_generator : generators s !! i = s_generator x;
  o_bad_words : bad_words_token_ids s !! i = s_bad_words x;
  o_member : forall g, bool_decide (s_id x ∈ groups s g) = s_member x g;
  o_logprobs : num_logprobs s !! s_id x = s_logprobs x;
  o_prompt_logprobs : num_prompt_logprobs s !! s_id x = s_prompt_logprobs x;
  o_lora : s_int x LORA_MAPPING <> 0 -> exists members : gset string,
    lora_id_to_request_ids s !! s_int x LORA_MAPPING = Some members /\ s_id x ∈ members;
}.

(** The arrays have their sizes: [n] slots, rows of [m] tokens and [w] blocks. *)
Record sized (n m w : nat) (s : t) : Prop := Sized {
  z_slots : max_num_reqs s = n;
  z_ints : forall c, length (ints s c) = n;
  z_reals : forall c, length (reals s c) = n;
  z_tokens : length (token_ids_cpu s) = n;
  z_row : Forall (fun row => length row = m) (token_ids_cpu s);
  z_biases : length (logit_bias s) = n;
  z_table : WorkerBlockTable.shaped n w (block_table s);
}.

(** The batch holds the slots [X]. *)
Record batch_ok (n m w : nat) (X : gmap nat slot) (s : t) : Prop := BatchOk {
  b_sized : sized n m w s;
  b_lists : length (req_ids s) = length (req_output_token_ids s);
  b_max : (length (req_ids s) <= n)%nat;
  b_slots : forall i x, X !! i = Some x -> occupied s i x;
  b_free : forall i, X !! i = None ->
    ((i < length (req_ids s))%nat -> req_ids s !! i = Some None) /\
    min_tokens s !! i = None /\ generators s !! i = None /\ bad_words_token_ids s !! i = None;
  b_index : forall id i, req_id_to_index s !! id = Some i -> exists x, X !! i = Some x /\ s_id x = id;
  b_members : forall g id, id ∈ groups s g -> is_Some (req_id_to_index s !! id);
  b_logprobs : forall id, is_Some (num_logprobs s !! id) -> is_Some (req_id_to_index s !! id);
  b_prompt_logprobs : forall id, is_Some (num_prompt_logprobs s !! id) -> is_Some (req_id_to_index s !! id);
  b_loras : dom (lora_id_to_request_ids s) = dom (lora_id_to_lora_request s);
  b_mask : groups s HAS_ALLOWED <> ∅ -> allowed_token_ids_mask s <> None;
}.

(** Steps on a state given by its fields: [fields] brings an update to the same
    form, [by_name] reads a column by its name. *)
Ltac fields := cbn [write read int real ids outputs tokens biases
    max_num_reqs max_model_len vocab_size req_ids req_id_to_index token_ids_cpu ints reals block_table
    groups min_tokens lora_id_to_request_ids lora_id_to_lora_request generators num_logprobs
    num_prompt_logprobs logit_bias allowed_token_ids_mask bad_words_token_ids req_output_token_ids
    sampling_metadata
    with_req_ids with_index with_token_ids with_ints with_reals with_block_table with_groups with_min_tokens
    with_lora_ids with_lora_requests with_generators with_num_logprobs with_num_prompt_logprobs
    with_logit_bias with_mask with_bad_words with_outputs].
Ltac fields_in H := cbn [write read int real ids outputs tokens biases
    max_num_reqs max_model_len vocab_size req_ids req_id_to_index token_ids_cpu ints reals block_table
    groups min_tokens lora_id_to_request_ids lora_id_to_lora_request generators num_logprobs
    num_prompt_logprobs logit_bias allowed_token_ids_mask bad_words_token_ids req_output_token_ids
    sampling_metadata
    with_req_ids with_index with_token_ids with_ints with_reals with_block_table with_groups with_min_tokens
    with_lora_ids with_lora_requests with_generators with_num_logprobs with_num_prompt_logprobs
    with_logit_bias with_mask with_bad_words with_outputs] in H.
Ltac by_name := repeat (rewrite set_at_eq || rewrite set_at_ne by discriminate).
Ltac tidy := fields; by_name.
Ltac size := tidy; rewrite ?length_insert; eauto with lia.
Ltac store_column := apply meets_store; [size|]; tidy.

Section Batch.
Context {n m w : nat}.
Implicit Types (s : t) (X : gmap nat slot) (x y : slot) (i j : nat).

Lemma slot_lt X s i x : batch_ok n m w X s -> X !! i = Some x -> (i < length (req_ids s))%nat.
Proof. intros Hb Hx. eapply lookup_lt_Some. by apply (o_id _ _ _ (b_slots _ _ _ _ _ Hb i x Hx)). Qed.

(** A request has one slot. *)
Lemma slot_unique X s i j x y : batch_ok n m w X s -> X !! i = Some x -> X !! j = Some y ->
  s_id x = s_id y -> i = j.
Proof.
  intros Hb Hx Hy Hid. pose proof (o_index _ _ _ (b_slots _ _ _ _ _ Hb i x Hx)) as Hi.
  pose proof (o_index _ _ _ (b_slots _ _ _ _ _ Hb j y Hy)) as Hj. rewrite Hid in Hi. congruence.
Qed.

Lemma num_reqs_size X s : batch_ok n m w X s -> num_reqs s = size X.
Proof.
  intros Hb. unfold num_reqs. rewrite <- !length_map_to_list.
  transitivity (length (map_to_list (req_id_to_index s)).*2); [by rewrite length_fmap|].
  transitivity (length (map_to_list X).*1); [|by rewrite length_fmap].
  apply Permutation_length, NoDup_Permutation; [| |].
  - apply NoDup_fmap_2_strong; [|apply NoDup_map_to_list].
    intros [id1 i1] [id2 i2] H1%elem_of_map_to_list H2%elem_of_map_to_list Hi. cbn in Hi. subst i2.
    destruct (b_index _ _ _ _ _ Hb _ _ H1) as (x & Hx & <-), (b_index _ _ _ _ _ Hb _ _ H2) as (y & Hy & <-).
    rewrite Hx in Hy. by injection Hy as <-.
  - apply NoDup_fst_map_to_list.
  - intros i. rewrite !list_elem_of_fmap. split.
    + intros ([id i'] & -> & H%elem_of_map_to_list). destruct (b_index _ _ _ _ _ Hb _ _ H) as (x & Hx & _).
      exists (i', x). split; [done|]. by apply elem_of_map_to_list.
    + intros ([i' x] & -> & H%elem_of_map_to_list). exists (s_id x, i'). split; [done|].
      apply elem_of_map_to_list. cbn. apply (o_index _ _ _ (b_slots _ _ _ _ _ Hb _ _ H)).
Qed.

(** ** [add_request] *)

(** A column with an entry replaced, or as it was. *)
Definition upd {A} (i : nat) (o : option A) (l : list A) : list A :=
  match o with Some x => <[i := x]> l | None => l end.

Lemma length_upd {A} i (o : option A) (l : list A) : length (upd i o l) = length l.
Proof. destruct o; [apply length_insert|done]. Qed.

Definition token_ints (r : CachedRequestState) (output : list Z) (c : int_column) : option Z :=
  let num := Z.of_nat (length (cached_prompt_token_ids r ++ output)) in
  match c with
  | NUM_TOKENS | NUM_TOKENS_NO_SPEC => Some num
  | NUM_PROMPT_TOKENS => Some (Z.of_nat (length (cached_prompt_token_ids r)))
  | NUM_COMPUTED_TOKENS => Some (cached_num_computed_tokens r)
  | TOP_K | LORA_MAPPING => None
  end.

Lemma on_table_ok {A} (f : M WorkerBlockTable.t A) s (Q : A -> WorkerBlockTable.t -> Prop) :
  meets f (block_table s) Q -> meets (on_table f) s (fun a s' =>
    exists T, s' = with_block_table T s /\ Q a T).
Proof.
  unfold meets, on_table. destruct (f (block_table s)) as [[a|e] T]; [|done]. intros HQ. by exists T.
Qed.

Lemma row_at s i : sized n m w s -> (i < n)%nat ->
  exists row, token_ids_cpu s !! i = Some row /\ length row = m.
Proof.
  intros Hz Hi. destruct (lookup_lt_is_Some_2 (token_ids_cpu s) i) as [row Hr]; [by rewrite (z_tokens _ _ _ _ Hz)|].
  exists row. split; [done|]. apply (proj1 (Forall_forall _ _) (z_row _ _ _ _ Hz)). by eapply list_elem_of_lookup_2.
Qed.

Lemma add_tokens_ok r output s i : sized n m w s -> (i < n)%nat ->
  (length (cached_prompt_token_ids r ++ output) <= m)%nat -> (length (cached_block_ids r) <= w)%nat ->
  meets (add_tokens r output i) s (fun _ s' => exists I row T,
    s' = with_block_table T (with_ints I (with_token_ids (<[i := row]> (token_ids_cpu s)) s)) /\
    (forall c, I c = upd i (token_ints r output c) (ints s c)) /\
    length row = m /\ holds row (cached_prompt_token_ids r ++ output) /\
    WorkerBlockTable.shaped n w T /\ WorkerBlockTable.lists T i (cached_block_ids r) /\
    forall j l, j <> i -> WorkerBlockTable.lists (block_table s) j l -> WorkerBlockTable.lists T j l).
Proof.
  intros Hz Hi Hm Hw. destruct (row_at s i Hz Hi) as (row & Hr & Hlen). pose proof Hz as [_ Zi _ Zt _ _ ZT].
  assert (Hin : forall c, (i < length (ints s c))%nat) by (intros c; by rewrite Zi). clear Hz Zi.
  destruct s as [mr ml vs ri rx tk I0 R0 bt G mt li lr gs nl np lb am bw ro sm]. cbn in *.
  set (prompt := cached_prompt_token_ids r) in *. rewrite length_app in Hm. unfold add_tokens. fold prompt.
  store_column.
  apply (meets_store_slice tokens i 0 row prompt); [exact Hr|lia|]. tidy.
  set (row1 := take 0 row ++ prompt ++ drop (0 + length prompt) row).
  assert (Hl1 : length row1 = m) by (unfold row1; rewrite set_slice_length; lia).
  assert (H1 : holds row1 prompt) by (apply (holds_write row [] prompt 0); done).
  apply (meets_store_slice tokens i (length prompt) row1 output); [|lia|].
  { tidy. apply list_lookup_insert_eq. by rewrite Zt. }
  tidy.
  set (row2 := take (length prompt) row1 ++ output ++ drop (length prompt + length output) row1).
  assert (Hl2 : length row2 = m) by (unfold row2; rewrite set_slice_length; lia).
  assert (H2 : holds row2 (prompt ++ output)).
  { pose proof (holds_write row1 prompt output (length prompt) H1 (le_n _)) as H. by rewrite firstn_all in H. }
  do 3 store_column.
  eapply meets_weaken; [apply on_table_ok, (WorkerBlockTable.add_row_ok (n := n) (w := w)); [exact ZT|done|exact Hw]|].
  intros [] s' (T & -> & HT & HTi & HTo & _). tidy.
  eexists _, row2, T. split_and!; [|intros c|done..].
  - rewrite list_insert_insert_eq. reflexivity.
  - unfold token_ints. rewrite length_app, Nat2Z.inj_add. destruct c; cbn [upd]; by_name; done.
Qed.

(** A set of requests that another one joins, or does not. *)
Definition joined (b : bool) (g : group) (id : string) (G : group -> gset string) : group -> gset string :=
  if b then set_at g ({[id]} ∪ G g) G else G.

Lemma joined_eq b g id G : joined b g id G g = if b then {[id]} ∪ G g else G g.
Proof. destruct b; cbn; by rewrite ?set_at_eq. Qed.

Lemma joined_ne b g g' id G : g' <> g -> joined b g id G g' = G g'.
Proof. intros. destruct b; cbn; by rewrite ?set_at_ne. Qed.

Ltac by_group := repeat (rewrite joined_eq || rewrite joined_ne by discriminate).

Lemma meets_join_if {B} b g id (f : unit -> M t B) s Q :
  meets (f tt) (with_groups (joined b g id (groups s)) s) Q -> meets (join_if b g id ≫= f) s Q.
Proof. destruct b; [done|]. cbn. by destruct s. Qed.

Definition limits_top_k (vocab : Z) (p : Params.t) : bool :=
  (0 <? Params.top_k p) && (Params.top_k p <? vocab).

Definition greedy (p : Params.t) : bool := bool_decide (sampling_type p = GREEDY).

Definition sampled_real (p : Params.t) (c : real_column) : Q :=
  match c with
  | TEMPERATURE => if greedy p then (-1)%Q else Params.temperature p
  | TOP_P => Params.top_p p
  | MIN_P => Params.min_p p
  | FREQUENCY_PENALTIES => Params.frequency_penalty p
  | PRESENCE_PENALTIES => Params.presence_penalty p
  | REPETITION_PENALTIES => Params.repetition_penalty p
  end.

Definition sampled_member (vocab : Z) (p : Params.t) (g : group) : bool :=
  match g with
  | GREEDY_REQS => greedy p
  | RANDOM_REQS => negb (greedy p)
  | TOP_P_REQS => Qltb (Params.top_p p) 1
  | TOP_K_REQS => limits_top_k vocab p
  | MIN_P_REQS => Qltb SAMPLING_EPS (Params.min_p p)
  | FREQUENCY_REQS => negb (Qeq_bool (Params.frequency_penalty p) 0)
  | PRESENCE_REQS => negb (Qeq_bool (Params.presence_penalty p) 0)
  | REPETITION_REQS => negb (Qeq_bool (Params.repetition_penalty p) 1)
  | HAS_ALLOWED => false
  end.

Lemma temperature_ok (p : Params.t) id i s : sized n m w s -> (i < n)%nat ->
  meets (if bool_decide (sampling_type p = GREEDY)
         then store (real TEMPERATURE) i (-1)%Q ;; join GREEDY_REQS id
         else store (real TEMPERATURE) i (Params.temperature p) ;; join RANDOM_REQS id) s
    (fun _ s' => s' =
       with_groups (joined (negb (greedy p)) RANDOM_REQS id (joined (greedy p) GREEDY_REQS id (groups s)))
         (with_reals (set_at TEMPERATURE (<[i := sampled_real p TEMPERATURE]> (reals s TEMPERATURE)) (reals s)) s)).
Proof.
  intros Hz Hi. unfold sampled_real, greedy. pose proof (z_reals _ _ _ _ Hz) as Zr.
  assert (forall c, (i < length (reals s c))%nat) by (intros c; by rewrite Zr). clear Hz Zr.
  destruct (bool_decide _); cbn [negb joined]; store_column; done.
Qed.

Lemma add_sampling_ok r s i : sized n m w s -> (i < n)%nat ->
  let p := cached_sampling_params r in
  let vocab := vocab_size s in
  meets (add_sampling r i) s (fun _ s' => exists I R G,
    s' = with_groups G (with_reals R (with_ints I s)) /\
    (forall c, I c = upd i (if decide (c = TOP_K)
                            then Some (if limits_top_k vocab p then Params.top_k p else vocab) else None) (ints s c)) /\
    (forall c, R c = <[i := sampled_real p c]> (reals s c)) /\
    (forall g, G g = if sampled_member vocab p g then {[cached_req_id r]} ∪ groups s g else groups s g)).
Proof.
  intros Hz Hi p vocab. unfold add_sampling. fold p.
  eapply meets_bind; [apply temperature_ok; done|]. intros [] s' ->.
  pose proof (z_reals _ _ _ _ Hz) as Zr. pose proof (z_ints _ _ _ _ Hz) as Zi.
  assert (forall c, (i < length (reals s c))%nat) by (intros c; by rewrite Zr).
  assert (forall c, (i < length (ints s c))%nat) by (intros c; by rewrite Zi).
  clear Zr Zi Hz. set (G1 := joined _ _ _ _). set (R1 := set_at TEMPERATURE _ _).
  assert (HR1 : forall c, (i < length (R1 c))%nat).
  { intros c. unfold R1, set_at. case_decide; [by rewrite length_insert|done]. }
  destruct s as [mr ml vs ri rx tk I0 R0 bt G mt li lr gs nl np lb am bw ro sm]. cbn [ints reals groups] in *. tidy.
  store_column. apply meets_join_if. tidy.
  unfold gets. eapply meets_step; [reflexivity|]. tidy.
  change ((0 <? Params.top_k p) && (Params.top_k p <? vs)) with (limits_top_k vocab p).
  apply meets_join_if. tidy.
  do 3 store_column. do 2 (apply meets_join_if; tidy).
  store_column. apply meets_join_if; tidy. store_column. apply meets_last, meets_join_if, meets_ret. tidy.
  eexists _, _, _. split; [reflexivity|].
  split_and!; intros c; destruct c; by_name; by_group; try done; unfold R1, G1; by_name; by_group; done.
Qed.

(** A value put in a dictionary, when there is one. *)
Definition opt_insert {K A M'} `{!Insert K A M'} (k : K) (o : option A) (d : M') : M' :=
  match o with Some x => <[k := x]> d | None => d end.

Lemma lookup_opt_insert `{Countable K} {A} (k : K) (o : option A) (d : gmap K A) :
  d !! k = None -> opt_insert k o d !! k = o.
Proof. intros Hd. destruct o; cbn; [apply lookup_insert_eq|done]. Qed.

Lemma lookup_opt_insert_ne `{Countable K} {A} (k j : K) (o : option A) (d : gmap K A) :
  k <> j -> opt_insert k o d !! j = d !! j.
Proof. intros Hd. destruct o; cbn; [by apply lookup_insert_ne|done]. Qed.

Lemma meets_opt_insert `{Countable K} {A B} (R : t -> gmap K A) (W : gmap K A -> t -> t) k (o : option A)
    (f : unit -> M t B) s Q :
  (forall s, W (R s) s = s) -> meets (f tt) (W (opt_insert k o (R s)) s) Q ->
  meets (match o with Some x => modify (fun s => W (<[k := x]> (R s)) s) | None => mret tt end ≫= f) s Q.
Proof. intros HW Hf. destruct o; [done|]. cbn in *. by rewrite HW in Hf. Qed.

Definition wanted_min_tokens (p : Params.t) : option (Z * gset Z) :=
  if Params.min_tokens p =? 0 then None else Some (Params.min_tokens p, Params.all_stop_token_ids p).

Lemma add_optional_ok r s i : sized n m w s -> (i < n)%nat ->
  let p := cached_sampling_params r in
  meets (add_optional r i) s (fun _ s' => exists LB,
    s' = with_logit_bias LB
      (with_num_prompt_logprobs (opt_insert (cached_req_id r) (Params.prompt_logprobs p) (num_prompt_logprobs s))
      (with_num_logprobs (opt_insert (cached_req_id r) (Params.logprobs p) (num_logprobs s))
      (with_generators (opt_insert i (cached_generator r) (generators s))
      (with_min_tokens (opt_insert i (wanted_min_tokens p) (min_tokens s)) s)))) /\
    LB = upd i (fmap Some (Params.logit_bias p)) (logit_bias s)).
Proof.
  intros Hz Hi p. unfold add_optional. fold p. pose proof (z_biases _ _ _ _ Hz) as Zb.
  assert (Hmin : (if Params.min_tokens p =? 0 then mret tt
    else modify (fun s => with_min_tokens
          (<[i := (Params.min_tokens p, Params.all_stop_token_ids p)]> (min_tokens s)) s)) =
    match wanted_min_tokens p with
    | Some x => modify (fun s => with_min_tokens (<[i := x]> (min_tokens s)) s) | None => mret tt end)
    by (unfold wanted_min_tokens; by destruct (_ =? _)).
  rewrite Hmin. clear Hmin.
  apply (meets_opt_insert min_tokens with_min_tokens); [by intros []|].
  apply (meets_opt_insert generators with_generators); [by intros []|].
  apply (meets_opt_insert num_logprobs with_num_logprobs); [by intros []|].
  apply (meets_opt_insert num_prompt_logprobs with_num_prompt_logprobs); [by intros []|].
  clear Hz. destruct s as [mr ml vs ri rx tk I0 R0 bt G mt li lr gs nl np lb am bw ro sm]. cbn [logit_bias] in Zb. fields.
  destruct (Params.logit_bias p) as [bias|]; cbn.
  - apply meets_last, meets_store; [fields; lia|]. apply meets_ret. fields. eexists. by split.
  - eexists. by split.
Qed.

(** The tokens of [allowed_token_ids] are tokens. *)
Definition allowed_ok (vocab : Z) (p : Params.t) : Prop :=
  forall l, Params.allowed_token_ids p = Some l -> Forall (fun id => 0 <= id < vocab) l.

Definition has_allowed (p : Params.t) : bool :=
  match Params.allowed_token_ids p with Some (_ :: _) => true | _ => false end.

Lemma allow_ok l : forall row, Forall (fun id => 0 <= id < Z.of_nat (length row)) l -> is_ok (allow row l) = true.
Proof.
  induction l as [|id l IH]; intros row Hl; cbn; [done|]. inversion_clear Hl as [|? ? Hid Hl'].
  destruct (Z.ltb_spec id 0); [lia|].
  rewrite (proj2 (Z.leb_le 0 id)), (proj2 (Z.ltb_lt id _)) by lia. cbn. apply IH. by rewrite length_insert.
Qed.

Lemma add_allowed_ok r s i : sized n m w s ->
  let p := cached_sampling_params r in allowed_ok (vocab_size s) p ->
  meets (add_allowed r i) s (fun _ s' => exists K,
    s' = with_mask K (with_groups (joined (has_allowed p) HAS_ALLOWED (cached_req_id r) (groups s)) s) /\
    (K = None -> allowed_token_ids_mask s = None /\ has_allowed p = false)).
Proof.
  intros Hz p Hok. unfold add_allowed, has_allowed. fold p. clear Hz.
  destruct s as [mr ml vs ri rx tk I0 R0 bt G mt li lr gs nl np lb am bw ro sm].
  destruct (Params.allowed_token_ids p) as [[|a l]|] eqn:E;
    [by eexists| |by eexists]. specialize (Hok _ E). cbn [vocab_size] in Hok. apply meets_modify, meets_get, meets_modify. fields.
  destruct (allow (replicate (Z.to_nat vs) true) (a :: l)) as [row|e] eqn:Ha.
  - eapply meets_lift; [reflexivity|]. apply meets_last, meets_modify, meets_ret. by eexists.
  - pose proof (allow_ok (a :: l) (replicate (Z.to_nat vs) true)) as H. rewrite Ha in H.
    discriminate H. rewrite length_replicate. eapply Forall_impl; [exact Hok|]. cbn. intros; lia.
Qed.

Definition lora_of (r : CachedRequestState) : Z := default 0 (cached_lora_request r).

Lemma add_lora_ok r s i : sized n m w s -> (i < n)%nat -> cached_lora_request r <> Some 0 ->
  dom (lora_id_to_request_ids s) = dom (lora_id_to_lora_request s) ->
  meets (add_lora r i) s (fun _ s' => exists I LI LR,
    s' = with_lora_requests LR (with_lora_ids LI (with_ints I s)) /\
    (forall c, I c = upd i (if decide (c = LORA_MAPPING) then Some (lora_of r) else None) (ints s c)) /\
    dom LI = dom LR /\
    (lora_of r <> 0 -> exists members : gset string, LI !! lora_of r = Some members /\ cached_req_id r ∈ members) /\
    (forall lora (members : gset string), lora_id_to_request_ids s !! lora = Some members ->
       exists members' : gset string, LI !! lora = Some members' /\ members ⊆ members')).
Proof.
  intros Hz Hi Hl Hdom. unfold add_lora, lora_of. pose proof (z_ints _ _ _ _ Hz) as Zi.
  assert (Hin : forall c, (i < length (ints s c))%nat) by (intros c; by rewrite Zi). clear Hz Zi.
  destruct (cached_lora_request r) as [lora|]; cbn [default].
  2: { destruct s as [mr ml vs ri rx tk I0 R0 bt G mt li lr gs nl np lb am bw ro sm]. cbn [ints] in Hin.
       apply meets_last. store_column. apply meets_ret.
       exists (set_at LORA_MAPPING (<[i := 0]> (I0 LORA_MAPPING)) I0), li, lr. split; [reflexivity|]. tidy.
       split_and!; try done; [|by intros lora members H; exists members]. intros c. by destruct c; by_name. }
  destruct s as [mr ml vs ri rx tk I0 R0 bt G mt li lr gs nl np lb am bw ro sm]. cbn [ints lora_id_to_request_ids lora_id_to_lora_request] in *.
  set (li1 := match li !! lora with None => <[lora := ∅]> li | Some _ => li end).
  eapply meets_bind with (R := fun _ s' => s' = Batch mr ml vs ri rx tk I0 R0 bt G mt li1 lr gs nl np lb am bw ro sm).
  { unfold li1. cbn. destruct (li !! lora); reflexivity. }
  intros [] s' ->. store_column. apply meets_modify. tidy. apply meets_last, meets_modify, meets_ret. tidy.
  assert (Hli1 : exists members : gset string, li1 !! lora = Some members).
  { unfold li1. destruct (li !! lora) as [x|] eqn:E; [by exists x|]. exists ∅. apply lookup_insert_eq. }
  destruct Hli1 as [x Hx].
  eexists _, _, _. split; [reflexivity|]. split_and!.
  - intros c. by destruct c; by_name.
  - rewrite dom_alter_L, dom_insert_L, <- Hdom. unfold li1.
    destruct (li !! lora) eqn:E; [|by rewrite dom_insert_L].
    apply elem_of_dom_2 in E. set_solver.
  - intros _. exists ({[cached_req_id r]} ∪ x). split; [|set_solver]. by rewrite lookup_alter_eq, Hx.
  - intros lora' members Hm. assert (Hm1 : li1 !! lora' = Some members).
    { unfold li1. destruct (li !! lora) eqn:E; [done|]. rewrite lookup_insert_ne; [done|congruence]. }
    destruct (decide (lora' = lora)) as [->|Hne].
    + exists ({[cached_req_id r]} ∪ members). split; [by rewrite lookup_alter_eq, Hm1|set_solver].
    + exists members. split; [by rewrite lookup_alter_ne|done].
Qed.

(** The slot that a request gets. *)
Definition slot_of (vocab : Z) (r : CachedRequestState) (output : list Z) : slot :=
  let p := cached_sampling_params r in
  Slot (cached_req_id r) (cached_output_token_ids r) (cached_prompt_token_ids r ++ output)
    (fun c => match c with
              | TOP_K => if limits_top_k vocab p then Params.top_k p else vocab
              | LORA_MAPPING => lora_of r
              | _ => default 0 (token_ints r output c)
              end)
    (sampled_real p) (cached_block_ids r) (wanted_min_tokens p) (cached_generator r)
    (Some (Params.bad_words_token_ids p))
    (fun g => if decide (g = HAS_ALLOWED) then has_allowed p else sampled_member vocab p g)
    (Params.logprobs p) (Params.prompt_logprobs p).

(** What a request must satisfy to be added. *)
Record addable (vocab : Z) (r : CachedRequestState) (output : list Z) : Prop := Addable {
  a_tokens : (length (cached_prompt_token_ids r ++ output) <= m)%nat;
  a_blocks : (length (cached_block_ids r) <= w)%nat;
  a_allowed : allowed_ok vocab (cached_sampling_params r);
  a_lora : cached_lora_request r <> Some 0;
}.

(** A list with an entry replaced, or with one more entry. *)
Definition place {A} (i : nat) (x : A) (l : list A) : list A :=
  if decide (i = length l) then l ++ [x] else <[i := x]> l.

Lemma lookup_place {A} i (x : A) l : (i <= length l)%nat -> place i x l !! i = Some x.
Proof.
  intros Hi. unfold place. case_decide as H.
  - rewrite lookup_app_r, H, Nat.sub_diag by lia. done.
  - apply list_lookup_insert_eq. lia.
Qed.

Lemma lookup_place_ne {A} i j (x : A) l : (i <= length l)%nat -> i <> j -> place i x l !! j = l !! j.
Proof.
  intros Hi Hj. unfold place. case_decide as H; [|by apply list_lookup_insert_ne].
  destruct (decide (j < length l)%nat); [by apply lookup_app_l|].
  rewrite lookup_app_r, (lookup_ge_None_2 l) by lia. apply lookup_ge_None_2. cbn. lia.
Qed.

Lemma length_place {A} i (x : A) l : (i <= length l)%nat -> length (place i x l) = Nat.max (length l) (S i).
Proof.
  intros Hi. unfold place. case_decide as H; [rewrite length_app; cbn|rewrite length_insert]; lia.
Qed.

Lemma place_ok id output i s : (i <= length (req_ids s))%nat -> length (req_ids s) = length (req_output_token_ids s) ->
  meets (if bool_decide (i = length (req_ids s))
         then modify (with_req_ids (req_ids s ++ [Some id])) ;;
              modify (with_outputs (req_output_token_ids s ++ [Some output]))
         else store ids i (Some id) ;; store outputs i (Some output)) s
    (fun _ s' => s' = with_outputs (place i (Some output) (req_output_token_ids s))
                        (with_req_ids (place i (Some id) (req_ids s)) s)).
Proof.
  intros Hi Hlen. unfold place. case_bool_decide as H.
  - by rewrite decide_True, decide_True by congruence.
  - rewrite decide_False, decide_False by congruence.
    apply meets_store; [cbn; lia|]. apply meets_last, meets_store; [cbn; lia|]. done.
Qed.

(** What [add_request] changes when it puts [x] in slot [i]. *)
Record added (i : nat) (x : slot) (s s' : t) : Prop := Added {
  d_limits : max_num_reqs s' = max_num_reqs s /\ max_model_len s' = max_model_len s /\ vocab_size s' = vocab_size s;
  d_ids : req_ids s' = place i (Some (s_id x)) (req_ids s);
  d_outputs : req_output_token_ids s' = place i (Some (s_output x)) (req_output_token_ids s);
  d_index : req_id_to_index s' = <[s_id x := i]> (req_id_to_index s);
  d_ints : forall c, ints s' c = <[i := s_int x c]> (ints s c);
  d_reals : forall c, reals s' c = <[i := s_real x c]> (reals s c);
  d_tokens : exists row, token_ids_cpu s' = <[i := row]> (token_ids_cpu s) /\
    length row = m /\ holds row (s_tokens x);
  d_shape : WorkerBlockTable.shaped n w (block_table s');
  d_blocks : WorkerBlockTable.lists (block_table s') i (s_blocks x);
  d_other_blocks : forall j l, j <> i -> WorkerBlockTable.lists (block_table s) j l ->
    WorkerBlockTable.lists (block_table s') j l;
  d_min_tokens : min_tokens s' = opt_insert i (s_min_tokens x) (min_tokens s);
  d_generators : generators s' = opt_insert i (s_generator x) (generators s);
  d_bad_words : bad_words_token_ids s' = opt_insert i (s_bad_words x) (bad_words_token_ids s);
  d_groups : forall g, groups s' g = if s_member x g then {[s_id x]} ∪ groups s g else groups s g;
  d_logprobs : num_logprobs s' = opt_insert (s_id x) (s_logprobs x) (num_logprobs s);
  d_prompt_logprobs : num_prompt_logprobs s' = opt_insert (s_id x) (s_prompt_logprobs x) (num_prompt_logprobs s);
  d_biases : length (logit_bias s') = length (logit_bias s);
  d_lora_dom : dom (lora_id_to_request_ids s') = dom (lora_id_to_lora_request s');
  d_lora : s_int x LORA_MAPPING <> 0 -> exists members : gset string,
    lora_id_to_request_ids s' !! s_int x LORA_MAPPING = Some members /\ s_id x ∈ members;
  d_mask : allowed_token_ids_mask s' = None -> allowed_token_ids_mask s = None /\ s_member x HAS_ALLOWED = false;
  d_other_loras : forall lora (members : gset string), lora_id_to_request_ids s !! lora = Some members ->
    exists members' : gset string, lora_id_to_request_ids s' !! lora = Some members' /\ members ⊆ members';
}.

Lemma sized_ints s s' : sized n m w s ->
  max_num_reqs s' = max_num_reqs s -> (forall c, length (ints s' c) = n) -> (forall c, length (reals s' c) = n) ->
  length (token_ids_cpu s') = n -> Forall (fun row => length row = m) (token_ids_cpu s') ->
  length (logit_bias s') = n -> WorkerBlockTable.shaped n w (block_table s') -> sized n m w s'.
Proof. intros [Z1 _ _ _ _ _ _] H1 H2 H3 H4 H5 H6 H7. split; congruence. Qed.

Lemma add_request_runs r output req_index s : sized n m w s ->
  let i := default (num_reqs s) req_index in
  (i < n)%nat -> (i <= length (req_ids s))%nat -> length (req_ids s) = length (req_output_token_ids s) ->
  dom (lora_id_to_request_ids s) = dom (lora_id_to_lora_request s) -> addable (vocab_size s) r output ->
  meets (add_request r output req_index) s (fun _ s' => added i (slot_of (vocab_size s) r output) s s').
Proof.
  intros Hz i Hi Hle Hlen Hdom [Ht Hb Ha Hl]. pose proof Hz as [Z1 Z2 Z3 Z4 Z5 Z6 Z7].
  unfold add_request. apply meets_get. fold i.
  apply meets_assert; [rewrite Z1; by apply bool_decide_eq_true_2|].
  eapply meets_bind; [by apply place_ok|]. intros [] s1 ->. apply meets_modify.
  destruct s as [mr ml vs ri rx tk I0 R0 bt G mt li lr gs nl np lb am bw ro sm].
  clearbody i. cbn [vocab_size req_ids req_output_token_ids lora_id_to_request_ids lora_id_to_lora_request
    max_num_reqs ints reals token_ids_cpu logit_bias block_table] in *. fields.
  eapply meets_bind; [apply add_tokens_ok; [by split|done..]|].
  intros [] s1 (I1 & row & T & -> & HI1 & Hrow & Hhold & HT & HTi & HTo). fields. fields_in HI1.
  eapply meets_bind; [apply add_sampling_ok; [split; try done; cbn|done]|].
  { intros c. rewrite HI1, length_upd. apply Z2. }
  { by rewrite length_insert. }
  { by apply Forall_insert. }
  intros [] s1 (I2 & R2 & G2 & -> & HI2 & HR2 & HG2). fields. fields_in HI2. fields_in HR2. fields_in HG2.
  eapply meets_bind; [apply add_optional_ok; [split; try done; cbn|done]|].
  { intros c. rewrite HI2, length_upd, HI1, length_upd. apply Z2. }
  { intros c. rewrite HR2, length_insert. apply Z3. }
  { by rewrite length_insert. }
  { by apply Forall_insert. }
  intros [] s1 (LB & -> & HLB). fields. fields_in HLB.
  assert (HI2n : forall c, length (I2 c) = n) by (intros c; rewrite HI2, length_upd, HI1, length_upd; apply Z2).
  eapply meets_bind; [apply add_allowed_ok; [split; try done; cbn|exact Ha]|].
  { intros c. rewrite HR2, length_insert. apply Z3. }
  { by rewrite length_insert. }
  { by apply Forall_insert. }
  { by rewrite HLB, length_upd. }
  intros [] s1 (K & -> & HK). apply meets_modify. fields. fields_in HK.
  eapply meets_weaken; [apply add_lora_ok; [split; try done; cbn|done..]|].
  { intros c. rewrite HR2, length_insert. apply Z3. }
  { by rewrite length_insert. }
  { by apply Forall_insert. }
  { by rewrite HLB, length_upd. }
  intros [] s1 (I3 & LI & LR & -> & HI3 & Hd & Hlm & Hlo). fields. fields_in HI3. fields_in Hlo.
  split; cbn [slot_of s_id s_output s_tokens s_int s_real s_blocks s_min_tokens s_generator s_bad_words s_member
    s_logprobs s_prompt_logprobs]; fields; try done.
  - intros c. rewrite HI3, HI2, HI1. by destruct c.
  - by exists row.
  - intros g. specialize (HG2 g). case_decide as Hg; [subst g; by_group; by rewrite HG2|by rewrite joined_ne].
  - by rewrite HLB, length_upd.
Qed.

Lemma added_sized i x s s' : sized n m w s -> added i x s s' -> sized n m w s'.
Proof.
  intros [Z1 Z2 Z3 Z4 Z5 Z6 Z7] D. destruct (d_tokens _ _ _ _ D) as (row & Hrow & Hl & _).
  split; [by rewrite (proj1 (d_limits _ _ _ _ D))| | | | | |apply (d_shape _ _ _ _ D)].
  - intros c. by rewrite (d_ints _ _ _ _ D), length_insert.
  - intros c. by rewrite (d_reals _ _ _ _ D), length_insert.
  - by rewrite Hrow, length_insert.
  - rewrite Hrow. by apply Forall_insert.
  - by rewrite (d_biases _ _ _ _ D).
Qed.

Lemma added_slot X s s' i x : batch_ok n m w X s -> added i x s s' -> (i <= length (req_ids s))%nat ->
  (i < n)%nat -> X !! i = None -> req_id_to_index s !! s_id x = None ->
  s_int x NUM_TOKENS = Z.of_nat (length (s_tokens x)) -> occupied s' i x.
Proof.
  intros Hb D Hle Hi HX Hid Hnum. destruct (b_free _ _ _ _ _ Hb i HX) as (_ & Hm & Hg & Hw).
  pose proof (b_sized _ _ _ _ _ Hb) as [Z1 Z2 Z3 Z4 Z5 Z6 Z7].
  assert (Hnone : forall g, s_id x ∉ groups s g).
  { intros g H. apply (b_members _ _ _ _ _ Hb) in H. rewrite Hid in H. by destruct H. }
  assert (Hlp : num_logprobs s !! s_id x = None).
  { destruct (num_logprobs s !! s_id x) eqn:E; [|done].
    destruct (b_logprobs _ _ _ _ _ Hb (s_id x)) as [? H]; [by rewrite E|congruence]. }
  assert (Hpp : num_prompt_logprobs s !! s_id x = None).
  { destruct (num_prompt_logprobs s !! s_id x) eqn:E; [|done].
    destruct (b_prompt_logprobs _ _ _ _ _ Hb (s_id x)) as [? H]; [by rewrite E|congruence]. }
  destruct D. split; try done.
  - by rewrite d_ids0, lookup_place.
  - rewrite d_index0. apply lookup_insert_eq.
  - rewrite d_outputs0, lookup_place; [done|]. by rewrite <- (b_lists _ _ _ _ _ Hb).
  - intros c. rewrite d_ints0. apply list_lookup_insert_eq. by rewrite Z2.
  - intros c. rewrite d_reals0. apply list_lookup_insert_eq. by rewrite Z3.
  - destruct d_tokens0 as (row & -> & _ & Hh). exists row. split; [|done].
    apply list_lookup_insert_eq. by rewrite Z4.
  - by rewrite d_min_tokens0, lookup_opt_insert.
  - by rewrite d_generators0, lookup_opt_insert.
  - by rewrite d_bad_words0, lookup_opt_insert.
  - intros g. rewrite d_groups0. specialize (Hnone g).
    destruct (s_member x g); [apply bool_decide_eq_true_2|apply bool_decide_eq_false_2]; set_solver.
  - by rewrite d_logprobs0, lookup_opt_insert.
  - by rewrite d_prompt_logprobs0, lookup_opt_insert.
Qed.

(** The other slots keep what they hold. *)
Lemma added_other X s s' i j x y : batch_ok n m w X s -> added i x s s' -> (i <= length (req_ids s))%nat ->
  req_id_to_index s !! s_id x = None -> i <> j -> X !! j = Some y -> occupied s' j y.
Proof.
  intros Hb D Hle Hid Hij Hy. pose proof (b_slots _ _ _ _ _ Hb j y Hy) as O. pose proof (b_lists _ _ _ _ _ Hb) as Hlen.
  assert (Hne : s_id x <> s_id y) by (intros H; rewrite H, (o_index _ _ _ O) in Hid; done).
  destruct O, D. split; try done.
  - by rewrite d_ids0, lookup_place_ne.
  - by rewrite d_index0, lookup_insert_ne.
  - rewrite d_outputs0, lookup_place_ne; [done| |done]. lia.
  - intros c. by rewrite d_ints0, list_lookup_insert_ne.
  - intros c. by rewrite d_reals0, list_lookup_insert_ne.
  - destruct d_tokens0 as (row & -> & _). by rewrite list_lookup_insert_ne.
  - by apply d_other_blocks0.
  - by rewrite d_min_tokens0, lookup_opt_insert_ne.
  - by rewrite d_generators0, lookup_opt_insert_ne.
  - by rewrite d_bad_words0, lookup_opt_insert_ne.
  - intros g. rewrite d_groups0, <- o_member0. destruct (s_member x g); [|done].
    apply bool_decide_ext. set_solver.
  - by rewrite d_logprobs0, lookup_opt_insert_ne.
  - by rewrite d_prompt_logprobs0, lookup_opt_insert_ne.
  - intros Hl. destruct (o_lora0 Hl) as (members & Hm & Hin).
    destruct (d_other_loras0 _ _ Hm) as (members' & Hm' & Hsub). exists members'. set_solver.
Qed.

Lemma opt_insert_some `{Countable K} {A} (k j : K) (o : option A) (d : gmap K A) :
  is_Some (opt_insert k o d !! j) -> j = k \/ is_Some (d !! j).
Proof.
  destruct (decide (j = k)); [by left|]. rewrite lookup_opt_insert_ne by done. by right.
Qed.

Lemma added_ok X s s' i x : batch_ok n m w X s -> added i x s s' -> (i <= length (req_ids s))%nat ->
  (i < n)%nat -> X !! i = None -> req_id_to_index s !! s_id x = None ->
  s_int x NUM_TOKENS = Z.of_nat (length (s_tokens x)) -> batch_ok n m w (<[i := x]> X) s'.
Proof.
  intros Hb D Hle Hi HX Hid Hnum. pose proof (b_lists _ _ _ _ _ Hb) as Hlen.
  assert (Hdone : forall id, is_Some (req_id_to_index s !! id) -> is_Some (req_id_to_index s' !! id)).
  { intros id H. rewrite (d_index _ _ _ _ D). destruct (decide (id = s_id x)) as [->|]; [by rewrite lookup_insert_eq|].
    by rewrite lookup_insert_ne. }
  assert (Hx : is_Some (req_id_to_index s' !! s_id x)) by (rewrite (d_index _ _ _ _ D), lookup_insert_eq; eauto).
  split.
  - by eapply added_sized; [apply (b_sized _ _ _ _ _ Hb)|].
  - rewrite (d_ids _ _ _ _ D), (d_outputs _ _ _ _ D), !length_place; lia.
  - rewrite (d_ids _ _ _ _ D), length_place by done. pose proof (b_max _ _ _ _ _ Hb). lia.
  - intros j y Hy. destruct (decide (i = j)) as [<-|Hij].
    + rewrite lookup_insert_eq in Hy. injection Hy as <-. by eapply added_slot.
    + rewrite lookup_insert_ne in Hy by done. by eapply added_other.
  - intros j Hj. destruct (decide (i = j)) as [<-|Hij]; [by rewrite lookup_insert_eq in Hj|].
    rewrite lookup_insert_ne in Hj by done. destruct (b_free _ _ _ _ _ Hb j Hj) as (H1 & H2 & H3 & H4).
    rewrite (d_ids _ _ _ _ D), (d_min_tokens _ _ _ _ D), (d_generators _ _ _ _ D), (d_bad_words _ _ _ _ D).
    rewrite !lookup_opt_insert_ne, lookup_place_ne by done. split; [|done].
    intros Hl. rewrite length_place in Hl by done. apply H1. lia.
  - intros id j Hj. rewrite (d_index _ _ _ _ D) in Hj. destruct (decide (id = s_id x)) as [->|Hne].
    + rewrite lookup_insert_eq in Hj. injection Hj as <-. exists x. by rewrite lookup_insert_eq.
    + rewrite lookup_insert_ne in Hj by done. destruct (b_index _ _ _ _ _ Hb id j Hj) as (y & Hy & Hyid).
      exists y. split; [|done]. rewrite lookup_insert_ne; [done|]. intros ->. congruence.
  - intros g id Hg. rewrite (d_groups _ _ _ _ D) in Hg. destruct (decide (id = s_id x)) as [->|Hne]; [done|].
    apply Hdone, (b_members _ _ _ _ _ Hb g). destruct (s_member x g); [set_solver|done].
  - intros id H. rewrite (d_logprobs _ _ _ _ D) in H. apply opt_insert_some in H as [->|H]; [done|].
    by apply Hdone, (b_logprobs _ _ _ _ _ Hb).
  - intros id H. rewrite (d_prompt_logprobs _ _ _ _ D) in H. apply opt_insert_some in H as [->|H]; [done|].
    by apply Hdone, (b_prompt_logprobs _ _ _ _ _ Hb).
  - apply (d_lora_dom _ _ _ _ D).
  - intros Hg HK. apply (d_mask _ _ _ _ D) in HK as [HK Hx']. rewrite (d_groups _ _ _ _ D), Hx' in Hg.
    by apply (b_mask _ _ _ _ _ Hb) in Hg.
Qed.

(** Adding a request inserts its slot. *)
Lemma add_to_batch_ok X r output req_index s : batch_ok n m w X s ->
  let i := default (num_reqs s) req_index in
  (i < n)%nat -> (i <= length (req_ids s))%nat -> X !! i = None ->
  req_id_to_index s !! cached_req_id r = None -> addable (vocab_size s) r output ->
  meets (add_request r output req_index) s (fun _ s' =>
    batch_ok n m w (<[i := slot_of (vocab_size s) r output]> X) s' /\
    length (req_ids s') = Nat.max (length (req_ids s)) (S i) /\ vocab_size s' = vocab_size s).
Proof.
  intros Hb i Hi Hle HX Hid Ha. eapply meets_weaken.
  - apply add_request_runs; [apply (b_sized _ _ _ _ _ Hb)|done|done|apply (b_lists _ _ _ _ _ Hb)|
      apply (b_loras _ _ _ _ _ Hb)|done].
  - intros [] s' D. split_and!; [|by rewrite (d_ids _ _ _ _ D), length_place|apply (d_limits _ _ _ _ D)].
    by apply (added_ok X s).
Qed.

(** ** [remove_request] *)

Lemma remove_lora_ok id i s lora : ints s LORA_MAPPING !! i = Some lora ->
  dom (lora_id_to_request_ids s) = dom (lora_id_to_lora_request s) ->
  (lora <> 0 -> exists members : gset string, lora_id_to_request_ids s !! lora = Some members /\ id ∈ members) ->
  meets (remove_lora id i) s (fun _ s' => exists I LI LR,
    s' = with_lora_requests LR (with_lora_ids LI (with_ints I s)) /\
    (forall c, length (I c) = length (ints s c)) /\ (forall c j, j <> i -> I c !! j = ints s c !! j) /\
    dom LI = dom LR /\
    (forall lora (members : gset string) other, lora_id_to_request_ids s !! lora = Some members ->
       other ∈ members -> other <> id -> exists members' : gset string, LI !! lora = Some members' /\ other ∈ members')).
Proof.
  intros Hlora Hdom Hmem. unfold remove_lora. eapply meets_fetch; [exact Hlora|].
  destruct s as [mr ml vs ri rx tk I0 R0 bt G mt li lr gs nl np lb am bw ro sm].
  cbn [ints lora_id_to_request_ids lora_id_to_lora_request] in *.
  destruct (Z.eqb_spec lora 0) as [->|Hne].
  { exists I0, li, lr. split_and!; try done. intros lora members other Hm Hin _. by exists members. }
  destruct (Hmem Hne) as (members & Hm & Hin). pose proof (lookup_lt_Some _ _ _ Hlora) as Hlt.
  apply meets_get. fields. eapply meets_lift; [by rewrite Hm|]. apply meets_modify. fields.
  set (rest := (members ∖ {[id]} : gset string)).
  assert (Hother : forall lora' (members' : gset string) other, li !! lora' = Some members' -> other ∈ members' ->
    other <> id -> exists members'' : gset string, <[lora := rest]> li !! lora' = Some members'' /\ other ∈ members'').
  { intros lora' members' other Hm' Hin' Ho. destruct (decide (lora' = lora)) as [->|Hl].
    - exists rest. rewrite lookup_insert_eq. unfold rest. simplify_eq. set_solver.
    - exists members'. by rewrite lookup_insert_ne. }
  assert (Hd1 : dom (<[lora := rest]> li) = dom lr).
  { rewrite dom_insert_L, Hdom. apply elem_of_dom_2 in Hm. set_solver. }
  case_bool_decide as He.
  - apply meets_assoc, meets_modify, meets_assoc. fields.
    assert (Hlr : lr !! lora <> None) by (apply elem_of_dom_2 in Hm; rewrite Hdom in Hm; by apply elem_of_dom, not_eq_None_Some in Hm).
    eapply meets_lift; [by rewrite bool_decide_eq_false_2|]. apply meets_modify. apply meets_last. store_column.
    apply meets_ret. exists (set_at LORA_MAPPING (<[i := 0]> (I0 LORA_MAPPING)) I0), (delete lora (<[lora := rest]> li)), (delete lora lr).
    split; [reflexivity|]. fields. split_and!.
    + intros c. destruct c; by_name; by rewrite ?length_insert.
    + intros c j Hj. destruct c; by_name; by rewrite ?list_lookup_insert_ne.
    + by rewrite !dom_delete_L, Hd1.
    + intros lora' members' other Hm' Hin' Ho. destruct (Hother _ _ _ Hm' Hin' Ho) as (m'' & Hm'' & Hin'').
      exists m''. split; [|done]. rewrite lookup_delete_ne; [done|]. intros <-.
      rewrite lookup_insert_eq in Hm''. injection Hm'' as <-. rewrite He in Hin''. set_solver.
  - apply meets_last. cbn [mbind M_bind]. store_column. apply meets_ret. exists (set_at LORA_MAPPING (<[i := 0]> (I0 LORA_MAPPING)) I0), (<[lora := rest]> li), lr.
    split; [reflexivity|]. fields. split_and!.
    + intros c. destruct c; by_name; by rewrite ?length_insert.
    + intros c j Hj. destruct c; by_name; by rewrite ?list_lookup_insert_ne.
    + done.
    + exact Hother.
Qed.

(** What [remove_request] changes when it empties slot [i]. *)
Record emptied (i : nat) (id : string) (s s' : t) : Prop := Emptied {
  e_limits : max_num_reqs s' = max_num_reqs s /\ max_model_len s' = max_model_len s /\ vocab_size s' = vocab_size s;
  e_ids : req_ids s' = <[i := None]> (req_ids s);
  e_outputs : req_output_token_ids s' = <[i := None]> (req_output_token_ids s);
  e_index : req_id_to_index s' = delete id (req_id_to_index s);
  e_length : forall c, length (ints s' c) = length (ints s c);
  e_ints : forall c j, j <> i -> ints s' c !! j = ints s c !! j;
  e_reals : reals s' = reals s;
  e_tokens : token_ids_cpu s' = token_ids_cpu s;
  e_table : block_table s' = block_table s;
  e_min_tokens : min_tokens s' = delete i (min_tokens s);
  e_generators : generators s' = delete i (generators s);
  e_bad_words : bad_words_token_ids s' = delete i (bad_words_token_ids s);
  e_groups : forall g, groups s' g = groups s g ∖ {[id]};
  e_logprobs : num_logprobs s' = delete id (num_logprobs s);
  e_prompt_logprobs : num_prompt_logprobs s' = delete id (num_prompt_logprobs s);
  e_mask : allowed_token_ids_mask s' = None -> allowed_token_ids_mask s = None;
  e_biases : length (logit_bias s') = length (logit_bias s);
  e_lora_dom : dom (lora_id_to_request_ids s') = dom (lora_id_to_lora_request s');
  e_loras : forall lora (members : gset string) other, lora_id_to_request_ids s !! lora = Some members ->
    other ∈ members -> other <> id ->
    exists members' : gset string, lora_id_to_request_ids s' !! lora = Some members' /\ other ∈ members';
}.

Lemma clear_mask_row_ok i s : meets (clear_mask_row i) s (fun _ s' => exists K,
  s' = with_mask K s /\ (K = None -> allowed_token_ids_mask s = None)).
Proof.
  destruct s as [mr ml vs ri rx tk I0 R0 bt G mt li lr gs nl np lb am bw ro sm].
  destruct am as [mask|]; by eexists.
Qed.

Lemma remove_request_runs X s i x : batch_ok n m w X s -> X !! i = Some x ->
  meets (remove_request (s_id x)) s (fun r s' => r = Some i /\ emptied i (s_id x) s s').
Proof.
  intros Hb Hx. pose proof (b_slots _ _ _ _ _ Hb i x Hx) as O. pose proof (slot_lt X s i x Hb Hx) as Hi.
  pose proof (b_lists _ _ _ _ _ Hb) as Hlen. pose proof (b_loras _ _ _ _ _ Hb) as Hdom.
  assert (Hib : (i < length (logit_bias s))%nat).
  { rewrite (z_biases _ _ _ _ (b_sized _ _ _ _ _ Hb)). pose proof (b_max _ _ _ _ _ Hb). lia. }
  pose proof (o_int _ _ _ O LORA_MAPPING) as Hlora. pose proof (o_lora _ _ _ O) as Hmem.
  unfold remove_request. apply meets_get. rewrite (o_index _ _ _ O). clear Hb O Hx.
  destruct s as [mr ml vs ri rx tk I0 R0 bt G mt li lr gs nl np lb am bw ro sm].
  cbn [req_ids req_output_token_ids logit_bias ints lora_id_to_request_ids lora_id_to_lora_request] in *.
  apply meets_modify. fields. do 2 store_column. unfold leave. do 12 (apply meets_modify; fields).
  eapply meets_bind; [apply (remove_lora_ok _ i _ (s_int x LORA_MAPPING)); [exact Hlora|exact Hdom|exact Hmem]|].
  intros [] s' (I & LI & LR & -> & HIl & HI & Hd & Ho). fields_in HIl. fields_in HI. fields_in Ho. fields.
  store_column. apply meets_modify. fields.
  eapply meets_bind; [apply clear_mask_row_ok|]. intros [] s' (K & -> & HK). fields_in HK. apply meets_modify, meets_ret.
  split; [done|]. split; fields; try done.
  - intros g. destruct g; by_name; done.
  - apply length_insert.
Qed.

Lemma emptied_other X s s' i x j y : batch_ok n m w X s -> emptied i (s_id x) s s' -> X !! i = Some x ->
  i <> j -> X !! j = Some y -> occupied s' j y.
Proof.
  intros Hb D Hx Hij Hy. pose proof (b_slots _ _ _ _ _ Hb j y Hy) as O.
  assert (Hne : s_id x <> s_id y) by (intros H; by apply Hij, (slot_unique X s i j x y)).
  destruct O, D. split; try done.
  - by rewrite e_ids0, list_lookup_insert_ne.
  - by rewrite e_index0, lookup_delete_ne.
  - by rewrite e_outputs0, list_lookup_insert_ne.
  - intros c. by rewrite e_ints0.
  - intros c. by rewrite e_reals0.
  - by rewrite e_tokens0.
  - by rewrite e_table0.
  - by rewrite e_min_tokens0, lookup_delete_ne.
  - by rewrite e_generators0, lookup_delete_ne.
  - by rewrite e_bad_words0, lookup_delete_ne.
  - intros g. rewrite e_groups0, <- o_member0. apply bool_decide_ext. set_solver.
  - by rewrite e_logprobs0, lookup_delete_ne.
  - by rewrite e_prompt_logprobs0, lookup_delete_ne.
  - intros Hl. destruct (o_lora0 Hl) as (members & Hm & Hin). by apply (e_loras0 _ members).
Qed.

Lemma emptied_ok X s s' i x : batch_ok n m w X s -> emptied i (s_id x) s s' -> X !! i = Some x ->
  batch_ok n m w (delete i X) s'.
Proof.
  intros Hb D Hx. pose proof (b_sized _ _ _ _ _ Hb) as [Z1 Z2 Z3 Z4 Z5 Z6 Z7].
  assert (Hdone : forall id, id <> s_id x -> is_Some (req_id_to_index s !! id) -> is_Some (req_id_to_index s' !! id)).
  { intros id Hid H. by rewrite (e_index _ _ _ _ D), lookup_delete_ne. }
  split.
  - destruct D. apply (sized_ints s); [by split|by destruct e_limits0| | | | |congruence|congruence].
    + intros c. by rewrite e_length0.
    + intros c. by rewrite e_reals0.
    + by rewrite e_tokens0.
    + by rewrite e_tokens0.
  - by rewrite (e_ids _ _ _ _ D), (e_outputs _ _ _ _ D), !length_insert, (b_lists _ _ _ _ _ Hb).
  - rewrite (e_ids _ _ _ _ D), length_insert. apply (b_max _ _ _ _ _ Hb).
  - intros j y Hy. apply lookup_delete_Some in Hy as [Hij Hy]. by eapply emptied_other.
  - intros j Hj. destruct D. rewrite e_ids0, e_min_tokens0, e_generators0, e_bad_words0, length_insert.
    destruct (decide (i = j)) as [<-|Hij].
    + rewrite !lookup_delete_eq. split; [|done]. intros Hl. by apply list_lookup_insert_eq.
    + rewrite !lookup_delete_ne, list_lookup_insert_ne by done. rewrite lookup_delete_ne in Hj by done.
      apply (b_free _ _ _ _ _ Hb j Hj).
  - intros id j Hj. rewrite (e_index _ _ _ _ D) in Hj. apply lookup_delete_Some in Hj as [Hid Hj].
    destruct (b_index _ _ _ _ _ Hb id j Hj) as (y & Hy & Hyid). exists y. split; [|done].
    rewrite lookup_delete_ne; [done|]. intros ->. congruence.
  - intros g id Hg. rewrite (e_groups _ _ _ _ D) in Hg. apply elem_of_difference in Hg as [Hg Hid].
    apply Hdone; [set_solver|]. by apply (b_members _ _ _ _ _ Hb g).
  - intros id H. rewrite (e_logprobs _ _ _ _ D) in H.
    destruct (decide (id = s_id x)) as [->|Hid]; [rewrite lookup_delete_eq in H; by destruct H|].
    rewrite lookup_delete_ne in H by done. by apply Hdone, (b_logprobs _ _ _ _ _ Hb).
  - intros id H. rewrite (e_prompt_logprobs _ _ _ _ D) in H.
    destruct (decide (id = s_id x)) as [->|Hid]; [rewrite lookup_delete_eq in H; by destruct H|].
    rewrite lookup_delete_ne in H by done. by apply Hdone, (b_prompt_logprobs _ _ _ _ _ Hb).
  - apply (e_lora_dom _ _ _ _ D).
  - intros Hg HK%(e_mask _ _ _ _ D). rewrite (e_groups _ _ _ _ D) in Hg.
    apply (b_mask _ _ _ _ _ Hb) in HK; [done|]. set_solver.
Qed.

(** Removing a request deletes its slot, which is the answer. *)
Lemma remove_request_ok X s i x : batch_ok n m w X s -> X !! i = Some x ->
  meets (remove_request (s_id x)) s (fun r s' => r = Some i /\ batch_ok n m w (delete i X) s' /\
    length (req_ids s') = length (req_ids s) /\ vocab_size s' = vocab_size s).
Proof.
  intros Hb Hx. eapply meets_weaken; [by eapply remove_request_runs|]. intros r s' [-> D].
  split_and!; [done|by eapply emptied_ok|by rewrite (e_ids _ _ _ _ D), length_insert|apply (e_limits _ _ _ _ D)].
Qed.

Lemma remove_unknown s id : req_id_to_index s !! id = None -> remove_request id s = (Ok None, s).
Proof. intros H. unfold remove_request. rewrite bind_run. cbn. by rewrite H. Qed.

(** ** [condense] *)

Lemma lookup_rekey {V} (src dst j : nat) (d : gmap nat V) : src <> dst -> d !! dst = None ->
  rekey src dst d !! j = if decide (j = dst) then d !! src else if decide (j = src) then None else d !! j.
Proof.
  intros Hne Hd. unfold rekey. destruct (d !! src) as [v|] eqn:E.
  - repeat case_decide; subst; by rewrite ?lookup_insert_eq, ?lookup_insert_ne, ?lookup_delete_eq, ?lookup_delete_ne by done.
  - repeat case_decide; subst; by rewrite ?lookup_delete_eq, ?lookup_delete_ne by done.
Qed.

(** What [move_request] changes. *)
Record moved (src dst : nat) (x : slot) (s s' : t) : Prop := Moved {
  v_limits : max_num_reqs s' = max_num_reqs s /\ max_model_len s' = max_model_len s /\ vocab_size s' = vocab_size s;
  v_ids : req_ids s' = <[src := None]> (<[dst := Some (s_id x)]> (req_ids s));
  v_outputs : req_output_token_ids s' = <[src := None]> (<[dst := Some (s_output x)]> (req_output_token_ids s));
  v_index : req_id_to_index s' = <[s_id x := dst]> (req_id_to_index s);
  v_ints : forall c, ints s' c = <[dst := s_int x c]> (ints s c);
  v_reals : forall c, reals s' c = <[dst := s_real x c]> (reals s c);
  v_tokens : exists row, token_ids_cpu s' = <[dst := row]> (token_ids_cpu s) /\
    length row = m /\ holds row (s_tokens x);
  v_shape : WorkerBlockTable.shaped n w (block_table s');
  v_blocks : WorkerBlockTable.lists (block_table s') dst (s_blocks x);
  v_other_blocks : forall j l, j <> dst -> WorkerBlockTable.lists (block_table s) j l ->
    WorkerBlockTable.lists (block_table s') j l;
  v_min_tokens : min_tokens s' = rekey src dst (min_tokens s);
  v_generators : generators s' = rekey src dst (generators s);
  v_bad_words : bad_words_token_ids s' = rekey src dst (bad_words_token_ids s);
  v_groups : groups s' = groups s;
  v_logprobs : num_logprobs s' = num_logprobs s;
  v_prompt_logprobs : num_prompt_logprobs s' = num_prompt_logprobs s;
  v_mask : allowed_token_ids_mask s' = None -> allowed_token_ids_mask s = None;
  v_biases : length (logit_bias s') = length (logit_bias s);
  v_loras : lora_id_to_request_ids s' = lora_id_to_request_ids s;
  v_lora_requests : lora_id_to_lora_request s' = lora_id_to_lora_request s;
}.

Ltac move_column := eapply meets_move; [tidy; eauto|size|]; tidy.

Lemma move_mask_ok src dst s :
  meets (modify (fun s => match allowed_token_ids_mask s with
                          | Some mask => with_mask (Some (<[dst := default [] (mask !! src)]> mask)) s
                          | None => s
                          end)) s (fun _ s' => exists K,
    s' = with_mask K s /\ (K = None -> allowed_token_ids_mask s = None)).
Proof.
  destruct s as [mr ml vs ri rx tk I0 R0 bt G mt li lr gs nl np lb am bw ro sm].
  destruct am as [mask|]; by eexists.
Qed.

Lemma move_request_runs X s src dst x : batch_ok n m w X s -> X !! src = Some x -> src <> dst ->
  (dst < length (req_ids s))%nat ->
  meets (move_request src dst) s (fun _ s' => moved src dst x s s').
Proof.
  intros Hb Hx Hne Hd. pose proof (b_slots _ _ _ _ _ Hb src x Hx) as O. pose proof (slot_lt X s src x Hb Hx) as Hs.
  pose proof (b_lists _ _ _ _ _ Hb) as Hlen. pose proof (b_max _ _ _ _ _ Hb) as Hmax.
  pose proof (b_sized _ _ _ _ _ Hb) as Hz. destruct (row_at s dst Hz ltac:(lia)) as (to & Hto & Htolen).
  pose proof Hz as [Z1 Z2 Z3 Z4 Z5 Z6 Z7]. destruct O as [O1 O2 O3 O4 O5 O6 (from & O7 & O7') O8 _ _ _ _ _ _ _].
  assert (Hi : forall c, (dst < length (ints s c))%nat) by (intros c; rewrite Z2; lia).
  assert (Hr : forall c, (dst < length (reals s c))%nat) by (intros c; rewrite Z3; lia).
  assert (Hbi : (dst < length (logit_bias s))%nat) by lia.
  destruct (lookup_lt_is_Some_2 (logit_bias s) src) as [bias Hbias]; [lia|].
  assert (Hfrom : length from = m).
  { apply (proj1 (Forall_forall _ _) Z5). by eapply list_elem_of_lookup_2. }
  pose proof (holds_le _ _ O7') as Hle. clear Hb Hz Hx.
  destruct s as [mr ml vs ri rx tk I0 R0 bt G mt li lr gs nl np lb am bw ro sm].
  cbn [req_ids req_id_to_index req_output_token_ids ints reals token_ids_cpu logit_bias block_table max_num_reqs] in *.
  unfold move_request. eapply meets_fetch; [exact O1|]. eapply meets_fetch; [exact O3|].
  do 4 store_column. apply meets_modify. fields.
  eapply meets_fetch; [tidy; apply O4|]. eapply meets_fetch; [tidy; exact O7|]. rewrite O6.
  assert (Hsl : py_slice from 0 (Z.of_nat (length (s_tokens x))) = s_tokens x).
  { rewrite py_slice_take, Nat2Z.id, Nat.sub_0_r, drop_0 by lia. by symmetry. }
  rewrite Hsl. apply (meets_store_slice tokens dst 0 to (s_tokens x)); [exact Hto|lia|]. tidy.
  set (row := take 0 to ++ s_tokens x ++ drop (0 + length (s_tokens x)) to).
  assert (Hrow : length row = m) by (unfold row; rewrite set_slice_length; lia).
  assert (Hhold : holds row (s_tokens x)) by (apply (holds_write to [] (s_tokens x) 0); done).
  store_column. do 3 move_column.
  eapply meets_bind; [apply on_table_ok, (WorkerBlockTable.move_row_ok (n := n) (w := w) _ src dst (s_blocks x));
    [exact Z7|exact O8|lia]|].
  intros [] s' (T & -> & HT & HTi & HTo & _). fields.
  do 7 move_column. do 2 (apply meets_modify; fields). do 2 move_column.
  eapply meets_bind; [apply (move_mask_ok src dst)|]. intros [] s' (K & -> & HK). fields_in HK. apply meets_last, meets_modify, meets_ret. fields.
  split; fields; try done.
  - intros c. destruct c; by_name; congruence.
  - intros c. destruct c; by_name; congruence.
  - by exists row.
  - apply length_insert.
Qed.

Lemma moved_slot X s s' src dst x : batch_ok n m w X s -> moved src dst x s s' -> X !! src = Some x ->
  X !! dst = None -> src <> dst -> (dst < length (req_ids s))%nat -> occupied s' dst x.
Proof.
  intros Hb D Hx Hn Hne Hd. pose proof (b_slots _ _ _ _ _ Hb src x Hx) as O.
  destruct (b_free _ _ _ _ _ Hb dst Hn) as (_ & Hm & Hg & Hw). pose proof (b_lists _ _ _ _ _ Hb) as Hlen.
  pose proof (b_sized _ _ _ _ _ Hb) as [Z1 Z2 Z3 Z4 Z5 Z6 Z7]. pose proof (b_max _ _ _ _ _ Hb) as Hmax.
  destruct O, D. split; try done.
  - rewrite v_ids0, list_lookup_insert_ne by done. by apply list_lookup_insert_eq.
  - rewrite v_index0. apply lookup_insert_eq.
  - rewrite v_outputs0, list_lookup_insert_ne by done. apply list_lookup_insert_eq. lia.
  - intros c. rewrite v_ints0. apply list_lookup_insert_eq. rewrite Z2. lia.
  - intros c. rewrite v_reals0. apply list_lookup_insert_eq. rewrite Z3. lia.
  - destruct v_tokens0 as (row & -> & _ & Hh). exists row. split; [|done]. apply list_lookup_insert_eq. lia.
  - by rewrite v_min_tokens0, lookup_rekey, decide_True.
  - by rewrite v_generators0, lookup_rekey, decide_True.
  - by rewrite v_bad_words0, lookup_rekey, decide_True.
  - intros g. by rewrite v_groups0.
  - by rewrite v_logprobs0.
  - by rewrite v_prompt_logprobs0.
  - by rewrite v_loras0.
Qed.

Lemma moved_other X s s' src dst j x y : batch_ok n m w X s -> moved src dst x s s' -> X !! src = Some x ->
  X !! dst = None -> src <> j -> dst <> j -> X !! j = Some y -> src <> dst -> occupied s' j y.
Proof.
  intros Hb D Hx Hn Hsj Hdj Hy Hne. pose proof (b_slots _ _ _ _ _ Hb j y Hy) as O.
  destruct (b_free _ _ _ _ _ Hb dst Hn) as (_ & Hm & Hg & Hw).
  assert (Hid : s_id x <> s_id y) by (intros H; by apply Hsj, (slot_unique X s src j x y)).
  destruct O, D. split; try done.
  - by rewrite v_ids0, !list_lookup_insert_ne.
  - by rewrite v_index0, lookup_insert_ne.
  - by rewrite v_outputs0, !list_lookup_insert_ne.
  - intros c. by rewrite v_ints0, list_lookup_insert_ne.
  - intros c. by rewrite v_reals0, list_lookup_insert_ne.
  - destruct v_tokens0 as (row & -> & _ & Hh). by rewrite list_lookup_insert_ne.
  - by apply v_other_blocks0.
  - by rewrite v_min_tokens0, lookup_rekey, !decide_False.
  - by rewrite v_generators0, lookup_rekey, !decide_False.
  - by rewrite v_bad_words0, lookup_rekey, !decide_False.
  - intros g. by rewrite v_groups0.
  - by rewrite v_logprobs0.
  - by rewrite v_prompt_logprobs0.
  - by rewrite v_loras0.
Qed.

Lemma moved_ok X s s' src dst x : batch_ok n m w X s -> moved src dst x s s' -> X !! src = Some x ->
  X !! dst = None -> src <> dst -> (dst < length (req_ids s))%nat ->
  batch_ok n m w (<[dst := x]> (delete src X)) s'.
Proof.
  intros Hb D Hx Hn Hne Hd. pose proof (b_sized _ _ _ _ _ Hb) as [Z1 Z2 Z3 Z4 Z5 Z6 Z7].
  pose proof (slot_lt X s src x Hb Hx) as Hs. pose proof (b_lists _ _ _ _ _ Hb) as Hlen.
  assert (Hdone : forall id, is_Some (req_id_to_index s !! id) -> is_Some (req_id_to_index s' !! id)).
  { intros id H. rewrite (v_index _ _ _ _ _ D). destruct (decide (id = s_id x)) as [->|]; [by rewrite lookup_insert_eq|].
    by rewrite lookup_insert_ne. }
  split.
  - destruct D. destruct v_tokens0 as (row & Hrow & Hl & _).
    apply (sized_ints s); [by split|by destruct v_limits0| | | | |congruence|done].
    + intros c. by rewrite v_ints0, length_insert.
    + intros c. by rewrite v_reals0, length_insert.
    + by rewrite Hrow, length_insert.
    + rewrite Hrow. by apply Forall_insert.
  - by rewrite (v_ids _ _ _ _ _ D), (v_outputs _ _ _ _ _ D), !length_insert.
  - rewrite (v_ids _ _ _ _ _ D), !length_insert. apply (b_max _ _ _ _ _ Hb).
  - intros j y Hy. destruct (decide (dst = j)) as [<-|Hdj].
    + rewrite lookup_insert_eq in Hy. injection Hy as <-. by eapply moved_slot.
    + rewrite lookup_insert_ne in Hy by done. apply lookup_delete_Some in Hy as [Hsj Hy]. by eapply moved_other.
  - intros j Hj. destruct (decide (dst = j)) as [<-|Hdj]; [by rewrite lookup_insert_eq in Hj|].
    rewrite lookup_insert_ne in Hj by done. destruct (b_free _ _ _ _ _ Hb dst Hn) as (_ & Hm & Hg & Hw). destruct D.
    rewrite v_ids0, v_min_tokens0, v_generators0, v_bad_words0, !length_insert, !lookup_rekey, !(decide_False (P := j = dst)) by done.
    destruct (decide (j = src)) as [->|Hsj].
    + split; [|done]. intros _. apply list_lookup_insert_eq. by rewrite length_insert.
    + rewrite lookup_delete_ne in Hj by done. rewrite !list_lookup_insert_ne by done. apply (b_free _ _ _ _ _ Hb j Hj).
  - intros id j Hj. rewrite (v_index _ _ _ _ _ D) in Hj. destruct (decide (id = s_id x)) as [->|Hid].
    + rewrite lookup_insert_eq in Hj. injection Hj as <-. exists x. by rewrite lookup_insert_eq.
    + rewrite lookup_insert_ne in Hj by done. destruct (b_index _ _ _ _ _ Hb id j Hj) as (y & Hy & Hyid).
      exists y. split; [|done]. rewrite lookup_insert_ne by (intros ->; congruence).
      rewrite lookup_delete_ne; [done|intros ->; congruence].
  - intros g id Hg. rewrite (v_groups _ _ _ _ _ D) in Hg. by apply Hdone, (b_members _ _ _ _ _ Hb g).
  - intros id H. rewrite (v_logprobs _ _ _ _ _ D) in H. by apply Hdone, (b_logprobs _ _ _ _ _ Hb).
  - intros id H. rewrite (v_prompt_logprobs _ _ _ _ _ D) in H. by apply Hdone, (b_prompt_logprobs _ _ _ _ _ Hb).
  - rewrite (v_loras _ _ _ _ _ D), (v_lora_requests _ _ _ _ _ D). apply (b_loras _ _ _ _ _ Hb).
  - intros Hg HK%(v_mask _ _ _ _ _ D). rewrite (v_groups _ _ _ _ _ D) in Hg. by apply (b_mask _ _ _ _ _ Hb).
Qed.

(** The same requests with the same contents, in other slots. *)
Definition same_slots (X X' : gmap nat slot) : Prop :=
  forall x, (exists i, X !! i = Some x) <-> (exists i, X' !! i = Some x).

(** No hole below [k], and nothing from [k] on. *)
Definition dense (k : nat) (X : gmap nat slot) : Prop := forall i, is_Some (X !! i) <-> (i < k)%nat.

Lemma same_slots_moved X src dst x : X !! src = Some x -> X !! dst = None -> src <> dst ->
  same_slots X (<[dst := x]> (delete src X)).
Proof.
  intros Hx Hn Hne y. split; intros [i Hi].
  - destruct (decide (i = src)) as [->|Hs].
    + exists dst. rewrite lookup_insert_eq. congruence.
    + exists i. rewrite lookup_insert_ne by (intros ->; congruence). by rewrite lookup_delete_ne.
  - destruct (decide (i = dst)) as [->|Hd].
    + rewrite lookup_insert_eq in Hi. exists src. congruence.
    + rewrite lookup_insert_ne in Hi by done. apply lookup_delete_Some in Hi as [_ Hi]. by exists i.
Qed.

Lemma dense_size k X : dense k X -> size X = k.
Proof.
  intros Hd. rewrite <- size_dom. transitivity (size (list_to_set (seq 0 k) : gset nat)).
  - f_equal. apply set_eq. intros i. rewrite elem_of_dom, elem_of_list_to_set, elem_of_seq. rewrite (Hd i). lia.
  - rewrite size_list_to_set by apply NoDup_seq. apply length_seq.
Qed.

(** The largest slot that is not empty. *)
Lemma skip_empty_ok (E : list nat) j : j ∉ E -> forall fuel top,
  (length (filter (fun e => (Z.of_nat e <= top)%Z) E) < fuel)%nat -> Z.of_nat j <= top ->
  exists k : nat, skip_empty fuel top E = Ok (Z.of_nat k) /\ Z.of_nat k <= top /\ k ∉ E /\
    forall i : nat, (k < i)%nat -> Z.of_nat i <= top -> i ∈ E.
Proof.
  intros Hj. induction fuel as [|fuel IH]; intros top Hf Hle; [lia|]. cbn [skip_empty].
  case_bool_decide as Hin.
  - apply list_elem_of_fmap in Hin as (e & -> & He).
    destruct (IH (Z.of_nat e - 1)) as (k & Hk & Hke & HkE & Hi).
    + assert (length (filter (fun e' => (Z.of_nat e' <= Z.of_nat e - 1)%Z) E) <
              length (filter (fun e' => (Z.of_nat e' <= Z.of_nat e)%Z) E))%nat; [|lia].
      clear -He. induction E as [|e' E IH]; [by apply elem_of_nil in He|]. rewrite !filter_cons.
      apply elem_of_cons in He as [<-|He].
      * rewrite decide_False, decide_True by lia. cbn. clear.
        induction E as [|e' E IH]; [cbn; lia|]. rewrite !filter_cons. repeat case_decide; cbn in *; lia.
      * specialize (IH He). repeat case_decide; cbn; lia.
    + assert (j <> e) by (intros ->; done). lia.
    + exists k. split_and!; [done|lia|done|]. intros i Hki Hile. destruct (decide (i = e)) as [->|]; [done|].
      apply Hi; lia.
  - exists (Z.to_nat top). rewrite Z2Nat.id by lia. split_and!; [done|lia| |intros; lia].
    intros HE. apply Hin, list_elem_of_fmap. exists (Z.to_nat top). by rewrite Z2Nat.id by lia.
Qed.

(** What the loop keeps: the slots up to [top] are empty where [empty] says so,
    the slots beyond it are empty. *)
Record holes (X : gmap nat slot) (empty : list nat) (top : Z) : Prop := Holes {
  h_upto : forall i : nat, Z.of_nat i <= top -> X !! i = None <-> i ∈ empty;
  h_beyond : forall i : nat, top < Z.of_nat i -> X !! i = None;
  h_sorted : StronglySorted gt empty;
}.

Lemma sorted_last (E : list nat) e : StronglySorted gt (E ++ [e]) ->
  StronglySorted gt E /\ Forall (fun h => (e < h)%nat) E.
Proof.
  intros H. split; [by eapply StronglySorted_app_1_l|]. apply Forall_forall. intros h Hh.
  apply (StronglySorted_app_1_elem_of gt E [e] h e H Hh). set_solver.
Qed.

(** The loop ends when no slot up to [top] is empty. *)
Lemma dense_upto X empty top : holes X empty top -> (forall i : nat, i ∈ empty -> top < Z.of_nat i) ->
  dense (Z.to_nat (top + 1)) X.
Proof.
  intros [Hu Hb _] He i. rewrite <- not_eq_None_Some. destruct (Z.le_gt_cases (Z.of_nat i) top) as [Hle|Hgt].
  - rewrite (Hu i Hle). split; [intros; lia|]. intros _ Hin. apply He in Hin. lia.
  - rewrite (Hb i) by lia. split; [done|lia].
Qed.

Lemma holes_lower X empty top (k : nat) : holes X empty top -> Z.of_nat k <= top ->
  (forall i : nat, (k < i)%nat -> Z.of_nat i <= top -> i ∈ empty) -> holes X empty (Z.of_nat k).
Proof.
  intros [Hu Hb Hs] Hk Hi. split; [intros i Hle; apply Hu; lia| |done]. intros i Hlt.
  destruct (Z.le_gt_cases (Z.of_nat i) top) as [Hle|Hgt]; [|by apply Hb].
  apply Hu; [done|]. apply Hi; lia.
Qed.

Lemma holes_filled X E e (k : nat) x : holes X (E ++ [e]) (Z.of_nat k) -> X !! k = Some x -> (e < k)%nat ->
  holes (<[e := x]> (delete k X)) E (Z.of_nat k - 1).
Proof.
  intros [Hu Hb Hs] Hx Hek. apply sorted_last in Hs as [HsE HE]. split; [| |done].
  - intros i Hi. destruct (decide (i = e)) as [->|Hne].
    + rewrite lookup_insert_eq. split; [done|]. intros Hin. rewrite Forall_forall in HE. apply HE in Hin. lia.
    + rewrite lookup_insert_ne, lookup_delete_ne by lia. rewrite Hu by lia. set_solver.
  - intros i Hi. rewrite lookup_insert_ne by lia. destruct (decide (i = k)) as [->|Hne]; [apply lookup_delete_eq|].
    rewrite lookup_delete_ne by done. apply Hb. lia.
Qed.

Lemma condense_loop_ok : forall fuel X empty top s, (length empty <= fuel)%nat ->
  batch_ok n m w X s -> X <> ∅ -> holes X empty top -> Forall (fun e => e < length (req_ids s))%nat empty ->
  meets (condense_loop fuel empty top) s (fun _ s' => exists X' k,
    batch_ok n m w X' s' /\ dense k X' /\ same_slots X X' /\ size X' = size X /\
    length (req_ids s') = length (req_ids s) /\ vocab_size s' = vocab_size s).
Proof.
  assert (Hend : forall X empty top s, batch_ok n m w X s -> holes X empty top ->
    (forall i : nat, i ∈ empty -> top < Z.of_nat i) ->
    exists X' k, batch_ok n m w X' s /\ dense k X' /\ same_slots X X' /\ size X' = size X /\
      length (req_ids s) = length (req_ids s) /\ vocab_size s = vocab_size s).
  { intros X empty top s Hb Hh He. exists X, (Z.to_nat (top + 1)).
    split_and!; [done|by eapply dense_upto|by intros x|done..]. }
  induction fuel as [|fuel IH]; intros X empty top s Hf Hb HX Hh Hlt.
  { destruct empty; [|cbn in Hf; lia]. apply (Hend X [] top); [done|done|]. intros i Hi. by apply elem_of_nil in Hi. }
  destruct (decide (empty = [])) as [->|Hne].
  { apply (Hend X [] top); [done|done|]. intros i Hi. by apply elem_of_nil in Hi. }
  destruct (map_choose X HX) as (j & y & Hj).
  assert (Hjl : Z.of_nat j <= top).
  { destruct (Z.le_gt_cases (Z.of_nat j) top) as [|Hgt]; [done|]. rewrite (h_beyond _ _ _ Hh) in Hj by lia. done. }
  assert (HjE : j ∉ empty) by (intros H; apply (h_upto _ _ _ Hh j Hjl) in H; congruence).
  destruct (skip_empty_ok empty j HjE (S (length empty)) top) as (k & Hk & Hkl & HkE & Hik); [|done|].
  { apply Nat.lt_succ_r, length_filter. }
  pose proof (holes_lower X empty top k Hh Hkl Hik) as Hh'. clear Hh Hjl Hkl Hik.
  destruct (exists_last Hne) as (E & e & ->). cbn [condense_loop]. rewrite last_snoc, removelast_last.
  eapply meets_lift; [exact Hk|]. destruct (sorted_last E e (h_sorted _ _ _ Hh')) as [HsE HE].
  destruct (Z.leb_spec (Z.of_nat k) (Z.of_nat e)) as [Hke|Hek].
  { apply (Hend X (E ++ [e]) (Z.of_nat k)); [done|done|]. intros i Hi.
    assert (i <> k) by (intros ->; done). rewrite Forall_forall in HE.
    apply elem_of_app in Hi as [Hi%HE|Hi%list_elem_of_singleton]; lia. }
  apply Forall_app in Hlt as [HltE Hlte]. apply Forall_inv in Hlte.
  assert (HXk : is_Some (X !! k)).
  { apply not_eq_None_Some. rewrite (h_upto _ _ _ Hh') by lia. done. }
  destruct HXk as [x Hx].
  assert (HXe : X !! e = None) by (apply (h_upto _ _ _ Hh'); [lia|set_solver]).
  rewrite Nat2Z.id. eapply meets_bind; [apply (move_request_runs X s k e x); [done|done|lia|done]|].
  intros [] s1 D. pose proof (moved_ok X s s1 k e x Hb D Hx HXe ltac:(lia) Hlte) as Hb1.
  assert (Hl1 : length (req_ids s1) = length (req_ids s)) by (rewrite (v_ids _ _ _ _ _ D), !length_insert; done).
  eapply meets_weaken; [apply (IH (<[e := x]> (delete k X)))|].
  - rewrite length_app in Hf. cbn in Hf. lia.
  - exact Hb1.
  - apply insert_non_empty.
  - apply holes_filled; [done|done|lia].
  - by rewrite Hl1.
  - intros [] s2 (X' & k' & Hb2 & Hd & Hsame & Hsz & Hl2 & Hv). exists X', k'. split_and!; [done|done| | |congruence|].
    + intros z. rewrite <- (Hsame z). apply same_slots_moved; [done|done|lia].
    + rewrite Hsz, map_size_insert_None by (rewrite lookup_delete_ne by lia; done).
      rewrite map_size_delete, Hx. cbn. assert (size X <> 0)%nat by by apply map_size_non_empty_iff. lia.
    + rewrite Hv. apply (v_limits _ _ _ _ _ D).
Qed.

(** Cutting the lists behind the last slot. *)
Lemma trim_ok X k s : batch_ok n m w X s -> dense k X ->
  batch_ok n m w X (with_outputs (take k (req_output_token_ids s)) (with_req_ids (take k (req_ids s)) s)).
Proof.
  intros Hb Hd. pose proof (b_lists _ _ _ _ _ Hb) as Hlen.
  assert (Hk : forall i x, X !! i = Some x -> (i < k)%nat) by (intros i x Hx; apply Hd; eauto).
  pose proof Hb as [B1 B2 B3 B4 B5 B6 B7 B8 B9 B10 B11].
  split; [| | | | |exact B6|exact B7|exact B8|exact B9|exact B10|exact B11].
  - destruct B1. by split.
  - cbn. rewrite !length_take. lia.
  - cbn. rewrite length_take. pose proof (b_max _ _ _ _ _ Hb). lia.
  - intros i x Hx. pose proof (b_slots _ _ _ _ _ Hb i x Hx) as []. split; try done; cbn.
    + rewrite lookup_take_lt; eauto.
    + rewrite lookup_take_lt; eauto.
  - intros i Hi. destruct (b_free _ _ _ _ _ Hb i Hi) as (_ & H). split; [|exact H]. cbn. rewrite length_take. intros Hl.
    assert (is_Some (X !! i)) as [? H'] by (apply Hd; lia). congruence.
Qed.

(** Condensing the batch: with the list of the empty slots, in descending order,
    the requests end up in the slots below their number, each with its contents. *)
Lemma condense_ok X empty s : batch_ok n m w X s -> StronglySorted gt empty ->
  length (req_ids s) = (size X + length empty)%nat ->
  (forall i, (i < length (req_ids s))%nat -> X !! i = None <-> i ∈ empty) ->
  Forall (fun e => e < length (req_ids s))%nat empty ->
  meets (condense empty) s (fun _ s' => exists X',
    batch_ok n m w X' s' /\ dense (size X) X' /\ same_slots X X' /\
    length (req_ids s') = size X /\ vocab_size s' = vocab_size s).
Proof.
  intros Hb Hs Hlen Hu Hlt. unfold condense. eapply meets_step; [reflexivity|].
  rewrite (num_reqs_size X s Hb). case_bool_decide as H0.
  - apply meets_modify, meets_last, meets_modify, meets_ret.
    assert (X = ∅) as -> by by apply map_size_empty_iff. exists ∅. rewrite map_size_empty in *.
    assert (Hd : dense 0 ∅) by (intros i; rewrite lookup_empty; split; [by intros []|lia]).
    split_and!; [exact (trim_ok ∅ 0 s Hb Hd)|exact Hd|by intros x|done|done].
  - assert (HX : X <> ∅) by (intros ->; by rewrite map_size_empty in H0).
    eapply meets_bind; [apply (condense_loop_ok (length empty) X); [done|done|done| |done]|].
    + split; [intros i Hi; apply Hu; lia| |done]. intros i Hi. destruct (X !! i) eqn:E; [|done].
      pose proof (slot_lt X s i _ Hb E). lia.
    + intros [] s1 (X' & k & Hb1 & Hd & Hsame & Hsz & Hl1 & Hv).
      assert (k = size X) as -> by by rewrite <- Hsz, (dense_size k X').
      apply meets_modify, meets_last, meets_modify, meets_ret.
      assert (Hn : forall l, num_reqs (with_req_ids l s1) = size X).
      { intros l. change (num_reqs s1 = size X). by rewrite (num_reqs_size X' s1 Hb1). }
      rewrite Hn. rewrite (num_reqs_size X' s1 Hb1), Hsz. exists X'.
      change (req_output_token_ids (with_req_ids _ s1)) with (req_output_token_ids s1).
      split_and!; [by apply trim_ok|done|done| |exact Hv]. cbn. rewrite length_take. lia.
Qed.

(** ** [swap_states] *)

Lemma lookup_swap_dict {V} (i j k : nat) (d : gmap nat V) : i <> j ->
  swap_dict_values i j d !! k = if decide (k = i) then d !! j else if decide (k = j) then d !! i else d !! k.
Proof.
  intros Hij. unfold swap_dict_values. destruct (d !! i) eqn:Ei, (d !! j) eqn:Ej; repeat case_decide; subst;
    by rewrite ?lookup_insert_eq, ?lookup_insert_ne, ?lookup_delete_eq, ?lookup_delete_ne, ?lookup_insert_eq,
      ?lookup_insert_ne, ?lookup_delete_eq by done.
Qed.

(** Entries [i] and [j] exchanged. *)
Definition exchanged {A} (i j : nat) (a b : A) (l : list A) : list A := <[j := a]> (<[i := b]> l).

Lemma length_exchanged {A} i j (a b : A) l : length (exchanged i j a b l) = length l.
Proof. unfold exchanged. by rewrite !length_insert. Qed.

Lemma lookup_exchanged {A} i j k (a b : A) l : i <> j -> (i < length l)%nat -> (j < length l)%nat ->
  exchanged i j a b l !! k = if decide (k = i) then Some b else if decide (k = j) then Some a else l !! k.
Proof.
  intros Hij Hi Hj. unfold exchanged. repeat case_decide; subst.
  - rewrite list_lookup_insert_ne by done. by apply list_lookup_insert_eq.
  - apply list_lookup_insert_eq. by rewrite length_insert.
  - by rewrite !list_lookup_insert_ne.
Qed.

(** What [swap_states] changes. *)
Record exchange (i j : nat) (x y : slot) (s s' : t) : Prop := Exchange {
  x_limits : max_num_reqs s' = max_num_reqs s /\ max_model_len s' = max_model_len s /\ vocab_size s' = vocab_size s;
  x_ids : req_ids s' = exchanged i j (Some (s_id x)) (Some (s_id y)) (req_ids s);
  x_outputs : req_output_token_ids s' = exchanged i j (Some (s_output x)) (Some (s_output y)) (req_output_token_ids s);
  x_index : req_id_to_index s' = <[s_id y := i]> (<[s_id x := j]> (req_id_to_index s));
  x_ints : forall c, ints s' c = exchanged i j (s_int x c) (s_int y c) (ints s c);
  x_reals : forall c, reals s' c = exchanged i j (s_real x c) (s_real y c) (reals s c);
  x_tokens : exists a b, token_ids_cpu s' = exchanged i j a b (token_ids_cpu s) /\
    length a = m /\ length b = m /\ holds a (s_tokens x) /\ holds b (s_tokens y);
  x_shape : WorkerBlockTable.shaped n w (block_table s');
  x_blocks : WorkerBlockTable.lists (block_table s') i (s_blocks y);
  x_blocks' : WorkerBlockTable.lists (block_table s') j (s_blocks x);
  x_other_blocks : forall k l, k <> i -> k <> j -> WorkerBlockTable.lists (block_table s) k l ->
    WorkerBlockTable.lists (block_table s') k l;
  x_min_tokens : min_tokens s' = swap_dict_values i j (min_tokens s);
  x_generators : generators s' = swap_dict_values i j (generators s);
  x_bad_words : bad_words_token_ids s' = swap_dict_values i j (bad_words_token_ids s);
  x_groups : groups s' = groups s;
  x_logprobs : num_logprobs s' = num_logprobs s;
  x_prompt_logprobs : num_prompt_logprobs s' = num_prompt_logprobs s;
  x_mask : allowed_token_ids_mask s' = None -> allowed_token_ids_mask s = None;
  x_biases : length (logit_bias s') = length (logit_bias s);
  x_loras : lora_id_to_request_ids s' = lora_id_to_request_ids s;
  x_lora_requests : lora_id_to_lora_request s' = lora_id_to_lora_request s;
}.

Lemma swap_mask_ok i j s :
  meets (modify (fun s => match allowed_token_ids_mask s with
                          | Some mask => with_mask (Some (swap_views i j mask)) s
                          | None => s
                          end)) s (fun _ s' => exists K,
    s' = with_mask K s /\ (K = None -> allowed_token_ids_mask s = None)).
Proof.
  destruct s as [mr ml vs ri rx tk I0 R0 bt G mt li lr gs nl np lb am bw ro sm].
  destruct am as [mask|]; by eexists.
Qed.

Ltac swap_column :=
  unfold swap; apply meets_assoc; eapply meets_fetch; [tidy; eauto|];
  apply meets_assoc; eapply meets_fetch; [tidy; eauto|]; apply meets_assoc; store_column; store_column.

Lemma swap_states_runs X s i j x y : batch_ok n m w X s -> X !! i = Some x -> X !! j = Some y -> i <> j ->
  meets (swap_states i j) s (fun _ s' => exchange i j x y s s').
Proof.
  intros Hb Hx Hy Hne.
  pose proof (b_slots _ _ _ _ _ Hb i x Hx) as O. pose proof (slot_lt X s i x Hb Hx) as Hi.
  pose proof (b_slots _ _ _ _ _ Hb j y Hy) as P. pose proof (slot_lt X s j y Hb Hy) as Hj.
  pose proof (b_lists _ _ _ _ _ Hb) as Hlen. pose proof (b_max _ _ _ _ _ Hb) as Hmax.
  pose proof (b_sized _ _ _ _ _ Hb) as [Z1 Z2 Z3 Z4 Z5 Z6 Z7].
  destruct O as [O1 O2 O3 O4 O5 O6 (a & O7 & O7') O8 _ _ _ _ _ _ _].
  destruct P as [P1 P2 P3 P4 P5 P6 (b & P7 & P7') P8 _ _ _ _ _ _ _].
  assert (HIi : forall c, (i < length (ints s c))%nat) by (intros c; rewrite Z2; lia).
  assert (HIj : forall c, (j < length (ints s c))%nat) by (intros c; rewrite Z2; lia).
  assert (HRi : forall c, (i < length (reals s c))%nat) by (intros c; rewrite Z3; lia).
  assert (HRj : forall c, (j < length (reals s c))%nat) by (intros c; rewrite Z3; lia).
  assert (HBi : (i < length (logit_bias s))%nat) by lia. assert (HBj : (j < length (logit_bias s))%nat) by lia.
  destruct (lookup_lt_is_Some_2 (logit_bias s) i) as [biasi Hbiasi]; [lia|].
  destruct (lookup_lt_is_Some_2 (logit_bias s) j) as [biasj Hbiasj]; [lia|].
  assert (Hlen_row : forall k row, token_ids_cpu s !! k = Some row -> length row = m).
  { intros k row Hk. apply (proj1 (Forall_forall _ _) Z5). by eapply list_elem_of_lookup_2. }
  pose proof (Hlen_row i a O7). pose proof (Hlen_row j b P7). clear Hb Hx Hy Hlen_row.
  destruct s as [mr ml vs ri rx tk I0 R0 bt G mt li lr gs nl np lb am bw ro sm].
  cbn [req_ids req_id_to_index req_output_token_ids ints reals token_ids_cpu logit_bias block_table max_num_reqs] in *.
  assert (Hti : (i < length tk)%nat) by lia. assert (Htj : (j < length tk)%nat) by lia.
  unfold swap_states. eapply meets_fetch; [exact O1|]. eapply meets_fetch; [exact P1|].
  do 2 swap_column. apply meets_get. fields.
  eapply meets_lift; [by rewrite P2|]. eapply meets_lift; [by rewrite O2|]. apply meets_modify. fields.
  do 12 swap_column. do 3 (apply meets_modify; fields). do 2 swap_column.
  eapply meets_bind; [apply (swap_mask_ok i j)|]. intros [] s' (K & -> & HK). fields_in HK. fields.
  eapply meets_weaken; [apply on_table_ok, (WorkerBlockTable.swap_row_ok (n := n) (w := w) _ i j (s_blocks x) (s_blocks y));
    [exact Z7|exact O8|exact P8]|].
  intros [] s' (T & -> & HT & HTi & HTj & HTo & _). fields.
  split; fields; try done.
  - intros c. destruct c; by_name; done.
  - intros c. destruct c; by_name; done.
  - by exists a, b.
  - by rewrite !length_insert.
Qed.

Lemma lookup_exchanged_l {A} i j (a b : A) l : i <> j -> (i < length l)%nat -> exchanged i j a b l !! i = Some b.
Proof. intros Hij Hi. unfold exchanged. rewrite list_lookup_insert_ne by done. by apply list_lookup_insert_eq. Qed.

Lemma lookup_exchanged_r {A} i j (a b : A) l : (j < length l)%nat -> exchanged i j a b l !! j = Some a.
Proof. intros Hj. apply list_lookup_insert_eq. by rewrite length_insert. Qed.

Lemma lookup_exchanged_ne {A} i j k (a b : A) l : k <> i -> k <> j -> exchanged i j a b l !! k = l !! k.
Proof. intros Hi Hj. unfold exchanged. by rewrite !list_lookup_insert_ne. Qed.

(** Slot [k] of the batch after the exchange. *)
Lemma exchange_slot X s s' i j x y k z : batch_ok n m w X s -> exchange i j x y s s' ->
  X !! i = Some x -> X !! j = Some y -> i <> j ->
  (if decide (k = j) then Some x else if decide (k = i) then Some y else X !! k) = Some z -> occupied s' k z.
Proof.
  intros Hb D Hx Hy Hne Hk. pose proof (slot_lt X s i x Hb Hx) as Hi. pose proof (slot_lt X s j y Hb Hy) as Hj.
  pose proof (b_lists _ _ _ _ _ Hb) as Hlen. pose proof (b_max _ _ _ _ _ Hb) as Hmax.
  pose proof (b_sized _ _ _ _ _ Hb) as [Z1 Z2 Z3 Z4 Z5 Z6 Z7].
  assert (Hxy : s_id x <> s_id y) by (intros H; by apply Hne, (slot_unique X s i j x y)).
  assert (HX : X !! (if decide (k = j) then i else if decide (k = i) then j else k) = Some z)
    by (repeat case_decide; congruence).
  pose proof (b_slots _ _ _ _ _ Hb _ z HX) as O. destruct O, D. destruct x_tokens0 as (a & b & Ht & Ha & Hb' & Hax & Hby).
  destruct (decide (k = j)) as [->|Hkj]; [|destruct (decide (k = i)) as [->|Hki]].
  - injection Hk as <-. split; try done.
    + rewrite x_ids0. by apply lookup_exchanged_r.
    + rewrite x_index0, lookup_insert_ne by done. apply lookup_insert_eq.
    + rewrite x_outputs0. apply lookup_exchanged_r. lia.
    + intros c. rewrite x_ints0. apply lookup_exchanged_r. rewrite Z2. lia.
    + intros c. rewrite x_reals0. apply lookup_exchanged_r. rewrite Z3. lia.
    + exists a. split; [|done]. rewrite Ht. apply lookup_exchanged_r. lia.
    + by rewrite x_min_tokens0, lookup_swap_dict, decide_False, decide_True by done.
    + by rewrite x_generators0, lookup_swap_dict, decide_False, decide_True by done.
    + by rewrite x_bad_words0, lookup_swap_dict, decide_False, decide_True by done.
    + intros g. by rewrite x_groups0.
    + by rewrite x_logprobs0.
    + by rewrite x_prompt_logprobs0.
    + by rewrite x_loras0.
  - injection Hk as <-. split; try done.
    + rewrite x_ids0. by apply lookup_exchanged_l.
    + rewrite x_index0. apply lookup_insert_eq.
    + rewrite x_outputs0. apply lookup_exchanged_l; [done|lia].
    + intros c. rewrite x_ints0. apply lookup_exchanged_l; [done|]. rewrite Z2. lia.
    + intros c. rewrite x_reals0. apply lookup_exchanged_l; [done|]. rewrite Z3. lia.
    + exists b. split; [|done]. rewrite Ht. apply lookup_exchanged_l; [done|lia].
    + by rewrite x_min_tokens0, lookup_swap_dict, decide_True by done.
    + by rewrite x_generators0, lookup_swap_dict, decide_True by done.
    + by rewrite x_bad_words0, lookup_swap_dict, decide_True by done.
    + intros g. by rewrite x_groups0.
    + by rewrite x_logprobs0.
    + by rewrite x_prompt_logprobs0.
    + by rewrite x_loras0.
  - assert (Hzx : s_id x <> s_id z) by (intros H; by apply Hki, (slot_unique X s k i z x)).
    assert (Hzy : s_id y <> s_id z) by (intros H; by apply Hkj, (slot_unique X s k j z y)). split; try done.
    + by rewrite x_ids0, lookup_exchanged_ne.
    + by rewrite x_index0, !lookup_insert_ne.
    + by rewrite x_outputs0, lookup_exchanged_ne.
    + intros c. by rewrite x_ints0, lookup_exchanged_ne.
    + intros c. by rewrite x_reals0, lookup_exchanged_ne.
    + by rewrite Ht, lookup_exchanged_ne.
    + by apply x_other_blocks0.
    + by rewrite x_min_tokens0, lookup_swap_dict, !decide_False by done.
    + by rewrite x_generators0, lookup_swap_dict, !decide_False by done.
    + by rewrite x_bad_words0, lookup_swap_dict, !decide_False by done.
    + intros g. by rewrite x_groups0.
    + by rewrite x_logprobs0.
    + by rewrite x_prompt_logprobs0.
    + by rewrite x_loras0.
Qed.

Lemma exchange_ok X s s' i j x y : batch_ok n m w X s -> exchange i j x y s s' ->
  X !! i = Some x -> X !! j = Some y -> i <> j -> batch_ok n m w (<[j := x]> (<[i := y]> X)) s'.
Proof.
  intros Hb D Hx Hy Hne. pose proof (slot_lt X s i x Hb Hx) as Hi. pose proof (slot_lt X s j y Hb Hy) as Hj.
  pose proof (b_sized _ _ _ _ _ Hb) as [Z1 Z2 Z3 Z4 Z5 Z6 Z7].
  assert (HX : forall k, <[j := x]> (<[i := y]> X) !! k =
    if decide (k = j) then Some x else if decide (k = i) then Some y else X !! k).
  { intros k. repeat case_decide; subst; by rewrite ?lookup_insert_eq, ?lookup_insert_ne, ?lookup_insert_eq by done. }
  assert (Hdone : forall id, is_Some (req_id_to_index s !! id) -> is_Some (req_id_to_index s' !! id)).
  { intros id H. rewrite (x_index _ _ _ _ _ _ D). destruct (decide (id = s_id y)) as [->|]; [by rewrite lookup_insert_eq|].
    rewrite lookup_insert_ne by done. destruct (decide (id = s_id x)) as [->|]; [by rewrite lookup_insert_eq|].
    by rewrite lookup_insert_ne. }
  split.
  - destruct D. destruct x_tokens0 as (a & b & Ht & Ha & Hb' & _).
    apply (sized_ints s); [by split|by destruct x_limits0| | | | |congruence|done].
    + intros c. by rewrite x_ints0, length_exchanged.
    + intros c. by rewrite x_reals0, length_exchanged.
    + by rewrite Ht, length_exchanged.
    + rewrite Ht. unfold exchanged. do 2 (apply Forall_insert; [|done]). done.
  - rewrite (x_ids _ _ _ _ _ _ D), (x_outputs _ _ _ _ _ _ D), !length_exchanged. apply (b_lists _ _ _ _ _ Hb).
  - rewrite (x_ids _ _ _ _ _ _ D), length_exchanged. apply (b_max _ _ _ _ _ Hb).
  - intros k z Hk. rewrite HX in Hk. by eapply exchange_slot.
  - intros k Hk. rewrite HX in Hk. repeat case_decide; try done. destruct D.
    rewrite x_ids0, x_min_tokens0, x_generators0, x_bad_words0, length_exchanged, lookup_exchanged_ne by done.
    rewrite !lookup_swap_dict, !(decide_False (P := k = i)), !(decide_False (P := k = j)) by done.
    apply (b_free _ _ _ _ _ Hb k Hk).
  - intros id k Hk. rewrite (x_index _ _ _ _ _ _ D) in Hk. rewrite HX.
    destruct (decide (id = s_id y)) as [->|Hid].
    + rewrite lookup_insert_eq in Hk. injection Hk as <-. exists y. by rewrite decide_False, decide_True by done.
    + rewrite lookup_insert_ne in Hk by done. destruct (decide (id = s_id x)) as [->|Hid'].
      * rewrite lookup_insert_eq in Hk. injection Hk as <-. exists x. by rewrite decide_True.
      * rewrite lookup_insert_ne in Hk by done. destruct (b_index _ _ _ _ _ Hb id k Hk) as (z & Hz & Hzid).
        exists z. rewrite !decide_False by (intros ->; congruence). done.
  - intros g id Hg. rewrite (x_groups _ _ _ _ _ _ D) in Hg. by apply Hdone, (b_members _ _ _ _ _ Hb g).
  - intros id H. rewrite (x_logprobs _ _ _ _ _ _ D) in H. by apply Hdone, (b_logprobs _ _ _ _ _ Hb).
  - intros id H. rewrite (x_prompt_logprobs _ _ _ _ _ _ D) in H. by apply Hdone, (b_prompt_logprobs _ _ _ _ _ Hb).
  - rewrite (x_loras _ _ _ _ _ _ D), (x_lora_requests _ _ _ _ _ _ D). apply (b_loras _ _ _ _ _ Hb).
  - intros Hg HK%(x_mask _ _ _ _ _ _ D). rewrite (x_groups _ _ _ _ _ _ D) in Hg. by apply (b_mask _ _ _ _ _ Hb).
Qed.

(** Swapping two requests exchanges their slots. *)
Lemma swap_states_ok X s i j x y : batch_ok n m w X s -> X !! i = Some x -> X !! j = Some y -> i <> j ->
  meets (swap_states i j) s (fun _ s' => batch_ok n m w (<[j := x]> (<[i := y]> X)) s' /\
    length (req_ids s') = length (req_ids s) /\ vocab_size s' = vocab_size s).
Proof.
  intros Hb Hx Hy Hne. eapply meets_weaken; [by eapply swap_states_runs|]. intros [] s' D.
  split_and!; [by eapply exchange_ok|by rewrite (x_ids _ _ _ _ _ _ D), length_exchanged|apply (x_limits _ _ _ _ _ _ D)].
Qed.

(** ** The sampling metadata can be made *)

Lemma mapM_ok {A B} (f : A -> result B) l : Forall (fun a => is_ok (f a) = true) l -> is_ok (mapM f l) = true.
Proof.
  induction 1 as [|a l Ha _ IH]; [done|]. cbn. destruct (f a); [|done]. cbn. by destruct (mapM f l).
Qed.

Lemma is_ok_bind {A B} (r : result A) (f : A -> result B) :
  is_ok r = true -> (forall a, r = Ok a -> is_ok (f a) = true) -> is_ok (r ≫= f) = true.
Proof. destruct r; [|done]. intros _ H. by apply H. Qed.

Lemma make_prompt_ok X s : batch_ok n m w X s -> X <> ∅ -> dense (size X) X ->
  (forall i x, X !! i = Some x -> 0 <= s_int x NUM_PROMPT_TOKENS <= Z.of_nat m) ->
  is_ok (make_prompt_token_ids_tensor s) = true.
Proof.
  intros Hb HX Hd Hp. pose proof (b_sized _ _ _ _ _ Hb) as [Z1 Z2 Z3 Z4 Z5 Z6 Z7].
  unfold make_prompt_token_ids_tensor. rewrite (num_reqs_size X s Hb).
  assert (Hin : Forall (fun k => 0 <= k <= Z.of_nat m) (take (size X) (ints s NUM_PROMPT_TOKENS))).
  { apply Forall_lookup. intros i k Hk. apply lookup_take_Some in Hk as [Hk Hi].
    destruct (proj2 (Hd i) Hi) as [x Hx]. pose proof (o_int _ _ _ (b_slots _ _ _ _ _ Hb i x Hx) NUM_PROMPT_TOKENS) as Ho.
    rewrite Hk in Ho. injection Ho as ->. by apply (Hp i). }
  destruct (take (size X) (ints s NUM_PROMPT_TOKENS)) as [|k l] eqn:E.
  { exfalso. apply (f_equal length) in E. rewrite length_take, Z2 in E. cbn in E.
    assert (size X <> 0)%nat by by apply map_size_non_empty_iff. destruct (map_choose X HX) as (i & x & Hi).
    pose proof (slot_lt X s i x Hb Hi). pose proof (b_max _ _ _ _ _ Hb). lia. }
  assert (Hmax : 0 <= foldr Z.max k l <= Z.of_nat m).
  { inversion_clear Hin as [|? ? Hk Hl]. clear -Hk Hl. induction Hl; cbn; lia. }
  set (top := foldr Z.max k l) in *. apply mapM_ok, Forall_forall. intros [row np] Hrow.
  apply elem_of_zip_l, elem_of_take in Hrow as (i & Hrow & _).
  assert (length row = m) by (apply (proj1 (Forall_forall _ _) Z5); by eapply list_elem_of_lookup_2).
  apply is_ok_bind; [|done]. unfold broadcast. rewrite bool_decide_eq_true_2; [done|].
  rewrite length_py_slice; lia.
Qed.

Lemma metadata_ok X s : batch_ok n m w X s -> dense (size X) X ->
  (forall i x, X !! i = Some x -> 0 <= s_int x NUM_PROMPT_TOKENS <= Z.of_nat m) ->
  is_ok (make_sampling_metadata s) = true.
Proof.
  intros Hb Hd Hp. unfold make_sampling_metadata.
  assert (Hne : forall g, groups s g <> ∅ -> X <> ∅).
  { intros g Hg ->. apply set_choose_L in Hg as [id Hid]. destruct (b_members _ _ _ _ _ Hb g id Hid) as [i Hi].
    destruct (b_index _ _ _ _ _ Hb id i Hi) as (x & Hx & _). by rewrite lookup_empty in Hx. }
  apply is_ok_bind.
  - unfold no_penalties, nobody. repeat case_bool_decide; cbn; try done;
      (apply is_ok_bind; [apply (make_prompt_ok X); [done|by eapply Hne|done..]|done]).
  - intros prompts _. apply is_ok_bind; [|done]. unfold nobody. case_bool_decide as Hg; [done|].
    pose proof (b_mask _ _ _ _ _ Hb Hg). by destruct (allowed_token_ids_mask s).
Qed.

Lemma refresh_ok X s : batch_ok n m w X s -> dense (size X) X ->
  (forall i x, X !! i = Some x -> 0 <= s_int x NUM_PROMPT_TOKENS <= Z.of_nat m) ->
  meets refresh_sampling_metadata s (fun _ s' => exists d, s' = with_metadata d s /\ batch_ok n m w X s' /\
    make_sampling_metadata s = Ok d).
Proof.
  intros Hb Hd Hp. unfold refresh_sampling_metadata. apply meets_get. pose proof (metadata_ok X s Hb Hd Hp) as Hok.
  destruct (make_sampling_metadata s) as [d|]; [|done]. eapply meets_lift; [done|]. apply meets_last, meets_modify, meets_ret.
  exists d. split_and!; [done| |done]. destruct Hb as [[] B2 B3 B4 B5 B6 B7 B8 B9 B10 B11]. split; try done.
  intros i x Hx. destruct (B4 i x Hx). by split.
Qed.
End Batch.
End Slots.
