(* ===== verification/ModelRunner.v ===== *)
(** * v1 workers: the model runner ([vllm/v1/worker/gpu_model_runner.py])

    [GPUModelRunner._update_states], [_prepare_inputs],
    [_compute_cascade_attn_prefix_len], [_calc_spec_decode_metadata] and
    [generate_draft_token_ids], and [reorder_batch] of the MLA backend
    ([vllm/v1/attention/backends/mla/common.py]), for a model without M-RoPE.

    - The lists of output tokens are objects, which the cached state of a request
      and the batch share: [output_lists] is the store of the lists, by address.
      A generator is known by an address too.
    - The message of the scheduler refers to the sampling parameters of a new
      request, of which it reads a few: [params_of] gives all of them.
    - What the worker computes for the device is the answer [Inputs] of
      [prepare_inputs]; running the model and sampling are outside.  The arrays
      are of 32 bits where the code's are, see [wrap32].
    - A set that the code iterates over is taken in some order, on which the
      result does not depend: slots are sorted before they are used. *)
From stdpp Require Import sorting.
From S2P Require Import Prelude.
From S2P Require Import PyDict.
From S2P Require Import NgramProposer.
From S2P Require Import V1Request.
From S2P Require Import V1Scheduler.
From S2P Require Import Params.
From S2P Require Import Arrays.
From S2P Require Import WorkerBlockTable.
From S2P Require Import InputBatch.

Module ModelRunner.

Record t : Type := Runner {
  block_size : Z;
  max_num_blocks_per_req : Z;
  max_num_tokens : nat;
  requests : gmap string CachedRequestState;
  output_lists : gmap nat (list Z);
  next_address : nat;
  input_batch : InputBatch.t;
  encoder_cache : gmap string (gmap nat Z);
}.

Definition with_requests x s := Runner (block_size s) (max_num_blocks_per_req s) (max_num_tokens s) x
  (output_lists s) (next_address s) (input_batch s) (encoder_cache s).
Definition with_lists x a s := Runner (block_size s) (max_num_blocks_per_req s) (max_num_tokens s) (requests s)
  x a (input_batch s) (encoder_cache s).
Definition with_batch x s := Runner (block_size s) (max_num_blocks_per_req s) (max_num_tokens s) (requests s)
  (output_lists s) (next_address s) x (encoder_cache s).
Definition with_encoder_cache x s := Runner (block_size s) (max_num_blocks_per_req s) (max_num_tokens s)
  (requests s) (output_lists s) (next_address s) (input_batch s) x.

Definition on_batch {A} (f : M InputBatch.t A) : M t A := fun s =>
  let '(r, b) := f (input_batch s) in (r, with_batch b s).

Definition init (block_size : Z) (max_model_len max_num_seqs max_num_batched_tokens : nat) (vocab_size : Z) : t :=
  let blocks := cdiv (Z.of_nat max_model_len) block_size in
  Runner block_size blocks max_num_batched_tokens ∅ ∅ O
    (InputBatch.init max_num_seqs max_model_len (Z.to_nat blocks) vocab_size) ∅.

Definition list_at (a : nat) : M t (list Z) :=
  s ← get; lift (from_option_exn KeyError (output_lists s !! a)).

Definition request (id : string) : M t CachedRequestState :=
  s ← get; lift (from_option_exn KeyError (requests s !! id)).

(** A new object. *)
Definition fresh : M t nat :=
  s ← get; modify (with_lists (output_lists s) (S (next_address s))) ;; mret (next_address s).

(** ** [_update_states] *)

(** Forget the finished requests. *)
Definition forget (id : string) : M t unit :=
  modify (fun s => with_requests (delete id (requests s)) s) ;;
  modify (fun s => with_encoder_cache (delete id (encoder_cache s)) s).

(** Take requests out of the batch: the slots that become empty. *)
Definition remove_one (check : bool) (id : string) : M t (list nat) :=
  i ← on_batch (InputBatch.remove_request id);
  (if check then assert_ (bool_decide (i <> None)) else mret tt) ;;
  mret (match i with Some i => [i] | None => [] end).

Definition remove_all (check : bool) (l : list string) : M t (list nat) :=
  removed ← map_each l (remove_one check); mret (concat removed).

Definition free_encoder_output (p : string * nat) : M t unit :=
  modify (fun s =>
    match encoder_cache s !! p.1 with
    | Some outputs =>
        let outputs := delete p.2 outputs in
        if bool_decide (outputs = ∅) then with_encoder_cache (delete p.1 (encoder_cache s)) s
        else with_encoder_cache (<[p.1 := outputs]> (encoder_cache s)) s
    | None => s
    end).

Section Update.
Context (params_of : V1Scheduler.NewRequestData -> Params.t).

Definition add_new (d : V1Scheduler.NewRequestData) : M t string :=
  let id := V1Scheduler.new_req_id d in
  let p := params_of d in
  generator ← (if bool_decide (sampling_type p = RANDOM_SEED) then g ← fresh; mret (Some g) else mret None);
  output ← fresh;
  modify (fun s => with_lists (<[output := []]> (output_lists s)) (next_address s) s) ;;
  modify (fun s => with_requests (<[id :=
    CachedState id (V1Scheduler.new_prompt_token_ids d) (V1Scheduler.new_mm_inputs d)
      (V1Scheduler.new_mm_positions d) p generator (V1Scheduler.new_req_block_ids d)
      (V1Scheduler.new_req_num_computed_tokens d) output (V1Scheduler.new_lora_request d)]> (requests s)) s) ;;
  mret id.

Definition cached_with (computed : Z) (blocks : list Z) (r : CachedRequestState) : CachedRequestState :=
  CachedState (cached_req_id r) (cached_prompt_token_ids r) (cached_mm_inputs r) (cached_mm_positions r)
    (cached_sampling_params r) (cached_generator r) blocks computed (cached_output_token_ids r)
    (cached_lora_request r).

(** The cached state of a running or resumed request. *)
Definition update_cached (d : V1Scheduler.CachedRequestData) : M t unit :=
  let id := V1Scheduler.req_id d in
  let computed := V1Scheduler.num_computed_tokens d in
  let new_token_ids := V1Scheduler.new_token_ids d in
  r ← request id;
  output ← list_at (cached_output_token_ids r);
  let num_tokens := Z.of_nat (length (cached_prompt_token_ids r)) + Z.of_nat (length output) in
  let num_new_tokens := computed + Z.of_nat (length new_token_ids) - num_tokens in
  output' ← (if num_new_tokens =? 1
             then x ← lift (py_index new_token_ids (-1)); mret (output ++ [x])
             else if 0 <? num_new_tokens
             then mret (output ++ py_slice new_token_ids (- num_new_tokens) (Z.of_nat (length new_token_ids)))
             else mret output);
  modify (fun s => with_lists (<[cached_output_token_ids r := output']> (output_lists s)) (next_address s) s) ;;
  let blocks := if V1Scheduler.resumed_from_preemption d then V1Scheduler.new_block_ids d
                else cached_block_ids r ++ V1Scheduler.new_block_ids d in
  modify (fun s => with_requests (<[id := cached_with computed blocks r]> (requests s)) s).

(** Its slot of the batch. *)
Definition update_slot (spec_token_ids : list Z) (d : V1Scheduler.CachedRequestData) (i : nat) : M InputBatch.t unit :=
  let computed := V1Scheduler.num_computed_tokens d in
  let new_token_ids := V1Scheduler.new_token_ids d in
  store (InputBatch.int InputBatch.NUM_COMPUTED_TOKENS) i computed ;;
  InputBatch.on_table (WorkerBlockTable.append_row (V1Scheduler.new_block_ids d) i) ;;
  let end_token_index := computed + Z.of_nat (length new_token_ids) in
  store_slice InputBatch.tokens i computed end_token_index new_token_ids ;;
  store (InputBatch.int InputBatch.NUM_TOKENS_NO_SPEC) i end_token_index ;;
  match spec_token_ids with
  | [] => store (InputBatch.int InputBatch.NUM_TOKENS) i end_token_index
  | _ =>
      let end_spec := end_token_index + Z.of_nat (length spec_token_ids) in
      store_slice InputBatch.tokens i end_token_index end_spec spec_token_ids ;;
      store (InputBatch.int InputBatch.NUM_TOKENS) i end_spec
  end.

(** A running or resumed request: the answer says whether it is to be added. *)
Definition update_request (spec : pydict string (list Z)) (d : V1Scheduler.CachedRequestData) : M t (list string) :=
  let id := V1Scheduler.req_id d in
  update_cached d ;;
  s ← get;
  match InputBatch.req_id_to_index (input_batch s) !! id with
  | None => mret [id]
  | Some i => on_batch (update_slot (default [] (spec !! id)) d i) ;; mret []
  end.

(** Add requests to the batch, the smallest empty slots first: what is left of
    the empty slots, which are in descending order. *)
Fixpoint add_all (l : list string) (removed_req_indices : list nat) : M t (list nat) :=
  match l with
  | [] => mret removed_req_indices
  | id :: l' =>
      r ← request id;
      output ← list_at (cached_output_token_ids r);
      on_batch (InputBatch.add_request r output (last removed_req_indices)) ;;
      add_all l' (removelast removed_req_indices)
  end.

#[global] Instance ge_decision : RelDecision ge := fun a b => decide (b <= a)%nat.

Definition update_states (out : V1Scheduler.SchedulerOutput) : M t unit :=
  let finished := elements (V1Scheduler.out_finished_req_ids out) in
  for_each finished forget ;;
  removed ← remove_all false finished;
  for_each (V1Scheduler.free_encoder_input_ids out) free_encoder_output ;;
  s ← get;
  let cached_req_ids := dom (InputBatch.req_id_to_index (input_batch s)) in
  let unscheduled := elements (cached_req_ids ∖ list_to_set (keys (V1Scheduler.num_scheduled_tokens out))) in
  removed' ← remove_all true unscheduled;
  new ← map_each (V1Scheduler.scheduled_new_reqs out) add_new;
  back ← map_each (V1Scheduler.scheduled_cached_reqs out)
           (update_request (V1Scheduler.scheduled_spec_decode_tokens out));
  let removed_req_indices := removed ++ removed' in
  let req_ids_to_add := new ++ concat back in
  let batch_changed := bool_decide (removed_req_indices <> []) || bool_decide (req_ids_to_add <> []) in
  empty ← add_all req_ids_to_add (merge_sort ge removed_req_indices);
  (match empty with [] => mret tt | _ => on_batch (InputBatch.condense empty) end) ;;
  (if batch_changed then on_batch InputBatch.refresh_sampling_metadata else mret tt).
End Update.

(** ** [reorder_batch] of the MLA backend: decodes first *)

Definition scheduled_of (num_scheduled_tokens : pydict string Z) (oid : option string) : result Z :=
  match oid with
  | Some id => from_option_exn KeyError (num_scheduled_tokens !! id)
  | None => Err KeyError
  end.

Fixpoint reorder_loop (num_decodes : nat) (swaps : list (nat * nat)) (modified_batch : bool) : M InputBatch.t bool :=
  match swaps with
  | [] => mret modified_batch
  | (decode, prefill) :: swaps' =>
      if bool_decide (num_decodes <= decode)%nat
      then InputBatch.swap_states prefill decode ;; reorder_loop num_decodes swaps' true
      else mret modified_batch
  end.

Definition reorder_batch (num_scheduled_tokens : pydict string Z) : M InputBatch.t bool :=
  s ← get;
  counts ← lift (mapM (scheduled_of num_scheduled_tokens) (InputBatch.req_ids s));
  let slots := zip (seq 0 (length counts)) counts in
  let decodes := (filter (fun p => p.2 = 1) slots).*1 in
  let prefills := (filter (fun p => p.2 <> 1) slots).*1 in
  reorder_loop (length decodes) (zip (reverse decodes) prefills) false.

(** The hook of the attention backend; flash attention leaves the batch alone. *)
Inductive attn_metadata_builder : Type :=
  | FlashAttentionMetadataBuilder
  | MLACommonMetadataBuilder.

Definition hook_reorder_batch (builder : attn_metadata_builder) (num_scheduled_tokens : pydict string Z) :
    M InputBatch.t bool :=
  match builder with
  | FlashAttentionMetadataBuilder => mret false
  | MLACommonMetadataBuilder => reorder_batch num_scheduled_tokens
  end.

(** ** [_prepare_inputs] *)

Record Inputs : Type := MkInputs {
  input_ids : list Z;
  positions : list Z;
  slot_mapping : list Z;
  query_start_loc : list Z;
  seq_lens : list Z;
  max_query_len : Z;
  common_prefix_len : Z;
  logits_indices : list Z;
}.

(** [np.arange(k) - offsets]: the numbers of each segment from zero. *)
Definition batched_arange (arange_np : list Z) (counts : list Z) : result (list Z) :=
  let cu := np_cumsum counts in
  offsets ← np_repeat (zip_with Z.sub cu counts) counts;
  np_zip Z.sub arange_np offsets.

Definition calc_spec_decode_metadata (arange_np : list Z) (spec : pydict string (list Z))
    (req_ids : list (option string)) (cu_num_tokens : list Z) : result (list Z) :=
  let num_spec_decode_tokens := map (fun oid =>
    Z.of_nat (length (default [] (match oid with Some id => spec !! id | None => None end)))) req_ids in
  let num_sampled_tokens := map (Z.add 1) num_spec_decode_tokens in
  logits_start_loc ← np_repeat (zip_with Z.sub cu_num_tokens num_sampled_tokens) num_sampled_tokens;
  sampled_arange ← batched_arange (take (Z.to_nat (np_sum num_sampled_tokens)) arange_np) num_sampled_tokens;
  np_zip Z.add logits_start_loc sampled_arange.

Section Prepare.
Context (use_cascade_attention : Z -> list Z -> bool).

Definition compute_cascade_attn_prefix_len (block_size : Z) (computed counts : list Z)
    (num_common_prefix_blocks : Z) : result Z :=
  let common_prefix_len := num_common_prefix_blocks * block_size in
  if common_prefix_len =? 0 then Ok 0
  else
    match take (length counts) computed with
    | [] => Err ValueError
    | x :: l =>
        let common_prefix_len := Z.min common_prefix_len (foldr Z.min x l) in
        let common_prefix_len := common_prefix_len / block_size * block_size in
        Ok (if use_cascade_attention common_prefix_len counts then common_prefix_len else 0)
    end.

(** What is computed of the batch, once it is in its order. *)
Definition compute_inputs (s : t) (out : V1Scheduler.SchedulerOutput) : result Inputs :=
  let b := input_batch s in
  let total := Z.to_nat (V1Scheduler.total_num_scheduled_tokens out) in
  let num_reqs := InputBatch.num_reqs b in
  let arange_np := seqZ 0 (Z.max (Z.of_nat (InputBatch.max_num_reqs b) + 1)
                             (Z.max (Z.of_nat (InputBatch.max_model_len b)) (Z.of_nat (max_num_tokens s)))) in
  counts ← mapM (scheduled_of (V1Scheduler.num_scheduled_tokens out)) (InputBatch.req_ids b);
  let computed := InputBatch.ints b InputBatch.NUM_COMPUTED_TOKENS in
  let cu_num_tokens := np_cumsum counts in
  req_indices ← np_repeat (take num_reqs arange_np) counts;
  arange ← batched_arange (take total arange_np) counts;
  starts ← tensor_index computed req_indices;
  positions ← np_zip Z.add starts arange;
  positions ← broadcast (Nat.min total (max_num_tokens s)) positions;
  token_indices ← np_zip Z.add positions
    (map (fun r => wrap32 (r * Z.of_nat (InputBatch.max_model_len b))) req_indices);
  input_ids ← index_select (concat (InputBatch.token_ids_cpu b)) token_indices;
  block_table_indices ← np_zip Z.add (map (fun r => wrap32 (r * max_num_blocks_per_req s)) req_indices)
    (map (fun p => p / block_size s) positions);
  block_numbers ← tensor_index (concat (WorkerBlockTable.block_table_np (InputBatch.block_table b)))
    block_table_indices;
  slot_mapping ← np_zip (fun x y => wrap32 (x + y))
    (map (fun n => wrap32 (n * block_size s)) block_numbers) (map (fun p => p mod block_size s) positions);
  seq_lens ← np_zip Z.add (take num_reqs computed) counts;
  common_prefix_len ← compute_cascade_attn_prefix_len (block_size s) computed counts
    (V1Scheduler.num_common_prefix_blocks out);
  logits_indices ← (match items (V1Scheduler.scheduled_spec_decode_tokens out) with
                    | [] => Ok (map (fun e => e - 1) cu_num_tokens)
                    | _ => calc_spec_decode_metadata arange_np (V1Scheduler.scheduled_spec_decode_tokens out)
                             (InputBatch.req_ids b) cu_num_tokens
                    end);
  Ok (MkInputs input_ids positions slot_mapping (0 :: cu_num_tokens) seq_lens (foldr Z.max 0 counts)
        common_prefix_len logits_indices).

Definition prepare_inputs (builder : attn_metadata_builder) (out : V1Scheduler.SchedulerOutput) : M t Inputs :=
  assert_ (0 <? V1Scheduler.total_num_scheduled_tokens out) ;;
  b ← on_batch get;
  assert_ (bool_decide (InputBatch.num_reqs b <> O)) ;;
  modified_batch ← on_batch (hook_reorder_batch builder (V1Scheduler.num_scheduled_tokens out));
  (if modified_batch : bool then on_batch InputBatch.refresh_sampling_metadata else mret tt) ;;
  s ← get;
  lift (compute_inputs s out).
End Prepare.

(** ** [generate_draft_token_ids] *)

Definition propose_for (prompt_lookup_min num_speculative_tokens : Z) (i : nat) (sampled_ids : list Z) :
    M InputBatch.t (list Z) :=
  match sampled_ids with
  | [] => mret []
  | _ =>
      start_idx ← fetch (InputBatch.int InputBatch.NUM_TOKENS_NO_SPEC) i;
      let end_idx := start_idx + Z.of_nat (length sampled_ids) in
      store_slice InputBatch.tokens i start_idx end_idx sampled_ids ;;
      row ← fetch InputBatch.tokens i;
      drafter_output ← lift (Ngram.propose (py_slice row 0 end_idx) prompt_lookup_min num_speculative_tokens);
      mret (default [] drafter_output)
  end.

Definition generate_draft_token_ids (prompt_lookup_min num_speculative_tokens : Z)
    (sampled_token_ids : list (list Z)) : M InputBatch.t (list (list Z)) :=
  map_each (zip (seq 0 (length sampled_token_ids)) sampled_token_ids)
    (fun p => propose_for prompt_lookup_min num_speculative_tokens p.1 p.2).
End ModelRunner.
