(* ===== verification/ModelRunnerCorrect.v ===== *)
(** * v1 workers: the model runner follows the scheduler

    The batch as a map from request ids to what their slots hold, and the
    requests the runner knows: what [update_states] makes of a message. *)
From stdpp Require Import sorting.
From S2P Require Import Prelude.
From S2P Require Import PyDict.
From S2P Require Import V1Request.
From S2P Require Import V1Scheduler.
From S2P Require Import Params.
From S2P Require Import Arrays.
From S2P Require Import WorkerBlockTable.
From S2P Require Import InputBatch.
From S2P Require Import InputBatchCorrect.
From S2P Require Import ModelRunner.

Module Runner.
Import ModelRunner.
Import Slots.

Section Runner.
Context {n m w : nat}.
Implicit Types (b : InputBatch.t) (X : gmap nat slot) (C : gmap string slot) (x y : slot) (i j : nat).
Implicit Types (d : V1Scheduler.CachedRequestData).

(** ** A running request in its slot *)

(** The slot after an update: the tokens before [num_computed_tokens], the new
    ones and the drafts. *)
Definition advance (x : slot) (row : list Z) d (spec : list Z) : slot :=
  let c := V1Scheduler.num_computed_tokens d in
  let new := V1Scheduler.new_token_ids d in
  Slot (s_id x) (s_output x) (take (Z.to_nat c) row ++ new ++ spec)
    (fun k => match k with
              | InputBatch.NUM_TOKENS => c + Z.of_nat (length new) + Z.of_nat (length spec)
              | InputBatch.NUM_TOKENS_NO_SPEC => c + Z.of_nat (length new)
              | InputBatch.NUM_COMPUTED_TOKENS => c
              | k => s_int x k
              end)
    (s_real x) (s_blocks x ++ V1Scheduler.new_block_ids d) (s_min_tokens x) (s_generator x) (s_bad_words x)
    (s_member x) (s_logprobs x) (s_prompt_logprobs x).

(** What the update of a slot changes. *)
Record advanced (i : nat) (x : slot) b b' : Prop := Advanced {
  w_same : b' = InputBatch.with_block_table (InputBatch.block_table b')
             (InputBatch.with_ints (InputBatch.ints b') (InputBatch.with_token_ids (InputBatch.token_ids_cpu b') b));
  w_ints : forall c, InputBatch.ints b' c = <[i := s_int x c]> (InputBatch.ints b c);
  w_tokens : exists row, InputBatch.token_ids_cpu b' = <[i := row]> (InputBatch.token_ids_cpu b) /\
    length row = m /\ holds row (s_tokens x);
  w_shape : WorkerBlockTable.shaped n w (InputBatch.block_table b');
  w_blocks : WorkerBlockTable.lists (InputBatch.block_table b') i (s_blocks x);
  w_other_blocks : forall j l, j <> i -> WorkerBlockTable.lists (InputBatch.block_table b) j l ->
    WorkerBlockTable.lists (InputBatch.block_table b') j l;
}.

Lemma upd_id {A} (l : list A) i (a : A) : l !! i = Some a -> l = <[i := a]> l.
Proof. intros H. symmetry. by apply list_insert_id. Qed.

Lemma update_slot_runs X b i x row d spec : batch_ok n m w X b -> X !! i = Some x ->
  InputBatch.token_ids_cpu b !! i = Some row -> 0 <= V1Scheduler.num_computed_tokens d ->
  (Z.to_nat (V1Scheduler.num_computed_tokens d) + length (V1Scheduler.new_token_ids d) + length spec <= m)%nat ->
  (length (s_blocks x) + length (V1Scheduler.new_block_ids d) <= w)%nat ->
  meets (update_slot spec d i) b (fun _ b' => advanced i (advance x row d spec) b b').
Proof.
  intros Hb Hx Hrow Hc Hm Hw. pose proof (b_slots _ _ _ _ _ Hb i x Hx) as O.
  pose proof (slot_lt X b i x Hb Hx) as Hi. pose proof (b_max _ _ _ _ _ Hb) as Hmax.
  pose proof (b_sized _ _ _ _ _ Hb) as [Z1 Z2 Z3 Z4 Z5 Z6 Z7].
  assert (Hin : forall c, (i < length (InputBatch.ints b c))%nat) by (intros c; rewrite Z2; lia).
  assert (Hlen : length row = m).
  { apply (proj1 (Forall_forall _ _) Z5). by eapply list_elem_of_lookup_2. }
  pose proof (o_int _ _ _ O) as Hints. pose proof (o_blocks _ _ _ O) as Hblocks.
  destruct d as [id res new blocks c]. unfold update_slot, advance. cbn [V1Scheduler.num_computed_tokens
    V1Scheduler.new_token_ids V1Scheduler.new_block_ids] in *.
  destruct (Z_of_nat_complete c Hc) as [k ->]. rewrite Nat2Z.id in *. clear Hb O Hx Hc.
  destruct b as [mr ml vs ri rx tk I0 R0 bt G mt li lr gs nl np lb am bw ro sm].
  cbn [InputBatch.ints InputBatch.token_ids_cpu InputBatch.block_table InputBatch.req_ids] in *.
  store_column. eapply meets_bind; [apply on_table_ok,
    (WorkerBlockTable.append_row_ok (n := n) (w := w) _ i (s_blocks x)); [exact Z7|exact Hblocks|exact Hw]|].
  intros [] b1 (T & -> & HT & HTi & HTo & _). fields.
  apply (meets_store_slice InputBatch.tokens i k row new); [exact Hrow|lia|]. tidy.
  set (row1 := take k row ++ new ++ drop (k + length new) row).
  assert (Hl1 : length row1 = m) by (unfold row1; rewrite set_slice_length; lia).
  assert (Hh1 : holds row1 (take k row ++ new)).
  { pose proof (holds_write row (take k row) new k (holds_prefix row k)) as H.
    rewrite length_take, take_take, Nat.min_id in H. apply H. lia. }
  store_column. destruct spec as [|t0 spec0] eqn:Es.
  - apply meets_last. store_column. apply meets_ret. split; tidy; try done.
    + intros c. destruct c; by_name; try (by apply upd_id); try done. cbn [length]. by rewrite Z.add_0_r.
    + exists row1. rewrite app_nil_r. done.
  - rewrite <- Es in *. clear t0 spec0 Es.
    replace (Z.of_nat k + Z.of_nat (length new)) with (Z.of_nat (k + length new)) by lia.
    apply (meets_store_slice InputBatch.tokens i (k + length new) row1 spec); [|lia|].
    { tidy. apply list_lookup_insert_eq. by eapply lookup_lt_Some. }
    tidy. set (row2 := take (k + length new) row1 ++ spec ++ drop (k + length new + length spec) row1).
    assert (Hl2 : length row2 = m) by (unfold row2; rewrite set_slice_length; lia).
    assert (Hh2 : holds row2 (take k row ++ new ++ spec)).
    { pose proof (holds_write row1 _ spec (k + length new) Hh1) as H. rewrite app_assoc.
      rewrite (take_ge (take k row ++ new)) in H by (rewrite length_app, length_take; lia).
      apply H. rewrite length_app, length_take. lia. }
    apply meets_last. store_column. apply meets_ret. split; tidy; try done.
    + intros c. destruct c; by_name; try (by apply upd_id); try done; f_equal; lia.
    + exists row2. by rewrite list_insert_insert_eq.
Qed.

Lemma advanced_ok X b b' i x row d spec : batch_ok n m w X b -> X !! i = Some x ->
  0 <= V1Scheduler.num_computed_tokens d -> (Z.to_nat (V1Scheduler.num_computed_tokens d) <= length row)%nat ->
  advanced i (advance x row d spec) b b' -> batch_ok n m w (<[i := advance x row d spec]> X) b'.
Proof.
  intros Hb Hx Hc Hrow [Hsame HI (r & HT & Hr & Hh) Hsh HB HBo].
  pose proof (slot_lt X b i x Hb Hx) as Hi. pose proof (b_max _ _ _ _ _ Hb) as Hmax.
  pose proof (b_sized _ _ _ _ _ Hb) as [Z1 Z2 Z3 Z4 Z5 Z6 Z7].
  pose proof Hb as [B1 B2 B3 B4 B5 B6 B7 B8 B9 B10 B11]. set (x' := advance x row d spec) in *.
  rewrite Hsame. clear Hsame. revert HI HT Hsh HB HBo.
  generalize (InputBatch.ints b') (InputBatch.token_ids_cpu b') (InputBatch.block_table b').
  clear b'. intros I T BT HI HT Hsh HB HBo.
  destruct b as [mr ml vs ri rx tk I0 R0 bt G mt li lr gs nl np lb am bw ro sm].
  cbn [InputBatch.ints InputBatch.token_ids_cpu InputBatch.block_table] in *. fields.
  split; try done.
  - split; try done; fields.
    + intros c. by rewrite HI, length_insert.
    + by rewrite HT, length_insert.
    + rewrite HT. by apply Forall_insert.
  - intros j y Hy. destruct (decide (i = j)) as [<-|Hij].
    + rewrite lookup_insert_eq in Hy. injection Hy as <-. destruct (B4 i x Hx). split; fields; try done.
      * intros c. rewrite HI. apply list_lookup_insert_eq. rewrite Z2. lia.
      * unfold x', advance. cbn [s_int s_tokens]. rewrite !length_app, length_take. lia.
      * exists r. split; [|done]. rewrite HT. apply list_lookup_insert_eq. lia.
    + rewrite lookup_insert_ne in Hy by done. destruct (B4 j y Hy). split; fields; try done.
      * intros c. by rewrite HI, list_lookup_insert_ne.
      * by rewrite HT, list_lookup_insert_ne.
      * by apply HBo.
  - intros j Hj. apply B5. destruct (decide (i = j)) as [<-|Hij]; [by rewrite lookup_insert_eq in Hj|].
    by rewrite lookup_insert_ne in Hj.
  - intros id j Hj. destruct (B6 id j Hj) as (y & Hy & Hyid). destruct (decide (i = j)) as [<-|Hij].
    + exists x'. rewrite lookup_insert_eq. split; [done|]. unfold x'. cbn. congruence.
    + exists y. by rewrite lookup_insert_ne.
Qed.

(** ** The batch as a map from requests *)

Definition content X C : Prop := forall id x, C !! id = Some x <-> exists i, X !! i = Some x /\ s_id x = id.

(** The batch holds the requests [C], and its empty slots are [E]. *)
Record open_ok b X C (E : list nat) : Prop := OpenOk {
  p_batch : batch_ok n m w X b;
  p_content : content X C;
  p_empty : forall i, i ∈ E <-> (i < length (InputBatch.req_ids b))%nat /\ X !! i = None;
  p_nodup : NoDup E;
}.

Lemma content_slot b X C E id x : open_ok b X C E -> C !! id = Some x ->
  exists i, X !! i = Some x /\ s_id x = id /\ InputBatch.req_id_to_index b !! id = Some i.
Proof.
  intros P Hx. apply (p_content _ _ _ _ P) in Hx as (i & Hi & Hid). exists i. split_and!; [done..|].
  rewrite <- Hid. apply (o_index _ _ _ (b_slots _ _ _ _ _ (p_batch _ _ _ _ P) i x Hi)).
Qed.

Lemma content_index b X C E id : open_ok b X C E ->
  is_Some (C !! id) <-> is_Some (InputBatch.req_id_to_index b !! id).
Proof.
  intros P. split.
  - intros [x Hx]. destruct (content_slot b X C E id x P Hx) as (i & _ & _ & Hi). by exists i.
  - intros [i Hi]. destruct (b_index _ _ _ _ _ (p_batch _ _ _ _ P) id i Hi) as (x & Hx & Hid).
    exists x. apply (p_content _ _ _ _ P). by exists i.
Qed.

Lemma content_none b X C E id : open_ok b X C E -> C !! id = None <-> InputBatch.req_id_to_index b !! id = None.
Proof. intros P. rewrite !eq_None_not_Some. by rewrite (content_index b X C E id P). Qed.

Lemma content_size b X C E : open_ok b X C E -> size X = size C.
Proof.
  intros P. rewrite <- (num_reqs_size X b (p_batch _ _ _ _ P)). unfold InputBatch.num_reqs.
  rewrite <- !size_dom. f_equal. apply set_eq. intros id. rewrite !elem_of_dom.
  symmetry. by apply (content_index b X C E).
Qed.

(** Together the slots are all there are. *)
Lemma open_length b X C E : open_ok b X C E -> length (InputBatch.req_ids b) = (size C + length E)%nat.
Proof.
  intros P. rewrite <- (content_size b X C E P), <- size_dom, <- (size_list_to_set (C := gset nat) E) by apply P.
  rewrite <- size_union.
  - transitivity (size (list_to_set (seq 0 (length (InputBatch.req_ids b))) : gset nat)).
    { rewrite size_list_to_set by apply NoDup_seq. by rewrite length_seq. }
    f_equal. apply set_eq. intros i.
    rewrite elem_of_union, elem_of_dom, !elem_of_list_to_set, elem_of_seq, (p_empty _ _ _ _ P).
    split.
    + intros [_ Hi]. destruct (X !! i) eqn:Ex; [left; eauto|right]. done.
    + intros [[x Hx]|[Hi _]]; [|lia]. pose proof (slot_lt X b i x (p_batch _ _ _ _ P) Hx). lia.
  - intros i Hi1 Hi2. apply elem_of_dom in Hi1 as [x Hx]. apply elem_of_list_to_set, (p_empty _ _ _ _ P) in Hi2 as [_ Hn].
    congruence.
Qed.

Lemma content_insert X C i x : content X C -> X !! i = None -> C !! s_id x = None ->
  content (<[i := x]> X) (<[s_id x := x]> C).
Proof.
  intros HC Hi Hid id y. split.
  - intros Hy. destruct (decide (id = s_id x)) as [->|Hne].
    + rewrite lookup_insert_eq in Hy. injection Hy as <-. exists i. by rewrite lookup_insert_eq.
    + rewrite lookup_insert_ne in Hy by done. apply HC in Hy as (j & Hj & Hyid). exists j.
      rewrite lookup_insert_ne by (intros ->; congruence). done.
  - intros (j & Hj & Hyid). destruct (decide (i = j)) as [<-|Hij].
    + rewrite lookup_insert_eq in Hj. injection Hj as <-. rewrite Hyid. apply lookup_insert_eq.
    + rewrite lookup_insert_ne in Hj by done.
      assert (Hy : C !! id = Some y) by (apply HC; by exists j).
      rewrite lookup_insert_ne; [done|]. intros Heq. rewrite Heq in Hid. congruence.
Qed.

Lemma content_delete b X C E i x : open_ok b X C E -> X !! i = Some x ->
  content (delete i X) (delete (s_id x) C).
Proof.
  intros P Hx id y. split.
  - intros Hy. apply lookup_delete_Some in Hy as [Hne Hy]. apply (p_content _ _ _ _ P) in Hy as (j & Hj & Hyid).
    exists j. rewrite lookup_delete_ne by (intros ->; congruence). done.
  - intros (j & Hj & Hyid). apply lookup_delete_Some in Hj as [Hij Hj].
    apply lookup_delete_Some. split.
    + intros Hid. apply Hij, (slot_unique X b i j x y (p_batch _ _ _ _ P)); [done..|congruence].
    + apply (p_content _ _ _ _ P). by exists j.
Qed.

Lemma content_replace b X C E i x y : open_ok b X C E -> X !! i = Some x -> s_id y = s_id x ->
  content (<[i := y]> X) (<[s_id x := y]> C).
Proof.
  intros P Hx Hid. rewrite <- Hid.
  rewrite <- (insert_delete_eq X i y), <- (insert_delete_eq C (s_id y) y). apply content_insert.
  - rewrite Hid. by eapply content_delete.
  - apply lookup_delete_eq.
  - apply lookup_delete_eq.
Qed.

(** ** Requests leave the batch *)

(** The row of tokens of a request in the batch. *)
Definition row_of b (id : string) : option (list Z) :=
  i ← InputBatch.req_id_to_index b !! id; InputBatch.token_ids_cpu b !! i.

Lemma remove_one_ok b X C E id x : open_ok b X C E -> C !! id = Some x ->
  exists i b' X', InputBatch.remove_request id b = (Ok (Some i), b') /\ open_ok b' X' (delete id C) (E ++ [i]) /\
    InputBatch.vocab_size b' = InputBatch.vocab_size b /\ InputBatch.token_ids_cpu b' = InputBatch.token_ids_cpu b /\
    InputBatch.req_id_to_index b' = delete id (InputBatch.req_id_to_index b).
Proof.
  intros P Hx. destruct (content_slot b X C E id x P Hx) as (i & Hi & <- & _).
  pose proof (slot_lt X b i x (p_batch _ _ _ _ P) Hi) as Hlt.
  pose proof (remove_request_runs X b i x (p_batch _ _ _ _ P) Hi) as Hm.
  apply meets_run in Hm as (r & b' & Hrun & -> & D). exists i, b', (delete i X).
  split_and!; [done| |apply (e_limits _ _ _ _ D)|apply (e_tokens _ _ _ _ D)|apply (e_index _ _ _ _ D)].
  split.
  - by eapply emptied_ok; [apply P| |].
  - by eapply content_delete.
  - intros j. rewrite elem_of_app, list_elem_of_singleton, (p_empty _ _ _ _ P), (e_ids _ _ _ _ D), length_insert.
    rewrite lookup_delete_None. split.
    + intros [[Hj Hn]|Heq]; [by split; [|right]|subst j; by split; [|left]].
    + intros [Hj [Heq|Hn]]; [by right|by left].
  - apply NoDup_app. split_and!; [apply P| |apply NoDup_singleton].
    intros j Hj Heq%list_elem_of_singleton. subst j. apply (p_empty _ _ _ _ P) in Hj as [_ Hn]. congruence.
Qed.

Lemma on_batch_run {A} (f : M InputBatch.t A) s a b' : f (input_batch s) = (Ok a, b') ->
  on_batch f s = (Ok a, with_batch b' s).
Proof. intros H. unfold on_batch. by rewrite H. Qed.

Lemma remove_all_ok check : forall l s X C E, open_ok (input_batch s) X C E -> NoDup l ->
  (check = true -> forall id, id ∈ l -> is_Some (C !! id)) ->
  meets (remove_all check l) s (fun removed s' => exists b' X',
    s' = with_batch b' s /\ open_ok b' X' (foldr delete C l) (E ++ removed) /\
    InputBatch.vocab_size b' = InputBatch.vocab_size (input_batch s) /\
    (forall id, id ∉ l -> row_of b' id = row_of (input_batch s) id)).
Proof.
  intros l. unfold remove_all. induction l as [|id l IH]; intros s X C E P Hnd Hc.
  { exists (input_batch s), X. rewrite app_nil_r. cbn. by destruct s. }
  apply NoDup_cons in Hnd as [Hid Hnd].
  assert (Hdel : foldr delete C (id :: l) = foldr delete (delete id C) l).
  { cbn. clear. revert C. induction l as [|a l IH]; intros C; cbn; [done|]. by rewrite delete_delete, IH. }
  rewrite Hdel. cbn [map_each].
  assert (Hone : exists rem b1 X1, remove_one check id s = (Ok rem, with_batch b1 s) /\
    open_ok b1 X1 (delete id C) (E ++ rem) /\ InputBatch.vocab_size b1 = InputBatch.vocab_size (input_batch s) /\
    (forall id', id' <> id -> row_of b1 id' = row_of (input_batch s) id')).
  { unfold remove_one. destruct (C !! id) as [x|] eqn:Hx.
    - destruct (remove_one_ok _ X C E id x P Hx) as (i & b1 & X1 & Hrun & P1 & Hv1 & Ht1).
      exists [i], b1, X1. rewrite (bind_step _ _ _ _ _ (on_batch_run _ _ _ _ Hrun)).
      split_and!; [by destruct check|done|done|]. destruct Ht1 as [Ht1 Hidx]. intros id' Hne.
      unfold row_of. rewrite Hidx, Ht1. by rewrite lookup_delete_ne.
    - exists [], (input_batch s), X. rewrite delete_id, app_nil_r by done.
      assert (check = false) as -> by (destruct check; [|done]; destruct (Hc eq_refl id); [left|congruence]).
      split_and!; [|done..]. erewrite bind_step; [|apply on_batch_run, remove_unknown; by apply (content_none _ X C E)].
      done. }
  destruct Hone as (rem & b1 & X1 & Hrun & P1 & Hv1 & Ht1).
  apply meets_assoc. eapply meets_step; [exact Hrun|]. apply meets_assoc.
  specialize (IH (with_batch b1 s) X1 (delete id C) (E ++ rem) P1 Hnd).
  apply meets_run in IH as (removed & s' & Hrun' & b' & X' & -> & P' & Hv' & Ht').
  2: { intros Hch a Ha. rewrite lookup_delete_ne by (intros ->; done). apply Hc; [done|by right]. }
  apply bind_ok in Hrun' as (rems & s1 & Hrun' & [= <- ->]).
  eapply meets_step; [exact Hrun'|]. exists b', X'. cbn [concat].
  split_and!; [by destruct s|by rewrite app_assoc|by rewrite Hv'|].
  intros id' Hni. rewrite Ht' by set_solver. apply Ht1. set_solver.
Qed.

(** ** The requests the runner knows *)

(** Every known request has a list of output tokens of its own. *)
Record known (s : t) : Prop := Known {
  k_id : forall id r, requests s !! id = Some r -> cached_req_id r = id;
  k_list : forall id r, requests s !! id = Some r -> is_Some (output_lists s !! cached_output_token_ids r);
  k_fresh : forall a, is_Some (output_lists s !! a) -> (a < next_address s)%nat;
  k_own : forall id id' r r', requests s !! id = Some r -> requests s !! id' = Some r' ->
    cached_output_token_ids r = cached_output_token_ids r' -> id = id';
}.

(** The output tokens of a request. *)
Definition output_of (s : t) (r : CachedRequestState) : list Z := default [] (output_lists s !! cached_output_token_ids r).

(** Slot [x] is one of request [r], whatever tokens it shows. *)
Record slot_for (vocab : Z) (r : CachedRequestState) (x : slot) : Prop := SlotFor {
  f_id : s_id x = cached_req_id r;
  f_output : s_output x = cached_output_token_ids r;
  f_int : forall c, c <> InputBatch.NUM_TOKENS -> c <> InputBatch.NUM_TOKENS_NO_SPEC ->
    s_int x c = s_int (slot_of vocab r []) c;
  f_real : s_real x = s_real (slot_of vocab r []);
  f_blocks : s_blocks x = cached_block_ids r;
  f_min_tokens : s_min_tokens x = s_min_tokens (slot_of vocab r []);
  f_generator : s_generator x = cached_generator r;
  f_bad_words : s_bad_words x = s_bad_words (slot_of vocab r []);
  f_member : s_member x = s_member (slot_of vocab r []);
  f_logprobs : s_logprobs x = s_logprobs (slot_of vocab r []);
  f_prompt_logprobs : s_prompt_logprobs x = s_prompt_logprobs (slot_of vocab r []);
}.

Lemma slot_of_for vocab r o : slot_for vocab r (slot_of vocab r o).
Proof. split; try done. intros c Hc Hc'. by destruct c. Qed.

Lemma advance_for vocab r x row d spec : slot_for vocab r x ->
  slot_for vocab (cached_with (V1Scheduler.num_computed_tokens d) (cached_block_ids r ++ V1Scheduler.new_block_ids d) r)
    (advance x row d spec).
Proof.
  intros [F1 F2 F3 F4 F5 F6 F7 F8 F9 F10 F11]. split; try done.
  - intros c Hc Hc'. destruct c; try done; apply F3; done.
  - cbn. by rewrite F5.
Qed.

(** What the list of output tokens becomes with a message. *)
Definition heard d (r : CachedRequestState) (o : list Z) : list Z :=
  let new := V1Scheduler.new_token_ids d in
  let num_new_tokens := V1Scheduler.num_computed_tokens d + Z.of_nat (length new)
    - (Z.of_nat (length (cached_prompt_token_ids r)) + Z.of_nat (length o)) in
  if num_new_tokens =? 1 then o ++ [default 0 (last new)]
  else if 0 <? num_new_tokens then o ++ py_slice new (- num_new_tokens) (Z.of_nat (length new)) else o.

(** Its blocks. *)
Definition given_blocks d (r : CachedRequestState) : list Z :=
  if V1Scheduler.resumed_from_preemption d then V1Scheduler.new_block_ids d
  else cached_block_ids r ++ V1Scheduler.new_block_ids d.

Definition told d (r : CachedRequestState) : CachedRequestState :=
  cached_with (V1Scheduler.num_computed_tokens d) (given_blocks d r) r.

Lemma py_index_newest (l : list Z) : l <> [] -> py_index l (-1) = Ok (default 0 (last l)).
Proof.
  intros Hl. destruct (exists_last Hl) as (l' & a & ->). rewrite last_snoc. unfold py_index.
  rewrite length_app. cbn [length]. destruct (Z.ltb_spec (-1) 0); [|lia].
  destruct (Z.ltb_spec (-1 + Z.of_nat (length l' + 1)) 0); [lia|].
  replace (Z.to_nat (-1 + Z.of_nat (length l' + 1))) with (length l') by lia.
  rewrite lookup_app_r, Nat.sub_diag by lia. done.
Qed.

Lemma request_run s id r : requests s !! id = Some r -> request id s = (Ok r, s).
Proof. intros H. unfold request. rewrite bind_run. cbn. unfold lift. by rewrite H. Qed.

Lemma list_at_run s a o : output_lists s !! a = Some o -> list_at a s = (Ok o, s).
Proof. intros H. unfold list_at. rewrite bind_run. cbn. unfold lift. by rewrite H. Qed.

Lemma update_cached_run s d r o : requests s !! V1Scheduler.req_id d = Some r ->
  output_lists s !! cached_output_token_ids r = Some o -> V1Scheduler.new_token_ids d <> [] ->
  update_cached d s = (Ok tt,
    with_requests (<[V1Scheduler.req_id d := told d r]> (requests s))
      (with_lists (<[cached_output_token_ids r := heard d r o]> (output_lists s)) (next_address s) s)).
Proof.
  intros Hr Ho Hne. unfold update_cached. rewrite (bind_step _ _ _ _ _ (request_run _ _ _ Hr)).
  rewrite (bind_step _ _ _ _ _ (list_at_run _ _ _ Ho)). unfold heard, told, given_blocks.
  set (k := _ + _ - _). destruct (Z.eqb_spec k 1); [by rewrite py_index_newest|]. by destruct (0 <? k).
Qed.

(** ** The state of the runner, request by request *)

Record runner_inv (vocab : Z) (s : t) X C (E : list nat) : Prop := RunnerInv {
  i_open : open_ok (input_batch s) X C E;
  i_known : known s;
  i_slots : forall id x, C !! id = Some x -> exists r,
    requests s !! id = Some r /\ slot_for vocab r x /\ (length (cached_prompt_token_ids r) <= m)%nat;
  i_vocab : InputBatch.vocab_size (input_batch s) = vocab;
}.

(** What the runner knows of a request, the slot it holds and the row it shows. *)
Definition view (s : t) C (id : string) : option (CachedRequestState * list Z) * option slot * option (list Z) :=
  (r ← requests s !! id; Some (r, output_of s r), C !! id, row_of (input_batch s) id).

Lemma update_cached_known s d r o : known s -> requests s !! V1Scheduler.req_id d = Some r ->
  known (with_requests (<[V1Scheduler.req_id d := told d r]> (requests s))
      (with_lists (<[cached_output_token_ids r := o]> (output_lists s)) (next_address s) s)).
Proof.
  intros [K1 K2 K3 K4] Hr. set (id := V1Scheduler.req_id d) in *.
  assert (Hold : forall id' r', <[id := told d r]> (requests s) !! id' = Some r' ->
    exists r0, requests s !! id' = Some r0 /\ cached_output_token_ids r' = cached_output_token_ids r0 /\
      cached_req_id r' = cached_req_id r0).
  { intros id' r' H. destruct (decide (id = id')) as [<-|Hne].
    - rewrite lookup_insert_eq in H. injection H as <-. by exists r.
    - rewrite lookup_insert_ne in H by done. by exists r'. }
  split; cbn.
  - intros id' r' H. destruct (Hold id' r' H) as (r0 & H0 & _ & ->). by apply K1.
  - intros id' r' H. destruct (Hold id' r' H) as (r0 & H0 & -> & _).
    destruct (decide (cached_output_token_ids r = cached_output_token_ids r0)) as [->|Hne];
      [by rewrite lookup_insert_eq|rewrite lookup_insert_ne by done; by eapply K2].
  - intros a Ha. apply K3. destruct (decide (cached_output_token_ids r = a)) as [<-|Hne]; [by eapply K2|].
    by rewrite lookup_insert_ne in Ha.
  - intros id1 id2 r1 r2 H1 H2 Heq. destruct (Hold id1 r1 H1) as (r1' & H1' & E1 & _), (Hold id2 r2 H2) as (r2' & H2' & E2 & _).
    apply (K4 id1 id2 r1' r2'); congruence.
Qed.

Lemma known_batch b s : known s -> known (with_batch b s).
Proof. intros [K1 K2 K3 K4]. by split. Qed.

(** The list of another request is not touched. *)
Lemma output_of_other s id id' r r' o : known s -> requests s !! id = Some r -> requests s !! id' = Some r' -> id <> id' ->
  output_of (with_lists (<[cached_output_token_ids r := o]> (output_lists s)) (next_address s) s) r' = output_of s r'.
Proof.
  intros K Hr Hr' Hne. unfold output_of; cbn. rewrite lookup_insert_ne; [done|].
  intros H. by apply Hne, (k_own s K id id' r r').
Qed.

(** What a message must satisfy to update a request. *)
Definition updatable C (spec : list Z) d (r : CachedRequestState) : Prop :=
  V1Scheduler.new_token_ids d <> [] /\
  (is_Some (C !! V1Scheduler.req_id d) ->
     V1Scheduler.resumed_from_preemption d = false /\ 0 <= V1Scheduler.num_computed_tokens d /\
     (Z.to_nat (V1Scheduler.num_computed_tokens d) + length (V1Scheduler.new_token_ids d) + length spec <= m)%nat /\
     (length (cached_block_ids r) + length (V1Scheduler.new_block_ids d) <= w)%nat).

Lemma update_running_ok vocab s X C E spec d r : runner_inv vocab s X C E ->
  let id := V1Scheduler.req_id d in
  let sp := default [] (spec !! id) in
  requests s !! id = Some r -> updatable C sp d r ->
  meets (update_request spec d) s (fun back s' => exists X' C', runner_inv vocab s' X' C' E /\
    back = match C !! id with Some _ => [] | None => [id] end /\
    requests s' !! id = Some (told d r) /\ output_of s' (told d r) = heard d r (output_of s r) /\
    C' !! id = (x ← C !! id; row ← row_of (input_batch s) id; Some (advance x row d sp)) /\
    (forall id', id' <> id -> view s' C' id' = view s C id') /\ encoder_cache s' = encoder_cache s).
Proof.
  intros [P K HS HV] id sp Hr [Hnew Hok]. destruct (k_list s K id r Hr) as [o Ho].
  assert (Hout : output_of s r = o) by (unfold output_of; by rewrite Ho). rewrite Hout.
  unfold update_request. fold id.
  eapply meets_step; [by apply (update_cached_run s d r o)|]. apply meets_get. fold id.
  set (s1 := with_requests _ _). cbn [input_batch s1 with_requests with_lists].
  pose proof (update_cached_known s d r (heard d r o) K Hr) as K1. fold s1 in K1.
  assert (Hr1 : requests s1 !! id = Some (told d r)) by apply lookup_insert_eq.
  assert (Ho1 : output_of s1 (told d r) = heard d r o) by (unfold output_of; cbn; by rewrite lookup_insert_eq).
  assert (Hother : forall id', id' <> id -> requests s1 !! id' = requests s !! id' /\
    forall r', requests s !! id' = Some r' -> output_of s1 r' = output_of s r').
  { intros id' Hne. split; [cbn; by rewrite lookup_insert_ne|]. intros r' Hr'. by apply (output_of_other s id id'). }
  assert (Hview : forall b C' id', id' <> id -> C' !! id' = C !! id' -> row_of b id' = row_of (input_batch s) id' ->
    view (with_batch b s1) C' id' = view s C id').
  { intros b C' id' Hne HC Hrow. unfold view. destruct (Hother id' Hne) as [Hreq Hl]. rewrite HC. cbn [input_batch with_batch].
    rewrite Hrow. change (requests (with_batch b s1)) with (requests s1). rewrite Hreq.
    destruct (requests s !! id') as [r'|] eqn:E'; [|done]. cbn.
    change (output_of (with_batch b s1) r') with (output_of s1 r'). by rewrite Hl. }
  destruct (C !! id) as [x|] eqn:Hx.
  - destruct (content_slot _ X C E id x P Hx) as (i & Hi & Hid & Hidx). rewrite Hidx.
    destruct (Hok ltac:(eauto)) as (Hres & Hc & Hm & Hw).
    destruct (HS id x Hx) as (r' & Hr' & Hfor & Hp). rewrite Hr in Hr'. injection Hr' as <-.
    pose proof (slot_lt X _ i x (p_batch _ _ _ _ P) Hi) as Hlt.
    destruct (row_at _ i (b_sized _ _ _ _ _ (p_batch _ _ _ _ P))) as (row & Hrow & Hlen).
    { pose proof (b_max _ _ _ _ _ (p_batch _ _ _ _ P)). lia. }
    assert (Hrow_of : row_of (input_batch s) id = Some row) by (unfold row_of; rewrite Hidx; exact Hrow).
    pose proof (update_slot_runs X (input_batch s) i x row d sp (p_batch _ _ _ _ P) Hi Hrow Hc Hm) as Hrun.
    rewrite (f_blocks _ _ _ Hfor) in Hrun. apply meets_run in Hrun as ([] & b' & Hrun & D); [|exact Hw].
    eapply meets_step; [apply on_batch_run; exact Hrun|]. apply meets_ret.
    exists (<[i := advance x row d sp]> X), (<[id := advance x row d sp]> C).
    pose proof (advanced_ok X _ b' i x row d sp (p_batch _ _ _ _ P) Hi Hc ltac:(lia) D) as Hb'.
    assert (Htold : told d r = cached_with (V1Scheduler.num_computed_tokens d)
      (cached_block_ids r ++ V1Scheduler.new_block_ids d) r) by (unfold told, given_blocks; by rewrite Hres).
    pose proof (w_same _ _ _ _ D) as Hsame.
    assert (Hids : InputBatch.req_ids b' = InputBatch.req_ids (input_batch s)) by (by rewrite Hsame).
    assert (Hindex : InputBatch.req_id_to_index b' = InputBatch.req_id_to_index (input_batch s)) by (by rewrite Hsame).
    split_and!; [|done|exact Hr1|exact Ho1| | |done].
    + split; [|by apply known_batch| |].
      * split; [exact Hb'| | |apply P].
        -- rewrite <- Hid. apply (content_replace (input_batch s) X C E i x); [done..|]. done.
        -- intros j. cbn. rewrite Hids, (p_empty _ _ _ _ P). destruct (decide (i = j)) as [<-|Hij].
           ++ rewrite lookup_insert_eq, Hi. by split; intros [_ [=]].
           ++ by rewrite lookup_insert_ne.
      * intros id' y Hy. destruct (decide (id' = id)) as [->|Hne].
        -- rewrite lookup_insert_eq in Hy. injection Hy as <-. exists (told d r).
           split_and!; [exact Hr1| |exact Hp]. rewrite Htold. by apply advance_for.
        -- rewrite lookup_insert_ne in Hy by done. destruct (HS id' y Hy) as (r' & Hr' & F).
           exists r'. split; [|exact F]. cbn. by rewrite lookup_insert_ne.
      * cbn. rewrite Hsame. exact HV.
    + rewrite lookup_insert_eq, Hrow_of. done.
    + intros id' Hne. apply Hview; [done|by rewrite lookup_insert_ne|]. unfold row_of. rewrite Hindex.
      destruct (InputBatch.req_id_to_index (input_batch s) !! id') as [j|] eqn:Hj; [|done]. cbn.
      destruct (w_tokens _ _ _ _ D) as (row' & -> & _). rewrite list_lookup_insert_ne; [done|]. intros <-.
      destruct (b_index _ _ _ _ _ (p_batch _ _ _ _ P) id' i Hj) as (y & Hy & Hyid). congruence.
  - assert (Hidx : InputBatch.req_id_to_index (input_batch s) !! id = None) by (by apply (content_none _ X C E)).
    rewrite Hidx. apply meets_ret. exists X, C. split_and!; [|done|exact Hr1|exact Ho1|by rewrite Hx| |done].
    + split; [exact P|exact K1| |exact HV]. intros id' y Hy. destruct (HS id' y Hy) as (r' & Hr' & F). exists r'.
      split; [|exact F]. cbn. rewrite lookup_insert_ne; [done|]. intros Heq. rewrite Heq in Hx. congruence.
    + intros id' Hne. assert (Hs1 : s1 = with_batch (input_batch s) s1) by done. rewrite Hs1. by apply Hview.
Qed.

(** What a message makes of what the runner knows of its request. *)
Definition updated (spec : pydict string (list Z)) d
    (before after : option (CachedRequestState * list Z) * option slot * option (list Z)) : Prop :=
  exists r o, before.1.1 = Some (r, o) /\ after.1.1 = Some (told d r, heard d r o) /\
    after.1.2 = (x ← before.1.2; row ← before.2; Some (advance x row d (default [] (spec !! V1Scheduler.req_id d)))).

Lemma filter_ext_in {A} (P Q : A -> Prop) `{!forall a, Decision (P a), !forall a, Decision (Q a)} (l : list A) :
  (forall a, a ∈ l -> P a <-> Q a) -> filter P l = filter Q l.
Proof.
  induction l as [|a l IH]; intros Hiff; [done|]. rewrite !filter_cons. pose proof (Hiff a ltac:(left)) as Ha.
  rewrite IH by (intros; apply Hiff; by right). destruct (decide (P a)), (decide (Q a)); naive_solver.
Qed.

Lemma update_all_ok vocab spec E : forall l s X C, runner_inv vocab s X C E ->
  NoDup (map V1Scheduler.req_id l) ->
  (forall d, d ∈ l -> exists r, requests s !! V1Scheduler.req_id d = Some r /\
     updatable C (default [] (spec !! V1Scheduler.req_id d)) d r) ->
  meets (map_each l (update_request spec)) s (fun back s' => exists X' C', runner_inv vocab s' X' C' E /\
    concat back = filter (fun id => C !! id = None) (map V1Scheduler.req_id l) /\
    (forall d, d ∈ l -> updated spec d (view s C (V1Scheduler.req_id d)) (view s' C' (V1Scheduler.req_id d))) /\
    (forall id, id ∉ map V1Scheduler.req_id l -> view s' C' id = view s C id) /\ encoder_cache s' = encoder_cache s).
Proof.
  induction l as [|d l IH]; intros s X C I Hnd Hl.
  { exists X, C. split_and!; try done. intros d Hd. by apply elem_of_nil in Hd. }
  cbn [map] in Hnd. apply NoDup_cons in Hnd as [Hid Hnd]. set (id := V1Scheduler.req_id d) in *.
  destruct (Hl d ltac:(left)) as (r & Hr & Hup). cbn [map_each].
  eapply meets_bind; [apply (update_running_ok vocab s X C E spec d r I Hr Hup)|].
  intros back1 s1 (X1 & C1 & I1 & -> & Hr1 & Ho1 & HC1 & Hview1 & He1).
  assert (Hsame : forall d', d' ∈ l -> view s1 C1 (V1Scheduler.req_id d') = view s C (V1Scheduler.req_id d')).
  { intros d' Hd'. apply Hview1. intros Heq. apply Hid. unfold id. rewrite <- Heq. by apply list_elem_of_fmap_2. }
  eapply meets_bind; [apply (IH s1 X1 C1 I1 Hnd)|].
  { intros d' Hd'. destruct (Hl d' ltac:(by right)) as (r' & Hr' & Hup').
    pose proof (f_equal (fun v => v.1.1) (Hsame d' Hd')) as Hv1. cbn in Hv1.
    pose proof (f_equal (fun v => v.1.2) (Hsame d' Hd')) as Hv2. cbn in Hv2.
    rewrite Hr' in Hv1. destruct (requests s1 !! V1Scheduler.req_id d') as [r1|] eqn:Hr1'; [|discriminate].
    cbn in Hv1. injection Hv1 as -> _. exists r'. split; [done|].
    unfold updatable in *. by rewrite Hv2. }
  intros back s2 (X2 & C2 & I2 & Hback & Hup2 & Hview2 & He2). apply meets_ret. exists X2, C2. cbn [map concat].
  split_and!; [done| | | |congruence].
  - rewrite Hback, filter_cons. fold id.
    assert (Hf : filter (fun id' => C1 !! id' = None) (map V1Scheduler.req_id l) =
                 filter (fun id' => C !! id' = None) (map V1Scheduler.req_id l)).
    { apply filter_ext_in. intros id' Hid'. apply list_elem_of_fmap in Hid' as (d' & -> & Hd').
      pose proof (f_equal (fun v => v.1.2) (Hsame d' Hd')) as Hv. cbn in Hv. by rewrite Hv. }
    rewrite Hf. destruct (C !! id); [by rewrite decide_False|by rewrite decide_True].
  - intros d' Hd'. apply elem_of_cons in Hd' as [->|Hd'].
    + fold id. rewrite (Hview2 id Hid). exists r, (output_of s r). unfold view. cbn.
      fold id in Hr, Hr1. rewrite Hr, Hr1. cbn. by rewrite Ho1.
    + rewrite <- (Hsame d' Hd'). by apply Hup2.
  - intros id' Hni. rewrite Hview2 by set_solver. apply Hview1. set_solver.
Qed.

(** ** New requests *)

(** The state of a request that the runner hears of for the first time. *)
Record fresh_request (p : Params.t) (d : V1Scheduler.NewRequestData) (r : CachedRequestState) : Prop := FreshRequest {
  n_id : cached_req_id r = V1Scheduler.new_req_id d;
  n_prompt : cached_prompt_token_ids r = V1Scheduler.new_prompt_token_ids d;
  n_params : cached_sampling_params r = p;
  n_blocks : cached_block_ids r = V1Scheduler.new_req_block_ids d;
  n_computed : cached_num_computed_tokens r = V1Scheduler.new_req_num_computed_tokens d;
  n_lora : cached_lora_request r = V1Scheduler.new_lora_request d;
  n_generator : is_Some (cached_generator r) <-> sampling_type p = RANDOM_SEED;
}.

Lemma add_new_request s (d : V1Scheduler.NewRequestData) g a p : known s -> (next_address s <= a)%nat ->
  let id := V1Scheduler.new_req_id d in
  let r := CachedState id (V1Scheduler.new_prompt_token_ids d) (V1Scheduler.new_mm_inputs d)
      (V1Scheduler.new_mm_positions d) p g (V1Scheduler.new_req_block_ids d)
      (V1Scheduler.new_req_num_computed_tokens d) a (V1Scheduler.new_lora_request d) in
  let s' := with_requests (<[id := r]> (requests s)) (with_lists (<[a := []]> (output_lists s)) (S a) s) in
  known s' /\ output_of s' r = [] /\ forall C id', id' <> id -> view s' C id' = view s C id'.
Proof.
  intros [K1 K2 K3 K4] Ha id r s'.
  assert (Hold : forall id' r', requests s !! id' = Some r' -> (cached_output_token_ids r' < next_address s)%nat).
  { intros id' r' Hr'. apply K3. by eapply K2. }
  split_and!.
  - split; cbn.
    + intros id' r' Hr'. destruct (decide (id = id')) as [<-|Hne].
      * rewrite lookup_insert_eq in Hr'. by injection Hr' as <-.
      * rewrite lookup_insert_ne in Hr' by done. by apply K1.
    + intros id' r' Hr'. destruct (decide (id = id')) as [<-|Hne].
      * rewrite lookup_insert_eq in Hr'. injection Hr' as <-. cbn. by rewrite lookup_insert_eq.
      * rewrite lookup_insert_ne in Hr' by done. pose proof (Hold id' r' Hr').
        rewrite lookup_insert_ne by lia. by eapply K2.
    + intros a' Ha'. destruct (decide (a = a')) as [<-|Hne]; [lia|]. rewrite lookup_insert_ne in Ha' by done.
      apply K3 in Ha'. lia.
    + intros id1 id2 r1 r2 H1 H2 Heq.
      destruct (decide (id = id1)) as [<-|Hne1], (decide (id = id2)) as [<-|Hne2]; [done| | |].
      * rewrite lookup_insert_eq in H1. rewrite lookup_insert_ne in H2 by done. injection H1 as <-.
        pose proof (Hold id2 r2 H2). cbn in Heq. lia.
      * rewrite lookup_insert_eq in H2. rewrite lookup_insert_ne in H1 by done. injection H2 as <-.
        pose proof (Hold id1 r1 H1). cbn in Heq. lia.
      * rewrite lookup_insert_ne in H1, H2 by done. by apply (K4 id1 id2 r1 r2).
  - unfold output_of. cbn. by rewrite lookup_insert_eq.
  - intros C id' Hne. unfold view. cbn. rewrite lookup_insert_ne by done.
    destruct (requests s !! id') as [r'|] eqn:Hr'; [|done]. cbn. unfold output_of. cbn.
    pose proof (Hold id' r' Hr'). by rewrite lookup_insert_ne by lia.
Qed.

Lemma add_new_ok vocab params_of s X C E (d : V1Scheduler.NewRequestData) : runner_inv vocab s X C E -> C !! V1Scheduler.new_req_id d = None ->
  meets (add_new params_of d) s (fun id s' => id = V1Scheduler.new_req_id d /\ runner_inv vocab s' X C E /\
    (exists r, requests s' !! id = Some r /\ fresh_request (params_of d) d r /\ output_of s' r = []) /\
    (forall id', id' <> id -> view s' C id' = view s C id') /\ encoder_cache s' = encoder_cache s).
Proof.
  intros [P K HS HV] Hid. unfold add_new.
  assert (Hgen : exists g a, (next_address s <= a)%nat /\
    (if bool_decide (sampling_type (params_of d) = RANDOM_SEED) then g ← fresh; mret (Some g) else mret None) s =
      (Ok g, with_lists (output_lists s) a s) /\ (is_Some g <-> sampling_type (params_of d) = RANDOM_SEED)).
  { case_bool_decide as Hs.
    - exists (Some (next_address s)), (S (next_address s)). split_and!; [lia|done|by split].
    - exists None, (next_address s). split_and!; [lia|by destruct s|]. split; [by intros []|done]. }
  destruct Hgen as (g & a & Ha & Hrun & Hg). eapply meets_step; [exact Hrun|].
  eapply meets_step; [reflexivity|]. apply meets_modify, meets_modify, meets_ret.
  cbn [with_lists next_address output_lists requests with_requests].
  pose proof (add_new_request s d g a (params_of d) K Ha) as (K' & Ho & Hview).
  split_and!; [done| | |exact (Hview C)|done].
  - split; [exact P|exact K'| |exact HV]. intros id' y Hy. destruct (HS id' y Hy) as (r & Hr & F).
    exists r. split; [|exact F]. cbn. rewrite lookup_insert_ne; [done|]. intros Heq. rewrite Heq in Hid. congruence.
  - eexists. split; [apply lookup_insert_eq|]. split; [|exact Ho]. by split.
Qed.

Lemma add_all_new_ok vocab params_of E : forall l s X C, runner_inv vocab s X C E ->
  NoDup (map V1Scheduler.new_req_id l) -> (forall d : V1Scheduler.NewRequestData, d ∈ l -> C !! V1Scheduler.new_req_id d = None) ->
  meets (map_each l (add_new params_of)) s (fun new s' => new = map V1Scheduler.new_req_id l /\
    runner_inv vocab s' X C E /\
    (forall d : V1Scheduler.NewRequestData, d ∈ l -> exists r, requests s' !! V1Scheduler.new_req_id d = Some r /\
       fresh_request (params_of d) d r /\ output_of s' r = []) /\
    (forall id, id ∉ map V1Scheduler.new_req_id l -> view s' C id = view s C id) /\ encoder_cache s' = encoder_cache s).
Proof.
  induction l as [|d l IH]; intros s X C I Hnd Hl.
  { apply meets_ret. split_and!; try done. intros d Hd. by apply elem_of_nil in Hd. }
  cbn [map] in Hnd. apply NoDup_cons in Hnd as [Hid Hnd]. cbn [map_each].
  eapply meets_bind; [apply (add_new_ok vocab params_of s X C E d I), Hl; left|].
  intros id s1 (-> & I1 & (r & Hr & Hf & Ho) & Hview & He).
  eapply meets_bind; [apply (IH s1 X C I1 Hnd); intros d' Hd'; apply Hl; by right|].
  intros new s2 (-> & I2 & Hnew & Hview2 & He2). apply meets_ret. cbn [map].
  split_and!; [done|done| | |congruence].
  - intros d' Hd'. apply elem_of_cons in Hd' as [->|Hd']; [|by apply Hnew].
    pose proof (f_equal (fun v => v.1.1) (Hview2 (V1Scheduler.new_req_id d) Hid)) as Hv. cbn in Hv.
    rewrite Hr in Hv. destruct (requests s2 !! V1Scheduler.new_req_id d) as [r2|] eqn:Hr2; [|discriminate].
    cbn in Hv. injection Hv as -> Ho2. exists r. split_and!; [done|done|congruence].
  - intros id Hni. rewrite Hview2 by set_solver. apply Hview. set_solver.
Qed.

(** ** Requests join the batch *)

(** The slot for the next request: the smallest empty one, or a new one. *)
Lemma next_slot_ok b X C E : open_ok b X C E -> StronglySorted gt E -> (size C < n)%nat ->
  let i := default (InputBatch.num_reqs b) (last E) in
  (i < n)%nat /\ (i <= length (InputBatch.req_ids b))%nat /\ X !! i = None /\
  (forall b' x, length (InputBatch.req_ids b') = Nat.max (length (InputBatch.req_ids b)) (S i) ->
     forall j, j ∈ removelast E <-> (j < length (InputBatch.req_ids b'))%nat /\ <[i := x]> X !! j = None).
Proof.
  intros P Hs Hsz. pose proof (open_length b X C E P) as HL. pose proof (b_max _ _ _ _ _ (p_batch _ _ _ _ P)) as Hmax.
  assert (Hfree : forall i, (length (InputBatch.req_ids b) <= i)%nat -> X !! i = None).
  { intros i Hi. destruct (X !! i) as [x|] eqn:Hx; [|done]. pose proof (slot_lt X b i x (p_batch _ _ _ _ P) Hx). lia. }
  destruct (decide (E = [])) as [->|Hne].
  - cbn in HL. cbn [last removelast default]. cbn.
    rewrite (num_reqs_size X b (p_batch _ _ _ _ P)), (content_size b X C [] P).
    split_and!; [lia|lia|apply Hfree; lia|]. intros b' x HL' j. split; [by intros Hj%elem_of_nil|].
    intros [Hj Hn]. destruct (decide (size C = j)) as [<-|Hcj]; [by rewrite lookup_insert_eq in Hn|].
    rewrite lookup_insert_ne in Hn by done. apply (p_empty _ _ _ _ P). split; [lia|done].
  - destruct (exists_last Hne) as (E0 & e & ->). rewrite last_snoc, removelast_last. cbn [default].
    assert (He : e ∈ E0 ++ [e]) by set_solver. apply (p_empty _ _ _ _ P) in He as [He HXe].
    destruct (sorted_last E0 e Hs) as [_ Hlt]. rewrite Forall_forall in Hlt.
    split_and!; [cbn; lia|cbn; lia|done|]. intros b' x HL' j. cbn in HL'.
    assert (HL1 : length (InputBatch.req_ids b') = length (InputBatch.req_ids b)) by lia. rewrite HL1.
    destruct (decide (e = j)) as [<-|Hej].
    + cbn. rewrite lookup_insert_eq. split; [|by intros [_ ?]]. intros Hin%Hlt. lia.
    + cbn. rewrite lookup_insert_ne by done. rewrite <- (p_empty _ _ _ _ P). set_solver.
Qed.

Lemma sorted_removelast (E : list nat) : StronglySorted gt E -> StronglySorted gt (removelast E) /\ NoDup (removelast E).
Proof.
  intros Hs. assert (Hs' : StronglySorted gt (removelast E)).
  { destruct (decide (E = [])) as [->|Hne]; [done|]. destruct (exists_last Hne) as (E0 & e & ->).
    rewrite removelast_last. by apply sorted_last in Hs as [Hs _]. }
  split; [done|]. clear Hs. induction Hs' as [|e E0 _ IH Hlt]; [constructor|]. constructor; [|done].
  intros Hin. rewrite Forall_forall in Hlt. apply Hlt in Hin. lia.
Qed.

Lemma add_one_ok vocab s X C E id r : runner_inv vocab s X C E -> StronglySorted gt E -> (size C < n)%nat ->
  C !! id = None -> requests s !! id = Some r -> @addable m w vocab r (output_of s r) ->
  exists b' X', InputBatch.add_request r (output_of s r) (last E) (input_batch s) = (Ok tt, b') /\
    runner_inv vocab (with_batch b' s) X' (<[id := slot_of vocab r (output_of s r)]> C) (removelast E).
Proof.
  intros [P K HS HV] Hs Hsz Hid Hr Ha.
  pose proof (next_slot_ok _ X C E P Hs Hsz) as (Hi & Hle & HX & Hempty). set (i := default _ _) in *.
  pose proof (k_id s K id r Hr) as Hrid.
  assert (Hidx : InputBatch.req_id_to_index (input_batch s) !! cached_req_id r = None)
    by (rewrite Hrid; by apply (content_none _ X C E)).
  pose proof (add_to_batch_ok X r (output_of s r) (last E) (input_batch s) (p_batch _ _ _ _ P) Hi Hle HX Hidx) as Hrun.
  rewrite HV in Hrun. apply meets_run in Hrun as ([] & b' & Hrun & Hb' & HL & Hv); [|exact Ha].
  fold i in Hb', HL. exists b', (<[i := slot_of vocab r (output_of s r)]> X). split; [exact Hrun|].
  split; [|by apply known_batch| |exact Hv].
  - split; [exact Hb'| | |by apply sorted_removelast].
    + change id with id. rewrite <- Hrid. apply content_insert; [apply P|done|cbn; by rewrite Hrid].
    + intros j. cbn [input_batch with_batch]. by apply Hempty.
  - intros id' x Hx. destruct (decide (id = id')) as [<-|Hne].
    + rewrite lookup_insert_eq in Hx. injection Hx as <-. exists r. split_and!; [exact Hr|apply slot_of_for|].
      pose proof (a_tokens _ _ _ Ha) as Hm. rewrite length_app in Hm. lia.
    + rewrite lookup_insert_ne in Hx by done. by apply HS.
Qed.

Lemma add_all_ok vocab : forall l E s X C, runner_inv vocab s X C E -> StronglySorted gt E -> NoDup l ->
  (forall id, id ∈ l -> C !! id = None /\ exists r, requests s !! id = Some r /\ @addable m w vocab r (output_of s r)) ->
  (size C + length l <= n)%nat ->
  meets (add_all l E) s (fun E' s' => exists b' X' C', s' = with_batch b' s /\ runner_inv vocab s' X' C' E' /\
    StronglySorted gt E' /\
    (forall id r, id ∈ l -> requests s !! id = Some r -> C' !! id = Some (slot_of vocab r (output_of s r))) /\
    (forall id, id ∉ l -> C' !! id = C !! id)).
Proof.
  induction l as [|id l IH]; intros E s X C I Hs Hnd Hl Hsz.
  { exists (input_batch s), X, C. split_and!; [by destruct s|done|done| |done]. intros id r Hid. by apply elem_of_nil in Hid. }
  apply NoDup_cons in Hnd as [Hid Hnd]. destruct (Hl id ltac:(left)) as (HC & r & Hr & Ha). cbn [length] in Hsz.
  destruct (add_one_ok vocab s X C E id r I Hs ltac:(lia) HC Hr Ha) as (b1 & X1 & Hrun & I1).
  destruct (k_list s (i_known _ _ _ _ _ I) id r Hr) as [o Ho].
  assert (Hout : output_of s r = o) by (unfold output_of; by rewrite Ho). rewrite Hout in *.
  cbn [add_all]. eapply meets_step; [by apply request_run|]. eapply meets_step; [by apply list_at_run|].
  eapply meets_step; [apply on_batch_run; exact Hrun|].
  eapply meets_weaken; [apply (IH (removelast E) (with_batch b1 s) X1 _ I1); [by apply sorted_removelast|done| |]|].
  - intros id' Hid'. assert (id <> id') by (intros ->; done). rewrite lookup_insert_ne by done. apply Hl. by right.
  - rewrite map_size_insert_None by done. lia.
  - intros E' s' (b' & X' & C' & -> & I' & Hs' & Hnew & Hold). exists b', X', C'.
    split_and!; [by destruct s|exact I'|done| |].
    + intros id' r' Hid' Hr'. apply elem_of_cons in Hid' as [->|Hid']; [|by apply Hnew].
      rewrite Hold by done. rewrite lookup_insert_eq. rewrite Hr in Hr'. injection Hr' as <-. by rewrite Hout.
    + intros id' Hni. rewrite Hold by set_solver. rewrite lookup_insert_ne; [done|]. intros ->. apply Hni. left.
Qed.

(** ** The first steps of [update_states]: who leaves *)

(** Two states of the runner that differ in the requests they have forgotten. *)
Record forgot (l : list string) (s s' : t) : Prop := Forgot {
  g_requests : forall id, requests s' !! id = if decide (id ∈ l) then None else requests s !! id;
  g_lists : output_lists s' = output_lists s;
  g_next : next_address s' = next_address s;
  g_batch : input_batch s' = input_batch s;
}.

Lemma forget_all_ok l : forall s, meets (for_each l forget) s (fun _ s' => forgot l s s').
Proof.
  induction l as [|id l IH]; intros s.
  { apply meets_ret. by split. }
  cbn [for_each]. unfold forget at 1. apply meets_assoc, meets_modify, meets_modify.
  eapply meets_weaken; [apply IH|]. intros [] s' [G1 G2 G3 G4]. split; try done.
  intros id'. rewrite G1. cbn. destruct (decide (id' = id)) as [->|Hne].
  - rewrite lookup_delete_eq. rewrite (decide_True (P := id ∈ id :: l)) by left. by case_decide.
  - rewrite lookup_delete_ne by done. repeat case_decide; try done; set_solver.
Qed.

Lemma forgot_known l s s' : known s -> forgot l s s' -> known s'.
Proof.
  intros [K1 K2 K3 K4] [G1 G2 G3 G4].
  assert (Hsub : forall id r, requests s' !! id = Some r -> requests s !! id = Some r).
  { intros id r H. rewrite G1 in H. by case_decide. }
  split; rewrite ?G2, ?G3; eauto.
Qed.

Lemma free_encoder_ok l : forall s, meets (for_each l free_encoder_output) s (fun _ s' => exists K, s' = with_encoder_cache K s).
Proof.
  induction l as [|p l IH]; intros s; [exists (encoder_cache s); by destruct s|]. cbn [for_each].
  eapply meets_bind with (R := fun _ s' => exists K, s' = with_encoder_cache K s).
  - cbn. destruct (encoder_cache s !! p.1); [|exists (encoder_cache s); by destruct s].
    case_bool_decide; eexists; reflexivity.
  - intros [] s1 [K ->]. eapply meets_weaken; [apply IH|]. intros [] s2 [K' ->]. by exists K'.
Qed.

Lemma lookup_without {A} (l : list string) (D : gmap string A) id :
  foldr delete D l !! id = if decide (id ∈ l) then None else D !! id.
Proof.
  case_decide; [by apply lookup_foldr_delete|by apply lookup_foldr_delete_not_elem_of].
Qed.

(** The requests that stay: scheduled and not finished. *)
Definition staying (out : V1Scheduler.SchedulerOutput) (id : string) : Prop :=
  id ∈ keys (V1Scheduler.num_scheduled_tokens out) /\ id ∉ V1Scheduler.out_finished_req_ids out.

(** After the departures: the batch holds the requests that stay. *)
Record departed (out : V1Scheduler.SchedulerOutput) (vocab : Z) (s s' : t) C X' C' E' : Prop := Departed {
  l_inv : runner_inv vocab s' X' C' E';
  l_content : forall id, staying out id -> C' !! id = C !! id;
  l_gone : forall id, ~ staying out id -> C' !! id = None;
  l_rows : forall id, staying out id -> row_of (input_batch s') id = row_of (input_batch s) id;
  l_requests : forall id, requests s' !! id =
    if decide (id ∈ V1Scheduler.out_finished_req_ids out) then None else requests s !! id;
  l_lists : output_lists s' = output_lists s;
}.

Lemma departures_ok vocab s X C out (f : list nat -> M t unit) Q : runner_inv vocab s X C [] ->
  (forall removed removed' s' X' C', departed out vocab s s' C X' C' (removed ++ removed') ->
     meets (f (removed ++ removed')) s' Q) ->
  meets (let finished := elements (V1Scheduler.out_finished_req_ids out) in
    for_each finished forget ;;
    removed ← remove_all false finished;
    for_each (V1Scheduler.free_encoder_input_ids out) free_encoder_output ;;
    s ← get;
    let cached_req_ids := dom (InputBatch.req_id_to_index (input_batch s)) in
    let unscheduled := elements (cached_req_ids ∖ list_to_set (keys (V1Scheduler.num_scheduled_tokens out))) in
    removed' ← remove_all true unscheduled;
    f (removed ++ removed')) s Q.
Proof.
  intros [P K HS HV] Hf. cbn zeta. set (finished := elements _). eapply meets_bind; [apply forget_all_ok|]. intros [] s1 G.
  pose proof (forgot_known _ _ _ K G) as K1. destruct G as [G1 G2 G3 G4]. rewrite <- G4 in P.
  eapply meets_bind; [apply (remove_all_ok false finished s1 X C [] P); [apply NoDup_elements|done]|].
  intros removed s2 (b2 & X2 & -> & P2 & Hv2 & Hrow2). cbn [app] in P2.
  eapply meets_bind; [apply free_encoder_ok|]. intros [] s3 [K' ->]. apply meets_get.
  set (C2 := foldr delete C finished) in *. cbn [input_batch with_encoder_cache with_batch].
  set (unscheduled := elements _).
  assert (Hdom : forall id, id ∈ unscheduled <-> is_Some (C2 !! id) /\ id ∉ keys (V1Scheduler.num_scheduled_tokens out)).
  { intros id. unfold unscheduled. rewrite elem_of_elements, elem_of_difference, elem_of_dom, elem_of_list_to_set.
    by rewrite <- (content_index b2 X2 C2 removed id P2). }
  eapply meets_bind; [apply (remove_all_ok true unscheduled (with_encoder_cache K' (with_batch b2 s1)) X2 C2 removed P2); [apply NoDup_elements|]|].
  { intros _ id Hid. by apply Hdom in Hid as [Hid _]. }
  intros removed' s4 (b4 & X4 & -> & P4 & Hv4 & Hrow4). cbn [input_batch with_encoder_cache with_batch] in *.
  apply (Hf removed removed' _ X4 (foldr delete C2 unscheduled)).
  assert (Hfin : forall id, id ∈ finished <-> id ∈ V1Scheduler.out_finished_req_ids out)
    by (intros id; apply elem_of_elements).
  assert (HC : forall id, staying out id -> foldr delete C2 unscheduled !! id = C !! id).
  { intros id [Hk Hn]. rewrite lookup_without, decide_False by (rewrite Hdom; intros [_ ?]; done).
    unfold C2. by rewrite lookup_without, decide_False by (by rewrite Hfin). }
  assert (HN : forall id, ~ staying out id -> foldr delete C2 unscheduled !! id = None).
  { intros id Hs. rewrite lookup_without. case_decide as Hu; [done|]. destruct (C2 !! id) as [x|] eqn:Hx; [|done].
    exfalso. apply Hs. split.
    - destruct (decide (id ∈ keys (V1Scheduler.num_scheduled_tokens out))); [done|].
      exfalso. apply Hu, Hdom. split; [eauto|done].
    - intros Hin%Hfin. unfold C2 in Hx. rewrite lookup_without, decide_True in Hx; done. }
  assert (Hrow : forall id, staying out id -> row_of b4 id = row_of (input_batch s) id).
  { intros id [Hk Hn]. rewrite Hrow4 by (rewrite Hdom; intros [_ ?]; done). rewrite Hrow2 by (by rewrite Hfin). by rewrite G4. }
  split; [|exact HC|exact HN|exact Hrow| |exact G2].
  - split; [exact P4|by destruct K1| |cbn; congruence].
    intros id x Hx. assert (Hst : staying out id).
    { destruct (decide (id ∈ keys (V1Scheduler.num_scheduled_tokens out))) as [|H1];
        [destruct (decide (id ∈ V1Scheduler.out_finished_req_ids out)) as [H2|]; [|by split]|];
        rewrite HN in Hx; try done; by intros [? ?]. }
    rewrite HC in Hx by done. destruct (HS id x Hx) as (r & Hr & F). exists r. split; [|exact F].
    cbn. rewrite G1, decide_False; [done|]. rewrite Hfin. apply Hst.
  - intros id. cbn. rewrite G1. destruct (decide (id ∈ finished)) as [Hi|Hi], (decide (id ∈ V1Scheduler.out_finished_req_ids out)) as [Hj|Hj];
      try done; by rewrite Hfin in Hi.
Qed.

(** ** The last steps: no slot is empty *)

Lemma meets_on_batch {A} (f : M InputBatch.t A) s (Q : A -> InputBatch.t -> Prop) :
  meets f (input_batch s) Q -> meets (on_batch f) s (fun a s' => exists b', s' = with_batch b' s /\ Q a b').
Proof. unfold meets, on_batch. destruct (f (input_batch s)) as [[a|e] b']; [|done]. intros H. by exists b'. Qed.

Lemma content_same X X' C : content X C -> same_slots X X' -> content X' C.
Proof.
  intros HC Hs id x. rewrite (HC id x). split; intros (i & Hi & Hid).
  - destruct (proj1 (Hs x)) as [j Hj]; [by exists i|]. by exists j.
  - destruct (proj2 (Hs x)) as [j Hj]; [by exists i|]. by exists j.
Qed.

Lemma inv_batch vocab s X C E b' X' E' : runner_inv vocab s X C E -> open_ok b' X' C E' ->
  InputBatch.vocab_size b' = vocab -> runner_inv vocab (with_batch b' s) X' C E'.
Proof. intros [P K HS HV] P' HV'. split; [done|by apply known_batch|exact HS|done]. Qed.

Lemma open_dense b X C : open_ok b X C [] -> dense (size X) X.
Proof.
  intros P i. rewrite (content_size b X C [] P). pose proof (open_length b X C [] P) as HL. cbn in HL.
  rewrite <- not_eq_None_Some. split.
  - intros Hi. destruct (X !! i) as [x|] eqn:Hx; [|done]. pose proof (slot_lt X b i x (p_batch _ _ _ _ P) Hx). lia.
  - intros Hi Hn. assert (H : i ∈ []); [|by apply elem_of_nil in H]. apply (p_empty _ _ _ _ P). split; [lia|done].
Qed.

Lemma condense_open b X C E : open_ok b X C E -> StronglySorted gt E ->
  meets (InputBatch.condense E) b (fun _ b' => exists X', open_ok b' X' C [] /\
    InputBatch.vocab_size b' = InputBatch.vocab_size b).
Proof.
  intros P Hs. pose proof (open_length b X C E P) as HL. rewrite <- (content_size b X C E P) in HL.
  eapply meets_weaken; [apply (condense_ok X E b (p_batch _ _ _ _ P)); [done|done| |]|].
  - intros i Hi. rewrite (p_empty _ _ _ _ P). by intuition.
  - apply Forall_forall. intros i Hi. by apply (p_empty _ _ _ _ P) in Hi as [Hi _].
  - intros [] b' (X' & Hb' & Hd & Hsame & HL' & Hv). exists X'. split; [|exact Hv].
    split; [done|eapply content_same; [apply P|done]| |constructor].
    intros i. split; [by intros H%elem_of_nil|]. intros [Hi Hn]. rewrite HL' in Hi.
    apply (Hd i) in Hi as [x Hx]. congruence.
Qed.

Lemma prompts_fit vocab s X C E : runner_inv vocab s X C E ->
  forall i x, X !! i = Some x -> 0 <= s_int x InputBatch.NUM_PROMPT_TOKENS <= Z.of_nat m.
Proof.
  intros [P K HS HV] i x Hx. assert (HC : C !! s_id x = Some x) by (apply (p_content _ _ _ _ P); by exists i).
  destruct (HS _ _ HC) as (r & _ & F & Hm). rewrite (f_int _ _ _ F) by done. cbn. lia.
Qed.

Lemma close_ok vocab s X C E (changed : bool) : runner_inv vocab s X C E -> StronglySorted gt E ->
  meets ((match E with [] => mret tt | _ => on_batch (InputBatch.condense E) end) ;;
         (if changed then on_batch InputBatch.refresh_sampling_metadata else mret tt)) s
    (fun _ s' => exists b' X', s' = with_batch b' s /\ runner_inv vocab s' X' C [] /\
       (changed = true -> InputBatch.make_sampling_metadata b' = Ok (InputBatch.sampling_metadata b'))).
Proof.
  intros I Hs. eapply meets_bind with (R := fun _ s' => exists b' X', s' = with_batch b' s /\ runner_inv vocab s' X' C []).
  - destruct E as [|e E0] eqn:HE; [exists (input_batch s), X; split; [by destruct s|done]|]. rewrite <- HE in *.
    eapply meets_weaken; [apply meets_on_batch, (condense_open _ X C E); [apply I|done]|].
    intros [] s' (b' & -> & X' & P' & Hv). exists b', X'. split; [done|]. eapply inv_batch; [exact I|exact P'|].
    rewrite Hv. apply (i_vocab _ _ _ _ _ I).
  - intros [] s' (b1 & X1 & -> & I1). destruct changed; [|exists b1, X1; by split_and!].
    eapply meets_weaken; [apply meets_on_batch, (refresh_ok (n := n) (m := m) (w := w) X1);
      [apply I1|by eapply open_dense, I1|by eapply prompts_fit]|].
    intros [] s' (b' & -> & d & -> & Hb' & Hd). eexists _, X1. split; [reflexivity|]. cbn [with_batch] in *.
    split; [|intros _; exact Hd]. destruct I1 as [P1 K1 HS1 HV1]. split; [|by apply known_batch|exact HS1|exact HV1].
    destruct P1 as [Q1 Q2 Q3 Q4]. by split.
Qed.

(** ** The message of a step *)

Section Message.
Context (params_of : V1Scheduler.NewRequestData -> Params.t).

Abbreviation new_ids out := (map V1Scheduler.new_req_id (V1Scheduler.scheduled_new_reqs out)).
Abbreviation cached_ids out := (map V1Scheduler.req_id (V1Scheduler.scheduled_cached_reqs out)).

(** A new request that fits the batch. *)
Definition new_fits (vocab : Z) (d : V1Scheduler.NewRequestData) : Prop :=
  (length (V1Scheduler.new_prompt_token_ids d) <= m)%nat /\
  (length (V1Scheduler.new_req_block_ids d) <= w)%nat /\
  allowed_ok vocab (params_of d) /\ V1Scheduler.new_lora_request d <> Some 0.

(** The message schedules each request once, as new or as known; a new request
    is not in the batch, unless it is finished by the same message; a known one is
    known to the runner, and what it gets fits. *)
Record message_ok (vocab : Z) (s : t) C (out : V1Scheduler.SchedulerOutput) : Prop := MessageOk {
  q_nodup : NoDup (new_ids out ++ cached_ids out);
  q_keys : forall id, id ∈ keys (V1Scheduler.num_scheduled_tokens out) <-> id ∈ new_ids out ++ cached_ids out;
  q_count : (length (new_ids out ++ cached_ids out) <= n)%nat;
  q_new : forall d : V1Scheduler.NewRequestData, d ∈ V1Scheduler.scheduled_new_reqs out -> new_fits vocab d /\
    (C !! V1Scheduler.new_req_id d = None \/ V1Scheduler.new_req_id d ∈ V1Scheduler.out_finished_req_ids out);
  q_cached : forall d, d ∈ V1Scheduler.scheduled_cached_reqs out ->
    V1Scheduler.req_id d ∉ V1Scheduler.out_finished_req_ids out /\
    exists r, requests s !! V1Scheduler.req_id d = Some r /\
      updatable C (default [] (V1Scheduler.scheduled_spec_decode_tokens out !! V1Scheduler.req_id d)) d r /\
      (C !! V1Scheduler.req_id d = None -> @addable m w vocab (told d r) (heard d r (output_of s r)));
}.

(** What a step makes of the runner: the batch holds the scheduled requests. *)
Record message_heard (vocab : Z) (s s' : t) C C' (out : V1Scheduler.SchedulerOutput) : Prop := MessageHeard {
  h_scheduled : forall id, is_Some (C' !! id) <-> id ∈ keys (V1Scheduler.num_scheduled_tokens out);
  h_new : forall d : V1Scheduler.NewRequestData, d ∈ V1Scheduler.scheduled_new_reqs out -> exists r,
    requests s' !! V1Scheduler.new_req_id d = Some r /\ fresh_request (params_of d) d r /\ output_of s' r = [] /\
    C' !! V1Scheduler.new_req_id d = Some (slot_of vocab r []);
  h_cached : forall d, d ∈ V1Scheduler.scheduled_cached_reqs out -> exists r,
    requests s !! V1Scheduler.req_id d = Some r /\ requests s' !! V1Scheduler.req_id d = Some (told d r) /\
    output_of s' (told d r) = heard d r (output_of s r) /\
    C' !! V1Scheduler.req_id d =
      match C !! V1Scheduler.req_id d with
      | Some x => row ← row_of (input_batch s) (V1Scheduler.req_id d);
          Some (advance x row d (default [] (V1Scheduler.scheduled_spec_decode_tokens out !! V1Scheduler.req_id d)))
      | None => Some (slot_of vocab (told d r) (heard d r (output_of s r)))
      end;
  h_others : forall id, id ∉ keys (V1Scheduler.num_scheduled_tokens out) ->
    requests s' !! id = (if decide (id ∈ V1Scheduler.out_finished_req_ids out) then None else requests s !! id) /\
    forall r, requests s' !! id = Some r -> output_of s' r = output_of s r;
}.

(** The requests that are added: the new ones, and the known ones that are not in
    the batch. *)
Definition joining C (out : V1Scheduler.SchedulerOutput) : list string :=
  new_ids out ++ filter (fun id => C !! id = None) (cached_ids out).

Lemma joining_nodup vocab s C C' out : message_ok vocab s C out -> NoDup (joining C' out).
Proof.
  intros Q. pose proof (q_nodup _ _ _ _ Q) as (H1 & H2 & H3)%NoDup_app. apply NoDup_app. split_and!; [done| |].
  - intros id Hid Hf. apply list_elem_of_filter in Hf as [_ Hf]. by apply (H2 id).
  - by apply NoDup_filter.
Qed.

(** There is room for them. *)
Lemma joining_fits vocab s C out C1 C2 : message_ok vocab s C out ->
  (forall id, is_Some (C1 !! id) -> id ∈ new_ids out ++ cached_ids out) ->
  (forall id, id ∈ joining C2 out -> C1 !! id = None) ->
  (size C1 + length (joining C2 out) <= n)%nat.
Proof.
  intros Q H1 H2. pose proof (joining_nodup vocab s C C2 out Q) as Hnd.
  rewrite <- size_dom, <- (size_list_to_set (C := gset string) (joining C2 out)) by done.
  rewrite <- size_union.
  - etransitivity; [|apply (q_count _ _ _ _ Q)].
    rewrite <- (size_list_to_set (C := gset string) (new_ids out ++ cached_ids out)) by apply Q.
    apply subseteq_size. intros id [Hid%elem_of_dom|Hid%elem_of_list_to_set]%elem_of_union; apply elem_of_list_to_set.
    + by apply H1.
    + unfold joining in Hid. apply elem_of_app in Hid as [Hid|Hid]; apply elem_of_app; [by left|right].
      by apply list_elem_of_filter in Hid as [_ Hid].
  - intros id Hd%elem_of_dom Hj%elem_of_list_to_set. rewrite (H2 id Hj) in Hd. by destruct Hd.
Qed.

Lemma sorted_slots (E : list nat) : NoDup E -> StronglySorted gt (merge_sort ge E) /\ (forall i, i ∈ merge_sort ge E <-> i ∈ E) /\
  NoDup (merge_sort ge E).
Proof.
  intros Hnd. assert (Hp : merge_sort ge E ≡ₚ E) by apply merge_sort_Permutation.
  assert (Hnd' : NoDup (merge_sort ge E)) by by rewrite Hp.
  split_and!; [|intros i; by rewrite Hp|done].
  assert (Hs : StronglySorted ge (merge_sort ge E)).
  { apply StronglySorted_merge_sort; [intros a1 a2 a3|intros a1 a2]; unfold ge; lia. }
  clear Hp. induction Hs as [|e l Hs IH Hle]; [constructor|]. apply NoDup_cons in Hnd' as [Hni Hnd'].
  constructor; [by apply IH|]. apply Forall_forall. intros a Ha. rewrite Forall_forall in Hle. specialize (Hle a Ha).
  assert (a <> e) by (intros ->; done). unfold ge, gt in *. lia.
Qed.

Lemma inv_permuted vocab s X C E E' : runner_inv vocab s X C E -> (forall i, i ∈ E' <-> i ∈ E) -> NoDup E' ->
  runner_inv vocab s X C E'.
Proof.
  intros [[P1 P2 P3 P4] K HS HV] HE Hnd. split; [|done..]. split; [done|done| |done]. intros i. by rewrite HE, P3.
Qed.

Lemma view_requests s1 s2 C1 C2 id r : view s1 C1 id = view s2 C2 id -> requests s1 !! id = Some r ->
  requests s2 !! id = Some r /\ output_of s1 r = output_of s2 r.
Proof.
  intros Hv Hr. apply (f_equal (fun v => v.1.1)) in Hv. cbn in Hv. rewrite Hr in Hv.
  destruct (requests s2 !! id) as [r2|]; [|discriminate]. cbn in Hv. injection Hv as -> Ho. done.
Qed.

Lemma view_none s1 s2 C1 C2 id : view s1 C1 id = view s2 C2 id -> requests s1 !! id = requests s2 !! id.
Proof.
  intros Hv. apply (f_equal (fun v => v.1.1)) in Hv. cbn in Hv.
  destruct (requests s1 !! id), (requests s2 !! id); try discriminate; [|done]. cbn in Hv. by injection Hv as -> _.
Qed.

(** The departures, the new requests and the updates, in terms of the state
    before the message. *)
Record listened (vocab : Z) (s s2 : t) C C2 X2 (E : list nat) (out : V1Scheduler.SchedulerOutput) : Prop := Listened {
  t_inv : runner_inv vocab s2 X2 C2 E;
  t_new : forall d : V1Scheduler.NewRequestData, d ∈ V1Scheduler.scheduled_new_reqs out -> C2 !! V1Scheduler.new_req_id d = None /\
    exists r, requests s2 !! V1Scheduler.new_req_id d = Some r /\ fresh_request (params_of d) d r /\ output_of s2 r = [];
  t_cached : forall d, d ∈ V1Scheduler.scheduled_cached_reqs out -> exists r,
    requests s !! V1Scheduler.req_id d = Some r /\ requests s2 !! V1Scheduler.req_id d = Some (told d r) /\
    output_of s2 (told d r) = heard d r (output_of s r) /\
    C2 !! V1Scheduler.req_id d = (x ← C !! V1Scheduler.req_id d; row ← row_of (input_batch s) (V1Scheduler.req_id d);
      Some (advance x row d (default [] (V1Scheduler.scheduled_spec_decode_tokens out !! V1Scheduler.req_id d))));
  t_others : forall id, id ∉ new_ids out ++ cached_ids out -> C2 !! id = None /\
    requests s2 !! id = (if decide (id ∈ V1Scheduler.out_finished_req_ids out) then None else requests s !! id) /\
    forall r, requests s2 !! id = Some r -> output_of s2 r = output_of s r;
}.

Lemma listening_ok vocab s s1 X C X1 C1 E out (f : list string -> M t unit) Q : runner_inv vocab s X C [] ->
  message_ok vocab s C out -> departed out vocab s s1 C X1 C1 E ->
  (forall s2 X2 C2, listened vocab s s2 C C2 X2 E out -> meets (f (joining C out)) s2 Q) ->
  meets (new ← map_each (V1Scheduler.scheduled_new_reqs out) (add_new params_of);
         back ← map_each (V1Scheduler.scheduled_cached_reqs out) (update_request (V1Scheduler.scheduled_spec_decode_tokens out));
         f (new ++ concat back)) s1 Q.
Proof.
  intros I0 [Q1 Q2 Q3 Q4 Q5] [L1 L2 L3 L4 L5 L6] Hf. apply NoDup_app in Q1 as (Hnd1 & Hdis & Hnd2).
  assert (HN : forall d : V1Scheduler.NewRequestData, d ∈ V1Scheduler.scheduled_new_reqs out -> C1 !! V1Scheduler.new_req_id d = None).
  { intros d Hd. destruct (Q4 d Hd) as [_ Hnew]. destruct (C1 !! V1Scheduler.new_req_id d) as [x|] eqn:Hx; [|done].
    destruct (decide (V1Scheduler.new_req_id d ∈ V1Scheduler.out_finished_req_ids out)) as [Hin|Hni].
    - rewrite L3 in Hx; [done|]. by intros [_ ?].
    - destruct Hnew as [Hn|]; [|done]. rewrite L2 in Hx; [congruence|]. split; [|done].
      apply Q2, elem_of_app. left. by apply list_elem_of_fmap_2. }
  assert (Hst : forall d, d ∈ V1Scheduler.scheduled_cached_reqs out -> staying out (V1Scheduler.req_id d)).
  { intros d Hd. destruct (Q5 d Hd) as [Hni _]. split; [|done]. apply Q2, elem_of_app. right. by apply list_elem_of_fmap_2. }
  assert (Hsame : forall d, d ∈ V1Scheduler.scheduled_cached_reqs out -> view s1 C1 (V1Scheduler.req_id d) = view s C (V1Scheduler.req_id d)).
  { intros d Hd. pose proof (Hst d Hd) as Hs. unfold view. rewrite L5, decide_False by apply Hs.
    rewrite L2, L4 by done. destruct (requests s !! V1Scheduler.req_id d); [|done]. cbn. unfold output_of. by rewrite L6. }
  eapply meets_bind; [apply (add_all_new_ok vocab params_of E _ s1 X1 C1 L1 Hnd1 HN)|].
  intros new s2 (-> & I2 & Hnew & Hview2 & _).
  assert (Hsame2 : forall d, d ∈ V1Scheduler.scheduled_cached_reqs out -> view s2 C1 (V1Scheduler.req_id d) = view s C (V1Scheduler.req_id d)).
  { intros d Hd. rewrite Hview2; [by apply Hsame|]. intros Hin. apply (Hdis _ Hin). by apply list_elem_of_fmap_2. }
  eapply meets_bind; [apply (update_all_ok vocab _ E _ s2 X1 C1 I2 Hnd2)|].
  { intros d Hd. destruct (Q5 d Hd) as (_ & r & Hr & Hup & _). exists r.
    destruct (view_requests s s2 C C1 (V1Scheduler.req_id d) r) as [Hr2 _]; [by rewrite Hsame2|done|].
    split; [done|]. destruct Hup as [Hne Hup]. split; [done|]. rewrite (L2 _ (Hst d Hd)). exact Hup. }
  intros back s3 (X3 & C3 & I3 & Hback & Hup & Hview3 & _).
  assert (Hj : new_ids out ++ concat back = joining C out).
  { unfold joining. f_equal. rewrite Hback. apply filter_ext_in. intros id Hid.
    apply list_elem_of_fmap in Hid as (d & -> & Hd). by rewrite (L2 _ (Hst d Hd)). }
  rewrite Hj. apply (Hf s3 X3 C3). split; [exact I3| | |].
  - intros d Hd. destruct (Hnew d Hd) as (r & Hr & Hfr & Ho).
    assert (Hni : V1Scheduler.new_req_id d ∉ cached_ids out) by (apply Hdis; by apply list_elem_of_fmap_2).
    pose proof (Hview3 _ Hni) as Hv. split.
    + apply (f_equal (fun v => v.1.2)) in Hv. cbn in Hv. rewrite Hv. by apply HN.
    + destruct (view_requests s2 s3 C1 C3 (V1Scheduler.new_req_id d) r) as [Hr3 Ho3]; [done|done|].
      exists r. split_and!; [done|done|congruence].
  - intros d Hd. destruct (Hup d Hd) as (r & o & Hb & Ha & HC). rewrite (Hsame2 d Hd) in Hb, HC.
    cbn in Hb. destruct (requests s !! V1Scheduler.req_id d) as [r0|] eqn:Hr0; [|discriminate].
    cbn in Hb. injection Hb as -> <-. exists r.
    cbn in Ha. destruct (requests s3 !! V1Scheduler.req_id d) as [r3|] eqn:Hr3; [|discriminate].
    cbn in Ha. injection Ha as -> Ho3. split_and!; [done|done|done|]. exact HC.
  - intros id Hni. apply not_elem_of_app in Hni as [Hn1 Hn2]. pose proof (Hview3 id Hn2) as Hv. split.
    + apply (f_equal (fun v => v.1.2)) in Hv. cbn in Hv. rewrite Hv. apply L3. intros [Hk _].
      apply Q2, elem_of_app in Hk as [?|?]; done.
    + split; [rewrite (view_none s3 s2 C3 C1 id Hv), (view_none s2 s1 C1 C1 id (Hview2 id Hn1)); apply L5|].
      intros r Hr. destruct (view_requests s3 s2 C3 C1 id r Hv Hr) as [Hr2 ->].
      destruct (view_requests s2 s1 C1 C1 id r (Hview2 id Hn1) Hr2) as [_ ->]. unfold output_of. by rewrite L6.
Qed.

Lemma row_of_some vocab s X C E id x : runner_inv vocab s X C E -> C !! id = Some x ->
  exists row, row_of (input_batch s) id = Some row /\ length row = m.
Proof.
  intros [P _ _ _] Hx. destruct (content_slot _ X C E id x P Hx) as (i & Hi & _ & Hidx).
  pose proof (slot_lt X _ i x (p_batch _ _ _ _ P) Hi). pose proof (b_max _ _ _ _ _ (p_batch _ _ _ _ P)).
  destruct (row_at _ i (b_sized _ _ _ _ _ (p_batch _ _ _ _ P)) ltac:(lia)) as (row & Hrow & Hlen).
  exists row. split; [|done]. unfold row_of. by rewrite Hidx.
Qed.

Lemma joining_in C out id : id ∈ joining C out -> id ∈ new_ids out ++ cached_ids out.
Proof.
  intros [Hj|Hj]%elem_of_app; apply elem_of_app; [by left|right]. by apply list_elem_of_filter in Hj as [_ Hj].
Qed.

Lemma joining_ok vocab s s2 C C2 X2 E out id : message_ok vocab s C out -> listened vocab s s2 C C2 X2 E out ->
  id ∈ joining C out -> C2 !! id = None /\ exists r, requests s2 !! id = Some r /\ @addable m w vocab r (output_of s2 r).
Proof.
  intros Q [I2 Hnew Hcached Hothers] [Hid|Hid]%elem_of_app.
  - apply list_elem_of_fmap in Hid as (d & -> & Hd). destruct (Hnew d Hd) as [Hn (r & Hr & [F1 F2 F3 F4 F5 F6 F7] & Ho)].
    split; [done|]. exists r. split; [done|]. destruct (q_new _ _ _ _ Q d Hd) as [(N1 & N2 & N3 & N4) _].
    split; [by rewrite F2, Ho, app_nil_r|by rewrite F4|by rewrite F3|by rewrite F6].
  - apply list_elem_of_filter in Hid as [HC Hid]. apply list_elem_of_fmap in Hid as (d & -> & Hd).
    destruct (Hcached d Hd) as (r & Hr & Hr2 & Ho & HC2). rewrite HC in HC2. split; [done|].
    exists (told d r). split; [done|]. rewrite Ho.
    destruct (q_cached _ _ _ _ Q d Hd) as (_ & r' & Hr' & _ & Ha). rewrite Hr in Hr'. injection Hr' as <-. by apply Ha.
Qed.

(** What was heard and who joined, together. *)
Lemma heard_ok vocab s s2 b3 X C C2 C3 X2 E out : runner_inv vocab s X C [] -> message_ok vocab s C out ->
  listened vocab s s2 C C2 X2 E out ->
  (forall id r, id ∈ joining C out -> requests s2 !! id = Some r -> C3 !! id = Some (slot_of vocab r (output_of s2 r))) ->
  (forall id, id ∉ joining C out -> C3 !! id = C2 !! id) ->
  message_heard vocab s (with_batch b3 s2) C C3 out.
Proof.
  intros I0 Q L Hin Hout. pose proof L as [I2 Hnew Hcached Hothers].
  assert (Hkept : forall d x, d ∈ V1Scheduler.scheduled_cached_reqs out -> C !! V1Scheduler.req_id d = Some x ->
    V1Scheduler.req_id d ∉ joining C out).
  { intros d x Hd Hx [Hj|Hj]%elem_of_app; [|apply list_elem_of_filter in Hj as [Hj _]; congruence].
    pose proof (q_nodup _ _ _ _ Q) as (_ & Hdis & _)%NoDup_app. apply (Hdis _ Hj). by apply list_elem_of_fmap_2. }
  split.
  - intros id. rewrite (q_keys _ _ _ _ Q). split.
    + intros [x Hx]. destruct (decide (id ∈ new_ids out ++ cached_ids out)) as [|Hni]; [done|].
      destruct (Hothers id Hni) as [Hn _]. rewrite Hout in Hx; [congruence|]. intros Hj. by apply Hni, (joining_in C).
    + intros Hid. destruct (decide (id ∈ joining C out)) as [Hj|Hnj].
      { destruct (joining_ok vocab s s2 C C2 X2 E out id Q L Hj) as (_ & r & Hr & _). rewrite (Hin id r Hj Hr). eauto. }
      rewrite Hout by done. apply elem_of_app in Hid as [Hid|Hid]; [exfalso; apply Hnj, elem_of_app; by left|].
      destruct (C !! id) as [x|] eqn:Hx.
      * pose proof Hid as (d & -> & Hd)%list_elem_of_fmap. destruct (Hcached d Hd) as (r & _ & _ & _ & HC2).
        destruct (row_of_some vocab s X C [] _ x I0 Hx) as (row & Hrow & _). rewrite HC2, Hx, Hrow. cbn. eauto.
      * exfalso. apply Hnj, elem_of_app. right. by apply list_elem_of_filter.
  - intros d Hd. destruct (Hnew d Hd) as [_ (r & Hr & F & Ho)]. exists r. split_and!; [done..|].
    rewrite <- Ho. apply Hin; [|done]. apply elem_of_app. left. by apply list_elem_of_fmap_2.
  - intros d Hd. destruct (Hcached d Hd) as (r & Hr & Hr2 & Ho & HC2). exists r. split_and!; [done..|].
    destruct (C !! V1Scheduler.req_id d) as [x|] eqn:Hx.
    + rewrite Hout by (by eapply Hkept). exact HC2.
    + rewrite <- Ho. apply Hin; [|done]. apply elem_of_app. right. apply list_elem_of_filter.
      split; [done|by apply list_elem_of_fmap_2].
  - intros id Hni. apply Hothers. by rewrite <- (q_keys _ _ _ _ Q).
Qed.

(** Arriving requests get their slots. *)
Lemma arrivals_ok vocab s s2 X C C2 X2 E out (changed : bool) : runner_inv vocab s X C [] -> message_ok vocab s C out ->
  listened vocab s s2 C C2 X2 E out ->
  meets (empty ← add_all (joining C out) (merge_sort ge E);
         (match empty with [] => mret tt | _ => on_batch (InputBatch.condense empty) end) ;;
         (if changed then on_batch InputBatch.refresh_sampling_metadata else mret tt)) s2
    (fun _ s' => exists X' C', runner_inv vocab s' X' C' [] /\ message_heard vocab s s' C C' out /\
       (changed = true ->
          InputBatch.make_sampling_metadata (input_batch s') = Ok (InputBatch.sampling_metadata (input_batch s')))).
Proof.
  intros I0 Q L. pose proof (t_inv _ _ _ _ _ _ _ _ L) as I2.
  destruct (sorted_slots E (p_nodup _ _ _ _ (i_open _ _ _ _ _ I2))) as (Hs & HE & HndE).
  pose proof (inv_permuted vocab s2 X2 C2 E _ I2 HE HndE) as I2'.
  eapply meets_bind.
  { apply (add_all_ok vocab (joining C out) (merge_sort ge E) s2 X2 C2 I2' Hs (joining_nodup vocab s C C out Q)).
    - intros id Hid. by eapply joining_ok.
    - apply (joining_fits vocab s C out C2 C Q); [|by intros id Hid; eapply joining_ok].
      intros id [x Hx]. destruct (decide (id ∈ new_ids out ++ cached_ids out)) as [|Hni]; [done|].
      destruct (t_others _ _ _ _ _ _ _ _ L id Hni) as [Hn _]. congruence. }
  intros empty s3 (b3 & X3 & C3 & -> & I3 & Hs3 & Hin & Hout).
  eapply meets_weaken; [apply (close_ok vocab _ X3 C3 empty changed I3 Hs3)|].
  intros [] s4 (b4 & X4 & -> & I4 & Hch). exists X4, C3. split_and!; [exact I4| |exact Hch].
  assert (Heq : with_batch b4 (with_batch b3 s2) = with_batch b4 s2) by by destruct s2.
  rewrite Heq. by eapply heard_ok.
Qed.

(** A message that fits is heard: the runner keeps its invariant, and the batch
    holds the scheduled requests, as the message describes them. *)
Lemma update_states_ok vocab s X C out : runner_inv vocab s X C [] -> message_ok vocab s C out ->
  meets (update_states params_of out) s (fun _ s' => exists X' C', runner_inv vocab s' X' C' [] /\
    message_heard vocab s s' C C' out).
Proof.
  intros I Q.
  pose (join := fun (removed_req_indices : list nat) (req_ids_to_add : list string) =>
    (empty ← add_all req_ids_to_add (merge_sort ge removed_req_indices);
     (match empty with [] => mret tt | _ => on_batch (InputBatch.condense empty) end) ;;
     (if bool_decide (removed_req_indices <> []) || bool_decide (req_ids_to_add <> [])
      then on_batch InputBatch.refresh_sampling_metadata else mret tt)) : M t unit).
  pose (listen := fun removed_req_indices : list nat =>
    (new ← map_each (V1Scheduler.scheduled_new_reqs out) (add_new params_of);
     back ← map_each (V1Scheduler.scheduled_cached_reqs out) (update_request (V1Scheduler.scheduled_spec_decode_tokens out));
     join removed_req_indices (new ++ concat back)) : M t unit).
  apply (departures_ok vocab s X C out listen); [done|].
  intros removed removed' s1 X1 C1 D. set (E := removed ++ removed') in *.
  apply (listening_ok vocab s s1 X C X1 C1 E out (join E)); [done..|].
  intros s2 X2 C2 L. eapply meets_weaken; [apply (arrivals_ok vocab s s2 X C C2 X2 E out _ I Q L)|].
  intros [] s' (X' & C' & I' & H & _). by exists X', C'.
Qed.
End Message.
End Runner.
End Runner.
