(* ===== verification/ModelRunnerInputs.v ===== *)
(** * v1 workers: the inputs of a step

    [compute_inputs] computes on flat arrays of all the scheduled tokens; here it
    is, request by request, what one expects: the positions from
    [num_computed_tokens] on, the tokens of the request there, and the slot of
    the key-value cache that its table of blocks gives.  The arrays have 32 bits:
    [rows_fit] says when this matters. *)
From S2P Require Import Prelude.
From S2P Require Import PyDict.
From S2P Require Import V1Scheduler.
From S2P Require Import Arrays.
From S2P Require Import WorkerBlockTable.
From S2P Require Import InputBatch.
From S2P Require Import InputBatchCorrect.
From S2P Require Import ModelRunner.

Module Inputs.
Import ModelRunner.
Import Slots.

(** ** Segments: a list of lists, flattened *)

Lemma mapM_run {A B} (f : A -> result B) (g : A -> B) l :
  (forall a, a ∈ l -> f a = Ok (g a)) -> mapM f l = Ok (map g l).
Proof.
  induction l as [|a l IH]; intros H; [done|]. cbn. rewrite (H a) by left. cbn.
  rewrite IH by (intros; apply H; by right). done.
Qed.

Lemma mapM_app {A B} (f : A -> result B) l1 l2 :
  mapM f (l1 ++ l2) = k1 ← mapM f l1; k2 ← mapM f l2; Ok (k1 ++ k2).
Proof.
  induction l1 as [|a l1 IH]; cbn; [by destruct (mapM f l2)|]. destruct (f a); cbn; [|done]. rewrite IH.
  destruct (mapM f l1); cbn; [|done]. by destruct (mapM f l2).
Qed.

Lemma zip_with_concat {A B C R} (f : A -> B -> C) (g : R -> list A) (h : R -> list B) rs :
  (forall r, r ∈ rs -> length (g r) = length (h r)) ->
  zip_with f (concat (map g rs)) (concat (map h rs)) = concat (map (fun r => zip_with f (g r) (h r)) rs).
Proof.
  induction rs as [|r rs IH]; intros H; [done|]. cbn [map concat].
  rewrite zip_with_app by (apply H; left). f_equal. apply IH. intros; apply H; by right.
Qed.

Lemma length_concat_eq {A B R} (g : R -> list A) (h : R -> list B) rs :
  (forall r, r ∈ rs -> length (g r) = length (h r)) -> length (concat (map g rs)) = length (concat (map h rs)).
Proof.
  induction rs as [|r rs IH]; intros H; [done|]. cbn [map concat]. rewrite !length_app, (H r) by left.
  f_equal. apply IH. intros; apply H; by right.
Qed.

(** An operation on two arrays of segments is one on the segments. *)
Lemma np_zip_segments {A B C R} (f : A -> B -> C) (g : R -> list A) (h : R -> list B) rs :
  (forall r, r ∈ rs -> length (g r) = length (h r)) ->
  np_zip f (concat (map g rs)) (concat (map h rs)) = Ok (concat (map (fun r => zip_with f (g r) (h r)) rs)).
Proof.
  intros H. unfold np_zip. rewrite bool_decide_eq_true_2 by by apply length_concat_eq. by rewrite zip_with_concat.
Qed.

Lemma map_concat_segments {A B R} (f : A -> B) (g : R -> list A) rs :
  map f (concat (map g rs)) = concat (map (fun r => map f (g r)) rs).
Proof. rewrite concat_map, map_map. done. Qed.

Lemma mapM_segments {A B R} (f : A -> result B) (g : R -> list A) (h : R -> list B) rs :
  (forall r, r ∈ rs -> mapM f (g r) = Ok (h r)) -> mapM f (concat (map g rs)) = Ok (concat (map h rs)).
Proof.
  intros H. induction rs as [|r rs IH]; [done|]. cbn [map concat].
  rewrite mapM_app, (H r) by left. cbn. rewrite IH by (intros; apply H; by right). done.
Qed.

Lemma concat_map_ext {A R} (g h : R -> list A) rs : (forall r, r ∈ rs -> g r = h r) ->
  concat (map g rs) = concat (map h rs).
Proof.
  induction rs as [|r rs IH]; intros H; [done|]. cbn. rewrite (H r) by left. f_equal.
  apply IH. intros; apply H; by right.
Qed.

(** ** [np.repeat] and the batched [arange] *)

Lemma np_repeat_run {A R} (g : R -> A) (count : R -> Z) rs : (forall r, r ∈ rs -> 0 <= count r) ->
  np_repeat (map g rs) (map count rs) = Ok (concat (map (fun r => replicate (Z.to_nat (count r)) (g r)) rs)).
Proof.
  intros H. unfold np_repeat. rewrite bool_decide_eq_true_2 by by rewrite !length_map.
  assert (forallb (Z.leb 0) (map count rs) = true) as ->.
  { apply forallb_forall. intros c Hc. apply in_map_iff in Hc as (r & <- & Hr). apply Z.leb_le, H. by apply list_elem_of_In. }
  f_equal. f_equal. clear H. induction rs as [|r rs IH]; cbn; [done|]. by rewrite IH.
Qed.

Fixpoint starts_from (acc : Z) (counts : list Z) : list Z :=
  match counts with [] => [] | n :: counts' => acc :: starts_from (acc + n) counts' end.

Lemma starts_of counts : forall acc, zip_with Z.sub (cumsum_from acc counts) counts = starts_from acc counts.
Proof.
  induction counts as [|n counts IH]; intros acc; cbn; [done|]. f_equal; [lia|]. apply IH.
Qed.

Lemma length_starts counts : forall acc, length (starts_from acc counts) = length counts.
Proof. induction counts as [|n counts IH]; intros acc; cbn; [done|]. by rewrite IH. Qed.

Lemma length_cumsum counts : forall acc, length (cumsum_from acc counts) = length counts.
Proof. induction counts as [|n counts IH]; intros acc; cbn; [done|]. by rewrite IH. Qed.

Lemma seqZ_shift a n : map (fun p => p - a) (seqZ a n) = seqZ 0 n.
Proof. apply list_eq. intros i. rewrite list_lookup_fmap. unfold seqZ. rewrite !list_lookup_fmap. destruct (seq 0 (Z.to_nat n) !! i); cbn; [f_equal; lia|done]. Qed.

Lemma zip_with_replicate {A B C} (f : A -> B -> C) l n b : length l = n ->
  zip_with f l (replicate n b) = map (fun a => f a b) l.
Proof. intros <-. induction l as [|a l IH]; cbn; [done|]. by rewrite IH. Qed.

Lemma zip_with_replicate_l {A B C} (f : A -> B -> C) a l n : length l = n ->
  zip_with f (replicate n a) l = map (f a) l.
Proof. intros <-. induction l as [|b l IH]; cbn; [done|]. by rewrite IH. Qed.

Lemma length_seqZ_nat a n : length (seqZ a n) = Z.to_nat n.
Proof. apply length_seqZ. Qed.

Lemma np_sum_pos counts : Forall (fun n => 0 <= n) counts -> 0 <= np_sum counts.
Proof. induction 1 as [|n counts Hn _ IH]; unfold np_sum in *; cbn; lia. Qed.

Lemma np_sum_ge counts k : Forall (fun n => 0 <= n) counts -> k ∈ counts -> k <= np_sum counts.
Proof.
  induction 1 as [|n counts Hn Hc IH]; [by intros ?%elem_of_nil|]. pose proof (np_sum_pos counts Hc).
  unfold np_sum in *; cbn. intros [->|Hk%IH]%elem_of_cons; lia.
Qed.

Lemma batched_segments counts : Forall (fun n => 0 <= n) counts -> forall acc,
  zip_with Z.sub (seqZ acc (np_sum counts))
    (concat (zip_with (fun x n => replicate (Z.to_nat n) x) (starts_from acc counts) counts)) =
  concat (map (seqZ 0) counts).
Proof.
  induction 1 as [|n counts Hn Hc IH]; intros acc; cbn [np_sum foldr]; [done|].
  assert (Hs : 0 <= np_sum counts) by by apply np_sum_pos.
  fold (np_sum counts). rewrite seqZ_app by done. cbn [starts_from zip_with concat map].
  rewrite zip_with_app by (by rewrite length_seqZ, length_replicate). rewrite IH. f_equal.
  rewrite zip_with_replicate by apply length_seqZ. apply seqZ_shift.
Qed.

Lemma np_sum_length counts : Forall (fun n => 0 <= n) counts -> forall acc,
  Z.of_nat (length (concat (zip_with (fun x n => replicate (Z.to_nat n) x) (starts_from acc counts) counts))) = np_sum counts.
Proof.
  induction 1 as [|n counts Hn Hc IH]; intros acc; cbn; [done|]. rewrite length_app, length_replicate, Nat2Z.inj_add, IH.
  unfold np_sum. cbn. lia.
Qed.

Lemma batched_arange_run counts : Forall (fun n => 0 <= n) counts ->
  batched_arange (seqZ 0 (np_sum counts)) counts = Ok (concat (map (seqZ 0) counts)).
Proof.
  intros Hc. unfold batched_arange, np_cumsum. rewrite starts_of. unfold np_repeat.
  rewrite bool_decide_eq_true_2 by apply length_starts.
  assert (forallb (Z.leb 0) counts = true) as ->.
  { apply forallb_forall. intros c Hin. apply Z.leb_le. rewrite Forall_forall in Hc. apply Hc. by apply list_elem_of_In. }
  cbn [mbind result_bind]. unfold np_zip. rewrite bool_decide_eq_true_2.
  - by rewrite batched_segments.
  - rewrite length_seqZ. pose proof (np_sum_length counts Hc 0). lia.
Qed.

(** ** Rows of equal length, flattened *)

Lemma concat_lookup {A} (rows : list (list A)) k : Forall (fun row => length row = k) rows ->
  forall i p row a, rows !! i = Some row -> row !! p = Some a -> concat rows !! (i * k + p)%nat = Some a.
Proof.
  induction 1 as [|row0 rows Hl _ IH]; intros i p row a Hi Hp; [done|]. cbn [concat]. destruct i as [|i].
  - cbn in Hi. injection Hi as ->. rewrite lookup_app_l; [done|]. by eapply lookup_lt_Some.
  - cbn in Hi. rewrite lookup_app_r by lia. rewrite <- (IH i p row a Hi Hp). f_equal. lia.
Qed.

(** ** Segments of positions *)

(** A function of positions that reads a list. *)
Lemma mapM_range {A} (f : Z -> result A) (l : list A) c k : 0 <= c -> 0 <= k -> c + k <= Z.of_nat (length l) ->
  (forall p a, c <= p < c + k -> l !! Z.to_nat p = Some a -> f p = Ok a) ->
  mapM f (seqZ c k) = Ok (take (Z.to_nat k) (drop (Z.to_nat c) l)).
Proof.
  intros Hc Hk Hl Hf. revert c Hc Hl Hf. pattern k. apply natlike_ind; [done| |exact Hk].
  clear k Hk. intros k Hk IH c Hc Hl Hf. rewrite seqZ_cons by lia. cbn [mapM].
  destruct (lookup_lt_is_Some_2 l (Z.to_nat c)) as [a Ha]; [lia|].
  rewrite (Hf c a) by (lia || done). cbn [mbind result_bind].
  replace (Z.pred (Z.succ k)) with k by lia. rewrite (IH (Z.succ c)); [|lia|lia|intros; apply Hf; [lia|done]].
  cbn. f_equal. rewrite (drop_S l a (Z.to_nat c)) by done. rewrite Z2Nat.inj_succ by lia.
  cbn [take]. by rewrite Z2Nat.inj_succ by lia.
Qed.

Lemma seqZ_from c k : map (Z.add c) (seqZ 0 k) = seqZ c k.
Proof. unfold seqZ. rewrite map_map. apply map_ext. intros i. lia. Qed.

Lemma take_seqZ0 (k l : Z) : 0 <= k <= l -> take (Z.to_nat k) (seqZ 0 l) = seqZ 0 k.
Proof.
  intros H. replace l with (k + (l - k)) by lia. rewrite seqZ_app by lia.
  rewrite take_app_le by (rewrite length_seqZ; lia). apply take_ge. rewrite length_seqZ. lia.
Qed.

Lemma elem_of_range c k p : p ∈ seqZ c k -> c <= p < c + k.
Proof. by rewrite elem_of_seqZ. Qed.

(** Where the bound of [rows_fit] does not hold: the last of 256 rows of ten million
    tokens begins at a negative index. *)
Example row_base_overflows : wrap32 (255 * 10485760) < 0.
Proof. by vm_compute. Qed.

(** ** The rows of a batch *)

(** A request of the batch: its slot, the number of tokens scheduled for it and
    its drafts, which are among them. *)
Record row : Type := Row {
  r_index : nat;
  r_slot : slot;
  r_count : Z;
  r_drafts : list Z;
}.

Definition computed (r : row) : Z := s_int (r_slot r) InputBatch.NUM_COMPUTED_TOKENS.

(** What a step needs of a request: its positions, its tokens there, and the slots
    of the cache that they go to. *)
Definition row_positions (r : row) : list Z := seqZ (computed r) (r_count r).
Definition row_tokens (r : row) : list Z :=
  take (Z.to_nat (r_count r)) (drop (Z.to_nat (computed r)) (s_tokens (r_slot r))).
Definition cache_slot (bs : Z) (blocks : list Z) (p : Z) : Z :=
  default 0 (blocks !! Z.to_nat (p / bs)) * bs + p mod bs.
Definition row_cache (bs : Z) (r : row) : list Z := map (cache_slot bs (s_blocks (r_slot r))) (row_positions r).

(** The positions to sample from: after the drafts and after the token before. *)
Definition row_sampled (end_ : Z) (r : row) : list Z :=
  let k := 1 + Z.of_nat (length (r_drafts r)) in seqZ (end_ - k) k.

Definition counts (rows : list row) : list Z := map r_count rows.

Section Rows.
Context {n m w : nat}.

(** A request whose scheduled tokens and blocks are in the batch. *)
Record row_ok (bs : Z) (spec : pydict string (list Z)) (r : row) : Prop := RowOk {
  ro_computed : 0 <= computed r;
  ro_count : 1 + Z.of_nat (length (r_drafts r)) <= r_count r;
  ro_drafts : default [] (spec !! s_id (r_slot r)) = r_drafts r;
  ro_tokens : computed r + r_count r <= Z.of_nat (length (s_tokens (r_slot r)));
  ro_blocks : computed r + r_count r <= Z.of_nat (length (s_blocks (r_slot r))) * bs;
  ro_numbers : Forall (fun b => 0 <= b /\ b * bs + bs <= 2 ^ 31) (s_blocks (r_slot r));
}.

(** The rows are the batch, in the order of the slots. *)
Record rows_ok (s : t) (out : V1Scheduler.SchedulerOutput) (X : gmap nat slot) (rows : list row) : Prop := RowsOk {
  rs_batch : batch_ok n m w X (input_batch s);
  rs_size : size X = length rows;
  rs_length : length (InputBatch.req_ids (input_batch s)) = length rows;
  rs_row : forall i r, rows !! i = Some r -> r_index r = i /\ X !! i = Some (r_slot r) /\
    V1Scheduler.num_scheduled_tokens out !! s_id (r_slot r) = Some (r_count r) /\
    row_ok (block_size s) (V1Scheduler.scheduled_spec_decode_tokens out) r;
  rs_some : rows <> [];
  rs_total : V1Scheduler.total_num_scheduled_tokens out = np_sum (counts rows);
}.

(** The sizes of the runner, and that its indices fit in 32 bits. *)
Record rows_fit (s : t) (rows : list row) : Prop := RowsFit {
  fi_len : InputBatch.max_model_len (input_batch s) = m;
  fi_blocks : max_num_blocks_per_req s = Z.of_nat w;
  fi_size : 0 < block_size s;
  fi_tokens : np_sum (counts rows) <= Z.of_nat (max_num_tokens s);
  fi_token_indices : Z.of_nat n * Z.of_nat m <= 2 ^ 31;
  fi_block_indices : Z.of_nat n * Z.of_nat w <= 2 ^ 31;
}.

Section Prepared.
Context (s : t) (out : V1Scheduler.SchedulerOutput) (X : gmap nat slot) (rows : list row).
Context (R : rows_ok s out X rows) (F : rows_fit s rows).
Local Abbreviation b := (input_batch s).
Local Abbreviation bs := (block_size s).
Local Abbreviation spec := (V1Scheduler.scheduled_spec_decode_tokens out).

Lemma row_in r : r ∈ rows -> X !! r_index r = Some (r_slot r) /\ (r_index r < n)%nat /\
  V1Scheduler.num_scheduled_tokens out !! s_id (r_slot r) = Some (r_count r) /\ row_ok bs spec r.
Proof.
  intros [i Hi]%list_elem_of_lookup_1. destruct (rs_row _ _ _ _ R i r Hi) as (Hx & HX & Hc & Hr).
  rewrite Hx. split_and!; [done| |done|done]. apply lookup_lt_Some in Hi.
  pose proof (b_max _ _ _ _ _ (rs_batch _ _ _ _ R)). rewrite (rs_length _ _ _ _ R) in *. lia.
Qed.

Lemma row_occupied r : r ∈ rows -> occupied b (r_index r) (r_slot r).
Proof. intros H. apply (b_slots _ _ _ _ _ (rs_batch _ _ _ _ R)). by apply row_in. Qed.

Lemma row_count_pos r : r ∈ rows -> 0 <= r_count r.
Proof. intros H. pose proof (ro_count _ _ _ (proj2 (proj2 (proj2 (row_in r H))))). lia. Qed.

Lemma counts_pos : Forall (fun k => 0 <= k) (counts rows).
Proof. apply Forall_forall. intros k (r & -> & Hr)%list_elem_of_fmap. by apply row_count_pos. Qed.

Lemma ids_run : mapM (scheduled_of (V1Scheduler.num_scheduled_tokens out)) (InputBatch.req_ids b) = Ok (counts rows).
Proof.
  assert (InputBatch.req_ids b = map (fun r => Some (s_id (r_slot r))) rows) as ->.
  { apply list_eq. intros i. change map with (@fmap list list_fmap). rewrite list_lookup_fmap. destruct (rows !! i) as [r|] eqn:E.
    - destruct (rs_row _ _ _ _ R i r E) as (<- & _). apply o_id, row_occupied. by eapply list_elem_of_lookup_2.
    - apply lookup_ge_None in E. apply lookup_ge_None. by rewrite (rs_length _ _ _ _ R). }
  assert (H : forall r, r ∈ rows -> V1Scheduler.num_scheduled_tokens out !! s_id (r_slot r) = Some (r_count r))
    by (intros r Hr; by apply row_in).
  clear R F. induction rows as [|r rs IH]; [done|]. cbn. rewrite (H r) by left. cbn. rewrite IH; [done|]. intros; apply H; by right.
Qed.

Lemma indices_map : seqZ 0 (Z.of_nat (length rows)) = map (fun r => Z.of_nat (r_index r)) rows.
Proof.
  apply list_eq. intros i. change map with (@fmap list list_fmap). rewrite list_lookup_fmap. destruct (rows !! i) as [r|] eqn:E; cbn.
  - destruct (rs_row _ _ _ _ R i r E) as (-> & _). apply lookup_seqZ. apply lookup_lt_Some in E. lia.
  - apply lookup_ge_None in E. apply lookup_seqZ_ge. lia.
Qed.

(** ** The arrays, one by one *)

Local Abbreviation seg g := (concat (map g rows)).

Lemma py_index_nat {A} (l : list A) (i : nat) a : l !! i = Some a -> py_index l (Z.of_nat i) = Ok a.
Proof.
  intros H. unfold py_index. destruct (Z.ltb_spec (Z.of_nat i) 0); [lia|].
  destruct (Z.ltb_spec (Z.of_nat i) 0); [lia|]. by rewrite Nat2Z.id, H.
Qed.

Lemma mapM_replicate {A B} (f : A -> result B) k a a' : f a = Ok a' -> mapM f (replicate k a) = Ok (replicate k a').
Proof. intros H. induction k as [|k IH]; cbn; [done|]. by rewrite H, IH. Qed.

Lemma req_indices_run top : Z.of_nat (length rows) <= top ->
  np_repeat (take (length rows) (seqZ 0 top)) (counts rows) =
  Ok (seg (fun r => replicate (Z.to_nat (r_count r)) (Z.of_nat (r_index r)))).
Proof.
  intros H. rewrite <- (Nat2Z.id (length rows)), take_seqZ0, indices_map by lia.
  apply (np_repeat_run (fun r => Z.of_nat (r_index r)) r_count). apply row_count_pos.
Qed.

Lemma arange_run top : np_sum (counts rows) <= top ->
  batched_arange (take (Z.to_nat (np_sum (counts rows))) (seqZ 0 top)) (counts rows) = Ok (seg (fun r => seqZ 0 (r_count r))).
Proof.
  intros H. assert (0 <= np_sum (counts rows)).
  { apply np_sum_pos, counts_pos. }
  rewrite take_seqZ0 by lia. rewrite batched_arange_run by apply counts_pos. unfold counts. by rewrite map_map.
Qed.

Lemma starts_run : tensor_index (InputBatch.ints b InputBatch.NUM_COMPUTED_TOKENS)
    (seg (fun r => replicate (Z.to_nat (r_count r)) (Z.of_nat (r_index r)))) =
  Ok (seg (fun r => replicate (Z.to_nat (r_count r)) (computed r))).
Proof.
  apply mapM_segments. intros r Hr. apply mapM_replicate, py_index_nat.
  by apply (o_int _ _ _ (row_occupied r Hr) InputBatch.NUM_COMPUTED_TOKENS).
Qed.

Lemma positions_run : np_zip Z.add (seg (fun r => replicate (Z.to_nat (r_count r)) (computed r)))
    (seg (fun r => seqZ 0 (r_count r))) = Ok (seg row_positions).
Proof.
  rewrite np_zip_segments by (intros r Hr; by rewrite length_replicate, length_seqZ). f_equal.
  apply concat_map_ext. intros r Hr. rewrite zip_with_replicate_l by apply length_seqZ. apply seqZ_from.
Qed.

Lemma positions_length : Z.of_nat (length (seg row_positions)) = np_sum (counts rows).
Proof.
  pose proof row_count_pos as H. clear R F. induction rows as [|r rs IH]; [done|]. cbn [map concat counts np_sum foldr].
  rewrite length_app, Nat2Z.inj_add, IH by (intros; apply H; by right). unfold row_positions at 1.
  rewrite length_seqZ. specialize (H r ltac:(left)). unfold counts, np_sum. lia.
Qed.

(** The index of a row, times the length of a row. *)
Lemma row_base_run (k : nat) : Z.of_nat n * Z.of_nat k <= 2 ^ 31 ->
  map (fun i => wrap32 (i * Z.of_nat k)) (seg (fun r => replicate (Z.to_nat (r_count r)) (Z.of_nat (r_index r)))) =
  seg (fun r => replicate (Z.to_nat (r_count r)) (Z.of_nat (r_index r * k))).
Proof.
  intros Hk. rewrite map_concat_segments. apply concat_map_ext. intros r Hr. destruct (row_in r Hr) as (_ & Hi & _).
  change map with (@fmap list list_fmap). rewrite fmap_replicate. f_equal. rewrite Nat2Z.inj_mul. destruct k as [|k]; [by rewrite Z.mul_0_r|].
  apply wrap32_id. nia.
Qed.

Lemma token_indices_run : np_zip Z.add (seg row_positions)
    (seg (fun r => replicate (Z.to_nat (r_count r)) (Z.of_nat (r_index r * m)))) =
  Ok (seg (fun r => map (fun p => p + Z.of_nat (r_index r * m)) (row_positions r))).
Proof.
  rewrite np_zip_segments by (intros r Hr; unfold row_positions; by rewrite length_replicate, length_seqZ).
  f_equal. apply concat_map_ext. intros r Hr. apply zip_with_replicate. unfold row_positions. by rewrite length_seqZ.
Qed.

Lemma mapM_map {A B C} (f : B -> result C) (g : A -> B) l : mapM f (map g l) = mapM (fun a => f (g a)) l.
Proof. induction l as [|a l IH]; cbn; [done|]. by rewrite IH. Qed.

Lemma input_ids_run : index_select (concat (InputBatch.token_ids_cpu b))
    (seg (fun r => map (fun p => p + Z.of_nat (r_index r * m)) (row_positions r))) = Ok (seg row_tokens).
Proof.
  apply mapM_segments. intros r Hr. destruct (row_in r Hr) as (_ & Hi & _ & [H1 H2 H3 H4 _ _]).
  rewrite mapM_map. apply mapM_range; [done|lia|done|]. intros p a Hp Ha.
  destruct (Z.ltb_spec (p + Z.of_nat (r_index r * m)) 0); [lia|].
  destruct (o_tokens _ _ _ (row_occupied r Hr)) as (row & Hrow & Hh).
  pose proof (holds_lookup _ _ _ _ Hh Ha) as Hra.
  pose proof (concat_lookup (InputBatch.token_ids_cpu b) m (z_row _ _ _ _ (b_sized _ _ _ _ _ (rs_batch _ _ _ _ R))) _ _ _ _ Hrow Hra) as Hc.
  replace (Z.to_nat (p + Z.of_nat (r_index r * m))) with (r_index r * m + Z.to_nat p)%nat by lia.
  by rewrite Hc.
Qed.

Lemma table_indices_run : np_zip Z.add (seg (fun r => replicate (Z.to_nat (r_count r)) (Z.of_nat (r_index r * w))))
    (map (fun p => p / bs) (seg row_positions)) =
  Ok (seg (fun r => map (fun p => Z.of_nat (r_index r * w) + p / bs) (row_positions r))).
Proof.
  rewrite map_concat_segments.
  rewrite np_zip_segments by (intros r Hr; unfold row_positions; by rewrite length_map, length_replicate, length_seqZ).
  f_equal. apply concat_map_ext. intros r Hr.
  rewrite zip_with_replicate_l by (unfold row_positions; by rewrite length_map, length_seqZ). by rewrite map_map.
Qed.

(** The block of a position is one of the request's. *)
Lemma row_block r p : r ∈ rows -> p ∈ row_positions r -> exists k, s_blocks (r_slot r) !! Z.to_nat (p / bs) = Some k /\
  0 <= p / bs /\ 0 <= k /\ k * bs + bs <= 2 ^ 31.
Proof.
  intros Hr Hp%elem_of_range. destruct (row_in r Hr) as (_ & _ & _ & [H1 H2 H3 H4 H5 H6]).
  pose proof (fi_size _ _ F) as Hbs. assert (0 <= p / bs) by (apply Z.div_pos; lia).
  assert (p / bs < Z.of_nat (length (s_blocks (r_slot r)))) by (apply Z.div_lt_upper_bound; nia).
  destruct (lookup_lt_is_Some_2 (s_blocks (r_slot r)) (Z.to_nat (p / bs))) as [k Hk]; [lia|].
  exists k. split_and!; [done..| |]; apply (proj1 (Forall_forall _ _) H6); by eapply list_elem_of_lookup_2.
Qed.

Lemma block_numbers_run : tensor_index (concat (WorkerBlockTable.block_table_np (InputBatch.block_table b)))
    (seg (fun r => map (fun p => Z.of_nat (r_index r * w) + p / bs) (row_positions r))) =
  Ok (seg (fun r => map (fun p => default 0 (s_blocks (r_slot r) !! Z.to_nat (p / bs))) (row_positions r))).
Proof.
  apply mapM_segments. intros r Hr. rewrite mapM_map. apply mapM_run. intros p Hp.
  destruct (row_block r p Hr Hp) as (k & Hk & Hp0 & _). rewrite Hk. cbn.
  destruct (o_blocks _ _ _ (row_occupied r Hr)) as (_ & row & Hrow & Hh).
  pose proof (holds_lookup _ _ _ _ Hh Hk) as Hra.
  pose proof (concat_lookup _ w (WorkerBlockTable.shaped_row _ _ _ (z_table _ _ _ _ (b_sized _ _ _ _ _ (rs_batch _ _ _ _ R)))) _ _ _ _ Hrow Hra) as Hc.
  replace (Z.of_nat (r_index r * w) + p / bs) with (Z.of_nat (r_index r * w + Z.to_nat (p / bs))) by lia.
  by apply py_index_nat.
Qed.

Lemma slot_mapping_run : np_zip (fun x y => wrap32 (x + y))
    (map (fun k => wrap32 (k * bs)) (seg (fun r => map (fun p => default 0 (s_blocks (r_slot r) !! Z.to_nat (p / bs))) (row_positions r))))
    (map (fun p => p mod bs) (seg row_positions)) = Ok (seg (row_cache bs)).
Proof.
  rewrite !map_concat_segments, np_zip_segments by (intros r Hr; by rewrite !length_map). f_equal.
  apply concat_map_ext. intros r Hr. unfold row_cache. apply list_eq. intros i.
  rewrite lookup_zip_with. change map with (@fmap list list_fmap). rewrite !list_lookup_fmap.
  destruct (row_positions r !! i) as [p|] eqn:E; cbn; [|done]. f_equal.
  destruct (row_block r p Hr) as (k & Hk & Hp0 & Hk0 & Hk1); [by eapply list_elem_of_lookup_2|].
  unfold cache_slot. rewrite Hk. cbn. pose proof (Z.mod_pos_bound p bs (fi_size _ _ F)).
  rewrite (wrap32_id (k * bs)), wrap32_id; [done|nia..].
Qed.

Lemma computed_run : take (length rows) (InputBatch.ints b InputBatch.NUM_COMPUTED_TOKENS) = map computed rows.
Proof.
  apply list_eq. intros i. change map with (@fmap list list_fmap). rewrite list_lookup_fmap, lookup_take.
  destruct (rows !! i) as [r|] eqn:E; cbn; case_decide as Hd.
  - destruct (rs_row _ _ _ _ R i r E) as (<- & _).
    apply (o_int _ _ _ (row_occupied r ltac:(by eapply list_elem_of_lookup_2)) InputBatch.NUM_COMPUTED_TOKENS).
  - apply lookup_lt_Some in E. lia.
  - apply lookup_ge_None in E. lia.
  - done.
Qed.

Lemma seq_lens_run : np_zip Z.add (take (length rows) (InputBatch.ints b InputBatch.NUM_COMPUTED_TOKENS)) (counts rows) =
  Ok (map (fun r => computed r + r_count r) rows).
Proof.
  rewrite computed_run. unfold np_zip, counts. rewrite bool_decide_eq_true_2 by by rewrite !length_map. f_equal. clear R F.
  induction rows as [|r rs IH]; cbn; [done|]. by rewrite IH.
Qed.

(** ** The indices to sample from *)

Definition ends : list (Z * row) := zip (np_cumsum (counts rows)) rows.

Lemma ends_rows : map snd ends = rows.
Proof. apply snd_zip. unfold np_cumsum. rewrite length_cumsum. unfold counts. by rewrite length_map. Qed.

Lemma ends_in e r : (e, r) ∈ ends -> r ∈ rows.
Proof. intros H. rewrite <- ends_rows. change r with ((e, r).2). by apply list_elem_of_fmap_2. Qed.

Definition sampled (rs : list (Z * row)) : list Z := concat (map (fun er => row_sampled er.1 er.2) rs).

Definition draft_count (r : row) : Z := 1 + Z.of_nat (length (r_drafts r)).

Lemma draft_counts_run : map (Z.add 1) (map (fun oid : option string =>
    Z.of_nat (length (default [] (match oid with Some id => spec !! id | None => None end)))) (InputBatch.req_ids b)) =
  map draft_count rows.
Proof.
  apply list_eq. intros i. rewrite map_map. change map with (@fmap list list_fmap). rewrite !list_lookup_fmap.
  destruct (rows !! i) as [r|] eqn:E.
  - destruct (rs_row _ _ _ _ R i r E) as (<- & _). assert (Hr : r ∈ rows) by by eapply list_elem_of_lookup_2.
    rewrite (o_id _ _ _ (row_occupied r Hr)). cbn. f_equal. unfold draft_count.
    by rewrite (ro_drafts _ _ _ (proj2 (proj2 (proj2 (row_in r Hr))))).
  - assert (InputBatch.req_ids b !! i = None) as ->; [|done].
    apply lookup_ge_None. rewrite (rs_length _ _ _ _ R). by apply lookup_ge_None.
Qed.

Lemma zip_with_ends (f : Z -> Z -> Z) (g : row -> Z) : zip_with f (np_cumsum (counts rows)) (map g rows) =
  map (fun er => f er.1 (g er.2)) ends.
Proof.
  unfold ends. generalize (np_cumsum (counts rows)). clear R F.
  induction rows as [|r rs IH]; intros [|e es]; cbn; [done..|]. by rewrite IH.
Qed.

Lemma map_ends (g : row -> Z) : map g rows = map (fun er => g er.2) ends.
Proof. rewrite <- ends_rows at 1. by rewrite map_map. Qed.

Lemma draft_sum : np_sum (map draft_count rows) <= np_sum (counts rows) /\ 0 <= np_sum (map draft_count rows).
Proof.
  assert (H : forall r, r ∈ rows -> draft_count r <= r_count r) by (intros r Hr; apply row_in in Hr as (_ & _ & _ & []); done).
  clear R F. unfold np_sum, counts. induction rows as [|r rs IH]; cbn; [lia|]. specialize (H r ltac:(left)) as Hr.
  assert (0 <= draft_count r) by (unfold draft_count; lia).
  destruct IH as [? ?]; [intros; apply H; by right|]. lia.
Qed.

Lemma logits_run top : np_sum (counts rows) <= top ->
  calc_spec_decode_metadata (seqZ 0 top) spec (InputBatch.req_ids b) (np_cumsum (counts rows)) = Ok (sampled ends).
Proof.
  intros Htop. unfold calc_spec_decode_metadata. rewrite draft_counts_run, zip_with_ends, (map_ends draft_count).
  assert (Hd : forall er, er ∈ ends -> 0 <= draft_count er.2) by (intros er _; unfold draft_count; lia).
  rewrite (np_repeat_run (fun er => er.1 - draft_count er.2) (fun er => draft_count er.2)) by done. cbn [mbind result_bind].
  rewrite <- (map_ends draft_count). destruct draft_sum as [Hs Hs0]. rewrite take_seqZ0 by lia.
  rewrite batched_arange_run by (apply Forall_forall; intros k (r & -> & _)%list_elem_of_fmap; unfold draft_count; lia).
  cbn [mbind result_bind]. rewrite (map_ends draft_count), map_map.
  rewrite np_zip_segments by (intros er Her; rewrite length_replicate, length_seqZ; done). f_equal.
  apply concat_map_ext. intros er Her. rewrite zip_with_replicate_l by apply length_seqZ. apply seqZ_from.
Qed.

Lemma last_indices : items spec = [] -> map (fun e => e - 1) (np_cumsum (counts rows)) = sampled ends.
Proof.
  intros Hi. assert (Hd : forall er, er ∈ ends -> r_drafts er.2 = []).
  { intros [e r] Her. apply ends_in in Her. destruct (row_in r Her) as (_ & _ & _ & [_ _ H _ _ _]). cbn. rewrite <- H.
    destruct spec as [l]. cbn in Hi. by rewrite Hi. }
  assert (Hf : map fst ends = np_cumsum (counts rows)).
  { apply fst_zip. unfold np_cumsum. rewrite length_cumsum. unfold counts. by rewrite length_map. }
  rewrite <- Hf, map_map. unfold sampled. clear Hf Hi. induction ends as [|er es IH]; [done|]. cbn [map concat].
  rewrite IH by (intros; apply Hd; by right). unfold row_sampled. rewrite (Hd er) by left. done.
Qed.

(** ** Cascade attention *)

Lemma fold_min_le (l : list Z) x : foldr Z.min x l <= x /\ (forall y, y ∈ l -> foldr Z.min x l <= y).
Proof.
  induction l as [|z l [IH1 IH2]]; cbn; [split; [lia|by intros y ?%elem_of_nil]|]. split; [lia|].
  intros y [->|Hy]%elem_of_cons; [lia|]. specialize (IH2 y Hy). lia.
Qed.

Lemma fold_min_pos (l : list Z) x : 0 <= x -> (forall y, y ∈ l -> 0 <= y) -> 0 <= foldr Z.min x l.
Proof. induction l as [|z l IH]; intros Hx Hl; cbn; [done|]. specialize (Hl z ltac:(left)) as Hz. assert (0 <= foldr Z.min x l) by (apply IH; [done|]; intros; apply Hl; by right). lia. Qed.

(** A prefix that cascade attention may share: whole blocks, which all the requests
    have computed. *)
Definition shared_prefix (cp : Z) : Prop :=
  0 <= cp <= V1Scheduler.num_common_prefix_blocks out * bs /\ cp mod bs = 0 /\ (forall r, r ∈ rows -> cp <= computed r).

Lemma rows_cons : exists r0 rs, rows = r0 :: rs.
Proof. pose proof (rs_some _ _ _ _ R). destruct rows as [|r0 rs]; [done|]. by exists r0, rs. Qed.

Lemma cascade_run use : 0 <= V1Scheduler.num_common_prefix_blocks out -> exists cp,
  compute_cascade_attn_prefix_len use bs (InputBatch.ints b InputBatch.NUM_COMPUTED_TOKENS) (counts rows)
    (V1Scheduler.num_common_prefix_blocks out) = Ok cp /\ shared_prefix cp.
Proof.
  intros Hk. pose proof (fi_size _ _ F) as Hbs. unfold compute_cascade_attn_prefix_len.
  unfold counts at 1. rewrite length_map, computed_run.
  set (k := V1Scheduler.num_common_prefix_blocks out) in *.
  assert (Hc : forall r, r ∈ rows -> 0 <= computed r) by (intros r Hr; by apply row_in in Hr as (_ & _ & _ & [])).
  assert (Hzero : shared_prefix 0) by (split_and!; [lia|nia|by rewrite Z.mod_0_l by lia|done]).
  destruct (Z.eqb_spec (k * bs) 0); [by exists 0|].
  destruct rows_cons as (r0 & rs & Hrows).
  rewrite Hrows. cbn [map]. set (lo := foldr Z.min (computed r0) (map computed rs)).
  destruct (use _ _); [|by exists 0]. eexists. split; [done|]. set (p := Z.min (k * bs) lo).
  assert (Hlo : forall r, r ∈ rows -> lo <= computed r).
  { intros r Hr. rewrite Hrows in Hr. destruct (fold_min_le (map computed rs) (computed r0)) as [H1 H2].
    apply elem_of_cons in Hr as [->|Hr]; [exact H1|]. apply H2. by apply list_elem_of_fmap_2. }
  assert (0 <= lo).
  { apply fold_min_pos; [apply Hc; rewrite Hrows; left|]. intros y (r & -> & Hr)%list_elem_of_fmap. apply Hc. rewrite Hrows. by right. }
  assert (0 <= p) by (unfold p; nia). pose proof (Z.mul_div_le p bs Hbs). pose proof (Z.div_pos p bs ltac:(lia) Hbs).
  assert (p <= k * bs /\ p <= lo) as [Hpk Hpl] by (unfold p; lia). unfold shared_prefix. fold k. split_and!.
  - nia.
  - nia.
  - by apply Z.mod_mul; lia.
  - intros r Hr. specialize (Hlo r Hr). nia.
Qed.

(** Something is scheduled. *)
Lemma rows_scheduled : 0 < V1Scheduler.total_num_scheduled_tokens out /\ InputBatch.num_reqs (input_batch s) <> O.
Proof.
  destruct rows_cons as (r0 & rs & Hrows). assert (Hr : r0 ∈ rows) by (rewrite Hrows; left).
  pose proof (ro_count _ _ _ (proj2 (proj2 (proj2 (row_in r0 Hr))))).
  pose proof (np_sum_ge (counts rows) (r_count r0) counts_pos (list_elem_of_fmap_2 r_count rows r0 Hr)).
  rewrite (rs_total _ _ _ _ R). split; [lia|]. pose proof (num_reqs_size _ _ (rs_batch _ _ _ _ R)) as ->.
  rewrite (rs_size _ _ _ _ R), Hrows. cbn. lia.
Qed.

Lemma prepared use : 0 <= V1Scheduler.num_common_prefix_blocks out -> exists cp,
  compute_inputs use s out = Ok (MkInputs (seg row_tokens) (seg row_positions) (seg (row_cache bs))
    (0 :: np_cumsum (counts rows)) (map (fun r => computed r + r_count r) rows) (foldr Z.max 0 (counts rows)) cp
    (sampled ends)) /\ shared_prefix cp.
Proof.
  intros Hk. destruct (cascade_run use Hk) as (cp & Hcp & Hsh). exists cp. split; [|done].
  pose proof draft_sum as [Hd1 Hd2]. pose proof (num_reqs_size _ _ (rs_batch _ _ _ _ R)) as Hnum.
  rewrite (rs_size _ _ _ _ R) in Hnum.
  assert (Hlen : (length rows <= n)%nat).
  { rewrite <- (rs_length _ _ _ _ R). apply (b_max _ _ _ _ _ (rs_batch _ _ _ _ R)). }
  pose proof (fi_tokens _ _ F) as Hmax. pose proof (z_slots _ _ _ _ (b_sized _ _ _ _ _ (rs_batch _ _ _ _ R))) as Hn.
  unfold compute_inputs. rewrite Hnum, (rs_total _ _ _ _ R), (fi_len _ _ F), (fi_blocks _ _ F), Hn.
  set (top := Z.max _ _). assert (Z.of_nat (length rows) <= top /\ np_sum (counts rows) <= top) as [Ht1 Ht2] by lia.
  rewrite ids_run. cbn [mbind result_bind]. rewrite (req_indices_run top Ht1). cbn [mbind result_bind].
  rewrite (arange_run top Ht2). cbn [mbind result_bind].
  rewrite starts_run. cbn [mbind result_bind]. rewrite positions_run. cbn [mbind result_bind].
  unfold broadcast at 1. rewrite bool_decide_eq_true_2 by (pose proof positions_length; lia). cbn [mbind result_bind].
  rewrite (row_base_run m) by apply F. rewrite token_indices_run. cbn [mbind result_bind].
  rewrite input_ids_run. cbn [mbind result_bind]. rewrite (row_base_run w) by apply F. rewrite table_indices_run.
  cbn [mbind result_bind]. rewrite block_numbers_run. cbn [mbind result_bind]. rewrite slot_mapping_run.
  cbn [mbind result_bind]. rewrite seq_lens_run. cbn [mbind result_bind]. rewrite Hcp. cbn [mbind result_bind].
  destruct (items spec) eqn:E; [by rewrite last_indices|]. by rewrite (logits_run top Ht2).
Qed.
End Prepared.
End Rows.
End Inputs.
