(* ===== verification/WorkerStep.v ===== *)
(** * v1 workers: what a message says, and what is computed of the batch

    [update_states] leaves the sizes of a runner alone; a worker that follows the
    requests still follows them after a message that is true of them; and
    [compute_inputs] then gives the tokens, positions and cache slots of the
    message, request by request, whatever the order of the slots. *)
From stdpp Require Import sorting.
From S2P Require Import Prelude.
From S2P Require Import PyDict.
From S2P Require Import V1Request.
From S2P Require Import V1Scheduler.
From S2P Require Import Params.
From S2P Require Import Arrays.
From S2P Require Import WorkerBlockTable.
From S2P Require Import InputBatch.
From S2P Require Import InputBatchCorrect.
From S2P Require Import ModelRunner.
From S2P Require Import ModelRunnerCorrect.
From S2P Require Import ModelRunnerInputs.

Module WorkerStep.
Import ModelRunner.
Import Slots.
Import Runner.
Import Inputs.

(** ** The sizes of a runner do not change *)

Section Frame.
Context {S : Type} (I : S -> Prop).

Lemma preserves_fetch {A} (c : column S A) i : preserves I (fetch c i).
Proof. apply preserves_bind; [apply preserves_gets|]. intros; apply preserves_lift. Qed.

Lemma preserves_store {A} (c : column S A) i x : (forall l s, I s -> I (write c l s)) -> preserves I (store c i x).
Proof.
  intros H. apply preserves_bind; [apply preserves_gets|]. intros l.
  destruct (bool_decide _); [by apply preserves_modify, H|apply preserves_raise].
Qed.

Lemma preserves_move {A} (c : column S A) i j : (forall l s, I s -> I (write c l s)) -> preserves I (move c i j).
Proof. intros H. apply preserves_bind; [apply preserves_fetch|]. intros; by apply preserves_store. Qed.

Lemma preserves_store_slice {A} (c : column S (list A)) i lo hi l : (forall l s, I s -> I (write c l s)) ->
  preserves I (store_slice c i lo hi l).
Proof.
  intros H. apply preserves_bind; [apply preserves_fetch|]. intros row.
  apply preserves_bind; [apply preserves_lift|]. intros; by apply preserves_store.
Qed.

Lemma preserves_swap {A} (c : column S A) i j : (forall l s, I s -> I (write c l s)) -> preserves I (swap c i j).
Proof.
  intros H. apply preserves_bind; [apply preserves_fetch|]. intros x.
  apply preserves_bind; [apply preserves_fetch|]. intros y.
  apply preserves_bind; [by apply preserves_store|]. intros []. by apply preserves_store.
Qed.
End Frame.

Ltac frame := repeat first
  [ assumption
  | apply preserves_bind; [|intros ?]
  | apply preserves_ret | apply preserves_raise | apply preserves_gets | apply preserves_get | apply preserves_lift
  | apply preserves_assert | apply preserves_for_each; intros ? | apply preserves_map_each; intros ?
  | apply preserves_fetch
  | apply preserves_store; intros ? ? ?; assumption
  | apply preserves_move; intros ? ? ?; assumption
  | apply preserves_store_slice; intros ? ? ?; assumption
  | apply preserves_modify; intros ? ?; repeat case_match; assumption
  | case_match ].

Section Sizes.
Context (k : nat).
Definition row_size (b : InputBatch.t) : Prop := InputBatch.max_model_len b = k.

Lemma on_table_size {A} (f : M WorkerBlockTable.t A) : preserves row_size (InputBatch.on_table f).
Proof. intros b H. unfold InputBatch.on_table. by destruct (f _). Qed.

Lemma join_size g id : preserves row_size (InputBatch.join g id).
Proof. by apply preserves_modify. Qed.

Lemma leave_size g id : preserves row_size (InputBatch.leave g id).
Proof. by apply preserves_modify. Qed.

Lemma join_if_size c g id : preserves row_size (InputBatch.join_if c g id).
Proof. destruct c; [apply join_size|apply preserves_ret]. Qed.

Ltac sizes := repeat first [ progress frame | apply on_table_size | apply join_size | apply leave_size | apply join_if_size ].

Lemma add_tokens_size r o i : preserves row_size (InputBatch.add_tokens r o i).
Proof. unfold InputBatch.add_tokens. sizes. Qed.

Lemma add_sampling_size r i : preserves row_size (InputBatch.add_sampling r i).
Proof. unfold InputBatch.add_sampling. sizes. Qed.

Lemma add_optional_size r i : preserves row_size (InputBatch.add_optional r i).
Proof. unfold InputBatch.add_optional. sizes. Qed.

Lemma add_allowed_size r i : preserves row_size (InputBatch.add_allowed r i).
Proof. unfold InputBatch.add_allowed. sizes. Qed.

Lemma add_lora_size r i : preserves row_size (InputBatch.add_lora r i).
Proof. unfold InputBatch.add_lora. sizes. Qed.

Lemma add_request_size r o j : preserves row_size (InputBatch.add_request r o j).
Proof.
  unfold InputBatch.add_request.
  repeat first [ progress sizes | apply add_tokens_size | apply add_sampling_size | apply add_optional_size
               | apply add_allowed_size | apply add_lora_size ].
Qed.

Lemma remove_request_size id : preserves row_size (InputBatch.remove_request id).
Proof. unfold InputBatch.remove_request, InputBatch.remove_lora, InputBatch.clear_mask_row. sizes. Qed.

Lemma move_request_size src dst : preserves row_size (InputBatch.move_request src dst).
Proof. unfold InputBatch.move_request. sizes. Qed.

Lemma condense_loop_size fuel : forall empty top, preserves row_size (InputBatch.condense_loop fuel empty top).
Proof.
  induction fuel as [|fuel IH]; intros empty top; cbn [InputBatch.condense_loop];
    repeat first [ progress sizes | apply move_request_size | apply IH ].
Qed.

Lemma condense_size empty : preserves row_size (InputBatch.condense empty).
Proof. unfold InputBatch.condense. repeat first [ progress sizes | apply condense_loop_size ]. Qed.

Lemma refresh_size : preserves row_size InputBatch.refresh_sampling_metadata.
Proof. unfold InputBatch.refresh_sampling_metadata. sizes. Qed.

Lemma swap_states_size i j : preserves row_size (InputBatch.swap_states i j).
Proof.
  unfold InputBatch.swap_states. repeat first [ progress sizes | apply preserves_swap; intros ? ? ?; assumption ].
Qed.

Lemma update_slot_size spec d i : preserves row_size (update_slot spec d i).
Proof. unfold update_slot. sizes. Qed.
End Sizes.

(** What [update_states] leaves alone. *)
Definition limits (s : t) : Z * Z * nat * nat :=
  (block_size s, max_num_blocks_per_req s, max_num_tokens s, InputBatch.max_model_len (input_batch s)).

Section Limits.
Context (z : Z * Z * nat * nat) (params_of : V1Scheduler.NewRequestData -> Params.t).
Definition limited (s : t) : Prop := limits s = z.

Lemma on_batch_limits {A} (f : M InputBatch.t A) : (forall k, preserves (row_size k) f) -> preserves limited (on_batch f).
Proof.
  intros H s Hs. unfold on_batch. specialize (H (InputBatch.max_model_len (input_batch s)) (input_batch s) eq_refl).
  destruct (f _) as [r b]. unfold limited, limits, row_size in *. cbn in *. by rewrite H.
Qed.

Ltac limits := repeat first
  [ progress frame
  | apply on_batch_limits; intros ?;
    first [ apply add_request_size | apply remove_request_size | apply condense_size | apply refresh_size | apply update_slot_size ] ].

Lemma add_all_limits l : forall empty, preserves limited (add_all l empty).
Proof.
  induction l as [|id l IH]; intros empty; cbn [add_all]; [apply preserves_ret|]. unfold request, list_at.
  repeat first [ progress limits | apply IH ].
Qed.

Lemma update_states_limits out : preserves limited (update_states params_of out).
Proof.
  unfold update_states, forget, remove_all, remove_one, free_encoder_output, add_new, fresh, update_request, update_cached,
    request, list_at. repeat first [ progress limits | apply add_all_limits ].
Qed.
End Limits.

(** ** What a message asks for *)

(** The computation of a request in a step: tokens from a position on, of which the
    last ones may be drafts. *)
Record job : Type := Job {
  j_id : string;
  j_start : Z;
  j_tokens : list Z;
  j_drafts : list Z;
}.

Definition j_count (j : job) : Z := Z.of_nat (length (j_tokens j)).

Definition drafts_of (out : V1Scheduler.SchedulerOutput) (id : string) : list Z :=
  default [] (V1Scheduler.scheduled_spec_decode_tokens out !! id).

(** Tokens of the prompt for a new request, the new tokens and the drafts for a
    known one. *)
Inductive asked (out : V1Scheduler.SchedulerOutput) : job -> Prop :=
| asked_new (d : V1Scheduler.NewRequestData) k : d ∈ V1Scheduler.scheduled_new_reqs out ->
    V1Scheduler.num_scheduled_tokens out !! V1Scheduler.new_req_id d = Some k ->
    asked out (Job (V1Scheduler.new_req_id d) (V1Scheduler.new_req_num_computed_tokens d)
      (take (Z.to_nat k) (drop (Z.to_nat (V1Scheduler.new_req_num_computed_tokens d)) (V1Scheduler.new_prompt_token_ids d)))
      (drafts_of out (V1Scheduler.new_req_id d)))
| asked_cached d : d ∈ V1Scheduler.scheduled_cached_reqs out ->
    asked out (Job (V1Scheduler.req_id d) (V1Scheduler.num_computed_tokens d)
      (V1Scheduler.new_token_ids d ++ drafts_of out (V1Scheduler.req_id d)) (drafts_of out (V1Scheduler.req_id d))).

(** The inputs of the model for a list of jobs: their tokens and positions, one
    after the other, the cache slots of the positions, and the positions to sample
    from. *)
Definition inputs_of (bs : Z) (B : string -> list Z) (cp : Z) (jobs : list job) : Inputs :=
  let ends := np_cumsum (map j_count jobs) in
  MkInputs
    (concat (map j_tokens jobs))
    (concat (map (fun j => seqZ (j_start j) (j_count j)) jobs))
    (concat (map (fun j => map (cache_slot bs (B (j_id j))) (seqZ (j_start j) (j_count j))) jobs))
    (0 :: ends)
    (map (fun j => j_start j + j_count j) jobs)
    (foldr Z.max 0 (map j_count jobs))
    cp
    (concat (zip_with (fun e j => let k := 1 + Z.of_nat (length (j_drafts j)) in seqZ (e - k) k) ends jobs)).

(** ** What the worker knows, against what is true *)

Section Step.
Context {n m w : nat} (vocab : Z) (params_of : V1Scheduler.NewRequestData -> Params.t).
Implicit Types (T B : string -> list Z) (L : gset string) (C : gmap string slot) (x : slot).

Local Abbreviation new_ids out := (map V1Scheduler.new_req_id (V1Scheduler.scheduled_new_reqs out)).
Local Abbreviation cached_ids out := (map V1Scheduler.req_id (V1Scheduler.scheduled_cached_reqs out)).

Definition known_tokens (s : t) (r : CachedRequestState) : list Z := cached_prompt_token_ids r ++ output_of s r.

(** The worker follows the requests whose tokens are [T] and whose blocks are [B]:
    their blocks are known, the tokens of their slots are right, and those of the
    requests in [L] are known without a gap. *)
Record follows (s : t) C T B L : Prop := Follows {
  v_blocks : forall id r, requests s !! id = Some r -> cached_block_ids r = B id;
  v_tokens : forall id r, requests s !! id = Some r -> id ∈ L -> known_tokens s r `prefix_of` T id;
  v_slot : forall id x, C !! id = Some x ->
    let k := s_int x InputBatch.NUM_TOKENS_NO_SPEC in
    0 <= k <= Z.of_nat (length (s_tokens x)) /\ take (Z.to_nat k) (s_tokens x) `prefix_of` T id;
}.

(** A message is true of the requests, whose tokens and blocks are now [T'] and
    [B']: a new request comes with its prompt; the new tokens of a known one are
    those of the request from [num_computed_tokens] on, before which the slot
    shows its tokens or drafts that were accepted; a request that returns to the
    batch is known without a gap, and has no drafts. *)
Record truthful (s : t) C T T' B B' L L' (out : V1Scheduler.SchedulerOutput) : Prop := Truthful {
  tr_new : forall d : V1Scheduler.NewRequestData, d ∈ V1Scheduler.scheduled_new_reqs out ->
    T' (V1Scheduler.new_req_id d) = V1Scheduler.new_prompt_token_ids d /\
    B' (V1Scheduler.new_req_id d) = V1Scheduler.new_req_block_ids d;
  tr_cached : forall d r, d ∈ V1Scheduler.scheduled_cached_reqs out -> requests s !! V1Scheduler.req_id d = Some r ->
    let c := V1Scheduler.num_computed_tokens d in
    let new := V1Scheduler.new_token_ids d in
    0 <= c /\ new = take (length new) (drop (Z.to_nat c) (T' (V1Scheduler.req_id d))) /\
    B' (V1Scheduler.req_id d) = given_blocks d r /\
    match C !! V1Scheduler.req_id d with
    | Some x => c <= Z.of_nat (length (s_tokens x)) /\
        take (Z.to_nat c) (s_tokens x) `prefix_of` T' (V1Scheduler.req_id d)
    | None => V1Scheduler.req_id d ∈ L /\ c <= Z.of_nat (length (known_tokens s r)) /\ drafts_of out (V1Scheduler.req_id d) = []
    end;
  tr_grow : forall id, is_Some (requests s !! id) -> id ∉ V1Scheduler.out_finished_req_ids out -> id ∉ new_ids out ->
    T id `prefix_of` T' id;
  tr_same : forall id, is_Some (requests s !! id) -> id ∉ V1Scheduler.out_finished_req_ids out ->
    id ∉ keys (V1Scheduler.num_scheduled_tokens out) -> B' id = B id;
  tr_whole : forall id, id ∈ L' -> id ∈ new_ids out \/ (id ∈ L /\
    forall d r, d ∈ V1Scheduler.scheduled_cached_reqs out -> V1Scheduler.req_id d = id -> requests s !! id = Some r ->
      V1Scheduler.num_computed_tokens d <= Z.of_nat (length (known_tokens s r)));
}.

(** ** Tokens that are heard *)

Lemma prefix_take {A} (l k : list A) : l `prefix_of` k -> l = take (length l) k.
Proof. intros [e ->]. by rewrite take_app_length. Qed.

Lemma take_prefix {A} (l : list A) i : take i l `prefix_of` l.
Proof. exists (drop i l). by rewrite take_drop. Qed.

(** The newest tokens of a message. *)
Lemma heard_tokens d r o : V1Scheduler.new_token_ids d <> [] ->
  let new := V1Scheduler.new_token_ids d in
  let known := cached_prompt_token_ids r ++ o in
  let fresh := V1Scheduler.num_computed_tokens d + Z.of_nat (length new) - Z.of_nat (length known) in
  0 <= V1Scheduler.num_computed_tokens d <= Z.of_nat (length known) ->
  cached_prompt_token_ids r ++ heard d r o = known ++ drop (length new - Z.to_nat fresh) new.
Proof.
  intros Hne new known fresh Hc. unfold heard. fold new.
  assert (Hf : V1Scheduler.num_computed_tokens d + Z.of_nat (length new) -
    (Z.of_nat (length (cached_prompt_token_ids r)) + Z.of_nat (length o)) = fresh).
  { unfold fresh, known. rewrite length_app. lia. }
  rewrite Hf. clear Hf. unfold known at 1. rewrite <- app_assoc. f_equal.
  destruct (Z.eqb_spec fresh 1) as [H1|H1]; [|destruct (Z.ltb_spec 0 fresh) as [H2|H2]].
  - rewrite H1. f_equal. destruct (exists_last Hne) as (l & a & He). fold new in He. rewrite He, last_snoc, length_app.
    cbn [length]. replace (length l + 1 - Z.to_nat 1)%nat with (length l) by lia. by rewrite drop_app_length.
  - f_equal. unfold py_slice. rewrite (slice_bound_in new (Z.of_nat (length new))), Nat2Z.id by lia.
    assert (slice_bound new (- fresh) = (length new - Z.to_nat fresh)%nat) as ->.
    { unfold slice_bound. destruct (Z.ltb_spec (- fresh) 0); [|lia]. lia. }
    apply take_ge. rewrite length_drop. lia.
  - rewrite drop_ge by lia. by rewrite app_nil_r.
Qed.

Lemma known_extends (K T' new : list Z) c : K `prefix_of` T' -> 0 <= c <= Z.of_nat (length K) -> new <> [] ->
  new = take (length new) (drop (Z.to_nat c) T') ->
  let fresh := c + Z.of_nat (length new) - Z.of_nat (length K) in
  K ++ drop (length new - Z.to_nat fresh) new = take (Nat.max (length K) (Z.to_nat c + length new)) T'.
Proof.
  intros HK Hc Hne Hnew fresh. rewrite (prefix_take K T' HK) at 1.
  destruct (Z.leb_spec fresh 0) as [Hf|Hf].
  - rewrite drop_ge, app_nil_r by lia. f_equal. lia.
  - replace (Nat.max (length K) (Z.to_nat c + length new)) with (length K + Z.to_nat fresh)%nat by lia.
    rewrite <- take_take_drop. f_equal.
    set (a := (length K - Z.to_nat c)%nat). set (f := Z.to_nat fresh).
    assert (Hlen : length new = (a + f)%nat) by (unfold a, f; lia). rewrite Hlen in *.
    replace (a + f - f)%nat with a by lia. rewrite Hnew, <- take_drop_commute, drop_drop. do 2 f_equal. unfold a. lia.
Qed.

(** ** The worker keeps following *)

Lemma row_shows s X C E id x : @runner_inv n m w vocab s X C E -> C !! id = Some x ->
  exists row, row_of (input_batch s) id = Some row /\ length row = m /\ holds row (s_tokens x).
Proof.
  intros I Hx. destruct (row_of_some vocab s X C E id x I Hx) as (row & Hrow & Hlen). exists row. split_and!; [done..|].
  destruct I as [P _ _ _]. destruct (content_slot _ X C E id x P Hx) as (i & Hi & _ & Hidx).
  unfold row_of in Hrow. rewrite Hidx in Hrow. cbn in Hrow.
  destruct (o_tokens _ _ _ (b_slots _ _ _ _ _ (p_batch _ _ _ _ P) i x Hi)) as (row' & Hrow' & Hh). congruence.
Qed.

Section Heard.
Context (s s' : t) (X : gmap nat slot) (C C' : gmap string slot) (out : V1Scheduler.SchedulerOutput).
Context (T T' B B' : string -> list Z) (L L' : gset string).
Context (I : @runner_inv n m w vocab s X C []) (V : follows s C T B L) (Q : @message_ok n m w params_of vocab s C out).
Context (R : truthful s C T T' B B' L L' out) (H : message_heard params_of vocab s s' C C' out).

Lemma scheduled_cases id : id ∈ keys (V1Scheduler.num_scheduled_tokens out) ->
  (exists d : V1Scheduler.NewRequestData, d ∈ V1Scheduler.scheduled_new_reqs out /\ id = V1Scheduler.new_req_id d) \/
  (exists d, d ∈ V1Scheduler.scheduled_cached_reqs out /\ id = V1Scheduler.req_id d).
Proof.
  rewrite (q_keys _ _ _ _ _ Q). intros [(d & -> & Hd)%list_elem_of_fmap|(d & -> & Hd)%list_elem_of_fmap]%elem_of_app;
    [left|right]; by exists d.
Qed.

Lemma new_not_cached d : d ∈ V1Scheduler.scheduled_cached_reqs out -> V1Scheduler.req_id d ∉ new_ids out.
Proof.
  intros Hd Hn. pose proof (q_nodup _ _ _ _ _ Q) as (_ & Hdis & _)%NoDup_app. apply (Hdis _ Hn). by apply list_elem_of_fmap_2.
Qed.

(** The tokens of a request that the runner knew without a gap. *)
Lemma told_tokens d r : d ∈ V1Scheduler.scheduled_cached_reqs out -> requests s !! V1Scheduler.req_id d = Some r ->
  V1Scheduler.req_id d ∈ L -> V1Scheduler.num_computed_tokens d <= Z.of_nat (length (known_tokens s r)) ->
  cached_prompt_token_ids r ++ heard d r (output_of s r) =
  take (Nat.max (length (known_tokens s r)) (Z.to_nat (V1Scheduler.num_computed_tokens d) + length (V1Scheduler.new_token_ids d)))
    (T' (V1Scheduler.req_id d)).
Proof.
  intros Hd Hr HL Hc. destruct (q_cached _ _ _ _ _ Q d Hd) as (Hni & r' & Hr' & (Hne & _) & _).
  destruct (tr_cached _ _ _ _ _ _ _ _ _ R d r Hd Hr) as (Hc0 & Hnew & _).
  assert (HK : known_tokens s r `prefix_of` T' (V1Scheduler.req_id d)).
  { etransitivity; [by apply (v_tokens _ _ _ _ _ V)|]. apply (tr_grow _ _ _ _ _ _ _ _ _ R); [by exists r|done|by apply new_not_cached]. }
  rewrite heard_tokens by done. by apply known_extends.
Qed.

Lemma heard_blocks id r : requests s' !! id = Some r -> cached_block_ids r = B' id.
Proof.
  intros Hr. destruct (decide (id ∈ keys (V1Scheduler.num_scheduled_tokens out))) as [Hk|Hk].
  - destruct (scheduled_cases id Hk) as [(d & Hd & ->)|(d & Hd & ->)].
    + destruct (h_new _ _ _ _ _ _ _ H d Hd) as (r' & Hr' & F & _). rewrite Hr in Hr'. injection Hr' as <-.
      rewrite (n_blocks _ _ _ F). symmetry. by apply R.
    + destruct (h_cached _ _ _ _ _ _ _ H d Hd) as (r0 & Hr0 & Hr' & _). rewrite Hr in Hr'. injection Hr' as ->.
      destruct (tr_cached _ _ _ _ _ _ _ _ _ R d r0 Hd Hr0) as (_ & _ & -> & _). done.
  - destruct (h_others _ _ _ _ _ _ _ H id Hk) as [Ho _]. rewrite Hr in Ho. case_decide as Hf; [done|].
    rewrite (tr_same _ _ _ _ _ _ _ _ _ R id) by (done || by exists r). by apply V.
Qed.

Lemma heard_known id r : requests s' !! id = Some r -> id ∈ L' -> known_tokens s' r `prefix_of` T' id.
Proof.
  intros Hr HL'. destruct (decide (id ∈ keys (V1Scheduler.num_scheduled_tokens out))) as [Hk|Hk].
  - destruct (scheduled_cases id Hk) as [(d & Hd & ->)|(d & Hd & ->)].
    + destruct (h_new _ _ _ _ _ _ _ H d Hd) as (r' & Hr' & F & Ho & _). rewrite Hr in Hr'. injection Hr' as <-.
      unfold known_tokens. rewrite Ho, app_nil_r, (n_prompt _ _ _ F). destruct (tr_new _ _ _ _ _ _ _ _ _ R d Hd) as [-> _]. done.
    + destruct (h_cached _ _ _ _ _ _ _ H d Hd) as (r0 & Hr0 & Hr' & Ho & _). rewrite Hr in Hr'. injection Hr' as ->.
      destruct (tr_whole _ _ _ _ _ _ _ _ _ R _ HL') as [Hn|[HL Hc]]; [by destruct (new_not_cached d Hd)|].
      unfold known_tokens. rewrite Ho. change (cached_prompt_token_ids (told d r0)) with (cached_prompt_token_ids r0).
      rewrite (told_tokens d r0 Hd Hr0 HL (Hc d r0 Hd eq_refl Hr0)). apply take_prefix.
  - destruct (h_others _ _ _ _ _ _ _ H id Hk) as [Ho Hout]. unfold known_tokens. rewrite (Hout r Hr).
    rewrite Hr in Ho. case_decide as Hf; [done|]. assert (Hn : id ∉ new_ids out).
    { intros Hn. apply Hk, (q_keys _ _ _ _ _ Q), elem_of_app. by left. }
    destruct (tr_whole _ _ _ _ _ _ _ _ _ R _ HL') as [?|[HL _]]; [done|].
    etransitivity; [by apply (v_tokens _ _ _ _ _ V)|]. by apply (tr_grow _ _ _ _ _ _ _ _ _ R); [exists r|..].
Qed.

(** What the slot of a known request shows after the message. *)
Record shows (d : V1Scheduler.CachedRequestData) (x : slot) : Prop := Shows {
  sh_tokens : exists rest, s_tokens x =
    take (Z.to_nat (V1Scheduler.num_computed_tokens d) + length (V1Scheduler.new_token_ids d)) (T' (V1Scheduler.req_id d)) ++ rest /\
    (drafts_of out (V1Scheduler.req_id d) <> [] -> rest = drafts_of out (V1Scheduler.req_id d));
  sh_prefix : let k := s_int x InputBatch.NUM_TOKENS_NO_SPEC in
    0 <= k <= Z.of_nat (length (s_tokens x)) /\ take (Z.to_nat k) (s_tokens x) `prefix_of` T' (V1Scheduler.req_id d);
  sh_computed : s_int x InputBatch.NUM_COMPUTED_TOKENS = V1Scheduler.num_computed_tokens d;
}.

Lemma extend_prefix (l new k : list Z) c : l `prefix_of` k -> length l = c -> new = take (length new) (drop c k) ->
  l ++ new = take (c + length new) k.
Proof. intros Hl <- Hnew. rewrite (prefix_take l k Hl) at 1. rewrite Hnew at 1. apply take_take_drop. Qed.

Lemma cached_shows d x : d ∈ V1Scheduler.scheduled_cached_reqs out -> C' !! V1Scheduler.req_id d = Some x -> shows d x.
Proof.
  intros Hd Hx. destruct (h_cached _ _ _ _ _ _ _ H d Hd) as (r & Hr & _ & _ & HC).
  destruct (tr_cached _ _ _ _ _ _ _ _ _ R d r Hd Hr) as (Hc0 & Hnew & _ & Hcase).
  destruct (C !! V1Scheduler.req_id d) as [x0|] eqn:Hx0; rewrite HC in Hx; clear HC.
  - destruct (row_shows s X C [] _ x0 I Hx0) as (row & Hrow & _ & Hh). rewrite Hrow in Hx. cbn in Hx. injection Hx as <-.
    destruct Hcase as [Hc Hpre].
    assert (Ht : take (Z.to_nat (V1Scheduler.num_computed_tokens d)) row = take (Z.to_nat (V1Scheduler.num_computed_tokens d)) (s_tokens x0)).
    { rewrite Hh, take_take. f_equal. lia. }
    pose proof (extend_prefix _ (V1Scheduler.new_token_ids d) _ (Z.to_nat (V1Scheduler.num_computed_tokens d)) Hpre
      ltac:(rewrite length_take; lia) Hnew) as He.
    assert (Hlen : length (take (Z.to_nat (V1Scheduler.num_computed_tokens d)) (s_tokens x0)) =
      Z.to_nat (V1Scheduler.num_computed_tokens d)) by (rewrite length_take; lia).
    split; cbn [advance s_tokens s_int]; rewrite ?Ht.
    + exists (drafts_of out (V1Scheduler.req_id d)). split; [|done]. by rewrite app_assoc, He.
    + rewrite !length_app, Hlen. split; [lia|]. rewrite app_assoc, take_app_length'.
      * rewrite He. apply take_prefix.
      * rewrite length_app, Hlen. lia.
    + done.
  - injection Hx as <-. destruct Hcase as (HL & Hc & Hno). pose proof (told_tokens d r Hd Hr HL Hc) as He.
    set (k := Nat.max _ _) in He. set (c := (_ + _)%nat) in k |- *.
    split; cbn [slot_of s_tokens s_int told cached_with cached_prompt_token_ids cached_num_computed_tokens].
    + fold c. rewrite He. exists (take (k - c) (drop c (T' (V1Scheduler.req_id d)))). split; [|by rewrite Hno].
      rewrite take_take_drop. f_equal. unfold k. lia.
    + cbn. rewrite He. pose proof (f_equal length He) as Hlen. rewrite length_app in Hlen.
      split; [lia|]. rewrite take_ge by lia. apply take_prefix.
    + done.
Qed.

Lemma heard_slot id x : C' !! id = Some x -> let k := s_int x InputBatch.NUM_TOKENS_NO_SPEC in
  0 <= k <= Z.of_nat (length (s_tokens x)) /\ take (Z.to_nat k) (s_tokens x) `prefix_of` T' id.
Proof.
  intros Hx. destruct (scheduled_cases id) as [(d & Hd & ->)|(d & Hd & ->)].
  - apply (h_scheduled _ _ _ _ _ _ _ H). by exists x.
  - destruct (h_new _ _ _ _ _ _ _ H d Hd) as (r & _ & F & _ & HC). rewrite Hx in HC. injection HC as ->.
    cbn. rewrite app_nil_r, (n_prompt _ _ _ F). split; [lia|]. destruct (tr_new _ _ _ _ _ _ _ _ _ R d Hd) as [-> _]. apply take_prefix.
  - by apply sh_prefix, cached_shows.
Qed.

Lemma follows_heard : follows s' C' T' B' L'.
Proof. split; [exact heard_blocks|exact heard_known|exact heard_slot]. Qed.
End Heard.

(** ** The inputs of a step *)

(** A message that can be computed: it schedules something, at least a token after
    the drafts of each request, within the prompts and within the blocks. *)
Record computable (bs : Z) B (out : V1Scheduler.SchedulerOutput) : Prop := Computable {
  c_some : items (V1Scheduler.num_scheduled_tokens out) <> [];
  c_dict : wf_dict (V1Scheduler.num_scheduled_tokens out);
  c_total : V1Scheduler.total_num_scheduled_tokens out = np_sum (values (V1Scheduler.num_scheduled_tokens out));
  c_new : forall d : V1Scheduler.NewRequestData, d ∈ V1Scheduler.scheduled_new_reqs out -> exists k,
    V1Scheduler.num_scheduled_tokens out !! V1Scheduler.new_req_id d = Some k /\ 1 <= k /\
    0 <= V1Scheduler.new_req_num_computed_tokens d /\
    V1Scheduler.new_req_num_computed_tokens d + k <= Z.of_nat (length (V1Scheduler.new_prompt_token_ids d)) /\
    drafts_of out (V1Scheduler.new_req_id d) = [];
  c_cached : forall d, d ∈ V1Scheduler.scheduled_cached_reqs out ->
    V1Scheduler.num_scheduled_tokens out !! V1Scheduler.req_id d =
      Some (Z.of_nat (length (V1Scheduler.new_token_ids d ++ drafts_of out (V1Scheduler.req_id d))));
  c_blocks : forall j, asked out j -> j_start j + j_count j <= Z.of_nat (length (B (j_id j))) * bs /\
    Forall (fun b => 0 <= b /\ b * bs + bs <= 2 ^ 31) (B (j_id j));
  c_common : 0 <= V1Scheduler.num_common_prefix_blocks out;
}.

(** The sizes of a runner, whose indices fit in 32 bits. *)
Record sizes_ok (s : t) (out : V1Scheduler.SchedulerOutput) : Prop := SizesOk {
  so_len : InputBatch.max_model_len (input_batch s) = m;
  so_blocks : max_num_blocks_per_req s = Z.of_nat w;
  so_size : 0 < block_size s;
  so_tokens : V1Scheduler.total_num_scheduled_tokens out <= Z.of_nat (max_num_tokens s);
  so_token_indices : Z.of_nat n * Z.of_nat m <= 2 ^ 31;
  so_block_indices : Z.of_nat n * Z.of_nat w <= 2 ^ 31;
}.

(** The rows of the batch, in the order of the slots. *)
Definition rows_of (out : V1Scheduler.SchedulerOutput) (X : gmap nat slot) : list row :=
  omap (fun i => x ← X !! i; k ← V1Scheduler.num_scheduled_tokens out !! s_id x;
    Some (Row i x k (drafts_of out (s_id x)))) (seq 0 (size X)).

Definition job_of (r : row) : job := Job (s_id (r_slot r)) (computed r) (row_tokens r) (r_drafts r).

Lemma omap_total {A A'} (f : A -> option A') l : (forall a, a ∈ l -> is_Some (f a)) ->
  length (omap f l) = length l /\ forall i, omap f l !! i = l !! i ≫= f.
Proof.
  induction l as [|a l IH]; intros H; [done|]. destruct (H a ltac:(left)) as [a' Ha]. cbn. rewrite Ha.
  destruct IH as [Hl Hi]; [intros; apply H; by right|]. split; [cbn; lia|]. intros [|i]; cbn; [done|]. apply Hi.
Qed.

Section Rows.
Context (s s' : t) (X X' : gmap nat slot) (C C' : gmap string slot) (out : V1Scheduler.SchedulerOutput).
Context (T T' B B' : string -> list Z) (L L' : gset string).
Context (I : @runner_inv n m w vocab s X C []) (V : follows s C T B L) (Q : @message_ok n m w params_of vocab s C out).
Context (R : truthful s C T T' B B' L L' out) (H : message_heard params_of vocab s s' C C' out).
Context (I' : @runner_inv n m w vocab s' X' C' []) (P : computable (block_size s') B' out).

(** The slot of a scheduled request shows the tokens of its job. *)
Lemma slot_job id x k i : C' !! id = Some x -> V1Scheduler.num_scheduled_tokens out !! id = Some k ->
  let r := Row i x k (drafts_of out id) in
  s_id x = id /\ asked out (job_of r) /\ j_count (job_of r) = k /\ 0 <= computed r /\
  1 + Z.of_nat (length (r_drafts r)) <= k /\ computed r + k <= Z.of_nat (length (s_tokens x)).
Proof.
  intros Hx Hk r. assert (Hid : s_id x = id).
  { by apply (p_content _ _ _ _ (i_open _ _ _ _ _ I')) in Hx as (j & _ & ?). }
  split; [done|]. unfold job_of, j_count, row_tokens, computed, r. cbn [r_slot r_count r_drafts j_tokens].
  destruct (scheduled_cases s C out Q id) as [(d & Hd & ->)|(d & Hd & ->)].
  - apply elem_of_keys. by exists k.
  - destruct (h_new _ _ _ _ _ _ _ H d Hd) as (r' & _ & F & _ & HC). rewrite Hx in HC. injection HC as ->.
    destruct (c_new _ _ _ P d Hd) as (k' & Hk' & H1 & H2 & H3 & H4). rewrite Hk in Hk'. injection Hk' as <-. rewrite H4.
    cbn [slot_of s_tokens s_int s_id]. rewrite app_nil_r, (n_prompt _ _ _ F).
    change (default 0 (token_ints r' [] InputBatch.NUM_COMPUTED_TOKENS)) with (cached_num_computed_tokens r').
    rewrite (n_computed _ _ _ F), (n_id _ _ _ F). split_and!; [|rewrite length_take, length_drop; lia|cbn;lia..].
    pose proof (asked_new out d k Hd Hk) as Ha. by rewrite H4 in Ha.
  - destruct (cached_shows s s' X C C' out T T' B B' L L' I V Q R H d x Hd Hx) as [(rest & Ht & Hrest) _ Hc]. rewrite Hc, Ht, Hid.
    destruct (q_cached _ _ _ _ _ Q d Hd) as (_ & r0 & Hr0 & (Hne & _) & _).
    destruct (tr_cached _ _ _ _ _ _ _ _ _ R d r0 Hd Hr0) as (Hc0 & Hnew & _).
    rewrite (c_cached _ _ _ P d Hd) in Hk. injection Hk as <-.
    set (new := V1Scheduler.new_token_ids d) in *. set (tokens := T' (V1Scheduler.req_id d)) in *.
    set (c := Z.to_nat (V1Scheduler.num_computed_tokens d)) in *. set (dr := drafts_of out (V1Scheduler.req_id d)) in *.
    assert (Hl : (1 <= length new)%nat) by (destruct new; [done|cbn; lia]).
    assert (Hfit : (c + length new <= length tokens)%nat).
    { apply (f_equal length) in Hnew. rewrite length_take, length_drop in Hnew. lia. }
    assert (Hd2 : length (take (c + length new) tokens) = (c + length new)%nat) by (rewrite length_take; lia).
    assert (Htok : take (Z.to_nat (Z.of_nat (length (new ++ dr)))) (drop c (take (c + length new) tokens ++ rest)) = new ++ dr).
    { rewrite Nat2Z.id, drop_app_le by lia. rewrite <- take_drop_commute, <- Hnew, length_app.
      destruct (decide (dr = [])) as [He|He].
      - rewrite He, app_nil_r, Nat.add_0_r. by rewrite take_app_length.
      - rewrite (Hrest He). apply take_ge. rewrite length_app. lia. }
    fold c. rewrite Htok. split_and!; [by apply asked_cached|done|done|rewrite length_app; lia|].
    rewrite !length_app, Hd2. destruct (decide (dr = [])) as [He|He]; [rewrite He; cbn; lia|]. rewrite (Hrest He). lia.
Qed.

Lemma row_at_slot i : (i < size X')%nat -> exists x k, X' !! i = Some x /\ C' !! s_id x = Some x /\
  V1Scheduler.num_scheduled_tokens out !! s_id x = Some k.
Proof.
  intros Hi. destruct (proj2 (open_dense _ _ _ (i_open _ _ _ _ _ I') i) Hi) as [x Hx]. exists x.
  assert (HC : C' !! s_id x = Some x) by (apply (p_content _ _ _ _ (i_open _ _ _ _ _ I')); by exists i).
  assert (is_Some (V1Scheduler.num_scheduled_tokens out !! s_id x)) as [k Hk]
    by (apply elem_of_keys, (h_scheduled _ _ _ _ _ _ _ H); by exists x).
  by exists k.
Qed.

Lemma rows_lookup : length (rows_of out X') = size X' /\ forall i r, rows_of out X' !! i = Some r -> exists x k,
  X' !! i = Some x /\ C' !! s_id x = Some x /\ V1Scheduler.num_scheduled_tokens out !! s_id x = Some k /\
  r = Row i x k (drafts_of out (s_id x)).
Proof.
  destruct (omap_total (fun i => x ← X' !! i; k ← V1Scheduler.num_scheduled_tokens out !! s_id x;
    Some (Row i x k (drafts_of out (s_id x)))) (seq 0 (size X'))) as [Hl Hi].
  { intros i Hi%elem_of_seq. destruct (row_at_slot i) as (x & k & -> & _ & Hk); [lia|]. cbn. rewrite Hk. by eexists. }
  unfold rows_of. split; [by rewrite Hl, length_seq|]. intros i r Hr. rewrite Hi in Hr.
  destruct (seq 0 (size X') !! i) as [j|] eqn:Ej; [|done]. apply lookup_seq in Ej as [-> Hlt]. cbn in Hr.
  destruct (row_at_slot i Hlt) as (x & k & Hx & HC & Hk). rewrite Hx in Hr. cbn in Hr. rewrite Hk in Hr. cbn in Hr.
  injection Hr as <-. by exists x, k.
Qed.

(** The rows are the scheduled requests. *)
Lemma rows_ids : map (fun r => s_id (r_slot r)) (rows_of out X') ≡ₚ keys (V1Scheduler.num_scheduled_tokens out).
Proof.
  destruct rows_lookup as [Hlen Hrow]. apply NoDup_Permutation; [| |].
  - apply NoDup_alt. intros i j id Hi Hj. change map with (@fmap list list_fmap) in Hi, Hj. rewrite list_lookup_fmap in Hi, Hj.
    destruct (rows_of out X' !! i) as [r1|] eqn:E1; [|done]. destruct (rows_of out X' !! j) as [r2|] eqn:E2; [|done].
    destruct (Hrow i r1 E1) as (x1 & k1 & Hx1 & _ & _ & ->), (Hrow j r2 E2) as (x2 & k2 & Hx2 & _ & _ & ->). cbn in Hi, Hj.
    apply (slot_unique X' (input_batch s') i j x1 x2 (p_batch _ _ _ _ (i_open _ _ _ _ _ I')) Hx1 Hx2). congruence.
  - apply P.
  - intros id. rewrite list_elem_of_fmap, <- (h_scheduled _ _ _ _ _ _ _ H). split.
    + intros (r & -> & [i Hi]%list_elem_of_lookup_1). destruct (Hrow i r Hi) as (x & k & _ & HC & _ & ->). by exists x.
    + intros [x Hx]. pose proof Hx as Hx'. apply (p_content _ _ _ _ (i_open _ _ _ _ _ I')) in Hx as (i & Hi & Hid).
      destruct (lookup_lt_is_Some_2 (rows_of out X') i) as [r Hr].
      { rewrite Hlen. apply (open_dense _ _ _ (i_open _ _ _ _ _ I') i). by exists x. }
      destruct (Hrow i r Hr) as (x' & k & Hx2 & _ & _ & ->). eexists. split; [|by eapply list_elem_of_lookup_2]. cbn. congruence.
Qed.

Lemma rows_total : np_sum (counts (rows_of out X')) = np_sum (values (V1Scheduler.num_scheduled_tokens out)).
Proof.
  destruct rows_lookup as [_ Hrow].
  pose (f := fun id => default 0 (V1Scheduler.num_scheduled_tokens out !! id)).
  assert (H1 : counts (rows_of out X') = map f (map (fun r => s_id (r_slot r)) (rows_of out X'))).
  { unfold counts. rewrite map_map. apply map_ext_in. intros r Hr%list_elem_of_In. apply list_elem_of_lookup_1 in Hr as [i Hi].
    destruct (Hrow i r Hi) as (x & k & _ & _ & Hk & ->). unfold f. cbn. by rewrite Hk. }
  assert (H2 : values (V1Scheduler.num_scheduled_tokens out) = map f (keys (V1Scheduler.num_scheduled_tokens out))).
  { unfold values, keys. change map with (@fmap list list_fmap). rewrite <- list_fmap_compose. apply list_fmap_ext.
    intros i [id k] Hi. unfold f. cbn. apply list_elem_of_lookup_2, elem_of_items in Hi; [|apply P]. by rewrite Hi. }
  rewrite H1, H2. generalize rows_ids. generalize (map (fun r => s_id (r_slot r)) (rows_of out X')).
  generalize (keys (V1Scheduler.num_scheduled_tokens out)). intros l l' Hp. unfold np_sum.
  induction Hp; cbn; lia.
Qed.

Lemma row_facts r : r ∈ rows_of out X' -> asked out (job_of r) /\ j_count (job_of r) = r_count r /\
  s_blocks (r_slot r) = B' (s_id (r_slot r)) /\ row_ok (block_size s') (V1Scheduler.scheduled_spec_decode_tokens out) r.
Proof.
  intros [i Hi]%list_elem_of_lookup_1. destruct (proj2 rows_lookup i r Hi) as (x & k & Hx & HC & Hk & ->).
  destruct (slot_job (s_id x) x k i HC Hk) as (_ & Ha & Hj & H1 & H2 & H3).
  assert (Hb : s_blocks x = B' (s_id x)).
  { destruct (i_slots _ _ _ _ _ I' (s_id x) x HC) as (r & Hr & F & _). rewrite (f_blocks _ _ _ F).
    by apply (heard_blocks s s' C C' out T T' B B' L L' V Q R H). }
  destruct (c_blocks _ _ _ P _ Ha) as [Hfit Hnum]. rewrite Hj in Hfit. cbn [job_of j_start j_id r_slot r_count] in *.
  split_and!; [done..|]. split; cbn [r_slot r_count r_drafts]; rewrite ?Hb; done.
Qed.

(** The job of each slot has the number of tokens scheduled for its request. *)
Lemma jobs_lookup i j : map job_of (rows_of out X') !! i = Some j ->
  exists x, X' !! i = Some x /\ V1Scheduler.num_scheduled_tokens out !! s_id x = Some (j_count j).
Proof.
  change map with (@fmap list list_fmap). rewrite list_lookup_fmap. intros (r & Hr & ->)%fmap_Some.
  destruct (proj2 rows_lookup i r Hr) as (x & k & Hx & _ & Hk & Heq). exists x. split; [done|].
  destruct (row_facts r) as (_ & -> & _); [by eapply list_elem_of_lookup_2|]. by rewrite Hk, Heq.
Qed.

Lemma rows_are_ok : @rows_ok n m w s' out X' (rows_of out X').
Proof.
  destruct rows_lookup as [Hlen Hrow]. pose proof (i_open _ _ _ _ _ I') as O. split.
  - apply O.
  - done.
  - rewrite (open_length _ _ _ _ O), Hlen, (content_size _ _ _ _ O). cbn. lia.
  - intros i r Hi. destruct (Hrow i r Hi) as (x & k & Hx & HC & Hk & Hr). rewrite Hr. cbn. split_and!; [done..|].
    rewrite <- Hr. apply row_facts. by eapply list_elem_of_lookup_2.
  - intros Hn. pose proof rows_ids as Hp. rewrite Hn in Hp. cbn in Hp. apply Permutation_nil_l in Hp.
    apply (c_some _ _ _ P). unfold keys in Hp. symmetry in Hp. by apply fmap_nil_inv in Hp.
  - rewrite rows_total. apply P.
Qed.

Lemma inputs_rows cp bs : bs = block_size s' ->
  MkInputs (concat (map row_tokens (rows_of out X'))) (concat (map row_positions (rows_of out X')))
    (concat (map (row_cache bs) (rows_of out X'))) (0 :: np_cumsum (counts (rows_of out X')))
    (map (fun r => computed r + r_count r) (rows_of out X')) (foldr Z.max 0 (counts (rows_of out X'))) cp
    (sampled (ends (rows_of out X'))) = inputs_of bs B' cp (map job_of (rows_of out X')).
Proof.
  intros ->. pose proof row_facts as F. unfold inputs_of, sampled, ends. rewrite !map_map.
  set (rows := rows_of out X') in *.
  assert (Hc : map (fun r => j_count (job_of r)) rows = counts rows).
  { apply map_ext_in. intros r Hr%list_elem_of_In. by apply F. }
  rewrite Hc. f_equal.
  - apply concat_map_ext. intros r Hr. destruct (F r Hr) as (_ & -> & _). done.
  - apply concat_map_ext. intros r Hr. destruct (F r Hr) as (_ & -> & Hb & _). unfold row_cache. by rewrite Hb.
  - apply map_ext_in. intros r Hr%list_elem_of_In. destruct (F r Hr) as (_ & -> & _). done.
  - f_equal. generalize (np_cumsum (counts rows)). clear. induction rows as [|r rs IH]; intros [|e es]; cbn; [done..|].
    f_equal. apply IH.
Qed.
End Rows.

(** A new worker follows nobody. *)
Lemma init_follows bs B (max_tokens : nat) : w = Z.to_nat (cdiv (Z.of_nat m) bs) ->
  let s := init bs m n max_tokens vocab in
  @runner_inv n m w vocab s ∅ ∅ [] /\ follows s ∅ B B ∅.
Proof.
  intros Hw s. split.
  - split; [|split; cbn; try done|done|done].
    + split; [|by intros id x; split; [|intros (i & Hi & _)]| |constructor].
      * split; cbn; try done; try (intros; done); try lia; try by intros id [? ?].
        -- split; cbn; try done; try (intros; apply length_replicate).
           ++ apply Forall_replicate. by rewrite length_replicate.
           ++ rewrite <- Hw. apply WorkerBlockTable.init_shaped.
        -- intros i _. split_and!; [lia|done..].
      * intros i. cbn. split; [by intros ?%elem_of_nil|lia].
    + by intros a [? ?].
  - by split.
Qed.

(** The sizes are those of [limits]. *)
Lemma sizes_same s s' out : limits s' = limits s -> sizes_ok s out -> sizes_ok s' out.
Proof. intros [= E1 E2 E3 E4] [Z1 Z2 Z3 Z4 Z5 Z6]. split; congruence. Qed.

(** What is computed of the batch after a message, whatever the order of the
    slots [X']: the inputs of the jobs, in that order. *)
Lemma inputs_computed (use : Z -> list Z -> bool) (s s' : t) X X' C C' out T T' B B' L L' :
  @runner_inv n m w vocab s X C [] -> follows s C T B L ->
  @message_ok n m w params_of vocab s C out -> truthful s C T T' B B' L L' out ->
  message_heard params_of vocab s s' C C' out -> @runner_inv n m w vocab s' X' C' [] ->
  computable (block_size s') B' out -> sizes_ok s' out ->
  let jobs := map job_of (rows_of out X') in
  map j_id jobs ≡ₚ keys (V1Scheduler.num_scheduled_tokens out) /\ Forall (asked out) jobs /\
  0 < V1Scheduler.total_num_scheduled_tokens out /\ InputBatch.num_reqs (input_batch s') <> O /\
  exists cp, compute_inputs use s' out = Ok (inputs_of (block_size s') B' cp jobs) /\
    0 <= cp <= V1Scheduler.num_common_prefix_blocks out * block_size s' /\ cp mod block_size s' = 0 /\
    Forall (fun j => cp <= j_start j) jobs.
Proof.
  intros I V Q R H I' P [Z1 Z2 Z3 Z4 Z5 Z6] jobs.
  pose proof (rows_are_ok s s' X X' C C' out T T' B B' L L' I V Q R H I' P) as RO.
  pose proof (rows_total s s' X' C C' out B' H I' P) as Ht.
  pose proof (rows_ids s s' X' C C' out B' H I' P) as Hids.
  pose proof (row_facts s s' X X' C C' out T T' B B' L L' I V Q R H I' P) as F.
  pose proof (inputs_rows s s' X X' C C' out T T' B B' L L' I V Q R H I' P) as Hin.
  unfold jobs. set (rows := rows_of out X') in *.
  assert (RF : @rows_fit n m w s' rows).
  { split; [done|done|lia| |done..]. by rewrite Ht, <- (c_total _ _ _ P). }
  destruct (rows_scheduled s' out X' rows RO RF) as [Hsome Hreqs].
  destruct (prepared s' out X' rows RO RF use (c_common _ _ _ P)) as (cp & Hprep & H0 & Hmod & Hle).
  split_and!; [by rewrite map_map| |done|done|].
  - apply Forall_forall. intros j (r & -> & Hr)%list_elem_of_fmap. by apply F.
  - exists cp. split_and!; [|lia|lia|done|].
    + rewrite Hprep. f_equal. by apply Hin.
    + apply Forall_forall. intros j (r & -> & Hr)%list_elem_of_fmap. by apply Hle.
Qed.
End Step.

(** Two requests, [a] and [b]; then [a] is finished and [b] goes on. *)
Module Sample.
Definition params (_ : V1Scheduler.NewRequestData) : Params.t := Params.sample_params 1.

Definition new_request (id : string) (prompt blocks : list Z) : V1Scheduler.NewRequestData :=
  V1Scheduler.NewRequest id prompt [] [] [] (Sampling false (Some 10) None None false []) blocks 0 None.

Definition first : V1Scheduler.SchedulerOutput :=
  V1Scheduler.Output [new_request "a" [1; 2; 3] [5; 6]; new_request "b" [7; 8] [9]] []
    (PyDict [("a", 3); ("b", 2)]%string) 5 (PyDict []) (PyDict []) 0 ∅ [] (PyDict []).

Definition second : V1Scheduler.SchedulerOutput :=
  V1Scheduler.Output [] [V1Scheduler.CachedRequest "b" false [77] [10] 2] (PyDict [("b", 1)]%string) 1
    (PyDict []) (PyDict []) 0 {[ "a" ]}%string [] (PyDict []).

Definition worker : t := init 2 8 2 8 100.

Example second_step : meets (update_states params first ;; update_states params second ;;
    prepare_inputs (fun _ _ => false) FlashAttentionMetadataBuilder second) worker (fun inputs _ =>
  inputs = MkInputs [77] [2] [20] [0; 1] [3] 1 0 [0]).
Proof. by vm_compute. Qed.

Definition tokens (id : string) : list Z :=
  if String.eqb id "a" then [1; 2; 3] else if String.eqb id "b" then [7; 8] else [].
Definition blocks (id : string) : list Z :=
  if String.eqb id "a" then [5; 6] else if String.eqb id "b" then [9] else [].

Lemma first_fits : @message_ok 2 8 4 params 100 worker ∅ first.
Proof.
  split; [apply (bool_decide_unpack _); by vm_compute| |cbn; lia| |by intros d ?%elem_of_nil].
  - intros id. by vm_compute.
  - intros d Hd. split; [|by left].
    apply list_elem_of_In in Hd as [<-|[<-|[]]]; (split_and!; [cbn; lia..|intros l; discriminate|discriminate]).
Qed.
End Sample.

End WorkerStep.
