(* ===== verification/WorkerSampling.v ===== *)
(** * v1 workers: the sampling metadata of a batch

    Each request is sampled with its own parameters, in whatever slot it is;
    except that the logit bias and the mask of allowed tokens of a slot can be
    those of the request that was there before. *)
From S2P Require Import Prelude.
From S2P Require Import PyDict.
From S2P Require Import V1Request.
From S2P Require Import V1Scheduler.
From S2P Require Import Params.
From S2P Require Import Arrays.
From S2P Require Import WorkerBlockTable.
From S2P Require Import InputBatch.
From S2P Require Import InputBatchCorrect.
From S2P Require Import ModelRunner.
From S2P Require Import ModelRunnerCorrect.
From S2P Require Import WorkerStep.

Module WorkerSampling.
Import ModelRunner.
Import Slots.
Import Runner.

(** Entry [i] of an optional column is [x], or the column is absent, which only
    happens if [unless] holds. *)
Definition entry {A} (o : option (list A)) (i : nat) (x : A) (unless : Prop) : Prop :=
  match o with Some l => l !! i = Some x | None => unless end.

(** The metadata of slot [i] are the parameters [p]; what is absent would not
    change the sampling. *)
Record sampled_as (d : SamplingMetadata) (vocab : Z) (i : nat) (p : Params.t) : Prop := SampledAs {
  sa_temperature : entry (m_temperature d) i (if greedy p then (-1)%Q else Params.temperature p) (greedy p = true);
  sa_all_greedy : m_all_greedy d = true -> greedy p = true;
  sa_all_random : m_all_random d = true -> greedy p = false;
  sa_top_p : entry (m_top_p d) i (Params.top_p p) (1 <= Params.top_p p)%Q;
  sa_top_k : entry (m_top_k d) i (if limits_top_k vocab p then Params.top_k p else vocab) (limits_top_k vocab p = false);
  sa_min_p : entry (m_min_p d) i (Params.min_p p) (Params.min_p p <= SAMPLING_EPS)%Q;
  sa_penalties : match m_penalties d with
    | Some (frequency, presence, repetition) =>
        frequency !! i = Some (Params.frequency_penalty p) /\ presence !! i = Some (Params.presence_penalty p) /\
        repetition !! i = Some (Params.repetition_penalty p)
    | None => Params.frequency_penalty p == 0 /\ Params.presence_penalty p == 0 /\ Params.repetition_penalty p == 1
    end%Q;
}.

Section Metadata.
Context {n m w : nat} (vocab : Z).

Lemma take_entry {A} (l : list A) k i x : (i < k)%nat -> l !! i = Some x -> take k l !! i = Some x.
Proof. intros Hi H. by rewrite lookup_take_lt. Qed.

(** A group without members does not have this one. *)
Lemma nobody_member b i x g : occupied b i x -> InputBatch.nobody g b = true -> s_member x g = false.
Proof.
  intros O H. unfold InputBatch.nobody in H. apply bool_decide_eq_true in H. rewrite <- (o_member _ _ _ O g), H.
  by apply bool_decide_eq_false.
Qed.

Lemma not_true_neg b : negb b = false -> b = true.
Proof. by destruct b. Qed.

Lemma member_flags r x : slot_for vocab r x -> forall g, g <> InputBatch.HAS_ALLOWED ->
  s_member x g = sampled_member vocab (cached_sampling_params r) g.
Proof. intros F g Hg. rewrite (f_member _ _ _ F). cbn. by rewrite decide_False. Qed.

Lemma made_as_asked b i x r d : occupied b i x -> (i < InputBatch.num_reqs b)%nat -> slot_for vocab r x ->
  InputBatch.make_sampling_metadata b = Ok d -> sampled_as d vocab i (cached_sampling_params r).
Proof.
  intros O Hi F Hd. unfold InputBatch.make_sampling_metadata in Hd.
  apply result_bind_ok in Hd as (prompts & _ & Hd). apply result_bind_ok in Hd as (mask & _ & [= <-]).
  pose proof (member_flags r x F) as HM.
  assert (HN : forall g, g <> InputBatch.HAS_ALLOWED -> InputBatch.nobody g b = true ->
    sampled_member vocab (cached_sampling_params r) g = false).
  { intros g Hg Hno. rewrite <- HM by done. by apply (nobody_member b i). }
  assert (HR : forall c, take (InputBatch.num_reqs b) (InputBatch.reals b c) !! i =
    Some (sampled_real (cached_sampling_params r) c)).
  { intros c. apply take_entry; [done|]. rewrite (o_real _ _ _ O c), (f_real _ _ _ F). done. }
  split; cbn [m_temperature m_all_greedy m_all_random m_top_p m_top_k m_min_p m_penalties].
  - unfold InputBatch.all_greedy. destruct (InputBatch.nobody _ _) eqn:E; [|apply (HR InputBatch.TEMPERATURE)].
    by apply not_true_neg, (HN InputBatch.RANDOM_REQS).
  - intros H. by apply not_true_neg, (HN InputBatch.RANDOM_REQS).
  - intros H. by apply (HN InputBatch.GREEDY_REQS).
  - destruct (InputBatch.nobody _ _) eqn:E; [|apply (HR InputBatch.TOP_P)].
    apply Qltb_ge. by apply (HN InputBatch.TOP_P_REQS).
  - destruct (InputBatch.nobody _ _) eqn:E; [by apply (HN InputBatch.TOP_K_REQS)|].
    apply take_entry; [done|]. by rewrite (o_int _ _ _ O InputBatch.TOP_K), (f_int _ _ _ F).
  - destruct (InputBatch.nobody _ _) eqn:E; [|apply (HR InputBatch.MIN_P)].
    apply Qltb_ge. by apply (HN InputBatch.MIN_P_REQS).
  - destruct (InputBatch.no_penalties b) eqn:E.
    + unfold InputBatch.no_penalties in E. apply andb_prop in E as [[E1 E2]%andb_prop E3].
      split_and!; apply Qeqb_eq, not_true_neg.
      * by apply (HN InputBatch.FREQUENCY_REQS).
      * by apply (HN InputBatch.PRESENCE_REQS).
      * by apply (HN InputBatch.REPETITION_REQS).
    + split_and!; [apply (HR InputBatch.FREQUENCY_PENALTIES)|apply (HR InputBatch.PRESENCE_PENALTIES)|
        apply (HR InputBatch.REPETITION_PENALTIES)].
Qed.

(** C8. Refreshing the sampling metadata of a runner's batch never fails, and gives
    every request of the batch the temperature, top-p, top-k, min-p and penalties
    of its own sampling parameters, at the slot it is in; a parameter is left out
    only if no request needs it. *)
Theorem sampled_with_own_parameters s X C : @runner_inv n m w vocab s X C [] ->
  meets (on_batch InputBatch.refresh_sampling_metadata) s (fun _ s' => forall id, is_Some (C !! id) ->
    exists i r, InputBatch.req_id_to_index (input_batch s') !! id = Some i /\ requests s' !! id = Some r /\
      InputBatch.req_ids (input_batch s') !! i = Some (Some id) /\
      sampled_as (InputBatch.sampling_metadata (input_batch s')) vocab i (cached_sampling_params r)).
Proof.
  intros I. pose proof (i_open _ _ _ _ _ I) as O.
  eapply meets_weaken; [apply meets_on_batch, (refresh_ok (n := n) (m := m) (w := w) X);
    [apply O|by eapply open_dense|by eapply prompts_fit]|].
  intros [] s' (b' & -> & d & -> & Hb' & Hd). intros id [x Hx].
  destruct (content_slot _ X C [] id x O Hx) as (i & Hi & Hid & Hidx).
  destruct (i_slots _ _ _ _ _ I id x Hx) as (r & Hr & F & _). exists i, r.
  pose proof (b_slots _ _ _ _ _ (p_batch _ _ _ _ O) i x Hi) as Oi. split_and!; [exact Hidx|exact Hr| |].
  - rewrite <- Hid. apply (o_id _ _ _ Oi).
  - apply (made_as_asked (input_batch s) i x r d); [done| |done|exact Hd].
    rewrite (num_reqs_size _ _ (p_batch _ _ _ _ O)). apply (open_dense _ _ _ O i). by exists x.
Qed.
End Metadata.

(** The state after a message holds the scheduled requests. *)
Lemma after_message {n m w : nat} params_of vocab s X C out : @runner_inv n m w vocab s X C [] ->
  @message_ok n m w params_of vocab s C out -> exists X' C',
  @runner_inv n m w vocab (update_states params_of out s).2 X' C' [] /\
  forall id, is_Some (C' !! id) <-> id ∈ keys (V1Scheduler.num_scheduled_tokens out).
Proof.
  intros I Q. pose proof (update_states_ok params_of vocab s X C out I Q) as Hm. unfold meets in Hm.
  destruct (update_states params_of out s) as [[[]|] s']; [|done]. destruct Hm as (X' & C' & I' & H).
  exists X', C'. split; [exact I'|]. intros id. apply (h_scheduled _ _ _ _ _ _ _ H).
Qed.

Lemma sampled_with_own_parameters_witness :
  let s := (update_states WorkerStep.Sample.params WorkerStep.Sample.first WorkerStep.Sample.worker).2 in
  meets (on_batch InputBatch.refresh_sampling_metadata) s (fun _ s' => exists i r,
    InputBatch.req_id_to_index (input_batch s') !! "b"%string = Some i /\ requests s' !! "b"%string = Some r /\
    InputBatch.req_ids (input_batch s') !! i = Some (Some "b"%string) /\
    sampled_as (InputBatch.sampling_metadata (input_batch s')) 100 i (cached_sampling_params r)).
Proof.
  pose proof (@WorkerStep.init_follows 2 8 4 100 2 (fun _ => []) 8 eq_refl) as [I0 _].
  destruct (@after_message 2 8 4 WorkerStep.Sample.params 100 WorkerStep.Sample.worker ∅ ∅ WorkerStep.Sample.first I0
    WorkerStep.Sample.first_fits) as (X & C & I & HC).
  assert (Hb : is_Some (C !! "b"%string)) by (apply HC; right; left).
  intros s. exact (meets_weaken _ _ _ _ (@sampled_with_own_parameters 2 8 4 100 s X C I) (fun _ s' Hall => Hall "b"%string Hb)).
Defined.

(** ** What a slot keeps of the request before *)

Module Stale.

(** Slot [j] has the logit bias [d]. *)
Section Bias.
Context (j : nat) (d : list (Z * Q)).
Definition has_bias (s : InputBatch.t) : Prop := InputBatch.logit_bias s !! j = Some (Some d).
Abbreviation keeps := (preserves has_bias).

Lemma keeps_store {A} (c : column InputBatch.t A) i x :
  (forall l s, InputBatch.logit_bias (write c l s) = InputBatch.logit_bias s) -> keeps (store c i x).
Proof.
  intros Hc. apply preserves_bind; [apply preserves_gets|]. intros l. destruct (bool_decide _); [|apply preserves_raise].
  apply preserves_modify. intros s Hs. unfold has_bias. by rewrite Hc.
Qed.
Lemma keeps_fetch {A} (c : column InputBatch.t A) i : keeps (fetch c i).
Proof. apply preserves_bind; [apply preserves_gets|]. intros l. apply preserves_lift. Qed.
Lemma keeps_move {A} (c : column InputBatch.t A) src dst :
  (forall l s, InputBatch.logit_bias (write c l s) = InputBatch.logit_bias s) -> keeps (move c src dst).
Proof. intros Hc. apply preserves_bind; [apply keeps_fetch|]. intros x. by apply keeps_store. Qed.
Lemma keeps_slice {A} (c : column InputBatch.t (list A)) i lo hi vals :
  (forall l s, InputBatch.logit_bias (write c l s) = InputBatch.logit_bias s) -> keeps (store_slice c i lo hi vals).
Proof.
  intros Hc. apply preserves_bind; [apply keeps_fetch|]. intros row.
  apply preserves_bind; [apply preserves_lift|]. intros row'. by apply keeps_store.
Qed.
Lemma keeps_on_table {A} (f : M WorkerBlockTable.t A) : keeps (InputBatch.on_table f).
Proof. intros s Hs. unfold InputBatch.on_table. by destruct (f _). Qed.
Lemma keeps_join g id : keeps (InputBatch.join g id).
Proof. by apply preserves_modify. Qed.
Lemma keeps_join_if b g id : keeps (InputBatch.join_if b g id).
Proof. unfold InputBatch.join_if. destruct b; [apply keeps_join|apply preserves_ret]. Qed.
Lemma keeps_get_bind {A} (f : InputBatch.t -> M InputBatch.t A) : (forall s, keeps (f s)) -> keeps (get ≫= f).
Proof. intros Hf. apply preserves_bind; [apply preserves_get|done]. Qed.
#[local] Hint Resolve keeps_fetch keeps_on_table keeps_join keeps_join_if : pres.

Ltac keep :=
  repeat first
    [ assumption
    | apply keeps_store; done
    | apply keeps_move; done
    | apply keeps_slice; done
    | solve [auto 2 with pres nocore]
    | apply preserves_bind; [|intros ?]
    | apply preserves_modify; intros ? ?; by (done || case_match)
    | case_match ].

(** Another slot gets a bias. *)
Lemma keeps_move_bias src dst : dst <> j -> keeps (move InputBatch.biases src dst).
Proof.
  intros Hd. apply preserves_bind; [apply keeps_fetch|]. intros x. unfold store. intros s Hs. rewrite bind_run. unfold gets.
  cbv beta iota. destruct (bool_decide _); [|done]. unfold has_bias, modify. cbn. by rewrite list_lookup_insert_ne.
Qed.

Lemma keeps_move_request src dst : dst <> j -> keeps (InputBatch.move_request src dst).
Proof. intros Hd. pose proof (keeps_move_bias src dst Hd). unfold InputBatch.move_request. keep. Qed.

Lemma keeps_condense_loop fuel : forall empty top, j ∉ empty -> keeps (InputBatch.condense_loop fuel empty top).
Proof.
  induction fuel as [|fuel IH]; intros empty top Hj; cbn [InputBatch.condense_loop].
  - destruct (last empty); [apply preserves_raise|apply preserves_ret].
  - destruct (last empty) as [e|] eqn:He; [|apply preserves_ret].
    apply last_Some in He as [l ->]. rewrite elem_of_app, list_elem_of_singleton in Hj.
    apply preserves_bind; [apply preserves_lift|]. intros k. destruct (_ <=? _); [apply preserves_ret|].
    apply preserves_bind; [apply keeps_move_request; intros ->; tauto|]. intros []. rewrite removelast_last. apply IH. tauto.
Qed.

Lemma keeps_condense empty : j ∉ empty -> keeps (InputBatch.condense empty).
Proof.
  intros Hj. pose proof (keeps_condense_loop (length empty) empty) as Hl. unfold InputBatch.condense.
  apply preserves_bind; [apply preserves_gets|]. intros k. destruct (bool_decide _); keep.
Qed.

(** A request without a bias leaves the biases alone. *)
Lemma keeps_add_request r output at_ : Params.logit_bias (cached_sampling_params r) = None ->
  keeps (InputBatch.add_request r output at_).
Proof.
  intros Hb. unfold InputBatch.add_request, InputBatch.add_tokens, InputBatch.add_sampling, InputBatch.add_optional,
    InputBatch.add_allowed, InputBatch.add_lora. cbv zeta. rewrite Hb. keep.
Qed.
End Bias.

(** C38. A logit bias outlives its request in a slot.  Let [condense] close the holes
    [E] of a batch, and let the first slot that it frees have held a request with
    a logit bias, which it moves to a hole.  The next request is put into the
    freed slot, and if it asked for no bias, it is sampled with that of the other:
    neither [condense] nor [add_request] clears the entry. *)
Theorem stale_logit_bias {n m w} X E b x d r output :
  batch_ok n m w X b -> StronglySorted gt E -> length (InputBatch.req_ids b) = (size X + length E)%nat ->
  (forall i, (i < length (InputBatch.req_ids b))%nat -> X !! i = None <-> i ∈ E) ->
  Forall (fun e => e < length (InputBatch.req_ids b))%nat E ->
  X !! size X = Some x -> InputBatch.logit_bias b !! size X = Some (Some d) ->
  @addable m w (InputBatch.vocab_size b) r output -> InputBatch.req_id_to_index b !! cached_req_id r = None ->
  Params.logit_bias (cached_sampling_params r) = None ->
  meets (InputBatch.condense E ;; InputBatch.add_request r output None) b (fun _ b' =>
    InputBatch.req_ids b' !! size X = Some (Some (cached_req_id r)) /\
    forall md, InputBatch.make_sampling_metadata b' = Ok md -> m_logit_bias md !! size X = Some (Some d)).
Proof.
  intros Hb Hs Hlen Hu Hlt Hx Hd Ha Hid Hnone. set (k := size X) in *.
  pose proof (slot_lt X b k x Hb Hx) as Hk. pose proof (b_max _ _ _ _ _ Hb) as Hmax.
  assert (HkE : k ∉ E) by (rewrite <- (Hu k Hk); congruence).
  eapply meets_bind; [apply meets_preserves; [by apply (keeps_condense k d)|exact Hd|by apply (condense_ok X E b Hb)]|].
  intros [] b1 [(X' & Hb1 & Hdense & Hsame & Hlen1 & Hv) Hd1].
  assert (Hsize : InputBatch.num_reqs b1 = k) by (rewrite (num_reqs_size X' b1 Hb1); by apply dense_size).
  assert (Hk1 : X' !! k = None).
  { apply eq_None_not_Some. rewrite (Hdense k). lia. }
  assert (Hid1 : InputBatch.req_id_to_index b1 !! cached_req_id r = None).
  { destruct (InputBatch.req_id_to_index b1 !! cached_req_id r) as [i|] eqn:Hi; [|done].
    destruct (b_index _ _ _ _ _ Hb1 _ _ Hi) as (y & Hy & Hyid).
    destruct (proj2 (Hsame y)) as [i' Hi']; [by exists i|].
    pose proof (o_index _ _ _ (b_slots _ _ _ _ _ Hb i' y Hi')) as Ho. congruence. }
  assert (Ha1 : @addable m w (InputBatch.vocab_size b1) r output) by by rewrite Hv.
  eapply meets_weaken; [apply meets_preserves; [by apply (keeps_add_request k d)|exact Hd1|
    apply (add_to_batch_ok X' r output None b1 Hb1)]|].
  1-5: cbn [default from_option]; rewrite ?Hsize; done || lia.
  intros [] b2 [(Hb2 & Hlen2 & _) Hd2]. cbn [default from_option] in Hb2. rewrite Hsize in Hb2.
  split.
  - apply (o_id _ _ _ (b_slots _ _ _ _ _ Hb2 k _ (lookup_insert_eq _ _ _))).
  - intros md Hmd. unfold InputBatch.make_sampling_metadata in Hmd.
    apply result_bind_ok in Hmd as (prompts & _ & Hmd). apply result_bind_ok in Hmd as (mask & _ & [= <-]).
    cbn [m_logit_bias]. rewrite lookup_take_lt; [exact Hd2|].
    rewrite (num_reqs_size _ b2 Hb2), map_size_insert_None by done.
    rewrite <- (num_reqs_size X' b1 Hb1), Hsize. lia.
Qed.

(** [a] and [b] are in the batch, [b] with a bias; [a] leaves, and [c] comes. *)
Definition biased_params (bias : option (list (Z * Q))) : Params.t :=
  let p := Params.sample_params 1 in
  Params.MkParams (Params.n p) (Params.best_of p) (Params.real_n p) (Params.presence_penalty p) (Params.frequency_penalty p)
    (Params.repetition_penalty p) (Params.temperature p) (Params.top_p p) (Params.top_k p) (Params.min_p p) (Params.seed p)
    (Params.stop p) (Params.stop_token_ids p) (Params.ignore_eos p) (Params.max_tokens p) (Params.min_tokens p)
    (Params.logprobs p) (Params.prompt_logprobs p) (Params.detokenize p) (Params.skip_special_tokens p)
    (Params.spaces_between_special_tokens p) (Params.logits_processors p) (Params.include_stop_str_in_output p)
    (Params.truncate_prompt_tokens p) (Params.output_kind p) (Params.output_text_buffer_length p)
    (Params.all_stop_token_ids p) (Params.guided_decoding p) (Params.allowed_token_ids p) bias
    (Params.bad_words_token_ids p).
Definition cached (id : string) (bias : option (list (Z * Q))) (output : nat) : CachedRequestState :=
  CachedState id [1; 2] [] [] (biased_params bias) None [5] 0 output None.
Definition with_hole : M InputBatch.t (option nat) :=
  InputBatch.add_request (cached "a" None 0) [] None ;;
  InputBatch.add_request (cached "b" (Some [(7, 1%Q)]) 1) [] None ;;
  InputBatch.remove_request "a".

Lemma cached_addable id bias output : @addable 8 4 100 (cached id bias output) [].
Proof. split; cbn; [lia..|intros l; discriminate|discriminate]. Qed.

(** Request [c] asked for no bias, and has that of [b]. *)
Lemma stale_logit_bias_witness :
  meets (with_hole ;; InputBatch.condense [0%nat] ;; InputBatch.add_request (cached "c" None 2) [] None)
    (input_batch WorkerStep.Sample.worker) (fun _ s =>
    InputBatch.req_ids s !! 1%nat = Some (Some "c"%string) /\
    forall md, InputBatch.make_sampling_metadata s = Ok md -> m_logit_bias md !! 1%nat = Some (Some [(7, 1%Q)])).
Proof.
  pose proof (@WorkerStep.init_follows 2 8 4 100 2 (fun _ => []) 8 eq_refl) as [I0 _].
  pose proof (p_batch _ _ _ _ (i_open _ _ _ _ _ I0)) as B0.
  set (b0 := input_batch WorkerStep.Sample.worker) in *.
  set (sa := slot_of 100 (cached "a" None 0) []). set (sb := slot_of 100 (cached "b" (Some [(7, 1%Q)]) 1) []).
  assert (H : meets with_hole b0 (fun _ s => batch_ok 2 8 4 (delete 0%nat (<[1%nat := sb]> (<[0%nat := sa]> ∅))) s /\
    length (InputBatch.req_ids s) = 2%nat /\ InputBatch.vocab_size s = 100)).
  { eapply meets_bind; [apply (add_to_batch_ok ∅ (cached "a" None 0) [] None b0 B0);
      [vm_compute; lia|vm_compute; lia|done|done|apply cached_addable]|].
    intros [] b1 (B1 & L1 & V1). change (InputBatch.vocab_size b0) with 100 in *.
    assert (N1 : InputBatch.num_reqs b1 = 1%nat) by (by rewrite (num_reqs_size _ b1 B1)).
    assert (Hb : InputBatch.req_id_to_index b1 !! "b"%string = None).
    { destruct (InputBatch.req_id_to_index b1 !! "b"%string) as [i|] eqn:Hi; [|done].
      destruct (b_index _ _ _ _ _ B1 _ _ Hi) as (y & Hy & Hid). apply lookup_insert_Some in Hy as [[_ <-]|[_ Hy]]; done. }
    change (length (InputBatch.req_ids b0)) with 0%nat in L1. cbn in L1.
    eapply meets_bind; [apply (add_to_batch_ok _ (cached "b" (Some [(7, 1%Q)]) 1) [] None b1 B1);
      cbn [default from_option]; rewrite ?N1, ?V1, ?L1; [lia|lia|done|exact Hb|apply cached_addable]|].
    intros [] b2 (B2 & L2 & V2). cbn [default from_option] in B2, L2. rewrite N1, V1 in B2. rewrite N1, L1 in L2. rewrite V1 in V2. cbn in L2.
    eapply meets_weaken; [apply (remove_request_ok _ b2 0%nat sa B2); by rewrite lookup_insert_ne, lookup_insert_eq|].
    intros r b3 (_ & B3 & L3 & V3). split; [exact B3|]. split; [by rewrite L3, L2|by rewrite V3, V2]. }
  assert (Hbias : InputBatch.logit_bias (with_hole b0).2 !! 1%nat = Some (Some [(7, 1%Q)])) by (by vm_compute).
  assert (Hidx : InputBatch.req_id_to_index (with_hole b0).2 !! "c"%string = None) by (by vm_compute).
  unfold meets in H. unfold meets at 1. rewrite bind_run. clearbody b0.
  destruct (with_hole b0) as [[r|e] b]; [|done]. destruct H as (B & L & V). cbn [snd] in Hbias, Hidx.
  apply (stale_logit_bias (n := 2) (m := 8) (w := 4) _ [0%nat] b sb [(7, 1%Q)] (cached "c" None 2) [] B).
  - repeat constructor.
  - by rewrite L.
  - rewrite L. intros i Hi. rewrite list_elem_of_singleton. destruct i as [|[|i]]; [done|done|lia].
  - rewrite L. repeat constructor.
  - done.
  - exact Hbias.
  - rewrite V. apply cached_addable.
  - exact Hidx.
  - done.
Defined.
End Stale.

(** Rows of the mask of allowed tokens are not exchanged but overwritten. *)
Example views_not_swapped {A} (x y : A) : InputBatch.swap_views 0 1 [x; y] = [y; y].
Proof. done. Qed.

(** ** Accepted drafts are not heard *)

Module Forgotten.
Import WorkerStep.Sample.

Section Forgotten.
Context (t0 t1 t2 t3 : Z).

(** [b] goes on with the drafts [t1] and [t2], which are both accepted, and [t3] is
    sampled after them. *)
Definition drafting : V1Scheduler.SchedulerOutput :=
  V1Scheduler.Output [] [V1Scheduler.CachedRequest "b" false [t0] [10; 11] 2] (PyDict [("b", 3)]%string) 3
    (PyDict [("b", [t1; t2])]%string) (PyDict []) 0 {[ "a" ]}%string [] (PyDict []).

Definition accepting : V1Scheduler.SchedulerOutput :=
  V1Scheduler.Output [] [V1Scheduler.CachedRequest "b" false [t3] [] 5] (PyDict [("b", 1)]%string) 1
    (PyDict []) (PyDict []) 0 ∅ [] (PyDict []).

(** Then it is preempted, and resumed. *)
Definition preempting : V1Scheduler.SchedulerOutput :=
  V1Scheduler.Output [new_request "c" [4] [11]] [] (PyDict [("c", 1)]%string) 1 (PyDict []) (PyDict []) 0 ∅ [] (PyDict []).

Definition resuming : V1Scheduler.SchedulerOutput :=
  V1Scheduler.Output [] [V1Scheduler.CachedRequest "b" true [7; 8; t0; t1; t2; t3] [12; 13; 14] 0]
    (PyDict [("b", 6)]%string) 6 (PyDict []) (PyDict []) 0 {[ "c" ]}%string [] (PyDict []).

(** The model computes on tokens that are not those of the request nor those of the
    message. *)
Example wrong_tokens_computed :
  meets (for_each [first; drafting; accepting; preempting; resuming] (update_states params) ;;
         prepare_inputs (fun _ _ => false) FlashAttentionMetadataBuilder resuming) worker (fun inputs _ =>
    inputs = MkInputs [7; 8; t0; t3; t2; t3] [0; 1; 2; 3; 4; 5] [24; 25; 26; 27; 28; 29] [0; 6] [6] 6 0 [5]).
Proof. by vm_compute. Qed.
End Forgotten.

(** The newest tokens of a list. *)
Lemma slice_last {A} (l : list A) k : 0 < k -> py_slice l (- k) (Z.of_nat (length l)) = drop (length l - Z.to_nat k) l.
Proof.
  intros Hk. unfold py_slice, slice_bound. rewrite (proj2 (Z.ltb_lt (- k) 0)), (proj2 (Z.ltb_ge (Z.of_nat (length l)) 0)) by lia.
  replace (Z.to_nat (Z.max 0 (- k + Z.of_nat (length l)))) with (length l - Z.to_nat k)%nat by lia.
  apply take_ge. rewrite length_drop. lia.
Qed.

(** The record of request [id]: its tokens, and where its outputs are. *)
Definition recorded (id : string) (prompt output : list Z) (a : nat) (s : t) : Prop := exists r,
  requests s !! id = Some r /\ cached_prompt_token_ids r = prompt /\ cached_output_token_ids r = a /\
  output_lists s !! a = Some output.

(** Of the message [_update_states] takes as many tokens from the end as it counts
    as new, and at most all. *)
Lemma update_cached_takes s id prompt output a d k : recorded id prompt output a s -> V1Scheduler.req_id d = id ->
  V1Scheduler.new_token_ids d <> [] -> 0 < k ->
  V1Scheduler.num_computed_tokens d + Z.of_nat (length (V1Scheduler.new_token_ids d)) =
    Z.of_nat (length prompt) + Z.of_nat (length output) + k ->
  meets (update_cached d) s (fun _ s' => recorded id prompt
    (output ++ drop (length (V1Scheduler.new_token_ids d) - Z.to_nat k) (V1Scheduler.new_token_ids d)) a s').
Proof.
  intros (r & Hr & <- & <- & Ho) <- Hne Hk Hn. unfold update_cached, request, list_at. cbv zeta.
  eapply meets_step; [rewrite bind_run; cbn; by rewrite Hr|].
  eapply meets_step; [rewrite bind_run; cbn; by rewrite Ho|].
  set (l := V1Scheduler.new_token_ids d) in *. replace (_ + _ - _) with k by lia.
  eapply (meets_bind _ _ _ (fun o s' => s' = s /\ o = output ++ drop (length l - Z.to_nat k) l)).
  - destruct (Z.eqb_spec k 1) as [->|Hk1].
    + destruct l as [|y l0 _] using rev_ind; [done|]. eapply meets_lift.
      { unfold py_index. rewrite length_app. cbn [length]. cbn [Z.ltb Z.compare].
        rewrite (proj2 (Z.ltb_ge _ _)) by lia.
        replace (Z.to_nat _) with (length l0) by lia. rewrite list_lookup_middle by done. reflexivity. }
      apply meets_ret. split; [done|]. rewrite length_app. cbn [length].
      replace (length l0 + 1 - _)%nat with (length l0) by lia. by rewrite drop_app_length.
    + rewrite (proj2 (Z.ltb_lt 0 k)) by lia. apply meets_ret. split; [done|]. by rewrite slice_last by lia.
  - intros o s' [-> ->]. apply meets_modify. unfold meets, modify.
    eexists. cbn. rewrite lookup_insert_eq. split; [reflexivity|]. cbn. split; [done|]. split; [done|]. by rewrite lookup_insert_eq.
Qed.

(** C39. Accepted drafts are forgotten.  Let a step of speculative decoding accept the
    drafts [x :: l] of a request and sample [y] after them, so that its next
    message carries [y] and counts the drafts as computed; and let the request
    then be preempted and resumed with a message that carries its tokens from
    some place [c] on.  [_update_states] takes the request's output to end in
    [y :: l ++ [y]] instead of [x :: l ++ [y]], and when the request is put into
    a batch, the row of tokens that the model reads has [y] where [x] belongs. *)
Theorem accepted_drafts_forgotten s id prompt output a x l y d1 d2 c :
  recorded id prompt output a s ->
  V1Scheduler.req_id d1 = id -> V1Scheduler.new_token_ids d1 = [y] ->
  V1Scheduler.num_computed_tokens d1 = Z.of_nat (length (prompt ++ output ++ x :: l)) ->
  V1Scheduler.req_id d2 = id -> V1Scheduler.num_computed_tokens d2 = Z.of_nat c ->
  V1Scheduler.new_token_ids d2 = drop c (prompt ++ output ++ x :: l ++ [y]) ->
  (c <= length (prompt ++ output))%nat ->
  meets (update_cached d1 ;; update_cached d2) s (fun _ s' =>
    recorded id prompt (output ++ y :: l ++ [y]) a s' /\
    forall n m w X b r i, requests s' !! id = Some r -> batch_ok n m w X b -> InputBatch.num_reqs b = i ->
      (i < n)%nat -> (i <= length (InputBatch.req_ids b))%nat -> X !! i = None ->
      InputBatch.req_id_to_index b !! cached_req_id r = None ->
      @addable m w (InputBatch.vocab_size b) r (output ++ y :: l ++ [y]) ->
      meets (InputBatch.add_request r (output ++ y :: l ++ [y]) None) b (fun _ b' => exists row,
        InputBatch.token_ids_cpu b' !! i = Some row /\ row !! length (prompt ++ output) = Some y)).
Proof.
  intros Hs Hid1 Ht1 Hc1 Hid2 Hc2 Ht2 Hc.
  eapply meets_bind.
  { apply (update_cached_takes s id prompt output a d1 (Z.of_nat (length l) + 2)); [done|done|by rewrite Ht1|lia|].
    rewrite Hc1, Ht1, !length_app. cbn [length]. lia. }
  intros [] s1 H1. rewrite Ht1 in H1. cbn [length] in H1. replace (1 - _)%nat with 0%nat in H1 by lia. cbn [drop] in H1.
  assert (Hlen : length (V1Scheduler.new_token_ids d2) = (length (prompt ++ output) - c + (length l + 2))%nat).
  { rewrite Ht2, length_drop, !length_app. cbn [length]. rewrite length_app. cbn [length]. rewrite length_app in Hc. lia. }
  eapply meets_weaken.
  { apply (update_cached_takes s1 id prompt (output ++ [y]) a d2 (Z.of_nat (length l) + 1)); [done|done| |lia|].
    - intros Hn. rewrite Hn in Hlen. cbn [length] in Hlen. lia.
    - rewrite Hlen, Hc2, !length_app. cbn [length]. rewrite length_app in Hc. lia. }
  intros [] s2 H2. rewrite Hlen, Ht2, drop_drop in H2.
  replace (c + _)%nat with (length (prompt ++ output) + 1)%nat in H2 by lia.
  replace (prompt ++ output ++ x :: l ++ [y]) with ((prompt ++ output) ++ [x] ++ (l ++ [y])) in H2 by (by rewrite <- (assoc_L (++))).
  rewrite <- drop_drop, drop_app_length in H2. cbn [app drop] in H2. rewrite <- (assoc_L (++)) in H2.
  split; [exact H2|]. intros n m w X b r i Hr Hb Hi Hin Hile HX Hidx Hadd.
  destruct H2 as (r' & Hr' & Hp & _ & _). assert (r' = r) as -> by congruence.
  eapply meets_weaken; [apply (add_to_batch_ok X r _ None b Hb); cbn [default from_option]; rewrite ?Hi; done|].
  intros [] b' (Hb' & _). cbn [default from_option] in Hb'. rewrite Hi in Hb'.
  destruct (o_tokens _ _ _ (b_slots _ _ _ _ _ Hb' i _ (lookup_insert_eq _ _ _))) as (row & Hrow & Hh).
  exists row. split; [exact Hrow|]. cbn [slot_of s_tokens] in Hh. rewrite Hp in Hh. unfold holds in Hh.
  set (k := length (prompt ++ output)). set (tokens := prompt ++ output ++ y :: l ++ [y]) in *.
  assert (Hy : tokens !! k = Some y).
  { unfold tokens, k. rewrite (assoc_L (++)). by rewrite list_lookup_middle. }
  rewrite Hh in Hy. by apply lookup_take_Some in Hy as [Hy _].
Qed.

(** The messages above: the output of [b] should end in 40, 41, 42, 43. *)
Lemma accepted_drafts_forgotten_witness : exists s a,
  (update_states params first ;; update_states params (drafting 40 41 42)) worker = (Ok tt, s) /\
  meets (for_each (V1Scheduler.scheduled_cached_reqs (accepting 43) ++
                   V1Scheduler.scheduled_cached_reqs (resuming 40 41 42 43)) update_cached) s
    (fun _ s' => recorded "b" [7; 8] [40; 43; 42; 43] a s').
Proof.
  set (m := (update_states params first ;; update_states params (drafting 40 41 42))).
  assert (H1 : (m worker).1 = Ok tt) by (vm_compute; reflexivity).
  assert (H2 : (fun r => (cached_prompt_token_ids r, cached_output_token_ids r)) <$> requests (m worker).2 !! "b"%string
    = Some ([7; 8], 1%nat)) by (vm_compute; reflexivity).
  assert (H3 : output_lists (m worker).2 !! 1%nat = Some [40]) by (vm_compute; reflexivity).
  clearbody m. destruct (m worker) as [r s]. cbn [fst snd] in H1, H2, H3. subst r.
  assert (H : recorded "b" [7; 8] [40] 1%nat s).
  { destruct (requests s !! "b"%string) as [r|] eqn:Hr; [|done]. injection H2 as H4 H5. by exists r. }
  exists s, 1%nat. split; [reflexivity|]. cbn [app for_each V1Scheduler.scheduled_cached_reqs].
  pose proof (accepted_drafts_forgotten s "b" [7; 8] [40] 1%nat 41 [42] 43
    (V1Scheduler.CachedRequest "b" false [43] [] 5)
    (V1Scheduler.CachedRequest "b" true [7; 8; 40; 41; 42; 43] [12; 13; 14] 0) 0%nat H
    eq_refl eq_refl eq_refl eq_refl eq_refl eq_refl ltac:(cbn; lia)) as Hm.
  unfold meets in *. cbn [accepting resuming V1Scheduler.scheduled_cached_reqs].
  rewrite bind_run in Hm. cbn [app for_each]. rewrite bind_run.
  destruct (update_cached _ s) as [[[]|] s1]; [|done]. rewrite bind_run.
  destruct (update_cached _ s1) as [[[]|] s2]; [|done]. exact (proj1 Hm).
Defined.
End Forgotten.

(** Nor are the drafts of a request that returns to the batch stored: the row ends
    before them. *)
Example drafts_not_stored : exists s,
  (for_each [WorkerStep.Sample.first; Forgotten.preempting;
     V1Scheduler.Output [] [V1Scheduler.CachedRequest "b" false [77] [10; 11] 2] (PyDict [("b", 3)]%string) 3
       (PyDict [("b", [80; 81])]%string) (PyDict []) 0 {["a"; "c"]}%string [] (PyDict [])]
     (update_states WorkerStep.Sample.params) WorkerStep.Sample.worker) = (Ok tt, s) /\
  InputBatch.token_ids_cpu (input_batch s) !! 0%nat = Some [7; 8; 77; 0; 0; 0; 0; 0].
Proof. eexists. split; [vm_compute; reflexivity|by vm_compute]. Qed.
End WorkerSampling.
