(* ===== verification/WorkerReorder.v ===== *)
(** * v1 workers: the reordering of a batch for MLA

    [reorder_batch] of the MLA backend exchanges slots from the two ends of the
    batch until the requests with a single scheduled token stand first. *)
From stdpp Require Import sorting.
From S2P Require Import Prelude.
From S2P Require Import PyDict.
From S2P Require Import Params.
From S2P Require Import Arrays.
From S2P Require Import InputBatch.
From S2P Require Import InputBatchCorrect.
From S2P Require Import ModelRunner.
From S2P Require Import ModelRunnerCorrect.
From S2P Require Import ModelRunnerInputs.
From S2P Require Import WorkerStep.
From S2P Require Import WorkerSampling.

Module WorkerReorder.
Import ModelRunner.
Import Slots.

Section Reorder.
Context {n m w : nat} (num : pydict string Z).
Implicit Types (X : gmap nat slot) (x : slot) (i j : nat) (D P : list nat).

(** A request with one scheduled token. *)
Definition decodes (x : slot) : Prop := num !! s_id x = Some 1.

Lemma exchange_dense X k i j x y : dense k X -> X !! i = Some x -> X !! j = Some y -> dense k (<[j := x]> (<[i := y]> X)).
Proof.
  intros Hd Hi Hj l. rewrite !lookup_insert_is_Some, (Hd l).
  assert (i < k)%nat by (apply Hd; by exists x). assert (j < k)%nat by (apply Hd; by exists y).
  destruct (decide (j = l)) as [->|]; [split; [done|by left]|]. destruct (decide (i = l)) as [->|]; [split; [done|by right; split; [|left]]|].
  split; [by intros [?|[_ [?|[_ ?]]]]|]. intros ?. right. split; [done|]. by right.
Qed.

Lemma exchange_same X i j x y : i <> j -> X !! i = Some x -> X !! j = Some y -> same_slots X (<[j := x]> (<[i := y]> X)).
Proof.
  intros Hne Hi Hj z. split; intros [l Hl].
  - destruct (decide (l = i)) as [->|Hli]; [exists j; rewrite lookup_insert_eq; congruence|].
    destruct (decide (l = j)) as [->|Hlj]; [exists i; rewrite lookup_insert_ne, lookup_insert_eq by done; congruence|].
    exists l. by rewrite !lookup_insert_ne.
  - destruct (decide (l = j)) as [->|Hlj]; [rewrite lookup_insert_eq in Hl; exists i; congruence|].
    rewrite lookup_insert_ne in Hl by done. destruct (decide (l = i)) as [->|Hli]; [rewrite lookup_insert_eq in Hl; exists j; congruence|].
    rewrite lookup_insert_ne in Hl by done. by exists l.
Qed.

Lemma same_slots_trans X1 X2 X3 : same_slots X1 X2 -> same_slots X2 X3 -> same_slots X1 X3.
Proof. intros H1 H2 x. by rewrite (H1 x). Qed.

(** Between two exchanges: the slots of [D] (descending) hold decodes, those of
    [P] (ascending) do not, all others are in their place, and as many slots of
    [D] as of [P] are not. *)
Record between (nd k : nat) X D P : Prop := Between {
  t_dense : dense k X;
  t_decodes : forall i, i ∈ D -> exists x, X !! i = Some x /\ decodes x;
  t_prefills : forall i, i ∈ P -> exists x, X !! i = Some x /\ ~ decodes x;
  t_back : forall i x, X !! i = Some x -> (nd <= i)%nat -> i ∉ D -> ~ decodes x;
  t_front : forall i x, X !! i = Some x -> (i < nd)%nat -> i ∉ P -> decodes x;
  t_desc : StronglySorted gt D;
  t_asc : StronglySorted lt P;
  t_count : length (filter (fun i => nd <= i)%nat D) = length (filter (fun i => i < nd)%nat P);
}.

Lemma between_swap nd k X d D p P x y : between nd k X (d :: D) (p :: P) -> (nd <= d)%nat ->
  X !! p = Some x -> X !! d = Some y -> (p < nd)%nat /\ between nd k (<[d := x]> (<[p := y]> X)) D P.
Proof.
  intros [Hdn HD HP HB HF [HsD HleD]%StronglySorted_inv [HsP HleP]%StronglySorted_inv Hc] Hd Hx Hy.
  assert (Hp : (p < nd)%nat).
  { destruct (decide (p < nd)%nat) as [|Hge]; [done|]. exfalso. rewrite filter_cons_True in Hc by done.
    assert (filter (fun i => i < nd)%nat (p :: P) = []) as Hnil; [|by rewrite Hnil in Hc].
    apply elem_of_nil_inv. intros i [Hi Hin]%list_elem_of_filter. apply elem_of_cons in Hin as [->|Hin]; [done|].
    rewrite Forall_forall in HleP. specialize (HleP i Hin). lia. }
  split; [done|].
  assert (HdD : d ∉ D) by (intros Hin; rewrite Forall_forall in HleD; specialize (HleD d Hin); lia).
  assert (HpP : p ∉ P) by (intros Hin; rewrite Forall_forall in HleP; specialize (HleP p Hin); lia).
  destruct (HD d ltac:(left)) as (y' & Hy' & Hdy). rewrite Hy in Hy'. injection Hy' as <-.
  destruct (HP p ltac:(left)) as (x' & Hx' & Hpx). rewrite Hx in Hx'. injection Hx' as <-.
  assert (Hne : p <> d) by lia.
  split; [by apply exchange_dense|..|done|done|].
  - intros i Hi. destruct (HD i ltac:(by right)) as (z & Hz & Hdz). exists z. split; [|done].
    rewrite !lookup_insert_ne; [done| |by intros ->]. intros <-. rewrite Hx in Hz. by injection Hz as <-.
  - intros i Hi. destruct (HP i ltac:(by right)) as (z & Hz & Hpz). exists z. split; [|done].
    rewrite !lookup_insert_ne; [done|by intros ->|]. intros <-. rewrite Hy in Hz. by injection Hz as <-.
  - intros i z Hz Hi Hni. destruct (decide (i = d)) as [->|Hid].
    { rewrite lookup_insert_eq in Hz. by injection Hz as <-. }
    rewrite !lookup_insert_ne in Hz by lia. apply (HB i z Hz Hi). intros [?|?]%elem_of_cons; done.
  - intros i z Hz Hi Hni. destruct (decide (i = p)) as [->|Hip].
    { rewrite lookup_insert_ne, lookup_insert_eq in Hz by done. by injection Hz as <-. }
    rewrite !lookup_insert_ne in Hz by lia. apply (HF i z Hz Hi). intros [?|?]%elem_of_cons; done.
  - rewrite filter_cons_True, (filter_cons_True _ p) in Hc by done. cbn in Hc. lia.
Qed.

(** Without a decode at the back all are in their place. *)
Lemma between_done nd k X D P : between nd k X D P -> filter (fun i => nd <= i)%nat D = [] ->
  forall i x, X !! i = Some x -> decodes x <-> (i < nd)%nat.
Proof.
  intros [_ _ _ HB HF _ _ Hc] Hnil i x Hx. rewrite Hnil in Hc. cbn in Hc. symmetry in Hc. apply length_zero_iff_nil in Hc.
  assert (Hin : forall (Q : nat -> Prop) `{!forall i, Decision (Q i)} (l : list nat), filter Q l = [] -> forall j, Q j -> j ∉ l).
  { intros Q' ? l Hl j Hj Hjl. assert (Hf : j ∈ filter Q' l) by by apply list_elem_of_filter. rewrite Hl in Hf. by apply elem_of_nil in Hf. }
  split; intros H.
  - destruct (decide (i < nd)%nat) as [|Hge]; [done|]. exfalso. apply (HB i x Hx); [lia| |done]. apply (Hin _ _ _ Hnil i). lia.
  - apply (HF i x Hx H). by apply (Hin _ _ _ Hc i).
Qed.

(** The number of slots and the vocabulary stay. *)
Definition same_batch (s s' : InputBatch.t) : Prop :=
  length (InputBatch.req_ids s') = length (InputBatch.req_ids s) /\ InputBatch.vocab_size s' = InputBatch.vocab_size s.

Lemma reorder_loop_ok nd k : forall D P X s modified, batch_ok n m w X s -> between nd k X D P ->
  meets (reorder_loop nd (zip D P) modified) s (fun changed s' => exists X', batch_ok n m w X' s' /\ dense k X' /\
    same_slots X X' /\ (forall i x, X' !! i = Some x -> decodes x <-> (i < nd)%nat) /\
    (changed = false -> X' = X /\ modified = false) /\ same_batch s s').
Proof.
  induction D as [|d D IH]; intros P X s modified Hb T.
  { cbn [zip zip_with reorder_loop]. apply meets_ret. exists X. split_and!; [done|apply T|done|by eapply between_done|done|done]. }
  destruct P as [|p P].
  { cbn [zip zip_with reorder_loop]. apply meets_ret. exists X. split_and!; [done|apply T|done| |done|done].
    eapply between_done; [done|]. apply length_zero_iff_nil. by rewrite (t_count _ _ _ _ _ T). }
  cbn [zip zip_with reorder_loop]. case_bool_decide as Hd.
  - destruct (t_decodes _ _ _ _ _ T d ltac:(left)) as (y & Hy & Hdy), (t_prefills _ _ _ _ _ T p ltac:(left)) as (x & Hx & Hpx).
    assert (Hne : p <> d) by (intros ->; rewrite Hx in Hy; by injection Hy as <-).
    destruct (between_swap nd k X d D p P x y T Hd Hx Hy) as [_ T'].
    eapply meets_bind; [by apply (swap_states_ok (n := n) (m := m) (w := w) X s p d x y)|]. intros [] s1 (Hb1 & Hl1 & Hv1).
    eapply meets_weaken; [by apply (IH P)|]. intros changed s' (X' & Hb' & Hdn & Hs' & Hall & Hch & Hl & Hv). exists X'.
    split_and!; [done|done| |done| |split; congruence]; [by eapply same_slots_trans; [apply exchange_same|]|].
    intros Hf. by apply Hch in Hf as [_ ?].
  - apply meets_ret. exists X. split_and!; [done|apply T|done| |done|done]. eapply between_done; [done|].
    apply elem_of_nil_inv. intros i [Hi Hin]%list_elem_of_filter. apply elem_of_cons in Hin as [->|Hin]; [done|].
    pose proof (t_desc _ _ _ _ _ T) as [_ Hle]%StronglySorted_inv. rewrite Forall_forall in Hle. specialize (Hle i Hin). lia.
Qed.

(** ** The slots to exchange *)

Lemma sorted_sublist {A} (R : A -> A -> Prop) (l k : list A) : l `sublist_of` k -> StronglySorted R k -> StronglySorted R l.
Proof.
  induction 1 as [|a l k Hs IH|a l k Hs IH]; intros Hk; [constructor|..];
    apply StronglySorted_inv in Hk as [Hk Hle]; [|by apply IH].
  constructor; [by apply IH|]. rewrite Forall_forall in Hle |- *. intros i Hi. apply Hle. by eapply elem_of_sublist.
Qed.

Lemma in_reverse {A} (l : list A) a : a ∈ reverse l -> a ∈ l.
Proof. by rewrite reverse_Permutation. Qed.

Lemma sorted_reverse {A} (R : A -> A -> Prop) (l : list A) : StronglySorted R l -> StronglySorted (flip R) (reverse l).
Proof.
  induction 1 as [|a l Hs IH Hle]; [constructor|]. rewrite reverse_cons. apply StronglySorted_app. split_and!.
  - intros i j Hi Hj. apply list_elem_of_singleton in Hj as ->. apply in_reverse in Hi. cbn.
    rewrite Forall_forall in Hle. by apply Hle.
  - exact IH.
  - repeat constructor.
Qed.

Lemma seq_sorted a k : StronglySorted lt (seq a k).
Proof.
  revert a. induction k as [|k IH]; intros a; cbn; [constructor|]. constructor; [apply IH|].
  apply Forall_forall. intros i Hi%elem_of_seq. lia.
Qed.

(** The slots whose count satisfies [Q]. *)
Definition slots_with (Q : Z -> Prop) `{!forall c, Decision (Q c)} (counts : list Z) : list nat :=
  (filter (fun p => Q p.2) (zip (seq 0 (length counts)) counts)).*1.

Lemma slots_with_sublist Q `{!forall c, Decision (Q c)} counts : slots_with Q counts `sublist_of` seq 0 (length counts).
Proof.
  unfold slots_with. rewrite <- (fst_zip (seq 0 (length counts)) counts) at 2 by (by rewrite length_seq).
  generalize (zip (seq 0 (length counts)) counts). induction l as [|p l IH]; [done|].
  rewrite filter_cons. case_decide; rewrite !fmap_cons; [by apply sublist_skip|by apply sublist_cons].
Qed.

Lemma elem_of_slots_with Q `{!forall c, Decision (Q c)} counts i :
  i ∈ slots_with Q counts <-> exists c, counts !! i = Some c /\ Q c.
Proof.
  unfold slots_with. rewrite list_elem_of_fmap. split.
  - intros ([j c] & -> & [Hq Hin]%list_elem_of_filter). apply list_elem_of_lookup_1 in Hin as [l Hl].
    apply lookup_zip_Some in Hl as [Hj Hc]. apply lookup_seq in Hj as [-> _]. by exists c.
  - intros (c & Hc & Hq). exists (i, c). split; [done|]. apply list_elem_of_filter. split; [done|].
    apply (list_elem_of_lookup_2 _ i). apply lookup_zip_Some. split; [|done]. apply lookup_seq.
    apply lookup_lt_Some in Hc. lia.
Qed.

Lemma slots_split Q `{!forall c, Decision (Q c)} counts :
  slots_with Q counts ++ slots_with (fun c => ~ Q c) counts ≡ₚ seq 0 (length counts).
Proof.
  apply NoDup_Permutation.
  - apply NoDup_app. split_and!.
    + eapply sublist_NoDup; [apply NoDup_seq|apply slots_with_sublist].
    + intros i (c & Hc & Hq)%elem_of_slots_with (c' & Hc' & Hq')%elem_of_slots_with. congruence.
    + eapply sublist_NoDup; [apply NoDup_seq|apply slots_with_sublist].
  - apply NoDup_seq.
  - intros i. rewrite elem_of_app, !elem_of_slots_with, elem_of_seq. split.
    + intros [(c & Hc & _)|(c & Hc & _)]; apply lookup_lt_Some in Hc; lia.
    + intros [_ Hi]. destruct (lookup_lt_is_Some_2 counts i) as [c Hc]; [lia|].
      destruct (decide (Q c)); [left|right]; by exists c.
Qed.

Lemma filter_seq_lt nd k : (nd <= k)%nat -> length (filter (fun i => i < nd)%nat (seq 0 k)) = nd.
Proof.
  intros Hk. replace k with (nd + (k - nd))%nat by lia. rewrite seq_app, filter_app, length_app. cbn.
  rewrite filter_id by (intros i Hi%elem_of_seq; lia). rewrite length_seq.
  assert (filter (fun i => i < nd)%nat (seq nd (k - nd)) = []) as ->; [|cbn; lia].
  apply elem_of_nil_inv. intros i [Hi Hin%elem_of_seq]%list_elem_of_filter. lia.
Qed.

Lemma filter_both (nd : nat) (l : list nat) :
  (length (filter (fun i => i < nd)%nat l) + length (filter (fun i => nd <= i)%nat l) = length l)%nat.
Proof.
  induction l as [|a l IH]; [done|]. rewrite !filter_cons. repeat case_decide; cbn; lia.
Qed.

(** As many decodes stand at the back as prefills at the front. *)
Lemma as_many Q `{!forall c, Decision (Q c)} counts : let D := slots_with Q counts in
  length (filter (fun i => length D <= i)%nat (reverse D)) =
  length (filter (fun i => i < length D)%nat (slots_with (fun c => ~ Q c) counts)).
Proof.
  intros D. pose proof (slots_split Q counts) as Hp. fold D in Hp. set (P := slots_with _ counts) in *.
  assert (Hle : (length D <= length counts)%nat).
  { apply Permutation_length in Hp. rewrite length_app, length_seq in Hp. lia. }
  pose proof (filter_seq_lt (length D) (length counts) Hle) as Hf.
  rewrite <- Hp, filter_app, length_app in Hf. pose proof (filter_both (length D) D) as Hb.
  rewrite (reverse_Permutation D). lia.
Qed.

Lemma counts_run X s : batch_ok n m w X s -> dense (size X) X -> length (InputBatch.req_ids s) = size X ->
  (forall i x, X !! i = Some x -> is_Some (num !! s_id x)) ->
  exists counts, mapM (scheduled_of num) (InputBatch.req_ids s) = Ok counts /\ length counts = size X /\
    forall i x, X !! i = Some x -> counts !! i = num !! s_id x.
Proof.
  intros Hb Hd Hlen Hnum.
  pose (g := fun oid : option string => default 0 (match oid with Some id => num !! id | None => None end)).
  assert (Hat : forall i, (i < size X)%nat -> exists x, X !! i = Some x /\ InputBatch.req_ids s !! i = Some (Some (s_id x)) /\
    num !! s_id x = Some (g (Some (s_id x)))).
  { intros i Hi. destruct (proj2 (Hd i) Hi) as [x Hx]. exists x. destruct (Hnum i x Hx) as [c Hc].
    split_and!; [done|apply (o_id _ _ _ (b_slots _ _ _ _ _ Hb i x Hx))|]. unfold g. by rewrite Hc. }
  exists (map g (InputBatch.req_ids s)). split_and!.
  - apply Inputs.mapM_run. intros oid [i Hi]%list_elem_of_lookup_1. destruct (Hat i) as (x & _ & Hid & Hc).
    { rewrite <- Hlen. by eapply lookup_lt_Some. }
    rewrite Hi in Hid. injection Hid as ->. cbn [scheduled_of]. by rewrite Hc.
  - by rewrite length_map.
  - intros i x Hx. destruct (Hat i) as (x' & Hx' & Hid & Hc); [apply Hd; by exists x|]. rewrite Hx in Hx'. injection Hx' as <-.
    change map with (@fmap list list_fmap). rewrite list_lookup_fmap, Hid. cbn. by rewrite Hc.
Qed.

Lemma reorder_ok X s : batch_ok n m w X s -> dense (size X) X -> length (InputBatch.req_ids s) = size X ->
  (forall i x, X !! i = Some x -> is_Some (num !! s_id x)) ->
  meets (reorder_batch num) s (fun changed s' => exists X' num_decodes, batch_ok n m w X' s' /\ dense (size X) X' /\
    same_slots X X' /\ (forall i x, X' !! i = Some x -> decodes x <-> (i < num_decodes)%nat) /\
    (changed = false -> X' = X) /\ same_batch s s').
Proof.
  intros Hb Hd Hlen Hnum. unfold reorder_batch. apply meets_get.
  destruct (counts_run X s Hb Hd Hlen Hnum) as (counts & Hrun & Hcl & Hat). eapply meets_lift; [exact Hrun|].
  set (D := slots_with (fun c => c = 1) counts). set (P := slots_with (fun c => c <> 1) counts).
  assert (Hmem : forall i x, X !! i = Some x -> (i ∈ D <-> decodes x) /\ (i ∈ P <-> ~ decodes x)).
  { intros i x Hx. destruct (Hnum i x Hx) as [c Hc]. unfold D, P, decodes. rewrite !elem_of_slots_with, (Hat i x Hx), Hc.
    split; split; [by intros (c' & [= <-] & ->)|by intros [= ->]; exists 1|by intros (c' & [= <-] & Hn) [= ->]|].
    intros Hn. exists c. split; [done|]. congruence. }
  assert (Hin : forall i, (exists c, counts !! i = Some c) -> exists x, X !! i = Some x).
  { intros i [c Hc]. apply Hd. rewrite <- Hcl. by eapply lookup_lt_Some. }
  eapply meets_weaken; [apply (reorder_loop_ok (length D) (size X) (reverse D) P X s false Hb)|].
  - split; [done|..].
    + intros i Hi%in_reverse. pose proof Hi as (c & Hc & _)%elem_of_slots_with. destruct (Hin i) as [x Hx]; [by exists c|].
      exists x. split; [done|]. by apply (Hmem i x Hx).
    + intros i Hi. pose proof Hi as (c & Hc & _)%elem_of_slots_with. destruct (Hin i) as [x Hx]; [by exists c|].
      exists x. split; [done|]. by apply (Hmem i x Hx).
    + intros i x Hx _ Hni Hdx. apply Hni, elem_of_reverse. by apply (Hmem i x Hx).
    + intros i x Hx _ Hni. destruct (decide (decodes x)) as [|Hnd]; [done|]. exfalso. apply Hni. by apply (Hmem i x Hx).
    + apply (sorted_reverse lt). eapply sorted_sublist; [apply slots_with_sublist|apply seq_sorted].
    + eapply sorted_sublist; [apply slots_with_sublist|apply seq_sorted].
    + apply (as_many (fun c => c = 1)).
  - intros changed s' (X' & Hb' & Hd' & Hs' & Hall & Hch & Hsame). exists X', (length D). split_and!; [done..| |done].
    intros Hf. by apply Hch.
Qed.

Lemma reorder_loop_size k nd swaps : forall modified, preserves (WorkerStep.row_size k) (reorder_loop nd swaps modified).
Proof.
  induction swaps as [|[i j] swaps IH]; intros modified; cbn [reorder_loop]; [apply preserves_ret|].
  case_bool_decide; [|apply preserves_ret].
  apply preserves_bind; [apply WorkerStep.swap_states_size|]. intros []. apply IH.
Qed.

Lemma reorder_size k : preserves (WorkerStep.row_size k) (reorder_batch num).
Proof.
  unfold reorder_batch. apply preserves_bind; [apply preserves_get|]. intros s.
  apply preserves_bind; [apply preserves_lift|]. intros counts. apply reorder_loop_size.
Qed.

(** C9. [reorder_batch] of the MLA backend returns without an error for a batch
    whose requests are all scheduled; afterwards the same requests are in the
    batch, without holes, and those with a single scheduled token stand before all
    the others; if it answers [False] nothing has moved. *)
Theorem decodes_first X s : batch_ok n m w X s -> dense (size X) X -> length (InputBatch.req_ids s) = size X ->
  (forall i x, X !! i = Some x -> is_Some (num !! s_id x)) ->
  meets (reorder_batch num) s (fun changed s' => exists X' num_decodes, batch_ok n m w X' s' /\ dense (size X) X' /\
    same_slots X X' /\ (forall i x, X' !! i = Some x -> decodes x <-> (i < num_decodes)%nat) /\ (changed = false -> X' = X)).
Proof.
  intros Hb Hd Hlen Hnum. eapply meets_weaken; [by apply (reorder_ok X)|].
  intros changed s' (X' & k & Hb' & Hd' & Hs' & Hall & Hch & _). by exists X', k.
Qed.
End Reorder.

(** [a] has three tokens and is in the first slot, [b] has one. *)
Definition sample_counts : pydict string Z := PyDict [("a", 3); ("b", 1)]%string.

Lemma decodes_first_witness :
  let s := input_batch (update_states WorkerStep.Sample.params WorkerStep.Sample.first WorkerStep.Sample.worker).2 in
  exists X, size X = 2%nat /\ meets (reorder_batch sample_counts) s (fun changed s' => exists X' num_decodes,
    batch_ok 2 8 4 X' s' /\ dense (size X) X' /\ same_slots X X' /\
    (forall i x, X' !! i = Some x -> decodes sample_counts x <-> (i < num_decodes)%nat) /\ (changed = false -> X' = X)).
Proof.
  pose proof (@WorkerStep.init_follows 2 8 4 100 2 (fun _ => []) 8 eq_refl) as [I0 _].
  destruct (@WorkerSampling.after_message 2 8 4 WorkerStep.Sample.params 100 WorkerStep.Sample.worker ∅ ∅
    WorkerStep.Sample.first I0 WorkerStep.Sample.first_fits) as (X & C & I & HC).
  pose proof (Runner.i_open _ _ _ _ _ I) as O.
  intros s. exists X. split.
  { rewrite (Runner.content_size _ _ _ _ O), <- size_dom.
    assert (dom C = {["a"; "b"]}%string) as ->; [|by vm_compute].
    apply set_eq. intros id. rewrite elem_of_dom, HC. cbn. set_solver. }
  apply (@decodes_first 2 8 4 sample_counts X s (Runner.p_batch _ _ _ _ O)).
  - apply (Runner.open_dense _ _ _ O).
  - etransitivity; [exact (Runner.open_length _ _ _ _ O)|]. cbn [length].
    rewrite Nat.add_0_r. symmetry. exact (Runner.content_size _ _ _ _ O).
  - intros i x Hx. assert (Hid : s_id x ∈ ["a"; "b"]%string).
    { apply HC. exists x. apply (Runner.p_content _ _ _ _ O). by exists i. }
    apply list_elem_of_In in Hid as [<-|[<-|[]]]; by eexists.
Defined.

Example b_comes_first :
  let s := input_batch (update_states WorkerStep.Sample.params WorkerStep.Sample.first WorkerStep.Sample.worker).2 in
  (reorder_batch sample_counts s).1 = Ok true /\
  InputBatch.req_ids (reorder_batch sample_counts s).2 = [Some "b"; Some "a"]%string.
Proof. by vm_compute. Qed.
End WorkerReorder.
