(* ===== verification/WorkerPrepare.v ===== *)
(** * v1 workers: a step of the worker computes what the scheduler asked for

    [update_states] and [prepare_inputs] together, for either attention backend:
    the batch may be put in another order before the inputs are computed; they
    are those of the scheduler's message, request by request, in that order. *)
From S2P Require Import Prelude.
From S2P Require Import PyDict.
From S2P Require Import V1Scheduler.
From S2P Require Import Params.
From S2P Require Import Arrays.
From S2P Require Import InputBatch.
From S2P Require Import InputBatchCorrect.
From S2P Require Import ModelRunner.
From S2P Require Import ModelRunnerCorrect.
From S2P Require Import ModelRunnerInputs.
From S2P Require Import WorkerStep.
From S2P Require Import WorkerReorder.

Module WorkerPrepare.
Import ModelRunner.
Import Slots.
Import Runner.
Import Inputs.
Import WorkerStep.

Section Prepare.
Context {n m w : nat} (vocab : Z).

(** With MLA the first [k] slots hold the requests with one scheduled token. *)
Definition arranged (builder : attn_metadata_builder) (num : pydict string Z) (X : gmap nat slot) : Prop :=
  match builder with
  | FlashAttentionMetadataBuilder => True
  | MLACommonMetadataBuilder => exists k : nat, forall i x, X !! i = Some x -> WorkerReorder.decodes num x <-> (i < k)%nat
  end.

(** The hook and the refresh after it leave the runner as it was, but for the order
    of the batch. *)
Lemma hook_ok builder num s X C : @runner_inv n m w vocab s X C [] ->
  (forall id, is_Some (C !! id) -> is_Some (num !! id)) ->
  meets (modified_batch ← on_batch (hook_reorder_batch builder num);
         (if modified_batch : bool then on_batch InputBatch.refresh_sampling_metadata else mret tt)) s
    (fun _ s' => exists b' X', s' = with_batch b' s /\ @runner_inv n m w vocab s' X' C [] /\ arranged builder num X' /\
      InputBatch.max_model_len b' = InputBatch.max_model_len (input_batch s)).
Proof.
  intros I Hnum. pose proof (i_open _ _ _ _ _ I) as O. destruct builder; cbn [hook_reorder_batch].
  { apply meets_last, meets_ret. exists (input_batch s), X. split_and!; [by destruct s| |done..].
    eapply inv_batch; [exact I|exact O|apply I]. }
  pose proof (open_length _ _ _ _ O) as Hlen. rewrite <- (content_size _ _ _ _ O) in Hlen. cbn in Hlen.
  assert (Hall : forall i x, X !! i = Some x -> is_Some (num !! s_id x)).
  { intros i x Hx. apply Hnum. exists x. apply (p_content _ _ _ _ O). by exists i. }
  eapply meets_bind; [apply meets_on_batch; exact (meets_preserves _ _ _ _ (WorkerReorder.reorder_size num _) eq_refl
    (WorkerReorder.reorder_ok num X (input_batch s) (p_batch _ _ _ _ O) (open_dense _ _ _ O) ltac:(lia) Hall))|].
  intros changed s1 (b1 & -> & (X1 & k & Hb1 & Hd1 & Hs1 & Hdec & Hch & Hl1 & Hv1) & Hm1).
  assert (I1 : @runner_inv n m w vocab (with_batch b1 s) X1 C []).
  { eapply inv_batch; [exact I| |by rewrite Hv1; apply I]. split; [done|by eapply content_same, Hs1; apply O| |constructor].
    intros i. rewrite Hl1. split; [by intros ?%elem_of_nil|]. intros [Hi Hn]. destruct (proj2 (Hd1 i)) as [x Hx]; [lia|].
    congruence. }
  destruct changed; [|apply meets_ret; by exists b1, X1; split_and!; [| |exists k|]].
  eapply meets_weaken; [apply meets_on_batch, (refresh_ok (n := n) (m := m) (w := w) X1);
    [apply I1|by eapply open_dense, I1|by eapply prompts_fit]|].
  intros [] s2 (b2 & -> & d & -> & Hb2 & _). eexists _, X1. split_and!; [reflexivity| |by exists k|exact Hm1].
  eapply inv_batch; [exact I1| |by cbn; rewrite Hv1; apply I]. destruct (i_open _ _ _ _ _ I1) as [Q1 Q2 Q3 Q4]. by split.
Qed.

(** C6. A step of the worker computes what the scheduler asked for: for a message
    that is true of the requests and fits the worker, [_update_states] and then
    [_prepare_inputs] return without an error, for either attention backend; the
    worker still follows the requests; and the inputs of the model are the tokens,
    the positions, the cache slots (through the blocks the scheduler allocated),
    the lengths and the positions to sample from of the scheduled requests, one
    after the other in the order of the batch, whatever slots the requests have
    moved to.  With MLA, which reorders the batch, the requests with one scheduled
    token come first. *)
Theorem worker_computes_schedule params_of builder (use : Z -> list Z -> bool) (s : t) X C out T T' B B' L L' :
  @runner_inv n m w vocab s X C [] -> follows s C T B L ->
  @message_ok n m w params_of vocab s C out -> truthful s C T T' B B' L L' out ->
  computable (block_size s) B' out -> @sizes_ok n m w s out ->
  meets (update_states params_of out ;; prepare_inputs use builder out) s (fun inputs s' => exists X' C' jobs cp,
    @runner_inv n m w vocab s' X' C' [] /\ follows s' C' T' B' L' /\
    map j_id jobs ≡ₚ keys (V1Scheduler.num_scheduled_tokens out) /\ Forall (asked out) jobs /\
    inputs = inputs_of (block_size s) B' cp jobs /\
    0 <= cp <= V1Scheduler.num_common_prefix_blocks out * block_size s /\ cp mod block_size s = 0 /\
    Forall (fun j => cp <= j_start j) jobs /\
    (builder = MLACommonMetadataBuilder ->
      exists k : nat, forall i j, jobs !! i = Some j -> j_count j = 1 <-> (i < k)%nat)).
Proof.
  intros I V Q R P Z.
  eapply meets_bind; [exact (meets_preserves _ _ s _ (update_states_limits (limits s) params_of out) eq_refl
    (update_states_ok params_of vocab s X C out I Q))|].
  intros [] s1 [(X1 & C1 & I1 & H1) Hlim].
  assert (Hbs : block_size s1 = block_size s) by by injection Hlim.
  pose proof (sizes_same s s1 out Hlim Z) as Z1. rewrite <- Hbs in *.
  destruct (inputs_computed vocab params_of use s s1 X X1 C C1 out T T' B B' L L' I V Q R H1 I1 P Z1)
    as (_ & _ & Htot & Hreqs & _).
  unfold prepare_inputs. apply meets_assert; [by apply Z.ltb_lt|].
  eapply meets_step; [by destruct s1|]. apply meets_assert; [by apply bool_decide_eq_true_2|].
  apply meets_reassoc. eapply meets_bind; [apply (hook_ok builder _ s1 X1 C1 I1)|].
  { intros id Hid. by apply elem_of_keys, (h_scheduled _ _ _ _ _ _ _ H1). }
  intros [] s2 (b2 & X2 & -> & I2 & Harr & Hlen). set (s2 := with_batch b2 s1) in *.
  assert (H2 : message_heard params_of vocab s s2 C C1 out) by by destruct H1; split.
  assert (Z2 : @sizes_ok n m w s2 out) by (apply (sizes_same s1); [by unfold limits; cbn; rewrite Hlen|done]).
  destruct (inputs_computed vocab params_of use s s2 X X2 C C1 out T T' B B' L L' I V Q R H2 I2 P Z2)
    as (Hids & Hasked & _ & _ & cp & Hrun & Hcp & Hmod & Hle).
  apply meets_get. unfold meets, lift. rewrite Hrun.
  eexists X2, C1, _, cp. split_and!; [exact I2| |exact Hids|exact Hasked|reflexivity|apply Hcp|apply Hcp|exact Hmod|exact Hle|].
  - exact (follows_heard vocab params_of s s2 X C C1 out T T' B B' L L' I V Q R H2).
  - intros ->. destruct Harr as [k Hk]. exists k. intros i j Hj.
    destruct (jobs_lookup vocab params_of s s2 X X2 C C1 out T T' B B' L L' I V Q R H2 I2 P i j Hj) as (x & Hx & Hnum).
    rewrite <- (Hk i x Hx). unfold WorkerReorder.decodes. rewrite Hnum. split; [by intros ->|congruence].
Qed.
End Prepare.

(** Two new requests, of whose prompts three tokens and one token are scheduled. *)
Definition mixed : V1Scheduler.SchedulerOutput :=
  V1Scheduler.Output [Sample.new_request "a" [1; 2; 3] [5; 6]; Sample.new_request "b" [7; 8] [9]] []
    (PyDict [("a", 3); ("b", 1)]%string) 4 (PyDict []) (PyDict []) 0 ∅ [] (PyDict []).

Lemma mixed_fits : @message_ok 2 8 4 Sample.params 100 Sample.worker ∅ mixed.
Proof.
  split; [apply (bool_decide_unpack _); by vm_compute| |cbn; lia| |by intros d ?%elem_of_nil].
  - intros id. by vm_compute.
  - intros d Hd. split; [|by left].
    apply list_elem_of_In in Hd as [<-|[<-|[]]]; (split_and!; [cbn; lia..|intros l; discriminate|discriminate]).
Qed.

Lemma worker_computes_schedule_witness :
  meets (update_states Sample.params mixed ;; prepare_inputs (fun _ _ => false) MLACommonMetadataBuilder mixed)
    Sample.worker (fun inputs s' => exists X' C' jobs cp,
    @runner_inv 2 8 4 100 s' X' C' [] /\ follows s' C' Sample.tokens Sample.blocks {["a"; "b"]}%string /\
    map j_id jobs ≡ₚ ["a"; "b"]%string /\ Forall (asked mixed) jobs /\
    inputs = inputs_of 2 Sample.blocks cp jobs /\
    0 <= cp <= 0 /\ cp mod 2 = 0 /\ Forall (fun j => cp <= j_start j) jobs /\
    (MLACommonMetadataBuilder = MLACommonMetadataBuilder ->
      exists k : nat, forall i j, jobs !! i = Some j -> j_count j = 1 <-> (i < k)%nat)).
Proof.
  pose proof (@init_follows 2 8 4 100 2 (fun _ => []) 8 eq_refl) as [I V].
  apply (@worker_computes_schedule 2 8 4 100 Sample.params MLACommonMetadataBuilder (fun _ _ => false) Sample.worker ∅ ∅
    mixed (fun _ => []) Sample.tokens (fun _ => []) Sample.blocks ∅ {["a"; "b"]}%string I V).
  - exact mixed_fits.
  - split.
    + intros d Hd. by apply list_elem_of_In in Hd as [<-|[<-|[]]].
    + by intros d r ?%elem_of_nil.
    + by intros id [r Hr].
    + by intros id [r Hr].
    + intros id Hid. left. cbn. set_solver.
  - split; cbn; [done|apply (bool_decide_unpack _); by vm_compute|done| |by intros d ?%elem_of_nil| |done].
    + intros d Hd. apply list_elem_of_In in Hd as [<-|[<-|[]]]; [exists 3|exists 1]; by vm_compute.
    + intros j Hj. destruct Hj as [d k Hd Hk|d Hd]; [|by apply elem_of_nil in Hd].
      apply list_elem_of_In in Hd as [<-|[<-|[]]]; cbn in Hk; injection Hk as <-;
        (split; [by vm_compute|repeat constructor; by vm_compute]).
  - split; by vm_compute.
Defined.

(** [b], with one token, comes first with MLA. *)
Example mixed_inputs builder :
  meets (update_states Sample.params mixed ;; prepare_inputs (fun _ _ => false) builder mixed) Sample.worker
    (fun inputs _ => input_ids inputs =
      match builder with
      | FlashAttentionMetadataBuilder => [1; 2; 3; 7]
      | MLACommonMetadataBuilder => [7; 1; 2; 3]
      end).
Proof. destruct builder; by vm_compute. Qed.
End WorkerPrepare.
